(* ===== verification/_CoqProject ===== *)
-Q . S2P
Prelude.v
Mem.v
CString.v
Riscv.v
Kalloc.v
Vm.v
PageTable.v
VmSpec.v
VmCopy.v
RingbufK.v
RingbufFind.v
RingbufMap.v
RingbufSpec.v
RingbufClose.v
Demo.v
RingbufProps.v
RingbufCycle.v
RingbufU.v
RingbufUSpec.v
RingbufE2E.v
Pipe.v
Spinlock.v
Sleeplock.v
Block.v
Bio.v
BioList.v
BioSpec.v
BioProps.v
Log.v
LogSpec.v
LogProps.v
Fs.v
FsBlocks.v
FsAlloc.v
FsInode.v
FsRw.v
FsDisk.v
FsWrite.v
FsDir.v
FsTrunc.v
FsProps.v
FsPath.v
File.v
Sysfile.v
SysfileSpec.v
Proc.v
ProcConc.v
ProcProps.v
ProcExit.v
Grep.v
Printf.v
Malloc.v
MallocSpec.v
Console.v
Uart.v
Virtio.v
VirtioSpec.v
VirtioInv.v
VirtioProps.v
VirtioInit.v
Sh.v
ShSpec.v
ShNul.v
ShProps.v
Exec.v
ExecSpec.v
Mkfs.v
MkfsSpec.v
MkfsInv.v
MkfsProps.v
Rb.v
Hart.v
HartProps.v
Syscall.v
Trap.v
TrapProps.v
Kvm.v
Boot.v
BootInit.v
UserProgs.v
