(* ===== verification/Prelude.v ===== *)
(** * Verification of zerocopy-ringbuf

    The repository is the xv6 kernel for RISC-V with a system call for zero-copy ring buffers, a
    user library for them, the programs that use both, and the program that makes the disk
    image.  This library models it from the reset vector up to the shell and proves that its
    parts do what they are for.

    ** The program

    A ring buffer is 64 KB of physical memory that every process that opens it finds twice in a
    row in its address space, so that a window into the ring is contiguous wherever it wraps; a
    page below holds two counters, the bytes read and the bytes written.  The kernel
    ([src/kernel/ringbuf.c]) finds the address space, maps the pages and keeps the table of names;
    the library ([src/user/ringbuf.c]) hands out windows by reading and writing the counters, with
    no system call.  Below are the page tables ([vm.c]) and the page allocator ([kalloc.c]); around
    it the rest of the kernel: processes and traps, locks, the file system on a write-ahead log on
    a buffer cache on a disk driver, the console, and the user programs.

    ** How the code is modelled

    Code that runs in the kernel is a state transformer [M S A] (this file): it ends with a value
    and a new state ([Done]), panics ([Panic]), or waits for ever ([Hang]).  The state is the part
    of the machine the code uses, as the C structures have it: physical memory is a map from
    addresses to bytes ([Mem]), page tables and the free list are bytes in it, the tables of the
    kernel are lists of records, and pointers into a table are indices.  Integers are [Z] with the
    wrap-around written out where the C type can wrap ([u8], [u32], [s32], [u64]).  Code that other
    CPUs or processes can run in between is cut at the points where they can, and a step relation
    or a schedule interleaves the pieces.  Assembly is a list of instructions on a hart with its
    registers and Sv39 translation.  User programs are trees of the accesses or system calls they
    make.  The linker's addresses and the answers of devices are parameters.

    ** The files

    Memory and integers.
    - [Prelude]: the monad and its laws, integer widths, circular buffers, tactics and hints.
    - [Mem], [CString]: loads and stores; [kernel/string.c] and functions of [user/ulib.c].
    - [Riscv]: the macros of [kernel/riscv.h] and [kernel/memlayout.h].
    - [Kalloc]: [kernel/kalloc.c].
    - [Vm] is [kernel/vm.c]; [PageTable] reads a page table as a map, [VmSpec] and [VmCopy] prove the
      operations correct against that reading; [Kvm] is the kernel's own table.

    Ring buffers.
    - [RingbufK] is [kernel/ringbuf.c] and [sys_ringbuf].  [RingbufFind], [RingbufMap], [RingbufSpec],
      [RingbufClose] prove its pieces, [RingbufProps] and [RingbufCycle] the theorems; [Demo] is a
      concrete machine for them.
    - [RingbufU] is [user/ringbuf.c], [RingbufUSpec] its theorems for one reader and one writer;
      [RingbufE2E] puts kernel and library together; [Rb] is the benchmark [user/rb.c].

    Concurrency and processes.
    - [Spinlock], [Sleeplock], [Pipe]: the files of these names, with any number of CPUs or processes.
    - [Proc] is [kernel/proc.c], [ProcConc] cuts it at its locks, [ProcProps] has the theorems; [ProcExit]
      is about a process that exits while more than its memory is mapped.
    - [Exec] and [ExecSpec]: [kernel/exec.c].
    - [Hart] and [HartProps]: [trampoline.S], [swtch.S], [kernelvec.S], [entry.S] and the register access
      functions of [riscv.h].
    - [Syscall] is [syscall.c], [sysproc.c] and [sys_exec]; [Trap] and [TrapProps] are [trap.c].
    - [Boot] is [entry.S], [start.c], [plic.c], [main.c]; [BootInit] follows [main], the initialisation of the
      disk included, to user mode.

    The file system.
    - [Bio], [BioList], [BioSpec], [BioProps]: [kernel/bio.c].
    - [Log], [LogSpec], [LogProps]: [kernel/log.c].
    - [Block] and [Fs] are [kernel/fs.c] over the interface [Blocks]; [FsBlocks] states what [fs.c] relies on
      ([BlocksSpec]) and shows that log and cache provide it; [FsAlloc], [FsInode], [FsRw], [FsDisk],
      [FsWrite], [FsDir], [FsTrunc], [FsPath] and [FsProps] prove the layers.
    - [File] is [kernel/file.c] with [pipealloc], [Sysfile] and [SysfileSpec] are [kernel/sysfile.c].
    - [Mkfs], [MkfsSpec], [MkfsInv], [MkfsProps]: [mkfs/mkfs.c].

    Drivers.
    - [Console], [Uart], [Printf]: the files of these names.
    - [Virtio], [VirtioSpec], [VirtioInv], [VirtioProps], [VirtioInit]: [kernel/virtio_disk.c].

    User programs.
    - [Grep], [Malloc] and [MallocSpec] ([umalloc.c]), [Sh], [ShSpec], [ShNul] and [ShProps] ([sh.c]).
    - [UserProgs]: [cat], [wc], [grep]'s main, [echo], [ls], [mkdir], [rm], [ln], [kill], [zombie], [init],
      [pb], [forktest], [stressfs], [grind], [krbt], [urbt].

    ** What is proved

    - Ring buffers: creating one returns 0 and maps zeroed memory twice, joining reaches the same
      bytes, closing undoes opening, and the search for address space is complete; under every
      interleaving of a reader and a writer no unread byte is overwritten, and a byte stored
      through the writer's window is the byte the reader has at that position of the stream.  The
      benchmark's transfer loses nothing under any schedule and ends under every fair one.  The
      inputs on which the code is wrong are theorems too: the address of the reader, the slot a new
      ring takes, a process that exits with a ring open.
    - Storage: the cache is a store of blocks, transactions survive a crash whole or not at all,
      what is written is read back, names and blocks are neither lost nor shared, the driver is
      an atomic disk whose callers are woken, and the image of [mkfs] is one the kernel's theorems apply to.
    - Processes: locks exclude, sleepers are woken, pids are unique, descriptors are counted
      exactly, pipes are queues, and [exec] hands over its arguments when they fit.
    - The machine: every hart gets from reset to [main], the kernel's address space is right, the
      kernel boots into [initcode], and a system call returns to the next instruction with its
      result and every other register as it was.
    - Terminal and programs: the console is a line editor and the UART a queue; the shell parses
      what it prints and runs what it parsed; [grep] decides its patterns; [malloc] shares
      out the heap and keeps blocks apart; [init] keeps one shell; [cat], [wc] and [grep] print what they should for every way
      [read] may cut up a file.

    ** Bounds and fuel

    Loops whose number of rounds is not evident run under a bound and end in [Hang] when it is
    used up; the theorems say [Done], so that the bound is enough is part of what they prove.
    [whileM] allows [2 ^ k] rounds, with [k = 26] for the search of [find_contiguous_pages], which
    has fewer pages to look at.  Walks of a list or a table take its size as fuel, loops over
    bytes, blocks and directory entries a number computed from their bounds, the parser of the
    shell the length of the line, and [grep] the length of its input.  The theorem about [main] needs 348
    free pages, what the tables and stacks of the kernel, the three pages of the disk driver and the first
    process take at most.
    Runs of user programs take a number of steps that [runs] asserts to exist.

    ** Not modelled

    - [user/usertests.c]: test scripts, each a fixed sequence of system calls with the answers it
      expects.  They have no state and no algorithm of their own; what they sample of the kernel
      is here stated of the kernel.
    - [kernel/ramdisk.c]: dead code that does not compile, for it uses fields [struct buf] no longer has.
    - [usys.pl], [initcode.S], link scripts, prototypes, [types.h], [Makefile]: generated, declarative or
      outside the program; the bytes of [initcode] are those of [proc.c].
    - Console output of the kernel ([printf] under [KLOG], the text of a panic) and the locks that
      only protect it.
    - The memory model below the locks: accesses are sequentially consistent, and the TLB and the
      caches are not visible.
    - The file system under several processes at once: its operations run one at a time, and a
      lock held by another process is one the running process cannot get ([Hang]).
    - The opening and timing part of [user/rb.c], and [malloc] failing in the shell. *)

From stdpp Require Export base list gmap strings numbers.
From Stdlib Require Export ZArith Lia.

#[global] Open Scope Z_scope.
#[export] Ltac Zify.zify_post_hook ::= Z.to_euclidean_division_equations.
#[export] Set Default Goal Selector "!".

(** ** Machine integers

    C integers are [Z] values kept in range by an explicit wrap-around:
    [u8], [u16], [u32] and [u64] truncate to an unsigned type, [s32] to [int]
    and [s16] to [short]. *)

Definition u8 (x : Z) : Z := x mod 2 ^ 8.
Definition u16 (x : Z) : Z := x mod 2 ^ 16.
Definition u32 (x : Z) : Z := x mod 2 ^ 32.
Definition u64 (x : Z) : Z := x mod 2 ^ 64.
Definition s16 (x : Z) : Z := (x + 2 ^ 15) mod 2 ^ 16 - 2 ^ 15.
Definition s32 (x : Z) : Z := (x + 2 ^ 31) mod 2 ^ 32 - 2 ^ 31.

Lemma u8_small x : 0 <= x < 2 ^ 8 -> u8 x = x.
Proof. apply Z.mod_small. Qed.

Lemma u16_small x : 0 <= x < 2 ^ 16 -> u16 x = x.
Proof. apply Z.mod_small. Qed.

Lemma u32_small x : 0 <= x < 2 ^ 32 -> u32 x = x.
Proof. apply Z.mod_small. Qed.

Lemma u64_small x : 0 <= x < 2 ^ 64 -> u64 x = x.
Proof. apply Z.mod_small. Qed.

Lemma s32_small x : - 2 ^ 31 <= x < 2 ^ 31 -> s32 x = x.
Proof. intros. unfold s32. rewrite Z.mod_small; lia. Qed.

Lemma u8_range x : 0 <= u8 x < 2 ^ 8.
Proof. apply Z.mod_pos_bound; lia. Qed.

Lemma u32_range x : 0 <= u32 x < 2 ^ 32.
Proof. apply Z.mod_pos_bound; lia. Qed.

Lemma u64_range x : 0 <= u64 x < 2 ^ 64.
Proof. apply Z.mod_pos_bound; lia. Qed.

Lemma s32_range x : - 2 ^ 31 <= s32 x < 2 ^ 31.
Proof. unfold s32. pose proof (Z.mod_pos_bound (x + 2 ^ 31) (2 ^ 32)). lia. Qed.

(** ** Lists *)

Lemma seqZ_one m : seqZ m 1 = [m].
Proof. rewrite seqZ_cons by lia. done. Qed.

Lemma elem_of_take_in {A} (x : A) k l : x ∈ take k l -> x ∈ l.
Proof. intros (i & Hi & _)%elem_of_take. by apply list_elem_of_lookup_2 with i. Qed.

Lemma filter_all {A} (P : A -> Prop) `{forall x, Decision (P x)} (l : list A) : Forall P l -> filter P l = l.
Proof.
  induction 1 as [|x l Hx _ IH]; [done|]. rewrite filter_cons, decide_True by done. by f_equal.
Qed.

(** ** Tables: functions updated at one index *)

Definition upd {A} (f : nat -> A) (k : nat) (x : A) : nat -> A := fun j => if decide (j = k) then x else f j.

Lemma upd_eq {A} (f : nat -> A) k x : upd f k x k = x.
Proof. unfold upd. by rewrite decide_True. Qed.

Lemma upd_ne {A} (f : nat -> A) k x j : j <> k -> upd f k x j = f j.
Proof. intros. unfold upd. by rewrite decide_False. Qed.

Lemma upd_ext {A} (f g : nat -> A) k x j : f j = g j -> upd f k x j = upd g k x j.
Proof. intros H. unfold upd. by rewrite H. Qed.

Lemma upd_cases {A} (P : A -> Prop) f k t j : P (upd f k t j) -> P t \/ P (f j).
Proof. unfold upd. case_decide; auto. Qed.

(** ** The kernel monad

    A C function that reads and writes state [S] is a function
    [S -> outcome S A].  [Done] is a normal return, [Panic] a call of
    [panic()] (which prints and then spins for ever: nothing runs after it) and
    [Hang] a loop that never ends. *)

Inductive outcome (S A : Type) : Type :=
| Done (a : A) (s : S)
| Panic (msg : string)
| Hang.
Arguments Done {S A} a s.
Arguments Panic {S A} msg.
Arguments Hang {S A}.

Definition M (S A : Type) : Type := S -> outcome S A.

Section Monad.
Context {S : Type}.

#[global] Instance M_ret : MRet (M S) := fun A a s => Done a s.

#[global] Instance M_bind : MBind (M S) := fun A B f m s =>
  match m s with
  | Done a s' => f a s'
  | Panic msg => Panic msg
  | Hang => Hang
  end.

Definition panic {A} (msg : string) : M S A := fun _ => Panic msg.
Definition hang {A} : M S A := fun _ => Hang.
Definition gets {A} (f : S -> A) : M S A := fun s => Done (f s) s.
Definition modify (f : S -> S) : M S unit := fun s => Done tt (f s).

Lemma bind_done {A B} (m : M S A) (f : A -> M S B) s a s' :
  m s = Done a s' -> (m ≫= f) s = f a s'.
Proof. intros E. unfold mbind, M_bind. by rewrite E. Qed.

Lemma bind_panic {A B} (m : M S A) (f : A -> M S B) s msg :
  m s = Panic msg -> (m ≫= f) s = Panic msg.
Proof. intros E. unfold mbind, M_bind. by rewrite E. Qed.

Lemma bind_ret {A B} (a : A) (f : A -> M S B) s : (mret a ≫= f) s = f a s.
Proof. reflexivity. Qed.

Lemma bind_gets {A B} (g : S -> A) (f : A -> M S B) s : (gets g ≫= f) s = f (g s) s.
Proof. reflexivity. Qed.

Lemma bind_modify {B} (g : S -> S) (f : unit -> M S B) s : (modify g ≫= f) s = f tt (g s).
Proof. reflexivity. Qed.

Lemma bind_assoc {A B C} (m : M S A) (f : A -> M S B) (g : B -> M S C) s :
  ((m ≫= f) ≫= g) s = (m ≫= (fun x => f x ≫= g)) s.
Proof. unfold mbind, M_bind. by destruct (m s). Qed.

Lemma bind_done_inv {A B} (m : M S A) (f : A -> M S B) s b s' :
  (m ≫= f) s = Done b s' -> exists a s1, m s = Done a s1 /\ f a s1 = Done b s'.
Proof. unfold mbind, M_bind. destruct (m s); naive_solver. Qed.
End Monad.

(** Step through the bind of a computation whose result is known. *)
Ltac mstep E := rewrite (bind_done _ _ _ _ _ E).

(** Run a computation on a component of a larger state. *)
Definition lift {S T A} (get : T -> S) (put : S -> T -> T) (m : M S A) : M T A :=
  fun t =>
    match m (get t) with
    | Done a s => Done a (put s t)
    | Panic msg => Panic msg
    | Hang => Hang
    end.

(** ** Loops

    A loop body maps the loop variables to new ones ([inl]) or leaves the loop
    with a result ([inr]).  [loopM k f a] runs the body up to [2 ^ k] times, by
    doubling, so that a large bound costs nothing when the loop ends early;
    [whileM] hangs when the bound is exhausted. *)

Section Loops.
Context {S A B : Type} (f : A -> M S (A + B)).

Fixpoint loopM (k : nat) (a : A) : M S (A + B) :=
  match k with
  | O => f a
  | Datatypes.S k =>
      r ← loopM k a;
      match r with
      | inl a' => loopM k a'
      | inr b => mret (inr b)
      end
  end.

Definition whileM (k : nat) (a : A) : M S B :=
  r ← loopM k a;
  match r with
  | inl _ => hang
  | inr b => mret b
  end.

(** The same loop with a unary bound, for proofs by induction. *)
Fixpoint iterM (n : nat) (a : A) : M S (A + B) :=
  match n with
  | O => mret (inl a)
  | Datatypes.S n =>
      r ← f a;
      match r with
      | inl a' => iterM n a'
      | inr b => mret (inr b)
      end
  end.

Lemma iterM_add m n a s :
  iterM (m + n) a s =
    (r ← iterM m a; match r with inl a' => iterM n a' | inr b => mret (inr b) end) s.
Proof.
  revert a s. induction m as [|m IH]; intros a s; [done|].
  cbn [iterM Nat.add]. rewrite bind_assoc. unfold mbind at 1 2, M_bind.
  destruct (f a s) as [[a'|b] s'|msg|]; [apply IH|done..].
Qed.

Lemma loopM_iter k a s : loopM k a s = iterM (2 ^ k) a s.
Proof.
  revert a s. induction k as [|k IH]; intros a s.
  - cbn. unfold mbind, M_bind. by destruct (f a s) as [[]| |].
  - cbn [loopM]. rewrite Nat.pow_succ_r', <-(Nat.add_0_r (2 ^ k)) at 1.
    replace (2 * (2 ^ k + 0))%nat with (2 ^ k + 2 ^ k)%nat by lia.
    rewrite iterM_add. unfold mbind, M_bind. rewrite IH.
    destruct (iterM (2 ^ k) a s) as [[a'|b] s'|msg|]; [apply IH|done..].
Qed.

(** A loop that returns within its bound returns under any larger bound. *)
Lemma iterM_enough n m a s b s' :
  iterM n a s = Done (inr b) s' -> (n <= m)%nat -> iterM m a s = Done (inr b) s'.
Proof.
  intros E Hle. replace m with (n + (m - n))%nat by lia. rewrite iterM_add.
  unfold mbind, M_bind. by rewrite E.
Qed.

Lemma whileM_done k n a s b s' :
  iterM n a s = Done (inr b) s' -> (n <= 2 ^ k)%nat -> whileM k a s = Done b s'.
Proof.
  intros E Hle. unfold whileM, mbind, M_bind. rewrite loopM_iter.
  by rewrite (iterM_enough n _ _ _ _ _ E).
Qed.
End Loops.

(** ** Circular buffers

    The console, the UART and the disk driver keep arrays that are indexed by free-running
    counters modulo the array's size.  [rqueue] is the content between two counters. *)

Section Ring.
Variable N : Z.
Hypothesis N_pos : 0 < N.

(** [buf[i % N]] *)
Definition rget (buf : list Z) (i : Z) : Z := nth (Z.to_nat (i mod N)) buf 0.
(** [buf[i % N] = c] *)
Definition rput (buf : list Z) (i c : Z) : list Z := <[Z.to_nat (i mod N) := c]> buf.

(** The [n] elements from counter [lo] on. *)
Definition rqueue (buf : list Z) (lo n : Z) : list Z := (fun k => rget buf (lo + k)) <$> seqZ 0 n.

Lemma length_rput buf i c : length (rput buf i c) = length buf.
Proof. apply length_insert. Qed.

Lemma rget_put_eq buf i c : Z.of_nat (length buf) = N -> rget (rput buf i c) i = c.
Proof.
  intros Hl. unfold rget, rput. pose proof (Z.mod_pos_bound i N N_pos). rewrite nth_lookup, list_lookup_insert_eq by lia. done.
Qed.

Lemma rget_put_ne buf i j c : i mod N <> j mod N -> rget (rput buf i c) j = rget buf j.
Proof.
  intros Hne. unfold rget, rput. pose proof (Z.mod_pos_bound i N N_pos). pose proof (Z.mod_pos_bound j N N_pos).
  rewrite !nth_lookup, list_lookup_insert_ne by lia. done.
Qed.

Lemma mod_near lo k : 0 < k < N -> (lo + k) mod N <> lo mod N.
Proof.
  intros Hk E. assert (E' : (lo + k - lo) mod N = 0) by (rewrite Zminus_mod, E, Z.sub_diag; apply Z.mod_0_l; lia).
  replace (lo + k - lo) with k in E' by lia. rewrite Z.mod_small in E'; lia.
Qed.

Lemma rqueue_ext buf buf' lo lo' n : (forall k, 0 <= k < n -> rget buf (lo + k) = rget buf' (lo' + k)) -> rqueue buf lo n = rqueue buf' lo' n.
Proof. intros H. unfold rqueue. apply list_fmap_ext. intros i x Hx. apply lookup_seqZ in Hx. apply H. lia. Qed.

Lemma rqueue_nil buf lo : rqueue buf lo 0 = [].
Proof. done. Qed.

Lemma rqueue_app buf lo n m : 0 <= n -> 0 <= m -> rqueue buf lo (n + m) = rqueue buf lo n ++ rqueue buf (lo + n) m.
Proof.
  intros Hn Hm. unfold rqueue. rewrite seqZ_app, fmap_app by lia. f_equal. rewrite <- (Z.add_0_r (0 + n)), <- fmap_add_seqZ, <- list_fmap_compose.
  apply list_fmap_ext. intros i x _. cbn. f_equal. lia.
Qed.

Lemma rqueue_one buf lo : rqueue buf lo 1 = [rget buf lo].
Proof. unfold rqueue. rewrite seqZ_one. cbn. by rewrite Z.add_0_r. Qed.

Lemma rqueue_pop buf lo n : 0 < n -> rqueue buf lo n = rget buf lo :: rqueue buf (lo + 1) (n - 1).
Proof. intros Hn. replace n with (1 + (n - 1)) at 1 by lia. rewrite rqueue_app, rqueue_one by lia. done. Qed.

Lemma rqueue_snoc buf lo n : 0 <= n -> rqueue buf lo (n + 1) = rqueue buf lo n ++ [rget buf (lo + n)].
Proof. intros Hn. by rewrite rqueue_app, rqueue_one by lia. Qed.

(** Storing after the queue. *)
Lemma rqueue_push buf lo n c : Z.of_nat (length buf) = N -> 0 <= n < N -> rqueue (rput buf (lo + n) c) lo (n + 1) = rqueue buf lo n ++ [c].
Proof.
  intros Hl Hn. rewrite rqueue_snoc, rget_put_eq by lia. f_equal. apply rqueue_ext. intros k Hk. apply rget_put_ne.
  replace (lo + n) with (lo + k + (n - k)) by lia. apply mod_near. lia.
Qed.

(** Storing leaves what is not in its place. *)
Lemma rqueue_put_before buf lo n i c : 0 <= n -> lo + n <= i < lo + N -> rqueue (rput buf i c) lo n = rqueue buf lo n.
Proof.
  intros Hn Hi. apply rqueue_ext. intros k Hk. apply rget_put_ne. replace i with (lo + k + (i - lo - k)) by lia. apply mod_near. lia.
Qed.

(** Counters that wrap round at a multiple of the size. *)
Lemma rget_wrap buf i W : 0 < W -> (N | W) -> rget buf (i mod W) = rget buf i.
Proof. intros HW Hd. unfold rget. by rewrite Z.mod_mod_divide. Qed.

Lemma rput_wrap buf i c W : 0 < W -> (N | W) -> rput buf (i mod W) c = rput buf i c.
Proof. intros HW Hd. unfold rput. by rewrite Z.mod_mod_divide. Qed.

Lemma rqueue_wrap buf lo n W : 0 < W -> (N | W) -> rqueue buf (lo mod W) n = rqueue buf lo n.
Proof.
  intros HW Hd. apply rqueue_ext. intros k _. rewrite <- (rget_wrap buf (lo mod W + k) W), <- (rget_wrap buf (lo + k) W) by done.
  by rewrite Zplus_mod_idemp_l.
Qed.

Lemma length_rqueue buf lo n : length (rqueue buf lo n) = Z.to_nat n.
Proof. unfold rqueue. by rewrite length_fmap, length_seqZ. Qed.
End Ring.
