(* ===== verification/Mem.v ===== *)
(** * Byte memory

    Physical memory is a finite map from addresses to bytes; an address that
    was never written reads as 0.  Multi-byte loads and stores are little
    endian, as on RISC-V.  The lemmas are the load/store algebra the components
    share: a load sees the last overlapping store, and nothing else. *)

From S2P Require Import Prelude.

Abbreviation memory := (gmap Z Z).

Definition mget (m : memory) (a : Z) : Z := default 0 (m !! a).
Definition mput (m : memory) (a b : Z) : memory := <[a := b]> m.
Definition mset (m : memory) (a v : Z) : memory := mput m a (u8 v).

(** [n] bytes at [a], little endian. *)
Fixpoint load_le (m : memory) (a : Z) (n : nat) : Z :=
  match n with
  | O => 0
  | S n => mget m a + 256 * load_le m (a + 1) n
  end.

Fixpoint store_le (m : memory) (a : Z) (n : nat) (v : Z) : memory :=
  match n with
  | O => m
  | S n => mset (store_le m (a + 1) n (v / 256)) a v
  end.

Definition load64 (m : memory) (a : Z) : Z := load_le m a 8.
Definition store64 (m : memory) (a v : Z) : memory := store_le m a 8 v.
Definition load32 (m : memory) (a : Z) : Z := load_le m a 4.
Definition store32 (m : memory) (a v : Z) : memory := store_le m a 4 v.

(** The bytes [bs] written from address [a] on. *)
Fixpoint write_bytes (m : memory) (a : Z) (bs : list Z) : memory :=
  match bs with
  | [] => m
  | b :: bs => write_bytes (mset m a b) (a + 1) bs
  end.

Fixpoint read_bytes (m : memory) (a : Z) (n : nat) : list Z :=
  match n with
  | O => []
  | S n => mget m a :: read_bytes m (a + 1) n
  end.

(** ** Equality of two memories on a set of addresses *)

Definition mem_eq_on (P : Z -> Prop) (m m' : memory) : Prop :=
  forall a, P a -> mget m' a = mget m a.

Definition in_range (lo len a : Z) : Prop := lo <= a < lo + len.

Lemma mem_eq_on_refl P m : mem_eq_on P m m.
Proof. done. Qed.

Lemma mem_eq_on_trans P m1 m2 m3 :
  mem_eq_on P m1 m2 -> mem_eq_on P m2 m3 -> mem_eq_on P m1 m3.
Proof. intros H1 H2 a Ha. rewrite H2, H1; done. Qed.

Lemma mem_eq_on_sub (P Q : Z -> Prop) m m' :
  mem_eq_on P m m' -> (forall a, Q a -> P a) -> mem_eq_on Q m m'.
Proof. intros H HPQ a Ha. by apply H, HPQ. Qed.

Create HintDb mem discriminated.
#[export] Hint Resolve mem_eq_on_refl : mem.

(** ** Single bytes *)

Lemma mget_mput m a v b : mget (mput m a v) b = if decide (a = b) then v else mget m b.
Proof. unfold mget, mput. rewrite lookup_insert. by case_decide. Qed.

Lemma mget_mput_ne m a v b : a <> b -> mget (mput m a v) b = mget m b.
Proof. intros. rewrite mget_mput. by rewrite decide_False. Qed.

Lemma mget_mset m a v b : mget (mset m a v) b = if decide (a = b) then u8 v else mget m b.
Proof. apply mget_mput. Qed.

Lemma mget_mset_eq m a v : mget (mset m a v) a = u8 v.
Proof. rewrite mget_mset. by rewrite decide_True. Qed.

Lemma mget_mset_ne m a v b : a <> b -> mget (mset m a v) b = mget m b.
Proof. intros. rewrite mget_mset. by rewrite decide_False. Qed.

(** ** Little-endian words *)

Lemma load_le_ext m m' n a :
  mem_eq_on (in_range a (Z.of_nat n)) m m' -> load_le m' a n = load_le m a n.
Proof.
  revert a. induction n as [|n IH]; intros a H; [done|]. cbn [load_le].
  rewrite H by (unfold in_range; lia). rewrite IH; [done|].
  intros b Hb. apply H. unfold in_range in *. lia.
Qed.

Lemma mget_store_le_out m a n v b :
  b < a \/ a + Z.of_nat n <= b -> mget (store_le m a n v) b = mget m b.
Proof.
  revert a v. induction n as [|n IH]; intros a v H; [done|]. cbn [store_le].
  rewrite mget_mset_ne by lia. apply IH. lia.
Qed.

Lemma store_le_frame m a n v P :
  (forall b, P b -> b < a \/ a + Z.of_nat n <= b) -> mem_eq_on P m (store_le m a n v).
Proof. intros H b Hb. by apply mget_store_le_out, H. Qed.

Lemma load_store_le m a n v : load_le (store_le m a n v) a n = v mod 256 ^ Z.of_nat n.
Proof.
  revert m a v. induction n as [|n IH]; intros m a v.
  - cbn. by rewrite Z.mod_1_r.
  - cbn [load_le store_le]. rewrite mget_mset_eq.
    rewrite (load_le_ext (store_le m (a + 1) n (v / 256))).
    + rewrite IH. unfold u8. rewrite Nat2Z.inj_succ, Z.pow_succ_r by lia.
      change (2 ^ 8) with 256. rewrite Z.rem_mul_r; lia.
    + intros b Hb. apply mget_mset_ne. unfold in_range in Hb. lia.
Qed.

Lemma load_store_le_ne m a n v b k :
  b + Z.of_nat k <= a \/ a + Z.of_nat n <= b ->
  load_le (store_le m a n v) b k = load_le m b k.
Proof.
  intros H. apply load_le_ext, store_le_frame. intros c Hc. unfold in_range in Hc. lia.
Qed.

Lemma load64_store64 m a v : 0 <= v < 2 ^ 64 -> load64 (store64 m a v) a = v.
Proof. intros H. unfold load64, store64. rewrite load_store_le. by apply Z.mod_small. Qed.

Lemma load64_store64_ne m a v b :
  b + 8 <= a \/ a + 8 <= b -> load64 (store64 m a v) b = load64 m b.
Proof. intros H. apply load_store_le_ne. lia. Qed.

Lemma load64_ext m m' a : mem_eq_on (in_range a 8) m m' -> load64 m' a = load64 m a.
Proof. intros H. by apply load_le_ext. Qed.

Lemma store64_frame m a v P :
  (forall b, P b -> b < a \/ a + 8 <= b) -> mem_eq_on P m (store64 m a v).
Proof. intros H. by apply store_le_frame. Qed.

(** ** Byte strings *)

Lemma length_read_bytes m a n : length (read_bytes m a n) = n.
Proof. revert a. induction n as [|n IH]; intros a; cbn; [done|]. by rewrite IH. Qed.

Lemma lookup_read_bytes m a n i :
  (i < n)%nat -> read_bytes m a n !! i = Some (mget m (a + Z.of_nat i)).
Proof.
  revert a i. induction n as [|n IH]; intros a i Hi; [lia|].
  destruct i as [|i]; cbn; [by rewrite Z.add_0_r|].
  change (read_bytes m (a + 1) n !! i = Some (mget m (a + Z.of_nat (S i)))).
  rewrite IH by lia. do 2 f_equal. lia.
Qed.

Lemma mget_write_bytes_out m a bs b :
  b < a \/ a + Z.of_nat (length bs) <= b -> mget (write_bytes m a bs) b = mget m b.
Proof.
  revert m a. induction bs as [|x bs IH]; intros m a H; [done|]. cbn [write_bytes].
  cbn [length] in H. rewrite IH by lia. apply mget_mset_ne. lia.
Qed.

Lemma mget_write_bytes_in m a bs i x :
  bs !! i = Some x -> mget (write_bytes m a bs) (a + Z.of_nat i) = u8 x.
Proof.
  revert m a i. induction bs as [|y bs IH]; intros m a i Hi; [done|]. cbn [write_bytes].
  destruct i as [|i].
  - injection Hi as ->. rewrite mget_write_bytes_out by lia.
    by rewrite Z.add_0_r, mget_mset_eq.
  - replace (a + Z.of_nat (S i)) with (a + 1 + Z.of_nat i) by lia. by apply IH.
Qed.

Lemma read_bytes_ext m m' a n :
  mem_eq_on (in_range a (Z.of_nat n)) m m' -> read_bytes m' a n = read_bytes m a n.
Proof.
  revert a. induction n as [|n IH]; intros a H; [done|]. cbn [read_bytes].
  rewrite H by (unfold in_range; lia). rewrite IH; [done|].
  intros b Hb. apply H. unfold in_range in *. lia.
Qed.

Lemma read_write_bytes m a bs :
  Forall (fun b => 0 <= b < 256) bs -> read_bytes (write_bytes m a bs) a (length bs) = bs.
Proof.
  intros HF. apply list_eq_same_length with (n := length bs);
    [done|by rewrite length_read_bytes|].
  intros i x y Hi Hx Hy. rewrite lookup_read_bytes in Hx by done.
  rewrite (mget_write_bytes_in _ _ _ _ _ Hy) in Hx. injection Hx as <-.
  rewrite Forall_lookup in HF. apply u8_small. exact (HF i y Hy).
Qed.

#[global] Arguments load64 : simpl never.
#[global] Arguments store64 : simpl never.
#[global] Arguments load32 : simpl never.
#[global] Arguments store32 : simpl never.
