(* ===== verification/CString.v ===== *)
(** * Memory and string functions

    [kernel/string.c] and the corresponding functions of [user/ulib.c].
    Functions that write take and return the memory; functions that only read
    take a [reader], the view of memory from a pointer on ([reader i] is the
    character [p[i]]), so that they apply to raw memory and to arrays inside
    records.  [char] is unsigned on RISC-V: characters are bytes 0..255. *)

From S2P Require Import Prelude Mem.

Definition reader : Type := Z -> Z.
Definition advance (r : reader) (k : Z) : reader := fun i => r (i + k).
Definition ptr (m : memory) (a : Z) : reader := fun i => mget m (a + i).
Definition arr (l : list Z) : reader := fun i => nth (Z.to_nat i) l 0.

(** ** Kernel versions *)

(** [cdst[i] = c] for i from 0 to n-1. *)
Fixpoint memset (m : memory) (dst c : Z) (n : nat) : memory :=
  match n with
  | O => m
  | S n => memset (mset m dst c) (dst + 1) c n
  end.

Fixpoint memcmp (s1 s2 : reader) (n : nat) : Z :=
  match n with
  | O => 0
  | S n =>
      if negb (s1 0 =? s2 0) then s1 0 - s2 0
      else memcmp (advance s1 1) (advance s2 1) n
  end.

(** [*d++ = *s++], n times. *)
Fixpoint copy_forward (m : memory) (d s : Z) (n : nat) : memory :=
  match n with
  | O => m
  | S n => copy_forward (mput m d (mget m s)) (d + 1) (s + 1) n
  end.

(** [*--d = *--s], n times. *)
Fixpoint copy_backward (m : memory) (d s : Z) (n : nat) : memory :=
  match n with
  | O => m
  | S n => copy_backward (mput m (d - 1) (mget m (s - 1))) (d - 1) (s - 1) n
  end.

Definition memmove (m : memory) (dst src : Z) (n : nat) : memory :=
  let k := Z.of_nat n in
  if k =? 0 then m
  else if (src <? dst) && (dst <? src + k)
  then copy_backward m (dst + k) (src + k) n
  else copy_forward m dst src n.

Definition memcpy (m : memory) (dst src : Z) (n : nat) : memory := memmove m dst src n.

Fixpoint strncmp (p q : reader) (n : nat) : Z :=
  match n with
  | O => 0
  | S n =>
      if negb (p 0 =? 0) && (p 0 =? q 0)
      then strncmp (advance p 1) (advance q 1) n
      else p 0 - q 0
  end.

(** The bytes [strncpy(s, t, n)] stores from [s[0]] on, for [s] and [t] that do
    not overlap: the copy loop up to and including the first NUL of [t], then
    the padding loop. *)
Fixpoint strncpy (t : reader) (n : nat) : list Z :=
  match n with
  | O => []
  | S n =>
      if t 0 =? 0 then 0 :: replicate n 0
      else t 0 :: strncpy (advance t 1) n
  end.

(** The loop of [safestrcpy] with [n] = the value [--n] leaves, and the final
    [*s = 0], which comes after the NUL when one was copied. *)
Fixpoint safestrcpy_loop (t : reader) (n : nat) : list Z :=
  match n with
  | O => [0]
  | S n =>
      if t 0 =? 0 then [0; 0]
      else t 0 :: safestrcpy_loop (advance t 1) n
  end.

Definition safestrcpy (t : reader) (n : Z) : list Z :=
  if n <=? 0 then [] else safestrcpy_loop t (Z.to_nat (n - 1)).

(** [fuel] bounds the characters looked at; [None]: no NUL among them. *)
Fixpoint strlen (s : reader) (fuel : nat) : option Z :=
  match fuel with
  | O => None
  | S fuel =>
      if s 0 =? 0 then Some 0
      else Z.succ <$> strlen (advance s 1) fuel
  end.

(** ** User-space versions that differ from the kernel's *)

Fixpoint strcmp (p q : reader) (fuel : nat) : option Z :=
  match fuel with
  | O => None
  | S fuel =>
      if negb (p 0 =? 0) && (p 0 =? q 0)
      then strcmp (advance p 1) (advance q 1) fuel
      else Some (p 0 - q 0)
  end.

Definition user_memmove (m : memory) (dst src : Z) (n : nat) : memory :=
  if dst <? src
  then copy_forward m dst src n
  else copy_backward m (dst + Z.of_nat n) (src + Z.of_nat n) n.

Fixpoint atoi_loop (s : list Z) (n : Z) : Z :=
  match s with
  | c :: s =>
      if (48 <=? c) && (c <=? 57) then atoi_loop s (s32 (n * 10 + c - 48)) else n
  | [] => n
  end.

(** [s] lists the characters before the terminating NUL. *)
Definition atoi (s : list Z) : Z := atoi_loop s 0.

(** ** The abstract string of a buffer: its characters before the first NUL,
    at most [n] of them. *)

Fixpoint cstr_take (r : reader) (n : nat) : list Z :=
  match n with
  | O => []
  | S n => if r 0 =? 0 then [] else r 0 :: cstr_take (advance r 1) n
  end.

(** ** memset *)

Lemma mget_memset m dst c n a :
  mget (memset m dst c n) a =
    if decide (dst <= a < dst + Z.of_nat n) then u8 c else mget m a.
Proof.
  revert m dst. induction n as [|n IH]; intros m dst; cbn [memset].
  - rewrite decide_False; [done|lia].
  - rewrite IH, mget_mset. repeat case_decide; (done || lia).
Qed.

Lemma memset_frame m dst c n P :
  (forall a, P a -> a < dst \/ dst + Z.of_nat n <= a) -> mem_eq_on P m (memset m dst c n).
Proof. intros H a Ha. rewrite mget_memset, decide_False; [done|]. specialize (H a Ha). lia. Qed.

Lemma load_le_memset_0 m dst n a k :
  dst <= a -> a + Z.of_nat k <= dst + Z.of_nat n -> load_le (memset m dst 0 n) a k = 0.
Proof.
  revert a. induction k as [|k IH]; intros a H1 H2; [done|]. cbn [load_le].
  rewrite IH by lia. rewrite mget_memset, decide_True by lia. done.
Qed.

Lemma load64_memset_0 m dst n a :
  dst <= a -> a + 8 <= dst + Z.of_nat n -> load64 (memset m dst 0 n) a = 0.
Proof. intros. apply load_le_memset_0; lia. Qed.

(** ** memmove: both copy loops move the block as it was at the call *)

Lemma copy_forward_out m d s n a :
  a < d \/ d + Z.of_nat n <= a -> mget (copy_forward m d s n) a = mget m a.
Proof.
  revert m d s. induction n as [|n IH]; intros m d s H; [done|]. cbn [copy_forward].
  rewrite IH by lia. apply mget_mput_ne. lia.
Qed.

Lemma copy_forward_in m d s n i :
  d <= s \/ s + Z.of_nat n <= d -> 0 <= i < Z.of_nat n ->
  mget (copy_forward m d s n) (d + i) = mget m (s + i).
Proof.
  revert m d s i. induction n as [|n IH]; intros m d s i H Hi; [lia|].
  cbn [copy_forward]. destruct (decide (i = 0)) as [->|Hne].
  - rewrite copy_forward_out by lia. rewrite mget_mput, decide_True by lia.
    by rewrite Z.add_0_r.
  - replace (d + i) with (d + 1 + (i - 1)) by lia. rewrite IH by lia.
    rewrite mget_mput_ne by lia. f_equal. lia.
Qed.

Lemma copy_backward_out m d s n a :
  a < d - Z.of_nat n \/ d <= a -> mget (copy_backward m d s n) a = mget m a.
Proof.
  revert m d s. induction n as [|n IH]; intros m d s H; [done|]. cbn [copy_backward].
  rewrite IH by lia. apply mget_mput_ne. lia.
Qed.

Lemma copy_backward_in m d s n i :
  s <= d \/ d + Z.of_nat n <= s -> 0 <= i < Z.of_nat n ->
  mget (copy_backward m (d + Z.of_nat n) (s + Z.of_nat n) n) (d + i) = mget m (s + i).
Proof.
  revert m i. induction n as [|n IH]; intros m i H Hi; [lia|].
  cbn [copy_backward].
  replace (d + Z.of_nat (S n) - 1) with (d + Z.of_nat n) by lia.
  replace (s + Z.of_nat (S n) - 1) with (s + Z.of_nat n) by lia.
  destruct (decide (i = Z.of_nat n)) as [->|Hne].
  - rewrite copy_backward_out by lia. rewrite mget_mput, decide_True by lia. done.
  - rewrite IH by lia. apply mget_mput_ne. lia.
Qed.

(** The meaning of a block copy: the destination holds what the source held
    before, and every other byte is unchanged. *)
Definition block_copied (m m' : memory) (dst src : Z) (n : nat) : Prop :=
  (forall i, 0 <= i < Z.of_nat n -> mget m' (dst + i) = mget m (src + i)) /\
  (forall a, a < dst \/ dst + Z.of_nat n <= a -> mget m' a = mget m a).

Lemma memmove_block m dst src n : block_copied m (memmove m dst src n) dst src n.
Proof.
  unfold memmove. destruct (Z.eqb_spec (Z.of_nat n) 0) as [E|E]; [split; [lia|done]|].
  destruct ((src <? dst) && (dst <? src + Z.of_nat n)) eqn:Hov.
  - split.
    + intros i Hi. apply copy_backward_in; lia.
    + intros a Ha. apply copy_backward_out. lia.
  - split.
    + intros i Hi. apply copy_forward_in; lia.
    + intros a Ha. by apply copy_forward_out.
Qed.

Lemma user_memmove_block m dst src n : block_copied m (user_memmove m dst src n) dst src n.
Proof.
  unfold user_memmove. destruct (Z.ltb_spec dst src).
  - split; intros; [apply copy_forward_in|apply copy_forward_out]; lia.
  - split; intros; [apply copy_backward_in|apply copy_backward_out]; lia.
Qed.

(** ** Strings *)

Lemma cstr_take_ext r r' n :
  (forall i, 0 <= i < Z.of_nat n -> r i = r' i) -> cstr_take r n = cstr_take r' n.
Proof.
  revert r r'. induction n as [|n IH]; intros r r' H; [done|]. cbn [cstr_take].
  rewrite (H 0) by lia. case_match; [done|]. f_equal. apply IH.
  intros i Hi. apply H. lia.
Qed.

Lemma strncmp_cstr p q n : strncmp p q n = 0 <-> cstr_take p n = cstr_take q n.
Proof.
  revert p q. induction n as [|n IH]; intros p q; [done|]. cbn [strncmp cstr_take].
  destruct (Z.eqb_spec (p 0) 0), (Z.eqb_spec (p 0) (q 0)), (Z.eqb_spec (q 0) 0);
    cbn [negb andb]; rewrite ?IH; split; intros H; try done; try lia; congruence.
Qed.

Lemma advance_arr x l i : 0 <= i -> advance (arr (x :: l)) 1 i = arr l i.
Proof.
  intros Hi. unfold advance, arr. rewrite Z2Nat.inj_add by lia.
  rewrite Nat.add_comm. done.
Qed.

Lemma length_strncpy t n : length (strncpy t n) = n.
Proof.
  revert t. induction n as [|n IH]; intros t; [done|]. cbn [strncpy].
  case_match; cbn [length]; [by rewrite length_replicate|by rewrite IH].
Qed.

Lemma cstr_take_strncpy t n : cstr_take (arr (strncpy t n)) n = cstr_take t n.
Proof.
  revert t. induction n as [|n IH]; intros t; [done|]. cbn [strncpy cstr_take].
  destruct (Z.eqb_spec (t 0) 0) as [E|E]; [done|].
  change (arr (t 0 :: strncpy (advance t 1) n) 0) with (t 0).
  destruct (Z.eqb_spec (t 0) 0); [done|]. f_equal. rewrite <-(IH (advance t 1)).
  apply cstr_take_ext. intros i Hi. apply advance_arr. lia.
Qed.

Lemma strlen_cstr s fuel k :
  strlen s fuel = Some k -> k = Z.of_nat (length (cstr_take s fuel)) /\ k < Z.of_nat fuel.
Proof.
  revert s k. induction fuel as [|f IH]; intros s k; [done|]. cbn [strlen cstr_take].
  case_match; [intros [= <-]; cbn; lia|]. cbn [length].
  destruct (strlen (advance s 1) f) as [j|] eqn:E; cbn; [|done].
  intros [= <-]. destruct (IH _ _ E). lia.
Qed.

Lemma length_safestrcpy_loop t n :
  (length (safestrcpy_loop t n) <= S n)%nat.
Proof.
  revert t. induction n as [|n IH]; intros t; cbn; [lia|].
  case_match; cbn; [lia|]. specialize (IH (advance t 1)). lia.
Qed.

Lemma cstr_take_safestrcpy_loop t n :
  cstr_take (arr (safestrcpy_loop t n)) (S n) = cstr_take t n.
Proof.
  revert t. induction n as [|n IH]; intros t; [done|].
  cbn [safestrcpy_loop]. destruct (Z.eqb_spec (t 0) 0) as [E|E].
  - cbn [cstr_take]. destruct (Z.eqb_spec (t 0) 0); [|done]. done.
  - change (cstr_take ?a (S ?k)) with
      (if a 0 =? 0 then [] else a 0 :: cstr_take (advance a 1) k).
    change (arr (t 0 :: safestrcpy_loop (advance t 1) n) 0) with (t 0).
    cbn [cstr_take] in *. destruct (Z.eqb_spec (t 0) 0); [done|]. f_equal.
    rewrite <-(IH (advance t 1)). apply (cstr_take_ext _ _ (S n)).
    intros i Hi. apply advance_arr. lia.
Qed.

#[global] Arguments memset : simpl never.
#[global] Arguments memmove : simpl never.
