(* ===== verification/Riscv.v ===== *)
(** * Sv39 paging arithmetic and the memory layout

    The macros of [kernel/riscv.h] (page rounding, PTE encoding, page-table
    indices) and of [kernel/memlayout.h], with the arithmetic facts about them
    the page-table proofs use. *)

From S2P Require Import Prelude.

(** ** kernel/riscv.h *)

Definition PGSIZE : Z := 4096.
Definition PGSHIFT : Z := 12.

Definition PGROUNDUP (sz : Z) : Z := Z.land (u64 (sz + PGSIZE - 1)) (u64 (Z.lnot (PGSIZE - 1))).
Definition PGROUNDDOWN (a : Z) : Z := Z.land a (u64 (Z.lnot (PGSIZE - 1))).

Definition PTE_V : Z := Z.shiftl 1 0.
Definition PTE_R : Z := Z.shiftl 1 1.
Definition PTE_W : Z := Z.shiftl 1 2.
Definition PTE_X : Z := Z.shiftl 1 3.
Definition PTE_U : Z := Z.shiftl 1 4.

Definition PA2PTE (pa : Z) : Z := u64 (Z.shiftl (Z.shiftr pa 12) 10).
Definition PTE2PA (pte : Z) : Z := u64 (Z.shiftl (Z.shiftr pte 10) 12).
Definition PTE_FLAGS (pte : Z) : Z := Z.land pte 0x3FF.

Definition PXMASK : Z := 0x1FF.
Definition PXSHIFT (level : Z) : Z := PGSHIFT + 9 * level.
Definition PX (level va : Z) : Z := Z.land (Z.shiftr va (PXSHIFT level)) PXMASK.

Definition MAXVA : Z := Z.shiftl 1 (9 + 9 + 9 + 12 - 1).

(** ** kernel/memlayout.h *)

Definition UART0 : Z := 0x10000000.
Definition VIRTIO0 : Z := 0x10001000.
Definition PLIC : Z := 0x0c000000.
Definition KERNBASE : Z := 0x80000000.
Definition PHYSTOP : Z := KERNBASE + 128 * 1024 * 1024.
Definition TRAMPOLINE : Z := MAXVA - PGSIZE.
Definition KSTACK (p : Z) : Z := TRAMPOLINE - (p + 1) * 2 * PGSIZE.
Definition TRAPFRAME : Z := TRAMPOLINE - PGSIZE.

(** The symbols of the kernel image the linker script defines
    ([kernel/kernel.ld]): [end], the first address after the kernel, [etext],
    the end of its code, and [trampoline], a page of its code. *)
Class KernelImage := {
  kend : Z;
  etext : Z;
  trampoline : Z;
  kend_range : KERNBASE < kend <= PHYSTOP;
  etext_range : KERNBASE < etext <= kend;
  etext_aligned : etext mod PGSIZE = 0;
  trampoline_range : KERNBASE <= trampoline < etext;
  trampoline_aligned : trampoline mod PGSIZE = 0;
}.

(** ** Arithmetic *)

Lemma land_disjoint_mul k n x : 0 <= n -> 0 <= x < 2 ^ n -> Z.land (k * 2 ^ n) x = 0.
Proof.
  intros Hn Hx. destruct (decide (x = 0)) as [->|Hne]; [apply Z.land_0_r|].
  apply Z.bits_inj'. intros i Hi. rewrite Z.land_spec, Z.bits_0.
  destruct (Z.lt_ge_cases i n).
  - by rewrite Z.mul_pow2_bits_low.
  - rewrite (Z.bits_above_log2 x); [by rewrite andb_comm|lia|].
    apply Z.log2_lt_pow2; [lia|]. apply Z.lt_le_trans with (2 ^ n); [lia|].
    apply Z.pow_le_mono_r; lia.
Qed.

Lemma lor_disjoint_mul k n x : 0 <= n -> 0 <= x < 2 ^ n -> Z.lor (k * 2 ^ n) x = k * 2 ^ n + x.
Proof.
  intros Hn Hx. pose proof (Z.add_lor_land (k * 2 ^ n) x) as H.
  rewrite land_disjoint_mul in H by done. lia.
Qed.

Lemma PGROUNDDOWN_spec a : 0 <= a < 2 ^ 64 -> PGROUNDDOWN a = a / PGSIZE * PGSIZE.
Proof.
  intros Ha. unfold PGROUNDDOWN, PGSIZE. change (u64 (Z.lnot (4096 - 1))) with (Z.shiftl (Z.ones 52) 12).
  change 4096 with (2 ^ 12).
  rewrite <-Z.shiftr_div_pow2, <-Z.shiftl_mul_pow2 by lia.
  apply Z.bits_inj'. intros i Hi. rewrite Z.land_spec.
  destruct (Z.lt_ge_cases i 12).
  - rewrite !Z.shiftl_spec_low by lia. by rewrite andb_false_r.
  - rewrite !Z.shiftl_spec by lia. rewrite Z.shiftr_spec by lia.
    replace (i - 12 + 12) with i by lia.
    destruct (Z.lt_ge_cases (i - 12) 52).
    + rewrite Z.ones_spec_low by lia. by rewrite andb_true_r.
    + rewrite Z.ones_spec_high by lia. rewrite andb_false_r.
      symmetry. destruct (decide (a = 0)) as [->|]; [by rewrite Z.bits_0|].
      apply Z.bits_above_log2; [lia|]. apply Z.log2_lt_pow2; [lia|].
      apply Z.lt_le_trans with (2 ^ 64); [lia|]. apply Z.pow_le_mono_r; lia.
Qed.

Lemma PGROUNDDOWN_aligned a :
  0 <= a < 2 ^ 64 -> a mod PGSIZE = 0 -> PGROUNDDOWN a = a.
Proof. intros Ha H0. rewrite PGROUNDDOWN_spec by done. unfold PGSIZE in *. lia. Qed.

Lemma PGROUNDUP_spec sz :
  0 <= sz -> sz + PGSIZE - 1 < 2 ^ 64 -> PGROUNDUP sz = (sz + PGSIZE - 1) / PGSIZE * PGSIZE.
Proof.
  intros H1 H2. unfold PGROUNDUP. rewrite u64_small by (unfold PGSIZE in *; lia).
  apply PGROUNDDOWN_spec. unfold PGSIZE in *. lia.
Qed.

Lemma PGROUNDUP_aligned sz :
  0 <= sz -> sz + PGSIZE - 1 < 2 ^ 64 -> sz mod PGSIZE = 0 -> PGROUNDUP sz = sz.
Proof. intros. rewrite PGROUNDUP_spec by done. unfold PGSIZE in *. lia. Qed.

Lemma PA2PTE_spec pa : 0 <= pa < 2 ^ 56 -> PA2PTE pa = pa / 2 ^ 12 * 2 ^ 10.
Proof.
  intros H. unfold PA2PTE. rewrite Z.shiftr_div_pow2, Z.shiftl_mul_pow2 by lia.
  apply u64_small. lia.
Qed.

(** A PTE built as the code builds it decodes to the address and the flags. *)
Lemma PTE2PA_PA2PTE pa perm :
  0 <= pa < 2 ^ 56 -> pa mod PGSIZE = 0 -> 0 <= perm < 2 ^ 10 ->
  PTE2PA (Z.lor (PA2PTE pa) perm) = pa.
Proof.
  intros Hpa Hal Hperm. rewrite PA2PTE_spec by done. rewrite lor_disjoint_mul by lia.
  unfold PTE2PA, PGSIZE in *. rewrite Z.shiftr_div_pow2, Z.shiftl_mul_pow2 by lia.
  rewrite u64_small; lia.
Qed.

Lemma PTE_FLAGS_PA2PTE pa perm :
  0 <= pa < 2 ^ 56 -> 0 <= perm < 2 ^ 10 -> PTE_FLAGS (Z.lor (PA2PTE pa) perm) = perm.
Proof.
  intros Hpa Hperm. rewrite PA2PTE_spec by done. rewrite lor_disjoint_mul by lia.
  unfold PTE_FLAGS. change 0x3FF with (Z.ones 10). rewrite Z.land_ones by lia. lia.
Qed.

Lemma PTE_range pa perm :
  0 <= pa < 2 ^ 56 -> 0 <= perm < 2 ^ 10 -> 0 <= Z.lor (PA2PTE pa) perm < 2 ^ 64.
Proof. intros Hpa Hperm. rewrite PA2PTE_spec by done. rewrite lor_disjoint_mul by lia. lia. Qed.

Lemma PX_spec level va : 0 <= level -> PX level va = va / 2 ^ PXSHIFT level mod 512.
Proof.
  intros. unfold PX, PXMASK. change 0x1FF with (Z.ones 9).
  rewrite Z.land_ones by lia. rewrite Z.shiftr_div_pow2; [done|unfold PXSHIFT, PGSHIFT; lia].
Qed.

Lemma PX_range level va : 0 <= level -> 0 <= PX level va < 512.
Proof. intros. rewrite PX_spec by done. lia. Qed.

(** The three indices determine the page of a 39-bit virtual address. *)
Lemma PX_inj va va' :
  0 <= va < 2 ^ 39 -> 0 <= va' < 2 ^ 39 ->
  PX 2 va = PX 2 va' -> PX 1 va = PX 1 va' -> PX 0 va = PX 0 va' ->
  va / PGSIZE = va' / PGSIZE.
Proof.
  intros Hva Hva'. rewrite !PX_spec by lia. unfold PXSHIFT, PGSHIFT, PGSIZE.
  cbn -[Z.modulo Z.div Z.pow].
  change (2 ^ (12 + 18)) with (2 ^ 30). change (2 ^ (12 + 9)) with (2 ^ 21).
  change (2 ^ (12 + 0)) with 4096. lia.
Qed.

(** [MAXVA] is one bit less than what three levels translate. *)
Lemma below_MAXVA va : 0 <= va < MAXVA -> 0 <= va < 2 ^ 39.
Proof. change MAXVA with (2 ^ 38). lia. Qed.

(** Sets of PTE flags fit in the ten flag bits. *)
Definition flags_ok (perm : Z) : Prop := 0 <= perm < 2 ^ 10.

Lemma flags_ok_lor a b : flags_ok a -> flags_ok b -> flags_ok (Z.lor a b).
Proof.
  intros [Ha Ha'] [Hb Hb']. split; [by apply Z.lor_nonneg|].
  destruct (decide (Z.lor a b = 0)) as [->|Hne]; [lia|].
  apply Z.log2_lt_pow2; [pose proof (proj2 (Z.lor_nonneg a b) (conj Ha Hb)); lia|].
  rewrite Z.log2_lor by done. apply Z.max_lub_lt.
  - destruct (decide (a = 0)) as [->|]; [done|]. apply Z.log2_lt_pow2; lia.
  - destruct (decide (b = 0)) as [->|]; [done|]. apply Z.log2_lt_pow2; lia.
Qed.

Lemma flags_ok_V : flags_ok PTE_V. Proof. done. Qed.
Lemma flags_ok_R : flags_ok PTE_R. Proof. done. Qed.
Lemma flags_ok_W : flags_ok PTE_W. Proof. done. Qed.
Lemma flags_ok_X : flags_ok PTE_X. Proof. done. Qed.
Lemma flags_ok_U : flags_ok PTE_U. Proof. done. Qed.

Create HintDb pte discriminated.
#[export] Hint Resolve flags_ok_lor flags_ok_V flags_ok_R flags_ok_W flags_ok_X flags_ok_U : pte.
