(* ===== verification/Kalloc.v ===== *)
(** * The physical page allocator, [kernel/kalloc.c]

    Free pages form a linked list threaded through the pages themselves: the
    first eight bytes of a free page hold the address of the next one.
    [free_list] relates that representation to the list of free pages, a stack;
    [kinv] is the allocator's invariant.  The operations run under [kmem.lock],
    so each is one atomic state transformer here. *)

From S2P Require Import Prelude Mem CString Riscv.

(** Physical memory and the static [kmem.freelist]. *)
Record kstate := KState { mem : memory; freelist : Z }.

Definition set_mem (f : memory -> memory) (s : kstate) : kstate := KState (f (mem s)) (freelist s).

(** [*(uint64* )a] and stores through pointers. *)
Definition read64 (a : Z) : M kstate Z := gets (fun s => load64 (mem s) a).
Definition write64 (a v : Z) : M kstate unit := modify (set_mem (fun m => store64 m a v)).
Definition memset_page (pa c : Z) : M kstate unit :=
  modify (set_mem (fun m => memset m pa c (Z.to_nat PGSIZE))).

Lemma bind_read64 {A} a (f : Z -> M kstate A) s : (read64 a ≫= f) s = f (load64 (mem s) a) s.
Proof. reflexivity. Qed.

Lemma bind_write64 {A} a v (f : unit -> M kstate A) s :
  (write64 a v ≫= f) s = f tt (set_mem (fun m => store64 m a v) s).
Proof. reflexivity. Qed.

Section Kalloc.
Context `{KernelImage}.

Definition kfree (pa : Z) : M kstate unit := fun s =>
  if negb (pa mod PGSIZE =? 0) || (pa <? kend) || (PHYSTOP <=? pa)
  then Panic "kfree"
  else
    let m := memset (mem s) pa 1 (Z.to_nat PGSIZE) in
    let m := store64 m pa (freelist s) in
    Done tt (KState m pa).

Definition kalloc : M kstate Z := fun s =>
  let r := freelist s in
  if r =? 0 then Done r s
  else
    let next := load64 (mem s) r in
    Done r (KState (memset (mem s) r 5 (Z.to_nat PGSIZE)) next).

Fixpoint freerange_loop (fuel : nat) (p pa_end : Z) : M kstate unit :=
  if p + PGSIZE <=? pa_end then
    match fuel with
    | O => hang
    | S fuel => kfree p;; freerange_loop fuel (p + PGSIZE) pa_end
    end
  else mret tt.

Definition freerange (pa_start pa_end : Z) : M kstate unit :=
  let p := PGROUNDUP pa_start in
  freerange_loop (Z.to_nat ((pa_end - p) / PGSIZE)) p pa_end.

Definition kinit : M kstate unit := freerange kend PHYSTOP.

(** ** The abstract free list *)

Definition in_page (p a : Z) : Prop := p <= a < p + PGSIZE.

(** The pages [kfree] accepts. *)
Definition valid_page (p : Z) : Prop := p mod PGSIZE = 0 /\ kend <= p < PHYSTOP.

Fixpoint free_list (m : memory) (head : Z) (L : list Z) : Prop :=
  match L with
  | [] => head = 0
  | p :: L => head = p /\ free_list m (load64 m p) L
  end.

Record kinv (s : kstate) (L : list Z) : Prop := {
  kinv_list : free_list (mem s) (freelist s) L;
  kinv_nodup : NoDup L;
  kinv_valid : Forall valid_page L;
}.

Definition outside (p : Z) : Z -> Prop := fun a => ~ in_page p a.

(** ** Lemmas *)

Lemma valid_page_bounds p : valid_page p -> KERNBASE < p /\ p + PGSIZE <= PHYSTOP.
Proof.
  intros [Hal Hr]. pose proof kend_range. unfold PHYSTOP, KERNBASE, PGSIZE in *. lia.
Qed.

Lemma pages_disjoint p q a :
  p mod PGSIZE = 0 -> q mod PGSIZE = 0 -> in_page p a -> in_page q a -> p = q.
Proof. unfold in_page, PGSIZE. lia. Qed.

Lemma free_list_frame m m' head L :
  (forall p, p ∈ L -> mem_eq_on (in_page p) m m') ->
  free_list m head L -> free_list m' head L.
Proof.
  revert head. induction L as [|p L IH]; intros head Hf; [done|].
  intros [-> HL]. split; [done|].
  rewrite (load64_ext m m').
  - apply IH; [|done]. intros q Hq. apply Hf. set_solver.
  - apply mem_eq_on_sub with (in_page p); [apply Hf; set_solver|].
    intros a. unfold in_range, in_page, PGSIZE. lia.
Qed.

Lemma kinv_frame s s' L :
  freelist s' = freelist s ->
  (forall p, p ∈ L -> mem_eq_on (in_page p) (mem s) (mem s')) ->
  kinv s L -> kinv s' L.
Proof.
  intros Hfl Hf [H1 H2 H3]. split; [|done..]. rewrite Hfl. by apply free_list_frame with (mem s).
Qed.

(** A change confined to a page that is not free keeps the invariant. *)
Lemma kinv_outside s s' L p :
  freelist s' = freelist s -> p mod PGSIZE = 0 -> p ∉ L ->
  mem_eq_on (outside p) (mem s) (mem s') -> kinv s L -> kinv s' L.
Proof.
  intros Hfl Hal Hp Hf Hk. apply kinv_frame with s; [done| |done].
  intros q Hq. apply mem_eq_on_sub with (outside p); [done|].
  intros a Ha Hpa. pose proof (kinv_valid _ _ Hk) as Hv. rewrite list.Forall_forall in Hv.
  destruct (Hv q Hq) as [Hq0 _].
  assert (p = q) as -> by (by apply (pages_disjoint p q a)). done.
Qed.

Lemma kfree_mem m p v :
  0 <= v < 2 ^ 64 ->
  mem_eq_on (outside p) m (store64 (memset m p 1 (Z.to_nat PGSIZE)) p v) /\
  load64 (store64 (memset m p 1 (Z.to_nat PGSIZE)) p v) p = v.
Proof.
  intros Hv. split; [|by apply load64_store64].
  apply mem_eq_on_trans with (memset m p 1 (Z.to_nat PGSIZE)).
  - apply memset_frame. unfold outside, in_page, PGSIZE. lia.
  - apply store64_frame. unfold outside, in_page, PGSIZE. lia.
Qed.

Lemma kfree_done s L p :
  kinv s L -> valid_page p -> p ∉ L ->
  exists s', kfree p s = Done tt s' /\ kinv s' (p :: L) /\
             mem_eq_on (outside p) (mem s) (mem s').
Proof.
  intros Hk Hp Hn. pose proof (valid_page_bounds p Hp) as Hb. destruct Hp as [Hal Hr].
  unfold kfree. rewrite Hal. change (0 =? 0) with true. cbn [negb orb].
  destruct (Z.ltb_spec p kend); [lia|]. destruct (Z.leb_spec PHYSTOP p); [lia|]. cbn [orb].
  destruct (kfree_mem (mem s) p (freelist s)) as [Hf Hnext].
  { destruct L as [|q L]; [destruct Hk as [Hl _ _]; cbn in Hl; lia|].
    destruct Hk as [[-> _] _ Hv]. apply list.Forall_cons in Hv as [Hq _].
    apply valid_page_bounds in Hq. unfold KERNBASE, PHYSTOP, PGSIZE, KERNBASE in *. lia. }
  generalize dependent (store64 (memset (mem s) p 1 (Z.to_nat PGSIZE)) p (freelist s)).
  intros m' Hf Hnext. exists (KState m' p). split; [done|]. split; [|done]. split; cbn.
  - split; [done|]. rewrite Hnext.
    apply (kinv_outside s (KState m' (freelist s)) L p); done.
  - constructor; [done|apply Hk].
  - constructor; [done|apply Hk].
Qed.

Lemma kalloc_done s L p :
  kinv s (p :: L) ->
  exists s', kalloc s = Done p s' /\ kinv s' L /\ p <> 0 /\ (p ∉ L) /\ valid_page p /\
             mem_eq_on (outside p) (mem s) (mem s').
Proof.
  intros [[Hh Hl] Hnd Hv]. apply list.NoDup_cons in Hnd as [Hp Hnd].
  apply list.Forall_cons in Hv as [Hvp Hv].
  pose proof (valid_page_bounds p Hvp) as Hb. unfold KERNBASE in Hb.
  unfold kalloc. rewrite Hh. destruct (Z.eqb_spec p 0); [lia|].
  assert (Hf : mem_eq_on (outside p) (mem s) (memset (mem s) p 5 (Z.to_nat PGSIZE))).
  { apply memset_frame. unfold outside, in_page, PGSIZE. lia. }
  generalize dependent (memset (mem s) p 5 (Z.to_nat PGSIZE)). intros m' Hf.
  exists (KState m' (load64 (mem s) p)). split; [done|]. split; [|done].
  apply (kinv_outside (KState (mem s) (load64 (mem s) p)) _ L p); [done|apply Hvp|done..].
Qed.

Lemma kalloc_none s : kinv s [] -> kalloc s = Done 0 s.
Proof. intros [Hl _ _]. cbn in Hl. unfold kalloc. by rewrite Hl. Qed.

(** Both outcomes of [kalloc] at once. *)
Lemma kalloc_cases s L :
  kinv s L ->
  (L = [] /\ kalloc s = Done 0 s) \/
  (exists p L' s', L = p :: L' /\ kalloc s = Done p s' /\ kinv s' L' /\ p <> 0 /\ (p ∉ L') /\
             valid_page p /\ mem_eq_on (outside p) (mem s) (mem s')).
Proof.
  intros Hk. destruct L as [|p L]; [left; split; [done|by apply kalloc_none]|right].
  destruct (kalloc_done _ _ _ Hk) as (s' & Hs'). exists p, L, s'. split; [done|exact Hs'].
Qed.

(** ** Initialisation: every page of [end .. PHYSTOP) becomes free, once *)

Fixpoint pages_from (p : Z) (n : nat) : list Z :=
  match n with
  | O => []
  | S n => p :: pages_from (p + PGSIZE) n
  end.

Lemma elem_of_pages_from p n q :
  q ∈ pages_from p n <-> exists i, 0 <= i < Z.of_nat n /\ q = p + i * PGSIZE.
Proof.
  revert p. induction n as [|n IH]; intros p; cbn [pages_from].
  - split; [by intros ?%not_elem_of_nil|lia || (intros (i & ? & _); lia)].
  - rewrite elem_of_cons, IH. split.
    + intros [->|(i & Hi & ->)]; [exists 0; lia|exists (i + 1); lia].
    + intros (i & Hi & ->). destruct (decide (i = 0)) as [->|]; [left; lia|right].
      exists (i - 1). lia.
Qed.

Lemma freerange_loop_done n s L p pa_end :
  kinv s L -> Forall valid_page (pages_from p n) -> (forall q, q ∈ L -> q < p) ->
  p + Z.of_nat n * PGSIZE <= pa_end < p + (Z.of_nat n + 1) * PGSIZE ->
  exists s', freerange_loop n p pa_end s = Done tt s' /\ kinv s' (reverse (pages_from p n) ++ L).
Proof.
  revert s L p. induction n as [|n IH]; intros s L p Hk Hv Hlt He; cbn [freerange_loop pages_from].
  - destruct (Z.leb_spec (p + PGSIZE) pa_end); [lia|]. by exists s.
  - destruct (Z.leb_spec (p + PGSIZE) pa_end); [|unfold PGSIZE in *; lia].
    cbn [pages_from] in Hv. apply list.Forall_cons in Hv as [Hp Hv].
    destruct (kfree_done s L p Hk Hp) as (s1 & E & Hk1 & _).
    { intros Hin%Hlt. lia. }
    mstep E.
    destruct (IH s1 (p :: L) (p + PGSIZE)) as (s2 & E2 & Hk2); [done|done| |lia|].
    { intros q [->|Hq%Hlt]%elem_of_cons; unfold PGSIZE; lia. }
    exists s2. split; [done|]. rewrite reverse_cons, <-app_assoc. done.
Qed.

Lemma kinit_done m :
  exists s' L, kinit (KState m 0) = Done tt s' /\ kinv s' L /\ forall p, p ∈ L <-> valid_page p.
Proof.
  pose proof kend_range as Hkr. unfold kinit, freerange.
  assert (Hup : PGROUNDUP kend = (kend + PGSIZE - 1) / PGSIZE * PGSIZE).
  { apply PGROUNDUP_spec; unfold KERNBASE, PHYSTOP, KERNBASE, PGSIZE in *; lia. }
  rewrite Hup. set (p := (kend + PGSIZE - 1) / PGSIZE * PGSIZE).
  assert (Hp : p mod PGSIZE = 0 /\ kend <= p < kend + PGSIZE).
  { subst p. unfold PGSIZE. lia. }
  set (n := Z.to_nat ((PHYSTOP - p) / PGSIZE)).
  assert (Hn : p + Z.of_nat n * PGSIZE = PHYSTOP).
  { subst n. unfold PHYSTOP, KERNBASE, PGSIZE in *. lia. }
  assert (Hel : forall q, q ∈ pages_from p n <-> valid_page q).
  { intros q. rewrite elem_of_pages_from. unfold valid_page. split.
    - intros (i & Hi & ->). unfold PGSIZE in *. lia.
    - intros [Hal Hr]. exists ((q - p) / PGSIZE). unfold PGSIZE in *. lia. }
  destruct (freerange_loop_done n (KState m 0) [] p PHYSTOP) as (s' & E & Hk').
  - split; [done|constructor|constructor].
  - apply list.Forall_forall. intros q. apply Hel.
  - by intros q ?%not_elem_of_nil.
  - unfold PGSIZE in *. lia.
  - exists s', (reverse (pages_from p n)). rewrite app_nil_r in Hk'.
    split_and!; [done|done|]. intros q. rewrite elem_of_reverse. apply Hel.
Qed.
End Kalloc.
