(* ===== verification/Vm.v ===== *)
(** * Virtual memory, [kernel/vm.c]

    Sv39 page tables in physical memory: the walk, the map and unmap
    operations, growing, shrinking, copying and freeing a user address space,
    and the copies between kernel and user memory.  A page table is the
    physical address of its root page and a PTE pointer the address of the
    eight-byte entry.  The definitions follow the C code statement by
    statement, with pointers as addresses and [uint64] arithmetic wrapped where
    it can wrap. *)

From S2P Require Import Prelude Mem CString Riscv Kalloc.

(** [x & flag] as a condition. *)
Definition has_flag (x flag : Z) : bool := negb (Z.land x flag =? 0).

(** Run a computation for each element of a list, in order. *)
Fixpoint forM_ {S A} (l : list A) (f : A -> M S unit) : M S unit :=
  match l with
  | [] => mret tt
  | x :: l => f x;; forM_ l f
  end.

Section Vm.
Context `{KernelImage}.

(** The loop of [walk] with [level] levels left above the leaf table. *)
Fixpoint walk_levels (level : nat) (pagetable va : Z) (alloc : bool) : M kstate Z :=
  match level with
  | O => mret (pagetable + 8 * PX 0 va)
  | S level' =>
      let pte := pagetable + 8 * PX (Z.of_nat level) va in
      v ← read64 pte;
      if has_flag v PTE_V then walk_levels level' (PTE2PA v) va alloc
      else if negb alloc then mret 0
      else
        pagetable' ← kalloc;
        if pagetable' =? 0 then mret 0
        else
          memset_page pagetable' 0;;
          write64 pte (Z.lor (PA2PTE pagetable') PTE_V);;
          walk_levels level' pagetable' va alloc
  end.

Definition walk (pagetable va : Z) (alloc : bool) : M kstate Z :=
  if MAXVA <=? va then panic "walk" else walk_levels 2 pagetable va alloc.

Definition walkaddr (pagetable va : Z) : M kstate Z :=
  if MAXVA <=? va then mret 0
  else
    pte ← walk pagetable va false;
    if pte =? 0 then mret 0
    else
      v ← read64 pte;
      if negb (has_flag v PTE_V) then mret 0
      else if negb (has_flag v PTE_U) then mret 0
      else mret (PTE2PA v).

Fixpoint mappages_loop (fuel : nat) (pagetable a last pa perm : Z) : M kstate Z :=
  match fuel with
  | O => hang
  | S fuel =>
      pte ← walk pagetable a true;
      if pte =? 0 then mret (-1)
      else
        v ← read64 pte;
        if has_flag v PTE_V then panic "mappages: remap"
        else
          write64 pte (Z.lor (Z.lor (PA2PTE pa) perm) PTE_V);;
          if a =? last then mret 0
          else mappages_loop fuel pagetable (u64 (a + PGSIZE)) last (u64 (pa + PGSIZE)) perm
  end.

(** The fuel counts the pages from [a] to [last]; when [va + size] wrapped
    and [last] is below [a], the pages up to [MAXVA], where [walk] panics. *)
Definition mappages (pagetable va size pa perm : Z) : M kstate Z :=
  if size =? 0 then panic "mappages: size"
  else
    let a := PGROUNDDOWN va in
    let last := PGROUNDDOWN (u64 (va + size - 1)) in
    let span := if a <=? last then last - a else MAXVA - a in
    mappages_loop (S (Z.to_nat (span / PGSIZE))) pagetable a last pa perm.

Definition kvmmap (kpgtbl va pa sz perm : Z) : M kstate unit :=
  r ← mappages kpgtbl va sz pa perm;
  if negb (r =? 0) then panic "kvmmap" else mret tt.

Fixpoint uvmunmap_loop (fuel : nat) (pagetable a last : Z) (do_free : bool) : M kstate unit :=
  if a <? last then
    match fuel with
    | O => hang
    | S fuel =>
        pte ← walk pagetable a false;
        if pte =? 0 then panic "uvmunmap: walk"
        else
          v ← read64 pte;
          if negb (has_flag v PTE_V) then panic "uvmunmap: not mapped"
          else if PTE_FLAGS v =? PTE_V then panic "uvmunmap: not a leaf"
          else
            (if do_free then kfree (PTE2PA v) else mret tt);;
            write64 pte 0;;
            uvmunmap_loop fuel pagetable (u64 (a + PGSIZE)) last do_free
    end
  else mret tt.

Definition uvmunmap (pagetable va npages : Z) (do_free : bool) : M kstate unit :=
  if negb (va mod PGSIZE =? 0) then panic "uvmunmap: not aligned"
  else uvmunmap_loop (Z.to_nat npages) pagetable va (u64 (va + npages * PGSIZE)) do_free.

Definition uvmcreate : M kstate Z :=
  pagetable ← kalloc;
  if pagetable =? 0 then mret 0
  else memset_page pagetable 0;; mret pagetable.

(** [src] is the initcode; [memmove(mem, src, sz)] copies it.  Nothing checks what [kalloc]
    returns: [memset] of a null page is a page fault in the kernel, and [kerneltrap] panics. *)
Definition uvmfirst (pagetable : Z) (src : list Z) : M kstate unit :=
  let sz := Z.of_nat (length src) in
  if PGSIZE <=? sz then panic "uvmfirst: more than a page"
  else
    mem_ ← kalloc;
    if mem_ =? 0 then panic "kerneltrap"
    else
      memset_page mem_ 0;;
      _ ← mappages pagetable 0 PGSIZE mem_ (Z.lor (Z.lor (Z.lor PTE_W PTE_R) PTE_X) PTE_U);
      modify (set_mem (fun m => write_bytes m mem_ src)).

Definition uvmdealloc (pagetable oldsz newsz : Z) : M kstate Z :=
  if oldsz <=? newsz then mret oldsz
  else
    (if PGROUNDUP newsz <? PGROUNDUP oldsz then
       let npages := s32 ((PGROUNDUP oldsz - PGROUNDUP newsz) / PGSIZE) in
       uvmunmap pagetable (PGROUNDUP newsz) (u64 npages) true
     else mret tt);;
    mret newsz.

Fixpoint uvmalloc_loop (fuel : nat) (pagetable a oldsz newsz xperm : Z) : M kstate Z :=
  if a <? newsz then
    match fuel with
    | O => hang
    | S fuel =>
        mem_ ← kalloc;
        if mem_ =? 0 then uvmdealloc pagetable a oldsz;; mret 0
        else
          memset_page mem_ 0;;
          r ← mappages pagetable a PGSIZE mem_ (Z.lor (Z.lor PTE_R PTE_U) xperm);
          if negb (r =? 0) then kfree mem_;; uvmdealloc pagetable a oldsz;; mret 0
          else uvmalloc_loop fuel pagetable (u64 (a + PGSIZE)) oldsz newsz xperm
    end
  else mret newsz.

Definition uvmalloc (pagetable oldsz newsz xperm : Z) : M kstate Z :=
  if newsz <? oldsz then mret oldsz
  else
    let oldsz := PGROUNDUP oldsz in
    uvmalloc_loop (Z.to_nat ((newsz - oldsz + PGSIZE - 1) / PGSIZE)) pagetable oldsz oldsz newsz xperm.

(** [depth] bounds the recursion: a page table has three levels. *)
Fixpoint freewalk (depth : nat) (pagetable : Z) : M kstate unit :=
  match depth with
  | O => hang
  | S depth =>
      forM_ (seqZ 0 512) (fun i =>
        pte ← read64 (pagetable + 8 * i);
        if has_flag pte PTE_V && negb (has_flag pte (Z.lor (Z.lor PTE_R PTE_W) PTE_X)) then
          freewalk depth (PTE2PA pte);;
          write64 (pagetable + 8 * i) 0
        else if has_flag pte PTE_V then panic "freewalk: leaf"
        else mret tt);;
      kfree pagetable
  end.

Definition uvmfree (pagetable sz : Z) : M kstate unit :=
  (if 0 <? sz then uvmunmap pagetable 0 (PGROUNDUP sz / PGSIZE) true else mret tt);;
  freewalk 3 pagetable.

Fixpoint uvmcopy_loop (fuel : nat) (old new i sz : Z) : M kstate Z :=
  if i <? sz then
    match fuel with
    | O => hang
    | S fuel =>
        pte ← walk old i false;
        if pte =? 0 then panic "uvmcopy: pte should exist"
        else
          v ← read64 pte;
          if negb (has_flag v PTE_V) then panic "uvmcopy: page not present"
          else
            let pa := PTE2PA v in
            let flags := PTE_FLAGS v in
            mem_ ← kalloc;
            if mem_ =? 0 then uvmunmap new 0 (i / PGSIZE) true;; mret (-1)
            else
              modify (set_mem (fun m => memmove m mem_ pa (Z.to_nat PGSIZE)));;
              r ← mappages new i PGSIZE mem_ flags;
              if negb (r =? 0) then
                kfree mem_;; uvmunmap new 0 (i / PGSIZE) true;; mret (-1)
              else uvmcopy_loop fuel old new (u64 (i + PGSIZE)) sz
    end
  else mret 0.

Definition uvmcopy (old new sz : Z) : M kstate Z :=
  uvmcopy_loop (Z.to_nat ((sz + PGSIZE - 1) / PGSIZE)) old new 0 sz.

Definition uvmclear (pagetable va : Z) : M kstate unit :=
  pte ← walk pagetable va false;
  if pte =? 0 then panic "uvmclear"
  else v ← read64 pte; write64 pte (Z.land v (u64 (Z.lnot PTE_U))).

(** ** Copies between kernel and user memory

    The kernel-side buffer is a list of bytes: the source of [copyout], and
    for [copyin] and [copyinstr] the bytes stored in [dst], which come back
    with the return value. *)

Fixpoint copyout_loop (fuel : nat) (pagetable dstva : Z) (src : list Z) : M kstate Z :=
  match src with
  | [] => mret 0
  | _ =>
      match fuel with
      | O => hang
      | S fuel =>
          let va0 := PGROUNDDOWN dstva in
          pa0 ← walkaddr pagetable va0;
          if pa0 =? 0 then mret (-1)
          else
            let len := Z.of_nat (length src) in
            let n := PGSIZE - (dstva - va0) in
            let n := if len <? n then len else n in
            modify (set_mem (fun m =>
              write_bytes m (pa0 + (dstva - va0)) (take (Z.to_nat n) src)));;
            copyout_loop fuel pagetable (u64 (va0 + PGSIZE)) (drop (Z.to_nat n) src)
      end
  end.

Definition copyout (pagetable dstva : Z) (src : list Z) : M kstate Z :=
  copyout_loop (length src) pagetable dstva src.

Fixpoint copyin_loop (fuel : nat) (pagetable srcva len : Z) (dst : list Z)
  : M kstate (Z * list Z) :=
  if 0 <? len then
    match fuel with
    | O => hang
    | S fuel =>
        let va0 := PGROUNDDOWN srcva in
        pa0 ← walkaddr pagetable va0;
        if pa0 =? 0 then mret (-1, dst)
        else
          let n := PGSIZE - (srcva - va0) in
          let n := if len <? n then len else n in
          bs ← gets (fun s => read_bytes (mem s) (pa0 + (srcva - va0)) (Z.to_nat n));
          copyin_loop fuel pagetable (u64 (va0 + PGSIZE)) (len - n) (dst ++ bs)
    end
  else mret (0, dst).

Definition copyin (pagetable srcva len : Z) : M kstate (Z * list Z) :=
  copyin_loop (Z.to_nat len) pagetable srcva len [].

(** The inner loop of [copyinstr]: [n] bytes at [p], stopping after a NUL.
    Returns whether a NUL was found and the bytes stored. *)
Fixpoint copyinstr_page (m : memory) (p : Z) (n : nat) : bool * list Z :=
  match n with
  | O => (false, [])
  | S n =>
      let c := mget m p in
      if c =? 0 then (true, [0])
      else let '(got_null, bs) := copyinstr_page m (p + 1) n in (got_null, c :: bs)
  end.

Fixpoint copyinstr_loop (fuel : nat) (pagetable srcva max : Z) (dst : list Z)
  : M kstate (Z * list Z) :=
  if 0 <? max then
    match fuel with
    | O => hang
    | S fuel =>
        let va0 := PGROUNDDOWN srcva in
        pa0 ← walkaddr pagetable va0;
        if pa0 =? 0 then mret (-1, dst)
        else
          let n := PGSIZE - (srcva - va0) in
          let n := if max <? n then max else n in
          r ← gets (fun s => copyinstr_page (mem s) (pa0 + (srcva - va0)) (Z.to_nat n));
          if (r.1 : bool) then mret (0, dst ++ r.2)
          else copyinstr_loop fuel pagetable (u64 (va0 + PGSIZE)) (max - n) (dst ++ r.2)
    end
  else mret (-1, dst).

Definition copyinstr (pagetable srcva max : Z) : M kstate (Z * list Z) :=
  copyinstr_loop (Z.to_nat max) pagetable srcva max [].
End Vm.
