(* ===== verification/PageTable.v ===== *)
(** * Page tables as maps

    The abstraction of a page table: [table_at] follows the tree from the root
    and [leaf] is the PTE that translates a virtual address, 0 when a table on
    the way is missing.  [pt_wf] says that the tree is a tree (no table page is
    reached twice) and [vm_inv] that its pages are disjoint from the free list;
    under that invariant a store to one leaf changes one translation. *)

From S2P Require Import Prelude Mem CString Riscv Kalloc Vm.

Section PageTable.
Context `{KernelImage}.

Definition next_table (m : memory) (t i : Z) : option Z :=
  let v := load64 m (t + 8 * i) in
  if has_flag v PTE_V then Some (PTE2PA v) else None.

Fixpoint table_at (m : memory) (t : Z) (path : list Z) : option Z :=
  match path with
  | [] => Some t
  | i :: path => match next_table m t i with
                 | Some t' => table_at m t' path
                 | None => None
                 end
  end.

Definition index (i : Z) : Prop := 0 <= i < 512.
Definition path_ok (p : list Z) : Prop := (length p <= 2)%nat /\ Forall index p.
Definition is_table (m : memory) (root t : Z) : Prop :=
  exists p, path_ok p /\ table_at m root p = Some t.

Definition va_path (va : Z) : list Z := [PX 2 va; PX 1 va].

Definition leaf (m : memory) (root va : Z) : Z :=
  match table_at m root (va_path va) with
  | Some t => load64 m (t + 8 * PX 0 va)
  | None => 0
  end.

(** What [walkaddr] computes. *)
Definition translate (m : memory) (root va : Z) : Z :=
  let v := leaf m root va in
  if has_flag v PTE_V && has_flag v PTE_U then PTE2PA v else 0.

Record pt_wf (m : memory) (root : Z) : Prop := {
  wf_valid : forall p t, path_ok p -> table_at m root p = Some t -> valid_page t;
  wf_inj : forall p q t, path_ok p -> path_ok q ->
    table_at m root p = Some t -> table_at m root q = Some t -> p = q;
}.

Record vm_inv (s : kstate) (root : Z) (L : list Z) : Prop := {
  vm_kinv : kinv s L;
  vm_wf : pt_wf (mem s) root;
  vm_notfree : forall t, is_table (mem s) root t -> t ∉ L;
}.

(** How an operation that may allocate tables changes the state. *)
Record vm_evolve (root : Z) (s : kstate) (L : list Z) (s' : kstate) (L' : list Z) : Prop := {
  ve_inv : vm_inv s' root L';
  ve_free : exists used, L = used ++ L';
  ve_tables : forall t, is_table (mem s') root t -> is_table (mem s) root t \/ t ∈ L;
  ve_mono : forall t, is_table (mem s) root t -> is_table (mem s') root t;
  ve_frame : forall p, p mod PGSIZE = 0 -> ~ is_table (mem s) root p -> p ∉ L ->
    mem_eq_on (in_page p) (mem s) (mem s');
}.

(** ** Paths *)

Lemma va_path_ok va : path_ok (va_path va).
Proof. split; [cbn; lia|]. repeat constructor; apply PX_range; lia. Qed.

Lemma path_ok_snoc p i : path_ok (p ++ [i]) -> path_ok p /\ index i /\ (length p <= 1)%nat.
Proof.
  intros [Hl HF]. rewrite length_app in Hl. cbn in Hl.
  apply Forall_app in HF as [HF1 HF2]. rewrite list.Forall_singleton in HF2.
  split; [split; [lia|done]|split; [done|lia]].
Qed.

Lemma path_ok_snoc_2 p i : (length p <= 1)%nat -> path_ok p -> index i -> path_ok (p ++ [i]).
Proof.
  intros Hl [_ HF] Hi. split; [rewrite length_app; cbn; lia|].
  apply Forall_app. split; [done|]. by apply list.Forall_singleton.
Qed.

Lemma table_at_snoc m t p i :
  table_at m t (p ++ [i]) =
    match table_at m t p with Some t' => next_table m t' i | None => None end.
Proof.
  revert t. induction p as [|j p IH]; intros t; cbn.
  - by destruct (next_table m t i).
  - destruct (next_table m t j); [apply IH|done].
Qed.

Lemma is_table_root m root : is_table m root root.
Proof. exists []. split; [|done]. split; [cbn; lia|constructor]. Qed.

Lemma entry_in_page t i b : index i -> in_range (t + 8 * i) 8 b -> in_page t b.
Proof. unfold index, in_range, in_page, PGSIZE. lia. Qed.

(** ** Framing *)

Lemma next_table_frame m m' t i :
  index i -> mem_eq_on (in_page t) m m' -> next_table m' t i = next_table m t i.
Proof.
  intros Hi Hf. unfold next_table. rewrite (load64_ext m m'); [done|].
  apply mem_eq_on_sub with (in_page t); [done|]. intros b. by apply entry_in_page.
Qed.

Lemma table_at_frame m m' root p :
  (forall t, is_table m root t -> mem_eq_on (in_page t) m m') ->
  path_ok p -> table_at m' root p = table_at m root p.
Proof.
  intros Hf. induction p as [|i p IH] using rev_ind; intros Hp; [done|].
  apply path_ok_snoc in Hp as (Hp & Hi & Hl). rewrite !table_at_snoc, IH by done.
  destruct (table_at m root p) as [t|] eqn:E; [|done].
  apply next_table_frame; [done|]. apply Hf. by exists p.
Qed.

Lemma is_table_frame m m' root t :
  (forall t, is_table m root t -> mem_eq_on (in_page t) m m') ->
  is_table m' root t <-> is_table m root t.
Proof.
  intros Hf. split; intros (p & Hp & E); exists p; (split; [done|]).
  - by rewrite <-(table_at_frame m m').
  - by rewrite (table_at_frame m m').
Qed.

Lemma leaf_frame m m' root va :
  (forall t, is_table m root t -> mem_eq_on (in_page t) m m') ->
  leaf m' root va = leaf m root va.
Proof.
  intros Hf. unfold leaf. rewrite (table_at_frame m m') by (done || apply va_path_ok).
  destruct (table_at m root (va_path va)) as [t|] eqn:E; [|done].
  apply load64_ext. apply mem_eq_on_sub with (in_page t).
  - apply Hf. exists (va_path va). split; [apply va_path_ok|done].
  - intros b. apply entry_in_page. apply PX_range. lia.
Qed.

Lemma pt_wf_frame m m' root :
  (forall t, is_table m root t -> mem_eq_on (in_page t) m m') -> pt_wf m root -> pt_wf m' root.
Proof.
  intros Hf [Hv Hi]. split.
  - intros p t Hp E. apply (Hv p); [done|]. by rewrite <-(table_at_frame m m').
  - intros p q t Hp Hq E1 E2. rewrite (table_at_frame m m') in E1, E2 by done. by apply (Hi p q t).
Qed.

Lemma is_table_valid m root t : pt_wf m root -> is_table m root t -> valid_page t.
Proof. intros Hwf (p & Hp & E). by apply (wf_valid _ _ Hwf p). Qed.

(** ** Linking a fresh table into the tree *)

Lemma PTE_V_flag pa : 0 <= pa < 2 ^ 56 -> has_flag (Z.lor (PA2PTE pa) PTE_V) PTE_V = true.
Proof.
  intros Hpa. unfold has_flag. rewrite PA2PTE_spec, lor_disjoint_mul by (done || cbn; lia).
  change PTE_V with (Z.ones 1). rewrite Z.land_ones by lia. cbn -[Z.modulo Z.mul Z.div Z.pow].
  change (Z.ones 1) with 1. destruct (Z.eqb_spec ((pa / 2 ^ 12 * 2 ^ 10 + 1) mod 2 ^ 1) 0); [lia|done].
Qed.

Lemma valid_page_pa r : valid_page r -> 0 <= r < 2 ^ 56 /\ r mod PGSIZE = 0.
Proof.
  intros Hr. pose proof (valid_page_bounds r Hr). destruct Hr.
  unfold KERNBASE, PHYSTOP, KERNBASE, PGSIZE in *. lia.
Qed.

Lemma next_table_link m t i r :
  valid_page r -> load64 m (t + 8 * i) = Z.lor (PA2PTE r) PTE_V -> next_table m t i = Some r.
Proof.
  intros [Hr Hal]%valid_page_pa E. unfold next_table. rewrite E, PTE_V_flag by done.
  rewrite PTE2PA_PA2PTE by (done || cbn; lia). done.
Qed.

Lemma next_table_zero m t i : load64 m (t + 8 * i) = 0 -> next_table m t i = None.
Proof. intros E. unfold next_table. by rewrite E. Qed.

(** The entry [i] of the table [t] does not overlap the entry [j] of a table
    page [u] unless they are the same entry. *)
Lemma entries_disjoint t i u j :
  t mod PGSIZE = 0 -> u mod PGSIZE = 0 -> index i -> index j -> (u, j) <> (t, i) ->
  forall b, in_range (u + 8 * j) 8 b -> ~ in_range (t + 8 * i) 8 b.
Proof.
  intros Ht Hu Hi Hj Hne b Hb Hb'.
  assert (u = t) as ->.
  { apply (pages_disjoint u t b); [done..| |]; (eapply entry_in_page; [|eassumption]; done). }
  unfold in_range in *. apply Hne. f_equal. lia.
Qed.

Section Link.
Variables (m m' : memory) (root : Z) (p : list Z) (i t r : Z).
Hypothesis Hwf : pt_wf m root.
Hypothesis Hp : path_ok p.
Hypothesis Hlen : (length p <= 1)%nat.
Hypothesis Hi : index i.
Hypothesis Ht : table_at m root p = Some t.
Hypothesis Hnone : next_table m t i = None.
Hypothesis Hr : valid_page r.
Hypothesis Hfresh : ~ is_table m root r.
Hypothesis Hframe : forall a, ~ in_page r a -> ~ in_range (t + 8 * i) 8 a -> mget m' a = mget m a.
Hypothesis Hentry : load64 m' (t + 8 * i) = Z.lor (PA2PTE r) PTE_V.
Hypothesis Hzero : forall j, index j -> load64 m' (r + 8 * j) = 0.

Lemma link_other u j :
  is_table m root u -> index j -> (u, j) <> (t, i) ->
  load64 m' (u + 8 * j) = load64 m (u + 8 * j).
Proof.
  intros Hu Hj Hne. apply load64_ext. intros b Hb.
  assert (valid_page u) as [Hu0 _] by (by apply (is_table_valid m root)).
  assert (valid_page t) as [Ht0 _] by (by apply (wf_valid _ _ Hwf p)).
  apply Hframe.
  - intros Hrb. assert (u = r) as ->; [|done].
    apply (pages_disjoint u r b); [done|apply Hr|by apply (entry_in_page u j)|done].
  - by apply (entries_disjoint t i u j).
Qed.

Lemma table_at_link q :
  path_ok q ->
  table_at m' root q = if decide (q = p ++ [i]) then Some r else table_at m root q.
Proof.
  induction q as [|j q IH] using rev_ind; intros Hq.
  - rewrite decide_False; [done|]. by destruct p.
  - apply path_ok_snoc in Hq as (Hq & Hj & Hql). rewrite !table_at_snoc, IH by done.
    destruct (decide (q = p)) as [->|Hqp].
    + rewrite decide_False by (intros E; apply (f_equal length) in E;
        rewrite length_app in E; cbn in E; lia).
      rewrite Ht. destruct (decide (j = i)) as [->|Hji].
      * rewrite decide_True by done. by apply next_table_link.
      * rewrite decide_False by (intros [? ?]%app_inj_tail; done).
        unfold next_table. rewrite link_other; [done|by exists p|done|congruence].
    + rewrite (decide_False (P := q ++ [j] = p ++ [i]))
        by (intros [? ?]%app_inj_tail; done).
      destruct (decide (q = p ++ [i])) as [->|Hqpi].
      * rewrite next_table_zero by auto. by rewrite table_at_snoc, Ht, Hnone.
      * destruct (table_at m root q) as [u|] eqn:Eu; [|done].
        unfold next_table. rewrite link_other; [done|by exists q|done|].
        intros [= -> _]. apply Hqp. by apply (wf_inj _ _ Hwf q p t).
Qed.

Lemma is_table_link u : is_table m' root u <-> is_table m root u \/ u = r.
Proof.
  split.
  - intros (q & Hq & E). rewrite table_at_link in E by done. case_decide.
    + right. congruence.
    + left. by exists q.
  - intros [(q & Hq & E)| ->].
    + exists q. split; [done|]. rewrite table_at_link by done. rewrite decide_False; [done|].
      intros ->. by rewrite table_at_snoc, Ht, Hnone in E.
    + exists (p ++ [i]). split; [by apply path_ok_snoc_2|].
      rewrite table_at_link by (by apply path_ok_snoc_2). by rewrite decide_True.
Qed.

Lemma pt_wf_link : pt_wf m' root.
Proof.
  split.
  - intros q u Hq E. rewrite table_at_link in E by done. case_decide; [congruence|].
    by apply (wf_valid _ _ Hwf q).
  - intros q q' u Hq Hq' E E'. rewrite table_at_link in E, E' by done.
    do 2 case_decide; simplify_eq; [done| | |by apply (wf_inj _ _ Hwf q q' u)];
      destruct Hfresh; eexists; eauto.
Qed.

Lemma leaf_link va : leaf m' root va = leaf m root va.
Proof.
  unfold leaf. rewrite table_at_link by apply va_path_ok.
  assert (HPX : index (PX 0 va)) by (apply PX_range; lia).
  case_decide as E.
  - rewrite Hzero by done. rewrite E, table_at_snoc, Ht, Hnone. done.
  - destruct (table_at m root (va_path va)) as [u|] eqn:Eu; [|done].
    apply link_other; [by exists (va_path va); split; [apply va_path_ok|]|done|].
    intros [= -> _]. pose proof (wf_inj _ _ Hwf (va_path va) p t (va_path_ok va) Hp Eu Ht) as <-.
    cbn in Hlen. lia.
Qed.
End Link.

(** ** Storing a leaf entry *)

Section StoreLeaf.
Variables (m : memory) (root va t v : Z).
Hypothesis Hwf : pt_wf m root.
Hypothesis Ht : table_at m root (va_path va) = Some t.
Hypothesis Hv : 0 <= v < 2 ^ 64.
Let m' := store64 m (t + 8 * PX 0 va) v.

Lemma store_leaf_other u j :
  is_table m root u -> index j -> (u, j) <> (t, PX 0 va) ->
  load64 m' (u + 8 * j) = load64 m (u + 8 * j).
Proof.
  clear Hv. intros Hu Hj Hne. apply load64_ext, store64_frame. intros b Hb.
  assert (valid_page u) as [Hu0 _] by (by apply (is_table_valid m root)).
  assert (valid_page t) as [Ht0 _].
  { by apply (wf_valid _ _ Hwf (va_path va)); [apply va_path_ok|]. }
  assert (Hn : ~ in_range (t + 8 * PX 0 va) 8 b).
  { eapply (entries_disjoint t (PX 0 va) u j); try done. apply PX_range. lia. }
  unfold in_range in Hn. lia.
Qed.

Lemma table_at_store_leaf q : path_ok q -> table_at m' root q = table_at m root q.
Proof.
  clear Hv. induction q as [|j q IH] using rev_ind; intros Hq; [done|].
  apply path_ok_snoc in Hq as (Hq & Hj & Hql). rewrite !table_at_snoc, IH by done.
  destruct (table_at m root q) as [u|] eqn:Eu; [|done].
  unfold next_table. rewrite store_leaf_other; [done|by exists q|done|].
  intros [= -> _].
  pose proof (wf_inj _ _ Hwf q (va_path va) t Hq (va_path_ok va) Eu Ht) as ->.
  cbn in Hql. lia.
Qed.

Lemma is_table_store_leaf u : is_table m' root u <-> is_table m root u.
Proof.
  split; intros (q & Hq & E); exists q; (split; [done|]);
    [by rewrite table_at_store_leaf in E|by rewrite table_at_store_leaf].
Qed.

Lemma pt_wf_store_leaf : pt_wf m' root.
Proof.
  split.
  - intros q u Hq E. rewrite table_at_store_leaf in E by done. by apply (wf_valid _ _ Hwf q).
  - intros q q' u Hq Hq' E E'. rewrite table_at_store_leaf in E, E' by done.
    by apply (wf_inj _ _ Hwf q q' u).
Qed.

Lemma leaf_store_leaf_eq : leaf m' root va = v.
Proof.
  unfold leaf. rewrite table_at_store_leaf by apply va_path_ok. rewrite Ht.
  by apply load64_store64.
Qed.

Lemma leaf_store_leaf_wide va' :
  0 <= va < 2 ^ 39 -> 0 <= va' < 2 ^ 39 -> va' / PGSIZE <> va / PGSIZE ->
  leaf m' root va' = leaf m root va'.
Proof.
  clear Hv. intros Hva Hva' Hne. unfold leaf. rewrite table_at_store_leaf by apply va_path_ok.
  destruct (table_at m root (va_path va')) as [u|] eqn:Eu; [|done].
  apply store_leaf_other; [exists (va_path va'); split; [apply va_path_ok|done]| |].
  { apply PX_range. lia. }
  intros [= -> E0].
  pose proof (wf_inj _ _ Hwf _ _ t (va_path_ok va') (va_path_ok va) Eu Ht) as [= E2 E1].
  apply Hne. by apply PX_inj.
Qed.

Lemma leaf_store_leaf_ne va' :
  0 <= va < MAXVA -> 0 <= va' < MAXVA -> va' / PGSIZE <> va / PGSIZE ->
  leaf m' root va' = leaf m root va'.
Proof. intros Hva%below_MAXVA Hva'%below_MAXVA. by apply leaf_store_leaf_wide. Qed.
End StoreLeaf.
End PageTable.
