(* ===== verification/VmSpec.v ===== *)
(** * Correctness of the page-table operations

    Each operation of [Vm] against the abstraction of [PageTable]: what it
    returns, which translations it changes, which memory it leaves alone and
    that it keeps [vm_inv]. *)

From S2P Require Import Prelude Mem CString Riscv Kalloc Vm PageTable.

Section VmSpec.
Context `{KernelImage}.

(** ** Evolution is a preorder *)

Lemma vm_evolve_refl root s L : vm_inv s root L -> vm_evolve root s L s L.
Proof.
  intros Hi. split; [done|by exists []|by left|done|]. intros. apply mem_eq_on_refl.
Qed.

Lemma vm_evolve_trans root s1 L1 s2 L2 s3 L3 :
  vm_evolve root s1 L1 s2 L2 -> vm_evolve root s2 L2 s3 L3 -> vm_evolve root s1 L1 s3 L3.
Proof.
  intros [_ [u1 ->] Ht1 Hm1 Hf1] [Hi [u2 ->] Ht2 Hm2 Hf2]. split; [done| | |auto|].
  - exists (u1 ++ u2). by rewrite app_assoc.
  - intros t [?|?]%Ht2; [by apply Ht1|]. right. apply elem_of_app. by right.
  - intros p Hp Hnt Hnl. apply mem_eq_on_trans with (mem s2); [by apply Hf1|].
    apply Hf2; [done|by intros [?|?]%Ht1|]. intros ?. apply Hnl, elem_of_app. by right.
Qed.

(** ** The walk without allocation *)

Lemma walk_noalloc root va s :
  va < MAXVA ->
  walk root va false s =
    Done (match table_at (mem s) root (va_path va) with
          | Some t => t + 8 * PX 0 va
          | None => 0
          end) s.
Proof.
  intros Hva. unfold walk. destruct (Z.leb_spec MAXVA va); [lia|].
  cbn [walk_levels]. change (Z.of_nat 2) with 2. change (Z.of_nat 1) with 1.
  unfold va_path, mbind, M_bind, read64, gets. cbn [table_at]. unfold next_table.
  destruct (has_flag (load64 (mem s) (root + 8 * PX 2 va)) PTE_V); [|done].
  by destruct (has_flag _ PTE_V).
Qed.

Lemma table_entry_nonzero m root va t :
  pt_wf m root -> table_at m root (va_path va) = Some t -> t + 8 * PX 0 va <> 0.
Proof.
  intros Hwf Ht. assert (valid_page t) as [Hb _]%valid_page_bounds.
  { by apply (wf_valid _ _ Hwf (va_path va)); [apply va_path_ok|]. }
  pose proof (PX_range 0 va). unfold KERNBASE in Hb. lia.
Qed.

(** [walkaddr] is [translate], and leaves the state alone. *)
Lemma walkaddr_done root va s :
  pt_wf (mem s) root -> va < MAXVA ->
  walkaddr root va s = Done (translate (mem s) root va) s.
Proof.
  intros Hwf Hva. unfold walkaddr. destruct (Z.leb_spec MAXVA va); [lia|].
  rewrite (bind_done _ _ _ _ _ (walk_noalloc root va s Hva)).
  unfold translate, leaf. destruct (table_at (mem s) root (va_path va)) as [t|] eqn:Et; [|done].
  destruct (Z.eqb_spec (t + 8 * PX 0 va) 0) as [E|_]; [by apply table_entry_nonzero in Et|].
  unfold mbind, M_bind, read64, gets.
  destruct (has_flag _ PTE_V); [|done]. cbn. by destruct (has_flag _ PTE_U).
Qed.

Lemma walkaddr_above root va s : MAXVA <= va -> walkaddr root va s = Done 0 s.
Proof. intros Hva. unfold walkaddr. by destruct (Z.leb_spec MAXVA va); [|lia]. Qed.

(** ** The walk with allocation *)

(** The state after [memset(pagetable, 0, PGSIZE); *pte = PA2PTE(pagetable) | PTE_V]. *)
Definition linked (s : kstate) (r e : Z) : kstate :=
  set_mem (fun m => store64 m e (Z.lor (PA2PTE r) PTE_V))
    (set_mem (fun m => memset m r 0 (Z.to_nat PGSIZE)) s).

Lemma linked_mem s r e :
  valid_page r -> (forall b, in_range e 8 b -> ~ in_page r b) ->
  (forall a, ~ in_page r a -> ~ in_range e 8 a -> mget (mem (linked s r e)) a = mget (mem s) a) /\
  load64 (mem (linked s r e)) e = Z.lor (PA2PTE r) PTE_V /\
  (forall j, index j -> load64 (mem (linked s r e)) (r + 8 * j) = 0).
Proof.
  intros [Hr Hal]%valid_page_pa Hd. cbn [linked set_mem mem]. split_and!.
  - intros a Ha He. unfold store64. rewrite mget_store_le_out by (unfold in_range in He; lia).
    rewrite mget_memset, decide_False; [done|]. unfold in_page, PGSIZE in *. lia.
  - apply load64_store64. apply PTE_range; [done|apply flags_ok_V].
  - intros j Hj. rewrite (load64_ext (memset (mem s) r 0 (Z.to_nat PGSIZE))).
    + apply load64_memset_0; unfold index, PGSIZE in *; lia.
    + apply store64_frame. intros b Hb.
      destruct (decide (in_range e 8 b)) as [He|He]; [|unfold in_range in He; lia].
      destruct (Hd b He). by apply (entry_in_page r j).
Qed.

Lemma linked_step {A} (k : M kstate A) r e s :
  (memset_page r 0;; write64 e (Z.lor (PA2PTE r) PTE_V);; k) s = k (linked s r e).
Proof. reflexivity. Qed.

Lemma linked_freelist s r e : freelist (linked s r e) = freelist s.
Proof. reflexivity. Qed.

#[local] Opaque linked.

(** A free page becomes the table of a missing entry. *)
Lemma alloc_table root s L p t i r s1 :
  vm_inv s root (r :: L) -> path_ok p -> (length p <= 1)%nat -> index i ->
  table_at (mem s) root p = Some t -> next_table (mem s) t i = None ->
  kinv s1 L -> r ∉ L -> valid_page r -> mem_eq_on (outside r) (mem s) (mem s1) ->
  vm_evolve root s (r :: L) (linked s1 r (t + 8 * i)) L /\
  table_at (mem (linked s1 r (t + 8 * i))) root (p ++ [i]) = Some r /\
  (forall va, leaf (mem (linked s1 r (t + 8 * i))) root va = leaf (mem s) root va).
Proof.
  intros [Hk Hwf Hnf] Hp Hlen Hi Ht Hnone Hk1 HrL Hr Hout.
  assert (Hfresh : ~ is_table (mem s) root r) by (intros Hx%Hnf; set_solver).
  assert (Htt : is_table (mem s) root t) by (by exists p).
  assert (Htv : valid_page t) by (by apply (is_table_valid (mem s) root)).
  assert (Htr : t <> r) by (by intros ->).
  assert (Hd : forall b, in_range (t + 8 * i) 8 b -> ~ in_page r b).
  { intros b Hb Hrb. apply Htr. apply (pages_disjoint t r b); [apply Htv|apply Hr| |done].
    by apply (entry_in_page t i). }
  destruct (linked_mem s1 r (t + 8 * i) Hr Hd) as (Hfr1 & Hent & Hz).
  assert (Hfl := linked_freelist s1 r (t + 8 * i)).
  generalize dependent (linked s1 r (t + 8 * i)). intros s' Hfr1 Hent Hz Hfl.
  assert (Hfr : forall a, ~ in_page r a -> ~ in_range (t + 8 * i) 8 a ->
                          mget (mem s') a = mget (mem s) a).
  { intros a Ha Ha'. rewrite Hfr1 by done. by apply Hout. }
  assert (Hlink := is_table_link (mem s) (mem s') root p i t r Hwf Hp Hlen Hi Ht Hnone Hr Hfresh Hfr Hent Hz).
  assert (Hpage : forall q, q mod PGSIZE = 0 -> q <> r -> q <> t -> mem_eq_on (in_page q) (mem s) (mem s')).
  { intros q Hq Hqr Hqt a Ha. apply Hfr; intros Ha'.
    - apply Hqr. apply (pages_disjoint q r a); [done|apply Hr|done..].
    - apply Hqt. apply (pages_disjoint q t a); [done|apply Htv|done|]. by apply (entry_in_page t i). }
  split; [split|split].
  - split.
    + apply kinv_frame with s1; [done| |done]. intros q Hq.
      pose proof (kinv_valid _ _ Hk1) as Hv. rewrite list.Forall_forall in Hv.
      assert (q <> r) by (by intros ->).
      assert (q <> t) by (intros ->; apply (Hnf t Htt), elem_of_cons; by right).
      intros a Ha. rewrite Hfr1; [done| |].
      * intros Ha'. assert (q = r); [|done].
        apply (pages_disjoint q r a); [apply Hv|apply Hr|..]; done.
      * intros Ha'. assert (q = t); [|done].
        apply (pages_disjoint q t a); [by apply Hv|apply Htv|done|]. by apply (entry_in_page t i).
    + by apply (pt_wf_link (mem s) (mem s') root p i t r).
    + intros u [Hu| ->]%Hlink; [|done]. by intros ?; apply (Hnf u Hu), elem_of_cons; right.
  - by exists [r].
  - intros u [?| ->]%Hlink; [by left|]. right. apply elem_of_cons. by left.
  - intros u Hu. apply Hlink. by left.
  - intros q Hq Hqt HqL. apply Hpage; [done| |by intros ->].
    intros ->. apply HqL, elem_of_cons. by left.
  - rewrite (table_at_link (mem s) (mem s') root p i t r) by (done || by apply path_ok_snoc_2).
    by rewrite decide_True.
  - intros va. by apply (leaf_link (mem s) (mem s') root p i t r).
Qed.

Lemma walk_levels_alloc root va level p t s L :
  vm_inv s root L -> (length p + level = 2)%nat -> p = take (length p) (va_path va) ->
  table_at (mem s) root p = Some t ->
  exists r s' L', walk_levels level t va true s = Done r s' /\ vm_evolve root s L s' L' /\
    (length L <= length L' + level)%nat /\
    (forall va', leaf (mem s') root va' = leaf (mem s) root va') /\
    ((r = 0 /\ (length L < level)%nat) \/
     exists t', table_at (mem s') root (va_path va) = Some t' /\ r = t' + 8 * PX 0 va).
Proof.
  revert p t s L. induction level as [|level IH]; intros p t s L Hinv Hlen Hpre Ht.
  - exists (t + 8 * PX 0 va), s, L. split_and!; [done|by apply vm_evolve_refl|lia|done|right].
    exists t. split; [|done]. rewrite <-Ht, Hpre. f_equal.
    rewrite take_ge; [done|]. cbn. lia.
  - set (i := PX (Z.of_nat (S level)) va).
    assert (Hi : index i) by (apply PX_range; lia).
    assert (Hp : path_ok p).
    { rewrite Hpre. split; [rewrite length_take; cbn; lia|]. apply Forall_take, va_path_ok. }
    assert (Hpre' : p ++ [i] = take (length (p ++ [i])) (va_path va)).
    { rewrite length_app. cbn [length]. subst i. destruct level as [|[|]]; [| |lia].
      - destruct p as [|a [|]]; cbn in Hlen; try lia. cbn in Hpre. injection Hpre as ->. done.
      - destruct p; cbn in Hlen; [done|lia]. }
    cbn [walk_levels]. fold i. rewrite bind_read64.
    destruct (has_flag (load64 (mem s) (t + 8 * i)) PTE_V) eqn:Ev.
    + assert (Hnt : next_table (mem s) t i = Some (PTE2PA (load64 (mem s) (t + 8 * i)))).
      { unfold next_table. by rewrite Ev. }
      destruct (IH (p ++ [i]) (PTE2PA (load64 (mem s) (t + 8 * i))) s L) as (r & s' & L' & E & He & Hu & Hl & Hr);
        [done|rewrite length_app; cbn; lia|done|by rewrite table_at_snoc, Ht|].
      exists r, s', L'. split_and!; [done|done|lia|done|]. destruct Hr as [[-> Hr]|Hr]; [left; split; [done|lia]|by right].
    + assert (Hnt : next_table (mem s) t i = None).
      { unfold next_table. by rewrite Ev. }
      cbn [negb]. destruct (kalloc_cases s L (vm_kinv _ _ _ Hinv))
        as [[-> Ek]|(r & L1 & s1 & -> & Ek & Hk1 & Hr0 & HrL & Hrv & Hout)].
      * mstep Ek. cbn.
        exists 0, s, []. split_and!; [done|by apply vm_evolve_refl|cbn; lia|done|left; cbn; split; [done|lia]].
      * mstep Ek. destruct (Z.eqb_spec r 0); [done|].
        rewrite linked_step.
        destruct (alloc_table root s L1 p t i r s1) as (Hev & Htr & Hleaf);
          [done|done|lia|done|done|done|done|done|done|done|].
        destruct (IH (p ++ [i]) r (linked s1 r (t + 8 * i)) L1) as (r' & s' & L' & E & He & Hu & Hl & Hr);
          [apply Hev|rewrite length_app; cbn; lia|done|done|].
        exists r', s', L'. split_and!; [done|by eapply vm_evolve_trans|cbn; lia| |].
        -- intros va'. rewrite Hl. apply Hleaf.
        -- destruct Hr as [[-> Hr]|Hr]; [left; split; [done|cbn; lia]|by right].
Qed.

Lemma walk_alloc root va s L :
  vm_inv s root L -> va < MAXVA ->
  exists r s' L', walk root va true s = Done r s' /\ vm_evolve root s L s' L' /\
    (length L <= length L' + 2)%nat /\
    (forall va', leaf (mem s') root va' = leaf (mem s) root va') /\
    ((r = 0 /\ (length L < 2)%nat) \/
     exists t', table_at (mem s') root (va_path va) = Some t' /\ r = t' + 8 * PX 0 va).
Proof.
  intros Hinv Hva. unfold walk. destruct (Z.leb_spec MAXVA va); [lia|].
  by apply (walk_levels_alloc root va 2 []).
Qed.

(** ** Stores to leaf entries *)

Lemma store_leaf_page m root va t v q :
  pt_wf m root -> table_at m root (va_path va) = Some t -> q mod PGSIZE = 0 -> q <> t ->
  mem_eq_on (in_page q) m (store64 m (t + 8 * PX 0 va) v).
Proof.
  intros Hwf Ht Hq Hqt. assert (valid_page t) as [Ht0 _].
  { apply (wf_valid _ _ Hwf (va_path va)); [apply va_path_ok|done]. }
  apply store64_frame. intros b Hb.
  destruct (decide (in_range (t + 8 * PX 0 va) 8 b)) as [Hi|Hi]; [|unfold in_range in Hi; lia].
  destruct Hqt. apply (pages_disjoint q t b); [done..|].
  apply (entry_in_page t (PX 0 va)); [apply PX_range; lia|done].
Qed.

Lemma store_leaf_evolve root s L va t v :
  vm_inv s root L -> table_at (mem s) root (va_path va) = Some t ->
  vm_evolve root s L (set_mem (fun m => store64 m (t + 8 * PX 0 va) v) s) L.
Proof.
  intros [Hk Hwf Hnf] Ht.
  assert (Htt : is_table (mem s) root t) by (exists (va_path va); split; [apply va_path_ok|done]).
  assert (Htv : valid_page t) by (by apply (is_table_valid (mem s) root)).
  assert (Hit := is_table_store_leaf (mem s) root va t v Hwf Ht).
  assert (Hpage := fun q => store_leaf_page (mem s) root va t v q Hwf Ht).
  split; cbn [mem set_mem].
  - split; cbn [mem set_mem].
    + apply kinv_frame with s; [done| |done]. intros q Hq. apply Hpage.
      * pose proof (kinv_valid _ _ Hk) as Hv. rewrite list.Forall_forall in Hv. by apply Hv.
      * intros ->. by apply (Hnf t).
    + by apply pt_wf_store_leaf.
    + intros u Hu%Hit. by apply Hnf.
  - by exists [].
  - intros u Hu%Hit. by left.
  - intros u Hu. by apply Hit.
  - intros q Hq Hqt _. apply Hpage; [done|]. by intros ->.
Qed.

(** ** mappages *)

Lemma PX_page level va va' : 0 <= level -> va / PGSIZE = va' / PGSIZE -> PX level va = PX level va'.
Proof.
  intros Hl E. rewrite !PX_spec by done. f_equal.
  unfold PXSHIFT, PGSHIFT. rewrite Z.pow_add_r by lia.
  rewrite <-!Z.div_div by (try apply Z.pow_nonzero; lia). f_equal. exact E.
Qed.

Lemma leaf_page m root va va' : va / PGSIZE = va' / PGSIZE -> leaf m root va = leaf m root va'.
Proof.
  intros E. unfold leaf, va_path.
  by rewrite (PX_page 0 va va'), (PX_page 1 va va'), (PX_page 2 va va') by (done || lia).
Qed.

(** The PTE [mappages] stores. *)
Definition map_pte (pa perm : Z) : Z := Z.lor (Z.lor (PA2PTE pa) perm) PTE_V.

(** The leaf of every page after [n] pages from [a] on were mapped to [pa] on. *)
Definition mapped (m m' : memory) (root a n pa perm : Z) : Prop :=
  forall va, 0 <= va < MAXVA ->
    leaf m' root va =
      let k := va / PGSIZE - a / PGSIZE in
      if decide (0 <= k < n) then map_pte (pa + k * PGSIZE) perm else leaf m root va.

Lemma map_pte_range pa perm : 0 <= pa < 2 ^ 56 -> flags_ok perm -> 0 <= map_pte pa perm < 2 ^ 64.
Proof.
  intros Hpa Hperm. unfold map_pte. rewrite <-Z.lor_assoc. apply PTE_range; [done|].
  apply flags_ok_lor; auto with pte.
Qed.

(** One iteration: walk, check, store. *)
Definition map_entry (pagetable a pa perm : Z) {A} (fail : M kstate A) (k : M kstate A) : M kstate A :=
  pte ← walk pagetable a true;
  if pte =? 0 then fail
  else
    v ← read64 pte;
    if has_flag v PTE_V then panic "mappages: remap"
    else write64 pte (map_pte pa perm);; k.

Lemma map_entry_done {A} root a pa perm (fail k : M kstate A) s L :
  vm_inv s root L -> 0 <= a < MAXVA -> 0 <= pa < 2 ^ 56 -> flags_ok perm ->
  has_flag (leaf (mem s) root a) PTE_V = false ->
  exists s' L', vm_evolve root s L s' L' /\ (length L <= length L' + 2)%nat /\
    ((map_entry root a pa perm fail k s = fail s' /\ (length L < 2)%nat /\
      mapped (mem s) (mem s') root a 0 pa perm) \/
     (map_entry root a pa perm fail k s = k s' /\ mapped (mem s) (mem s') root a 1 pa perm)).
Proof.
  intros Hinv Ha Hpa Hperm Hnv.
  destruct (walk_alloc root a s L Hinv) as (r & s1 & L1 & E & Hev & Hu & Hl & Hr); [lia|].
  unfold map_entry. mstep E.
  destruct Hr as [[-> Hlen]|(t & Ht & ->)].
  - exists s1, L1. split; [done|]. split; [done|]. left. split_and!; [done|done|].
    intros va _. cbn. rewrite decide_False by lia. apply Hl.
  - pose proof (ve_inv _ _ _ _ _ Hev) as Hi1. pose proof (vm_wf _ _ _ Hi1) as Hwf1.
    destruct (Z.eqb_spec (t + 8 * PX 0 a) 0) as [Ez|_]; [by apply (table_entry_nonzero (mem s1) root) in Ez|].
    assert (Elf : leaf (mem s1) root a = load64 (mem s1) (t + 8 * PX 0 a)) by (unfold leaf; by rewrite Ht).
    rewrite Hl in Elf. rewrite bind_read64, <-Elf, Hnv, bind_write64.
    set (s2 := set_mem (fun m => store64 m (t + 8 * PX 0 a) (map_pte pa perm)) s1).
    exists s2, L1. split; [eapply vm_evolve_trans; [exact Hev|by apply store_leaf_evolve]|].
    split; [done|]. right. split; [done|].
    pose proof (map_pte_range pa perm Hpa Hperm) as Hrange.
    intros va Hva. cbn -[map_pte]. case_decide as Hd.
    + rewrite (leaf_page _ _ va a) by lia. replace (va / PGSIZE - a / PGSIZE) with 0 by lia.
      rewrite Z.mul_0_l, Z.add_0_r. by apply leaf_store_leaf_eq.
    + rewrite <-Hl. apply leaf_store_leaf_ne; [done..|lia].
Qed.

Lemma mapped_step m m1 m2 root a j pa perm :
  a mod PGSIZE = 0 -> 0 <= j ->
  mapped m m1 root a 1 pa perm -> mapped m1 m2 root (a + PGSIZE) j (pa + PGSIZE) perm ->
  mapped m m2 root a (j + 1) pa perm.
Proof.
  intros Ha Hj H1 H2 va Hva. rewrite (H2 va Hva), (H1 va Hva). cbn -[map_pte].
  replace ((a + PGSIZE) / PGSIZE) with (a / PGSIZE + 1) by (unfold PGSIZE; lia).
  repeat case_decide; try done; try lia; f_equal; lia.
Qed.

Lemma mappages_loop_done n root a pa perm s L :
  vm_inv s root L -> a mod PGSIZE = 0 -> 0 <= a -> a + (Z.of_nat n + 1) * PGSIZE <= MAXVA ->
  0 <= pa -> pa + (Z.of_nat n + 1) * PGSIZE <= 2 ^ 56 -> flags_ok perm ->
  (forall k, 0 <= k <= Z.of_nat n -> has_flag (leaf (mem s) root (a + k * PGSIZE)) PTE_V = false) ->
  exists r s' L' j, mappages_loop (S n) root a (a + Z.of_nat n * PGSIZE) pa perm s = Done r s' /\
    vm_evolve root s L s' L' /\ (length L <= length L' + 2 * S n)%nat /\
    mapped (mem s) (mem s') root a j pa perm /\
    ((r = 0 /\ j = Z.of_nat n + 1) \/
     (r = -1 /\ 0 <= j <= Z.of_nat n /\ (length L < 2 * S n)%nat)).
Proof.
  revert a pa s L. induction n as [|n IH]; intros a pa s L Hinv Hal Ha0 Ha Hpa0 Hpa Hperm Hfree.
  - assert (HM : MAXVA = 2 ^ 38) by done.
    destruct (map_entry_done root a pa perm (mret (-1))
      (if a =? a + 0 * PGSIZE then mret 0
       else mappages_loop 0 root (u64 (a + PGSIZE)) (a + 0 * PGSIZE) (u64 (pa + PGSIZE)) perm) s L)
      as (s' & L' & Hev & Hu & [(E & Hl & Hm)|(E & Hm)]); [done|unfold PGSIZE in *; lia..|done| | |].
    { rewrite <-(Hfree 0) by lia. do 2 f_equal. lia. }
    + exists (-1), s', L', 0. split_and!; [exact E|done|lia|done|]. right. split_and!; [done|lia|lia|lia].
    + exists 0, s', L', 1. split_and!; [|done|lia|done|by left].
      etransitivity; [exact E|]. destruct (Z.eqb_spec a (a + 0 * PGSIZE)); [done|lia].
  - destruct (map_entry_done root a pa perm (mret (-1))
      (if a =? a + Z.of_nat (S n) * PGSIZE then mret 0
       else mappages_loop (S n) root (u64 (a + PGSIZE)) (a + Z.of_nat (S n) * PGSIZE) (u64 (pa + PGSIZE)) perm) s L)
      as (s1 & L1 & Hev & Hu & [(E & Hl & Hm)|(E & Hm)]);
      [done|unfold PGSIZE in *; lia..|done| | |].
    { rewrite <-(Hfree 0) by lia. do 2 f_equal. lia. }
    + exists (-1), s1, L1, 0. split_and!; [exact E|done|lia|done|]. right. split_and!; [done|lia|lia|lia].
    + assert (HM : MAXVA = 2 ^ 38) by done.
      destruct (IH (a + PGSIZE) (pa + PGSIZE) s1 L1) as (r & s2 & L2 & j & E2 & Hev2 & Hu2 & Hm2 & Hr);
        [apply Hev|unfold PGSIZE in *; lia..|done| |].
      { intros k Hk. rewrite (Hm (a + PGSIZE + k * PGSIZE)) by (unfold PGSIZE in *; lia). cbn -[map_pte].
        rewrite decide_False by (unfold PGSIZE in *; lia).
        rewrite <-(Hfree (k + 1)) by lia. do 2 f_equal. lia. }
      exists r, s2, L2, (j + 1). split_and!.
      * etransitivity; [exact E|]. destruct (Z.eqb_spec a (a + Z.of_nat (S n) * PGSIZE)); [unfold PGSIZE in *; lia|].
        rewrite (u64_small (a + PGSIZE)), (u64_small (pa + PGSIZE)) by (unfold PGSIZE in *; lia).
        replace (a + Z.of_nat (S n) * PGSIZE) with (a + PGSIZE + Z.of_nat n * PGSIZE) by lia.
        exact E2.
      * by eapply vm_evolve_trans.
      * lia.
      * eapply mapped_step; [done|lia|done|done].
      * destruct Hr as [[-> ->]|(-> & Hj & Hl)]; [left; split; [done|lia]|].
        right. split_and!; [done|lia|lia|]. lia.
Qed.

(** The number of pages [va .. va+size-1] touches. *)
Definition npages_of (va size : Z) : Z := (va + size - 1) / PGSIZE - va / PGSIZE + 1.

Lemma mappages_done root va size pa perm s L :
  vm_inv s root L -> 0 <= va -> 0 < size -> va + size <= MAXVA ->
  0 <= pa -> pa + npages_of va size * PGSIZE <= 2 ^ 56 -> flags_ok perm ->
  (forall va', 0 <= va' < MAXVA -> 0 <= va' / PGSIZE - va / PGSIZE < npages_of va size ->
     has_flag (leaf (mem s) root va') PTE_V = false) ->
  exists r s' L' j, mappages root va size pa perm s = Done r s' /\
    vm_evolve root s L s' L' /\
    Z.of_nat (length L) <= Z.of_nat (length L') + 2 * npages_of va size /\
    mapped (mem s) (mem s') root va j pa perm /\
    ((r = 0 /\ j = npages_of va size) \/
     (r = -1 /\ 0 <= j < npages_of va size /\ Z.of_nat (length L) < 2 * npages_of va size)).
Proof.
  intros Hinv Hva Hsz Hmax Hpa0 Hpa Hperm Hfree.
  assert (HM : MAXVA = 2 ^ 38) by done. unfold mappages.
  destruct (Z.eqb_spec size 0) as [?|_]; [lia|].
  rewrite (u64_small (va + size - 1)), !PGROUNDDOWN_spec by lia.
  set (a := va / PGSIZE * PGSIZE).
  set (n := Z.to_nat ((va + size - 1) / PGSIZE - va / PGSIZE)).
  assert (Hn : Z.of_nat n + 1 = npages_of va size).
  { unfold npages_of. subst n. rewrite Z2Nat.id; [lia|]. unfold PGSIZE. lia. }
  assert (Ha : a / PGSIZE = va / PGSIZE) by (subst a; by rewrite Z.div_mul).
  assert (Hlast : (va + size - 1) / PGSIZE * PGSIZE = a + Z.of_nat n * PGSIZE).
  { subst a n. clear -Hva Hsz. unfold PGSIZE. lia. }
  assert (Hend : a + (Z.of_nat n + 1) * PGSIZE <= MAXVA).
  { rewrite HM in *. clear -Hlast Hmax. unfold PGSIZE in *. lia. }
  assert (Hal : a mod PGSIZE = 0 /\ 0 <= a) by (subst a; clear -Hva; unfold PGSIZE; lia).
  rewrite Hlast. clear Hlast. clearbody a n.
  destruct (Z.leb_spec a (a + Z.of_nat n * PGSIZE)) as [_|]; [|unfold PGSIZE in *; lia].
  replace ((a + Z.of_nat n * PGSIZE - a) / PGSIZE) with (Z.of_nat n)
    by (rewrite Z.add_simpl_l, Z.div_mul; done).
  rewrite Nat2Z.id, <-Hn. rewrite <-Hn in Hpa, Hfree.
  destruct (mappages_loop_done n root a pa perm s L) as (r & s' & L' & j & E & Hev & Hu & Hm & Hr);
    [done|apply Hal|apply Hal|done|done|done|done| |].
  { intros k Hk. apply Hfree; [|rewrite <-Ha]; clear -Hk Hend Hal HM; unfold PGSIZE in *; lia. }
  exists r, s', L', j. split_and!; [done|done|clear -Hu; lia| |].
  - intros va' Hva'. specialize (Hm va' Hva'). cbn -[map_pte] in *. by rewrite Ha in Hm.
  - destruct Hr as [[-> ->]|(-> & Hj & Hl)]; [by left|right]. clear -Hj Hl. lia.
Qed.

(** Mapping one page, the case the kernel uses everywhere. *)
Lemma mappages_page root va pa perm s L :
  vm_inv s root L -> va mod PGSIZE = 0 -> 0 <= va < MAXVA -> 0 <= pa < 2 ^ 55 -> flags_ok perm ->
  has_flag (leaf (mem s) root va) PTE_V = false ->
  exists r s' L', mappages root va PGSIZE pa perm s = Done r s' /\
    vm_evolve root s L s' L' /\ (length L <= length L' + 2)%nat /\
    ((r = 0 /\ mapped (mem s) (mem s') root va 1 pa perm) \/
     (r = -1 /\ (length L < 2)%nat /\ mapped (mem s) (mem s') root va 0 pa perm)).
Proof.
  intros Hinv Hal Hva Hpa Hperm Hfree. assert (HM : MAXVA = 2 ^ 38) by done.
  assert (Hn : npages_of va PGSIZE = 1) by (unfold npages_of, PGSIZE in *; lia).
  destruct (mappages_done root va PGSIZE pa perm s L) as (r & s' & L' & j & E & Hev & Hu & Hm & Hr);
    [done|lia|done|unfold PGSIZE in *; lia|lia|rewrite Hn; unfold PGSIZE in *; lia|done| |].
  { intros va' Hva' Hk. rewrite Hn in Hk. rewrite (leaf_page _ _ va' va) by lia. done. }
  rewrite Hn in *. exists r, s', L'. split_and!; [done|done|lia|].
  destruct Hr as [[-> ->]|(-> & Hj & Hl)]; [by left|right].
  assert (j = 0) as -> by lia. split_and!; [done|lia|done].
Qed.

(** ** Flags of stored PTEs *)

Lemma has_flag_bit x k : 0 <= k -> has_flag x (Z.shiftl 1 k) = Z.testbit x k.
Proof.
  intros Hk. unfold has_flag. rewrite Z.shiftl_1_l.
  destruct (Z.testbit x k) eqn:E.
  - destruct (Z.eqb_spec (Z.land x (2 ^ k)) 0) as [E0|]; [|done].
    apply (f_equal (fun z => Z.testbit z k)) in E0.
    rewrite Z.land_spec, Z.pow2_bits_true, E, Z.bits_0 in E0 by done. done.
  - destruct (Z.eqb_spec (Z.land x (2 ^ k)) 0) as [|E0]; [done|]. destruct E0.
    apply Z.bits_inj'. intros i Hi. rewrite Z.land_spec, Z.pow2_bits_eqb, Z.bits_0 by done.
    destruct (Z.eqb_spec k i) as [->|]; [by rewrite E|by rewrite andb_false_r].
Qed.

Lemma has_flag_lor a b k : 0 <= k ->
  has_flag (Z.lor a b) (Z.shiftl 1 k) = has_flag a (Z.shiftl 1 k) || has_flag b (Z.shiftl 1 k).
Proof. intros Hk. rewrite !has_flag_bit by done. apply Z.lor_spec. Qed.

Lemma map_pte_V pa perm : has_flag (map_pte pa perm) PTE_V = true.
Proof. unfold map_pte. change PTE_V with (Z.shiftl 1 0). rewrite has_flag_lor by lia. apply orb_true_r. Qed.

Lemma map_pte_U pa perm : has_flag perm PTE_U = true -> has_flag (map_pte pa perm) PTE_U = true.
Proof.
  intros Hp. unfold map_pte. change PTE_U with (Z.shiftl 1 4) in *.
  rewrite !has_flag_lor, Hp by lia. by rewrite orb_true_r.
Qed.

Lemma map_pte_pa pa perm :
  0 <= pa < 2 ^ 56 -> pa mod PGSIZE = 0 -> flags_ok perm -> PTE2PA (map_pte pa perm) = pa.
Proof.
  intros Hpa Hal Hp. unfold map_pte. rewrite <-Z.lor_assoc. apply PTE2PA_PA2PTE; [done..|].
  apply flags_ok_lor; auto with pte.
Qed.

Lemma map_pte_flags pa perm :
  0 <= pa < 2 ^ 56 -> flags_ok perm -> PTE_FLAGS (map_pte pa perm) = Z.lor perm PTE_V.
Proof.
  intros Hpa Hp. unfold map_pte. rewrite <-Z.lor_assoc. apply PTE_FLAGS_PA2PTE; [done|].
  apply flags_ok_lor; auto with pte.
Qed.

(** A user mapping translates to its page. *)
Lemma translate_map m root va pa perm :
  leaf m root va = map_pte pa perm -> has_flag perm PTE_U = true ->
  0 <= pa < 2 ^ 56 -> pa mod PGSIZE = 0 -> flags_ok perm -> translate m root va = pa.
Proof.
  intros E HU Hpa Hal Hp. unfold translate. rewrite E, map_pte_V, map_pte_U by done.
  by apply map_pte_pa.
Qed.

(** ** uvmunmap *)

Definition unmapped (m m' : memory) (root a n : Z) : Prop :=
  forall va, 0 <= va < 2 ^ 39 ->
    leaf m' root va =
      if decide (0 <= va / PGSIZE - a / PGSIZE < n) then 0 else leaf m root va.

(** The leaf is mapped and [uvmunmap] accepts it. *)
Definition unmappable (v : Z) : Prop := has_flag v PTE_V = true /\ PTE_FLAGS v <> PTE_V.

Lemma leaf_table m root va v :
  leaf m root va = v -> has_flag v PTE_V = true ->
  exists t, table_at m root (va_path va) = Some t /\ load64 m (t + 8 * PX 0 va) = v.
Proof.
  unfold leaf. intros <-. destruct (table_at m root (va_path va)) as [t|]; [by exists t|done].
Qed.

Lemma unmapped_0 m root a : unmapped m m root a 0.
Proof. intros va _. rewrite decide_False; [done|lia]. Qed.

Lemma unmapped_step m m1 m2 root a n :
  a mod PGSIZE = 0 -> 0 <= n ->
  unmapped m m1 root a 1 -> unmapped m1 m2 root (a + PGSIZE) n -> unmapped m m2 root a (n + 1).
Proof.
  intros Ha Hn H1 H2 va Hva. rewrite (H2 va Hva), (H1 va Hva).
  replace ((a + PGSIZE) / PGSIZE) with (a / PGSIZE + 1) by (unfold PGSIZE; lia).
  repeat case_decide; (done || lia).
Qed.

(** Clearing the entry of a mapped page. *)
Lemma clear_leaf root s L a t :
  vm_inv s root L -> 0 <= a < MAXVA -> table_at (mem s) root (va_path a) = Some t ->
  let s' := set_mem (fun m => store64 m (t + 8 * PX 0 a) 0) s in
  vm_evolve root s L s' L /\ unmapped (mem s) (mem s') root a 1 /\
  (forall u, is_table (mem s') root u <-> is_table (mem s) root u) /\
  (forall q, q mod PGSIZE = 0 -> ~ is_table (mem s) root q -> mem_eq_on (in_page q) (mem s) (mem s')).
Proof.
  intros Hinv Ha Ht s'. pose proof (vm_wf _ _ _ Hinv) as Hwf.
  split; [by apply store_leaf_evolve|]. split; [|split].
  2: { intros u. by apply is_table_store_leaf. }
  2: { intros q Hq Hqt. apply (store_leaf_page _ root); [done..|]. intros ->. apply Hqt.
       exists (va_path a). split; [apply va_path_ok|done]. }
  intros va Hva. case_decide.
  - rewrite (leaf_page _ _ va a) by lia. by apply leaf_store_leaf_eq.
  - apply leaf_store_leaf_wide; [done|done|by apply below_MAXVA|done|lia].
Qed.

Lemma uvmunmap_loop_keep n root a s L :
  vm_inv s root L -> a mod PGSIZE = 0 -> 0 <= a -> a + Z.of_nat n * PGSIZE <= MAXVA ->
  (forall k, 0 <= k < Z.of_nat n -> unmappable (leaf (mem s) root (a + k * PGSIZE))) ->
  exists s', uvmunmap_loop n root a (a + Z.of_nat n * PGSIZE) false s = Done tt s' /\
    vm_evolve root s L s' L /\ unmapped (mem s) (mem s') root a (Z.of_nat n).
Proof.
  revert a s. induction n as [|n IH]; intros a s Hinv Hal Ha0 Ha Hmapped; cbn [uvmunmap_loop].
  - destruct (Z.ltb_spec a (a + Z.of_nat 0 * PGSIZE)); [lia|].
    exists s. split_and!; [done|by apply vm_evolve_refl|apply unmapped_0].
  - assert (HM : MAXVA = 2 ^ 38) by done.
    destruct (Z.ltb_spec a (a + Z.of_nat (S n) * PGSIZE)); [|unfold PGSIZE in *; lia].
    rewrite (bind_done _ _ _ _ _ (walk_noalloc root a s ltac:(unfold PGSIZE in *; lia))).
    destruct (Hmapped 0 ltac:(lia)) as [HV HF]. rewrite Z.mul_0_l, Z.add_0_r in HV, HF.
    destruct (leaf_table (mem s) root a _ eq_refl HV) as (t & Ht & El). rewrite Ht.
    destruct (Z.eqb_spec (t + 8 * PX 0 a) 0) as [Ez|_].
    { by apply (table_entry_nonzero (mem s) root) in Ez; [|apply Hinv|]. }
    rewrite bind_read64, El, HV. cbn [negb].
    destruct (Z.eqb_spec (PTE_FLAGS (leaf (mem s) root a)) PTE_V); [done|].
    rewrite bind_ret, bind_write64.
    destruct (clear_leaf root s L a t Hinv ltac:(unfold PGSIZE in *; lia) Ht) as (Hev & Hun & _).
    set (s1 := set_mem _ s) in *.
    destruct (IH (a + PGSIZE) s1) as (s2 & E2 & Hev2 & Hun2);
      [apply Hev|unfold PGSIZE in *; lia..| |].
    { intros k Hk. rewrite (Hun (a + PGSIZE + k * PGSIZE)) by (unfold PGSIZE in *; lia).
      rewrite decide_False by (unfold PGSIZE in *; lia).
      replace (a + PGSIZE + k * PGSIZE) with (a + (k + 1) * PGSIZE) by lia. apply Hmapped. lia. }
    exists s2. split_and!.
    + rewrite u64_small by (unfold PGSIZE in *; lia).
      replace (a + Z.of_nat (S n) * PGSIZE) with (a + PGSIZE + Z.of_nat n * PGSIZE) by lia. done.
    + by eapply vm_evolve_trans.
    + rewrite Nat2Z.inj_succ. by eapply unmapped_step; [|lia|..].
Qed.

Lemma uvmunmap_keep root va n s L :
  vm_inv s root L -> va mod PGSIZE = 0 -> 0 <= va -> 0 <= n -> va + n * PGSIZE <= MAXVA ->
  (forall k, 0 <= k < n -> unmappable (leaf (mem s) root (va + k * PGSIZE))) ->
  exists s', uvmunmap root va n false s = Done tt s' /\
    vm_evolve root s L s' L /\ unmapped (mem s) (mem s') root va n.
Proof.
  intros Hinv Hal Hva Hn Hmax Hm. unfold uvmunmap. rewrite Hal. cbn [Z.eqb negb].
  assert (HM : MAXVA = 2 ^ 38) by done. rewrite u64_small by (unfold PGSIZE in *; lia).
  destruct (uvmunmap_loop_keep (Z.to_nat n) root va s L) as (s' & E & Hev & Hu);
    rewrite ?Z2Nat.id by lia; [done..|]. rewrite Z2Nat.id in E, Hu by lia. by exists s'.
Qed.

(** ** Freeing mapped pages *)

Lemma kfree_vm root s L p :
  vm_inv s root L -> valid_page p -> p ∉ L -> ~ is_table (mem s) root p ->
  exists s', kfree p s = Done tt s' /\ vm_inv s' root (p :: L) /\
    mem_eq_on (outside p) (mem s) (mem s') /\
    (forall t, is_table (mem s') root t <-> is_table (mem s) root t) /\
    (forall path, path_ok path -> table_at (mem s') root path = table_at (mem s) root path) /\
    (forall va, leaf (mem s') root va = leaf (mem s) root va).
Proof.
  intros [Hk Hwf Hnf] Hp HpL Hpt. destruct (kfree_done s L p Hk Hp HpL) as (s' & E & Hk' & Hout).
  assert (Hf : forall t, is_table (mem s) root t -> mem_eq_on (in_page t) (mem s) (mem s')).
  { intros t Ht a Ha. apply Hout. intros Hpa. assert (t = p) as ->; [|done].
    apply (pages_disjoint t p a); [|apply Hp|done..]. by apply (is_table_valid (mem s) root). }
  exists s'. split_and!; [done| |done|..].
  - split; [done|by apply (pt_wf_frame (mem s))|].
    intros t Ht%(is_table_frame (mem s)); [|done]. apply not_elem_of_cons.
    split; [by intros ->|by apply Hnf].
  - intros t. by apply is_table_frame.
  - intros path Hpath. by apply table_at_frame.
  - intros va. by apply leaf_frame.
Qed.

(** The physical pages behind [n] virtual pages from [a] on. *)
Definition leaf_pages (m : memory) (root a n : Z) : list Z :=
  (fun k => PTE2PA (leaf m root (a + k * PGSIZE))) <$> seqZ 0 n.

Record released (root : Z) (s : kstate) (L pas : list Z) (s' : kstate) : Prop := {
  rel_inv : vm_inv s' root (reverse pas ++ L);
  rel_tables : forall t, is_table (mem s') root t <-> is_table (mem s) root t;
  rel_frame : forall q, q mod PGSIZE = 0 -> ~ is_table (mem s) root q -> q ∉ pas ->
    mem_eq_on (in_page q) (mem s) (mem s');
}.

Lemma leaf_pages_cons m root a n :
  0 <= n -> leaf_pages m root a (n + 1) =
    PTE2PA (leaf m root a) :: leaf_pages m root (a + PGSIZE) n.
Proof.
  intros Hn. unfold leaf_pages. rewrite seqZ_cons by lia. cbn [fmap list_fmap].
  f_equal; [do 2 f_equal; lia|]. replace (Z.pred (n + 1)) with n by lia.
  change (Z.succ 0) with (0 + 1). rewrite <-(Z.add_comm 1 0).
  rewrite <-fmap_add_seqZ, <-list_fmap_compose. apply list_fmap_ext. intros i k Hk. cbn.
  do 2 f_equal. lia.
Qed.

Lemma leaf_pages_ext m m' root a n :
  (forall k, 0 <= k < n -> leaf m' root (a + k * PGSIZE) = leaf m root (a + k * PGSIZE)) ->
  leaf_pages m' root a n = leaf_pages m root a n.
Proof.
  intros E. apply list_fmap_ext. intros i k Hk. apply list_elem_of_lookup_2, elem_of_seqZ in Hk.
  rewrite E by lia. done.
Qed.

(** The first [n] pages of a longer run. *)
Lemma uvmunmap_loop_prefix n k root a last s L :
  vm_inv s root L -> a mod PGSIZE = 0 -> 0 <= a -> a + Z.of_nat n * PGSIZE <= MAXVA ->
  a + Z.of_nat n * PGSIZE <= last ->
  (forall j, 0 <= j < Z.of_nat n -> unmappable (leaf (mem s) root (a + j * PGSIZE))) ->
  NoDup (leaf_pages (mem s) root a (Z.of_nat n)) ->
  (forall p, p ∈ leaf_pages (mem s) root a (Z.of_nat n) ->
     valid_page p /\ (p ∉ L) /\ ~ is_table (mem s) root p) ->
  exists s', uvmunmap_loop (n + k) root a last true s =
      uvmunmap_loop k root (a + Z.of_nat n * PGSIZE) last true s' /\
    released root s L (leaf_pages (mem s) root a (Z.of_nat n)) s' /\
    unmapped (mem s) (mem s') root a (Z.of_nat n).
Proof.
  revert a s L. induction n as [|n IH]; intros a s L Hinv Hal Ha0 Ha Hlast Hmapped Hnd Hpg.
  - exists s. rewrite Z.mul_0_l, Z.add_0_r. split_and!; [done|split; done|apply unmapped_0].
  - assert (HM : MAXVA = 2 ^ 38) by done.
    cbn [uvmunmap_loop Nat.add]. destruct (Z.ltb_spec a last); [|unfold PGSIZE in *; lia].
    rewrite (bind_done _ _ _ _ _ (walk_noalloc root a s ltac:(unfold PGSIZE in *; lia))).
    destruct (Hmapped 0 ltac:(lia)) as [HV HF]. rewrite Z.mul_0_l, Z.add_0_r in HV, HF.
    destruct (leaf_table (mem s) root a _ eq_refl HV) as (t & Ht & El). rewrite Ht.
    destruct (Z.eqb_spec (t + 8 * PX 0 a) 0) as [Ez|_].
    { by apply (table_entry_nonzero (mem s) root) in Ez; [|apply Hinv|]. }
    rewrite bind_read64, El, HV. cbn [negb].
    destruct (Z.eqb_spec (PTE_FLAGS (leaf (mem s) root a)) PTE_V); [done|].
    rewrite Nat2Z.inj_succ in Hnd, Hpg |- *. change (Z.succ (Z.of_nat n)) with (Z.of_nat n + 1) in *.
    rewrite leaf_pages_cons in Hnd, Hpg |- * by lia.
    set (p := PTE2PA (leaf (mem s) root a)) in *.
    apply list.NoDup_cons in Hnd as [Hp Hnd].
    destruct (Hpg p) as (Hpv & HpL & Hpt); [apply elem_of_cons; by left|].
    destruct (kfree_vm root s L p Hinv Hpv HpL Hpt) as (s0 & E0 & Hinv0 & Hout0 & Htb0 & Hta0 & Hlf0).
    mstep E0. rewrite bind_write64.
    destruct (clear_leaf root s0 (p :: L) a t Hinv0 ltac:(unfold PGSIZE in *; lia)) as (Hev & Hun & Htb & Hfr).
    { rewrite Hta0; [done|apply va_path_ok]. }
    set (s1 := set_mem _ s0) in *.
    assert (Hl1 : forall j, 0 <= j < Z.of_nat n ->
      leaf (mem s1) root (a + PGSIZE + j * PGSIZE) = leaf (mem s) root (a + PGSIZE + j * PGSIZE)).
    { intros j Hj. rewrite (Hun (a + PGSIZE + j * PGSIZE)) by (unfold PGSIZE in *; lia).
      rewrite decide_False by (unfold PGSIZE in *; lia). apply Hlf0. }
    assert (Htb1 : forall u, is_table (mem s1) root u <-> is_table (mem s) root u).
    { intros u. by rewrite Htb, Htb0. }
    assert (Hps : leaf_pages (mem s1) root (a + PGSIZE) (Z.of_nat n) =
                  leaf_pages (mem s) root (a + PGSIZE) (Z.of_nat n)) by (by apply leaf_pages_ext).
    destruct (IH (a + PGSIZE) s1 (p :: L)) as (s2 & E2 & Hrel & Hun2);
      [apply Hev|unfold PGSIZE in *; lia..| | | |].
    { intros j Hj. rewrite Hl1 by done.
      replace (a + PGSIZE + j * PGSIZE) with (a + (j + 1) * PGSIZE) by lia. apply Hmapped. lia. }
    { by rewrite Hps. }
    { intros q Hq. rewrite Hps in Hq. destruct (Hpg q) as (Hqv & HqL & Hqt).
      { apply elem_of_cons. by right. }
      split_and!; [done| |by rewrite Htb1]. apply not_elem_of_cons. split; [by intros ->|done]. }
    rewrite Hps in Hrel. exists s2. split_and!.
    + rewrite u64_small by (unfold PGSIZE in *; lia).
      replace (a + (Z.of_nat n + 1) * PGSIZE) with (a + PGSIZE + Z.of_nat n * PGSIZE) by lia. done.
    + destruct Hrel as [Hr1 Hr2 Hr3]. split.
      * by rewrite reverse_cons, <-app_assoc.
      * intros u. by rewrite Hr2, Htb1.
      * intros q Hq Hqt [Hqp Hqps]%not_elem_of_cons.
        apply mem_eq_on_trans with (mem s0).
        -- apply mem_eq_on_sub with (outside p); [done|]. intros b Hb Hpb. apply Hqp.
           apply (pages_disjoint q p b); [done|apply Hpv|done|done].
        -- apply mem_eq_on_trans with (mem s1); [|apply Hr3; [done|by rewrite Htb1|done]].
           apply Hfr; [done|by rewrite Htb0].
    + apply (unmapped_step (mem s) (mem s1)); [done|lia| |done].
      intros va Hva. by rewrite (Hun va Hva), Hlf0.
Qed.

Lemma uvmunmap_loop_free n root a s L :
  vm_inv s root L -> a mod PGSIZE = 0 -> 0 <= a -> a + Z.of_nat n * PGSIZE <= MAXVA ->
  (forall k, 0 <= k < Z.of_nat n -> unmappable (leaf (mem s) root (a + k * PGSIZE))) ->
  NoDup (leaf_pages (mem s) root a (Z.of_nat n)) ->
  (forall p, p ∈ leaf_pages (mem s) root a (Z.of_nat n) ->
     valid_page p /\ (p ∉ L) /\ ~ is_table (mem s) root p) ->
  exists s', uvmunmap_loop n root a (a + Z.of_nat n * PGSIZE) true s = Done tt s' /\
    released root s L (leaf_pages (mem s) root a (Z.of_nat n)) s' /\
    unmapped (mem s) (mem s') root a (Z.of_nat n).
Proof.
  intros Hinv Hal Ha0 Ha Hm Hnd Hpg.
  destruct (uvmunmap_loop_prefix n 0 root a (a + Z.of_nat n * PGSIZE) s L) as (s' & E & Hrest); [done..|].
  exists s'. split; [|done]. rewrite Nat.add_0_r in E. rewrite E. cbn [uvmunmap_loop].
  by destruct (Z.ltb_spec (a + Z.of_nat n * PGSIZE) (a + Z.of_nat n * PGSIZE)); [lia|].
Qed.

Lemma uvmunmap_free root va n s L :
  vm_inv s root L -> va mod PGSIZE = 0 -> 0 <= va -> 0 <= n -> va + n * PGSIZE <= MAXVA ->
  (forall k, 0 <= k < n -> unmappable (leaf (mem s) root (va + k * PGSIZE))) ->
  NoDup (leaf_pages (mem s) root va n) ->
  (forall p, p ∈ leaf_pages (mem s) root va n -> valid_page p /\ (p ∉ L) /\ ~ is_table (mem s) root p) ->
  exists s', uvmunmap root va n true s = Done tt s' /\
    released root s L (leaf_pages (mem s) root va n) s' /\ unmapped (mem s) (mem s') root va n.
Proof.
  intros Hinv Hal Hva Hn Hmax Hm Hnd Hpg. unfold uvmunmap. rewrite Hal. cbn [Z.eqb negb].
  assert (HM : MAXVA = 2 ^ 38) by done. rewrite u64_small by (unfold PGSIZE in *; lia).
  destruct (uvmunmap_loop_free (Z.to_nat n) root va s L) as (s' & E & Hev & Hu);
    rewrite ?Z2Nat.id by lia; [done..|]. rewrite Z2Nat.id in E, Hev, Hu by lia. by exists s'.
Qed.

(** ** Panics *)

(** [uvmunmap] stops at a page that is not mapped. *)
Lemma uvmunmap_loop_missing k root a last do_free s :
  pt_wf (mem s) root -> a < last -> a < MAXVA -> has_flag (leaf (mem s) root a) PTE_V = false ->
  exists msg, uvmunmap_loop (S k) root a last do_free s = Panic msg /\
    (msg = "uvmunmap: walk" \/ msg = "uvmunmap: not mapped").
Proof.
  intros Hwf Hlast Ha HV. cbn [uvmunmap_loop]. destruct (Z.ltb_spec a last); [|lia].
  mstep (walk_noalloc root a s Ha). unfold leaf in HV.
  destruct (table_at (mem s) root (va_path a)) as [t|] eqn:Et.
  - pose proof (table_entry_nonzero _ _ _ _ Hwf Et).
    destruct (Z.eqb_spec (t + 8 * PX 0 a) 0); [done|]. rewrite bind_read64, HV. eauto.
  - eexists. split; [reflexivity|]. by left.
Qed.

(** Unmapping with free a range that has a hole. *)
Lemma uvmunmap_hole n npages root va s L :
  vm_inv s root L -> va mod PGSIZE = 0 -> 0 <= va -> 0 <= n < npages ->
  va + npages * PGSIZE <= MAXVA ->
  (forall k, 0 <= k < n -> unmappable (leaf (mem s) root (va + k * PGSIZE))) ->
  NoDup (leaf_pages (mem s) root va n) ->
  (forall p, p ∈ leaf_pages (mem s) root va n -> valid_page p /\ (p ∉ L) /\ ~ is_table (mem s) root p) ->
  has_flag (leaf (mem s) root (va + n * PGSIZE)) PTE_V = false ->
  exists msg, uvmunmap root va npages true s = Panic msg.
Proof.
  intros Hi Hal Hva Hn Hmax Hm Hnd Hpg Hhole. unfold uvmunmap. rewrite Hal. cbn [Z.eqb negb].
  assert (HM : MAXVA = 2 ^ 38) by done. rewrite u64_small by (unfold PGSIZE in *; lia).
  destruct (uvmunmap_loop_prefix (Z.to_nat n) (S (Z.to_nat (npages - n - 1))) root va
              (va + npages * PGSIZE) s L) as (s' & E & Hrel & Hun);
    rewrite ?Z2Nat.id by lia; [done|done|done|unfold PGSIZE in *; lia|unfold PGSIZE in *; lia|done..|].
  rewrite Z2Nat.id in E, Hrel, Hun by lia.
  destruct (uvmunmap_loop_missing (Z.to_nat (npages - n - 1)) root (va + n * PGSIZE)
              (va + npages * PGSIZE) true s') as (msg & E' & _).
  - apply Hrel.
  - unfold PGSIZE. lia.
  - unfold PGSIZE in *. lia.
  - rewrite Hun by (unfold PGSIZE in *; lia). rewrite decide_False by (unfold PGSIZE in *; lia). done.
  - exists msg. rewrite <-E', <-E. f_equal. lia.
Qed.

(** [mappages] on a page that is mapped. *)
Lemma mappages_remap root va pa perm s L :
  vm_inv s root L -> va mod PGSIZE = 0 -> 0 <= va < MAXVA -> (2 <= length L)%nat ->
  has_flag (leaf (mem s) root va) PTE_V = true ->
  mappages root va PGSIZE pa perm s = Panic "mappages: remap".
Proof.
  intros Hi Hal Hva HL HV. unfold mappages. change (PGSIZE =? 0) with false. cbn [negb].
  assert (HM : MAXVA = 2 ^ 38) by done.
  rewrite PGROUNDDOWN_aligned by lia. cbn zeta.
  generalize (Z.to_nat ((if va <=? PGROUNDDOWN (u64 (va + PGSIZE - 1)) then PGROUNDDOWN (u64 (va + PGSIZE - 1)) - va
                         else MAXVA - va) / PGSIZE)).
  intros k. cbn [mappages_loop].
  destruct (walk_alloc root va s L Hi ltac:(lia)) as (r & s' & L' & E & Hev & _ & Hleaf & [[_ ?]|(t & Ht & ->)]); [lia|].
  mstep E. destruct (Z.eqb_spec (t + 8 * PX 0 va) 0) as [Ez|_].
  { by destruct (table_entry_nonzero _ _ _ _ (vm_wf _ _ _ (ve_inv _ _ _ _ _ Hev)) Ht). }
  rewrite bind_read64. specialize (Hleaf va). rewrite <-Hleaf in HV. unfold leaf in HV. rewrite Ht in HV.
  by rewrite HV.
Qed.
End VmSpec.
