(* ===== verification/VmCopy.v ===== *)
(** * Copies between kernel and user memory

    [copyout] stores and [copyin] loads byte by byte at the addresses the page
    table translates to, whatever the page boundaries in between.  A page is
    [owned] when it belongs to no page table of this process and is not free:
    the page-table operations never touch it, and a store to it never touches
    a page table or the free list. *)

From S2P Require Import Prelude Mem CString Riscv Kalloc Vm PageTable VmSpec.

Section VmCopy.
Context `{KernelImage}.

Record owned (root : Z) (s : kstate) (L : list Z) (p : Z) : Prop := {
  owned_valid : valid_page p;
  owned_notfree : p ∉ L;
  owned_nottable : ~ is_table (mem s) root p;
}.

Definition page_zero (m : memory) (p : Z) : Prop := forall a, in_page p a -> mget m a = 0.

Lemma owned_evolve root s L s' L' p :
  vm_evolve root s L s' L' -> owned root s L p ->
  owned root s' L' p /\ mem_eq_on (in_page p) (mem s) (mem s').
Proof.
  intros [Hi [used HL] Ht Hm Hf] [Hv Hn Hnt]. split.
  - split; [done| |].
    + intros Hp. apply Hn. rewrite HL. apply elem_of_app. by right.
    + by intros [?|?]%Ht.
  - apply Hf; [apply Hv|done|done].
Qed.

Lemma page_zero_evolve root s L s' L' p :
  vm_evolve root s L s' L' -> owned root s L p -> page_zero (mem s) p -> page_zero (mem s') p.
Proof.
  intros Hev Ho Hz a Ha. destruct (owned_evolve _ _ _ _ _ _ Hev Ho) as [_ Hf].
  by rewrite Hf, Hz.
Qed.

(** A page from the allocator, cleared: [kalloc] and [memset]. *)
Lemma alloc_zeroed root s r L :
  vm_inv s root (r :: L) ->
  exists s1, kalloc s = Done r s1 /\ r <> 0 /\
    let s' := set_mem (fun m => memset m r 0 (Z.to_nat PGSIZE)) s1 in
    vm_evolve root s (r :: L) s' L /\ owned root s' L r /\ page_zero (mem s') r /\
    (forall va, leaf (mem s') root va = leaf (mem s) root va).
Proof.
  intros [Hk Hwf Hnf]. destruct (kalloc_done _ _ _ Hk) as (s1 & E & Hk1 & H0 & Hr & Hv & Hf1).
  exists s1. split; [done|]. split; [done|]. cbn zeta.
  assert (Hf2 : mem_eq_on (outside r) (mem s1) (memset (mem s1) r 0 (Z.to_nat PGSIZE))).
  { apply memset_frame. unfold outside, in_page, PGSIZE. lia. }
  assert (Hz : page_zero (memset (mem s1) r 0 (Z.to_nat PGSIZE)) r).
  { intros a Ha. rewrite mget_memset, decide_True; [done|]. unfold in_page, PGSIZE in *. lia. }
  unfold set_mem. generalize dependent (memset (mem s1) r 0 (Z.to_nat PGSIZE)).
  intros m' Hf2 Hz. set (s' := KState m' (freelist s1)).
  assert (Hfs : mem_eq_on (outside r) (mem s) m') by (by apply mem_eq_on_trans with (mem s1)).
  assert (Hrt : ~ is_table (mem s) root r).
  { intros Ht. apply (Hnf r Ht). apply elem_of_cons. by left. }
  assert (Hpage : forall q, q mod PGSIZE = 0 -> q <> r -> mem_eq_on (in_page q) (mem s) m').
  { intros q Hq Hne. apply mem_eq_on_sub with (outside r); [done|]. intros a Ha Hra.
    apply Hne. apply (pages_disjoint q r a); [done|apply Hv|done|done]. }
  assert (Htab : forall t, is_table (mem s) root t -> mem_eq_on (in_page t) (mem s) m').
  { intros t Ht. apply Hpage; [apply (is_table_valid _ _ _ Hwf Ht)|]. by intros ->. }
  assert (Hiff : forall t, is_table m' root t <-> is_table (mem s) root t).
  { intros t. by apply is_table_frame. }
  split_and!.
  - split.
    + split; [|by apply pt_wf_frame with (mem s)|].
      * apply kinv_outside with s1 r; done || apply Hv.
      * intros t Ht%Hiff Hin. apply (Hnf t Ht). apply elem_of_cons. by right.
    + by exists [r].
    + intros t Ht%Hiff. by left.
    + intros t Ht. by apply Hiff.
    + intros q Hq _ Hn. apply Hpage; [done|]. intros ->. apply Hn, elem_of_cons. by left.
  - split; [done|done|]. by intros ?%Hiff.
  - done.
  - intros va. by apply leaf_frame.
Qed.

Lemma owned_pa root s L p : owned root s L p -> 0 <= p < 2 ^ 55 /\ p mod PGSIZE = 0.
Proof.
  intros [Hv _ _]. pose proof (valid_page_bounds p Hv). destruct Hv.
  unfold KERNBASE, PHYSTOP, KERNBASE, PGSIZE in *. lia.
Qed.

(** ** Stores to owned pages *)

(** A change of memory that leaves page tables and free pages alone. *)
Definition data_only (root : Z) (s : kstate) (L : list Z) (s' : kstate) : Prop :=
  freelist s' = freelist s /\
  forall q, q mod PGSIZE = 0 -> is_table (mem s) root q \/ q ∈ L ->
    mem_eq_on (in_page q) (mem s) (mem s').

Lemma data_only_table root s L s' :
  vm_inv s root L -> data_only root s L s' ->
  forall t, is_table (mem s) root t -> mem_eq_on (in_page t) (mem s) (mem s').
Proof.
  intros Hi [_ Hd] t Ht. apply Hd; [|by left].
  apply (is_table_valid _ _ _ (vm_wf _ _ _ Hi) Ht).
Qed.

Lemma data_only_leaf root s L s' va :
  vm_inv s root L -> data_only root s L s' -> leaf (mem s') root va = leaf (mem s) root va.
Proof. intros Hi Hd. apply leaf_frame. by apply (data_only_table _ _ L). Qed.

Lemma data_only_translate root s L s' va :
  vm_inv s root L -> data_only root s L s' -> translate (mem s') root va = translate (mem s) root va.
Proof. intros Hi Hd. unfold translate. by rewrite (data_only_leaf _ _ _ _ _ Hi Hd). Qed.

Lemma data_only_is_table root s L s' t :
  vm_inv s root L -> data_only root s L s' -> is_table (mem s') root t <-> is_table (mem s) root t.
Proof. intros Hi Hd. apply is_table_frame. by apply (data_only_table _ _ L). Qed.

Lemma data_only_inv root s L s' : vm_inv s root L -> data_only root s L s' -> vm_inv s' root L.
Proof.
  intros Hi Hd. pose proof Hi as [Hk Hwf Hnf]. split.
  - apply kinv_frame with s; [apply Hd| |done]. intros p Hp. apply Hd; [|by right].
    pose proof (kinv_valid _ _ Hk) as Hv. rewrite list.Forall_forall in Hv. apply (Hv p Hp).
  - apply pt_wf_frame with (mem s); [|done]. by apply (data_only_table _ _ L).
  - intros t Ht. apply Hnf. by apply (data_only_is_table _ _ _ _ _ Hi Hd).
Qed.

Lemma data_only_owned root s L s' p :
  vm_inv s root L -> data_only root s L s' -> owned root s L p -> owned root s' L p.
Proof.
  intros Hi Hd [Hv Hn Ht]. split; [done|done|].
  by intros ?%(data_only_is_table _ _ _ _ _ Hi Hd).
Qed.

Lemma data_only_refl root s L : data_only root s L s.
Proof. split; [done|]. intros. apply mem_eq_on_refl. Qed.

Lemma data_only_trans root s L s1 s2 :
  vm_inv s root L -> data_only root s L s1 -> data_only root s1 L s2 -> data_only root s L s2.
Proof.
  intros Hi Hd1 Hd2. split; [by rewrite (proj1 Hd2), (proj1 Hd1)|]. intros q Hq Hin.
  apply mem_eq_on_trans with (mem s1); [by apply Hd1|]. apply Hd2; [done|].
  by rewrite (data_only_is_table _ _ _ _ _ Hi Hd1).
Qed.

(** A store inside an owned page. *)
Lemma data_only_page root s L p m' :
  owned root s L p -> mem_eq_on (outside p) (mem s) m' -> data_only root s L (KState m' (freelist s)).
Proof.
  intros [Hv Hn Ht] Hf. split; [done|]. intros q Hq Hin. cbn.
  apply mem_eq_on_sub with (outside p); [done|]. intros a Ha Hpa.
  assert (p = q) as -> by (apply (pages_disjoint p q a); [apply Hv|done..]).
  by destruct Hin.
Qed.

(** ** Virtual addresses *)

(** The physical address of a user virtual address. *)
Definition uaddr (m : memory) (root va : Z) : Z := translate m root va + va mod PGSIZE.

(** The bytes [bs] stored one by one at virtual address [va] on. *)
Fixpoint user_write (tr : Z -> Z) (m : memory) (va : Z) (bs : list Z) : memory :=
  match bs with
  | [] => m
  | b :: bs => user_write tr (mset m (tr va) b) (va + 1) bs
  end.

Definition user_read (tr : Z -> Z) (m : memory) (va len : Z) : list Z :=
  (fun a => mget m (tr a)) <$> seqZ va len.

(** [va .. va+len) is mapped to owned pages. *)
Definition user_range (root : Z) (s : kstate) (L : list Z) (va len : Z) : Prop :=
  0 <= va /\ va + len <= MAXVA /\
  forall a, va <= a < va + len -> owned root s L (translate (mem s) root a).

Lemma translate_page m root va va' :
  va / PGSIZE = va' / PGSIZE -> translate m root va = translate m root va'.
Proof. intros E. unfold translate. by rewrite (leaf_page m root va va' E). Qed.

Lemma user_write_ext tr tr' m va bs :
  (forall a, va <= a < va + Z.of_nat (length bs) -> tr a = tr' a) ->
  user_write tr m va bs = user_write tr' m va bs.
Proof.
  revert m va. induction bs as [|b bs IH]; intros m va E; [done|]. cbn [user_write].
  rewrite (E va) by (cbn; lia). apply IH. intros a Ha. apply E. cbn. lia.
Qed.

Lemma user_write_app tr m va bs bs' :
  user_write tr m va (bs ++ bs') =
    user_write tr (user_write tr m va bs) (va + Z.of_nat (length bs)) bs'.
Proof.
  revert m va. induction bs as [|b bs IH]; intros m va; cbn [user_write app length].
  - by rewrite Z.add_0_r.
  - rewrite IH. by replace (va + 1 + Z.of_nat (length bs)) with (va + Z.of_nat (S (length bs))) by lia.
Qed.

(** Contiguous physical bytes. *)
Lemma user_write_contig tr m va bs pa :
  (forall i, 0 <= i < Z.of_nat (length bs) -> tr (va + i) = pa + i) ->
  user_write tr m va bs = write_bytes m pa bs.
Proof.
  revert m va pa. induction bs as [|b bs IH]; intros m va pa E; [done|].
  cbn [user_write write_bytes]. rewrite <-(Z.add_0_r va) at 1. rewrite (E 0) by (cbn; lia).
  rewrite Z.add_0_r. apply IH. intros i Hi.
  replace (va + 1 + i) with (va + (i + 1)) by lia. rewrite E by (cbn; lia). lia.
Qed.

Lemma user_read_contig tr m va n pa :
  (forall i, 0 <= i < Z.of_nat n -> tr (va + i) = pa + i) ->
  user_read tr m va (Z.of_nat n) = read_bytes m pa n.
Proof.
  revert va pa. induction n as [|n IH]; intros va pa E; [done|]. unfold user_read.
  rewrite seqZ_cons by lia. cbn [fmap list_fmap read_bytes].
  rewrite <-(Z.add_0_r va) at 1. rewrite (E 0) by lia. rewrite Z.add_0_r. f_equal.
  replace (Z.pred (Z.of_nat (S n))) with (Z.of_nat n) by lia. apply IH. intros i Hi.
  replace (Z.succ va + i) with (va + (i + 1)) by lia. rewrite E by lia. lia.
Qed.

Lemma user_read_app tr m va n n' :
  0 <= n -> 0 <= n' -> user_read tr m va (n + n') = user_read tr m va n ++ user_read tr m (va + n) n'.
Proof. intros. unfold user_read. by rewrite seqZ_app, fmap_app by done. Qed.

(** Every translated page of [va .. va+len) is owned. *)
Definition user_area (root : Z) (s : kstate) (L : list Z) (va len : Z) : Prop :=
  0 <= va /\ 0 <= len /\ va + len <= MAXVA /\
  forall a, va <= a < va + len -> translate (mem s) root a <> 0 ->
    owned root s L (translate (mem s) root a).

(** The part of a copy that fits in the first page. *)
Definition chunk (va len : Z) : Z :=
  if len <? PGSIZE - va mod PGSIZE then len else PGSIZE - va mod PGSIZE.

Lemma chunk_spec va len :
  0 < len -> 0 < chunk va len <= len /\ va mod PGSIZE + chunk va len <= PGSIZE /\
    (chunk va len = len \/ va + chunk va len = va / PGSIZE * PGSIZE + PGSIZE).
Proof. intros Hl. unfold chunk. destruct (Z.ltb_spec len (PGSIZE - va mod PGSIZE)); unfold PGSIZE in *; lia. Qed.

Lemma round_facts va :
  0 <= va < MAXVA ->
  PGROUNDDOWN va = va - va mod PGSIZE /\ 0 <= PGROUNDDOWN va < MAXVA /\
  PGROUNDDOWN va / PGSIZE = va / PGSIZE /\
  u64 (PGROUNDDOWN va + PGSIZE) = va / PGSIZE * PGSIZE + PGSIZE /\
  0 <= va / PGSIZE * PGSIZE + PGSIZE <= MAXVA.
Proof.
  change MAXVA with (2 ^ 38). intros Hva. rewrite PGROUNDDOWN_spec by lia.
  rewrite u64_small by (unfold PGSIZE; lia). unfold PGSIZE. lia.
Qed.

Lemma uaddr_chunk m root va len i :
  0 < len -> 0 <= i < chunk va len -> uaddr m root (va + i) = translate m root va + va mod PGSIZE + i.
Proof.
  intros Hl Hi. pose proof (chunk_spec va len Hl) as (_ & Hc & _). unfold uaddr.
  rewrite (translate_page m root (va + i) va) by (unfold PGSIZE in *; lia).
  unfold PGSIZE in *. lia.
Qed.

Lemma write_bytes_page p m off bs :
  0 <= off -> off + Z.of_nat (length bs) <= PGSIZE -> mem_eq_on (outside p) m (write_bytes m (p + off) bs).
Proof.
  intros Ho Hl a Ha. apply mget_write_bytes_out. unfold outside, in_page in Ha. lia.
Qed.

Lemma user_area_next root s s1 L va len n :
  vm_inv s root L -> data_only root s L s1 -> 0 <= n <= len ->
  user_area root s L va len -> user_area root s1 L (va + n) (len - n).
Proof.
  intros Hi Hd Hn (H1 & H2 & H3 & H4). split; [lia|]. split; [lia|]. split; [lia|].
  intros a Ha. rewrite (data_only_translate _ _ _ _ _ Hi Hd). intros Ht.
  apply data_only_owned with s; [done|done|]. apply H4; [lia|done].
Qed.

Definition copied (root va len : Z) (m : memory) (r j : Z) : Prop :=
  (forall a, va <= a < va + j -> translate m root a <> 0) /\
  ((r = 0 /\ j = len) \/ (r = -1 /\ 0 <= j < len /\ translate m root (va + j) = 0)).

Lemma copied_next root va len m m1 r j n :
  (forall a, translate m1 root a = translate m root a) -> 0 <= n <= len -> 0 <= j ->
  (forall a, va <= a < va + n -> translate m root a <> 0) ->
  copied root (va + n) (len - n) m1 r j -> copied root va len m r (n + j).
Proof.
  intros E Hn Hj Hf [H1 H2]. split.
  - intros a Ha. destruct (decide (a < va + n)); [apply Hf; lia|]. rewrite <-E. apply H1. lia.
  - destruct H2 as [[-> ->]|(-> & Hj' & H2)]; [left; lia|right]. split; [done|]. split; [lia|].
    rewrite <-E. rewrite <-H2. f_equal. lia.
Qed.

Lemma chunk_translated m root va len :
  0 < len -> translate m root va <> 0 ->
  forall a, va <= a < va + chunk va len -> translate m root a <> 0.
Proof.
  intros Hl Ht a Ha. pose proof (chunk_spec va len Hl) as (_ & Hc & _).
  rewrite (translate_page m root a va); [done|]. unfold PGSIZE in *. lia.
Qed.

(** One iteration of [copyout]. *)
Lemma copyout_loop_step fuel root va src s :
  src <> [] -> 0 <= va < MAXVA -> pt_wf (mem s) root ->
  let n := Z.to_nat (chunk va (Z.of_nat (length src))) in
  copyout_loop (S fuel) root va src s =
    if translate (mem s) root va =? 0 then Done (-1) s
    else copyout_loop fuel root (va / PGSIZE * PGSIZE + PGSIZE) (drop n src)
           (set_mem (fun m => write_bytes m (translate m root va + va mod PGSIZE) (take n src)) s).
Proof.
  intros Hs Hva Hwf. destruct (round_facts va Hva) as (R1 & R2 & R3 & R4 & R5).
  destruct src as [|b src]; [done|]. cbn [copyout_loop].
  mstep (walkaddr_done root (PGROUNDDOWN va) s Hwf ltac:(lia)).
  rewrite (translate_page _ _ _ va R3), R4.
  replace (va - PGROUNDDOWN va) with (va mod PGSIZE) by lia.
  by destruct (Z.eqb_spec (translate (mem s) root va) 0).
Qed.

Lemma user_write_nil_app tr m va va' bs bs' n :
  (length bs = Z.to_nat n)%nat -> 0 <= n -> (bs' = [] \/ va' = va + n) ->
  user_write tr (user_write tr m va bs) va' bs' = user_write tr m va (bs ++ bs').
Proof.
  intros Hl Hn [-> | ->]; [by rewrite app_nil_r|]. rewrite user_write_app, Hl. by rewrite Z2Nat.id.
Qed.

Lemma copyout_chunk root va src s L :
  src <> [] -> vm_inv s root L -> user_area root s L va (Z.of_nat (length src)) ->
  translate (mem s) root va <> 0 ->
  let n := Z.to_nat (chunk va (Z.of_nat (length src))) in
  let s1 := set_mem (fun m => write_bytes m (translate m root va + va mod PGSIZE) (take n src)) s in
  data_only root s L s1 /\ mem s1 = user_write (uaddr (mem s) root) (mem s) va (take n src).
Proof.
  intros Hs Hi (Ha0 & Ha1 & Ha2 & Ha3) Ht n s1.
  assert (Hl : 0 < Z.of_nat (length src)) by (destruct src; [done|cbn; lia]).
  pose proof (chunk_spec va _ Hl) as (Hc1 & Hc2 & _).
  assert (Hlen : length (take n src) = n) by (rewrite length_take; lia).
  split.
  - apply (data_only_page root s L (translate (mem s) root va)); [apply Ha3; [lia|done]|].
    apply write_bytes_page; [unfold PGSIZE; lia|]. rewrite Hlen. lia.
  - symmetry. apply user_write_contig. rewrite Hlen. intros i Hii.
    apply uaddr_chunk with (Z.of_nat (length src)); lia.
Qed.

Lemma user_area_tail root s s1 L va len n :
  vm_inv s root L -> data_only root s L s1 -> user_area root s L va len -> 0 < len -> n = chunk va len ->
  user_area root s1 L (va / PGSIZE * PGSIZE + PGSIZE) (len - n) /\
  (len - n = 0 \/ va / PGSIZE * PGSIZE + PGSIZE = va + n).
Proof.
  intros Hi Hd Ha Hl ->. pose proof (chunk_spec va len Hl) as (Hc1 & Hc2 & Hc3).
  split; [|lia]. destruct (decide (len - chunk va len = 0)) as [E|E].
  - rewrite E. destruct (round_facts va) as (_ & _ & _ & _ & R5); [destruct Ha; lia|].
    split; [lia|]. split; [lia|]. split; [lia|]. intros a ?. lia.
  - replace (va / PGSIZE * PGSIZE + PGSIZE) with (va + chunk va len) by lia.
    apply user_area_next with s; done || lia.
Qed.

Lemma copyout_loop_done fuel root va src s L :
  vm_inv s root L -> (length src <= fuel)%nat ->
  user_area root s L va (Z.of_nat (length src)) ->
  exists r s' j, copyout_loop fuel root va src s = Done r s' /\ 0 <= j /\
    mem s' = user_write (uaddr (mem s) root) (mem s) va (take (Z.to_nat j) src) /\
    data_only root s L s' /\ copied root va (Z.of_nat (length src)) (mem s) r j.
Proof.
  revert va src s. induction fuel as [|fuel IH]; intros va src s Hi Hf Ha;
    (destruct (decide (src = [])) as [->|Hne];
     [exists 0, s, 0; split_and!; [done..|apply data_only_refl|split; [lia|by left]]|]).
  { destruct src; [done|cbn in Hf; lia]. }
  assert (Hl : 0 < Z.of_nat (length src)) by (destruct src; [done|cbn; lia]).
  rewrite copyout_loop_step; [|done|destruct Ha; lia|apply Hi].
  destruct (Z.eqb_spec (translate (mem s) root va) 0) as [Ht|Ht].
  { exists (-1), s, 0. split_and!; [done|done|done|apply data_only_refl|].
    split; [lia|]. right. rewrite Z.add_0_r. split; [done|]. split; [lia|done]. }
  destruct (copyout_chunk root va src s L Hne Hi Ha Ht) as [Hd Hm].
  pose proof (chunk_spec va _ Hl) as (Hc1 & Hc2 & _).
  set (len := Z.of_nat (length src)) in *. set (n := chunk va len) in *.
  set (s1 := set_mem _ s) in *.
  destruct (user_area_tail root s s1 L va len n Hi Hd Ha Hl eq_refl) as [Ha1 Hva].
  destruct (IH (va / PGSIZE * PGSIZE + PGSIZE) (drop (Z.to_nat n) src) s1)
    as (r & s' & j & E & Hj & Hm' & Hd' & Hc).
  - by apply (data_only_inv root s).
  - rewrite length_drop. lia.
  - rewrite length_drop. replace (Z.of_nat (length src - Z.to_nat n)) with (len - n) by lia. done.
  - exists r, s', (n + j). rewrite length_drop in Hc.
    replace (Z.of_nat (length src - Z.to_nat n)) with (len - n) in Hc by lia. split_and!.
    + done.
    + lia.
    + rewrite Hm', (user_write_ext _ (uaddr (mem s) root)).
      2:{ intros a _. unfold uaddr. by rewrite (data_only_translate _ _ _ _ _ Hi Hd). }
      rewrite Hm, (user_write_nil_app _ _ va _ _ _ n);
        [|rewrite length_take; lia|lia|].
      * rewrite Z2Nat.inj_add by lia. by rewrite take_take_drop.
      * destruct Hva as [Hva|Hva]; [left|by right]. by rewrite drop_ge, take_nil by lia.
    + by apply (data_only_trans root s L s1 s').
    + apply (copied_next root va len (mem s) (mem s1)); [|lia|done| |].
      * intros a. by apply (data_only_translate root s L s1).
      * by apply chunk_translated.
      * destruct Hva as [Hva| <-]; [|done]. rewrite Hva in Hc |- *.
        destruct Hc as [_ [[-> ->]|(_ & ? & _)]]; [|lia]. split; [lia|by left].
Qed.

(** [copyout] on a range whose translated pages are owned: the longest
    translated prefix is stored, and the result says whether that was all. *)
Lemma copyout_spec root va src s L :
  vm_inv s root L -> user_area root s L va (Z.of_nat (length src)) ->
  exists r s' j, copyout root va src s = Done r s' /\ 0 <= j /\
    mem s' = user_write (uaddr (mem s) root) (mem s) va (take (Z.to_nat j) src) /\
    data_only root s L s' /\ copied root va (Z.of_nat (length src)) (mem s) r j.
Proof. intros Hi Ha. by apply copyout_loop_done. Qed.

(** ** copyin *)

Lemma copyin_loop_step fuel root va len dst s :
  0 < len -> 0 <= va < MAXVA -> pt_wf (mem s) root ->
  copyin_loop (S fuel) root va len dst s =
    if translate (mem s) root va =? 0 then Done (-1, dst) s
    else copyin_loop fuel root (va / PGSIZE * PGSIZE + PGSIZE) (len - chunk va len)
           (dst ++ read_bytes (mem s) (translate (mem s) root va + va mod PGSIZE)
                     (Z.to_nat (chunk va len))) s.
Proof.
  intros Hl Hva Hwf. destruct (round_facts va Hva) as (R1 & R2 & R3 & R4 & R5).
  cbn [copyin_loop]. destruct (Z.ltb_spec 0 len); [|lia].
  mstep (walkaddr_done root (PGROUNDDOWN va) s Hwf ltac:(lia)).
  rewrite (translate_page _ _ _ va R3), R4.
  replace (va - PGROUNDDOWN va) with (va mod PGSIZE) by lia.
  by destruct (Z.eqb_spec (translate (mem s) root va) 0).
Qed.

Lemma copyin_loop_done fuel root va len dst s :
  pt_wf (mem s) root -> 0 <= len <= Z.of_nat fuel -> 0 <= va -> va + len <= MAXVA ->
  exists r j, copyin_loop fuel root va len dst s =
      Done (r, dst ++ user_read (uaddr (mem s) root) (mem s) va j) s /\ 0 <= j /\
    copied root va len (mem s) r j.
Proof.
  intros Hwf. revert va len dst. induction fuel as [|fuel IH]; intros va len dst Hf Hva Hm;
    (destruct (decide (len = 0)) as [->|Hne];
     [exists 0, 0; split_and!; [by cbn; rewrite app_nil_r|done|split; [lia|by left]]|]).
  { lia. }
  assert (Hl : 0 < len) by lia. rewrite copyin_loop_step by (done || lia).
  destruct (Z.eqb_spec (translate (mem s) root va) 0) as [Ht|Ht].
  { exists (-1), 0. split_and!; [by cbn; rewrite app_nil_r|done|]. split; [lia|]. right.
    rewrite Z.add_0_r. split; [done|]. split; [lia|done]. }
  pose proof (chunk_spec va len Hl) as (Hc1 & Hc2 & Hc3). set (n := chunk va len) in *.
  rewrite <-(user_read_contig (uaddr (mem s) root) (mem s) va).
  2:{ intros i Hi. apply uaddr_chunk with len; [done|]. fold n. lia. }
  rewrite Z2Nat.id by lia.
  assert (Hnext : va / PGSIZE * PGSIZE + PGSIZE <= MAXVA).
  { apply round_facts. lia. }
  destruct (IH (va / PGSIZE * PGSIZE + PGSIZE) (len - n)
              (dst ++ user_read (uaddr (mem s) root) (mem s) va n)) as (r & j & E & Hj & Hc).
  - lia.
  - unfold PGSIZE. lia.
  - lia.
  - exists r, (n + j). split_and!; [|lia|].
    + rewrite E, <-app_assoc. do 2 f_equal. f_equal. destruct Hc3 as [Hc3| <-].
      * assert (j = 0) as -> by (destruct Hc as [_ [[_ ->]|(_ & ? & _)]]; lia).
        cbn. by rewrite app_nil_r, Z.add_0_r.
      * by rewrite user_read_app by lia.
    + apply (copied_next root va len (mem s) (mem s)); [done|lia|done|by apply chunk_translated|].
      destruct Hc3 as [Hc3| ->]; [|done]. replace (len - n) with 0 in * by lia.
      destruct Hc as [_ [[-> ->]|(_ & ? & _)]]; [|lia]. split; [lia|by left].
Qed.

(** [copyin] loads the longest translated prefix of the range. *)
Lemma copyin_spec root va len s :
  pt_wf (mem s) root -> 0 <= len -> 0 <= va -> va + len <= MAXVA ->
  exists r j, copyin root va len s = Done (r, user_read (uaddr (mem s) root) (mem s) va j) s /\
    0 <= j /\ copied root va len (mem s) r j.
Proof.
  intros Hwf Hl Hva Hm.
  destruct (copyin_loop_done (Z.to_nat len) root va len [] s Hwf) as (r & j & E & Hj); [lia..|].
  by exists r, j.
Qed.

(** ** Reading back what was written *)

(** No two addresses of the range share a byte. *)
Definition tr_inj (tr : Z -> Z) (va len : Z) : Prop :=
  forall a b, va <= a < va + len -> va <= b < va + len -> tr a = tr b -> a = b.

Lemma user_write_out tr m va bs x :
  (forall a, va <= a < va + Z.of_nat (length bs) -> tr a <> x) ->
  mget (user_write tr m va bs) x = mget m x.
Proof.
  revert m va. induction bs as [|b bs IH]; intros m va Ho; [done|]. cbn [user_write].
  rewrite IH.
  - apply mget_mset_ne. apply Ho. cbn. lia.
  - intros a Ha. apply Ho. cbn. lia.
Qed.

Lemma read_user_write tr m va bs :
  tr_inj tr va (Z.of_nat (length bs)) -> Forall (fun b => 0 <= b < 256) bs ->
  user_read tr (user_write tr m va bs) va (Z.of_nat (length bs)) = bs.
Proof.
  revert m va. induction bs as [|b bs IH]; intros m va Hinj HF; [done|].
  apply list.Forall_cons in HF as [Hb HF]. cbn [user_write length]. unfold user_read.
  rewrite seqZ_cons by lia. cbn [fmap list_fmap]. f_equal.
  - rewrite user_write_out.
    + rewrite mget_mset_eq. by apply u8_small.
    + intros a Ha E. assert (a = va) by (apply Hinj; cbn; lia || done). lia.
  - replace (Z.pred (Z.of_nat (S (length bs)))) with (Z.of_nat (length bs)) by lia.
    apply IH; [|done]. intros x y Hx Hy. apply Hinj; cbn; lia.
Qed.

(** ** A word stored inside one page *)

Definition bytes_le (n : nat) (v : Z) : list Z := (fun i => v / 256 ^ i mod 256) <$> seqZ 0 (Z.of_nat n).

Lemma bytes_le_S n v : bytes_le (S n) v = v mod 256 :: bytes_le n (v / 256).
Proof.
  unfold bytes_le. rewrite seqZ_cons by lia. cbn [fmap list_fmap].
  f_equal; [by rewrite Z.div_1_r|].
  replace (Z.pred (Z.of_nat (S n))) with (Z.of_nat n) by lia.
  change (Z.succ 0) with (1 + 0). rewrite <-fmap_add_seqZ, <-list_fmap_compose.
  apply list_fmap_ext. intros i x Hx%lookup_seqZ. cbn.
  rewrite Z.pow_add_r, Z.div_div by lia. done.
Qed.

Lemma load_write_bytes_le m a n v : load_le (write_bytes m a (bytes_le n v)) a n = v mod 256 ^ Z.of_nat n.
Proof.
  revert m a v. induction n as [|n IH]; intros m a v; [by rewrite Z.mod_1_r|].
  rewrite bytes_le_S. cbn [write_bytes load_le]. rewrite IH.
  rewrite mget_write_bytes_out by lia. rewrite mget_mset_eq.
  unfold u8. change (2 ^ 8) with 256. rewrite Z.mod_mod by lia.
  replace (Z.of_nat (S n)) with (Z.of_nat n + 1) by lia.
  rewrite Z.pow_add_r by lia. change (256 ^ 1) with 256. rewrite (Z.mul_comm (256 ^ _) 256).
  rewrite Z.rem_mul_r by lia. lia.
Qed.
End VmCopy.
