(* ===== verification/RingbufK.v ===== *)
(** * The ring-buffer system call, [kernel/ringbuf.c]

    A named ring buffer is sixteen physical pages, mapped twice in a row into
    every process that opens it (so that a window that runs off the end of the
    first copy continues in the second), and a "book" page below them that
    holds the read and write counters.  The state is physical memory with its
    free list, and the table [ringbufs]; the caller's page table is an argument.
    The whole system call runs under [ringbuf_lock].  Console output
    ([printf] under [KLOG]) is not modelled. *)

From S2P Require Import Prelude Mem CString Riscv Kalloc Vm.

Definition MAX_RINGBUFS : Z := 10.
Definition RINGBUF_SIZE : Z := 16.
Definition RINGBUF_NAME_LEN : Z := 16.

Record ringbuf_t := Ringbuf {
  refcount : Z;
  rname : list Z;
  rbuf : list Z;
  book : Z;
}.

Record rstate := RState { km : kstate; ringbufs : list ringbuf_t }.

Definition set_refcount (n : Z) (rb : ringbuf_t) : ringbuf_t :=
  Ringbuf n (rname rb) (rbuf rb) (book rb).
Definition set_rname (n : list Z) (rb : ringbuf_t) : ringbuf_t :=
  Ringbuf (refcount rb) n (rbuf rb) (book rb).
Definition set_rbuf (i : Z) (pa : Z) (rb : ringbuf_t) : ringbuf_t :=
  Ringbuf (refcount rb) (rname rb) (<[Z.to_nat i := pa]> (rbuf rb)) (book rb).
Definition set_book (pa : Z) (rb : ringbuf_t) : ringbuf_t :=
  Ringbuf (refcount rb) (rname rb) (rbuf rb) pa.

(** [rb->buf[i]] *)
Definition buf_at (rb : ringbuf_t) (i : Z) : Z := nth (Z.to_nat i) (rbuf rb) 0.

(** A virtual-memory operation inside the system call. *)
Definition vm {A} (m : M kstate A) : M rstate A :=
  lift km (fun k r => RState k (ringbufs r)) m.

Definition put_rb (i : nat) (rb : ringbuf_t) : M rstate unit :=
  modify (fun r => RState (km r) (<[i := rb]> (ringbufs r))).

(** PTE_R | PTE_W | PTE_X | PTE_U *)
Definition PTE_RWXU : Z := Z.lor (Z.lor (Z.lor PTE_R PTE_W) PTE_X) PTE_U.

Section RingbufK.
Context `{KernelImage}.

(** The loop of [find_contiguous_pages] on (va, *base_va, count); it ends
    with the return value and the final [*base_va]. *)
Definition find_step (pagetable num_contiguous_pages : Z) (v : Z * Z * Z)
  : M kstate ((Z * Z * Z) + (Z * Z)) :=
  let '(va, base_va, count) := v in
  if KERNBASE <? va then
    pa ← walkaddr pagetable va;
    if pa =? 0 then
      let count := count + 1 in
      if count =? num_contiguous_pages then mret (inr (0, base_va))
      else mret (inl (u64 (va - PGSIZE), base_va, count))
    else mret (inl (u64 (va - PGSIZE), va, 0))
  else mret (inr (-1, base_va)).

Definition find_base : Z := PGROUNDUP (MAXVA - PGSIZE - PGSIZE - PGSIZE).

Definition find_contiguous_pages (pagetable num_contiguous_pages : Z) : M kstate (Z * Z) :=
  whileM (find_step pagetable num_contiguous_pages) 26 (find_base, find_base, 0).

Definition mappage_to_book (pagetable : Z) (rb : ringbuf_t) (va : Z) : M kstate (Z * ringbuf_t) :=
  if refcount rb =? 0 then
    mem_ ← kalloc;
    if mem_ =? 0 then uvmdealloc pagetable va PGSIZE;; mret (-1, rb)
    else
      memset_page mem_ 0;;
      r ← mappages pagetable va PGSIZE mem_ PTE_RWXU;
      if negb (r =? 0) then
        kfree mem_;; uvmdealloc pagetable va PGSIZE;; mret (-1, rb)
      else mret (0, set_book mem_ rb)
  else
    r ← mappages pagetable va PGSIZE (book rb) PTE_RWXU;
    if negb (r =? 0) then
      kfree (book rb);; uvmdealloc pagetable va PGSIZE;; mret (-1, rb)
    else mret (0, rb).

(** The loops of [mappages_to_proc] from page [i] on, [n] pages left: the
    first process allocates the sixteen pages, later ones map them again. *)
Fixpoint map_new (n : nat) (pagetable : Z) (rb : ringbuf_t) (base_va i : Z)
  : M kstate (Z * ringbuf_t) :=
  match n with
  | O => mret (0, rb)
  | S n =>
      let va := u64 (base_va - i * PGSIZE) in
      (* map page [i] to [pa] and go on *)
      let map_one pa rb :=
        r ← mappages pagetable va PGSIZE pa PTE_RWXU;
        if negb (r =? 0) then
          kfree pa;; uvmdealloc pagetable va PGSIZE;; mret (-1, rb)
        else map_new n pagetable rb base_va (i + 1) in
      if i <? RINGBUF_SIZE then
        mem_ ← kalloc;
        if mem_ =? 0 then uvmdealloc pagetable va PGSIZE;; mret (-1, rb)
        else memset_page mem_ 0;; map_one mem_ (set_rbuf i mem_ rb)
      else map_one (buf_at rb (i mod RINGBUF_SIZE)) rb
  end.

Fixpoint map_again (n : nat) (pagetable : Z) (rb : ringbuf_t) (base_va i : Z)
  : M kstate (Z * ringbuf_t) :=
  match n with
  | O => mret (0, rb)
  | S n =>
      let va := u64 (base_va - i * PGSIZE) in
      let pa := buf_at rb (i mod RINGBUF_SIZE) in
      r ← mappages pagetable va PGSIZE pa PTE_RWXU;
      if negb (r =? 0) then
        kfree pa;; uvmdealloc pagetable va PGSIZE;; mret (-1, rb)
      else map_again n pagetable rb base_va (i + 1)
  end.

Definition mappages_to_proc (pagetable : Z) (rb : ringbuf_t) (base_va num_pages : Z)
  : M kstate (Z * ringbuf_t) :=
  if refcount rb <? 0 then mret (-1, rb)
  else if refcount rb =? 0 then map_new (Z.to_nat num_pages) pagetable rb base_va 0
  else map_again (Z.to_nat num_pages) pagetable rb base_va 0.

Definition validate_pages (pagetable va : Z) : M kstate Z :=
  pa ← walkaddr pagetable va;
  if pa =? 0 then mret (-1) else mret 0.

(** The eight bytes of a [uint64]. *)
Definition bytes64 (v : Z) : list Z := (fun i => v / 256 ^ i mod 256) <$> seqZ 0 8.

Definition copyout_user_addr (pagetable base_va user_addr : Z) : M kstate Z :=
  r ← copyout pagetable user_addr (bytes64 base_va);
  if r <? 0 then mret (-1) else mret 0.

Definition name_is (rb : ringbuf_t) (name : reader) : bool :=
  strncmp (arr (rname rb)) name (Z.to_nat RINGBUF_NAME_LEN) =? 0.

(** The number of entries whose name is not the empty string. *)
Definition get_ringbuf_index (rbs : list ringbuf_t) : Z :=
  Z.of_nat (length (filter (fun rb => name_is rb (arr []) = false) rbs)).

(** The search loop: the first entry with this name. *)
Fixpoint find_ringbuf (rbs : list ringbuf_t) (name : reader) : option nat :=
  match rbs with
  | [] => None
  | rb :: rbs => if name_is rb name then Some O else S <$> find_ringbuf rbs name
  end.

Definition get_ringbuf_by_name (rbs : list ringbuf_t) (name : reader) : Z :=
  match find_ringbuf rbs name with Some _ => 0 | None => -1 end.

(** [junk] is the uninitialised local variable [new_ringbuf]. *)
Definition create_ringbuf (junk : ringbuf_t) (pagetable : Z) (name : reader) (addr : Z) : M rstate Z :=
  let num_contiguous_pages := 1 + 2 * RINGBUF_SIZE + 1 in
  let rb := set_rname (strncpy name (Z.to_nat RINGBUF_NAME_LEN)) (set_refcount 0 junk) in
  f ← vm (find_contiguous_pages pagetable num_contiguous_pages);
  if negb (f.1 =? 0) then mret (-1)
  else
    let base_va := u64 (f.2 - PGSIZE) in
    m ← vm (mappages_to_proc pagetable rb base_va (2 * RINGBUF_SIZE));
    if negb (m.1 =? 0) then mret (-1)
    else
      v ← vm (validate_pages pagetable base_va);
      if negb (v =? 0) then mret (-1)
      else
        let book_va := u64 (base_va - 2 * RINGBUF_SIZE * PGSIZE) in
        b ← vm (mappage_to_book pagetable m.2 book_va);
        if negb (b.1 =? 0) then mret (-1)
        else
          v ← vm (validate_pages pagetable book_va);
          if negb (v =? 0) then mret (-1)
          else
            c ← vm (copyout_user_addr pagetable base_va addr);
            if negb (c =? 0) then mret (-1)
            else
              ringbuf_index ← gets (fun r => get_ringbuf_index (ringbufs r));
              put_rb (Z.to_nat ringbuf_index) (set_refcount (refcount b.2 + 1) b.2);;
              mret 0.

Definition append_ringbuf (pagetable : Z) (name : reader) (addr : Z) : M rstate Z :=
  let num_contiguous_pages := 1 + 2 * RINGBUF_SIZE + 1 in
  found ← gets (fun r => find_ringbuf (ringbufs r) name);
  match found with
  | None => mret (-1)
  | Some i =>
      rb0 ← gets (fun r => ringbufs r !! i);
      let rb := default (Ringbuf 0 [] [] 0) rb0 in
      f ← vm (find_contiguous_pages pagetable num_contiguous_pages);
      if negb (f.1 =? 0) then mret (-1)
      else
        let base_va := u64 (f.2 - PGSIZE) in
        let base_va := u64 (base_va - PGSIZE) in
        m ← vm (mappages_to_proc pagetable rb base_va (2 * RINGBUF_SIZE));
        put_rb i m.2;;
        if negb (m.1 =? 0) then mret (-1)
        else
          let book_va := u64 (base_va - 2 * RINGBUF_SIZE * PGSIZE) in
          b ← vm (mappage_to_book pagetable m.2 book_va);
          put_rb i b.2;;
          if negb (b.1 =? 0) then mret (-1)
          else
            c ← vm (copyout_user_addr pagetable base_va addr);
            if negb (c =? 0) then mret (-1)
            else
              put_rb i (set_refcount (s32 (refcount b.2 + 1)) b.2);;
              mret 0
  end.

Definition unmap_ringbuf_pmem (rb : ringbuf_t) : M kstate ringbuf_t :=
  let rb := set_rname (strncpy (arr []) (Z.to_nat RINGBUF_NAME_LEN)) rb in
  kfree (book rb);;
  forM_ (seqZ 0 RINGBUF_SIZE) (fun i => kfree (buf_at rb i));;
  mret rb.

(** [*((uint64 * )usr_buf_pa)]: when [addr] is not mapped, the load is from a
    physical address below 4096, which the kernel page table does not map: the
    fault ends in [kerneltrap]'s panic. *)
Definition unmap_ringbuf (pagetable : Z) (name : reader) (addr : Z) : M rstate Z :=
  found ← gets (fun r => find_ringbuf (ringbufs r) name);
  match found with
  | None => mret (-1)
  | Some i =>
      rb0 ← gets (fun r => ringbufs r !! i);
      let rb := default (Ringbuf 0 [] [] 0) rb0 in
      let rb := set_refcount (s32 (refcount rb - 1)) rb in
      put_rb i rb;;
      pa ← vm (walkaddr pagetable addr);
      if pa =? 0 then panic "kerneltrap"
      else
        usr_buf_va ← vm (read64 (pa + addr mod 4096));
        v ← vm (validate_pages pagetable usr_buf_va);
        if negb (v =? 0) then mret (-1)
        else
          let usr_buf_va := u64 (usr_buf_va - (2 * RINGBUF_SIZE - 1) * PGSIZE) in
          vm (uvmunmap pagetable usr_buf_va (2 * RINGBUF_SIZE) false);;
          vm (uvmunmap pagetable (u64 (usr_buf_va - PGSIZE)) 1 false);;
          if refcount rb =? 0 then
            rb' ← vm (unmap_ringbuf_pmem rb);
            put_rb i rb';;
            mret 0
          else mret 0
  end.

(** [strlen(name) > RINGBUF_NAME_LEN]: no NUL among the first 17 characters. *)
Definition name_too_long (name : reader) : bool :=
  match strlen name (S (Z.to_nat RINGBUF_NAME_LEN)) with
  | Some name_len => RINGBUF_NAME_LEN <? name_len
  | None => true
  end.

Definition ringbuf (junk : ringbuf_t) (pagetable : Z) (name : reader) (open : bool) (addr : Z)
  : M rstate Z :=
  ringbuf_count ← gets (fun r => get_ringbuf_index (ringbufs r));
  if MAX_RINGBUFS <=? ringbuf_count then mret (-1)
  else if name_too_long name then mret (-1)
  else
    found ← gets (fun r => find_ringbuf (ringbufs r) name);
    if open then
      match found with
      | None => r ← create_ringbuf junk pagetable name addr; if negb (r =? 0) then mret (-1) else mret 0
      | Some _ => r ← append_ringbuf pagetable name addr; if negb (r =? 0) then mret (-1) else mret 0
      end
    else r ← unmap_ringbuf pagetable name addr; if negb (r =? 0) then mret (-1) else mret 0.

(** [sys_ringbuf] of [kernel/sysproc.c]: the name is copied from user memory
    into a 16-byte array; [stack] is what was in the array and follows it, and
    the result of [argstr] is not looked at. *)
Definition sys_ringbuf (junk : ringbuf_t) (stack : reader) (pagetable a0 a1 a2 : Z) : M rstate Z :=
  r ← vm (copyinstr pagetable a0 16);
  let name := fun i => if i <? Z.of_nat (length r.2) then arr r.2 i else stack i in
  let open := negb (s32 a1 =? 0) in
  ringbuf junk pagetable name open a2.
End RingbufK.
