(* ===== verification/RingbufFind.v ===== *)
(** * The search for free address space, [find_contiguous_pages]

    The search walks down from [find_base], counting untranslated pages and
    starting over below every translated one.  It ends, leaves the state alone,
    finds a run when there is one, and says where the run is. *)

From S2P Require Import Prelude Mem CString Riscv Kalloc Vm PageTable VmSpec RingbufK.

Section Find.
Context `{KernelImage}.

(** [n] untranslated pages from [lo] up. *)
Definition free_run (m : memory) (root lo n : Z) : Prop :=
  forall k, 0 <= k < n -> translate m root (lo + k * PGSIZE) = 0.

(** Where the search looks for the lowest page of a run of [n]. *)
Definition run_place (n lo : Z) : Prop :=
  lo mod PGSIZE = 0 /\ KERNBASE < lo /\ lo + (n - 1) * PGSIZE <= find_base.

(** The address returned for the run of [n] pages from [lo] up: its top page
    when the run starts where the search starts, and otherwise the translated
    page just above the run. *)
Definition run_top (m : memory) (root n lo base_va : Z) : Prop :=
  (base_va = find_base /\ lo + (n - 1) * PGSIZE = find_base) \/
  (base_va = lo + n * PGSIZE /\ base_va <= find_base /\ translate m root base_va <> 0).

Record find_inv (m : memory) (root n : Z) (v : Z * Z * Z) : Prop := {
  fi_aligned : v.1.1 mod PGSIZE = 0;
  fi_range : KERNBASE <= v.1.1 <= find_base;
  fi_count : 0 <= v.2 < n;
  fi_run : free_run m root (v.1.1 + PGSIZE) v.2;
  fi_top : run_top m root v.2 (v.1.1 + PGSIZE) v.1.2;
  fi_none : forall lo, run_place n lo -> v.1.1 < lo -> ~ free_run m root lo n;
}.

Lemma find_base_eq : find_base = MAXVA - 3 * PGSIZE.
Proof. reflexivity. Qed.

Lemma find_base_range : KERNBASE < find_base < 2 ^ 38 /\ find_base mod PGSIZE = 0.
Proof. done. Qed.

(** [b] is the address returned for the topmost run of [n] pages. *)
Definition found_run (m : memory) (root n b : Z) : Prop :=
  exists lo, run_place n lo /\ free_run m root lo n /\ run_top m root n lo b /\
    forall lo', run_place n lo' -> lo < lo' -> ~ free_run m root lo' n.

Definition find_result (m : memory) (root n : Z) (r : Z * Z) : Prop :=
  (r.1 = 0 /\ found_run m root n r.2) \/
  (r.1 = -1 /\ forall lo, run_place n lo -> ~ free_run m root lo n).

Lemma free_run_snoc m root va n :
  0 <= n -> translate m root va = 0 -> free_run m root (va + PGSIZE) n -> free_run m root va (n + 1).
Proof.
  intros Hn H0 Hr k Hk. destruct (decide (k = 0)) as [->|].
  - by rewrite Z.mul_0_l, Z.add_0_r.
  - replace (va + k * PGSIZE) with (va + PGSIZE + (k - 1) * PGSIZE) by lia. apply Hr. lia.
Qed.

Lemma find_step_done root n v s :
  pt_wf (mem s) root -> find_inv (mem s) root n v -> 0 < n ->
  exists r, find_step root n v s = Done r s /\
    match r with
    | inl v' => find_inv (mem s) root n v' /\ v'.1.1 = v.1.1 - PGSIZE /\ KERNBASE < v.1.1
    | inr r => find_result (mem s) root n r
    end.
Proof.
  destruct v as [[va base] count]. intros Hwf [Ha Hr Hc Hrun Htop Hnone] Hn. cbn [fst snd] in *.
  pose proof find_base_range as [Hb Hba]. unfold find_step.
  destruct (Z.ltb_spec KERNBASE va) as [Hlt|Hge].
  2:{ eexists. split; [reflexivity|]. right. split; [done|]. intros lo Hlo. apply Hnone; [done|].
      destruct Hlo as (_ & Hk & _). lia. }
  mstep (walkaddr_done root va s Hwf ltac:(change MAXVA with (2 ^ 38); lia)).
  assert (Hu : u64 (va - PGSIZE) = va - PGSIZE).
  { apply u64_small. unfold KERNBASE, PGSIZE in *. lia. }
  rewrite Hu. destruct (Z.eqb_spec (translate (mem s) root va) 0) as [Ht|Ht].
  - assert (Hrun' : free_run (mem s) root va (count + 1)) by (apply free_run_snoc; done || lia).
    assert (Htop' : run_top (mem s) root (count + 1) va base).
    { destruct Htop as [[-> Htop]|(-> & Htop & Hm)]; [left|right]; split; lia || done || split; lia || done. }
    destruct (Z.eqb_spec (count + 1) n) as [Hcn|Hcn]; eexists; (split; [reflexivity|]).
    + left. split; [done|]. exists va. rewrite <-Hcn in Hnone |- *. split_and!; [|done..].
      split; [done|]. split; [done|].
      destruct Htop' as [[-> ?]|(-> & ? & ?)]; [lia|]. unfold PGSIZE in *. lia.
    + split; [|done]. split; cbn [fst snd]; replace (va - PGSIZE + PGSIZE) with va by lia; try done.
      * unfold PGSIZE in *. lia.
      * unfold KERNBASE, PGSIZE in *. lia.
      * lia.
      * intros lo Hp Hlo Hfree. destruct (decide (va < lo)); [by apply (Hnone lo)|].
        assert (lo = va) as -> by (destruct Hp; unfold PGSIZE in *; lia).
        destruct Htop' as [[-> Htop']|(-> & Htop' & Hm)].
        -- destruct Hp as (_ & _ & Hp). unfold PGSIZE in *. lia.
        -- apply Hm, Hfree. lia.
  - eexists. split; [reflexivity|]. split; [|done]. split; cbn [fst snd];
      replace (va - PGSIZE + PGSIZE) with va by lia.
    + unfold PGSIZE in *. lia.
    + unfold KERNBASE, PGSIZE in *. lia.
    + lia.
    + intros k Hk. lia.
    + right. split; [lia|]. split; [lia|done].
    + intros lo Hp Hlo Hfree. destruct (decide (va < lo)); [by apply (Hnone lo)|].
      assert (lo = va) as -> by (destruct Hp; unfold PGSIZE in *; lia).
      apply Ht. specialize (Hfree 0). rewrite Z.mul_0_l, Z.add_0_r in Hfree. apply Hfree. lia.
Qed.

Lemma find_iter root n v s k :
  pt_wf (mem s) root -> find_inv (mem s) root n v -> 0 < n ->
  v.1.1 - KERNBASE < Z.of_nat k * PGSIZE ->
  exists r, iterM (find_step root n) k v s = Done (inr r) s /\ find_result (mem s) root n r.
Proof.
  intros Hwf. revert v. induction k as [|k IH]; intros v Hi Hn Hk.
  { destruct Hi as [_ Hr _ _ _ _]. lia. }
  destruct (find_step_done root n v s Hwf Hi Hn) as (r & E & Hr). cbn [iterM]. mstep E.
  destruct r as [v'|r]; [|by exists r].
  destruct Hr as (Hi' & Hv & Hlt). apply IH; [done|done|]. unfold PGSIZE in *. lia.
Qed.

Lemma find_start m root n : 0 < n -> find_inv m root n (find_base, find_base, 0).
Proof.
  intros Hn. split; cbn [fst snd]; try done.
  - intros k Hk. lia.
  - left. split; [done|]. lia.
  - intros lo (_ & _ & Hlo) Hlt. unfold PGSIZE in *. lia.
Qed.

Lemma find_contiguous_pages_done root n s :
  pt_wf (mem s) root -> 0 < n ->
  exists r, find_contiguous_pages root n s = Done r s /\ find_result (mem s) root n r.
Proof.
  intros Hwf Hn. set (k := Z.to_nat (2 ^ 26)).
  destruct (find_iter root n (find_base, find_base, 0) s k) as (r & E & Hr);
    [done|by apply find_start|done| |].
  { cbn [fst snd]. unfold k. rewrite Z2Nat.id by lia. done. }
  exists r. split; [|done]. unfold find_contiguous_pages. apply whileM_done with k; [done|].
  unfold k. rewrite Z2Nat.inj_pow by lia. done.
Qed.
End Find.
