(* ===== verification/RingbufMap.v ===== *)
(** * Mapping a ring buffer into a process

    [mappages_to_proc] and [mappage_to_book]: the sixteen pages appear twice,
    highest address first, and the book page below them. *)

From S2P Require Import Prelude Mem CString Riscv Kalloc Vm PageTable VmSpec VmCopy RingbufK RingbufFind.

Section RingbufMap.
Context `{KernelImage}.

(** ** Leaves of a ring *)

(** Pages [i .. i+n) of the ring, counted down from [base], map the buffer's
    pages; every other leaf is as before. *)
Definition ring_leaves (m m' : memory) (root base : Z) (rb : ringbuf_t) (i n : Z) : Prop :=
  forall va, 0 <= va < MAXVA ->
    leaf m' root va =
      let k := base / PGSIZE - va / PGSIZE in
      if decide (i <= k < i + n) then map_pte (buf_at rb (k mod RINGBUF_SIZE)) PTE_RWXU
      else leaf m root va.

(** The pages [i .. i+n) below [base] are free for [mappages]. *)
Definition room (m : memory) (root base i n : Z) : Prop :=
  forall k, i <= k < i + n -> has_flag (leaf m root (base - k * PGSIZE)) PTE_V = false.

Lemma flags_RWXU : flags_ok PTE_RWXU.
Proof. unfold PTE_RWXU. auto 10 with pte. Qed.

Lemma ring_leaves_0 m m' root base rb i :
  (forall va, leaf m' root va = leaf m root va) -> ring_leaves m m' root base rb i 0.
Proof. intros E va Hva. cbn zeta. rewrite decide_False by lia. apply E. Qed.

Lemma ring_leaves_cons m m1 m2 root base rb rb' i n :
  base mod PGSIZE = 0 -> 0 <= n ->
  mapped m m1 root (base - i * PGSIZE) 1 (buf_at rb (i mod RINGBUF_SIZE)) PTE_RWXU ->
  buf_at rb' (i mod RINGBUF_SIZE) = buf_at rb (i mod RINGBUF_SIZE) ->
  ring_leaves m1 m2 root base rb' (i + 1) n -> ring_leaves m m2 root base rb' i (n + 1).
Proof.
  intros Hb Hn H1 Hbuf H2 va Hva. rewrite H2, H1 by done. cbn zeta.
  assert (Hq : (base - i * PGSIZE) / PGSIZE = base / PGSIZE - i).
  { unfold PGSIZE in *. lia. }
  rewrite Hq. generalize (base / PGSIZE). clear -Hn Hbuf. intros b.
  destruct (decide (i + 1 <= b - va / PGSIZE < i + 1 + n)) as [Hd|Hd].
  { by rewrite decide_True by lia. }
  destruct (decide (0 <= va / PGSIZE - (b - i) < 1)) as [He|He].
  - rewrite decide_True by lia. replace (va / PGSIZE) with (b - i) by lia.
    replace (b - (b - i)) with i by lia. replace (b - i - (b - i)) with 0 by lia.
    by rewrite Z.mul_0_l, Z.add_0_r, Hbuf.
  - by rewrite decide_False by lia.
Qed.

Lemma room_next m m1 root base i n pa :
  base mod PGSIZE = 0 -> 0 <= base - (i + n) * PGSIZE -> base < MAXVA -> 0 <= i -> 0 <= n ->
  mapped m m1 root (base - i * PGSIZE) 1 pa PTE_RWXU ->
  room m root base i (n + 1) -> room m1 root base (i + 1) n.
Proof.
  intros Hb Hlo Hhi Hi Hn Hm Hr k Hk.
  rewrite Hm by (unfold PGSIZE in *; lia). cbn zeta.
  rewrite decide_False by (unfold PGSIZE in *; lia). apply Hr. lia.
Qed.

(** One page mapped, with memory to spare. *)
Lemma map_ring_page root va p s L :
  vm_inv s root L -> va mod PGSIZE = 0 -> 0 <= va < MAXVA -> owned root s L p ->
  has_flag (leaf (mem s) root va) PTE_V = false -> (2 <= length L)%nat ->
  exists s' L', mappages root va PGSIZE p PTE_RWXU s = Done 0 s' /\
    vm_evolve root s L s' L' /\ (length L <= length L' + 2)%nat /\
    mapped (mem s) (mem s') root va 1 p PTE_RWXU.
Proof.
  intros Hi Ha Hr Ho Hl HL. destruct (owned_pa _ _ _ _ Ho) as [Hp _].
  destruct (mappages_page root va p PTE_RWXU s L Hi Ha Hr Hp flags_RWXU Hl)
    as (r & s' & L' & E & Hev & Hlen & [[-> Hm]|(-> & Hlt & _)]); [|lia].
  by exists s', L'.
Qed.

Lemma map_again_done n root rb base i s L :
  vm_inv s root L -> base mod PGSIZE = 0 -> 0 <= i ->
  0 <= base - (i + Z.of_nat n) * PGSIZE -> base < MAXVA ->
  (forall j, 0 <= j < RINGBUF_SIZE -> owned root s L (buf_at rb j)) ->
  room (mem s) root base i (Z.of_nat n) -> (2 * n <= length L)%nat ->
  exists s' L', map_again n root rb base i s = Done (0, rb) s' /\
    vm_evolve root s L s' L' /\ (length L <= length L' + 2 * n)%nat /\
    ring_leaves (mem s) (mem s') root base rb i (Z.of_nat n).
Proof.
  revert i s L. induction n as [|n IH]; intros i s L Hinv Hb Hi Hlo Hhi Ho Hr HL.
  - exists s, L. split; [done|]. split; [by apply vm_evolve_refl|]. split; [lia|].
    by apply ring_leaves_0.
  - cbn [map_again].
    assert (Hu : u64 (base - i * PGSIZE) = base - i * PGSIZE).
    { apply u64_small. change MAXVA with (2 ^ 38) in *. unfold PGSIZE in *. lia. }
    rewrite Hu. assert (Hmod : 0 <= i mod RINGBUF_SIZE < RINGBUF_SIZE) by (unfold RINGBUF_SIZE; lia).
    destruct (map_ring_page root (base - i * PGSIZE) (buf_at rb (i mod RINGBUF_SIZE)) s L)
      as (s1 & L1 & E & Hev & Hlen & Hm);
      [done|unfold PGSIZE in *; lia|unfold PGSIZE in *; lia|by apply Ho|apply Hr; lia|lia|].
    mstep E. cbn [negb Z.eqb].
    destruct (IH (i + 1) s1 L1) as (s2 & L2 & E2 & Hev2 & Hlen2 & Hr2).
    + apply Hev.
    + done.
    + lia.
    + unfold PGSIZE in *. lia.
    + done.
    + intros j Hj. apply (owned_evolve _ _ _ _ _ _ Hev). by apply Ho.
    + apply room_next with (mem s) (buf_at rb (i mod RINGBUF_SIZE)); try done || lia; [unfold PGSIZE in *; lia|].
      replace (Z.of_nat n + 1) with (Z.of_nat (S n)) by lia. done.
    + lia.
    + exists s2, L2. split; [done|]. split; [by apply vm_evolve_trans with s1 L1|]. split; [lia|].
      replace (Z.of_nat (S n)) with (Z.of_nat n + 1) by lia.
      apply ring_leaves_cons with (mem s1) rb; done || lia.
Qed.

(** Past page sixteen the two loops do the same. *)
Lemma map_new_again n root rb base i s :
  RINGBUF_SIZE <= i -> map_new n root rb base i s = map_again n root rb base i s.
Proof.
  revert i s. induction n as [|n IH]; intros i s Hi; [done|]. cbn [map_new map_again].
  destruct (Z.ltb_spec i RINGBUF_SIZE); [lia|].
  unfold mbind, M_bind. destruct (mappages _ _ _ _ _ s) as [r s'| |]; [|done..].
  destruct (negb (r =? 0)); [done|]. apply IH. lia.
Qed.

(** ** The first process allocates the pages *)

(** The first [i] pages of the buffer are allocated: distinct, owned and
    cleared. *)
Record built (root : Z) (s : kstate) (L : list Z) (rb : ringbuf_t) (i : Z) : Prop := {
  built_len : length (rbuf rb) = Z.to_nat RINGBUF_SIZE;
  built_nodup : NoDup (take (Z.to_nat i) (rbuf rb));
  built_owned : forall p, p ∈ take (Z.to_nat i) (rbuf rb) -> owned root s L p /\ page_zero (mem s) p;
}.

Definition same_head (rb rb' : ringbuf_t) (i : Z) : Prop :=
  refcount rb' = refcount rb /\ rname rb' = rname rb /\ book rb' = book rb /\
  take (Z.to_nat i) (rbuf rb') = take (Z.to_nat i) (rbuf rb).

Lemma buf_at_elem rb i j :
  0 <= j < i -> i <= Z.of_nat (length (rbuf rb)) -> buf_at rb j ∈ take (Z.to_nat i) (rbuf rb).
Proof.
  intros Hj Hi. unfold buf_at.
  destruct (lookup_lt_is_Some_2 (rbuf rb) (Z.to_nat j)) as [p Hp]; [lia|].
  rewrite (nth_lookup_Some _ _ _ _ Hp). apply list_elem_of_lookup_2 with (Z.to_nat j).
  rewrite lookup_take_lt by lia. done.
Qed.

Lemma buf_at_take rb rb' i j :
  0 <= j < i -> take (Z.to_nat i) (rbuf rb') = take (Z.to_nat i) (rbuf rb) -> buf_at rb' j = buf_at rb j.
Proof.
  intros Hj E. unfold buf_at. apply (f_equal (fun l => l !! Z.to_nat j)) in E.
  rewrite !lookup_take_lt in E by lia. by rewrite !nth_lookup, E.
Qed.

Lemma built_evolve root s L s' L' rb i :
  vm_evolve root s L s' L' -> built root s L rb i -> built root s' L' rb i.
Proof.
  intros Hev [H1 H2 H3]. split; [done|done|]. intros p [Ho Hz]%H3. split.
  - by apply (owned_evolve _ _ _ _ _ _ Hev).
  - by apply (page_zero_evolve _ _ _ _ _ _ Hev).
Qed.

Lemma take_set_rbuf rb i p :
  0 <= i < Z.of_nat (length (rbuf rb)) ->
  take (Z.to_nat (i + 1)) (rbuf (set_rbuf i p rb)) = take (Z.to_nat i) (rbuf rb) ++ [p].
Proof.
  intros Hi. unfold set_rbuf. cbn [rbuf]. replace (Z.to_nat (i + 1)) with (S (Z.to_nat i)) by lia.
  rewrite (take_S_r _ _ p) by (apply list_lookup_insert_eq; lia).
  by rewrite take_insert_ge by lia.
Qed.

Lemma buf_at_set_rbuf rb i p : 0 <= i < Z.of_nat (length (rbuf rb)) -> buf_at (set_rbuf i p rb) i = p.
Proof.
  intros Hi. unfold buf_at, set_rbuf. cbn [rbuf]. apply nth_lookup_Some.
  apply list_lookup_insert_eq. lia.
Qed.

(** One more page. *)
Lemma built_cons root s L s' r rb i :
  0 <= i < RINGBUF_SIZE -> vm_evolve root s (r :: L) s' L -> built root s (r :: L) rb i ->
  owned root s' L r -> page_zero (mem s') r -> built root s' L (set_rbuf i r rb) (i + 1).
Proof.
  intros Hi Hev Hb Ho Hz. pose proof (built_len _ _ _ _ _ Hb) as Hlen.
  assert (Hr : r ∉ take (Z.to_nat i) (rbuf rb)).
  { intros Hin. apply (built_owned _ _ _ _ _ Hb) in Hin as [[_ Hn _] _].
    apply Hn, elem_of_cons. by left. }
  apply (built_evolve _ _ _ _ _ _ _ Hev) in Hb as [_ Hnd Hown].
  assert (Ht : take (Z.to_nat (i + 1)) (rbuf (set_rbuf i r rb)) = take (Z.to_nat i) (rbuf rb) ++ [r]).
  { apply take_set_rbuf. unfold RINGBUF_SIZE in *. lia. }
  split.
  - cbn. by rewrite length_insert.
  - rewrite Ht. apply list.NoDup_app. split; [done|]. split; [|apply list.NoDup_singleton].
    by intros x Hx ->%list_elem_of_singleton.
  - intros p. rewrite Ht. intros [Hp| ->%list_elem_of_singleton]%elem_of_app; [by apply Hown|done].
Qed.

Lemma map_new_alloc n root rb base i s L :
  vm_inv s root L -> base mod PGSIZE = 0 -> 0 <= i -> i + Z.of_nat n = RINGBUF_SIZE ->
  0 <= base - (i + Z.of_nat n) * PGSIZE -> base < MAXVA ->
  built root s L rb i -> room (mem s) root base i (Z.of_nat n) -> (3 * n <= length L)%nat ->
  exists rb' s' L',
    (forall k, map_new (n + k) root rb base i s = map_new k root rb' base RINGBUF_SIZE s') /\
    vm_evolve root s L s' L' /\ (length L <= length L' + 3 * n)%nat /\
    ring_leaves (mem s) (mem s') root base rb' i (Z.of_nat n) /\
    built root s' L' rb' RINGBUF_SIZE /\ same_head rb rb' i /\
    (forall p, p ∈ take (Z.to_nat RINGBUF_SIZE) (rbuf rb') -> p ∈ take (Z.to_nat i) (rbuf rb) \/ p ∈ L).
Proof.
  revert rb i s L. induction n as [|n IH]; intros rb i s L Hinv Hb Hi Hn Hlo Hhi Hbt Hr HL.
  - exists rb, s, L. replace i with RINGBUF_SIZE in * by lia.
    split_and!; [done|by apply vm_evolve_refl|lia|by apply ring_leaves_0|done|done|by left].
  - destruct L as [|r L]; [cbn in HL; lia|].
    assert (Hi16 : 0 <= i < RINGBUF_SIZE) by lia.
    assert (Hlen : 0 <= i < Z.of_nat (length (rbuf rb))).
    { rewrite (built_len _ _ _ _ _ Hbt). unfold RINGBUF_SIZE in *. lia. }
    assert (Hu : u64 (base - i * PGSIZE) = base - i * PGSIZE).
    { apply u64_small. change MAXVA with (2 ^ 38) in *. unfold PGSIZE in *. lia. }
    destruct (alloc_zeroed root s r L Hinv) as (s0 & E0 & Hr0 & Hev0 & Ho & Hz & Hleaf).
    pose proof (built_cons _ _ _ _ _ _ _ Hi16 Hev0 Hbt Ho Hz) as Hbt1.
    set (s1 := set_mem _ s0) in *. set (rb1 := set_rbuf i r rb) in *.
    destruct (map_ring_page root (base - i * PGSIZE) r s1 L)
      as (s2 & L2 & E2 & Hev2 & Hlen2 & Hm); [apply Hev0|unfold PGSIZE in *; lia|
      unfold PGSIZE in *; lia|done|rewrite Hleaf; apply Hr; lia|cbn in HL; lia|].
    assert (Hm' : mapped (mem s) (mem s2) root (base - i * PGSIZE) 1
                    (buf_at rb1 (i mod RINGBUF_SIZE)) PTE_RWXU).
    { rewrite Z.mod_small by done. unfold rb1. rewrite buf_at_set_rbuf by done.
      intros va Hva. rewrite Hm by done. by rewrite Hleaf. }
    destruct (IH rb1 (i + 1) s2 L2) as (rb' & s3 & L3 & E3 & Hev3 & Hlen3 & Hr3 & Hb3 & Hsh & Hfrom).
    + apply Hev2.
    + done.
    + lia.
    + lia.
    + unfold PGSIZE in *. lia.
    + done.
    + by apply (built_evolve _ _ _ _ _ _ _ Hev2).
    + apply room_next with (mem s) (buf_at rb1 (i mod RINGBUF_SIZE)); try done || lia;
        [unfold PGSIZE in *; lia|].
      replace (Z.of_nat n + 1) with (Z.of_nat (S n)) by lia. done.
    + cbn in HL. lia.
    + destruct Hsh as (H1 & H2 & H3 & H4). exists rb', s3, L3. split_and!.
      * intros k. cbn [map_new Nat.add]. rewrite Hu.
        destruct (Z.ltb_spec i RINGBUF_SIZE); [|lia]. mstep E0.
        destruct (Z.eqb_spec r 0); [done|]. unfold memset_page. rewrite bind_modify.
        mstep E2. cbn [negb Z.eqb]. apply E3.
      * apply vm_evolve_trans with s1 L; [done|]. by apply vm_evolve_trans with s2 L2.
      * cbn. lia.
      * replace (Z.of_nat (S n)) with (Z.of_nat n + 1) by lia.
        apply ring_leaves_cons with (mem s2) rb1; [done|lia|done| |done].
        apply buf_at_take with (i + 1); [|done]. rewrite Z.mod_small by done. lia.
      * done.
      * split; [done|]. split; [done|]. split; [done|].
        apply (f_equal (take (Z.to_nat i))) in H4. rewrite !take_take in H4.
        replace (Z.to_nat i `min` Z.to_nat (i + 1))%nat with (Z.to_nat i) in H4 by lia.
        rewrite H4. unfold rb1, set_rbuf. cbn [rbuf]. by rewrite take_insert_ge by lia.
      * intros p [Hp|Hp]%Hfrom.
        -- unfold rb1 in Hp. rewrite take_set_rbuf in Hp by done. rewrite elem_of_cons.
           apply elem_of_app in Hp as [Hp| ->%list_elem_of_singleton]; auto.
        -- right. apply elem_of_cons. right. destruct (ve_free _ _ _ _ _ Hev2) as [used ->].
           apply elem_of_app. by right.
Qed.

(** ** mappages_to_proc and mappage_to_book *)

Lemma room_app m root base i n n' :
  0 <= n -> 0 <= n' -> room m root base i (n + n') ->
  room m root base i n /\ room m root base (i + n) n'.
Proof. intros Hn Hn' Hr. split; intros k Hk; apply Hr; lia. Qed.

Lemma room_evolve m m' root base rb i n n' :
  base mod PGSIZE = 0 -> 0 <= i -> 0 <= n -> base < MAXVA -> 0 <= base - (i + n + n') * PGSIZE ->
  ring_leaves m m' root base rb i n -> room m root base (i + n) n' -> room m' root base (i + n) n'.
Proof.
  intros Hb Hi Hn Hhi Hlo Hm Hr k Hk. rewrite Hm by (unfold PGSIZE in *; lia). cbn zeta.
  rewrite decide_False by (unfold PGSIZE in *; lia). apply Hr. lia.
Qed.

Lemma ring_leaves_app m m1 m2 root base rb i n n' :
  0 <= n -> 0 <= n' -> ring_leaves m m1 root base rb i n -> ring_leaves m1 m2 root base rb (i + n) n' ->
  ring_leaves m m2 root base rb i (n + n').
Proof.
  intros Hn Hn' H1 H2 va Hva. rewrite H2, H1 by done. cbn zeta.
  generalize (base / PGSIZE - va / PGSIZE). clear -Hn Hn'. intros k.
  destruct (decide (i + n <= k < i + n + n')); [by rewrite decide_True by lia|].
  destruct (decide (i <= k < i + n)); [by rewrite decide_True by lia|].
  by rewrite decide_False by lia.
Qed.

Lemma mappages_to_proc_new root rb base s L :
  vm_inv s root L -> base mod PGSIZE = 0 -> 0 <= base - 32 * PGSIZE -> base < MAXVA ->
  refcount rb = 0 -> length (rbuf rb) = Z.to_nat RINGBUF_SIZE ->
  room (mem s) root base 0 32 -> (80 <= length L)%nat ->
  exists rb' s' L', mappages_to_proc root rb base (2 * RINGBUF_SIZE) s = Done (0, rb') s' /\
    vm_evolve root s L s' L' /\ (length L <= length L' + 80)%nat /\
    ring_leaves (mem s) (mem s') root base rb' 0 32 /\
    built root s' L' rb' RINGBUF_SIZE /\ same_head rb rb' 0 /\
    (forall p, p ∈ take (Z.to_nat RINGBUF_SIZE) (rbuf rb') -> p ∈ L).
Proof.
  intros Hi Hb Hlo Hhi Hrc Hlen Hroom HL. unfold mappages_to_proc. rewrite Hrc.
  change (0 <? 0) with false. change (0 =? 0) with true. cbn [negb].
  change (Z.to_nat (2 * RINGBUF_SIZE)) with (16 + 16)%nat.
  destruct (room_app _ _ _ 0 16 16 ltac:(lia) ltac:(lia) Hroom) as [Hr1 Hr2].
  destruct (map_new_alloc 16 root rb base 0 s L) as (rb' & s1 & L1 & E1 & Hev1 & Hl1 & Hm1 & Hb1 & Hsh & Hfrom);
    [done|done|lia|done|unfold PGSIZE in *; lia|done| |done|lia|].
  { split; [done|constructor|]. intros p []%not_elem_of_nil. }
  destruct (map_again_done 16 root rb' base RINGBUF_SIZE s1 L1) as (s2 & L2 & E2 & Hev2 & Hl2 & Hm2).
  - apply Hev1.
  - done.
  - unfold RINGBUF_SIZE. lia.
  - unfold RINGBUF_SIZE, PGSIZE in *. lia.
  - done.
  - intros j Hj. apply (built_owned _ _ _ _ _ Hb1). apply buf_at_elem; [done|].
    rewrite (built_len _ _ _ _ _ Hb1). unfold RINGBUF_SIZE. lia.
  - apply (room_evolve (mem s) (mem s1) root base rb' 0 16 16); try done; unfold PGSIZE in *; lia.
  - lia.
  - exists rb', s2, L2. split_and!.
    + rewrite E1, map_new_again by done. done.
    + by apply vm_evolve_trans with s1 L1.
    + lia.
    + by apply (ring_leaves_app _ (mem s1) _ _ _ _ 0 16 16).
    + by apply (built_evolve _ _ _ _ _ _ _ Hev2).
    + done.
    + intros p [[]%not_elem_of_nil|Hp]%Hfrom. done.
Qed.

Lemma mappages_to_proc_again root rb base s L :
  vm_inv s root L -> base mod PGSIZE = 0 -> 0 <= base - 32 * PGSIZE -> base < MAXVA ->
  0 < refcount rb -> (forall j, 0 <= j < RINGBUF_SIZE -> owned root s L (buf_at rb j)) ->
  room (mem s) root base 0 32 -> (64 <= length L)%nat ->
  exists s' L', mappages_to_proc root rb base (2 * RINGBUF_SIZE) s = Done (0, rb) s' /\
    vm_evolve root s L s' L' /\ (length L <= length L' + 64)%nat /\
    ring_leaves (mem s) (mem s') root base rb 0 32.
Proof.
  intros Hi Hb Hlo Hhi Hrc Ho Hroom HL. unfold mappages_to_proc.
  destruct (Z.ltb_spec (refcount rb) 0); [lia|]. destruct (Z.eqb_spec (refcount rb) 0); [lia|].
  by apply (map_again_done 32).
Qed.

Lemma mappage_to_book_new root rb va s L :
  vm_inv s root L -> va mod PGSIZE = 0 -> 0 <= va < MAXVA -> refcount rb = 0 ->
  has_flag (leaf (mem s) root va) PTE_V = false -> (3 <= length L)%nat ->
  exists r s' L', r ∈ L /\ mappage_to_book root rb va s = Done (0, set_book r rb) s' /\
    vm_evolve root s L s' L' /\ (length L <= length L' + 3)%nat /\
    mapped (mem s) (mem s') root va 1 r PTE_RWXU /\
    owned root s' L' r /\ page_zero (mem s') r.
Proof.
  intros Hi Ha Hva Hrc Hl HL. destruct L as [|r L]; [cbn in HL; lia|].
  destruct (alloc_zeroed root s r L Hi) as (s0 & E0 & Hr0 & Hev0 & Ho & Hz & Hleaf).
  set (s1 := set_mem _ s0) in *.
  destruct (map_ring_page root va r s1 L) as (s2 & L2 & E2 & Hev2 & Hlen & Hm);
    [apply Hev0|done|done|done|by rewrite Hleaf|cbn in HL; lia|].
  exists r, s2, L2. split_and!.
  - apply elem_of_cons. by left.
  - unfold mappage_to_book. rewrite Hrc. change (0 =? 0) with true. cbn iota. mstep E0.
    destruct (Z.eqb_spec r 0); [done|]. unfold memset_page. rewrite bind_modify. by mstep E2.
  - by apply vm_evolve_trans with s1 L.
  - cbn. lia.
  - intros va' Hva'. rewrite Hm by done. by rewrite Hleaf.
  - by apply (owned_evolve _ _ _ _ _ _ Hev2).
  - by apply (page_zero_evolve _ _ _ _ _ _ Hev2).
Qed.

Lemma mappage_to_book_again root rb va s L :
  vm_inv s root L -> va mod PGSIZE = 0 -> 0 <= va < MAXVA -> 0 < refcount rb ->
  owned root s L (book rb) -> has_flag (leaf (mem s) root va) PTE_V = false -> (2 <= length L)%nat ->
  exists s' L', mappage_to_book root rb va s = Done (0, rb) s' /\
    vm_evolve root s L s' L' /\ mapped (mem s) (mem s') root va 1 (book rb) PTE_RWXU.
Proof.
  intros Hi Ha Hva Hrc Ho Hl HL.
  destruct (map_ring_page root va (book rb) s L) as (s2 & L2 & E2 & Hev2 & _ & Hm); [done..|].
  exists s2, L2. split_and!; [|done|done]. unfold mappage_to_book.
  destruct (Z.eqb_spec (refcount rb) 0); [lia|]. by mstep E2.
Qed.

(** ** The whole ring *)

(** The ring at [base]: the buffer's pages in [32] leaves, twice, the book in
    the next, all other leaves as before. *)
Definition ring_view (m m' : memory) (root base : Z) (rb : ringbuf_t) : Prop :=
  forall va, 0 <= va < MAXVA ->
    leaf m' root va =
      let k := base / PGSIZE - va / PGSIZE in
      if decide (0 <= k < 32) then map_pte (buf_at rb (k mod RINGBUF_SIZE)) PTE_RWXU
      else if decide (k = 32) then map_pte (book rb) PTE_RWXU
      else leaf m root va.

Lemma ring_view_intro m m1 m2 root base rb :
  base mod PGSIZE = 0 -> ring_leaves m m1 root base rb 0 32 ->
  mapped m1 m2 root (base - 32 * PGSIZE) 1 (book rb) PTE_RWXU -> ring_view m m2 root base rb.
Proof.
  intros Hb H1 H2 va Hva. rewrite H2, H1 by done. cbn zeta.
  assert (Hq : (base - 32 * PGSIZE) / PGSIZE = base / PGSIZE - 32) by (unfold PGSIZE in *; lia).
  rewrite Hq. generalize (base / PGSIZE) (va / PGSIZE). clear. intros b v.
  destruct (decide (0 <= v - (b - 32) < 1)) as [Hd|Hd].
  - rewrite decide_False by lia. rewrite decide_True by lia.
    replace (v - (b - 32)) with 0 by lia. by rewrite Z.mul_0_l, Z.add_0_r.
  - destruct (decide (0 <= b - v < 0 + 32)); [by rewrite decide_True by lia|].
    rewrite decide_False by lia. by rewrite decide_False by lia.
Qed.

(** Leaves of the ring's own addresses. *)
Definition ring_at (m : memory) (root base : Z) (rb : ringbuf_t) : Prop :=
  (forall k, 0 <= k < 32 ->
     leaf m root (base - k * PGSIZE) = map_pte (buf_at rb (k mod RINGBUF_SIZE)) PTE_RWXU) /\
  leaf m root (base - 32 * PGSIZE) = map_pte (book rb) PTE_RWXU.

Lemma ring_view_at m m' root base rb :
  base mod PGSIZE = 0 -> 0 <= base - 32 * PGSIZE -> base < MAXVA ->
  ring_view m m' root base rb -> ring_at m' root base rb.
Proof.
  intros Hb Hlo Hhi Hv.
  assert (Hq : forall k, (base - k * PGSIZE) / PGSIZE = base / PGSIZE - k) by (intros; unfold PGSIZE in *; lia).
  split.
  - intros k Hk. rewrite Hv by (unfold PGSIZE in *; lia). rewrite Hq. cbn zeta.
    replace (base / PGSIZE - (base / PGSIZE - k)) with k by lia. by rewrite decide_True by lia.
  - rewrite Hv by (unfold PGSIZE in *; lia). rewrite Hq. cbn zeta.
    replace (base / PGSIZE - (base / PGSIZE - 32)) with 32 by lia. done.
Qed.
End RingbufMap.
