(* ===== verification/RingbufSpec.v ===== *)
(** * Correctness of the ring-buffer system call

    What opening a ring buffer does to the caller's address space, to physical
    memory and to the table of ring buffers, for the process that creates it and
    for the processes that join, and what closing it undoes. *)

From S2P Require Import Prelude Mem CString Riscv Kalloc Vm PageTable VmSpec VmCopy.
From S2P Require Import RingbufK RingbufFind RingbufMap.

Lemma vm_done {A} (m : M kstate A) r a s : m (km r) = Done a s -> vm m r = Done a (RState s (ringbufs r)).
Proof. intros E. unfold vm, lift. by rewrite E. Qed.

Lemma vm_panic {A} (m : M kstate A) r msg : m (km r) = Panic msg -> vm m r = Panic msg.
Proof. intros E. unfold vm, lift. by rewrite E. Qed.

Lemma vm_bind_panic {A B} (m : M kstate A) (f : A -> M rstate B) r msg :
  m (km r) = Panic msg -> (vm m ≫= f) r = Panic msg.
Proof. intros E. by apply bind_panic, vm_panic. Qed.

Lemma bind_put_rb {B} i rb (f : unit -> M rstate B) r :
  (put_rb i rb ≫= f) r = f tt (RState (km r) (<[i := rb]> (ringbufs r))).
Proof. reflexivity. Qed.

Section RingbufSpec.
Context `{KernelImage}.

(** In the part of the address space the search covers, pages that are mapped
    at all are mapped for the user. *)
Definition high_user (m : memory) (root : Z) : Prop :=
  forall va, KERNBASE < va <= find_base -> translate m root va = 0 ->
    has_flag (leaf m root va) PTE_V = false.

(** Room for a ring at [base]: its 33 pages are untranslated. *)
Record ring_place (m : memory) (root base : Z) : Prop := {
  rp_aligned : base mod PGSIZE = 0;
  rp_low : KERNBASE < base - 32 * PGSIZE;
  rp_high : base <= find_base;
  rp_free : forall k, 0 <= k <= 32 -> translate m root (base - k * PGSIZE) = 0;
}.

Lemma ring_place_bounds m root base :
  ring_place m root base ->
  0 <= base - 32 * PGSIZE /\ base < MAXVA /\ u64 base = base /\
  u64 (base - 2 * RINGBUF_SIZE * PGSIZE) = base - 32 * PGSIZE.
Proof.
  intros [H1 H2 H3 H4]. rewrite find_base_eq in H3. change MAXVA with (2 ^ 38) in *.
  unfold KERNBASE, RINGBUF_SIZE, PGSIZE in *. rewrite !u64_small by lia. lia.
Qed.

Lemma ring_place_room m root base : high_user m root -> ring_place m root base -> room m root base 0 33.
Proof.
  intros Hh [H1 H2 H3 H4] k Hk. apply Hh; [unfold PGSIZE in *; lia|]. apply H4. lia.
Qed.

(** The page below the one the search returns starts a place for a ring. *)
Lemma find_place m root n b :
  n = 34 -> found_run m root n b ->
  ring_place m root (b - PGSIZE) /\ u64 (b - PGSIZE) = b - PGSIZE.
Proof.
  intros -> (lo & (Hal & Hlo & Hhi) & Hfree & Htop & _).
  assert (Hu : find_base < 2 ^ 38) by apply find_base_range.
  pose proof (proj2 find_base_range) as Hfa.
  assert (Hb : b = lo + 33 * PGSIZE \/ b = lo + 34 * PGSIZE) by (destruct Htop; lia).
  assert (Hb' : b <= find_base) by (destruct Htop; lia).
  clear Htop. split.
  - split; unfold KERNBASE, PGSIZE in *; [lia|lia|lia|].
    intros k Hk. replace (b - 4096 - k * 4096) with (lo + ((b - lo) / 4096 - 1 - k) * 4096) by lia.
    apply Hfree. lia.
  - apply u64_small. unfold KERNBASE, PGSIZE in *. lia.
Qed.

(** ** Translations of a ring *)

Lemma ring_translate m root base rb k va :
  ring_at m root base rb -> base mod PGSIZE = 0 -> 0 <= k < 32 ->
  (forall j, 0 <= j < RINGBUF_SIZE -> valid_page (buf_at rb j)) ->
  va / PGSIZE = base / PGSIZE - k -> translate m root va = buf_at rb (k mod RINGBUF_SIZE).
Proof.
  intros [Hr _] Hb Hk Hv Hva. rewrite (translate_page m root va (base - k * PGSIZE)).
  - destruct (valid_page_pa (buf_at rb (k mod RINGBUF_SIZE))) as [H1 H2].
    { apply Hv. unfold RINGBUF_SIZE. lia. }
    by apply translate_map with PTE_RWXU; [apply Hr| | | |apply flags_RWXU].
  - rewrite Hva. unfold PGSIZE in *. lia.
Qed.

Lemma book_translate m root base rb va :
  ring_at m root base rb -> base mod PGSIZE = 0 -> valid_page (book rb) ->
  va / PGSIZE = base / PGSIZE - 32 -> translate m root va = book rb.
Proof.
  intros [_ Hr] Hb [H1 H2]%valid_page_pa Hva.
  rewrite (translate_page m root va (base - 32 * PGSIZE)).
  - by apply translate_map with PTE_RWXU; [|..|apply flags_RWXU].
  - rewrite Hva. unfold PGSIZE in *. lia.
Qed.

(** Addresses that were translated before keep their translation. *)
Lemma ring_view_old m m' root base rb a :
  ring_place m root base -> ring_view m m' root base rb -> 0 <= a < MAXVA ->
  translate m root a <> 0 -> leaf m' root a = leaf m root a.
Proof.
  intros Hp Hv Ha Ht. rewrite Hv by done. cbn zeta.
  destruct (decide (0 <= base / PGSIZE - a / PGSIZE <= 32)) as [Hd|Hd].
  - destruct Ht. rewrite (translate_page m root a (base - (base / PGSIZE - a / PGSIZE) * PGSIZE)).
    + by apply Hp.
    + pose proof (rp_aligned _ _ _ Hp). unfold PGSIZE in *. lia.
  - rewrite decide_False by lia. by rewrite decide_False by lia.
Qed.

(** ** Copying the address out *)

Lemma user_range_area root s L va len : 0 <= len -> user_range root s L va len -> user_area root s L va len.
Proof. intros Hl (H1 & H2 & H3). split; [done|]. split; [done|]. split; [done|]. intros a Ha _. by apply H3. Qed.

Lemma owned_nonzero root s L p : owned root s L p -> p <> 0.
Proof.
  intros [Hv _ _]. pose proof (valid_page_bounds p Hv) as [Hb _]. unfold KERNBASE in Hb. lia.
Qed.

Lemma copyout_all root va src s L :
  vm_inv s root L -> user_range root s L va (Z.of_nat (length src)) ->
  exists s', copyout root va src s = Done 0 s' /\ data_only root s L s' /\
    mem s' = user_write (uaddr (mem s) root) (mem s) va src.
Proof.
  intros Hi Hr. destruct (copyout_spec root va src s L Hi) as (r & s' & j & E & Hj & Hm & Hd & Hc).
  { apply user_range_area; [lia|done]. }
  destruct Hc as [_ [[-> ->]|(_ & Hj' & Ht)]].
  - exists s'. split_and!; [done|done|]. by rewrite Hm, firstn_all2 by lia.
  - destruct Hr as (_ & _ & Hr). specialize (Hr (va + j) ltac:(lia)).
    by destruct (owned_nonzero _ _ _ _ Hr).
Qed.

Lemma copyout_user_addr_done root base addr s L :
  vm_inv s root L -> user_range root s L addr 8 ->
  exists s', copyout_user_addr root base addr s = Done 0 s' /\ data_only root s L s' /\
    mem s' = user_write (uaddr (mem s) root) (mem s) addr (bytes64 base).
Proof.
  intros Hi Hr. destruct (copyout_all root addr (bytes64 base) s L Hi Hr) as (s' & E & Hd & Hm).
  exists s'. split; [|done]. unfold copyout_user_addr. by mstep E.
Qed.

(** Bytes outside the pages of the range do not change. *)
Lemma user_write_page m root va bs p :
  p mod PGSIZE = 0 ->
  (forall a, va <= a < va + Z.of_nat (length bs) ->
     translate m root a mod PGSIZE = 0 /\ translate m root a <> p) ->
  mem_eq_on (in_page p) m (user_write (uaddr m root) m va bs).
Proof.
  intros Hp Hr x Hx. apply user_write_out. intros a Ha E. destruct (Hr a Ha) as [Hal Hne].
  apply Hne. apply (pages_disjoint _ p x); [done|done| |done]. rewrite <-E. unfold in_page, uaddr, PGSIZE. lia.
Qed.

(** A range mapped to owned pages stays so when a ring is mapped. *)
Lemma user_range_ring root s L s' L' base rb va len :
  vm_evolve root s L s' L' -> ring_place (mem s) root base -> ring_view (mem s) (mem s') root base rb ->
  user_range root s L va len ->
  user_range root s' L' va len /\
  forall a, va <= a < va + len -> translate (mem s') root a = translate (mem s) root a.
Proof.
  intros Hev Hp Hv (H1 & H2 & H3).
  assert (E : forall a, va <= a < va + len -> translate (mem s') root a = translate (mem s) root a).
  { intros a Ha. unfold translate. rewrite (ring_view_old _ _ _ _ _ _ Hp Hv); [done|lia|].
    by apply (owned_nonzero root s L), H3. }
  split; [|done]. split; [done|]. split; [done|]. intros a Ha. rewrite E by done.
  by apply (owned_evolve _ _ _ _ _ _ Hev), H3.
Qed.

(** ** create_ringbuf *)

(** The seventeen pages of a ring buffer. *)
Record ring_pages (root : Z) (s : kstate) (L : list Z) (rb : ringbuf_t) : Prop := {
  rg_len : length (rbuf rb) = Z.to_nat RINGBUF_SIZE;
  rg_nodup : NoDup (book rb :: rbuf rb);
  rg_owned : forall p, p ∈ book rb :: rbuf rb -> owned root s L p;
}.

Lemma buf_at_in rb j : length (rbuf rb) = Z.to_nat RINGBUF_SIZE -> 0 <= j < RINGBUF_SIZE -> buf_at rb j ∈ rbuf rb.
Proof.
  intros Hl Hj. pose proof (buf_at_elem rb RINGBUF_SIZE j Hj) as Hin.
  rewrite <-Hl, firstn_all in Hin. apply Hin. rewrite Hl. unfold RINGBUF_SIZE. lia.
Qed.

Lemma ring_pages_buf root s L rb j :
  ring_pages root s L rb -> 0 <= j < RINGBUF_SIZE -> owned root s L (buf_at rb j).
Proof.
  intros [Hl _ Ho] Hj. apply Ho, elem_of_cons. right. by apply buf_at_in.
Qed.

Lemma ring_pages_book root s L rb : ring_pages root s L rb -> owned root s L (book rb).
Proof. intros [_ _ Ho]. apply Ho, elem_of_cons. by left. Qed.

Lemma ring_pages_evolve root s L s' L' rb :
  vm_evolve root s L s' L' -> ring_pages root s L rb -> ring_pages root s' L' rb.
Proof.
  intros Hev [H1 H2 H3]. split; [done|done|]. intros p Hp. by apply (owned_evolve _ _ _ _ _ _ Hev), H3.
Qed.

Lemma ring_pages_data root s L s' rb :
  vm_inv s root L -> data_only root s L s' -> ring_pages root s L rb -> ring_pages root s' L rb.
Proof.
  intros Hi Hd [H1 H2 H3]. split; [done|done|]. intros p Hp. by apply (data_only_owned root s), H3.
Qed.

Lemma validate_done root va s L p :
  vm_inv s root L -> va < MAXVA -> translate (mem s) root va = p -> p <> 0 ->
  validate_pages root va s = Done 0 s.
Proof.
  intros Hi Hva <- Hp. unfold validate_pages. mstep (walkaddr_done root va s (vm_wf _ _ _ Hi) Hva).
  by destruct (Z.eqb_spec (translate (mem s) root va) 0).
Qed.

Lemma built_take root s L rb p :
  built root s L rb RINGBUF_SIZE -> p ∈ rbuf rb -> p ∈ take (Z.to_nat RINGBUF_SIZE) (rbuf rb).
Proof. intros [Hl _ _] Hp. by rewrite <-Hl, firstn_all. Qed.

Lemma built_pages root s L s' L' rb p :
  built root s L rb RINGBUF_SIZE -> vm_evolve root s L s' L' -> p ∈ L -> owned root s' L' p ->
  ring_pages root s' L' (set_book p rb).
Proof.
  intros [Hl Hnd Ho] Hev Hp Hop.
  assert (Et : take (Z.to_nat RINGBUF_SIZE) (rbuf rb) = rbuf rb) by (rewrite <-Hl; apply firstn_all).
  rewrite Et in Hnd, Ho. split; cbn [set_book rbuf book]; [done| |].
  - constructor; [|done]. intros Hin. apply Ho in Hin as [[_ Hn _] _]. done.
  - intros q [->|Hq]%elem_of_cons; [done|]. apply Ho in Hq as [Hq _].
    by apply (owned_evolve _ _ _ _ _ _ Hev).
Qed.

Definition all_zero (m : memory) (rb : ringbuf_t) : Prop :=
  forall p, p ∈ book rb :: rbuf rb -> page_zero m p.

Lemma create_map root rb base s L :
  vm_inv s root L -> high_user (mem s) root -> ring_place (mem s) root base ->
  refcount rb = 0 -> length (rbuf rb) = Z.to_nat RINGBUF_SIZE -> (83 <= length L)%nat ->
  exists rb1 rb2 s1 s2 L2,
    mappages_to_proc root rb base (2 * RINGBUF_SIZE) s = Done (0, rb1) s1 /\
    validate_pages root base s1 = Done 0 s1 /\
    mappage_to_book root rb1 (base - 32 * PGSIZE) s1 = Done (0, rb2) s2 /\
    validate_pages root (base - 32 * PGSIZE) s2 = Done 0 s2 /\
    vm_evolve root s L s2 L2 /\ (length L <= length L2 + 83)%nat /\
    ring_view (mem s) (mem s2) root base rb2 /\
    ring_pages root s2 L2 rb2 /\ all_zero (mem s2) rb2 /\
    (forall p, p ∈ book rb2 :: rbuf rb2 -> p ∈ L) /\ refcount rb2 = 0 /\ rname rb2 = rname rb.
Proof.
  intros Hi Hh Hp Hrc Hlen HL. pose proof (ring_place_bounds _ _ _ Hp) as (Hlo & Hhi & _ & _).
  pose proof (rp_aligned _ _ _ Hp) as Hal.
  destruct (room_app _ _ _ 0 32 1 ltac:(lia) ltac:(lia) (ring_place_room _ _ _ Hh Hp)) as [Hr1 Hr2].
  destruct (mappages_to_proc_new root rb base s L)
    as (rb1 & s1 & L1 & E1 & Hev1 & Hl1 & Hm1 & Hb1 & (Hs1 & Hs2 & Hs3 & _) & Hfrom); [done..|lia|].
  assert (Ho1 : forall j, 0 <= j < RINGBUF_SIZE -> owned root s1 L1 (buf_at rb1 j)).
  { intros j Hj. apply (built_owned _ _ _ _ _ Hb1), buf_at_elem; [done|].
    rewrite (built_len _ _ _ _ _ Hb1). unfold RINGBUF_SIZE. lia. }
  assert (Hlo' : 0 <= base - (0 + 32 + 1) * PGSIZE).
  { pose proof (rp_low _ _ _ Hp) as Hl. clear -Hl. unfold KERNBASE, PGSIZE in Hl |- *. lia. }
  pose proof (room_evolve _ _ _ _ _ 0 32 1 Hal ltac:(lia) ltac:(lia) Hhi Hlo' Hm1 Hr2) as Hr2'.
  destruct (mappage_to_book_new root rb1 (base - 32 * PGSIZE) s1 L1)
    as (p & s2 & L2 & Hpin & E2 & Hev2 & Hl2 & Hm2 & Hop & Hz);
    [apply Hev1|unfold PGSIZE in *; lia|unfold PGSIZE in *; lia|lia|apply Hr2'; lia|lia|].
  assert (Hv : ring_view (mem s) (mem s2) root base (set_book p rb1)).
  { by apply ring_view_intro with (mem s1). }
  pose proof (built_pages _ _ _ _ _ _ _ Hb1 Hev2 Hpin Hop) as Hpages.
  pose proof (ring_view_at _ _ _ _ _ Hal Hlo Hhi Hv) as Hat.
  assert (Ht1 : translate (mem s1) root base = buf_at rb1 0).
  { destruct (owned_pa _ _ _ _ (Ho1 0 ltac:(done))) as [Hpa Hpal].
    apply translate_map with PTE_RWXU; [|done|lia|done|apply flags_RWXU].
    rewrite Hm1 by (unfold PGSIZE in *; lia). cbn zeta. rewrite Z.sub_diag. done. }
  assert (Ht2 : translate (mem s2) root (base - 32 * PGSIZE) = p).
  { apply (book_translate _ _ base (set_book p rb1)); [done|done|apply Hop|].
    unfold PGSIZE in *. lia. }
  exists rb1, (set_book p rb1), s1, s2, L2. split_and!.
  - done.
  - apply (validate_done _ _ _ L1 _ (ve_inv _ _ _ _ _ Hev1) Hhi Ht1).
    apply (owned_nonzero _ _ _ _ (Ho1 0 ltac:(done))).
  - done.
  - apply (validate_done root (base - 32 * PGSIZE) _ L2 _ (ve_inv _ _ _ _ _ Hev2) ltac:(unfold PGSIZE in *; lia) Ht2).
    apply (owned_nonzero _ _ _ _ Hop).
  - by apply vm_evolve_trans with s1 L1.
  - lia.
  - done.
  - done.
  - intros q [->|Hq%(built_take _ _ _ _ _ Hb1)]%elem_of_cons; [done|].
    apply (built_owned _ _ _ _ _ Hb1) in Hq as [Hq1 Hq2].
    by apply (page_zero_evolve _ _ _ _ _ _ Hev2).
  - intros q [->|Hq%(built_take _ _ _ _ _ Hb1)]%elem_of_cons.
    + destruct (ve_free _ _ _ _ _ Hev1) as [used ->]. apply elem_of_app. by right.
    + by apply Hfrom.
  - cbn. lia.
  - cbn. done.
Qed.

(** What a successful open leaves behind. *)
Record opened (root addr : Z) (r : rstate) (L : list Z) (base : Z) (rb : ringbuf_t)
    (r' : rstate) (L' : list Z) : Prop := {
  op_inv : vm_inv (km r') root L';
  op_place : ring_place (mem (km r)) root base;
  op_view : ring_view (mem (km r)) (mem (km r')) root base rb;
  op_pages : ring_pages root (km r') L' rb;
  op_addr : load64 (mem (km r')) (uaddr (mem (km r)) root addr) = base;
  op_frame : forall p, p mod PGSIZE = 0 -> ~ is_table (mem (km r)) root p -> p ∉ L ->
    (forall a, addr <= a < addr + 8 -> translate (mem (km r)) root a <> p) ->
    mem_eq_on (in_page p) (mem (km r)) (mem (km r'));
  op_tables : forall t, is_table (mem (km r')) root t -> is_table (mem (km r)) root t \/ t ∈ L;
  op_free : exists used, L = used ++ L';
}.

Lemma load64_user_write m root addr v :
  addr mod 8 = 0 -> 0 <= v < 2 ^ 64 ->
  load64 (user_write (uaddr m root) m addr (bytes64 v)) (uaddr m root addr) = v.
Proof.
  intros Ha Hv. rewrite (user_write_contig _ _ _ _ (uaddr m root addr)).
  - change (bytes64 v) with (bytes_le 8 v). unfold load64. rewrite load_write_bytes_le.
    change (256 ^ Z.of_nat 8) with (2 ^ 64). by apply Z.mod_small.
  - change (Z.of_nat (length (bytes64 v))) with 8. intros i Hi. unfold uaddr.
    rewrite (translate_page m root (addr + i) addr) by (unfold PGSIZE; lia).
    unfold PGSIZE. lia.
Qed.

(** The copyout at the end of an open. *)
Lemma opened_intro root addr r L base rb s2 L2 s3 r' rbs :
  vm_evolve root (km r) L s2 L2 -> ring_place (mem (km r)) root base ->
  ring_view (mem (km r)) (mem s2) root base rb -> ring_pages root s2 L2 rb ->
  user_range root (km r) L addr 8 -> addr mod 8 = 0 -> data_only root s2 L2 s3 ->
  mem s3 = user_write (uaddr (mem s2) root) (mem s2) addr (bytes64 base) ->
  r' = RState s3 rbs -> opened root addr r L base rb r' L2.
Proof.
  intros Hev Hp Hv Hpg Hr Ha Hd Hm ->. pose proof (ve_inv _ _ _ _ _ Hev) as Hi2.
  destruct (user_range_ring _ _ _ _ _ _ _ _ _ Hev Hp Hv Hr) as [Hr2 Htr].
  pose proof (ring_place_bounds _ _ _ Hp) as (Hlo & Hhi & _ & _).
  split; cbn [km].
  - by apply (data_only_inv root s2).
  - done.
  - intros va Hva. rewrite (data_only_leaf _ _ _ _ _ Hi2 Hd). by apply Hv.
  - by apply (ring_pages_data root s2).
  - replace (uaddr (mem (km r)) root addr) with (uaddr (mem s2) root addr).
    2:{ unfold uaddr. by rewrite Htr by lia. }
    rewrite Hm. apply load64_user_write; [done|]. change MAXVA with (2 ^ 38) in *. unfold PGSIZE in *. lia.
  - intros p Hal Hnt Hn Hna. apply mem_eq_on_trans with (mem s2).
    { by apply (ve_frame _ _ _ _ _ Hev). }
    rewrite Hm. apply user_write_page; [done|]. change (Z.of_nat (length (bytes64 base))) with 8.
    intros a Haa. rewrite Htr by done. split; [|by apply Hna].
    destruct Hr as (_ & _ & Hr). apply (Hr a Haa).
  - intros t Ht%(data_only_is_table _ _ _ _ _ Hi2 Hd). by apply (ve_tables _ _ _ _ _ Hev).
  - apply Hev.
Qed.

(** The address space has a run of 34 untranslated pages. *)
Definition has_run (m : memory) (root : Z) : Prop := exists lo, run_place 34 lo /\ free_run m root lo 34.

Lemma find_run root s :
  pt_wf (mem s) root -> has_run (mem s) root ->
  exists b, find_contiguous_pages root 34 s = Done (0, b) s /\ found_run (mem s) root 34 b.
Proof.
  intros Hwf (lo & Hlo & Hfr).
  destruct (find_contiguous_pages_done root 34 s Hwf ltac:(lia)) as ([c b] & E & Hres).
  destruct Hres as [[Hc Hres]|[_ Hno]]; cbn [fst snd] in *.
  - subst c. by exists b.
  - by destruct (Hno lo Hlo).
Qed.

Lemma create_ringbuf_done junk root name addr r L :
  vm_inv (km r) root L -> high_user (mem (km r)) root -> has_run (mem (km r)) root ->
  length (rbuf junk) = Z.to_nat RINGBUF_SIZE -> (83 <= length L)%nat ->
  user_range root (km r) L addr 8 -> addr mod 8 = 0 ->
  exists r' L' base rb, create_ringbuf junk root name addr r = Done 0 r' /\
    opened root addr r L base rb r' L' /\ (length L <= length L' + 83)%nat /\
    all_zero (mem (km r')) rb /\
    rname rb = strncpy name (Z.to_nat RINGBUF_NAME_LEN) /\ refcount rb = 1 /\
    ringbufs r' = <[Z.to_nat (get_ringbuf_index (ringbufs r)) := rb]> (ringbufs r) /\
    (forall p, p ∈ book rb :: rbuf rb -> p ∈ L).
Proof.
  intros Hi Hh Hrun Hlen HL Hr Ha. destruct r as [s rbs]; cbn [km ringbufs] in *.
  destruct (find_run root s (vm_wf _ _ _ Hi) Hrun) as (b & E0 & Hb).
  destruct (find_place _ _ _ _ eq_refl Hb) as [Hp Hu].
  pose proof (ring_place_bounds _ _ _ Hp) as (_ & _ & _ & Hub).
  set (rb0 := set_rname (strncpy name (Z.to_nat RINGBUF_NAME_LEN)) (set_refcount 0 junk)).
  destruct (create_map root rb0 (b - PGSIZE) s L)
    as (rb1 & rb2 & s1 & s2 & L2 & E1 & V1 & E2 & V2 & Hev & Hl2 & Hv & Hpg & Hz & Hfrom & Hrc & Hnm);
    [done..|].
  destruct (user_range_ring _ _ _ _ _ _ _ _ _ Hev Hp Hv Hr) as [Hr2 Htr].
  destruct (copyout_user_addr_done root (b - PGSIZE) addr s2 L2 (ve_inv _ _ _ _ _ Hev) Hr2)
    as (s3 & E3 & Hd & Hm).
  set (rb := set_refcount (refcount rb2 + 1) rb2).
  exists (RState s3 (<[Z.to_nat (get_ringbuf_index rbs) := rb]> rbs)), L2, (b - PGSIZE), rb. split_and!.
  - unfold create_ringbuf. fold rb0.
    mstep (vm_done (find_contiguous_pages root 34) (RState s rbs) _ _ E0). cbn [fst snd negb Z.eqb].
    rewrite Hu. mstep (vm_done _ (RState s rbs) _ _ E1). cbn [fst snd negb Z.eqb].
    mstep (vm_done _ (RState s1 rbs) _ _ V1). cbn [negb Z.eqb]. rewrite Hub.
    mstep (vm_done _ (RState s1 rbs) _ _ E2). cbn [fst snd negb Z.eqb].
    mstep (vm_done _ (RState s2 rbs) _ _ V2). cbn [negb Z.eqb].
    mstep (vm_done _ (RState s2 rbs) _ _ E3). done.
  - apply (opened_intro root addr (RState s rbs) L (b - PGSIZE) rb s2 L2 s3
                _ (<[Z.to_nat (get_ringbuf_index rbs) := rb]> rbs)); try done.
    by destruct Hpg.
  - done.
  - intros p Hpin x Hx. cbn [km]. rewrite Hm. rewrite (user_write_page (mem s2) root _ _ p).
    + by apply (Hz p).
    + apply (rg_owned _ _ _ _ Hpg p Hpin).
    + change (Z.of_nat (length (bytes64 (b - PGSIZE)))) with 8. intros a Haa. rewrite Htr by done.
      destruct Hr as (_ & _ & Hr). destruct (Hr a Haa) as [[Hr1 _] Hr3 _].
      split; [done|]. intros Hpa. apply Hr3. rewrite Hpa. by apply Hfrom.
    + done.
  - done.
  - unfold rb. cbn. lia.
  - done.
  - done.
Qed.
End RingbufSpec.
