(* ===== verification/RingbufClose.v ===== *)
(** * Joining and closing a ring buffer

    [append_ringbuf] maps the pages of an existing ring buffer into another
    process; [unmap_ringbuf] removes them from a process, and the last one to
    leave returns the seventeen pages to the allocator. *)

From S2P Require Import Prelude Mem CString Riscv Kalloc Vm PageTable VmSpec VmCopy.
From S2P Require Import RingbufK RingbufFind RingbufMap RingbufSpec.

Section RingbufClose.
Context `{KernelImage}.

(** ** append_ringbuf *)

(** [append_ringbuf] goes down two pages where [create_ringbuf] goes down one,
    so it needs the page below the 34 it searched for, unless the search had to
    start over below a mapped page. *)
Definition append_room (m : memory) (root : Z) : Prop :=
  translate m root (find_base - 34 * PGSIZE) = 0 \/
  exists k, 0 <= k < 34 /\ translate m root (find_base - k * PGSIZE) <> 0.

Lemma find_place_append m root b :
  append_room m root ->
  found_run m root 34 b ->
  ring_place m root (b - 2 * PGSIZE) /\ u64 (b - PGSIZE) = b - PGSIZE /\
  u64 (b - PGSIZE - PGSIZE) = b - 2 * PGSIZE.
Proof.
  intros Hroom (lo & (Hal & Hlo & Hhi) & Hfree & Htop & _).
  assert (Hu : find_base < 2 ^ 38) by apply find_base_range.
  pose proof (proj2 find_base_range) as Hfa.
  destruct Htop as [[-> Hlo']|(Hb & Hb' & _)].
  - split; [|rewrite !u64_small by (unfold KERNBASE, PGSIZE in *; lia); lia].
    split; [unfold PGSIZE in *; lia|by rewrite find_base_eq|unfold PGSIZE; lia|].
    intros k Hk. destruct (decide (k = 32)) as [->|].
    + replace (find_base - 2 * PGSIZE - 32 * PGSIZE) with (find_base - 34 * PGSIZE) by lia.
      destruct Hroom as [?|(j & Hj & Ht)]; [done|]. destruct Ht.
      replace (find_base - j * PGSIZE) with (lo + (33 - j) * PGSIZE) by lia. apply Hfree. lia.
    + replace (find_base - 2 * PGSIZE - k * PGSIZE) with (lo + (31 - k) * PGSIZE) by lia.
      apply Hfree. lia.
  - split; [|rewrite !u64_small by (unfold KERNBASE, PGSIZE in *; lia); lia].
    subst b. split; [unfold PGSIZE in *; lia|unfold PGSIZE in *; lia|unfold PGSIZE in *; lia|].
    intros k Hk. replace (lo + 34 * PGSIZE - 2 * PGSIZE - k * PGSIZE) with (lo + (32 - k) * PGSIZE) by lia.
    apply Hfree. lia.
Qed.

Lemma append_map root rb base s L :
  vm_inv s root L -> high_user (mem s) root -> ring_place (mem s) root base ->
  0 < refcount rb -> ring_pages root s L rb -> (66 <= length L)%nat ->
  exists s1 s2 L2,
    mappages_to_proc root rb base (2 * RINGBUF_SIZE) s = Done (0, rb) s1 /\
    mappage_to_book root rb (base - 32 * PGSIZE) s1 = Done (0, rb) s2 /\
    vm_evolve root s L s2 L2 /\ ring_view (mem s) (mem s2) root base rb /\
    ring_pages root s2 L2 rb.
Proof.
  intros Hi Hh Hp Hrc Hpg HL. pose proof (ring_place_bounds _ _ _ Hp) as (Hlo & Hhi & _ & _).
  pose proof (rp_aligned _ _ _ Hp) as Hal.
  destruct (room_app _ _ _ 0 32 1 ltac:(lia) ltac:(lia) (ring_place_room _ _ _ Hh Hp)) as [Hr1 Hr2].
  destruct (mappages_to_proc_again root rb base s L) as (s1 & L1 & E1 & Hev1 & Hl1 & Hm1);
    [done..| |done|lia|].
  { intros j Hj. by apply ring_pages_buf. }
  assert (Hlo' : 0 <= base - (0 + 32 + 1) * PGSIZE).
  { pose proof (rp_low _ _ _ Hp). unfold KERNBASE, PGSIZE in *. lia. }
  pose proof (room_evolve _ _ _ _ _ 0 32 1 Hal ltac:(lia) ltac:(lia) Hhi Hlo' Hm1 Hr2) as Hr2'.
  pose proof (ring_pages_evolve _ _ _ _ _ _ Hev1 Hpg) as Hpg1.
  destruct (mappage_to_book_again root rb (base - 32 * PGSIZE) s1 L1) as (s2 & L2 & E2 & Hev2 & Hm2);
    [apply Hev1|unfold PGSIZE in *; lia|unfold PGSIZE in *; lia|done|by apply ring_pages_book|
     apply Hr2'; lia|lia|].
  exists s1, s2, L2. split_and!; [done|done|by apply vm_evolve_trans with s1 L1| |].
  - by apply ring_view_intro with (mem s1).
  - by apply (ring_pages_evolve _ _ _ _ _ _ Hev2).
Qed.

Lemma append_ringbuf_done root name addr r L i rb :
  vm_inv (km r) root L -> high_user (mem (km r)) root -> has_run (mem (km r)) root ->
  append_room (mem (km r)) root -> find_ringbuf (ringbufs r) name = Some i ->
  ringbufs r !! i = Some rb -> 0 < refcount rb < 2 ^ 31 - 1 -> ring_pages root (km r) L rb ->
  (66 <= length L)%nat -> user_range root (km r) L addr 8 -> addr mod 8 = 0 ->
  exists r' L' base, append_ringbuf root name addr r = Done 0 r' /\
    opened root addr r L base rb r' L' /\
    ringbufs r' = <[i := set_refcount (refcount rb + 1) rb]> (ringbufs r).
Proof.
  intros Hi Hh Hrun Hroom Hfind Hrb Hrc Hpg HL Hr Ha. destruct r as [s rbs]; cbn [km ringbufs] in *.
  destruct (find_run root s (vm_wf _ _ _ Hi) Hrun) as (b & E0 & Hb).
  destruct (find_place_append _ _ _ Hroom Hb) as (Hp & Hu & Hu').
  pose proof (ring_place_bounds _ _ _ Hp) as (_ & _ & _ & Hub).
  destruct (append_map root rb (b - 2 * PGSIZE) s L) as (s1 & s2 & L2 & E1 & E2 & Hev & Hv & Hpg2);
    [done..|lia|done|done|].
  destruct (user_range_ring _ _ _ _ _ _ _ _ _ Hev Hp Hv Hr) as [Hr2 Htr].
  destruct (copyout_user_addr_done root (b - 2 * PGSIZE) addr s2 L2 (ve_inv _ _ _ _ _ Hev) Hr2)
    as (s3 & E3 & Hd & Hm).
  set (rb' := set_refcount (s32 (refcount rb + 1)) rb).
  exists (RState s3 (<[i := rb']> rbs)), L2, (b - 2 * PGSIZE). split_and!.
  - unfold append_ringbuf. rewrite bind_gets. cbn [ringbufs]. rewrite Hfind, bind_gets. cbn [ringbufs].
    rewrite Hrb. cbn [default].
    mstep (vm_done (find_contiguous_pages root 34) (RState s rbs) _ _ E0). cbn [fst snd negb Z.eqb].
    rewrite Hu, Hu'. mstep (vm_done _ (RState s rbs) _ _ E1). rewrite bind_put_rb.
    cbn [fst snd negb Z.eqb km ringbufs].
    rewrite (list_insert_id rbs i rb Hrb), Hub.
    mstep (vm_done _ (RState s1 rbs) _ _ E2). rewrite bind_put_rb.
    cbn [fst snd negb Z.eqb km ringbufs]. rewrite (list_insert_id rbs i rb Hrb).
    mstep (vm_done _ (RState s2 rbs) _ _ E3). done.
  - by apply (opened_intro root addr (RState s rbs) L (b - 2 * PGSIZE) rb s2 L2 s3 _ (<[i := rb']> rbs)).
  - cbn [ringbufs]. unfold rb'. by rewrite s32_small by lia.
Qed.

(** ** Freeing a list of pages *)

Lemma forM_fmap {S A B} (g : A -> B) (l : list A) (f : B -> M S unit) s :
  forM_ (g <$> l) f s = forM_ l (fun x => f (g x)) s.
Proof.
  revert s. induction l as [|x l IH]; intros s; [done|]. cbn [fmap list_fmap forM_].
  unfold mbind, M_bind. destruct (f (g x) s); [apply IH|done..].
Qed.

Lemma rbuf_seq rb : length (rbuf rb) = Z.to_nat RINGBUF_SIZE -> buf_at rb <$> seqZ 0 RINGBUF_SIZE = rbuf rb.
Proof.
  intros Hl. apply list_eq. intros i. rewrite list_lookup_fmap.
  destruct (decide (i < Z.to_nat RINGBUF_SIZE)%nat) as [Hi|Hi].
  - rewrite lookup_seqZ_lt by lia. cbn. unfold buf_at. rewrite Z.add_0_l, Nat2Z.id.
    destruct (lookup_lt_is_Some_2 (rbuf rb) i) as [x Hx]; [lia|]. by rewrite (nth_lookup_Some _ _ _ _ Hx).
  - rewrite lookup_seqZ_ge by lia. cbn. symmetry. apply lookup_ge_None_2. lia.
Qed.

Lemma kfree_list ps root s L :
  vm_inv s root L -> NoDup ps -> (forall p, p ∈ ps -> owned root s L p) ->
  exists s', forM_ ps kfree s = Done tt s' /\ released root s L ps s' /\
    (forall va, leaf (mem s') root va = leaf (mem s) root va).
Proof.
  revert s L. induction ps as [|p ps IH]; intros s L Hi Hnd Ho.
  - exists s. split; [done|]. split; [|done]. split; [done|done|]. intros. apply mem_eq_on_refl.
  - apply list.NoDup_cons in Hnd as [Hp Hnd].
    destruct (Ho p) as [Hv Hn Ht]; [apply elem_of_cons; by left|].
    destruct (kfree_vm root s L p Hi Hv Hn Ht) as (s1 & E1 & Hi1 & Hf1 & Ht1 & _ & Hl1).
    destruct (IH s1 (p :: L) Hi1 Hnd) as (s2 & E2 & [Hr1 Hr2 Hr3] & Hl2).
    { intros q Hq. destruct (Ho q) as [Hqv Hqn Hqt]; [apply elem_of_cons; by right|].
      split; [done| |by rewrite Ht1]. intros [->|?]%elem_of_cons; done. }
    exists s2. split_and!.
    + cbn [forM_]. by mstep E1.
    + split.
      * by rewrite reverse_cons, <-app_assoc.
      * intros t. by rewrite Hr2, Ht1.
      * intros q Hq Hqt [Hqp Hqps]%not_elem_of_cons. apply mem_eq_on_trans with (mem s1).
        -- apply mem_eq_on_sub with (outside p); [done|]. intros a Ha Hpa. apply Hqp.
           by apply (pages_disjoint q p a); [|apply Hv|..].
        -- apply Hr3; [done|by rewrite Ht1|done].
    + intros va. by rewrite Hl2, Hl1.
Qed.

Lemma unmap_ringbuf_pmem_done root s L rb :
  vm_inv s root L -> ring_pages root s L rb ->
  exists s', unmap_ringbuf_pmem rb s =
      Done (set_rname (strncpy (arr []) (Z.to_nat RINGBUF_NAME_LEN)) rb) s' /\
    released root s L (book rb :: rbuf rb) s' /\
    (forall va, leaf (mem s') root va = leaf (mem s) root va).
Proof.
  intros Hi [Hl Hnd Ho]. destruct (kfree_list (book rb :: rbuf rb) root s L Hi Hnd Ho) as (s' & E & Hs').
  exists s'. split; [|done]. unfold unmap_ringbuf_pmem. cbn [book set_rname].
  cbn [forM_] in E. rewrite <-(rbuf_seq rb Hl) in E. unfold mbind, M_bind in *.
  destruct (kfree (book rb) s) as [[] s1| |]; [|done..]. rewrite forM_fmap in E.
  change (forM_ (seqZ 0 RINGBUF_SIZE) (fun i => kfree (buf_at rb i)) s1 = Done tt s') in E.
  change (fun i => kfree (buf_at (set_rname (strncpy (arr []) (Z.to_nat RINGBUF_NAME_LEN)) rb) i))
    with (fun i => kfree (buf_at rb i)).
  by rewrite E.
Qed.

(** ** unmap_ringbuf *)

(** The 33 leaves of the ring at [base] are gone, the others as before. *)
Definition ring_gone (m m' : memory) (root base : Z) : Prop :=
  forall va, 0 <= va < MAXVA ->
    leaf m' root va =
      if decide (0 <= base / PGSIZE - va / PGSIZE <= 32) then 0 else leaf m root va.

Lemma map_pte_unmappable p : valid_page p -> unmappable (map_pte p PTE_RWXU).
Proof.
  intros [Hp Hal]%valid_page_pa. split; [apply map_pte_V|].
  by rewrite map_pte_flags by (done || apply flags_RWXU).
Qed.

Lemma unmap_ring_leaves root base rb s L :
  vm_inv s root L -> ring_at (mem s) root base rb -> ring_pages root s L rb ->
  base mod PGSIZE = 0 -> 0 <= base - 32 * PGSIZE -> base < MAXVA ->
  exists s1 s2, uvmunmap root (base - 31 * PGSIZE) 32 false s = Done tt s1 /\
    uvmunmap root (base - 32 * PGSIZE) 1 false s1 = Done tt s2 /\
    vm_evolve root s L s2 L /\ ring_gone (mem s) (mem s2) root base.
Proof.
  intros Hi [Hat Hbk] Hpg Hal Hlo Hhi.
  destruct (uvmunmap_keep root (base - 31 * PGSIZE) 32 s L) as (s1 & E1 & Hev1 & Hu1);
    [done|unfold PGSIZE in *; lia|unfold PGSIZE in *; lia|lia|change MAXVA with (2 ^ 38) in *; unfold PGSIZE in *; lia| |].
  { intros k Hk. replace (base - 31 * PGSIZE + k * PGSIZE) with (base - (31 - k) * PGSIZE) by lia.
    rewrite Hat by lia. apply map_pte_unmappable. apply (owned_valid root s L).
    apply ring_pages_buf; [done|]. unfold RINGBUF_SIZE. lia. }
  destruct (uvmunmap_keep root (base - 32 * PGSIZE) 1 s1 L) as (s2 & E2 & Hev2 & Hu2);
    [apply Hev1|unfold PGSIZE in *; lia|lia|lia|unfold PGSIZE in *; lia| |].
  { intros k Hk. replace (base - 32 * PGSIZE + k * PGSIZE) with (base - 32 * PGSIZE) by lia.
    rewrite Hu1 by (change MAXVA with (2 ^ 38) in *; unfold PGSIZE in *; lia). rewrite decide_False by (unfold PGSIZE in *; lia).
    rewrite Hbk. apply map_pte_unmappable. apply (owned_valid root s L). by apply ring_pages_book. }
  exists s1, s2. split_and!; [done|done|by apply vm_evolve_trans with s1 L|].
  intros va Hva. rewrite Hu2, Hu1 by (by apply below_MAXVA).
  assert (Hq : forall k, (base - k * PGSIZE) / PGSIZE = base / PGSIZE - k) by (intros; unfold PGSIZE in *; lia).
  rewrite !Hq. generalize (base / PGSIZE) (va / PGSIZE). clear. intros b v.
  destruct (decide (0 <= b - v <= 32)).
  - destruct (decide (0 <= v - (b - 32) < 1)); [done|]. by rewrite decide_True by lia.
  - rewrite decide_False by lia. by rewrite decide_False by lia.
Qed.

(** What closing does to the state. *)
Record closed (root : Z) (r : rstate) (L : list Z) (base : Z) (i : nat) (rb : ringbuf_t)
    (r' : rstate) : Prop := {
  cl_gone : ring_gone (mem (km r)) (mem (km r')) root base;
  cl_tables : forall t, is_table (mem (km r')) root t <-> is_table (mem (km r)) root t;
  cl_inv : vm_inv (km r') root (if refcount rb =? 1 then reverse (book rb :: rbuf rb) ++ L else L);
  cl_table : ringbufs r' =
    <[i := if refcount rb =? 1 then set_rname (strncpy (arr []) (Z.to_nat RINGBUF_NAME_LEN)) (set_refcount 0 rb)
           else set_refcount (refcount rb - 1) rb]> (ringbufs r);
  cl_frame : forall p, p mod PGSIZE = 0 -> ~ is_table (mem (km r)) root p -> p ∉ L ->
    refcount rb <> 1 \/ p ∉ book rb :: rbuf rb ->
    mem_eq_on (in_page p) (mem (km r)) (mem (km r'));
}.

Lemma evolve_same_tables root s L s' t :
  vm_inv s root L -> vm_evolve root s L s' L -> is_table (mem s') root t <-> is_table (mem s) root t.
Proof.
  intros Hi Hev. split; [|apply Hev]. intros Ht. destruct (ve_tables _ _ _ _ _ Hev t Ht) as [?|Hin]; [done|].
  by destruct (vm_notfree _ _ _ (ve_inv _ _ _ _ _ Hev) t Ht).
Qed.

Lemma unmap_ringbuf_done root name addr r L i rb base :
  vm_inv (km r) root L -> find_ringbuf (ringbufs r) name = Some i -> ringbufs r !! i = Some rb ->
  0 < refcount rb < 2 ^ 31 -> ring_pages root (km r) L rb -> ring_at (mem (km r)) root base rb ->
  base mod PGSIZE = 0 -> 0 <= base - 32 * PGSIZE -> base < MAXVA ->
  addr < MAXVA -> translate (mem (km r)) root addr <> 0 ->
  load64 (mem (km r)) (uaddr (mem (km r)) root addr) = base ->
  exists r', unmap_ringbuf root name addr r = Done 0 r' /\ closed root r L base i rb r'.
Proof.
  intros Hi Hfind Hrb Hrc Hpg Hat Hal Hlo Hhi Haddr Hta Hbase. destruct r as [s rbs]; cbn [km ringbufs] in *.
  destruct (unmap_ring_leaves root base rb s L Hi Hat Hpg Hal Hlo Hhi) as (s1 & s2 & E1 & E2 & Hev & Hgone).
  assert (Htb : translate (mem s) root base = buf_at rb 0).
  { apply (ring_translate _ _ base rb 0); [done|done|lia| |lia].
    intros j Hj. apply (owned_valid root s L). by apply ring_pages_buf. }
  pose proof (owned_nonzero _ _ _ _ (ring_pages_buf _ _ _ _ 0 Hpg ltac:(done))) as Hb0.
  set (rb1 := set_refcount (s32 (refcount rb - 1)) rb).
  assert (Hrun : unmap_ringbuf root name addr (RState s rbs) =
    (if refcount rb1 =? 0 then
       rb' ← vm (unmap_ringbuf_pmem rb1);
       put_rb i rb';; mret 0
     else mret 0) (RState s2 (<[i := rb1]> rbs))).
  { unfold unmap_ringbuf. rewrite bind_gets. cbn [ringbufs]. rewrite Hfind, bind_gets. cbn [ringbufs].
    rewrite Hrb. cbn [default]. rewrite bind_put_rb. cbn [km ringbufs]. fold rb1.
    set (rbs1 := <[i := rb1]> rbs).
    mstep (vm_done _ (RState s rbs1) _ _ (walkaddr_done root addr s (vm_wf _ _ _ Hi) Haddr)).
    destruct (Z.eqb_spec (translate (mem s) root addr) 0); [done|]. cbn [km ringbufs].
    change (translate (mem s) root addr + addr mod 4096) with (uaddr (mem s) root addr).
    assert (E0 : read64 (uaddr (mem s) root addr) s = Done base s) by (rewrite <-Hbase; done).
    mstep (vm_done _ (RState s rbs1) _ _ E0).
    mstep (vm_done _ (RState s rbs1) _ _ (validate_done root base s L _ Hi Hhi Htb Hb0)).
    cbn [negb Z.eqb ringbufs]. change ((2 * RINGBUF_SIZE - 1) * PGSIZE) with (31 * PGSIZE).
    rewrite (u64_small (base - 31 * PGSIZE)) by (change MAXVA with (2 ^ 38) in *; unfold PGSIZE in *; lia).
    rewrite (u64_small (base - 31 * PGSIZE - PGSIZE)) by (change MAXVA with (2 ^ 38) in *; unfold PGSIZE in *; lia).
    replace (base - 31 * PGSIZE - PGSIZE) with (base - 32 * PGSIZE) by lia.
    mstep (vm_done _ (RState s rbs1) _ _ E1). cbn [ringbufs].
    mstep (vm_done _ (RState s1 rbs1) _ _ E2). done. }
  assert (Hr1 : refcount rb1 = refcount rb - 1) by (unfold rb1; cbn; apply s32_small; lia).
  rewrite Hrun, Hr1.
  destruct (Z.eqb_spec (refcount rb - 1) 0) as [H1|H1].
  - destruct (unmap_ringbuf_pmem_done root s2 L rb1 (ve_inv _ _ _ _ _ Hev)) as (s3 & E3 & Hrel & Hl3).
    { apply (ring_pages_evolve _ _ _ _ _ _ Hev) in Hpg. by destruct Hpg. }
    eexists. split; [mstep (vm_done _ (RState s2 (<[i := rb1]> rbs)) _ _ E3); reflexivity|].
    assert (H1' : (refcount rb =? 1) = true) by lia.
    split; cbn [km ringbufs]; rewrite ?H1'.
    + intros va Hva. rewrite Hl3. by apply Hgone.
    + intros t. rewrite (rel_tables _ _ _ _ _ Hrel). by apply (evolve_same_tables root s L).
    + apply Hrel.
    + rewrite list_insert_insert_eq. f_equal. unfold rb1. rewrite H1. done.
    + intros p Hp Hnt HnL Hor. apply mem_eq_on_trans with (mem s2).
      * by apply (ve_frame _ _ _ _ _ Hev).
      * apply (rel_frame _ _ _ _ _ Hrel); [done| |destruct Hor; [lia|done]].
        by rewrite (evolve_same_tables root s L).
  - eexists. split; [reflexivity|].
    assert (H1' : (refcount rb =? 1) = false) by lia.
    split; cbn [km ringbufs]; rewrite ?H1'.
    + done.
    + intros t. by apply (evolve_same_tables root s L).
    + apply Hev.
    + f_equal. unfold rb1. by rewrite s32_small by lia.
    + intros p Hp Hnt HnL _. by apply (ve_frame _ _ _ _ _ Hev).
Qed.
End RingbufClose.
