(* ===== verification/Demo.v ===== *)
(** * A concrete machine

    A small kernel image and the memory of a machine that has just set up
    processes with one user page each: the states at which the theorems about
    virtual memory and ring buffers are exercised. *)

From S2P Require Import Prelude Mem CString Riscv Kalloc Vm PageTable VmSpec VmCopy.
From S2P Require Import RingbufK RingbufFind RingbufMap RingbufSpec.

#[export] Program Instance demo_image : KernelImage := {|
  kend := 0x80020000; etext := 0x80008000; trampoline := 0x80007000 |}.
Solve Obligations with (split; vm_compute; congruence) || done.

(** The page [i] of the free memory. *)
Definition dpage (i : Z) : Z := 0x80020000 + i * PGSIZE.

(** [n] free pages from page [i] on, linked. *)
Fixpoint chain (i : Z) (n : nat) : memory :=
  match n with
  | O => ∅
  | S n => store64 (chain (i + 1) n) (dpage i) (if decide (n = O) then 0 else dpage (i + 1))
  end.

Definition chain_pages (i : Z) (n : nat) : list Z := dpage <$> seqZ i (Z.of_nat n).

(** A page table at page [i] whose second virtual page is page [i + 3]. *)
Definition user_table (m : memory) (i : Z) : memory :=
  let m := store64 m (dpage i) (Z.lor (PA2PTE (dpage (i + 1))) PTE_V) in
  let m := store64 m (dpage (i + 1)) (Z.lor (PA2PTE (dpage (i + 2))) PTE_V) in
  store64 m (dpage (i + 2) + 8 * 1) (map_pte (dpage (i + 3)) PTE_RWXU).

Definition demo_mem (n : nat) : memory := user_table (user_table (chain 8 n) 0) 4.

(** Two processes, with page tables at pages 0 and 4, and [n] free pages. *)
Definition demo (n : nat) : kstate := KState (demo_mem n) (if decide (n = O) then 0 else dpage 8).
Definition root1 : Z := dpage 0.
Definition root2 : Z := dpage 4.

Lemma dpage_valid i : 0 <= i < 32736 -> valid_page (dpage i).
Proof. intros Hi. unfold valid_page, dpage, PHYSTOP, KERNBASE, PGSIZE, kend, demo_image. lia. Qed.

Lemma dpage_inj i j : dpage i = dpage j -> i = j.
Proof. unfold dpage, PGSIZE. lia. Qed.

Lemma in_dpage i j a : in_page (dpage i) a -> in_page (dpage j) a -> i = j.
Proof. unfold in_page, dpage, PGSIZE. lia. Qed.

(** ** The free list *)

Lemma chain_below i n a : a < dpage i -> mget (chain i n) a = 0.
Proof.
  revert i. induction n as [|n IH]; intros i Ha; [done|]. cbn [chain]. unfold store64.
  rewrite mget_store_le_out by lia. apply IH. unfold dpage, PGSIZE in *. lia.
Qed.

Lemma chain_pages_S i n : chain_pages i (S n) = dpage i :: chain_pages (i + 1) n.
Proof.
  unfold chain_pages. rewrite seqZ_cons by lia. cbn [fmap list_fmap]. do 3 f_equal; lia.
Qed.

Lemma elem_chain_pages i n p : p ∈ chain_pages i n -> exists j, i <= j < i + Z.of_nat n /\ p = dpage j.
Proof. intros (j & -> & Hj%elem_of_seqZ)%list_elem_of_fmap. by exists j. Qed.

Lemma length_chain_pages i n : length (chain_pages i n) = n.
Proof. unfold chain_pages. rewrite length_fmap, length_seqZ. lia. Qed.

Lemma chain_free i n :
  0 <= i -> i + Z.of_nat n <= 32736 ->
  free_list (chain i n) (if decide (n = O) then 0 else dpage i) (chain_pages i n).
Proof.
  revert i. induction n as [|n IH]; intros i Hi Hn; [done|]. rewrite chain_pages_S.
  rewrite decide_False by done. cbn [free_list chain]. split; [done|].
  rewrite load64_store64 by (case_decide; unfold dpage, PGSIZE; lia).
  apply free_list_frame with (chain (i + 1) n); [|apply IH; lia].
  intros p (j & Hj & ->)%elem_chain_pages. apply store64_frame. intros b Hb.
  unfold in_page, dpage, PGSIZE in *. lia.
Qed.

Lemma chain_nodup i n : NoDup (chain_pages i n).
Proof. apply NoDup_fmap_2; [|apply NoDup_seqZ]. intros x y. apply dpage_inj. Qed.

Lemma chain_valid i n : 0 <= i -> i + Z.of_nat n <= 32736 -> Forall valid_page (chain_pages i n).
Proof.
  intros Hi Hn. apply list.Forall_forall. intros p (j & Hj & ->)%elem_chain_pages.
  apply dpage_valid. lia.
Qed.

(** ** The page tables *)

Lemma load_zero m a : (forall b, a <= b < a + 8 -> mget m b = 0) -> load64 m a = 0.
Proof.
  intros Hz. rewrite <-(load64_ext m ∅); [done|]. intros b Hb. unfold in_range in Hb.
  symmetry. apply Hz. lia.
Qed.

Lemma root_table m root : (forall i, index i -> next_table m root i = None) ->
  forall p t, path_ok p -> table_at m root p = Some t -> p = [] /\ t = root.
Proof.
  intros Hz p t [_ Hp] E. destruct p as [|i p]; [by simplify_eq/=|].
  apply list.Forall_cons in Hp as [Hi _]. cbn in E. by rewrite Hz in E.
Qed.

Section UserTable.
Variables (m : memory) (i : Z).
Hypothesis Hi : 0 <= i < 1000.
Hypothesis Hzero : forall a, dpage i <= a < dpage (i + 4) -> mget m a = 0.

Let m1 := store64 m (dpage i) (Z.lor (PA2PTE (dpage (i + 1))) PTE_V).
Let m2 := store64 m1 (dpage (i + 1)) (Z.lor (PA2PTE (dpage (i + 2))) PTE_V).

Lemma user_table_frame a : a < dpage i \/ dpage (i + 3) <= a -> mget (user_table m i) a = mget m a.
Proof.
  clear Hi Hzero. intros Ha. unfold user_table, store64.
  rewrite !mget_store_le_out by (unfold dpage, PGSIZE in *; lia). done.
Qed.

Lemma zero_entry j k : 0 <= j < 4 -> index k -> load64 m (dpage (i + j) + 8 * k) = 0.
Proof.
  intros Hj Hk. apply load_zero. intros b Hb. apply Hzero. unfold index, dpage, PGSIZE in *. lia.
Qed.

Lemma pte_range j : 0 <= j < 4 -> 0 <= Z.lor (PA2PTE (dpage (i + j))) PTE_V < 2 ^ 64.
Proof. intros Hj. apply PTE_range; [unfold dpage, PGSIZE; lia|done]. Qed.

Lemma user_root : pt_wf m (dpage i) /\ (forall t, is_table m (dpage i) t <-> t = dpage i) /\
  forall va, leaf m (dpage i) va = 0.
Proof.
  assert (Hr : forall k, index k -> next_table m (dpage i) k = None).
  { intros k Hk. apply next_table_zero. replace i with (i + 0) by lia. by apply zero_entry. }
  split; [split|split].
  - intros p t Hp E. apply (root_table m _ Hr) in E as [-> ->]; [|done]. apply dpage_valid. lia.
  - intros p q t Hp Hq E E'. apply (root_table m _ Hr) in E as [-> ->]; [|done].
    apply (root_table m _ Hr) in E' as [-> _]; done.
  - intros t. split; [|intros ->; apply is_table_root]. intros (p & Hp & E).
    by apply (root_table m _ Hr) in E as [_ ->].
  - intros va. unfold leaf. destruct (table_at m (dpage i) (va_path va)) eqn:E; [|done].
    apply (root_table m _ Hr) in E as [? _]; [done|apply va_path_ok].
Qed.

Lemma user_level1 : pt_wf m1 (dpage i) /\
  (forall t, is_table m1 (dpage i) t <-> t = dpage i \/ t = dpage (i + 1)) /\
  (forall va, leaf m1 (dpage i) va = 0) /\ table_at m1 (dpage i) [0] = Some (dpage (i + 1)).
Proof.
  destruct user_root as (Hwf & Ht & Hl).
  assert (Hp0 : path_ok []) by (split; [cbn; lia|constructor]).
  assert (Hfr : forall a, ~ in_page (dpage (i + 1)) a -> ~ in_range (dpage i + 8 * 0) 8 a -> mget m1 a = mget m a).
  { intros a _ Ha. unfold m1, store64. apply mget_store_le_out. unfold in_range in Ha. lia. }
  assert (Hent : load64 m1 (dpage i + 8 * 0) = Z.lor (PA2PTE (dpage (i + 1))) PTE_V).
  { rewrite Z.add_0_r. unfold m1. apply load64_store64, pte_range. lia. }
  assert (Hz : forall j, index j -> load64 m1 (dpage (i + 1) + 8 * j) = 0).
  { intros j Hj. unfold m1. rewrite load64_store64_ne by (unfold index, dpage, PGSIZE in *; lia).
    by apply zero_entry. }
  assert (Hnone : next_table m (dpage i) 0 = None).
  { apply next_table_zero. replace i with (i + 0) by lia. by apply zero_entry. }
  assert (Hv : valid_page (dpage (i + 1))) by (apply dpage_valid; lia).
  assert (Hfresh : ~ is_table m (dpage i) (dpage (i + 1))).
  { rewrite Ht. intros ?%dpage_inj. lia. }
  split_and!.
  - apply (pt_wf_link m m1 (dpage i) [] 0 (dpage i) (dpage (i + 1))); done || (cbn; lia).
  - intros t. rewrite (is_table_link m m1 (dpage i) [] 0 (dpage i) (dpage (i + 1))) by (done || (cbn; lia)).
    by rewrite Ht.
  - intros va. rewrite (leaf_link m m1 (dpage i) [] 0 (dpage i) (dpage (i + 1))) by (done || (cbn; lia)).
    apply Hl.
  - change [0] with ([] ++ [0]) at 1. rewrite (table_at_link m m1 (dpage i) [] 0 (dpage i) (dpage (i + 1)));
      try done || (cbn; lia). split; [cbn; lia|repeat constructor; done].
Qed.

Lemma user_level2 : pt_wf m2 (dpage i) /\
  (forall t, is_table m2 (dpage i) t <-> (t = dpage i \/ t = dpage (i + 1)) \/ t = dpage (i + 2)) /\
  (forall va, leaf m2 (dpage i) va = 0) /\ table_at m2 (dpage i) [0; 0] = Some (dpage (i + 2)).
Proof.
  destruct user_level1 as (Hwf & Ht & Hl & Ht0).
  assert (Hp0 : path_ok [0]) by (split; [cbn; lia|repeat constructor; done]).
  assert (Hfr : forall a, ~ in_page (dpage (i + 2)) a -> ~ in_range (dpage (i + 1) + 8 * 0) 8 a -> mget m2 a = mget m1 a).
  { intros a _ Ha. unfold m2, store64. apply mget_store_le_out. unfold in_range in Ha. lia. }
  assert (Hent : load64 m2 (dpage (i + 1) + 8 * 0) = Z.lor (PA2PTE (dpage (i + 2))) PTE_V).
  { rewrite Z.add_0_r. unfold m2. apply load64_store64, pte_range. lia. }
  assert (Hz1 : forall j k, 1 <= j < 4 -> index k -> load64 m1 (dpage (i + j) + 8 * k) = 0).
  { intros j k Hj Hk. unfold m1. rewrite load64_store64_ne by (unfold index, dpage, PGSIZE in *; lia).
    apply zero_entry; [lia|done]. }
  assert (Hz : forall j, index j -> load64 m2 (dpage (i + 2) + 8 * j) = 0).
  { intros j Hj. unfold m2. rewrite load64_store64_ne by (unfold index, dpage, PGSIZE in *; lia).
    apply Hz1; [lia|done]. }
  assert (Hnone : next_table m1 (dpage (i + 1)) 0 = None).
  { apply next_table_zero. apply Hz1; [lia|done]. }
  assert (Hv : valid_page (dpage (i + 2))) by (apply dpage_valid; lia).
  assert (Hfresh : ~ is_table m1 (dpage i) (dpage (i + 2))).
  { rewrite Ht. intros [?%dpage_inj|?%dpage_inj]; lia. }
  split_and!.
  - apply (pt_wf_link m1 m2 (dpage i) [0] 0 (dpage (i + 1)) (dpage (i + 2))); done || (cbn; lia).
  - intros t. rewrite (is_table_link m1 m2 (dpage i) [0] 0 (dpage (i + 1)) (dpage (i + 2)))
      by (done || (cbn; lia)). by rewrite Ht.
  - intros va. rewrite (leaf_link m1 m2 (dpage i) [0] 0 (dpage (i + 1)) (dpage (i + 2)))
      by (done || (cbn; lia)). apply Hl.
  - change [0; 0] with ([0] ++ [0]) at 1.
    rewrite (table_at_link m1 m2 (dpage i) [0] 0 (dpage (i + 1)) (dpage (i + 2)));
      try done || (cbn; lia). split; [cbn; lia|repeat constructor; done].
Qed.

Lemma user_table_spec : pt_wf (user_table m i) (dpage i) /\
  (forall t, is_table (user_table m i) (dpage i) t <->
     (t = dpage i \/ t = dpage (i + 1)) \/ t = dpage (i + 2)) /\
  (forall va, 0 <= va < MAXVA -> leaf (user_table m i) (dpage i) va =
     if decide (va / PGSIZE = 1) then map_pte (dpage (i + 3)) PTE_RWXU else 0).
Proof.
  destruct user_level2 as (Hwf & Ht & Hl & Ht0).
  assert (Hpath : table_at m2 (dpage i) (va_path PGSIZE) = Some (dpage (i + 2))) by exact Ht0.
  assert (Hpx : PX 0 PGSIZE = 1) by done.
  assert (Hm : user_table m i = store64 m2 (dpage (i + 2) + 8 * PX 0 PGSIZE) (map_pte (dpage (i + 3)) PTE_RWXU)) by done.
  assert (Hr : 0 <= map_pte (dpage (i + 3)) PTE_RWXU < 2 ^ 64).
  { apply map_pte_range; [unfold dpage, PGSIZE; lia|apply flags_RWXU]. }
  rewrite Hm. split_and!.
  - by apply pt_wf_store_leaf.
  - intros t. rewrite is_table_store_leaf by done. apply Ht.
  - intros va Hva. destruct (decide (va / PGSIZE = 1)) as [E|E].
    + rewrite (leaf_page _ _ va PGSIZE) by done. by apply leaf_store_leaf_eq.
    + rewrite leaf_store_leaf_ne; [apply Hl|done|done|done|done|done].
Qed.
End UserTable.

(** ** The two processes *)

Record demo_process (n : nat) (i : Z) : Prop := {
  dp_wf : pt_wf (demo_mem n) (dpage i);
  dp_table : forall t, is_table (demo_mem n) (dpage i) t <->
    (t = dpage i \/ t = dpage (i + 1)) \/ t = dpage (i + 2);
  dp_leaf : forall va, 0 <= va < MAXVA -> leaf (demo_mem n) (dpage i) va =
    if decide (va / PGSIZE = 1) then map_pte (dpage (i + 3)) PTE_RWXU else 0;
}.

Lemma demo_process_2 n : demo_process n 4.
Proof.
  destruct (user_table_spec (user_table (chain 8 n) 0) 4) as (H1 & H2 & H3); [lia| |by split].
  intros a Ha. rewrite user_table_frame by (unfold dpage, PGSIZE in *; lia).
  apply chain_below. unfold dpage, PGSIZE in *. lia.
Qed.

Lemma demo_process_1 n : demo_process n 0.
Proof.
  destruct (user_table_spec (chain 8 n) 0) as (H1 & H2 & H3); [lia| |].
  { intros a Ha. apply chain_below. unfold dpage, PGSIZE in *. lia. }
  assert (Hf : forall t, is_table (user_table (chain 8 n) 0) (dpage 0) t ->
    mem_eq_on (in_page t) (user_table (chain 8 n) 0) (demo_mem n)).
  { intros t Ht a Ha. unfold demo_mem. apply user_table_frame. apply H2 in Ht.
    unfold in_page, dpage, PGSIZE in *. lia. }
  split.
  - by apply pt_wf_frame with (user_table (chain 8 n) 0).
  - intros t. rewrite <-H2. by apply is_table_frame.
  - intros va Hva. rewrite <-H3 by done. by apply leaf_frame.
Qed.

Lemma demo_kinv n : (n <= 1000)%nat -> kinv (demo n) (chain_pages 8 n).
Proof.
  intros Hn. apply kinv_frame with (KState (chain 8 n) (freelist (demo n))); [done| |].
  - intros p (j & Hj & ->)%elem_chain_pages a Ha. cbn [mem demo]. unfold demo_mem.
    rewrite !user_table_frame by (unfold in_page, dpage, PGSIZE in *; lia). done.
  - split; [apply chain_free; lia|apply chain_nodup|apply chain_valid; lia].
Qed.

Lemma demo_inv n i : (n <= 1000)%nat -> 0 <= i < 5 -> demo_process n i -> vm_inv (demo n) (dpage i) (chain_pages 8 n).
Proof.
  intros Hn Hi [H1 H2 H3]. split; [by apply demo_kinv|done|].
  intros t Ht (j & Hj & ->)%elem_chain_pages. apply H2 in Ht as [[?%dpage_inj|?%dpage_inj]|?%dpage_inj]; lia.
Qed.

Lemma demo_inv_1 n : (n <= 1000)%nat -> vm_inv (demo n) root1 (chain_pages 8 n).
Proof. intros. apply demo_inv; [done|lia|apply demo_process_1]. Qed.

Lemma demo_inv_2 n : (n <= 1000)%nat -> vm_inv (demo n) root2 (chain_pages 8 n).
Proof. intros. apply demo_inv; [done|lia|apply demo_process_2]. Qed.

Lemma demo_translate n i va :
  demo_process n i -> 0 <= i < 5 -> 0 <= va < MAXVA ->
  translate (demo_mem n) (dpage i) va = if decide (va / PGSIZE = 1) then dpage (i + 3) else 0.
Proof.
  intros [_ _ H3] Hi Hva. unfold translate. rewrite H3 by done. case_decide; [|done].
  rewrite map_pte_V, map_pte_U by done. apply map_pte_pa; [|unfold dpage, PGSIZE; lia|apply flags_RWXU].
  unfold dpage, PGSIZE. lia.
Qed.

Lemma demo_high n i : demo_process n i -> 0 <= i < 5 -> high_user (demo_mem n) (dpage i).
Proof.
  intros Hp Hi va Hva _. pose proof find_base_range. unfold KERNBASE in *.
  rewrite (dp_leaf _ _ Hp) by (change MAXVA with (2 ^ 38); lia).
  rewrite decide_False by (unfold PGSIZE; lia). done.
Qed.

Lemma demo_run n i : demo_process n i -> 0 <= i < 5 -> has_run (demo_mem n) (dpage i).
Proof.
  intros Hp Hi. exists (find_base - 33 * PGSIZE). split.
  - split; [done|]. split; [done|]. lia.
  - intros k Hk. rewrite find_base_eq. change MAXVA with (2 ^ 38).
    rewrite (demo_translate _ _ _ Hp) by (try change MAXVA with (2 ^ 38); unfold PGSIZE; lia).
    by rewrite decide_False by (unfold PGSIZE; lia).
Qed.

Lemma demo_user n i :
  (n <= 1000)%nat -> demo_process n i -> i = 0 \/ i = 4 ->
  user_range (dpage i) (demo n) (chain_pages 8 n) PGSIZE PGSIZE.
Proof.
  intros Hn Hp Hi. split; [done|]. split; [done|]. intros a Ha. cbn [demo mem].
  rewrite (demo_translate _ _ _ Hp) by (change MAXVA with (2 ^ 38); unfold PGSIZE in *; lia).
  rewrite decide_True by (unfold PGSIZE in *; lia). split.
  - apply dpage_valid. lia.
  - intros (j & Hj & ?%dpage_inj)%elem_chain_pages. lia.
  - cbn. rewrite (dp_table _ _ Hp). intros [[?%dpage_inj|?%dpage_inj]|?%dpage_inj]; lia.
Qed.

Lemma user_range_sub root s L va len va' len' :
  user_range root s L va len -> va <= va' -> va' + len' <= va + len -> user_range root s L va' len'.
Proof.
  intros (H1 & H2 & H3) Ha Hb. split; [lia|]. split; [lia|]. intros a ?. apply H3. lia.
Qed.

(** Where the processes keep the address of the ring. *)
Lemma demo_addr_1 n : (n <= 1000)%nat -> user_range root1 (demo n) (chain_pages 8 n) PGSIZE 8.
Proof.
  intros Hn. apply user_range_sub with PGSIZE PGSIZE; [|unfold PGSIZE; lia..].
  apply (demo_user n 0); [done|apply demo_process_1|by left].
Qed.

#[global] Opaque demo_mem.

(** The state of the ring-buffer system call after boot: no ring buffers. *)
Definition empty_ringbuf : ringbuf_t :=
  Ringbuf 0 (replicate (Z.to_nat RINGBUF_NAME_LEN) 0) (replicate (Z.to_nat RINGBUF_SIZE) 0) 0.
Definition no_ringbufs : list ringbuf_t := replicate (Z.to_nat MAX_RINGBUFS) empty_ringbuf.
Definition demo_r (n : nat) : rstate := RState (demo n) no_ringbufs.

Lemma demo_leaf_1 n va :
  0 <= va < MAXVA -> leaf (mem (km (demo_r n))) root1 va =
    if decide (va / PGSIZE = 1) then map_pte (dpage 3) PTE_RWXU else 0.
Proof. intros Hva. apply (dp_leaf _ _ (demo_process_1 n) va Hva). Qed.
