(* ===== verification/RingbufProps.v ===== *)
(** * What the ring-buffer system call guarantees

    The theorems about [kernel/ringbuf.c] a client relies on: the double
    mapping of a new ring buffer, sharing between processes, the round trip of
    opening and closing, and the behaviour in the cases the code does not
    handle. *)

From S2P Require Import Prelude Mem CString Riscv Kalloc Vm PageTable VmSpec VmCopy.
From S2P Require Import RingbufK RingbufFind RingbufMap RingbufSpec RingbufClose Demo.

Section Client.
Context `{KernelImage}.

Definition RINGBUF_BYTES : Z := RINGBUF_SIZE * PGSIZE.

(** The lowest address of the ring whose highest page is at [base]. *)
Definition ring_lo (base : Z) : Z := base - 31 * PGSIZE.

Lemma ring_uaddr m root base rb off :
  ring_at m root base rb -> base mod PGSIZE = 0 ->
  (forall j, 0 <= j < RINGBUF_SIZE -> valid_page (buf_at rb j)) ->
  0 <= off < 2 * RINGBUF_BYTES ->
  uaddr m root (ring_lo base + off) =
    buf_at rb ((31 - off / PGSIZE) mod RINGBUF_SIZE) + off mod PGSIZE.
Proof.
  intros Hat Hal Hv Hoff. unfold uaddr, ring_lo, RINGBUF_BYTES, RINGBUF_SIZE in *.
  rewrite (ring_translate m root base rb (31 - off / PGSIZE)); [|done|done|unfold PGSIZE in *; lia|done|].
  - f_equal. unfold PGSIZE in *. lia.
  - unfold PGSIZE in *. lia.
Qed.

(** Both copies of the ring are the same memory. *)
Lemma ring_double m root base rb off :
  ring_at m root base rb -> base mod PGSIZE = 0 ->
  (forall j, 0 <= j < RINGBUF_SIZE -> valid_page (buf_at rb j)) ->
  0 <= off < RINGBUF_BYTES ->
  uaddr m root (ring_lo base + off + RINGBUF_BYTES) = uaddr m root (ring_lo base + off).
Proof.
  intros Hat Hal Hv Hoff. rewrite <-Z.add_assoc.
  rewrite !(ring_uaddr m root base rb) by (done || lia).
  unfold RINGBUF_BYTES, RINGBUF_SIZE in *.
  replace ((off + 16 * PGSIZE) / PGSIZE) with (off / PGSIZE + 16) by (unfold PGSIZE; lia).
  replace ((off + 16 * PGSIZE) mod PGSIZE) with (off mod PGSIZE) by (unfold PGSIZE; lia).
  replace ((31 - (off / PGSIZE + 16)) mod 16) with ((31 - off / PGSIZE) mod 16) by lia. done.
Qed.

Lemma buf_at_inj rb i j :
  NoDup (rbuf rb) -> length (rbuf rb) = Z.to_nat RINGBUF_SIZE ->
  0 <= i < RINGBUF_SIZE -> 0 <= j < RINGBUF_SIZE -> buf_at rb i = buf_at rb j -> i = j.
Proof.
  intros Hnd Hl Hi Hj. unfold buf_at.
  destruct (lookup_lt_is_Some_2 (rbuf rb) (Z.to_nat i)) as [x Hx]; [lia|].
  destruct (lookup_lt_is_Some_2 (rbuf rb) (Z.to_nat j)) as [y Hy]; [lia|].
  rewrite (nth_lookup_Some _ _ _ _ Hx), (nth_lookup_Some _ _ _ _ Hy). intros ->.
  pose proof (NoDup_lookup _ _ _ _ Hnd Hx Hy). lia.
Qed.

(** Within one copy, different offsets are different bytes. *)
Lemma ring_injective m root base rb s L off off' :
  ring_at m root base rb -> base mod PGSIZE = 0 -> ring_pages root s L rb ->
  0 <= off < RINGBUF_BYTES -> 0 <= off' < RINGBUF_BYTES ->
  uaddr m root (ring_lo base + off) = uaddr m root (ring_lo base + off') -> off = off'.
Proof.
  intros Hat Hal Hpg Hoff Hoff' E.
  assert (Hv : forall j, 0 <= j < RINGBUF_SIZE -> valid_page (buf_at rb j)).
  { intros j Hj. apply (owned_valid root s L). by apply ring_pages_buf. }
  rewrite !(ring_uaddr m root base rb) in E by (done || lia).
  unfold RINGBUF_BYTES in *.
  assert (Hm : forall o, 0 <= (31 - o / PGSIZE) mod RINGBUF_SIZE < RINGBUF_SIZE) by (intros; unfold RINGBUF_SIZE; lia).
  assert (Ep : buf_at rb ((31 - off / PGSIZE) mod RINGBUF_SIZE) = buf_at rb ((31 - off' / PGSIZE) mod RINGBUF_SIZE)).
  { apply (pages_disjoint _ _ (buf_at rb ((31 - off / PGSIZE) mod RINGBUF_SIZE) + off mod PGSIZE));
      [by apply Hv|by apply Hv| |rewrite E]; unfold in_page, PGSIZE; lia. }
  pose proof (rg_nodup _ _ _ _ Hpg) as Hnd. apply list.NoDup_cons in Hnd as [_ Hnd].
  rewrite Ep in E. apply buf_at_inj in Ep; [|done|apply Hpg|apply Hm|apply Hm].
  unfold RINGBUF_SIZE, PGSIZE in *. lia.
Qed.

(** The ring as its client sees it: the address handed out, two copies of the
    same 64 KB, each byte at one place, the book page below them. *)
Record client_ring (m : memory) (root base : Z) (rb : ringbuf_t) : Prop := {
  cr_double : forall off, 0 <= off < RINGBUF_BYTES ->
    uaddr m root (ring_lo base + off + RINGBUF_BYTES) = uaddr m root (ring_lo base + off);
  cr_inj : forall off off', 0 <= off < RINGBUF_BYTES -> 0 <= off' < RINGBUF_BYTES ->
    uaddr m root (ring_lo base + off) = uaddr m root (ring_lo base + off') -> off = off';
  cr_book : forall off, 0 <= off < PGSIZE ->
    uaddr m root (ring_lo base - PGSIZE + off) = book rb + off;
  cr_apart : forall off off', 0 <= off < RINGBUF_BYTES -> 0 <= off' < PGSIZE ->
    uaddr m root (ring_lo base + off) <> uaddr m root (ring_lo base - PGSIZE + off');
}.

Lemma ring_book m root base rb off :
  ring_at m root base rb -> base mod PGSIZE = 0 -> valid_page (book rb) ->
  0 <= off < PGSIZE -> uaddr m root (ring_lo base - PGSIZE + off) = book rb + off.
Proof.
  intros Hat Hal Hv Hoff. unfold uaddr, ring_lo.
  rewrite (book_translate m root base rb); [|done|done|done|unfold PGSIZE in *; lia].
  f_equal. unfold PGSIZE in *. lia.
Qed.

Lemma client_ring_intro m root base rb s L :
  ring_at m root base rb -> base mod PGSIZE = 0 -> ring_pages root s L rb -> client_ring m root base rb.
Proof.
  intros Hat Hal Hpg.
  assert (Hv : forall j, 0 <= j < RINGBUF_SIZE -> valid_page (buf_at rb j)).
  { intros j Hj. apply (owned_valid root s L). by apply ring_pages_buf. }
  pose proof (owned_valid _ _ _ _ (ring_pages_book _ _ _ _ Hpg)) as Hbk.
  split.
  - intros off Hoff. by apply ring_double with rb.
  - intros off off' Hoff Hoff'. by apply ring_injective with rb s L.
  - intros off Hoff. by apply ring_book.
  - intros off off' Hoff Hoff'. rewrite (ring_book m root base rb off') by done.
    rewrite (ring_uaddr m root base rb) by (done || lia). intros E.
    set (j := (31 - off / PGSIZE) mod RINGBUF_SIZE) in *.
    assert (Hj : 0 <= j < RINGBUF_SIZE) by (unfold j, RINGBUF_SIZE; lia).
    assert (Ep : buf_at rb j = book rb).
    { apply (pages_disjoint _ _ (book rb + off')); [by apply Hv|apply Hbk|rewrite <-E|];
        unfold in_page, PGSIZE in *; lia. }
    pose proof (rg_nodup _ _ _ _ Hpg) as Hnd. apply list.NoDup_cons in Hnd as [Hnin _]. apply Hnin.
    rewrite <-Ep. apply buf_at_in; [apply Hpg|done].
Qed.

(** ** Opening a new ring buffer *)

Lemma opened_client root addr r L base rb r' L' :
  opened root addr r L base rb r' L' -> client_ring (mem (km r')) root base rb.
Proof.
  intros [Hi Hp Hv Hpg _ _ _ _]. pose proof (ring_place_bounds _ _ _ Hp) as (Hlo & Hhi & _ & _).
  pose proof (rp_aligned _ _ _ Hp) as Hal.
  apply client_ring_intro with (km r') L'; [|done|done].
  by apply ring_view_at with (mem (km r)).
Qed.

Lemma opened_translate root addr r L base rb r' L' va :
  opened root addr r L base rb r' L' -> 0 <= va < MAXVA -> translate (mem (km r)) root va <> 0 ->
  translate (mem (km r')) root va = translate (mem (km r)) root va.
Proof.
  intros Ho Hva Ht. unfold translate.
  by rewrite (ring_view_old _ _ _ _ _ _ (op_place _ _ _ _ _ _ _ _ Ho) (op_view _ _ _ _ _ _ _ _ Ho)).
Qed.

Lemma opened_addr root addr r L base rb r' L' :
  opened root addr r L base rb r' L' -> user_range root (km r) L addr 8 ->
  load64 (mem (km r')) (uaddr (mem (km r')) root addr) = base.
Proof.
  intros Ho (Ha & Hb & Hr). transitivity (load64 (mem (km r')) (uaddr (mem (km r)) root addr)); [|apply Ho].
  f_equal. unfold uaddr.
  rewrite (opened_translate _ _ _ _ _ _ _ _ _ Ho); [done|lia|].
  apply (owned_nonzero root (km r) L), Hr. lia.
Qed.

Lemma ring_zero m root base rb off :
  ring_at m root base rb -> base mod PGSIZE = 0 -> length (rbuf rb) = Z.to_nat RINGBUF_SIZE ->
  (forall j, 0 <= j < RINGBUF_SIZE -> valid_page (buf_at rb j)) -> all_zero m rb ->
  0 <= off < RINGBUF_BYTES -> mget m (uaddr m root (ring_lo base + off)) = 0.
Proof.
  intros Hat Hal Hl Hv Hz Hoff. rewrite (ring_uaddr m root base rb) by (done || lia).
  set (j := (31 - off / PGSIZE) mod RINGBUF_SIZE).
  apply (Hz (buf_at rb j)).
  - apply elem_of_cons. right. apply buf_at_in; [done|]. unfold j, RINGBUF_SIZE. lia.
  - unfold in_page, PGSIZE. lia.
Qed.

(** The caller's side of a successful open: where the ring is, and that the
    rest of its address space is untouched. *)
Record client_opened (root addr : Z) (r : rstate) (base : Z) (rb : ringbuf_t) (r' : rstate) : Prop := {
  co_addr : load64 (mem (km r')) (uaddr (mem (km r')) root addr) = base;
  co_ring : client_ring (mem (km r')) root base rb;
  co_rest : forall va, 0 <= va < MAXVA -> translate (mem (km r)) root va <> 0 ->
    translate (mem (km r')) root va = translate (mem (km r)) root va;
}.

Lemma opened_client_opened root addr r L base rb r' L' :
  opened root addr r L base rb r' L' -> user_range root (km r) L addr 8 ->
  client_opened root addr r base rb r'.
Proof.
  intros Ho Hr. split.
  - by apply opened_addr with r L rb L'.
  - by apply opened_client with addr r L L'.
  - intros va. by apply opened_translate with addr L base rb L'.
Qed.

Lemma ringbuf_open_new junk root name addr r r' :
  get_ringbuf_index (ringbufs r) < MAX_RINGBUFS -> name_too_long name = false ->
  find_ringbuf (ringbufs r) name = None -> create_ringbuf junk root name addr r = Done 0 r' ->
  ringbuf junk root name true addr r = Done 0 r'.
Proof.
  intros Hc Hn Hf E. unfold ringbuf. rewrite bind_gets.
  destruct (Z.leb_spec MAX_RINGBUFS (get_ringbuf_index (ringbufs r))); [lia|].
  rewrite Hn, bind_gets, Hf. by mstep E.
Qed.

(** C1: opening a ring buffer under a new name.  With 83 free pages, a run of
    34 unused virtual pages and a place to store the address, the system call
    returns 0 and stores an address from which the caller reaches 64 KB of
    zeroed memory twice in a row, different offsets of one copy being different
    bytes, with a zeroed book page just below; no address the caller could
    already use changes its translation, and the ring buffer is entered in the
    table under its name with one reference. *)
Theorem ringbuf_create junk root name addr r L :
  vm_inv (km r) root L -> high_user (mem (km r)) root -> has_run (mem (km r)) root ->
  length (rbuf junk) = Z.to_nat RINGBUF_SIZE -> (83 <= length L)%nat ->
  user_range root (km r) L addr 8 -> addr mod 8 = 0 ->
  get_ringbuf_index (ringbufs r) < MAX_RINGBUFS -> name_too_long name = false ->
  find_ringbuf (ringbufs r) name = None ->
  exists r' L' base rb,
    ringbuf junk root name true addr r = Done 0 r' /\
    client_opened root addr r base rb r' /\
    (forall off, 0 <= off < RINGBUF_BYTES ->
       mget (mem (km r')) (uaddr (mem (km r')) root (ring_lo base + off)) = 0) /\
    (forall off, 0 <= off < PGSIZE -> mget (mem (km r')) (book rb + off) = 0) /\
    rname rb = strncpy name (Z.to_nat RINGBUF_NAME_LEN) /\ refcount rb = 1 /\
    ringbufs r' = <[Z.to_nat (get_ringbuf_index (ringbufs r)) := rb]> (ringbufs r) /\
    vm_inv (km r') root L'.
Proof.
  intros Hi Hh Hrun Hlen HL Hr Ha Hc Hn Hf.
  destruct (create_ringbuf_done junk root name addr r L) as (r' & L' & base & rb & E & Ho & _ & Hz & Hnm & Hrc & Hrbs & _);
    [done..|].
  exists r', L', base, rb.
  pose proof (op_place _ _ _ _ _ _ _ _ Ho) as Hp. pose proof (op_pages _ _ _ _ _ _ _ _ Ho) as Hpg.
  pose proof (ring_place_bounds _ _ _ Hp) as (Hlo & Hhi & _ & _).
  split_and!; [by apply ringbuf_open_new|by apply opened_client_opened with L L'| | |done|done|done|apply Ho].
  - intros off Hoff. apply ring_zero with rb; [|apply Hp|apply Hpg| |done|done].
    + apply ring_view_at with (mem (km r)); [apply Hp|done|done|apply Ho].
    + intros j Hj. apply (owned_valid root (km r') L'). by apply ring_pages_buf.
  - intros off Hoff. apply (Hz (book rb)); [apply elem_of_cons; by left|]. unfold in_page. lia.
Qed.

(** ** Joining a ring buffer *)

(** Another process, with its page table at [root1], that the open by [root]
    does not disturb. *)
Record bystander (root1 root : Z) (s : kstate) (L : list Z) (addr : Z) : Prop := {
  by_wf : pt_wf (mem s) root1;
  by_apart : forall t, is_table (mem s) root1 t -> ~ is_table (mem s) root t /\ t ∉ L;
  by_addr : forall a t, addr <= a < addr + 8 -> is_table (mem s) root1 t -> translate (mem s) root a <> t;
}.

Lemma bystander_leaf root1 root addr r L base rb r' L' va :
  bystander root1 root (km r) L addr -> opened root addr r L base rb r' L' ->
  leaf (mem (km r')) root1 va = leaf (mem (km r)) root1 va.
Proof.
  intros [Hwf Hap Had] Ho. apply leaf_frame. intros t Ht. destruct (Hap t Ht) as [H1 H2].
  apply (op_frame _ _ _ _ _ _ _ _ Ho); [apply (is_table_valid _ _ _ Hwf Ht)|done|done|].
  intros a Ha. by apply Had.
Qed.

Lemma bystander_uaddr root1 root addr r L base rb r' L' va :
  bystander root1 root (km r) L addr -> opened root addr r L base rb r' L' ->
  uaddr (mem (km r')) root1 va = uaddr (mem (km r)) root1 va.
Proof.
  intros Hb Ho. unfold uaddr, translate. by rewrite (bystander_leaf _ _ _ _ _ _ _ _ _ _ Hb Ho).
Qed.

Lemma bystander_ring root1 root addr r L base rb r' L' base1 rb1 :
  bystander root1 root (km r) L addr -> opened root addr r L base rb r' L' ->
  ring_at (mem (km r)) root1 base1 rb1 -> ring_at (mem (km r')) root1 base1 rb1.
Proof.
  intros Hb Ho [H1 H2]. split.
  - intros k Hk. by rewrite (bystander_leaf _ _ _ _ _ _ _ _ _ _ Hb Ho), H1.
  - by rewrite (bystander_leaf _ _ _ _ _ _ _ _ _ _ Hb Ho), H2.
Qed.

(** Two processes that have the same ring buffer see the same bytes. *)
Lemma rings_agree m root root1 base base1 rb off :
  ring_at m root base rb -> ring_at m root1 base1 rb -> base mod PGSIZE = 0 -> base1 mod PGSIZE = 0 ->
  (forall j, 0 <= j < RINGBUF_SIZE -> valid_page (buf_at rb j)) -> valid_page (book rb) ->
  - PGSIZE <= off < 2 * RINGBUF_BYTES ->
  uaddr m root (ring_lo base + off) = uaddr m root1 (ring_lo base1 + off).
Proof.
  intros H1 H2 Ha1 Ha2 Hv Hb Hoff. destruct (decide (0 <= off)) as [H0|H0].
  - by rewrite !(ring_uaddr _ _ _ rb) by (done || lia).
  - replace (ring_lo base + off) with (ring_lo base - PGSIZE + (off + PGSIZE)) by lia.
    replace (ring_lo base1 + off) with (ring_lo base1 - PGSIZE + (off + PGSIZE)) by lia.
    by rewrite !(ring_book _ _ _ rb) by (done || lia).
Qed.

(** The page a ring address falls in. *)
Lemma ring_page m root base rb off :
  ring_at m root base rb -> base mod PGSIZE = 0 -> length (rbuf rb) = Z.to_nat RINGBUF_SIZE ->
  (forall j, 0 <= j < RINGBUF_SIZE -> valid_page (buf_at rb j)) -> valid_page (book rb) ->
  - PGSIZE <= off < 2 * RINGBUF_BYTES ->
  exists p, p ∈ book rb :: rbuf rb /\ in_page p (uaddr m root (ring_lo base + off)).
Proof.
  intros Hat Hal Hl Hv Hb Hoff. destruct (decide (0 <= off)) as [H0|H0].
  - rewrite (ring_uaddr m root base rb) by (done || lia).
    eexists. split; [apply elem_of_cons; right; apply buf_at_in; [done|]|].
    2:{ instantiate (1 := (31 - off / PGSIZE) mod RINGBUF_SIZE). unfold in_page, PGSIZE. lia. }
    unfold RINGBUF_SIZE. lia.
  - replace (ring_lo base + off) with (ring_lo base - PGSIZE + (off + PGSIZE)) by lia.
    rewrite (ring_book m root base rb) by (done || lia).
    exists (book rb). split; [apply elem_of_cons; by left|]. unfold in_page. lia.
Qed.

Lemma ring_byte_kept root root1 addr r L base rb r' L' base1 off :
  opened root addr r L base rb r' L' -> ring_at (mem (km r)) root1 base1 rb -> base1 mod PGSIZE = 0 ->
  ring_pages root (km r) L rb ->
  (forall a, addr <= a < addr + 8 -> translate (mem (km r)) root a ∉ book rb :: rbuf rb) ->
  - PGSIZE <= off < 2 * RINGBUF_BYTES ->
  mget (mem (km r')) (uaddr (mem (km r)) root1 (ring_lo base1 + off)) =
    mget (mem (km r)) (uaddr (mem (km r)) root1 (ring_lo base1 + off)).
Proof.
  intros Ho Hat Hal Hpg Hap Hoff.
  destruct (ring_page (mem (km r)) root1 base1 rb off) as (p & Hp & Hin); try done.
  - apply Hpg.
  - intros j Hj. apply (owned_valid root (km r) L). by apply ring_pages_buf.
  - apply (owned_valid _ _ _ _ (ring_pages_book _ _ _ _ Hpg)).
  - destruct (rg_owned _ _ _ _ Hpg p Hp) as [Hv Hn Ht].
    apply (op_frame _ _ _ _ _ _ _ _ Ho p); [apply Hv|done|done| |done].
    intros a Ha Heq. apply (Hap a Ha). by rewrite Heq.
Qed.

Lemma ringbuf_open_join junk root name addr r r' i :
  get_ringbuf_index (ringbufs r) < MAX_RINGBUFS -> name_too_long name = false ->
  find_ringbuf (ringbufs r) name = Some i -> append_ringbuf root name addr r = Done 0 r' ->
  ringbuf junk root name true addr r = Done 0 r'.
Proof.
  intros Hc Hn Hf E. unfold ringbuf. rewrite bind_gets.
  destruct (Z.leb_spec MAX_RINGBUFS (get_ringbuf_index (ringbufs r))); [lia|].
  rewrite Hn, bind_gets, Hf. by mstep E.
Qed.

Lemma ringbuf_close_run junk root name addr r r' :
  get_ringbuf_index (ringbufs r) < MAX_RINGBUFS -> name_too_long name = false ->
  unmap_ringbuf root name addr r = Done 0 r' ->
  ringbuf junk root name false addr r = Done 0 r'.
Proof.
  intros Hc Hn E. unfold ringbuf. rewrite bind_gets.
  destruct (Z.leb_spec MAX_RINGBUFS (get_ringbuf_index (ringbufs r))); [lia|].
  rewrite Hn, bind_gets. by mstep E.
Qed.

(** C2: opening a ring buffer that another process has open.  The caller gets
    its own 33 pages, at its own address; at every offset, of both copies and
    of the book page, the two processes reach the same physical byte, and the
    contents are what they were.  The reference count goes up by one. *)
Theorem ringbuf_join_shares junk root root1 base1 name addr r L i rb :
  vm_inv (km r) root L -> high_user (mem (km r)) root -> has_run (mem (km r)) root ->
  append_room (mem (km r)) root -> get_ringbuf_index (ringbufs r) < MAX_RINGBUFS ->
  name_too_long name = false -> find_ringbuf (ringbufs r) name = Some i ->
  ringbufs r !! i = Some rb -> 0 < refcount rb < 2 ^ 31 - 1 -> ring_pages root (km r) L rb ->
  (66 <= length L)%nat -> user_range root (km r) L addr 8 -> addr mod 8 = 0 ->
  bystander root1 root (km r) L addr -> ring_at (mem (km r)) root1 base1 rb -> base1 mod PGSIZE = 0 ->
  (forall a, addr <= a < addr + 8 -> translate (mem (km r)) root a ∉ book rb :: rbuf rb) ->
  exists r' L' base,
    ringbuf junk root name true addr r = Done 0 r' /\
    client_opened root addr r base rb r' /\
    (forall off, - PGSIZE <= off < 2 * RINGBUF_BYTES ->
       uaddr (mem (km r')) root (ring_lo base + off) = uaddr (mem (km r)) root1 (ring_lo base1 + off) /\
       uaddr (mem (km r')) root1 (ring_lo base1 + off) = uaddr (mem (km r)) root1 (ring_lo base1 + off) /\
       mget (mem (km r')) (uaddr (mem (km r')) root (ring_lo base + off)) =
         mget (mem (km r)) (uaddr (mem (km r)) root1 (ring_lo base1 + off))) /\
    ringbufs r' = <[i := set_refcount (refcount rb + 1) rb]> (ringbufs r) /\
    vm_inv (km r') root L'.
Proof.
  intros Hi Hh Hrun Hroom Hc Hn Hf Hrb Hrc Hpg HL Hr Ha Hby Hat1 Hal1 Hap.
  destruct (append_ringbuf_done root name addr r L i rb) as (r' & L' & base & E & Ho & Hrbs); [done..|].
  exists r', L', base.
  pose proof (op_place _ _ _ _ _ _ _ _ Ho) as Hp.
  pose proof (ring_place_bounds _ _ _ Hp) as (Hlo & Hhi & _ & _).
  split_and!; [by apply ringbuf_open_join with i|by apply opened_client_opened with L L'| |done|apply Ho].
  intros off Hoff.
  assert (Hat : ring_at (mem (km r')) root base rb).
  { apply ring_view_at with (mem (km r)); [apply Hp|done|done|apply Ho]. }
  assert (Hv : forall j, 0 <= j < RINGBUF_SIZE -> valid_page (buf_at rb j)).
  { intros j Hj. apply (owned_valid root (km r) L). by apply ring_pages_buf. }
  pose proof (owned_valid _ _ _ _ (ring_pages_book _ _ _ _ Hpg)) as Hbk.
  assert (Eq : uaddr (mem (km r')) root (ring_lo base + off) = uaddr (mem (km r)) root1 (ring_lo base1 + off)).
  { rewrite <-(bystander_uaddr _ _ _ _ _ _ _ _ _ _ Hby Ho).
    apply rings_agree with rb; try done; [|apply Hp].
    by apply (bystander_ring _ _ _ _ _ _ _ _ _ _ _ Hby Ho). }
  split_and!; [done|by apply (bystander_uaddr _ _ _ _ _ _ _ _ _ _ Hby Ho)|].
  rewrite Eq. apply (ring_byte_kept root root1 addr r L base rb r' L' base1 off); done.
Qed.

Lemma bystander_inv root1 root addr r L base rb r' L' :
  vm_inv (km r) root1 L -> bystander root1 root (km r) L addr -> opened root addr r L base rb r' L' ->
  vm_inv (km r') root1 L' /\
  (forall t, is_table (mem (km r')) root1 t <-> is_table (mem (km r)) root1 t).
Proof.
  intros Hi [Hwf Hap Had] Ho.
  assert (Hf : forall t, is_table (mem (km r)) root1 t -> mem_eq_on (in_page t) (mem (km r)) (mem (km r'))).
  { intros t Ht. destruct (Hap t Ht) as [H1 H2].
    apply (op_frame _ _ _ _ _ _ _ _ Ho); [apply (is_table_valid _ _ _ Hwf Ht)|done|done|].
    intros a Ha. by apply Had. }
  assert (Hiff : forall t, is_table (mem (km r')) root1 t <-> is_table (mem (km r)) root1 t).
  { intros t. by apply is_table_frame. }
  split; [|done]. split; [apply Ho|by apply pt_wf_frame with (mem (km r))|].
  intros t Ht%Hiff Hin. apply (Hap t Ht). destruct (op_free _ _ _ _ _ _ _ _ Ho) as [used ->].
  apply elem_of_app. by right.
Qed.
End Client.

Definition name_a : reader := arr [97].

Lemma ringbuf_create_witness :
  exists r' L' base rb,
    ringbuf empty_ringbuf root1 name_a true PGSIZE (demo_r 100) = Done 0 r' /\
    client_opened root1 PGSIZE (demo_r 100) base rb r' /\
    (forall off, 0 <= off < RINGBUF_BYTES ->
       mget (mem (km r')) (uaddr (mem (km r')) root1 (ring_lo base + off)) = 0) /\
    (forall off, 0 <= off < PGSIZE -> mget (mem (km r')) (book rb + off) = 0) /\
    rname rb = 97 :: replicate 15 0 /\ refcount rb = 1 /\
    ringbufs r' = <[O := rb]> no_ringbufs /\ vm_inv (km r') root1 L'.
Proof.
  apply (ringbuf_create empty_ringbuf root1 name_a PGSIZE (demo_r 100) (chain_pages 8 100)).
  - apply demo_inv_1. lia.
  - apply (demo_high 100 0); [apply demo_process_1|lia].
  - apply (demo_run 100 0); [apply demo_process_1|lia].
  - reflexivity.
  - rewrite length_chain_pages. lia.
  - apply demo_addr_1. lia.
  - reflexivity.
  - vm_compute. reflexivity.
  - vm_compute. reflexivity.
  - vm_compute. reflexivity.
Defined.

(** Process 1 of the concrete machine has opened a ring buffer; process 2 is
    ready to join. *)
Lemma demo_created :
  exists r L base rb,
    ringbuf empty_ringbuf root1 name_a true PGSIZE (demo_r 200) = Done 0 r /\
    opened root1 PGSIZE (demo_r 200) (chain_pages 8 200) base rb r L /\ (66 <= length L)%nat /\
    rname rb = 97 :: replicate 15 0 /\ refcount rb = 1 /\
    ringbufs r = <[O := rb]> no_ringbufs /\
    (forall p, p ∈ book rb :: rbuf rb -> p ∈ chain_pages 8 200).
Proof.
  destruct (create_ringbuf_done empty_ringbuf root1 name_a PGSIZE (demo_r 200) (chain_pages 8 200))
    as (r & L & base & rb & E & Ho & Hlen & _ & Hnm & Hrc & Hrbs & Hfrom).
  - apply demo_inv_1. lia.
  - apply (demo_high 200 0); [apply demo_process_1|lia].
  - apply (demo_run 200 0); [apply demo_process_1|lia].
  - reflexivity.
  - rewrite length_chain_pages. lia.
  - apply demo_addr_1. lia.
  - reflexivity.
  - rewrite length_chain_pages in Hlen. exists r, L, base, rb.
    split_and!; [|done|lia|exact Hnm|done|exact Hrbs|done].
    apply ringbuf_open_new; [vm_compute; reflexivity..|exact E].
Qed.

Lemma demo_bystander : bystander root2 root1 (demo 200) (chain_pages 8 200) PGSIZE.
Proof.
  split.
  - apply (dp_wf _ _ (demo_process_2 200)).
  - intros t Ht. split.
    + apply (dp_table _ _ (demo_process_2 200)) in Ht. change root1 with (dpage 0). cbn [mem demo].
      rewrite (dp_table _ _ (demo_process_1 200)). unfold dpage, PGSIZE in *. lia.
    + by apply (vm_notfree _ _ _ (demo_inv_2 200 ltac:(lia))).
  - intros a t Ha Ht. apply (dp_table _ _ (demo_process_2 200)) in Ht. cbn [mem demo].
    rewrite (demo_translate _ _ _ (demo_process_1 200)) by (change MAXVA with (2 ^ 38); unfold PGSIZE in *; lia).
    rewrite decide_True by (unfold PGSIZE in *; lia). unfold dpage, PGSIZE in *. lia.
Qed.

(** After process 1's open, process 2 meets the conditions for joining. *)
Lemma demo_join_ready r L base rb :
  opened root1 PGSIZE (demo_r 200) (chain_pages 8 200) base rb r L ->
  (forall p, p ∈ book rb :: rbuf rb -> p ∈ chain_pages 8 200) ->
  vm_inv (km r) root2 L /\ high_user (mem (km r)) root2 /\ has_run (mem (km r)) root2 /\
  append_room (mem (km r)) root2 /\ ring_pages root2 (km r) L rb /\
  user_range root2 (km r) L PGSIZE 8 /\ bystander root1 root2 (km r) L PGSIZE /\
  (forall a, PGSIZE <= a < PGSIZE + 8 -> translate (mem (km r)) root2 a = dpage 7).
Proof.
  intros Ho Hfrom. pose proof demo_bystander as Hby.
  destruct (bystander_inv _ _ _ (demo_r 200) _ _ _ _ _ (demo_inv_2 200 ltac:(lia)) Hby Ho) as [Hi2 Hiff].
  assert (Hleaf : forall va, leaf (mem (km r)) root2 va = leaf (demo_mem 200) root2 va).
  { intros va. apply (bystander_leaf _ _ _ (demo_r 200) _ _ _ _ _ va Hby Ho). }
  assert (Htr : forall va, translate (mem (km r)) root2 va = translate (demo_mem 200) root2 va).
  { intros va. unfold translate. by rewrite Hleaf. }
  assert (HL : forall p, p ∈ L -> p ∈ chain_pages 8 200).
  { intros p Hp. destruct (op_free _ _ _ _ _ _ _ _ Ho) as [used ->]. apply elem_of_app. by right. }
  assert (Htab : forall t, is_table (mem (km r)) root2 t -> t = dpage 4 \/ t = dpage 5 \/ t = dpage 6).
  { intros t Ht%Hiff. apply (dp_table _ _ (demo_process_2 200)) in Ht as [[?|?]|?]; auto. }
  assert (Hu : forall a, PGSIZE <= a < PGSIZE + 8 -> translate (mem (km r)) root2 a = dpage 7).
  { intros a Ha. rewrite Htr. change root2 with (dpage 4).
    rewrite (demo_translate _ _ _ (demo_process_2 200)) by (change MAXVA with (2 ^ 38); unfold PGSIZE in *; lia).
    by rewrite decide_True by (unfold PGSIZE in *; lia). }
  split_and!; [done| | | | | | |done].
  - intros va Hva. rewrite Htr, Hleaf. by apply (demo_high 200 4); [apply demo_process_2|lia|].
  - destruct (demo_run 200 4 (demo_process_2 200)) as (lo & Hlo & Hfr); [lia|].
    exists lo. split; [done|]. intros k Hk. rewrite Htr. by apply Hfr.
  - left. rewrite Htr. change root2 with (dpage 4). rewrite find_base_eq. change MAXVA with (2 ^ 38).
    rewrite (demo_translate _ _ _ (demo_process_2 200)) by (try change MAXVA with (2 ^ 38); unfold PGSIZE; lia).
    by rewrite decide_False by (unfold PGSIZE; lia).
  - destruct (op_pages _ _ _ _ _ _ _ _ Ho) as [H1 H2 H3]. split; [done|done|]. intros p Hp.
    destruct (H3 p Hp) as [Hv Hn _]. split; [done|done|]. intros Ht.
    apply Hfrom in Hp as (j & Hj & ->)%elem_chain_pages.
    apply Htab in Ht as [?%dpage_inj|[?%dpage_inj|?%dpage_inj]]; lia.
  - split; [done|]. split; [done|]. intros a Ha. rewrite Hu by done. split.
    + apply dpage_valid. lia.
    + intros (j & Hj & ?%dpage_inj)%HL%elem_chain_pages. lia.
    + intros [?%dpage_inj|[?%dpage_inj|?%dpage_inj]]%Htab; lia.
  - pose proof (op_inv _ _ _ _ _ _ _ _ Ho) as Hi1. split; [apply Hi1| |].
    + intros t Ht. split; [|by apply (vm_notfree _ _ _ Hi1)].
      intros Ht2%Htab. apply (op_tables _ _ _ _ _ _ _ _ Ho) in Ht as [Ht|(j & Hj & ->)%elem_chain_pages].
      * apply (dp_table _ _ (demo_process_1 200)) in Ht. unfold dpage, PGSIZE in *. lia.
      * unfold dpage, PGSIZE in *. lia.
    + intros a t Ha Ht. rewrite Hu by done.
      apply (op_tables _ _ _ _ _ _ _ _ Ho) in Ht as [Ht|(j & Hj & ->)%elem_chain_pages].
      * apply (dp_table _ _ (demo_process_1 200)) in Ht. unfold dpage, PGSIZE in *. lia.
      * unfold dpage, PGSIZE in *. lia.
Qed.

Lemma demo_table_a rb :
  rname rb = 97 :: replicate 15 0 ->
  get_ringbuf_index (<[O := rb]> no_ringbufs) = 1 /\ find_ringbuf (<[O := rb]> no_ringbufs) name_a = Some O.
Proof.
  intros Hnm. assert (E1 : name_is rb (arr []) = false) by (unfold name_is; rewrite Hnm; reflexivity).
  assert (E2 : name_is rb name_a = true) by (unfold name_is; rewrite Hnm; reflexivity).
  change (<[O := rb]> no_ringbufs) with (rb :: replicate 9 empty_ringbuf).
  split; [|cbn [find_ringbuf]; by rewrite E2]. unfold get_ringbuf_index.
  rewrite filter_cons_True by done. vm_compute. reflexivity.
Qed.

Lemma ringbuf_join_shares_witness :
  exists r base1 rb r' L' base,
    ringbuf empty_ringbuf root1 name_a true PGSIZE (demo_r 200) = Done 0 r /\
    ringbuf empty_ringbuf root2 name_a true PGSIZE r = Done 0 r' /\
    client_opened root2 PGSIZE r base rb r' /\
    (forall off, - PGSIZE <= off < 2 * RINGBUF_BYTES ->
       uaddr (mem (km r')) root2 (ring_lo base + off) = uaddr (mem (km r)) root1 (ring_lo base1 + off) /\
       uaddr (mem (km r')) root1 (ring_lo base1 + off) = uaddr (mem (km r)) root1 (ring_lo base1 + off) /\
       mget (mem (km r')) (uaddr (mem (km r')) root2 (ring_lo base + off)) =
         mget (mem (km r)) (uaddr (mem (km r)) root1 (ring_lo base1 + off))) /\
    ringbufs r' = <[O := set_refcount 2 rb]> (ringbufs r) /\ vm_inv (km r') root2 L'.
Proof.
  destruct demo_created as (r & L & base & rb & E & Ho & Hlen & Hnm & Hrc & Hrbs & Hfrom).
  destruct (demo_join_ready r L base rb Ho Hfrom) as (H1 & H2 & H3 & H4 & H5 & H6 & H7 & H8).
  destruct (demo_table_a rb Hnm) as [Hidx Hfind].
  pose proof (ring_place_bounds _ _ _ (op_place _ _ _ _ _ _ _ _ Ho)) as (Hlo & Hhi & _ & _).
  pose proof (rp_aligned _ _ _ (op_place _ _ _ _ _ _ _ _ Ho)) as Hal.
  destruct (ringbuf_join_shares empty_ringbuf root2 root1 base name_a PGSIZE r L O rb) as (r' & L' & base2 & Hres).
  - exact H1.
  - exact H2.
  - exact H3.
  - exact H4.
  - rewrite Hrbs, Hidx. reflexivity.
  - reflexivity.
  - rewrite Hrbs. exact Hfind.
  - rewrite Hrbs. reflexivity.
  - rewrite Hrc. split; reflexivity.
  - exact H5.
  - exact Hlen.
  - exact H6.
  - reflexivity.
  - exact H7.
  - exact (ring_view_at _ _ _ _ _ Hal Hlo Hhi (op_view _ _ _ _ _ _ _ _ Ho)).
  - exact Hal.
  - intros a Ha. rewrite (H8 a Ha). intros (j & Hj & Hj7%dpage_inj)%Hfrom%elem_chain_pages. clear -Hj Hj7. lia.
  - rewrite Hrc in Hres. exists r, base, rb, r', L', base2. split; [exact E|exact Hres].
Defined.
