(* ===== verification/RingbufCycle.v ===== *)
(** * Opening and closing, and the cases the system call does not handle

    The round trip of opening and closing a ring buffer, the table of ring
    buffers, and the inputs on which the code panics or loses a ring buffer. *)

From S2P Require Import Prelude Mem CString Riscv Kalloc Vm PageTable VmSpec VmCopy.
From S2P Require Import RingbufK RingbufFind RingbufMap RingbufSpec RingbufClose Demo RingbufProps.

Section Table.

(** ** The table of ring buffers *)

Lemma name_is_true rb name :
  name_is rb name = true <-> cstr_take (arr (rname rb)) 16 = cstr_take name 16.
Proof. unfold name_is. rewrite Z.eqb_eq. apply strncmp_cstr. Qed.

Lemma name_is_strncpy rb name :
  rname rb = strncpy name (Z.to_nat RINGBUF_NAME_LEN) -> name_is rb name = true.
Proof. intros E. apply name_is_true. rewrite E. apply cstr_take_strncpy. Qed.

Lemma find_ringbuf_None rbs name :
  find_ringbuf rbs name = None <-> Forall (fun rb => name_is rb name = false) rbs.
Proof.
  induction rbs as [|rb rbs IH]; [done|]. cbn [find_ringbuf]. rewrite list.Forall_cons, <-IH.
  destruct (name_is rb name), (find_ringbuf rbs name); cbn; split; try done; by intros [? ?].
Qed.

Lemma find_ringbuf_insert rbs name i rb :
  find_ringbuf rbs name = None -> (i < length rbs)%nat -> name_is rb name = true ->
  find_ringbuf (<[i := rb]> rbs) name = Some i.
Proof.
  revert i. induction rbs as [|rb0 rbs IH]; intros i; [cbn; lia|]. cbn [find_ringbuf].
  destruct (name_is rb0 name) eqn:E0; [done|]. intros Hf Hi Hrb.
  destruct (find_ringbuf rbs name) eqn:Ef; [done|]. destruct i as [|i]; cbn.
  - by rewrite Hrb.
  - rewrite E0, IH; [done|done|cbn in Hi; lia|done].
Qed.

Definition live (rb : ringbuf_t) : Prop := name_is rb (arr []) = false.

(** A free entry in place of another free entry: every name is found where it was, and the
    number of entries in use is the same. *)
Lemma free_insert rbs i rb0 rb :
  rbs !! i = Some rb0 -> ~ live rb0 -> ~ live rb ->
  (forall name, find_ringbuf (<[i := rb]> rbs) name = find_ringbuf rbs name) /\
  get_ringbuf_index (<[i := rb]> rbs) = get_ringbuf_index rbs.
Proof.
  intros Hi H0 H1. apply not_false_is_true, name_is_true in H0, H1.
  assert (Hsame : forall name, name_is rb name = name_is rb0 name).
  { intros name. destruct (name_is rb name) eqn:Ea, (name_is rb0 name) eqn:Eb; try done; exfalso.
    - rewrite name_is_true in Ea. apply not_true_iff_false in Eb. apply Eb, name_is_true. congruence.
    - rewrite name_is_true in Eb. apply not_true_iff_false in Ea. apply Ea, name_is_true. congruence. }
  clear H0 H1. unfold get_ringbuf_index. revert i Hi. induction rbs as [|x rbs IH]; intros [|i] Hi; [done..| |].
  - injection Hi as ->. change (<[O := rb]> (rb0 :: rbs)) with (rb :: rbs). cbn [find_ringbuf]. split; [intros name; by rewrite Hsame|].
    rewrite !filter_cons, Hsame. by case_decide.
  - destruct (IH i Hi) as [IH1 IH2]. change (<[S i := rb]> (x :: rbs)) with (x :: <[i := rb]> rbs). cbn [find_ringbuf].
    split; [intros name; by rewrite IH1|]. rewrite !filter_cons. case_decide; cbn [length]; lia.
Qed.

Lemma index_insert rbs i rb :
  get_ringbuf_index (<[i := rb]> rbs) <= get_ringbuf_index rbs + 1.
Proof.
  unfold get_ringbuf_index. revert i. induction rbs as [|rb0 rbs IH]; intros i; [by destruct i|].
  destruct i as [|i].
  - change (<[O := rb]> (rb0 :: rbs)) with (rb :: rbs).
    rewrite !filter_cons. repeat case_decide; cbn [length]; lia.
  - change (<[S i := rb]> (rb0 :: rbs)) with (rb0 :: <[i := rb]> rbs). rewrite !filter_cons. specialize (IH i). case_decide; cbn [length]; lia.
Qed.

Lemma index_length rbs : 0 <= get_ringbuf_index rbs <= Z.of_nat (length rbs).
Proof.
  unfold get_ringbuf_index. pose proof (length_filter (fun rb => name_is rb (arr []) = false) rbs). lia.
Qed.
End Table.

Section Cycle.
Context `{KernelImage}.

(** ** Opening and closing *)

(** C16: closing a ring buffer the caller has open.  The caller's 33 pages
    become unmapped and nothing else in its address space changes; the
    reference count goes down by one, and when it was one the name is cleared
    and the seventeen physical pages return to the free list. *)
Theorem ringbuf_close_effect junk root name addr r L i rb base :
  vm_inv (km r) root L -> get_ringbuf_index (ringbufs r) < MAX_RINGBUFS ->
  name_too_long name = false ->
  find_ringbuf (ringbufs r) name = Some i -> ringbufs r !! i = Some rb ->
  0 < refcount rb < 2 ^ 31 -> ring_pages root (km r) L rb -> ring_at (mem (km r)) root base rb ->
  base mod PGSIZE = 0 -> 0 <= base - 32 * PGSIZE -> base < MAXVA ->
  addr < MAXVA -> translate (mem (km r)) root addr <> 0 ->
  load64 (mem (km r)) (uaddr (mem (km r)) root addr) = base ->
  exists r', ringbuf junk root name false addr r = Done 0 r' /\ closed root r L base i rb r'.
Proof.
  intros Hi Hc Hn Hf Hrb Hrc Hpg Hat Hal Hlo Hhi Ha Ht Hl.
  destruct (unmap_ringbuf_done root name addr r L i rb base) as (r' & E & Hcl); [done..|].
  exists r'. split; [by apply ringbuf_close_run|done].
Qed.

Lemma closed_translate root addr r L base rb r1 L1 i r2 va :
  opened root addr r L base rb r1 L1 -> closed root r1 L1 base i rb r2 -> 0 <= va < MAXVA ->
  translate (mem (km r2)) root va = translate (mem (km r)) root va.
Proof.
  intros Ho Hc Hva. pose proof (cl_gone _ _ _ _ _ _ _ Hc va Hva) as Hl.
  destruct (decide (0 <= base / PGSIZE - va / PGSIZE <= 32)) as [Hd|Hd].
  - pose proof (op_place _ _ _ _ _ _ _ _ Ho) as Hp. unfold translate at 1. rewrite Hl.
    rewrite (translate_page _ root va (base - (base / PGSIZE - va / PGSIZE) * PGSIZE)).
    + by rewrite (rp_free _ _ _ Hp).
    + pose proof (rp_aligned _ _ _ Hp). unfold PGSIZE in *. lia.
  - rewrite (op_view _ _ _ _ _ _ _ _ Ho) in Hl by done. cbn zeta in Hl.
    rewrite decide_False in Hl by lia. rewrite decide_False in Hl by lia.
    unfold translate. by rewrite Hl.
Qed.

(** C15: opening a ring buffer under a new name and closing it again, by the
    same process, when the slot the table gives out is a free one.  Every address
    translates as before the two calls; no other slot changed and the slot is
    free again, so every name is found in the slot it was found in before and
    as many slots are in use; and all seventeen pages are back on the free list. *)
Theorem ringbuf_open_close junk root name addr r L rb0 :
  vm_inv (km r) root L -> high_user (mem (km r)) root -> has_run (mem (km r)) root ->
  length (rbuf junk) = Z.to_nat RINGBUF_SIZE -> (83 <= length L)%nat ->
  user_range root (km r) L addr 8 -> addr mod 8 = 0 ->
  length (ringbufs r) = Z.to_nat MAX_RINGBUFS ->
  get_ringbuf_index (ringbufs r) < MAX_RINGBUFS - 1 -> name_too_long name = false ->
  find_ringbuf (ringbufs r) name = None ->
  let slot := Z.to_nat (get_ringbuf_index (ringbufs r)) in
  ringbufs r !! slot = Some rb0 -> ~ live rb0 ->
  exists r1 L1 r2 rb,
    ringbuf junk root name true addr r = Done 0 r1 /\ vm_inv (km r1) root L1 /\
    ringbuf junk root name false addr r1 = Done 0 r2 /\
    (forall va, 0 <= va < MAXVA -> translate (mem (km r2)) root va = translate (mem (km r)) root va) /\
    ringbufs r2 = <[slot := rb]> (ringbufs r) /\ refcount rb = 0 /\ ~ live rb /\
    (forall other, find_ringbuf (ringbufs r2) other = find_ringbuf (ringbufs r) other) /\
    get_ringbuf_index (ringbufs r2) = get_ringbuf_index (ringbufs r) /\
    length (book rb :: rbuf rb) = 17%nat /\
    vm_inv (km r2) root (reverse (book rb :: rbuf rb) ++ L1).
Proof.
  intros Hi Hh Hrun Hlen HL Hr Ha Hlr Hc Hn Hf slot Hs0 Hfree.
  destruct (create_ringbuf_done junk root name addr r L)
    as (r1 & L1 & base & rb & E & Ho & _ & _ & Hnm & Hrc & Hrbs & _); [done..|].
  pose proof (op_place _ _ _ _ _ _ _ _ Ho) as Hp. pose proof (op_pages _ _ _ _ _ _ _ _ Ho) as Hpg.
  pose proof (ring_place_bounds _ _ _ Hp) as (Hlo & Hhi & _ & _).
  assert (Hslot : (slot < length (ringbufs r))%nat).
  { pose proof (index_length (ringbufs r)). unfold slot, MAX_RINGBUFS in *. lia. }
  assert (Hidx : get_ringbuf_index (ringbufs r1) < MAX_RINGBUFS).
  { rewrite Hrbs. pose proof (index_insert (ringbufs r) slot rb). fold slot. lia. }
  assert (Htr : translate (mem (km r1)) root addr <> 0).
  { destruct Hr as (Hr1 & Hr2 & Hr3).
    assert (translate (mem (km r)) root addr <> 0) by (apply (owned_nonzero root (km r) L), Hr3; lia).
    rewrite (opened_translate _ _ _ _ _ _ _ _ _ Ho); [done|lia|done]. }
  destruct (unmap_ringbuf_done root name addr r1 L1 slot rb base) as (r2 & E2 & Hcl).
  - apply Ho.
  - rewrite Hrbs. apply find_ringbuf_insert; [done|done|by apply name_is_strncpy].
  - rewrite Hrbs. by apply list_lookup_insert_eq.
  - lia.
  - done.
  - apply ring_view_at with (mem (km r)); [apply Hp|done|done|apply Ho].
  - apply Hp.
  - done.
  - done.
  - destruct Hr; lia.
  - done.
  - by apply opened_addr with r L rb L1.
  - pose proof (cl_inv _ _ _ _ _ _ _ Hcl) as Hcli. pose proof (cl_table _ _ _ _ _ _ _ Hcl) as Hclt.
    rewrite Hrc in Hcli, Hclt. change (1 =? 1) with true in Hcli, Hclt. cbn iota in Hcli, Hclt.
    set (rb' := set_rname (strncpy (arr []) (Z.to_nat RINGBUF_NAME_LEN)) (set_refcount 0 rb)) in *.
    assert (Hrb' : ringbufs r2 = <[slot := rb']> (ringbufs r)) by (rewrite Hclt, Hrbs; apply list_insert_insert_eq).
    destruct (free_insert (ringbufs r) slot rb0 rb' Hs0 Hfree) as [Hfind Hind]; [discriminate|].
    exists r1, L1, r2, rb'. split_and!.
    + apply ringbuf_open_new; done || lia.
    + apply Ho.
    + apply ringbuf_close_run; done.
    + intros va Hva. by apply (closed_translate root addr r L base rb r1 L1 slot r2).
    + exact Hrb'.
    + reflexivity.
    + discriminate.
    + by rewrite Hrb'.
    + by rewrite Hrb'.
    + cbn. by rewrite (rg_len _ _ _ _ Hpg).
    + exact Hcli.
Qed.

(** ** Running out of memory *)

(** The error path of [mappages_to_proc] gives [uvmdealloc] the address of the
    page it was mapping as the old size and one page as the new size. *)
Lemma uvmdealloc_hole root va n s L :
  vm_inv s root L -> va mod PGSIZE = 0 -> 1 <= n -> n * PGSIZE < va -> va < MAXVA ->
  (forall k, 1 <= k < n -> unmappable (leaf (mem s) root (k * PGSIZE))) ->
  NoDup (leaf_pages (mem s) root PGSIZE (n - 1)) ->
  (forall p, p ∈ leaf_pages (mem s) root PGSIZE (n - 1) -> owned root s L p) ->
  has_flag (leaf (mem s) root (n * PGSIZE)) PTE_V = false ->
  exists msg, uvmdealloc root va PGSIZE s = Panic msg.
Proof.
  intros Hi Hal Hn Hlo Hhi Hm Hnd Ho Hhole. assert (HM : MAXVA = 2 ^ 38) by done.
  unfold uvmdealloc. destruct (Z.leb_spec va PGSIZE); [unfold PGSIZE in *; lia|].
  rewrite (PGROUNDUP_aligned va) by (unfold PGSIZE in *; lia).
  rewrite (PGROUNDUP_aligned PGSIZE) by (done || unfold PGSIZE; lia).
  destruct (Z.ltb_spec PGSIZE va); [|lia].
  rewrite s32_small by (unfold PGSIZE in *; lia). rewrite u64_small by (unfold PGSIZE in *; lia).
  destruct (uvmunmap_hole (n - 1) ((va - PGSIZE) / PGSIZE) root PGSIZE s L) as (msg & E).
  - done.
  - done.
  - done.
  - unfold PGSIZE in *. lia.
  - unfold PGSIZE in *. lia.
  - intros k Hk. replace (PGSIZE + k * PGSIZE) with ((k + 1) * PGSIZE) by lia. apply Hm. lia.
  - done.
  - intros p Hp. by destruct (Ho p Hp).
  - replace (PGSIZE + (n - 1) * PGSIZE) with (n * PGSIZE) by lia. done.
  - exists msg. by apply bind_panic.
Qed.

Lemma bind_panic_inv {S A B} (m : M S A) (f : A -> M S B) s :
  (exists msg, m s = Panic msg) -> exists msg, (m ≫= f) s = Panic msg.
Proof. intros [msg E]. exists msg. by apply bind_panic. Qed.

Lemma map_new_oom n root rb base i s msg :
  i < RINGBUF_SIZE -> kalloc s = Done 0 s ->
  uvmdealloc root (u64 (base - i * PGSIZE)) PGSIZE s = Panic msg ->
  map_new (S n) root rb base i s = Panic msg.
Proof.
  intros Hi E1 E2. cbn [map_new]. destruct (Z.ltb_spec i RINGBUF_SIZE); [|lia].
  mstep E1. by apply bind_panic.
Qed.

(** With no free page left, opening a ring buffer under a new name does not
    fail with -1 but panics: the error path unmaps, and frees, the caller's
    memory from its second page up to the first hole, and [uvmunmap] panics
    there. *)
Theorem ringbuf_create_oom_panics junk root name addr r n :
  vm_inv (km r) root [] -> has_run (mem (km r)) root -> length (rbuf junk) = Z.to_nat RINGBUF_SIZE ->
  get_ringbuf_index (ringbufs r) < MAX_RINGBUFS -> name_too_long name = false ->
  find_ringbuf (ringbufs r) name = None ->
  1 <= n -> n * PGSIZE <= KERNBASE ->
  (forall k, 1 <= k < n -> unmappable (leaf (mem (km r)) root (k * PGSIZE))) ->
  NoDup (leaf_pages (mem (km r)) root PGSIZE (n - 1)) ->
  (forall p, p ∈ leaf_pages (mem (km r)) root PGSIZE (n - 1) -> owned root (km r) [] p) ->
  has_flag (leaf (mem (km r)) root (n * PGSIZE)) PTE_V = false ->
  exists msg, ringbuf junk root name true addr r = Panic msg.
Proof.
  intros Hi Hrun Hlen Hc Hnm Hf Hn Hn' Hm Hnd Ho Hhole. destruct r as [s rbs]; cbn [km ringbufs] in *.
  destruct (find_run root s (vm_wf _ _ _ Hi) Hrun) as (b & E0 & Hb).
  destruct (find_place _ _ _ _ eq_refl Hb) as [Hp Hu].
  pose proof (ring_place_bounds _ _ _ Hp) as (_ & Hhi & _ & _).
  destruct (uvmdealloc_hole root (b - PGSIZE) n s []) as (msg & E); try done.
  { apply Hp. }
  { pose proof (rp_low _ _ _ Hp). unfold PGSIZE in *. lia. }
  unfold ringbuf. rewrite bind_gets. cbn [ringbufs].
  destruct (Z.leb_spec MAX_RINGBUFS (get_ringbuf_index rbs)); [lia|].
  rewrite Hnm, bind_gets. cbn [ringbufs]. rewrite Hf. apply bind_panic_inv. unfold create_ringbuf.
  mstep (vm_done (find_contiguous_pages root 34) (RState s rbs) _ _ E0). cbn [fst snd negb Z.eqb].
  rewrite Hu. apply bind_panic_inv. exists msg. apply vm_panic. cbn [km].
  unfold mappages_to_proc. cbn [refcount set_rname set_refcount]. change (0 <? 0) with false.
  change (0 =? 0) with true. change (Z.to_nat (2 * RINGBUF_SIZE)) with (S 31). cbn iota.
  apply map_new_oom; [done|by apply kalloc_none, Hi|].
  rewrite Z.mul_0_l, Z.sub_0_r, <-Hu, u64_small, Hu by apply u64_range. done.
Qed.

(** ** The book page of a joining process *)

(** With the 34 top pages free, they are what the search finds. *)
Lemma find_top root s :
  pt_wf (mem s) root ->
  (forall k, 0 <= k < 34 -> translate (mem s) root (find_base - k * PGSIZE) = 0) ->
  find_contiguous_pages root 34 s = Done (0, find_base) s.
Proof.
  intros Hwf Hfree.
  assert (Hrun : run_place 34 (find_base - 33 * PGSIZE) /\ free_run (mem s) root (find_base - 33 * PGSIZE) 34).
  { split; [done|]. intros k Hk.
    replace (find_base - 33 * PGSIZE + k * PGSIZE) with (find_base - (33 - k) * PGSIZE) by lia.
    apply Hfree. lia. }
  destruct (find_run root s Hwf) as (b & E & lo & (_ & _ & Hlo) & _ & Htop & Hmax); [by eexists|].
  destruct (decide (lo < find_base - 33 * PGSIZE)) as [Hlt|Hge].
  { destruct (Hmax _ (proj1 Hrun) Hlt (proj2 Hrun)). }
  destruct Htop as [[-> _]|(-> & Htop & _)]; [done|]. unfold PGSIZE in *. lia.
Qed.

Lemma append_map_panics root rb s L :
  vm_inv s root L -> high_user (mem s) root ->
  (forall k, 0 <= k < 34 -> translate (mem s) root (find_base - k * PGSIZE) = 0) ->
  translate (mem s) root (find_base - 34 * PGSIZE) <> 0 ->
  0 < refcount rb -> ring_pages root s L rb -> (66 <= length L)%nat ->
  exists s1, mappages_to_proc root rb (find_base - 2 * PGSIZE) (2 * RINGBUF_SIZE) s = Done (0, rb) s1 /\
    mappage_to_book root rb (find_base - 34 * PGSIZE) s1 = Panic "mappages: remap".
Proof.
  intros Hi Hh Hfree Hbelow Hrc Hpg HL.
  assert (Hfb : KERNBASE + 100 * PGSIZE < find_base < MAXVA /\ find_base mod PGSIZE = 0) by done.
  destruct (mappages_to_proc_again root rb (find_base - 2 * PGSIZE) s L) as (s1 & L1 & E1 & Hev1 & Hl1 & Hm1);
    [done|unfold PGSIZE in *; lia|unfold KERNBASE, PGSIZE in *; lia|unfold PGSIZE in *; lia|done| | |lia|].
  { intros j Hj. by apply ring_pages_buf. }
  { intros k Hk. apply Hh; [unfold PGSIZE in *; lia|].
    replace (find_base - 2 * PGSIZE - k * PGSIZE) with (find_base - (k + 2) * PGSIZE) by lia.
    apply Hfree. lia. }
  exists s1. split; [done|]. unfold mappage_to_book. destruct (Z.eqb_spec (refcount rb) 0); [lia|].
  apply bind_panic, (mappages_remap root _ _ _ s1 L1); [apply Hev1|unfold PGSIZE in *; lia| |lia|].
  { unfold KERNBASE, PGSIZE in *. lia. }
  rewrite Hm1 by (unfold KERNBASE, PGSIZE in *; lia). cbn zeta.
  rewrite decide_False by (unfold PGSIZE in *; lia).
  unfold translate in Hbelow. destruct (has_flag (leaf (mem s) root (find_base - 34 * PGSIZE)) PTE_V); done.
Qed.

(** Joining a ring buffer when the 34 pages at the top are free and the
    page below them is mapped, as it is after a process opened two ring buffers
    and closed the first.  The search succeeds but [append_ringbuf] places the
    book page one page below the pages found, and the kernel panics. *)
Theorem ringbuf_join_panics junk root name addr r L i rb :
  vm_inv (km r) root L -> high_user (mem (km r)) root ->
  (forall k, 0 <= k < 34 -> translate (mem (km r)) root (find_base - k * PGSIZE) = 0) ->
  translate (mem (km r)) root (find_base - 34 * PGSIZE) <> 0 ->
  get_ringbuf_index (ringbufs r) < MAX_RINGBUFS -> name_too_long name = false ->
  find_ringbuf (ringbufs r) name = Some i -> ringbufs r !! i = Some rb ->
  0 < refcount rb -> ring_pages root (km r) L rb -> (66 <= length L)%nat ->
  ringbuf junk root name true addr r = Panic "mappages: remap".
Proof.
  intros Hi Hh Hfree Hbelow Hc Hnm Hf Hrb Hrc Hpg HL. destruct r as [s rbs]; cbn [km ringbufs] in *.
  destruct (append_map_panics root rb s L) as (s1 & E1 & E2); [done..|].
  pose proof (find_top root s (vm_wf _ _ _ Hi) Hfree) as E0.
  unfold ringbuf. rewrite bind_gets. cbn [ringbufs].
  destruct (Z.leb_spec MAX_RINGBUFS (get_ringbuf_index rbs)); [lia|].
  rewrite Hnm, bind_gets. cbn [ringbufs]. rewrite Hf. apply bind_panic. unfold append_ringbuf.
  rewrite bind_gets. cbn [ringbufs]. rewrite Hf, bind_gets. cbn [ringbufs]. rewrite Hrb. cbn [default].
  mstep (vm_done (find_contiguous_pages root 34) (RState s rbs) _ _ E0). cbn [fst snd negb Z.eqb].
  change (u64 (u64 (find_base - PGSIZE) - PGSIZE)) with (find_base - 2 * PGSIZE).
  mstep (vm_done _ (RState s rbs) _ _ E1). rewrite bind_put_rb. cbn [fst snd negb Z.eqb km ringbufs].
  change (u64 (find_base - 2 * PGSIZE - 2 * RINGBUF_SIZE * PGSIZE)) with (find_base - 34 * PGSIZE).
  by apply vm_bind_panic.
Qed.

(** ** The slot of a new ring buffer *)

Lemma find_ringbuf_clobbered rbs slot rb vn :
  (forall j rb', j <> slot -> rbs !! j = Some rb' -> name_is rb' vn = false) -> name_is rb vn = false ->
  find_ringbuf (<[slot := rb]> rbs) vn = None.
Proof.
  intros Hother Hrb. apply find_ringbuf_None, list.Forall_forall. intros x Hx.
  apply list_elem_of_lookup_1 in Hx as [j Hj].
  destruct (decide (j = slot)) as [->|Hne].
  - apply list_lookup_insert_Some in Hj as [(_ & <- & _)|[? _]]; done.
  - rewrite list_lookup_insert_ne in Hj by done. by apply (Hother j).
Qed.

(** C27: the slot of a new ring buffer is the number of names in use, which is
    the slot of a ring buffer still in use when an earlier one was deleted.
    The create succeeds, overwrites that entry, and the other ring buffer's
    name is no longer found: it cannot be joined or closed any more. *)
Theorem ringbuf_create_clobbers junk root name addr r L victim vn :
  vm_inv (km r) root L -> high_user (mem (km r)) root -> has_run (mem (km r)) root ->
  length (rbuf junk) = Z.to_nat RINGBUF_SIZE -> (83 <= length L)%nat ->
  user_range root (km r) L addr 8 -> addr mod 8 = 0 ->
  get_ringbuf_index (ringbufs r) < MAX_RINGBUFS -> name_too_long name = false ->
  find_ringbuf (ringbufs r) name = None ->
  let slot := Z.to_nat (get_ringbuf_index (ringbufs r)) in
  ringbufs r !! slot = Some victim -> 0 < refcount victim -> name_is victim vn = true ->
  (forall j rb, j <> slot -> ringbufs r !! j = Some rb -> name_is rb vn = false) ->
  cstr_take name 16 <> cstr_take vn 16 ->
  exists r', ringbuf junk root name true addr r = Done 0 r' /\
    find_ringbuf (ringbufs r) vn <> None /\ find_ringbuf (ringbufs r') vn = None.
Proof.
  intros Hi Hh Hrun Hlen HL Hr Ha Hc Hn Hf slot Hv Hvrc Hvn Hother Hne.
  destruct (create_ringbuf_done junk root name addr r L)
    as (r' & L' & base & rb & E & _ & _ & _ & Hnm & _ & Hrbs & _); [done..|].
  exists r'. split_and!.
  - by apply ringbuf_open_new.
  - intros HN%find_ringbuf_None. rewrite list.Forall_forall in HN.
    apply list_elem_of_lookup_2 in Hv. specialize (HN victim Hv). by rewrite Hvn in HN.
  - rewrite Hrbs. apply find_ringbuf_clobbered; [done|]. apply not_true_iff_false.
    rewrite name_is_true, Hnm. change (Z.to_nat RINGBUF_NAME_LEN) with 16%nat.
    by rewrite (cstr_take_strncpy name 16).
Qed.

(** ** A full table *)

(** A sequence of calls, by any processes: page table, name, open, address. *)
Fixpoint ringbuf_calls (junk : ringbuf_t) (calls : list (Z * reader * bool * Z)) : M rstate (list Z) :=
  match calls with
  | [] => mret []
  | (pagetable, name, open, addr) :: calls =>
      x ← ringbuf junk pagetable name open addr;
      xs ← ringbuf_calls junk calls;
      mret (x :: xs)
  end.

Lemma index_full rbs : Forall live rbs -> get_ringbuf_index rbs = Z.of_nat (length rbs).
Proof.
  intros HF. unfold get_ringbuf_index. f_equal. induction HF as [|rb rbs Hrb HF IH]; [done|].
  rewrite filter_cons_True by done. cbn. by rewrite IH.
Qed.

(** Once ten ring buffers exist, every call fails and changes nothing, the
    calls that would close one included: the table stays full for ever. *)
Theorem ringbuf_full_forever junk calls r :
  length (ringbufs r) = Z.to_nat MAX_RINGBUFS -> Forall live (ringbufs r) ->
  ringbuf_calls junk calls r = Done (replicate (length calls) (-1)) r.
Proof.
  intros Hl HF. induction calls as [|[[[root name] open] addr] calls IH]; [done|].
  cbn [ringbuf_calls length replicate].
  assert (E : ringbuf junk root name open addr r = Done (-1) r).
  { unfold ringbuf. rewrite bind_gets, (index_full _ HF), Hl. done. }
  mstep E. by mstep IH.
Qed.
End Cycle.

(** ** The theorems on the concrete machine *)

Definition full_ringbufs : list ringbuf_t :=
  (fun i => Ringbuf 1 (97 + i :: replicate 15 0) (replicate 16 0) 0) <$> seqZ 0 MAX_RINGBUFS.

Lemma ringbuf_full_forever_witness :
  ringbuf_calls empty_ringbuf [(root1, arr [97], false, PGSIZE); (root2, arr [122], true, PGSIZE)]
    (RState (demo 100) full_ringbufs) = Done [-1; -1] (RState (demo 100) full_ringbufs).
Proof.
  apply (ringbuf_full_forever empty_ringbuf
           [(root1, arr [97], false, PGSIZE); (root2, arr [122], true, PGSIZE)]).
  - reflexivity.
  - repeat constructor.
Defined.

Definition name_b : reader := arr [98].

(** Slot 0 was deleted and slot 1 is in use. *)
Definition holed_ringbufs : list ringbuf_t :=
  <[1%nat := Ringbuf 1 (98 :: replicate 15 0) (replicate 16 0) 0]> no_ringbufs.

Lemma ringbuf_create_clobbers_witness :
  exists r', ringbuf empty_ringbuf root1 name_a true PGSIZE (RState (demo 100) holed_ringbufs) = Done 0 r' /\
    find_ringbuf holed_ringbufs name_b <> None /\ find_ringbuf (ringbufs r') name_b = None.
Proof.
  apply (ringbuf_create_clobbers empty_ringbuf root1 name_a PGSIZE (RState (demo 100) holed_ringbufs)
           (chain_pages 8 100) (Ringbuf 1 (98 :: replicate 15 0) (replicate 16 0) 0) name_b).
  - apply demo_inv_1. lia.
  - apply (demo_high 100 0); [apply demo_process_1|lia].
  - apply (demo_run 100 0); [apply demo_process_1|lia].
  - reflexivity.
  - rewrite length_chain_pages. lia.
  - apply demo_addr_1. lia.
  - reflexivity.
  - reflexivity.
  - reflexivity.
  - reflexivity.
  - reflexivity.
  - reflexivity.
  - reflexivity.
  - intros j rb Hj Hrb. change (Z.to_nat (get_ringbuf_index (ringbufs (RState (demo 100) holed_ringbufs)))) with 1%nat in Hj.
    cbn [ringbufs] in Hrb. unfold holed_ringbufs in Hrb. rewrite list_lookup_insert_ne in Hrb by congruence.
    apply lookup_replicate in Hrb as [-> _]. reflexivity.
  - discriminate.
Defined.

Lemma ringbuf_open_close_witness :
  exists r1 L1 r2 rb,
    ringbuf empty_ringbuf root1 name_a true PGSIZE (demo_r 100) = Done 0 r1 /\ vm_inv (km r1) root1 L1 /\
    ringbuf empty_ringbuf root1 name_a false PGSIZE r1 = Done 0 r2 /\
    (forall va, 0 <= va < MAXVA -> translate (mem (km r2)) root1 va = translate (mem (km (demo_r 100))) root1 va) /\
    ringbufs r2 = <[O := rb]> no_ringbufs /\ refcount rb = 0 /\ ~ live rb /\
    (forall other, find_ringbuf (ringbufs r2) other = find_ringbuf no_ringbufs other) /\
    get_ringbuf_index (ringbufs r2) = 0 /\
    length (book rb :: rbuf rb) = 17%nat /\
    vm_inv (km r2) root1 (reverse (book rb :: rbuf rb) ++ L1).
Proof.
  apply (ringbuf_open_close empty_ringbuf root1 name_a PGSIZE (demo_r 100) (chain_pages 8 100) empty_ringbuf).
  - apply demo_inv_1. lia.
  - apply (demo_high 100 0); [apply demo_process_1|lia].
  - apply (demo_run 100 0); [apply demo_process_1|lia].
  - reflexivity.
  - rewrite length_chain_pages. lia.
  - apply demo_addr_1. lia.
  - reflexivity.
  - reflexivity.
  - vm_compute. reflexivity.
  - vm_compute. reflexivity.
  - vm_compute. reflexivity.
  - vm_compute. reflexivity.
  - discriminate.
Defined.

(** No free page at all; the process has pages 1 (and not 2). *)
Lemma ringbuf_create_oom_panics_witness :
  exists msg, ringbuf empty_ringbuf root1 name_a true PGSIZE (demo_r 0) = Panic msg.
Proof.
  pose proof (demo_user 0 0 ltac:(lia) (demo_process_1 0) ltac:(by left)) as (_ & _ & Hu).
  assert (Hl : leaf_pages (mem (km (demo_r 0))) root1 PGSIZE (2 - 1) = [dpage 3]).
  { unfold leaf_pages. cbn [fmap list_fmap seqZ]. change (seqZ 0 (2 - 1)) with [0]. cbn [fmap list_fmap].
    rewrite demo_leaf_1 by (split; vm_compute; congruence). reflexivity. }
  apply (ringbuf_create_oom_panics empty_ringbuf root1 name_a PGSIZE (demo_r 0) 2).
  - apply (demo_inv_1 0). lia.
  - apply (demo_run 0 0); [apply demo_process_1|lia].
  - reflexivity.
  - vm_compute. reflexivity.
  - vm_compute. reflexivity.
  - vm_compute. reflexivity.
  - lia.
  - vm_compute. congruence.
  - intros k Hk. assert (k = 1) as -> by lia. rewrite demo_leaf_1 by (split; vm_compute; congruence).
    rewrite decide_True by reflexivity.
    apply map_pte_unmappable, dpage_valid. lia.
  - rewrite Hl. apply list.NoDup_singleton.
  - rewrite Hl. intros p ->%list_elem_of_singleton.
    specialize (Hu PGSIZE ltac:(unfold PGSIZE; lia)). cbn [mem demo] in Hu.
    rewrite (demo_translate _ _ _ (demo_process_1 0)) in Hu by (split; vm_compute; congruence). exact Hu.
  - rewrite demo_leaf_1 by (split; vm_compute; congruence). reflexivity.
Defined.

Lemma ringbuf_close_effect_witness :
  exists r L base rb r',
    ringbuf empty_ringbuf root1 name_a true PGSIZE (demo_r 200) = Done 0 r /\
    ringbuf empty_ringbuf root1 name_a false PGSIZE r = Done 0 r' /\ closed root1 r L base O rb r'.
Proof.
  pose proof (demo_addr_1 200 ltac:(lia)) as Hr.
  assert (Ht : translate (mem (km (demo_r 200))) root1 PGSIZE <> 0).
  { apply (owned_nonzero root1 (km (demo_r 200)) (chain_pages 8 200)), Hr. unfold PGSIZE. lia. }
  destruct demo_created as (r & L & base & rb & E & Ho & Hlen & Hnm & Hrc & Hrbs & Hfrom).
  destruct (demo_table_a rb Hnm) as [Hidx Hfind].
  pose proof (ring_place_bounds _ _ _ (op_place _ _ _ _ _ _ _ _ Ho)) as (Hlo & Hhi & _ & _).
  pose proof (rp_aligned _ _ _ (op_place _ _ _ _ _ _ _ _ Ho)) as Hal.
  destruct (ringbuf_close_effect empty_ringbuf root1 name_a PGSIZE r L O rb base) as (r' & E' & Hcl).
  - exact (op_inv _ _ _ _ _ _ _ _ Ho).
  - rewrite Hrbs, Hidx. reflexivity.
  - reflexivity.
  - rewrite Hrbs. exact Hfind.
  - rewrite Hrbs. reflexivity.
  - rewrite Hrc. split; reflexivity.
  - exact (op_pages _ _ _ _ _ _ _ _ Ho).
  - exact (ring_view_at _ _ _ _ _ Hal Hlo Hhi (op_view _ _ _ _ _ _ _ _ Ho)).
  - exact Hal.
  - exact Hlo.
  - exact Hhi.
  - reflexivity.
  - rewrite (opened_translate _ _ _ _ _ _ _ _ _ Ho); [exact Ht|split; vm_compute; congruence|exact Ht].
  - exact (opened_addr _ _ _ _ _ _ _ _ Ho Hr).
  - exists r, L, base, rb, r'. split; [exact E|]. split; [exact E'|exact Hcl].
Defined.

(** A ring buffer of another process, and a page of the caller's below the top
    34 pages. *)
Definition other_ringbuf : ringbuf_t :=
  Ringbuf 1 (98 :: replicate 15 0) (dpage <$> seqZ 300 RINGBUF_SIZE) (dpage 316).
Definition other_ringbufs : list ringbuf_t := <[O := other_ringbuf]> no_ringbufs.

Lemma demo_owned j : 208 <= j < 1000 -> owned root1 (demo 200) (chain_pages 8 200) (dpage j).
Proof.
  intros Hj. split; [apply dpage_valid; lia| |].
  - intros (k & Hk & Hjk%dpage_inj)%elem_chain_pages. lia.
  - intros Ht. apply (dp_table _ _ (demo_process_1 200)) in Ht. unfold dpage, PGSIZE in *. lia.
Qed.

Lemma other_ring_pages : ring_pages root1 (demo 200) (chain_pages 8 200) other_ringbuf.
Proof.
  split; [reflexivity| |].
  - change (book other_ringbuf :: rbuf other_ringbuf) with (dpage <$> (316 :: seqZ 300 16)).
    apply NoDup_fmap_2; [intros x y; apply dpage_inj|]. apply list.NoDup_cons. split; [|apply NoDup_seqZ].
    intros Hin%elem_of_seqZ. lia.
  - intros p [->|(j & -> & Hj%elem_of_seqZ)%list_elem_of_fmap]%elem_of_cons; apply demo_owned; [lia|].
    unfold RINGBUF_SIZE in Hj. lia.
Qed.

Lemma demo_low_page :
  exists s L, vm_inv s root1 L /\ (66 <= length L)%nat /\ ring_pages root1 s L other_ringbuf /\
    (forall va, 0 <= va < MAXVA -> leaf (mem s) root1 va =
       if decide (va / PGSIZE = find_base / PGSIZE - 34) then map_pte (dpage 400) PTE_RWXU
       else if decide (va / PGSIZE = 1) then map_pte (dpage 3) PTE_RWXU else 0).
Proof.
  destruct (map_ring_page root1 (find_base - 34 * PGSIZE) (dpage 400) (demo 200) (chain_pages 8 200))
    as (s & L & _ & Hev & Hlen & Hm).
  - apply demo_inv_1. lia.
  - reflexivity.
  - split; vm_compute; congruence.
  - apply demo_owned. lia.
  - change (mem (demo 200)) with (mem (km (demo_r 200))).
    rewrite demo_leaf_1 by (split; vm_compute; congruence). reflexivity.
  - rewrite length_chain_pages. lia.
  - rewrite length_chain_pages in Hlen. exists s, L. split_and!; [apply Hev|lia| |].
    + apply (ring_pages_evolve _ _ _ _ _ _ Hev). apply other_ring_pages.
    + intros va Hva. rewrite Hm by done. cbn zeta.
      change ((find_base - 34 * PGSIZE) / PGSIZE) with (find_base / PGSIZE - 34).
      destruct (decide (0 <= va / PGSIZE - (find_base / PGSIZE - 34) < 1)) as [Hd|Hd].
      * rewrite decide_True by lia. replace (va / PGSIZE - (find_base / PGSIZE - 34)) with 0 by lia.
        by rewrite Z.mul_0_l, Z.add_0_r.
      * rewrite decide_False by lia. apply (demo_leaf_1 200 va Hva).
Qed.

Lemma ringbuf_join_panics_witness :
  exists s, ringbuf empty_ringbuf root1 name_b true PGSIZE (RState s other_ringbufs) = Panic "mappages: remap".
Proof.
  destruct demo_low_page as (s & L & Hi & Hlen & Hpg & Hleaf). exists s.
  assert (Htr : forall va, 0 <= va < MAXVA -> va / PGSIZE <> find_base / PGSIZE - 34 -> 1 < va / PGSIZE ->
    translate (mem s) root1 va = 0 /\ has_flag (leaf (mem s) root1 va) PTE_V = false).
  { intros va Hva Hne H1. unfold translate. rewrite Hleaf by done. rewrite decide_False by done.
    rewrite decide_False by lia. done. }
  assert (Hb : translate (mem s) root1 (find_base - 34 * PGSIZE) = dpage 400).
  { apply translate_map with PTE_RWXU.
    - rewrite Hleaf by (split; vm_compute; congruence). by rewrite decide_True by reflexivity.
    - reflexivity.
    - split; vm_compute; congruence.
    - reflexivity.
    - apply flags_RWXU. }
  apply (ringbuf_join_panics empty_ringbuf root1 name_b PGSIZE (RState s other_ringbufs) L O other_ringbuf).
  - exact Hi.
  - intros va Hva Ht. cbn [km] in *. pose proof find_base_range as [Hfb _].
    destruct (decide (va / PGSIZE = find_base / PGSIZE - 34)) as [Heq|Hne].
    + rewrite (translate_page _ _ va (find_base - 34 * PGSIZE)) in Ht by exact Heq.
      rewrite Hb in Ht. discriminate Ht.
    + apply Htr; [change MAXVA with (2 ^ 38); unfold KERNBASE in *; lia|done|unfold KERNBASE, PGSIZE in *; lia].
  - intros k Hk. cbn [km]. apply Htr; rewrite find_base_eq; change MAXVA with (2 ^ 38); unfold PGSIZE; lia.
  - cbn [km]. rewrite Hb. discriminate.
  - vm_compute. reflexivity.
  - reflexivity.
  - vm_compute. reflexivity.
  - reflexivity.
  - reflexivity.
  - exact Hpg.
  - exact Hlen.
Defined.

(** C25: the search for address space.  For any number of pages it ends, changes
    nothing, returns 0 or -1, and returns 0 exactly when somewhere between
    [KERNBASE] and the top that many consecutive pages are untranslated; the
    address it returns is then that of the topmost such run: its highest page, or
    the translated page just above it when there is one. *)
Theorem find_contiguous_complete `{KernelImage} root n s :
  pt_wf (mem s) root -> 0 < n ->
  exists code base_va, find_contiguous_pages root n s = Done (code, base_va) s /\
    (code = 0 \/ code = -1) /\
    (code = 0 <-> exists lo, run_place n lo /\ free_run (mem s) root lo n) /\
    (code = 0 -> found_run (mem s) root n base_va).
Proof.
  intros Hwf Hn. destruct (find_contiguous_pages_done root n s Hwf Hn) as ([code b] & E & Hres).
  exists code, b. split; [done|]. destruct Hres as [[Hc Hf]|[Hc Hnone]]; cbn [fst snd] in *; subst code.
  - split; [by left|]. split; [|done]. split; [|done]. intros _. destruct Hf as (lo & H1 & H2 & _). by exists lo.
  - split; [by right|]. split; [|done]. split; [done|]. intros (lo & H1 & H2). by destruct (Hnone lo H1 H2).
Qed.

Lemma find_contiguous_complete_witness :
  exists code base_va, find_contiguous_pages root1 34 (demo 10) = Done (code, base_va) (demo 10) /\
    (code = 0 \/ code = -1) /\
    (code = 0 <-> exists lo, run_place 34 lo /\ free_run (mem (demo 10)) root1 lo 34) /\
    (code = 0 -> found_run (mem (demo 10)) root1 34 base_va).
Proof.
  apply (find_contiguous_complete root1 34 (demo 10)).
  - apply (vm_wf _ _ _ (demo_inv_1 10 ltac:(lia))).
  - reflexivity.
Defined.
