(* ===== verification/RingbufU.v ===== *)
(** * The user library, [user/ringbuf.c]

    A ring is shared memory: 64 KB mapped twice and a book page with two
    counters, the bytes read and the bytes written so far.  The library functions
    are sequences of sequentially consistent loads and stores of the counters;
    [prog] is such a sequence, so that one definition serves a single thread
    ([run]) and the interleaving of a reader and a writer ([step]). *)

From S2P Require Import Prelude Riscv.

Definition MAX_USR_RINGBUF : Z := 10.
Definition USR_RINGBUF_SIZE : Z := 16.

Record user_ring_buf := UserRingBuf { ubuf : Z; ubook : Z; uexists : Z }.

(** [struct book]: the counters. *)
Record book_t := Book { read_done : Z; write_done : Z }.

(** ** Programs over the counters *)

Inductive prog (A : Type) : Type :=
| Ret (a : A)
| LoadRead (k : Z -> prog A)
| LoadWrite (k : Z -> prog A)
| StoreRead (v : Z) (k : prog A)
| StoreWrite (v : Z) (k : prog A)
| Exit.
Arguments Ret {A} a.
Arguments LoadRead {A} k.
Arguments LoadWrite {A} k.
Arguments StoreRead {A} v k.
Arguments StoreWrite {A} v k.
Arguments Exit {A}.

(** One access; [None] when the program has ended. *)
Definition access {A} (p : prog A) (b : book_t) : option (prog A * book_t) :=
  match p with
  | Ret _ | Exit => None
  | LoadRead k => Some (k (read_done b), b)
  | LoadWrite k => Some (k (write_done b), b)
  | StoreRead v k => Some (k, Book v (write_done b))
  | StoreWrite v k => Some (k, Book (read_done b) v)
  end.

(** The whole program with nothing in between; [None] is [exit(1)]. *)
Fixpoint run {A} (p : prog A) (b : book_t) : option (A * book_t) :=
  match p with
  | Ret a => Some (a, b)
  | Exit => None
  | LoadRead k => run (k (read_done b)) b
  | LoadWrite k => run (k (write_done b)) b
  | StoreRead v k => run k (Book v (write_done b))
  | StoreWrite v k => run k (Book (read_done b) v)
  end.

(** ** The library *)

(** [user_ring_bufs[rd]]: the table has ten entries, [past] is what follows it
    in memory. *)
Definition entry (tab : list user_ring_buf) (past : user_ring_buf) (rd : Z) : user_ring_buf :=
  nth (Z.to_nat rd) tab past.

Definition is_rd_valid (tab : list user_ring_buf) (past : user_ring_buf) (rd : Z) : Z :=
  if (rd <? 0) || (MAX_USR_RINGBUF <? rd) || (uexists (entry tab past rd) =? 0) then -1 else 0.

(** [read % MAX_RINGBUF_BYTES], where the macro is [USR_RINGBUF_SIZE *PGSIZE]
    without parentheses. *)
Definition read_offset (read : Z) : Z := u64 (read mod USR_RINGBUF_SIZE * PGSIZE).

(** [write % (MAX_RINGBUF_BYTES)] *)
Definition write_offset (write : Z) : Z := write mod (USR_RINGBUF_SIZE * PGSIZE).

Definition ringbuf_start_read (tab : list user_ring_buf) (past : user_ring_buf) (rd : Z) : prog (Z * Z) :=
  if negb (is_rd_valid tab past rd =? 0) then Exit
  else
    let rb := entry tab past rd in
    LoadRead (fun read =>
    LoadWrite (fun write =>
    let src_addr := ubuf rb in
    let read_addr := u64 (src_addr + read_offset read) in
    Ret (read_addr, s32 (u64 (write - read))))).

(** The comparisons convert the [int] argument to [uint64]. *)
Definition ringbuf_finish_read (tab : list user_ring_buf) (past : user_ring_buf) (rd bytes : Z) : prog unit :=
  if negb (is_rd_valid tab past rd =? 0) then Exit
  else
    LoadRead (fun read =>
    LoadWrite (fun write =>
    if u64 (write - read) <? u64 bytes then Ret tt
    else if u64 bytes <=? write then StoreRead (u64 (read + u64 bytes)) (Ret tt)
    else Ret tt)).

Definition ringbuf_start_write (tab : list user_ring_buf) (past : user_ring_buf) (rd : Z) : prog (Z * Z) :=
  if negb (is_rd_valid tab past rd =? 0) then Exit
  else
    let rb := entry tab past rd in
    LoadRead (fun read =>
    LoadWrite (fun write =>
    let src_addr := ubuf rb in
    let write_addr := u64 (src_addr + write_offset write) in
    Ret (write_addr, s32 (u64 (USR_RINGBUF_SIZE * PGSIZE - u64 (write - read)))))).

Definition ringbuf_finish_write (tab : list user_ring_buf) (past : user_ring_buf) (rd bytes : Z) : prog unit :=
  if negb (is_rd_valid tab past rd =? 0) then Exit
  else
    LoadRead (fun read =>
    LoadWrite (fun write =>
    if u64 (USR_RINGBUF_SIZE * PGSIZE - u64 (write - read)) <? u64 bytes then Exit
    else StoreWrite (u64 (write + u64 bytes)) (Ret tt))).

(** [ringbuf_open] after the system call returned [r] and stored [addr]: the
    descriptor and the new table. *)
Fixpoint open_slot (tab : list user_ring_buf) (addr i : Z) : Z * list user_ring_buf :=
  match tab with
  | [] => (-1, [])
  | e :: tab =>
      if negb (uexists e =? 1) then
        let buf := u64 (addr - (2 * USR_RINGBUF_SIZE - 1) * PGSIZE) in
        let book := u64 (buf - PGSIZE) in
        (i, UserRingBuf buf book 1 :: tab)
      else let '(rd, tab') := open_slot tab addr (i + 1) in (rd, e :: tab')
  end.

Definition ringbuf_open (r addr : Z) (tab : list user_ring_buf) : Z * list user_ring_buf :=
  if negb (r =? 0) then (-1, tab) else open_slot tab addr 0.

(** The address [ringbuf_close] stores for the system call. *)
Definition close_addr (e : user_ring_buf) : Z := u64 (ubuf e + (2 * USR_RINGBUF_SIZE - 1) * PGSIZE).

(** [ringbuf_close] when the system call, given [close_addr], returns [r]; [None]
    is [exit(1)]. *)
Definition ringbuf_close (tab : list user_ring_buf) (past : user_ring_buf) (rd : Z) (r : Z)
  : option (Z * list user_ring_buf) :=
  if negb (is_rd_valid tab past rd =? 0) then None
  else if negb (r =? 0) then Some (-1, tab)
  else Some (0, <[Z.to_nat rd := UserRingBuf 0 0 0]> tab).

(** ** One reader and one writer

    Each side calls the library in any order a client may, with any argument;
    between a [start] and a [finish] the writer stores bytes inside the window it
    was given.  [ring] is the content of the 64 KB, by offset. *)

Inductive phase : Type :=
| Idle
| Starting (p : prog (Z * Z))
| Window (addr bytes : Z)
| Finishing (p : prog unit)
| Exited.

Record sys := Sys { ring : Z -> Z; counters : book_t; reader_ : phase; writer : phase }.

Definition RING_BYTES : Z := USR_RINGBUF_SIZE * PGSIZE.

(** A store at address [a] of a ring mapped twice from [lo] on. *)
Definition ring_store (f : Z -> Z) (lo a v : Z) : Z -> Z :=
  fun o => if decide (o = (a - lo) mod RING_BYTES) then v else f o.

Section System.
(** Each side has its own table, and its descriptor of the ring. *)
Variables (rtab wtab : list user_ring_buf) (rpast wpast : user_ring_buf) (rrd wrd : Z).

Inductive step : sys -> sys -> Prop :=
| r_start f b w ph : ph = Idle \/ (exists a n, ph = Window a n) ->
    step (Sys f b ph w) (Sys f b (Starting (ringbuf_start_read rtab rpast rrd)) w)
| r_finish f b w ph n : ph = Idle \/ (exists a k, ph = Window a k) -> - 2 ^ 31 <= n < 2 ^ 31 ->
    step (Sys f b ph w) (Sys f b (Finishing (ringbuf_finish_read rtab rpast rrd n)) w)
| r_access_start f b w p p' b' : access p b = Some (p', b') ->
    step (Sys f b (Starting p) w) (Sys f b' (Starting p') w)
| r_access_finish f b w p p' b' : access p b = Some (p', b') ->
    step (Sys f b (Finishing p) w) (Sys f b' (Finishing p') w)
| r_window f b w a n : step (Sys f b (Starting (Ret (a, n))) w) (Sys f b (Window a n) w)
| r_done f b w : step (Sys f b (Finishing (Ret tt)) w) (Sys f b Idle w)
| r_exit_start f b w : step (Sys f b (Starting Exit) w) (Sys f b Exited w)
| r_exit_finish f b w : step (Sys f b (Finishing Exit) w) (Sys f b Exited w)
| w_start f b r ph : ph = Idle \/ (exists a n, ph = Window a n) ->
    step (Sys f b r ph) (Sys f b r (Starting (ringbuf_start_write wtab wpast wrd)))
| w_finish f b r ph n : ph = Idle \/ (exists a k, ph = Window a k) -> - 2 ^ 31 <= n < 2 ^ 31 ->
    step (Sys f b r ph) (Sys f b r (Finishing (ringbuf_finish_write wtab wpast wrd n)))
| w_access_start f b r p p' b' : access p b = Some (p', b') ->
    step (Sys f b r (Starting p)) (Sys f b' r (Starting p'))
| w_access_finish f b r p p' b' : access p b = Some (p', b') ->
    step (Sys f b r (Finishing p)) (Sys f b' r (Finishing p'))
| w_window f b r a n : step (Sys f b r (Starting (Ret (a, n)))) (Sys f b r (Window a n))
| w_done f b r : step (Sys f b r (Finishing (Ret tt))) (Sys f b r Idle)
| w_exit_start f b r : step (Sys f b r (Starting Exit)) (Sys f b r Exited)
| w_exit_finish f b r : step (Sys f b r (Finishing Exit)) (Sys f b r Exited)
| w_store f b r a n k v : 0 <= k < n ->
    step (Sys f b r (Window a n))
         (Sys (ring_store f (ubuf (entry wtab wpast wrd)) (a + k) v) b r (Window a n)).

(** A run from [x] to [y]: the bytes read and written in all are [R] and [W] in [x] and [R'] and
    [W'] in [y]; a step adds to them what it adds to the counters, modulo [2 ^ 64]. *)
Inductive counted (x : sys) (R W : Z) : sys -> Z -> Z -> Prop :=
| counted_refl : counted x R W x R W
| counted_step y R1 W1 z : counted x R W y R1 W1 -> step y z ->
    counted x R W z (R1 + u64 (read_done (counters z) - read_done (counters y)))
                    (W1 + u64 (write_done (counters z) - write_done (counters y))).

(** Both sides idle, nothing read or written. *)
Definition initial (f : Z -> Z) : sys := Sys f (Book 0 0) Idle Idle.
End System.
