(* ===== verification/RingbufUSpec.v ===== *)
(** * Correctness of the user library

    For every interleaving of one reader and one writer, with any arguments: the
    counters stay within one ring of each other, the writer's window never covers
    unread bytes, and an unread byte keeps its value until it is read.  The
    sequential functions are characterised exactly, the reader's address
    included. *)

From S2P Require Import Prelude Riscv RingbufU.

(** ** Arithmetic modulo the word size *)

Lemma u64_diff W R : 0 <= W - R <= RING_BYTES -> u64 (u64 W - u64 R) = W - R.
Proof.
  intros Hd. unfold u64. rewrite <-Zminus_mod. apply Z.mod_small. change RING_BYTES with 65536 in Hd. lia.
Qed.

Lemma u64_add_l a b : u64 (u64 a + b) = u64 (a + b).
Proof. unfold u64. apply Z.add_mod_idemp_l. lia. Qed.

Lemma write_offset_u64 W : write_offset (u64 W) = W mod RING_BYTES.
Proof.
  unfold write_offset, u64. change (USR_RINGBUF_SIZE * PGSIZE) with RING_BYTES.
  change RING_BYTES with (2 ^ 16). apply Z.mod_mod_divide. exists (2 ^ 48). done.
Qed.

Lemma read_offset_spec R : read_offset (u64 R) = R mod 16 * 4096.
Proof.
  unfold read_offset, USR_RINGBUF_SIZE, PGSIZE, u64.
  rewrite Z.mod_mod_divide by (exists (2 ^ 60); done). apply Z.mod_small. lia.
Qed.

Section Spsc.
Variables (rtab wtab : list user_ring_buf) (rpast wpast : user_ring_buf) (rrd wrd : Z).

Let wbuf := ubuf (entry wtab wpast wrd).
Hypothesis Hwbuf : 0 <= wbuf /\ wbuf + 2 * RING_BYTES <= 2 ^ 64.

(** Programs that store nothing. *)
Inductive loads_only {A} : prog A -> Prop :=
| lo_ret a : loads_only (Ret a)
| lo_exit : loads_only Exit
| lo_read k : (forall v, loads_only (k v)) -> loads_only (LoadRead k)
| lo_write k : (forall v, loads_only (k v)) -> loads_only (LoadWrite k).

Lemma loads_only_access {A} (p p' : prog A) b b' :
  loads_only p -> access p b = Some (p', b') -> b' = b /\ loads_only p'.
Proof. intros [] [= <- <-]; auto. Qed.

(** [R] and [W] count the bytes read and written without wrap-around.  The
    reader has not loaded more than was written, and what it is about to store
    is between its own counter and the writer's. *)
Definition r_ok (R W : Z) (ph : phase) : Prop :=
  match ph with
  | Starting p => loads_only p
  | Finishing p =>
      loads_only p \/ (exists n, p = ringbuf_finish_read rtab rpast rrd n) \/
      (exists n, p = LoadWrite (fun write =>
         if u64 (write - u64 R) <? u64 n then Ret tt
         else if u64 n <=? write then StoreRead (u64 (u64 R + u64 n)) (Ret tt)
         else Ret tt)) \/
      (exists d, 0 <= d <= W - R /\ p = StoreRead (u64 (R + d)) (Ret tt))
  | _ => True
  end.

(** [R0] is a value the reader's counter had when the writer loaded it. *)
Definition window_ok (R W R0 a n : Z) : Prop :=
  R0 <= R /\ W <= R0 + RING_BYTES /\ a = wbuf + W mod RING_BYTES /\ n = RING_BYTES - (W - R0).

Definition w_ok (R W : Z) (ph : phase) : Prop :=
  match ph with
  | Starting p =>
      p = ringbuf_start_write wtab wpast wrd \/ p = Exit \/
      (exists R0, R0 <= R /\ W <= R0 + RING_BYTES /\ p = LoadWrite (fun write =>
         Ret (u64 (wbuf + write_offset write),
              s32 (u64 (USR_RINGBUF_SIZE * PGSIZE - u64 (write - u64 R0)))))) \/
      (exists R0 a n, window_ok R W R0 a n /\ p = Ret (a, n))
  | Window a n => exists R0, window_ok R W R0 a n
  | Finishing p =>
      loads_only p \/ (exists n, p = ringbuf_finish_write wtab wpast wrd n) \/
      (exists n R0, R0 <= R /\ W <= R0 + RING_BYTES /\ p = LoadWrite (fun write =>
         if u64 (USR_RINGBUF_SIZE * PGSIZE - u64 (write - u64 R0)) <? u64 n then Exit
         else StoreWrite (u64 (write + u64 n)) (Ret tt))) \/
      (exists d, 0 <= d /\ W + d <= R + RING_BYTES /\ p = StoreWrite (u64 (W + d)) (Ret tt))
  | _ => True
  end.

Record inv (R W : Z) (x : sys) : Prop := {
  inv_bounds : 0 <= R <= W /\ W <= R + RING_BYTES;
  inv_counters : counters x = Book (u64 R) (u64 W);
  inv_reader : r_ok R W (reader_ x);
  inv_writer : w_ok R W (writer x);
}.

(** ** The two sides do not disturb each other *)

Lemma r_ok_mono R W W' ph : W <= W' -> r_ok R W ph -> r_ok R W' ph.
Proof.
  intros HW. destruct ph as [| | |p|]; cbn; try done.
  intros [?|[?|[?|(d & Hd & ->)]]]; [by left|by right; left|by right; right; left|].
  do 3 right. exists d. split; [lia|done].
Qed.

Lemma w_ok_mono R R' W ph : R <= R' -> w_ok R W ph -> w_ok R' W ph.
Proof.
  intros HR. destruct ph as [|p|a n|p|]; cbn; try done.
  - intros [?|[?|[(R0 & ? & ? & ->)|(R0 & a & n & (? & ? & ? & ?) & ->)]]]; [by left|by right; left| |].
    + do 2 right. left. exists R0. split_and!; [lia|done|done].
    + do 3 right. exists R0, a, n. split; [|done]. split; [lia|done].
  - intros (R0 & ? & ? & ? & ?). exists R0. split; [lia|done].
  - intros [?|[?|[(n & R0 & ? & ? & ->)|(d & ? & ? & ->)]]]; [by left|by right; left| |].
    + do 2 right. left. exists n, R0. split_and!; [lia|done|done].
    + do 3 right. exists d. split_and!; [done|lia|done].
Qed.

Lemma start_read_loads : loads_only (ringbuf_start_read rtab rpast rrd).
Proof. unfold ringbuf_start_read. case_match; repeat constructor. Qed.

(** ** Reader accesses *)

Lemma r_finish_access R W p p' b' :
  0 <= R <= W -> W <= R + RING_BYTES -> r_ok R W (Finishing p) ->
  access p (Book (u64 R) (u64 W)) = Some (p', b') ->
  exists R', R <= R' <= W /\ b' = Book (u64 R') (u64 W) /\ r_ok R' W (Finishing p').
Proof.
  intros HR HW [Hlo|[(n & ->)|[(n & ->)|(d & Hd & ->)]]] Ha.
  - destruct (loads_only_access _ _ _ _ Hlo Ha) as [-> Hlo']. exists R.
    split_and!; [lia|lia|done|by left].
  - unfold ringbuf_finish_read in Ha. destruct (negb _); [done|]. injection Ha as <- <-.
    exists R. split_and!; [lia|lia|done|]. right. right. left. by exists n.
  - injection Ha as <- <-. cbn [write_done]. exists R. split_and!; [lia|lia|done|].
    rewrite u64_diff by lia. destruct (Z.ltb_spec (W - R) (u64 n)); [left; constructor|].
    destruct (u64 n <=? u64 W); [|left; constructor]. do 3 right. exists (u64 n).
    pose proof (u64_range n). split; [lia|]. by rewrite u64_add_l.
  - injection Ha as <- <-. exists (R + d). split_and!; [lia|lia|done|]. left. constructor.
Qed.

(** ** Writer accesses *)

Lemma window_result R W R0 :
  R0 <= W -> W <= R0 + RING_BYTES -> R0 <= R ->
  window_ok R W R0 (u64 (wbuf + write_offset (u64 W)))
    (s32 (u64 (USR_RINGBUF_SIZE * PGSIZE - u64 (u64 W - u64 R0)))).
Proof.
  intros HR HW Hle. split; [done|]. split; [done|]. change (USR_RINGBUF_SIZE * PGSIZE) with RING_BYTES.
  rewrite u64_diff by lia. rewrite write_offset_u64.
  assert (0 <= W mod RING_BYTES < RING_BYTES) by (apply Z.mod_pos_bound; done).
  change RING_BYTES with 65536 in *. rewrite !u64_small by lia. by rewrite s32_small by lia.
Qed.

Lemma w_start_access R W p p' b' :
  0 <= R <= W -> W <= R + RING_BYTES -> w_ok R W (Starting p) ->
  access p (Book (u64 R) (u64 W)) = Some (p', b') ->
  b' = Book (u64 R) (u64 W) /\ w_ok R W (Starting p').
Proof.
  intros HR HW [->|[->|[(R0 & H1 & H2 & ->)|(R0 & a & n & _ & ->)]]] Ha; [|done| |done].
  - unfold ringbuf_start_write in Ha. destruct (negb _); [done|]. injection Ha as <- <-.
    split; [done|]. right. right. left. exists R. split; [lia|done].
  - injection Ha as <- <-. split; [done|]. do 3 right. eexists R0, _, _. split; [|reflexivity].
    apply window_result; lia.
Qed.

Lemma w_finish_access R W p p' b' :
  0 <= R <= W -> W <= R + RING_BYTES -> w_ok R W (Finishing p) ->
  access p (Book (u64 R) (u64 W)) = Some (p', b') ->
  exists W', W <= W' <= R + RING_BYTES /\ b' = Book (u64 R) (u64 W') /\ w_ok R W' (Finishing p').
Proof.
  intros HR HW [Hlo|[(n & ->)|[(n & R0 & H1 & H2 & ->)|(d & Hd & Hd' & ->)]]] Ha.
  - destruct (loads_only_access _ _ _ _ Hlo Ha) as [-> Hlo']. exists W.
    split_and!; [lia|lia|done|by left].
  - unfold ringbuf_finish_write in Ha. destruct (negb _); [done|]. injection Ha as <- <-.
    exists W. split_and!; [lia|lia|done|]. right. right. left. exists n, R. split; [lia|done].
  - injection Ha as <- <-. cbn [write_done]. exists W. split_and!; [lia|lia|done|].
    change (USR_RINGBUF_SIZE * PGSIZE) with RING_BYTES. rewrite u64_diff by lia.
    rewrite u64_small by (change RING_BYTES with 65536 in *; lia).
    destruct (Z.ltb_spec (RING_BYTES - (W - R0)) (u64 n)); [left; constructor|].
    do 3 right. exists (u64 n). pose proof (u64_range n). split_and!; [lia|lia|]. by rewrite u64_add_l.
  - injection Ha as <- <-. exists (W + d). split_and!; [lia|lia|done|]. left. constructor.
Qed.

(** ** Stores into the window *)

Lemma store_outside R W R0 a n k v i f :
  0 <= R <= W -> window_ok R W R0 a n -> 0 <= k < n -> R <= i < W ->
  ring_store f wbuf (a + k) v (i mod RING_BYTES) = f (i mod RING_BYTES).
Proof.
  intros HR (H1 & H2 & -> & ->) Hk Hi. unfold ring_store. rewrite decide_False; [done|].
  change RING_BYTES with 65536 in *. clear Hwbuf. lia.
Qed.

(** One step of the system. *)
Lemma inv_step R W x y :
  inv R W x -> step rtab wtab rpast wpast rrd wrd x y ->
  exists R' W', inv R' W' y /\ R <= R' <= R + RING_BYTES /\ W <= W' <= W + RING_BYTES /\
    forall i, R' <= i < W -> ring y (i mod RING_BYTES) = ring x (i mod RING_BYTES).
Proof.
  intros [[HR HW] Hc Hr Hw] Hs. assert (HB : 0 < RING_BYTES) by done.
  destruct Hs as [f b w ph|f b w ph n|f b w p p' b' Ha|f b w p p' b' Ha| | | | |
                  f b r ph|f b r ph n|f b r p p' b' Ha|f b r p p' b' Ha|f b r a n| | | |f b r a n k v Hk];
    cbn [ring counters reader_ writer] in *; subst.
  - exists R, W. split_and!; [|lia|lia|lia|lia|done]. split; [done|done|apply start_read_loads|done].
  - exists R, W. split_and!; [|lia|lia|lia|lia|done]. split; [done|done| |done]. right. left. by exists n.
  - destruct (loads_only_access _ _ _ _ Hr Ha) as [-> Hlo]. exists R, W. by split_and!; [split|lia|lia|lia|lia|].
  - destruct (r_finish_access R W p p' b' HR HW Hr Ha) as (R' & HR' & -> & Hr').
    exists R', W. split_and!; [|lia|lia|lia|lia|done]. split; [cbn; lia|done|done|]. by apply w_ok_mono with R; [lia|].
  - exists R, W. by split_and!; [split|lia|lia|lia|lia|].
  - exists R, W. by split_and!; [split|lia|lia|lia|lia|].
  - exists R, W. by split_and!; [split|lia|lia|lia|lia|].
  - exists R, W. by split_and!; [split|lia|lia|lia|lia|].
  - exists R, W. split_and!; [|lia|lia|lia|lia|done]. split; [done|done|done|by left].
  - exists R, W. split_and!; [|lia|lia|lia|lia|done]. split; [done|done|done|]. right. left. by exists n.
  - destruct (w_start_access R W p p' b' HR HW Hw Ha) as [-> Hw']. exists R, W. by split_and!; [split|lia|lia|lia|lia|].
  - destruct (w_finish_access R W p p' b' HR HW Hw Ha) as (W' & HW' & -> & Hw').
    exists R, W'. split_and!; [|lia|lia|lia|lia|done]. split; [cbn; lia|done| |done]. by apply r_ok_mono with W; [lia|].
  - exists R, W. split_and!; [|lia|lia|lia|lia|done]. split; [done|done|done|].
    destruct Hw as [Hw|[Hw|[(R0 & _ & _ & Hw)|(R0 & a' & n' & Hw & [= <- <-])]]]; [| |done|by exists R0].
    + unfold ringbuf_start_write in Hw. by destruct (negb _).
    + done.
  - exists R, W. by split_and!; [split|lia|lia|lia|lia|].
  - exists R, W. by split_and!; [split|lia|lia|lia|lia|].
  - exists R, W. by split_and!; [split|lia|lia|lia|lia|].
  - exists R, W. split_and!; [by split|lia|lia|lia|lia|]. intros i Hi. destruct Hw as [R0 Hw].
    by apply (store_outside R W R0 a n).
Qed.

(** The totals follow the counters, which a step changes by at most one ring. *)
Lemma u64_advance a b : a <= b <= a + RING_BYTES -> a + u64 (u64 b - u64 a) = b.
Proof. intros Hab. rewrite u64_diff by lia. lia. Qed.

Lemma inv_counted R W x y R' W' :
  inv R W x -> counted rtab wtab rpast wpast rrd wrd x R W y R' W' ->
  inv R' W' y /\ R <= R' /\ W <= W' /\ forall i, R' <= i < W -> ring y (i mod RING_BYTES) = ring x (i mod RING_BYTES).
Proof.
  intros Hi Hs. induction Hs as [|y R1 W1 z Hxy (Hi1 & HR1 & HW1 & Hk1) Hyz].
  - split; [done|]. split; [lia|]. split; [lia|done].
  - destruct (inv_step R1 W1 y z Hi1 Hyz) as (R2 & W2 & Hi2 & HR2 & HW2 & Hk2).
    rewrite (inv_counters _ _ _ Hi1), (inv_counters _ _ _ Hi2). cbn [read_done write_done]. rewrite !u64_advance by done.
    split; [done|]. split; [lia|]. split; [lia|]. intros i Hii. rewrite Hk2, Hk1; [done|lia|lia].
Qed.

Lemma inv_initial f : inv 0 0 (initial f).
Proof. by split. Qed.
End Spsc.

(** ** The library functions, one thread *)

Section Sequential.
Variables (tab : list user_ring_buf) (past : user_ring_buf) (rd : Z).
Hypothesis Hvalid : is_rd_valid tab past rd = 0.

Let buf := ubuf (entry tab past rd).
Hypothesis Hbuf : 0 <= buf /\ buf + 2 * RING_BYTES <= 2 ^ 64.

Variables (R W : Z).
Hypothesis HRW : 0 <= R <= W /\ W <= R + RING_BYTES.

Lemma run_start_read :
  run (ringbuf_start_read tab past rd) (Book (u64 R) (u64 W)) =
    Some ((u64 (buf + read_offset (u64 R)), W - R), Book (u64 R) (u64 W)).
Proof.
  clear Hbuf. unfold ringbuf_start_read. rewrite Hvalid. cbn [negb Z.eqb run read_done write_done].
  rewrite u64_diff by lia. rewrite s32_small by (change RING_BYTES with 65536 in *; lia). done.
Qed.

Lemma run_start_write :
  run (ringbuf_start_write tab past rd) (Book (u64 R) (u64 W)) =
    Some ((buf + W mod RING_BYTES, RING_BYTES - (W - R)), Book (u64 R) (u64 W)).
Proof.
  unfold ringbuf_start_write. rewrite Hvalid. cbn [negb Z.eqb run read_done write_done].
  destruct (window_result tab past rd Hbuf R W R) as (_ & _ & Ea & En); [lia..|].
  fold buf in Ea |- *. by rewrite Ea, En.
Qed.

Lemma run_finish_read n :
  0 <= n -> n <= W - R -> W < 2 ^ 64 ->
  run (ringbuf_finish_read tab past rd n) (Book (u64 R) (u64 W)) =
    Some (tt, Book (u64 (R + n)) (u64 W)).
Proof.
  clear Hbuf. intros Hn Hle HW. unfold ringbuf_finish_read. rewrite Hvalid. cbn [negb Z.eqb run read_done write_done].
  rewrite u64_diff by lia. rewrite (u64_small n) by (change RING_BYTES with 65536 in *; lia).
  destruct (Z.ltb_spec (W - R) n); [lia|]. rewrite (u64_small W) by lia.
  destruct (Z.leb_spec n W); [|lia]. cbn [run write_done]. by rewrite u64_add_l.
Qed.

(** More than there is, or a negative count, changes nothing. *)
Lemma run_finish_read_refused n :
  - 2 ^ 31 <= n < 2 ^ 31 -> n < 0 \/ W - R < n ->
  run (ringbuf_finish_read tab past rd n) (Book (u64 R) (u64 W)) = Some (tt, Book (u64 R) (u64 W)).
Proof.
  clear Hbuf. intros Hn Hout. unfold ringbuf_finish_read. rewrite Hvalid. cbn [negb Z.eqb run read_done write_done].
  rewrite u64_diff by lia. destruct (Z.ltb_spec (W - R) (u64 n)) as [|Hge]; [done|].
  exfalso. unfold u64 in Hge. change RING_BYTES with 65536 in *. lia.
Qed.

Lemma run_finish_write n :
  0 <= n -> n <= RING_BYTES - (W - R) ->
  run (ringbuf_finish_write tab past rd n) (Book (u64 R) (u64 W)) =
    Some (tt, Book (u64 R) (u64 (W + n))).
Proof.
  clear Hbuf. intros Hn Hle. unfold ringbuf_finish_write. rewrite Hvalid. cbn [negb Z.eqb run read_done write_done].
  change (USR_RINGBUF_SIZE * PGSIZE) with RING_BYTES. rewrite u64_diff by lia.
  rewrite (u64_small n), (u64_small (RING_BYTES - (W - R))) by (change RING_BYTES with 65536 in *; lia).
  destruct (Z.ltb_spec (RING_BYTES - (W - R)) n); [lia|]. cbn [run read_done]. by rewrite u64_add_l.
Qed.

(** More than there is room for, or a negative count, ends the process. *)
Lemma run_finish_write_refused n :
  - 2 ^ 31 <= n < 2 ^ 31 -> n < 0 \/ RING_BYTES - (W - R) < n ->
  run (ringbuf_finish_write tab past rd n) (Book (u64 R) (u64 W)) = None.
Proof.
  clear Hbuf. intros Hn Hout. unfold ringbuf_finish_write. rewrite Hvalid. cbn [negb Z.eqb run read_done write_done].
  change (USR_RINGBUF_SIZE * PGSIZE) with RING_BYTES. rewrite u64_diff by lia.
  rewrite (u64_small (RING_BYTES - (W - R))) by (change RING_BYTES with 65536 in *; lia).
  destruct (Z.ltb_spec (RING_BYTES - (W - R)) (u64 n)) as [|Hge]; [done|].
  exfalso. unfold u64 in Hge. change RING_BYTES with 65536 in *. lia.
Qed.
End Sequential.

(** ** Theorems *)

(** C5: for any interleaving of one reader and one writer of a ring, each calling
    the library in any order and with any byte counts, and for ever: let [R] and [W]
    be the bytes read and written in all when the system is in [x], and [R'] and [W']
    later, in [y].  The counters hold them modulo [2 ^ 64], the reader is never ahead
    of the writer nor the writer more than one ring ahead of the reader, and a byte
    that was written before [x] and is not yet read in [y] has kept its value,
    whatever the writer stored in the windows it was given. *)
Theorem spsc_unread_kept rtab wtab rpast wpast rrd wrd f x R W y R' W' :
  0 <= ubuf (entry wtab wpast wrd) /\ ubuf (entry wtab wpast wrd) + 2 * RING_BYTES <= 2 ^ 64 ->
  counted rtab wtab rpast wpast rrd wrd (initial f) 0 0 x R W ->
  counted rtab wtab rpast wpast rrd wrd x R W y R' W' ->
  counters x = Book (u64 R) (u64 W) /\ 0 <= R <= W /\ W <= R + RING_BYTES /\
  counters y = Book (u64 R') (u64 W') /\ R <= R' <= W' /\ W <= W' <= R' + RING_BYTES /\
  forall i, R' <= i < W -> ring y (i mod RING_BYTES) = ring x (i mod RING_BYTES).
Proof.
  intros Hb Hx Hy. destruct (inv_counted rtab wtab rpast wpast rrd wrd Hb 0 0 _ _ R W (inv_initial _ _ _ _ _ _ f) Hx) as (Hi & _).
  destruct (inv_counted rtab wtab rpast wpast rrd wrd Hb R W _ _ R' W' Hi Hy) as (Hi' & HR' & HW' & Hk).
  destruct (inv_bounds _ _ _ _ _ _ _ _ _ Hi), (inv_bounds _ _ _ _ _ _ _ _ _ Hi').
  split_and!; [apply Hi|lia|lia|lia|apply Hi'|lia|lia|lia|lia|done].
Qed.

(** C26: the address [ringbuf_start_read] returns.  The byte count is right, but
    the address is that of the next unread byte only when the number of bytes read
    so far is a multiple of the ring's size: the modulus is the macro
    [USR_RINGBUF_SIZE *PGSIZE] without parentheses. *)
Theorem start_read_address tab past rd R W :
  is_rd_valid tab past rd = 0 ->
  0 <= ubuf (entry tab past rd) /\ ubuf (entry tab past rd) + 2 * RING_BYTES <= 2 ^ 64 ->
  0 <= R <= W /\ W <= R + RING_BYTES ->
  exists addr,
    run (ringbuf_start_read tab past rd) (Book (u64 R) (u64 W)) =
      Some ((addr, W - R), Book (u64 R) (u64 W)) /\
    (addr = ubuf (entry tab past rd) + R mod RING_BYTES <-> R mod RING_BYTES = 0).
Proof.
  intros Hv Hb HRW. eexists. split; [by apply run_start_read|].
  rewrite read_offset_spec. change RING_BYTES with 65536 in *.
  rewrite u64_small by lia. clear Hv. lia.
Qed.

(** Producing [n] bytes and consuming them.  When there is room for [n] bytes,
    the writer's window has room for them, finishing the write makes exactly them
    available to the reader, and finishing the read makes the room available to
    the writer again; the counters advance by [n] and nothing else. *)
Theorem write_read_cycle tab past rd R W n :
  is_rd_valid tab past rd = 0 ->
  0 <= ubuf (entry tab past rd) /\ ubuf (entry tab past rd) + 2 * RING_BYTES <= 2 ^ 64 ->
  0 <= R <= W -> W < 2 ^ 64 - RING_BYTES -> 0 <= n <= RING_BYTES - (W - R) ->
  let buf := ubuf (entry tab past rd) in
  run (ringbuf_start_write tab past rd) (Book R W) =
    Some ((buf + W mod RING_BYTES, RING_BYTES - (W - R)), Book R W) /\
  run (ringbuf_finish_write tab past rd n) (Book R W) = Some (tt, Book R (W + n)) /\
  (exists addr, run (ringbuf_start_read tab past rd) (Book R (W + n)) =
     Some ((addr, W + n - R), Book R (W + n))) /\
  run (ringbuf_finish_read tab past rd n) (Book R (W + n)) = Some (tt, Book (R + n) (W + n)).
Proof.
  intros Hv Hb HR HW Hn buf.
  assert (HB : RING_BYTES = 65536) by done.
  assert (E1 : u64 R = R) by (apply u64_small; lia). assert (E2 : u64 W = W) by (apply u64_small; lia).
  assert (E3 : u64 (W + n) = W + n) by (apply u64_small; lia).
  assert (E4 : u64 (R + n) = R + n) by (apply u64_small; lia).
  split_and!.
  - pose proof (run_start_write tab past rd Hv Hb R W ltac:(lia)) as E. by rewrite E1, E2 in E.
  - pose proof (run_finish_write tab past rd Hv R W ltac:(lia) n ltac:(lia) ltac:(lia)) as E.
    by rewrite E1, E2, E3 in E.
  - pose proof (run_start_read tab past rd Hv R (W + n) ltac:(lia)) as E. rewrite E1, E3 in E. eauto.
  - pose proof (run_finish_read tab past rd Hv R (W + n) ltac:(lia) n ltac:(lia) ltac:(lia) ltac:(lia)) as E.
    by rewrite E1, E3, E4 in E.
Qed.

(** Byte counts outside the window.  A count that is negative or more than is
    available leaves the reader's counter alone, and ends a writer's process; so
    no argument takes the counters out of their bounds. *)
Theorem finish_refuses tab past rd R W n :
  is_rd_valid tab past rd = 0 -> 0 <= R <= W /\ W <= R + RING_BYTES -> - 2 ^ 31 <= n < 2 ^ 31 ->
  (n < 0 \/ W - R < n ->
     run (ringbuf_finish_read tab past rd n) (Book (u64 R) (u64 W)) = Some (tt, Book (u64 R) (u64 W))) /\
  (n < 0 \/ RING_BYTES - (W - R) < n ->
     run (ringbuf_finish_write tab past rd n) (Book (u64 R) (u64 W)) = None).
Proof.
  intros Hv HRW Hn. split; intros Ho.
  - by apply run_finish_read_refused.
  - by apply run_finish_write_refused.
Qed.

(** ** Opening and closing descriptors *)

Lemma open_slot_spec tab addr i rd tab' :
  open_slot tab addr i = (rd, tab') -> rd <> -1 -> 0 <= i ->
  exists j, rd = i + Z.of_nat j /\ (j < length tab)%nat /\
    (forall e, tab !! j = Some e -> uexists e <> 1) /\
    tab' = <[j := UserRingBuf (u64 (addr - (2 * USR_RINGBUF_SIZE - 1) * PGSIZE))
                    (u64 (u64 (addr - (2 * USR_RINGBUF_SIZE - 1) * PGSIZE) - PGSIZE)) 1]> tab.
Proof.
  revert i rd tab'. induction tab as [|e tab IH]; intros i rd tab' E Hrd Hi; [by injection E|].
  cbn [open_slot] in E. destruct (Z.eqb_spec (uexists e) 1) as [He|He]; cbn [negb] in E.
  - destruct (open_slot tab addr (i + 1)) as [rd1 tab1] eqn:E1. injection E as <- <-.
    destruct (IH (i + 1) rd1 tab1 E1 Hrd ltac:(lia)) as (j & -> & Hj & Hfree & ->).
    exists (S j). split; [lia|]. split; [cbn; lia|]. split; [done|done].
  - injection E as <- <-. exists O. split; [lia|]. split; [cbn; lia|]. split; [|done].
    by intros ? [= <-].
Qed.

(** A descriptor from [ringbuf_open].  When the system call stored [addr], the
    descriptor is valid, was not in use, and its entry holds the lowest address of
    the ring, 31 pages below [addr], and the book page below it; closing the
    descriptor hands the kernel [addr] again and frees the entry, leaving all
    other entries as they were. *)
Theorem open_close_descriptor tab past addr rd tab' :
  length tab = Z.to_nat MAX_USR_RINGBUF -> 32 * PGSIZE <= addr < 2 ^ 64 ->
  ringbuf_open 0 addr tab = (rd, tab') -> rd <> -1 ->
  0 <= rd < MAX_USR_RINGBUF /\ is_rd_valid tab' past rd = 0 /\
  (forall e, tab !! Z.to_nat rd = Some e -> uexists e <> 1) /\
  entry tab' past rd = UserRingBuf (addr - 31 * PGSIZE) (addr - 32 * PGSIZE) 1 /\
  close_addr (entry tab' past rd) = addr /\
  exists tab2, ringbuf_close tab' past rd 0 = Some (0, tab2) /\
    (forall j, j <> Z.to_nat rd -> tab2 !! j = tab !! j) /\
    tab2 !! Z.to_nat rd = Some (UserRingBuf 0 0 0).
Proof.
  intros Hlen Haddr Hop Hrd. unfold ringbuf_open in Hop. cbn [negb Z.eqb] in Hop.
  destruct (open_slot_spec tab addr 0 rd tab' Hop Hrd ltac:(lia)) as (j & -> & Hj & Hfree & ->).
  set (e := UserRingBuf _ _ 1).
  assert (Ee : e = UserRingBuf (addr - 31 * PGSIZE) (addr - 32 * PGSIZE) 1).
  { unfold e. change ((2 * USR_RINGBUF_SIZE - 1) * PGSIZE) with (31 * PGSIZE).
    unfold PGSIZE in *. rewrite !u64_small by lia. f_equal. lia. }
  rewrite Z.add_0_l, Nat2Z.id in *.
  assert (Hent : entry (<[j := e]> tab) past (Z.of_nat j) = e).
  { unfold entry. rewrite Nat2Z.id. apply nth_lookup_Some. by apply list_lookup_insert_eq. }
  assert (Hval : is_rd_valid (<[j := e]> tab) past (Z.of_nat j) = 0).
  { unfold is_rd_valid. rewrite Hent. unfold MAX_USR_RINGBUF in *.
    destruct (Z.ltb_spec (Z.of_nat j) 0); [lia|]. by destruct (Z.ltb_spec 10 (Z.of_nat j)); [lia|]. }
  split; [unfold MAX_USR_RINGBUF in *; lia|]. split; [done|]. split; [done|]. rewrite Hent.
  split; [done|]. split.
  - rewrite Ee. unfold close_addr. cbn [ubuf]. unfold USR_RINGBUF_SIZE, PGSIZE in *.
    rewrite u64_small by lia. lia.
  - eexists. unfold ringbuf_close. rewrite Hval, Nat2Z.id. cbn [negb Z.eqb]. split; [reflexivity|]. split.
    + intros i Hi. by rewrite !list_lookup_insert_ne.
    + apply list_lookup_insert_eq. by rewrite length_insert.
Qed.

(** The descriptor check accepts 10, one past the ten entries, whenever the
    word that follows the table in memory makes it look used; every descriptor it
    accepts is otherwise that of an open ring. *)
Theorem is_rd_valid_accepts tab past rd :
  length tab = Z.to_nat MAX_USR_RINGBUF ->
  is_rd_valid tab past rd = 0 <->
    (exists e, 0 <= rd < MAX_USR_RINGBUF /\ tab !! Z.to_nat rd = Some e /\ uexists e <> 0) \/
    (rd = MAX_USR_RINGBUF /\ uexists past <> 0).
Proof.
  intros Hlen. unfold is_rd_valid, entry. change (Z.to_nat MAX_USR_RINGBUF) with 10%nat in Hlen.
  unfold MAX_USR_RINGBUF. destruct (Z.ltb_spec rd 0); cbn [orb]; [split; [done|intros [(x & ? & _)|[? _]]; lia]|].
  destruct (Z.ltb_spec 10 rd); cbn [orb]; [split; [done|intros [(x & ? & _)|[? _]]; lia]|].
  destruct (decide (rd = 10)) as [->|Hne].
  - rewrite nth_overflow by (rewrite Hlen; cbn; lia).
    destruct (Z.eqb_spec (uexists past) 0); split; try done; [intros [(x & ? & _)|[_ ?]]; [lia|done]|by right].
  - destruct (lookup_lt_is_Some_2 tab (Z.to_nat rd)) as [e He]; [lia|].
    rewrite (nth_lookup_Some _ _ _ _ He). destruct (Z.eqb_spec (uexists e) 0); split; try done.
    + intros [(e' & _ & He' & Hx)|[? _]]; [congruence|done].
    + intros _. left. exists e. split; [lia|done].
Qed.

(** ** A concrete ring *)

Definition demo_tab : list user_ring_buf := UserRingBuf 1048576 1044480 1 :: replicate 9 (UserRingBuf 0 0 0).
Definition demo_past : user_ring_buf := UserRingBuf 0 0 0.

Lemma is_rd_valid_accepts_witness :
  is_rd_valid demo_tab (UserRingBuf 5 5 5) 10 = 0 <->
    (exists e, 0 <= 10 < MAX_USR_RINGBUF /\ demo_tab !! Z.to_nat 10 = Some e /\ uexists e <> 0) \/
    (10 = MAX_USR_RINGBUF /\ uexists (UserRingBuf 5 5 5) <> 0).
Proof. apply (is_rd_valid_accepts demo_tab (UserRingBuf 5 5 5) 10). reflexivity. Defined.

Lemma open_close_descriptor_witness :
  exists tab', ringbuf_open 0 274877890560 demo_tab = (1, tab') /\
    is_rd_valid tab' demo_past 1 = 0 /\ close_addr (entry tab' demo_past 1) = 274877890560.
Proof.
  eexists. split; [reflexivity|].
  destruct (open_close_descriptor demo_tab demo_past 274877890560 1 _ eq_refl
              ltac:(split; vm_compute; congruence) eq_refl ltac:(discriminate)) as (_ & H1 & _ & _ & H2 & _).
  split; [exact H1|exact H2].
Defined.

Lemma finish_refuses_witness :
  run (ringbuf_finish_read demo_tab demo_past 0 101) (Book 0 100) = Some (tt, Book 0 100) /\
  run (ringbuf_finish_write demo_tab demo_past 0 (-1)) (Book 0 100) = None.
Proof.
  destruct (finish_refuses demo_tab demo_past 0 0 100 101) as [H1 _];
    [reflexivity|split; [|vm_compute; congruence]; split; vm_compute; congruence|split; vm_compute; congruence|].
  destruct (finish_refuses demo_tab demo_past 0 0 100 (-1)) as [_ H2];
    [reflexivity|split; [|vm_compute; congruence]; split; vm_compute; congruence|split; vm_compute; congruence|].
  split; [apply H1; right; reflexivity|apply H2; left; reflexivity].
Defined.

Lemma write_read_cycle_witness :
  run (ringbuf_start_write demo_tab demo_past 0) (Book 4096 65536) = Some ((1048576, 4096), Book 4096 65536) /\
  run (ringbuf_finish_write demo_tab demo_past 0 4096) (Book 4096 65536) = Some (tt, Book 4096 69632) /\
  run (ringbuf_finish_read demo_tab demo_past 0 4096) (Book 4096 69632) = Some (tt, Book 8192 69632).
Proof.
  destruct (write_read_cycle demo_tab demo_past 0 4096 65536 4096) as (H1 & H2 & _ & H4);
    [reflexivity|split; vm_compute; congruence|lia|vm_compute; congruence|split; vm_compute; congruence|].
  split; [exact H1|]. split; [exact H2|exact H4].
Defined.

(** After the first page was read, the reader is sent to the first page again. *)
Lemma start_read_address_witness :
  exists addr, run (ringbuf_start_read demo_tab demo_past 0) (Book (u64 4096) (u64 8192)) =
      Some ((addr, 4096), Book (u64 4096) (u64 8192)) /\
    (addr = 1048576 + 4096 mod RING_BYTES <-> 4096 mod RING_BYTES = 0).
Proof.
  apply (start_read_address demo_tab demo_past 0 4096 8192);
    [reflexivity|split; vm_compute; congruence|split; [|vm_compute; congruence]; split; vm_compute; congruence].
Defined.

Lemma counted_left rtab wtab rpast wpast rrd wrd x R W y z R' W' :
  step rtab wtab rpast wpast rrd wrd x y ->
  counted rtab wtab rpast wpast rrd wrd y (R + u64 (read_done (counters y) - read_done (counters x)))
    (W + u64 (write_done (counters y) - write_done (counters x))) z R' W' ->
  counted rtab wtab rpast wpast rrd wrd x R W z R' W'.
Proof.
  intros Hxy Hyz. induction Hyz as [|u R1 W1 v Hyu IH Huv]; (eapply counted_step; [|done]); [apply counted_refl|exact IH].
Qed.

(** A step that loads or stores, or ends a library call. *)
Ltac sys_step :=
  eapply counted_left;
  [first [eapply w_access_start; reflexivity | eapply w_access_finish; reflexivity
         |eapply r_access_start; reflexivity | eapply r_access_finish; reflexivity
         |apply w_window|apply w_done|apply r_window|apply r_done]|cbn].

(** The writer stores 77 in its window and finishes a write of one byte. *)
Lemma demo_written :
  counted demo_tab demo_tab demo_past demo_past 0 0 (initial (fun _ => 0)) 0 0
    (Sys (ring_store (fun _ => 0) 1048576 1048576 77) (Book 0 1) Idle Idle) 0 1.
Proof.
  eapply counted_left; [apply w_start; by left|]. do 3 sys_step.
  eapply counted_left; [apply (w_store _ _ _ _ _ _ _ _ _ 1048576 65536 0 77); lia|].
  eapply counted_left; [apply (w_finish _ _ _ _ _ _ _ _ _ _ 1); [right; eauto|lia]|]. do 4 sys_step.
  apply counted_refl.
Qed.

(** The writer starts over and overwrites the next byte. *)
Lemma demo_written_again f :
  counted demo_tab demo_tab demo_past demo_past 0 0 (Sys f (Book 0 1) Idle Idle) 0 1
    (Sys (ring_store f 1048576 1048577 78) (Book 0 1) Idle (Window 1048577 65535)) 0 1.
Proof.
  eapply counted_left; [apply w_start; by left|]. do 3 sys_step.
  eapply counted_left; [apply (w_store _ _ _ _ _ _ _ _ _ 1048577 65535 0 78); lia|]. apply counted_refl.
Qed.

Lemma spsc_unread_kept_witness :
  ring_store (ring_store (fun _ => 0) 1048576 1048576 77) 1048576 1048577 78 (0 mod RING_BYTES) =
    ring_store (fun _ => 0) 1048576 1048576 77 (0 mod RING_BYTES) /\
  ring_store (fun _ => 0) 1048576 1048576 77 (0 mod RING_BYTES) = 77.
Proof.
  split; [|reflexivity].
  apply (spsc_unread_kept demo_tab demo_tab demo_past demo_past 0 0 (fun _ => 0) _ 0 1 _ 0 1
           ltac:(split; vm_compute; congruence) demo_written (demo_written_again _)). lia.
Defined.
