(* ===== verification/RingbufE2E.v ===== *)
(** * Kernel and library together

    The addresses the user library computes, in an address space the system call
    has set up: a window is contiguous in virtual memory wherever the ring wraps,
    a byte stored through the writer's window is the byte the reader's process
    has at that position of the stream, and unread bytes are out of reach. *)

From S2P Require Import Prelude Mem CString Riscv Kalloc Vm PageTable VmSpec VmCopy.
From S2P Require Import RingbufK RingbufFind RingbufMap RingbufSpec RingbufClose Demo RingbufProps RingbufCycle.
From S2P Require Import RingbufU RingbufUSpec.

Section E2E.
Context `{KernelImage}.

Lemma ring_bytes_eq : RING_BYTES = RINGBUF_BYTES.
Proof. reflexivity. Qed.

(** Offsets that run off the first copy continue in the second. *)
Lemma ring_wrap m root base rb off :
  client_ring m root base rb -> 0 <= off < 2 * RINGBUF_BYTES ->
  uaddr m root (ring_lo base + off) = uaddr m root (ring_lo base + off mod RINGBUF_BYTES).
Proof.
  intros Hc Hoff. assert (HB : RINGBUF_BYTES = 65536) by done. destruct (decide (off < RINGBUF_BYTES)).
  - rewrite Z.mod_small; [done|lia].
  - replace (ring_lo base + off) with (ring_lo base + (off - RINGBUF_BYTES) + RINGBUF_BYTES) by lia.
    rewrite (cr_double _ _ _ _ Hc) by lia. do 2 f_equal. rewrite HB in *. lia.
Qed.

(** A position of the writer's window, in the window and modulo the ring. *)
Lemma window_position W R k :
  0 <= R <= W -> W <= R + RING_BYTES -> 0 <= k < RING_BYTES - (W - R) ->
  0 <= W mod RING_BYTES + k < 2 * RING_BYTES /\
  (W mod RING_BYTES + k) mod RING_BYTES = (W + k) mod RING_BYTES /\
  forall i, R <= i < W -> i mod RING_BYTES <> (W + k) mod RING_BYTES.
Proof.
  change RING_BYTES with 65536. intros HR HW Hk. split; [lia|]. split; [lia|]. intros i Hi. lia.
Qed.

(** C4: a store through the writer's window.  The writer's process and the
    reader's have the same ring buffer mapped, at their own addresses.  The
    library hands the writer an address and the number of free bytes; the byte
    stored [k] bytes into that window, also past the end of the ring, is the
    byte at position [W + k] of the stream in the reader's address space, and
    the store changes none of the bytes the reader has yet to read. *)
Theorem zero_copy_transfer m wroot rroot wbase rbase rb s L tab past rd R W :
  ring_at m wroot wbase rb -> ring_at m rroot rbase rb ->
  wbase mod PGSIZE = 0 -> rbase mod PGSIZE = 0 -> ring_pages wroot s L rb ->
  is_rd_valid tab past rd = 0 -> ubuf (entry tab past rd) = ring_lo wbase ->
  0 <= ring_lo wbase -> ring_lo wbase + 2 * RING_BYTES <= 2 ^ 64 ->
  0 <= R <= W -> W <= R + RING_BYTES ->
  exists a, run (ringbuf_start_write tab past rd) (Book (u64 R) (u64 W)) =
      Some ((a, RING_BYTES - (W - R)), Book (u64 R) (u64 W)) /\
    forall k v, 0 <= k < RING_BYTES - (W - R) ->
      let m' := mset m (uaddr m wroot (a + k)) v in
      mget m' (uaddr m rroot (ring_lo rbase + (W + k) mod RING_BYTES)) = u8 v /\
      forall i, R <= i < W ->
        mget m' (uaddr m rroot (ring_lo rbase + i mod RING_BYTES)) =
          mget m (uaddr m rroot (ring_lo rbase + i mod RING_BYTES)).
Proof.
  intros Hw Hr Hwa Hra Hpg Hv Hbuf Hlo Hhi HR HW.
  exists (ring_lo wbase + W mod RING_BYTES). split.
  { rewrite <-Hbuf. apply run_start_write; [done|rewrite Hbuf; lia|lia]. }
  intros k v Hk m'. destruct (window_position W R k HR HW Hk) as (Hp1 & Hp2 & Hp3).
  pose proof (client_ring_intro m wroot wbase rb s L Hw Hwa Hpg) as Hc.
  assert (HB : RING_BYTES = RINGBUF_BYTES) by done.
  assert (Hmod : forall x, 0 <= x mod RING_BYTES < RING_BYTES) by (intros; apply Z.mod_pos_bound; done).
  assert (Hag : forall off, 0 <= off < RING_BYTES ->
    uaddr m rroot (ring_lo rbase + off) = uaddr m wroot (ring_lo wbase + off)).
  { intros off Hoff. apply rings_agree with rb; try done.
    - intros j Hj. apply (owned_valid wroot s L). by apply ring_pages_buf.
    - apply (owned_valid _ _ _ _ (ring_pages_book _ _ _ _ Hpg)).
    - clear -Hoff. change RING_BYTES with RINGBUF_BYTES in Hoff. unfold PGSIZE. lia. }
  assert (Ea : uaddr m wroot (ring_lo wbase + W mod RING_BYTES + k) =
               uaddr m rroot (ring_lo rbase + (W + k) mod RING_BYTES)).
  { rewrite Hag by apply Hmod. rewrite <-Z.add_assoc, (ring_wrap _ _ _ _ _ Hc) by (rewrite <-HB; exact Hp1).
    by rewrite <-HB, Hp2. }
  unfold m'. rewrite Ea. split; [apply mget_mset_eq|]. intros i Hi. apply mget_mset_ne.
  rewrite !Hag by apply Hmod. intros E. apply (Hp3 i Hi). symmetry.
  apply (cr_inj _ _ _ _ Hc) in E; [done|rewrite <-HB; apply Hmod..].
Qed.
End E2E.

(** The descriptor of a ring at [base], in a process of the concrete machine. *)
Definition tab_of (base : Z) : list user_ring_buf :=
  UserRingBuf (ring_lo base) (ring_lo base - PGSIZE) 1 :: replicate 9 (UserRingBuf 0 0 0).

Lemma zero_copy_transfer_witness :
  exists r base rb, ringbuf empty_ringbuf root1 name_a true PGSIZE (demo_r 200) = Done 0 r /\
    exists a, run (ringbuf_start_write (tab_of base) demo_past 0) (Book (u64 10) (u64 65540)) =
        Some ((a, 6), Book (u64 10) (u64 65540)) /\
      mget (mset (mem (km r)) (uaddr (mem (km r)) root1 (a + 5)) 7)
        (uaddr (mem (km r)) root1 (ring_lo base + 9)) = 7 /\ refcount rb = 1.
Proof.
  destruct demo_created as (r & L & base & rb & E & Ho & Hlen & Hnm & Hrc & Hrbs & Hfrom).
  pose proof (op_place _ _ _ _ _ _ _ _ Ho) as Hp.
  pose proof (ring_place_bounds _ _ _ Hp) as (Hlo & Hhi & _ & _).
  pose proof (ring_view_at _ _ _ _ _ (rp_aligned _ _ _ Hp) Hlo Hhi (op_view _ _ _ _ _ _ _ _ Ho)) as Hat.
  exists r, base, rb. split; [exact E|]. clear E Hlen Hnm Hrbs Hfrom.
  destruct (zero_copy_transfer (mem (km r)) root1 root1 base base rb (km r) L (tab_of base) demo_past 0 10 65540)
    as (a & Ha & Hk).
  - exact Hat.
  - exact Hat.
  - exact (rp_aligned _ _ _ Hp).
  - exact (rp_aligned _ _ _ Hp).
  - exact (op_pages _ _ _ _ _ _ _ _ Ho).
  - reflexivity.
  - reflexivity.
  - clear -Hlo. unfold ring_lo, PGSIZE in *. lia.
  - clear -Hhi. change MAXVA with (2 ^ 38) in *. change RING_BYTES with 65536. unfold ring_lo, PGSIZE in *. lia.
  - lia.
  - vm_compute. congruence.
  - exists a. split; [exact Ha|]. split; [|exact Hrc].
    destruct (Hk 5 7 ltac:(split; vm_compute; congruence)) as [H1 _]. exact H1.
Defined.
