(* ===== verification/Pipe.v ===== *)
(** * Pipes, [kernel/pipe.c]

    The lock of a pipe is held from the start of an operation to its end except
    inside [sleep], so an operation is a sequence of bursts, each atomic: a burst
    ends with a return or with going to sleep, and is entered again after a
    wakeup.  User memory is a parameter of a burst: [get i] is the byte [copyin]
    reads at [addr + i] and [put i] says whether [copyout] can write there; so is
    [killed i], what [killed(pr)] answers at byte [i], for the flag is set by
    other processes that do not hold the pipe's lock. *)

From S2P Require Import Prelude.

Definition PIPESIZE : Z := 512.

Record pipe := Pipe {
  data : list Z;
  nread : Z;
  nwrite : Z;
  readopen : bool;
  writeopen : bool;
}.

(** The channels of [sleep] and [wakeup]: [&pi->nread] and [&pi->nwrite]. *)
Inductive chan := ChRead | ChWrite.

#[export] Instance chan_eq_dec : EqDecision chan.
Proof. solve_decision. Defined.

(** How a burst ends, with the channels it woke. *)
Inductive burst_end :=
| Return (r : Z)
| Sleep (ch : chan) (i : Z).

(** [pipealloc]'s initialisation of a fresh page; [junk] is its content. *)
Definition pipe_init (junk : list Z) : pipe := Pipe junk 0 0 true true.

(** [pipeclose]: the new state, the channel woken and whether the page is freed. *)
Definition pipeclose (pi : pipe) (writable : bool) : pipe * chan * bool :=
  let '(pi, woken) :=
    if writable then (Pipe (data pi) (nread pi) (nwrite pi) (readopen pi) false, ChRead)
    else (Pipe (data pi) (nread pi) (nwrite pi) false (writeopen pi), ChWrite) in
  (pi, woken, negb (readopen pi) && negb (writeopen pi)).

(** [pi->data[pi->nwrite++ % PIPESIZE] = ch] *)
Definition push (pi : pipe) (ch : Z) : pipe :=
  Pipe (<[Z.to_nat (nwrite pi mod PIPESIZE) := ch]> (data pi)) (nread pi) (u32 (nwrite pi + 1))
       (readopen pi) (writeopen pi).

(** [ch = pi->data[pi->nread++ % PIPESIZE]] *)
Definition front (pi : pipe) : Z := nth (Z.to_nat (nread pi mod PIPESIZE)) (data pi) 0.
Definition pop (pi : pipe) : pipe :=
  Pipe (data pi) (u32 (nread pi + 1)) (nwrite pi) (readopen pi) (writeopen pi).

(** A burst of [pipewrite] with [rem] bytes to go, from index [i] on: the new
    state, the channels woken and how it ends. *)
Fixpoint pipewrite_burst (rem : nat) (pi : pipe) (get : Z -> option Z) (killed : Z -> bool) (i : Z)
  : pipe * list chan * burst_end :=
  match rem with
  | O => (pi, [ChRead], Return i)
  | S rem =>
      if negb (readopen pi) || killed i then (pi, [], Return (-1))
      else if nwrite pi =? u32 (nread pi + PIPESIZE) then (pi, [ChRead], Sleep ChWrite i)
      else
        match get i with
        | None => (pi, [ChRead], Return i)
        | Some ch => pipewrite_burst rem (push pi ch) get killed (i + 1)
        end
  end.

(** [pipewrite(pi, addr, n)] from its start. *)
Definition pipewrite (pi : pipe) (get : Z -> option Z) (killed : Z -> bool) (n : Z) : pipe * list chan * burst_end :=
  pipewrite_burst (Z.to_nat n) pi get killed 0.

(** The copy loop of [piperead], [rem] bytes to go: the bytes taken out of the
    pipe and the value of [i] at the end (a byte that cannot be copied out is
    taken but not counted). *)
Fixpoint piperead_copy (rem : nat) (pi : pipe) (put : Z -> bool) (i : Z) : pipe * list Z * Z :=
  match rem with
  | O => (pi, [], i)
  | S rem =>
      if nread pi =? nwrite pi then (pi, [], i)
      else
        let ch := front pi in
        if put i then
          let '(pi', chs, i') := piperead_copy rem (pop pi) put (i + 1) in (pi', ch :: chs, i')
        else (pop pi, [ch], i)
  end.

(** A burst of [piperead]; the list holds the bytes taken out of the pipe. *)
Definition piperead (pi : pipe) (put : Z -> bool) (killed : bool) (n : Z)
  : pipe * list chan * list Z * burst_end :=
  if (nread pi =? nwrite pi) && writeopen pi then
    if killed then (pi, [], [], Return (-1)) else (pi, [], [], Sleep ChRead 0)
  else
    let '(pi', chs, i) := piperead_copy (Z.to_nat n) pi put 0 in
    (pi', [ChWrite], chs, Return i).

(** ** The abstract queue *)

(** The number of bytes in the pipe, and the bytes. *)
Definition used (pi : pipe) : Z := u32 (nwrite pi - nread pi).
Definition queue (pi : pipe) : list Z :=
  (fun k => nth (Z.to_nat ((nread pi + k) mod PIPESIZE)) (data pi) 0) <$> seqZ 0 (used pi).

Record pipe_inv (pi : pipe) : Prop := {
  pi_len : length (data pi) = Z.to_nat PIPESIZE;
  pi_nread : 0 <= nread pi < 2 ^ 32;
  pi_nwrite : 0 <= nwrite pi < 2 ^ 32;
  pi_used : 0 <= used pi <= PIPESIZE;
}.

Lemma full_iff pi : pipe_inv pi -> nwrite pi = u32 (nread pi + PIPESIZE) <-> used pi = PIPESIZE.
Proof. intros [_ H1 H2 H3]. unfold used, PIPESIZE, u32 in *. lia. Qed.

Lemma empty_iff pi : pipe_inv pi -> nread pi = nwrite pi <-> used pi = 0.
Proof. intros [_ H1 H2 H3]. unfold used, PIPESIZE, u32 in *. lia. Qed.

Lemma length_queue pi : 0 <= used pi -> Z.of_nat (length (queue pi)) = used pi.
Proof. intros. unfold queue. rewrite length_fmap, length_seqZ. lia. Qed.

Lemma push_spec pi ch :
  pipe_inv pi -> used pi < PIPESIZE -> pipe_inv (push pi ch) /\ queue (push pi ch) = queue pi ++ [ch].
Proof.
  intros [Hl H1 H2 H3] Hu. unfold used in *.
  assert (Hu' : u32 (u32 (nwrite pi + 1) - nread pi) = u32 (nwrite pi - nread pi) + 1).
  { unfold u32, PIPESIZE in *. lia. }
  split.
  - split; cbn [push data nread nwrite]; [by rewrite length_insert|done|apply u32_range|].
    unfold used. cbn [push nread nwrite]. unfold PIPESIZE in *. lia.
  - unfold queue, used. cbn [push nread nwrite data]. rewrite Hu'.
    rewrite seqZ_app, fmap_app by lia. f_equal.
    + apply list_fmap_ext. intros i k Hk%lookup_seqZ. rewrite !nth_lookup.
      rewrite list_lookup_insert_ne; [done|]. intros E. apply Z2Nat.inj in E; [|unfold PIPESIZE; lia..].
      unfold u32, PIPESIZE in *. lia.
    + rewrite Z.add_0_l, seqZ_one. cbn [fmap list_fmap]. f_equal.
      replace ((nread pi + u32 (nwrite pi - nread pi)) mod PIPESIZE) with (nwrite pi mod PIPESIZE).
      * apply nth_lookup_Some, list_lookup_insert_eq. rewrite Hl. unfold PIPESIZE. lia.
      * unfold u32, PIPESIZE in *. lia.
Qed.

Lemma pop_spec pi :
  pipe_inv pi -> 0 < used pi -> pipe_inv (pop pi) /\ queue pi = front pi :: queue (pop pi).
Proof.
  intros [Hl H1 H2 H3] Hu. unfold used in *.
  assert (Hu' : u32 (nwrite pi - u32 (nread pi + 1)) = u32 (nwrite pi - nread pi) - 1).
  { unfold u32, PIPESIZE in *. lia. }
  split.
  - split; cbn [pop data nread nwrite]; [done|apply u32_range|done|].
    unfold used. cbn [pop nread nwrite]. unfold PIPESIZE in *. lia.
  - unfold queue, used. cbn [pop nread nwrite data]. rewrite Hu'.
    rewrite seqZ_cons by lia. cbn [fmap list_fmap]. rewrite Z.add_0_r. f_equal.
    change (Z.succ 0) with (1 + 0). rewrite <-fmap_add_seqZ, <-list_fmap_compose.
    apply list_fmap_ext. intros i k Hk%lookup_seqZ. cbn. do 2 f_equal. unfold u32, PIPESIZE in *. lia.
Qed.

(** ** Bursts *)

(** The bytes user memory has from index [i] on. *)
Definition got (get : Z -> option Z) (i : Z) (chs : list Z) : Prop :=
  forall k ch, chs !! k = Some ch -> get (i + Z.of_nat k) = Some ch.

(** What a burst of [pipewrite] from index [i], [rem] bytes to go, does: it
    appends [chs] to the queue. *)
Definition write_effect (rem : nat) (pi : pipe) (get : Z -> option Z) (killed : Z -> bool) (i : Z)
    (pi' : pipe) (woken : list chan) (e : burst_end) (chs : list Z) : Prop :=
  pipe_inv pi' /\ queue pi' = queue pi ++ chs /\ got get i chs /\ nread pi' = nread pi /\
  readopen pi' = readopen pi /\ writeopen pi' = writeopen pi /\ (length chs <= rem)%nat /\
  ((woken = [ChRead] /\ e = Return (i + Z.of_nat (length chs)) /\
      (length chs = rem \/ get (i + Z.of_nat (length chs)) = None)) \/
   (woken = [] /\ e = Return (-1) /\
      (readopen pi = false /\ chs = [] \/ killed (i + Z.of_nat (length chs)) = true)) \/
   (woken = [ChRead] /\ e = Sleep ChWrite (i + Z.of_nat (length chs)) /\ used pi' = PIPESIZE /\
      readopen pi = true /\ (length chs < rem)%nat)).

Lemma write_effect_push rem pi get killed i pi' woken e chs ch :
  pipe_inv pi -> used pi < PIPESIZE -> get i = Some ch -> readopen pi = true ->
  write_effect rem (push pi ch) get killed (i + 1) pi' woken e chs ->
  write_effect (S rem) pi get killed i pi' woken e (ch :: chs).
Proof.
  intros Hi Hu Hg Hr (H1 & H2 & H3 & H4 & H5 & H6 & H7 & H8).
  destruct (push_spec pi ch Hi Hu) as [_ Hq]. rewrite Hq in H2. cbn [push nread readopen writeopen] in *.
  split; [done|]. split; [by rewrite H2, <-app_assoc|]. split.
  { intros [|k] c Hc; cbn in Hc; [injection Hc as <-; by rewrite Z.add_0_r|].
    replace (i + Z.of_nat (S k)) with (i + 1 + Z.of_nat k) by lia. by apply H3. }
  split_and!; [done|done|done|cbn; lia|].
  replace (i + Z.of_nat (length (ch :: chs))) with (i + 1 + Z.of_nat (length chs)) by (cbn; lia).
  destruct H8 as [(-> & -> & H8)|[(-> & -> & [[H8 _]|H8])|(-> & -> & H8 & _ & H9)]].
  - left. split; [done|]. split; [done|]. destruct H8; [left; cbn; lia|by right].
  - congruence.
  - right. left. split_and!; [done|done|by right].
  - right. right. split_and!; [done|done|done|done|cbn; lia].
Qed.

Lemma pipewrite_burst_spec rem pi get killed i :
  pipe_inv pi ->
  exists pi' woken e chs, pipewrite_burst rem pi get killed i = (pi', woken, e) /\
    write_effect rem pi get killed i pi' woken e chs.
Proof.
  revert pi i. induction rem as [|rem IH]; intros pi i Hi; cbn [pipewrite_burst].
  { exists pi, [ChRead], (Return i), []. split; [done|].
    split_and!; [done|by rewrite app_nil_r|done|done|done|done|cbn; lia|].
    left. split; [done|]. split; [cbn; by rewrite Z.add_0_r|by left]. }
  destruct (readopen pi) eqn:Er; cbn [negb orb].
  2:{ exists pi, [], (Return (-1)), []. split; [done|].
      split_and!; [done|by rewrite app_nil_r|done|done|done|done|cbn; lia|]. right. left. split_and!; [done..|by left]. }
  destruct (killed i) eqn:Ek.
  { exists pi, [], (Return (-1)), []. split; [done|].
    split_and!; [done|by rewrite app_nil_r|done|done|done|done|cbn; lia|]. right. left. split_and!; [done..|right; by cbn; rewrite Z.add_0_r]. }
  destruct (Z.eqb_spec (nwrite pi) (u32 (nread pi + PIPESIZE))) as [Hf|Hf].
  { exists pi, [ChRead], (Sleep ChWrite i), []. split; [done|].
    split_and!; [done|by rewrite app_nil_r|done|done|done|done|cbn; lia|].
    right. right. split_and!; [done|by cbn; rewrite Z.add_0_r|by apply full_iff|done|cbn; lia]. }
  assert (Hu : used pi < PIPESIZE).
  { pose proof (pi_used _ Hi). rewrite (full_iff pi Hi) in Hf. lia. }
  destruct (get i) as [ch|] eqn:Eg.
  - destruct (IH (push pi ch) (i + 1)) as (pi' & woken & e & chs & E & He); [by apply push_spec|].
    exists pi', woken, e, (ch :: chs). split; [done|]. by apply write_effect_push.
  - exists pi, [ChRead], (Return i), []. split; [done|].
    split_and!; [done|by rewrite app_nil_r|done|done|done|done|cbn; lia|].
    left. split_and!; [done|by cbn; rewrite Z.add_0_r|right; by cbn; rewrite Z.add_0_r].
Qed.

Lemma piperead_copy_spec rem pi put i :
  pipe_inv pi ->
  exists pi' chs i', piperead_copy rem pi put i = (pi', chs, i') /\
    pipe_inv pi' /\ queue pi = chs ++ queue pi' /\ nwrite pi' = nwrite pi /\
    readopen pi' = readopen pi /\ writeopen pi' = writeopen pi /\ i <= i' /\
    ((i' = i + Z.of_nat (length chs) /\ (length chs = rem \/ used pi' = 0)) \/
     (i' = i + Z.of_nat (length chs) - 1 /\ put i' = false)).
Proof.
  revert pi i. induction rem as [|rem IH]; intros pi i Hi; cbn [piperead_copy].
  { exists pi, [], i. split_and!; [done..|lia|]. left. split; [cbn; lia|by left]. }
  destruct (Z.eqb_spec (nread pi) (nwrite pi)) as [He|He].
  { exists pi, [], i. split_and!; [done..|lia|]. left. split; [cbn; lia|right; by apply empty_iff]. }
  assert (Hu : 0 < used pi).
  { pose proof (pi_used _ Hi). rewrite (empty_iff pi Hi) in He. lia. }
  destruct (pop_spec pi Hi Hu) as [Hi' Hq]. destruct (put i) eqn:Ep.
  - destruct (IH (pop pi) (i + 1) Hi') as (pi' & chs & i' & E & H1 & H2 & H3 & H4 & H5 & H6 & H7).
    rewrite E. exists pi', (front pi :: chs), i'. split_and!; [done|done|by rewrite Hq, H2|done..|lia|].
    destruct H7 as [[-> H7]|[-> H7]]; [left|right].
    + split; [cbn; lia|]. destruct H7; [left; cbn; lia|by right].
    + split; [cbn; lia|done].
  - exists (pop pi), [front pi], i. split_and!; [done..|lia|]. right. split; [cbn; lia|done].
Qed.

(** ** Many readers and writers *)

Inductive wthread := WIdle | WReady (get : Z -> option Z) (n i : Z) | WAsleep (get : Z -> option Z) (n i : Z).
Inductive rthread := RIdle | RReady (put : Z -> bool) (n : Z) | RAsleep (put : Z -> bool) (n : Z).

(** The pipe and its users.  Three fields record history: [sent], the bytes the writers' calls
    claim to have written, out of the writers' memory; [taken], the bytes the readers took; and
    [cut], whether a writer was killed after it had put bytes in, in the same burst. *)
Record psys := PSys {
  pp : pipe;
  wth : nat -> wthread;
  rth : nat -> rthread;
  sent : list Z;
  taken : list Z;
  cut : bool;
}.

Definition wake_w (w : list chan) (t : wthread) : wthread :=
  match t with WAsleep g n i => if decide (ChWrite ∈ w) then WReady g n i else t | _ => t end.
Definition wake_r (w : list chan) (t : rthread) : rthread :=
  match t with RAsleep p n => if decide (ChRead ∈ w) then RReady p n else t | _ => t end.

Definition after_write (e : burst_end) (get : Z -> option Z) (n : Z) : wthread :=
  match e with Return _ => WIdle | Sleep _ i => WAsleep get n i end.
Definition after_read (e : burst_end) (put : Z -> bool) (n : Z) : rthread :=
  match e with Return _ => RIdle | Sleep _ _ => RAsleep put n end.

(** One step of the system: a thread calls [write] or [read], runs a burst, or
    is woken by [kill]; or the last descriptor of an end is closed. *)
Inductive pop_op :=
| CallWrite (k : nat) (get : Z -> option Z) (n : Z)
| CallRead (k : nat) (put : Z -> bool) (n : Z)
| RunWrite (k : nat) (killed : Z -> bool)
| RunRead (k : nat) (killed : bool)
| CloseEnd (writable : bool)
| KillWriter (k : nat)
| KillReader (k : nat).

Definition cut_short (woken : list chan) (q q' : list Z) : bool :=
  match woken with [] => negb (bool_decide (q = q')) | _ => false end.

(** How many bytes a burst from index [i] on claims to have written: up to the index at which it
    returns or sleeps, or, when it returns -1, what it added to [nwrite]. *)
Definition burst_count (pi pi' : pipe) (i : Z) (e : burst_end) : Z :=
  match e with
  | Return r => if r <? 0 then u32 (nwrite pi' - nwrite pi) else r - i
  | Sleep _ j => j - i
  end.

Definition run_write (s : psys) (k : nat) (get : Z -> option Z) (n i : Z) (killed : Z -> bool) : psys :=
  let '(pi', woken, e) := pipewrite_burst (Z.to_nat (n - i)) (pp s) get killed i in
  PSys pi' (upd (fun j => wake_w woken (wth s j)) k (after_write e get n)) (fun j => wake_r woken (rth s j))
    (sent s ++ omap get (seqZ i (burst_count (pp s) pi' i e))) (taken s)
    (cut s || cut_short woken (queue (pp s)) (queue pi')).

Definition run_read (s : psys) (k : nat) (put : Z -> bool) (n : Z) (killed : bool) : psys :=
  let '(pi', woken, chs, e) := piperead (pp s) put killed n in
  PSys pi' (fun j => wake_w woken (wth s j)) (upd (fun j => wake_r woken (rth s j)) k (after_read e put n))
    (sent s) (taken s ++ chs) (cut s).

Definition close_end (s : psys) (writable : bool) : psys :=
  let '(pi', woken, _) := pipeclose (pp s) writable in
  PSys pi' (fun j => wake_w [woken] (wth s j)) (fun j => wake_r [woken] (rth s j)) (sent s) (taken s) (cut s).

Definition set_w (s : psys) (k : nat) (t : wthread) : psys :=
  PSys (pp s) (upd (wth s) k t) (rth s) (sent s) (taken s) (cut s).
Definition set_r (s : psys) (k : nat) (t : rthread) : psys :=
  PSys (pp s) (wth s) (upd (rth s) k t) (sent s) (taken s) (cut s).

Definition pstep (o : pop_op) (s : psys) : option psys :=
  match o with
  | CallWrite k get n => if wth s k is WIdle then Some (set_w s k (WReady get n 0)) else None
  | CallRead k put n => if rth s k is RIdle then Some (set_r s k (RReady put n)) else None
  | RunWrite k killed => if wth s k is WReady get n i then Some (run_write s k get n i killed) else None
  | RunRead k killed => if rth s k is RReady put n then Some (run_read s k put n killed) else None
  | CloseEnd writable => Some (close_end s writable)
  | KillWriter k => if wth s k is WAsleep get n i then Some (set_w s k (WReady get n i)) else None
  | KillReader k => if rth s k is RAsleep put n then Some (set_r s k (RReady put n)) else None
  end.

Fixpoint prun (os : list pop_op) (s : psys) : option psys :=
  match os with
  | [] => Some s
  | o :: os => s' ← pstep o s; prun os s'
  end.

Definition psys_init (junk : list Z) : psys :=
  PSys (pipe_init junk) (fun _ => WIdle) (fun _ => RIdle) [] [] false.

Definition w_asleep (t : wthread) : Prop := exists g n i, t = WAsleep g n i.
Definition r_asleep (t : rthread) : Prop := exists p n, t = RAsleep p n.

(** The index a writer has got to. *)
Definition w_index (t : wthread) : Z := match t with WIdle => 0 | WReady _ _ i | WAsleep _ _ i => i end.

Record psys_inv (s : psys) : Prop := {
  ps_pipe : pipe_inv (pp s);
  ps_index : forall k, 0 <= w_index (wth s k);
  ps_fifo : sent s = taken s ++ queue (pp s);
  ps_reader : forall k, r_asleep (rth s k) -> writeopen (pp s) = true /\ (cut s = false -> used (pp s) = 0);
  ps_writer : forall k, w_asleep (wth s k) -> used (pp s) = PIPESIZE /\ readopen (pp s) = true;
  ps_both : forall j k, r_asleep (rth s j) -> w_asleep (wth s k) -> False;
}.

Lemma wake_r_asleep w t : r_asleep (wake_r w t) -> r_asleep t /\ ChRead ∉ w.
Proof.
  intros (p & n & E). destruct t as [| |p' n']; cbn in E; try done.
  case_decide; [done|]. split; [by eexists _, _|done].
Qed.

Lemma wake_w_asleep w t : w_asleep (wake_w w t) -> w_asleep t /\ ChWrite ∉ w.
Proof.
  intros (g & n & i & E). destruct t as [| |g' n' i']; cbn in E; try done.
  case_decide; [done|]. split; [by eexists _, _, _|done].
Qed.

Lemma elem_ChRead : ChRead ∈ [ChRead]. Proof. by apply list_elem_of_singleton. Qed.
Lemma elem_ChWrite : ChWrite ∈ [ChWrite]. Proof. by apply list_elem_of_singleton. Qed.

(** A change of one thread that puts nobody to sleep. *)
Lemma psys_set_w s k t : psys_inv s -> ~ w_asleep t -> 0 <= w_index t -> psys_inv (set_w s k t).
Proof.
  intros [Hp Hx Hf Hr Hw Hb] Ht Hix. split; cbn [set_w pp wth rth sent taken cut]; [done| |done|done| |].
  - intros j. unfold upd. case_decide; [done|apply Hx].
  - intros j [Ha|Ha]%upd_cases; [done|by apply (Hw j)].
  - intros i j Hi [Ha|Ha]%upd_cases; [done|by apply (Hb i j)].
Qed.

Lemma psys_set_r s k t : psys_inv s -> ~ r_asleep t -> psys_inv (set_r s k t).
Proof.
  intros [Hp Hx Hf Hr Hw Hb] Ht. split; cbn [set_r pp wth rth sent taken cut]; [done|done|done| |done|].
  - intros j [Ha|Ha]%upd_cases; [done|by apply (Hr j)].
  - intros i j [Ha|Ha]%upd_cases Hj; [done|by apply (Hb i j)].
Qed.

Lemma queue_grow pi pi' chs :
  pipe_inv pi -> pipe_inv pi' -> queue pi' = queue pi ++ chs -> used pi' = used pi + Z.of_nat (length chs).
Proof.
  intros H1 H2 E. rewrite <-!length_queue by (by apply pi_used). rewrite E, length_app. lia.
Qed.

(** The bytes a burst claims are those it put into the queue. *)
Lemma burst_bytes rem pi get killed i pi' woken e chs :
  pipe_inv pi -> 0 <= i -> write_effect rem pi get killed i pi' woken e chs -> omap get (seqZ i (burst_count pi pi' i e)) = chs.
Proof.
  intros Hp Hi (H1 & H2 & H3 & H4 & _ & _ & _ & H8).
  assert (E : burst_count pi pi' i e = Z.of_nat (length chs)).
  { pose proof (queue_grow _ _ _ Hp H1 H2) as Hu. pose proof (pi_used _ Hp). pose proof (pi_used _ H1). unfold burst_count.
    destruct H8 as [(_ & -> & _)|[(_ & -> & _)|(_ & -> & _)]]; [|cbn [Z.ltb Z.compare]|lia].
    - destruct (Z.ltb_spec (i + Z.of_nat (length chs)) 0); lia.
    - unfold used in Hu. rewrite H4 in Hu. unfold used, PIPESIZE, u32 in *. lia. }
  rewrite E. clear E H2 H8. revert i Hi H3. induction chs as [|ch chs IH]; intros i Hi H3; [done|].
  cbn [length]. rewrite seqZ_cons by lia. cbn [omap list_omap]. pose proof (H3 0%nat ch eq_refl) as H0. rewrite Z.add_0_r in H0. rewrite H0.
  f_equal. replace (Z.pred (Z.of_nat (S (length chs)))) with (Z.of_nat (length chs)) by lia. apply IH; [lia|].
  intros k c Hc. replace (Z.succ i + Z.of_nat k) with (i + Z.of_nat (S k)) by lia. by apply H3.
Qed.

Lemma wake_w_index w t : w_index (wake_w w t) = w_index t.
Proof. destruct t; cbn; try done. by case_decide. Qed.

Lemma psys_write s k get n i killed : psys_inv s -> 0 <= i -> psys_inv (run_write s k get n i killed).
Proof.
  intros [Hp Hx Hf Hr Hw Hb] Hi. unfold run_write.
  destruct (pipewrite_burst_spec (Z.to_nat (n - i)) (pp s) get killed i Hp) as (pi' & woken & e & chs & E & He).
  rewrite E. rewrite (burst_bytes _ _ _ _ _ _ _ _ _ Hp Hi He). destruct He as (H1 & H2 & _ & _ & H5 & H6 & _ & H8).
  pose proof (queue_grow _ _ _ Hp H1 H2) as Hu.
  split; cbn [pp wth rth sent taken cut].
  - done.
  - intros j. unfold upd. case_decide; [|rewrite wake_w_index; apply Hx].
    destruct H8 as [(_ & -> & _)|[(_ & -> & _)|(_ & -> & _)]]; cbn; lia.
  - rewrite H2, Hf. by rewrite app_assoc.
  - intros j [Hj Hn]%wake_r_asleep. destruct (Hr j Hj) as [Hwo Hc]. rewrite H6. split; [done|].
    intros [Hc' Hq]%orb_false_iff.
    destruct H8 as [(-> & _)|[(-> & _)|(-> & _)]]; [by destruct (Hn elem_ChRead)| |by destruct (Hn elem_ChRead)].
    cbn in Hq. apply negb_false_iff, bool_decide_eq_true in Hq. rewrite H2 in Hq.
    rewrite Hu, <-(Hc Hc'). apply (f_equal length) in Hq. rewrite length_app in Hq. lia.
  - intros j [Ha|[Ha _]%wake_w_asleep]%upd_cases; rewrite H5.
    + destruct H8 as [(_ & -> & _)|[(_ & -> & _)|(_ & -> & Hfull & Hro & _)]]; [by destruct Ha as (? & ? & ? & ?)..|done].
    + destruct (Hw j Ha) as [Hfull Hro]. split; [|done]. pose proof (pi_used _ H1). lia.
  - intros j j' [Hj Hn]%wake_r_asleep [Ha|[Ha _]%wake_w_asleep]%upd_cases; [|by apply (Hb j j')].
    destruct H8 as [(_ & -> & _)|[(_ & -> & _)|(-> & _)]];
      [by destruct Ha as (? & ? & ? & ?)..|by destruct (Hn elem_ChRead)].
Qed.

Lemma psys_read s k put n killed : psys_inv s -> psys_inv (run_read s k put n killed).
Proof.
  intros [Hp Hx Hf Hr Hw Hb]. assert (Hx' : forall w j, 0 <= w_index (wake_w w (wth s j))) by (intros; rewrite wake_w_index; apply Hx). unfold run_read, piperead.
  destruct ((nread (pp s) =? nwrite (pp s)) && writeopen (pp s)) eqn:Hc.
  - apply andb_true_iff in Hc as [Hc%Z.eqb_eq Hwo]. apply (empty_iff _ Hp) in Hc.
    assert (Hno : forall j, ~ w_asleep (wth s j)).
    { intros j [Hfull _]%Hw. unfold PIPESIZE in *. lia. }
    destruct killed; split; cbn [pp wth rth sent taken cut]; rewrite ?app_nil_r; try done.
    all: first [by intros j [Ha _]%wake_w_asleep; destruct (Hno j Ha)
               |by intros j j' _ [Ha _]%wake_w_asleep; destruct (Hno j' Ha)].
  - destruct (piperead_copy_spec (Z.to_nat n) (pp s) put 0 Hp) as (pi' & cs & i' & E & H1 & H2 & H3 & H4 & H5 & _).
    rewrite E. assert (Hle : used pi' <= used (pp s)).
    { rewrite <-!length_queue by (by apply pi_used). rewrite H2, length_app. lia. }
    pose proof (pi_used _ H1).
    split; cbn [pp wth rth sent taken cut]; [done|done| | | |].
    + by rewrite Hf, H2, app_assoc.
    + intros j [(? & ? & ?)|[Ha _]%wake_r_asleep]%upd_cases; [done|].
      destruct (Hr j Ha) as [Hwo Hu]. rewrite H5. split; [done|]. intros Hcut. specialize (Hu Hcut). lia.
    + intros j [_ Hn]%wake_w_asleep. by destruct (Hn elem_ChWrite).
    + intros j j' _ [_ Hn]%wake_w_asleep. by destruct (Hn elem_ChWrite).
Qed.

Lemma psys_close s writable : psys_inv s -> psys_inv (close_end s writable).
Proof.
  intros [[Hl Hnr Hnw Hu] Hx Hf Hr Hw Hb]. unfold close_end, pipeclose.
  assert (Hx' : forall w j, 0 <= w_index (wake_w w (wth s j))) by (intros; rewrite wake_w_index; apply Hx).
  destruct writable; split; cbn [pp wth rth sent taken cut readopen writeopen]; try done.
  - intros j [_ Hn]%wake_r_asleep. by destruct (Hn elem_ChRead).
  - intros j [Ha _]%wake_w_asleep. by apply (Hw j).
  - intros j j' [_ Hn]%wake_r_asleep. by destruct (Hn elem_ChRead).
  - intros j [Ha _]%wake_r_asleep. by apply (Hr j).
  - intros j [_ Hn]%wake_w_asleep. by destruct (Hn elem_ChWrite).
  - intros j j' _ [_ Hn]%wake_w_asleep. by destruct (Hn elem_ChWrite).
Qed.

Lemma psys_step o s s' : psys_inv s -> pstep o s = Some s' -> psys_inv s'.
Proof.
  intros Hi. destruct o as [k get n|k put n|k killed|k killed|writable|k|k]; cbn [pstep].
  - destruct (wth s k); [|done..]. intros [= <-]. apply psys_set_w; [done| |done]. by intros (? & ? & ? & ?).
  - destruct (rth s k); [|done..]. intros [= <-]. apply psys_set_r; [done|]. by intros (? & ? & ?).
  - pose proof (ps_index _ Hi k) as Hx. destruct (wth s k); [done| |done]. intros [= <-]. by apply psys_write.
  - destruct (rth s k); [done| |done]. intros [= <-]. by apply psys_read.
  - intros [= <-]. by apply psys_close.
  - pose proof (ps_index _ Hi k) as Hx. destruct (wth s k); [done|done|]. intros [= <-]. apply psys_set_w; [done| |done]. by intros (? & ? & ? & ?).
  - destruct (rth s k); [done|done|]. intros [= <-]. apply psys_set_r; [done|]. by intros (? & ? & ?).
Qed.

Lemma prun_inv os s s' : psys_inv s -> prun os s = Some s' -> psys_inv s'.
Proof.
  revert s. induction os as [|o os IH]; intros s Hi; cbn [prun]; [by intros [= <-]|].
  intros (s1 & E & Hs')%bind_Some. by apply (IH s1), Hs'; apply (psys_step o s).
Qed.

Lemma psys_init_inv junk : length junk = Z.to_nat PIPESIZE -> psys_inv (psys_init junk).
Proof.
  intros Hl. split; cbn; [by split|done|done|by intros k (? & ? & ?)|by intros k (? & ? & ? & ?)|by intros ? ? (? & ? & ?)].
Qed.

(** A writer that can go on writes all its bytes or fills the pipe. *)
Lemma pipewrite_goes_on pi get killed n i :
  pipe_inv pi -> i <= n -> readopen pi = true -> (forall j, i <= j < n -> is_Some (get j)) -> (forall j, killed j = false) ->
  exists pi' woken e, pipewrite_burst (Z.to_nat (n - i)) pi get killed i = (pi', woken, e) /\
    (e = Return n \/ (exists j, e = Sleep ChWrite j) /\ length (queue pi') = 512%nat).
Proof.
  intros Hp Hn Hr Hg Hk. destruct (pipewrite_burst_spec (Z.to_nat (n - i)) pi get killed i Hp) as (pi' & woken & e & chs & E & H1 & _ & _ & _ & _ & _ & Hle & H8).
  exists pi', woken, e. split; [done|]. destruct H8 as [(_ & -> & [Hl|Hl])|[(_ & -> & [[? _]|?])|(_ & -> & Hf & _)]].
  - left. f_equal. lia.
  - left. f_equal. destruct (decide (i + Z.of_nat (length chs) < n)) as [Hlt|]; [|lia]. destruct (Hg (i + Z.of_nat (length chs))); [lia|congruence].
  - congruence.
  - congruence.
  - right. split; [by eexists|]. pose proof (length_queue pi' (proj1 (pi_used _ H1))). unfold PIPESIZE in *. lia.
Qed.

(** A reader of a pipe that is not empty gets what there is, up to the number it asks for. *)
Lemma piperead_gets pi put killed n :
  pipe_inv pi -> queue pi <> [] -> 0 <= n -> (forall j, put j = true) ->
  exists pi', piperead pi put killed n = (pi', [ChWrite], take (Z.to_nat n) (queue pi), Return (Z.of_nat (length (take (Z.to_nat n) (queue pi))))).
Proof.
  intros Hp Hne Hn Hput. unfold piperead. destruct (Z.eqb_spec (nread pi) (nwrite pi)) as [He|_].
  { apply (empty_iff pi Hp) in He. destruct Hne. apply length_zero_iff_nil. pose proof (length_queue pi (proj1 (pi_used _ Hp))). lia. }
  cbn [andb]. destruct (piperead_copy_spec (Z.to_nat n) pi put 0 Hp) as (pi' & cs & i' & E & H1 & H2 & _ & _ & _ & _ & H7).
  rewrite E. exists pi'. destruct H7 as [[-> H7]|[_ H7]]; [|by rewrite Hput in H7].
  assert (Ec : take (Z.to_nat n) (queue pi) = cs); [|by rewrite Ec].
  rewrite H2. destruct H7 as [Hl|Hu]; [by rewrite <- Hl, take_app_length|].
  pose proof (length_queue pi' (proj1 (pi_used _ H1))) as Hl. rewrite Hu in Hl. assert (Eq : queue pi' = []) by (apply length_zero_iff_nil; lia).
  rewrite Eq, app_nil_r in *. apply take_ge.
  pose proof (f_equal (fun x => length (snd (fst x))) E) as Hle. cbn in Hle. rewrite <- Hle. clear. revert pi. generalize 0. induction (Z.to_nat n) as [|k IH]; intros i pi; cbn [piperead_copy]; [done|].
  destruct (nread pi =? nwrite pi); [cbn; lia|]. destruct (put i); [|cbn; lia]. specialize (IH (i + 1) (pop pi)). destruct (piperead_copy k (pop pi) put (i + 1)) as [[? ?] ?]. cbn in *. lia.
Qed.

(** C17: a pipe is a queue.  For any number of readers and writers, whose bursts
    interleave in any order, the bytes the writers' calls have written, as their memory has
    them, are the bytes the readers have taken so far, in order, followed by the at most 512
    bytes still in the pipe.  A writer that is not killed goes on, while the read end is open,
    until it has written all its bytes or the pipe is full, and a reader of a pipe that is not
    empty takes what it asks for, as far as there is. *)
Theorem pipe_fifo junk os s :
  length junk = Z.to_nat PIPESIZE -> prun os (psys_init junk) = Some s ->
  sent s = taken s ++ queue (pp s) /\ (length (queue (pp s)) <= 512)%nat /\
  (forall get killed n i, i <= n -> readopen (pp s) = true -> (forall j, i <= j < n -> is_Some (get j)) -> (forall j, killed j = false) ->
     exists pi' woken e, pipewrite_burst (Z.to_nat (n - i)) (pp s) get killed i = (pi', woken, e) /\
       (e = Return n \/ (exists j, e = Sleep ChWrite j) /\ length (queue pi') = 512%nat)) /\
  (forall put killed n, queue (pp s) <> [] -> 0 <= n -> (forall j, put j = true) ->
     exists pi', piperead (pp s) put killed n =
       (pi', [ChWrite], take (Z.to_nat n) (queue (pp s)), Return (Z.of_nat (length (take (Z.to_nat n) (queue (pp s))))))).
Proof.
  intros Hl Hr. pose proof (prun_inv os _ s (psys_init_inv _ Hl) Hr) as Hi. pose proof (ps_pipe _ Hi) as Hp. split; [apply (ps_fifo _ Hi)|]. split.
  - pose proof (length_queue _ (proj1 (pi_used _ Hp))). pose proof (pi_used _ Hp). unfold PIPESIZE in *. lia.
  - split; [intros; by apply pipewrite_goes_on|intros; by apply piperead_gets].
Qed.

(** C21: no wakeup is lost, unless a writer is killed in the middle of a burst.  A
    reader is asleep only while a writer could still come and, short of such a
    kill, the pipe is empty; a writer is asleep only while the pipe is full and
    its read end open; a reader and a writer are never both asleep. *)
Theorem pipe_no_lost_wakeup junk os s :
  length junk = Z.to_nat PIPESIZE -> prun os (psys_init junk) = Some s ->
  (forall k, r_asleep (rth s k) -> writeopen (pp s) = true /\ (cut s = false -> queue (pp s) = [])) /\
  (forall k, w_asleep (wth s k) -> length (queue (pp s)) = 512%nat /\ readopen (pp s) = true) /\
  (forall j k, ~ (r_asleep (rth s j) /\ w_asleep (wth s k))).
Proof.
  intros Hl Hr. destruct (prun_inv os _ s (psys_init_inv _ Hl) Hr) as [Hp _ _ Hrd Hwr Hb].
  pose proof (length_queue _ (proj1 (pi_used _ Hp))) as Hlen. split_and!.
  - intros k [Hwo Hu]%Hrd. split; [done|]. intros Hc%Hu. apply length_zero_iff_nil. lia.
  - intros k [Hu Hro]%Hwr. split; [|done]. unfold PIPESIZE in *. lia.
  - intros j k [Hj Hk]. by apply (Hb j k).
Qed.

(** A reader sleeps, a writer of two bytes comes and is killed after the first. *)
Definition stall_ops : list pop_op :=
  [CallRead 0 (fun _ => true) 5; RunRead 0 false; CallWrite 0 (fun i => Some (7 + i)) 2; RunWrite 0 (fun i => i =? 1)].

(** A writer killed in the middle of a burst leaves its bytes in the pipe
    and returns without waking the readers: a reader stays asleep although the
    pipe is not empty and no writer is at work. *)
Theorem pipe_killed_writer_stalls_reader :
  exists s, prun stall_ops (psys_init (replicate 512 0)) = Some s /\
    r_asleep (rth s 0%nat) /\ queue (pp s) = [7] /\ wth s 0%nat = WIdle.
Proof.
  destruct (prun stall_ops (psys_init (replicate 512 0))) as [s|] eqn:E; [|vm_compute in E; discriminate].
  exists s. split; [done|].
  assert (H : (fun s => (rth s 0%nat, queue (pp s), wth s 0%nat)) <$> prun stall_ops (psys_init (replicate 512 0)) =
              Some (RAsleep (fun _ => true) 5, [7], WIdle)) by (vm_compute; reflexivity).
  rewrite E in H. injection H as -> -> ->. split; [by eexists _, _|done].
Qed.

(** ** A pipe at work *)

Definition demo_ops : list pop_op :=
  [CallWrite 0 (fun i => Some (7 + i)) 2; RunWrite 0 (fun _ => false);
   CallRead 3 (fun _ => true) 5; RunRead 3 false; CallRead 3 (fun _ => true) 5; RunRead 3 false].

Lemma demo_pipe :
  exists s, prun demo_ops (psys_init (replicate 512 0)) = Some s /\ sent s = [7; 8] /\ cut s = false /\
    r_asleep (rth s 3%nat).
Proof.
  destruct (prun demo_ops (psys_init (replicate 512 0))) as [s|] eqn:E; [|vm_compute in E; discriminate].
  exists s. split; [done|].
  assert (H : (fun s => (sent s, cut s, rth s 3%nat)) <$> prun demo_ops (psys_init (replicate 512 0)) =
              Some ([7; 8], false, RAsleep (fun _ => true) 5)) by (vm_compute; reflexivity).
  rewrite E in H. injection H as -> -> ->. split; [done|]. split; [done|]. by eexists _, _.
Qed.

Lemma pipe_fifo_witness :
  exists s, sent s = [7; 8] /\ sent s = taken s ++ queue (pp s).
Proof.
  destruct demo_pipe as (s & Hs & Hsent & _). exists s. split; [exact Hsent|].
  apply (pipe_fifo (replicate 512 0) demo_ops s); [reflexivity|exact Hs].
Defined.

Lemma pipe_no_lost_wakeup_witness :
  exists s, r_asleep (rth s 3%nat) /\ queue (pp s) = [].
Proof.
  destruct demo_pipe as (s & Hs & _ & Hc & Ha). exists s. split; [exact Ha|].
  apply (pipe_no_lost_wakeup (replicate 512 0) demo_ops s) with 3%nat; [reflexivity|exact Hs|exact Ha|exact Hc].
Defined.
