(* ===== verification/Spinlock.v ===== *)
(** * Spin locks and interrupt nesting, [kernel/spinlock.c]

    The functions act on one CPU's state and on a lock.  [acquire] and [release]
    access the lock in several separate memory operations, so each is split at
    these: other CPUs run in between.  [sstep] interleaves any number of CPUs
    that use any number of locks. *)

From S2P Require Import Prelude.

(** ** kernel/riscv.h: the interrupt enable bit of [sstatus] *)

Definition SSTATUS_SIE : Z := Z.shiftl 1 1.

Definition intr_on (sstatus : Z) : Z := Z.lor sstatus SSTATUS_SIE.
Definition intr_off (sstatus : Z) : Z := Z.land sstatus (Z.lnot SSTATUS_SIE).
Definition intr_get (sstatus : Z) : bool := negb (Z.land sstatus SSTATUS_SIE =? 0).

(** ** Data *)

(** [struct cpu], with the register [sstatus] of its hart. *)
Record cpu := Cpu { sstatus : Z; noff : Z; intena : bool }.

(** [struct spinlock]; the field [cpu] is a CPU number, [None] for a null pointer. *)
Record spinlock := Spinlock { locked : Z; name : string; lk_cpu : option nat }.

Definition initlock (nm : string) : spinlock := Spinlock 0 nm None.

(** ** Operations *)

Definition push_off (c : cpu) : cpu :=
  let old := intr_get (sstatus c) in
  Cpu (intr_off (sstatus c)) (noff c + 1) (if noff c =? 0 then old else intena c).

Definition pop_off (c : cpu) : string + cpu :=
  if intr_get (sstatus c) then inl "pop_off - interruptible"
  else if noff c <? 1 then inl "pop_off"
  else
    let n := noff c - 1 in
    inr (Cpu (if (n =? 0) && intena c then intr_on (sstatus c) else sstatus c) n (intena c)).

Definition holding (me : nat) (lk : spinlock) : bool :=
  negb (locked lk =? 0) && bool_decide (lk_cpu lk = Some me).

(** [acquire]: up to the loop, one round of the loop (whether the lock was free)
    and the line after it. *)
Definition acquire_start (me : nat) (c : cpu) (lk : spinlock) : string + cpu :=
  let c := push_off c in
  if holding me lk then inl "acquire" else inr c.

Definition acquire_swap (lk : spinlock) : bool * spinlock :=
  (locked lk =? 0, Spinlock 1 (name lk) (lk_cpu lk)).

Definition acquire_end (me : nat) (lk : spinlock) : spinlock := Spinlock (locked lk) (name lk) (Some me).

(** [release]: up to [lk->cpu = 0], and the rest. *)
Definition release_start (me : nat) (lk : spinlock) : string + spinlock :=
  if holding me lk then inr (Spinlock (locked lk) (name lk) None) else inl "release".

Definition release_end (c : cpu) (lk : spinlock) : string + (cpu * spinlock) :=
  match pop_off c with
  | inl msg => inl msg
  | inr c => inr (c, Spinlock 0 (name lk) (lk_cpu lk))
  end.

(** ** Many CPUs *)

(** Where a CPU is: outside these functions, in the loop of [acquire] for lock
    [l], after that loop, or between the two halves of [release]. *)
Inductive spc := Run | Spinning (l : nat) | Taken (l : nat) | Releasing (l : nat).

(** [held], [extra] and [enabled] record history: the locks a CPU holds, its
    unmatched calls of [push_off] and whether it had interrupts enabled when it
    last was outside any of these. *)
Record ssys := SSys {
  cpus : nat -> cpu;
  pcs : nat -> spc;
  locks : nat -> spinlock;
  held : nat -> list nat;
  extra : nat -> nat;
  enabled : nat -> bool;
}.

Inductive sop :=
| Acquire (l : nat) | Swap | SetCpu | Release (l : nat) | Unlock | PushOff | PopOff | SetIntr (on : bool).

(** One step of CPU [c]: [None] when it is not at a point where it can take it,
    [inl] when it panics.  A caller matches each [pop_off] with a [push_off] of
    its own, and does not touch the interrupt bit within [push_off]. *)
Definition sstep (c : nat) (o : sop) (s : ssys) : option (string + ssys) :=
  match o, pcs s c with
  | Acquire l, Run => Some
      match acquire_start c (cpus s c) (locks s l) with
      | inl msg => inl msg
      | inr cp => inr (SSys (upd (cpus s) c cp) (upd (pcs s) c (Spinning l)) (locks s) (held s) (extra s) (enabled s))
      end
  | Swap, Spinning l => Some
      (let '(free, lk) := acquire_swap (locks s l) in
       inr (SSys (cpus s) (upd (pcs s) c (if free then Taken l else Spinning l)) (upd (locks s) l lk)
              (held s) (extra s) (enabled s)))
  | SetCpu, Taken l => Some
      (inr (SSys (cpus s) (upd (pcs s) c Run) (upd (locks s) l (acquire_end c (locks s l)))
              (upd (held s) c (l :: held s c)) (extra s) (enabled s)))
  | Release l, Run => Some
      match release_start c (locks s l) with
      | inl msg => inl msg
      | inr lk => inr (SSys (cpus s) (upd (pcs s) c (Releasing l)) (upd (locks s) l lk)
                         (upd (held s) c (filter (fun l' => l' <> l) (held s c))) (extra s) (enabled s))
      end
  | Unlock, Releasing l => Some
      match release_end (cpus s c) (locks s l) with
      | inl msg => inl msg
      | inr (cp, lk) => inr (SSys (upd (cpus s) c cp) (upd (pcs s) c Run) (upd (locks s) l lk)
                               (held s) (extra s) (enabled s))
      end
  | PushOff, Run => Some
      (inr (SSys (upd (cpus s) c (push_off (cpus s c))) (pcs s) (locks s) (held s)
              (upd (extra s) c (S (extra s c))) (enabled s)))
  | PopOff, Run =>
      match extra s c with
      | O => None
      | S n => Some
          match pop_off (cpus s c) with
          | inl msg => inl msg
          | inr cp => inr (SSys (upd (cpus s) c cp) (pcs s) (locks s) (held s) (upd (extra s) c n) (enabled s))
          end
      end
  | SetIntr on, Run =>
      if noff (cpus s c) =? 0 then Some
        (let ss := sstatus (cpus s c) in
         inr (SSys (upd (cpus s) c (Cpu (if on then intr_on ss else intr_off ss) (noff (cpus s c)) (intena (cpus s c))))
                (pcs s) (locks s) (held s) (extra s) (upd (enabled s) c on)))
      else None
  | _, _ => None
  end.

Fixpoint srun (os : list (nat * sop)) (s : ssys) : option ssys :=
  match os with
  | [] => Some s
  | (c, o) :: os => match sstep c o s with Some (inr s') => srun os s' | _ => None end
  end.

Definition ssys_init : ssys :=
  SSys (fun _ => Cpu 0 0 false) (fun _ => Run) (fun _ => initlock "lock") (fun _ => []) (fun _ => O) (fun _ => false).

(** ** The interrupt bit *)

Lemma intr_get_bit x : intr_get x = Z.testbit x 1.
Proof.
  unfold intr_get, SSTATUS_SIE. destruct (Z.testbit x 1) eqn:E.
  - destruct (Z.eqb_spec (Z.land x (Z.shiftl 1 1)) 0) as [H|]; [|done].
    apply (f_equal (fun y => Z.testbit y 1)) in H. rewrite Z.land_spec, E in H. done.
  - destruct (Z.eqb_spec (Z.land x (Z.shiftl 1 1)) 0) as [|H]; [done|]. destruct H.
    apply Z.bits_inj'. intros i Hi. rewrite Z.land_spec, Z.bits_0.
    change (Z.shiftl 1 1) with (2 ^ 1). rewrite Z.pow2_bits_eqb by lia.
    destruct (Z.eqb_spec 1 i) as [<-|]; [by rewrite E|by rewrite andb_comm].
Qed.

Lemma intr_get_on x : intr_get (intr_on x) = true.
Proof. rewrite intr_get_bit. unfold intr_on. rewrite Z.lor_spec. by rewrite orb_true_r. Qed.

Lemma intr_get_off x : intr_get (intr_off x) = false.
Proof. rewrite intr_get_bit. unfold intr_off. rewrite Z.land_spec. by rewrite andb_false_r. Qed.

(** A CPU [n] levels deep in [push_off], that had interrupts enabled iff [e]. *)
Definition cpu_ok (n : nat) (e : bool) (c : cpu) : Prop :=
  noff c = Z.of_nat n /\
  match n with
  | O => intr_get (sstatus c) = e
  | S _ => intr_get (sstatus c) = false /\ intena c = e
  end.

Lemma push_off_ok n e c : cpu_ok n e c -> cpu_ok (S n) e (push_off c).
Proof.
  intros [Hn H]. split; [cbn [push_off noff]; lia|]. cbn [push_off sstatus intena].
  split; [apply intr_get_off|]. rewrite Hn. destruct n; [done|]. by destruct H.
Qed.

Lemma pop_off_ok n e c : cpu_ok (S n) e c -> exists c', pop_off c = inr c' /\ cpu_ok n e c'.
Proof.
  intros [Hn [H1 H2]]. unfold pop_off. rewrite H1. destruct (Z.ltb_spec (noff c) 1); [lia|].
  eexists. split; [reflexivity|]. split; [cbn; lia|]. cbn [sstatus intena].
  rewrite Hn. replace (Z.of_nat (S n) - 1) with (Z.of_nat n) by lia. destruct n as [|n].
  - change (Z.of_nat 0 =? 0) with true. cbn [andb]. subst e.
    destruct (intena c); [apply intr_get_on|exact H1].
  - destruct (Z.eqb_spec (Z.of_nat (S n)) 0); [lia|]. by split.
Qed.

(** ** The invariant *)

Definition pc_depth (p : spc) : nat := match p with Run => 0 | _ => 1 end.
Definition depth (s : ssys) (c : nat) : nat := length (held s c) + pc_depth (pcs s c) + extra s c.

(** [p] is at a point where it has set [locked] of lock [l]. *)
Definition pc_owns (p : spc) (l : nat) : Prop := p = Taken l \/ p = Releasing l.
Definition owns (s : ssys) (c l : nat) : Prop := l ∈ held s c \/ pc_owns (pcs s c) l.

Record lock_inv (s : ssys) (l : nat) : Prop := {
  li_locked : forall c, owns s c l -> locked (locks s l) = 1;
  li_free : locked (locks s l) = 0 \/ exists c, owns s c l;
  li_mutex : forall c c', owns s c l -> owns s c' l -> c = c';
  li_once : forall c, pc_owns (pcs s c) l -> l ∉ held s c;
  li_cpu : forall c, lk_cpu (locks s l) = Some c <-> l ∈ held s c;
}.

Record ssys_inv (s : ssys) : Prop := {
  si_cpu : forall c, cpu_ok (depth s c) (enabled s c) (cpus s c);
  si_nodup : forall c, NoDup (held s c);
  si_lock : forall l, lock_inv s l;
}.

Lemma holding_spec s c l : ssys_inv s -> holding c (locks s l) = true <-> l ∈ held s c.
Proof.
  intros [_ _ Hl]. destruct (Hl l) as [H1 _ _ _ H5]. unfold holding.
  rewrite andb_true_iff, negb_true_iff, bool_decide_eq_true, H5, Z.eqb_neq. split; [by intros [_ ?]|].
  intros Hin. split; [|done]. rewrite (H1 c) by (by left). done.
Qed.

(** A lock nobody touches keeps its invariant. *)
Lemma lock_inv_ext s s' l :
  lock_inv s l -> locks s' l = locks s l ->
  (forall c, l ∈ held s' c <-> l ∈ held s c) -> (forall c, pc_owns (pcs s' c) l <-> pc_owns (pcs s c) l) ->
  lock_inv s' l.
Proof.
  intros [H1 H2 H3 H4 H5] El Eh Ep.
  assert (Eo : forall c, owns s' c l <-> owns s c l) by (intros c; unfold owns; by rewrite Eh, Ep).
  split; rewrite ?El.
  - intros c Hc%Eo. by apply (H1 c).
  - destruct H2 as [|[c Hc]]; [by left|right]. exists c. by apply Eo.
  - intros c c' Hc%Eo Hc'%Eo. by apply H3.
  - intros c Hc%Ep. rewrite Eh. by apply H4.
  - intros c. by rewrite Eh, H5.
Qed.

(** A step of CPU [c] that only moves its program counter between points that
    own no lock. *)
Lemma pc_owns_upd f c p c' l :
  (pc_owns p l <-> pc_owns (f c) l) -> pc_owns (upd f c p c') l <-> pc_owns (f c') l.
Proof. intros H. unfold upd. case_decide as E; [by subst|done]. Qed.

Lemma Run_owns l : ~ pc_owns Run l.
Proof. by intros [?|?]. Qed.

Lemma Spinning_owns l l' : ~ pc_owns (Spinning l) l'.
Proof. by intros [?|?]. Qed.

Lemma Taken_owns l l' : pc_owns (Taken l) l' <-> l' = l.
Proof. split; [by intros [[= ->]|?]|intros ->; by left]. Qed.

Lemma Releasing_owns l l' : pc_owns (Releasing l) l' <-> l' = l.
Proof. split; [by intros [?|[= ->]]|intros ->; by right]. Qed.

(** Only CPU [c] changes in a step of CPU [c]. *)
Lemma cpus_ok_step s s' c :
  ssys_inv s -> (forall c', c' <> c -> depth s' c' = depth s c' /\ enabled s' c' = enabled s c' /\ cpus s' c' = cpus s c') ->
  cpu_ok (depth s' c) (enabled s' c) (cpus s' c) -> forall c', cpu_ok (depth s' c') (enabled s' c') (cpus s' c').
Proof.
  intros [Hc _ _] Hne H c'. destruct (decide (c' = c)) as [->|Hcc]; [done|].
  destruct (Hne c' Hcc) as (-> & -> & ->). apply Hc.
Qed.

Lemma held_step s h c : (forall c, NoDup (held s c)) -> NoDup h -> forall c', NoDup (upd (held s) c h c').
Proof. intros H1 H2 c'. unfold upd. by case_decide. Qed.

(** The CPUs other than the one that steps. *)
Ltac other_cpus := intros ? ?; unfold depth; cbn [cpus pcs locks held extra enabled]; rewrite ?upd_ne by done; done.

(** ** Each step preserves it *)

Lemma acquire_inv s c l s' :
  ssys_inv s -> sstep c (Acquire l) s = Some (inr s') -> ssys_inv s'.
Proof.
  intros Hi. pose proof Hi as [Hc Hn Hl]. cbn [sstep]. destruct (pcs s c) eqn:Epc; try done.
  unfold acquire_start. destruct (holding c (locks s l)); [done|]. intros [= <-]. split.
  - apply (cpus_ok_step s _ c Hi); [other_cpus|].
    unfold depth. cbn [cpus pcs locks held extra enabled]. rewrite !upd_eq.
    pose proof (push_off_ok _ _ _ (Hc c)) as H. unfold depth in H. rewrite Epc in H. cbn [pc_depth] in *.
    by replace (length (held s c) + 1 + extra s c)%nat with (S (length (held s c) + 0 + extra s c)) by lia.
  - done.
  - intros l'. apply (lock_inv_ext s); [done|done|done|]. cbn [pcs]. intros c'. apply pc_owns_upd. rewrite Epc.
    split; intros H; [by apply Spinning_owns in H|by apply Run_owns in H].
Qed.

Lemma swap_inv s c s' : ssys_inv s -> sstep c Swap s = Some (inr s') -> ssys_inv s'.
Proof.
  intros Hi. pose proof Hi as [Hc Hn Hl]. cbn [sstep]. destruct (pcs s c) as [|l| |] eqn:Epc; try done.
  intros [= <-]. split.
  - apply (cpus_ok_step s _ c Hi); [other_cpus|].
    unfold depth. cbn [cpus pcs locks held extra enabled]. rewrite !upd_eq.
    pose proof (Hc c) as H. unfold depth in H. rewrite Epc in H. by destruct (locked (locks s l) =? 0).
  - done.
  - intros l'. destruct (decide (l' = l)) as [->|Hne].
    + destruct (Hl l) as [H1 H2 H3 H4 H5]. destruct (Z.eqb_spec (locked (locks s l)) 0) as [E0|E0].
      * assert (Hno : forall c', ~ owns s c' l) by (intros c' ?%H1; lia).
        assert (Ho : forall c', owns {| cpus := cpus s; pcs := upd (pcs s) c (Taken l);
            locks := upd (locks s) l (Spinlock 1 (name (locks s l)) (lk_cpu (locks s l)));
            held := held s; extra := extra s; enabled := enabled s |} c' l -> c' = c).
        { intros c' [Hh|Hp]; [destruct (Hno c'); by left|]. cbn [pcs] in Hp. unfold upd in Hp.
          case_decide as Ec; [done|]. destruct (Hno c'). by right. }
        split; cbn [pcs locks held]; rewrite ?upd_eq; cbn [locked lk_cpu].
        -- done.
        -- right. exists c. right. cbn [pcs]. rewrite upd_eq. by left.
        -- intros c1 c2 ->%Ho ->%Ho. done.
        -- intros c' _ Hh. destruct (Hno c'). by left.
        -- done.
      * destruct H2 as [?|[c0 H0]]; [done|].
        assert (Hp : forall c', pc_owns (upd (pcs s) c (Spinning l) c') l <-> pc_owns (pcs s c') l).
        { intros c'. apply pc_owns_upd. by rewrite Epc. }
        apply (lock_inv_ext s); [done| |done|done]. cbn [locks]. rewrite upd_eq.
        destruct (locks s l) as [k nm o] eqn:El. cbn in *. f_equal. symmetry. by apply (H1 c0).
    + apply (lock_inv_ext s); [done|cbn; by rewrite upd_ne|done|]. intros c'. cbn [pcs]. apply pc_owns_upd. rewrite Epc.
      destruct (locked (locks s l) =? 0); [|done]. rewrite Taken_owns. split; [done|]. intros H; by apply Spinning_owns in H.
Qed.

(** Membership in the list of the CPU that steps. *)
Lemma held_upd s c h c' l' : (l' ∈ h <-> l' ∈ held s c) -> l' ∈ upd (held s) c h c' <-> l' ∈ held s c'.
Proof. intros H. unfold upd. case_decide as E; [by subst|done]. Qed.

Lemma setcpu_inv s c s' : ssys_inv s -> sstep c SetCpu s = Some (inr s') -> ssys_inv s'.
Proof.
  intros Hi. pose proof Hi as [Hc Hn Hl]. cbn [sstep]. destruct (pcs s c) as [| |l|] eqn:Epc; try done.
  intros [= <-]. destruct (Hl l) as [H1 H2 H3 H4 H5].
  assert (Hown : owns s c l) by (right; rewrite Epc; by apply Taken_owns).
  assert (Hnin : l ∉ held s c) by (apply H4; rewrite Epc; by apply Taken_owns). split.
  - apply (cpus_ok_step s _ c Hi); [other_cpus|].
    unfold depth. cbn [cpus pcs locks held extra enabled]. rewrite !upd_eq.
    pose proof (Hc c) as H. unfold depth in H. rewrite Epc in H. cbn [pc_depth length] in *.
    by replace (S (length (held s c)) + 0 + extra s c)%nat with (length (held s c) + 1 + extra s c)%nat by lia.
  - cbn [held]. apply held_step; [done|]. by apply list.NoDup_cons.
  - intros l'. destruct (decide (l' = l)) as [->|Hne].
    + assert (Ho : forall c', owns (SSys (cpus s) (upd (pcs s) c Run) (upd (locks s) l (acquire_end c (locks s l)))
          (upd (held s) c (l :: held s c)) (extra s) (enabled s)) c' l -> c' = c).
      { intros c'. destruct (decide (c' = c)) as [|Hcc]; [done|]. unfold owns. cbn [held pcs]. rewrite !upd_ne by done.
        intros Ho. by apply H3. }
      split; cbn [pcs locks held]; rewrite ?upd_eq; cbn [acquire_end locked lk_cpu].
      * intros c' _. by apply (H1 c).
      * right. exists c. left. cbn [held]. rewrite upd_eq. by left.
      * intros c1 c2 ->%Ho ->%Ho. done.
      * intros c' Hp. destruct (decide (c' = c)) as [->|Hcc]; [rewrite upd_eq in Hp; by apply Run_owns in Hp|].
        rewrite upd_ne in Hp by done. destruct Hcc. apply H3; [by right|done].
      * intros c'. split; [intros [= <-]; rewrite upd_eq; by left|].
        intros Hh. f_equal. symmetry. apply Ho. by left.
    + apply (lock_inv_ext s); [done|cbn; by rewrite upd_ne| |]; intros c'; cbn [held pcs].
      * apply held_upd. rewrite elem_of_cons. split; [by intros [?|?]|by right].
      * apply pc_owns_upd. rewrite Epc, Taken_owns. split; [by intros ?%Run_owns|done].
Qed.

Lemma length_filter_remove (l : nat) (h : list nat) :
  NoDup h -> l ∈ h -> S (length (filter (fun x => x <> l) h)) = length h.
Proof.
  induction h as [|x h IH]; intros Hn Hin; [by apply not_elem_of_nil in Hin|].
  apply list.NoDup_cons in Hn as [Hx Hn]. cbn [length]. f_equal. rewrite filter_cons.
  apply elem_of_cons in Hin as [<-|Hin].
  - rewrite decide_False by (by intros []). f_equal. apply filter_all. apply list.Forall_forall.
    by intros y Hy ->.
  - rewrite decide_True by (by intros ->). cbn [length]. by apply IH.
Qed.

Lemma release_inv s c l s' : ssys_inv s -> sstep c (Release l) s = Some (inr s') -> ssys_inv s'.
Proof.
  intros Hi. pose proof Hi as [Hc Hn Hl]. cbn [sstep]. destruct (pcs s c) eqn:Epc; try done.
  unfold release_start. destruct (holding c (locks s l)) eqn:Eh; [|done]. apply (holding_spec s c l Hi) in Eh.
  intros [= <-]. destruct (Hl l) as [H1 H2 H3 H4 H5]. assert (Hown : owns s c l) by (by left). split.
  - apply (cpus_ok_step s _ c Hi); [other_cpus|].
    unfold depth. cbn [cpus pcs locks held extra enabled]. rewrite !upd_eq.
    pose proof (Hc c) as H. unfold depth in H. rewrite Epc in H. cbn [pc_depth] in *.
    rewrite <-(length_filter_remove l (held s c)) in H by done.
    by replace (length (filter (fun x => x <> l) (held s c)) + 1 + extra s c)%nat
      with (S (length (filter (fun x => x <> l) (held s c))) + 0 + extra s c)%nat by lia.
  - cbn [held]. apply held_step; [done|]. by apply list.NoDup_filter.
  - intros l'. destruct (decide (l' = l)) as [->|Hne].
    + assert (Hno : forall c', l ∉ upd (held s) c (filter (fun x => x <> l) (held s c)) c').
      { intros c'. unfold upd. case_decide as Ec; [by intros [[] _]%list_elem_of_filter|].
        intros Hin. destruct Ec. apply H3; [by left|done]. }
      assert (Ho : forall c', owns (SSys (cpus s) (upd (pcs s) c (Releasing l))
          (upd (locks s) l (Spinlock (locked (locks s l)) (name (locks s l)) None))
          (upd (held s) c (filter (fun x => x <> l) (held s c))) (extra s) (enabled s)) c' l -> c' = c).
      { intros c' [Hh|Hp]; [by destruct (Hno c')|]. destruct (decide (c' = c)) as [|Hcc]; [done|].
        cbn [pcs] in Hp. rewrite upd_ne in Hp by done. apply H3; [by right|done]. }
      split; cbn [pcs locks held]; rewrite ?upd_eq; cbn [locked lk_cpu].
      * intros c' _. by apply (H1 c).
      * right. exists c. right. cbn [pcs]. rewrite upd_eq. by right.
      * intros c1 c2 ->%Ho ->%Ho. done.
      * intros c' _. apply Hno.
      * intros c'. split; [done|]. intros Hh. by destruct (Hno c').
    + apply (lock_inv_ext s); [done|cbn; by rewrite upd_ne| |]; intros c'; cbn [held pcs].
      * apply held_upd. rewrite list_elem_of_filter. split; [by intros [_ ?]|done].
      * apply pc_owns_upd. rewrite Epc, Releasing_owns. split; [done|by intros ?%Run_owns].
Qed.

Lemma unlock_step s c l :
  ssys_inv s -> pcs s c = Releasing l ->
  exists cp, sstep c Unlock s =
    Some (inr (SSys (upd (cpus s) c cp) (upd (pcs s) c Run) (upd (locks s) l (Spinlock 0 (name (locks s l)) (lk_cpu (locks s l))))
            (held s) (extra s) (enabled s))) /\
    cpu_ok (length (held s c) + extra s c) (enabled s c) cp.
Proof.
  intros [Hc _ _] Epc. cbn [sstep]. rewrite Epc. unfold release_end.
  destruct (pop_off_ok (length (held s c) + extra s c) (enabled s c) (cpus s c)) as (cp & E & H).
  - pose proof (Hc c) as H. unfold depth in H. rewrite Epc in H. cbn [pc_depth] in H.
    by replace (S (length (held s c) + extra s c)) with (length (held s c) + 1 + extra s c)%nat by lia.
  - rewrite E. by exists cp.
Qed.

Lemma unlock_inv s c s' : ssys_inv s -> sstep c Unlock s = Some (inr s') -> ssys_inv s'.
Proof.
  intros Hi Hs. pose proof Hi as [Hc Hn Hl]. destruct (pcs s c) as [| | |l] eqn:Epc; try (cbn in Hs; by rewrite Epc in Hs).
  destruct (unlock_step s c l Hi Epc) as (cp & E & Hcp). rewrite E in Hs. injection Hs as <-.
  destruct (Hl l) as [H1 H2 H3 H4 H5]. assert (Hown : owns s c l) by (right; rewrite Epc; by apply Releasing_owns). split.
  - apply (cpus_ok_step s _ c Hi); [other_cpus|].
    unfold depth. cbn [cpus pcs locks held extra enabled]. rewrite !upd_eq. cbn [pc_depth]. by rewrite Nat.add_0_r.
  - done.
  - intros l'. destruct (decide (l' = l)) as [->|Hne].
    + assert (Hh : forall c', l ∉ held s c').
      { intros c' Hin. assert (c' = c) as -> by (apply H3; [by left|done]).
        apply (H4 c); [rewrite Epc; by apply Releasing_owns|done]. }
      assert (Hno : forall c', ~ owns (SSys (upd (cpus s) c cp) (upd (pcs s) c Run)
          (upd (locks s) l (Spinlock 0 (name (locks s l)) (lk_cpu (locks s l)))) (held s) (extra s) (enabled s)) c' l).
      { intros c' [Hin|Hp]; [by destruct (Hh c')|]. cbn [pcs] in Hp.
        destruct (decide (c' = c)) as [->|Hcc]; [rewrite upd_eq in Hp; by apply Run_owns in Hp|].
        rewrite upd_ne in Hp by done. destruct Hcc. apply H3; [by right|done]. }
      split; cbn [pcs locks held]; rewrite ?upd_eq; cbn [locked lk_cpu].
      * by intros c' ?%Hno.
      * by left.
      * by intros c1 c2 ?%Hno.
      * intros c' _. apply Hh.
      * done.
    + apply (lock_inv_ext s); [done|cbn; by rewrite upd_ne|done|]; intros c'; cbn [held pcs].
      apply pc_owns_upd. rewrite Epc, Releasing_owns. split; [by intros ?%Run_owns|done].
Qed.

Lemma intr_inv s c o s' :
  ssys_inv s -> (o = PushOff \/ o = PopOff \/ exists b, o = SetIntr b) -> sstep c o s = Some (inr s') -> ssys_inv s'.
Proof.
  intros Hi Ho Hs. pose proof Hi as [Hc Hn Hl]. pose proof (Hc c) as H. unfold depth in H.
  assert (pcs s c = Run) as Epc.
  { destruct Ho as [->|[->|[b ->]]]; cbn [sstep] in Hs; by destruct (pcs s c). }
  rewrite Epc in H. cbn [pc_depth] in H.
  destruct Ho as [->|[->|[b ->]]]; cbn [sstep] in Hs; rewrite Epc in Hs.
  - injection Hs as <-. split; [|done|intros l; by apply (lock_inv_ext s)].
    apply (cpus_ok_step s _ c Hi); [other_cpus|].
    unfold depth. cbn [cpus pcs held extra enabled]. rewrite !upd_eq, Epc. cbn [pc_depth].
    rewrite Nat.add_succ_r. by apply push_off_ok.
  - destruct (extra s c) as [|n] eqn:Ee; [done|]. rewrite Nat.add_succ_r in H.
    destruct (pop_off_ok _ _ _ H) as (cp & E & Hcp). rewrite E in Hs. injection Hs as <-.
    split; [|done|intros l; by apply (lock_inv_ext s)].
    apply (cpus_ok_step s _ c Hi); [other_cpus|].
    unfold depth. cbn [cpus pcs held extra enabled]. rewrite !upd_eq, Epc. done.
  - destruct (Z.eqb_spec (noff (cpus s c)) 0) as [E0|]; [|done]. injection Hs as <-.
    split; [|done|intros l; by apply (lock_inv_ext s)].
    apply (cpus_ok_step s _ c Hi); [other_cpus|].
    unfold depth. cbn [cpus pcs held extra enabled]. rewrite !upd_eq, Epc. cbn [pc_depth].
    destruct H as [H1 H2]. assert (length (held s c) + 0 + extra s c = 0)%nat as -> by lia.
    split; [done|]. cbn [sstatus]. destruct b; [apply intr_get_on|apply intr_get_off].
Qed.

Lemma sstep_inv s c o s' : ssys_inv s -> sstep c o s = Some (inr s') -> ssys_inv s'.
Proof.
  intros Hi Hs. destruct o as [l| | |l| | | |on].
  - by apply (acquire_inv s c l).
  - by apply (swap_inv s c).
  - by apply (setcpu_inv s c).
  - by apply (release_inv s c l).
  - by apply (unlock_inv s c).
  - apply (intr_inv s c PushOff); [done|by left|done].
  - apply (intr_inv s c PopOff); [done|by right; left|done].
  - apply (intr_inv s c (SetIntr on)); [done|by right; right; exists on|done].
Qed.

Lemma srun_inv os s s' : ssys_inv s -> srun os s = Some s' -> ssys_inv s'.
Proof.
  revert s. induction os as [|[c o] os IH]; intros s Hi; cbn [srun]; [by intros [= <-]|].
  destruct (sstep c o s) as [[msg|s1]|] eqn:E; [done| |done]. apply IH. by apply (sstep_inv s c o).
Qed.

Lemma ssys_init_inv : ssys_inv ssys_init.
Proof.
  split.
  - intros c. by split.
  - intros c. apply NoDup_nil_2.
  - intros l. assert (Hno : forall c, ~ owns ssys_init c l).
    { intros c [H|H]; [by apply not_elem_of_nil in H|by apply Run_owns in H]. }
    split; cbn.
    + by intros c ?%Hno.
    + by left.
    + by intros c c' ?%Hno.
    + intros c _ H. by apply not_elem_of_nil in H.
    + intros c. split; [done|intros H; by apply not_elem_of_nil in H].
Qed.

(** ** Theorems *)

(** C22: spin locks exclude each other.  Whatever the interleaving, at most one CPU
    holds a lock; [holding] answers exactly whether the CPU that asks holds it; a
    CPU that holds any lock has interrupts off; and the lock word is free exactly
    when no CPU has taken it, so a spinning CPU's next swap then succeeds. *)
Theorem spinlock_mutual_exclusion os s :
  srun os ssys_init = Some s ->
  (forall l c c', l ∈ held s c -> l ∈ held s c' -> c = c') /\
  (forall l c, holding c (locks s l) = true <-> l ∈ held s c) /\
  (forall c, held s c <> [] -> intr_get (sstatus (cpus s c)) = false) /\
  (forall l, fst (acquire_swap (locks s l)) = true <-> forall c, ~ owns s c l).
Proof.
  intros Hr. pose proof (srun_inv os _ s ssys_init_inv Hr) as Hi. pose proof Hi as [Hc _ Hl]. split_and!.
  - intros l c c' H H'. apply (li_mutex s l (Hl l)); by left.
  - intros l c. by apply holding_spec.
  - intros c Hne. destruct (Hc c) as [_ H]. unfold depth in H. destruct (held s c); [done|]. by destruct H.
  - intros l. destruct (Hl l) as [H1 H2 _ _ _]. cbn. rewrite Z.eqb_eq. split.
    + intros E c ?%H1. lia.
    + intros Hno. destruct H2 as [|[c Hcl]]; [done|]. by destruct (Hno c).
Qed.

(** The checks of the lock functions fail exactly on misuse, and interrupts
    come back as they were.  [acquire] panics exactly when the CPU already holds
    the lock, [release] exactly when it does not, the second half of [release]
    and a matched [pop_off] never; a CPU outside all locks and [push_off]s has
    interrupts enabled iff it enabled them itself. *)
Theorem spinlock_panics os s c :
  srun os ssys_init = Some s ->
  (pcs s c = Run -> forall l, sstep c (Acquire l) s = Some (inl "acquire"%string) <-> l ∈ held s c) /\
  (pcs s c = Run -> forall l, sstep c (Release l) s = Some (inl "release"%string) <-> l ∉ held s c) /\
  (forall o msg, sstep c o s = Some (inl msg) -> exists l, o = Acquire l \/ o = Release l) /\
  (depth s c = 0%nat -> intr_get (sstatus (cpus s c)) = enabled s c).
Proof.
  intros Hr. pose proof (srun_inv os _ s ssys_init_inv Hr) as Hi. pose proof Hi as [Hc _ Hl]. split_and!.
  - intros Epc l. cbn [sstep]. rewrite Epc, <-(holding_spec s c l Hi). unfold acquire_start.
    by destruct (holding c (locks s l)).
  - intros Epc l. cbn [sstep]. rewrite Epc, <-(holding_spec s c l Hi). unfold release_start.
    by destruct (holding c (locks s l)).
  - intros o msg Hs. destruct o as [l| | |l| | | |on]; [by exists l; left| | |by exists l; right| | | |];
      exfalso; cbn [sstep] in Hs.
    + by destruct (pcs s c).
    + by destruct (pcs s c).
    + destruct (pcs s c) as [| | |l] eqn:Epc; try done.
      destruct (unlock_step s c l Hi Epc) as (cp & E & _). cbn [sstep] in E. rewrite Epc in E. congruence.
    + by destruct (pcs s c).
    + destruct (pcs s c) eqn:Epc; try done. destruct (extra s c) as [|n] eqn:Ee; [done|].
      pose proof (Hc c) as H. unfold depth in H. rewrite Epc, Ee, Nat.add_succ_r in H.
      destruct (pop_off_ok _ _ _ H) as (cp & E & _). by rewrite E in Hs.
    + destruct (pcs s c); try done. by destruct (noff (cpus s c) =? 0).
  - intros Hd. pose proof (Hc c) as [_ H]. by rewrite Hd in H.
Qed.

(** CPU 0 takes lock 5 with interrupts on; CPU 1 spins on it. *)
Definition lock_demo : list (nat * sop) :=
  [(0, SetIntr true); (0, Acquire 5); (0, Swap); (0, SetCpu); (1, Acquire 5); (1, Swap)]%nat.

Lemma lock_demo_run :
  exists s, srun lock_demo ssys_init = Some s /\ held s 0%nat = [5%nat] /\ pcs s 1%nat = Spinning 5 /\ pcs s 0%nat = Run.
Proof.
  destruct (srun lock_demo ssys_init) as [s|] eqn:E; [|vm_compute in E; discriminate].
  exists s. split; [done|].
  assert (H : (fun s => (held s 0%nat, pcs s 1%nat, pcs s 0%nat)) <$> srun lock_demo ssys_init =
              Some ([5%nat], Spinning 5, Run)) by (vm_compute; reflexivity).
  rewrite E in H. injection H as -> -> ->. done.
Qed.

Lemma spinlock_mutual_exclusion_witness :
  exists s, held s 0%nat = [5%nat] /\ pcs s 1%nat = Spinning 5 /\ intr_get (sstatus (cpus s 0%nat)) = false.
Proof.
  destruct lock_demo_run as (s & Hs & Hh & Hp & _). exists s. split; [exact Hh|]. split; [exact Hp|].
  apply (spinlock_mutual_exclusion lock_demo s Hs). rewrite Hh. discriminate.
Defined.

Lemma spinlock_panics_witness :
  exists s, pcs s 0%nat = Run /\ sstep 0 (Acquire 5) s = Some (inl "acquire"%string) /\
    sstep 0 (Release 6) s = Some (inl "release"%string).
Proof.
  destruct lock_demo_run as (s & Hs & Hh & _ & Hp). exists s. split; [exact Hp|].
  destruct (spinlock_panics lock_demo s 0 Hs) as (H1 & H2 & _). split.
  - apply (H1 Hp). rewrite Hh. by left.
  - apply (H2 Hp). rewrite Hh. intros H%list_elem_of_singleton. discriminate.
Defined.
