(* ===== verification/Sleeplock.v ===== *)
(** * Sleep locks, [kernel/sleeplock.c]

    Each function runs under the spin lock [lk->lk] from start to end, except
    inside [sleep]; so a call of [acquiresleep] is a sequence of atomic bursts,
    each of which takes the lock or goes to sleep on it.  [slstep] interleaves
    any number of processes that use one lock. *)

From S2P Require Import Prelude.

(** [struct sleeplock]; its spin lock is the atomicity of the bursts. *)
Record sleeplock := Sleeplock { sl_locked : Z; sl_name : string; sl_pid : Z }.

Definition initsleeplock (name : string) : sleeplock := Sleeplock 0 name 0.

(** A burst of [acquiresleep] by process [pid]: [None] when it goes to sleep. *)
Definition acquiresleep (pid : Z) (lk : sleeplock) : option sleeplock :=
  if negb (sl_locked lk =? 0) then None else Some (Sleeplock 1 (sl_name lk) pid).

(** [releasesleep]; it also wakes every process that sleeps on the lock. *)
Definition releasesleep (lk : sleeplock) : sleeplock := Sleeplock 0 (sl_name lk) 0.

Definition holdingsleep (pid : Z) (lk : sleeplock) : bool :=
  negb (sl_locked lk =? 0) && (sl_pid lk =? pid).

(** ** Many processes *)

Inductive slpc := SlOut | SlTrying | SlAsleep | SlHolds.

#[export] Instance slpc_eq_dec : EqDecision slpc.
Proof. solve_decision. Defined.

Record slsys := SlSys { slk : sleeplock; slpcs : nat -> slpc }.

(** The number [k] of a process is not 0 and is its pid; it may call
    [acquiresleep], run a burst of it, or release the lock it holds.  [SlWake] is
    a wakeup not due to the lock, as [kill] gives. *)
Inductive slop := SlCall (k : nat) | SlTry (k : nat) | SlRelease (k : nat) | SlWake (k : nat).

Definition slwake (p : slpc) : slpc := match p with SlAsleep => SlTrying | p => p end.

Definition slstep (o : slop) (s : slsys) : option slsys :=
  match o with
  | SlCall k =>
      if decide (slpcs s k = SlOut /\ k <> 0%nat) then Some (SlSys (slk s) (upd (slpcs s) k SlTrying)) else None
  | SlTry k =>
      if decide (slpcs s k = SlTrying) then Some
        match acquiresleep (Z.of_nat k) (slk s) with
        | None => SlSys (slk s) (upd (slpcs s) k SlAsleep)
        | Some lk => SlSys lk (upd (slpcs s) k SlHolds)
        end
      else None
  | SlRelease k =>
      if decide (slpcs s k = SlHolds)
      then Some (SlSys (releasesleep (slk s)) (upd (fun j => slwake (slpcs s j)) k SlOut))
      else None
  | SlWake k => Some (SlSys (slk s) (upd (slpcs s) k (slwake (slpcs s k))))
  end.

Fixpoint slrun (os : list slop) (s : slsys) : option slsys :=
  match os with
  | [] => Some s
  | o :: os => s' ← slstep o s; slrun os s'
  end.

Definition slsys_init : slsys := SlSys (initsleeplock "") (fun _ => SlOut).

Record slsys_inv (s : slsys) : Prop := {
  sl_free : sl_locked (slk s) = 0 -> forall k, slpcs s k <> SlHolds /\ slpcs s k <> SlAsleep;
  sl_taken : sl_locked (slk s) <> 0 ->
    exists k, sl_pid (slk s) = Z.of_nat k /\ forall j, slpcs s j = SlHolds <-> j = k;
}.

Lemma slwake_holds p : slwake p = SlHolds <-> p = SlHolds.
Proof. by destruct p. Qed.

(** A step that leaves the lock, and who holds it, alone. *)
Lemma slsys_pc s k p :
  slsys_inv s -> slpcs s k <> SlHolds -> p <> SlHolds -> (p = SlAsleep -> sl_locked (slk s) <> 0) ->
  slsys_inv (SlSys (slk s) (upd (slpcs s) k p)).
Proof.
  intros [Hf Ht] Hk Hp Ha. split; cbn [slk slpcs].
  - intros E j. unfold upd. case_decide; [|by apply Hf]. split; [done|]. intros ->. by apply Ha.
  - intros E. destruct (Ht E) as (h & Hpid & Hh). exists h. split; [done|]. intros j. rewrite <-Hh.
    unfold upd. case_decide; [by subst|done].
Qed.

Lemma slstep_inv o s s' : slsys_inv s -> slstep o s = Some s' -> slsys_inv s'.
Proof.
  intros Hi. pose proof Hi as [Hf Ht]. destruct o as [k|k|k|k]; cbn [slstep].
  - case_decide as E; [|done]. intros [= <-]. destruct E as [E _]. by apply slsys_pc; rewrite ?E.
  - case_decide as E; [|done]. intros [= <-]. unfold acquiresleep.
    destruct (Z.eqb_spec (sl_locked (slk s)) 0) as [E0|E0]; cbn [negb].
    + split; cbn [slk slpcs sl_locked sl_pid]; [done|]. intros _. exists k. split; [done|]. intros j.
      unfold upd. case_decide; [done|]. split; [|done]. intros Hj. by destruct (Hf E0 j).
    + by apply slsys_pc; rewrite ?E.
  - case_decide as E; [|done]. intros [= <-].
    destruct (decide (sl_locked (slk s) = 0)) as [E0|E0]; [by destruct (Hf E0 k)|].
    destruct (Ht E0) as (h & _ & Hh). apply Hh in E as ->. split; cbn [slk slpcs releasesleep sl_locked]; [|done].
    intros _ j. unfold upd. case_decide; [done|]. split; [rewrite slwake_holds, Hh; done|by destruct (slpcs s j)].
  - intros [= <-]. destruct (slpcs s k) eqn:E; cbn [slwake].
    1,2,3: by apply slsys_pc; rewrite ?E.
    split; cbn [slk slpcs].
    + intros E0. by destruct (Hf E0 k).
    + intros E0. destruct (Ht E0) as (h & Hpid & Hh). exists h. split; [done|]. intros j. rewrite <-Hh.
      unfold upd. case_decide; [by subst|done].
Qed.

Lemma slrun_inv os s s' : slsys_inv s -> slrun os s = Some s' -> slsys_inv s'.
Proof.
  revert s. induction os as [|o os IH]; intros s Hi; cbn [slrun]; [by intros [= <-]|].
  intros (s1 & E & Hs')%bind_Some. by apply (IH s1), Hs'; apply (slstep_inv o s).
Qed.

Lemma slsys_init_inv : slsys_inv slsys_init.
Proof. by split. Qed.

(** C23: a sleep lock has at most one holder, which [holdingsleep] identifies,
    and nobody sleeps on a free lock: no release is missed. *)
Theorem sleeplock_correct os s :
  slrun os slsys_init = Some s ->
  (forall j k, slpcs s j = SlHolds -> slpcs s k = SlHolds -> j = k) /\
  (forall k, holdingsleep (Z.of_nat k) (slk s) = true <-> slpcs s k = SlHolds) /\
  (sl_locked (slk s) = 0 -> forall k, slpcs s k <> SlAsleep).
Proof.
  intros Hr. destruct (slrun_inv os _ s slsys_init_inv Hr) as [Hf Ht].
  destruct (decide (sl_locked (slk s) = 0)) as [E0|E0].
  - split_and!.
    + intros j k Hj. by destruct (Hf E0 j).
    + intros k. unfold holdingsleep. rewrite E0. split; [done|]. intros Hk. by destruct (Hf E0 k).
    + intros _ k. by apply Hf.
  - destruct (Ht E0) as (h & Hpid & Hh). split_and!.
    + intros j k ->%Hh ->%Hh. done.
    + intros k. unfold holdingsleep. rewrite andb_true_iff, negb_true_iff, Z.eqb_neq, Z.eqb_eq, Hpid, Hh.
      split; [intros [_ ?]; lia|intros ->; done].
    + done.
Qed.

Definition sl_demo : list slop := [SlCall 1; SlTry 1; SlCall 2; SlTry 2]%nat.

Lemma sleeplock_correct_witness :
  exists s, slpcs s 2%nat = SlAsleep /\ slpcs s 1%nat = SlHolds /\ holdingsleep 1 (slk s) = true.
Proof.
  destruct (slrun sl_demo slsys_init) as [s|] eqn:E; [|vm_compute in E; discriminate].
  assert (H : (fun s => (slpcs s 2%nat, slpcs s 1%nat)) <$> slrun sl_demo slsys_init = Some (SlAsleep, SlHolds))
    by (vm_compute; reflexivity).
  rewrite E in H. injection H as H2 H1. exists s. split; [exact H2|]. split; [exact H1|].
  destruct (sleeplock_correct sl_demo s E) as (_ & H & _). apply (H 1%nat). exact H1.
Defined.
