(* ===== verification/Block.v ===== *)
(** * Disk blocks

    A block is the list of its bytes.  Integers in a block are little-endian, as
    the machine has them when the code casts [b->data] to a structure; [slice] and
    [splice] are what [memmove] reads from and writes to a block. *)

From S2P Require Import Prelude.

Definition BSIZE : Z := 1024.
Definition ROOTDEV : Z := 1.

Abbreviation block := (list Z).

Definition zero_block : block := replicate (Z.to_nat BSIZE) 0.

(** A block of the right length, of bytes. *)
Definition is_block (d : block) : Prop := length d = Z.to_nat BSIZE.

(** ** Integers *)

Fixpoint ld (n : nat) (d : block) (off : nat) : Z :=
  match n with
  | O => 0
  | S n => nth off d 0 + 256 * ld n d (S off)
  end.

Fixpoint st (n : nat) (d : block) (off : nat) (v : Z) : block :=
  match n with
  | O => d
  | S n => st n (<[off := v mod 256]> d) (S off) (v / 256)
  end.

Definition ld16 (d : block) (off : Z) : Z := ld 2 d (Z.to_nat off).
Definition st16 (d : block) (off v : Z) : block := st 2 d (Z.to_nat off) v.
Definition ld32 (d : block) (off : Z) : Z := ld 4 d (Z.to_nat off).
Definition st32 (d : block) (off v : Z) : block := st 4 d (Z.to_nat off) v.

Lemma length_st n d off v : length (st n d off v) = length d.
Proof. revert d off v. induction n as [|n IH]; intros d off v; [done|]. cbn [st]. by rewrite IH, length_insert. Qed.

Lemma nth_insert_ne (d : block) i j x : i <> j -> nth i (<[j := x]> d) 0 = nth i d 0.
Proof. intros. rewrite !nth_lookup. by rewrite list_lookup_insert_ne. Qed.

Lemma nth_insert_eq (d : block) i x : (i < length d)%nat -> nth i (<[i := x]> d) 0 = x.
Proof. intros. apply nth_lookup_Some. by apply list_lookup_insert_eq. Qed.

Lemma nth_st_out n d off v i : (i < off \/ off + n <= i)%nat -> nth i (st n d off v) 0 = nth i d 0.
Proof.
  revert d off v. induction n as [|n IH]; intros d off v Hi; [done|]. cbn [st].
  rewrite IH by lia. apply nth_insert_ne. lia.
Qed.

Lemma ld_ext n d d' off : (forall i, (off <= i < off + n)%nat -> nth i d' 0 = nth i d 0) -> ld n d' off = ld n d off.
Proof.
  revert off. induction n as [|n IH]; intros off H; [done|]. cbn [ld].
  rewrite H by lia. rewrite IH; [done|]. intros i Hi. apply H. lia.
Qed.

Lemma ld_st n d off v : (off + n <= length d)%nat -> ld n (st n d off v) off = v mod 256 ^ Z.of_nat n.
Proof.
  revert d off v. induction n as [|n IH]; intros d off v Hl; [cbn; by rewrite Z.mod_1_r|]. cbn [ld st].
  rewrite IH by (rewrite length_insert; lia). rewrite nth_st_out by lia. rewrite nth_insert_eq by lia.
  rewrite Nat2Z.inj_succ, Z.pow_succ_r by lia. rewrite (Z.rem_mul_r v 256 (256 ^ Z.of_nat n)) by lia. lia.
Qed.

Lemma ld_st_ne n m d off off' v : (off' + n <= off \/ off + m <= off')%nat -> ld n (st m d off v) off' = ld n d off'.
Proof. intros H. apply ld_ext. intros i Hi. apply nth_st_out. lia. Qed.

Lemma ld_range n d off : Forall (fun b => 0 <= b < 256) d -> 0 <= ld n d off < 256 ^ Z.of_nat n.
Proof.
  intros Hd. revert off. induction n as [|n IH]; intros off; [done|]. cbn [ld].
  rewrite Nat2Z.inj_succ, Z.pow_succ_r by lia. specialize (IH (S off)).
  assert (0 <= nth off d 0 < 256); [|lia]. rewrite nth_lookup. destruct (d !! off) eqn:E; [|done].
  by apply (Forall_lookup_1 _ _ _ _ Hd E).
Qed.

Lemma ld32_st32 d off v : 0 <= off -> off + 4 <= Z.of_nat (length d) -> ld32 (st32 d off v) off = u32 v.
Proof. intros. unfold ld32, st32. rewrite ld_st by lia. done. Qed.

Lemma ld32_st32_ne d off off' v :
  0 <= off -> 0 <= off' -> off' + 4 <= off \/ off + 4 <= off' -> ld32 (st32 d off v) off' = ld32 d off'.
Proof. intros. unfold ld32, st32. apply ld_st_ne. lia. Qed.

Lemma length_st32 d off v : length (st32 d off v) = length d.
Proof. apply length_st. Qed.

Lemma length_st16 d off v : length (st16 d off v) = length d.
Proof. apply length_st. Qed.

Lemma is_block_st32 d off v : is_block d -> is_block (st32 d off v).
Proof. unfold is_block. by rewrite length_st32. Qed.

Lemma is_block_zero : is_block zero_block.
Proof. apply length_replicate. Qed.

(** ** Slices *)

Definition slice (d : block) (off n : Z) : list Z := take (Z.to_nat n) (drop (Z.to_nat off) d).
Definition splice (d : block) (off : Z) (bs : list Z) : block :=
  take (Z.to_nat off) d ++ bs ++ drop (Z.to_nat off + length bs) d.

Lemma length_slice d off n :
  0 <= off -> 0 <= n -> off + n <= Z.of_nat (length d) -> length (slice d off n) = Z.to_nat n.
Proof. intros. unfold slice. rewrite length_take, length_drop. lia. Qed.

Lemma length_splice d off bs :
  0 <= off -> off + Z.of_nat (length bs) <= Z.of_nat (length d) -> length (splice d off bs) = length d.
Proof. intros. unfold splice. rewrite !length_app, length_take, length_drop. lia. Qed.

Lemma nth_splice d off bs i :
  0 <= off -> off + Z.of_nat (length bs) <= Z.of_nat (length d) ->
  nth i (splice d off bs) 0 =
    if decide (off <= Z.of_nat i < off + Z.of_nat (length bs)) then nth (i - Z.to_nat off) bs 0 else nth i d 0.
Proof.
  intros H1 H2. unfold splice. case_decide as Hi.
  - rewrite app_nth2 by (rewrite length_take; lia). rewrite length_take, app_nth1 by lia. f_equal. lia.
  - rewrite !nth_lookup. f_equal. destruct (decide (i < Z.to_nat off)%nat).
    + rewrite lookup_app_l by (rewrite length_take; lia). by rewrite lookup_take_lt.
    + rewrite lookup_app_r by (rewrite length_take; lia). rewrite length_take.
      rewrite lookup_app_r by lia. rewrite lookup_drop. f_equal. lia.
Qed.
