(* ===== verification/Bio.v ===== *)
(** * The buffer cache, [kernel/bio.c]

    [bcache] is an array of [NBUF] buffers and a list head, linked in a doubly
    linked circular list by their indices.  The operations are run by one process
    at a time ([me]); a buffer locked by another process is one it cannot get, and
    waiting for it is [Hang].  The disk is a map from block numbers to blocks:
    [virtio_disk_rw] moves one block and returns when that is done, and [trace]
    records the writes, in order. *)

From S2P Require Import Prelude Block Sleeplock.

Definition NBUF : nat := 30.

(** [struct buf] *)
Record buf := Buf {
  valid : bool;
  dev : Z;
  blockno : Z;
  lock : sleeplock;
  refcnt : Z;
  prev : nat;
  next : nat;
  data : block;
}.

#[export] Instance buf_inhabited : Inhabited buf :=
  populate (Buf false 0 0 (initsleeplock "") 0 0 0 zero_block).

(** [bcache]: the buffers, then the list head, at index [HEAD]. *)
Definition HEAD : nat := NBUF.

Record bstate := BState {
  bufs : list buf;
  disk : gmap Z block;
  trace : list (Z * block);
  me : Z;
}.

(** ** Fields *)

Definition buf_at (i : nat) (s : bstate) : buf := bufs s !!! i.
Definition set_buf (i : nat) (f : buf -> buf) (s : bstate) : bstate :=
  BState (alter f i (bufs s)) (disk s) (trace s) (me s).

Definition with_valid (v : bool) (b : buf) : buf :=
  Buf v (dev b) (blockno b) (lock b) (refcnt b) (prev b) (next b) (data b).
Definition with_id (d bn : Z) (b : buf) : buf :=
  Buf (valid b) d bn (lock b) (refcnt b) (prev b) (next b) (data b).
Definition with_lock (l : sleeplock) (b : buf) : buf :=
  Buf (valid b) (dev b) (blockno b) l (refcnt b) (prev b) (next b) (data b).
Definition with_refcnt (r : Z) (b : buf) : buf :=
  Buf (valid b) (dev b) (blockno b) (lock b) r (prev b) (next b) (data b).
Definition with_prev (p : nat) (b : buf) : buf :=
  Buf (valid b) (dev b) (blockno b) (lock b) (refcnt b) p (next b) (data b).
Definition with_next (n : nat) (b : buf) : buf :=
  Buf (valid b) (dev b) (blockno b) (lock b) (refcnt b) (prev b) n (data b).
Definition with_data (d : block) (b : buf) : buf :=
  Buf (valid b) (dev b) (blockno b) (lock b) (refcnt b) (prev b) (next b) d.

Definition set_prev (i p : nat) : M bstate unit := modify (set_buf i (with_prev p)).
Definition set_next (i n : nat) : M bstate unit := modify (set_buf i (with_next n)).

(** A block of the disk; one never written reads as zeroes. *)
Definition disk_block (d : gmap Z block) (bn : Z) : block := default zero_block (d !! bn).

(** The disk: [virtio_disk_rw(b, write)]. *)
Definition virtio_disk_rw (i : nat) (write : bool) : M bstate unit := fun s =>
  let b := buf_at i s in
  if write then
    Done tt (BState (bufs s) (<[blockno b := data b]> (disk s)) (trace s ++ [(blockno b, data b)]) (me s))
  else Done tt (set_buf i (with_data (disk_block (disk s) (blockno b))) s).

(** ** Operations *)

(** Put buffer [b], which is in no list, at the front: the four assignments that
    [binit] and [brelse] share. *)
Definition link_front (b : nat) : M bstate unit :=
  h ← gets (buf_at HEAD);
  set_next b (next h);;
  set_prev b HEAD;;
  set_prev (next h) b;;
  set_next HEAD b.

Fixpoint binit_loop (rem b : nat) : M bstate unit :=
  match rem with
  | O => mret tt
  | S rem =>
      link_front b;;
      modify (set_buf b (with_lock (initsleeplock "buffer")));;
      binit_loop rem (S b)
  end.

Definition binit : M bstate unit :=
  set_prev HEAD HEAD;;
  set_next HEAD HEAD;;
  binit_loop NBUF 0.

(** The two searches of [bget]: along [next] from [b] for the block, and along
    [prev] for an unused buffer. *)
Fixpoint bget_cached (fuel b : nat) (d bn : Z) : M bstate (option nat) :=
  if decide (b = HEAD) then mret None
  else
    x ← gets (buf_at b);
    if (dev x =? d) && (blockno x =? bn) then mret (Some b)
    else match fuel with O => hang | S fuel => bget_cached fuel (next x) d bn end.

Fixpoint bget_unused (fuel b : nat) : M bstate (option nat) :=
  if decide (b = HEAD) then mret None
  else
    x ← gets (buf_at b);
    if refcnt x =? 0 then mret (Some b)
    else match fuel with O => hang | S fuel => bget_unused fuel (prev x) end.

Definition acquire_buf (b : nat) : M bstate unit := fun s =>
  match acquiresleep (me s) (lock (buf_at b s)) with
  | None => Hang
  | Some l => Done tt (set_buf b (with_lock l) s)
  end.

Definition bget (d bn : Z) : M bstate nat :=
  h ← gets (buf_at HEAD);
  r ← bget_cached NBUF (next h) d bn;
  match r with
  | Some b =>
      modify (set_buf b (fun x => with_refcnt (u32 (refcnt x + 1)) x));;
      acquire_buf b;;
      mret b
  | None =>
      r ← bget_unused NBUF (prev h);
      match r with
      | Some b =>
          modify (set_buf b (fun x => with_refcnt 1 (with_valid false (with_id d bn x))));;
          acquire_buf b;;
          mret b
      | None => panic "bget: no buffers"
      end
  end.

Definition bread (d bn : Z) : M bstate nat :=
  b ← bget d bn;
  x ← gets (buf_at b);
  if valid x then mret b
  else virtio_disk_rw b false;; modify (set_buf b (with_valid true));; mret b.

Definition bwrite (b : nat) : M bstate unit := fun s =>
  if holdingsleep (me s) (lock (buf_at b s)) then virtio_disk_rw b true s else Panic "bwrite".

Definition unlink (b : nat) : M bstate unit :=
  x ← gets (buf_at b);
  set_prev (next x) (prev x);;
  set_next (prev x) (next x).

Definition brelse (b : nat) : M bstate unit :=
  x ← gets (buf_at b);
  p ← gets me;
  if negb (holdingsleep p (lock x)) then panic "brelse"
  else
    modify (set_buf b (with_lock (releasesleep (lock x))));;
    modify (set_buf b (fun x => with_refcnt (u32 (refcnt x - 1)) x));;
    x ← gets (buf_at b);
    if refcnt x =? 0 then unlink b;; link_front b else mret tt.

Definition bpin (b : nat) : M bstate unit :=
  modify (set_buf b (fun x => with_refcnt (u32 (refcnt x + 1)) x)).

Definition bunpin (b : nat) : M bstate unit :=
  modify (set_buf b (fun x => with_refcnt (u32 (refcnt x - 1)) x)).

(** A machine that has just started: [bcache] is zero. *)
Definition boot (d : gmap Z block) (pid : Z) : bstate :=
  BState (replicate (S NBUF) (Buf false 0 0 (initsleeplock "") 0 0 0 zero_block)) d [] pid.
