(* ===== verification/BioList.v ===== *)
(** * The linked list of the buffer cache

    [seg nx pv x L y] says that following [nx] from [x] visits [L] and then [y],
    and that [pv] goes the same way back.  The list of the cache is a segment from
    [HEAD] to [HEAD]; unlinking and linking in front act on it as on a list, and
    the two searches of [bget] find the first match from the front and from the
    back. *)

From S2P Require Import Prelude Block Sleeplock Bio.

Fixpoint seg (nx pv : nat -> nat) (x : nat) (L : list nat) (y : nat) : Prop :=
  match L with
  | [] => nx x = y /\ pv y = x
  | z :: L => nx x = z /\ pv z = x /\ seg nx pv z L y
  end.

Lemma seg_ext nx pv nx' pv' x L y :
  seg nx pv x L y -> (forall i, i ∈ x :: L -> nx' i = nx i) -> (forall i, i ∈ L ++ [y] -> pv' i = pv i) ->
  seg nx' pv' x L y.
Proof.
  revert x. induction L as [|z L IH]; intros x H Hn Hp; cbn [seg] in *.
  - rewrite Hn, Hp by (by left). done.
  - destruct H as (H1 & H2 & H3). rewrite Hn, Hp by (by left). split; [done|]. split; [done|].
    apply IH; [done| |]; intros i Hi; [apply Hn|apply Hp]; by right.
Qed.

Lemma seg_app nx pv x L1 z L2 y : seg nx pv x (L1 ++ z :: L2) y <-> seg nx pv x L1 z /\ seg nx pv z L2 y.
Proof.
  revert x. induction L1 as [|w L1 IH]; intros x; cbn [seg app]; [tauto|]. rewrite IH. tauto.
Qed.

Lemma seg_pv nx pv x L y : seg nx pv x L y -> pv y ∈ x :: L.
Proof.
  revert x. induction L as [|z L IH]; intros x; cbn [seg]; [intros [_ ->]; by left|].
  intros (_ & _ & H%IH). by right.
Qed.

Lemma seg_nx nx pv x L y : seg nx pv x L y -> nx x ∈ L ++ [y].
Proof. destruct L; cbn [seg app]; intros H; destruct H as (-> & _); by left. Qed.

(** Removing [b]: what [b]'s neighbours point at changes, and nothing else. *)
Lemma seg_unlink nx pv x L1 b L2 y :
  seg nx pv x (L1 ++ b :: L2) y -> NoDup (L1 ++ b :: L2) -> x ∉ L1 ++ b :: L2 -> y ∉ L1 ++ b :: L2 ->
  seg (upd nx (pv b) (nx b)) (upd pv (nx b) (pv b)) x (L1 ++ L2) y.
Proof.
  revert x. induction L1 as [|w L1 IH]; intros x H Hnd Hx Hy; cbn [app] in *.
  - destruct H as (H1 & H2 & H3). apply list.NoDup_cons in Hnd as [Hb Hnd]. rewrite H2.
    destruct L2 as [|z L2]; cbn [seg] in H3 |- *.
    + destruct H3 as (-> & H3). by rewrite !upd_eq.
    + destruct H3 as (-> & H3 & H4). rewrite !upd_eq. split; [done|]. split; [done|].
      apply list.NoDup_cons in Hnd as [Hz _].
      apply (seg_ext nx pv); [done| |].
      * intros i Hi. apply upd_ne. intros ->. apply Hx. by right.
      * intros i Hi. apply upd_ne. intros ->. apply elem_of_app in Hi as [Hi|Hi%list_elem_of_singleton]; [done|].
        apply Hy. rewrite <-Hi. right. by left.
  - destruct H as (H1 & H2 & H3). apply list.NoDup_cons in Hnd as [Hw Hnd].
    assert (Hb : pv b ∈ w :: L1) by (apply seg_app in H3 as [H3 _]; by apply seg_pv in H3).
    assert (Hn : nx b ∈ L2 ++ [y]) by (apply seg_app in H3 as [_ H3]; by apply seg_nx in H3).
    cbn [seg]. split; [|split].
    + rewrite upd_ne; [done|]. intros ->. apply Hx. apply elem_of_cons in Hb as [->|Hb]; [by left|].
      right. apply elem_of_app. by left.
    + rewrite upd_ne; [done|]. intros ->. apply elem_of_app in Hn as [Hn|Hn%list_elem_of_singleton].
      * apply Hw. apply elem_of_app. right. by right.
      * apply Hy. rewrite Hn. by left.
    + apply IH; [done|done|done|]. intros Hy'. apply Hy. by right.
Qed.

(** Linking [b] after [x]. *)
Lemma seg_link nx pv x L y b :
  seg nx pv x L y -> b ∉ L -> b <> x -> b <> y -> x ∉ L -> NoDup L -> y ∉ L ->
  seg (upd (upd nx b (nx x)) x b) (upd (upd pv b x) (nx x) b) x (b :: L) y.
Proof.
  intros H Hb Hbx Hby Hx Hnd Hy. pose proof (seg_nx _ _ _ _ _ H) as Hn.
  assert (Hbn : b <> nx x).
  { intros ->. apply elem_of_app in Hn as [Hn|Hn%list_elem_of_singleton]; done. }
  cbn [seg]. split; [by rewrite upd_eq|]. split; [by rewrite upd_ne, upd_eq|].
  destruct L as [|z L]; cbn [seg] in *.
  - destruct H as [-> H]. rewrite upd_ne, upd_eq by done. by rewrite upd_eq.
  - destruct H as (-> & H2 & H3). rewrite upd_ne, upd_eq by done. rewrite upd_eq. split; [done|]. split; [done|].
    apply list.NoDup_cons in Hnd as [Hz Hnd]. apply (seg_ext nx pv); [done| |].
    + intros i Hi. rewrite !upd_ne; [done|intros ->; by apply Hb|intros ->; by apply Hx].
    + intros i Hi. rewrite !upd_ne; [done| |].
      * intros ->. apply elem_of_app in Hi as [Hi|Hi%list_elem_of_singleton]; [apply Hb; by right|done].
      * intros ->. apply elem_of_app in Hi as [Hi|Hi%list_elem_of_singleton]; [done|]. apply Hy. rewrite Hi. by left.
Qed.

(** ** Buffers *)

Lemma buf_at_set i f s : (i < length (bufs s))%nat -> buf_at i (set_buf i f s) = f (buf_at i s).
Proof.
  intros Hi. unfold buf_at, set_buf. cbn [bufs]. destruct (lookup_lt_is_Some_2 _ _ Hi) as [x Hx].
  apply list_lookup_total_correct. rewrite list_lookup_alter_eq, Hx. cbn.
  by rewrite (list_lookup_total_correct _ _ _ Hx).
Qed.

Lemma buf_at_set_ne i j f s : i <> j -> buf_at j (set_buf i f s) = buf_at j s.
Proof.
  intros Hi. unfold buf_at, set_buf. cbn [bufs]. by rewrite list_lookup_total_alter_ne.
Qed.

(** A field that [f] leaves alone. *)
Lemma buf_at_set_field {A} (g : buf -> A) i j f s :
  (forall b, g (f b) = g b) -> g (buf_at j (set_buf i f s)) = g (buf_at j s).
Proof.
  intros Hg. destruct (decide (i = j)) as [->|Hne]; [|by rewrite buf_at_set_ne].
  destruct (decide (j < length (bufs s))%nat); [by rewrite buf_at_set, Hg|].
  unfold buf_at, set_buf. cbn [bufs]. rewrite !list_lookup_total_alt. rewrite list_lookup_alter_eq.
  by rewrite lookup_ge_None_2 by lia.
Qed.

Lemma length_bufs_set i f s : length (bufs (set_buf i f s)) = length (bufs s).
Proof. unfold set_buf. cbn [bufs]. apply length_alter. Qed.

Definition nexts (s : bstate) : nat -> nat := fun i => next (buf_at i s).
Definition prevs (s : bstate) : nat -> nat := fun i => prev (buf_at i s).

(** [L] is the list of the buffers, most recently used first. *)
Definition lru (s : bstate) (L : list nat) : Prop :=
  seg (nexts s) (prevs s) HEAD L HEAD /\ NoDup L /\ Forall (fun i => (i < NBUF)%nat) L.

Lemma lru_HEAD s L : lru s L -> HEAD ∉ L.
Proof. intros (_ & _ & H) Hin. pose proof (proj1 (list.Forall_forall _ _) H HEAD Hin) as Hlt. cbn in Hlt. unfold HEAD in Hlt. lia. Qed.

Lemma nexts_set_next i v s : (i < length (bufs s))%nat -> forall j, nexts (set_buf i (with_next v) s) j = upd (nexts s) i v j.
Proof.
  intros Hi j. unfold nexts, upd. case_decide as E; [subst; by rewrite buf_at_set|by rewrite buf_at_set_ne].
Qed.

Lemma prevs_set_prev i v s : (i < length (bufs s))%nat -> forall j, prevs (set_buf i (with_prev v) s) j = upd (prevs s) i v j.
Proof.
  intros Hi j. unfold prevs, upd. case_decide as E; [subst; by rewrite buf_at_set|by rewrite buf_at_set_ne].
Qed.

Lemma nexts_set_prev i v s j : nexts (set_buf i (with_prev v) s) j = nexts s j.
Proof. unfold nexts. by rewrite buf_at_set_field. Qed.

Lemma prevs_set_next i v s j : prevs (set_buf i (with_next v) s) j = prevs s j.
Proof. unfold prevs. by rewrite buf_at_set_field. Qed.

Lemma seg_rev nx pv x L y : seg nx pv x L y -> seg pv nx y (rev L) x.
Proof.
  revert x. induction L as [|z L IH]; intros x; cbn [seg rev]; [tauto|].
  intros (H1 & H2 & H3%IH). apply seg_app. split; [done|]. by cbn [seg].
Qed.

(** ** Relinking *)

(** What a buffer holds apart from its links. *)
Definition core (b : buf) : bool * Z * Z * sleeplock * Z * block :=
  (valid b, dev b, blockno b, lock b, refcnt b, data b).

(** The states differ at most in their links. *)
Definition relinked (s s' : bstate) : Prop :=
  length (bufs s') = length (bufs s) /\ (forall i, core (buf_at i s') = core (buf_at i s)) /\
  disk s' = disk s /\ trace s' = trace s /\ me s' = me s.

Lemma relinked_trans s1 s2 s3 : relinked s1 s2 -> relinked s2 s3 -> relinked s1 s3.
Proof.
  intros (H1 & H2 & H3 & H4 & H5) (G1 & G2 & G3 & G4 & G5). split_and!; congruence.
Qed.

Lemma relinked_set_next i v s : relinked s (set_buf i (with_next v) s).
Proof. split_and!; try done; [apply length_bufs_set|]. intros j. by apply buf_at_set_field. Qed.

Lemma relinked_set_prev i v s : relinked s (set_buf i (with_prev v) s).
Proof. split_and!; try done; [apply length_bufs_set|]. intros j. by apply buf_at_set_field. Qed.

Lemma link_front_spec s L b :
  lru s L -> b ∉ L -> (b < NBUF)%nat -> length (bufs s) = S NBUF ->
  exists s', link_front b s = Done tt s' /\ lru s' (b :: L) /\ relinked s s'.
Proof.
  intros Hl Hb Hlt Hlen. pose proof (lru_HEAD _ _ Hl) as Hh. pose proof Hl as (Hs & Hnd & Hf).
  assert (HHEAD : (HEAD < length (bufs s))%nat) by (rewrite Hlen; unfold HEAD; lia).
  assert (Hn : (nexts s HEAD < length (bufs s))%nat).
  { pose proof (seg_nx _ _ _ _ _ Hs) as [Hn|Hn%list_elem_of_singleton]%elem_of_app; [|by rewrite Hn].
    pose proof (proj1 (list.Forall_forall _ _) Hf _ Hn) as Hn'. cbn in Hn'. lia. }
  eexists. split; [reflexivity|]. change (next (buf_at HEAD s)) with (nexts s HEAD). split; [split; [|split]|].
  - apply (seg_ext (upd (upd (nexts s) b (nexts s HEAD)) HEAD b) (upd (upd (prevs s) b HEAD) (nexts s HEAD) b)).
    + apply seg_link; try done; unfold HEAD; lia.
    + intros i _. rewrite nexts_set_next by (rewrite !length_bufs_set; lia). apply upd_ext.
      rewrite !nexts_set_prev. by apply nexts_set_next; lia.
    + intros i _. rewrite prevs_set_next, prevs_set_prev by (rewrite !length_bufs_set; lia).
      apply upd_ext. rewrite prevs_set_prev by (rewrite length_bufs_set; lia). apply upd_ext, prevs_set_next.
  - by apply list.NoDup_cons.
  - by apply list.Forall_cons.
  - eapply relinked_trans; [apply relinked_set_next|]. eapply relinked_trans; [apply relinked_set_prev|].
    eapply relinked_trans; [apply relinked_set_prev|]. apply relinked_set_next.
Qed.

Lemma unlink_spec s L1 b L2 :
  lru s (L1 ++ b :: L2) -> length (bufs s) = S NBUF ->
  exists s', unlink b s = Done tt s' /\ lru s' (L1 ++ L2) /\ relinked s s'.
Proof.
  intros Hl Hlen. pose proof (lru_HEAD _ _ Hl) as Hh. pose proof Hl as (Hs & Hnd & Hf).
  assert (HHEAD : (HEAD < length (bufs s))%nat) by (rewrite Hlen; unfold HEAD; lia).
  assert (Hlt : forall i, i ∈ L1 ++ b :: L2 -> (i < length (bufs s))%nat).
  { intros i Hi. pose proof (proj1 (list.Forall_forall _ _) Hf _ Hi) as Hi'. cbn in Hi'. lia. }
  assert (Hn : (nexts s b < length (bufs s))%nat).
  { apply seg_app in Hs as [_ Hs]. apply seg_nx in Hs. apply elem_of_app in Hs as [Hs|Hs%list_elem_of_singleton].
    - apply Hlt, elem_of_app. right. by right.
    - by rewrite Hs. }
  assert (Hp : (prevs s b < length (bufs s))%nat).
  { apply seg_app in Hs as [Hs _]. apply seg_pv in Hs. apply elem_of_cons in Hs as [->|Hs]; [done|].
    apply Hlt, elem_of_app. by left. }
  eexists. split; [reflexivity|]. change (next (buf_at b s)) with (nexts s b). change (prev (buf_at b s)) with (prevs s b).
  split; [split; [|split]|].
  - apply (seg_ext (upd (nexts s) (prevs s b) (nexts s b)) (upd (prevs s) (nexts s b) (prevs s b))).
    + by apply seg_unlink.
    + intros i _. rewrite nexts_set_next by (rewrite length_bufs_set; lia). unfold upd. case_decide; [done|].
      apply nexts_set_prev.
    + intros i _. rewrite prevs_set_next. by apply prevs_set_prev.
  - apply list.NoDup_app in Hnd as (H1 & H2 & H3). apply list.NoDup_cons in H3 as [_ H3].
    apply list.NoDup_app. split; [done|]. split; [|done]. intros i Hi Hi'. apply (H2 i Hi). by right.
  - apply Forall_app in Hf as [Hf1 Hf2]. apply list.Forall_cons in Hf2 as [_ Hf2]. by apply Forall_app.
  - eapply relinked_trans; [apply relinked_set_prev|apply relinked_set_next].
Qed.

(** ** Searching *)

Definition caches (s : bstate) (d bn : Z) (i : nat) : bool := (dev (buf_at i s) =? d) && (blockno (buf_at i s) =? bn).
Definition unused (s : bstate) (i : nat) : bool := refcnt (buf_at i s) =? 0.

Lemma bget_cached_seg s pv x L d bn fuel :
  seg (nexts s) pv x L HEAD -> HEAD ∉ L -> (length L <= fuel)%nat ->
  bget_cached fuel (nexts s x) d bn s = Done (find (caches s d bn) L) s.
Proof.
  revert x fuel. induction L as [|z L IH]; intros x fuel Hs Hh Hf; cbn [seg] in Hs.
  - destruct Hs as [-> _]. destruct fuel; cbn [bget_cached]; rewrite decide_True by done; done.
  - destruct Hs as (-> & _ & Hs). assert (z <> HEAD) by (intros ->; apply Hh; by left).
    destruct fuel as [|fuel]; cbn [length] in Hf; [lia|]. cbn [bget_cached find]. rewrite decide_False by done.
    rewrite bind_gets. unfold caches at 1. destruct (_ && _) eqn:E; [done|].
    apply IH; [done| |lia]. intros Hin. apply Hh. by right.
Qed.

Lemma bget_unused_seg s nx x L fuel :
  seg (prevs s) nx x L HEAD -> HEAD ∉ L -> (length L <= fuel)%nat ->
  bget_unused fuel (prevs s x) s = Done (find (unused s) L) s.
Proof.
  revert x fuel. induction L as [|z L IH]; intros x fuel Hs Hh Hf; cbn [seg] in Hs.
  - destruct Hs as [-> _]. destruct fuel; cbn [bget_unused]; rewrite decide_True by done; done.
  - destruct Hs as (-> & _ & Hs). assert (z <> HEAD) by (intros ->; apply Hh; by left).
    destruct fuel as [|fuel]; cbn [length] in Hf; [lia|]. cbn [bget_unused find]. rewrite decide_False by done.
    rewrite bind_gets. unfold unused at 1. destruct (refcnt (buf_at z s) =? 0) eqn:E; [done|].
    apply IH; [done| |lia]. intros Hin. apply Hh. by right.
Qed.

Lemma lru_length s L : lru s L -> (length L <= NBUF)%nat.
Proof.
  intros (_ & Hnd & Hf). transitivity (length (seq 0 NBUF)); [|by rewrite length_seq]. apply NoDup_incl_length; [by apply NoDup_ListNoDup|].
  intros i Hi. apply in_seq. apply list_elem_of_In in Hi. pose proof (proj1 (list.Forall_forall _ _) Hf i Hi). cbn in *. lia.
Qed.

Lemma bget_cached_spec s L d bn :
  lru s L -> bget_cached NBUF (next (buf_at HEAD s)) d bn s = Done (find (caches s d bn) L) s.
Proof.
  intros Hl. change (next (buf_at HEAD s)) with (nexts s HEAD). apply bget_cached_seg with (prevs s).
  - apply Hl.
  - by apply (lru_HEAD s).
  - by apply (lru_length s).
Qed.

Lemma bget_unused_spec s L :
  lru s L -> bget_unused NBUF (prev (buf_at HEAD s)) s = Done (find (unused s) (rev L)) s.
Proof.
  intros Hl. change (prev (buf_at HEAD s)) with (prevs s HEAD). apply bget_unused_seg with (nexts s).
  - apply seg_rev, Hl.
  - rewrite list_elem_of_In, <-in_rev, <-list_elem_of_In. by apply (lru_HEAD s).
  - rewrite length_rev. by apply (lru_length s).
Qed.

(** ** Start *)

Lemma binit_loop_spec rem b s :
  (b + rem <= NBUF)%nat -> lru s (rev (seq 0 b)) -> length (bufs s) = S NBUF ->
  exists s', binit_loop rem b s = Done tt s' /\ lru s' (rev (seq 0 (b + rem))) /\
    length (bufs s') = S NBUF /\ disk s' = disk s /\ trace s' = trace s /\ me s' = me s /\
    forall i, dev (buf_at i s') = dev (buf_at i s) /\ blockno (buf_at i s') = blockno (buf_at i s) /\
      valid (buf_at i s') = valid (buf_at i s) /\ refcnt (buf_at i s') = refcnt (buf_at i s) /\
      sl_locked (lock (buf_at i s')) = if decide (b <= i < b + rem)%nat then 0 else sl_locked (lock (buf_at i s)).
Proof.
  revert b s. induction rem as [|rem IH]; intros b s Hb Hl Hlen; cbn [binit_loop].
  { rewrite Nat.add_0_r. exists s. split_and!; try done. intros i. split_and!; try done. rewrite decide_False by lia. done. }
  destruct (link_front_spec s _ b Hl) as (s1 & E & Hl1 & (R1 & R2 & R3 & R4 & R5)); [|lia|done|].
  { rewrite list_elem_of_In, <-in_rev, in_seq. lia. }
  mstep E. rewrite bind_modify. set (s2 := set_buf b _ s1).
  destruct (IH (S b) s2) as (s' & E' & Hl' & Hlen' & Hd & Ht & Hm & Hc); [lia| | |].
  - rewrite seq_S, rev_app_distr. cbn [Nat.add rev app]. destruct Hl1 as (Hs & Hnd & Hf). split; [|done].
    apply (seg_ext (nexts s1) (prevs s1)); [done| |]; intros i _; unfold nexts, prevs, s2; by rewrite buf_at_set_field.
  - unfold s2. rewrite length_bufs_set. lia.
  - exists s'. split; [done|]. replace (b + S rem)%nat with (S b + rem)%nat by lia. split; [done|]. split; [done|].
    split; [rewrite Hd; done|]. split; [rewrite Ht; done|]. split; [rewrite Hm; done|]. intros i.
    destruct (Hc i) as (H1 & H2 & H3 & H4 & H5). rewrite H1, H2, H3, H4, H5. specialize (R2 i).
    unfold core in R2. injection R2 as Q1 Q2 Q3 Q4 Q5 _. unfold s2.
    rewrite !(buf_at_set_field dev), !(buf_at_set_field blockno), !(buf_at_set_field valid), !(buf_at_set_field refcnt) by done.
    rewrite Q1, Q2, Q3, Q5. split_and!; try done.
    destruct (decide (i = b)) as [->|Hne].
    + rewrite decide_False by lia. rewrite decide_True by lia. rewrite buf_at_set by lia. done.
    + rewrite buf_at_set_ne by done. rewrite Q4. repeat case_decide; try done; lia.
Qed.
