(* ===== verification/BioSpec.v ===== *)
(** * The buffer cache as a store of blocks

    [cache_ok s H P] is the invariant of the cache while the running process
    holds the buffers [H] and the log has pinned the blocks [P].  [blk s b] is
    what block [b] logically holds: its cached copy if it is cached, else the
    disk's.  Getting and releasing buffers does not change it. *)

From S2P Require Import Prelude Block Sleeplock Bio BioList.

(** A buffer of the cache, [h] saying whether it is held. *)
Record buf_ok (d : gmap Z block) (m : Z) (h : bool) (P : list Z) (x : buf) : Prop := {
  bo_valid : dev x = ROOTDEV -> valid x = true;
  bo_ref : refcnt x = Z.b2z h + Z.b2z (bool_decide (dev x = ROOTDEV /\ blockno x ∈ P));
  bo_lock : if h then sl_locked (lock x) = 1 /\ sl_pid (lock x) = m else sl_locked (lock x) = 0;
  bo_held : h = true -> dev x = ROOTDEV;
  bo_clean : dev x = ROOTDEV -> h = false -> blockno x ∉ P -> data x = disk_block d (blockno x);
}.

Definition in_cache (s : bstate) (i : nat) (b : Z) : Prop :=
  (i < NBUF)%nat /\ dev (buf_at i s) = ROOTDEV /\ blockno (buf_at i s) = b.

Record cache_ok (s : bstate) (H : list nat) (P : list Z) : Prop := {
  co_len : length (bufs s) = S NBUF;
  co_lru : exists L, lru s L /\ length L = NBUF;
  co_unique : forall i j b, in_cache s i b -> in_cache s j b -> i = j;
  co_buf : forall i, (i < NBUF)%nat -> buf_ok (disk s) (me s) (bool_decide (i ∈ H)) P (buf_at i s);
  co_held : NoDup H /\ forall i, i ∈ H -> (i < NBUF)%nat;
  co_pin : NoDup P /\ forall b, b ∈ P -> exists i, in_cache s i b;
}.

Definition blk (s : bstate) (b : Z) : block :=
  match find (caches s ROOTDEV b) (seq 0 NBUF) with
  | Some i => data (buf_at i s)
  | None => disk_block (disk s) b
  end.

(** ** Finding *)

Lemma caches_spec s b i : caches s ROOTDEV b i = true <-> dev (buf_at i s) = ROOTDEV /\ blockno (buf_at i s) = b.
Proof. unfold caches. by rewrite andb_true_iff, !Z.eqb_eq. Qed.

Lemma lru_all s L : lru s L -> length L = NBUF -> forall i, i ∈ L <-> (i < NBUF)%nat.
Proof.
  intros (_ & Hnd & Hf) Hl i. split.
  - intros Hi. apply (proj1 (list.Forall_forall _ _) Hf i Hi).
  - intros Hi. apply list_elem_of_In.
    apply (NoDup_length_incl (l := L) (l' := seq 0 NBUF)).
    + by apply NoDup_ListNoDup.
    + rewrite length_seq. lia.
    + intros j Hj%list_elem_of_In. apply in_seq. pose proof (proj1 (list.Forall_forall _ _) Hf j Hj). cbn in *. lia.
    + apply in_seq. lia.
Qed.

(** A search over all the buffers, in any order. *)
Lemma find_cached s H P b L :
  cache_ok s H P -> (forall i, i ∈ L <-> (i < NBUF)%nat) ->
  match find (caches s ROOTDEV b) L with
  | Some i => in_cache s i b
  | None => forall i, ~ in_cache s i b
  end.
Proof.
  intros Hok HL. destruct (find _ L) as [i|] eqn:E.
  - apply find_some in E as [Hi E%caches_spec]. split; [by apply HL, list_elem_of_In|done].
  - intros i (Hi & Hd & Hb). apply HL, list_elem_of_In in Hi.
    pose proof (find_none _ _ E i Hi) as F. rewrite (proj2 (caches_spec s b i)) in F; done.
Qed.

Lemma seq_all i : i ∈ seq 0 NBUF <-> (i < NBUF)%nat.
Proof. rewrite list_elem_of_In, in_seq. lia. Qed.

Lemma blk_cached s H P i b : cache_ok s H P -> in_cache s i b -> blk s b = data (buf_at i s).
Proof.
  intros Hok Hi. unfold blk. pose proof (find_cached s H P b _ Hok seq_all) as F.
  destruct (find _ _) as [j|]; [|by destruct (F i)]. by rewrite (co_unique _ _ _ Hok i j b).
Qed.

Lemma blk_uncached s H P b : cache_ok s H P -> (forall i, ~ in_cache s i b) -> blk s b = disk_block (disk s) b.
Proof.
  intros Hok Hno. unfold blk. pose proof (find_cached s H P b _ Hok seq_all) as F.
  destruct (find _ _) as [j|]; [|done]. by destruct (Hno j).
Qed.

Lemma cached_dec s b : (exists i, in_cache s i b) \/ (forall i, ~ in_cache s i b).
Proof.
  destruct (find (caches s ROOTDEV b) (seq 0 NBUF)) as [i|] eqn:E.
  - left. exists i. apply find_some in E as [Hi E%caches_spec]. split; [by apply seq_all, list_elem_of_In|done].
  - right. intros i (Hi & Hd & Hb). apply seq_all, list_elem_of_In in Hi.
    pose proof (find_none _ _ E i Hi) as F. rewrite (proj2 (caches_spec s b i)) in F; done.
Qed.

(** A block that is neither held nor pinned is on the disk as it is in the cache. *)
Lemma blk_clean s H P b :
  cache_ok s H P -> b ∉ P -> (forall i, i ∈ H -> blockno (buf_at i s) <> b) -> blk s b = disk_block (disk s) b.
Proof.
  intros Hok HP HH. destruct (cached_dec s b) as [[i Hi]|Hno]; [|by apply (blk_uncached _ H P)].
  rewrite (blk_cached s H P i b Hok Hi). destruct Hi as (Hi & Hd & <-).
  apply (co_buf _ _ _ Hok i Hi); [done| |done]. apply bool_decide_eq_false. intros Hin. by apply (HH i Hin).
Qed.

(** Fewer buffers held and pinned than there are: one is unused. *)
Lemma exists_unused s H P :
  cache_ok s H P -> (length H + length P < NBUF)%nat -> exists i, (i < NBUF)%nat /\ refcnt (buf_at i s) = 0.
Proof.
  intros Hok Hlt. destruct (find (unused s) (seq 0 NBUF)) as [i|] eqn:E.
  { apply find_some in E as [Hi E%Z.eqb_eq]. exists i. split; [by apply seq_all, list_elem_of_In|done]. }
  set (f := fun b => default 0%nat (find (caches s ROOTDEV b) (seq 0 NBUF))).
  assert (Hle : (length (seq 0 NBUF) <= length (H ++ map f P))%nat).
  { apply NoDup_incl_length; [apply seq_NoDup|]. intros i Hi. pose proof (find_none _ _ E i Hi) as Hu.
    unfold unused in Hu. apply Z.eqb_neq in Hu. apply list_elem_of_In, seq_all in Hi. apply in_or_app.
    pose proof (bo_ref _ _ _ _ _ (co_buf _ _ _ Hok i Hi)) as Hr.
    destruct (bool_decide_reflect (i ∈ H)) as [Hin|Hin]; [left; by apply list_elem_of_In|right].
    destruct (bool_decide_reflect (dev (buf_at i s) = ROOTDEV /\ blockno (buf_at i s) ∈ P)) as [[Hd Hp]|]; [|cbn in Hr; lia].
    apply in_map_iff. exists (blockno (buf_at i s)). split; [|by apply list_elem_of_In].
    unfold f. pose proof (find_cached s H P (blockno (buf_at i s)) _ Hok seq_all) as F.
    destruct (find (caches s ROOTDEV _) _) as [j|]; [|by destruct (F i)]. cbn. by apply (co_unique _ _ _ Hok j i (blockno (buf_at i s))). }
  rewrite length_seq, length_app, length_map in Hle. lia.
Qed.

(** ** Changes to one buffer *)

Lemma set_buf_compose i f g s : set_buf i g (set_buf i f s) = set_buf i (fun x => g (f x)) s.
Proof. unfold set_buf. cbn [bufs disk trace me]. f_equal. apply list_alter_alter_eq. Qed.

Lemma lru_set_buf i f s L :
  (forall b, next (f b) = next b) -> (forall b, prev (f b) = prev b) -> lru s L -> lru (set_buf i f s) L.
Proof.
  intros Hn Hp (Hs & Hr). split; [|done].
  apply (seg_ext (nexts s) (prevs s)); [done| |]; intros j _; unfold nexts, prevs; by rewrite buf_at_set_field.
Qed.

Lemma NBUF_lt s H P i : cache_ok s H P -> (i < NBUF)%nat -> (i < length (bufs s))%nat.
Proof. intros Hok Hi. rewrite (co_len _ _ _ Hok). lia. Qed.

Lemma bool_decide_cons_ne (i j : nat) H : j <> i -> bool_decide (j ∈ i :: H) = bool_decide (j ∈ H).
Proof.
  intros Hne. apply bool_decide_ext. rewrite elem_of_cons. split; [by intros [?|?]|by right].
Qed.

Lemma in_cache_set_ne s i f j b : j <> i -> in_cache (set_buf i f s) j b <-> in_cache s j b.
Proof. intros Hne. unfold in_cache. by rewrite buf_at_set_ne. Qed.

(** A change that keeps the block a buffer is for. *)
Lemma in_cache_set_same s i f j b :
  (forall x, dev (f x) = dev x) -> (forall x, blockno (f x) = blockno x) ->
  in_cache (set_buf i f s) j b <-> in_cache s j b.
Proof. intros Hd Hb. unfold in_cache. by rewrite (buf_at_set_field dev), (buf_at_set_field blockno). Qed.

Lemma blk_set_same s i f H P H' P' b :
  cache_ok s H P -> cache_ok (set_buf i f s) H' P' ->
  (forall x, dev (f x) = dev x) -> (forall x, blockno (f x) = blockno x) -> (forall x, data (f x) = data x) ->
  blk (set_buf i f s) b = blk s b.
Proof.
  intros Hok Hok' Hd Hb Hdata. destruct (cached_dec s b) as [[j Hj]|Hno].
  - rewrite (blk_cached s H P j b Hok Hj), (blk_cached (set_buf i f s) H' P' j b Hok').
    + by apply buf_at_set_field.
    + by apply in_cache_set_same.
  - rewrite (blk_uncached s H P b Hok Hno), (blk_uncached (set_buf i f s) H' P' b Hok'); [done|].
    intros j Hj. apply (Hno j). by apply (in_cache_set_same s i f).
Qed.

(** A change to buffer [i] that keeps its links and its block. *)
Lemma cache_ok_set s H P i f H' P' :
  cache_ok s H P -> (i < NBUF)%nat ->
  (forall x, next (f x) = next x) -> (forall x, prev (f x) = prev x) ->
  (forall x, dev (f x) = dev x) -> (forall x, blockno (f x) = blockno x) ->
  buf_ok (disk s) (me s) (bool_decide (i ∈ H')) P' (f (buf_at i s)) ->
  (forall j, j <> i -> (j < NBUF)%nat ->
     buf_ok (disk s) (me s) (bool_decide (j ∈ H)) P (buf_at j s) ->
     buf_ok (disk s) (me s) (bool_decide (j ∈ H')) P' (buf_at j s)) ->
  NoDup H' /\ (forall j, j ∈ H' -> (j < NBUF)%nat) ->
  NoDup P' /\ (forall b, b ∈ P' -> exists j, in_cache s j b) ->
  cache_ok (set_buf i f s) H' P'.
Proof.
  intros Hok Hi Hn Hp Hd Hb Hf Hj HH HP. split.
  - rewrite length_bufs_set. apply (co_len _ _ _ Hok).
  - destruct (co_lru _ _ _ Hok) as (L & HL & HLl). exists L. split; [by apply lru_set_buf|done].
  - intros j k b. rewrite !in_cache_set_same by done. apply (co_unique _ _ _ Hok).
  - intros j Hjlt. destruct (decide (j = i)) as [->|Hne].
    + rewrite buf_at_set by (by apply (NBUF_lt s H P)). done.
    + rewrite buf_at_set_ne by done. apply Hj; [done|done|]. by apply (co_buf _ _ _ Hok).
  - done.
  - split; [apply HP|]. intros b Hin. destruct (proj2 HP b Hin) as [j Hjc]. exists j. by apply in_cache_set_same.
Qed.

(** ** bread *)

Definition not_held (s : bstate) (H : list nat) (b : Z) : Prop := forall i, i ∈ H -> blockno (buf_at i s) <> b.

(** Buffer [i] now holds block [b]; logically nothing changed. *)
Record got_buf (s : bstate) (H : list nat) (P : list Z) (b : Z) (i : nat) (s' : bstate) : Prop := {
  gb_ok : cache_ok s' (i :: H) P;
  gb_cached : in_cache s' i b;
  gb_blk : forall b', blk s' b' = blk s b';
  gb_disk : disk s' = disk s;
  gb_trace : trace s' = trace s;
  gb_me : me s' = me s;
  gb_others : forall j, j ∈ H -> buf_at j s' = buf_at j s;
}.

Lemma not_held_nin s H P i b : cache_ok s H P -> not_held s H b -> in_cache s i b -> i ∉ H.
Proof. intros Hok Hn (_ & _ & E) Hin. by apply (Hn i Hin). Qed.

Lemma b2z_bool x : 0 <= Z.b2z x <= 1.
Proof. by destruct x. Qed.

Lemma buf_ok_cons d m (i j : nat) H P x :
  j <> i -> buf_ok d m (bool_decide (j ∈ H)) P x -> buf_ok d m (bool_decide (j ∈ i :: H)) P x.
Proof. intros Hne. by rewrite bool_decide_cons_ne. Qed.

Lemma bool_decide_here (i : nat) H : bool_decide (i ∈ i :: H) = true.
Proof. apply bool_decide_eq_true. by left. Qed.

Lemma hit_ok s H P i b l :
  cache_ok s H P -> in_cache s i b -> i ∉ H -> sl_locked l = 1 -> sl_pid l = me s ->
  cache_ok (set_buf i (fun x => with_lock l (with_refcnt (u32 (refcnt x + 1)) x)) s) (i :: H) P.
Proof.
  intros Hok Hi Hnin Hl1 Hl2. destruct Hi as (Hi & Hd & Hb). pose proof (co_buf _ _ _ Hok i Hi) as [B1 B2 B3 B4 B5].
  apply (cache_ok_set s H P); try done.
  - rewrite bool_decide_here. rewrite bool_decide_false in B2 by done. cbn [Z.b2z] in B2.
    split; cbn [with_lock with_refcnt valid dev blockno refcnt lock data]; [done| |done|done|done].
    rewrite B2. pose proof (b2z_bool (bool_decide (dev (buf_at i s) = ROOTDEV /\ blockno (buf_at i s) ∈ P))).
    rewrite u32_small; cbn [Z.b2z]; lia.
  - intros j Hne _. by apply buf_ok_cons.
  - destruct (co_held _ _ _ Hok) as [Hnd Hlt]. split; [by apply list.NoDup_cons|].
    intros j [->|Hj]%elem_of_cons; [done|by apply Hlt].
  - apply (co_pin _ _ _ Hok).
Qed.

Lemma bget_hit s H P b i :
  cache_ok s H P -> not_held s H b -> in_cache s i b ->
  exists s', bget ROOTDEV b s = Done i s' /\ got_buf s H P b i s'.
Proof.
  intros Hok Hn Hi. pose proof (not_held_nin s H P i b Hok Hn Hi) as Hnin.
  destruct (co_lru _ _ _ Hok) as (L & HL & HLl). unfold bget. rewrite bind_gets.
  mstep (bget_cached_spec s L ROOTDEV b HL).
  pose proof (find_cached s H P b L Hok (lru_all s L HL HLl)) as F.
  destruct (find _ L) as [j|]; [|by destruct (F i)]. assert (j = i) as -> by (by apply (co_unique _ _ _ Hok j i b)).
  rewrite bind_modify. pose proof Hi as (Hlt & Hd & Hb).
  pose proof (co_buf _ _ _ Hok i Hlt) as [B1 _ B3 _ _]. rewrite bool_decide_false in B3 by done.
  assert (E : acquire_buf i (set_buf i (fun x => with_refcnt (u32 (refcnt x + 1)) x) s) =
    Done tt (set_buf i (fun x => with_lock (Sleeplock 1 (sl_name (lock (buf_at i s))) (me s)) (with_refcnt (u32 (refcnt x + 1)) x)) s)).
  { unfold acquire_buf, acquiresleep. rewrite (buf_at_set_field lock) by done. rewrite B3. cbn [Z.eqb negb].
    by rewrite set_buf_compose. }
  mstep E. eexists. split; [reflexivity|].
  assert (Hok' : cache_ok (set_buf i (fun x => with_lock (Sleeplock 1 (sl_name (lock (buf_at i s))) (me s))
                             (with_refcnt (u32 (refcnt x + 1)) x)) s) (i :: H) P) by (by apply (hit_ok s H P i b)).
  split; try done.
  - by apply in_cache_set_same.
  - intros b'. by apply (blk_set_same s i _ H P (i :: H) P).
  - intros j Hj. apply buf_at_set_ne. intros <-. done.
Qed.

(** The state after [bread] missed and recycled buffer [i]. *)
Definition recycle (i : nat) (b : Z) (l : sleeplock) (s : bstate) : bstate :=
  set_buf i (fun x => Buf true ROOTDEV b l 1 (prev x) (next x) (disk_block (disk s) b)) s.

Lemma recycle_got s H P i b l :
  cache_ok s H P -> not_held s H b -> (forall j, ~ in_cache s j b) -> b ∉ P -> (i < NBUF)%nat ->
  refcnt (buf_at i s) = 0 -> sl_locked l = 1 -> sl_pid l = me s ->
  got_buf s H P b i (recycle i b l s).
Proof.
  intros Hok Hn Hno HbP Hi Hr Hl1 Hl2. pose proof (co_buf _ _ _ Hok i Hi) as [_ B2 _ _ B5]. rewrite Hr in B2.
  assert (Hnin : i ∉ H).
  { intros Hin. rewrite bool_decide_true in B2 by done.
    pose proof (b2z_bool (bool_decide (dev (buf_at i s) = ROOTDEV /\ blockno (buf_at i s) ∈ P))). cbn in B2. lia. }
  rewrite bool_decide_false in B2, B5 by done. cbn [Z.b2z] in B2.
  assert (Hnp : ~ (dev (buf_at i s) = ROOTDEV /\ blockno (buf_at i s) ∈ P)).
  { intros Hp. rewrite bool_decide_true in B2 by done. cbn in B2. lia. }
  pose proof (NBUF_lt s H P i Hok Hi) as Hlen.
  assert (Hold : forall j b', j <> i -> in_cache (recycle i b l s) j b' <-> in_cache s j b')
    by (intros j b' Hne; by apply in_cache_set_ne).
  assert (Hnew : forall b', in_cache (recycle i b l s) i b' <-> b' = b).
  { intros b'. unfold in_cache, recycle. rewrite buf_at_set by done. cbn. split; [by intros (_ & _ & ?)|by intros ->]. }
  assert (Hok' : cache_ok (recycle i b l s) (i :: H) P).
  { split.
    - unfold recycle. rewrite length_bufs_set. apply (co_len _ _ _ Hok).
    - destruct (co_lru _ _ _ Hok) as (L & HL & HLl). exists L. split; [by apply lru_set_buf|done].
    - intros j k b' Hj Hk. destruct (decide (j = i)) as [->|Hji], (decide (k = i)) as [->|Hki]; [done| | |].
      + apply Hnew in Hj as ->. apply (Hold k b Hki) in Hk. by destruct (Hno k).
      + apply Hnew in Hk as ->. apply (Hold j b Hji) in Hj. by destruct (Hno j).
      + apply (co_unique _ _ _ Hok j k b'); by apply Hold.
    - intros j Hj. destruct (decide (j = i)) as [->|Hne].
      + unfold recycle. rewrite buf_at_set by done. rewrite bool_decide_here.
        split; cbn [valid dev blockno refcnt lock data]; try done. rewrite bool_decide_false; [done|]. by intros [_ ?].
      + unfold recycle. rewrite buf_at_set_ne by done. apply buf_ok_cons; [done|]. by apply (co_buf _ _ _ Hok).
    - destruct (co_held _ _ _ Hok) as [Hnd Hlt]. split; [by apply list.NoDup_cons|].
      intros j [->|Hj]%elem_of_cons; [done|by apply Hlt].
    - destruct (co_pin _ _ _ Hok) as [Hnd Hp]. split; [done|]. intros b' Hb'. destruct (Hp b' Hb') as [j Hj].
      exists j. apply Hold; [|done]. intros ->. apply Hnp. destruct Hj as (_ & Hd & <-). done. }
  split; try done.
  - by apply Hnew.
  - intros b'. destruct (decide (b' = b)) as [->|Hbb].
    + rewrite (blk_cached _ (i :: H) P i b Hok') by (by apply Hnew). rewrite (blk_uncached s H P b Hok Hno).
      unfold recycle. by rewrite buf_at_set.
    + destruct (cached_dec (recycle i b l s) b') as [[j Hj]|Hnj].
      * rewrite (blk_cached _ (i :: H) P j b' Hok' Hj).
        assert (j <> i) as Hji by (intros ->; by apply Hnew in Hj).
        rewrite (blk_cached s H P j b' Hok) by (by apply Hold). unfold recycle. by rewrite buf_at_set_ne.
      * rewrite (blk_uncached _ (i :: H) P b' Hok' Hnj). destruct (cached_dec s b') as [[j Hj]|Hnj'].
        -- destruct (decide (j = i)) as [->|Hji]; [|destruct (Hnj j); by apply Hold].
           rewrite (blk_cached s H P i b' Hok Hj). destruct Hj as (_ & Hd & <-). symmetry. apply B5; [done|done|].
           intros Hp. by apply Hnp.
        -- by rewrite (blk_uncached s H P b' Hok Hnj').
  - intros j Hj. apply buf_at_set_ne. intros <-. done.
Qed.

Lemma bread_miss s H P b L i :
  cache_ok s H P -> not_held s H b -> (forall j, ~ in_cache s j b) -> lru s L -> length L = NBUF ->
  find (unused s) (rev L) = Some i ->
  exists l, bread ROOTDEV b s = Done i (recycle i b l s) /\ got_buf s H P b i (recycle i b l s).
Proof.
  intros Hok Hn Hno HL HLl Hfind. pose proof (find_some _ _ Hfind) as [Hi Hr].
  unfold unused in Hr. apply Z.eqb_eq in Hr.
  rewrite <-in_rev in Hi. apply list_elem_of_In, (lru_all s L HL HLl) in Hi.
  assert (HbP : b ∉ P) by (intros Hin; destruct (proj2 (co_pin _ _ _ Hok) b Hin) as [j Hj]; by apply (Hno j)).
  pose proof (NBUF_lt s H P i Hok Hi) as Hlen. pose proof (co_buf _ _ _ Hok i Hi) as [_ B2 B3 _ _].
  assert (Hnin : i ∉ H).
  { intros Hin. rewrite bool_decide_true, Hr in B2 by done.
    pose proof (b2z_bool (bool_decide (dev (buf_at i s) = ROOTDEV /\ blockno (buf_at i s) ∈ P))). cbn in B2. lia. }
  rewrite bool_decide_false in B3 by done.
  set (l := Sleeplock 1 (sl_name (lock (buf_at i s))) (me s)).
  exists l. split; [|by apply recycle_got].
  unfold bread, bget. rewrite bind_assoc, bind_gets, bind_assoc. mstep (bget_cached_spec s L ROOTDEV b HL).
  pose proof (find_cached s H P b L Hok (lru_all s L HL HLl)) as F.
  destruct (find (caches s ROOTDEV b) L) as [j|]; [by destruct (Hno j)|]. clear F.
  rewrite bind_assoc. mstep (bget_unused_spec s L HL). rewrite Hfind.
  set (f0 := fun x => with_refcnt 1 (with_valid false (with_id ROOTDEV b x))).
  assert (E : acquire_buf i (set_buf i f0 s) = Done tt (set_buf i (fun x => with_lock l (f0 x)) s)).
  { unfold acquire_buf, acquiresleep. rewrite (buf_at_set_field lock) by done. rewrite B3. cbn [Z.eqb negb].
    by rewrite set_buf_compose. }
  rewrite bind_assoc, bind_modify, bind_assoc. mstep E. rewrite bind_ret, bind_gets.
  rewrite buf_at_set by done. cbn [f0 with_lock with_refcnt with_valid with_id valid].
  assert (E' : virtio_disk_rw i false (set_buf i (fun x => with_lock l (f0 x)) s) =
    Done tt (set_buf i (fun x => with_data (disk_block (disk s) b) (with_lock l (f0 x))) s)).
  { unfold virtio_disk_rw. rewrite buf_at_set by done. cbn [f0 with_lock with_refcnt with_valid with_id blockno].
    by rewrite set_buf_compose. }
  mstep E'. rewrite bind_modify, set_buf_compose. reflexivity.
Qed.

Lemma bread_spec s H P b :
  cache_ok s H P -> not_held s H b -> (length H + length P < NBUF)%nat \/ b ∈ P ->
  exists i s', bread ROOTDEV b s = Done i s' /\ got_buf s H P b i s'.
Proof.
  intros Hok Hn Hroom. destruct (cached_dec s b) as [[i Hi]|Hno].
  - destruct (bget_hit s H P b i Hok Hn Hi) as (s' & E & Hg). exists i, s'. split; [|done].
    unfold bread. mstep E. rewrite bind_gets. pose proof (gb_cached _ _ _ _ _ _ Hg) as (Hlt & Hd & _).
    by rewrite (bo_valid _ _ _ _ _ (co_buf _ _ _ (gb_ok _ _ _ _ _ _ Hg) i Hlt) Hd).
  - assert (Hlt : (length H + length P < NBUF)%nat).
    { destruct Hroom as [|Hin]; [done|]. destruct (proj2 (co_pin _ _ _ Hok) b Hin) as [j Hj]. by destruct (Hno j). }
    destruct (co_lru _ _ _ Hok) as (L & HL & HLl). destruct (exists_unused s H P Hok Hlt) as (k & Hk & Hrk).
    destruct (find (unused s) (rev L)) as [i|] eqn:Hfind.
    + destruct (bread_miss s H P b L i Hok Hn Hno HL HLl Hfind) as (l & E & Hg). by exists i, (recycle i b l s).
    + pose proof (find_none _ _ Hfind k) as F. unfold unused in F. rewrite Hrk in F. exfalso.
      rewrite <-in_rev in F. discriminate F. apply list_elem_of_In. by apply (lru_all s L HL HLl).
Qed.

(** The data of a held buffer is its block's. *)
Lemma got_data s H P b i s' : got_buf s H P b i s' -> data (buf_at i s') = blk s b.
Proof.
  intros Hg. rewrite <-(gb_blk _ _ _ _ _ _ Hg). symmetry.
  apply (blk_cached s' (i :: H) P); [apply Hg|apply (gb_cached _ _ _ _ _ _ Hg)].
Qed.

(** ** Changing a held buffer *)

Lemma elem_of_H_buf s H P i : cache_ok s H P -> i ∈ H -> in_cache s i (blockno (buf_at i s)).
Proof.
  intros Hok Hi. pose proof (proj2 (co_held _ _ _ Hok) i Hi) as Hlt. split; [done|]. split; [|done].
  apply (bo_held _ _ _ _ _ (co_buf _ _ _ Hok i Hlt)). by apply bool_decide_eq_true.
Qed.

Lemma set_data_ok s H P i d : cache_ok s H P -> i ∈ H -> cache_ok (set_buf i (with_data d) s) H P.
Proof.
  intros Hok Hi. pose proof (proj2 (co_held _ _ _ Hok) i Hi) as Hlt. apply (cache_ok_set s H P); try done.
  - pose proof (co_buf _ _ _ Hok i Hlt) as [B1 B2 B3 B4 B5].
    rewrite bool_decide_true in B2, B3, B4, B5 |- * by done. by split.
  - apply (co_held _ _ _ Hok).
  - apply (co_pin _ _ _ Hok).
Qed.

Lemma set_data_blk s H P i d b :
  cache_ok s H P -> in_cache s i b -> i ∈ H ->
  forall b', blk (set_buf i (with_data d) s) b' = if decide (b' = b) then d else blk s b'.
Proof.
  intros Hok Hi Hin b'. pose proof (set_data_ok s H P i d Hok Hin) as Hok'. case_decide as E.
  - subst b'. rewrite (blk_cached _ H P i b Hok') by (by apply in_cache_set_same).
    rewrite buf_at_set; [done|]. apply (NBUF_lt s H P); [done|apply Hi].
  - destruct (cached_dec s b') as [[j Hj]|Hno].
    + rewrite (blk_cached _ H P j b' Hok') by (by apply in_cache_set_same).
      rewrite (blk_cached s H P j b' Hok Hj). rewrite buf_at_set_ne; [done|].
      intros <-. apply E. destruct Hi as (_ & _ & <-), Hj as (_ & _ & <-). done.
    + rewrite (blk_uncached s H P b' Hok Hno), (blk_uncached _ H P b' Hok'); [done|].
      intros j Hj. apply (Hno j). by apply (in_cache_set_same s i (with_data d)).
Qed.

Lemma cache_ok_perm s H P H' P' : H ≡ₚ H' -> P ≡ₚ P' -> cache_ok s H P -> cache_ok s H' P'.
Proof.
  intros EH EP [K1 K2 K3 K4 [K5 K5'] [K6 K6']].
  assert (MH : forall i, i ∈ H' <-> i ∈ H) by (intros i; by rewrite EH).
  assert (MP : forall b, b ∈ P' <-> b ∈ P) by (intros b; by rewrite EP). split; try done.
  - intros i Hi. destruct (K4 i Hi) as [B1 B2 B3 B4 B5].
    rewrite (bool_decide_ext (i ∈ H') (i ∈ H)) by apply MH. split; try done.
    + rewrite B2. do 2 f_equal. apply bool_decide_ext. by rewrite MP.
    + intros Hd Hh HP. apply B5; [done|done|]. by rewrite <-MP.
  - split; [by rewrite <-EH|]. intros i. rewrite MH. apply K5'.
  - split; [by rewrite <-EP|]. intros b. rewrite MP. apply K6'.
Qed.

(** ** bwrite *)

Lemma holding_held s H P i : cache_ok s H P -> i ∈ H -> holdingsleep (me s) (lock (buf_at i s)) = true.
Proof.
  intros Hok Hi. pose proof (proj2 (co_held _ _ _ Hok) i Hi) as Hlt.
  pose proof (bo_lock _ _ _ _ _ (co_buf _ _ _ Hok i Hlt)) as Hl. rewrite bool_decide_true in Hl by done.
  destruct Hl as [H1 H2]. unfold holdingsleep. by rewrite H1, H2, Z.eqb_refl.
Qed.

Definition put_disk (b : Z) (d : block) (s : bstate) : bstate :=
  BState (bufs s) (<[b := d]> (disk s)) (trace s ++ [(b, d)]) (me s).

Lemma bwrite_spec s H P i b :
  cache_ok s H P -> i ∈ H -> in_cache s i b ->
  bwrite i s = Done tt (put_disk b (blk s b) s) /\ cache_ok (put_disk b (blk s b) s) H P /\
  (forall b', blk (put_disk b (blk s b) s) b' = blk s b').
Proof.
  intros Hok Hi Hc. rewrite (blk_cached s H P i b Hok Hc). pose proof Hc as (Hlt & Hd & Hb).
  assert (Hok' : cache_ok (put_disk b (data (buf_at i s)) s) H P).
  { destruct Hok as [K1 K2 K3 K4 K5 K6]. split; try done. intros j Hj. cbn [put_disk disk me].
    change (buf_at j (put_disk b (data (buf_at i s)) s)) with (buf_at j s). destruct (K4 j Hj) as [B1 B2 B3 B4 B5].
    split; try done. intros Hjd Hh HP. rewrite (B5 Hjd Hh HP). unfold disk_block.
    rewrite lookup_insert_ne; [done|]. intros E. assert (i = j) as -> by (by apply (K3 i j b)).
    apply bool_decide_eq_false in Hh. done. }
  split; [|split].
  - unfold bwrite. rewrite (holding_held s H P i Hok Hi). unfold virtio_disk_rw. rewrite Hb. done.
  - done.
  - intros b'. destruct (cached_dec s b') as [[j Hj]|Hno].
    + rewrite (blk_cached s H P j b' Hok Hj), (blk_cached _ H P j b' Hok'); done.
    + rewrite (blk_uncached s H P b' Hok Hno), (blk_uncached _ H P b' Hok'); [|done].
      unfold disk_block, put_disk. cbn [disk]. rewrite lookup_insert_ne; [done|]. intros <-. by apply (Hno i).
Qed.

(** ** brelse *)

Lemma core_eq x y :
  core x = core y -> valid x = valid y /\ dev x = dev y /\ blockno x = blockno y /\ lock x = lock y /\
  refcnt x = refcnt y /\ data x = data y.
Proof. unfold core. intros [= -> -> -> -> -> ->]. done. Qed.

Lemma relinked_ok s s' H P :
  cache_ok s H P -> relinked s s' -> (exists L, lru s' L /\ length L = NBUF) ->
  cache_ok s' H P /\ (forall b, blk s' b = blk s b).
Proof.
  intros Hok (R1 & R2 & R3 & R4 & R5) HL.
  assert (Hc : forall i b, in_cache s' i b <-> in_cache s i b).
  { intros i b. unfold in_cache. destruct (core_eq _ _ (R2 i)) as (_ & -> & -> & _). done. }
  assert (Hok' : cache_ok s' H P).
  { destruct Hok as [K1 K2 K3 K4 K5 [K6 K6']]. split; try done.
    - by rewrite R1.
    - intros i j b. rewrite !Hc. apply K3.
    - intros i Hi. rewrite R3, R5. destruct (K4 i Hi) as [B1 B2 B3 B4 B5].
      destruct (core_eq _ _ (R2 i)) as (E1 & E2 & E3 & E4 & E5 & E6).
      split; rewrite ?E1, ?E2, ?E3, ?E4, ?E5, ?E6; done.
    - split; [done|]. intros b Hb. destruct (K6' b Hb) as [i Hi]. exists i. by apply Hc. }
  split; [done|]. intros b. destruct (cached_dec s b) as [[j Hj]|Hno].
  - rewrite (blk_cached s H P j b Hok Hj), (blk_cached s' H P j b Hok') by (by apply Hc).
    by destruct (core_eq _ _ (R2 j)) as (_ & _ & _ & _ & _ & ->).
  - rewrite (blk_uncached s H P b Hok Hno), (blk_uncached s' H P b Hok'); [by rewrite R3|].
    intros j Hj. apply (Hno j). by apply Hc.
Qed.

(** [to_front i L]: where [brelse] moves an unused buffer. *)
Definition to_front (i : nat) (L : list nat) : list nat := i :: filter (fun j => j <> i) L.

Lemma filter_ne_split (i : nat) L1 L2 : i ∉ L1 -> i ∉ L2 -> filter (fun j => j <> i) (L1 ++ i :: L2) = L1 ++ L2.
Proof.
  intros H1 H2. rewrite list.filter_app, filter_cons, decide_False by (by intros []).
  rewrite !filter_all; [done| |]; apply list.Forall_forall; intros j Hj ->; done.
Qed.

(** What [brelse] leaves: the buffer is no longer held; logically nothing changed. *)
Record released (s : bstate) (H : list nat) (P : list Z) (i : nat) (s' : bstate) : Prop := {
  rl_ok : cache_ok s' H P;
  rl_blk : forall b, blk s' b = blk s b;
  rl_disk : disk s' = disk s;
  rl_trace : trace s' = trace s;
  rl_me : me s' = me s;
  rl_core : forall j, j <> i -> core (buf_at j s') = core (buf_at j s);
}.

Lemma unheld_ok s H P i b l r :
  cache_ok s (i :: H) P -> in_cache s i b -> b ∈ P \/ data (buf_at i s) = disk_block (disk s) b ->
  sl_locked l = 0 -> r = Z.b2z (bool_decide (b ∈ P)) ->
  cache_ok (set_buf i (fun x => with_refcnt r (with_lock l x)) s) H P.
Proof.
  intros Hok Hc Hclean Hl ->. pose proof Hc as (Hlt & Hd & Hb).
  destruct (co_held _ _ _ Hok) as [Hnd Hin]. apply list.NoDup_cons in Hnd as [Hi Hnd].
  apply (cache_ok_set s (i :: H) P); try done.
  - pose proof (co_buf _ _ _ Hok i Hlt) as [B1 B2 B3 B4 B5]. rewrite bool_decide_false by done.
    split; cbn [with_refcnt with_lock valid dev blockno refcnt lock data Z.b2z]; try done.
    + rewrite Hd, Hb. rewrite Z.add_0_l. f_equal. apply bool_decide_ext. split; [done|by intros [_ ?]].
    + intros _ _ HP. rewrite Hb in HP |- *. by destruct Hclean.
  - intros j Hne _. by rewrite bool_decide_cons_ne.
  - split; [done|]. intros j Hj. apply Hin. by right.
  - apply (co_pin _ _ _ Hok).
Qed.

(** A buffer that is not pinned becomes the most recently used one. *)
Lemma brelse_lru s H P i b L :
  cache_ok s (i :: H) P -> in_cache s i b -> b ∈ P \/ blk s b = disk_block (disk s) b -> lru s L -> length L = NBUF ->
  exists s', brelse i s = Done tt s' /\ released s H P i s' /\ lru s' (if decide (b ∈ P) then L else to_front i L).
Proof.
  intros Hok Hc Hclean HL0 HLl. pose proof Hc as (Hlt & Hd & Hb). pose proof (NBUF_lt s _ P i Hok Hlt) as Hlen.
  rewrite (blk_cached s _ P i b Hok Hc) in Hclean. unfold brelse. rewrite !bind_gets.
  rewrite (holding_held s (i :: H) P i Hok) by (by left). cbn [negb]. rewrite !bind_modify, bind_gets.
  rewrite set_buf_compose. set (l := releasesleep (lock (buf_at i s))).
  assert (Hr : refcnt (buf_at i s) = 1 + Z.b2z (bool_decide (b ∈ P))).
  { rewrite (bo_ref _ _ _ _ _ (co_buf _ _ _ Hok i Hlt)), bool_decide_here. cbn [Z.b2z]. do 2 f_equal.
    apply bool_decide_ext. rewrite Hb. split; [by intros [_ ?]|done]. }
  assert (E : set_buf i (fun x => with_refcnt (u32 (refcnt (with_lock l x) - 1)) (with_lock l x)) s =
              set_buf i (fun x => with_refcnt (Z.b2z (bool_decide (b ∈ P))) (with_lock l x)) s).
  { unfold set_buf. f_equal. apply list_alter_ext; [|done]. intros x Hx. cbn [with_lock refcnt].
    assert (x = buf_at i s) as -> by (unfold buf_at; symmetry; by apply list_lookup_total_correct).
    f_equal. rewrite Hr. pose proof (b2z_bool (bool_decide (b ∈ P))). rewrite u32_small; lia. }
  rewrite E. clear E. set (s1 := set_buf i _ s).
  assert (Hok1 : cache_ok s1 H P) by (by apply unheld_ok with b).
  assert (Hblk1 : forall b', blk s1 b' = blk s b') by (intros b'; by apply (blk_set_same s i _ (i :: H) P H P)).
  assert (Hcore1 : forall j, j <> i -> core (buf_at j s1) = core (buf_at j s)) by (intros j Hj; unfold s1; by rewrite buf_at_set_ne).
  assert (HL : lru s1 L) by (by apply lru_set_buf).
  unfold s1 at 1. rewrite buf_at_set by done. cbn [with_refcnt refcnt].
  destruct (decide (b ∈ P)) as [HbP|HbP].
  { rewrite bool_decide_true by done. cbn [Z.b2z Z.eqb]. exists s1. split; [done|]. split; [by split|done]. }
  rewrite bool_decide_false by done. cbn [Z.b2z Z.eqb].
  - assert (HiL : i ∈ L) by (by apply (lru_all s1 L HL HLl)). apply list_elem_of_split in HiL as (L1 & L2 & ->).
    destruct (unlink_spec s1 L1 i L2 HL (co_len _ _ _ Hok1)) as (s2 & E2 & HL2 & HR2).
    destruct HL as (_ & Hnd & _). apply list.NoDup_app in Hnd as (Hnd1 & Hnd2 & Hnd3).
    apply list.NoDup_cons in Hnd3 as [Hi2 Hnd3].
    destruct (link_front_spec s2 (L1 ++ L2) i HL2) as (s3 & E3 & HL3 & HR3);
      [|done|by destruct HR2 as (-> & _); apply (co_len _ _ _ Hok1)|].
    { intros [Hin|Hin]%elem_of_app; [|done]. apply (Hnd2 i Hin). by left. }
    assert (Hi1 : i ∉ L1) by (intros Hin; apply (Hnd2 i Hin); by left).
    mstep E2. exists s3. split; [done|]. pose proof (relinked_trans _ _ _ HR2 HR3) as HR.
    destruct (relinked_ok s1 s3 H P Hok1 HR) as [Hok3 Hblk3].
    { exists (i :: L1 ++ L2). split; [done|]. rewrite <-HLl, length_app. cbn. rewrite length_app. lia. }
    destruct HR as (_ & R2 & R3 & R4 & R5). split; [split; [done| |done|done|done|]|].
    + intros b'. by rewrite Hblk3.
    + intros j Hj. by rewrite R2, Hcore1.
    + unfold to_front. by rewrite filter_ne_split.
Qed.

Lemma brelse_spec s H P i b :
  cache_ok s (i :: H) P -> in_cache s i b -> b ∈ P \/ blk s b = disk_block (disk s) b ->
  exists s', brelse i s = Done tt s' /\ released s H P i s'.
Proof.
  intros Hok Hc Hclean. destruct (co_lru _ _ _ Hok) as (L & HL & HLl).
  destruct (brelse_lru s H P i b L Hok Hc Hclean HL HLl) as (s' & E & Hr & _). by exists s'.
Qed.

(** ** bpin and bunpin *)

Lemma set_ref_ok s H P i b r P' :
  cache_ok s H P -> i ∈ H -> in_cache s i b -> r = 1 + Z.b2z (bool_decide (b ∈ P')) ->
  NoDup P' -> (forall b', b' <> b -> b' ∈ P' <-> b' ∈ P) ->
  cache_ok (set_buf i (with_refcnt r) s) H P'.
Proof.
  intros Hok Hi Hc Hr Hnd HP. pose proof Hc as (Hlt & Hd & Hb).
  apply (cache_ok_set s H P); try done.
  - pose proof (co_buf _ _ _ Hok i Hlt) as [B1 B2 B3 B4 B5]. rewrite bool_decide_true in B2, B3, B4, B5 |- * by done.
    split; cbn [with_refcnt valid dev blockno refcnt lock data]; try done. rewrite Hr. cbn [Z.b2z]. do 2 f_equal.
    apply bool_decide_ext. rewrite Hb. split; [done|by intros [_ ?]].
  - intros j Hne Hj [B1 B2 B3 B4 B5]. split; try done.
    + rewrite B2. do 2 f_equal. apply bool_decide_ext.
      destruct (decide (dev (buf_at j s) = ROOTDEV)) as [Hjd|]; [|by split; intros [? _]].
      rewrite HP; [done|]. intros E. apply Hne. by apply (co_unique _ _ _ Hok j i b).
    + intros Hjd Hh HP'. apply B5; [done|done|]. rewrite <-HP; [done|].
      intros E. apply Hne. by apply (co_unique _ _ _ Hok j i b).
  - apply (co_held _ _ _ Hok).
  - split; [done|]. intros b' Hb'. destruct (decide (b' = b)) as [->|Hne]; [by exists i|].
    apply (co_pin _ _ _ Hok). by apply HP.
Qed.

Lemma bpin_spec s H P i b :
  cache_ok s H P -> i ∈ H -> in_cache s i b -> b ∉ P ->
  exists s', bpin i s = Done tt s' /\ cache_ok s' H (b :: P) /\ s' = set_buf i (with_refcnt 2) s /\
    (forall b', blk s' b' = blk s b').
Proof.
  intros Hok Hi Hc Hb. pose proof Hc as (Hlt & Hd & Hbn). pose proof (NBUF_lt s H P i Hok Hlt) as Hlen.
  assert (Hok' : cache_ok (set_buf i (with_refcnt 2) s) H (b :: P)).
  { apply (set_ref_ok s H P i b); try done.
    - rewrite bool_decide_true by (by left). done.
    - apply list.NoDup_cons. split; [done|]. apply (co_pin _ _ _ Hok).
    - intros b' Hne. rewrite elem_of_cons. split; [by intros [?|?]|by right]. }
  eexists. split; [|split; [exact Hok'|split; [reflexivity|]]].
  - unfold bpin, modify. f_equal. unfold set_buf. f_equal. apply list_alter_ext; [|done]. intros x Hx.
    assert (x = buf_at i s) as -> by (unfold buf_at; symmetry; by apply list_lookup_total_correct).
    f_equal. rewrite (bo_ref _ _ _ _ _ (co_buf _ _ _ Hok i Hlt)), bool_decide_true by done.
    rewrite bool_decide_false; [done|]. intros [_ ?]. by rewrite Hbn in *.
  - intros b'. by apply (blk_set_same s i _ H P H (b :: P)).
Qed.

Lemma bunpin_spec s H P i b :
  cache_ok s H (b :: P) -> i ∈ H -> in_cache s i b ->
  exists s', bunpin i s = Done tt s' /\ cache_ok s' H P /\ s' = set_buf i (with_refcnt 1) s /\
    (forall b', blk s' b' = blk s b').
Proof.
  intros Hok Hi Hc. pose proof Hc as (Hlt & Hd & Hbn). pose proof (NBUF_lt s H _ i Hok Hlt) as Hlen.
  destruct (co_pin _ _ _ Hok) as [Hnd _]. apply list.NoDup_cons in Hnd as [HbP Hnd].
  assert (Hok' : cache_ok (set_buf i (with_refcnt 1) s) H P).
  { apply (set_ref_ok s H (b :: P) i b); try done.
    - rewrite bool_decide_false by done. done.
    - intros b' Hne. rewrite elem_of_cons. split; [by right|by intros [?|?]]. }
  eexists. split; [|split; [exact Hok'|split; [reflexivity|]]].
  - unfold bunpin, modify. f_equal. unfold set_buf. f_equal. apply list_alter_ext; [|done]. intros x Hx.
    assert (x = buf_at i s) as -> by (unfold buf_at; symmetry; by apply list_lookup_total_correct).
    f_equal. rewrite (bo_ref _ _ _ _ _ (co_buf _ _ _ Hok i Hlt)), bool_decide_true by done.
    rewrite bool_decide_true; [done|]. split; [done|]. rewrite Hbn. by left.
  - intros b'. by apply (blk_set_same s i _ H (b :: P) H P).
Qed.

(** ** Start *)

Lemma buf_at_boot d pid i : buf_at i (boot d pid) = Buf false 0 0 (initsleeplock "") 0 0 0 zero_block.
Proof.
  unfold buf_at, boot. cbn [bufs]. rewrite list_lookup_total_alt.
  destruct (decide (i < S NBUF)%nat); [by rewrite lookup_replicate_2 by lia|].
  rewrite lookup_ge_None_2; [done|]. rewrite length_replicate. lia.
Qed.

Lemma binit_spec d pid :
  exists s, binit (boot d pid) = Done tt s /\ cache_ok s [] [] /\ disk s = d /\ trace s = [] /\ me s = pid /\
    (forall b, blk s b = disk_block d b) /\ (forall i b, ~ in_cache s i b).
Proof.
  unfold binit, set_prev, set_next. rewrite !bind_modify.
  set (s0 := set_buf HEAD (with_next HEAD) (set_buf HEAD (with_prev HEAD) (boot d pid))).
  assert (Hf : forall i, dev (buf_at i s0) = 0 /\ refcnt (buf_at i s0) = 0).
  { intros i. unfold s0. rewrite !(buf_at_set_field dev), !(buf_at_set_field refcnt) by done. by rewrite buf_at_boot. }
  assert (Hlen : length (bufs s0) = S NBUF) by (unfold s0; rewrite !length_bufs_set; apply length_replicate).
  destruct (binit_loop_spec NBUF 0 s0) as (s & E & HL & Hl & Hd & Ht & Hm & Hc); [lia| |done|].
  { split; [|split; [apply NoDup_nil_2|apply list.Forall_nil; done]]. cbn [seq rev seg]. unfold s0, nexts, prevs.
    rewrite buf_at_set by (rewrite length_bufs_set; unfold boot; cbn [bufs]; rewrite length_replicate; unfold HEAD; lia).
    split; [done|]. cbn [with_next prev].
    rewrite buf_at_set by (unfold boot; cbn [bufs]; rewrite length_replicate; unfold HEAD; lia). done. }
  exists s. split; [exact E|]. clear E.
  assert (Hdev : forall i, dev (buf_at i s) = 0) by (intros i; destruct (Hc i) as (-> & _); apply Hf).
  assert (Hok : cache_ok s [] []).
  { split.
    - exact Hl.
    - exists (rev (seq 0 NBUF)). split; [done|]. by rewrite length_rev, length_seq.
    - intros i j b (_ & Hi & _). by rewrite Hdev in Hi.
    - intros i Hi. rewrite bool_decide_false by apply not_elem_of_nil. destruct (Hc i) as (_ & _ & _ & Hr & Hlk).
      split; rewrite ?Hdev.
      + intros [=].
      + rewrite Hr, (proj2 (Hf i)). rewrite bool_decide_false; [reflexivity|]. intros [[=] _].
      + rewrite Hlk. rewrite decide_True by lia. reflexivity.
      + intros [=].
      + intros [=].
    - split; [apply NoDup_nil_2|]. intros i Hi. by apply not_elem_of_nil in Hi.
    - split; [apply NoDup_nil_2|]. intros b Hb. by apply not_elem_of_nil in Hb. }
  split; [done|]. rewrite Hd, Ht, Hm. 
  assert (Hno : forall i b, ~ in_cache s i b) by (intros i b (_ & Hi & _); by rewrite Hdev in Hi).
  split_and!; [reflexivity..| |exact Hno]. intros b. rewrite (blk_uncached s [] [] b Hok); [by rewrite Hd|].
  intros i. apply Hno.
Qed.
