(* ===== verification/BioProps.v ===== *)
(** * The buffer cache: theorems

    The cache refines a store of blocks: [store] is what its client sees, the
    logical and the durable content of every block and the buffers the client
    has open; [next_store] is what an operation does to it. *)

From S2P Require Import Prelude Block Sleeplock Bio BioList BioSpec.

(** ** The store a client sees *)

Record store := Store {
  view : Z -> block;
  durable : Z -> block;
  opened : list (nat * Z);
}.

(** The client's operations: get a block, change a buffer it has, write it to
    the disk, release it. *)
Inductive cache_op :=
| GetBlock (b : Z)
| Change (i : nat) (d : block)
| WriteBack (i : nat)
| Drop (i : nat).

Definition cache_step (o : cache_op) : M bstate nat :=
  match o with
  | GetBlock b => bread ROOTDEV b
  | Change i d => modify (set_buf i (with_data d));; mret i
  | WriteBack i => bwrite i;; mret i
  | Drop i => brelse i;; mret i
  end.

(** A client asks for a block it does not hold while it has fewer buffers than
    there are, uses the buffers it has, and writes changed ones back before it
    releases them. *)
Definition allowed (a : store) (o : cache_op) : Prop :=
  match o with
  | GetBlock b => (b ∉ (opened a).*2) /\ (length (opened a) < NBUF)%nat
  | Change i _ | WriteBack i => i ∈ (opened a).*1
  | Drop i => exists b, (i, b) ∈ opened a /\ view a b = durable a b
  end.

(** The store after an operation that returned [r]. *)
Definition next_store (o : cache_op) (r : nat) (a a' : store) : Prop :=
  match o with
  | GetBlock b =>
      (r ∉ (opened a).*1) /\ opened a' = (r, b) :: opened a /\
      (forall b', view a' b' = view a b') /\ (forall b', durable a' b' = durable a b')
  | Change i d => exists b, (i, b) ∈ opened a /\ opened a' = opened a /\
      (forall b', view a' b' = if decide (b' = b) then d else view a b') /\ (forall b', durable a' b' = durable a b')
  | WriteBack i => exists b, (i, b) ∈ opened a /\ opened a' = opened a /\
      (forall b', view a' b' = view a b') /\
      (forall b', durable a' b' = if decide (b' = b) then view a b else durable a b')
  | Drop i => exists b, opened a ≡ₚ (i, b) :: opened a' /\
      (forall b', view a' b' = view a b') /\ (forall b', durable a' b' = durable a b')
  end.

(** The cache [s] shows the client [a]. *)
Record shows (s : bstate) (a : store) : Prop := {
  sh_ok : cache_ok s (opened a).*1 [];
  sh_view : forall b, view a b = blk s b;
  sh_durable : forall b, durable a b = disk_block (disk s) b;
  sh_opened : forall i b, (i, b) ∈ opened a -> in_cache s i b;
  sh_data : forall i b, (i, b) ∈ opened a -> data (buf_at i s) = view a b;
}.

Lemma shows_intro s o :
  cache_ok s o.*1 [] -> (forall i b, (i, b) ∈ o -> in_cache s i b) ->
  shows s (Store (blk s) (disk_block (disk s)) o).
Proof.
  intros Hok Ho. split; cbn; try done. intros i b Hin. symmetry. apply (blk_cached s _ [] i b Hok). by apply Ho.
Qed.

Lemma elem_fst {A B} (x : A) (y : B) l : (x, y) ∈ l -> x ∈ l.*1.
Proof. intros H. apply list_elem_of_fmap. by exists (x, y). Qed.

Lemma elem_fst_inv {A B} (x : A) (l : list (A * B)) : x ∈ l.*1 -> exists y, (x, y) ∈ l.
Proof. intros ([x' y] & -> & H)%list_elem_of_fmap. by exists y. Qed.

Lemma get_step s a b :
  shows s a -> allowed a (GetBlock b) ->
  exists r s' a', cache_step (GetBlock b) s = Done r s' /\ next_store (GetBlock b) r a a' /\ shows s' a'.
Proof.
  intros [Hok Hv Hd Ho _] [Hb Hlen]. cbn [cache_step].
  destruct (bread_spec s (opened a).*1 [] b Hok) as (i & s' & E & Hg).
  - intros j (b' & Hj)%elem_fst_inv Hjb. pose proof (Ho j b' Hj) as (_ & _ & E'). apply Hb.
    apply list_elem_of_fmap. exists (j, b'). split; [|done]. cbn. congruence.
  - left. rewrite length_fmap, Nat.add_0_r. done.
  - exists i, s', (Store (blk s') (disk_block (disk s')) ((i, b) :: opened a)). split; [done|].
    destruct Hg as [G1 G2 G3 G4 _ _ G7]. split.
    + cbn [next_store opened view durable]. split; [|split; [done|split]].
      * destruct (co_held _ _ _ G1) as [Hnd _]. by apply list.NoDup_cons in Hnd as [? _].
      * intros b'. by rewrite Hv, G3.
      * intros b'. by rewrite Hd, G4.
    + apply shows_intro; [done|]. intros j b' [[= -> ->]|Hj]%elem_of_cons; [done|].
      unfold in_cache. rewrite G7 by (by apply (elem_fst j b')). by apply Ho.
Qed.

Lemma change_step s a i d :
  shows s a -> allowed a (Change i d) ->
  exists r s' a', cache_step (Change i d) s = Done r s' /\ next_store (Change i d) r a a' /\ shows s' a'.
Proof.
  intros [Hok Hv Hd Ho _] Hi. pose proof Hi as (b & Hib)%elem_fst_inv. cbn [cache_step]. rewrite bind_modify.
  exists i, (set_buf i (with_data d) s), (Store (blk (set_buf i (with_data d) s)) (disk_block (disk s)) (opened a)).
  split; [done|]. split.
  - exists b. split_and!; try done. intros b'. cbn [view]. rewrite Hv.
    apply (set_data_blk s (opened a).*1 [] i d b); [done|by apply Ho|done].
  - apply (shows_intro (set_buf i (with_data d) s)); [by apply set_data_ok|].
    intros j b' Hj. apply in_cache_set_same; [done|done|]. by apply Ho.
Qed.

Lemma write_step s a i :
  shows s a -> allowed a (WriteBack i) ->
  exists r s' a', cache_step (WriteBack i) s = Done r s' /\ next_store (WriteBack i) r a a' /\ shows s' a'.
Proof.
  intros [Hok Hv Hd Ho _] Hi. pose proof Hi as (b & Hib)%elem_fst_inv. cbn [cache_step].
  destruct (bwrite_spec s (opened a).*1 [] i b Hok Hi (Ho i b Hib)) as (E & Hok' & Hblk). mstep E.
  exists i, (put_disk b (blk s b) s), (Store (blk (put_disk b (blk s b) s)) (disk_block (disk (put_disk b (blk s b) s))) (opened a)).
  split; [done|]. split.
  - exists b. split_and!; try done.
    + intros b'. cbn [view]. by rewrite Hblk, Hv.
    + intros b'. cbn [durable put_disk disk]. unfold disk_block. case_decide as Eb.
      * subst b'. by rewrite lookup_insert_eq, Hv.
      * rewrite lookup_insert_ne by done. by rewrite Hd.
  - apply (shows_intro (put_disk b (blk s b) s)); [done|]. exact Ho.
Qed.

Lemma drop_step s a i :
  shows s a -> allowed a (Drop i) ->
  exists r s' a', cache_step (Drop i) s = Done r s' /\ next_store (Drop i) r a a' /\ shows s' a'.
Proof.
  intros [Hok Hv Hd Ho _] (b & Hib & Hclean). pose proof Hib as (o1 & o2 & Eo)%list_elem_of_split.
  assert (Hperm : opened a ≡ₚ (i, b) :: o1 ++ o2) by (rewrite Eo; symmetry; apply Permutation_middle).
  assert (Hp1 : (opened a).*1 ≡ₚ i :: (o1 ++ o2).*1) by (by rewrite Hperm).
  apply (cache_ok_perm s _ [] _ [] Hp1 (reflexivity _)) in Hok.
  destruct (brelse_spec s ((o1 ++ o2).*1) [] i b Hok) as (s' & E & [R1 R2 R3 _ _ R6]);
    [by apply Ho|right; by rewrite <-Hv, <-Hd|].
  cbn [cache_step]. mstep E. exists i, s', (Store (blk s') (disk_block (disk s')) (o1 ++ o2)). split; [done|]. split.
  - exists b. split; [done|]. split; intros b'; cbn [view durable]; [by rewrite R2, Hv|by rewrite R3, Hd].
  - apply shows_intro; [done|]. intros j b' Hj.
    assert (j <> i) as Hne.
    { intros ->. destruct (co_held _ _ _ Hok) as [Hnd _]. apply list.NoDup_cons in Hnd as [Hnin _].
      apply Hnin. by apply (elem_fst i b'). }
    destruct (core_eq _ _ (R6 j Hne)) as (_ & E2 & E3 & _). unfold in_cache. rewrite E2, E3. apply Ho.
    rewrite Hperm. by right.
Qed.

(** ** Theorems *)

(** C6: the buffer cache refines a store of blocks.  After [binit] it shows the
    content of the disk; every operation a client may do returns, without panic
    or wait, and does to the cache what it does to the store: [bread] returns a
    buffer with the block's logical content whatever has been recycled since,
    [bwrite] makes exactly that content durable, [brelse] changes nothing. *)
Theorem cache_refines_store :
  (forall d pid, exists s, binit (boot d pid) = Done tt s /\ shows s (Store (disk_block d) (disk_block d) [])) /\
  (forall s a o, shows s a -> allowed a o ->
     exists r s' a', cache_step o s = Done r s' /\ next_store o r a a' /\ shows s' a').
Proof.
  split.
  - intros d pid. destruct (binit_spec d pid) as (s & E & Hok & Hd & _ & _ & Hblk & _). exists s. split; [exact E|].
    clear E. split; cbn [opened view durable].
    + exact Hok.
    + intros b. by rewrite Hblk.
    + intros b. by rewrite Hd.
    + by intros i b Hi%not_elem_of_nil.
    + by intros i b Hi%not_elem_of_nil.
  - intros s a [b|i d|i|i] Hs Ha; [by apply get_step|by apply change_step|by apply write_step|by apply drop_step].
Qed.

Lemma find_rev_split {A} (f : A -> bool) L i :
  find f (rev L) = Some i -> exists L1 L2, L = L1 ++ i :: L2 /\ f i = true /\ Forall (fun j => f j = false) L2.
Proof.
  induction L as [|x L IH] using rev_ind; [done|]. rewrite rev_app_distr. cbn [rev app find].
  destruct (f x) eqn:Ex.
  - intros [= <-]. by exists L, [].
  - intros (L1 & L2 & -> & Hi & HF)%IH. exists L1, (L2 ++ [x]). rewrite <-app_assoc. split; [done|]. split; [done|].
    apply Forall_app. split; [done|]. by apply Forall_singleton.
Qed.

(** Replacement is least recently used.  For a block that is not cached,
    [bread] takes the unused buffer that comes last in the list and panics when
    every buffer is in use; the list changes only when [brelse] finds that
    nobody else uses the buffer, which then comes first. *)
Theorem cache_replacement s H P b L :
  cache_ok s H P -> not_held s H b -> (forall i, ~ in_cache s i b) -> lru s L -> length L = NBUF ->
  match bread ROOTDEV b s with
  | Done i s' => lru s' L /\ exists L1 L2, L = L1 ++ i :: L2 /\ refcnt (buf_at i s) = 0 /\
      Forall (fun j => refcnt (buf_at j s) <> 0) L2
  | Panic msg => msg = "bget: no buffers"%string /\ Forall (fun j => refcnt (buf_at j s) <> 0) L
  | Hang => False
  end /\
  forall i b', H = i :: tail H -> in_cache s i b' -> b' ∈ P \/ blk s b' = disk_block (disk s) b' ->
    exists s', brelse i s = Done tt s' /\ lru s' (if decide (b' ∈ P) then L else to_front i L).
Proof.
  intros Hok Hn Hno HL HLl. split.
  - destruct (find (unused s) (rev L)) as [i|] eqn:Hfind.
    + destruct (bread_miss s H P b L i Hok Hn Hno HL HLl Hfind) as (l & E & _). rewrite E. split.
      * unfold recycle. by apply lru_set_buf.
      * destruct (find_rev_split _ _ _ Hfind) as (L1 & L2 & EL & Hu & HF). exists L1, L2. split; [done|].
        split; [by apply Z.eqb_eq|]. apply list.Forall_forall. intros j Hj.
        apply Z.eqb_neq. exact (proj1 (list.Forall_forall _ _) HF j Hj).
    + unfold bread, bget. rewrite bind_assoc, bind_gets, bind_assoc. mstep (bget_cached_spec s L ROOTDEV b HL).
      pose proof (find_cached s H P b L Hok (lru_all s L HL HLl)) as F.
      destruct (find (caches s ROOTDEV b) L) as [j|]; [by destruct (Hno j)|].
      rewrite bind_assoc. mstep (bget_unused_spec s L HL). rewrite Hfind.
      split; [done|]. apply list.Forall_forall. intros j Hj. apply Z.eqb_neq.
      apply (find_none _ _ Hfind). rewrite <-in_rev. by apply list_elem_of_In.
  - intros i b' EH Hc Hclean. rewrite EH in Hok.
    destruct (brelse_lru s (tail H) P i b' L Hok Hc Hclean HL HLl) as (s' & E & _ & HL'). by exists s'.
Qed.

Lemma cache_replacement_witness :
  exists s L, lru s L /\ match bread ROOTDEV 7 s with Done i s' => lru s' L | _ => False end.
Proof.
  destruct (binit_spec ∅ 1) as (s & E & Hok & _ & _ & _ & _ & Hno). clear E.
  destruct (co_lru _ _ _ Hok) as (L & HL & HLl).
  assert (Hn : not_held s [] 7) by (intros i Hi; by apply not_elem_of_nil in Hi).
  destruct (cache_replacement s [] [] 7 L Hok Hn (fun i => Hno i 7) HL HLl) as [H _].
  exists s, L. split; [exact HL|].
  destruct (bread_spec s [] [] 7 Hok Hn) as (i & s' & E & _); [left; apply Nat.lt_0_succ|].
  rewrite E in H |- *. apply H.
Defined.
