(* ===== verification/Log.v ===== *)
(** * The log, [kernel/log.c]

    Every disk write of the file system goes through a write-ahead log.  The
    state is the buffer cache, with the disk below it, and the static [log].
    [begin_op] waits while the log is committing or nearly full; as in [Bio],
    waiting is [Hang] for the process that runs. *)

From S2P Require Import Prelude Block Sleeplock Bio.

Definition MAXOPBLOCKS : Z := 10.
Definition LOGSIZE : Z := MAXOPBLOCKS * 3.

(** [struct log], with [struct logheader] as [lh_n] and [lh_block]. *)
Record log := Log {
  start : Z;
  log_size : Z;
  outstanding : Z;
  committing : bool;
  log_dev : Z;
  lh_n : Z;
  lh_block : list Z;
}.

Record lstate := LState { bs : bstate; lg : log }.

Definition bio {A} (m : M bstate A) : M lstate A := lift bs (fun b s => LState b (lg s)) m.

Definition set_outstanding (n : Z) (l : log) : log :=
  Log (start l) (log_size l) n (committing l) (log_dev l) (lh_n l) (lh_block l).
Definition set_committing (c : bool) (l : log) : log :=
  Log (start l) (log_size l) (outstanding l) c (log_dev l) (lh_n l) (lh_block l).
Definition set_lh (n : Z) (bl : list Z) (l : log) : log :=
  Log (start l) (log_size l) (outstanding l) (committing l) (log_dev l) n bl.

Definition set_log (f : log -> log) : M lstate unit := modify (fun s => LState (bs s) (f (lg s))).

(** ** The header block *)

Definition hdr_n (d : block) : Z := s32 (ld32 d 0).
Definition hdr_block (d : block) (i : Z) : Z := s32 (ld32 d (4 + 4 * i)).

(** [hb->n = n] and the loop that stores [blocks], from index [i] on. *)
Fixpoint hdr_store (d : block) (i : Z) (blocks : list Z) : block :=
  match blocks with
  | [] => d
  | b :: blocks => hdr_store (st32 d (4 + 4 * i) b) (i + 1) blocks
  end.

Definition hdr_put (d : block) (n : Z) (blocks : list Z) : block :=
  hdr_store (st32 d 0 n) 0 (take (Z.to_nat n) blocks).

(** ** Operations *)

(** [memmove(to->data, from->data, BSIZE)] *)
Definition copy_data (to from : nat) : M bstate unit :=
  x ← gets (buf_at from); modify (set_buf to (with_data (data x))).

Fixpoint install_loop (rem : nat) (tail : Z) (recovering : bool) : M lstate unit :=
  match rem with
  | O => mret tt
  | S rem =>
      l ← gets lg;
      lbuf ← bio (bread (log_dev l) (u32 (start l + tail + 1)));
      dbuf ← bio (bread (log_dev l) (u32 (nth (Z.to_nat tail) (lh_block l) 0)));
      bio (copy_data dbuf lbuf);;
      bio (bwrite dbuf);;
      (if recovering then mret tt else bio (bunpin dbuf));;
      bio (brelse lbuf);;
      bio (brelse dbuf);;
      install_loop rem (tail + 1) recovering
  end.

Definition install_trans (recovering : bool) : M lstate unit :=
  l ← gets lg; install_loop (Z.to_nat (lh_n l)) 0 recovering.

(** The blocks the header lists, stored over the first entries of the array. *)
Definition read_head : M lstate unit :=
  l ← gets lg;
  buf ← bio (bread (log_dev l) (u32 (start l)));
  x ← bio (gets (buf_at buf));
  let n := hdr_n (data x) in
  let bl := (fun i => hdr_block (data x) i) <$> seqZ 0 n in
  set_log (fun l => set_lh n (bl ++ drop (Z.to_nat n) (lh_block l)) l);;
  bio (brelse buf).

Definition write_head : M lstate unit :=
  l ← gets lg;
  buf ← bio (bread (log_dev l) (u32 (start l)));
  bio (modify (set_buf buf (fun x => with_data (hdr_put (data x) (lh_n l) (lh_block l)) x)));;
  bio (bwrite buf);;
  bio (brelse buf).

Definition clear_lh : M lstate unit := set_log (fun l => set_lh 0 (lh_block l) l).

Definition recover_from_log : M lstate unit :=
  read_head;;
  install_trans true;;
  clear_lh;;
  write_head.

Definition initlog (dev logstart nlog : Z) : M lstate unit :=
  set_log (fun l => Log (s32 logstart) (s32 nlog) (outstanding l) (committing l) dev (lh_n l) (lh_block l));;
  recover_from_log.

(** A round of the loop of [begin_op]. *)
Definition begin_op : M lstate unit :=
  l ← gets lg;
  if committing l then hang
  else if LOGSIZE <? lh_n l + (outstanding l + 1) * MAXOPBLOCKS then hang
  else set_log (set_outstanding (outstanding l + 1)).

Fixpoint write_log_loop (rem : nat) (tail : Z) : M lstate unit :=
  match rem with
  | O => mret tt
  | S rem =>
      l ← gets lg;
      to ← bio (bread (log_dev l) (u32 (start l + tail + 1)));
      from ← bio (bread (log_dev l) (u32 (nth (Z.to_nat tail) (lh_block l) 0)));
      bio (copy_data to from);;
      bio (bwrite to);;
      bio (brelse from);;
      bio (brelse to);;
      write_log_loop rem (tail + 1)
  end.

Definition write_log : M lstate unit :=
  l ← gets lg; write_log_loop (Z.to_nat (lh_n l)) 0.

Definition commit : M lstate unit :=
  l ← gets lg;
  if 0 <? lh_n l then
    write_log;;
    write_head;;
    install_trans false;;
    clear_lh;;
    write_head
  else mret tt.

Definition end_op : M lstate unit :=
  set_log (fun l => set_outstanding (outstanding l - 1) l);;
  l ← gets lg;
  if committing l then panic "log.committing"
  else if outstanding l =? 0 then
    set_log (set_committing true);;
    commit;;
    set_log (set_committing false)
  else mret tt.

(** The index where [log_write] puts block number [b]: log absorption. *)
Fixpoint log_index (b : Z) (blocks : list Z) : nat :=
  match blocks with
  | [] => O
  | b' :: blocks => if u32 b' =? b then O else S (log_index b blocks)
  end.

Definition log_write (b : nat) : M lstate unit :=
  l ← gets lg;
  if (LOGSIZE <=? lh_n l) || (log_size l - 1 <=? lh_n l) then panic "too big a transaction"
  else if outstanding l <? 1 then panic "log_write outside of trans"
  else
    x ← bio (gets (buf_at b));
    let i := log_index (blockno x) (take (Z.to_nat (lh_n l)) (lh_block l)) in
    let bl := <[i := s32 (blockno x)]> (lh_block l) in
    if decide (i = Z.to_nat (lh_n l)) then
      bio (bpin b);; set_log (set_lh (lh_n l + 1) bl)
    else set_log (set_lh (lh_n l) bl).
