(* ===== verification/LogSpec.v ===== *)
(** * What the log functions do to the disk

    [over w f] is the content [f] after the writes [w].  Each function of the log
    is shown to return, to perform a given list of disk writes in a given order,
    and to leave the cache in agreement with them. *)

From S2P Require Import Prelude Block Sleeplock Bio BioList BioSpec Log.

(** ** Sequences of writes *)

Definition put (f : Z -> block) (b : Z) (d : block) : Z -> block := fun b' => if decide (b' = b) then d else f b'.

Fixpoint over (w : list (Z * block)) (f : Z -> block) : Z -> block :=
  match w with
  | [] => f
  | (b, d) :: w => over w (put f b d)
  end.

Lemma over_ext w f g : (forall b, f b = g b) -> forall b, over w f b = over w g b.
Proof.
  revert f g. induction w as [|[b d] w IH]; intros f g H b'; cbn [over]; [done|]. apply IH. intros c. unfold put.
  by rewrite H.
Qed.

Lemma over_app w1 w2 f b : over (w1 ++ w2) f b = over w2 (over w1 f) b.
Proof. revert f. induction w1 as [|[c d] w1 IH]; intros f; cbn [over app]; [done|]. apply IH. Qed.

Lemma over_notin w f b : b ∉ w.*1 -> over w f b = f b.
Proof.
  revert f. induction w as [|[c d] w IH]; intros f Hb; cbn [over]; [done|].
  rewrite fmap_cons, not_elem_of_cons in Hb. destruct Hb as [Hc Hb]. rewrite IH by done. unfold put.
  by rewrite decide_False.
Qed.

(** With distinct targets each target gets its value. *)
Lemma over_in w f b d : NoDup w.*1 -> (b, d) ∈ w -> over w f b = d.
Proof.
  revert f. induction w as [|[c e] w IH]; intros f Hnd Hin; [by apply not_elem_of_nil in Hin|]. cbn [over].
  rewrite fmap_cons in Hnd. apply list.NoDup_cons in Hnd as [Hc Hnd]. cbn in Hc.
  apply elem_of_cons in Hin as [[= -> ->]|Hin]; [|by apply IH].
  rewrite over_notin by done. unfold put. by rewrite decide_True.
Qed.

Definition writes (s s' : bstate) (w : list (Z * block)) : Prop :=
  (forall b, blk s' b = over w (blk s) b) /\
  (forall b, disk_block (disk s') b = over w (disk_block (disk s)) b) /\
  trace s' = trace s ++ w /\ me s' = me s.

Lemma writes_trans s1 s2 s3 w1 w2 : writes s1 s2 w1 -> writes s2 s3 w2 -> writes s1 s3 (w1 ++ w2).
Proof.
  intros (H1 & H2 & H3 & H4) (G1 & G2 & G3 & G4). split_and!.
  - intros b. rewrite G1, over_app. by apply over_ext.
  - intros b. rewrite G2, over_app. by apply over_ext.
  - by rewrite G3, H3, app_assoc.
  - congruence.
Qed.

Lemma writes_nil s s' :
  (forall b, blk s' b = blk s b) -> disk s' = disk s -> trace s' = trace s -> me s' = me s -> writes s s' [].
Proof. intros H1 H2 H3 H4. split_and!; [done|by rewrite H2|by rewrite H3, app_nil_r|done]. Qed.

Lemma got_writes s H P b i s' : got_buf s H P b i s' -> writes s s' [].
Proof. intros [_ _ H1 H2 H3 H4 _]. by apply writes_nil. Qed.

Lemma released_writes s H P i s' : released s H P i s' -> writes s s' [].
Proof. intros [_ H1 H2 H3 H4 _]. by apply writes_nil. Qed.

(** ** Steps on the cache *)

Lemma bio_done {A} (m : M bstate A) b l a b' : m b = Done a b' -> bio m (LState b l) = Done a (LState b' l).
Proof. intros E. unfold bio, lift. cbn [bs lg]. by rewrite E. Qed.

Lemma bind_set_log {A} f (k : unit -> M lstate A) b l : (set_log f ≫= k) (LState b l) = k tt (LState b (f l)).
Proof. reflexivity. Qed.

(** Step through a cache operation. *)
Ltac bstep E := rewrite (bind_done _ _ _ _ _ (bio_done _ _ _ _ _ E)).

(** Getting two buffers. *)
Lemma two_bufs s P X Y :
  cache_ok s [] P -> X <> Y -> (length P < NBUF)%nat -> (S (length P) < NBUF)%nat \/ Y ∈ P ->
  exists i j s1 s2, bread ROOTDEV X s = Done i s1 /\ bread ROOTDEV Y s1 = Done j s2 /\
    cache_ok s2 [j; i] P /\ in_cache s2 i X /\ in_cache s2 j Y /\ i <> j /\ writes s s2 [].
Proof.
  intros Hok Hne Hr1 Hr2. destruct (bread_spec s [] P X Hok) as (i & s1 & E1 & G1).
  { intros k Hk. by apply not_elem_of_nil in Hk. }
  { left. done. }
  destruct (bread_spec s1 [i] P Y (gb_ok _ _ _ _ _ _ G1)) as (j & s2 & E2 & G2).
  { intros k ->%list_elem_of_singleton. destruct (gb_cached _ _ _ _ _ _ G1) as (_ & _ & ->). done. }
  { destruct Hr2; [by left|by right]. }
  exists i, j, s1, s2. pose proof (gb_ok _ _ _ _ _ _ G2) as Hok2.
  assert (Hi : in_cache s2 i X).
  { unfold in_cache. rewrite (gb_others _ _ _ _ _ _ G2) by (by left). apply (gb_cached _ _ _ _ _ _ G1). }
  split_and!; try done.
  - apply (gb_cached _ _ _ _ _ _ G2).
  - destruct (co_held _ _ _ Hok2) as [Hnd _]. apply list.NoDup_cons in Hnd as [Hn _].
    intros ->. apply Hn. by left.
  - apply (writes_trans s s1 s2 [] []); [by apply got_writes in G1|by apply got_writes in G2].
Qed.

(** Copying held buffer [from] to held buffer [to] and writing that to the disk. *)
Lemma copy_write s H P to from T F :
  cache_ok s H P -> to ∈ H -> from ∈ H -> in_cache s to T -> in_cache s from F ->
  exists s1 s2, copy_data to from s = Done tt s1 /\ bwrite to s1 = Done tt s2 /\ cache_ok s2 H P /\
    (forall i b, in_cache s2 i b <-> in_cache s i b) /\ writes s s2 [(T, blk s F)].
Proof.
  intros Hok Hto Hfrom HT HF.
  set (s1 := set_buf to (with_data (blk s F)) s).
  assert (Hok1 : cache_ok s1 H P) by (by apply set_data_ok).
  assert (Hblk1 : forall b, blk s1 b = put (blk s) T (blk s F) b) by (intros b; by apply (set_data_blk s H P to (blk s F) T)).
  assert (HT1 : in_cache s1 to T) by (by apply in_cache_set_same).
  destruct (bwrite_spec s1 H P to T Hok1 Hto HT1) as (E2 & Hok2 & Hblk2).
  exists s1, (put_disk T (blk s1 T) s1). split_and!; try done.
  - unfold copy_data. rewrite bind_gets. unfold s1. by rewrite (blk_cached s H P from F Hok HF).
  - intros i b. change (in_cache s1 i b <-> in_cache s i b). by apply in_cache_set_same.
  - assert (HTv : blk s1 T = blk s F) by (rewrite Hblk1; unfold put; by rewrite decide_True).
    rewrite HTv in Hblk2 |- *. split_and!; try done.
    + intros b. cbn [over]. by rewrite Hblk2, Hblk1.
    + intros b. cbn [over put_disk disk]. unfold disk_block, put. case_decide as Eb.
      * subst b. by rewrite lookup_insert_eq.
      * by rewrite lookup_insert_ne.
Qed.

Lemma released_cache s H P i s' j b : released s H P i s' -> j <> i -> in_cache s j b -> in_cache s' j b.
Proof.
  intros Hr Hne. unfold in_cache. by destruct (core_eq _ _ (rl_core _ _ _ _ _ Hr j Hne)) as (_ & -> & -> & _).
Qed.

(** One round of [write_log]: block [F], which is pinned, is copied to block [T]. *)
Lemma log_round s P T F :
  cache_ok s [] P -> T <> F -> T ∉ P -> F ∈ P -> (length P < NBUF)%nat ->
  exists i j s1 s2 s3 s4 s5 s6, bread ROOTDEV T s = Done i s1 /\ bread ROOTDEV F s1 = Done j s2 /\
    copy_data i j s2 = Done tt s3 /\ bwrite i s3 = Done tt s4 /\ brelse j s4 = Done tt s5 /\
    brelse i s5 = Done tt s6 /\ cache_ok s6 [] P /\ writes s s6 [(T, blk s F)].
Proof.
  intros Hok Hne HT HF Hlen.
  destruct (two_bufs s P T F Hok Hne Hlen (or_intror HF)) as (i & j & s1 & s2 & E1 & E2 & Hok2 & Hi & Hj & Hij & W2).
  destruct (copy_write s2 [j; i] P i j T F Hok2) as (s3 & s4 & E3 & E4 & Hok4 & Hc4 & W4);
    [by right; left|by left|done|done|].
  destruct (brelse_spec s4 [i] P j F Hok4) as (s5 & E5 & R5); [by apply Hc4|by left|].
  assert (W5 : writes s s5 [(T, blk s F)]).
  { destruct W2 as (B2 & W2'). rewrite B2 in W4.
    apply (writes_trans s s2 s5 [] [(T, blk s F)]); [done|].
    apply (writes_trans s2 s4 s5 [(T, blk s F)] []); [done|]. by apply released_writes in R5. }
  destruct (brelse_spec s5 [] P i T (rl_ok _ _ _ _ _ R5)) as (s6 & E6 & R6).
  - apply (released_cache s4 [i] P j); [done|done|]. by apply Hc4.
  - right. destruct W5 as (-> & -> & _). cbn [over]. unfold put. by rewrite !decide_True.
  - exists i, j, s1, s2, s3, s4, s5, s6. split_and!; try done; [apply R6|].
    apply (writes_trans s s5 s6 [(T, blk s F)] []); [done|]. by apply released_writes in R6.
Qed.

(** One round of [install_trans] while committing: pinned block [F] gets the
    content of log block [T] and is unpinned. *)
Lemma install_round s P T F :
  cache_ok s [] (F :: P) -> T <> F -> T ∉ P -> (S (length P) < NBUF)%nat ->
  exists i j s1 s2 s3 s4 s5 s6 s7, bread ROOTDEV T s = Done i s1 /\ bread ROOTDEV F s1 = Done j s2 /\
    copy_data j i s2 = Done tt s3 /\ bwrite j s3 = Done tt s4 /\ bunpin j s4 = Done tt s5 /\
    brelse i s5 = Done tt s6 /\ brelse j s6 = Done tt s7 /\ cache_ok s7 [] P /\ writes s s7 [(F, blk s T)].
Proof.
  intros Hok Hne HT Hlen.
  destruct (two_bufs s (F :: P) T F Hok Hne Hlen) as (i & j & s1 & s2 & E1 & E2 & Hok2 & Hi & Hj & Hij & W2);
    [right; by left|].
  destruct (copy_write s2 [j; i] (F :: P) j i F T Hok2) as (s3 & s4 & E3 & E4 & Hok4 & Hc4 & W4);
    [by left|by right; left|done|done|].
  destruct (bunpin_spec s4 [j; i] P j F Hok4) as (s5 & E5 & Hok5 & Es5 & B5); [by left|by apply Hc4|].
  assert (W5 : writes s s5 [(F, blk s T)]).
  { destruct W2 as (B2 & W2'). rewrite B2 in W4. apply (writes_trans s s2 s5 [] [(F, blk s T)]); [done|].
    apply (writes_trans s2 s4 s5 [(F, blk s T)] []); [done|]. apply writes_nil; [done|by rewrite Es5..]. }
  assert (Hc5 : forall k b, in_cache s5 k b <-> in_cache s2 k b).
  { intros k b. rewrite <-Hc4, Es5. by apply in_cache_set_same. }
  assert (Hclean : blk s T = disk_block (disk s) T).
  { apply (blk_clean s [] (F :: P)); [done|by apply not_elem_of_cons|]. intros k Hk. by apply not_elem_of_nil in Hk. }
  destruct (brelse_spec s5 [j] P i T) as (s6 & E6 & R6).
  { apply (cache_ok_perm s5 [j; i] P); [apply Permutation_swap|done|done]. }
  { by apply Hc5. }
  { right. destruct W5 as (-> & -> & _). cbn [over]. unfold put. by rewrite !decide_False. }
  assert (W6 : writes s s6 [(F, blk s T)]).
  { apply (writes_trans s s5 s6 [(F, blk s T)] []); [done|]. by apply released_writes in R6. }
  destruct (brelse_spec s6 [] P j F (rl_ok _ _ _ _ _ R6)) as (s7 & E7 & R7).
  { apply (released_cache s5 [j] P i); [done|by intros ->|]. by apply Hc5. }
  { right. destruct W6 as (-> & -> & _). cbn [over]. unfold put. by rewrite !decide_True. }
  exists i, j, s1, s2, s3, s4, s5, s6, s7. split_and!; try done; [apply R7|].
  apply (writes_trans s s6 s7 [(F, blk s T)] []); [done|]. by apply released_writes in R7.
Qed.

(** The same while recovering, when nothing is pinned. *)
Lemma recover_round s T F :
  cache_ok s [] [] -> T <> F ->
  exists i j s1 s2 s3 s4 s5 s6, bread ROOTDEV T s = Done i s1 /\ bread ROOTDEV F s1 = Done j s2 /\
    copy_data j i s2 = Done tt s3 /\ bwrite j s3 = Done tt s4 /\
    brelse i s4 = Done tt s5 /\ brelse j s5 = Done tt s6 /\ cache_ok s6 [] [] /\ writes s s6 [(F, blk s T)].
Proof.
  intros Hok Hne.
  destruct (two_bufs s [] T F Hok Hne) as (i & j & s1 & s2 & E1 & E2 & Hok2 & Hi & Hj & Hij & W2);
    [cbn; unfold NBUF; lia|left; cbn; unfold NBUF; lia|].
  destruct (copy_write s2 [j; i] [] j i F T Hok2) as (s3 & s4 & E3 & E4 & Hok4 & Hc4 & W4);
    [by left|by right; left|done|done|].
  assert (W4' : writes s s4 [(F, blk s T)]).
  { destruct W2 as (B2 & W2'). rewrite B2 in W4. by apply (writes_trans s s2 s4 [] [(F, blk s T)]). }
  assert (Hclean : blk s T = disk_block (disk s) T).
  { apply (blk_clean s [] []); [done|apply not_elem_of_nil|]. intros k Hk. by apply not_elem_of_nil in Hk. }
  destruct (brelse_spec s4 [j] [] i T) as (s5 & E5 & R5).
  { apply (cache_ok_perm s4 [j; i] []); [apply Permutation_swap|done|done]. }
  { by apply Hc4. }
  { right. destruct W4' as (-> & -> & _). cbn [over]. unfold put. by rewrite !decide_False. }
  assert (W5 : writes s s5 [(F, blk s T)]).
  { apply (writes_trans s s4 s5 [(F, blk s T)] []); [done|]. by apply released_writes in R5. }
  destruct (brelse_spec s5 [] [] j F (rl_ok _ _ _ _ _ R5)) as (s6 & E6 & R6).
  { apply (released_cache s4 [j] [] i); [done|by intros ->|]. by apply Hc4. }
  { right. destruct W5 as (-> & -> & _). cbn [over]. unfold put. by rewrite !decide_True. }
  exists i, j, s1, s2, s3, s4, s5, s6. split_and!; try done; [apply R6|].
  apply (writes_trans s s5 s6 [(F, blk s T)] []); [done|]. by apply released_writes in R6.
Qed.

(** ** The log's state *)

(** A block outside the log. *)
Definition home (l : log) (h : Z) : Prop := 0 <= h < 2 ^ 31 /\ ~ (start l <= h < start l + LOGSIZE).

(** The log [l] lists the blocks [hs]. *)
Record log_wf (l : log) (hs : list Z) : Prop := {
  lw_dev : log_dev l = ROOTDEV;
  lw_start : 0 <= start l /\ start l + LOGSIZE < 2 ^ 31;
  lw_n : lh_n l = Z.of_nat (length hs);
  lw_arr : length (lh_block l) = Z.to_nat LOGSIZE;
  lw_blocks : take (length hs) (lh_block l) = hs;
  lw_short : (length hs < NBUF)%nat;
  lw_home : Forall (home l) hs;
  lw_nodup : NoDup hs;
}.

Lemma log_nth l hs hs1 h hs2 :
  log_wf l hs -> hs = hs1 ++ h :: hs2 -> u32 (nth (length hs1) (lh_block l) 0) = h.
Proof.
  intros Hw E. pose proof (lw_home l hs Hw) as Hh. rewrite E in Hh. apply Forall_app in Hh as [_ Hh].
  apply list.Forall_cons in Hh as [[Hr _] _].
  assert (nth (length hs1) (lh_block l) 0 = h) as ->; [|apply u32_small; lia].
  apply nth_lookup_Some. pose proof (lw_blocks l hs Hw) as Hb.
  assert (hs !! length hs1 = Some h) as Hl by (rewrite E; by apply list_lookup_middle).
  rewrite <-Hb in Hl. apply lookup_take_Some in Hl. apply Hl.
Qed.

Lemma log_slot l hs t : log_wf l hs -> 0 <= t < Z.of_nat (length hs) ->
  u32 (start l + t + 1) = start l + t + 1.
Proof.
  intros Hw Ht. pose proof (lw_start l hs Hw). pose proof (lw_short l hs Hw).
  apply u32_small. unfold NBUF, LOGSIZE, MAXOPBLOCKS in *. lia.
Qed.

Lemma home_not_slot l h t : home l h -> 0 <= t < LOGSIZE - 1 -> start l + t + 1 <> h.
Proof. intros [_ Hn] Ht E. apply Hn. lia. Qed.

Lemma slot_bound l hs (t : nat) : log_wf l hs -> (t < length hs)%nat -> 0 <= Z.of_nat t < LOGSIZE - 1.
Proof. intros Hw Ht. pose proof (lw_short l hs Hw). unfold NBUF, LOGSIZE, MAXOPBLOCKS in *. lia. Qed.

(** The writes of [write_log] and [install_trans], from log slot [t] on, when the
    content of the blocks is [v]. *)
Fixpoint log_writes (st t : Z) (hs : list Z) (v : Z -> block) : list (Z * block) :=
  match hs with
  | [] => []
  | h :: hs => (st + t + 1, v h) :: log_writes st (t + 1) hs v
  end.

Fixpoint home_writes (st t : Z) (hs : list Z) (v : Z -> block) : list (Z * block) :=
  match hs with
  | [] => []
  | h :: hs => (h, v (st + t + 1)) :: home_writes st (t + 1) hs v
  end.

Lemma log_writes_ext st t hs v v' : (forall h, h ∈ hs -> v' h = v h) -> log_writes st t hs v' = log_writes st t hs v.
Proof.
  revert t. induction hs as [|h hs IH]; intros t H; cbn [log_writes]; [done|].
  rewrite H by (by left). f_equal. apply IH. intros x Hx. apply H. by right.
Qed.

Lemma home_writes_ext st t hs v v' :
  (forall i, t <= i < t + Z.of_nat (length hs) -> v' (st + i + 1) = v (st + i + 1)) ->
  home_writes st t hs v' = home_writes st t hs v.
Proof.
  revert t. induction hs as [|h hs IH]; intros t H; cbn [home_writes length] in *; [done|].
  rewrite H by lia. f_equal. apply IH. intros i Hi. apply H. lia.
Qed.

Lemma write_log_loop_spec l hs hs1 hs2 b P :
  log_wf l hs -> hs = hs1 ++ hs2 -> P ≡ₚ hs -> cache_ok b [] P ->
  exists b', write_log_loop (length hs2) (Z.of_nat (length hs1)) (LState b l) = Done tt (LState b' l) /\
    cache_ok b' [] P /\ writes b b' (log_writes (start l) (Z.of_nat (length hs1)) hs2 (blk b)).
Proof.
  intros Hw. revert hs1 b. induction hs2 as [|h hs2 IH]; intros hs1 b E HP Hok; cbn [length write_log_loop log_writes].
  { exists b. split; [done|]. split; [done|]. by apply writes_nil. }
  rewrite bind_gets. cbn [lg]. rewrite (lw_dev l hs Hw), Nat2Z.id, (log_nth l hs hs1 h hs2 Hw E).
  assert (Hlt : (length hs1 < length hs)%nat) by (rewrite E, length_app; cbn; lia).
  rewrite (log_slot l hs) by (done || lia). pose proof (slot_bound l hs _ Hw Hlt) as Hsl.
  pose proof (lw_home l hs Hw) as Hh. rewrite list.Forall_forall in Hh.
  destruct (log_round b P (start l + Z.of_nat (length hs1) + 1) h Hok)
    as (i & j & s1 & s2 & s3 & s4 & s5 & s6 & E1 & E2 & E3 & E4 & E5 & E6 & Hok6 & W6).
  - apply home_not_slot; [|done]. apply Hh. rewrite E. apply elem_of_app. right. by left.
  - rewrite HP. intros Hin. by apply (home_not_slot l _ _ (Hh _ Hin) Hsl).
  - rewrite HP, E. apply elem_of_app. right. by left.
  - rewrite HP. apply (lw_short l hs Hw).
  - bstep E1. bstep E2. bstep E3. bstep E4. bstep E5. bstep E6. cbn [lg].
    destruct (IH (hs1 ++ [h]) s6) as (b' & Eb & Hok' & W'); [by rewrite <-app_assoc|done|done|].
    rewrite length_app in Eb, W'. cbn [length] in Eb, W'. rewrite Nat2Z.inj_add in Eb, W'.
    exists b'. split; [exact Eb|]. split; [done|].
    apply (writes_trans b s6 b' [(start l + Z.of_nat (length hs1) + 1, blk b h)]); [done|].
    rewrite (log_writes_ext _ _ _ (blk b)) in W'; [exact W'|].
    intros x Hx. destruct W6 as (-> & _). cbn [over]. unfold put. rewrite decide_False; [done|].
    intros Ex. symmetry in Ex. apply (home_not_slot l x _) in Ex; [done| |done]. apply Hh. rewrite E. apply elem_of_app.
    right. by right.
Qed.

Lemma install_loop_spec l hs hs1 hs2 b P :
  log_wf l hs -> hs = hs1 ++ hs2 -> P ≡ₚ hs2 -> cache_ok b [] P ->
  exists b', install_loop (length hs2) (Z.of_nat (length hs1)) false (LState b l) = Done tt (LState b' l) /\
    cache_ok b' [] [] /\ writes b b' (home_writes (start l) (Z.of_nat (length hs1)) hs2 (blk b)).
Proof.
  intros Hw. revert hs1 b P. induction hs2 as [|h hs2 IH]; intros hs1 b P E HP Hok; cbn [length install_loop home_writes].
  { exists b. split; [done|]. apply Permutation_nil_r in HP as ->. split; [done|]. by apply writes_nil. }
  rewrite bind_gets. cbn [lg]. rewrite (lw_dev l hs Hw), Nat2Z.id, (log_nth l hs hs1 h hs2 Hw E).
  assert (Hlt : (length hs1 < length hs)%nat) by (rewrite E, length_app; cbn; lia).
  rewrite (log_slot l hs) by (done || lia). pose proof (slot_bound l hs _ Hw Hlt) as Hsl.
  pose proof (lw_home l hs Hw) as Hh. rewrite list.Forall_forall in Hh.
  apply (cache_ok_perm b [] P [] (h :: hs2) (reflexivity _) HP) in Hok.
  assert (Hslot : forall x, x ∈ h :: hs2 -> start l + Z.of_nat (length hs1) + 1 <> x).
  { intros x Hx. apply home_not_slot; [|done]. apply Hh. rewrite E. apply elem_of_app. by right. }
  destruct (install_round b hs2 (start l + Z.of_nat (length hs1) + 1) h Hok)
    as (i & j & s1 & s2 & s3 & s4 & s5 & s6 & s7 & E1 & E2 & E3 & E4 & E5 & E6 & E7 & Hok7 & W7).
  - apply Hslot. by left.
  - intros Hin. apply (Hslot (start l + Z.of_nat (length hs1) + 1)); [by right|done].
  - pose proof (lw_short l hs Hw) as Hs. rewrite E, length_app in Hs. cbn [length] in Hs. lia.
  - bstep E1. bstep E2. bstep E3. bstep E4. bstep E5. bstep E6. bstep E7. cbn [lg].
    destruct (IH (hs1 ++ [h]) s7 hs2) as (b' & Eb & Hok' & W'); [by rewrite <-app_assoc|done|done|].
    rewrite length_app in Eb, W'. cbn [length] in Eb, W'. rewrite Nat2Z.inj_add in Eb, W'.
    exists b'. split; [exact Eb|]. split; [done|].
    apply (writes_trans b s7 b' [(h, blk b (start l + Z.of_nat (length hs1) + 1))]); [done|].
    rewrite (home_writes_ext _ _ _ (blk b)) in W'; [exact W'|].
    intros k Hk. destruct W7 as (-> & _). cbn [over]. unfold put. rewrite decide_False; [done|].
    apply home_not_slot; [apply Hh; rewrite E; apply elem_of_app; right; by left|].
    pose proof (lw_short l _ Hw) as Hs. rewrite E, length_app in Hs. cbn [length] in Hs. unfold NBUF, LOGSIZE, MAXOPBLOCKS in *. lia.
Qed.

Lemma recover_loop_spec l hs hs1 hs2 b :
  log_wf l hs -> hs = hs1 ++ hs2 -> cache_ok b [] [] ->
  exists b', install_loop (length hs2) (Z.of_nat (length hs1)) true (LState b l) = Done tt (LState b' l) /\
    cache_ok b' [] [] /\ writes b b' (home_writes (start l) (Z.of_nat (length hs1)) hs2 (blk b)).
Proof.
  intros Hw. revert hs1 b. induction hs2 as [|h hs2 IH]; intros hs1 b E Hok; cbn [length install_loop home_writes].
  { exists b. split; [done|]. split; [done|]. by apply writes_nil. }
  rewrite bind_gets. cbn [lg]. rewrite (lw_dev l hs Hw), Nat2Z.id, (log_nth l hs hs1 h hs2 Hw E).
  assert (Hlt : (length hs1 < length hs)%nat) by (rewrite E, length_app; cbn; lia).
  rewrite (log_slot l hs) by (done || lia). pose proof (slot_bound l hs _ Hw Hlt) as Hsl.
  pose proof (lw_home l hs Hw) as Hh. rewrite list.Forall_forall in Hh.
  assert (Hhh : home l h) by (apply Hh; rewrite E; apply elem_of_app; right; by left).
  destruct (recover_round b (start l + Z.of_nat (length hs1) + 1) h Hok)
    as (i & j & s1 & s2 & s3 & s4 & s5 & s6 & E1 & E2 & E3 & E4 & E5 & E6 & Hok6 & W6).
  - by apply home_not_slot.
  - bstep E1. bstep E2. bstep E3. bstep E4. rewrite bind_ret. bstep E5. bstep E6. cbn [lg].
    destruct (IH (hs1 ++ [h]) s6) as (b' & Eb & Hok' & W'); [by rewrite <-app_assoc|done|].
    rewrite length_app in Eb, W'. cbn [length] in Eb, W'. rewrite Nat2Z.inj_add in Eb, W'.
    exists b'. split; [exact Eb|]. split; [done|].
    apply (writes_trans b s6 b' [(h, blk b (start l + Z.of_nat (length hs1) + 1))]); [done|].
    rewrite (home_writes_ext _ _ _ (blk b)) in W'; [exact W'|].
    intros k Hk. destruct W6 as (-> & _). cbn [over]. unfold put. rewrite decide_False; [done|].
    apply home_not_slot; [done|]. pose proof (lw_short l _ Hw) as Hs.
    rewrite E, length_app in Hs. cbn [length] in Hs. unfold NBUF, LOGSIZE, MAXOPBLOCKS in *. lia.
Qed.

(** ** The header *)

Lemma length_hdr_store d i bl : length (hdr_store d i bl) = length d.
Proof. revert d i. induction bl as [|b bl IH]; intros d i; cbn [hdr_store]; [done|]. by rewrite IH, length_st32. Qed.

Lemma hdr_store_below d i bl off : 0 <= i -> 0 <= off -> off + 4 <= 4 + 4 * i -> ld32 (hdr_store d i bl) off = ld32 d off.
Proof.
  revert d i. induction bl as [|b bl IH]; intros d i Hi H0 Ho; cbn [hdr_store]; [done|].
  rewrite IH by lia. apply ld32_st32_ne; lia.
Qed.

Lemma hdr_store_at d i bl k b :
  0 <= i -> 4 + 4 * (i + Z.of_nat (length bl)) <= Z.of_nat (length d) -> bl !! k = Some b ->
  ld32 (hdr_store d i bl) (4 + 4 * (i + Z.of_nat k)) = u32 b.
Proof.
  revert d i k. induction bl as [|c bl IH]; intros d i k Hi Hl Hk; [done|]. cbn [hdr_store length] in *.
  destruct k as [|k]; cbn in Hk.
  - injection Hk as ->. rewrite hdr_store_below by lia. rewrite Z.add_0_r. apply ld32_st32; lia.
  - replace (i + Z.of_nat (S k)) with (i + 1 + Z.of_nat k) by lia. apply IH; [lia| |done].
    rewrite length_st32. lia.
Qed.

Lemma hdr_put_block d n bl : is_block d -> is_block (hdr_put d n bl).
Proof. unfold is_block, hdr_put. by rewrite length_hdr_store, length_st32. Qed.

Lemma s32_u32 x : - 2 ^ 31 <= x < 2 ^ 31 -> s32 (u32 x) = x.
Proof. intros H. unfold s32, u32. rewrite Zplus_mod_idemp_l. rewrite Z.mod_small; lia. Qed.

Lemma hdr_n_put d n bl : is_block d -> 0 <= n <= LOGSIZE -> hdr_n (hdr_put d n bl) = n.
Proof.
  intros Hd Hn. unfold is_block, BSIZE in Hd. unfold LOGSIZE, MAXOPBLOCKS in Hn. unfold hdr_n, hdr_put.
  rewrite hdr_store_below by lia. rewrite ld32_st32 by lia. apply s32_u32. lia.
Qed.

Lemma hdr_block_put d n bl k b :
  is_block d -> 0 <= n <= LOGSIZE -> take (Z.to_nat n) bl !! k = Some b -> - 2 ^ 31 <= b < 2 ^ 31 ->
  hdr_block (hdr_put d n bl) (Z.of_nat k) = b.
Proof.
  intros Hd Hn Hk Hb. unfold is_block, BSIZE in Hd. unfold LOGSIZE, MAXOPBLOCKS in Hn. unfold hdr_block, hdr_put.
  rewrite <-(Z.add_0_l (Z.of_nat k)). rewrite (hdr_store_at _ 0 _ k b); [by apply s32_u32|lia| |done].
  rewrite length_st32, length_take. lia.
Qed.

(** The blocks a header lists. *)
Definition hdr_blocks (d : block) : list Z := (fun i => hdr_block d i) <$> seqZ 0 (hdr_n d).

Lemma hdr_blocks_put d l hs :
  log_wf l hs -> is_block d -> hdr_blocks (hdr_put d (lh_n l) (lh_block l)) = hs.
Proof.
  intros Hw Hd. pose proof (lw_short l hs Hw) as Hs. pose proof (lw_n l hs Hw) as Hn.
  unfold hdr_blocks. rewrite hdr_n_put by (done || (unfold LOGSIZE, MAXOPBLOCKS, NBUF in *; lia)).
  apply list_eq. intros i. rewrite list_lookup_fmap. destruct (hs !! i) as [h|] eqn:Ei.
  - pose proof (lookup_lt_Some _ _ _ Ei) as Hlt. rewrite lookup_seqZ_lt by lia. cbn. f_equal. rewrite Z.add_0_l.
    apply hdr_block_put; [done|unfold LOGSIZE, MAXOPBLOCKS, NBUF in *; lia| |].
    + rewrite Hn, Nat2Z.id, (lw_blocks l hs Hw). done.
    + pose proof (proj1 (Forall_lookup _ _) (lw_home l hs Hw) i h Ei) as [Hr _]. lia.
  - apply lookup_ge_None in Ei. rewrite lookup_seqZ_ge by lia. done.
Qed.

(** ** Reading and writing the header block *)

Lemma start_u32 l hs : log_wf l hs -> u32 (start l) = start l.
Proof. intros Hw. pose proof (lw_start l hs Hw). apply u32_small. unfold LOGSIZE, MAXOPBLOCKS in *. lia. Qed.

Lemma set_data_writes s H P i b f :
  cache_ok s H P -> i ∈ H -> in_cache s i b ->
  exists s2, bwrite i (set_buf i (fun x => with_data (f (data x)) x) s) = Done tt s2 /\ cache_ok s2 H P /\
    in_cache s2 i b /\ writes s s2 [(b, f (blk s b))].
Proof.
  intros Hok Hi Hc. set (d := f (blk s b)).
  assert (E : set_buf i (fun x => with_data (f (data x)) x) s = set_buf i (with_data d) s).
  { unfold set_buf. f_equal. apply list_alter_ext; [|done]. intros x Hx. unfold d. rewrite (blk_cached s H P i b Hok Hc).
    unfold buf_at. by rewrite (list_lookup_total_correct _ _ _ Hx). }
  rewrite E. set (s1 := set_buf i (with_data d) s).
  assert (Hok1 : cache_ok s1 H P) by (by apply set_data_ok).
  assert (Hblk1 : forall b', blk s1 b' = put (blk s) b d b') by (intros b'; by apply (set_data_blk s H P i d b)).
  assert (Hc1 : in_cache s1 i b) by (by apply in_cache_set_same).
  destruct (bwrite_spec s1 H P i b Hok1 Hi Hc1) as (E2 & Hok2 & Hblk2).
  exists (put_disk b (blk s1 b) s1). split_and!; try done.
  assert (HTv : blk s1 b = d) by (rewrite Hblk1; unfold put; by rewrite decide_True).
  rewrite HTv in Hblk2 |- *. split_and!; try done.
  - intros b'. cbn [over]. by rewrite Hblk2, Hblk1.
  - intros b'. cbn [over put_disk disk]. unfold disk_block, put. case_decide as Eb.
    + subst b'. by rewrite lookup_insert_eq.
    + by rewrite lookup_insert_ne.
Qed.

Lemma write_head_spec b l P :
  cache_ok b [] P -> log_dev l = ROOTDEV -> u32 (start l) = start l -> (length P < NBUF)%nat ->
  exists b', write_head (LState b l) = Done tt (LState b' l) /\ cache_ok b' [] P /\
    writes b b' [(start l, hdr_put (blk b (start l)) (lh_n l) (lh_block l))].
Proof.
  intros Hok Hd Hs Hlen. unfold write_head. rewrite bind_gets. cbn [lg]. rewrite Hd, Hs.
  destruct (bread_spec b [] P (start l) Hok) as (i & s1 & E1 & G1); [by intros k Hk%not_elem_of_nil|by left|].
  bstep E1. destruct (set_data_writes s1 [i] P i (start l) (fun d => hdr_put d (lh_n l) (lh_block l)))
    as (s2 & E2 & Hok2 & Hc2 & W2); [apply G1|by left|apply (gb_cached _ _ _ _ _ _ G1)|].
  assert (Em : modify (set_buf i (fun x => with_data (hdr_put (data x) (lh_n l) (lh_block l)) x)) s1 =
    Done tt (set_buf i (fun x => with_data (hdr_put (data x) (lh_n l) (lh_block l)) x) s1)) by done.
  bstep Em. bstep E2. assert (W : writes b s2 [(start l, hdr_put (blk b (start l)) (lh_n l) (lh_block l))]).
  { rewrite (gb_blk _ _ _ _ _ _ G1) in W2. apply (writes_trans b s1 s2 []); [by apply got_writes in G1|done]. }
  destruct (brelse_spec s2 [] P i (start l) Hok2 Hc2) as (s3 & E3 & R3).
  { right. destruct W as (-> & -> & _). cbn [over]. unfold put. by rewrite !decide_True. }
  exists s3. rewrite (bio_done _ _ _ _ _ E3). split; [done|]. split; [apply R3|].
  apply (writes_trans b s2 s3 [(start l, hdr_put (blk b (start l)) (lh_n l) (lh_block l))] []); [done|].
  by apply released_writes in R3.
Qed.

Lemma read_head_spec b l :
  cache_ok b [] [] -> log_dev l = ROOTDEV -> u32 (start l) = start l ->
  exists b', read_head (LState b l) =
      Done tt (LState b' (set_lh (hdr_n (blk b (start l)))
        (hdr_blocks (blk b (start l)) ++ drop (Z.to_nat (hdr_n (blk b (start l)))) (lh_block l)) l)) /\
    cache_ok b' [] [] /\ writes b b' [].
Proof.
  intros Hok Hd Hs. unfold read_head. rewrite bind_gets. cbn [lg]. rewrite Hd, Hs.
  destruct (bread_spec b [] [] (start l) Hok) as (i & s1 & E1 & G1);
    [by intros k Hk%not_elem_of_nil|left; cbn; unfold NBUF; lia|].
  bstep E1. assert (Eg : gets (buf_at i) s1 = Done (buf_at i s1) s1) by done. bstep Eg.
  rewrite (got_data _ _ _ _ _ _ G1). rewrite bind_set_log.
  pose proof (got_writes _ _ _ _ _ _ G1) as W1.
  destruct (brelse_spec s1 [] [] i (start l) (gb_ok _ _ _ _ _ _ G1) (gb_cached _ _ _ _ _ _ G1)) as (s2 & E2 & R2).
  { right. destruct W1 as (-> & -> & _). cbn [over].
    apply (blk_clean b [] []); [done|apply not_elem_of_nil|by intros k Hk%not_elem_of_nil]. }
  exists s2. rewrite (bio_done _ _ _ _ _ E2). split; [done|]. split; [apply R2|].
  apply (writes_trans b s1 s2 [] []); [done|]. by apply released_writes in R2.
Qed.
