(* ===== verification/LogProps.v ===== *)
(** * Crash safety of the log

    A crash loses memory and keeps the disk, on which the writes done so far have
    happened: some prefix of the writes, in order.  [startup] is what the kernel
    does with the cache and the log when it boots.  Whatever the prefix, the disk
    after recovery holds all of a transaction's updates or none. *)

From S2P Require Import Prelude Block Sleeplock Bio BioList BioSpec Log LogSpec.

Definition plain (hs : list Z) (v : Z -> block) : list (Z * block) := (fun h => (h, v h)) <$> hs.

(** The writes of [commit]. *)
Definition commit_writes (l : log) (hs : list Z) (v : Z -> block) : list (Z * block) :=
  let h1 := hdr_put (v (start l)) (lh_n l) (lh_block l) in
  log_writes (start l) 0 hs v ++ (start l, h1) :: plain hs v ++ [(start l, hdr_put h1 0 (lh_block l))].

Lemma log_writes_fst st t hs v : (log_writes st t hs v).*1 = (fun i => st + i + 1) <$> seqZ t (Z.of_nat (length hs)).
Proof.
  revert t. induction hs as [|h hs IH]; intros t; cbn [log_writes length]; [done|].
  rewrite seqZ_cons by lia. rewrite !fmap_cons, IH. do 3 f_equal; lia.
Qed.

Lemma home_writes_fst st t hs v : (home_writes st t hs v).*1 = hs.
Proof. revert t. induction hs as [|h hs IH]; intros t; cbn [home_writes]; [done|]. by rewrite fmap_cons, IH. Qed.

Lemma plain_fst hs v : (plain hs v).*1 = hs.
Proof. unfold plain. rewrite <-list_fmap_compose. cbn. apply list_fmap_id. Qed.

Lemma NoDup_log_writes st t hs v : NoDup (log_writes st t hs v).*1.
Proof. rewrite log_writes_fst. apply NoDup_fmap_2; [intros x y; lia|apply NoDup_seqZ]. Qed.

Lemma log_writes_at st t hs v k h :
  hs !! k = Some h -> (st + (t + Z.of_nat k) + 1, v h) ∈ log_writes st t hs v.
Proof.
  revert t k. induction hs as [|x hs IH]; intros t k Hk; [done|]. cbn [log_writes]. destruct k as [|k]; cbn in Hk.
  - injection Hk as ->. change (Z.of_nat 0) with 0. rewrite Z.add_0_r. by left.
  - right. replace (t + Z.of_nat (S k)) with (t + 1 + Z.of_nat k) by lia. by apply IH.
Qed.

(** Installing what [write_log] wrote gives each block its content. *)
Lemma home_writes_plain st t hs g v :
  (forall k h, hs !! k = Some h -> g (st + (t + Z.of_nat k) + 1) = v h) -> home_writes st t hs g = plain hs v.
Proof.
  revert t. induction hs as [|x hs IH]; intros t H; cbn [home_writes]; [done|]. unfold plain. rewrite fmap_cons.
  f_equal.
  - specialize (H 0%nat x (eq_refl _)). rewrite Z.add_0_r in H. by rewrite H.
  - apply IH. intros k h Hk. specialize (H (S k) h Hk). rewrite <-H. f_equal. lia.
Qed.

Lemma home_not_log l hs x v : log_wf l hs -> home l x -> x ∉ (log_writes (start l) 0 hs v).*1.
Proof.
  intros Hw Hx. rewrite log_writes_fst. intros (i & -> & Hi%elem_of_seqZ)%list_elem_of_fmap.
  apply (home_not_slot l (start l + i + 1) i); [done| |done].
  pose proof (lw_short l hs Hw). unfold NBUF, LOGSIZE, MAXOPBLOCKS in *. lia.
Qed.

Lemma home_not_start l x : home l x -> x <> start l.
Proof. intros [_ Hx] ->. apply Hx. unfold LOGSIZE, MAXOPBLOCKS. lia. Qed.

Lemma start_not_log l hs v : start l ∉ (log_writes (start l) 0 hs v).*1.
Proof. rewrite log_writes_fst. intros (i & E & Hi%elem_of_seqZ)%list_elem_of_fmap. lia. Qed.

Lemma start_not_home l hs : log_wf l hs -> start l ∉ hs.
Proof.
  intros Hw Hin. pose proof (lw_home l hs Hw) as Hh. rewrite list.Forall_forall in Hh.
  by apply (home_not_start l _ (Hh _ Hin)).
Qed.

Lemma commit_spec b l hs P :
  log_wf l hs -> hs <> [] -> P ≡ₚ hs -> cache_ok b [] P ->
  exists b', commit (LState b l) = Done tt (LState b' (set_lh 0 (lh_block l) l)) /\ cache_ok b' [] [] /\
    writes b b' (commit_writes l hs (blk b)).
Proof.
  intros Hw Hne HP Hok. pose proof (start_u32 l hs Hw) as Hst. pose proof (lw_dev l hs Hw) as Hdev.
  assert (Hlen : (length P < NBUF)%nat) by (rewrite HP; apply (lw_short l hs Hw)).
  unfold commit. rewrite bind_gets. cbn [lg]. rewrite (lw_n l hs Hw).
  destruct (Z.ltb_spec 0 (Z.of_nat (length hs))) as [_|Hz]; [|destruct hs; [done|cbn in Hz; lia]].
  destruct (write_log_loop_spec l hs [] hs b P Hw eq_refl HP Hok) as (b1 & E1 & Hok1 & W1).
  assert (E1' : write_log (LState b l) = Done tt (LState b1 l)).
  { unfold write_log. rewrite bind_gets. cbn [lg]. rewrite (lw_n l hs Hw), Nat2Z.id. exact E1. }
  mstep E1'. destruct (write_head_spec b1 l P Hok1 Hdev Hst Hlen) as (b2 & E2 & Hok2 & W2). mstep E2.
  destruct (install_loop_spec l hs [] hs b2 P Hw eq_refl HP Hok2) as (b3 & E3 & Hok3 & W3).
  assert (E3' : install_trans false (LState b2 l) = Done tt (LState b3 l)).
  { unfold install_trans. rewrite bind_gets. cbn [lg]. rewrite (lw_n l hs Hw), Nat2Z.id. exact E3. }
  mstep E3'. unfold clear_lh. rewrite bind_set_log.
  destruct (write_head_spec b3 (set_lh 0 (lh_block l) l) [] Hok3) as (b4 & E4 & Hok4 & W4);
    [done|done|cbn; unfold NBUF; lia|].
  exists b4. split; [exact E4|]. split; [done|]. cbn [set_lh start lh_n lh_block] in W4.
  assert (Ws : blk b1 (start l) = blk b (start l)).
  { destruct W1 as (-> & _). apply over_notin, start_not_log. }
  rewrite Ws in W2.
  assert (Wh : home_writes (start l) (Z.of_nat (length (@nil Z))) hs (blk b2) = plain hs (blk b)).
  { apply home_writes_plain. intros k h Hk. cbn [length Z.of_nat]. destruct W2 as (-> & _). cbn [over]. unfold put.
    rewrite decide_False by lia. destruct W1 as (-> & _). apply over_in; [apply NoDup_log_writes|].
    by apply (log_writes_at (start l) 0 hs (blk b) k h). }
  rewrite Wh in W3.
  assert (Ws3 : blk b3 (start l) = hdr_put (blk b (start l)) (lh_n l) (lh_block l)).
  { destruct W3 as (-> & _). rewrite over_notin by (rewrite plain_fst; by apply start_not_home).
    destruct W2 as (-> & _). cbn [over]. unfold put. by rewrite decide_True. }
  rewrite Ws3 in W4. unfold commit_writes.
  apply (writes_trans b b1 b4); [exact W1|]. apply (writes_trans b1 b2 b4 [_]); [exact W2|].
  apply (writes_trans b2 b3 b4); [exact W3|exact W4].
Qed.

(** ** Recovery *)

(** The kernel after a crash that left the disk [d]. *)
Definition reboot (d : gmap Z block) (pid : Z) : lstate :=
  LState (boot d pid) (Log 0 0 0 false 0 0 (replicate (Z.to_nat LOGSIZE) 0)).

Definition startup (logstart nlog : Z) : M lstate unit := bio binit;; initlog ROOTDEV logstart nlog.

(** The header of the log at [st] on disk [d] lists [hs], as [write_head] would. *)
Record header_ok (d : Z -> block) (st : Z) (hs : list Z) : Prop := {
  ho_block : is_block (d st);
  ho_n : hdr_n (d st) = Z.of_nat (length hs);
  ho_blocks : hdr_blocks (d st) = hs;
  ho_short : (length hs < NBUF)%nat;
  ho_home : Forall (fun h => 0 <= h < 2 ^ 31 /\ ~ (st <= h < st + LOGSIZE)) hs;
  ho_nodup : NoDup hs;
}.

(** The writes of recovery; [h0] is the header it leaves. *)
Definition recover_writes (st : Z) (hs : list Z) (v : Z -> block) (h0 : block) : list (Z * block) :=
  home_writes st 0 hs v ++ [(st, h0)].

Lemma startup_spec d st nlog pid hs :
  0 <= st -> st + LOGSIZE < 2 ^ 31 -> header_ok (disk_block d) st hs ->
  exists b l h0, startup st nlog (reboot d pid) = Done tt (LState b l) /\ cache_ok b [] [] /\
    log_wf l [] /\ start l = st /\ log_size l = s32 nlog /\ outstanding l = 0 /\ committing l = false /\
    is_block h0 /\ hdr_n h0 = 0 /\
    trace b = recover_writes st hs (disk_block d) h0 /\
    (forall x, disk_block (disk b) x = over (recover_writes st hs (disk_block d) h0) (disk_block d) x) /\
    (forall x, blk b x = disk_block (disk b) x).
Proof.
  intros H0 H1 [Ob On Obl Osh Oh Ond]. unfold startup, reboot.
  destruct (binit_spec d pid) as (b0 & E0 & Hok0 & Hd0 & Ht0 & _ & Hb0 & _). bstep E0. clear E0.
  assert (Es : s32 st = st) by (apply s32_small; unfold LOGSIZE, MAXOPBLOCKS in *; lia).
  unfold initlog. rewrite bind_set_log. cbn [outstanding committing lh_n lh_block]. rewrite Es.
  set (l0 := Log st (s32 nlog) 0 false ROOTDEV 0 (replicate (Z.to_nat LOGSIZE) 0)).
  assert (Hu : u32 st = st) by (apply u32_small; unfold LOGSIZE, MAXOPBLOCKS in *; lia).
  destruct (read_head_spec b0 l0 Hok0) as (b1 & E1 & Hok1 & W1); [done|done|].
  unfold recover_from_log. mstep E1. change (start l0) with st. rewrite Hb0, Obl, On, Nat2Z.id.
  set (l1 := set_lh _ _ l0).
  assert (Hw : log_wf l1 hs).
  { split; try done.
    - cbn [l1 set_lh lh_block l0]. rewrite length_app, length_drop, length_replicate. unfold NBUF, LOGSIZE, MAXOPBLOCKS in *. lia.
    - cbn [l1 set_lh lh_block]. apply take_app_length. }
  destruct (recover_loop_spec l1 hs [] hs b1 Hw eq_refl Hok1) as (b2 & E2 & Hok2 & W2).
  assert (E2' : install_trans true (LState b1 l1) = Done tt (LState b2 l1)).
  { unfold install_trans. rewrite bind_gets. cbn [lg]. rewrite (lw_n l1 hs Hw), Nat2Z.id. exact E2. }
  mstep E2'. unfold clear_lh. rewrite bind_set_log.
  destruct (write_head_spec b2 (set_lh 0 (lh_block l1) l1) [] Hok2) as (b3 & E3 & Hok3 & W3);
    [done|done|cbn; unfold NBUF; lia|].
  cbn [set_lh start lh_n lh_block] in W3.
  set (h0 := hdr_put (blk b2 (start l1)) 0 (lh_block l1)) in *.
  exists b3, (set_lh 0 (lh_block l1) l1), h0. split; [exact E3|].
  assert (Wall : writes b0 b3 (recover_writes st hs (disk_block d) h0)).
  { apply (writes_trans b0 b1 b3 []); [done|]. unfold recover_writes.
    assert (Ew : home_writes (start l1) (Z.of_nat (length (@nil Z))) hs (blk b1) = home_writes st 0 hs (disk_block d)).
    { apply home_writes_ext. intros i _. destruct W1 as (-> & _). cbn [over]. apply Hb0. }
    rewrite Ew in W2. apply (writes_trans b1 b2 b3); [exact W2|exact W3]. }
  assert (Hh0 : is_block (blk b2 (start l1))).
  { destruct W2 as (-> & _). rewrite over_notin by (rewrite home_writes_fst; by apply (start_not_home l1)).
    destruct W1 as (-> & _). cbn [over]. rewrite Hb0. exact Ob. }
  destruct Wall as (Wb & Wd & Wt & _). rewrite Hd0 in Wd. rewrite Ht0 in Wt.
  split_and!; try done.
  - split; try done.
    + apply (lw_arr l1 hs Hw).
    + cbn. unfold NBUF. lia.
    + apply NoDup_nil_2.
  - by apply hdr_put_block.
  - apply hdr_n_put; [done|]. unfold LOGSIZE, MAXOPBLOCKS. lia.
  - intros x. rewrite Wb, Wd. by apply over_ext.
Qed.

(** ** Every prefix of a commit recovers to all or nothing *)

(** What recovery leaves outside the log, when the header on [f] lists [hs]. *)
Lemma recovered_home l hs' f h0 x :
  home l x -> over (recover_writes (start l) hs' f h0) f x = over (home_writes (start l) 0 hs' f) f x.
Proof.
  intros Hx. unfold recover_writes. rewrite over_app. cbn [over]. unfold put. rewrite decide_False; [done|].
  by apply home_not_start.
Qed.

Lemma header_empty f st : is_block (f st) -> hdr_n (f st) = 0 -> header_ok f st [].
Proof.
  intros H1 H2. split; try done.
  - unfold hdr_blocks. by rewrite H2.
  - cbn. unfold NBUF. lia.
  - apply NoDup_nil_2.
Qed.

Lemma header_full l hs f d :
  log_wf l hs -> is_block d -> f (start l) = hdr_put d (lh_n l) (lh_block l) -> header_ok f (start l) hs.
Proof.
  intros Hw Hd E. pose proof (lw_short l hs Hw) as Hs. split; rewrite ?E.
  - by apply hdr_put_block.
  - rewrite hdr_n_put; [apply (lw_n l hs Hw)|done|]. rewrite (lw_n l hs Hw). unfold LOGSIZE, MAXOPBLOCKS, NBUF in *. lia.
  - by apply hdr_blocks_put.
  - done.
  - apply (lw_home l hs Hw).
  - apply (lw_nodup l hs Hw).
Qed.

Section Crash.
Context (l : log) (hs : list Z) (f v : Z -> block).
Hypothesis Hw : log_wf l hs.
Hypothesis Hblock : is_block (f (start l)).
Hypothesis Hempty : hdr_n (f (start l)) = 0.
Hypothesis Hstart : v (start l) = f (start l).
Hypothesis Hsame : forall x, home l x -> x ∉ hs -> v x = f x.

(** The crash came before the header was written. *)
Lemma crash_before k :
  (k <= length hs)%nat ->
  let g := over (take k (log_writes (start l) 0 hs v)) f in
  header_ok g (start l) [] /\ (forall x, home l x -> over (home_writes (start l) 0 [] g) g x = f x).
Proof.
  intros Hk g.
  assert (Hg : forall x, x ∉ (log_writes (start l) 0 hs v).*1 -> g x = f x).
  { intros x Hx. apply over_notin. rewrite fmap_take. intros Hin. apply Hx. by apply elem_of_take_in with k. }
  split.
  - apply header_empty; rewrite Hg by apply start_not_log; done.
  - intros x Hx. cbn [home_writes over]. apply Hg. by apply (home_not_log l hs).
Qed.

(** The crash came after the header was written and before it was cleared. *)
Lemma crash_after k :
  let h1 := hdr_put (v (start l)) (lh_n l) (lh_block l) in
  let g := over (log_writes (start l) 0 hs v ++ (start l, h1) :: take k (plain hs v)) f in
  header_ok g (start l) hs /\ (forall x, home l x -> over (home_writes (start l) 0 hs g) g x = v x).
Proof.
  intros h1 g.
  assert (Hp : forall x, x ∉ hs -> x ∉ (take k (plain hs v)).*1).
  { intros x Hx Hin. rewrite fmap_take, plain_fst in Hin. apply Hx. by apply elem_of_take_in with k. }
  assert (Hg : forall x, x ∉ hs -> x <> start l -> g x = over (log_writes (start l) 0 hs v) f x).
  { intros x Hx Hne. unfold g. rewrite over_app. cbn [over]. rewrite over_notin by (by apply Hp). unfold put.
    by rewrite decide_False. }
  pose proof (lw_home l hs Hw) as Hh. rewrite list.Forall_forall in Hh.
  assert (Hslots : forall i h, hs !! i = Some h -> g (start l + (0 + Z.of_nat i) + 1) = v h).
  { intros i h Hi. rewrite Hg; [|intros Hin|lia].
    - apply over_in; [apply NoDup_log_writes|]. by apply log_writes_at.
    - pose proof (lookup_lt_Some _ _ _ Hi) as Hlt. apply (home_not_slot l _ (0 + Z.of_nat i) (Hh _ Hin)); [|done].
      by apply (slot_bound l hs i Hw). }
  split.
  - apply (header_full l hs g (v (start l))); [done|by rewrite Hstart|]. unfold g. rewrite over_app. cbn [over].
    rewrite over_notin by (apply Hp; by apply (start_not_home l hs)). unfold put. by rewrite decide_True.
  - intros x Hx. rewrite (home_writes_plain _ _ _ g v Hslots). destruct (decide (x ∈ hs)) as [Hin|Hin].
    + apply over_in; [rewrite plain_fst; apply (lw_nodup l hs Hw)|]. apply list_elem_of_fmap. by exists x.
    + rewrite over_notin by (by rewrite plain_fst). rewrite Hg by (done || by apply home_not_start).
      rewrite over_notin by (by apply (home_not_log l hs)). by rewrite Hsame.
Qed.

(** The whole commit happened. *)
Lemma crash_done :
  let g := over (commit_writes l hs v) f in
  header_ok g (start l) [] /\ (forall x, home l x -> over (home_writes (start l) 0 [] g) g x = v x).
Proof.
  intros g. set (h1 := hdr_put (v (start l)) (lh_n l) (lh_block l)).
  assert (Hs : g (start l) = hdr_put h1 0 (lh_block l)).
  { unfold g, commit_writes. rewrite over_app. cbn [over]. rewrite over_app. cbn [over]. unfold put.
    by rewrite decide_True. }
  split.
  - apply header_empty; rewrite Hs; [apply hdr_put_block; unfold h1; apply hdr_put_block; by rewrite Hstart|].
    apply hdr_n_put; [unfold h1; apply hdr_put_block; by rewrite Hstart|]. unfold LOGSIZE, MAXOPBLOCKS. lia.
  - intros x Hx. cbn [home_writes over]. unfold g, commit_writes. rewrite over_app. cbn [over]. rewrite over_app. cbn [over].
    pose proof (home_not_start l x Hx) as Hne. unfold put at 1. rewrite decide_False by done.
    destruct (decide (x ∈ hs)) as [Hin|Hin].
    + apply over_in; [rewrite plain_fst; apply (lw_nodup l hs Hw)|]. apply list_elem_of_fmap. by exists x.
    + rewrite over_notin by (by rewrite plain_fst). unfold put. rewrite decide_False by done.
      rewrite over_notin by (by apply (home_not_log l hs)). by rewrite Hsame.
Qed.

(** Any prefix: the header after it lists some blocks [hs'], and recovering
    gives the old content of every block, or the new content of every block. *)
Lemma crash_prefix k :
  let g := over (take k (commit_writes l hs v)) f in
  exists hs', header_ok g (start l) hs' /\
    forall x, home l x -> over (home_writes (start l) 0 hs' g) g x = if decide (k <= length hs)%nat then f x else v x.
Proof.
  intros g. set (h1 := hdr_put (v (start l)) (lh_n l) (lh_block l)).
  assert (Hl : length (log_writes (start l) 0 hs v) = length hs).
  { rewrite <-(length_fmap fst), log_writes_fst, length_fmap, length_seqZ. lia. }
  destruct (decide (k <= length hs)%nat) as [Hk|Hk].
  - exists []. unfold g, commit_writes. rewrite take_app_le by lia. by apply crash_before.
  - unfold g, commit_writes. rewrite take_app_ge by lia. rewrite Hl.
    replace (k - length hs)%nat with (S (k - length hs - 1)) by lia. cbn [take]. fold h1.
    destruct (decide (k - length hs - 1 <= length hs)%nat) as [Hj|Hj].
    + exists hs. rewrite take_app_le by (unfold plain; rewrite length_fmap; lia). apply crash_after.
    + exists []. rewrite (firstn_all2 (plain hs v ++ _)).
      * apply crash_done.
      * unfold plain. rewrite length_app, length_fmap. cbn. lia.
Qed.
End Crash.

Lemma header_ok_ext f g st hs : header_ok f st hs -> g st = f st -> header_ok g st hs.
Proof. intros [H1 H2 H3 H4 H5 H6] E. by split; rewrite ?E. Qed.

(** Starting up from a disk that holds [g]. *)
Lemma startup_from l dk g hs pid nlog :
  0 <= start l -> start l + LOGSIZE < 2 ^ 31 -> (forall x, disk_block dk x = g x) -> header_ok g (start l) hs ->
  exists r, startup (start l) nlog (reboot dk pid) = Done tt r /\
    forall x, home l x -> disk_block (disk (bs r)) x = over (home_writes (start l) 0 hs g) g x.
Proof.
  intros H0 H1 Hd Hh.
  destruct (startup_spec dk (start l) nlog pid hs H0 H1) as (b & l' & h0 & E & _ & _ & _ & _ & _ & _ & _ & _ & _ & Hdisk & _).
  { by apply (header_ok_ext g). }
  exists (LState b l'). split; [exact E|]. clear E. intros x Hx. cbn [bs]. rewrite Hdisk, recovered_home by done.
  rewrite (home_writes_ext _ _ _ g) by (intros; apply Hd). by apply over_ext.
Qed.

(** ** Transactions *)

(** A file system call, as the log sees it: each update gets a block, changes its
    data, logs it and releases it. *)
Fixpoint tx (ups : list (Z * (block -> block))) : M lstate unit :=
  match ups with
  | [] => mret tt
  | (x, f) :: ups =>
      i ← bio (bread ROOTDEV x);
      bio (modify (set_buf i (fun b => with_data (f (data b)) b)));;
      log_write i;;
      bio (brelse i);;
      tx ups
  end.

Fixpoint apply_ups (ups : list (Z * (block -> block))) (v : Z -> block) : Z -> block :=
  match ups with
  | [] => v
  | (x, f) :: ups => apply_ups ups (put v x (f (v x)))
  end.

Lemma apply_ups_ext ups v v' : (forall x, v x = v' x) -> forall x, apply_ups ups v x = apply_ups ups v' x.
Proof.
  revert v v'. induction ups as [|[y f] ups IH]; intros v v' H x; cbn [apply_ups]; [done|].
  apply IH. intros z. unfold put. by rewrite !H.
Qed.

(** The log with one more block. *)
Lemma log_wf_add l hs x bl :
  log_wf l hs -> home l x -> x ∉ hs -> (S (length hs) < NBUF)%nat -> bl = <[length hs := x]> (lh_block l) ->
  log_wf (set_lh (lh_n l + 1) bl l) (hs ++ [x]).
Proof.
  intros [H1 H2 H3 H4 H5 H6 H7 H8] Hx Hn Hs ->. split; cbn [set_lh log_dev start lh_n lh_block]; try done.
  - rewrite length_app, H3. cbn. lia.
  - by rewrite length_insert.
  - rewrite length_app. cbn [length]. rewrite Nat.add_1_r.
    rewrite (take_S_r _ _ x); [|apply list_lookup_insert_eq; rewrite H4; unfold NBUF, LOGSIZE, MAXOPBLOCKS in *; lia].
    f_equal. rewrite take_insert_ge by lia. done.
  - rewrite length_app. cbn. lia.
  - apply Forall_app. split; [done|]. by apply Forall_singleton.
  - apply list.NoDup_app. split; [done|]. split; [|apply list.NoDup_singleton].
    intros y Hy ->%list_elem_of_singleton. done.
Qed.

Lemma log_index_spec l hs x :
  Forall (home l) hs -> home l x ->
  match hs !! log_index x hs with Some y => y = x | None => (x ∉ hs) /\ log_index x hs = length hs end.
Proof.
  induction 1 as [|h hs Hh Hhs IH]; intros Hx; cbn [log_index].
  - split; [apply not_elem_of_nil|done].
  - destruct Hh as [Hr _]. rewrite u32_small by lia. destruct (Z.eqb_spec h x) as [->|Hne]; [done|].
    specialize (IH Hx). cbn [lookup list_lookup]. change (list_lookup (log_index x hs) hs) with (hs !! log_index x hs).
    destruct (hs !! log_index x hs); [done|]. destruct IH as [H1 H2]. split; [by apply not_elem_of_cons|cbn; lia].
Qed.

Lemma log_write_spec b l hs P H i x :
  log_wf l hs -> P ≡ₚ hs -> cache_ok b H P -> i ∈ H -> in_cache b i x -> home l x ->
  (S (length hs) < NBUF)%nat -> lh_n l < log_size l - 1 -> 1 <= outstanding l ->
  exists b' l' hs' P', log_write i (LState b l) = Done tt (LState b' l') /\ log_wf l' hs' /\ P' ≡ₚ hs' /\
    cache_ok b' H P' /\ in_cache b' i x /\ writes b b' [] /\ x ∈ P' /\ (forall y, y ∈ hs' <-> y = x \/ y ∈ hs) /\
    (length hs' <= S (length hs))%nat /\
    start l' = start l /\ log_size l' = log_size l /\ outstanding l' = outstanding l /\ committing l' = committing l /\
    (forall j y, in_cache b j y -> in_cache b' j y).
Proof.
  intros Hw HP Hok Hi Hc Hx Hs Hsz Hout. unfold log_write. rewrite bind_gets. cbn [lg].
  pose proof (lw_n l hs Hw) as Hn. pose proof Hc as (Hlt & _ & Hbn).
  destruct (Z.leb_spec LOGSIZE (lh_n l)); [unfold LOGSIZE, MAXOPBLOCKS, NBUF in *; lia|].
  destruct (Z.leb_spec (log_size l - 1) (lh_n l)); [lia|]. cbn [orb].
  destruct (Z.ltb_spec (outstanding l) 1); [lia|].
  assert (Eg : gets (buf_at i) b = Done (buf_at i b) b) by done. bstep Eg. rewrite Hbn.
  rewrite Hn, Nat2Z.id, (lw_blocks l hs Hw).
  pose proof (log_index_spec l hs x (lw_home l hs Hw) Hx) as Hidx.
  assert (Hx32 : s32 x = x) by (destruct Hx as [Hr _]; apply s32_small; lia). rewrite Hx32.
  destruct (hs !! log_index x hs) as [y|] eqn:El.
  - subst y. pose proof (lookup_lt_Some _ _ _ El) as Hll. rewrite decide_False by lia.
    assert (El' : <[log_index x hs := x]> (lh_block l) = lh_block l).
    { apply list_insert_id. assert (El2 : take (length hs) (lh_block l) !! log_index x hs = Some x).
      { by rewrite (lw_blocks l hs Hw). }
      apply lookup_take_Some in El2. apply El2. }
    rewrite El', <-Hn. exists b, l, hs, P. unfold set_log, modify. cbn [bs lg].
    assert (set_lh (lh_n l) (lh_block l) l = l) as -> by (by destruct l). split_and!; try done.
    + by apply writes_nil.
    + rewrite HP. by apply list_elem_of_lookup_2 with (log_index x hs).
    + intros y. split; [by right|]. intros [->|Hy]; [|done]. by apply list_elem_of_lookup_2 with (log_index x hs).
    + lia.
  - destruct Hidx as [Hnin Hidx]. rewrite Hidx. rewrite decide_True by done.
    assert (HnP : x ∉ P) by (by rewrite HP).
    destruct (bpin_spec b H P i x Hok Hi Hc HnP) as (b' & E & Hok' & Es & Hblk). bstep E.
    exists b', (set_lh (lh_n l + 1) (<[length hs := x]> (lh_block l)) l), (hs ++ [x]), (x :: P).
    unfold set_log, modify. cbn [bs lg]. rewrite Hn. split_and!; try done.
    + rewrite <-Hn. by apply log_wf_add.
    + rewrite HP. apply Permutation_cons_append.
    + rewrite Es. by apply in_cache_set_same.
    + apply writes_nil; [done|by rewrite Es..].
    + by left.
    + intros y. rewrite elem_of_app, list_elem_of_singleton. tauto.
    + rewrite length_app. cbn. lia.
    + intros j y Hj. rewrite Es. by apply in_cache_set_same.
Qed.

(** Changes to the cache only. *)
Definition dirties (s s' : bstate) (v : Z -> block) : Prop :=
  (forall x, blk s' x = v x) /\ (forall x, disk_block (disk s') x = disk_block (disk s) x) /\
  trace s' = trace s /\ me s' = me s.

Lemma home_start l l' x : start l' = start l -> home l' x <-> home l x.
Proof. intros E. unfold home. by rewrite E. Qed.

Lemma tx_step b l hs P x f :
  log_wf l hs -> P ≡ₚ hs -> cache_ok b [] P -> home l x -> (S (length hs) < NBUF)%nat -> lh_n l < log_size l - 1 ->
  1 <= outstanding l ->
  exists i b1 b3 b4 l' hs' P',
    bread ROOTDEV x b = Done i b1 /\
    log_write i (LState (set_buf i (fun y => with_data (f (data y)) y) b1) l) = Done tt (LState b3 l') /\
    brelse i b3 = Done tt b4 /\
    log_wf l' hs' /\ P' ≡ₚ hs' /\ cache_ok b4 [] P' /\ dirties b b4 (put (blk b) x (f (blk b x))) /\
    (length hs' <= S (length hs))%nat /\
    start l' = start l /\ log_size l' = log_size l /\ outstanding l' = outstanding l /\ committing l' = committing l.
Proof.
  intros Hw HP Hok Hx Hs Hsz Hout.
  destruct (bread_spec b [] P x Hok) as (i & b1 & E1 & G1).
  { by intros k Hk%not_elem_of_nil. }
  { left. rewrite HP. cbn. lia. }
  pose proof (gb_ok _ _ _ _ _ _ G1) as Hok1. pose proof (gb_cached _ _ _ _ _ _ G1) as Hc1.
  assert (Ed : set_buf i (fun y => with_data (f (data y)) y) b1 = set_buf i (with_data (f (blk b x))) b1).
  { unfold set_buf. f_equal. apply list_alter_ext; [|done]. intros y Hy. rewrite <-(got_data _ _ _ _ _ _ G1).
    unfold buf_at. by rewrite (list_lookup_total_correct _ _ _ Hy). }
  set (b2 := set_buf i (with_data (f (blk b x))) b1).
  assert (Hok2 : cache_ok b2 [i] P) by (apply set_data_ok; [done|by left]).
  assert (D2 : dirties b b2 (put (blk b) x (f (blk b x)))).
  { split; [|split; [|split]].
    - intros y. unfold b2. rewrite (set_data_blk b1 [i] P i (f (blk b x)) x Hok1 Hc1) by (by left).
      unfold put. case_decide; [done|]. apply (gb_blk _ _ _ _ _ _ G1).
    - intros y. cbn. by rewrite (gb_disk _ _ _ _ _ _ G1).
    - apply (gb_trace _ _ _ _ _ _ G1).
    - apply (gb_me _ _ _ _ _ _ G1). }
  destruct (log_write_spec b2 l hs P [i] i x Hw HP Hok2) as
    (b3 & l' & hs' & P' & E3 & Hw' & HP' & Hok3 & Hc3 & W3 & HxP & _ & Hlen & F1 & F2 & F3 & F4 & _);
    [by left|by apply in_cache_set_same|done|done|done|done|].
  destruct (brelse_spec b3 [] P' i x Hok3 Hc3 (or_introl HxP)) as (b4 & E4 & R4).
  exists i, b1, b3, b4, l', hs', P'. rewrite Ed. split_and!; try done; [apply R4|].
  destruct D2 as (D21 & D22 & D23 & D24), W3 as (W31 & W32 & W33 & W34), R4 as [_ R41 R42 R43 R44 _].
  rewrite app_nil_r in W33. cbn [over] in W31, W32. split_and!.
  - intros y. by rewrite R41, W31.
  - intros y. by rewrite R42, W32.
  - by rewrite R43, W33.
  - by rewrite R44, W34.
Qed.

Lemma tx_spec ups b l hs P :
  log_wf l hs -> P ≡ₚ hs -> cache_ok b [] P -> Forall (fun u => home l (fst u)) ups ->
  (length hs + length ups < NBUF)%nat -> Z.of_nat (length hs + length ups) <= log_size l - 1 -> 1 <= outstanding l ->
  exists b' l' hs' P', tx ups (LState b l) = Done tt (LState b' l') /\ log_wf l' hs' /\ P' ≡ₚ hs' /\
    cache_ok b' [] P' /\ dirties b b' (apply_ups ups (blk b)) /\
    start l' = start l /\ log_size l' = log_size l /\ outstanding l' = outstanding l /\ committing l' = committing l.
Proof.
  revert b l hs P. induction ups as [|[x f] ups IH]; intros b l hs P Hw HP Hok Hu Hlen Hsz Hout; cbn [tx apply_ups length] in *.
  { exists b, l, hs, P. by split_and!. }
  apply list.Forall_cons in Hu as [Hx Hu]. cbn in Hx.
  destruct (tx_step b l hs P x f Hw HP Hok Hx) as
    (i & b1 & b3 & b4 & l' & hs' & P' & E1 & E3 & E4 & Hw' & HP' & Hok4 & D4 & Hl' & F1 & F2 & F3 & F4);
    [lia|rewrite (lw_n l hs Hw); lia|done|].
  bstep E1. assert (E2 : modify (set_buf i (fun y => with_data (f (data y)) y)) b1 =
    Done tt (set_buf i (fun y => with_data (f (data y)) y) b1)) by done.
  bstep E2. mstep E3. bstep E4.
  destruct (IH b4 l' hs' P' Hw' HP' Hok4) as (b' & l'' & hs'' & P'' & E & Hw'' & HP'' & Hok' & D' & G1 & G2 & G3 & G4).
  - eapply list.Forall_impl; [exact Hu|]. intros u Hhu. by apply (home_start l l').
  - lia.
  - lia.
  - lia.
  - exists b', l'', hs'', P''. split_and!; try done; try congruence.
    destruct D4 as (A1 & A2 & A3 & A4), D' as (B1 & B2 & B3 & B4). split; [|split_and!; congruence].
    intros y. rewrite B1. by apply apply_ups_ext.
Qed.

(** An idle log: nothing logged, no call under way, an empty header on the disk. *)
Record idle (b : bstate) (l : log) : Prop := {
  id_wf : log_wf l [];
  id_cache : cache_ok b [] [];
  id_out : outstanding l = 0;
  id_comm : committing l = false;
  id_block : is_block (disk_block (disk b) (start l));
  id_header : hdr_n (disk_block (disk b) (start l)) = 0;
}.

Lemma idle_blk b l x : idle b l -> blk b x = disk_block (disk b) x.
Proof.
  intros Hi. apply (blk_clean b [] []); [apply Hi|apply not_elem_of_nil|by intros k Hk%not_elem_of_nil].
Qed.

Definition transaction (ups : list (Z * (block -> block))) : M lstate unit := begin_op;; tx ups;; end_op.

(** The log after [begin_op] and the updates, ready to commit. *)
Lemma transaction_body b l ups :
  idle b l -> Forall (fun u => home l (fst u)) ups -> Z.of_nat (length ups) <= MAXOPBLOCKS -> MAXOPBLOCKS < log_size l ->
  exists b1 l1 hs P,
    (transaction ups) (LState b l) = (commit;; set_log (set_committing false)) (LState b1 l1) /\
    log_wf l1 hs /\ P ≡ₚ hs /\ cache_ok b1 [] P /\ dirties b b1 (apply_ups ups (blk b)) /\ start l1 = start l.
Proof.
  intros [Hw Hok Hout Hcom Hb Hh] Hu Hlen Hsz. unfold transaction, begin_op. rewrite bind_assoc, bind_gets. cbn [lg].
  rewrite Hcom, Hout, (lw_n l [] Hw). cbn [length Z.of_nat].
  match goal with |- context [LOGSIZE <? ?n] => change (LOGSIZE <? n) with false end. cbv iota.
  rewrite bind_set_log. set (l0 := set_outstanding (0 + 1) l).
  assert (Hw0 : log_wf l0 []) by (by destruct Hw; split).
  destruct (tx_spec ups b l0 [] [] Hw0 (reflexivity _) Hok) as
    (b1 & l1 & hs & P & E & Hw1 & HP & Hok1 & D1 & F1 & F2 & F3 & F4).
  { exact Hu. }
  { unfold NBUF, MAXOPBLOCKS in *. cbn. lia. }
  { cbn. unfold MAXOPBLOCKS in *. lia. }
  { done. }
  mstep E. unfold end_op. rewrite bind_set_log, bind_gets. cbn [bs lg set_outstanding committing outstanding].
  rewrite F4, F3. cbn [l0 set_outstanding committing outstanding]. rewrite Hcom.
  match goal with |- context [?n =? 0] => change (n =? 0) with true end. cbv iota.
  rewrite bind_set_log.
  eexists b1, _, hs, P. split; [reflexivity|]. split_and!; try done. by destruct Hw1; split.
Qed.

Lemma commit_nothing b l : log_wf l [] -> commit (LState b l) = Done tt (LState b l).
Proof. intros Hw. unfold commit. rewrite bind_gets. cbn [lg]. by rewrite (lw_n l [] Hw). Qed.

(** What a commit leaves outside the log: every block's logical content. *)
Lemma commit_home l hs v f x :
  log_wf l hs -> home l x -> (forall y, home l y -> y ∉ hs -> v y = f y) -> over (commit_writes l hs v) f x = v x.
Proof.
  intros Hw Hx Hsame. unfold commit_writes. rewrite over_app. cbn [over]. rewrite over_app. cbn [over].
  pose proof (home_not_start l x Hx) as Hne. unfold put at 1. rewrite decide_False by done.
  destruct (decide (x ∈ hs)) as [Hin|Hin].
  - apply over_in; [rewrite plain_fst; apply (lw_nodup l hs Hw)|]. apply list_elem_of_fmap. by exists x.
  - rewrite over_notin by (by rewrite plain_fst). unfold put. rewrite decide_False by done.
    rewrite over_notin by (by apply (home_not_log l hs)). by rewrite Hsame.
Qed.

(** ** Theorems *)

(** C3: a transaction is atomic.  A call that brackets at most [MAXOPBLOCKS]
    block updates by [begin_op] and [end_op] on an idle log returns and leaves
    its updates on the disk; and if the machine crashes after any number [k] of
    its disk writes, the kernel boots, and recovery leaves every block outside
    the log as it was before the call or every block as after it, before or
    after according to whether the commit point [c] was reached. *)
Theorem transaction_atomic b l ups :
  idle b l -> Forall (fun u => home l (fst u)) ups -> Z.of_nat (length ups) <= MAXOPBLOCKS -> MAXOPBLOCKS < log_size l ->
  exists b' l' W c, transaction ups (LState b l) = Done tt (LState b' l') /\ trace b' = trace b ++ W /\
    (W = [] \/ (c < length W)%nat) /\
    (forall x, home l x -> disk_block (disk b') x = apply_ups ups (disk_block (disk b)) x) /\
    forall k dk pid, (forall x, disk_block dk x = over (take k W) (disk_block (disk b)) x) ->
      exists r, startup (start l) (log_size l) (reboot dk pid) = Done tt r /\
        forall x, home l x -> disk_block (disk (bs r)) x =
          if decide (k <= c)%nat then disk_block (disk b) x else apply_ups ups (disk_block (disk b)) x.
Proof.
  intros Hi Hu Hlen Hsz.
  destruct (transaction_body b l ups Hi Hu Hlen Hsz) as (b1 & l1 & hs & P & E & Hw & HP & Hok1 & (D1 & D2 & D3 & D4) & Hst).
  set (f := disk_block (disk b)).
  assert (Hf : forall x, apply_ups ups (blk b) x = apply_ups ups f x).
  { apply apply_ups_ext. intros x. by apply (idle_blk b l). }
  assert (Hclean : forall x, x ∉ hs -> blk b1 x = f x).
  { intros x Hx. unfold f. rewrite <-D2. apply (blk_clean b1 [] P); [done|by rewrite HP|by intros k Hk%not_elem_of_nil]. }
  pose proof (lw_start l [] (id_wf b l Hi)) as [Hs0 Hs1].
  destruct (decide (hs = [])) as [->|Hne].
  { exists b1, (set_committing false l1), [], 0%nat. rewrite E. mstep (commit_nothing b1 l1 Hw).
    assert (Hnew : forall x, apply_ups ups f x = f x).
    { intros x. rewrite <-Hf, <-D1. apply Hclean, not_elem_of_nil. }
    split_and!; try done; [by rewrite app_nil_r|by left| |].
    - intros x _. by rewrite D2, Hnew.
    - intros k dk pid Hd. rewrite take_nil in Hd. cbn [over] in Hd.
      destruct (startup_from l dk f [] pid (log_size l) Hs0 Hs1 Hd) as (r & Er & Hr).
      + apply header_empty; [apply (id_block b l Hi)|apply (id_header b l Hi)].
      + exists r. split; [exact Er|]. clear Er. intros x Hx. rewrite Hr by done. cbn. case_decide; [done|]. by rewrite Hnew. }
  destruct (commit_spec b1 l1 hs P Hw Hne HP Hok1) as (b2 & Ec & Hok2 & (W1 & W2 & W3 & W4)).
  assert (Hhome : forall x, home l1 x <-> home l x) by (intros x; by apply home_start).
  set (W := commit_writes l1 hs (blk b1)) in *.
  exists b2, (set_committing false (set_lh 0 (lh_block l1) l1)), W, (length hs).
  assert (Hs : blk b1 (start l1) = f (start l1)) by (apply Hclean, (start_not_home l1); done).
  assert (Hcp : forall k, exists hs', header_ok (over (take k W) f) (start l1) hs' /\
    forall x, home l1 x -> over (home_writes (start l1) 0 hs' (over (take k W) f)) (over (take k W) f) x =
      if decide (k <= length hs)%nat then f x else blk b1 x).
  { intros k. apply (crash_prefix l1 hs f (blk b1)); [done| | |done|].
    - rewrite Hst. apply (id_block b l Hi).
    - rewrite Hst. apply (id_header b l Hi).
    - intros x _. apply Hclean. }
  split_and!.
  - rewrite E. mstep Ec. done.
  - by rewrite W3, D3.
  - right. unfold W, commit_writes. rewrite length_app. cbn. rewrite length_app.
    rewrite <-(length_fmap fst), log_writes_fst, length_fmap, length_seqZ. cbn. lia.
  - intros x Hx. rewrite W2, <-Hf, <-D1. unfold W. rewrite (over_ext _ _ f D2). apply commit_home; [done|by apply Hhome|].
    intros y _. apply Hclean.
  - intros k dk pid Hd. destruct (Hcp k) as (hs' & Hh & Hr). rewrite Hst in Hh, Hr.
    destruct (startup_from l dk (over (take k W) f) hs' pid (log_size l) Hs0 Hs1 Hd Hh) as (r & Er & Hrr).
    exists r. split; [exact Er|]. clear Er. intros x Hx. rewrite Hrr, Hr by (done || by apply Hhome).
    case_decide; [done|]. by rewrite D1.
Qed.

(** Recovery may itself crash.  If the machine crashes after any number of
    the writes of a recovery and recovers again, every block outside the log
    ends up as if the first recovery had not been interrupted. *)
Theorem recovery_idempotent d st nlog hs k dk pid pid' :
  0 <= st -> st + LOGSIZE < 2 ^ 31 -> header_ok (disk_block d) st hs ->
  exists r, startup st nlog (reboot d pid) = Done tt r /\
    ((forall x, disk_block dk x = over (take k (trace (bs r))) (disk_block d) x) ->
     exists r', startup st nlog (reboot dk pid') = Done tt r' /\
       forall x, 0 <= x < 2 ^ 31 -> ~ (st <= x < st + LOGSIZE) ->
         disk_block (disk (bs r')) x = disk_block (disk (bs r)) x).
Proof.
  intros H0 H1 Hh.
  destruct (startup_spec d st nlog pid hs H0 H1 Hh) as (b & l & h0 & E & _ & Hwl & Hst & _ & _ & _ & Hb0 & Hn0 & Ht & Hdisk & _).
  exists (LState b l). split; [exact E|]. clear E. cbn [bs]. rewrite Ht. intros Hd. subst st. set (f := disk_block d) in *.
  assert (Hres : forall x, home l x -> disk_block (disk b) x = over (home_writes (start l) 0 hs f) f x).
  { intros x Hx. rewrite Hdisk. by apply recovered_home. }
  pose proof (ho_home _ _ _ Hh) as Hhome. rewrite list.Forall_forall in Hhome.
  assert (Hhs : start l ∉ hs) by (intros Hin; by apply (home_not_start l (start l) (Hhome _ Hin))).
  destruct (decide (k <= length hs)%nat) as [Hk|Hk].
  - assert (Hl : length (home_writes (start l) 0 hs f) = length hs) by (by rewrite <-(length_fmap fst), home_writes_fst).
    unfold recover_writes in Hd. rewrite take_app_le in Hd by lia.
    set (g := over (take k (home_writes (start l) 0 hs f)) f) in *.
    assert (Hg : forall x, x ∉ hs -> g x = f x).
    { intros x Hx. apply over_notin. rewrite fmap_take, home_writes_fst. intros Hin. apply Hx. by apply elem_of_take_in with k. }
    destruct (startup_from l dk g hs pid' nlog H0 H1 Hd) as (r & Er & Hr); [apply (header_ok_ext f); [done|by apply Hg]|].
    exists r. split; [exact Er|]. clear Er. intros x Hx Hx'. rewrite Hr, Hres by (by split).
    assert (Ew : home_writes (start l) 0 hs g = home_writes (start l) 0 hs f).
    { apply home_writes_ext. intros i Hi. apply Hg. intros Hin. apply (home_not_slot l _ i (Hhome _ Hin)); [|done].
      pose proof (ho_short _ _ _ Hh). unfold NBUF, LOGSIZE, MAXOPBLOCKS in *. lia. }
    rewrite Ew. destruct (decide (x ∈ hs)) as [Hin|Hin].
    + assert (exists v, (x, v) ∈ home_writes (start l) 0 hs f) as [v Hv].
      { rewrite <-(home_writes_fst (start l) 0 hs f) in Hin. apply list_elem_of_fmap in Hin as ([x' v] & -> & Hv). by exists v. }
      assert (Hnd : NoDup (home_writes (start l) 0 hs f).*1) by (rewrite home_writes_fst; apply (ho_nodup _ _ _ Hh)).
      by rewrite !(over_in _ _ x v Hnd Hv).
    + rewrite !over_notin by (by rewrite home_writes_fst). by apply Hg.
  - rewrite firstn_all2 in Hd.
    2:{ unfold recover_writes. rewrite length_app, <-(length_fmap fst), home_writes_fst. cbn. lia. }
    destruct (startup_from l dk _ [] pid' nlog H0 H1 Hd) as (r & Er & Hr).
    { assert (Hs0 : over (recover_writes (start l) hs f h0) f (start l) = h0).
      { unfold recover_writes. rewrite over_app. cbn [over]. unfold put. by rewrite decide_True. }
      apply header_empty; by rewrite Hs0. }
    exists r. split; [exact Er|]. clear Er. intros x Hx Hx'. rewrite Hr by (by split). rewrite Hdisk. reflexivity.
Qed.

(** The kernel after startup is idle. *)
Lemma startup_idle d st nlog pid hs :
  0 <= st -> st + LOGSIZE < 2 ^ 31 -> header_ok (disk_block d) st hs ->
  exists b l, startup st nlog (reboot d pid) = Done tt (LState b l) /\ idle b l /\ start l = st /\ log_size l = s32 nlog.
Proof.
  intros H0 H1 Hh.
  destruct (startup_spec d st nlog pid hs H0 H1 Hh) as
    (b & l & h0 & E & Hok & Hw & Hst & Hsz & Ho & Hc & Hb0 & Hn0 & _ & Hdisk & _).
  assert (Hs : disk_block (disk b) st = h0).
  { rewrite Hdisk. unfold recover_writes. rewrite over_app. cbn [over]. unfold put. by rewrite decide_True. }
  exists b, l. split; [exact E|]. clear E. split; [|done]. split; [done|done|done|done|by rewrite Hst, Hs..].
Qed.

Lemma zero_header : header_ok (disk_block ∅) 2 [].
Proof. apply header_empty; [apply is_block_zero|vm_compute; reflexivity]. Qed.

(** The log is one block shorter than the space [begin_op] hands out.  With a
    log of [LOGSIZE] blocks, as mkfs makes it, three calls that run together may
    each log [MAXOPBLOCKS] blocks; [log_write] panics on the last of these. *)
Theorem log_reservation_falls_short :
  (startup 2 LOGSIZE;; begin_op;; begin_op;; begin_op;;
   tx ((fun b => (b, fun d => d)) <$> seqZ 100 (3 * MAXOPBLOCKS))) (reboot ∅ 1) = Panic "too big a transaction".
Proof. vm_compute. reflexivity. Qed.

Definition demo_ups : list (Z * (block -> block)) := [(100, fun _ => replicate 1024 7)].

Lemma transaction_atomic_witness :
  exists b l b' l', idle b l /\ transaction demo_ups (LState b l) = Done tt (LState b' l') /\
    disk_block (disk b') 100 = replicate 1024 7.
Proof.
  destruct (startup_idle ∅ 2 30 1 [] ltac:(lia) ltac:(unfold LOGSIZE, MAXOPBLOCKS; lia) zero_header)
    as (b & l & E & Hi & Hst & Hsz). clear E.
  assert (Hh : home l 100) by (unfold home; rewrite Hst; unfold LOGSIZE, MAXOPBLOCKS; lia).
  destruct (transaction_atomic b l demo_ups Hi) as (b' & l' & W & c & E & _ & _ & Hd & _).
  - apply Forall_singleton. exact Hh.
  - cbn. unfold MAXOPBLOCKS. lia.
  - rewrite Hsz. reflexivity.
  - exists b, l, b', l'. split; [exact Hi|]. split; [exact E|]. clear E. rewrite (Hd 100 Hh). reflexivity.
Defined.

Definition torn_disk : gmap Z block :=
  <[2 := hdr_put zero_block 1 [50]]> (<[3 := replicate 1024 9]> ∅).

Lemma torn_header : header_ok (disk_block torn_disk) 2 [50].
Proof.
  split.
  - vm_compute. reflexivity.
  - vm_compute. reflexivity.
  - vm_compute. reflexivity.
  - unfold NBUF. cbn. lia.
  - apply Forall_singleton. unfold LOGSIZE, MAXOPBLOCKS. lia.
  - apply list.NoDup_singleton.
Qed.

Lemma recovery_idempotent_witness :
  exists r, startup 2 30 (reboot torn_disk 1) = Done tt r /\
    exists r', startup 2 30 (reboot (<[50 := replicate 1024 9]> torn_disk) 2) = Done tt r' /\
      disk_block (disk (bs r')) 50 = disk_block (disk (bs r)) 50.
Proof.
  destruct (recovery_idempotent torn_disk 2 30 [50] 1 (<[50 := replicate 1024 9]> torn_disk) 1 2)
    as (r & E & H); [lia|unfold LOGSIZE, MAXOPBLOCKS; lia|exact torn_header|].
  exists r. split; [exact E|].
  assert (Ht : trace (bs r) = [(50, replicate 1024 9); (2, hdr_put (hdr_put zero_block 1 [50]) 0 [])]).
  { assert (G : match startup 2 30 (reboot torn_disk 1) with Done _ r => trace (bs r) | _ => [] end =
      [(50, replicate 1024 9); (2, hdr_put (hdr_put zero_block 1 [50]) 0 [])]) by (vm_compute; reflexivity).
    rewrite E in G. exact G. }
  destruct H as (r' & E' & H').
  - intros x. rewrite Ht. cbn [take over]. unfold put, disk_block. case_decide as Ex.
    + subst x. rewrite lookup_insert_eq. reflexivity.
    + rewrite lookup_insert_ne by (intros <-; apply Ex; reflexivity). reflexivity.
  - exists r'. split; [exact E'|]. apply H'; [lia|unfold LOGSIZE, MAXOPBLOCKS; lia].
Defined.
