(* ===== verification/Fs.v ===== *)
(** * The file system, [kernel/fs.c]

    The layers above the log: block allocator, inodes, file content, directories
    and path names.  Disk blocks are reached through the interface [Blocks], which
    the log and the buffer cache implement; inode pointers are indices into the
    inode table and a null pointer is [None].  A process that waits for a lock it
    cannot get is [Hang].  The memory that [either_copyout] writes and
    [either_copyin] reads is a parameter of [readi] and [writei]. *)

From S2P Require Import Prelude Mem CString Block Sleeplock.

(** What the file system uses of the layers below: [bread], the data of a buffer,
    [log_write], [brelse], [initlog] and the pid of the running process. *)
Class Blocks (S : Type) := {
  b_read : Z -> Z -> M S nat;
  b_data : nat -> S -> block;
  b_set : nat -> block -> M S unit;
  b_log : nat -> M S unit;
  b_relse : nat -> M S unit;
  b_initlog : Z -> Z -> Z -> M S unit;
  b_pid : S -> Z;
}.

(** ** kernel/fs.h, kernel/stat.h, kernel/param.h *)

Definition ROOTINO : Z := 1.
Definition FSMAGIC : Z := 0x10203040.
Definition NDIRECT : Z := 12.
Definition NINDIRECT : Z := BSIZE / 4.
Definition MAXFILE : Z := NDIRECT + NINDIRECT.
Definition IPB : Z := BSIZE / 64.
Definition BPB : Z := BSIZE * 8.
Definition DIRSIZ : Z := 14.
Definition T_DIR : Z := 1.
Definition T_FILE : Z := 2.
Definition T_DEVICE : Z := 3.
Definition NINODE : nat := 50.

(** [struct superblock] *)
Record superblock := Superblock {
  sb_magic : Z; sb_size : Z; sb_nblocks : Z; sb_ninodes : Z;
  sb_nlog : Z; sb_logstart : Z; sb_inodestart : Z; sb_bmapstart : Z;
}.

Definition IBLOCK (i : Z) (s : superblock) : Z := u32 (i / IPB + sb_inodestart s).
Definition BBLOCK (b : Z) (s : superblock) : Z := u32 (b / BPB + sb_bmapstart s).

(** [struct inode] of kernel/file.h *)
Record inode := Inode {
  i_dev : Z; i_inum : Z; i_ref : Z; i_lock : sleeplock; i_valid : bool;
  i_type : Z; i_major : Z; i_minor : Z; i_nlink : Z; i_size : Z; i_addrs : list Z;
}.

#[export] Instance inode_inhabited : Inhabited inode :=
  populate (Inode 0 0 0 (initsleeplock "") false 0 0 0 0 0 (replicate 13 0)).

(** The state: the blocks, [sb] and [itable]. *)
Record fstate (S : Type) := FState { blocks : S; sb : superblock; itable : list inode }.
Arguments FState {S} _ _ _.
Arguments blocks {S} _.
Arguments sb {S} _.
Arguments itable {S} _.

Definition with_ref (r : Z) (i : inode) : inode :=
  Inode (i_dev i) (i_inum i) r (i_lock i) (i_valid i) (i_type i) (i_major i) (i_minor i) (i_nlink i) (i_size i) (i_addrs i).
Definition with_ilock (l : sleeplock) (i : inode) : inode :=
  Inode (i_dev i) (i_inum i) (i_ref i) l (i_valid i) (i_type i) (i_major i) (i_minor i) (i_nlink i) (i_size i) (i_addrs i).
Definition with_ivalid (v : bool) (i : inode) : inode :=
  Inode (i_dev i) (i_inum i) (i_ref i) (i_lock i) v (i_type i) (i_major i) (i_minor i) (i_nlink i) (i_size i) (i_addrs i).
Definition with_type (t : Z) (i : inode) : inode :=
  Inode (i_dev i) (i_inum i) (i_ref i) (i_lock i) (i_valid i) t (i_major i) (i_minor i) (i_nlink i) (i_size i) (i_addrs i).
Definition with_nlink (n : Z) (i : inode) : inode :=
  Inode (i_dev i) (i_inum i) (i_ref i) (i_lock i) (i_valid i) (i_type i) (i_major i) (i_minor i) n (i_size i) (i_addrs i).
Definition with_size (n : Z) (i : inode) : inode :=
  Inode (i_dev i) (i_inum i) (i_ref i) (i_lock i) (i_valid i) (i_type i) (i_major i) (i_minor i) (i_nlink i) n (i_addrs i).
Definition with_addrs (a : list Z) (i : inode) : inode :=
  Inode (i_dev i) (i_inum i) (i_ref i) (i_lock i) (i_valid i) (i_type i) (i_major i) (i_minor i) (i_nlink i) (i_size i) a.

(** ** Structures in blocks *)

Definition sb_of (d : block) : superblock :=
  Superblock (ld32 d 0) (ld32 d 4) (ld32 d 8) (ld32 d 12) (ld32 d 16) (ld32 d 20) (ld32 d 24) (ld32 d 28).

(** The byte offset of inode [inum] in its block. *)
Definition dinode_off (inum : Z) : Z := inum mod IPB * 64.

(** [memmove(ip->addrs, dip->addrs, sizeof(ip->addrs))] *)
Definition get_addrs (d : block) (o : Z) : list Z := (fun i => ld32 d (o + 12 + 4 * i)) <$> seqZ 0 13.

Fixpoint put_addrs (d : block) (o : Z) (a : list Z) : block :=
  match a with
  | [] => d
  | x :: a => put_addrs (st32 d o x) (o + 4) a
  end.

(** The assignments of [ilock] and of [iupdate]. *)
Definition dinode_get (d : block) (o : Z) (i : inode) : inode :=
  Inode (i_dev i) (i_inum i) (i_ref i) (i_lock i) (i_valid i) (s16 (ld16 d o)) (s16 (ld16 d (o + 2))) (s16 (ld16 d (o + 4)))
    (s16 (ld16 d (o + 6))) (ld32 d (o + 8)) (get_addrs d o).

Definition dinode_put (d : block) (o : Z) (i : inode) : block :=
  put_addrs (st32 (st16 (st16 (st16 (st16 d o (i_type i)) (o + 2) (i_major i)) (o + 4) (i_minor i)) (o + 6) (i_nlink i))
    (o + 8) (i_size i)) (o + 12) (i_addrs i).

(** The bit of block [bi] in a bitmap block: [bp->data[bi/8] & (1 << (bi % 8))]. *)
Definition bit_set (d : block) (bi : Z) : bool :=
  negb (Z.land (nth (Z.to_nat (bi / 8)) d 0) (Z.shiftl 1 (bi mod 8)) =? 0).
Definition mark (d : block) (bi : Z) : block :=
  <[Z.to_nat (bi / 8) := Z.lor (nth (Z.to_nat (bi / 8)) d 0) (Z.shiftl 1 (bi mod 8))]> d.
Definition unmark (d : block) (bi : Z) : block :=
  <[Z.to_nat (bi / 8) := Z.land (nth (Z.to_nat (bi / 8)) d 0) (u8 (Z.lnot (Z.shiftl 1 (bi mod 8))))]> d.

Section Fs.
Context {S : Type} `{!Blocks S}.

Abbreviation F := (M (fstate S)).

Definition blk_op {A} (m : M S A) : F A := lift blocks (fun b s => FState b (sb s) (itable s)) m.
Definition ino (ip : nat) (s : fstate S) : inode := itable s !!! ip.
Definition set_ino (ip : nat) (f : inode -> inode) : F unit :=
  modify (fun s => FState (blocks s) (sb s) (alter f ip (itable s))).

Definition get_data (bp : nat) : F block := gets (fun s => b_data bp (blocks s)).
Definition set_data (bp : nat) (d : block) : F unit := blk_op (b_set bp d).

(** ** Super block *)

Definition readsb (dev : Z) : F unit :=
  bp ← blk_op (b_read dev 1);
  d ← get_data bp;
  modify (fun s => FState (blocks s) (sb_of d) (itable s));;
  blk_op (b_relse bp).

Definition fsinit (dev : Z) : F unit :=
  readsb dev;;
  s ← gets sb;
  if negb (sb_magic s =? FSMAGIC) then panic "invalid file system"
  else blk_op (b_initlog dev (sb_logstart s) (sb_nlog s)).

(** ** Blocks *)

Definition bzero (dev bno : Z) : F unit :=
  bp ← blk_op (b_read dev bno);
  set_data bp zero_block;;
  blk_op (b_log bp);;
  blk_op (b_relse bp).

(** The inner loop of [balloc]: the first free bit from [bi] on. *)
Fixpoint balloc_scan (rem : nat) (d : block) (b bi size : Z) : option Z :=
  match rem with
  | O => None
  | Datatypes.S rem =>
      if b + bi <? size then
        if bit_set d bi then balloc_scan rem d b (bi + 1) size else Some bi
      else None
  end.

Fixpoint balloc_loop (fuel : nat) (dev b : Z) : F Z :=
  s ← gets sb;
  if b <? sb_size s then
    match fuel with
    | O => hang
    | Datatypes.S fuel =>
        bp ← blk_op (b_read dev (BBLOCK b s));
        d ← get_data bp;
        match balloc_scan (Z.to_nat BPB) d b 0 (sb_size s) with
        | Some bi =>
            set_data bp (mark d bi);;
            blk_op (b_log bp);;
            blk_op (b_relse bp);;
            bzero dev (b + bi);;
            mret (b + bi)
        | None =>
            blk_op (b_relse bp);;
            balloc_loop fuel dev (b + BPB)
        end
    end
  else mret 0.

Definition balloc (dev : Z) : F Z :=
  s ← gets sb; balloc_loop (Datatypes.S (Z.to_nat (sb_size s / BPB))) dev 0.

Definition bfree (dev b : Z) : F unit :=
  s ← gets sb;
  bp ← blk_op (b_read dev (BBLOCK b s));
  d ← get_data bp;
  let bi := b mod BPB in
  if negb (bit_set d bi) then panic "freeing free block"
  else
    set_data bp (unmark d bi);;
    blk_op (b_log bp);;
    blk_op (b_relse bp).

(** ** Inodes *)

Definition iinit : F unit :=
  modify (fun s => FState (blocks s) (sb s) (with_ilock (initsleeplock "inode") <$> itable s)).

(** The loop of [iget]: the entry for the inode, and the first free entry. *)
Fixpoint iget_scan (its : list inode) (k : nat) (dev inum : Z) (empty : option nat) : option nat * option nat :=
  match its with
  | [] => (None, empty)
  | i :: its =>
      if (0 <? i_ref i) && (i_dev i =? dev) && (i_inum i =? inum) then (Some k, empty)
      else iget_scan its (Datatypes.S k) dev inum
             (match empty with None => if i_ref i =? 0 then Some k else None | e => e end)
  end.

Definition iget (dev inum : Z) : F nat := fun s =>
  match iget_scan (itable s) 0 dev inum None with
  | (Some ip, _) => (set_ino ip (fun i => with_ref (s32 (i_ref i + 1)) i);; mret ip) s
  | (None, None) => Panic "iget: no inodes"
  | (None, Some ip) =>
      (set_ino ip (fun i => Inode dev inum 1 (i_lock i) false (i_type i) (i_major i) (i_minor i) (i_nlink i) (i_size i)
                              (i_addrs i));;
       mret ip) s
  end.

Definition idup (ip : nat) : F nat :=
  set_ino ip (fun i => with_ref (s32 (i_ref i + 1)) i);; mret ip.

Fixpoint ialloc_loop (fuel : nat) (dev type inum : Z) : F (option nat) :=
  s ← gets sb;
  if inum <? sb_ninodes s then
    match fuel with
    | O => hang
    | Datatypes.S fuel =>
        bp ← blk_op (b_read dev (IBLOCK inum s));
        d ← get_data bp;
        let o := dinode_off inum in
        if s16 (ld16 d o) =? 0 then
          set_data bp (st16 (splice d o (replicate 64 0)) o type);;
          blk_op (b_log bp);;
          blk_op (b_relse bp);;
          ip ← iget dev inum;
          mret (Some ip)
        else
          blk_op (b_relse bp);;
          ialloc_loop fuel dev type (inum + 1)
    end
  else mret None.

Definition ialloc (dev type : Z) : F (option nat) :=
  s ← gets sb; ialloc_loop (Z.to_nat (sb_ninodes s)) dev type 1.

Definition iupdate (ip : nat) : F unit :=
  i ← gets (ino ip);
  s ← gets sb;
  bp ← blk_op (b_read (i_dev i) (IBLOCK (i_inum i) s));
  d ← get_data bp;
  set_data bp (dinode_put d (dinode_off (i_inum i)) i);;
  blk_op (b_log bp);;
  blk_op (b_relse bp).

(** [acquiresleep(&ip->lock)] *)
Definition acquire_ino (ip : nat) : F unit := fun s =>
  match acquiresleep (b_pid (blocks s)) (i_lock (ino ip s)) with
  | None => Hang
  | Some l => set_ino ip (with_ilock l) s
  end.

Definition ilock (ip : nat) : F unit :=
  i ← gets (ino ip);
  if i_ref i <? 1 then panic "ilock"
  else
    acquire_ino ip;;
    i ← gets (ino ip);
    if i_valid i then mret tt
    else
      s ← gets sb;
      bp ← blk_op (b_read (i_dev i) (IBLOCK (i_inum i) s));
      d ← get_data bp;
      set_ino ip (dinode_get d (dinode_off (i_inum i)));;
      blk_op (b_relse bp);;
      set_ino ip (with_ivalid true);;
      i ← gets (ino ip);
      if i_type i =? 0 then panic "ilock: no type" else mret tt.

Definition iunlock (ip : nat) : F unit := fun s =>
  let i := ino ip s in
  if negb (holdingsleep (b_pid (blocks s)) (i_lock i)) || (i_ref i <? 1) then Panic "iunlock"
  else set_ino ip (fun i => with_ilock (releasesleep (i_lock i)) i) s.

(** ** File content *)

Definition addr_at (i : inode) (k : Z) : Z := nth (Z.to_nat k) (i_addrs i) 0.
Definition set_addr (ip : nat) (k a : Z) : F unit :=
  set_ino ip (fun i => with_addrs (<[Z.to_nat k := a]> (i_addrs i)) i).

Definition bmap (ip : nat) (bn : Z) : F Z :=
  i ← gets (ino ip);
  if bn <? NDIRECT then
    if addr_at i bn =? 0 then
      addr ← balloc (i_dev i);
      if addr =? 0 then mret 0
      else set_addr ip bn addr;; mret addr
    else mret (addr_at i bn)
  else
    let bn := bn - NDIRECT in
    if bn <? NINDIRECT then
      addr ← (if addr_at i NDIRECT =? 0 then
                addr ← balloc (i_dev i);
                if addr =? 0 then mret 0
                else set_addr ip NDIRECT addr;; mret addr
              else mret (addr_at i NDIRECT));
      if addr =? 0 then mret 0
      else
        bp ← blk_op (b_read (i_dev i) addr);
        d ← get_data bp;
        addr ← (if ld32 d (4 * bn) =? 0 then
                  addr ← balloc (i_dev i);
                  (if negb (addr =? 0) then
                     d ← get_data bp;
                     set_data bp (st32 d (4 * bn) addr);;
                     blk_op (b_log bp)
                   else mret tt);;
                  mret addr
                else mret (ld32 d (4 * bn)));
        blk_op (b_relse bp);;
        mret addr
    else panic "bmap: out of range".

(** The loops of [itrunc]. *)
Fixpoint itrunc_direct (rem : nat) (ip : nat) (k : Z) : F unit :=
  match rem with
  | O => mret tt
  | Datatypes.S rem =>
      i ← gets (ino ip);
      (if negb (addr_at i k =? 0) then bfree (i_dev i) (addr_at i k);; set_addr ip k 0 else mret tt);;
      itrunc_direct rem ip (k + 1)
  end.

Fixpoint itrunc_indirect (rem : nat) (dev : Z) (bp : nat) (j : Z) : F unit :=
  match rem with
  | O => mret tt
  | Datatypes.S rem =>
      d ← get_data bp;
      (if negb (ld32 d (4 * j) =? 0) then bfree dev (ld32 d (4 * j)) else mret tt);;
      itrunc_indirect rem dev bp (j + 1)
  end.

Definition itrunc (ip : nat) : F unit :=
  itrunc_direct (Z.to_nat NDIRECT) ip 0;;
  i ← gets (ino ip);
  (if negb (addr_at i NDIRECT =? 0) then
     bp ← blk_op (b_read (i_dev i) (addr_at i NDIRECT));
     itrunc_indirect (Z.to_nat NINDIRECT) (i_dev i) bp 0;;
     blk_op (b_relse bp);;
     bfree (i_dev i) (addr_at i NDIRECT);;
     set_addr ip NDIRECT 0
   else mret tt);;
  set_ino ip (with_size 0);;
  iupdate ip.

Definition iput (ip : nat) : F unit :=
  i ← gets (ino ip);
  (if (i_ref i =? 1) && i_valid i && (i_nlink i =? 0) then
     acquire_ino ip;;
     itrunc ip;;
     set_ino ip (with_type 0);;
     iupdate ip;;
     set_ino ip (with_ivalid false);;
     set_ino ip (fun i => with_ilock (releasesleep (i_lock i)) i)
   else mret tt);;
  set_ino ip (fun i => with_ref (s32 (i_ref i - 1)) i).

Definition iunlockput (ip : nat) : F unit := iunlock ip;; iput ip.

(** [struct stat] and [stati]. *)
Record stat := Stat { st_dev : Z; st_ino : Z; st_type : Z; st_nlink : Z; st_size : Z }.

Definition stati (ip : nat) : F stat :=
  gets (fun s => let i := ino ip s in Stat (i_dev i) (i_inum i) (i_type i) (i_nlink i) (i_size i)).

(** [readi]: [out o m] says whether [either_copyout] of [m] bytes to [dst + o]
    succeeds.  The result is the return value and the bytes copied out. *)
Fixpoint readi_loop (fuel : nat) (ip : nat) (out : Z -> Z -> bool) (off n tot : Z) (acc : list Z) : F (Z * list Z) :=
  if tot <? n then
    match fuel with
    | O => hang
    | Datatypes.S fuel =>
        addr ← bmap ip (off / BSIZE);
        if addr =? 0 then mret (tot, acc)
        else
          i ← gets (ino ip);
          bp ← blk_op (b_read (i_dev i) addr);
          d ← get_data bp;
          let m := Z.min (n - tot) (BSIZE - off mod BSIZE) in
          if out tot m then
            blk_op (b_relse bp);;
            readi_loop fuel ip out (off + m) n (tot + m) (acc ++ slice d (off mod BSIZE) m)
          else
            blk_op (b_relse bp);;
            mret (-1, acc)
    end
  else mret (tot, acc).

Definition readi (ip : nat) (out : Z -> Z -> bool) (off n : Z) : F (Z * list Z) :=
  i ← gets (ino ip);
  if (i_size i <? off) || (u32 (off + n) <? off) then mret (0, [])
  else
    let n := if i_size i <? u32 (off + n) then i_size i - off else n in
    readi_loop (Z.to_nat (n / BSIZE + 2)) ip out off n 0 [].

(** [writei]: [src o m] is what [either_copyin] of [m] bytes from [src + o] puts
    into the buffer, and whether it succeeds (a failing one may have copied part). *)
Fixpoint writei_loop (fuel : nat) (ip : nat) (src : Z -> Z -> list Z * bool) (off n tot : Z) : F (Z * Z) :=
  if tot <? n then
    match fuel with
    | O => hang
    | Datatypes.S fuel =>
        addr ← bmap ip (off / BSIZE);
        if addr =? 0 then mret (tot, off)
        else
          i ← gets (ino ip);
          bp ← blk_op (b_read (i_dev i) addr);
          d ← get_data bp;
          let m := Z.min (n - tot) (BSIZE - off mod BSIZE) in
          let '(bytes, ok) := src tot m in
          set_data bp (splice d (off mod BSIZE) bytes);;
          if ok then
            blk_op (b_log bp);;
            blk_op (b_relse bp);;
            writei_loop fuel ip src (off + m) n (tot + m)
          else
            blk_op (b_relse bp);;
            mret (tot, off)
    end
  else mret (tot, off).

Definition writei (ip : nat) (src : Z -> Z -> list Z * bool) (off n : Z) : F Z :=
  i ← gets (ino ip);
  if (i_size i <? off) || (u32 (off + n) <? off) then mret (-1)
  else if MAXFILE * BSIZE <? u32 (off + n) then mret (-1)
  else
    r ← writei_loop (Z.to_nat (n / BSIZE + 2)) ip src off n 0;
    let '(tot, off) := r in
    (if i_size i <? off then set_ino ip (with_size off) else mret tt);;
    iupdate ip;;
    mret tot.

(** ** Directories *)

(** Reads to and writes from kernel memory do not fail. *)
Definition kernel_dst : Z -> Z -> bool := fun _ _ => true.
Definition kernel_src (bytes : list Z) : Z -> Z -> list Z * bool := fun o m => (slice bytes o m, true).

Definition namecmp (s t : list Z) : Z := strncmp (arr s) (arr t) (Z.to_nat DIRSIZ).

(** [struct dirent], 16 bytes: [de.inum] and [de.name]. *)
Definition de_inum (de : list Z) : Z := ld16 de 0.
Definition de_name (de : list Z) : list Z := drop 2 de.

Fixpoint dirlookup_loop (fuel : nat) (dp : nat) (name : list Z) (off : Z) : F (option (nat * Z)) :=
  i ← gets (ino dp);
  if off <? i_size i then
    match fuel with
    | O => hang
    | Datatypes.S fuel =>
        r ← readi dp kernel_dst off 16;
        let '(k, de) := r in
        if negb (k =? 16) then panic "dirlookup read"
        else if de_inum de =? 0 then dirlookup_loop fuel dp name (off + 16)
        else if namecmp name (de_name de) =? 0 then
          ip ← iget (i_dev i) (de_inum de);
          mret (Some (ip, off))
        else dirlookup_loop fuel dp name (off + 16)
    end
  else mret None.

(** The inode and the byte offset of the entry. *)
Definition dirlookup (dp : nat) (name : list Z) : F (option (nat * Z)) :=
  i ← gets (ino dp);
  if negb (i_type i =? T_DIR) then panic "dirlookup not DIR"
  else dirlookup_loop (Z.to_nat (i_size i / 16 + 1)) dp name 0.

(** The loop of [dirlink]: the offset where it stops and the entry it last read. *)
Fixpoint dirlink_loop (fuel : nat) (dp : nat) (off : Z) : F Z :=
  i ← gets (ino dp);
  if off <? i_size i then
    match fuel with
    | O => hang
    | Datatypes.S fuel =>
        r ← readi dp kernel_dst off 16;
        let '(k, de) := r in
        if negb (k =? 16) then panic "dirlink read"
        else if de_inum de =? 0 then mret off
        else dirlink_loop fuel dp (off + 16)
    end
  else mret off.

(** The entry [dirlink] writes: [strncpy(de.name, name, DIRSIZ)] and [de.inum]. *)
Definition dirent_bytes (inum : Z) (name : list Z) : list Z :=
  st16 (0 :: 0 :: strncpy (arr name) (Z.to_nat DIRSIZ)) 0 inum.

Definition dirlink (dp : nat) (name : list Z) (inum : Z) : F Z :=
  r ← dirlookup dp name;
  match r with
  | Some (ip, _) => iput ip;; mret (-1)
  | None =>
      i ← gets (ino dp);
      off ← dirlink_loop (Z.to_nat (i_size i / 16 + 1)) dp 0;
      k ← writei dp (kernel_src (dirent_bytes inum name)) off 16;
      mret (if negb (k =? 16) then -1 else 0)
  end.

(** ** Paths *)

(** A path is the list of its characters before the NUL; 47 is the slash. *)
Fixpoint skip_slashes (path : list Z) : list Z :=
  match path with
  | c :: rest => if c =? 47 then skip_slashes rest else path
  | [] => []
  end.

(** The characters up to the next slash, and the rest. *)
Fixpoint split_elem (path : list Z) : list Z * list Z :=
  match path with
  | c :: rest => if c =? 47 then ([], path) else let '(e, r) := split_elem rest in (c :: e, r)
  | [] => ([], [])
  end.

(** The rest of the path and the buffer [name] after the call. *)
Definition skipelem (path name : list Z) : option (list Z * list Z) :=
  match skip_slashes path with
  | [] => None
  | path =>
      let '(s, rest) := split_elem path in
      let name := if DIRSIZ <=? Z.of_nat (length s) then splice name 0 (take (Z.to_nat DIRSIZ) s)
                  else splice name 0 (s ++ [0]) in
      Some (skip_slashes rest, name)
  end.

Fixpoint namex_loop (fuel : nat) (ip : nat) (path : list Z) (parent : bool) (name : list Z) : F (option nat * list Z) :=
  match skipelem path name with
  | None => if parent then iput ip;; mret (None, name) else mret (Some ip, name)
  | Some (path, name) =>
      match fuel with
      | O => hang
      | Datatypes.S fuel =>
          ilock ip;;
          i ← gets (ino ip);
          if negb (i_type i =? T_DIR) then iunlockput ip;; mret (None, name)
          else if parent && (match path with [] => true | _ => false end) then iunlock ip;; mret (Some ip, name)
          else
            r ← dirlookup ip name;
            match r with
            | None => iunlockput ip;; mret (None, name)
            | Some (next, _) => iunlockput ip;; namex_loop fuel next path parent name
            end
      end
  end.

(** [cwd] is [myproc()->cwd]. *)
Definition namex (cwd : nat) (path : list Z) (parent : bool) (name : list Z) : F (option nat * list Z) :=
  ip ← (match path with 47 :: _ => iget ROOTDEV ROOTINO | _ => idup cwd end);
  namex_loop (length path) ip path parent name.

(** [junk] is what the buffer [name] holds when the function is entered. *)
Definition namei (cwd : nat) (path junk : list Z) : F (option nat) :=
  r ← namex cwd path false junk; mret (fst r).

Definition nameiparent (cwd : nat) (path name : list Z) : F (option nat * list Z) := namex cwd path true name.
End Fs.
