(* ===== verification/FsBlocks.v ===== *)
(** * What the file system relies on of the log and the cache

    [BlocksSpec] states what the layers below promise: a store of blocks in which
    a process opens buffers, changes them, logs them and releases them.  The file
    system's theorems are proved from it, and [log_blocks_spec] shows that the log
    of [Log] over the buffer cache of [Bio] keeps the promise. *)

From S2P Require Import Prelude Mem CString Block Sleeplock Bio BioList BioSpec Log LogSpec LogProps Fs.

(** A buffer the process has open: its handle, its block, and whether its data was
    changed since. *)
Definition obuf : Type := nat * Z * bool.
Definition ob_blk (o : obuf) : Z := snd (fst o).

Class BlocksSpec (S : Type) `{!Blocks S} := {
  content : S -> Z -> block;
  (** the blocks outside the log *)
  fs_block : Z -> Prop;
  (** [data_ok s O G]: the process has open [O] and the transaction has logged [G] *)
  data_ok : S -> list obuf -> gset Z -> Prop;
  (** how many blocks can be logged and open *)
  cap : nat;
  spec_read s O G b :
    data_ok s O G -> (forall o, o ∈ O -> ob_blk o <> b) -> (length O + size G < cap)%nat \/ b ∈ G ->
    exists i s', b_read ROOTDEV b s = Done i s' /\ data_ok s' ((i, b, false) :: O) G /\
      (forall x, content s' x = content s x) /\ b_pid s' = b_pid s;
  spec_data s O G i b d : data_ok s O G -> (i, b, d) ∈ O -> b_data i s = content s b;
  spec_set s O G i b d v :
    data_ok s ((i, b, d) :: O) G ->
    exists s', b_set i v s = Done tt s' /\ data_ok s' ((i, b, true) :: O) G /\
      (forall x, content s' x = put (content s) b v x) /\ b_pid s' = b_pid s;
  spec_log s O G i b d :
    data_ok s ((i, b, d) :: O) G -> fs_block b -> (Datatypes.S (size G) < cap)%nat ->
    exists s', b_log i s = Done tt s' /\ data_ok s' ((i, b, d) :: O) ({[b]} ∪ G) /\
      (forall x, content s' x = content s x) /\ b_pid s' = b_pid s;
  spec_relse s O G i b d :
    data_ok s ((i, b, d) :: O) G -> d = false \/ b ∈ G ->
    exists s', b_relse i s = Done tt s' /\ data_ok s' O G /\
      (forall x, content s' x = content s x) /\ b_pid s' = b_pid s;
}.

(** ** The log and the cache implement it *)

#[export] Instance log_blocks : Blocks lstate := {
  b_read := fun dev b => bio (bread dev b);
  b_data := fun i s => data (buf_at i (bs s));
  b_set := fun i d => bio (modify (set_buf i (with_data d)));
  b_log := log_write;
  b_relse := fun i => bio (brelse i);
  b_initlog := initlog;
  b_pid := fun s => me (bs s);
}.

(** A transaction under way on a log of [LOGSIZE] blocks at [st]. *)
Record in_tx (st : Z) (s : lstate) (O : list obuf) (G : gset Z) : Prop := {
  tx_log : exists hs P, log_wf (lg s) hs /\ P ≡ₚ hs /\ cache_ok (bs s) (O.*1.*1) P /\ G = list_to_set hs;
  tx_open : forall i b d, (i, b, d) ∈ O -> in_cache (bs s) i b;
  tx_clean : forall i b, (i, b, false) ∈ O -> b ∈ G \/ blk (bs s) b = disk_block (disk (bs s)) b;
  tx_start : start (lg s) = st;
  tx_size : log_size (lg s) = LOGSIZE;
  tx_out : 1 <= outstanding (lg s);
}.

Lemma size_log hs : NoDup hs -> size (list_to_set hs : gset Z) = length hs.
Proof. apply size_list_to_set. Qed.

Lemma tx_size_G s (G : gset Z) hs : log_wf (lg s) hs -> G = list_to_set hs -> size G = length hs.
Proof. intros Hw ->. apply size_log, (lw_nodup _ _ Hw). Qed.

Lemma elem_handle (O : list obuf) i b d : (i, b, d) ∈ O -> i ∈ O.*1.*1.
Proof. intros H. apply list_elem_of_fmap. exists (i, b). split; [done|]. apply list_elem_of_fmap. by exists (i, b, d). Qed.

Lemma elem_handle_inv (O : list obuf) i : i ∈ O.*1.*1 -> exists b d, (i, b, d) ∈ O.
Proof.
  intros ([i' b] & -> & H)%list_elem_of_fmap. apply list_elem_of_fmap in H as ([[i'' b'] d] & E & H).
  injection E as -> ->. by exists b', d.
Qed.

Lemma log_read st s O G b :
  in_tx st s O G -> (forall o, o ∈ O -> ob_blk o <> b) -> (length O + size G < NBUF)%nat \/ b ∈ G ->
  exists i s', bio (bread ROOTDEV b) s = Done i s' /\ in_tx st s' ((i, b, false) :: O) G /\
    (forall x, blk (bs s') x = blk (bs s) x) /\ me (bs s') = me (bs s).
Proof.
  intros [(hs & P & Hw & HP & Hok & HG) Ho Hcl Hst Hsz Hout] Hn Hroom. destruct s as [B l]. cbn [bs lg] in *.
  assert (HPG : forall x, x ∈ P <-> x ∈ G) by (intros x; rewrite HG, elem_of_list_to_set; by rewrite HP).
  destruct (bread_spec B (O.*1.*1) P b Hok) as (i & B' & E & Hg).
  { intros j (b' & d & Hj)%elem_handle_inv Ej. apply (Hn (j, b', d) Hj). cbn.
    destruct (Ho j b' d Hj) as (_ & _ & <-). done. }
  { rewrite !length_fmap. destruct Hroom as [Hr|Hr]; [left|right; by apply HPG].
    rewrite (tx_size_G (LState B l) G hs Hw HG) in Hr. by rewrite HP. }
  exists i, (LState B' l). rewrite (bio_done _ _ _ _ _ E). destruct Hg as [G1 G2 G3 G4 G5 G6 G7].
  split; [done|]. split; [|done]. split; cbn [bs lg]; try done.
  - by exists hs, P.
  - intros j b' d [[= -> -> ->]|Hj]%elem_of_cons; [done|].
    unfold in_cache. rewrite G7 by (by apply (elem_handle O j b' d)). by apply (Ho j b' d).
  - intros j b' [[= -> ->]|Hj]%elem_of_cons.
    + destruct (decide (b ∈ G)) as [|HbG]; [by left|right]. rewrite G3, G4.
      apply (blk_clean B (O.*1.*1) P); [done|by rewrite HPG|]. intros k (b' & d & Hk)%elem_handle_inv Ek.
      apply (Hn (k, b', d) Hk). cbn. destruct (Ho k b' d Hk) as (_ & _ & <-). done.
    + rewrite G3, G4. by apply (Hcl j).
Qed.

Lemma log_set st s O G i b d v :
  in_tx st s ((i, b, d) :: O) G ->
  exists s', bio (modify (set_buf i (with_data v))) s = Done tt s' /\ in_tx st s' ((i, b, true) :: O) G /\
    (forall x, blk (bs s') x = put (blk (bs s)) b v x) /\ me (bs s') = me (bs s).
Proof.
  intros [(hs & P & Hw & HP & Hok & HG) Ho Hcl Hst Hsz Hout]. destruct s as [B l]. cbn [bs lg] in *.
  assert (Hc : in_cache B i b) by (apply (Ho i b d); by left).
  assert (Hi : i ∈ ((i, b, d) :: O).*1.*1) by (apply (elem_handle _ i b d); by left).
  assert (Hblk : forall x, blk (set_buf i (with_data v) B) x = put (blk B) b v x)
    by (intros x; by apply (set_data_blk B (((i, b, d) :: O).*1.*1) P i v b)).
  exists (LState (set_buf i (with_data v) B) l). split; [done|]. split; [|done]. split; cbn [bs lg]; try done.
  - exists hs, P. split_and!; try done. by apply set_data_ok.
  - intros j b' d' Hj. apply in_cache_set_same; [done|done|].
    apply elem_of_cons in Hj as [[= -> -> ->]|Hj]; [done|]. apply (Ho j b' d'). by right.
  - intros j b' Hj. apply elem_of_cons in Hj as [[= ]|Hj]. rewrite Hblk. unfold put. case_decide as E.
    + exfalso. subst b'. assert (Hjb : in_cache B j b) by (apply (Ho j b false); by right).
      assert (j = i) as -> by (by apply (co_unique _ _ _ Hok j i b)).
      destruct (co_held _ _ _ Hok) as [Hnd _]. rewrite !fmap_cons in Hnd. apply list.NoDup_cons in Hnd as [Hnin _].
      apply Hnin. by apply (elem_handle O i b false).
    + apply (Hcl j). by right.
Qed.

Lemma log_log st s O G i b d :
  in_tx st s ((i, b, d) :: O) G -> 0 <= b < 2 ^ 31 /\ ~ (st <= b < st + LOGSIZE) -> (S (size G) < NBUF)%nat ->
  exists s', log_write i s = Done tt s' /\ in_tx st s' ((i, b, d) :: O) ({[b]} ∪ G) /\
    (forall x, blk (bs s') x = blk (bs s) x) /\ me (bs s') = me (bs s).
Proof.
  intros [(hs & P & Hw & HP & Hok & HG) Ho Hcl Hst Hsz Hout] Hb Hroom. destruct s as [B l]. cbn [bs lg] in *.
  rewrite (tx_size_G (LState B l) G hs Hw HG) in Hroom.
  assert (Hc : in_cache B i b) by (apply (Ho i b d); by left).
  destruct (log_write_spec B l hs P (((i, b, d) :: O).*1.*1) i b Hw HP Hok) as
    (B' & l' & hs' & P' & E & Hw' & HP' & Hok' & Hc' & (W1 & W2 & W3 & W4) & HbP & Hhs & Hl' & F1 & F2 & F3 & F4 & Hcore).
  - apply (elem_handle _ i b d). by left.
  - done.
  - unfold home. by rewrite Hst.
  - done.
  - rewrite Hsz, (lw_n l hs Hw). unfold LOGSIZE, MAXOPBLOCKS, NBUF in *. lia.
  - done.
  - exists (LState B' l'). split; [done|]. cbn [over] in W1, W2. split; [|done].
    assert (HG' : {[b]} ∪ G = list_to_set hs').
    { apply set_eq. intros x. rewrite elem_of_union, elem_of_singleton, HG, !elem_of_list_to_set. rewrite Hhs. tauto. }
    split; cbn [bs lg].
    + by exists hs', P'.
    + intros j b' d' Hj. apply Hcore. by apply (Ho j b' d').
    + intros j b' Hj. rewrite W1, W2. destruct (Hcl j b' Hj) as [Hin|Hin]; [left|by right].
      apply elem_of_union. by right.
    + by rewrite F1.
    + by rewrite F2.
    + by rewrite F3.
Qed.

Lemma log_relse st s O G i b d :
  in_tx st s ((i, b, d) :: O) G -> d = false \/ b ∈ G ->
  exists s', bio (brelse i) s = Done tt s' /\ in_tx st s' O G /\
    (forall x, blk (bs s') x = blk (bs s) x) /\ me (bs s') = me (bs s).
Proof.
  intros [(hs & P & Hw & HP & Hok & HG) Ho Hcl Hst Hsz Hout] Hd. destruct s as [B l]. cbn [bs lg] in *.
  assert (Hc : in_cache B i b) by (apply (Ho i b d); by left).
  destruct (brelse_spec B (O.*1.*1) P i b Hok Hc) as (B' & E & [R1 R2 R3 R4 R5 R6]).
  { assert (HbP : b ∈ G -> b ∈ P) by (rewrite HG, elem_of_list_to_set; by rewrite HP).
    destruct Hd as [->|Hd]; [|left; by apply HbP]. destruct (Hcl i b) as [Hin|Hin]; [by left|left; by apply HbP|by right]. }
  exists (LState B' l). rewrite (bio_done _ _ _ _ _ E). split; [done|]. split; [|done].
  split; cbn [bs lg]; try done.
  - by exists hs, P.
  - intros j b' d' Hj. assert (Hne : j <> i).
    { intros ->. destruct (co_held _ _ _ Hok) as [Hnd _]. rewrite !fmap_cons in Hnd. apply list.NoDup_cons in Hnd as [Hn _].
      apply Hn. by apply (elem_handle O i b' d'). }
    unfold in_cache. destruct (core_eq _ _ (R6 j Hne)) as (_ & -> & -> & _). apply (Ho j b' d'). by right.
  - intros j b' Hj. rewrite R2, R3. apply (Hcl j). by right.
Qed.

Lemma log_data st s O G i b d : in_tx st s O G -> (i, b, d) ∈ O -> data (buf_at i (bs s)) = blk (bs s) b.
Proof.
  intros [(hs & P & _ & _ & Hok & _) Ho _ _ _ _] Hin. symmetry.
  by apply (blk_cached (bs s) (O.*1.*1) P i b Hok), (Ho i b d).
Qed.

#[export] Instance log_blocks_spec (st : Z) : BlocksSpec lstate := {
  content := fun s => blk (bs s);
  fs_block := fun b => 0 <= b < 2 ^ 31 /\ ~ (st <= b < st + LOGSIZE);
  data_ok := in_tx st;
  cap := NBUF;
  spec_read := log_read st;
  spec_data := log_data st;
  spec_set := log_set st;
  spec_log := log_log st;
  spec_relse := log_relse st;
}.
