(* ===== verification/FsAlloc.v ===== *)
(** * The block allocator of the file system

    [in_use c s b] reads the bit of block [b] in the free map.  [balloc] returns
    the lowest free block, zeroed, and marks exactly it; [bfree] unmarks exactly
    the block it is given. *)

From S2P Require Import Prelude Mem CString Block Sleeplock LogSpec Fs FsBlocks.

(** ** Bits *)

Lemma land_pow2 x k : 0 <= k -> (Z.land x (Z.shiftl 1 k) =? 0) = negb (Z.testbit x k).
Proof.
  intros Hk. rewrite Z.shiftl_1_l. destruct (Z.testbit x k) eqn:E; cbn.
  - apply Z.eqb_neq. intros H. apply (f_equal (fun y => Z.testbit y k)) in H.
    rewrite Z.land_spec, E, Z.pow2_bits_true, Z.bits_0 in H by done. done.
  - apply Z.eqb_eq. apply Z.bits_inj'. intros j Hj. rewrite Z.land_spec, Z.bits_0, Z.pow2_bits_eqb by done.
    destruct (Z.eqb_spec k j) as [<-|]; [by rewrite E|by rewrite andb_false_r].
Qed.

Lemma bit_set_testbit d bi : bit_set d bi = Z.testbit (nth (Z.to_nat (bi / 8)) d 0) (bi mod 8).
Proof.
  unfold bit_set. rewrite land_pow2 by (apply Z.mod_pos_bound; lia). apply negb_involutive.
Qed.

Lemma bit_index bi d : is_block d -> 0 <= bi < BPB -> (Z.to_nat (bi / 8) < length d)%nat.
Proof. intros Hd Hb. unfold is_block, BPB, BSIZE in *. lia. Qed.

Lemma bit_set_mark d bi bj :
  is_block d -> 0 <= bi < BPB -> 0 <= bj < BPB -> bit_set (mark d bi) bj = bit_set d bj || (bi =? bj).
Proof.
  intros Hd Hi Hj. rewrite !bit_set_testbit. unfold mark. pose proof (bit_index bi d Hd Hi).
  destruct (decide (bi / 8 = bj / 8)) as [E|E].
  - rewrite <-E, nth_insert_eq by done. rewrite Z.lor_spec, Z.shiftl_1_l, Z.pow2_bits_eqb by lia. f_equal.
    destruct (Z.eqb_spec (bi mod 8) (bj mod 8)), (Z.eqb_spec bi bj); try done; lia.
  - rewrite nth_insert_ne by lia. destruct (Z.eqb_spec bi bj) as [->|]; [done|]. by rewrite orb_false_r.
Qed.

Lemma bit_set_unmark d bi bj :
  is_block d -> 0 <= bi < BPB -> 0 <= bj < BPB -> bit_set (unmark d bi) bj = bit_set d bj && negb (bi =? bj).
Proof.
  intros Hd Hi Hj. rewrite !bit_set_testbit. unfold unmark. pose proof (bit_index bi d Hd Hi).
  destruct (decide (bi / 8 = bj / 8)) as [E|E].
  - rewrite <-E, nth_insert_eq by done. rewrite Z.land_spec. f_equal. unfold u8.
    rewrite <-Z.land_ones, Z.land_spec, Z.lnot_spec, Z.shiftl_1_l, Z.pow2_bits_eqb, Z.ones_spec_low by lia.
    rewrite andb_true_r. f_equal. destruct (Z.eqb_spec (bi mod 8) (bj mod 8)), (Z.eqb_spec bi bj); try done; lia.
  - rewrite nth_insert_ne by lia. destruct (Z.eqb_spec bi bj) as [->|]; [done|]. by rewrite andb_true_r.
Qed.

Lemma is_block_insert d k x : is_block d -> is_block (<[k := x]> d).
Proof. unfold is_block. by rewrite length_insert. Qed.

(** ** The free map *)

Definition in_use (c : Z -> block) (s : superblock) (b : Z) : bool := bit_set (c (BBLOCK b s)) (b mod BPB).

(** The first block after the metadata. *)
Definition data_start (s : superblock) : Z := sb_bmapstart s + sb_size s / BPB + 1.

Section Alloc.
Context {S : Type} `{!Blocks S} `{!BlocksSpec S}.

(** The layout is sane and the metadata is marked in use. *)
Record alloc_ok (c : Z -> block) (s : superblock) : Prop := {
  ao_bmap : 0 <= sb_bmapstart s;
  ao_size : data_start s <= sb_size s < 2 ^ 31;
  ao_blocks : forall b, is_block (c b);
  ao_meta : forall b, 0 <= b < data_start s -> in_use c s b = true;
  ao_bitmap : forall b, 0 <= b < sb_size s -> fs_block (BBLOCK b s);
  ao_data : forall b, data_start s <= b < sb_size s -> fs_block b;
}.

Lemma BBLOCK_val c s b : alloc_ok c s -> 0 <= b < sb_size s -> BBLOCK b s = b / BPB + sb_bmapstart s.
Proof.
  intros [H1 H2 _ _ _ _] Hb. apply u32_small. unfold data_start, BPB, BSIZE in *. lia.
Qed.

Lemma BBLOCK_meta c s b : alloc_ok c s -> 0 <= b < sb_size s -> 0 <= BBLOCK b s < data_start s.
Proof.
  intros Hok Hb. rewrite (BBLOCK_val c s b Hok Hb). pose proof (ao_bmap _ _ Hok).
  unfold data_start, BPB, BSIZE in *. lia.
Qed.

Lemma free_is_data c s b : alloc_ok c s -> 0 <= b < sb_size s -> in_use c s b = false -> data_start s <= b.
Proof.
  intros Hok Hb Hf. destruct (Z.lt_ge_cases b (data_start s)); [|done].
  rewrite (ao_meta _ _ Hok) in Hf by lia. done.
Qed.

(** Changing one bit. *)
Lemma in_use_put c s r d b :
  alloc_ok c s -> 0 <= r < sb_size s -> 0 <= b < sb_size s ->
  (forall j, 0 <= j < BPB -> j <> r mod BPB -> bit_set d j = bit_set (c (BBLOCK r s)) j) ->
  in_use (put c (BBLOCK r s) d) s b = if decide (b = r) then bit_set d (r mod BPB) else in_use c s b.
Proof.
  intros Hok Hr Hb Hd. unfold in_use, put. rewrite (BBLOCK_val c s r Hok Hr), (BBLOCK_val c s b Hok Hb) in *.
  destruct (decide (b = r)) as [->|Hne]; [by rewrite decide_True|].
  case_decide as E; [|done]. assert (E' : b / BPB = r / BPB) by lia.
  rewrite Hd; [by rewrite E|unfold BPB, BSIZE; lia|].
  intros Em. apply Hne. unfold BPB, BSIZE in *. lia.
Qed.

(** Changing a data block. *)
Lemma in_use_put_data c s r d b :
  alloc_ok c s -> data_start s <= r -> 0 <= b < sb_size s -> in_use (put c r d) s b = in_use c s b.
Proof.
  intros Hok Hr Hb. unfold in_use, put. pose proof (BBLOCK_meta c s b Hok Hb). by rewrite decide_False by lia.
Qed.

Lemma alloc_ok_ext c c' s : (forall b, c' b = c b) -> alloc_ok c s -> alloc_ok c' s.
Proof.
  intros E [H1 H2 H3 H4 H5 H6]. split; try done; [by intros b; rewrite E|].
  intros b Hb. unfold in_use. rewrite E. by apply H4.
Qed.

Lemma alloc_ok_put c s r d :
  alloc_ok c s -> is_block d -> data_start s <= r -> alloc_ok (put c r d) s.
Proof.
  intros Hok Hd Hr. pose proof Hok as [H1 H2 H3 H4 H5 H6]. split; try done.
  - intros b. unfold put. by case_decide.
  - intros b Hb. rewrite in_use_put_data by (done || lia). by apply H4.
Qed.

Lemma alloc_ok_bit c s r d :
  alloc_ok c s -> is_block d -> data_start s <= r < sb_size s ->
  (forall j, 0 <= j < BPB -> j <> r mod BPB -> bit_set d j = bit_set (c (BBLOCK r s)) j) ->
  alloc_ok (put c (BBLOCK r s) d) s.
Proof.
  intros Hok Hd Hr Hj. pose proof Hok as [H1 H2 H3 H4 H5 H6].
  assert (0 <= data_start s) by (unfold data_start, BPB, BSIZE in *; lia). split; try done.
  - intros b. unfold put. by case_decide.
  - intros b Hb. rewrite (in_use_put c s r d b Hok) by (done || lia). rewrite decide_False by lia. by apply H4.
Qed.

(** ** Steps on blocks *)

Lemma blk_done {A} (m : M S A) B a B' s t : m B = Done a B' -> blk_op m (FState B s t) = Done a (FState B' s t).
Proof. intros E. unfold blk_op, lift. cbn [blocks sb itable]. by rewrite E. Qed.

(** Opening block [b]. *)
Lemma open_block B s t O G b :
  data_ok B O G -> (forall o, o ∈ O -> ob_blk o <> b) -> (length O + size G < cap)%nat \/ b ∈ G ->
  exists i B', blk_op (b_read ROOTDEV b) (FState B s t) = Done i (FState B' s t) /\
    get_data i (FState B' s t) = Done (content B b) (FState B' s t) /\
    data_ok B' ((i, b, false) :: O) G /\ (forall x, content B' x = content B x) /\ b_pid B' = b_pid B.
Proof.
  intros Hok Hn Hr. destruct (spec_read B O G b Hok Hn Hr) as (i & B' & E & Hok' & Hc & Hp).
  exists i, B'. split; [by apply blk_done|]. split; [|done]. unfold get_data, gets. cbn [blocks].
  rewrite (spec_data B' ((i, b, false) :: O) G i b false Hok') by (by left). by rewrite Hc.
Qed.

(** Releasing it unchanged. *)
Lemma close_block B s t O G i b :
  data_ok B ((i, b, false) :: O) G ->
  exists B', blk_op (b_relse i) (FState B s t) = Done tt (FState B' s t) /\ data_ok B' O G /\
    (forall x, content B' x = content B x) /\ b_pid B' = b_pid B.
Proof.
  intros Hok. destruct (spec_relse B O G i b false Hok (or_introl eq_refl)) as (B' & E & H).
  exists B'. split; [by apply blk_done|done].
Qed.

(** Changing, logging and releasing it. *)
Lemma write_block B s t O G i b d v :
  data_ok B ((i, b, d) :: O) G -> fs_block b -> (Datatypes.S (size G) < cap)%nat ->
  exists B1 B2 B3, set_data i v (FState B s t) = Done tt (FState B1 s t) /\
    blk_op (b_log i) (FState B1 s t) = Done tt (FState B2 s t) /\
    blk_op (b_relse i) (FState B2 s t) = Done tt (FState B3 s t) /\
    data_ok B3 O ({[b]} ∪ G) /\ (forall x, content B3 x = put (content B) b v x) /\ b_pid B3 = b_pid B.
Proof.
  intros Hok Hb Hr. destruct (spec_set B O G i b d v Hok) as (B1 & E1 & Hok1 & Hc1 & Hp1).
  destruct (spec_log B1 O G i b true Hok1 Hb Hr) as (B2 & E2 & Hok2 & Hc2 & Hp2).
  destruct (spec_relse B2 O ({[b]} ∪ G) i b true Hok2) as (B3 & E3 & Hok3 & Hc3 & Hp3).
  { right. apply elem_of_union. left. by apply elem_of_singleton. }
  exists B1, B2, B3. split_and!; [by apply blk_done..|done| |congruence].
  intros x. by rewrite Hc3, Hc2, Hc1.
Qed.

Lemma size_add (G : gset Z) b : (size ({[b]} ∪ G) <= Datatypes.S (size G))%nat.
Proof.
  destruct (decide (b ∈ G)) as [Hin|Hin].
  - rewrite subseteq_union_1_L by (by apply singleton_subseteq_l). lia.
  - rewrite size_union by set_solver. rewrite size_singleton. lia.
Qed.

(** ** balloc *)

Lemma balloc_scan_spec rem d b bi sz :
  match balloc_scan rem d b bi sz with
  | Some k => bi <= k < bi + Z.of_nat rem /\ b + k < sz /\ bit_set d k = false /\
      (forall j, bi <= j < k -> bit_set d j = true)
  | None => forall j, bi <= j < bi + Z.of_nat rem -> b + j < sz -> bit_set d j = true
  end.
Proof.
  revert bi. induction rem as [|rem IH]; intros bi; cbn [balloc_scan]; [lia|].
  destruct (Z.ltb_spec (b + bi) sz) as [Hlt|Hlt]; [|intros j H1 H2; lia].
  destruct (bit_set d bi) eqn:E.
  - specialize (IH (bi + 1)). destruct (balloc_scan rem d b (bi + 1) sz) as [k|].
    + destruct IH as (H1 & H2 & H3 & H4). split; [lia|]. split_and!; try done. intros j Hj.
      destruct (decide (j = bi)) as [->|]; [done|]. apply H4. lia.
    + intros j H1 H2. destruct (decide (j = bi)) as [->|]; [done|]. apply IH; lia.
  - split; [lia|]. split_and!; try done. intros j Hj. lia.
Qed.

(** The buffers open during an allocation are of data blocks in use. *)
Definition opens_used (c : Z -> block) (s : superblock) (O : list obuf) : Prop :=
  forall o, o ∈ O -> data_start s <= ob_blk o < sb_size s /\ in_use c s (ob_blk o) = true.

Lemma opens_not_bitmap c s O b : alloc_ok c s -> opens_used c s O -> 0 <= b < sb_size s -> forall o, o ∈ O -> ob_blk o <> BBLOCK b s.
Proof. intros Hok Ho Hb o Hin E. destruct (Ho o Hin) as [Hr _]. pose proof (BBLOCK_meta c s b Hok Hb). lia. Qed.

(** What [balloc] returns and leaves: block [r]; its bit set, its content zeroed. *)
Definition allocated (c : Z -> block) (s : superblock) (r : Z) : Z -> block :=
  put (put c (BBLOCK r s) (mark (c (BBLOCK r s)) (r mod BPB))) r zero_block.

Definition lowest_free (c : Z -> block) (s : superblock) (r : Z) : Prop :=
  data_start s <= r < sb_size s /\ in_use c s r = false /\ forall b, 0 <= b < r -> in_use c s b = true.

Definition disk_full (c : Z -> block) (s : superblock) : Prop := forall b, 0 <= b < sb_size s -> in_use c s b = true.

Record balloc_result (B : S) (s : superblock) (O : list obuf) (G : gset Z) (r : Z) (B' : S) : Prop := {
  br_pid : b_pid B' = b_pid B;
  br_cases :
    (r = 0 /\ disk_full (content B) s /\ data_ok B' O G /\ (forall x, content B' x = content B x)) \/
    (lowest_free (content B) s r /\ data_ok B' O ({[r]} ∪ ({[BBLOCK r s]} ∪ G)) /\
     (forall x, content B' x = allocated (content B) s r x));
}.

(** A whole group of the free map is in use. *)
Lemma group_used c s b :
  alloc_ok c s -> 0 <= b < sb_size s -> b mod BPB = 0 ->
  (forall j, 0 <= j < BPB -> b + j < sb_size s -> bit_set (c (BBLOCK b s)) j = true) ->
  forall x, b <= x < b + BPB -> x < sb_size s -> in_use c s x = true.
Proof.
  intros Hok Hb Hm H x Hx Hxs. unfold in_use. rewrite (BBLOCK_val c s x Hok), (BBLOCK_val c s b Hok) in * by lia.
  replace (x / BPB) with (b / BPB) by (unfold BPB, BSIZE in *; lia). apply H; unfold BPB, BSIZE in *; lia.
Qed.

Lemma scan_found c s b bi :
  alloc_ok c s -> 0 <= b -> b mod BPB = 0 -> 0 <= bi < BPB -> b + bi < sb_size s ->
  BBLOCK (b + bi) s = BBLOCK b s /\ (b + bi) mod BPB = bi.
Proof.
  intros Hok Hb Hm Hbi Hlt. rewrite !(BBLOCK_val c s) by (done || lia). unfold BPB, BSIZE in *. split; [|lia]. f_equal. lia.
Qed.

Lemma zero_step B s t O G r :
  data_ok B O G -> (forall o, o ∈ O -> ob_blk o <> r) -> (length O + size G < cap)%nat -> fs_block r ->
  (Datatypes.S (size G) < cap)%nat ->
  exists B', bzero ROOTDEV r (FState B s t) = Done tt (FState B' s t) /\ data_ok B' O ({[r]} ∪ G) /\
    (forall x, content B' x = put (content B) r zero_block x) /\ b_pid B' = b_pid B.
Proof.
  intros Hok Hn Hr1 Hf Hr2. destruct (open_block B s t O G r Hok Hn (or_introl Hr1)) as (i & B1 & E1 & _ & Hok1 & Hc1 & Hp1).
  destruct (write_block B1 s t O G i r false zero_block Hok1 Hf Hr2) as (B2 & B3 & B4 & E2 & E3 & E4 & Hok4 & Hc4 & Hp4).
  exists B4. unfold bzero. mstep E1. mstep E2. mstep E3. split; [done|]. split; [done|]. split; [|congruence].
  intros x. rewrite Hc4. unfold put. by rewrite Hc1.
Qed.

Lemma balloc_loop_spec fuel B s t O G b :
  data_ok B O G -> alloc_ok (content B) s -> opens_used (content B) s O ->
  (length O + size G + 2 < cap)%nat -> 0 <= b -> b mod BPB = 0 -> sb_size s <= b + Z.of_nat fuel * BPB ->
  (forall x, 0 <= x < b -> x < sb_size s -> in_use (content B) s x = true) ->
  exists r B', balloc_loop fuel ROOTDEV b (FState B s t) = Done r (FState B' s t) /\ balloc_result B s O G r B'.
Proof.
  revert B b. induction fuel as [|fuel IH]; intros B b Hok Ha Ho Hroom Hb Hm Hf Hused; cbn [balloc_loop];
    rewrite bind_gets; cbn [sb]; destruct (Z.ltb_spec b (sb_size s)) as [Hlt|Hge].
  - lia.
  - exists 0, B. split; [done|]. split; [done|]. left. split_and!; try done. intros x Hx. apply Hused; lia.
  - pose proof (opens_not_bitmap _ s O b Ha Ho ltac:(lia)) as Hnb.
    destruct (open_block B s t O G (BBLOCK b s) Hok Hnb ltac:(lia)) as (i & B1 & E1 & Ed & Hok1 & Hc1 & Hp1).
    mstep E1. mstep Ed. pose proof (balloc_scan_spec (Z.to_nat BPB) (content B (BBLOCK b s)) b 0 (sb_size s)) as Hscan.
    destruct (balloc_scan _ _ _ _ _) as [bi|].
    + destruct Hscan as (Hbi & Hlt' & Hbit & Hbefore). rewrite Z2Nat.id, Z.add_0_l in Hbi by (unfold BPB, BSIZE; lia).
      destruct (scan_found _ s b bi Ha Hb Hm Hbi Hlt') as [EB Em].
      assert (Hfree : in_use (content B) s (b + bi) = false) by (unfold in_use; by rewrite EB, Em).
      pose proof (free_is_data _ s (b + bi) Ha ltac:(lia) Hfree) as Hdata.
      destruct (write_block B1 s t O G i (BBLOCK b s) false (mark (content B (BBLOCK b s)) bi) Hok1)
        as (B2 & B3 & B4 & E2 & E3 & E4 & Hok4 & Hc4 & Hp4); [apply (ao_bitmap _ _ Ha); lia|lia|].
      mstep E2. mstep E3. mstep E4. pose proof (size_add G (BBLOCK b s)).
      destruct (zero_step B4 s t O ({[BBLOCK b s]} ∪ G) (b + bi) Hok4) as (B5 & E5 & Hok5 & Hc5 & Hp5).
      * intros o Hin Eo. destruct (Ho o Hin) as [_ Hu]. rewrite Eo, Hfree in Hu. done.
      * lia.
      * apply (ao_data _ _ Ha). lia.
      * lia.
      * mstep E5. exists (b + bi), B5. split; [done|]. split; [congruence|]. right. rewrite EB. split; [split; [lia|split; [done|]]|split; [done|]].
        -- intros x Hx. destruct (Z.lt_ge_cases x b); [apply Hused; lia|].
           destruct (scan_found _ s b (x - b) Ha Hb Hm) as [EBx Emx]; [lia|lia|].
           replace (b + (x - b)) with x in EBx, Emx by lia. unfold in_use. rewrite EBx, Emx. apply Hbefore. lia.
        -- intros x. rewrite Hc5. unfold allocated. rewrite EB, Em. unfold put. case_decide; [done|].
           rewrite Hc4. unfold put. case_decide; [done|]. apply Hc1.
    + destruct (close_block B1 s t O G i (BBLOCK b s) Hok1) as (B2 & E2 & Hok2 & Hc2 & Hp2). mstep E2.
      assert (Hcc : forall x, content B2 x = content B x) by (intros x; by rewrite Hc2, Hc1).
      assert (Hin2 : forall x, in_use (content B2) s x = in_use (content B) s x) by (intros x; unfold in_use; by rewrite Hcc).
      rewrite Z2Nat.id, Z.add_0_l in Hscan by (unfold BPB, BSIZE; lia).
      destruct (IH B2 (b + BPB)) as (r & B' & E & [Hp' Hcases]); try done.
      * by apply (alloc_ok_ext (content B)).
      * intros o Hin. rewrite Hin2. by apply Ho.
      * unfold BPB, BSIZE. lia.
      * unfold BPB, BSIZE in *. lia.
      * unfold BPB, BSIZE in *. lia.
      * intros x Hx Hxs. rewrite Hin2. destruct (Z.lt_ge_cases x b); [by apply Hused; lia|].
        apply (group_used _ s b Ha ltac:(lia) Hm Hscan); [lia|done].
      * exists r, B'. split; [done|]. split; [congruence|]. destruct Hcases as [(H1 & H2 & H3 & H4)|(H1 & H2 & H3)].
        -- left. split_and!; try done; [intros x Hx; rewrite <-Hin2; by apply H2|]. intros x. by rewrite H4, Hcc.
        -- right. destruct H1 as (H11 & H12 & H13). split; [split; [done|split]|].
           ++ by rewrite <-Hin2.
           ++ intros x Hx. rewrite <-Hin2. by apply H13.
           ++ split; [done|]. intros x. rewrite H3. unfold allocated, put. rewrite !Hcc. done.
  - exists 0, B. split; [done|]. split; [done|]. left. split_and!; try done. intros x Hx. apply Hused; lia.
Qed.

Lemma balloc_spec B s t O G :
  data_ok B O G -> alloc_ok (content B) s -> opens_used (content B) s O -> (length O + size G + 2 < cap)%nat ->
  exists r B', balloc ROOTDEV (FState B s t) = Done r (FState B' s t) /\ balloc_result B s O G r B'.
Proof.
  intros Hok Ha Ho Hroom. unfold balloc. rewrite bind_gets. cbn [sb].
  pose proof (ao_size _ _ Ha). pose proof (ao_bmap _ _ Ha). unfold data_start in *.
  apply balloc_loop_spec; try done; unfold BPB, BSIZE in *; lia.
Qed.

Lemma data_start_pos c s : alloc_ok c s -> 0 < data_start s.
Proof. intros [H1 H2 _ _ _ _]. unfold data_start, BPB, BSIZE in *. lia. Qed.

Lemma mod_BPB b : 0 <= b mod BPB < BPB.
Proof. unfold BPB, BSIZE. lia. Qed.

Lemma mark_bits d k j : is_block d -> 0 <= k < BPB -> 0 <= j < BPB -> j <> k -> bit_set (mark d k) j = bit_set d j.
Proof.
  intros Hd Hk Hj Hne. rewrite bit_set_mark by done. destruct (Z.eqb_spec k j); [congruence|]. by rewrite orb_false_r.
Qed.

Lemma unmark_bits d k j : is_block d -> 0 <= k < BPB -> 0 <= j < BPB -> j <> k -> bit_set (unmark d k) j = bit_set d j.
Proof.
  intros Hd Hk Hj Hne. rewrite bit_set_unmark by done. destruct (Z.eqb_spec k j); [congruence|]. by rewrite andb_true_r.
Qed.

Lemma allocated_ok c s r : alloc_ok c s -> data_start s <= r < sb_size s -> alloc_ok (allocated c s r) s.
Proof.
  intros Ha Hr. unfold allocated. pose proof (ao_blocks _ _ Ha (BBLOCK r s)) as Hb.
  apply alloc_ok_put; [|apply is_block_zero|lia]. apply alloc_ok_bit; [done|by apply is_block_insert|done|].
  intros j Hj Hne. apply mark_bits; [done|apply mod_BPB|done|done].
Qed.

Lemma allocated_in_use c s r b :
  alloc_ok c s -> data_start s <= r < sb_size s -> 0 <= b < sb_size s ->
  in_use (allocated c s r) s b = in_use c s b || (b =? r).
Proof.
  intros Ha Hr Hb. unfold allocated. pose proof (ao_blocks _ _ Ha (BBLOCK r s)) as Hbl.
  pose proof (data_start_pos c s Ha).
  assert (Hbits : forall j, 0 <= j < BPB -> j <> r mod BPB ->
    bit_set (mark (c (BBLOCK r s)) (r mod BPB)) j = bit_set (c (BBLOCK r s)) j).
  { intros j Hj Hne. apply mark_bits; [done|apply mod_BPB|done|done]. }
  rewrite in_use_put_data; [|apply alloc_ok_bit; [done|by apply is_block_insert|done|done]|lia|done].
  rewrite in_use_put by (done || lia).
  rewrite bit_set_mark by (done || apply mod_BPB). rewrite Z.eqb_refl, orb_true_r.
  case_decide as E; destruct (Z.eqb_spec b r); try done; [by rewrite orb_true_r|by rewrite orb_false_r].
Qed.

(** A block that is neither [r] nor part of the free map keeps its content. *)
Lemma allocated_other c s r x :
  alloc_ok c s -> data_start s <= r < sb_size s -> data_start s <= x -> x <> r -> allocated c s r x = c x.
Proof.
  intros Ha Hr Hx Hne. pose proof (data_start_pos c s Ha). pose proof (BBLOCK_meta c s r Ha ltac:(lia)).
  unfold allocated, put. by rewrite !decide_False by lia.
Qed.

(** ** bfree *)

Definition freed (c : Z -> block) (s : superblock) (b : Z) : Z -> block :=
  put c (BBLOCK b s) (unmark (c (BBLOCK b s)) (b mod BPB)).

Lemma freed_ok c s b : alloc_ok c s -> data_start s <= b < sb_size s -> alloc_ok (freed c s b) s.
Proof.
  intros Ha Hb. apply alloc_ok_bit; [done|apply is_block_insert, (ao_blocks _ _ Ha)|done|].
  intros j Hj Hne. apply unmark_bits; [apply (ao_blocks _ _ Ha)|apply mod_BPB|done|done].
Qed.

Lemma freed_in_use c s r b :
  alloc_ok c s -> data_start s <= r < sb_size s -> 0 <= b < sb_size s ->
  in_use (freed c s r) s b = in_use c s b && negb (b =? r).
Proof.
  intros Ha Hr Hb. pose proof (ao_blocks _ _ Ha (BBLOCK r s)) as Hbl. pose proof (data_start_pos c s Ha).
  unfold freed. rewrite in_use_put; [|done|lia|done|].
  - rewrite bit_set_unmark by (done || apply mod_BPB). rewrite Z.eqb_refl, andb_false_r.
    case_decide as E; destruct (Z.eqb_spec b r); try done; [by rewrite andb_false_r|by rewrite andb_true_r].
  - intros j Hj Hne. apply unmark_bits; [done|apply mod_BPB|done|done].
Qed.

Lemma freed_other c s r x :
  alloc_ok c s -> data_start s <= r < sb_size s -> data_start s <= x -> freed c s r x = c x.
Proof.
  intros Ha Hr Hx. pose proof (data_start_pos c s Ha). pose proof (BBLOCK_meta c s r Ha ltac:(lia)).
  unfold freed, put. by rewrite decide_False by lia.
Qed.

Lemma bfree_spec B s t O G b :
  data_ok B O G -> alloc_ok (content B) s -> (forall o, o ∈ O -> data_start s <= ob_blk o) ->
  (length O + size G + 1 < cap)%nat -> data_start s <= b < sb_size s ->
  if in_use (content B) s b then
    exists B', bfree ROOTDEV b (FState B s t) = Done tt (FState B' s t) /\ data_ok B' O ({[BBLOCK b s]} ∪ G) /\
      (forall x, content B' x = freed (content B) s b x) /\ b_pid B' = b_pid B
  else bfree ROOTDEV b (FState B s t) = Panic "freeing free block".
Proof.
  intros Hok Ha Ho Hroom Hb. pose proof (data_start_pos _ s Ha). unfold bfree. rewrite bind_gets. cbn [sb].
  assert (Hn : forall o, o ∈ O -> ob_blk o <> BBLOCK b s).
  { intros o Hin E. pose proof (Ho o Hin). pose proof (BBLOCK_meta _ s b Ha ltac:(lia)). lia. }
  destruct (open_block B s t O G (BBLOCK b s) Hok Hn ltac:(lia)) as (i & B1 & E1 & Ed & Hok1 & Hc1 & Hp1).
  mstep E1. mstep Ed. unfold in_use. destruct (bit_set (content B (BBLOCK b s)) (b mod BPB)); cbn [negb]; [|done].
  destruct (write_block B1 s t O G i (BBLOCK b s) false (unmark (content B (BBLOCK b s)) (b mod BPB)) Hok1)
    as (B2 & B3 & B4 & E2 & E3 & E4 & Hok4 & Hc4 & Hp4); [apply (ao_bitmap _ _ Ha); lia|lia|].
  exists B4. mstep E2. mstep E3. split; [done|]. split; [done|]. split; [|congruence].
  intros x. rewrite Hc4. unfold freed, put. by rewrite Hc1.
Qed.
End Alloc.
