(* ===== verification/FsInode.v ===== *)
(** * Inodes and the blocks of a file

    [slot c i k] is the address the inode holds for block [k] of the file, with
    [-1] for the indirect block; [file_ok] says the addresses are distinct blocks
    in use.  [bmap] finds or adds one address and touches nothing else. *)

From S2P Require Import Prelude Mem CString Block Sleeplock LogSpec Fs FsBlocks FsAlloc.

Section Inode.
Context {S : Type} `{!Blocks S} `{!BlocksSpec S}.

(** ** The inode table *)

Lemma ino_at (B : S) s t ip i : t !! ip = Some i -> ino ip (FState B s t) = i.
Proof. apply list_lookup_total_correct. Qed.

Lemma set_ino_done (B : S) s t ip f i :
  t !! ip = Some i -> set_ino ip f (FState B s t) = Done tt (FState B s (<[ip := f i]> t)).
Proof.
  intros Hi. unfold set_ino, modify. cbn [blocks sb itable]. do 2 f_equal. apply list_eq. intros j.
  destruct (decide (j = ip)) as [->|Hne].
  - rewrite list_lookup_alter_eq, Hi. symmetry. apply list_lookup_insert_eq. by apply lookup_lt_Some in Hi.
  - by rewrite list_lookup_alter_ne, list_lookup_insert_ne by done.
Qed.

Lemma bind_set_ino {A} (B : S) s t ip f i (m : M (fstate S) A) :
  t !! ip = Some i -> (set_ino ip f;; m) (FState B s t) = m (FState B s (<[ip := f i]> t)).
Proof. intros Hi. by rewrite (bind_done _ _ _ _ _ (set_ino_done B s t ip f i Hi)). Qed.

Lemma insert_at (t : list inode) ip i i' : t !! ip = Some i -> <[ip := i']> t !! ip = Some i'.
Proof. intros Hi. apply list_lookup_insert_eq. by apply lookup_lt_Some in Hi. Qed.

(** ** The addresses of a file *)

Definition faddr (c : Z -> block) (i : inode) (k : Z) : Z :=
  if k <? NDIRECT then addr_at i k
  else if addr_at i NDIRECT =? 0 then 0
  else ld32 (c (addr_at i NDIRECT)) (4 * (k - NDIRECT)).

Definition slot (c : Z -> block) (i : inode) (k : Z) : Z :=
  if k =? -1 then addr_at i NDIRECT else faddr c i k.

Record file_ok (c : Z -> block) (s : superblock) (i : inode) : Prop := {
  fo_dev : i_dev i = ROOTDEV;
  fo_len : length (i_addrs i) = 13%nat;
  fo_size : 0 <= i_size i <= MAXFILE * BSIZE;
  fo_data : forall k, -1 <= k < MAXFILE -> slot c i k <> 0 ->
    data_start s <= slot c i k < sb_size s /\ in_use c s (slot c i k) = true;
  fo_inj : forall j k, -1 <= j < MAXFILE -> -1 <= k < MAXFILE -> slot c i j <> 0 -> slot c i j = slot c i k -> j = k;
}.

Definition no_holes (c : Z -> block) (i : inode) : Prop :=
  forall k, 0 <= k -> k * BSIZE < i_size i -> faddr c i k <> 0.

Lemma slot_ind c i : slot c i (-1) = addr_at i NDIRECT.
Proof. done. Qed.

Lemma slot_faddr c i k : 0 <= k -> slot c i k = faddr c i k.
Proof. intros. unfold slot. destruct (Z.eqb_spec k (-1)); [lia|done]. Qed.

Lemma slot_direct c i k : 0 <= k < NDIRECT -> slot c i k = addr_at i k.
Proof. intros. rewrite slot_faddr by lia. unfold faddr. by destruct (Z.ltb_spec k NDIRECT); [|lia]. Qed.

Lemma slot_indirect c i k :
  NDIRECT <= k -> addr_at i NDIRECT <> 0 -> slot c i k = ld32 (c (addr_at i NDIRECT)) (4 * (k - NDIRECT)).
Proof.
  intros Hk Ha. rewrite slot_faddr by (unfold NDIRECT in *; lia). unfold faddr.
  destruct (Z.ltb_spec k NDIRECT); [lia|]. by destruct (Z.eqb_spec (addr_at i NDIRECT) 0).
Qed.

Lemma slot_none c i k : NDIRECT <= k -> addr_at i NDIRECT = 0 -> slot c i k = 0.
Proof.
  intros Hk Ha. rewrite slot_faddr by (unfold NDIRECT in *; lia). unfold faddr.
  destruct (Z.ltb_spec k NDIRECT); [lia|]. by rewrite Ha.
Qed.

(** The addresses depend on the indirect block only. *)
Lemma slot_ext c c' i k :
  (addr_at i NDIRECT <> 0 -> c' (addr_at i NDIRECT) = c (addr_at i NDIRECT)) -> slot c' i k = slot c i k.
Proof.
  intros E. unfold slot, faddr. repeat case_match; try done. rewrite E; [done|]. by apply Z.eqb_neq.
Qed.

Lemma slot_ext_all c c' i k : (forall x, c' x = c x) -> slot c' i k = slot c i k.
Proof. intros E. apply slot_ext. intros _. apply E. Qed.

(** One address more, of a block no other slot has. *)
Lemma file_ok_slot c c' s i i' k0 r :
  file_ok c s i -> i_dev i' = i_dev i -> length (i_addrs i') = 13%nat -> i_size i' = i_size i ->
  (forall k, -1 <= k < MAXFILE -> slot c' i' k = if decide (k = k0) then r else slot c i k) ->
  data_start s <= r < sb_size s -> in_use c' s r = true -> (forall k, -1 <= k < MAXFILE -> slot c i k <> r) ->
  (forall b, data_start s <= b < sb_size s -> in_use c s b = true -> in_use c' s b = true) ->
  file_ok c' s i'.
Proof.
  intros [D L Z1 F I] HD HL HS Hs Hr Hu Hn Hm. split; [congruence|done|by rewrite HS| |].
  - intros k Hk. rewrite Hs by done. case_decide; [done|]. intros H0. destruct (F k Hk H0). auto.
  - intros j k Hj Hk. rewrite !Hs by done. repeat case_decide; try congruence.
    + intros _ E. exfalso. by apply (Hn k).
    + intros _ E. exfalso. by apply (Hn j).
    + by apply I.
Qed.

Lemma file_ok_ext c c' s i :
  file_ok c s i -> (addr_at i NDIRECT <> 0 -> c' (addr_at i NDIRECT) = c (addr_at i NDIRECT)) ->
  (forall b, data_start s <= b < sb_size s -> in_use c s b = true -> in_use c' s b = true) -> file_ok c' s i.
Proof.
  intros [D L Z1 F I] E Hm. split; [done..| |].
  - intros k Hk. rewrite !(slot_ext c c') by done. intros H0. destruct (F k Hk H0). auto.
  - intros j k Hj Hk. rewrite !(slot_ext c c') by done. by apply I.
Qed.

(** ** Adding an address *)

Definition put_addr (i : inode) (k a : Z) : inode := with_addrs (<[Z.to_nat k := a]> (i_addrs i)) i.

Lemma addr_at_put i k a j :
  length (i_addrs i) = 13%nat -> 0 <= k <= NDIRECT -> 0 <= j -> addr_at (put_addr i k a) j = if decide (j = k) then a else addr_at i j.
Proof.
  intros HL Hk Hj. unfold addr_at, put_addr. cbn [i_addrs with_addrs]. unfold NDIRECT in *. case_decide as E.
  - subst j. apply nth_insert_eq. lia.
  - apply nth_insert_ne. lia.
Qed.

(** What allocating a block means for a file. *)
Lemma allocated_keeps c s i r :
  alloc_ok c s -> file_ok c s i -> lowest_free c s r ->
  (addr_at i NDIRECT <> 0 -> allocated c s r (addr_at i NDIRECT) = c (addr_at i NDIRECT)) /\
  (forall k, -1 <= k < MAXFILE -> slot c i k <> r) /\ in_use (allocated c s r) s r = true /\
  (forall b, data_start s <= b < sb_size s -> in_use c s b = true -> in_use (allocated c s r) s b = true).
Proof.
  intros Ha [D L Z1 F I] (Hr & Hf & _). pose proof (data_start_pos c s Ha).
  assert (Hn : forall k, -1 <= k < MAXFILE -> slot c i k <> r).
  { intros k Hk E. destruct (F k Hk) as [_ Hu]; [lia|]. rewrite E, Hf in Hu. done. }
  split; [|split; [done|split]].
  - intros H0. assert (Hm : -1 <= -1 < MAXFILE) by (unfold MAXFILE, NDIRECT, NINDIRECT, BSIZE; lia).
    destruct (F (-1) Hm) as [Hd _]; [done|]. rewrite slot_ind in Hd. apply allocated_other; try done; [lia|].
    by apply (Hn (-1)).
  - rewrite allocated_in_use by (done || lia). by rewrite Z.eqb_refl, orb_true_r.
  - intros b Hb Hu. rewrite allocated_in_use by (done || lia). by rewrite Hu.
Qed.

Lemma slot_put_direct c i k a j :
  length (i_addrs i) = 13%nat -> 0 <= k < NDIRECT -> -1 <= j < MAXFILE ->
  slot c (put_addr i k a) j = if decide (j = k) then a else slot c i j.
Proof.
  intros HL Hk Hj. assert (E : addr_at (put_addr i k a) NDIRECT = addr_at i NDIRECT).
  { rewrite addr_at_put by (done || unfold NDIRECT in *; lia). by rewrite decide_False by lia. }
  destruct (Z.lt_ge_cases j 0); [|destruct (Z.lt_ge_cases j NDIRECT)].
  - replace j with (-1) by lia. rewrite decide_False by lia. by rewrite !slot_ind.
  - rewrite !slot_direct by lia. apply addr_at_put; [done|lia|lia].
  - rewrite decide_False by lia. destruct (decide (addr_at i NDIRECT = 0)).
    + by rewrite !slot_none by congruence.
    + rewrite !slot_indirect by congruence. by rewrite E.
Qed.

Lemma ld32_zero off : ld32 zero_block off = 0.
Proof.
  unfold ld32, zero_block. cbn [ld]. assert (H : forall n, nth n (replicate (Z.to_nat BSIZE) 0) 0 = 0).
  { intros n. rewrite nth_lookup. destruct (_ !! n) eqn:E; [|done]. by apply lookup_replicate in E as [-> _]. }
  by rewrite !H.
Qed.

Lemma slot_put_ind c i a j :
  length (i_addrs i) = 13%nat -> addr_at i NDIRECT = 0 -> a <> 0 -> c a = zero_block -> -1 <= j < MAXFILE ->
  slot c (put_addr i NDIRECT a) j = if decide (j = -1) then a else slot c i j.
Proof.
  intros HL H0 Ha Hz Hj. assert (E : addr_at (put_addr i NDIRECT a) NDIRECT = a).
  { rewrite addr_at_put by (done || unfold NDIRECT in *; lia). by rewrite decide_True. }
  destruct (Z.lt_ge_cases j 0); [|destruct (Z.lt_ge_cases j NDIRECT)].
  - replace j with (-1) by lia. rewrite decide_True by lia. by rewrite slot_ind.
  - rewrite decide_False by lia. rewrite !slot_direct by lia. rewrite addr_at_put by (done || unfold NDIRECT in *; lia).
    by rewrite decide_False by lia.
  - rewrite decide_False by lia. rewrite (slot_none c i) by done. rewrite slot_indirect by congruence.
    rewrite E, Hz. apply ld32_zero.
Qed.

Lemma slot_put_entry c i k a j :
  is_block (c (addr_at i NDIRECT)) -> addr_at i NDIRECT <> 0 -> NDIRECT <= k < MAXFILE -> -1 <= j < MAXFILE -> 0 <= a < 2 ^ 32 ->
  slot (put c (addr_at i NDIRECT) (st32 (c (addr_at i NDIRECT)) (4 * (k - NDIRECT)) a)) i j =
    if decide (j = k) then a else slot c i j.
Proof.
  intros Hb H0 Hk Hj Ha. destruct (Z.lt_ge_cases j 0); [|destruct (Z.lt_ge_cases j NDIRECT)].
  - replace j with (-1) by lia. rewrite decide_False by (unfold NDIRECT in *; lia). by rewrite !slot_ind.
  - rewrite decide_False by lia. by rewrite !slot_direct by lia.
  - rewrite !slot_indirect by done. unfold put. rewrite decide_True by done.
    unfold is_block, MAXFILE, NINDIRECT, NDIRECT, BSIZE in *. case_decide as E.
    + subst j. rewrite ld32_st32 by lia. apply u32_small. done.
    + apply ld32_st32_ne; lia.
Qed.

(** ** Growing a file

    The blocks a change of the file leaves alone: those before the free map, and
    the data blocks in use other than the indirect block. *)
Definition kept (c : Z -> block) (s : superblock) (i : inode) (x : Z) : Prop :=
  x < sb_bmapstart s \/ (data_start s <= x < sb_size s /\ in_use c s x = true /\ x <> addr_at i NDIRECT).

Record grown (s : superblock) (c c' : Z -> block) (i i' : inode) (k0 : Z) : Prop := {
  gr_alloc : alloc_ok c' s;
  gr_file : file_ok c' s i';
  gr_slots : forall k, 0 <= k < MAXFILE -> k <> k0 -> faddr c' i' k = faddr c i k;
  gr_ind : addr_at i NDIRECT <> 0 -> addr_at i' NDIRECT = addr_at i NDIRECT;
  gr_ind_new : addr_at i NDIRECT = 0 -> addr_at i' NDIRECT = 0 \/ in_use c s (addr_at i' NDIRECT) = false;
  gr_used : forall b, data_start s <= b < sb_size s -> in_use c s b = true -> in_use c' s b = true;
  gr_kept : forall x, kept c s i x -> c' x = c x;
  gr_inode : i' = with_addrs (i_addrs i') i;
}.

Lemma with_addrs_same i : i = with_addrs (i_addrs i) i.
Proof. by destruct i. Qed.

Lemma grown_refl s c i k : alloc_ok c s -> file_ok c s i -> grown s c c i i k.
Proof. intros Ha Hf. split; try done; [by left|apply with_addrs_same]. Qed.

Lemma in_use_ext c c' s b : (forall x, c' x = c x) -> in_use c' s b = in_use c s b.
Proof. intros E. unfold in_use. by rewrite E. Qed.

Lemma faddr_ext c c' i k : (forall x, c' x = c x) -> faddr c' i k = faddr c i k.
Proof. intros E. unfold faddr. by rewrite E. Qed.

Lemma grown_ext s c c1 c2 i i' k : (forall x, c2 x = c1 x) -> grown s c c1 i i' k -> grown s c c2 i i' k.
Proof.
  intros E [H1 H2 H3 H4 H5 H6 H7 H8]. split; try done.
  - by apply (alloc_ok_ext c1).
  - apply (file_ok_ext c1); [done|done|]. intros b _ Hu. by rewrite (in_use_ext c1 c2).
  - intros j Hj Hne. rewrite (faddr_ext c1 c2) by done. by apply H3.
  - intros b Hb Hu. rewrite (in_use_ext c1 c2) by done. by apply H6.
  - intros x Hx. rewrite E. by apply H7.
Qed.

Lemma grown_kept s c c' i i' k x : alloc_ok c s -> grown s c c' i i' k -> kept c s i x -> kept c' s i' x.
Proof.
  intros Ha Hg [Hx|(Hx & Hu & Hne)]; [by left|right]. pose proof (data_start_pos c s Ha).
  split; [done|]. split; [by apply (gr_used _ _ _ _ _ _ Hg)|]. destruct (decide (addr_at i NDIRECT = 0)) as [E|E].
  - destruct (gr_ind_new _ _ _ _ _ _ Hg E) as [->|Hf]; [lia|]. intros ->. by rewrite Hf in Hu.
  - by rewrite (gr_ind _ _ _ _ _ _ Hg E).
Qed.

Lemma grown_trans s c c1 c2 i i1 i2 k :
  alloc_ok c s -> grown s c c1 i i1 k -> grown s c1 c2 i1 i2 k -> grown s c c2 i i2 k.
Proof.
  intros Ha G1 G2. split; try apply G2.
  - intros j Hj Hne. by rewrite (gr_slots _ _ _ _ _ _ G2), (gr_slots _ _ _ _ _ _ G1).
  - intros E. pose proof (gr_ind _ _ _ _ _ _ G1 E) as E1. rewrite (gr_ind _ _ _ _ _ _ G2); congruence.
  - intros E. destruct (decide (addr_at i1 NDIRECT = 0)) as [E1|E1].
    + destruct (gr_ind_new _ _ _ _ _ _ G2 E1) as [|Hf]; [by left|]. destruct (decide (addr_at i2 NDIRECT = 0)); [by left|right].
      pose proof (fo_data _ _ _ (gr_file _ _ _ _ _ _ G2) (-1)) as [Hd _];
        [unfold MAXFILE, NDIRECT, NINDIRECT, BSIZE; lia|done|].
      destruct (in_use c s _) eqn:Eu; [|done]. rewrite (gr_used _ _ _ _ _ _ G1) in Hf; done.
    + rewrite (gr_ind _ _ _ _ _ _ G2 E1). by apply (gr_ind_new _ _ _ _ _ _ G1).
  - intros b Hb Hu. apply (gr_used _ _ _ _ _ _ G2); [done|]. by apply (gr_used _ _ _ _ _ _ G1).
  - intros x Hx. rewrite (gr_kept _ _ _ _ _ _ G2) by (by apply (grown_kept s c c1 i i1 k)). by apply (gr_kept _ _ _ _ _ _ G1).
  - transitivity (with_addrs (i_addrs i2) i1); [apply G2|]. by rewrite (gr_inode _ _ _ _ _ _ G1).
Qed.

Lemma allocated_kept c s i r x : alloc_ok c s -> lowest_free c s r -> kept c s i x -> allocated c s r x = c x.
Proof.
  intros Ha (Hr & Hf & _) Hx. pose proof (data_start_pos c s Ha). pose proof (ao_bmap _ _ Ha).
  pose proof (BBLOCK_val c s r Ha ltac:(lia)) as EB. pose proof (BBLOCK_meta c s r Ha ltac:(lia)).
  assert (0 <= r / BPB) by (unfold BPB, BSIZE; lia).
  assert (sb_bmapstart s <= data_start s) by (unfold data_start, BPB, BSIZE in *; lia).
  unfold allocated, put. destruct Hx as [Hx|(Hx & Hu & _)].
  - by rewrite !decide_False by lia.
  - rewrite !decide_False; [done|lia|intros ->; by rewrite Hf in Hu].
Qed.

Lemma grown_direct c s i r k :
  alloc_ok c s -> file_ok c s i -> lowest_free c s r -> 0 <= k < NDIRECT ->
  grown s c (allocated c s r) i (put_addr i k r) k.
Proof.
  intros Ha Hf Hr Hk. destruct (allocated_keeps c s i r Ha Hf Hr) as (K1 & K2 & K3 & K4).
  pose proof (fo_len _ _ _ Hf) as HL. pose proof Hr as (Hd & _).
  assert (Hsl : forall j, -1 <= j < MAXFILE ->
    slot (allocated c s r) (put_addr i k r) j = if decide (j = k) then r else slot c i j).
  { intros j Hj. rewrite slot_put_direct by done. by rewrite (slot_ext c _ i j). }
  assert (Hi : addr_at (put_addr i k r) NDIRECT = addr_at i NDIRECT).
  { rewrite addr_at_put by (done || unfold NDIRECT in *; lia). by rewrite decide_False by lia. }
  split; try done.
  - by apply allocated_ok.
  - apply (file_ok_slot c _ s i _ k r); try done. unfold put_addr. cbn [i_addrs with_addrs]. by rewrite length_insert.
  - intros j Hj Hne. rewrite <-!slot_faddr by lia. rewrite Hsl by lia. by rewrite decide_False.
  - intros E. left. congruence.
  - intros x. by apply allocated_kept.
Qed.

Lemma grown_ind c s i r k :
  alloc_ok c s -> file_ok c s i -> lowest_free c s r -> addr_at i NDIRECT = 0 ->
  grown s c (allocated c s r) i (put_addr i NDIRECT r) k /\ addr_at (put_addr i NDIRECT r) NDIRECT = r.
Proof.
  intros Ha Hf Hr H0. destruct (allocated_keeps c s i r Ha Hf Hr) as (K1 & K2 & K3 & K4).
  pose proof (fo_len _ _ _ Hf) as HL. pose proof Hr as (Hd & Hfree & _). pose proof (data_start_pos c s Ha).
  assert (Hz : allocated c s r r = zero_block) by (unfold allocated, put; by rewrite decide_True).
  assert (Hsl : forall j, -1 <= j < MAXFILE ->
    slot (allocated c s r) (put_addr i NDIRECT r) j = if decide (j = -1) then r else slot c i j).
  { intros j Hj. rewrite slot_put_ind by (done || lia). by rewrite (slot_ext c _ i j). }
  assert (Hi : addr_at (put_addr i NDIRECT r) NDIRECT = r).
  { rewrite addr_at_put by (done || unfold NDIRECT in *; lia). by rewrite decide_True by lia. }
  split; [|done]. split; try done.
  - by apply allocated_ok.
  - apply (file_ok_slot c _ s i _ (-1) r); try done. unfold put_addr. cbn [i_addrs with_addrs]. by rewrite length_insert.
  - intros j Hj Hne. rewrite <-!slot_faddr by lia. rewrite Hsl by lia. by rewrite decide_False by lia.
  - intros E. right. congruence.
  - intros x. by apply allocated_kept.
Qed.

Lemma grown_entry c s i r k :
  alloc_ok c s -> file_ok c s i -> lowest_free c s r -> addr_at i NDIRECT <> 0 -> NDIRECT <= k < MAXFILE ->
  let c' := put (allocated c s r) (addr_at i NDIRECT) (st32 (c (addr_at i NDIRECT)) (4 * (k - NDIRECT)) r) in
  grown s c c' i i k /\ slot c' i k = r.
Proof.
  intros Ha Hf Hr H0 Hk. destruct (allocated_keeps c s i r Ha Hf Hr) as (K1 & K2 & K3 & K4).
  pose proof Hr as (Hd & Hfree & _). pose proof (data_start_pos c s Ha). pose proof (ao_size _ _ Ha).
  pose proof (allocated_ok c s r Ha Hd) as Ha1. rewrite <-(K1 H0).
  set (c1 := allocated c s r) in *. intros c'.
  pose proof (fo_data _ _ _ Hf (-1)) as [Hi _]; [unfold MAXFILE, NDIRECT, NINDIRECT, BSIZE; lia|done|]. rewrite slot_ind in Hi.
  assert (Hsl : forall j, -1 <= j < MAXFILE -> slot c' i j = if decide (j = k) then r else slot c i j).
  { intros j Hj. unfold c'. rewrite slot_put_entry by (done || apply (ao_blocks _ _ Ha1) || lia).
    by rewrite (slot_ext c c1 i j). }
  assert (Hu : forall b, data_start s <= b < sb_size s -> in_use c' s b = in_use c1 s b).
  { intros b Hb. apply in_use_put_data; [done|lia|lia]. }
  split; [|rewrite Hsl by (unfold NDIRECT in *; lia); by rewrite decide_True]. split; try done.
  - apply alloc_ok_put; [done|apply is_block_st32, (ao_blocks _ _ Ha1)|lia].
  - apply (file_ok_slot c _ s i _ k r); try done; [apply (fo_len _ _ _ Hf)|by rewrite Hu|].
    intros b Hb Hb2. rewrite Hu by done. auto.
  - intros j Hj Hne. rewrite <-!slot_faddr by lia. rewrite Hsl by lia. by rewrite decide_False by lia.
  - intros b Hb Hb2. rewrite Hu by done. auto.
  - intros x Hx. unfold c', put. rewrite decide_False; [by apply (allocated_kept c s i)|].
    intros ->. destruct Hx as [Hx|(_ & _ & Hx)]; [|done]. pose proof (ao_bmap _ _ Ha).
    unfold data_start, BPB, BSIZE in *. lia.
  - apply with_addrs_same.
Qed.

(** ** bmap *)

(** The blocks of the free map. *)
Definition bitmap (s : superblock) : gset Z := list_to_set (seqZ (sb_bmapstart s) (sb_size s / BPB + 1)).

Lemma BBLOCK_bitmap c s b : alloc_ok c s -> 0 <= b < sb_size s -> BBLOCK b s ∈ bitmap s.
Proof.
  intros Ha Hb. rewrite (BBLOCK_val c s b Ha Hb). apply elem_of_list_to_set, elem_of_seqZ.
  pose proof (ao_bmap _ _ Ha). unfold BPB, BSIZE. lia.
Qed.

Lemma size_bitmap s : 0 <= sb_size s -> size (bitmap s) = Z.to_nat (sb_size s / BPB + 1).
Proof. intros H. unfold bitmap. rewrite size_list_to_set by apply NoDup_seqZ. by rewrite length_seqZ. Qed.

(** The blocks an allocation logs. *)
Lemma alloc_logged c s r (G : gset Z) :
  alloc_ok c s -> 0 <= r < sb_size s -> {[r]} ∪ ({[BBLOCK r s]} ∪ G) ⊆ G ∪ bitmap s ∪ {[r]}.
Proof. intros Ha Hr. pose proof (BBLOCK_bitmap c s r Ha Hr) as H. clear -H. set_solver. Qed.

Lemma sub_logged (G X Y : gset Z) : G ⊆ G ∪ X ∪ Y.
Proof. set_solver. Qed.

Lemma sub_weaken (G G' X : gset Z) a r : G' ⊆ G ∪ X ∪ {[r]} -> G' ⊆ G ∪ X ∪ {[a; r]}.
Proof. set_solver. Qed.

Lemma sub_entry (G G' X : gset Z) a r : G' ⊆ G ∪ X ∪ {[r]} -> {[a]} ∪ G' ⊆ G ∪ X ∪ {[a; r]}.
Proof. set_solver. Qed.

(** What [bmap ip bn] leaves: the address [r] of block [bn], or [0] on a full disk. *)
Record bmapped (B : S) (s : superblock) (G : gset Z) (i : inode) (bn r : Z) (B' : S) (i' : inode) (G' : gset Z) : Prop := {
  bm_ok : data_ok B' [] G';
  bm_grown : grown s (content B) (content B') i i' bn;
  bm_addr : faddr (content B') i' bn = r;
  bm_same : faddr (content B) i bn <> 0 -> i' = i /\ G' = G /\ (forall x, content B' x = content B x);
  bm_zero : faddr (content B) i bn = 0 -> r <> 0 -> content B' r = zero_block /\ in_use (content B) s r = false;
  bm_full : r = 0 -> disk_full (content B') s;
  bm_logged : G ⊆ G' /\ G' ⊆ G ∪ bitmap s ∪ {[addr_at i' NDIRECT; r]};
  bm_pid : b_pid B' = b_pid B;
}.

Lemma opens_used_nil c s : opens_used c s [].
Proof. intros o Ho. by apply elem_of_nil in Ho. Qed.

Lemma size_add2 (G : gset Z) a b : (size ({[a]} ∪ ({[b]} ∪ G)) <= size G + 2)%nat.
Proof. pose proof (size_add ({[b]} ∪ G) a). pose proof (size_add G b). lia. Qed.

Lemma subset_add2 (G : gset Z) a b : G ⊆ {[a]} ∪ ({[b]} ∪ G).
Proof. set_solver. Qed.

Lemma disk_full_ext c c' s : (forall x, c' x = c x) -> disk_full c s -> disk_full c' s.
Proof. intros E H b Hb. rewrite (in_use_ext c c') by done. by apply H. Qed.

Lemma bmap_direct_spec B s t ip i G bn :
  data_ok B [] G -> alloc_ok (content B) s -> file_ok (content B) s i -> t !! ip = Some i ->
  (size G + 2 < cap)%nat -> 0 <= bn < NDIRECT ->
  exists r B' i' G', bmap ip bn (FState B s t) = Done r (FState B' s (<[ip := i']> t)) /\
    bmapped B s G i bn r B' i' G'.
Proof.
  intros Hok Ha Hf Hi Hroom Hbn. unfold bmap. rewrite bind_gets, (ino_at B s t ip i Hi).
  destruct (Z.ltb_spec bn NDIRECT); [|lia].
  assert (Hfa : forall c i', faddr c i' bn = addr_at i' bn) by (intros c i'; rewrite <-slot_faddr, slot_direct by lia; done).
  destruct (Z.eqb_spec (addr_at i bn) 0) as [E0|E0].
  - rewrite (fo_dev _ _ _ Hf). destruct (balloc_spec B s t [] G Hok Ha (opens_used_nil _ s) Hroom) as (r & B' & E & [Hp Hc]).
    mstep E. destruct Hc as [(-> & Hfull & Hok' & Hc)|(Hr & Hok' & Hc)].
    + exists 0, B', i, G. split; [by rewrite list_insert_id|]. split; try done.
      * apply (grown_ext s _ (content B)); [done|]. by apply grown_refl.
      * by rewrite Hfa.
      * intros _. by apply (disk_full_ext (content B)).
      * split; [done|apply sub_logged].
    + pose proof (data_start_pos _ s Ha). pose proof Hr as (Hrd & Hfree & _). destruct (Z.eqb_spec r 0); [lia|].
      unfold set_addr. rewrite (bind_set_ino B' s t ip _ i _ Hi). exists r, B', (put_addr i bn r), ({[r]} ∪ ({[BBLOCK r s]} ∪ G)).
      split; [done|]. split; try done.
      * apply (grown_ext s _ (allocated (content B) s r)); [done|]. by apply grown_direct.
      * rewrite Hfa, addr_at_put by (apply (fo_len _ _ _ Hf) || lia). by rewrite decide_True.
      * intros Hn. by rewrite Hfa, E0 in Hn.
      * intros _ _. rewrite Hc. split; [|done]. unfold allocated, put. by rewrite decide_True.
      * split; [apply subset_add2|]. apply sub_weaken, (alloc_logged (content B)); [done|lia].
  - exists (addr_at i bn), B, i, G. split; [by rewrite list_insert_id|]. split; try done.
    + by apply grown_refl.
    + intros Hn. by rewrite Hfa in Hn.
    + split; [done|apply sub_logged].
Qed.

(** The indirect block, allocated if the file has none. *)
Lemma bmap_ind_spec B s t ip i G bn :
  data_ok B [] G -> alloc_ok (content B) s -> file_ok (content B) s i -> t !! ip = Some i -> (size G + 2 < cap)%nat ->
  exists a B' i' G',
    (if addr_at i NDIRECT =? 0 then
       addr ← balloc (i_dev i);
       if addr =? 0 then mret 0
       else set_addr ip NDIRECT addr;; mret addr
     else mret (addr_at i NDIRECT)) (FState B s t) = Done a (FState B' s (<[ip := i']> t)) /\
    data_ok B' [] G' /\ grown s (content B) (content B') i i' bn /\ addr_at i' NDIRECT = a /\
    (if decide (addr_at i NDIRECT = 0) then a = 0 /\ disk_full (content B') s \/ a <> 0 /\ content B' a = zero_block
     else i' = i /\ G' = G /\ (forall x, content B' x = content B x)) /\
    (G ⊆ G' /\ G' ⊆ G ∪ bitmap s ∪ {[a]} /\ (size G' <= size G + 2)%nat) /\ b_pid B' = b_pid B.
Proof.
  intros Hok Ha Hf Hi Hroom. destruct (decide (addr_at i NDIRECT = 0)) as [E0|E0];
    destruct (Z.eqb_spec (addr_at i NDIRECT) 0); try done.
  - rewrite (fo_dev _ _ _ Hf).
    destruct (balloc_spec B s t [] G Hok Ha (opens_used_nil _ s) Hroom) as (r & B' & E & [Hp Hc]).
    mstep E. destruct Hc as [(-> & Hfull & Hok' & Hc)|(Hr & Hok' & Hc)].
    + exists 0, B', i, G. split; [by rewrite list_insert_id|]. split; [done|]. split.
      { apply (grown_ext s _ (content B)); [done|]. by apply grown_refl. }
      split; [done|]. split; [left; split; [done|by apply (disk_full_ext (content B))]|]. split; [|done].
      split; [done|]. split; [apply sub_logged|lia].
    + pose proof (data_start_pos _ s Ha). pose proof Hr as (Hrd & _). destruct (Z.eqb_spec r 0); [lia|].
      destruct (grown_ind (content B) s i r bn Ha Hf Hr E0) as [Hg Hr'].
      unfold set_addr. rewrite (bind_set_ino B' s t ip _ i _ Hi).
      exists r, B', (put_addr i NDIRECT r), ({[r]} ∪ ({[BBLOCK r s]} ∪ G)).
      split; [done|]. split; [done|]. split; [by apply (grown_ext s _ (allocated (content B) s r))|]. split; [done|]. split.
      { right. rewrite Hc. split; [lia|]. unfold allocated, put. by rewrite decide_True. }
      split; [|done]. split; [apply subset_add2|]. split; [|apply size_add2].
      apply (alloc_logged (content B)); [done|lia].
  - exists (addr_at i NDIRECT), B, i, G. split; [by rewrite list_insert_id|].
    split; [done|]. split; [by apply grown_refl|]. split; [done|]. split; [done|]. split; [|done]. split; [done|]. split; [apply sub_logged|lia].
Qed.

(** The entry of the indirect block. *)
Lemma bmap_entry_spec B s t i G k :
  data_ok B [] G -> alloc_ok (content B) s -> file_ok (content B) s i -> (size G + 3 < cap)%nat ->
  addr_at i NDIRECT <> 0 -> NDIRECT <= k < MAXFILE ->
  exists r B' G',
    (bp ← blk_op (b_read (i_dev i) (addr_at i NDIRECT));
     d ← get_data bp;
     addr ← (if ld32 d (4 * (k - NDIRECT)) =? 0 then
               addr ← balloc (i_dev i);
               (if negb (addr =? 0) then
                  d ← get_data bp;
                  set_data bp (st32 d (4 * (k - NDIRECT)) addr);;
                  blk_op (b_log bp)
                else mret tt);;
               mret addr
             else mret (ld32 d (4 * (k - NDIRECT))));
     blk_op (b_relse bp);;
     mret addr) (FState B s t) = Done r (FState B' s t) /\
    bmapped B s G i k r B' i G'.
Proof.
  intros Hok Ha Hf Hroom H0 Hk. set (a := addr_at i NDIRECT) in *.
  pose proof (fo_data _ _ _ Hf (-1)) as [Had Hau]; [unfold NDIRECT in *; lia|done|]. rewrite slot_ind in Had, Hau. fold a in Had, Hau.
  rewrite (fo_dev _ _ _ Hf).
  destruct (open_block B s t [] G a Hok) as (bp & B1 & E1 & Ed & Hok1 & Hc1 & Hp1);
    [intros o Ho; by apply elem_of_nil in Ho|cbn; lia|].
  mstep E1. mstep Ed.
  assert (Hfa : forall c, faddr c i k = ld32 (c a) (4 * (k - NDIRECT))).
  { intros c. rewrite <-slot_faddr, slot_indirect by (done || unfold NDIRECT in *; lia). done. }
  assert (Ha1 : alloc_ok (content B1) s) by (by apply (alloc_ok_ext (content B))).
  destruct (Z.eqb_spec (ld32 (content B a) (4 * (k - NDIRECT))) 0) as [E0|E0].
  - destruct (balloc_spec B1 s t [(bp, a, false)] G Hok1 Ha1) as (r & B2 & E2 & [Hp2 Hc2]).
    { intros o [->|Ho]%elem_of_cons; [|by apply elem_of_nil in Ho]. cbn. by rewrite (in_use_ext (content B) (content B1)). }
    { cbn [length]. lia. }
    rewrite bind_assoc. mstep E2. destruct Hc2 as [(-> & Hfull & Hok2 & Hc2)|(Hr & Hok2 & Hc2)].
    + cbn [negb Z.eqb]. rewrite bind_assoc, !bind_ret.
      destruct (close_block B2 s t [] G bp a Hok2) as (B3 & E3 & Hok3 & Hc3 & Hp3). mstep E3.
      assert (Hc : forall x, content B3 x = content B x) by (intros x; by rewrite Hc3, Hc2, Hc1).
      exists 0, B3, G. split; [done|]. split; try done.
      * apply (grown_ext s _ (content B)); [done|]. by apply grown_refl.
      * by rewrite Hfa, Hc.
      * intros _. apply (disk_full_ext (content B1)); [intros x; by rewrite Hc, Hc1|done].
      * split; [done|apply sub_logged].
      * congruence.
    + assert (Hr' : lowest_free (content B) s r).
      { destruct Hr as (R1 & R2 & R3). split; [done|]. rewrite <-(in_use_ext (content B) (content B1)) by done.
        split; [done|]. intros b Hb. rewrite <-(in_use_ext (content B) (content B1)) by done. by apply R3. }
      assert (Hc2' : forall x, content B2 x = allocated (content B) s r x).
      { intros x. rewrite Hc2. unfold allocated, put. by rewrite !Hc1. }
      destruct (allocated_keeps (content B) s i r Ha Hf Hr') as (K1 & K2 & _). fold a in K1.
      pose proof (data_start_pos _ s Ha). pose proof Hr' as (Hrd & Hfree & _). destruct (Z.eqb_spec r 0); [lia|]. cbn [negb].
      assert (Eg : get_data bp (FState B2 s t) = Done (content B a) (FState B2 s t)).
      { unfold get_data, gets. cbn [blocks].
        rewrite (spec_data B2 [(bp, a, false)] _ bp a false Hok2) by (by left). by rewrite Hc2', K1. }
      pose proof (size_add2 G r (BBLOCK r s)) as Hsz.
      destruct (write_block B2 s t [] _ bp a false (st32 (content B a) (4 * (k - NDIRECT)) r) Hok2) as
        (B3 & B4 & B5 & E3 & E4 & E5 & Hok5 & Hc5 & Hp5); [apply (ao_data _ _ Ha); lia|lia|].
      destruct (grown_entry (content B) s i r k Ha Hf Hr' H0 Hk) as [Hg Hsl]. fold a in Hg, Hsl.
      rewrite !bind_assoc. mstep Eg. rewrite bind_assoc. mstep E3. mstep E4. rewrite bind_ret. mstep E5.
      assert (Hc5' : forall x, content B5 x = put (allocated (content B) s r) a (st32 (content B a) (4 * (k - NDIRECT)) r) x).
      { intros x. rewrite Hc5. unfold put. by rewrite !Hc2'. }
      eexists r, B5, _. split; [done|]. split; [done|by apply (grown_ext s _ _ _ _ _ _ Hc5')| | | | | |congruence].
      * rewrite (faddr_ext _ _ _ _ Hc5'). by rewrite <-slot_faddr by (unfold NDIRECT in *; lia).
      * intros Hn. by rewrite Hfa in Hn.
      * intros _ _. split; [|done]. rewrite Hc5'. unfold put. rewrite decide_False by (intros ->; rewrite Hfree in Hau; done).
        unfold allocated, put. by rewrite decide_True.
      * done.
      * fold a. split; [|apply sub_entry, (alloc_logged (content B)); [done|lia]].
        apply union_subseteq_r', subset_add2.
  - rewrite bind_ret. destruct (close_block B1 s t [] G bp a Hok1) as (B2 & E2 & Hok2 & Hc2 & Hp2). mstep E2.
    assert (Hc : forall x, content B2 x = content B x) by (intros x; by rewrite Hc2, Hc1).
    exists (ld32 (content B a) (4 * (k - NDIRECT))), B2, G. split; [done|]. split; try done.
    + apply (grown_ext s _ (content B)); [done|]. by apply grown_refl.
    + by rewrite Hfa, Hc.
    + intros Hn. by rewrite Hfa in Hn.
    + split; [done|apply sub_logged].
    + congruence.
Qed.

Lemma grown_zero_slot s c c1 i i1 k :
  grown s c c1 i i1 k -> NDIRECT <= k < MAXFILE -> addr_at i NDIRECT = 0 -> addr_at i1 NDIRECT <> 0 ->
  c1 (addr_at i1 NDIRECT) = zero_block -> faddr c1 i1 k = 0.
Proof.
  intros Hg Hk E0 E1 Hz. rewrite <-slot_faddr, slot_indirect by (done || unfold NDIRECT in *; lia). rewrite Hz. apply ld32_zero.
Qed.

Lemma sub_join (G G1 G2 X : gset Z) a r :
  G ⊆ G1 -> G1 ⊆ G ∪ X ∪ {[a]} -> G1 ⊆ G2 -> G2 ⊆ G1 ∪ X ∪ {[a; r]} -> G ⊆ G2 /\ G2 ⊆ G ∪ X ∪ {[a; r]}.
Proof. intros. split; set_solver. Qed.

Lemma bmap_spec B s t ip i G bn :
  data_ok B [] G -> alloc_ok (content B) s -> file_ok (content B) s i -> t !! ip = Some i ->
  (size G + 5 < cap)%nat -> 0 <= bn < MAXFILE ->
  exists r B' i' G', bmap ip bn (FState B s t) = Done r (FState B' s (<[ip := i']> t)) /\
    bmapped B s G i bn r B' i' G'.
Proof.
  intros Hok Ha Hf Hi Hroom Hbn. destruct (Z.lt_ge_cases bn NDIRECT) as [Hd|Hd]; [apply bmap_direct_spec; (done || lia)|].
  unfold bmap. rewrite bind_gets, (ino_at B s t ip i Hi).
  destruct (Z.ltb_spec bn NDIRECT); [lia|]. cbn zeta.
  destruct (Z.ltb_spec (bn - NDIRECT) NINDIRECT); [|unfold MAXFILE in *; lia].
  destruct (bmap_ind_spec B s t ip i G bn Hok Ha Hf Hi ltac:(lia)) as
    (a & B1 & i1 & G1 & E1 & Hok1 & Hg1 & Ha1 & Hcase & (HG1 & HG1' & Hsz1) & Hp1).
  mstep E1. pose proof (gr_inode _ _ _ _ _ _ Hg1) as Hi1. destruct (Z.eqb_spec a 0) as [Ea|Ea].
  - assert (E0 : addr_at i NDIRECT = 0).
    { destruct (decide (addr_at i NDIRECT = 0)) as [|E0]; [done|]. destruct Hcase as [-> _]. congruence. }
    rewrite decide_True in Hcase by done.
    exists 0, B1, i1, G1. split; [done|].
    assert (Hn : forall c i', addr_at i' NDIRECT = 0 -> faddr c i' bn = 0).
    { intros c i' E'. rewrite <-slot_faddr by (unfold NDIRECT in *; lia). by apply slot_none. }
    split; try done.
    + apply Hn. congruence.
    + intros Hne. by rewrite Hn in Hne.
    + intros _. by destruct Hcase as [[_ Hc]|[Hc _]].
    + split; [done|]. rewrite Ha1, Ea. by apply sub_weaken; rewrite <-Ea.
  - rewrite <-Ha1. replace (i_dev i) with (i_dev i1) by (by rewrite Hi1).
    destruct (bmap_entry_spec B1 s (<[ip := i1]> t) i1 G1 bn Hok1 (gr_alloc _ _ _ _ _ _ Hg1) (gr_file _ _ _ _ _ _ Hg1))
      as (r & B2 & G2 & E2 & [K1 K2 K3 K4 K5 K6 [K7 K7'] K8]); [lia|congruence|lia|].
    exists r, B2, i1, G2. split; [exact E2|]. clear E2.
    assert (Hsame : faddr (content B) i bn <> 0 -> i1 = i /\ G1 = G /\ (forall x, content B1 x = content B x)).
    { intros Hne. destruct (decide (addr_at i NDIRECT = 0)) as [E0|E0]; [|done]. exfalso. apply Hne.
      rewrite <-slot_faddr by (unfold NDIRECT in *; lia). by apply slot_none. }
    split; try done.
    + by apply (grown_trans s _ (content B1) _ i i1 i1).
    + intros Hne. destruct (Hsame Hne) as (-> & -> & Hc1). split; [done|]. rewrite (faddr_ext (content B) _ i bn Hc1) in K4.
      destruct (K4 Hne) as (_ & -> & Hc). split; [done|]. intros x. by rewrite Hc, Hc1.
    + intros Hz Hr. destruct K5 as [K5 K5']; [|done|].
      * destruct (decide (addr_at i NDIRECT = 0)) as [E0|E0].
        -- destruct Hcase as [[? _]|[_ Hz1]]; [done|]. subst a. apply (grown_zero_slot s (content B) _ i i1); (done || lia).
        -- destruct Hcase as (-> & _ & Hc). by rewrite (faddr_ext (content B) _ i bn Hc).
      * split; [done|]. destruct (in_use (content B) s r) eqn:Eu; [|done].
        pose proof (fo_data _ _ _ (gr_file _ _ _ _ _ _ K2) bn) as [Hd' _]; [lia|by rewrite slot_faddr, K3 by lia|].
        rewrite slot_faddr, K3 in Hd' by lia. by rewrite (gr_used _ _ _ _ _ _ Hg1) in K5'.
    + subst a. by apply (sub_join G G1 G2).
    + congruence.
Qed.
End Inode.
