(* ===== verification/FsRw.v ===== *)
(** * Reading and writing files

    [fbyte c i p] is byte [p] of the file of inode [i].  [readi] returns these
    bytes; [writei] changes the bytes it is asked to change and no others, in
    whatever blocks of the disk they are. *)

From S2P Require Import Prelude Mem CString Block Sleeplock LogSpec Fs FsBlocks FsAlloc FsInode.

Section Rw.
Context {S : Type} `{!Blocks S} `{!BlocksSpec S}.

Definition fbyte (c : Z -> block) (i : inode) (p : Z) : Z :=
  nth (Z.to_nat (p mod BSIZE)) (c (faddr c i (p / BSIZE))) 0.
Definition fbytes (c : Z -> block) (i : inode) (off n : Z) : list Z := fbyte c i <$> seqZ off n.

Lemma length_fbytes c i off n : length (fbytes c i off n) = Z.to_nat n.
Proof. unfold fbytes. by rewrite length_fmap, length_seqZ. Qed.

Lemma fbytes_app c i off n m : 0 <= n -> 0 <= m -> fbytes c i off (n + m) = fbytes c i off n ++ fbytes c i (off + n) m.
Proof. intros. unfold fbytes. rewrite seqZ_app by lia. by rewrite fmap_app. Qed.

Lemma nth_fbytes c i off n j : 0 <= j < n -> nth (Z.to_nat j) (fbytes c i off n) 0 = fbyte c i (off + j).
Proof.
  intros Hj. apply nth_lookup_Some. unfold fbytes. rewrite list_lookup_fmap, lookup_seqZ_lt by lia. cbn. f_equal. f_equal. lia.
Qed.

Lemma fbytes_ext c c' i i' off n :
  (forall p, off <= p < off + n -> fbyte c' i' p = fbyte c i p) -> fbytes c' i' off n = fbytes c i off n.
Proof. intros H. apply list_fmap_ext. intros j x [-> Hx]%lookup_seqZ. apply H. lia. Qed.

Lemma list_nth_eq (l k : list Z) : length l = length k -> (forall j, (j < length l)%nat -> nth j l 0 = nth j k 0) -> l = k.
Proof. intros HL H. apply (nth_ext l k 0 0); done. Qed.

Lemma nth_slice (d : list Z) off n j : 0 <= off -> (j < Z.to_nat n)%nat -> nth j (slice d off n) 0 = nth (Z.to_nat off + j) d 0.
Proof.
  intros Ho Hj. unfold slice. rewrite !nth_lookup. by rewrite lookup_take_lt, lookup_drop by lia.
Qed.

(** What one round of [readi] copies. *)
Lemma slice_fbytes c i off m :
  is_block (c (faddr c i (off / BSIZE))) -> 0 <= off -> 0 <= m <= BSIZE - off mod BSIZE ->
  slice (c (faddr c i (off / BSIZE))) (off mod BSIZE) m = fbytes c i off m.
Proof.
  intros Hb Ho Hm. unfold is_block in Hb. pose proof (Z.mod_pos_bound off BSIZE ltac:(done)).
  apply list_nth_eq; [rewrite length_slice, length_fbytes; lia|]. rewrite length_slice by lia. intros j Hj.
  rewrite nth_slice by lia. replace j with (Z.to_nat (Z.of_nat j)) at 2 by lia. rewrite nth_fbytes by lia.
  unfold fbyte. assert (E : (off + Z.of_nat j) / BSIZE = off / BSIZE) by (unfold BSIZE in *; lia). rewrite E. f_equal.
  unfold BSIZE in *. lia.
Qed.

(** ** readi *)

(** The number of blocks that hold the bytes from [off] to [e]. *)
Definition span (off e : Z) : Z := if off <? e then (e - 1) / BSIZE - off / BSIZE + 1 else 0.

Lemma span_next off e :
  0 <= off < e -> let m := Z.min (e - off) (BSIZE - off mod BSIZE) in
  0 < m /\ m <= BSIZE - off mod BSIZE /\ off + m <= e /\ span (off + m) e = span off e - 1 /\ 0 < span off e.
Proof.
  intros Ho m. pose proof (Z.mod_pos_bound off BSIZE ltac:(done)). unfold span.
  destruct (Z.ltb_spec off e); [|lia]. destruct (Z.ltb_spec (off + m) e); subst m; unfold BSIZE in *; lia.
Qed.

Lemma readi_loop_spec fuel B s t ip i G out off0 n tot :
  data_ok B [] G -> alloc_ok (content B) s -> file_ok (content B) s i -> no_holes (content B) i ->
  t !! ip = Some i -> (size G + 5 < cap)%nat -> 0 <= off0 -> 0 <= tot <= n -> off0 + n <= i_size i ->
  span (off0 + tot) (off0 + n) <= Z.of_nat fuel ->
  exists k acc B',
    readi_loop fuel ip out (off0 + tot) n tot (fbytes (content B) i off0 tot) (FState B s t) =
      Done (k, acc) (FState B' s t) /\
    data_ok B' [] G /\ (forall x, content B' x = content B x) /\ b_pid B' = b_pid B /\
    (k = n /\ acc = fbytes (content B) i off0 n \/
     k = -1 /\ exists o m, 0 <= o < n /\ out o m = false /\ acc = fbytes (content B) i off0 o).
Proof.
  revert B tot. induction fuel as [|fuel IH]; intros B tot Hok Ha Hf Hh Hi Hroom Ho Ht Hn Hfu.
  all: cbn [readi_loop]; destruct (Z.ltb_spec tot n) as [Hlt|Hge];
    [|assert (tot = n) as -> by lia; eexists n, _, B; split; [done|]; by split_and!; try left].
  - exfalso. destruct (span_next (off0 + tot) (off0 + n) ltac:(lia)) as (_ & _ & _ & _ & H). lia.
  - destruct (span_next (off0 + tot) (off0 + n) ltac:(lia)) as (M1 & M2 & M3 & M4 & M5).
    replace (off0 + n - (off0 + tot)) with (n - tot) in * by lia. set (m := Z.min _ _) in *.
    set (off := off0 + tot) in *. pose proof (fo_size _ _ _ Hf) as Hsz.
    assert (Hbn : 0 <= off / BSIZE < MAXFILE /\ off / BSIZE * BSIZE < i_size i) by (unfold BSIZE in *; lia).
    destruct (bmap_spec B s t ip i G (off / BSIZE) Hok Ha Hf Hi Hroom) as (r & B1 & i1 & G1 & E1 & Hb); [lia|].
    pose proof (Hh (off / BSIZE) ltac:(lia) ltac:(lia)) as Hne.
    destruct (bm_same _ _ _ _ _ _ _ _ _ Hb Hne) as (-> & -> & Hc1). mstep E1. rewrite list_insert_id by done.
    pose proof (bm_addr _ _ _ _ _ _ _ _ _ Hb) as Hr. rewrite (faddr_ext (content B) _ _ _ Hc1) in Hr. subst r.
    destruct (Z.eqb_spec (faddr (content B) i (off / BSIZE)) 0); [done|].
    rewrite bind_gets, (ino_at B1 s t ip i Hi), (fo_dev _ _ _ Hf).
    destruct (open_block B1 s t [] G (faddr (content B) i (off / BSIZE)) (bm_ok _ _ _ _ _ _ _ _ _ Hb)) as
      (bp & B2 & E2 & Ed & Hok2 & Hc2 & Hp2); [intros o Hin; by apply elem_of_nil in Hin|cbn; lia|].
    mstep E2. mstep Ed. cbn zeta. fold m.
    destruct (close_block B2 s t [] G bp _ Hok2) as (B3 & E3 & Hok3 & Hc3 & Hp3).
    assert (Hc : forall x, content B3 x = content B x) by (intros x; by rewrite Hc3, Hc2, Hc1).
    pose proof (bm_pid _ _ _ _ _ _ _ _ _ Hb) as Hp1.
    destruct (out tot m) eqn:Eo; mstep E3.
    + rewrite Hc1, slice_fbytes by (apply (ao_blocks _ _ Ha) || lia). unfold off at 2. rewrite <-fbytes_app by lia.
      replace (off + m) with (off0 + (tot + m)) in * by lia.
      assert (Efb : forall n, fbytes (content B3) i off0 n = fbytes (content B) i off0 n).
      { intros n'. apply fbytes_ext. intros p _. unfold fbyte. by rewrite (faddr_ext (content B) _ _ _ Hc), Hc. }
      destruct (IH B3 (tot + m)) as (k & acc & B' & E & H1 & H2 & H3 & H4); try done; try lia.
      * by apply (alloc_ok_ext (content B)).
      * apply (file_ok_ext (content B)); [done|done|]. intros b _. by rewrite (in_use_ext (content B) _ _ _ Hc).
      * intros k Hk1 Hk2. rewrite (faddr_ext (content B) _ _ _ Hc). by apply Hh.
      * rewrite Efb in E. exists k, acc, B'. split; [done|]. split; [done|]. split; [intros x; by rewrite H2, Hc|].
        split; [congruence|]. by setoid_rewrite Efb in H4.
    + eexists (-1), _, B3. split; [done|]. split; [done|]. split; [done|]. split; [congruence|]. right. split; [done|].
      exists tot, m. split; [lia|done].
Qed.

(** How many bytes [readi] returns: [0] past the end or when [off + n] overflows. *)
Definition read_len (size off n : Z) : Z :=
  if (size <? off) || (2 ^ 32 <=? off + n) then 0 else Z.min n (size - off).

Lemma u32_wrap off n : 0 <= off < 2 ^ 32 -> 0 <= n < 2 ^ 32 -> (u32 (off + n) <? off) = (2 ^ 32 <=? off + n).
Proof.
  intros Ho Hn. destruct (Z.leb_spec (2 ^ 32) (off + n)) as [H|H].
  - apply Z.ltb_lt. unfold u32. lia.
  - apply Z.ltb_ge. rewrite u32_small by lia. lia.
Qed.

Lemma span_fuel off n : 0 <= off -> 0 <= n -> span off (off + n) <= Z.of_nat (Z.to_nat (n / BSIZE + 2)).
Proof. intros Ho Hn. unfold span. destruct (Z.ltb_spec off (off + n)); unfold BSIZE; lia. Qed.

Lemma readi_spec B s t ip i G out off n :
  data_ok B [] G -> alloc_ok (content B) s -> file_ok (content B) s i -> no_holes (content B) i ->
  t !! ip = Some i -> (size G + 5 < cap)%nat -> 0 <= off < 2 ^ 32 -> 0 <= n < 2 ^ 32 ->
  exists k acc B', readi ip out off n (FState B s t) = Done (k, acc) (FState B' s t) /\
    data_ok B' [] G /\ (forall x, content B' x = content B x) /\ b_pid B' = b_pid B /\
    (k = read_len (i_size i) off n /\ acc = fbytes (content B) i off k \/
     k = -1 /\ exists o m, 0 <= o < read_len (i_size i) off n /\ out o m = false /\ acc = fbytes (content B) i off o).
Proof.
  intros Hok Ha Hf Hh Hi Hroom Ho Hn. unfold readi. rewrite bind_gets, (ino_at B s t ip i Hi). rewrite u32_wrap by done.
  unfold read_len. destruct (Z.ltb_spec (i_size i) off) as [Hs|Hs]; [exists 0, [], B; split; [done|]; by split_and!; try left|].
  cbn [orb]. destruct (Z.leb_spec (2 ^ 32) (off + n)) as [Hw|Hw]; [exists 0, [], B; split; [done|]; by split_and!; try left|].
  rewrite u32_small by lia. set (n' := if i_size i <? off + n then _ else _). assert (En : n' = Z.min n (i_size i - off)).
  { subst n'. destruct (Z.ltb_spec (i_size i) (off + n)); lia. }
  rewrite <-En. clearbody n'. cbn zeta.
  destruct (readi_loop_spec (Z.to_nat (n' / BSIZE + 2)) B s t ip i G out off n' 0) as (k & acc & B' & E & H1 & H2 & H3 & H4); try done; try lia.
  - rewrite Z.add_0_r. apply span_fuel; lia.
  - rewrite Z.add_0_r in E. exists k, acc, B'. split; [exact E|]. clear E. split; [done|]. split; [done|]. split; [done|].
    destruct H4 as [[-> ->]|H4]; [by left|by right].
Qed.

(** A read that the destination accepts. *)
Lemma readi_ok B s t ip i G off n :
  data_ok B [] G -> alloc_ok (content B) s -> file_ok (content B) s i -> no_holes (content B) i ->
  t !! ip = Some i -> (size G + 5 < cap)%nat -> 0 <= off < 2 ^ 32 -> 0 <= n < 2 ^ 32 ->
  exists B', readi ip kernel_dst off n (FState B s t) =
      Done (read_len (i_size i) off n, fbytes (content B) i off (read_len (i_size i) off n)) (FState B' s t) /\
    data_ok B' [] G /\ (forall x, content B' x = content B x) /\ b_pid B' = b_pid B.
Proof.
  intros Hok Ha Hf Hh Hi Hroom Ho Hn.
  destruct (readi_spec B s t ip i G kernel_dst off n) as (k & acc & B' & E & H1 & H2 & H3 & [[-> ->]|(_ & o & m & _ & Hx & _)]); try done.
  by exists B'.
Qed.

(** ** One round of writei *)

(** Changing the content of one block of the file. *)
Lemma put_file_block c s i k d :
  alloc_ok c s -> file_ok c s i -> 0 <= k < MAXFILE -> faddr c i k <> 0 -> is_block d ->
  let c' := put c (faddr c i k) d in
  alloc_ok c' s /\ file_ok c' s i /\ (forall j, -1 <= j < MAXFILE -> slot c' i j = slot c i j) /\
  (forall b, data_start s <= b < sb_size s -> in_use c' s b = in_use c s b).
Proof.
  intros Ha Hf Hk H0 Hd c'. pose proof (fo_data _ _ _ Hf k) as [Hr Hu]; [lia|by rewrite slot_faddr by lia|].
  rewrite slot_faddr in Hr, Hu by lia. pose proof (data_start_pos c s Ha).
  assert (Hin : forall b, data_start s <= b < sb_size s -> in_use c' s b = in_use c s b).
  { intros b Hb. apply in_use_put_data; [done|lia|lia]. }
  assert (Hi : addr_at i NDIRECT <> 0 -> c' (addr_at i NDIRECT) = c (addr_at i NDIRECT)).
  { intros Hi. unfold c', put. rewrite decide_False; [done|]. intros E.
    pose proof (fo_inj _ _ _ Hf (-1) k) as Hj. rewrite slot_ind, slot_faddr in Hj by lia.
    specialize (Hj ltac:(lia) ltac:(lia) Hi E). lia. }
  split; [by apply alloc_ok_put; (done || lia)|]. split; [|split; [|done]].
  - apply (file_ok_ext c); [done|done|]. intros b Hb. by rewrite Hin.
  - intros j Hj. by apply slot_ext.
Qed.

(** The state of a write of [data] at [off0] after [tot] bytes. *)
Record wstate (s : superblock) (c0 : Z -> block) (i0 : inode) (data : list Z) (off0 : Z)
  (c : Z -> block) (i : inode) (tot : Z) : Prop := {
  ws_alloc : alloc_ok c s;
  ws_file : file_ok c s i;
  ws_full : forall k, 0 <= k -> k * BSIZE < Z.max (i_size i0) (off0 + tot) -> faddr c i k <> 0;
  ws_bytes : forall p, 0 <= p < Z.max (i_size i0) (off0 + tot) ->
    fbyte c i p = if decide (off0 <= p < off0 + tot) then nth (Z.to_nat (p - off0)) data 0 else fbyte c0 i0 p;
  ws_used : forall b, data_start s <= b < sb_size s -> in_use c0 s b = true -> in_use c s b = true;
  ws_old : forall k, 0 <= k < MAXFILE -> faddr c0 i0 k <> 0 -> faddr c i k = faddr c0 i0 k;
  ws_new : forall k, 0 <= k < MAXFILE -> faddr c0 i0 k = 0 -> faddr c i k = 0 \/ in_use c0 s (faddr c i k) = false;
  ws_keep : forall x, kept c0 s i0 x -> kept c s i x;
  ws_kept : forall x, kept c0 s i0 x -> (forall k, 0 <= k < MAXFILE -> faddr c0 i0 k <> 0 -> faddr c0 i0 k <> x) -> c x = c0 x;
  ws_inode : i = with_addrs (i_addrs i) i0;
}.

Lemma wstate_init s c i data off :
  alloc_ok c s -> file_ok c s i -> no_holes c i -> 0 <= off <= i_size i -> wstate s c i data off c i 0.
Proof.
  intros Ha Hf Hh Ho. split; try done.
  - intros k H1 H2. apply Hh; lia.
  - intros p Hp. by rewrite decide_False by lia.
  - intros k _ ->. by left.
  - apply with_addrs_same.
Qed.

Section Round.
Variables (s : superblock) (c0 c c1 : Z -> block) (i0 i i1 : inode) (data : list Z) (off0 tot m : Z).
Let off := off0 + tot.
Let bn := off / BSIZE.
Let r := faddr c1 i1 bn.
Let c2 := put c1 r (splice (c1 r) (off mod BSIZE) (slice data tot m)).

Hypothesis Hw : wstate s c0 i0 data off0 c i tot.
Hypothesis Hg : grown s c c1 i i1 bn.
Hypothesis Hr : r <> 0.
Hypothesis Hsame : faddr c i bn <> 0 -> i1 = i /\ (forall x, c1 x = c x).
Hypothesis Hnew : faddr c i bn = 0 -> in_use c s r = false.
Hypothesis Hoff : 0 <= off0 /\ 0 <= tot /\ 0 < m <= BSIZE - off mod BSIZE /\ off + m <= MAXFILE * BSIZE.
Hypothesis Hdata : tot + m <= Z.of_nat (length data).

Lemma round_bn : 0 <= bn < MAXFILE /\ bn * BSIZE <= off < (bn + 1) * BSIZE /\ off + m <= (bn + 1) * BSIZE.
Proof. unfold bn, BSIZE in *. lia. Qed.

Lemma round_size : i_size i = i_size i0 /\ 0 <= i_size i0 <= MAXFILE * BSIZE.
Proof. pose proof (fo_size _ _ _ (ws_file _ _ _ _ _ _ _ _ Hw)). rewrite (ws_inode _ _ _ _ _ _ _ _ Hw) in *. done. Qed.

Lemma round_slice : length (slice data tot m) = Z.to_nat m.
Proof. apply length_slice; lia. Qed.

Lemma round_put :
  alloc_ok c2 s /\ file_ok c2 s i1 /\ (forall j, -1 <= j < MAXFILE -> slot c2 i1 j = slot c1 i1 j) /\
  (forall b, data_start s <= b < sb_size s -> in_use c2 s b = in_use c1 s b).
Proof.
  destruct round_bn as (Hb & _). pose proof (ao_blocks _ _ (gr_alloc _ _ _ _ _ _ Hg) r) as Hbl. unfold is_block in Hbl.
  apply put_file_block; [apply Hg|apply Hg|done|done|]. unfold is_block. fold r. rewrite length_splice; [done| |].
  - unfold BSIZE. lia.
  - rewrite round_slice, Hbl. unfold BSIZE in *. lia.
Qed.

Lemma round_faddr k : 0 <= k < MAXFILE -> faddr c2 i1 k = faddr c1 i1 k.
Proof. intros Hk. destruct round_put as (_ & _ & H & _). specialize (H k ltac:(lia)). by rewrite !slot_faddr in H by lia. Qed.

(** A block of the file other than the one written. *)
Lemma round_other k :
  0 <= k < MAXFILE -> k <> bn -> faddr c i k <> 0 -> faddr c2 i1 k = faddr c i k /\ c2 (faddr c i k) = c (faddr c i k).
Proof.
  intros Hk Hne H0. destruct round_bn as (Hb & _).
  pose proof (gr_slots _ _ _ _ _ _ Hg k Hk Hne) as Es. split; [by rewrite round_faddr|].
  pose proof (ws_file _ _ _ _ _ _ _ _ Hw) as Hf.
  pose proof (fo_data _ _ _ Hf k) as Hd. rewrite slot_faddr in Hd by lia. destruct (Hd ltac:(lia) H0) as [Hd1 Hd2].
  unfold c2, put. rewrite decide_False.
  - apply (gr_kept _ _ _ _ _ _ Hg). right. split; [done|]. split; [done|]. intros E.
    pose proof (fo_inj _ _ _ Hf k (-1)) as Hj. rewrite slot_ind, slot_faddr in Hj by lia.
    specialize (Hj ltac:(lia) ltac:(lia) H0 E). lia.
  - intros E. apply Hne. pose proof (fo_inj _ _ _ (gr_file _ _ _ _ _ _ Hg) k bn) as Hj. rewrite !slot_faddr in Hj by lia.
    rewrite Es in Hj. by apply Hj; try lia.
Qed.

(** The bytes of the block written. *)
Lemma round_byte p :
  p / BSIZE = bn -> 0 <= p ->
  fbyte c2 i1 p = if decide (off <= p < off + m) then nth (Z.to_nat (p - off0)) data 0 else nth (Z.to_nat (p mod BSIZE)) (c1 r) 0.
Proof.
  intros Ep Hp. destruct round_bn as (Hb & Hb2 & Hb3). unfold fbyte. rewrite Ep, round_faddr by done. fold r.
  unfold c2, put. rewrite decide_True by done. pose proof (ao_blocks _ _ (gr_alloc _ _ _ _ _ _ Hg) r) as Hbl. unfold is_block in Hbl.
  rewrite nth_splice by (rewrite ?round_slice, ?Hbl; unfold BSIZE in *; lia). rewrite round_slice.
  assert (Em : p mod BSIZE - off mod BSIZE = p - off) by (unfold bn, BSIZE in *; lia).
  destruct (decide (off <= p < off + m)) as [Hi|Hi].
  - rewrite decide_True by (unfold BSIZE in *; lia). rewrite nth_slice by (unfold BSIZE in *; lia). f_equal. unfold off in *. unfold BSIZE in *. lia.
  - rewrite decide_False; [done|]. unfold BSIZE in *. lia.
Qed.

Lemma round_full k : 0 <= k -> k * BSIZE < Z.max (i_size i0) (off0 + (tot + m)) -> faddr c2 i1 k <> 0.
Proof.
  intros Hk1 Hk2. destruct round_bn as (Hb & Hb2 & Hb3). destruct round_size as [Es Hs].
  assert (Hk : 0 <= k < MAXFILE) by (unfold off, BSIZE in *; lia).
  destruct (decide (k = bn)) as [->|Hne]; [by rewrite round_faddr|].
  assert (H0 : faddr c i k <> 0) by (apply (ws_full _ _ _ _ _ _ _ _ Hw); unfold off, BSIZE in *; lia).
  destruct (round_other k Hk Hne H0) as [-> _]. done.
Qed.

Lemma round_bytes p :
  0 <= p < Z.max (i_size i0) (off0 + (tot + m)) ->
  fbyte c2 i1 p = if decide (off0 <= p < off0 + (tot + m)) then nth (Z.to_nat (p - off0)) data 0 else fbyte c0 i0 p.
Proof.
  intros Hp. destruct round_bn as (Hb & Hb2 & Hb3). destruct round_size as [Es Hs].
  destruct (decide (p / BSIZE = bn)) as [Ep|Ep].
  - rewrite round_byte by (done || lia). destruct (decide (off <= p < off + m)) as [Hi|Hi].
    + rewrite decide_True by (unfold off in *; lia). done.
    + destruct (decide (faddr c i bn = 0)) as [E0|E0].
      * exfalso. assert (Z.max (i_size i0) (off0 + tot) <= bn * BSIZE).
        { destruct (Z.le_gt_cases (Z.max (i_size i0) (off0 + tot)) (bn * BSIZE)) as [|Hgt]; [done|].
          by destruct (ws_full _ _ _ _ _ _ _ _ Hw bn ltac:(lia) ltac:(lia)). }
        unfold off, BSIZE in *. lia.
      * destruct (Hsame E0) as [E1 Ec]. assert (Ef : nth (Z.to_nat (p mod BSIZE)) (c1 r) 0 = fbyte c i p).
        { unfold fbyte. rewrite Ep. unfold r. by rewrite E1, (faddr_ext c c1) by done; rewrite Ec. }
        rewrite Ef, (ws_bytes _ _ _ _ _ _ _ _ Hw p) by (unfold off in *; lia).
        destruct (decide (off0 <= p < off0 + tot)); [by rewrite decide_True by lia|]. rewrite decide_False; [done|unfold off in *; lia].
  - assert (Hp' : 0 <= p < Z.max (i_size i0) (off0 + tot)) by (unfold bn, off, BSIZE in *; lia).
    assert (Hk : 0 <= p / BSIZE < MAXFILE) by (unfold off, BSIZE in *; lia).
    assert (H0 : faddr c i (p / BSIZE) <> 0) by (apply (ws_full _ _ _ _ _ _ _ _ Hw); unfold BSIZE in *; lia).
    destruct (round_other _ Hk Ep H0) as [E1 E2]. assert (Ef : fbyte c2 i1 p = fbyte c i p) by (unfold fbyte; by rewrite E1, E2).
    rewrite Ef, (ws_bytes _ _ _ _ _ _ _ _ Hw p Hp').
    destruct (decide (off0 <= p < off0 + tot)); [by rewrite decide_True by lia|].
    rewrite decide_False; [done|]. unfold bn, off, BSIZE in *. lia.
Qed.

Lemma round_old k : 0 <= k < MAXFILE -> faddr c0 i0 k <> 0 -> faddr c2 i1 k = faddr c0 i0 k.
Proof.
  intros Hk H0. pose proof (ws_old _ _ _ _ _ _ _ _ Hw k Hk H0) as E. rewrite round_faddr, <-E by done.
  destruct (decide (k = bn)) as [->|Hne]; [|by apply (gr_slots _ _ _ _ _ _ Hg)].
  destruct Hsame as [E1 Hc]; [congruence|]. rewrite E1. by apply faddr_ext.
Qed.

Lemma round_new k : 0 <= k < MAXFILE -> faddr c0 i0 k = 0 -> faddr c2 i1 k = 0 \/ in_use c0 s (faddr c2 i1 k) = false.
Proof.
  intros Hk H0. rewrite round_faddr by done. pose proof (ws_new _ _ _ _ _ _ _ _ Hw k Hk H0) as H.
  destruct (decide (k = bn)) as [->|Hne]; [|by rewrite (gr_slots _ _ _ _ _ _ Hg)].
  destruct (decide (faddr c i bn = 0)) as [E|E].
  - right. specialize (Hnew E). destruct (in_use c0 s (faddr c1 i1 bn)) eqn:Eu; [|done].
    pose proof (fo_data _ _ _ (gr_file _ _ _ _ _ _ Hg) bn) as Hd. rewrite slot_faddr in Hd by lia.
    destruct (Hd ltac:(lia) Hr) as [Hd1 _]. by rewrite (ws_used _ _ _ _ _ _ _ _ Hw) in Hnew.
  - destruct (Hsame E) as [E1 Hc]. by rewrite E1, (faddr_ext c c1).
Qed.

Lemma round_kept x : kept c0 s i0 x -> (forall k, 0 <= k < MAXFILE -> faddr c0 i0 k <> 0 -> faddr c0 i0 k <> x) -> c2 x = c0 x.
Proof.
  intros Hx Hn. destruct round_bn as (Hb & _). rewrite <-(ws_kept _ _ _ _ _ _ _ _ Hw x Hx Hn).
  rewrite <-(gr_kept _ _ _ _ _ _ Hg x (ws_keep _ _ _ _ _ _ _ _ Hw x Hx)). unfold c2, put. rewrite decide_False; [done|].
  intros ->. pose proof (fo_data _ _ _ (gr_file _ _ _ _ _ _ Hg) bn) as Hd. rewrite slot_faddr in Hd by lia.
  destruct (Hd ltac:(lia) Hr) as [Hd1 _]. fold r in Hd1. pose proof (ws_alloc _ _ _ _ _ _ _ _ Hw) as Ha.
  destruct (decide (faddr c0 i0 bn = 0)) as [E|E].
  - destruct (round_new bn Hb E) as [E'|E']; rewrite round_faddr in E' by done; [done|].
    destruct Hx as [Hx|(_ & Hu & _)]; [|fold r in E'; by rewrite E' in Hu].
    pose proof (ao_bmap _ _ Ha). pose proof (ao_size _ _ Ha). unfold data_start, BPB, BSIZE in *. lia.
  - apply (Hn bn Hb E). rewrite <-(round_old bn Hb E). by rewrite round_faddr.
Qed.

Lemma round_wstate : wstate s c0 i0 data off0 c2 i1 (tot + m).
Proof.
  destruct round_put as (P1 & P2 & P3 & P4). split; try done.
  - apply round_full.
  - apply round_bytes.
  - intros b Hb Hu. rewrite P4 by done. apply (gr_used _ _ _ _ _ _ Hg); [done|]. by apply (ws_used _ _ _ _ _ _ _ _ Hw).
  - apply round_old.
  - apply round_new.
  - intros x Hx. pose proof (ws_keep _ _ _ _ _ _ _ _ Hw x Hx) as Hk.
    apply (grown_kept s c c1 i i1 bn x (ws_alloc _ _ _ _ _ _ _ _ Hw) Hg) in Hk as [Hk|(K1 & K2 & K3)]; [by left|right].
    by rewrite P4.
  - apply round_kept.
  - transitivity (with_addrs (i_addrs i1) i); [apply Hg|]. by rewrite (ws_inode _ _ _ _ _ _ _ _ Hw).
Qed.
End Round.

(** A file's block is kept when the file grows. *)
Lemma file_block_kept c s i k : file_ok c s i -> 0 <= k < MAXFILE -> faddr c i k <> 0 -> kept c s i (faddr c i k).
Proof.
  intros Hf Hk H0. pose proof (fo_data _ _ _ Hf k) as Hd. rewrite slot_faddr in Hd by lia.
  destruct (Hd ltac:(lia) H0) as [Hd1 Hd2]. right. split; [done|]. split; [done|]. intros E.
  pose proof (fo_inj _ _ _ Hf k (-1)) as Hj. rewrite slot_ind, slot_faddr in Hj by lia.
  specialize (Hj ltac:(lia) ltac:(lia) H0 E). lia.
Qed.

(** A round that finds the disk full. *)
Lemma wstate_grown s c0 i0 data off0 c i tot c1 i1 bn :
  wstate s c0 i0 data off0 c i tot -> grown s c c1 i i1 bn -> 0 <= bn < MAXFILE -> off0 + tot <= MAXFILE * BSIZE ->
  faddr c i bn = 0 -> faddr c1 i1 bn = 0 -> wstate s c0 i0 data off0 c1 i1 tot.
Proof.
  intros Hw Hg Hbn Hmax E0 E1. pose proof (ws_file _ _ _ _ _ _ _ _ Hw) as Hf.
  assert (Es : i_size i = i_size i0) by (by rewrite (ws_inode _ _ _ _ _ _ _ _ Hw)). pose proof (fo_size _ _ _ Hf) as Hs.
  assert (Hsl : forall k, 0 <= k < MAXFILE -> faddr c1 i1 k = faddr c i k).
  { intros k Hk. destruct (decide (k = bn)) as [->|]; [congruence|by apply (gr_slots _ _ _ _ _ _ Hg)]. }
  split; try apply Hg.
  - intros k Hk1 Hk2. rewrite Hsl by (unfold BSIZE in *; lia). by apply (ws_full _ _ _ _ _ _ _ _ Hw).
  - intros p Hp. rewrite <-(ws_bytes _ _ _ _ _ _ _ _ Hw p Hp). unfold fbyte.
    assert (Hk : 0 <= p / BSIZE < MAXFILE) by (unfold BSIZE in *; lia). rewrite (Hsl _ Hk). f_equal.
    apply (gr_kept _ _ _ _ _ _ Hg). apply file_block_kept; [done|done|].
    apply (ws_full _ _ _ _ _ _ _ _ Hw); unfold BSIZE in *; lia.
  - intros b Hb Hu. apply (gr_used _ _ _ _ _ _ Hg); [done|]. by apply (ws_used _ _ _ _ _ _ _ _ Hw).
  - intros k Hk. rewrite (Hsl k Hk). by apply (ws_old _ _ _ _ _ _ _ _ Hw).
  - intros k Hk. rewrite (Hsl k Hk). by apply (ws_new _ _ _ _ _ _ _ _ Hw).
  - intros x Hx. apply (grown_kept s c c1 i i1 bn x (ws_alloc _ _ _ _ _ _ _ _ Hw) Hg). by apply (ws_keep _ _ _ _ _ _ _ _ Hw).
  - intros x Hx Hn. rewrite (gr_kept _ _ _ _ _ _ Hg) by (by apply (ws_keep _ _ _ _ _ _ _ _ Hw)).
    by apply (ws_kept _ _ _ _ _ _ _ _ Hw).
  - transitivity (with_addrs (i_addrs i1) i); [apply Hg|]. by rewrite (ws_inode _ _ _ _ _ _ _ _ Hw).
Qed.

Lemma wstate_ext s c0 i0 data off0 c c' i tot :
  (forall x, c' x = c x) -> wstate s c0 i0 data off0 c i tot -> wstate s c0 i0 data off0 c' i tot.
Proof.
  intros E [H1 H2 H3 H4 H5 H6 H7 H8 H9 H10]. pose proof (fun k => faddr_ext c c' i k E) as Ef.
  pose proof (fun b => in_use_ext c c' s b E) as Eu. split; try done.
  - by apply (alloc_ok_ext c).
  - apply (file_ok_ext c); [done|done|]. intros b _. by rewrite Eu.
  - intros k. rewrite Ef. apply H3.
  - intros p Hp. unfold fbyte at 1. rewrite Ef, E. by apply H4.
  - intros b. rewrite Eu. apply H5.
  - intros k. rewrite Ef. apply H6.
  - intros k. rewrite Ef. apply H7.
  - intros x Hx. unfold kept. rewrite Eu. by apply H8.
  - intros x. rewrite E. apply H9.
Qed.

(** ** writei *)

(** What a write has logged: blocks of the free map, the indirect block and [k]
    blocks of the file. *)
Definition logged (s : superblock) (G0 G : gset Z) (i : inode) (k : nat) : Prop :=
  exists D : gset Z, (size D <= k)%nat /\ G ⊆ G0 ∪ bitmap s ∪ {[0; addr_at i NDIRECT]} ∪ D.

Lemma size_union_le (X Y : gset Z) : (size (X ∪ Y) <= size X + size Y)%nat.
Proof. rewrite size_union_alt. pose proof (subseteq_size (Y ∖ X) Y ltac:(set_solver)). lia. Qed.

Lemma logged_size s G0 G i k : logged s G0 G i k -> (size G <= size G0 + size (bitmap s) + 2 + k)%nat.
Proof.
  intros (D & HD & HG). apply subseteq_size in HG.
  pose proof (size_union_le (G0 ∪ bitmap s ∪ {[0; addr_at i NDIRECT]}) D).
  pose proof (size_union_le (G0 ∪ bitmap s) {[0; addr_at i NDIRECT]}).
  pose proof (size_union_le G0 (bitmap s)). pose proof (size_union_le {[0]} {[addr_at i NDIRECT]}).
  rewrite !size_singleton in *. lia.
Qed.

Lemma logged_step s G0 G G1 i i1 k r :
  logged s G0 G i k -> (addr_at i NDIRECT <> 0 -> addr_at i1 NDIRECT = addr_at i NDIRECT) ->
  G1 ⊆ G ∪ bitmap s ∪ {[addr_at i1 NDIRECT; r]} -> logged s G0 ({[r]} ∪ G1) i1 (Datatypes.S k).
Proof.
  intros (D & HD & HG) Hi HG1. exists ({[r]} ∪ D). split; [pose proof (size_add D r); lia|].
  assert (Hx : {[0; addr_at i NDIRECT]} ⊆ ({[0; addr_at i1 NDIRECT]} : gset Z)).
  { destruct (decide (addr_at i NDIRECT = 0)) as [->|E]; [set_solver|]. by rewrite Hi. }
  intros x Hin. specialize (HG x). specialize (HG1 x). specialize (Hx x). rewrite !elem_of_union in *. tauto.
Qed.

Lemma writei_loop_spec fuel B s t ip i G src c0 i0 data G0 off0 n k tot :
  data_ok B [] G -> wstate s c0 i0 data off0 (content B) i tot -> t !! ip = Some i -> logged s G0 G i k ->
  (size G0 + size (bitmap s) + k + Z.to_nat (span (off0 + tot) (off0 + n)) + 8 < cap)%nat ->
  (forall o m, 0 <= o -> 0 <= m -> o + m <= n -> src o m = (slice data o m, true)) ->
  0 <= off0 -> 0 <= tot <= n -> off0 + n <= MAXFILE * BSIZE -> n <= Z.of_nat (length data) ->
  span (off0 + tot) (off0 + n) <= Z.of_nat fuel ->
  exists tot' B' i' G',
    writei_loop fuel ip src (off0 + tot) n tot (FState B s t) = Done (tot', off0 + tot') (FState B' s (<[ip := i']> t)) /\
    data_ok B' [] G' /\ wstate s c0 i0 data off0 (content B') i' tot' /\ tot <= tot' <= n /\
    (tot' < n -> disk_full (content B') s) /\
    logged s G0 G' i' (k + Z.to_nat (span (off0 + tot) (off0 + n))) /\ b_pid B' = b_pid B.
Proof.
  revert B t i G k tot. induction fuel as [|fuel IH]; intros B t i G k tot Hok Hw Hi Hlog Hroom Hsrc Ho Ht Hmax Hlen Hfu.
  all: cbn [writei_loop]; destruct (Z.ltb_spec tot n) as [Hlt|Hge].
  2, 4: assert (tot = n) as -> by lia; exists n, B, i, G; split; [by rewrite list_insert_id|];
    split; [done|]; split; [done|]; split; [lia|]; split; [lia|]; split; [|done];
    unfold span; destruct (Z.ltb_spec (off0 + n) (off0 + n)); [lia|]; by rewrite Nat.add_0_r.
  { exfalso. destruct (span_next (off0 + tot) (off0 + n) ltac:(lia)) as (_ & _ & _ & _ & H). lia. }
  destruct (span_next (off0 + tot) (off0 + n) ltac:(lia)) as (M1 & M2 & M3 & M4 & M5).
  replace (off0 + n - (off0 + tot)) with (n - tot) in * by lia. set (m := Z.min _ _) in *.
  assert (Hbn : 0 <= (off0 + tot) / BSIZE < MAXFILE) by (unfold BSIZE in *; lia).
  pose proof (logged_size _ _ _ _ _ Hlog) as Hsz.
  pose proof (ws_alloc _ _ _ _ _ _ _ _ Hw) as Ha. pose proof (ws_file _ _ _ _ _ _ _ _ Hw) as Hf.
  destruct (bmap_spec B s t ip i G _ Hok Ha Hf Hi ltac:(lia) Hbn) as (r & B1 & i1 & G1 & E1 & [K1 K2 K3 K4 K5 K6 [K7 K7'] K8]).
  mstep E1. pose proof (logged_step s G0 G G1 i i1 k r Hlog (gr_ind _ _ _ _ _ _ K2) K7') as Hlog1.
  assert (Hlog1' : logged s G0 G1 i1 (Datatypes.S k)).
  { destruct Hlog1 as (D & HD1 & HD2). exists D. split; [done|]. by apply union_subseteq in HD2 as [_ HD2]. }
  destruct (Z.eqb_spec r 0) as [Er|Er].
  - exists tot, B1, i1, G1. split; [done|]. split; [done|]. split; [|split; [lia|]].
    + apply (wstate_grown _ _ _ _ _ (content B) i tot _ _ ((off0 + tot) / BSIZE)); try done; [lia| |congruence].
      destruct (decide (faddr (content B) i ((off0 + tot) / BSIZE) = 0)) as [|E0]; [done|].
      destruct (K4 E0) as (-> & _ & Hc). rewrite (faddr_ext (content B) _ _ _ Hc) in K3. congruence.
    + split; [by intros _; apply K6|]. split; [|done].
      destruct Hlog1' as (D & HD1 & HD2). exists D. split; [lia|done].
  - pose proof (insert_at t ip i i1 Hi) as Hi1. pose proof (gr_file _ _ _ _ _ _ K2) as Hf1.
    rewrite bind_gets, (ino_at B1 s _ ip i1 Hi1), (fo_dev _ _ _ Hf1).
    pose proof (logged_size _ _ _ _ _ Hlog1') as Hsz1.
    destruct (open_block B1 s (<[ip := i1]> t) [] G1 r K1) as (bp & B2 & E2 & Ed & Hok2 & Hc2 & Hp2);
      [intros o Hin; by apply elem_of_nil in Hin|cbn; lia|].
    mstep E2. mstep Ed. cbn zeta. fold m. rewrite Hsrc by lia.
    pose proof (fo_data _ _ _ Hf1 ((off0 + tot) / BSIZE)) as Hd. rewrite slot_faddr, K3 in Hd by lia.
    destruct (Hd ltac:(lia) Er) as [Hd1 _].
    destruct (write_block B2 s (<[ip := i1]> t) [] G1 bp r false
      (splice (content B1 r) ((off0 + tot) mod BSIZE) (slice data tot m)) Hok2) as
      (B3 & B4 & B5 & E3 & E4 & E5 & Hok5 & Hc5 & Hp5); [apply (ao_data _ _ Ha); lia|lia|].
    mstep E3. mstep E4. mstep E5. replace (off0 + tot + m) with (off0 + (tot + m)) in * by lia.
    assert (Hw5 : wstate s c0 i0 data off0 (content B5) i1 (tot + m)).
    { subst r. pose proof (round_wstate s c0 (content B) (content B1) i0 i i1 data off0 tot m Hw K2 Er) as Hrw.
      eapply wstate_ext; [|apply Hrw].
      - intros x. rewrite Hc5. unfold put. by rewrite Hc2.
      - intros E0. by destruct (K4 E0) as (? & _ & ?).
      - intros E0. by destruct (K5 E0 Er).
      - lia.
      - lia. }
    destruct (IH B5 (<[ip := i1]> t) i1 ({[r]} ∪ G1) (Datatypes.S k) (tot + m)) as
      (tot' & B' & i' & G' & E & R1 & R2 & R3 & R4 & R5 & R6); try done; try lia.
    rewrite list_insert_insert_eq in E. exists tot', B', i', G'. split; [done|]. split; [done|]. split; [done|]. split; [lia|].
    split; [done|]. split; [|congruence]. replace (k + Z.to_nat (span (off0 + tot) (off0 + n)))%nat with
      (Datatypes.S k + Z.to_nat (span (off0 + (tot + m)) (off0 + n)))%nat by lia. done.
Qed.
End Rw.
