(* ===== verification/FsDisk.v ===== *)
(** * Inodes on the disk

    [iupdate] stores an inode in its block and [ilock] loads it: what one writes the
    other reads, and the other inodes of the block are not touched. *)

From S2P Require Import Prelude Mem CString Block Sleeplock LogSpec Fs FsBlocks FsAlloc FsInode.

(** The fields of an inode that fit their place on disk. *)
Record dinode_ok (i : inode) : Prop := {
  di_type : - 2 ^ 15 <= i_type i < 2 ^ 15;
  di_major : - 2 ^ 15 <= i_major i < 2 ^ 15;
  di_minor : - 2 ^ 15 <= i_minor i < 2 ^ 15;
  di_nlink : - 2 ^ 15 <= i_nlink i < 2 ^ 15;
  di_size : 0 <= i_size i < 2 ^ 32;
  di_len : length (i_addrs i) = 13%nat;
  di_addrs : Forall (fun a => 0 <= a < 2 ^ 32) (i_addrs i);
}.

(** [j] with what the disk holds of [i]. *)
Definition with_dinode (i j : inode) : inode :=
  Inode (i_dev j) (i_inum j) (i_ref j) (i_lock j) (i_valid j) (i_type i) (i_major i) (i_minor i) (i_nlink i) (i_size i) (i_addrs i).

Lemma length_put_addrs d o a : length (put_addrs d o a) = length d.
Proof. revert d o. induction a as [|x a IH]; intros d o; [done|]. cbn [put_addrs]. by rewrite IH, length_st32. Qed.

Lemma put_addrs_out n d o a off :
  0 <= o -> (Z.of_nat off + Z.of_nat n <= o \/ o + 4 * Z.of_nat (length a) <= Z.of_nat off) ->
  ld n (put_addrs d o a) off = ld n d off.
Proof.
  revert d o. induction a as [|x a IH]; intros d o Ho H; [done|]. cbn [put_addrs length] in *.
  rewrite IH by lia. unfold st32. apply ld_st_ne. lia.
Qed.

Lemma put_addrs_at d o a k x :
  0 <= o -> o + 4 * Z.of_nat (length a) <= Z.of_nat (length d) -> a !! k = Some x ->
  ld32 (put_addrs d o a) (o + 4 * Z.of_nat k) = u32 x.
Proof.
  revert d o k. induction a as [|y a IH]; intros d o k Ho Hl Hk; [done|]. cbn [put_addrs length] in *. destruct k as [|k].
  - injection Hk as ->. unfold ld32. rewrite put_addrs_out by lia.
    replace (o + 4 * Z.of_nat 0) with o by lia. fold (ld32 (st32 d o x) o). apply ld32_st32; lia.
  - replace (o + 4 * Z.of_nat (Datatypes.S k)) with (o + 4 + 4 * Z.of_nat k) by lia.
    apply IH; [lia|rewrite length_st32; lia|done].
Qed.

Lemma get_put_addrs d o a :
  0 <= o -> o + 64 <= Z.of_nat (length d) -> length a = 13%nat -> Forall (fun x => 0 <= x < 2 ^ 32) a ->
  get_addrs (put_addrs d (o + 12) a) o = a.
Proof.
  intros Ho Hd Ha Hr. apply list_eq. intros k. unfold get_addrs. rewrite list_lookup_fmap.
  destruct (a !! k) as [x|] eqn:Ek.
  - pose proof (lookup_lt_Some _ _ _ Ek). rewrite lookup_seqZ_lt by lia. cbn [fmap option_fmap option_map]. f_equal.
    rewrite Z.add_0_l, (put_addrs_at _ _ _ _ x) by (done || lia). apply u32_small. by apply (Forall_lookup_1 _ _ _ _ Hr Ek).
  - apply lookup_ge_None in Ek. rewrite lookup_seqZ_ge by lia. done.
Qed.

Lemma ld16_st16 d off v : 0 <= off -> off + 2 <= Z.of_nat (length d) -> ld16 (st16 d off v) off = v mod 2 ^ 16.
Proof. intros. unfold ld16, st16. rewrite ld_st by lia. done. Qed.

Lemma s16_mod v : - 2 ^ 15 <= v < 2 ^ 15 -> s16 (v mod 2 ^ 16) = v.
Proof. intros Hv. unfold s16. lia. Qed.

Lemma dinode_off_bound inum : 0 <= dinode_off inum /\ dinode_off inum + 64 <= BSIZE.
Proof. unfold dinode_off, IPB, BSIZE. lia. Qed.

Lemma dinode_get_put d inum i j :
  is_block d -> dinode_ok i ->
  dinode_get (dinode_put d (dinode_off inum) i) (dinode_off inum) j = with_dinode i j.
Proof.
  intros Hd [H1 H2 H3 H4 H5 H6 H7]. destruct (dinode_off_bound inum) as [Ho Ho']. set (o := dinode_off inum) in *.
  unfold is_block in Hd. unfold dinode_get, dinode_put, with_dinode.
  assert (Hlen : Z.of_nat (length d) = BSIZE) by (unfold BSIZE in *; lia).
  f_equal.
  1-5: unfold ld16, ld32; rewrite put_addrs_out by lia.
  - unfold st32, st16. rewrite !ld_st_ne by lia. rewrite ld_st by lia. by apply s16_mod.
  - unfold st32, st16. rewrite !ld_st_ne by lia. rewrite ld_st by (rewrite !length_st; lia). by apply s16_mod.
  - unfold st32, st16. rewrite !ld_st_ne by lia. rewrite ld_st by (rewrite !length_st; lia). by apply s16_mod.
  - unfold st32, st16. rewrite !ld_st_ne by lia. rewrite ld_st by (rewrite !length_st; lia). by apply s16_mod.
  - unfold st32, st16. rewrite ld_st by (rewrite !length_st; lia). by apply u32_small.
  - apply get_put_addrs; [done|unfold st32, st16; rewrite !length_st; lia|done|done].
Qed.

Lemma dinode_get_put_ne d a b i j :
  0 <= a -> 0 <= b -> dinode_off a <> dinode_off b -> length (i_addrs i) = 13%nat ->
  dinode_get (dinode_put d (dinode_off a) i) (dinode_off b) j = dinode_get d (dinode_off b) j.
Proof.
  intros Ha Hb Hne H6. assert (Ho : dinode_off b + 64 <= dinode_off a \/ dinode_off a + 64 <= dinode_off b)
    by (unfold dinode_off in *; lia).
  destruct (dinode_off_bound a) as [Ha1 _]. destruct (dinode_off_bound b) as [Hb1 _].
  set (oa := dinode_off a) in *. set (ob := dinode_off b) in *. unfold dinode_get, dinode_put.
  assert (Hk : forall n off, Z.of_nat n <= 4 -> ob <= Z.of_nat off -> Z.of_nat off + Z.of_nat n <= ob + 64 ->
    ld n (put_addrs (st32 (st16 (st16 (st16 (st16 d oa (i_type i)) (oa + 2) (i_major i)) (oa + 4) (i_minor i)) (oa + 6)
      (i_nlink i)) (oa + 8) (i_size i)) (oa + 12) (i_addrs i)) off = ld n d off).
  { intros n off Hn H1 H2. rewrite put_addrs_out by lia. unfold st32, st16. by rewrite !ld_st_ne by lia. }
  unfold ld16, ld32. rewrite !Hk by lia. f_equal. unfold get_addrs. apply list_fmap_ext.
  intros k x [-> Hx]%lookup_seqZ. unfold ld32. apply Hk; lia.
Qed.

Lemma is_block_dinode_put d o i : is_block d -> is_block (dinode_put d o i).
Proof. unfold is_block, dinode_put, st32, st16. by rewrite length_put_addrs, !length_st. Qed.

Section Disk.
Context {S : Type} `{!Blocks S} `{!BlocksSpec S}.

(** An inode number whose block lies before the free map. *)
Definition inum_ok (s : superblock) (inum : Z) : Prop :=
  0 <= inum /\ 0 <= IBLOCK inum s < sb_bmapstart s /\ fs_block (IBLOCK inum s).

Lemma meta_below c s : alloc_ok c s -> sb_bmapstart s <= data_start s.
Proof. intros Ha. pose proof (ao_bmap _ _ Ha). pose proof (ao_size _ _ Ha). unfold data_start, BPB, BSIZE in *. lia. Qed.

(** Writing a block of inodes touches neither the free map nor a file. *)
Lemma put_meta c s x d :
  alloc_ok c s -> x < sb_bmapstart s -> is_block d ->
  alloc_ok (put c x d) s /\ (forall b, 0 <= b < sb_size s -> in_use (put c x d) s b = in_use c s b).
Proof.
  intros Ha Hx Hd. assert (Hu : forall b, 0 <= b < sb_size s -> in_use (put c x d) s b = in_use c s b).
  { intros b Hb. unfold in_use, put. rewrite decide_False; [done|]. rewrite (BBLOCK_val c s b Ha Hb).
    assert (0 <= b / BPB) by (unfold BPB, BSIZE; lia). lia. }
  split; [|done]. pose proof Ha as [H1 H2 H3 H4 H5 H6]. split; try done.
  - intros b. unfold put. by case_decide.
  - intros b Hb. rewrite Hu by lia. by apply H4.
Qed.

Lemma put_meta_slot c s i x d k :
  alloc_ok c s -> file_ok c s i -> x < sb_bmapstart s -> slot (put c x d) i k = slot c i k.
Proof.
  intros Ha Hf Hx. apply slot_ext. intros H0. pose proof (meta_below c s Ha).
  pose proof (fo_data _ _ _ Hf (-1)) as [Hd _]; [unfold MAXFILE, NDIRECT, NINDIRECT, BSIZE; lia|done|]. rewrite slot_ind in Hd.
  unfold put. by rewrite decide_False by lia.
Qed.

Lemma put_meta_file c s i x d :
  alloc_ok c s -> file_ok c s i -> x < sb_bmapstart s -> is_block d -> file_ok (put c x d) s i.
Proof.
  intros Ha Hf Hx Hd. destruct (put_meta c s x d Ha Hx Hd) as [_ Hu]. apply (file_ok_ext c); [done| |].
  - intros H0. pose proof (put_meta_slot c s i x d NDIRECT Ha Hf Hx). pose proof (meta_below c s Ha).
    pose proof (fo_data _ _ _ Hf (-1)) as [Hdd _]; [unfold MAXFILE, NDIRECT, NINDIRECT, BSIZE; lia|done|].
    rewrite slot_ind in Hdd. unfold put. by rewrite decide_False by lia.
  - intros b Hb. pose proof (data_start_pos c s Ha). by rewrite Hu by lia.
Qed.

(** ** iupdate *)

Definition updated (c : Z -> block) (s : superblock) (i : inode) : Z -> block :=
  put c (IBLOCK (i_inum i) s) (dinode_put (c (IBLOCK (i_inum i) s)) (dinode_off (i_inum i)) i).

Lemma iupdate_spec B s t ip i G :
  data_ok B [] G -> t !! ip = Some i -> i_dev i = ROOTDEV -> inum_ok s (i_inum i) -> (size G + 1 < cap)%nat ->
  exists B', iupdate ip (FState B s t) = Done tt (FState B' s t) /\ data_ok B' [] ({[IBLOCK (i_inum i) s]} ∪ G) /\
    (forall x, content B' x = updated (content B) s i x) /\ b_pid B' = b_pid B.
Proof.
  intros Hok Hi Hdev (_ & _ & Hfs) Hroom. unfold iupdate. rewrite bind_gets, (ino_at B s t ip i Hi), bind_gets. cbn [sb].
  rewrite Hdev. destruct (open_block B s t [] G (IBLOCK (i_inum i) s) Hok) as (bp & B1 & E1 & Ed & Hok1 & Hc1 & Hp1);
    [intros o Ho; by apply elem_of_nil in Ho|cbn; lia|].
  mstep E1. mstep Ed.
  destruct (write_block B1 s t [] G bp (IBLOCK (i_inum i) s) false
    (dinode_put (content B (IBLOCK (i_inum i) s)) (dinode_off (i_inum i)) i) Hok1 Hfs ltac:(lia)) as
    (B2 & B3 & B4 & E2 & E3 & E4 & Hok4 & Hc4 & Hp4).
  mstep E2. mstep E3. exists B4. split; [done|]. split; [done|]. split; [|congruence].
  intros x. rewrite Hc4. unfold updated, put. by rewrite Hc1.
Qed.
End Disk.
