(* ===== verification/FsWrite.v ===== *)
(** * writei, and reading back what was written *)

From S2P Require Import Prelude Mem CString Block Sleeplock LogSpec Fs FsBlocks FsAlloc FsInode FsRw FsDisk.

Section Write.
Context {S : Type} `{!Blocks S} `{!BlocksSpec S}.

(** The file system around inode [i]: the free map, the file and its inode. *)
Record inode_ok (c : Z -> block) (s : superblock) (i : inode) : Prop := {
  io_alloc : alloc_ok c s;
  io_file : file_ok c s i;
  io_holes : no_holes c i;
  io_inum : inum_ok s (i_inum i);
}.

(** What a write of [tot] bytes of [data] at [off] leaves. *)
Record written (s : superblock) (c : Z -> block) (i : inode) (data : list Z) (off tot : Z) (c' : Z -> block) (i' : inode) : Prop := {
  wr_ok : inode_ok c' s i';
  wr_size : i_size i' = Z.max (i_size i) (off + tot);
  wr_bytes : forall p, 0 <= p < i_size i' ->
    fbyte c' i' p = if decide (off <= p < off + tot) then nth (Z.to_nat (p - off)) data 0 else fbyte c i p;
  wr_dinode : c' (IBLOCK (i_inum i) s) = dinode_put (c (IBLOCK (i_inum i) s)) (dinode_off (i_inum i)) i';
  wr_used : forall b, data_start s <= b < sb_size s -> in_use c s b = true -> in_use c' s b = true;
  wr_kept : forall x, kept c s i x -> (forall k, 0 <= k < MAXFILE -> faddr c i k <> 0 -> faddr c i k <> x) -> x <> IBLOCK (i_inum i) s -> c' x = c x;
  wr_inode : i' = with_addrs (i_addrs i') (with_size (i_size i') i);
}.

Lemma addr_with_size i n k : addr_at (with_size n i) k = addr_at i k.
Proof. done. Qed.

Lemma faddr_with_size c i n k : faddr c (with_size n i) k = faddr c i k.
Proof. done. Qed.

Lemma file_ok_size c s i n : file_ok c s i -> 0 <= n <= MAXFILE * BSIZE -> file_ok c s (with_size n i).
Proof. intros [H1 H2 H3 H4 H5] Hn. by split. Qed.

(** The end of [writei]: the size and the inode block. *)
Lemma wstate_written s c i data off tot c1 i1 :
  wstate s c i data off c1 i1 tot -> 0 <= off <= i_size i -> 0 <= tot -> off + tot <= MAXFILE * BSIZE -> inum_ok s (i_inum i) ->
  let i2 := with_size (Z.max (i_size i) (off + tot)) i1 in
  written s c i data off tot (updated c1 s i2) i2.
Proof.
  intros Hw Ho Ht Hmax Hn i2. pose proof (ws_alloc _ _ _ _ _ _ _ _ Hw) as Ha. pose proof (ws_file _ _ _ _ _ _ _ _ Hw) as Hf.
  pose proof (ws_inode _ _ _ _ _ _ _ _ Hw) as Hi. pose proof Hn as (Hn1 & Hn2 & _).
  assert (En : i_inum i2 = i_inum i) by (unfold i2; by rewrite Hi).
  assert (Es : i_size i1 = i_size i) by (by rewrite Hi). pose proof (fo_size _ _ _ Hf) as Hs.
  assert (Hf2 : file_ok c1 s i2) by (apply file_ok_size; [done|lia]).
  assert (Hb : is_block (dinode_put (c1 (IBLOCK (i_inum i2) s)) (dinode_off (i_inum i2)) i2))
    by (apply is_block_dinode_put, (ao_blocks _ _ Ha)).
  destruct (put_meta c1 s (IBLOCK (i_inum i2) s) _ Ha ltac:(rewrite En; lia) Hb) as [Ha2 Hu].
  assert (Hfa : forall k, 0 <= k -> faddr (updated c1 s i2) i2 k = faddr c1 i1 k).
  { intros k Hk. rewrite <-!slot_faddr by done. apply (put_meta_slot c1 s i2); [done|done|rewrite En; lia]. }
  pose proof (meta_below c1 s Ha) as Hmb. pose proof (data_start_pos c1 s Ha).
  assert (Hk1 : forall k, 0 <= k -> k * BSIZE < Z.max (i_size i) (off + tot) ->
    updated c1 s i2 (faddr c1 i1 k) = c1 (faddr c1 i1 k)).
  { intros k H1 H2. pose proof (fo_data _ _ _ Hf k) as Hd. rewrite slot_faddr in Hd by lia.
    destruct (Hd ltac:(unfold BSIZE in *; lia) (ws_full _ _ _ _ _ _ _ _ Hw k H1 H2)) as [Hd1 _].
    unfold updated, put. rewrite decide_False; [done|rewrite En; lia]. }
  split.
  - split; [done|apply put_meta_file; (done || rewrite En; lia)| |by rewrite En].
    intros k H1 H2. rewrite Hfa by done. by apply (ws_full _ _ _ _ _ _ _ _ Hw).
  - done.
  - intros p Hp. cbn [i_size i2 with_size] in Hp. rewrite <-(ws_bytes _ _ _ _ _ _ _ _ Hw p Hp).
    unfold fbyte. rewrite Hfa, Hk1 by (unfold BSIZE in *; lia). done.
  - unfold updated, put. rewrite En, decide_True by done. do 2 f_equal.
    assert (Hx : kept c s i (IBLOCK (i_inum i) s)) by (left; lia). apply (ws_kept _ _ _ _ _ _ _ _ Hw _ Hx).
    intros k Hk E0. pose proof (ws_old _ _ _ _ _ _ _ _ Hw k Hk E0) as E. rewrite <-E in *.
    pose proof (fo_data _ _ _ Hf k) as Hd. rewrite slot_faddr in Hd by lia. destruct (Hd ltac:(lia)); [congruence|]. lia.
  - intros b Hb1 Hb2. unfold updated. rewrite Hu by lia. by apply (ws_used _ _ _ _ _ _ _ _ Hw).
  - intros x Hx Hnf Hne. unfold updated, put. rewrite En, decide_False by done. by apply (ws_kept _ _ _ _ _ _ _ _ Hw).
  - unfold i2. rewrite Hi at 1. done.
Qed.

Lemma fbyte_ext c c' i p : (forall x, c' x = c x) -> fbyte c' i p = fbyte c i p.
Proof. intros E. unfold fbyte. by rewrite (faddr_ext c c') by done; rewrite E. Qed.

Lemma inode_ok_ext c c' s i : (forall x, c' x = c x) -> inode_ok c s i -> inode_ok c' s i.
Proof.
  intros E [H1 H2 H3 H4]. split; [by apply (alloc_ok_ext c)| | |done].
  - apply (file_ok_ext c); [done|done|]. intros b _. by rewrite (in_use_ext c c').
  - intros k Hk1 Hk2. rewrite (faddr_ext c c') by done. by apply H3.
Qed.

Lemma written_ext s c i data off tot c1 c2 i' :
  (forall x, c2 x = c1 x) -> written s c i data off tot c1 i' -> written s c i data off tot c2 i'.
Proof.
  intros E [H1 H2 H3 H4 H5 H6 H7]. split; try done.
  - by apply (inode_ok_ext c1).
  - intros p Hp. rewrite (fbyte_ext c1 c2) by done. by apply H3.
  - by rewrite E.
  - intros b Hb Hu. rewrite (in_use_ext c1 c2) by done. by apply H5.
  - intros x Hx Hn Hne. rewrite E. by apply H6.
Qed.

Lemma written_ext_l c0 s c i data off tot c1 i' :
  (forall x, c x = c0 x) -> written s c i data off tot c1 i' -> written s c0 i data off tot c1 i'.
Proof.
  intros E [H1 H2 H3 H4 H5 H6 H7]. split; try done.
  - intros p Hp. rewrite <-(fbyte_ext c0 c) by done. by apply H3.
  - by rewrite <-E.
  - intros b Hb Hu. rewrite <-(in_use_ext c0 c) in Hu by done. by apply H5.
  - intros x Hx Hn Hne. rewrite <-E. apply H6; [|intros k Hk; rewrite (faddr_ext c0 c) by done; by apply Hn|done].
    unfold kept. by rewrite (in_use_ext c0 c).
Qed.

Definition src_is (src : Z -> Z -> list Z * bool) (data : list Z) (n : Z) : Prop :=
  n <= Z.of_nat (length data) /\ forall o m, 0 <= o -> 0 <= m -> o + m <= n -> src o m = (slice data o m, true).

(** The requests [writei] refuses. *)
Definition write_refused (i : inode) (off n : Z) : bool :=
  (i_size i <? off) || (2 ^ 32 <=? off + n) || (MAXFILE * BSIZE <? off + n).

Lemma writei_refused B s t ip i src off n :
  t !! ip = Some i -> 0 <= off < 2 ^ 32 -> 0 <= n < 2 ^ 32 -> write_refused i off n = true ->
  writei ip src off n (FState B s t) = Done (-1) (FState B s t).
Proof.
  intros Hi Ho Hn Hr. unfold writei. rewrite bind_gets, (ino_at B s t ip i Hi), u32_wrap by done. unfold write_refused in Hr.
  destruct ((i_size i <? off) || (2 ^ 32 <=? off + n)) eqn:E; [done|].
  apply orb_false_iff in E as [_ E]. apply Z.leb_gt in E. rewrite u32_small by lia. cbn [orb] in Hr. by rewrite Hr.
Qed.

Lemma writei_spec B s t ip i G src data off n :
  data_ok B [] G -> inode_ok (content B) s i -> t !! ip = Some i -> src_is src data n ->
  0 <= off < 2 ^ 32 -> 0 <= n < 2 ^ 32 -> write_refused i off n = false ->
  (size G + size (bitmap s) + Z.to_nat (span off (off + n)) + 8 < cap)%nat ->
  exists tot B' i' G', writei ip src off n (FState B s t) = Done tot (FState B' s (<[ip := i']> t)) /\
    data_ok B' [] G' /\ written s (content B) i data off tot (content B') i' /\ 0 <= tot <= n /\
    (tot < n -> disk_full (content B') s) /\
    (size G' <= size G + size (bitmap s) + Z.to_nat (span off (off + n)) + 3)%nat /\ b_pid B' = b_pid B.
Proof.
  intros Hok [Ha Hf Hh Hn0] Hi (Hlen & Hsrc) Ho Hn Hr Hroom. unfold writei.
  rewrite bind_gets, (ino_at B s t ip i Hi), u32_wrap by done. unfold write_refused in Hr.
  apply orb_false_iff in Hr as [Hr1 Hr3]. rewrite Hr1. apply orb_false_iff in Hr1 as [Hr1 Hr2].
  apply Z.leb_gt in Hr2. apply Z.ltb_ge in Hr1, Hr3. rewrite u32_small by lia. destruct (Z.ltb_spec (MAXFILE * BSIZE) (off + n)); [lia|].
  destruct (writei_loop_spec (Z.to_nat (n / BSIZE + 2)) B s t ip i G src (content B) i data G off n 0 0) as
    (tot & B1 & i1 & G1 & E1 & Hok1 & Hw & Ht & Hfull & Hlog & Hp1); try done; try lia.
  { apply wstate_init; (done || lia). }
  { exists ∅. split; [by rewrite size_empty|]. do 3 apply union_subseteq_l'. done. }
  { by rewrite Z.add_0_r; lia. }
  { rewrite Z.add_0_r. apply span_fuel; lia. }
  rewrite !Z.add_0_r in *. mstep E1. set (i2 := with_size (Z.max (i_size i) (off + tot)) i1).
  assert (Es : i_size i1 = i_size i) by (by rewrite (ws_inode _ _ _ _ _ _ _ _ Hw)).
  pose proof (insert_at t ip i i1 Hi) as Hi1.
  assert (E2 : (if i_size i <? off + tot then set_ino ip (with_size (off + tot)) else mret tt) (FState B1 s (<[ip := i1]> t)) =
    Done tt (FState B1 s (<[ip := i2]> t))).
  { destruct (Z.ltb_spec (i_size i) (off + tot)).
    - rewrite (set_ino_done B1 s _ ip _ i1 Hi1), list_insert_insert_eq. unfold i2. by rewrite Z.max_r by lia.
    - unfold i2. rewrite Z.max_l by lia. rewrite <-Es. by destruct i1. }
  mstep E2. pose proof (wstate_written _ _ _ _ _ _ _ _ Hw ltac:(lia) ltac:(lia) ltac:(lia) Hn0) as Hwr. fold i2 in Hwr.
  assert (En : i_inum i2 = i_inum i) by (unfold i2; by rewrite (ws_inode _ _ _ _ _ _ _ _ Hw)).
  pose proof (logged_size _ _ _ _ _ Hlog) as Hsz.
  destruct (iupdate_spec B1 s (<[ip := i2]> t) ip i2 G1 Hok1) as (B2 & E3 & Hok2 & Hc2 & Hp2).
  { by apply (insert_at t ip i). }
  { apply (fo_dev _ _ _ (io_file _ _ _ (wr_ok _ _ _ _ _ _ _ _ Hwr))). }
  { by rewrite En. }
  { lia. }
  mstep E3. exists tot, B2, i2, ({[IBLOCK (i_inum i2) s]} ∪ G1). split; [done|]. split; [done|]. split; [by apply (written_ext _ _ _ _ _ _ _ _ _ Hc2)|].
  split; [done|]. pose proof (size_add G1 (IBLOCK (i_inum i2) s)). split; [|split; [lia|congruence]].
  intros Hlt. pose proof (ws_alloc _ _ _ _ _ _ _ _ Hw) as Ha1. apply (disk_full_ext (updated (content B1) s i2)); [done|].
  intros b Hb. unfold updated. pose proof Hn0 as (_ & Hn2 & _).
  rewrite (proj2 (put_meta (content B1) s (IBLOCK (i_inum i2) s) _ Ha1 ltac:(rewrite En; lia)
    (is_block_dinode_put _ _ _ (ao_blocks _ _ Ha1 _)))) by done. by apply Hfull.
Qed.
End Write.
