(* ===== verification/FsDir.v ===== *)
(** * Directories

    A directory is a file of 16-byte entries.  [dirlookup] finds the first entry in
    use with the name and [dirlink] writes the entry to the first free place:
    after it the directory maps the new name, and every other name as before. *)

From S2P Require Import Prelude Mem CString Block Sleeplock LogSpec Fs FsBlocks FsAlloc FsInode FsRw FsDisk FsWrite.

(** The first index from [k] on, of [n], that satisfies [f]. *)
Fixpoint find_first (f : Z -> bool) (k : Z) (n : nat) : option Z :=
  match n with
  | O => None
  | Datatypes.S n => if f k then Some k else find_first f (k + 1) n
  end.

Lemma find_first_spec f k n :
  match find_first f k n with
  | Some j => k <= j < k + Z.of_nat n /\ f j = true /\ forall x, k <= x < j -> f x = false
  | None => forall x, k <= x < k + Z.of_nat n -> f x = false
  end.
Proof.
  revert k. induction n as [|n IH]; intros k; cbn [find_first]; [lia|]. destruct (f k) eqn:E.
  - split; [lia|]. split; [done|]. lia.
  - specialize (IH (k + 1)). destruct (find_first f (k + 1) n) as [j|].
    + destruct IH as (H1 & H2 & H3). split; [lia|]. split; [done|]. intros x Hx.
      destruct (decide (x = k)) as [->|]; [done|]. apply H3. lia.
    + intros x Hx. destruct (decide (x = k)) as [->|]; [done|]. apply IH. lia.
Qed.

Lemma find_first_some f k n j :
  k <= j < k + Z.of_nat n -> f j = true -> (forall x, k <= x < j -> f x = false) -> find_first f k n = Some j.
Proof.
  intros Hj Hf Hn. pose proof (find_first_spec f k n) as H. destruct (find_first f k n) as [x|].
  - destruct H as (H1 & H2 & H3). destruct (Z.lt_trichotomy x j) as [Hx|[->|Hx]]; [|done|].
    + rewrite Hn in H2 by lia. done.
    + rewrite H3 in Hf by lia. done.
  - rewrite H in Hf by done. done.
Qed.

Lemma find_first_none f k n : (forall x, k <= x < k + Z.of_nat n -> f x = false) -> find_first f k n = None.
Proof.
  intros Hn. pose proof (find_first_spec f k n) as H. destruct (find_first f k n) as [x|]; [|done].
  destruct H as (H1 & H2 & _). by rewrite Hn in H2.
Qed.

Lemma find_first_ext f g k n : (forall x, k <= x < k + Z.of_nat n -> f x = g x) -> find_first f k n = find_first g k n.
Proof.
  revert k. induction n as [|n IH]; intros k H; [done|]. cbn [find_first]. rewrite H by lia.
  destruct (g k); [done|]. apply IH. intros x Hx. apply H. lia.
Qed.

Section Dir.
Context {S : Type} `{!Blocks S} `{!BlocksSpec S}.

(** Entry [k] of a directory. *)
Definition dirent (c : Z -> block) (i : inode) (k : Z) : list Z := fbytes c i (16 * k) 16.

(** The part of a name that counts. *)
Definition dname (name : list Z) : list Z := cstr_take (arr name) (Z.to_nat DIRSIZ).

Definition is_free (de : list Z) : bool := de_inum de =? 0.
Definition has_name (name de : list Z) : bool := negb (de_inum de =? 0) && bool_decide (dname name = dname (de_name de)).

(** The index of [name] in the directory. *)
Definition dir_find (c : Z -> block) (i : inode) (name : list Z) : option Z :=
  find_first (fun k => has_name name (dirent c i k)) 0 (Z.to_nat (i_size i / 16)).

Record dir_ok (c : Z -> block) (s : superblock) (i : inode) : Prop := {
  do_inode : inode_ok c s i;
  do_type : i_type i = T_DIR;
  do_size : i_size i mod 16 = 0;
}.

Lemma namecmp_dname a b : (namecmp a b =? 0) = bool_decide (dname a = dname b).
Proof.
  unfold namecmp, dname. pose proof (strncmp_cstr (arr a) (arr b) (Z.to_nat DIRSIZ)) as H.
  destruct (Z.eqb_spec (strncmp (arr a) (arr b) (Z.to_nat DIRSIZ)) 0); case_bool_decide; tauto.
Qed.

(** Reading one entry. *)
Lemma read_entry B s t dp i G k :
  data_ok B [] G -> dir_ok (content B) s i -> t !! dp = Some i -> (size G + 5 < cap)%nat -> 0 <= k -> 16 * k < i_size i ->
  exists B', readi dp kernel_dst (16 * k) 16 (FState B s t) = Done (16, dirent (content B) i k) (FState B' s t) /\
    data_ok B' [] G /\ (forall x, content B' x = content B x) /\ b_pid B' = b_pid B.
Proof.
  intros Hok [[Ha Hf Hh Hn] Ht Hm] Hi Hroom Hk1 Hk2. pose proof (fo_size _ _ _ Hf) as Hs.
  assert (Hmax : MAXFILE * BSIZE < 2 ^ 31) by done.
  destruct (readi_ok B s t dp i G (16 * k) 16) as (B' & E & H); try done; try lia.
  exists B'. assert (El : read_len (i_size i) (16 * k) 16 = 16); [|by rewrite El in E].
  unfold read_len. destruct (Z.ltb_spec (i_size i) (16 * k)); [lia|]. destruct (Z.leb_spec (2 ^ 32) (16 * k + 16)); [lia|]. cbn [orb]. lia.
Qed.

Lemma dir_ok_ext c c' s i : (forall x, c' x = c x) -> dir_ok c s i -> dir_ok c' s i.
Proof. intros E [H1 H2 H3]. split; [by apply (inode_ok_ext c)|done|done]. Qed.

Lemma dirent_ext c c' i k : (forall x, c' x = c x) -> dirent c' i k = dirent c i k.
Proof. intros E. apply fbytes_ext. intros p _. by apply fbyte_ext. Qed.

Lemma dirlookup_loop_spec fuel n B s t dp i G name k :
  data_ok B [] G -> dir_ok (content B) s i -> t !! dp = Some i -> (size G + 5 < cap)%nat ->
  0 <= k -> i_size i = 16 * k + 16 * Z.of_nat n -> (n < fuel)%nat ->
  exists B', data_ok B' [] G /\ (forall x, content B' x = content B x) /\ b_pid B' = b_pid B /\
    dirlookup_loop fuel dp name (16 * k) (FState B s t) =
      match find_first (fun k => has_name name (dirent (content B) i k)) k n with
      | None => Done None (FState B' s t)
      | Some j => (ip ← iget (i_dev i) (de_inum (dirent (content B) i j)); mret (Some (ip, 16 * j))) (FState B' s t)
      end.
Proof.
  revert n B k. induction fuel as [|fuel IH]; intros n B k Hok Hd Hi Hroom Hk Hsz Hfu; [lia|].
  cbn [dirlookup_loop]. rewrite bind_gets, (ino_at B s t dp i Hi).
  destruct n as [|n]; cbn [find_first]; destruct (Z.ltb_spec (16 * k) (i_size i)); try lia; [by exists B|].
  destruct (read_entry B s t dp i G k Hok Hd Hi Hroom Hk ltac:(lia)) as (B1 & E1 & Hok1 & Hc1 & Hp1). mstep E1.
  cbn [negb Z.eqb Pos.eqb]. rewrite namecmp_dname. unfold has_name at 1.
  assert (Hrec : exists B', data_ok B' [] G /\ (forall x, content B' x = content B x) /\ b_pid B' = b_pid B /\
    dirlookup_loop fuel dp name (16 * k + 16) (FState B1 s t) =
      match find_first (fun k => has_name name (dirent (content B) i k)) (k + 1) n with
      | None => Done None (FState B' s t)
      | Some j => (ip ← iget (i_dev i) (de_inum (dirent (content B) i j)); mret (Some (ip, 16 * j))) (FState B' s t)
      end).
  { destruct (IH n B1 (k + 1)) as (B' & H1 & H2 & H3 & H4); try done; try lia; [by apply (dir_ok_ext (content B))|].
    exists B'. split; [done|]. split; [intros x; by rewrite H2, Hc1|]. split; [congruence|].
    replace (16 * k + 16) with (16 * (k + 1)) by lia. rewrite H4. clear H4 IH E1.
    rewrite (find_first_ext _ (fun k => has_name name (dirent (content B) i k)))
      by (intros x _; by rewrite (dirent_ext (content B) (content B1))).
    destruct (find_first _ _ _); [|done]. by rewrite (dirent_ext (content B) (content B1)). }
  clear IH E1. destruct (de_inum (dirent (content B) i k) =? 0); cbn [negb andb]; [exact Hrec|].
  case_bool_decide; [|exact Hrec]. exists B1. split; [done|]. split; [done|]. split; [done|]. done.
Qed.

Lemma dirlookup_spec B s t dp i G name :
  data_ok B [] G -> dir_ok (content B) s i -> t !! dp = Some i -> (size G + 5 < cap)%nat ->
  exists B', data_ok B' [] G /\ (forall x, content B' x = content B x) /\ b_pid B' = b_pid B /\
    dirlookup dp name (FState B s t) =
      match dir_find (content B) i name with
      | None => Done None (FState B' s t)
      | Some j => (ip ← iget (i_dev i) (de_inum (dirent (content B) i j)); mret (Some (ip, 16 * j))) (FState B' s t)
      end.
Proof.
  intros Hok Hd Hi Hroom. unfold dirlookup. rewrite bind_gets, (ino_at B s t dp i Hi), (do_type _ _ _ Hd). cbn [negb Z.eqb Pos.eqb T_DIR].
  pose proof (do_size _ _ _ Hd). pose proof (fo_size _ _ _ (io_file _ _ _ (do_inode _ _ _ Hd))).
  apply (dirlookup_loop_spec _ (Z.to_nat (i_size i / 16)) B s t dp i G name 0); (done || lia).
Qed.

(** The place [dirlink] writes to: the first free entry, or the end. *)
Definition free_place (c : Z -> block) (i : inode) : Z :=
  default (i_size i / 16) (find_first (fun k => is_free (dirent c i k)) 0 (Z.to_nat (i_size i / 16))).

Lemma dirlink_loop_spec fuel n B s t dp i G k :
  data_ok B [] G -> dir_ok (content B) s i -> t !! dp = Some i -> (size G + 5 < cap)%nat ->
  0 <= k -> i_size i = 16 * k + 16 * Z.of_nat n -> (n < fuel)%nat ->
  exists B', data_ok B' [] G /\ (forall x, content B' x = content B x) /\ b_pid B' = b_pid B /\
    dirlink_loop fuel dp (16 * k) (FState B s t) =
      Done (16 * default (i_size i / 16) (find_first (fun k => is_free (dirent (content B) i k)) k n)) (FState B' s t).
Proof.
  revert n B k. induction fuel as [|fuel IH]; intros n B k Hok Hd Hi Hroom Hk Hsz Hfu; [lia|].
  cbn [dirlink_loop]. rewrite bind_gets, (ino_at B s t dp i Hi).
  destruct n as [|n]; cbn [find_first]; destruct (Z.ltb_spec (16 * k) (i_size i)); try lia.
  { exists B. split; [done|]. split; [done|]. split; [done|]. cbn [default]. unfold mret, M_ret. f_equal. lia. }
  destruct (read_entry B s t dp i G k Hok Hd Hi Hroom Hk ltac:(lia)) as (B1 & E1 & Hok1 & Hc1 & Hp1). mstep E1.
  cbn [negb Z.eqb Pos.eqb]. unfold is_free at 1. destruct (de_inum (dirent (content B) i k) =? 0); [by exists B1|].
  destruct (IH n B1 (k + 1)) as (B' & H1 & H2 & H3 & H4); try done; try lia; [by apply (dir_ok_ext (content B))|].
  exists B'. split; [done|]. split; [intros x; by rewrite H2, Hc1|]. split; [congruence|].
  replace (16 * k + 16) with (16 * (k + 1)) by lia. rewrite H4. clear H4 IH E1. do 3 f_equal. apply find_first_ext.
  intros x _. by rewrite (dirent_ext (content B) (content B1)).
Qed.

(** ** The entry [dirlink] writes *)

Lemma length_dirent_bytes inum name : length (dirent_bytes inum name) = 16%nat.
Proof. unfold dirent_bytes, st16. rewrite length_st. cbn [length]. by rewrite length_strncpy. Qed.

Lemma dirent_bytes_inum inum name : 0 <= inum < 2 ^ 16 -> de_inum (dirent_bytes inum name) = inum.
Proof.
  intros Hi. unfold de_inum, dirent_bytes, ld16, st16. rewrite ld_st by (cbn [length]; rewrite length_strncpy; cbn; lia).
  by apply Z.mod_small.
Qed.

Lemma dirent_bytes_name inum name : dname (de_name (dirent_bytes inum name)) = dname name.
Proof. unfold dname, de_name, dirent_bytes. apply (cstr_take_strncpy (arr name) (Z.to_nat DIRSIZ)). Qed.

Lemma kernel_src_is bytes n : n <= Z.of_nat (length bytes) -> src_is (kernel_src bytes) bytes n.
Proof. intros Hn. by split. Qed.

Lemma span_entry k : 0 <= k -> span (16 * k) (16 * k + 16) = 1.
Proof. intros Hk. unfold span. destruct (Z.ltb_spec (16 * k) (16 * k + 16)); unfold BSIZE; lia. Qed.

Lemma free_place_spec c i :
  0 <= i_size i -> i_size i mod 16 = 0 ->
  0 <= free_place c i <= i_size i / 16 /\ (free_place c i < i_size i / 16 -> is_free (dirent c i (free_place c i)) = true).
Proof.
  intros H0 Hm. unfold free_place. pose proof (find_first_spec (fun k => is_free (dirent c i k)) 0 (Z.to_nat (i_size i / 16))) as H.
  destruct (find_first _ _ _) as [j|]; cbn [default from_option id]; [|lia]. destruct H as (H1 & H2 & _). split; [lia|done].
Qed.

(** The entries after the write. *)
Section Link.
Variables (s : superblock) (c c' : Z -> block) (i i' : inode) (name : list Z) (inum : Z).
Let k := free_place c i.
Hypothesis Hd : dir_ok c s i.
Hypothesis Hw : written s c i (dirent_bytes inum name) (16 * k) 16 c' i'.
Hypothesis Hin : 0 < inum < 2 ^ 16.

Lemma link_size : 0 <= i_size i /\ 0 <= k <= i_size i / 16 /\ i_size i' = Z.max (i_size i) (16 * k + 16) /\ i_size i mod 16 = 0.
Proof.
  pose proof (fo_size _ _ _ (io_file _ _ _ (do_inode _ _ _ Hd))) as Hs. pose proof (do_size _ _ _ Hd) as Hm.
  destruct (free_place_spec c i ltac:(lia) Hm) as [Hk _]. split; [lia|]. split; [done|]. split; [apply (wr_size _ _ _ _ _ _ _ _ Hw)|done].
Qed.

Lemma link_dir : dir_ok c' s i'.
Proof.
  destruct link_size as (H1 & H2 & H3 & H4). split; [apply (wr_ok _ _ _ _ _ _ _ _ Hw)| |rewrite H3; lia].
  rewrite (wr_inode _ _ _ _ _ _ _ _ Hw). apply (do_type _ _ _ Hd).
Qed.

Lemma link_entry : dirent c' i' k = dirent_bytes inum name.
Proof.
  destruct link_size as (H1 & H2 & H3 & H4). apply list_nth_eq; [unfold dirent; by rewrite length_fbytes, length_dirent_bytes|].
  unfold dirent. rewrite length_fbytes. intros j Hj. rewrite <-(Nat2Z.id j) at 1. rewrite nth_fbytes by lia.
  rewrite (wr_bytes _ _ _ _ _ _ _ _ Hw) by lia. rewrite decide_True by lia. f_equal. lia.
Qed.

Lemma dir_link_other j : 0 <= j < i_size i / 16 -> j <> k -> dirent c' i' j = dirent c i j.
Proof.
  intros Hj Hne. destruct link_size as (H1 & H2 & H3 & H4). apply fbytes_ext. intros p Hp.
  rewrite (wr_bytes _ _ _ _ _ _ _ _ Hw) by lia. rewrite decide_False by lia. done.
Qed.

Lemma link_count : i_size i' / 16 = Z.max (i_size i / 16) (k + 1).
Proof. destruct link_size as (H1 & H2 & H3 & H4). rewrite H3. lia. Qed.

Lemma link_found : dir_find c i name = None -> dir_find c' i' name = Some k.
Proof.
  intros Hnone. destruct link_size as (H1 & H2 & H3 & H4). pose proof link_count as Hc.
  pose proof (find_first_spec (fun j => has_name name (dirent c i j)) 0 (Z.to_nat (i_size i / 16))) as Hf.
  unfold dir_find in Hnone. rewrite Hnone in Hf. apply find_first_some; [lia| |].
  - cbv beta. rewrite link_entry. unfold has_name. rewrite dirent_bytes_inum, dirent_bytes_name by lia.
    rewrite bool_decide_true by done. destruct (Z.eqb_spec inum 0); [lia|done].
  - intros x Hx. cbv beta. rewrite dir_link_other by lia. apply Hf. lia.
Qed.

Lemma link_others nm : dname nm <> dname name -> dir_find c' i' nm = dir_find c i nm.
Proof.
  intros Hne. destruct link_size as (H1 & H2 & H3 & H4). pose proof link_count as Hc.
  assert (Hk : has_name nm (dirent c' i' k) = false).
  { rewrite link_entry. unfold has_name. rewrite dirent_bytes_name, bool_decide_false by done. apply andb_false_r. }
  assert (Hfree : k < i_size i / 16 -> has_name nm (dirent c i k) = false).
  { intros Hlt. destruct (free_place_spec c i H1 H4) as [_ Hf]. specialize (Hf Hlt). unfold is_free in Hf.
    unfold has_name. fold k in Hf. by rewrite Hf. }
  assert (Heq : forall x, 0 <= x < i_size i / 16 -> has_name nm (dirent c' i' x) = has_name nm (dirent c i x)).
  { intros x Hx. destruct (decide (x = k)) as [->|]; [rewrite Hk, Hfree by lia; done|by rewrite dir_link_other]. }
  unfold dir_find. pose proof (find_first_spec (fun j => has_name nm (dirent c i j)) 0 (Z.to_nat (i_size i / 16))) as Hf.
  destruct (find_first (fun j => has_name nm (dirent c i j)) 0 (Z.to_nat (i_size i / 16))) as [j|].
  - destruct Hf as (F1 & F2 & F3). apply find_first_some; [lia|by rewrite Heq by lia|].
    intros x Hx. rewrite Heq by lia. by apply F3.
  - apply find_first_none. intros x Hx. destruct (decide (x = k)) as [->|]; [done|]. rewrite Heq by lia. apply Hf. lia.
Qed.
End Link.

Lemma dirlink_spec B s t dp i G name inum :
  data_ok B [] G -> dir_ok (content B) s i -> t !! dp = Some i -> (size G + size (bitmap s) + 9 < cap)%nat ->
  dir_find (content B) i name = None -> i_size i + 16 <= MAXFILE * BSIZE ->
  exists tot B' i' G', dirlink dp name inum (FState B s t) = Done (if tot =? 16 then 0 else -1) (FState B' s (<[dp := i']> t)) /\
    data_ok B' [] G' /\ written s (content B) i (dirent_bytes inum name) (16 * free_place (content B) i) tot (content B') i' /\
    tot <= 16 /\ (tot < 16 -> disk_full (content B') s) /\ (size G' <= size G + size (bitmap s) + 4)%nat.
Proof.
  intros Hok Hd Hi Hroom Hnone Hmax. unfold dirlink.
  pose proof (fo_size _ _ _ (io_file _ _ _ (do_inode _ _ _ Hd))) as Hs. pose proof (do_size _ _ _ Hd) as Hm.
  destruct (dirlookup_spec B s t dp i G name Hok Hd Hi ltac:(lia)) as (B1 & Hok1 & Hc1 & _ & E1). rewrite Hnone in E1. mstep E1.
  rewrite bind_gets, (ino_at B1 s t dp i Hi).
  destruct (dirlink_loop_spec (Z.to_nat (i_size i / 16 + 1)) (Z.to_nat (i_size i / 16)) B1 s t dp i G 0) as (B2 & Hok2 & Hc2 & _ & E2);
    try done; try lia; [by apply (dir_ok_ext (content B))|].
  rewrite Z.mul_0_r in E2. mstep E2. clear E1 E2. fold (free_place (content B1) i).
  assert (Hc : forall x, content B2 x = content B x) by (intros x; by rewrite Hc2, Hc1).
  assert (Hp : free_place (content B1) i = free_place (content B) i).
  { unfold free_place. f_equal. apply find_first_ext. intros x _. by rewrite (dirent_ext (content B) (content B1)). }
  rewrite Hp. destruct (free_place_spec (content B) i ltac:(lia) Hm) as [Hk _]. set (k := free_place (content B) i) in *.
  assert (Hb : MAXFILE * BSIZE < 2 ^ 31) by done.
  destruct (writei_spec B2 s t dp i G (kernel_src (dirent_bytes inum name)) (dirent_bytes inum name) (16 * k) 16) as
    (tot & B3 & i3 & G3 & E3 & Hok3 & Hw & Ht & Hfull & Hsz & _); try done; try lia.
  - apply (inode_ok_ext (content B)); [done|apply Hd].
  - apply kernel_src_is. by rewrite length_dirent_bytes.
  - unfold write_refused. destruct (Z.ltb_spec (i_size i) (16 * k)); [lia|].
    destruct (Z.leb_spec (2 ^ 32) (16 * k + 16)); [lia|]. destruct (Z.ltb_spec (MAXFILE * BSIZE) (16 * k + 16)); [lia|done].
  - rewrite span_entry by lia. lia.
  - mstep E3. exists tot, B3, i3, G3. rewrite span_entry in Hsz by lia. split; [by destruct (tot =? 16)|]. clear E3.
    split; [done|]. split; [by apply (written_ext_l (content B) s (content B2))|]. split; [lia|]. split; [done|lia].
Qed.
End Dir.
