(* ===== verification/FsTrunc.v ===== *)
(** * Truncating a file

    [itrunc] frees every block of the file and no other block; the addresses are
    distinct blocks in use, so [bfree] never finds a block already free. *)

From S2P Require Import Prelude Mem CString Block Sleeplock LogSpec Fs FsBlocks FsAlloc FsInode FsDisk.

Section Trunc.
Context {S : Type} `{!Blocks S} `{!BlocksSpec S}.

(** The free map of [c'] is that of [c] without the blocks of [L]; nothing else differs. *)
Record freed_list (s : superblock) (c c' : Z -> block) (L : list Z) : Prop := {
  fl_alloc : alloc_ok c' s;
  fl_used : forall b, 0 <= b < sb_size s -> in_use c' s b = in_use c s b && bool_decide (b ∉ L);
  fl_data : forall x, x < sb_bmapstart s \/ data_start s <= x -> c' x = c x;
}.

(** Distinct data blocks in use. *)
Definition freeable (s : superblock) (c : Z -> block) (L : list Z) : Prop :=
  NoDup L /\ forall b, b ∈ L -> data_start s <= b < sb_size s /\ in_use c s b = true.

Lemma freed_list_nil s c c' : alloc_ok c s -> (forall x, c' x = c x) -> freed_list s c c' [].
Proof.
  intros Ha E. split; [by apply (alloc_ok_ext c)| |done]. intros b Hb. rewrite (in_use_ext c c') by done.
  rewrite bool_decide_true by apply not_elem_of_nil. by rewrite andb_true_r.
Qed.

Lemma freed_list_ext s c c1 c2 L : (forall x, c2 x = c1 x) -> freed_list s c c1 L -> freed_list s c c2 L.
Proof.
  intros E [H1 H2 H3]. split; [by apply (alloc_ok_ext c1)| |].
  - intros b Hb. rewrite (in_use_ext c1 c2) by done. by apply H2.
  - intros x Hx. rewrite E. by apply H3.
Qed.

Lemma freed_list_trans s c c1 c2 L L' : freed_list s c c1 L -> freed_list s c1 c2 L' -> freed_list s c c2 (L ++ L').
Proof.
  intros [H1 H2 H3] [K1 K2 K3]. split; [done| |].
  - intros b Hb. rewrite K2, H2 by done. rewrite <-andb_assoc. f_equal. rewrite <-bool_decide_and. apply bool_decide_ext.
    rewrite elem_of_app. tauto.
  - intros x Hx. rewrite K3 by done. by apply H3.
Qed.

Lemma freed_list_perm s c c' L L' : L ≡ₚ L' -> freed_list s c c' L -> freed_list s c c' L'.
Proof.
  intros Hp [H1 H2 H3]. split; [done| |done]. intros b Hb. rewrite H2 by done. f_equal. apply bool_decide_ext. by rewrite Hp.
Qed.

Lemma freed_list_one s c r : alloc_ok c s -> data_start s <= r < sb_size s -> freed_list s c (freed c s r) [r].
Proof.
  intros Ha Hr. split; [by apply freed_ok| |].
  - intros b Hb. rewrite freed_in_use by done. f_equal. destruct (Z.eqb_spec b r); case_bool_decide as E; try done.
    + exfalso. apply E. by apply list_elem_of_singleton.
    + by apply list_elem_of_singleton in E.
  - intros x Hx. pose proof (data_start_pos c s Ha). pose proof (BBLOCK_meta c s r Ha ltac:(lia)).
    rewrite (BBLOCK_val c s r Ha) in * by lia. pose proof (ao_bmap _ _ Ha). assert (0 <= r / BPB) by (unfold BPB, BSIZE; lia).
    unfold freed, put. rewrite (BBLOCK_val c s r Ha) by lia. rewrite decide_False by lia. done.
Qed.

(** What stays freeable. *)
Lemma freeable_after s c c' L L' : freed_list s c c' L -> freeable s c (L ++ L') -> alloc_ok c s -> freeable s c' L'.
Proof.
  intros Hf [Hnd Hin] Ha. pose proof (data_start_pos c s Ha). apply list.NoDup_app in Hnd as (_ & Hdis & Hnd).
  split; [done|]. intros b Hb. destruct (Hin b) as [Hr Hu]; [apply elem_of_app; by right|]. split; [done|].
  rewrite (fl_used _ _ _ _ Hf) by lia. rewrite Hu, bool_decide_true; [done|]. intros Hb'. by apply (Hdis b).
Qed.

(** One step of the loops. *)
Lemma free_step B s t O G a :
  data_ok B O G -> alloc_ok (content B) s -> (forall o, o ∈ O -> data_start s <= ob_blk o) ->
  (length O + size G + 1 < cap)%nat -> freeable s (content B) [a] ->
  exists B', bfree ROOTDEV a (FState B s t) = Done tt (FState B' s t) /\ data_ok B' O ({[BBLOCK a s]} ∪ G) /\
    freed_list s (content B) (content B') [a] /\ b_pid B' = b_pid B.
Proof.
  intros Hok Ha Ho Hroom [_ Hin]. destruct (Hin a) as [Hr Hu]; [by apply list_elem_of_singleton|].
  pose proof (bfree_spec B s t O G a Hok Ha Ho Hroom Hr) as H. rewrite Hu in H. destruct H as (B' & E & H1 & H2 & H3).
  exists B'. split; [done|]. split; [done|]. split; [|done].
  apply (freed_list_ext s _ (freed (content B) s a)); [done|]. by apply freed_list_one.
Qed.

(** The addresses that are not null. *)
Definition live (l : list Z) : list Z := filter (fun a => a <> 0) l.

Lemma live_cons a l : live (a :: l) = if decide (a = 0) then live l else a :: live l.
Proof. unfold live. rewrite filter_cons. destruct (decide (a <> 0)), (decide (a = 0)); try done; contradiction. Qed.

Lemma sub_bitmap c s b (G G0 : gset Z) :
  alloc_ok c s -> 0 <= b < sb_size s -> G ⊆ G0 ∪ bitmap s -> {[BBLOCK b s]} ∪ G ⊆ G0 ∪ bitmap s.
Proof. intros Ha Hb HG. pose proof (BBLOCK_bitmap c s b Ha Hb) as H. clear -HG H. set_solver. Qed.

Lemma indirect_loop_spec rem B s t bp a G0 G j :
  data_ok B [(bp, a, false)] G -> alloc_ok (content B) s -> data_start s <= a ->
  (size (G0 ∪ bitmap s) + 2 < cap)%nat -> G ⊆ G0 ∪ bitmap s -> 
  freeable s (content B) (live ((fun j => ld32 (content B a) (4 * j)) <$> seqZ j (Z.of_nat rem))) ->
  exists B' G', itrunc_indirect rem ROOTDEV bp j (FState B s t) = Done tt (FState B' s t) /\
    data_ok B' [(bp, a, false)] G' /\ G' ⊆ G0 ∪ bitmap s /\
    freed_list s (content B) (content B') (live ((fun j => ld32 (content B a) (4 * j)) <$> seqZ j (Z.of_nat rem))) /\
    b_pid B' = b_pid B.
Proof.
  revert B G j. induction rem as [|rem IH]; intros B G j Hok Ha Had Hroom HG Hfr.
  { exists B, G. cbn. split; [done|]. split; [done|]. split; [done|]. split; [by apply freed_list_nil|done]. }
  cbn [itrunc_indirect]. assert (Ed : get_data bp (FState B s t) = Done (content B a) (FState B s t)).
  { unfold get_data, gets. cbn [blocks]. by rewrite (spec_data B _ G bp a false Hok) by (by left). }
  mstep Ed. pose proof (subseteq_size _ _ HG) as HGs.
  rewrite seqZ_cons, fmap_cons, live_cons in * by lia. replace (Z.pred (Z.of_nat (Datatypes.S rem))) with (Z.of_nat rem) in * by lia.
  rewrite <-Z.add_1_r in *. destruct (decide (ld32 (content B a) (4 * j) = 0)) as [E0|E0].
  - rewrite E0. cbn [Z.eqb negb]. rewrite bind_ret. by apply (IH B G).
  - destruct (Z.eqb_spec (ld32 (content B a) (4 * j)) 0); [done|]. cbn [negb].
    set (r := ld32 (content B a) (4 * j)) in *. set (L := live _) in *.
    assert (Hr : data_start s <= r < sb_size s) by (destruct Hfr as [_ Hin]; destruct (Hin r); [by left|done]).
    destruct (free_step B s t [(bp, a, false)] G r Hok Ha) as (B1 & E1 & Hok1 & Hf1 & Hp1).
    { intros o [->|Ho]%elem_of_cons; [done|by apply elem_of_nil in Ho]. }
    { cbn [length]. lia. }
    { destruct Hfr as [Hnd Hin]. split; [apply list.NoDup_singleton|]. intros b ->%list_elem_of_singleton. apply Hin. by left. }
    mstep E1. pose proof (data_start_pos _ s Ha).
    assert (Ea : content B1 a = content B a) by (apply (fl_data _ _ _ _ Hf1); by right).
    destruct (IH B1 ({[BBLOCK r s]} ∪ G) (j + 1) Hok1 (fl_alloc _ _ _ _ Hf1) Had Hroom) as (B' & G' & E' & H1 & H2 & H3 & H4).
    { apply (sub_bitmap (content B)); [done|lia|done]. }
    { rewrite Ea. fold L. by apply (freeable_after s (content B) _ [r]). }
    rewrite Ea in H3. exists B', G'. split; [done|]. split; [done|]. split; [done|]. split; [|congruence].
    by apply (freed_list_trans s _ (content B1) _ [r] L).
Qed.

Lemma direct_loop_spec rem B s t ip i G0 G k :
  data_ok B [] G -> alloc_ok (content B) s -> t !! ip = Some i -> i_dev i = ROOTDEV -> length (i_addrs i) = 13%nat ->
  (size (G0 ∪ bitmap s) + 2 < cap)%nat -> G ⊆ G0 ∪ bitmap s -> 0 <= k -> k + Z.of_nat rem <= NDIRECT ->
  freeable s (content B) (live (addr_at i <$> seqZ k (Z.of_nat rem))) ->
  exists B' a' G', itrunc_direct rem ip k (FState B s t) = Done tt (FState B' s (<[ip := with_addrs a' i]> t)) /\
    data_ok B' [] G' /\ G' ⊆ G0 ∪ bitmap s /\ length a' = 13%nat /\
    (forall j, 0 <= j -> nth (Z.to_nat j) a' 0 = if decide (k <= j < k + Z.of_nat rem) then 0 else addr_at i j) /\
    freed_list s (content B) (content B') (live (addr_at i <$> seqZ k (Z.of_nat rem))) /\ b_pid B' = b_pid B.
Proof.
  revert B t i G k. induction rem as [|rem IH]; intros B t i G k Hok Ha Hi Hdev Hlen Hroom HG Hk Hkr Hfr.
  { exists B, (i_addrs i), G. rewrite <-with_addrs_same, list_insert_id by done. cbn. split; [done|]. split; [done|]. split; [done|].
    split; [done|]. split; [|split; [by apply freed_list_nil|done]]. intros j Hj. by rewrite decide_False by lia. }
  cbn [itrunc_direct]. rewrite bind_gets, (ino_at B s t ip i Hi). pose proof (subseteq_size _ _ HG) as HGs.
  rewrite seqZ_cons, fmap_cons, live_cons in * by lia. replace (Z.pred (Z.of_nat (Datatypes.S rem))) with (Z.of_nat rem) in * by lia.
  rewrite <-Z.add_1_r in *. destruct (decide (addr_at i k = 0)) as [E0|E0].
  - rewrite E0. cbn [Z.eqb negb]. rewrite bind_ret.
    destruct (IH B t i G (k + 1)) as (B' & a' & G' & E' & H1 & H2 & H3 & H4 & H5); try done; try lia.
    exists B', a', G'. split; [done|]. split; [done|]. split; [done|]. split; [done|]. split; [|done].
    intros j Hj. rewrite H4 by done. destruct (decide (j = k)) as [->|].
    + rewrite decide_False, decide_True by lia. done.
    + repeat case_decide; (done || lia).
  - destruct (Z.eqb_spec (addr_at i k) 0); [done|]. cbn [negb]. rewrite Hdev.
    set (r := addr_at i k) in *. set (L := live _) in *.
    assert (Hr : data_start s <= r < sb_size s) by (destruct Hfr as [_ Hin]; destruct (Hin r); [by left|done]).
    destruct (free_step B s t [] G r Hok Ha) as (B1 & E1 & Hok1 & Hf1 & Hp1).
    { intros o Ho. by apply elem_of_nil in Ho. }
    { cbn [length]. lia. }
    { destruct Hfr as [Hnd Hin]. split; [apply list.NoDup_singleton|]. intros b ->%list_elem_of_singleton. apply Hin. by left. }
    rewrite bind_assoc. mstep E1. unfold set_addr. rewrite (bind_set_ino B1 s t ip _ i _ Hi). fold (put_addr i k 0).
    pose proof (data_start_pos _ s Ha).
    assert (Hadr : forall j, 0 <= j -> addr_at (put_addr i k 0) j = if decide (j = k) then 0 else addr_at i j).
    { intros j Hj. apply addr_at_put; [done|unfold NDIRECT in *; lia|done]. }
    assert (EL : live (addr_at (put_addr i k 0) <$> seqZ (k + 1) (Z.of_nat rem)) = L).
    { unfold L. f_equal. apply list_fmap_ext. intros m x [-> Hx]%lookup_seqZ. rewrite Hadr by lia. by rewrite decide_False by lia. }
    destruct (IH B1 (<[ip := put_addr i k 0]> t) (put_addr i k 0) ({[BBLOCK r s]} ∪ G) (k + 1)) as
      (B' & a' & G' & E' & H1 & H2 & H3 & H4 & H5 & H6); try done; try lia.
    { apply (fl_alloc _ _ _ _ Hf1). }
    { by apply (insert_at t ip i). }
    { unfold put_addr. cbn [i_addrs with_addrs]. by rewrite length_insert. }
    { apply (sub_bitmap (content B)); [done|lia|done]. }
    { rewrite EL. by apply (freeable_after s (content B) _ [r]). }
    rewrite list_insert_insert_eq in E'. rewrite EL in H5.
    exists B', a', G'. split; [done|]. split; [done|]. split; [done|]. split; [done|]. split; [|split; [|congruence]].
    + intros j Hj. rewrite H4, Hadr by done. repeat case_decide; (done || lia).
    + by apply (freed_list_trans s _ (content B1) _ [r] L).
Qed.

(** ** itrunc *)

(** The blocks of a file, the indirect block last. *)
Definition slots : list Z := seqZ 0 NDIRECT ++ seqZ NDIRECT NINDIRECT ++ [-1].
Definition file_blocks (c : Z -> block) (i : inode) : list Z := live (slot c i <$> slots).

Lemma live_app l l' : live (l ++ l') = live l ++ live l'.
Proof. apply list.filter_app. Qed.

Lemma elem_of_slots k : k ∈ slots <-> -1 <= k < MAXFILE.
Proof.
  unfold slots. rewrite !elem_of_app, !elem_of_seqZ, list_elem_of_singleton. unfold MAXFILE, NDIRECT, NINDIRECT, BSIZE. lia.
Qed.

Lemma NoDup_slots : NoDup slots.
Proof.
  apply list.NoDup_app. split; [apply NoDup_seqZ|]. split.
  - intros x Hx. rewrite elem_of_app, list_elem_of_singleton. rewrite !elem_of_seqZ in *. unfold NDIRECT, NINDIRECT, BSIZE in *. lia.
  - apply list.NoDup_app. split; [apply NoDup_seqZ|]. split; [|apply list.NoDup_singleton].
    intros x Hx. rewrite list_elem_of_singleton. rewrite !elem_of_seqZ in *. unfold NDIRECT, NINDIRECT, BSIZE in *. lia.
Qed.

Lemma NoDup_live (f : Z -> Z) ks :
  NoDup ks -> (forall j k, j ∈ ks -> k ∈ ks -> f j <> 0 -> f j = f k -> j = k) -> NoDup (live (f <$> ks)).
Proof.
  induction 1 as [|k ks Hk Hnd IH]; intros Hinj; [constructor|]. rewrite fmap_cons, live_cons.
  assert (IH' : NoDup (live (f <$> ks))) by (apply IH; intros; apply Hinj; try done; by right).
  destruct (decide (f k = 0)); [done|]. apply list.NoDup_cons. split; [|done].
  intros [_ (j & E & Hj)%list_elem_of_fmap]%list_elem_of_filter. apply Hk.
  rewrite (Hinj k j); [done|by left|by right|done|done].
Qed.

Lemma file_freeable c s i : file_ok c s i -> freeable s c (file_blocks c i).
Proof.
  intros Hf. split.
  - apply NoDup_live; [apply NoDup_slots|]. intros j k Hj%elem_of_slots Hk%elem_of_slots. by apply (fo_inj _ _ _ Hf).
  - intros b [Hb (k & -> & Hk%elem_of_slots)%list_elem_of_fmap]%list_elem_of_filter. by apply (fo_data _ _ _ Hf).
Qed.

Lemma freeable_app_l s c L L' : freeable s c (L ++ L') -> freeable s c L.
Proof.
  intros [Hnd Hin]. apply list.NoDup_app in Hnd as (Hnd & _). split; [done|]. intros b Hb. apply Hin, elem_of_app. by left.
Qed.

Lemma addrs_zero a : length a = 13%nat -> (forall j, 0 <= j <= NDIRECT -> nth (Z.to_nat j) a 0 = 0) -> a = replicate 13 0.
Proof.
  intros HL H. apply (nth_ext a (replicate 13 0) 0 0); [by rewrite length_replicate|]. intros j Hj.
  rewrite (nth_lookup_Some (replicate 13 0) j 0 0) by (apply lookup_replicate_2; lia). specialize (H (Z.of_nat j)). rewrite Nat2Z.id in H. apply H. unfold NDIRECT. lia.
Qed.

(** The indirect part. *)
Lemma itrunc_ind_spec B s t ip i G0 G c :
  data_ok B [] G -> alloc_ok (content B) s -> t !! ip = Some i -> i_dev i = ROOTDEV -> addr_at i NDIRECT <> 0 ->
  (size (G0 ∪ bitmap s) + 3 < cap)%nat -> G ⊆ G0 ∪ bitmap s -> content B (addr_at i NDIRECT) = c ->
  freeable s (content B) (live ((fun j => ld32 c (4 * j)) <$> seqZ 0 NINDIRECT) ++ [addr_at i NDIRECT]) ->
  exists B' G', (bp ← blk_op (b_read (i_dev i) (addr_at i NDIRECT));
     itrunc_indirect (Z.to_nat NINDIRECT) (i_dev i) bp 0;;
     blk_op (b_relse bp);;
     bfree (i_dev i) (addr_at i NDIRECT);;
     set_addr ip NDIRECT 0) (FState B s t) = Done tt (FState B' s (<[ip := put_addr i NDIRECT 0]> t)) /\
    data_ok B' [] G' /\ G' ⊆ G0 ∪ bitmap s /\
    freed_list s (content B) (content B') (live ((fun j => ld32 c (4 * j)) <$> seqZ 0 NINDIRECT) ++ [addr_at i NDIRECT]) /\
    b_pid B' = b_pid B.
Proof.
  intros Hok Ha Hi Hdev H0 Hroom HG Ec Hfr. set (a := addr_at i NDIRECT) in *. rewrite Hdev. pose proof (subseteq_size _ _ HG) as HGs.
  assert (Had : data_start s <= a < sb_size s).
  { destruct Hfr as [_ Hin]. destruct (Hin a); [apply elem_of_app; right; by left|done]. }
  destruct (open_block B s t [] G a Hok) as (bp & B1 & E1 & _ & Hok1 & Hc1 & Hp1);
    [intros o Ho; by apply elem_of_nil in Ho|cbn; lia|]. mstep E1.
  assert (Ha1 : alloc_ok (content B1) s) by (by apply (alloc_ok_ext (content B))).
  pose proof (freed_list_nil s (content B) (content B1) Ha Hc1) as Hf0.
  assert (EN : Z.of_nat (Z.to_nat NINDIRECT) = NINDIRECT) by done. set (L := live _) in *.
  assert (EL : live ((fun j => ld32 (content B1 a) (4 * j)) <$> seqZ 0 (Z.of_nat (Z.to_nat NINDIRECT))) = L)
    by (by rewrite EN, Hc1, Ec).
  destruct (indirect_loop_spec (Z.to_nat NINDIRECT) B1 s t bp a G0 G 0 Hok1 Ha1) as (B2 & G2 & E2 & Hok2 & HG2 & Hf2 & Hp2);
    [lia|lia|done|rewrite EL; apply (freeable_app_l _ _ _ [a]); by apply (freeable_after s (content B) _ [])|].
  rewrite EL in Hf2. mstep E2. clear E2.
  destruct (close_block B2 s t [] G2 bp a Hok2) as (B3 & E3 & Hok3 & Hc3 & Hp3). mstep E3.
  pose proof (freed_list_trans _ _ _ _ _ _ Hf0 (freed_list_ext _ _ _ _ _ Hc3 Hf2)) as Hf3. cbn [app] in Hf3.
  pose proof (subseteq_size _ _ HG2) as HG2s.
  destruct (free_step B3 s t [] G2 a Hok3 (fl_alloc _ _ _ _ Hf3)) as (B4 & E4 & Hok4 & Hf4 & Hp4).
  { intros o Ho. by apply elem_of_nil in Ho. }
  { cbn [length]. lia. }
  { by apply (freeable_after s (content B) _ L). }
  mstep E4. unfold set_addr. rewrite (set_ino_done B4 s t ip _ i Hi). fold (put_addr i NDIRECT 0).
  exists B4, ({[BBLOCK a s]} ∪ G2). split; [done|]. split; [done|]. pose proof (data_start_pos _ s Ha).
  split; [apply (sub_bitmap (content B)); [done|lia|done]|]. split; [|congruence].
  by apply (freed_list_trans s _ (content B3)).
Qed.

(** What is left of the inode. *)
Definition emptied (i : inode) : inode := with_size 0 (with_addrs (replicate 13 0) i).

Lemma live_zero (l : list Z) : live ((fun _ => 0) <$> l) = [].
Proof. induction l as [|x l IH]; [done|]. rewrite fmap_cons, live_cons. done. Qed.

Lemma file_blocks_split c i :
  file_blocks c i = live (addr_at i <$> seqZ 0 NDIRECT) ++
    (if decide (addr_at i NDIRECT = 0) then [] else
       live ((fun j => ld32 (c (addr_at i NDIRECT)) (4 * j)) <$> seqZ 0 NINDIRECT) ++ [addr_at i NDIRECT]).
Proof.
  unfold file_blocks, slots. rewrite !fmap_app, !live_app. apply (f_equal2 app).
  - apply (f_equal live), list_fmap_ext. intros n x [-> Hx]%lookup_seqZ. apply slot_direct. lia.
  - change (slot c i <$> [-1]) with [addr_at i NDIRECT]. rewrite live_cons. destruct (decide (addr_at i NDIRECT = 0)) as [E|E].
    + rewrite app_nil_r, <-(live_zero (seqZ NDIRECT NINDIRECT)). apply (f_equal live), list_fmap_ext.
      intros n x [-> Hx]%lookup_seqZ. apply slot_none; [lia|done].
    + apply (f_equal2 app); [|done]. apply (f_equal live). replace (seqZ NDIRECT NINDIRECT) with (Z.add NDIRECT <$> seqZ 0 NINDIRECT) by apply fmap_add_seqZ.
      rewrite <-list_fmap_compose. apply list_fmap_ext. intros n x [-> Hx]%lookup_seqZ. unfold compose. rewrite slot_indirect by (done || lia).
      f_equal. lia.
Qed.

Lemma itrunc_spec B s t ip i G :
  data_ok B [] G -> alloc_ok (content B) s -> file_ok (content B) s i -> inum_ok s (i_inum i) -> t !! ip = Some i ->
  (size (G ∪ bitmap s) + 3 < cap)%nat ->
  exists B' G' c1, itrunc ip (FState B s t) = Done tt (FState B' s (<[ip := emptied i]> t)) /\ data_ok B' [] G' /\
    freed_list s (content B) c1 (file_blocks (content B) i) /\
    (forall x, content B' x = updated c1 s (emptied i) x) /\
    G' ⊆ {[IBLOCK (i_inum i) s]} ∪ (G ∪ bitmap s) /\ b_pid B' = b_pid B.
Proof.
  intros Hok Ha Hf Hn Hi Hroom. pose proof (file_freeable _ _ _ Hf) as Hfr. rewrite file_blocks_split in *.
  pose proof (fo_dev _ _ _ Hf) as Hdev. pose proof (fo_len _ _ _ Hf) as Hlen.
  set (D := live (addr_at i <$> seqZ 0 NDIRECT)) in *. unfold itrunc.
  destruct (direct_loop_spec (Z.to_nat NDIRECT) B s t ip i G G 0) as (B1 & a1 & G1 & E1 & Hok1 & HG1 & Hl1 & Ha1 & Hf1 & Hp1); try done.
  { lia. }
  { by apply union_subseteq_l. }
  { by apply freeable_app_l in Hfr. }
  mstep E1. clear E1. change (Z.of_nat (Z.to_nat NDIRECT)) with NDIRECT in *. fold D in Hf1.
  set (i1 := with_addrs a1 i) in *. pose proof (insert_at t ip i i1 Hi) as Hi1.
  rewrite bind_gets, (ino_at B1 s _ ip i1 Hi1).
  assert (Hind : addr_at i1 NDIRECT = addr_at i NDIRECT).
  { unfold addr_at at 1. cbn [i_addrs i1 with_addrs]. rewrite Ha1 by done. by rewrite decide_False by (unfold NDIRECT; lia). }
  rewrite Hind.
  assert (Hrest : exists B2 a2 G2,
    (if negb (addr_at i NDIRECT =? 0) then
       bp ← blk_op (b_read (i_dev i1) (addr_at i NDIRECT));
       itrunc_indirect (Z.to_nat NINDIRECT) (i_dev i1) bp 0;;
       blk_op (b_relse bp);;
       bfree (i_dev i1) (addr_at i NDIRECT);;
       set_addr ip NDIRECT 0
     else mret tt) (FState B1 s (<[ip := i1]> t)) = Done tt (FState B2 s (<[ip := with_addrs a2 i]> t)) /\
    data_ok B2 [] G2 /\ G2 ⊆ G ∪ bitmap s /\ a2 = replicate 13 0 /\
    freed_list s (content B) (content B2) (D ++ (if decide (addr_at i NDIRECT = 0) then [] else
       live ((fun j => ld32 (content B (addr_at i NDIRECT)) (4 * j)) <$> seqZ 0 NINDIRECT) ++ [addr_at i NDIRECT])) /\
    b_pid B2 = b_pid B).
  { destruct (decide (addr_at i NDIRECT = 0)) as [E0|E0]; destruct (Z.eqb_spec (addr_at i NDIRECT) 0) as [E0'|E0']; try done; cbn [negb].
    - exists B1, a1, G1. split; [done|]. split; [done|]. split; [done|]. split; [|by rewrite app_nil_r].
      apply addrs_zero; [done|]. intros j Hj. rewrite Ha1 by lia. case_decide; [done|].
      replace j with NDIRECT by lia. done.
    - pose proof (fo_data _ _ _ Hf (-1)) as [Hd _]; [done|done|]. rewrite slot_ind in Hd.
      destruct (itrunc_ind_spec B1 s (<[ip := i1]> t) ip i1 G G1 (content B (addr_at i NDIRECT))) as (B2 & G2 & E2 & Hok2 & HG2 & Hf2 & Hp2);
        try done.
      + apply (fl_alloc _ _ _ _ Hf1).
      + by rewrite Hind.
      + rewrite Hind. apply (fl_data _ _ _ _ Hf1). right. lia.
      + rewrite Hind. by apply (freeable_after s (content B) _ D).
      + rewrite Hind, list_insert_insert_eq in E2. rewrite Hind in Hf2.
        exists B2, (<[Z.to_nat NDIRECT := 0]> a1), G2. split; [exact E2|]. clear E2. split; [done|]. split; [done|]. split.
        { apply addrs_zero; [by rewrite length_insert|]. intros j Hj. destruct (decide (j = NDIRECT)) as [->|].
          - apply nth_insert_eq. rewrite Hl1. unfold NDIRECT. lia.
          - rewrite nth_insert_ne by (unfold NDIRECT in *; lia). rewrite Ha1 by lia. by rewrite decide_True by lia. }
        split; [|congruence]. by apply (freed_list_trans s _ (content B1)). }
  destruct Hrest as (B2 & a2 & G2 & E2 & Hok2 & HG2 & -> & Hf2 & Hp2). mstep E2. clear E2.
  rewrite (bind_set_ino B2 s _ ip _ _ _ (insert_at t ip i _ Hi)), list_insert_insert_eq. fold (emptied i).
  pose proof (subseteq_size _ _ HG2) as HG2s.
  destruct (iupdate_spec B2 s (<[ip := emptied i]> t) ip (emptied i) G2) as (B3 & E3 & Hok3 & Hc3 & Hp3); try done.
  { by apply (insert_at t ip i). }
  { lia. }
  exists B3, ({[IBLOCK (i_inum i) s]} ∪ G2), (content B2). split; [done|]. split; [done|]. split; [done|]. split; [done|].
  split; [|congruence]. by apply union_mono_l.
Qed.
End Trunc.
