(* ===== verification/FsProps.v ===== *)
(** * What the file system guarantees

    The theorems about blocks, files, directories and path names, and a small disk
    on which they are used. *)

From S2P Require Import Prelude Mem CString Block Sleeplock Bio BioList BioSpec Log LogSpec LogProps.
From S2P Require Import Fs FsBlocks FsAlloc FsInode FsRw FsDisk FsWrite FsDir FsTrunc.

(** ** A transaction on an idle log *)

Lemma begin_in_tx b l st :
  idle b l -> start l = st -> log_size l = LOGSIZE ->
  exists l', begin_op (LState b l) = Done tt (LState b l') /\ in_tx st (LState b l') [] ∅.
Proof.
  intros [Hw Hc Ho Hm Hb Hh] Hst Hsz. unfold begin_op. rewrite bind_gets. cbn [lg]. rewrite Hm.
  rewrite (lw_n l [] Hw), Ho. cbn [length]. eexists. split; [done|]. split; cbn [bs lg]; try done.
  - exists [], []. split; [|done]. by destruct Hw.
  - intros i b0 d Hin. by apply elem_of_nil in Hin.
  - intros i b0 Hin. by apply elem_of_nil in Hin.
Qed.

(** ** A small disk

    64 blocks: the boot block, the super block, 30 blocks of log, one of inodes,
    the free map, and data from block 34 on, of which the first is in use. *)

Definition demo_sb : superblock := Superblock FSMAGIC 64 30 16 30 2 32 33.
Definition demo_map : block := [255; 255; 255; 255; 7] ++ replicate 1019 0.
Definition demo_disk : gmap Z block := <[33 := demo_map]> (<[34 := replicate 1024 65]> ∅).

(** The content of the disk once the log has been initialised: block 2 is the header. *)
Definition demo_content (c : Z -> block) : Prop :=
  is_block (c 2) /\ forall x, x <> 2 -> c x = disk_block demo_disk x.

Lemma demo_disk_block x : is_block (disk_block demo_disk x).
Proof.
  unfold disk_block, demo_disk. destruct (decide (x = 33)) as [->|]; [vm_compute; reflexivity|].
  rewrite lookup_insert_ne by done. destruct (decide (x = 34)) as [->|]; [vm_compute; reflexivity|].
  rewrite lookup_insert_ne by done. rewrite lookup_empty. apply is_block_zero.
Qed.

Lemma demo_BBLOCK b : 0 <= b < 64 -> BBLOCK b demo_sb = 33.
Proof. intros Hb. unfold BBLOCK, demo_sb. cbn [sb_bmapstart]. rewrite Z.div_small by (unfold BPB, BSIZE; lia). reflexivity. Qed.

Lemma demo_in_use c b : demo_content c -> 0 <= b < 64 -> in_use c demo_sb b = (b <? 35).
Proof.
  intros [_ Hc] Hb. unfold in_use. rewrite demo_BBLOCK, Hc by (done || lia). rewrite Z.mod_small by (unfold BPB, BSIZE; lia).
  change (disk_block demo_disk 33) with demo_map.
  assert (H : forallb (fun b => Bool.eqb (bit_set demo_map b) (b <? 35)) (seqZ 0 64) = true) by (vm_compute; reflexivity).
  rewrite forallb_forall in H. apply Bool.eqb_prop, H, list_elem_of_In, elem_of_seqZ. lia.
Qed.

#[local] Existing Instance log_blocks.
#[local] Instance demo_spec : BlocksSpec lstate := log_blocks_spec 2.

Lemma demo_alloc c : demo_content c -> alloc_ok c demo_sb.
Proof.
  intros Hc. assert (Hds : data_start demo_sb = 34) by reflexivity. split.
  - cbn. lia.
  - rewrite Hds. cbn [sb_size demo_sb]. lia.
  - intros b. destruct (decide (b = 2)) as [->|]; [apply Hc|]. rewrite (proj2 Hc) by done. apply demo_disk_block.
  - intros b Hb. rewrite Hds in Hb. rewrite demo_in_use by (done || lia). apply Z.ltb_lt. lia.
  - intros b Hb. cbn [sb_size demo_sb] in Hb. rewrite demo_BBLOCK by done. cbn. unfold LOGSIZE, MAXOPBLOCKS. lia.
  - intros b Hb. rewrite Hds in Hb. cbn [sb_size demo_sb] in Hb. cbn. unfold LOGSIZE, MAXOPBLOCKS. lia.
Qed.

Lemma demo_header : header_ok (disk_block demo_disk) 2 [].
Proof.
  split.
  - vm_compute. reflexivity.
  - vm_compute. reflexivity.
  - vm_compute. reflexivity.
  - unfold NBUF. cbn. lia.
  - apply Forall_nil_2.
  - apply NoDup_nil_2.
Qed.

(** A transaction has begun. *)
Lemma demo_tx : exists B : lstate, data_ok B [] ∅ /\ demo_content (content B).
Proof.
  destruct (startup_spec demo_disk 2 30 1 [] ltac:(lia) ltac:(unfold LOGSIZE, MAXOPBLOCKS; lia) demo_header) as
    (b & l & h0 & E & Hc & Hw & Hst & Hsz & Ho & Hm & Hb & Hn & _ & Hd & Hbl). clear E.
  unfold recover_writes in Hd. cbn [home_writes app over] in Hd.
  assert (Hi : idle b l).
  { split; try done; rewrite Hst, Hd; unfold put; by rewrite decide_True. }
  destruct (begin_in_tx b l 2 Hi Hst ltac:(by rewrite Hsz)) as (l' & _ & Htx).
  exists (LState b l'). split; [exact Htx|]. split; cbn.
  - rewrite Hbl, Hd. unfold put. by rewrite decide_True.
  - intros x Hx. rewrite Hbl, Hd. unfold put. by rewrite decide_False.
Qed.

(** ** The block allocator *)

Section Props.
Context {S : Type} `{!Blocks S} `{!BlocksSpec S}.

(** What an allocation leaves, for the theorems. *)
Lemma balloc_result_facts (B : S) s t G :
  data_ok B [] G -> alloc_ok (content B) s -> (size G + 2 < cap)%nat ->
  exists r B' G', balloc ROOTDEV (FState B s t) = Done r (FState B' s t) /\ data_ok B' [] G' /\ (size G' <= size G + 2)%nat /\
    alloc_ok (content B') s /\
    ((r = 0 /\ disk_full (content B) s /\ forall x, content B' x = content B x) \/
     (lowest_free (content B) s r /\ content B' r = zero_block /\
      (forall b, 0 <= b < sb_size s -> in_use (content B') s b = in_use (content B) s b || (b =? r)) /\
      (forall x, data_start s <= x -> x <> r -> content B' x = content B x))).
Proof.
  intros Hok Ha Hroom. destruct (balloc_spec B s t [] G Hok Ha (opens_used_nil _ s) Hroom) as (r & B' & E & [_ Hc]).
  destruct Hc as [(-> & Hf & Hok' & Hc)|(Hr & Hok' & Hc)].
  - exists 0, B', G. split; [done|]. split; [done|]. split; [lia|]. split; [by apply (alloc_ok_ext (content B))|]. by left.
  - pose proof Hr as (Hd & _). exists r, B', ({[r]} ∪ ({[BBLOCK r s]} ∪ G)). split; [done|]. split; [done|].
    split; [apply size_add2|]. split.
    { apply (alloc_ok_ext (allocated (content B) s r)); [done|]. by apply allocated_ok. }
    right. split; [done|]. split; [rewrite Hc; unfold allocated, put; by rewrite decide_True|]. split.
    + intros b Hb. rewrite (in_use_ext (allocated (content B) s r)) by done. by apply allocated_in_use.
    + intros x Hx Hne. rewrite Hc. by apply allocated_other.
Qed.

(** [balloc] takes the lowest-numbered free block, marks it in use and zeroes it,
    and changes no other block in use nor any other mark; it returns 0 exactly when
    every block is in use. *)
Theorem balloc_lowest_free (B : S) s t G :
  data_ok B [] G -> alloc_ok (content B) s -> (size G + 2 < cap)%nat ->
  exists r B' G', balloc ROOTDEV (FState B s t) = Done r (FState B' s t) /\ data_ok B' [] G' /\ alloc_ok (content B') s /\
    (r = 0 <-> disk_full (content B) s) /\
    (r = 0 -> forall x, content B' x = content B x) /\
    (r <> 0 -> lowest_free (content B) s r /\ content B' r = zero_block /\
      (forall b, 0 <= b < sb_size s -> in_use (content B') s b = in_use (content B) s b || (b =? r)) /\
      (forall x, data_start s <= x -> x <> r -> content B' x = content B x)).
Proof.
  intros Hok Ha Hroom. destruct (balloc_result_facts B s t G Hok Ha Hroom) as (r & B' & G' & E & H1 & _ & H2 & H3).
  exists r, B', G'. split; [done|]. split; [done|]. split; [done|]. destruct H3 as [(-> & Hf & Hc)|(Hr & H4)].
  - split; [done|]. split; done.
  - pose proof (data_start_pos _ s Ha). pose proof Hr as (Hd & Hfree & _). split; [split; [lia|]|].
    + intros Hf. by rewrite Hf in Hfree by lia.
    + split; [lia|done].
Qed.

(** [bfree] of the block [balloc] returned restores the free map, and freeing it
    once more panics. *)
Theorem bfree_undoes_balloc (B : S) s t G r B1 :
  data_ok B [] G -> alloc_ok (content B) s -> (size G + 5 < cap)%nat ->
  balloc ROOTDEV (FState B s t) = Done r (FState B1 s t) -> r <> 0 ->
  exists B2, bfree ROOTDEV r (FState B1 s t) = Done tt (FState B2 s t) /\
    (forall b, 0 <= b < sb_size s -> in_use (content B2) s b = in_use (content B) s b) /\
    bfree ROOTDEV r (FState B2 s t) = Panic "freeing free block".
Proof.
  intros Hok Ha Hroom E Hr. destruct (balloc_result_facts B s t G Hok Ha ltac:(lia)) as (r' & B' & G' & E' & H1 & Hs & H2 & H3).
  rewrite E in E'. injection E' as <- <-. destruct H3 as [(? & _)|((Hd & Hfree & _) & _ & Hu & _)]; [done|].
  pose proof (data_start_pos _ s Ha). pose proof (bfree_spec B1 s t [] G' r H1 H2) as Hf.
  rewrite Hu, Z.eqb_refl, orb_true_r in Hf by lia. destruct Hf as (B2 & E2 & Hok2 & Hc2 & _);
    [intros o Ho; by apply elem_of_nil in Ho|cbn; lia|done|].
  assert (Hu2 : forall b, 0 <= b < sb_size s -> in_use (content B2) s b = in_use (content B1) s b && negb (b =? r)).
  { intros b Hb. rewrite (in_use_ext (freed (content B1) s r)) by done. by apply freed_in_use. }
  exists B2. split; [done|]. split.
  - intros b Hb. rewrite Hu2, Hu by done. destruct (Z.eqb_spec b r) as [->|]; [by rewrite Hfree|]. by rewrite orb_false_r, andb_true_r.
  - pose proof (bfree_spec B2 s t [] ({[BBLOCK r s]} ∪ G') r Hok2) as Hf2.
    rewrite Hu2, Z.eqb_refl, andb_false_r in Hf2 by lia. pose proof (size_add G' (BBLOCK r s)).
    apply Hf2; [apply (alloc_ok_ext (freed (content B1) s r)); [done|by apply freed_ok]|intros o Ho; by apply elem_of_nil in Ho|cbn; lia|done].
Qed.

(** ** Files *)

Lemma fbytes_written s c i data off tot c' i' :
  written s c i data off tot c' i' -> 0 <= off -> 0 <= tot <= Z.of_nat (length data) ->
  fbytes c' i' off tot = take (Z.to_nat tot) data.
Proof.
  intros Hw Ho Ht. apply list_nth_eq; [rewrite length_fbytes, length_take; lia|]. rewrite length_fbytes. intros j Hj.
  rewrite <-(Nat2Z.id j) at 1. rewrite nth_fbytes by lia. pose proof (wr_size _ _ _ _ _ _ _ _ Hw).
  rewrite (wr_bytes _ _ _ _ _ _ _ _ Hw) by lia. rewrite decide_True by lia.
  rewrite !nth_lookup, lookup_take_lt by lia. do 2 f_equal. lia.
Qed.

Lemma fbytes_untouched s c i data off tot c' i' o n :
  written s c i data off tot c' i' -> 0 <= o -> o + n <= i_size i -> o + n <= off \/ off + tot <= o ->
  fbytes c' i' o n = fbytes c i o n.
Proof.
  intros Hw Ho Hn Hd. apply fbytes_ext. intros p Hp. pose proof (wr_size _ _ _ _ _ _ _ _ Hw).
  rewrite (wr_bytes _ _ _ _ _ _ _ _ Hw) by lia. by rewrite decide_False by lia.
Qed.

(** C7: What [writei] writes, [readi] reads back: a write of [n] bytes at [off] stores
    the first [tot] of them, all of them unless the disk is full, extends the file when
    it goes past its end, and leaves every other byte of the file as it was. *)
Theorem write_then_read (B : S) s t ip i G src data off n :
  data_ok B [] G -> inode_ok (content B) s i -> t !! ip = Some i -> src_is src data n ->
  0 <= off < 2 ^ 32 -> 0 <= n < 2 ^ 32 -> write_refused i off n = false ->
  (size G + size (bitmap s) + Z.to_nat (span off (off + n)) + 8 < cap)%nat ->
  exists tot B' i', let s' := FState B' s (<[ip := i']> t) in
    writei ip src off n (FState B s t) = Done tot s' /\
    0 <= tot <= n /\ (tot < n -> disk_full (content B') s) /\
    i_size i' = Z.max (i_size i) (off + tot) /\
    (exists B'', readi ip kernel_dst off tot s' = Done (tot, take (Z.to_nat tot) data) (FState B'' s (<[ip := i']> t))) /\
    (forall o m, 0 <= o -> 0 <= m -> o + m <= i_size i -> o + m <= off \/ off + tot <= o ->
       exists B'', readi ip kernel_dst o m s' = Done (m, fbytes (content B) i o m) (FState B'' s (<[ip := i']> t))).
Proof.
  intros Hok Hi Ht Hs Ho Hn Hr Hroom.
  destruct (writei_spec B s t ip i G src data off n Hok Hi Ht Hs Ho Hn Hr Hroom) as
    (tot & B' & i' & G' & E & Hok' & Hw & Htot & Hfull & Hsz & _).
  exists tot, B', i'. cbn zeta. split; [exact E|]. clear E. split; [done|]. split; [done|].
  pose proof (wr_size _ _ _ _ _ _ _ _ Hw) as Hsize. split; [done|]. pose proof (wr_ok _ _ _ _ _ _ _ _ Hw) as [Ha' Hf' Hh' _].
  pose proof (fo_size _ _ _ Hf') as Hb. assert (Hmax : MAXFILE * BSIZE < 2 ^ 31) by done. pose proof (insert_at t ip i i' Ht) as Ht'.
  assert (Hlen : forall o m, 0 <= o -> 0 <= m -> o + m <= i_size i' -> read_len (i_size i') o m = m).
  { intros o m H1 H2 H3. unfold read_len. destruct (Z.ltb_spec (i_size i') o); [lia|].
    destruct (Z.leb_spec (2 ^ 32) (o + m)); [lia|]. cbn [orb]. lia. }
  split.
  - destruct (readi_ok B' s (<[ip := i']> t) ip i' G' off tot) as (B'' & E & _); try done; try lia.
    exists B''. rewrite Hlen in E by lia. rewrite (fbytes_written s (content B) i data off) in E; [exact E|done|lia|].
    destruct Hs as [Hs _]. lia.
  - intros o m H1 H2 H3 H4. destruct (readi_ok B' s (<[ip := i']> t) ip i' G' o m) as (B'' & E & _); try done; try lia.
    exists B''. rewrite Hlen in E by lia. by rewrite (fbytes_untouched s (content B) i data off tot) in E.
Qed.

(** A write of at most 3072 bytes, the most [filewrite] asks for at a time, fits the
    [MAXOPBLOCKS] blocks a transaction reserves when the free map is one block: it logs
    its data blocks, the indirect block, the free map and the inode. *)
Theorem write_fits_transaction (B : S) s t ip i src data off n :
  data_ok B [] ∅ -> inode_ok (content B) s i -> t !! ip = Some i -> src_is src data n ->
  0 <= off < 2 ^ 32 -> 0 <= n <= (MAXOPBLOCKS - 1 - 1 - 2) / 2 * BSIZE -> write_refused i off n = false -> sb_size s < BPB ->
  (13 < cap)%nat ->
  exists tot B' i' G', writei ip src off n (FState B s t) = Done tot (FState B' s (<[ip := i']> t)) /\
    data_ok B' [] G' /\ Z.of_nat (size G') <= MAXOPBLOCKS.
Proof.
  intros Hok Hi Ht Hs Ho Hn Hr Hsb Hcap. pose proof (io_alloc _ _ _ Hi) as Ha. pose proof (ao_size _ _ Ha). pose proof (data_start_pos _ s Ha).
  assert (Hbm : size (bitmap s) = 1%nat) by (rewrite size_bitmap, Z.div_small by lia; done).
  assert (Hsp : span off (off + n) <= 4) by (unfold span, MAXOPBLOCKS, BSIZE in *; destruct (_ <? _); lia).
  destruct (writei_spec B s t ip i ∅ src data off n Hok Hi Ht Hs Ho) as (tot & B' & i' & G' & E & Hok' & _ & _ & _ & Hsz & _);
    [unfold MAXOPBLOCKS, BSIZE in *; lia|done|rewrite size_empty; lia|].
  exists tot, B', i', G'. split; [exact E|]. split; [done|]. rewrite size_empty in Hsz. unfold MAXOPBLOCKS. lia.
Qed.

(** C19: [itrunc] frees every block of the file, the indirect block included, and no
    other: it never frees a block twice, the other blocks keep their marks and their
    content, and the inode is left empty. *)
Theorem itrunc_frees_exactly (B : S) s t ip i G :
  data_ok B [] G -> inode_ok (content B) s i -> t !! ip = Some i -> (size (G ∪ bitmap s) + 3 < cap)%nat ->
  exists B', itrunc ip (FState B s t) = Done tt (FState B' s (<[ip := emptied i]> t)) /\ alloc_ok (content B') s /\
    (forall b, 0 <= b < sb_size s ->
       in_use (content B') s b = in_use (content B) s b && bool_decide (b ∉ file_blocks (content B) i)) /\
    (forall b, data_start s <= b -> content B' b = content B b).
Proof.
  intros Hok [Ha Hf Hh Hn] Ht Hroom.
  destruct (itrunc_spec B s t ip i G Hok Ha Hf Hn Ht Hroom) as (B' & G' & c1 & E & Hok' & [F1 F2 F3] & Hc & _).
  exists B'. split; [exact E|]. clear E. pose proof Hn as (_ & Hn2 & _). pose proof (meta_below _ s Ha).
  destruct (put_meta c1 s (IBLOCK (i_inum i) s) (dinode_put (c1 (IBLOCK (i_inum i) s)) (dinode_off (i_inum i)) (emptied i)) F1)
    as [P1 P2]; [lia|apply is_block_dinode_put, (ao_blocks _ _ F1)|].
  split; [by apply (alloc_ok_ext (updated c1 s (emptied i)))|]. split.
  - intros b Hb. rewrite (in_use_ext (updated c1 s (emptied i)) (content B')) by done. unfold updated. cbn [i_inum emptied with_size with_addrs].
    rewrite P2 by done. by apply F2.
  - intros b Hb. rewrite Hc. unfold updated, put. cbn [i_inum emptied with_size with_addrs]. rewrite decide_False by lia.
    apply F3. by right.
Qed.

(** ** Directories *)

(** C18: [dirlink] adds one name: afterwards [dirlookup] finds the new name with the inode
    number it was given, and finds every other name exactly as before; it fails only on
    a full disk. *)
Theorem dirlink_adds_name (B : S) s t dp i G name inum :
  data_ok B [] G -> dir_ok (content B) s i -> t !! dp = Some i -> (size G + size (bitmap s) + 9 < cap)%nat ->
  dir_find (content B) i name = None -> i_size i + 16 <= MAXFILE * BSIZE -> 0 < inum < 2 ^ 16 ->
  exists r B' i', let s' := FState B' s (<[dp := i']> t) in
    dirlink dp name inum (FState B s t) = Done r s' /\
    (r = -1 /\ disk_full (content B') s \/
     r = 0 /\ dir_ok (content B') s i' /\
     (exists B'' k, dirlookup dp name s' = (ip ← iget ROOTDEV inum; mret (Some (ip, 16 * k))) (FState B'' s (<[dp := i']> t))) /\
     (forall nm, dname nm <> dname name -> dir_find (content B') i' nm = dir_find (content B) i nm /\
        forall k, dir_find (content B) i nm = Some k -> dirent (content B') i' k = dirent (content B) i k)).
Proof.
  intros Hok Hd Ht Hroom Hnone Hmax Hin.
  destruct (dirlink_spec B s t dp i G name inum Hok Hd Ht Hroom Hnone Hmax) as
    (tot & B' & i' & G' & E & Hok' & Hw & Htot & Hfull & Hsz).
  exists (if tot =? 16 then 0 else -1), B', i'. cbn zeta. split; [exact E|]. clear E.
  destruct (Z.eqb_spec tot 16) as [->|Hne]; [right|left; split; [done|apply Hfull; lia]]. split; [done|].
  pose proof (link_dir s (content B) (content B') i i' name inum Hd Hw) as Hd'. split; [done|]. split.
  - destruct (dirlookup_spec B' s (<[dp := i']> t) dp i' G' name Hok' Hd' (insert_at t dp i i' Ht) ltac:(lia)) as (B'' & _ & _ & _ & E).
    rewrite (link_found s (content B) (content B') i i' name inum Hd Hw Hin Hnone) in E.
    rewrite (link_entry s (content B) (content B') i i' name inum Hd Hw), dirent_bytes_inum in E by lia.
    rewrite (fo_dev _ _ _ (io_file _ _ _ (do_inode _ _ _ Hd'))) in E. eexists B'', _. exact E.
  - intros nm Hnm. split; [by apply (link_others s (content B) (content B') i i' name inum)|]. intros k Hk.
    pose proof (find_first_spec (fun k => has_name nm (dirent (content B) i k)) 0 (Z.to_nat (i_size i / 16))) as Hff.
    unfold dir_find in Hk. rewrite Hk in Hff. destruct Hff as (F1 & F2 & _).
    pose proof (fo_size _ _ _ (io_file _ _ _ (do_inode _ _ _ Hd))) as Hs.
    apply (dir_link_other s (content B) (content B') i i' name inum Hd Hw); [lia|]. intros ->.
    destruct (free_place_spec (content B) i ltac:(lia) (do_size _ _ _ Hd)) as [_ Hfr]. unfold is_free in Hfr.
    unfold has_name in F2. rewrite Hfr in F2 by lia. done.
Qed.

(** ** Inodes *)

(** An inode that [ilock] has locked and loaded. *)
Definition loaded (i j : inode) (l : sleeplock) : inode := with_ivalid true (with_dinode i (with_ilock l j)).

(** An inode written by [iupdate] is what [ilock] loads: another entry of the inode
    table for the same inode number, not yet valid, gets the type, the device numbers, the
    link count, the size and the addresses that were written. *)
Theorem iupdate_then_ilock (B : S) s t ip i G t' jp j l :
  data_ok B [] G -> (size G + 2 < cap)%nat -> t !! ip = Some i -> i_dev i = ROOTDEV -> inum_ok s (i_inum i) ->
  dinode_ok i -> i_type i <> 0 -> is_block (content B (IBLOCK (i_inum i) s)) ->
  t' !! jp = Some j -> i_dev j = ROOTDEV -> i_inum j = i_inum i -> i_valid j = false -> 1 <= i_ref j ->
  acquiresleep (b_pid B) (i_lock j) = Some l ->
  exists B', iupdate ip (FState B s t) = Done tt (FState B' s t) /\
    exists B'', ilock jp (FState B' s t') = Done tt (FState B'' s (<[jp := loaded i j l]> t')).
Proof.
  intros Hok Hroom Hi Hdev Hn Hdi Hty Hbl Hj Hjd Hjn Hjv Hjr Hl.
  destruct (iupdate_spec B s t ip i G Hok Hi Hdev Hn ltac:(lia)) as (B' & E & Hok' & Hc' & Hp'). exists B'. split; [exact E|]. clear E.
  unfold ilock. rewrite bind_gets, (ino_at B' s t' jp j Hj). destruct (Z.ltb_spec (i_ref j) 1); [lia|].
  assert (Ea : acquire_ino jp (FState B' s t') = Done tt (FState B' s (<[jp := with_ilock l j]> t'))).
  { unfold acquire_ino. cbn [blocks]. rewrite Hp', (ino_at B' s t' jp j Hj), Hl. by apply set_ino_done. }
  mstep Ea. clear Ea. pose proof (insert_at t' jp j (with_ilock l j) Hj) as Hj1.
  rewrite bind_gets, (ino_at B' s _ jp _ Hj1). cbn [i_valid with_ilock]. rewrite Hjv, bind_gets. cbn [sb i_dev i_inum with_ilock].
  rewrite Hjd, Hjn. pose proof (size_add G (IBLOCK (i_inum i) s)).
  destruct (open_block B' s (<[jp := with_ilock l j]> t') [] ({[IBLOCK (i_inum i) s]} ∪ G) (IBLOCK (i_inum i) s) Hok')
    as (bp & B1 & E1 & Ed & Hok1 & Hc1 & Hp1); [intros o Ho; by apply elem_of_nil in Ho|cbn; lia|]. mstep E1. mstep Ed. clear E1 Ed.
  rewrite (bind_set_ino B1 s _ jp _ _ _ Hj1), list_insert_insert_eq.
  assert (Eg : dinode_get (content B' (IBLOCK (i_inum i) s)) (dinode_off (i_inum i)) (with_ilock l j) = with_dinode i (with_ilock l j)).
  { rewrite Hc'. unfold updated, put. rewrite decide_True by done. by apply dinode_get_put. }
  rewrite Eg. destruct (close_block B1 s (<[jp := with_dinode i (with_ilock l j)]> t') [] _ bp _ Hok1) as (B2 & E2 & _). mstep E2. clear E2.
  pose proof (insert_at t' jp j (with_dinode i (with_ilock l j)) Hj) as Hj2.
  rewrite (bind_set_ino B2 s _ jp _ _ _ Hj2), list_insert_insert_eq. fold (loaded i j l).
  rewrite bind_gets, (ino_at B2 s _ jp _ (insert_at t' jp j _ Hj)). cbn [i_type loaded with_ivalid with_dinode].
  destruct (Z.eqb_spec (i_type i) 0); [done|]. by exists B2.
Qed.
End Props.

(** ** The theorems on the small disk *)

(** A file of 5 bytes in block 34, and an empty directory. *)
Definition demo_file : inode := Inode ROOTDEV 1 1 (initsleeplock "inode") true T_FILE 0 0 1 5 (34 :: replicate 12 0).
Definition demo_dir : inode := Inode ROOTDEV 2 1 (initsleeplock "inode") true T_DIR 0 0 1 0 (replicate 13 0).
Definition demo_table : list inode := [demo_file; demo_dir].

Lemma demo_file_slot c k : -1 <= k < MAXFILE -> slot c demo_file k = if decide (k = 0) then 34 else 0.
Proof.
  intros Hk. destruct (decide (k = 0)) as [->|]; [done|]. destruct (Z.lt_ge_cases k NDIRECT) as [Hd|Hd].
  - assert (H : forallb (fun k => (k =? 0) || (slot c demo_file k =? 0)) (seqZ (-1) 13) = true) by reflexivity.
    rewrite forallb_forall in H. specialize (H k). rewrite <-list_elem_of_In, elem_of_seqZ in H.
    specialize (H ltac:(unfold NDIRECT in *; lia)). apply orb_true_iff in H as [H|H]; [lia|]. by apply Z.eqb_eq.
  - by apply slot_none.
Qed.

Lemma demo_file_ok c : demo_content c -> inode_ok c demo_sb demo_file.
Proof.
  intros Hc. split; [by apply demo_alloc| | |].
  - split; [done|done|cbn; unfold MAXFILE, NDIRECT, NINDIRECT, BSIZE; lia| |].
    + intros k Hk. rewrite demo_file_slot by done. case_decide; [|done]. intros _.
      change (data_start demo_sb) with 34. cbn [sb_size demo_sb]. split; [lia|]. by rewrite demo_in_use by (done || lia).
    + intros j k Hj Hk. rewrite !demo_file_slot by done. repeat case_decide; (done || lia).
  - intros k Hk1 Hk2. cbn [i_size demo_file] in Hk2. assert (k = 0) as -> by (unfold BSIZE in *; lia). done.
  - split; [done|]. change (IBLOCK (i_inum demo_file) demo_sb) with 32. cbn. unfold LOGSIZE, MAXOPBLOCKS. lia.
Qed.

Lemma demo_dir_slot c k : -1 <= k < MAXFILE -> slot c demo_dir k = 0.
Proof.
  intros Hk. destruct (Z.lt_ge_cases k NDIRECT) as [Hd|Hd].
  - assert (H : forallb (fun k => slot c demo_dir k =? 0) (seqZ (-1) 13) = true) by reflexivity.
    rewrite forallb_forall in H. specialize (H k). rewrite <-list_elem_of_In, elem_of_seqZ in H.
    apply Z.eqb_eq, H. unfold NDIRECT in *; lia.
  - by apply slot_none.
Qed.

Lemma demo_dir_ok c : demo_content c -> dir_ok c demo_sb demo_dir.
Proof.
  intros Hc. split; [|done|done]. split; [by apply demo_alloc| | |].
  - split; [done|done|cbn; unfold MAXFILE, NDIRECT, NINDIRECT, BSIZE; lia| |]; intros k; [|intros k'];
      intros; by rewrite demo_dir_slot in * by done.
  - intros k Hk1 Hk2. cbn [i_size demo_dir] in Hk2. unfold BSIZE in *. lia.
  - split; [done|]. change (IBLOCK (i_inum demo_dir) demo_sb) with 32. cbn. unfold LOGSIZE, MAXOPBLOCKS. lia.
Qed.

Lemma demo_bitmap : size (bitmap demo_sb) = 1%nat.
Proof. reflexivity. Qed.

Lemma balloc_lowest_free_witness :
  exists (B : lstate) r B', balloc ROOTDEV (FState B demo_sb demo_table) = Done r (FState B' demo_sb demo_table) /\ r = 35.
Proof.
  destruct demo_tx as (B & Hok & Hc). pose proof (demo_alloc _ Hc) as Ha.
  destruct (balloc_lowest_free B demo_sb demo_table ∅ Hok Ha) as (r & B' & G' & E & _ & _ & H0 & _ & Hr).
  - rewrite size_empty. cbn. unfold NBUF. cbn. lia.
  - exists B, r, B'. split; [exact E|]. clear E.
    assert (Hf35 : in_use (content B) demo_sb 35 = false) by (by rewrite demo_in_use by (done || lia)).
    destruct (decide (r = 0)) as [E0|E0].
    + destruct H0 as [H0 _]. specialize (H0 E0 35). rewrite Hf35 in H0. cbn [sb_size demo_sb] in H0. discriminate H0. lia.
    + destruct (Hr E0) as ((R1 & R2 & R3) & _). cbn [sb_size demo_sb] in R1. change (data_start demo_sb) with 34 in R1.
      rewrite demo_in_use in R2 by (done || lia). apply Z.ltb_ge in R2.
      destruct (Z.lt_ge_cases 35 r); [|lia]. rewrite R3 in Hf35 by lia. discriminate Hf35.
Defined.

Lemma bfree_undoes_balloc_witness :
  exists (B : lstate) r B1 B2, balloc ROOTDEV (FState B demo_sb demo_table) = Done r (FState B1 demo_sb demo_table) /\
    bfree ROOTDEV r (FState B1 demo_sb demo_table) = Done tt (FState B2 demo_sb demo_table) /\
    bfree ROOTDEV r (FState B2 demo_sb demo_table) = Panic "freeing free block".
Proof.
  destruct demo_tx as (B & Hok & Hc). pose proof (demo_alloc _ Hc) as Ha.
  destruct (balloc_result_facts B demo_sb demo_table ∅ Hok Ha) as (r & B1 & G' & E & _ & _ & _ & H).
  - rewrite size_empty. cbn. unfold NBUF. cbn. lia.
  - assert (Hr : r <> 0).
    { intros ->. destruct H as [(_ & Hf & _)|((R1 & _) & _)]; [|change (data_start demo_sb) with 34 in R1; lia].
      specialize (Hf 35). rewrite demo_in_use in Hf by (done || lia). cbn [sb_size demo_sb] in Hf. discriminate Hf. lia. }
    destruct (bfree_undoes_balloc B demo_sb demo_table ∅ r B1 Hok Ha) as (B2 & E2 & _ & E3); [|exact E|exact Hr|].
    + rewrite size_empty. cbn. unfold NBUF. cbn. lia.
    + exists B, r, B1, B2. split; [exact E|]. split; [exact E2|exact E3].
Defined.

Definition demo_bytes : list Z := [1; 2; 3; 4].

Lemma demo_src : src_is (kernel_src demo_bytes) demo_bytes 4.
Proof. apply kernel_src_is. cbn. lia. Qed.

Lemma demo_span : span 3 (3 + 4) = 1.
Proof. reflexivity. Qed.

Lemma write_then_read_witness :
  exists (B : lstate) tot B' i', writei 0 (kernel_src demo_bytes) 3 4 (FState B demo_sb demo_table) =
      Done tot (FState B' demo_sb (<[0%nat := i']> demo_table)) /\ 0 <= tot <= 4 /\
    exists B'', readi 0 kernel_dst 3 tot (FState B' demo_sb (<[0%nat := i']> demo_table)) =
      Done (tot, take (Z.to_nat tot) demo_bytes) (FState B'' demo_sb (<[0%nat := i']> demo_table)).
Proof.
  destruct demo_tx as (B & Hok & Hc).
  destruct (write_then_read B demo_sb demo_table 0 demo_file ∅ (kernel_src demo_bytes) demo_bytes 3 4 Hok (demo_file_ok _ Hc) eq_refl demo_src)
    as (tot & B' & i' & E & Ht & _ & _ & Hr & _).
  - lia.
  - lia.
  - reflexivity.
  - rewrite size_empty, demo_bitmap, demo_span. cbn. unfold NBUF. cbn. lia.
  - exists B, tot, B', i'. split; [exact E|]. split; [exact Ht|exact Hr].
Defined.

Lemma write_fits_transaction_witness :
  exists (B : lstate) tot s' , writei 0 (kernel_src demo_bytes) 3 4 (FState B demo_sb demo_table) = Done tot s' /\
    exists G', data_ok (blocks s') [] G' /\ Z.of_nat (size G') <= MAXOPBLOCKS.
Proof.
  destruct demo_tx as (B & Hok & Hc).
  destruct (write_fits_transaction B demo_sb demo_table 0 demo_file (kernel_src demo_bytes) demo_bytes 3 4 Hok (demo_file_ok _ Hc) eq_refl demo_src)
    as (tot & B' & i' & G' & E & H1 & H2).
  - lia.
  - unfold MAXOPBLOCKS, BSIZE. lia.
  - reflexivity.
  - reflexivity.
  - cbn. unfold NBUF. cbn. lia.
  - exists B, tot, (FState B' demo_sb (<[0%nat := i']> demo_table)). split; [exact E|]. exists G'. split; [exact H1|exact H2].
Defined.

Lemma itrunc_frees_exactly_witness :
  exists (B : lstate) B', itrunc 0 (FState B demo_sb demo_table) = Done tt (FState B' demo_sb (<[0%nat := emptied demo_file]> demo_table)) /\
    in_use (content B) demo_sb 34 = true /\ in_use (content B') demo_sb 34 = false.
Proof.
  destruct demo_tx as (B & Hok & Hc).
  destruct (itrunc_frees_exactly B demo_sb demo_table 0 demo_file ∅ Hok (demo_file_ok _ Hc) eq_refl) as (B' & E & _ & Hu & _).
  - rewrite union_empty_l_L, demo_bitmap. cbn. unfold NBUF. cbn. lia.
  - exists B, B'. split; [exact E|]. clear E.
    assert (H34 : in_use (content B) demo_sb 34 = true) by (by rewrite demo_in_use by (done || lia)). split; [exact H34|].
    rewrite Hu by (cbn [sb_size demo_sb]; lia). rewrite H34, bool_decide_false; [reflexivity|]. intros Hn. apply Hn.
    apply list_elem_of_filter. split; [lia|]. apply list_elem_of_fmap. exists 0. split; [reflexivity|]. apply elem_of_slots.
    unfold MAXFILE, NDIRECT, NINDIRECT, BSIZE. lia.
Defined.

(** The name [a]. *)
Lemma dirlink_adds_name_witness :
  exists (B : lstate) r B' i', dirlink 1 [97] 5 (FState B demo_sb demo_table) = Done r (FState B' demo_sb (<[1%nat := i']> demo_table)) /\
    (r = -1 \/ exists B'' k, dirlookup 1 [97] (FState B' demo_sb (<[1%nat := i']> demo_table)) =
       (ip ← iget ROOTDEV 5; mret (Some (ip, 16 * k))) (FState B'' demo_sb (<[1%nat := i']> demo_table))).
Proof.
  destruct demo_tx as (B & Hok & Hc).
  destruct (dirlink_adds_name B demo_sb demo_table 1 demo_dir ∅ [97] 5 Hok (demo_dir_ok _ Hc) eq_refl) as (r & B' & i' & E & H).
  - rewrite size_empty, demo_bitmap. cbn. unfold NBUF. cbn. lia.
  - reflexivity.
  - cbn. unfold MAXFILE, NDIRECT, NINDIRECT, BSIZE. lia.
  - lia.
  - exists B, r, B', i'. split; [exact E|]. clear E. destruct H as [(H & _)|(_ & _ & H & _)]; [left; exact H|right; exact H].
Defined.

(** The same inode in two tables, in the second not yet loaded. *)
Lemma iupdate_then_ilock_witness :
  exists (B B' : lstate) B'' j, iupdate 0 (FState B demo_sb demo_table) = Done tt (FState B' demo_sb demo_table) /\
    ilock 0 (FState B' demo_sb [with_ivalid false (with_size 9 demo_file)]) = Done tt (FState B'' demo_sb [j]) /\ i_size j = 5.
Proof.
  destruct demo_tx as (B & Hok & Hc). set (j0 := with_ivalid false (with_size 9 demo_file)).
  destruct (acquiresleep (b_pid B) (i_lock j0)) as [l|] eqn:El; [|discriminate El].
  destruct (iupdate_then_ilock B demo_sb demo_table 0 demo_file ∅ [j0] 0 j0 l) as (B' & E & B'' & E').
  - exact Hok.
  - rewrite size_empty. cbn. unfold NBUF. cbn. lia.
  - reflexivity.
  - reflexivity.
  - apply (demo_file_ok _ Hc).
  - split; cbn [i_type i_major i_minor i_nlink i_size i_addrs demo_file]; unfold T_FILE; try lia; [reflexivity|].
    repeat (apply Forall_cons_2; [lia|]). apply Forall_nil_2.
  - discriminate.
  - apply (ao_blocks _ _ (demo_alloc _ Hc)).
  - reflexivity.
  - reflexivity.
  - reflexivity.
  - reflexivity.
  - cbn. lia.
  - exact El.
  - exists B, B', B'', (loaded demo_file j0 l). split; [exact E|]. split; [exact E'|reflexivity].
Defined.

(** ** A copy that fails half-way *)

(** The disk after boot, with a transaction begun. *)
Definition demo_boot : outcome lstate unit := (startup 2 30;; begin_op) (reboot demo_disk 1).

(** Three bytes arrive before [either_copyin] reaches an unmapped page. *)
Definition torn_src : Z -> Z -> list Z * bool := fun _ _ => ([1; 2; 3], false).

Definition torn_write : option (Z * fstate lstate) :=
  match demo_boot with
  | Done _ B => match writei 0 torn_src 0 5 (FState B demo_sb demo_table) with Done r s => Some (r, s) | _ => None end
  | _ => None
  end.

(** When [either_copyin] fails in [writei] after copying part of the data, the write
    returns 0 but the bytes that arrived stay in the cached block, which is neither logged
    nor restored: reads see them as long as the buffer is cached, and they are lost when it
    is recycled, since the disk still has the old bytes and the log does not list the block. *)
Theorem failed_copy_leaves_unlogged_bytes :
  match torn_write with
  | Some (r, s) =>
      r = 0 /\ take 5 (blk (bs (blocks s)) 34) = [1; 2; 3; 65; 65] /\
      take 5 (disk_block (disk (bs (blocks s))) 34) = [65; 65; 65; 65; 65] /\
      take (Z.to_nat (lh_n (lg (blocks s)))) (lh_block (lg (blocks s))) = [32]
  | None => False
  end.
Proof. vm_compute. repeat split. Qed.
