(* ===== verification/FsPath.v ===== *)
(** * Path names

    Stepping through a path with [skipelem], as [namex] does, visits the elements of
    the path between the slashes, each cut to [DIRSIZ] characters. *)

From S2P Require Import Prelude Mem CString Block Fs FsDir.

(** The reference: split at the slashes and drop the empty elements. *)
Fixpoint split_path (cur : list Z) (path : list Z) : list (list Z) :=
  match path with
  | [] => [cur]
  | c :: rest => if c =? 47 then cur :: split_path [] rest else split_path (cur ++ [c]) rest
  end.

Definition path_elems (path : list Z) : list (list Z) := filter (fun e => e <> []) (split_path [] path).

(** The names [namex] looks up, one after the other. *)
Fixpoint walk_names (fuel : nat) (path name : list Z) : list (list Z) :=
  match skipelem path name with
  | None => []
  | Some (path, name) =>
      match fuel with
      | O => []
      | S fuel => dname name :: walk_names fuel path name
      end
  end.

Lemma skip_slashes_elems path : path_elems (skip_slashes path) = path_elems path.
Proof.
  induction path as [|c path IH]; [done|]. cbn [skip_slashes]. destruct (Z.eqb_spec c 47) as [->|]; [|done].
  rewrite IH. unfold path_elems. cbn [split_path Z.eqb Pos.eqb]. rewrite filter_cons. by rewrite decide_False by (intros H; by apply H).
Qed.

Lemma skip_slashes_head path c rest : skip_slashes path = c :: rest -> c <> 47.
Proof.
  induction path as [|x path IH]; [done|]. cbn [skip_slashes]. destruct (Z.eqb_spec x 47); [done|]. by intros [= <- <-].
Qed.

Lemma skip_slashes_length path : (length (skip_slashes path) <= length path)%nat.
Proof. induction path as [|c path IH]; [done|]. cbn [skip_slashes]. destruct (c =? 47); cbn [length]; lia. Qed.

Lemma split_elem_app path e r : split_elem path = (e, r) -> path = e ++ r.
Proof.
  revert e r. induction path as [|c path IH]; intros e r; cbn [split_elem]; [by intros [= <- <-]|].
  destruct (c =? 47); [by intros [= <- <-]|]. destruct (split_elem path) as [e' r'] eqn:E. intros [= <- <-]. cbn. f_equal. by apply IH.
Qed.

Lemma split_elem_path path cur e r :
  split_elem path = (e, r) ->
  split_path cur path = match r with [] => [cur ++ e] | _ :: r => (cur ++ e) :: split_path [] r end.
Proof.
  revert cur e r. induction path as [|c path IH]; intros cur e r; cbn [split_elem split_path].
  - intros [= <- <-]. by rewrite app_nil_r.
  - destruct (Z.eqb_spec c 47) as [->|]; [intros [= <- <-]; by rewrite app_nil_r|].
    destruct (split_elem path) as [e' r'] eqn:E. intros [= <- <-]. rewrite (IH (cur ++ [c]) e' r' eq_refl).
    destruct r'; by rewrite <-app_assoc.
Qed.

Lemma split_elem_rest path e r : split_elem path = (e, r) -> r = [] \/ exists r', r = 47 :: r'.
Proof.
  revert e r. induction path as [|c path IH]; intros e r; cbn [split_elem]; [intros [= <- <-]; by left|].
  destruct (Z.eqb_spec c 47) as [->|]; [intros [= <- <-]; right; by eexists|].
  destruct (split_elem path) as [e' r'] eqn:E. intros [= <- <-]. by apply (IH e' r').
Qed.

(** The first element of a path. *)
Lemma elems_cons path c rest e r :
  skip_slashes path = c :: rest -> split_elem (c :: rest) = (e, r) ->
  path_elems path = e :: path_elems (skip_slashes r) /\ e <> [] /\ (length (skip_slashes r) < length path)%nat /\
  (forall x, x ∈ e -> x ∈ path) /\ (forall x, x ∈ skip_slashes r -> x ∈ path).
Proof.
  intros Es Ee. pose proof (skip_slashes_head _ _ _ Es) as Hc. pose proof (split_elem_app _ _ _ Ee) as Ea.
  assert (He : e <> []) by (intros ->; cbn [split_elem] in Ee; destruct (Z.eqb_spec c 47); [done|]; by destruct (split_elem rest)).
  assert (Hsub : forall l x, x ∈ skip_slashes l -> x ∈ l).
  { induction l as [|y l IH]; [done|]. intros x. cbn [skip_slashes]. destruct (y =? 47); [right; auto|done]. }
  assert (Hin : forall x, x ∈ e ++ r -> x ∈ path) by (intros x Hx; apply Hsub; by rewrite Es, Ea).
  split_and!; try done.
  - rewrite <-skip_slashes_elems, Es. unfold path_elems at 1. rewrite (split_elem_path _ [] _ _ Ee). cbn [app].
    destruct (split_elem_rest _ _ _ Ee) as [->|[r' ->]].
    + by rewrite filter_cons, decide_True by done.
    + rewrite filter_cons, decide_True by done. f_equal. fold (path_elems r').
      cbn [skip_slashes Z.eqb Pos.eqb]. symmetry. apply skip_slashes_elems.
  - pose proof (skip_slashes_length path) as H1. rewrite Es in H1. rewrite Ea, length_app in H1.
    pose proof (skip_slashes_length r). destruct e; [done|]. cbn [length] in H1. lia.
  - intros x Hx. apply Hin, elem_of_app. by left.
  - intros x Hx. apply Hin, elem_of_app. right. by apply Hsub.
Qed.

(** The name left in the buffer. *)
Lemma cstr_take_arr l n : (forall x, x ∈ l -> x <> 0) -> (n <= length l)%nat -> cstr_take (arr l) n = take n l.
Proof.
  revert n. induction l as [|x l IH]; intros n Hnz Hn; [by destruct n; [|cbn in Hn; lia]|].
  destruct n as [|n]; [done|]. cbn [cstr_take take length] in *. change (arr (x :: l) 0) with x.
  destruct (Z.eqb_spec x 0) as [->|]; [by destruct (Hnz 0 (list_elem_of_here _ _))|]. f_equal.
  rewrite <-IH; [|intros y Hy; apply Hnz; by right|lia]. apply cstr_take_ext. intros i Hi. apply advance_arr. lia.
Qed.

Lemma cstr_take_stop l m n : (forall x, x ∈ l -> x <> 0) -> (length l < n)%nat -> cstr_take (arr (l ++ 0 :: m)) n = l.
Proof.
  revert n. induction l as [|x l IH]; intros n Hnz Hn; destruct n as [|n]; cbn in Hn; try lia; [done|].
  cbn [cstr_take app]. change (arr (x :: l ++ 0 :: m) 0) with x.
  destruct (Z.eqb_spec x 0) as [->|]; [by destruct (Hnz 0 (list_elem_of_here _ _))|]. f_equal.
  rewrite <-(IH n) at 2; [|intros y Hy; apply Hnz; by right|lia]. apply cstr_take_ext. intros i Hi. apply advance_arr. lia.
Qed.

(** One step. *)
Lemma skipelem_step path name :
  length name = Z.to_nat DIRSIZ -> (forall x, x ∈ path -> x <> 0) ->
  match skipelem path name with
  | None => path_elems path = []
  | Some (rest, name') => exists e, path_elems path = e :: path_elems rest /\ dname name' = take (Z.to_nat DIRSIZ) e /\
      length name' = Z.to_nat DIRSIZ /\ (length rest < length path)%nat /\ (forall x, x ∈ rest -> x <> 0)
  end.
Proof.
  intros Hl Hnz. unfold skipelem. destruct (skip_slashes path) as [|c p] eqn:Es.
  { rewrite <-skip_slashes_elems, Es. reflexivity. }
  destruct (split_elem (c :: p)) as [e r] eqn:Ee. destruct (elems_cons path c p e r Es Ee) as (H1 & H2 & H3 & H4 & H5).
  assert (Hez : forall x, x ∈ e -> x <> 0) by auto. exists e. split; [done|].
  destruct (Z.leb_spec DIRSIZ (Z.of_nat (length e))) as [Hge|Hlt].
  - assert (Hlen : length (take (Z.to_nat DIRSIZ) e) = Z.to_nat DIRSIZ) by (rewrite length_take; lia).
    assert (En : splice name 0 (take (Z.to_nat DIRSIZ) e) = take (Z.to_nat DIRSIZ) e).
    { unfold splice. cbn [take app]. rewrite Hlen, drop_ge, app_nil_r; [done|]. rewrite Hl. cbn. lia. }
    rewrite En. split; [|split; [done|split; [done|auto]]]. unfold dname. rewrite cstr_take_arr; [by rewrite take_take, Nat.min_id| |lia].
    intros x Hx. apply Hez. by apply (elem_of_take_in x (Z.to_nat DIRSIZ)).
  - assert (En : splice name 0 (e ++ [0]) = e ++ 0 :: drop (length (e ++ [0])) name).
    { unfold splice. cbn [take app]. by rewrite <-app_assoc. }
    rewrite En. split; [|split; [|split; [done|auto]]].
    + unfold dname. rewrite cstr_take_stop by (done || lia). symmetry. apply take_ge. lia.
    + rewrite length_app. cbn [length]. rewrite length_drop, length_app. cbn [length]. lia.
Qed.

(** Walking a path with [skipelem], as [namex] does, visits the elements of the path in
    order, each cut to [DIRSIZ] characters: repeated, leading and trailing slashes do not
    matter, and the walk ends. *)
Theorem skipelem_splits_path path name :
  length name = Z.to_nat DIRSIZ -> (forall x, x ∈ path -> x <> 0) ->
  walk_names (length path) path name = take (Z.to_nat DIRSIZ) <$> path_elems path.
Proof.
  remember (length path) as n eqn:En. assert (Hn : (length path <= n)%nat) by lia. clear En. revert path name Hn.
  induction n as [|n IH]; intros path name Hn Hl Hnz; pose proof (skipelem_step path name Hl Hnz) as H; cbn [walk_names];
    destruct (skipelem path name) as [[rest name']|].
  - destruct H as (e & _ & _ & _ & H & _). lia.
  - by rewrite H.
  - destruct H as (e & -> & -> & H3 & H4 & H5). rewrite fmap_cons. f_equal. apply IH; [lia|done|done].
  - by rewrite H.
Qed.

(** The path [//a/bb/]. *)
Lemma skipelem_splits_path_witness :
  walk_names (length [47; 47; 97; 47; 98; 98; 47]) [47; 47; 97; 47; 98; 98; 47] (replicate 14 1) = [[97]; [98; 98]].
Proof.
  rewrite (skipelem_splits_path [47; 47; 97; 47; 98; 98; 47] (replicate 14 1)).
  - reflexivity.
  - reflexivity.
  - intros x Hx E. subst x. rewrite !elem_of_cons, elem_of_nil in Hx. lia.
Defined.
