(* ===== verification/File.v ===== *)
(** * Open files, [kernel/file.c], and [pipealloc]

    The kernel state of the file system calls: the file system, the table of open
    files, the pipes by the address of their page, physical memory, and the
    descriptors and the current directory of the running process.  Waiting is
    [Hang], as in [Fs], and so is following a pointer to a pipe that does not exist.
    What the user's memory answers to [copyin] and [copyout],
    and the flag [killed], are the parameter [user]. *)

From S2P Require Import Prelude Mem CString Riscv Kalloc Pipe Block Sleeplock Bio Log Fs FsBlocks.

Definition NDEV : Z := 10.
Definition NFILE : nat := 100.
Definition NOFILE : Z := 16.

Inductive file_type := FD_NONE | FD_PIPE | FD_INODE | FD_DEVICE.

#[export] Instance file_type_eq_dec : EqDecision file_type.
Proof. solve_decision. Defined.

(** [struct file]; pointers to inodes are indices into the inode table. *)
Record file := File {
  f_type : file_type;
  f_ref : Z;
  f_readable : bool;
  f_writable : bool;
  f_pipe : Z;
  f_ip : nat;
  f_off : Z;
  f_major : Z;
}.

#[export] Instance file_inhabited : Inhabited file := populate (File FD_NONE 0 false false 0 0 0 0).

Definition with_fref (r : Z) (f : file) : file :=
  File (f_type f) r (f_readable f) (f_writable f) (f_pipe f) (f_ip f) (f_off f) (f_major f).
Definition with_foff (o : Z) (f : file) : file :=
  File (f_type f) (f_ref f) (f_readable f) (f_writable f) (f_pipe f) (f_ip f) o (f_major f).

Record kernel := Kernel {
  k_fs : fstate lstate;
  k_files : list file;
  k_pipes : gmap Z Pipe.pipe;
  k_mem : kstate;
  k_ofile : list (option nat);
  k_cwd : nat;
}.

Definition set_fs (x : fstate lstate) (k : kernel) : kernel := Kernel x (k_files k) (k_pipes k) (k_mem k) (k_ofile k) (k_cwd k).
Definition set_files (x : list file) (k : kernel) : kernel := Kernel (k_fs k) x (k_pipes k) (k_mem k) (k_ofile k) (k_cwd k).
Definition set_pipes (x : gmap Z Pipe.pipe) (k : kernel) : kernel := Kernel (k_fs k) (k_files k) x (k_mem k) (k_ofile k) (k_cwd k).
Definition set_kmem (x : kstate) (k : kernel) : kernel := Kernel (k_fs k) (k_files k) (k_pipes k) x (k_ofile k) (k_cwd k).
Definition set_ofile (x : list (option nat)) (k : kernel) : kernel := Kernel (k_fs k) (k_files k) (k_pipes k) (k_mem k) x (k_cwd k).
Definition set_cwd (x : nat) (k : kernel) : kernel := Kernel (k_fs k) (k_files k) (k_pipes k) (k_mem k) (k_ofile k) x.

(** What a system call gets from its caller: whether [copyout] of [m] bytes at offset
    [o] works, what [copyin] of them gives, the same for the single bytes of a pipe,
    and [killed()]. *)
Record user := User {
  u_out : Z -> Z -> bool;
  u_src : Z -> Z -> list Z * bool;
  u_put : Z -> bool;
  u_get : Z -> option Z;
  u_killed : Z -> bool;
}.

Abbreviation Kn := (M kernel).

Definition fs_op {A} (m : M (fstate lstate) A) : Kn A := lift k_fs set_fs m.
Definition log_op {A} (m : M lstate A) : Kn A := fs_op (blk_op m).
Definition mem_op {A} (m : M kstate A) : Kn A := lift k_mem set_kmem m.

Definition file_at (f : nat) (k : kernel) : file := k_files k !!! f.
Definition set_file (f : nat) (g : file -> file) : Kn unit := modify (fun k => set_files (alter g f (k_files k)) k).

(** The drivers registered in [devsw]: for a major number, its [read] and [write], if any. *)
Class Devices := {
  dev_read : Z -> option (Z -> Kn (Z * list Z));
  dev_write : Z -> option (Z -> Kn Z);
}.

Section File.
Context `{KernelImage} `{Devices}.

(** The first free entry, from index [k] on. *)
Fixpoint filealloc_scan (fs : list file) (k : nat) : option nat :=
  match fs with
  | [] => None
  | f :: fs => if f_ref f =? 0 then Some k else filealloc_scan fs (S k)
  end.

Definition filealloc : Kn (option nat) :=
  fs ← gets k_files;
  match filealloc_scan fs 0 with
  | Some f => set_file f (with_fref 1);; mret (Some f)
  | None => mret None
  end.

Definition filedup (f : nat) : Kn nat :=
  x ← gets (file_at f);
  if f_ref x <? 1 then panic "filedup"
  else set_file f (fun x => with_fref (s32 (f_ref x + 1)) x);; mret f.

(** [pipeclose(pi, writable)], with the page freed when both ends are closed. *)
Definition pipe_close (pi : Z) (writable : bool) : Kn unit :=
  ps ← gets k_pipes;
  match ps !! pi with
  | None => hang
  | Some p =>
      let '(p, _, free) := pipeclose p writable in
      if free then modify (set_pipes (delete pi ps));; mem_op (kfree pi)
      else modify (set_pipes (<[pi := p]> ps))
  end.

Definition fileclose (f : nat) : Kn unit :=
  x ← gets (file_at f);
  if f_ref x <? 1 then panic "fileclose"
  else
    set_file f (with_fref (f_ref x - 1));;
    if 0 <? f_ref x - 1 then mret tt
    else
      set_file f (fun x => File FD_NONE 0 (f_readable x) (f_writable x) (f_pipe x) (f_ip x) (f_off x) (f_major x));;
      match f_type x with
      | FD_PIPE => pipe_close (f_pipe x) (f_writable x)
      | FD_INODE | FD_DEVICE =>
          log_op begin_op;;
          fs_op (iput (f_ip x));;
          log_op end_op
      | FD_NONE => mret tt
      end.

(** [ok] says whether [copyout] of the structure works. *)
Definition filestat (f : nat) (ok : bool) : Kn (Z * option stat) :=
  x ← gets (file_at f);
  match f_type x with
  | FD_INODE | FD_DEVICE =>
      fs_op (ilock (f_ip x));;
      st ← fs_op (stati (f_ip x));
      fs_op (iunlock (f_ip x));;
      mret (if ok then (0, Some st) else (-1, None))
  | _ => mret (-1, None)
  end.

(** [piperead] and [pipewrite] until the process would sleep. *)
Definition pipe_read (pi : Z) (u : user) (n : Z) : Kn (Z * list Z) :=
  ps ← gets k_pipes;
  match ps !! pi with
  | None => hang
  | Some p =>
      match piperead p (u_put u) (u_killed u 0) n with
      | (p, _, chs, Return r) => modify (set_pipes (<[pi := p]> ps));; mret (r, take (Z.to_nat r) chs)
      | (_, _, _, Sleep _ _) => hang
      end
  end.

Definition pipe_write (pi : Z) (u : user) (n : Z) : Kn Z :=
  ps ← gets k_pipes;
  match ps !! pi with
  | None => hang
  | Some p =>
      match pipewrite p (u_get u) (u_killed u) n with
      | (p, _, Return r) => modify (set_pipes (<[pi := p]> ps));; mret r
      | (_, _, Sleep _ _) => hang
      end
  end.

(** The return value and the bytes that were copied out. *)
Definition fileread (f : nat) (u : user) (n : Z) : Kn (Z * list Z) :=
  x ← gets (file_at f);
  if negb (f_readable x) then mret (-1, [])
  else
    match f_type x with
    | FD_PIPE => pipe_read (f_pipe x) u n
    | FD_DEVICE =>
        if (f_major x <? 0) || (NDEV <=? f_major x) then mret (-1, [])
        else match dev_read (f_major x) with
             | None => mret (-1, [])
             | Some rd => rd n
             end
    | FD_INODE =>
        fs_op (ilock (f_ip x));;
        r ← fs_op (readi (f_ip x) (u_out u) (f_off x) (u32 n));
        (if 0 <? fst r then set_file f (fun x => with_foff (u32 (f_off x + fst r)) x) else mret tt);;
        fs_op (iunlock (f_ip x));;
        mret r
    | FD_NONE => panic "fileread"
    end.

(** The most [filewrite] writes in one transaction. *)
Definition max_write : Z := (MAXOPBLOCKS - 1 - 1 - 2) / 2 * BSIZE.

(** The loop of [filewrite]: the bytes written. *)
Fixpoint filewrite_loop (fuel : nat) (f : nat) (u : user) (n i : Z) : Kn Z :=
  if i <? n then
    match fuel with
    | O => hang
    | S fuel =>
        let n1 := if max_write <? n - i then max_write else n - i in
        log_op begin_op;;
        x ← gets (file_at f);
        fs_op (ilock (f_ip x));;
        r ← fs_op (writei (f_ip x) (fun o m => u_src u (i + o) m) (f_off x) (u32 n1));
        (if 0 <? r then set_file f (fun x => with_foff (u32 (f_off x + r)) x) else mret tt);;
        fs_op (iunlock (f_ip x));;
        log_op end_op;;
        if negb (r =? n1) then mret i
        else filewrite_loop fuel f u n (i + r)
    end
  else mret i.

Definition filewrite (f : nat) (u : user) (n : Z) : Kn Z :=
  x ← gets (file_at f);
  if negb (f_writable x) then mret (-1)
  else
    match f_type x with
    | FD_PIPE => pipe_write (f_pipe x) u n
    | FD_DEVICE =>
        if (f_major x <? 0) || (NDEV <=? f_major x) then mret (-1)
        else match dev_write (f_major x) with
             | None => mret (-1)
             | Some wr => wr n
             end
    | FD_INODE =>
        i ← filewrite_loop (Z.to_nat (n / max_write + 1)) f u n 0;
        mret (if i =? n then n else -1)
    | FD_NONE => panic "filewrite"
    end.

(** [bad:] of [pipealloc]. *)
Definition pipealloc_bad (f0 f1 : option nat) : Kn (option (nat * nat)) :=
  (match f0 with Some f => fileclose f | None => mret tt end);;
  (match f1 with Some f => fileclose f | None => mret tt end);;
  mret None.

Definition pipealloc : Kn (option (nat * nat)) :=
  f0 ← filealloc;
  match f0 with
  | None => pipealloc_bad None None
  | Some a =>
      f1 ← filealloc;
      match f1 with
      | None => pipealloc_bad f0 None
      | Some b =>
          pi ← mem_op kalloc;
          if pi =? 0 then pipealloc_bad f0 f1
          else
            modify (fun k => set_pipes (<[pi := pipe_init (replicate (Z.to_nat PIPESIZE) 5)]> (k_pipes k)) k);;
            set_file a (fun x => File FD_PIPE (f_ref x) true false pi (f_ip x) (f_off x) (f_major x));;
            set_file b (fun x => File FD_PIPE (f_ref x) false true pi (f_ip x) (f_off x) (f_major x));;
            mret (Some (a, b))
      end
  end.
End File.
