(* ===== verification/Sysfile.v ===== *)
(** * The file system calls, [kernel/sysfile.c]

    Each call takes its arguments as [argint] and [argstr] deliver them: a path is
    the list of its characters, or [None] when [argstr] fails.  [junk] is what the
    name buffer on the stack holds before a call fills it. *)

From S2P Require Import Prelude Mem CString Riscv Kalloc Pipe Block Sleeplock Bio Log Fs FsBlocks File.

Definition O_RDONLY : Z := 0x000.
Definition O_WRONLY : Z := 0x001.
Definition O_RDWR : Z := 0x002.
Definition O_CREATE : Z := 0x200.
Definition O_TRUNC : Z := 0x400.

Definition omode_has (omode flag : Z) : bool := negb (Z.land omode flag =? 0).

Section Sysfile.
Context `{KernelImage} `{Devices}.

(** ** Descriptors *)

Definition argfd (fd : Z) : Kn (option nat) :=
  os ← gets k_ofile;
  mret (if (fd <? 0) || (NOFILE <=? fd) then None else nth (Z.to_nat fd) os None).

Fixpoint fdalloc_scan (os : list (option nat)) (fd : nat) : option nat :=
  match os with
  | [] => None
  | None :: _ => Some fd
  | Some _ :: os => fdalloc_scan os (S fd)
  end.

Definition set_fd (fd : Z) (f : option nat) : Kn unit :=
  modify (fun k => set_ofile (<[Z.to_nat fd := f]> (k_ofile k)) k).

Definition fdalloc (f : nat) : Kn Z :=
  os ← gets k_ofile;
  match fdalloc_scan os 0 with
  | Some fd => set_fd (Z.of_nat fd) (Some f);; mret (Z.of_nat fd)
  | None => mret (-1)
  end.

Definition sys_dup (fd : Z) : Kn Z :=
  r ← argfd fd;
  match r with
  | None => mret (-1)
  | Some f =>
      fd ← fdalloc f;
      if fd <? 0 then mret (-1) else filedup f;; mret fd
  end.

Definition sys_read (fd : Z) (u : user) (n : Z) : Kn (Z * list Z) :=
  r ← argfd fd;
  match r with
  | None => mret (-1, [])
  | Some f => fileread f u n
  end.

Definition sys_write (fd : Z) (u : user) (n : Z) : Kn Z :=
  r ← argfd fd;
  match r with
  | None => mret (-1)
  | Some f => filewrite f u n
  end.

Definition sys_close (fd : Z) : Kn Z :=
  r ← argfd fd;
  match r with
  | None => mret (-1)
  | Some f => set_fd fd None;; fileclose f;; mret 0
  end.

Definition sys_fstat (fd : Z) (ok : bool) : Kn (Z * option stat) :=
  r ← argfd fd;
  match r with
  | None => mret (-1, None)
  | Some f => filestat f ok
  end.

(** [ok0] and [ok1] say whether the two [copyout]s of the descriptors work. *)
Definition sys_pipe (ok0 ok1 : bool) : Kn (Z * option (Z * Z)) :=
  r ← pipealloc;
  match r with
  | None => mret (-1, None)
  | Some (rf, wf) =>
      fd0 ← fdalloc rf;
      if fd0 <? 0 then fileclose rf;; fileclose wf;; mret (-1, None)
      else
        fd1 ← fdalloc wf;
        if fd1 <? 0 then set_fd fd0 None;; fileclose rf;; fileclose wf;; mret (-1, None)
        else if negb (ok0 && ok1) then
          set_fd fd0 None;; set_fd fd1 None;; fileclose rf;; fileclose wf;; mret (-1, None)
        else mret (0, Some (fd0, fd1))
  end.

(** ** Links *)

Definition add_nlink (d : Z) (i : inode) : inode := with_nlink (s16 (i_nlink i + d)) i.

(** [bad:] of [sys_link]. *)
Definition sys_link_bad (ip : nat) : Kn Z :=
  fs_op (ilock ip);;
  fs_op (set_ino ip (add_nlink (-1)));;
  fs_op (iupdate ip);;
  fs_op (iunlockput ip);;
  log_op end_op;;
  mret (-1).

Definition sys_link (old new : option (list Z)) (junk : list Z) : Kn Z :=
  match old, new with
  | Some old, Some new =>
      cwd ← gets k_cwd;
      log_op begin_op;;
      r ← fs_op (namei cwd old junk);
      match r with
      | None => log_op end_op;; mret (-1)
      | Some ip =>
          fs_op (ilock ip);;
          i ← fs_op (gets (ino ip));
          if i_type i =? T_DIR then fs_op (iunlockput ip);; log_op end_op;; mret (-1)
          else
            fs_op (set_ino ip (add_nlink 1));;
            fs_op (iupdate ip);;
            fs_op (iunlock ip);;
            r ← fs_op (nameiparent cwd new junk);
            match r with
            | (None, _) => sys_link_bad ip
            | (Some dp, name) =>
                fs_op (ilock dp);;
                d ← fs_op (gets (ino dp));
                i ← fs_op (gets (ino ip));
                if negb (i_dev d =? i_dev i) then fs_op (iunlockput dp);; sys_link_bad ip
                else
                  r ← fs_op (dirlink dp name (i_inum i));
                  if r <? 0 then fs_op (iunlockput dp);; sys_link_bad ip
                  else
                    fs_op (iunlockput dp);;
                    fs_op (iput ip);;
                    log_op end_op;;
                    mret 0
            end
      end
  | _, _ => mret (-1)
  end.

(** The loop of [isdirempty] from [off] on. *)
Fixpoint isdirempty_loop (fuel : nat) (dp : nat) (off : Z) : M (fstate lstate) bool :=
  i ← gets (ino dp);
  if off <? i_size i then
    match fuel with
    | O => hang
    | S fuel =>
        r ← readi dp kernel_dst off 16;
        let '(k, de) := r in
        if negb (k =? 16) then panic "isdirempty: readi"
        else if negb (de_inum de =? 0) then mret false
        else isdirempty_loop fuel dp (off + 16)
    end
  else mret true.

Definition isdirempty (dp : nat) : M (fstate lstate) bool :=
  i ← gets (ino dp); isdirempty_loop (Z.to_nat (i_size i / 16 + 1)) dp 32.

(** [bad:] of [sys_unlink]. *)
Definition sys_unlink_bad (dp : nat) : Kn Z := fs_op (iunlockput dp);; log_op end_op;; mret (-1).

Definition sys_unlink (path : option (list Z)) (junk : list Z) : Kn Z :=
  match path with
  | None => mret (-1)
  | Some path =>
      cwd ← gets k_cwd;
      log_op begin_op;;
      r ← fs_op (nameiparent cwd path junk);
      match r with
      | (None, _) => log_op end_op;; mret (-1)
      | (Some dp, name) =>
          fs_op (ilock dp);;
          if (namecmp name [46; 0] =? 0) || (namecmp name [46; 46; 0] =? 0) then sys_unlink_bad dp
          else
            r ← fs_op (dirlookup dp name);
            match r with
            | None => sys_unlink_bad dp
            | Some (ip, off) =>
                fs_op (ilock ip);;
                i ← fs_op (gets (ino ip));
                if i_nlink i <? 1 then panic "unlink: nlink < 1"
                else
                  e ← (if i_type i =? T_DIR then fs_op (isdirempty ip) else mret true);
                  if negb e then fs_op (iunlockput ip);; sys_unlink_bad dp
                  else
                    k ← fs_op (writei dp (kernel_src (replicate 16 0)) off 16);
                    if negb (k =? 16) then panic "unlink: writei"
                    else
                      (if i_type i =? T_DIR then fs_op (set_ino dp (add_nlink (-1)));; fs_op (iupdate dp) else mret tt);;
                      fs_op (iunlockput dp);;
                      fs_op (set_ino ip (add_nlink (-1)));;
                      fs_op (iupdate ip);;
                      fs_op (iunlockput ip);;
                      log_op end_op;;
                      mret 0
            end
      end
  end.

(** ** Creating and opening *)

(** [fail:] of [create]. *)
Definition create_fail (ip dp : nat) : M (fstate lstate) (option nat) :=
  set_ino ip (with_nlink 0);;
  iupdate ip;;
  iunlockput ip;;
  iunlockput dp;;
  mret None.

(** [ip->major = major], [ip->minor = minor] and [ip->nlink = 1] *)
Definition init_inode (major minor : Z) (i : inode) : inode :=
  Inode (i_dev i) (i_inum i) (i_ref i) (i_lock i) (i_valid i) (i_type i) (s16 major) (s16 minor) 1 (i_size i) (i_addrs i).

(** The entries "." and ".." of a new directory: whether both were made. *)
Definition create_dots (ip dp : nat) : M (fstate lstate) bool :=
  i ← gets (ino ip);
  r ← dirlink ip [46; 0] (i_inum i);
  if r <? 0 then mret false
  else
    d ← gets (ino dp);
    r ← dirlink ip [46; 46; 0] (i_inum d);
    mret (negb (r <? 0)).

Definition create (cwd : nat) (path : list Z) (type major minor : Z) (junk : list Z) : M (fstate lstate) (option nat) :=
  r ← nameiparent cwd path junk;
  match r with
  | (None, _) => mret None
  | (Some dp, name) =>
      ilock dp;;
      r ← dirlookup dp name;
      match r with
      | Some (ip, _) =>
          iunlockput dp;;
          ilock ip;;
          i ← gets (ino ip);
          if (type =? T_FILE) && ((i_type i =? T_FILE) || (i_type i =? T_DEVICE)) then mret (Some ip)
          else iunlockput ip;; mret None
      | None =>
          d ← gets (ino dp);
          r ← ialloc (i_dev d) type;
          match r with
          | None => iunlockput dp;; mret None
          | Some ip =>
              ilock ip;;
              set_ino ip (init_inode major minor);;
              iupdate ip;;
              ok ← (if type =? T_DIR then create_dots ip dp else mret true);
              if negb ok then create_fail ip dp
              else
                i ← gets (ino ip);
                r ← dirlink dp name (i_inum i);
                if r <? 0 then create_fail ip dp
                else
                  (if type =? T_DIR then set_ino dp (add_nlink 1);; iupdate dp else mret tt);;
                  iunlockput dp;;
                  mret (Some ip)
          end
      end
  end.

(** An early return of [sys_open]. *)
Definition open_fail (ip : nat) : Kn Z := fs_op (iunlockput ip);; log_op end_op;; mret (-1).

(** The fields [sys_open] sets. *)
Definition open_file (i : inode) (ip : nat) (omode : Z) (x : file) : file :=
  let rd := negb (omode_has omode O_WRONLY) in
  let wr := omode_has omode O_WRONLY || omode_has omode O_RDWR in
  if i_type i =? T_DEVICE then File FD_DEVICE (f_ref x) rd wr (f_pipe x) ip (f_off x) (i_major i)
  else File FD_INODE (f_ref x) rd wr (f_pipe x) ip 0 (f_major x).

(** [sys_open] once the inode is found and locked. *)
Definition open_inode (ip : nat) (omode : Z) : Kn Z :=
  i ← fs_op (gets (ino ip));
  if (i_type i =? T_DEVICE) && ((i_major i <? 0) || (NDEV <=? i_major i)) then open_fail ip
  else
    f ← filealloc;
    match f with
    | None => open_fail ip
    | Some f =>
        fd ← fdalloc f;
        if fd <? 0 then fileclose f;; open_fail ip
        else
          set_file f (open_file i ip omode);;
          (if omode_has omode O_TRUNC && (i_type i =? T_FILE) then fs_op (itrunc ip) else mret tt);;
          fs_op (iunlock ip);;
          log_op end_op;;
          mret fd
    end.

Definition sys_open (path : option (list Z)) (omode : Z) (junk : list Z) : Kn Z :=
  match path with
  | None => mret (-1)
  | Some path =>
      cwd ← gets k_cwd;
      log_op begin_op;;
      if omode_has omode O_CREATE then
        r ← fs_op (create cwd path T_FILE 0 0 junk);
        match r with
        | None => log_op end_op;; mret (-1)
        | Some ip => open_inode ip omode
        end
      else
        r ← fs_op (namei cwd path junk);
        match r with
        | None => log_op end_op;; mret (-1)
        | Some ip =>
            fs_op (ilock ip);;
            i ← fs_op (gets (ino ip));
            if (i_type i =? T_DIR) && negb (omode =? O_RDONLY) then open_fail ip
            else open_inode ip omode
        end
  end.

(** [sys_mkdir] and [sys_mknod] after their arguments. *)
Definition make_node (path : option (list Z)) (type major minor : Z) (junk : list Z) : Kn Z :=
  cwd ← gets k_cwd;
  log_op begin_op;;
  r ← (match path with None => mret None | Some path => fs_op (create cwd path type major minor junk) end);
  match r with
  | None => log_op end_op;; mret (-1)
  | Some ip => fs_op (iunlockput ip);; log_op end_op;; mret 0
  end.

Definition sys_mkdir (path : option (list Z)) (junk : list Z) : Kn Z := make_node path T_DIR 0 0 junk.

Definition sys_mknod (path : option (list Z)) (major minor : Z) (junk : list Z) : Kn Z :=
  make_node path T_DEVICE major minor junk.

Definition sys_chdir (path : option (list Z)) (junk : list Z) : Kn Z :=
  cwd ← gets k_cwd;
  log_op begin_op;;
  r ← (match path with None => mret None | Some path => fs_op (namei cwd path junk) end);
  match r with
  | None => log_op end_op;; mret (-1)
  | Some ip =>
      fs_op (ilock ip);;
      i ← fs_op (gets (ino ip));
      if negb (i_type i =? T_DIR) then fs_op (iunlockput ip);; log_op end_op;; mret (-1)
      else
        fs_op (iunlock ip);;
        fs_op (iput cwd);;
        log_op end_op;;
        modify (set_cwd ip);;
        mret 0
  end.
End Sysfile.
