(* ===== verification/SysfileSpec.v ===== *)
(** * Reference counts of open files

    [fd_ok ext k]: every entry of the file table has as many references as descriptors
    of the process point to it, plus [ext f] held elsewhere: by other processes, or by
    the kernel in the middle of a call.  Every file system call keeps the counts exact
    on every path, so no entry is lost and none is closed while in use. *)

From S2P Require Import Prelude Mem CString Riscv Kalloc Pipe Block Sleeplock Bio Log Fs FsBlocks File Sysfile Demo.

(** How many descriptors are [f]. *)
Definition fd_count (f : nat) (os : list (option nat)) : Z := Z.of_nat (length (filter (fun o => o = Some f) os)).

Definition bump (ext : nat -> Z) (f : nat) (d : Z) : nat -> Z := fun g => if decide (g = f) then ext g + d else ext g.

Record fd_ok (ext : nat -> Z) (k : kernel) : Prop := {
  fd_len : length (k_ofile k) = Z.to_nat NOFILE;
  fd_refs : forall f x, k_files k !! f = Some x -> f_ref x = fd_count f (k_ofile k) + ext f;
  fd_free : forall f x, k_files k !! f = Some x -> f_ref x = 0 -> f_type x = FD_NONE;
  fd_files : length (k_files k) = NFILE;
  fd_valid : forall f, Some f ∈ k_ofile k -> (f < NFILE)%nat;
  fd_ext : forall f, 0 <= ext f < 2 ^ 30;
}.

Lemma fd_count_nonneg f os : 0 <= fd_count f os.
Proof. unfold fd_count. lia. Qed.

Lemma fd_count_le f os : fd_count f os <= Z.of_nat (length os).
Proof. unfold fd_count. pose proof (length_filter (fun o => o = Some f) os). lia. Qed.

Lemma fd_count_app f l l' : fd_count f (l ++ l') = fd_count f l + fd_count f l'.
Proof. unfold fd_count. rewrite list.filter_app, length_app. lia. Qed.

Lemma fd_count_cons f o l : fd_count f (o :: l) = (if decide (o = Some f) then 1 else 0) + fd_count f l.
Proof. unfold fd_count. rewrite filter_cons. case_decide; cbn [length]; lia. Qed.

(** Changing one descriptor. *)
Lemma fd_count_insert f os i o o' :
  os !! i = Some o -> fd_count f (<[i := o']> os) =
    fd_count f os - (if decide (o = Some f) then 1 else 0) + (if decide (o' = Some f) then 1 else 0).
Proof.
  intros Hi. rewrite <-(take_drop_middle os i o Hi) at 2. rewrite insert_take_drop by (by apply lookup_lt_Some in Hi).
  rewrite !fd_count_app, !fd_count_cons. lia.
Qed.

Lemma fd_count_elem f os : Some f ∈ os -> 1 <= fd_count f os.
Proof.
  intros Hin. unfold fd_count. assert (H : Some f ∈ filter (fun o => o = Some f) os) by (by apply list_elem_of_filter).
  destruct (filter _ os); [by apply elem_of_nil in H|]. cbn [length]. lia.
Qed.

Lemma fd_ok_ext ext ext' k : (forall f, ext' f = ext f) -> fd_ok ext k -> fd_ok ext' k.
Proof. intros E [H1 H2 H3 H4 H5 H6]. split; try done; intros f; rewrite ?E; auto. Qed.

Lemma bump_bump ext f d d' g : d + d' = 0 -> bump (bump ext f d) f d' g = ext g.
Proof. intros. unfold bump. case_decide; lia. Qed.

(** ** Computations that touch neither the files nor the descriptors *)

Definition keeps {A} (m : Kn A) : Prop :=
  forall k a k', m k = Done a k' -> k_files k' = k_files k /\ k_ofile k' = k_ofile k.

Lemma keeps_ret {A} (a : A) : keeps (mret a).
Proof. by intros k a' k' [= <- <-]. Qed.

Lemma keeps_bind {A B} (m : Kn A) (g : A -> Kn B) : keeps m -> (forall a, keeps (g a)) -> keeps (m ≫= g).
Proof.
  intros Hm Hg k b k' (a & k1 & E1 & E2)%bind_done_inv. destruct (Hm _ _ _ E1). destruct (Hg _ _ _ _ E2). split; congruence.
Qed.

Lemma keeps_gets {A} (g : kernel -> A) : keeps (gets g).
Proof. by intros k a k' [= <- <-]. Qed.

Lemma keeps_fs {A} (m : M (fstate lstate) A) : keeps (fs_op m).
Proof. intros k a k'. unfold fs_op, lift. destruct (m (k_fs k)); try done. by intros [= <- <-]. Qed.

Lemma keeps_log {A} (m : M lstate A) : keeps (log_op m).
Proof. apply keeps_fs. Qed.

Lemma keeps_mem {A} (m : M kstate A) : keeps (mem_op m).
Proof. intros k a k'. unfold mem_op, lift. destruct (m (k_mem k)); try done. by intros [= <- <-]. Qed.

Lemma keeps_modify g : (forall k, k_files (g k) = k_files k /\ k_ofile (g k) = k_ofile k) -> keeps (modify g).
Proof. intros Hg k a k' [= <- <-]. apply Hg. Qed.

Lemma keeps_panic {A} msg : keeps (panic msg : Kn A).
Proof. done. Qed.

Lemma keeps_hang {A} : keeps (hang : Kn A).
Proof. done. Qed.

Create HintDb keeps.
#[export] Hint Resolve keeps_ret keeps_gets keeps_fs keeps_log keeps_mem keeps_panic keeps_hang : keeps.
#[export] Hint Extern 4 (keeps (_ ≫= _)) => (apply keeps_bind; [|intros ?]) : keeps.
#[export] Hint Extern 4 (keeps (modify _)) => (apply keeps_modify; intros ?; split; reflexivity) : keeps.
#[export] Hint Extern 5 (keeps (if ?b then _ else _)) => (destruct b) : keeps.
#[export] Hint Extern 5 (keeps (match ?x with _ => _ end)) => (destruct x) : keeps.

Lemma keeps_ok {A} (m : Kn A) ext k a k' : keeps m -> m k = Done a k' -> fd_ok ext k -> fd_ok ext k'.
Proof. intros Hm E [H1 H2 H3 H4 H5 H6]. destruct (Hm _ _ _ E) as [E1 E2]. split; rewrite ?E1, ?E2; done. Qed.

(** ** Computations that change the counts *)

Definition takes {A} (P : kernel -> Prop) (m : Kn A) (Q : A -> kernel -> Prop) : Prop :=
  forall k a k', P k -> m k = Done a k' -> Q a k'.

Lemma takes_bind {A B} P (m : Kn A) Q (g : A -> Kn B) R :
  takes P m Q -> (forall a, takes (Q a) (g a) R) -> takes P (m ≫= g) R.
Proof. intros Hm Hg k b k' HP (a & k1 & E1 & E2)%bind_done_inv. apply (Hg a k1 b k'); [|done]. by apply (Hm k). Qed.

Lemma takes_ret {A} (P : A -> kernel -> Prop) a : takes (P a) (mret a) P.
Proof. by intros k a' k' HP [= <- <-]. Qed.

Lemma takes_keeps {A} (m : Kn A) e : keeps m -> takes (fd_ok e) m (fun _ => fd_ok e).
Proof. intros Hm k a k' Hk E. by apply (keeps_ok m e k a). Qed.

Lemma takes_panic {A} P msg Q : takes P (panic msg : Kn A) Q.
Proof. done. Qed.

Lemma takes_weaken {A} (P P' : kernel -> Prop) (m : Kn A) (Q Q' : A -> kernel -> Prop) :
  takes P m Q -> (forall k, P' k -> P k) -> (forall a k, Q a k -> Q' a k) -> takes P' m Q'.
Proof. intros H HP HQ k a k' Hk E. apply HQ. apply (H k); auto. Qed.

(** A step that keeps, before another computation. *)
Lemma takes_keep_bind {A B} e (m : Kn A) (g : A -> Kn B) R :
  keeps m -> (forall a, takes (fd_ok e) (g a) R) -> takes (fd_ok e) (m ≫= g) R.
Proof. intros Hm Hg. apply (takes_bind _ _ (fun _ => fd_ok e)); [by apply takes_keeps|done]. Qed.

Lemma bind_set_file {A} f g (m : Kn A) k : (set_file f g;; m) k = m (set_files (alter g f (k_files k)) k).
Proof. reflexivity. Qed.

(** A change of one entry of the file table that adds [d] references. *)
Lemma set_file_ok e k f g d :
  fd_ok e k -> (forall x, k_files k !! f = Some x -> f_ref (g x) = f_ref x + d /\ (f_ref (g x) = 0 -> f_type (g x) = FD_NONE)) ->
  0 <= e f + d < 2 ^ 30 -> fd_ok (bump e f d) (set_files (alter g f (k_files k)) k).
Proof.
  intros [H1 H2 H3 H4 H5 H6] Hg Hd. split; cbn [k_files k_ofile set_files]; try done.
  - intros h x. unfold bump. rewrite list_lookup_alter. case_decide as E.
    + subst h. rewrite decide_True by done. intros (y & Hy & ->)%fmap_Some. destruct (Hg y Hy) as [-> _]. rewrite (H2 f y Hy). lia.
    + rewrite decide_False by done. apply H2.
  - intros h x. rewrite list_lookup_alter. case_decide as E; [|apply H3].
    subst h. intros (y & Hy & ->)%fmap_Some. by destruct (Hg y Hy).
  - by rewrite length_alter.
  - intros h. unfold bump. case_decide as E; [by subst|apply H6].
Qed.

(** A change of one descriptor. *)
Lemma set_fd_ok e k fd o o' :
  fd_ok e k -> k_ofile k !! fd = Some o -> (forall f, o' = Some f -> (f < NFILE)%nat) ->
  (forall f, 0 <= e f + (if decide (o = Some f) then 1 else 0) - (if decide (o' = Some f) then 1 else 0) < 2 ^ 30) ->
  fd_ok (fun f => e f + (if decide (o = Some f) then 1 else 0) - (if decide (o' = Some f) then 1 else 0))
    (set_ofile (<[fd := o']> (k_ofile k)) k).
Proof.
  intros [H1 H2 H3 H4 H5 H6] Hfd Ho' He. split; cbn [k_files k_ofile set_ofile]; try done.
  - by rewrite length_insert.
  - intros f x Hx. rewrite (fd_count_insert f _ fd o o' Hfd), (H2 f x Hx). lia.
  - intros f Hf. apply list_elem_of_lookup in Hf as (j & Hj).
    rewrite list_lookup_insert in Hj. case_decide as E; [apply Ho'; congruence|]. apply H5. by apply list_elem_of_lookup_2 with j.
Qed.

Lemma filealloc_scan_spec fs k f :
  filealloc_scan fs k = Some f -> (k <= f)%nat /\ exists x, fs !! (f - k)%nat = Some x /\ f_ref x = 0.
Proof.
  revert k. induction fs as [|x fs IH]; intros k; cbn [filealloc_scan]; [done|]. destruct (Z.eqb_spec (f_ref x) 0).
  - intros [= <-]. split; [lia|]. exists x. by rewrite Nat.sub_diag.
  - intros (H1 & y & H2 & H3)%IH. split; [lia|]. exists y. by replace (f - k)%nat with (S (f - S k)) by lia.
Qed.

Lemma fdalloc_scan_spec os k fd :
  fdalloc_scan os k = Some fd -> (k <= fd)%nat /\ os !! (fd - k)%nat = Some None.
Proof.
  revert k. induction os as [|o os IH]; intros k; cbn [fdalloc_scan]; [done|]. destruct o as [f|].
  - intros (H1 & H2)%IH. split; [lia|]. by replace (fd - k)%nat with (S (fd - S k)) by lia.
  - intros [= <-]. split; [lia|]. by rewrite Nat.sub_diag.
Qed.

(** ** The operations on files and descriptors *)

Definition ext_ok (e : nat -> Z) : Prop := forall f, 0 <= e f < 2 ^ 29.

Lemma bump_ok e f : ext_ok e -> forall g, 0 <= bump e f 1 g < 2 ^ 30.
Proof. intros He g. specialize (He g). unfold bump. case_decide; lia. Qed.

Lemma filealloc_takes e :
  ext_ok e -> takes (fd_ok e) filealloc (fun r k =>
    match r with None => fd_ok e k | Some f => fd_ok (bump e f 1) k /\ e f = 0 /\ (f < NFILE)%nat end).
Proof.
  intros He k r k' Hk. unfold filealloc. rewrite bind_gets. destruct (filealloc_scan (k_files k) 0) as [f|] eqn:E; [|by intros [= <- <-]].
  intros [= <- <-]. apply filealloc_scan_spec in E as (_ & x & Hx & H0). rewrite Nat.sub_0_r in Hx.
  pose proof (fd_refs _ _ Hk f x Hx) as Hr. pose proof (fd_count_nonneg f (k_ofile k)). pose proof (He f).
  split; [|split; [lia|]].
  - apply set_file_ok; [done| |lia]. intros y Hy. rewrite Hx in Hy. injection Hy as <-. cbn. split; [lia|done].
  - rewrite <-(fd_files _ _ Hk). by apply lookup_lt_Some in Hx.
Qed.

Lemma fdalloc_takes e f :
  ext_ok e -> (f < NFILE)%nat -> takes (fd_ok (bump e f 1)) (fdalloc f)
    (fun r k => if r <? 0 then fd_ok (bump e f 1) k else fd_ok e k).
Proof.
  intros He Hf k r k' Hk. unfold fdalloc. rewrite bind_gets. destruct (fdalloc_scan (k_ofile k) 0) as [fd|] eqn:E; [|by intros [= <- <-]].
  intros [= <- <-]. destruct (Z.ltb_spec (Z.of_nat fd) 0); [lia|]. apply fdalloc_scan_spec in E as (_ & Hfd). rewrite Nat.sub_0_r in Hfd.
  rewrite Nat2Z.id. eapply fd_ok_ext; [|apply (set_fd_ok (bump e f 1) k fd None (Some f) Hk Hfd)].
  - intros g. unfold bump. rewrite (decide_False (P := None = Some g)) by done. repeat case_decide; try lia; congruence.
  - intros g [= <-]. done.
  - intros g. specialize (He g). unfold bump. repeat case_decide; try lia; congruence.
Qed.

Lemma keeps_pipe_close `{KI : KernelImage} pi w : keeps (pipe_close pi w).
Proof. unfold pipe_close. auto 10 with keeps. Qed.

Lemma fileclose_takes `{KI : KernelImage} e f : ext_ok e -> takes (fd_ok (bump e f 1)) (fileclose f) (fun _ => fd_ok e).
Proof.
  intros He k r k' Hk. unfold fileclose. rewrite bind_gets. destruct (Z.ltb_spec (f_ref (file_at f k)) 1) as [|Hge]; [done|].
  destruct (k_files k !! f) as [x|] eqn:Hx; cycle 1.
  { unfold file_at in Hge. rewrite list_lookup_total_alt, Hx in Hge. cbn in Hge. lia. }
  assert (Ex : file_at f k = x) by (by apply list_lookup_total_correct). rewrite Ex in *. rewrite bind_set_file.
  set (k1 := set_files _ k). pose proof (bump_ok e f He f) as Hb. pose proof (He f) as Hef.
  assert (Hb1 : bump e f 1 f = e f + 1) by (unfold bump; by rewrite decide_True).
  destruct (Z.ltb_spec 0 (f_ref x - 1)) as [Hlt|Hle].
  - intros [= _ <-]. eapply fd_ok_ext; [|apply (set_file_ok (bump e f 1) k f _ (-1) Hk)].
    + intros g. by rewrite bump_bump.
    + intros y Hy. rewrite Hx in Hy. injection Hy as <-. cbn. split; lia.
    + lia.
  - assert (Hk2 : fd_ok e (set_files (alter (fun x => File FD_NONE 0 (f_readable x) (f_writable x) (f_pipe x) (f_ip x) (f_off x) (f_major x)) f
      (k_files k1)) k1)).
    { pose proof (fd_refs _ _ Hk f x Hx) as Hr. pose proof (fd_count_nonneg f (k_ofile k)).
      unfold k1. cbn [k_files set_files]. rewrite list_alter_alter_eq.
      eapply fd_ok_ext; [|apply (set_file_ok (bump e f 1) k f _ (-1) Hk)].
      - intros g. by rewrite bump_bump.
      - intros y Hy. rewrite Hx in Hy. injection Hy as <-. cbn. split; [lia|done].
      - lia. }
    rewrite bind_set_file. intros E. apply (keeps_ok _ e _ _ _) in E; [exact E| |exact Hk2].
    destruct (f_type x); auto using keeps_pipe_close with keeps.
Qed.

(** ** The calls *)

Lemma argfd_elem k fd r : argfd fd k = Done r k -> forall f, r = Some f -> Some f ∈ k_ofile k /\ k_ofile k !! Z.to_nat fd = Some (Some f) /\ 0 <= fd.
Proof.
  unfold argfd. rewrite bind_gets. intros [= <-] f. destruct ((fd <? 0) || (NOFILE <=? fd)) eqn:E; [done|].
  apply orb_false_iff in E as [E _]. apply Z.ltb_ge in E. intros Hn.
  assert (Hl : k_ofile k !! Z.to_nat fd = Some (Some f)).
  { rewrite nth_lookup in Hn. by destruct (k_ofile k !! Z.to_nat fd) as [o|]; cbn in Hn; congruence. }
  split; [by apply list_elem_of_lookup_2 with (Z.to_nat fd)|done].
Qed.

(** The reference count of a file with a descriptor. *)
Lemma fd_ref_pos e k f : fd_ok e k -> Some f ∈ k_ofile k ->
  exists x, k_files k !! f = Some x /\ file_at f k = x /\ 1 <= f_ref x < 2 ^ 31 - 1.
Proof.
  intros Hk Hf. pose proof (fd_valid _ _ Hk f Hf) as Hv.
  rewrite <-(fd_files _ _ Hk) in Hv. destruct (lookup_lt_is_Some_2 (k_files k) f Hv) as [x Hx]. exists x. split; [done|].
  split; [by apply list_lookup_total_correct|]. rewrite (fd_refs _ _ Hk f x Hx). pose proof (fd_count_elem f _ Hf).
  pose proof (fd_count_le f (k_ofile k)). rewrite (fd_len _ _ Hk) in *. pose proof (fd_ext _ _ Hk f). unfold NOFILE in *. lia.
Qed.

Lemma sys_dup_ok e k fd :
  ext_ok e -> fd_ok e k -> exists r k', sys_dup fd k = Done r k' /\ fd_ok e k'.
Proof.
  intros He Hk. unfold sys_dup. destruct (argfd fd k) as [r k1| |] eqn:Ea; try discriminate Ea.
  assert (k1 = k) as -> by (by injection Ea). pose proof (argfd_elem k fd r Ea) as Hr. mstep Ea.
  destruct r as [f|]; [|by exists (-1), k]. destruct (Hr f eq_refl) as (Hf & _).
  destruct (fd_ref_pos e k f Hk Hf) as (x & Hx & Ex & Hpos).
  unfold fdalloc. rewrite !bind_assoc, bind_gets. destruct (fdalloc_scan (k_ofile k) 0) as [n|] eqn:En; [|by exists (-1), k].
  apply fdalloc_scan_spec in En as (_ & Hn). rewrite Nat.sub_0_r in Hn. unfold set_fd. rewrite bind_assoc, bind_modify, bind_ret.
  destruct (Z.ltb_spec (Z.of_nat n) 0); [lia|]. unfold filedup. rewrite !bind_assoc, bind_gets. set (k2 := set_ofile _ k).
  change (file_at f k2) with (file_at f k). rewrite Ex. destruct (Z.ltb_spec (f_ref x) 1); [lia|]. rewrite bind_assoc, bind_set_file.
  eexists _, _. split; [reflexivity|].
  pose proof (set_file_ok e k f (fun x => with_fref (s32 (f_ref x + 1)) x) 1 Hk) as Hk3. pose proof (He f).
  assert (Hk3' : fd_ok (bump e f 1) (set_files (alter (fun x => with_fref (s32 (f_ref x + 1)) x) f (k_files k)) k)).
  { apply Hk3; [|lia]. intros y Hy. rewrite Hx in Hy. injection Hy as <-. cbn. rewrite s32_small by lia. split; lia. }
  subst k2. rewrite Nat2Z.id. eapply fd_ok_ext; [|apply (set_fd_ok (bump e f 1) _ n None (Some f) Hk3' Hn)].
  - intros g. unfold bump. rewrite (decide_False (P := None = Some g)) by done. repeat case_decide; try lia; congruence.
  - intros g [= <-]. by apply (fd_valid _ _ Hk).
  - intros g. specialize (He g). unfold bump. repeat case_decide; try lia; congruence.
Qed.

(** Taking a descriptor away leaves its reference with the kernel. *)
Lemma clear_fd e k fd f :
  ext_ok e -> fd_ok e k -> k_ofile k !! fd = Some (Some f) -> fd_ok (bump e f 1) (set_ofile (<[fd := None]> (k_ofile k)) k).
Proof.
  intros He Hk Hfd. eapply fd_ok_ext; [|apply (set_fd_ok e k fd (Some f) None Hk Hfd)]; [|done|].
  - intros g. unfold bump. rewrite (decide_False (P := None = Some g)) by done. repeat case_decide; try lia; congruence.
  - intros g. specialize (He g). repeat case_decide; try lia; congruence.
Qed.

Section Calls.
Context `{KI : KernelImage} `{DV : Devices}.

Lemma sys_close_takes e fd : ext_ok e -> takes (fd_ok e) (sys_close fd) (fun _ => fd_ok e).
Proof.
  intros He k a k' Hk. unfold sys_close. destruct (argfd fd k) as [r k1| |] eqn:Ea; try discriminate Ea.
  assert (k1 = k) as -> by (by injection Ea). pose proof (argfd_elem k fd r Ea) as Hr. mstep Ea.
  destruct r as [f|]; [|by intros [= <- <-]]. destruct (Hr f eq_refl) as (_ & Hf & _). unfold set_fd. rewrite bind_modify.
  pose proof (clear_fd e k _ f He Hk Hf) as Hk2. intros ([] & k2 & E & E2)%bind_done_inv. injection E2 as _ <-.
  by apply (fileclose_takes e f He _ _ _ Hk2 E).
Qed.

(** What closing the last reference still has to do. *)
Definition last_close (x : file) : Kn unit :=
  match f_type x with
  | FD_PIPE => pipe_close (f_pipe x) (f_writable x)
  | FD_INODE | FD_DEVICE => log_op begin_op;; fs_op (iput (f_ip x));; log_op end_op
  | FD_NONE => mret tt
  end.

(** [close_fd fd f x k]: the state with descriptor [fd] gone and entry [f] set to [x]. *)
Definition close_fd (fd : Z) (f : nat) (x : file) (k : kernel) : kernel :=
  set_files (<[f := x]> (k_files k)) (set_ofile (<[Z.to_nat fd := None]> (k_ofile k)) k).

Definition freed (x : file) : file := File FD_NONE 0 (f_readable x) (f_writable x) (f_pipe x) (f_ip x) (f_off x) (f_major x).

Lemma alter_insert_file fs f x g : fs !! f = Some x -> alter g f fs = <[f := g x]> (fs : list file).
Proof.
  intros Hx. apply list_eq. intros i. rewrite list_lookup_alter, list_lookup_insert. pose proof (lookup_lt_Some _ _ _ Hx).
  case_decide; [subst; rewrite decide_True by done; by rewrite Hx|by rewrite decide_False by naive_solver].
Qed.

(** What [sys_close] does to an open descriptor. *)
Lemma sys_close_open e k fd f :
  fd_ok e k -> 0 <= fd -> k_ofile k !! Z.to_nat fd = Some (Some f) ->
  let x := file_at f k in
  sys_close fd k =
    if 1 <? f_ref x then Done 0 (close_fd fd f (with_fref (f_ref x - 1) x) k)
    else (last_close x;; mret 0) (close_fd fd f (freed x) k).
Proof.
  intros Hk Hfd Hf. destruct (fd_ref_pos e k f Hk) as (x & Hx & Ex & Hpos); [by apply list_elem_of_lookup_2 with (Z.to_nat fd)|].
  cbn zeta. rewrite Ex. unfold sys_close, argfd. rewrite !bind_assoc, bind_gets, bind_ret.
  pose proof (lookup_lt_Some _ _ _ Hf) as Hlt. rewrite (fd_len _ _ Hk) in Hlt.
  destruct (Z.ltb_spec fd 0); [lia|]. destruct (Z.leb_spec NOFILE fd); [lia|]. cbn [orb].
  rewrite (nth_lookup_Some _ _ _ _ Hf). unfold set_fd. rewrite bind_modify. unfold fileclose. rewrite !bind_assoc, bind_gets.
  set (k1 := set_ofile _ k). change (file_at f k1) with (file_at f k). rewrite Ex.
  destruct (Z.ltb_spec (f_ref x) 1); [lia|]. rewrite !bind_assoc, bind_set_file.
  assert (E1 : alter (with_fref (f_ref x - 1)) f (k_files k1) = <[f := with_fref (f_ref x - 1) x]> (k_files k)) by (by apply alter_insert_file).
  rewrite E1. destruct (Z.ltb_spec 0 (f_ref x - 1)); destruct (Z.ltb_spec 1 (f_ref x)); try lia; [done|].
  rewrite !bind_assoc, bind_set_file. cbn [k_files set_files]. rewrite (alter_insert_file _ f (with_fref (f_ref x - 1) x)) by (apply list_lookup_insert_eq; by apply lookup_lt_Some in Hx).
  rewrite list_insert_insert_eq. unfold last_close. by destruct (f_type x).
Qed.

Lemma bump_fresh e f : ext_ok e -> e f = 0 -> ext_ok (bump e f 1).
Proof. intros He H0 g. specialize (He g). unfold bump. case_decide; [subst; lia|done]. Qed.

(** Closing in turn the two files of a pipe. *)
Lemma close_two e a b {A} (m : Kn A) R :
  ext_ok e -> e a = 0 -> bump e a 1 b = 0 -> takes (fd_ok e) m R ->
  takes (fd_ok (bump (bump e a 1) b 1)) (fileclose a;; fileclose b;; m) R.
Proof.
  intros He Ha Hb Hm. assert (Hab : a <> b) by (intros ->; unfold bump in Hb; rewrite decide_True in Hb by done; lia).
  assert (Hb' : e b = 0) by (unfold bump in Hb; by rewrite decide_False in Hb by congruence).
  apply (takes_bind _ _ (fun _ => fd_ok (bump e b 1))).
  - eapply takes_weaken; [apply (fileclose_takes (bump e b 1) a); by apply bump_fresh| |done].
    intros k. apply fd_ok_ext. intros g. unfold bump. repeat case_decide; congruence.
  - intros _. apply (takes_bind _ _ (fun _ => fd_ok e)); [by apply fileclose_takes|done].
Qed.

Lemma takes_pure {A} (P : kernel -> Prop) (phi : Prop) (m : Kn A) Q : (phi -> takes P m Q) -> takes (fun k => P k /\ phi) m Q.
Proof. intros Hm k a k' [HP Hphi]. by apply Hm. Qed.

Lemma set_file_keeps_refs e f g :
  (forall x, f_ref (g x) = f_ref x) ->
  (forall k x, fd_ok e k -> k_files k !! f = Some x -> f_ref x <> 0) -> takes (fd_ok e) (set_file f g) (fun _ => fd_ok e).
Proof.
  intros Hg Hne k a k' Hk [= _ <-]. eapply fd_ok_ext; [|apply (set_file_ok e k f g 0 Hk)].
  - intros h. unfold bump. case_decide; lia.
  - intros x Hx. rewrite Hg. split; [lia|]. intros H0. by destruct (Hne k x Hk Hx).
  - pose proof (fd_ext _ _ Hk f). lia.
Qed.

(** A file the kernel holds a reference to. *)
Lemma held_ref e f k x : (0 < e f) -> fd_ok e k -> k_files k !! f = Some x -> f_ref x <> 0.
Proof. intros He Hk Hx. rewrite (fd_refs _ _ Hk f x Hx). pose proof (fd_count_nonneg f (k_ofile k)). lia. Qed.

Lemma pipealloc_takes e :
  ext_ok e -> takes (fd_ok e) pipealloc (fun r k =>
    match r with
    | None => fd_ok e k
    | Some (a, b) => fd_ok (bump (bump e a 1) b 1) k /\ e a = 0 /\ bump e a 1 b = 0 /\ (a < NFILE)%nat /\ (b < NFILE)%nat
    end).
Proof.
  intros He. unfold pipealloc. eapply takes_bind; [by apply filealloc_takes|]. intros [a|]; cycle 1.
  { unfold pipealloc_bad. do 2 (apply takes_keep_bind; [auto with keeps|]; intros _). intros k r k' Hk [= <- <-]. done. }
  apply takes_pure. intros [Ha Hal]. pose proof (bump_fresh e a He Ha) as He1.
  eapply takes_bind; [by apply filealloc_takes|]. intros [b|]; cycle 1.
  { unfold pipealloc_bad. apply (takes_bind _ _ (fun _ => fd_ok e)); [by apply fileclose_takes|]. intros _.
    apply takes_keep_bind; [auto with keeps|]. intros _ k r k' Hk [= <- <-]. done. }
  apply takes_pure. intros [Hb Hbl]. apply takes_keep_bind; [apply keeps_mem|]. intros pi. destruct (pi =? 0).
  { apply close_two; try done. intros k r k' Hk [= <- <-]. done. }
  apply takes_keep_bind; [auto with keeps|]. intros _.
  assert (Hpa : 0 < bump (bump e a 1) b 1 a) by (pose proof (He a); unfold bump; repeat case_decide; try done; lia).
  assert (Hpb : 0 < bump (bump e a 1) b 1 b) by (pose proof (He1 b); unfold bump at 1; rewrite decide_True by done; lia).
  eapply takes_bind; [apply set_file_keeps_refs; [done|intros k x; exact (held_ref _ a k x Hpa)]|]. intros [].
  eapply takes_bind; [apply set_file_keeps_refs; [done|intros k x; exact (held_ref _ b k x Hpb)]|]. intros [].
  intros k r k' Hk [= <- <-]. done.
Qed.

Lemma fdalloc_cases f k :
  fdalloc f k = Done (-1) k \/
  exists n, k_ofile k !! n = Some None /\ fdalloc f k = Done (Z.of_nat n) (set_ofile (<[n := Some f]> (k_ofile k)) k).
Proof.
  unfold fdalloc. rewrite bind_gets. destruct (fdalloc_scan (k_ofile k) 0) as [n|] eqn:E; [right|by left].
  apply fdalloc_scan_spec in E as (_ & Hn). rewrite Nat.sub_0_r in Hn. exists n. split; [done|].
  unfold set_fd. rewrite bind_modify, Nat2Z.id. done.
Qed.

(** Giving the kernel's reference to a free descriptor. *)
Lemma give_fd e k n f :
  ext_ok e -> (f < NFILE)%nat -> fd_ok (bump e f 1) k -> k_ofile k !! n = Some None ->
  fd_ok e (set_ofile (<[n := Some f]> (k_ofile k)) k).
Proof.
  intros He Hf Hk Hn. eapply fd_ok_ext; [|apply (set_fd_ok (bump e f 1) k n None (Some f) Hk Hn)].
  - intros g. unfold bump. rewrite (decide_False (P := None = Some g)) by done. repeat case_decide; try lia; congruence.
  - by intros g [= <-].
  - intros g. specialize (He g). unfold bump. repeat case_decide; try lia; congruence.
Qed.

Lemma sys_pipe_takes e ok0 ok1 : ext_ok e -> takes (fd_ok e) (sys_pipe ok0 ok1) (fun _ => fd_ok e).
Proof.
  intros He. unfold sys_pipe. eapply takes_bind; [by apply pipealloc_takes|]. intros [[a b]|]; cycle 1.
  { by intros k r k' Hk [= <- <-]. }
  apply takes_pure. intros (Ha & Hb & Hal & Hbl).
  assert (Hab : a <> b) by (intros ->; unfold bump in Hb; rewrite decide_True in Hb by done; lia).
  assert (Hb' : e b = 0) by (unfold bump in Hb; by rewrite decide_False in Hb by congruence).
  assert (Hsw : forall k, fd_ok (bump (bump e b 1) a 1) k <-> fd_ok (bump (bump e a 1) b 1) k).
  { intros k. split; apply fd_ok_ext; intros g; unfold bump; repeat case_decide; congruence. }
  pose proof (bump_fresh e b He Hb') as Heb.
  assert (Hclose : takes (fd_ok (bump (bump e a 1) b 1)) (fileclose a;; fileclose b;; mret (-1, None : option (Z * Z))) (fun _ => fd_ok e)).
  { apply close_two; try done. by intros k r k' Hk [= <- <-]. }
  intros k r k' Hk. destruct (fdalloc_cases a k) as [E|(n & Hn & E)]; mstep E; [by apply Hclose|].
  destruct (Z.ltb_spec (Z.of_nat n) 0); [lia|]. apply Hsw in Hk. pose proof (give_fd (bump e b 1) k n a Heb Hal Hk Hn) as Hk1.
  set (k1 := set_ofile _ k) in *. assert (Hn1 : k_ofile k1 !! n = Some (Some a)).
  { apply list_lookup_insert_eq. by apply lookup_lt_Some in Hn. }
  destruct (fdalloc_cases b k1) as [E1|(m & Hm & E1)]; mstep E1.
  - cbn [Z.ltb Z.compare]. unfold set_fd. rewrite bind_modify, Nat2Z.id. apply Hclose. apply Hsw.
    by apply clear_fd.
  - destruct (Z.ltb_spec (Z.of_nat m) 0); [lia|]. pose proof (give_fd e k1 m b He Hbl Hk1 Hm) as Hk2.
    set (k2 := set_ofile _ k1) in *. assert (Hnm : n <> m) by congruence.
    destruct (negb (ok0 && ok1)); [|by intros [= <- <-]]. unfold set_fd. rewrite !bind_modify, !Nat2Z.id.
    apply Hclose. apply (clear_fd (bump e a 1) _ m b).
    + by apply bump_fresh.
    + apply clear_fd; [done|done|]. cbn. by rewrite list_lookup_insert_ne.
    + cbn. rewrite list_lookup_insert_ne by done. apply list_lookup_insert_eq. by apply lookup_lt_Some in Hm.
Qed.

(** ** Calls that leave descriptors alone *)

Lemma set_foff_ok e f o : takes (fd_ok e) (set_file f (fun x => with_foff (o x) x)) (fun _ => fd_ok e).
Proof.
  intros k a k' Hk [= _ <-]. eapply fd_ok_ext; [|apply (set_file_ok e k f _ 0 Hk)].
  - intros h. unfold bump. case_decide; lia.
  - intros x Hx. cbn. split; [lia|]. by apply (fd_free _ _ Hk f).
  - pose proof (fd_ext _ _ Hk f). lia.
Qed.

(** Drivers do not touch files and descriptors. *)
Class DevicesOk : Prop := {
  dev_read_keeps : forall m rd n, dev_read m = Some rd -> keeps (rd n);
  dev_write_keeps : forall m wr n, dev_write m = Some wr -> keeps (wr n);
}.
Context `{DO : DevicesOk}.

Lemma keeps_argfd fd : keeps (argfd fd).
Proof. unfold argfd. auto with keeps. Qed.

Lemma fileread_takes e f u n : takes (fd_ok e) (fileread f u n) (fun _ => fd_ok e).
Proof.
  unfold fileread. apply takes_keep_bind; [auto with keeps|]. intros x. destruct (negb (f_readable x)); [apply takes_keeps; auto with keeps|].
  destruct (f_type x); [apply takes_panic| | |].
  - apply takes_keeps. unfold pipe_read. repeat (auto with keeps; try (apply keeps_bind; [|intros])); repeat case_match; auto with keeps.
  - apply takes_keep_bind; [auto with keeps|]. intros []. apply takes_keep_bind; [auto with keeps|]. intros r.
    eapply takes_bind.
    + instantiate (1 := fun _ => fd_ok e). destruct (0 <? fst r); [apply set_foff_ok|apply takes_keeps; auto with keeps].
    + intros []. apply takes_keeps. auto with keeps.
  - apply takes_keeps. destruct (_ || _); [auto with keeps|]. destruct (dev_read (f_major x)) as [rd|] eqn:E; [by apply (dev_read_keeps _ _ _ E)|auto with keeps].
Qed.

Lemma filewrite_loop_takes fuel e f u n i : takes (fd_ok e) (filewrite_loop fuel f u n i) (fun _ => fd_ok e).
Proof.
  revert i. induction fuel as [|fuel IH]; intros i; cbn [filewrite_loop]; (destruct (i <? n); [|apply takes_keeps; auto with keeps]); [done|].
  apply takes_keep_bind; [auto with keeps|]. intros []. apply takes_keep_bind; [auto with keeps|]. intros x.
  apply takes_keep_bind; [auto with keeps|]. intros []. apply takes_keep_bind; [auto with keeps|]. intros r.
  eapply takes_bind.
  { instantiate (1 := fun _ => fd_ok e). destruct (0 <? r); [apply set_foff_ok|apply takes_keeps; auto with keeps]. }
  intros []. apply takes_keep_bind; [auto with keeps|]. intros []. apply takes_keep_bind; [auto with keeps|]. intros [].
  destruct (negb _); [apply takes_keeps; auto with keeps|apply IH].
Qed.

Lemma filewrite_takes e f u n : takes (fd_ok e) (filewrite f u n) (fun _ => fd_ok e).
Proof.
  unfold filewrite. apply takes_keep_bind; [auto with keeps|]. intros x. destruct (negb (f_writable x)); [apply takes_keeps; auto with keeps|].
  destruct (f_type x); [apply takes_panic| | |].
  - apply takes_keeps. unfold pipe_write. apply keeps_bind; [auto with keeps|intros]; repeat case_match; auto with keeps.
  - eapply takes_bind; [apply filewrite_loop_takes|]. intros i. apply takes_keeps. auto with keeps.
  - apply takes_keeps. destruct (_ || _); [auto with keeps|]. destruct (dev_write (f_major x)) as [wr|] eqn:E; [by apply (dev_write_keeps _ _ _ E)|auto with keeps].
Qed.

(** ** All the calls *)

Ltac keeps_tac :=
  repeat first [apply keeps_fs | apply keeps_log | apply keeps_mem | apply keeps_ret | apply keeps_gets | apply keeps_panic | apply keeps_hang
               | (apply keeps_modify; intros ?; split; reflexivity) | apply keeps_bind; [|intros ?] | case_match].

Lemma keeps_link old new junk : keeps (sys_link old new junk).
Proof. unfold sys_link, sys_link_bad. keeps_tac. Qed.

Lemma keeps_unlink path junk : keeps (sys_unlink path junk).
Proof. unfold sys_unlink, sys_unlink_bad. keeps_tac. Qed.

Lemma keeps_make_node path type major minor junk : keeps (make_node path type major minor junk).
Proof. unfold make_node. keeps_tac. Qed.

Lemma keeps_chdir path junk : keeps (sys_chdir path junk).
Proof. unfold sys_chdir. keeps_tac. Qed.

Lemma keeps_filestat f ok : keeps (filestat f ok).
Proof. unfold filestat. keeps_tac. Qed.

Lemma open_inode_takes e ip omode : ext_ok e -> takes (fd_ok e) (open_inode ip omode) (fun _ => fd_ok e).
Proof.
  intros He. unfold open_inode. apply takes_keep_bind; [auto with keeps|]. intros i.
  assert (Hfail : keeps (open_fail ip)) by (unfold open_fail; keeps_tac).
  destruct (_ && _); [by apply takes_keeps|]. eapply takes_bind; [by apply filealloc_takes|]. intros [f|]; [|by apply takes_keeps].
  apply takes_pure. intros [H0 Hf]. intros k r k' Hk. destruct (fdalloc_cases f k) as [E|(n & Hn & E)]; mstep E.
  - cbn [Z.ltb Z.compare]. revert k r k' Hk E. intros k r k' Hk _. revert k r k' Hk.
    apply (takes_bind _ _ (fun _ => fd_ok e)); [by apply fileclose_takes|]. intros []. by apply takes_keeps.
  - destruct (Z.ltb_spec (Z.of_nat n) 0); [lia|]. pose proof (give_fd e k n f He Hf Hk Hn) as Hk1. revert Hk1.
    set (k1 := set_ofile _ k). assert (Hin : Some f ∈ k_ofile k1).
    { apply list_elem_of_lookup_2 with n. apply list_lookup_insert_eq. by apply lookup_lt_Some in Hn. }
    clearbody k1. clear E Hk Hn k. intros Hk1. rewrite bind_set_file. intros E2.
    assert (Hk2 : fd_ok e (set_files (alter (open_file i ip omode) f (k_files k1)) k1)).
    { destruct (fd_ref_pos e k1 f Hk1 Hin) as (x & Hx & _ & Hpos). eapply fd_ok_ext; [|apply (set_file_ok e k1 f _ 0 Hk1)].
      - intros h. unfold bump. case_decide; lia.
      - intros y Hy. rewrite Hx in Hy. injection Hy as <-. unfold open_file. destruct (i_type i =? T_DEVICE); cbn; lia.
      - pose proof (fd_ext _ _ Hk1 f). lia. }
    eapply keeps_ok; [|exact E2|exact Hk2]. keeps_tac.
Qed.

Lemma sys_open_takes e path omode junk : ext_ok e -> takes (fd_ok e) (sys_open path omode junk) (fun _ => fd_ok e).
Proof.
  intros He. unfold sys_open. destruct path as [path|]; [|apply takes_keeps; auto with keeps].
  apply takes_keep_bind; [auto with keeps|]. intros cwd. apply takes_keep_bind; [auto with keeps|]. intros [].
  destruct (omode_has omode O_CREATE).
  - apply takes_keep_bind; [auto with keeps|]. intros [ip|]; [by apply open_inode_takes|]. apply takes_keeps. keeps_tac.
  - apply takes_keep_bind; [auto with keeps|]. intros [ip|]; [|apply takes_keeps; keeps_tac].
    apply takes_keep_bind; [auto with keeps|]. intros []. apply takes_keep_bind; [auto with keeps|]. intros i.
    destruct (_ && _); [|by apply open_inode_takes]. apply takes_keeps. unfold open_fail. keeps_tac.
Qed.

(** A file system call with its arguments; the results are dropped. *)
Inductive call :=
| Dup (fd : Z) | Read (fd : Z) (u : user) (n : Z) | Write (fd : Z) (u : user) (n : Z) | Close (fd : Z)
| Fstat (fd : Z) (ok : bool) | Link (old new : option (list Z)) | Unlink (path : option (list Z))
| Open (path : option (list Z)) (omode : Z) | Mkdir (path : option (list Z)) | Mknod (path : option (list Z)) (major minor : Z)
| Chdir (path : option (list Z)) | PipeCall (ok0 ok1 : bool).

Definition run_call (c : call) (junk : list Z) : Kn unit :=
  match c with
  | Dup fd => sys_dup fd;; mret tt
  | Read fd u n => sys_read fd u n;; mret tt
  | Write fd u n => sys_write fd u n;; mret tt
  | Close fd => sys_close fd;; mret tt
  | Fstat fd ok => sys_fstat fd ok;; mret tt
  | Link old new => sys_link old new junk;; mret tt
  | Unlink path => sys_unlink path junk;; mret tt
  | Open path omode => sys_open path omode junk;; mret tt
  | Mkdir path => sys_mkdir path junk;; mret tt
  | Mknod path major minor => sys_mknod path major minor junk;; mret tt
  | Chdir path => sys_chdir path junk;; mret tt
  | PipeCall ok0 ok1 => sys_pipe ok0 ok1;; mret tt
  end.

Lemma takes_drop {A} e (m : Kn A) : takes (fd_ok e) m (fun _ => fd_ok e) -> takes (fd_ok e) (m;; mret tt) (fun _ => fd_ok e).
Proof. intros Hm. eapply takes_bind; [exact Hm|]. intros a. apply takes_keeps. auto with keeps. Qed.

Lemma run_call_takes e c junk : ext_ok e -> takes (fd_ok e) (run_call c junk) (fun _ => fd_ok e).
Proof.
  intros He. destruct c; apply takes_drop.
  - intros k r k' Hk E. destruct (sys_dup_ok e k fd He Hk) as (r1 & k1 & E1 & H1). rewrite E in E1. injection E1 as _ <-. done.
  - apply takes_keep_bind; [apply keeps_argfd|]. intros [f|]; [apply fileread_takes|apply takes_keeps; auto with keeps].
  - apply takes_keep_bind; [apply keeps_argfd|]. intros [f|]; [apply filewrite_takes|apply takes_keeps; auto with keeps].
  - by apply sys_close_takes.
  - apply takes_keep_bind; [apply keeps_argfd|]. intros [f|]; [apply takes_keeps, keeps_filestat|apply takes_keeps; auto with keeps].
  - apply takes_keeps, keeps_link.
  - apply takes_keeps, keeps_unlink.
  - by apply sys_open_takes.
  - apply takes_keeps, keeps_make_node.
  - apply takes_keeps, keeps_make_node.
  - apply takes_keeps, keeps_chdir.
  - by apply sys_pipe_takes.
Qed.

Fixpoint run_calls (cs : list call) (junk : list Z) : Kn unit :=
  match cs with
  | [] => mret tt
  | c :: cs => run_call c junk;; run_calls cs junk
  end.

(** C20: Whatever file system calls a process makes, and however they end, the reference count
    of every open file stays the number of descriptors of the process that point to it plus
    the references held by others, and unused entries stay unused: no path of dup, open,
    close or pipe, the error paths included, loses or duplicates a reference.  So [sys_dup]
    never finds a file already closed, and neither does [sys_close] of an open descriptor: it
    takes one reference off, and when that was the last one, and only then, it frees the entry
    and releases the pipe end or the inode behind it. *)
Theorem descriptor_refcounts e k cs junk k' :
  ext_ok e -> fd_ok e k -> run_calls cs junk k = Done tt k' ->
  fd_ok e k' /\ (forall fd, exists r k'', sys_dup fd k' = Done r k'') /\
  (forall fd f, 0 <= fd -> k_ofile k' !! Z.to_nat fd = Some (Some f) ->
     let x := file_at f k' in
     1 <= f_ref x /\
     sys_close fd k' =
       if 1 <? f_ref x then Done 0 (close_fd fd f (with_fref (f_ref x - 1) x) k')
       else (last_close x;; mret 0) (close_fd fd f (freed x) k')).
Proof.
  intros He Hk E. assert (Hk' : fd_ok e k').
  { revert k Hk E. induction cs as [|c cs IH]; intros k Hk E; [by injection E as <-|].
    apply bind_done_inv in E as ([] & k1 & E1 & E2). apply (IH k1); [|done]. by apply (run_call_takes e c junk He k tt). }
  split; [done|]. split; [intros fd; destruct (sys_dup_ok e k' fd He Hk') as (r & k2 & E2 & _); by exists r, k2|].
  intros fd f H0 Hf x. split; [|by apply (sys_close_open e)].
  destruct (fd_ref_pos e k' f Hk') as (y & _ & Ey & Hpos); [by apply list_elem_of_lookup_2 with (Z.to_nat fd)|]. unfold x. rewrite Ey. lia.
Qed.
End Calls.

(** ** A process with one open file *)

#[local] Instance no_devices : Devices := {| dev_read := fun _ => None; dev_write := fun _ => None |}.
#[local] Instance no_devices_ok : DevicesOk.
Proof. split; done. Qed.

Definition free_file : file := File FD_NONE 0 false false 0 0 0 0.

Definition one_file : kernel :=
  Kernel (FState (LState (BState [] ∅ [] 1) (Log 0 0 0 false 0 0 [])) (Superblock 0 0 0 0 0 0 0 0) [])
    (File FD_INODE 1 true true 0 0 0 0 :: replicate 99 free_file) ∅ (KState ∅ 0)
    (Some 0%nat :: replicate 15 None) 0.

Lemma one_file_ok : fd_ok (fun _ => 0) one_file.
Proof.
  split; try done.
  - intros [|f] x Hx; [by injection Hx as <-|]. change (replicate 99 free_file !! f = Some x) in Hx.
    apply lookup_replicate in Hx as [-> _]. done.
  - intros [|f] x Hx H0; [injection Hx as <-; discriminate H0|]. change (replicate 99 free_file !! f = Some x) in Hx.
    by apply lookup_replicate in Hx as [-> _].
  - intros f [[= ->]|Hf]%elem_of_cons; [unfold NFILE; lia|]. by apply elem_of_replicate in Hf as [Hf _].
Qed.

Lemma descriptor_refcounts_witness :
  exists k', run_calls [Dup 0; Dup 1; Close 0; PipeCall true true] [] one_file = Done tt k' /\ fd_ok (fun _ => 0) k' /\
    take 4 (k_ofile k') = [None; Some 0%nat; Some 0%nat; None] /\ f_ref (file_at 0 k') = 2 /\
    sys_close 1 k' = Done 0 (close_fd 1 0 (with_fref 1 (file_at 0 k')) k').
Proof.
  destruct (run_calls [Dup 0; Dup 1; Close 0; PipeCall true true] [] one_file) as [[] k'| |] eqn:E;
    [|vm_compute in E; discriminate E..].
  exists k'. split; [reflexivity|].
  destruct (descriptor_refcounts (fun _ => 0) one_file [Dup 0; Dup 1; Close 0; PipeCall true true] [] k') as (H1 & _ & H3);
    [intros f; lia|exact one_file_ok|exact E|]. split; [exact H1|]. specialize (H3 1 0%nat).
  vm_compute in E. injection E as <-. split; [reflexivity|]. split; [reflexivity|].
  destruct H3 as [_ H3]; [lia|reflexivity|]. exact H3.
Defined.
