(* ===== verification/Proc.v ===== *)
(** * Processes, [kernel/proc.c]

    The process table over the kernel state of [File]: the tables and the memory are
    shared, the descriptors and the current directory belong to a process and are put
    in place while it runs.  The process that runs is [me].  A function runs up to the
    point where it gives up the CPU; what happens between such points, when several
    processes run, is in [ProcConc]. *)

From S2P Require Import Prelude Mem CString Riscv Kalloc Vm Pipe Block Sleeplock Bio Log Fs FsBlocks File.

Definition NPROC : Z := 64.

Inductive procstate := UNUSED | USED | SLEEPING | RUNNABLE | RUNNING | ZOMBIE.

#[export] Instance procstate_eq_dec : EqDecision procstate.
Proof. solve_decision. Defined.

(** What a process sleeps on: the address of a process, or another address. *)
Inductive channel := ChProc (p : nat) | ChOther (a : Z).

#[export] Instance channel_eq_dec : EqDecision channel.
Proof. solve_decision. Defined.

(** [struct context]: [ra], [sp] and the saved registers [s0] to [s11]. *)
Record context := Context { ctx_ra : Z; ctx_sp : Z; ctx_s : list Z }.

(** [struct proc]; a null pointer to a process or an inode is [None]. *)
Record proc := Proc {
  p_state : procstate;
  p_chan : option channel;
  p_killed : bool;
  p_xstate : Z;
  p_pid : Z;
  p_parent : option nat;
  p_kstack : Z;
  p_sz : Z;
  p_pagetable : Z;
  p_trapframe : Z;
  p_context : context;
  p_ofile : list (option nat);
  p_cwd : option nat;
  p_name : list Z;
}.

#[export] Instance proc_inhabited : Inhabited proc :=
  populate (Proc UNUSED None false 0 0 None 0 0 0 0 (Context 0 0 []) (replicate 16 None) None (replicate 16 0)).

Definition with_state (x : procstate) (p : proc) : proc :=
  Proc x (p_chan p) (p_killed p) (p_xstate p) (p_pid p) (p_parent p) (p_kstack p) (p_sz p) (p_pagetable p) (p_trapframe p)
    (p_context p) (p_ofile p) (p_cwd p) (p_name p).
Definition with_chan (x : option channel) (p : proc) : proc :=
  Proc (p_state p) x (p_killed p) (p_xstate p) (p_pid p) (p_parent p) (p_kstack p) (p_sz p) (p_pagetable p) (p_trapframe p)
    (p_context p) (p_ofile p) (p_cwd p) (p_name p).
Definition with_killed (x : bool) (p : proc) : proc :=
  Proc (p_state p) (p_chan p) x (p_xstate p) (p_pid p) (p_parent p) (p_kstack p) (p_sz p) (p_pagetable p) (p_trapframe p)
    (p_context p) (p_ofile p) (p_cwd p) (p_name p).
Definition with_xstate (x : Z) (p : proc) : proc :=
  Proc (p_state p) (p_chan p) (p_killed p) x (p_pid p) (p_parent p) (p_kstack p) (p_sz p) (p_pagetable p) (p_trapframe p)
    (p_context p) (p_ofile p) (p_cwd p) (p_name p).
Definition with_pid (x : Z) (p : proc) : proc :=
  Proc (p_state p) (p_chan p) (p_killed p) (p_xstate p) x (p_parent p) (p_kstack p) (p_sz p) (p_pagetable p) (p_trapframe p)
    (p_context p) (p_ofile p) (p_cwd p) (p_name p).
Definition with_parent (x : option nat) (p : proc) : proc :=
  Proc (p_state p) (p_chan p) (p_killed p) (p_xstate p) (p_pid p) x (p_kstack p) (p_sz p) (p_pagetable p) (p_trapframe p)
    (p_context p) (p_ofile p) (p_cwd p) (p_name p).
Definition with_mem (sz pt tf : Z) (p : proc) : proc :=
  Proc (p_state p) (p_chan p) (p_killed p) (p_xstate p) (p_pid p) (p_parent p) (p_kstack p) sz pt tf
    (p_context p) (p_ofile p) (p_cwd p) (p_name p).
Definition with_context (x : context) (p : proc) : proc :=
  Proc (p_state p) (p_chan p) (p_killed p) (p_xstate p) (p_pid p) (p_parent p) (p_kstack p) (p_sz p) (p_pagetable p) (p_trapframe p)
    x (p_ofile p) (p_cwd p) (p_name p).
Definition with_files (o : list (option nat)) (c : option nat) (p : proc) : proc :=
  Proc (p_state p) (p_chan p) (p_killed p) (p_xstate p) (p_pid p) (p_parent p) (p_kstack p) (p_sz p) (p_pagetable p) (p_trapframe p)
    (p_context p) o c (p_name p).
Definition with_name (x : list Z) (p : proc) : proc :=
  Proc (p_state p) (p_chan p) (p_killed p) (p_xstate p) (p_pid p) (p_parent p) (p_kstack p) (p_sz p) (p_pagetable p) (p_trapframe p)
    (p_context p) (p_ofile p) (p_cwd p) x.
Definition with_kstack (x : Z) (p : proc) : proc :=
  Proc (p_state p) (p_chan p) (p_killed p) (p_xstate p) (p_pid p) (p_parent p) x (p_sz p) (p_pagetable p) (p_trapframe p)
    (p_context p) (p_ofile p) (p_cwd p) (p_name p).

(** The statics of the kernel and the running process. *)
Record ksys := KSys {
  kern : kernel;
  procs : list proc;
  nextpid : Z;
  initproc : option nat;
  first : bool;
  me : nat;
}.

Definition set_kern (x : kernel) (s : ksys) : ksys := KSys x (procs s) (nextpid s) (initproc s) (first s) (me s).
Definition set_procs (x : list proc) (s : ksys) : ksys := KSys (kern s) x (nextpid s) (initproc s) (first s) (me s).
Definition set_nextpid (x : Z) (s : ksys) : ksys := KSys (kern s) (procs s) x (initproc s) (first s) (me s).
Definition set_initproc (x : option nat) (s : ksys) : ksys := KSys (kern s) (procs s) (nextpid s) x (first s) (me s).
Definition set_first (x : bool) (s : ksys) : ksys := KSys (kern s) (procs s) (nextpid s) (initproc s) x (me s).

Abbreviation P := (M ksys).

Definition proc_at (p : nat) (s : ksys) : proc := procs s !!! p.
Definition set_proc (p : nat) (f : proc -> proc) : P unit := modify (fun s => set_procs (alter f p (procs s)) s).

Definition pmem_op {A} (m : M kstate A) : P A := lift (fun s => k_mem (kern s)) (fun x s => set_kern (set_kmem x (kern s)) s) m.
Definition pfs_op {A} (m : M (fstate lstate) A) : P A := lift (fun s => k_fs (kern s)) (fun x s => set_kern (set_fs x (kern s)) s) m.

(** A system call of the running process, on its own descriptors and directory. *)
Definition kern_op {A} (m : Kn A) : P A := fun s =>
  let p := proc_at (me s) s in
  match m (set_cwd (default O (p_cwd p)) (set_ofile (p_ofile p) (kern s))) with
  | Done a k => Done a (set_kern k (set_procs (alter (with_files (k_ofile k) ((fun _ => k_cwd k) <$> p_cwd p)) (me s) (procs s)) s))
  | Panic msg => Panic msg
  | Hang => Hang
  end.

Section Proc.
Context `{KernelImage} `{Devices}.
(** The address of [forkret]. *)
Variable forkret_addr : Z.

(** ** Start-up *)

Fixpoint proc_mapstacks_loop (rem : nat) (kpgtbl p : Z) : M kstate unit :=
  match rem with
  | O => mret tt
  | S rem =>
      pa ← kalloc;
      if pa =? 0 then panic "kalloc"
      else kvmmap kpgtbl (KSTACK p) pa PGSIZE (Z.lor PTE_R PTE_W);; proc_mapstacks_loop rem kpgtbl (p + 1)
  end.

Definition proc_mapstacks (kpgtbl : Z) : M kstate unit := proc_mapstacks_loop (Z.to_nat NPROC) kpgtbl 0.

Definition procinit : P unit :=
  modify (fun s => set_procs (imap (fun i p => with_kstack (KSTACK (Z.of_nat i)) (with_state UNUSED p)) (procs s)) s).

(** ** Page tables *)

Definition proc_pagetable (trapframe : Z) : M kstate Z :=
  pagetable ← uvmcreate;
  if pagetable =? 0 then mret 0
  else
    r ← mappages pagetable TRAMPOLINE PGSIZE trampoline (Z.lor PTE_R PTE_X);
    if r <? 0 then uvmfree pagetable 0;; mret 0
    else
      r ← mappages pagetable TRAPFRAME PGSIZE trapframe (Z.lor PTE_R PTE_W);
      if r <? 0 then uvmunmap pagetable TRAMPOLINE 1 false;; uvmfree pagetable 0;; mret 0
      else mret pagetable.

Definition proc_freepagetable (pagetable sz : Z) : M kstate unit :=
  uvmunmap pagetable TRAMPOLINE 1 false;;
  uvmunmap pagetable TRAPFRAME 1 false;;
  uvmfree pagetable sz.

(** ** Allocating and freeing *)

Definition allocpid : P Z :=
  pid ← gets nextpid;
  modify (set_nextpid (s32 (pid + 1)));;
  mret pid.

(** The assignments at the end of [freeproc]. *)
Definition cleared (p : proc) : proc :=
  Proc UNUSED None false 0 0 None (p_kstack p) 0 0 0 (p_context p) (p_ofile p) (p_cwd p) (<[O := 0]> (p_name p)).

Definition freeproc (p : nat) : P unit :=
  x ← gets (proc_at p);
  (if negb (p_trapframe x =? 0) then pmem_op (kfree (p_trapframe x)) else mret tt);;
  (if negb (p_pagetable x =? 0) then pmem_op (proc_freepagetable (p_pagetable x) (p_sz x)) else mret tt);;
  set_proc p cleared.

Fixpoint find_unused (ps : list proc) (k : nat) : option nat :=
  match ps with
  | [] => None
  | p :: ps => if decide (p_state p = UNUSED) then Some k else find_unused ps (S k)
  end.

Definition allocproc : P (option nat) :=
  ps ← gets procs;
  match find_unused ps 0 with
  | None => mret None
  | Some p =>
      pid ← allocpid;
      set_proc p (fun x => with_state USED (with_pid pid x));;
      tf ← pmem_op kalloc;
      set_proc p (fun x => with_mem (p_sz x) (p_pagetable x) tf x);;
      if tf =? 0 then freeproc p;; mret None
      else
        pt ← pmem_op (proc_pagetable tf);
        set_proc p (fun x => with_mem (p_sz x) pt tf x);;
        if pt =? 0 then freeproc p;; mret None
        else
          set_proc p (fun x => with_context (Context forkret_addr (p_kstack x + PGSIZE) (replicate 12 0)) x);;
          mret (Some p)
  end.

(** Offsets in [struct trapframe]. *)
Definition TF_EPC : Z := 24.
Definition TF_SP : Z := 48.
Definition TF_A0 : Z := 112.
Definition TF_SIZE : nat := 288.

(** [safestrcpy(p->name, s, sizeof(p->name))] *)
Definition copy_name (s : reader) (p : proc) : proc := with_name (splice (p_name p) 0 (safestrcpy s 16)) p.

(** The first program: it calls [exec] on /init. *)
Definition initcode : list Z :=
  [0x17; 0x05; 0x00; 0x00; 0x13; 0x05; 0x45; 0x02;
   0x97; 0x05; 0x00; 0x00; 0x93; 0x85; 0x35; 0x02;
   0x93; 0x08; 0x70; 0x00; 0x73; 0x00; 0x00; 0x00;
   0x93; 0x08; 0x20; 0x00; 0x73; 0x00; 0x00; 0x00;
   0xef; 0xf0; 0x9f; 0xff; 0x2f; 0x69; 0x6e; 0x69;
   0x74; 0x00; 0x00; 0x24; 0x00; 0x00; 0x00; 0x00;
   0x00; 0x00; 0x00; 0x00].

(** "initcode" is the name of the process. *)
Definition userinit : P unit :=
  r ← allocproc;
  modify (set_initproc r);;
  match r with
  | None => hang
  | Some p =>
      x ← gets (proc_at p);
      pmem_op (uvmfirst (p_pagetable x) initcode);;
      set_proc p (fun x => with_mem PGSIZE (p_pagetable x) (p_trapframe x) x);;
      pmem_op (write64 (p_trapframe x + TF_EPC) 0);;
      pmem_op (write64 (p_trapframe x + TF_SP) PGSIZE);;
      set_proc p (copy_name (arr [105; 110; 105; 116; 99; 111; 100; 101; 0]));;
      cwd ← pfs_op (namei 0 [47] []);
      set_proc p (fun x => with_state RUNNABLE (with_files (p_ofile x) cwd x))
  end.

(** [n] is the argument of [sbrk], an [int]. *)
Definition growproc (n : Z) : P Z :=
  p ← gets me;
  x ← gets (proc_at p);
  sz ← (if 0 <? n then pmem_op (uvmalloc (p_pagetable x) (p_sz x) (u64 (p_sz x + n)) PTE_W)
        else if n <? 0 then pmem_op (uvmdealloc (p_pagetable x) (p_sz x) (u64 (p_sz x + n)))
        else mret (p_sz x));
  if (0 <? n) && (sz =? 0) then mret (-1)
  else set_proc p (fun x => with_mem sz (p_pagetable x) (p_trapframe x) x);; mret 0.

(** ** sleep and wakeup *)

(** The part of [sleep] up to [sched()], and the part after it. *)
Definition sleep (ch : channel) : P unit :=
  p ← gets me; set_proc p (fun x => with_state SLEEPING (with_chan (Some ch) x)).
Definition sleep_tidy : P unit :=
  p ← gets me; set_proc p (with_chan None).

Definition woken (ch : channel) (x : proc) : proc :=
  if decide (p_state x = SLEEPING /\ p_chan x = Some ch) then with_state RUNNABLE x else x.

Definition wakeup (ch : channel) : P unit :=
  modify (fun s => set_procs (imap (fun i x => if decide (i = me s) then x else woken ch x) (procs s)) s).

Definition yield : P unit := p ← gets me; set_proc p (with_state RUNNABLE).

(** The loop body of [scheduler] for process [p]: whether it was switched to. *)
Definition schedule (p : nat) : P bool :=
  x ← gets (proc_at p);
  if decide (p_state x = RUNNABLE) then set_proc p (with_state RUNNING);; mret true else mret false.

(** The checks of [sched]; [held] is [holding(&p->lock)]. *)
Definition sched (held : bool) (noff : Z) (interruptible : bool) : P unit :=
  p ← gets me;
  x ← gets (proc_at p);
  if negb held then panic "sched p->lock"
  else if negb (noff =? 1) then panic "sched locks"
  else if decide (p_state x = RUNNING) then panic "sched running"
  else if interruptible then panic "sched interruptible"
  else mret tt.

(** ** kill *)

Fixpoint find_pid (ps : list proc) (pid : Z) (k : nat) : option nat :=
  match ps with
  | [] => None
  | p :: ps => if p_pid p =? pid then Some k else find_pid ps pid (S k)
  end.

Definition kill (pid : Z) : P Z :=
  ps ← gets procs;
  match find_pid ps pid 0 with
  | None => mret (-1)
  | Some p =>
      set_proc p (fun x => (if decide (p_state x = SLEEPING) then with_state RUNNABLE else id) (with_killed true x));;
      mret 0
  end.

Definition setkilled (p : nat) : P unit := set_proc p (with_killed true).
Definition killed (p : nat) : P bool := gets (fun s => p_killed (proc_at p s)).

(** ** fork *)

(** [filedup] of the parent's descriptors, from descriptor [i] on. *)
Fixpoint fork_files (np : nat) (os : list (option nat)) (i : nat) : P unit :=
  match os with
  | [] => mret tt
  | None :: os => fork_files np os (S i)
  | Some f :: os =>
      kern_op (filedup f);;
      set_proc np (fun x => with_files (<[i := Some f]> (p_ofile x)) (p_cwd x) x);;
      fork_files np os (S i)
  end.

(** Up to [release(&np->lock)]: the new process, or [None]. *)
Definition fork_alloc : P (option nat) :=
  r ← allocproc;
  match r with
  | None => mret None
  | Some np =>
      p ← gets me;
      x ← gets (proc_at p);
      y ← gets (proc_at np);
      r ← pmem_op (uvmcopy (p_pagetable x) (p_pagetable y) (p_sz x));
      if r <? 0 then freeproc np;; mret None
      else
        set_proc np (fun y => with_mem (p_sz x) (p_pagetable y) (p_trapframe y) y);;
        pmem_op (modify (set_mem (fun m => memmove m (p_trapframe y) (p_trapframe x) TF_SIZE)));;
        pmem_op (write64 (p_trapframe y + TF_A0) 0);;
        fork_files np (p_ofile x) 0;;
        (match p_cwd x with
         | Some ip => pfs_op (idup ip);; set_proc np (fun y => with_files (p_ofile y) (Some ip) y)
         | None => mret tt
         end);;
        set_proc np (copy_name (arr (p_name x)));;
        mret (Some np)
  end.

(** [np->parent = p], under [wait_lock]. *)
Definition fork_parent (np : nat) : P unit := p ← gets me; set_proc np (with_parent (Some p)).

(** [np->state = RUNNABLE], under the lock of [np]. *)
Definition fork_runnable (np : nat) : P unit := set_proc np (with_state RUNNABLE).

Definition fork : P Z :=
  r ← fork_alloc;
  match r with
  | None => mret (-1)
  | Some np =>
      pid ← gets (fun s => p_pid (proc_at np s));
      fork_parent np;;
      fork_runnable np;;
      mret pid
  end.

(** ** exit *)

(** One process of [reparent], and its loop. *)
Definition adopt (p : nat) (i : nat) : P unit :=
  x ← gets (proc_at i);
  if decide (p_parent x = Some p) then
    ip ← gets initproc;
    set_proc i (with_parent ip);;
    (match ip with Some ip => wakeup (ChProc ip) | None => mret tt end)
  else mret tt.

Definition reparent (p : nat) : P unit :=
  n ← gets (fun s => length (procs s)); forM_ (seq 0 n) (adopt p).

(** Closing the descriptors, from [fd] on. *)
Fixpoint exit_files (os : list (option nat)) (fd : nat) : P unit :=
  match os with
  | [] => mret tt
  | None :: os => exit_files os (S fd)
  | Some f :: os =>
      kern_op (fileclose f);;
      p ← gets me;
      set_proc p (fun x => with_files (<[fd := None]> (p_ofile x)) (p_cwd x) x);;
      exit_files os (S fd)
  end.

(** [exit] before it takes [wait_lock]. *)
Definition exit_close : P unit :=
  p ← gets me;
  ip ← gets initproc;
  if decide (ip = Some p) then panic "init exiting"
  else
    x ← gets (proc_at p);
    exit_files (p_ofile x) 0;;
    kern_op (log_op begin_op);;
    (match p_cwd x with Some ip => pfs_op (iput ip) | None => mret tt end);;
    kern_op (log_op end_op);;
    set_proc p (fun x => with_files (p_ofile x) None x).

(** Under [wait_lock], before the process takes its own lock. *)
Definition exit_give : P unit :=
  p ← gets me;
  reparent p;;
  x ← gets (proc_at p);
  match p_parent x with Some pp => wakeup (ChProc pp) | None => mret tt end.

(** Under both locks; [wait_lock] is released after it. *)
Definition exit_zombie (status : Z) : P unit :=
  p ← gets me; set_proc p (fun x => with_state ZOMBIE (with_xstate status x)).

Definition exit (status : Z) : P unit := exit_close;; exit_give;; exit_zombie status.

(** ** wait *)

(** How the scan of the table ends. *)
Inductive wait_result := WReturn (r : Z) | WNone (havekids : bool).

(** The bytes of an [int]. *)
Definition int_bytes (v : Z) : list Z := (fun k => u8 (Z.shiftr (u32 v) (8 * k))) <$> seqZ 0 4.

(** The scan from process [i] on. *)
Fixpoint wait_scan (rem : nat) (addr : Z) (i : nat) (havekids : bool) : P wait_result :=
  match rem with
  | O => mret (WNone havekids)
  | S rem =>
      p ← gets me;
      pp ← gets (proc_at i);
      if decide (p_parent pp = Some p) then
        if decide (p_state pp = ZOMBIE) then
          x ← gets (proc_at p);
          r ← (if negb (addr =? 0) then pmem_op (copyout (p_pagetable x) addr (int_bytes (p_xstate pp))) else mret 0);
          if r <? 0 then mret (WReturn (-1))
          else freeproc i;; mret (WReturn (p_pid pp))
        else wait_scan rem addr (S i) true
      else wait_scan rem addr (S i) havekids
  end.

(** One round of [wait]: [None] when it goes to sleep. *)
Definition wait (addr : Z) : P (option Z) :=
  n ← gets (fun s => length (procs s));
  r ← wait_scan n addr 0 false;
  match r with
  | WReturn r => mret (Some r)
  | WNone havekids =>
      p ← gets me;
      k ← killed p;
      if negb havekids || k then mret (Some (-1)) else mret None
  end.

(** ** The first switch to a process *)

Definition forkret : P unit :=
  f ← gets first;
  if (f : bool) then modify (set_first false);; pfs_op (fsinit ROOTDEV) else mret tt.

(** ** Copying to and from user or kernel memory *)

Definition either_copyout (user_dst : bool) (dst : Z) (src : list Z) : P Z :=
  p ← gets me;
  x ← gets (proc_at p);
  if user_dst then pmem_op (copyout (p_pagetable x) dst src)
  else pmem_op (modify (set_mem (fun m => write_bytes m dst src)));; mret 0.

(** The bytes copied, and the result. *)
Definition either_copyin (user_src : bool) (src len : Z) : P (Z * list Z) :=
  p ← gets me;
  x ← gets (proc_at p);
  if user_src then pmem_op (copyin (p_pagetable x) src len)
  else m ← pmem_op (gets mem); mret (0, (fun k => mget m (src + k)) <$> seqZ 0 len).
End Proc.
