(* ===== verification/ProcConc.v ===== *)
(** * Processes side by side

    The functions of [Proc] cut at the points where another process can run: each piece
    holds the locks the code holds, so pieces follow one another in any order that the
    locks allow.  A process holds its own lock while it changes its state; [wait_lock] is
    held across pieces and is part of the state.  The result: a parent that sleeps in
    [wait] has no zombie child, whatever the interleaving of [fork], [exit], [wait],
    [kill], [sleep], [wakeup] and the scheduler. *)

From S2P Require Import Prelude Mem CString Riscv Kalloc Vm Pipe Block Sleeplock Bio Log Fs FsBlocks File Proc.

(** Where a process is. *)
Inductive pc :=
| PRun
| PSleep                        (** in [sleep], on a channel that is not a process *)
| PForked (np : nat)            (** in [fork], the new process has no parent yet *)
| PParented (np : nat)          (** in [fork], the new process is not runnable yet *)
| PClosed                       (** in [exit], before it takes [wait_lock] *)
| PGave                         (** in [exit], holding [wait_lock], about to become a zombie *)
| PDead
| PWaiting (addr : Z)           (** in [wait], holding [wait_lock], about to sleep *)
| PInWait (addr : Z).           (** in [wait], asleep or woken *)

#[export] Instance pc_inhabited : Inhabited pc := populate PRun.

Record conc := Conc { sys : ksys; pcs : nat -> pc; wlock : option nat }.

Inductive op :=
| OSchedule (p : nat) | OYield (p : nat)
| OSleep (p : nat) (a : Z) | OTidy (p : nat) | OWakeup (p : nat) (a : Z) | OKill (p : nat) (pid : Z)
| OFork (p : nat) | OForkParent (p : nat) | OForkRun (p : nat)
| OClose (p : nat) | OGive (p : nat) | OZombie (p : nat) (status : Z)
| OWait (p : nat) (addr : Z) | OWaitAgain (p : nat) | OWaitSleep (p : nat).

Section Conc.
Context `{KI : KernelImage} `{DV : Devices}.
Variable forkret_addr : Z.

Definition as_proc (p : nat) (s : ksys) : ksys := KSys (kern s) (procs s) (nextpid s) (initproc s) (first s) p.

(** Process [p] is on a CPU. *)
Definition runs (p : nat) (c : conc) : bool := bool_decide (p_state (proc_at p (sys c)) = RUNNING).

(** Run [m] as process [p]; then [p] is at [k a] and [wait_lock] is [l a]. *)
Definition go {A} (c : conc) (p : nat) (m : P A) (k : A -> pc) (l : A -> option nat) : option conc :=
  if runs p c then
    match m (as_proc p (sys c)) with
    | Done a s => Some (Conc s (upd (pcs c) p (k a)) (l a))
    | _ => None
    end
  else None.

Definition wait_pc (addr : Z) (r : option Z) : pc := match r with Some _ => PRun | None => PWaiting addr end.
Definition wait_lock_after (p : nat) (r : option Z) : option nat := match r with Some _ => None | None => Some p end.

Definition cstep (o : op) (c : conc) : option conc :=
  match o with
  | OSchedule p => match schedule p (sys c) with Done true s => Some (Conc s (pcs c) (wlock c)) | _ => None end
  | OYield p => match pcs c p with PRun => go c p yield (fun _ => PRun) (fun _ => wlock c) | _ => None end
  | OSleep p a => match pcs c p with PRun => go c p (sleep (ChOther a)) (fun _ => PSleep) (fun _ => wlock c) | _ => None end
  | OTidy p => match pcs c p with PSleep => go c p sleep_tidy (fun _ => PRun) (fun _ => wlock c) | _ => None end
  | OWakeup p a => match pcs c p with PRun => go c p (wakeup (ChOther a)) (fun _ => PRun) (fun _ => wlock c) | _ => None end
  | OKill p pid => match pcs c p with PRun => go c p (kill pid) (fun _ => PRun) (fun _ => wlock c) | _ => None end
  | OFork p =>
      match pcs c p with
      | PRun =>
          if runs p c then
            match fork_alloc forkret_addr (as_proc p (sys c)) with
            | Done (Some np) s => Some (Conc s (upd (upd (pcs c) np PRun) p (PForked np)) (wlock c))
            | Done None s => Some (Conc s (pcs c) (wlock c))
            | _ => None
            end
          else None
      | _ => None
      end
  | OForkParent p =>
      match pcs c p, wlock c with
      | PForked np, None => go c p (fork_parent np) (fun _ => PParented np) (fun _ => None)
      | _, _ => None
      end
  | OForkRun p => match pcs c p with PParented np => go c p (fork_runnable np) (fun _ => PRun) (fun _ => wlock c) | _ => None end
  | OClose p => match pcs c p with PRun => go c p exit_close (fun _ => PClosed) (fun _ => wlock c) | _ => None end
  | OGive p =>
      match pcs c p, wlock c with
      | PClosed, None => go c p exit_give (fun _ => PGave) (fun _ => Some p)
      | _, _ => None
      end
  | OZombie p status => match pcs c p with PGave => go c p (exit_zombie status) (fun _ => PDead) (fun _ => None) | _ => None end
  | OWait p addr =>
      match pcs c p, wlock c with
      | PRun, None => go c p (wait addr) (wait_pc addr) (wait_lock_after p)
      | _, _ => None
      end
  | OWaitAgain p =>
      match pcs c p, wlock c with
      | PInWait addr, None => go c p (sleep_tidy;; wait addr) (wait_pc addr) (wait_lock_after p)
      | _, _ => None
      end
  | OWaitSleep p => match pcs c p with PWaiting addr => go c p (sleep (ChProc p)) (fun _ => PInWait addr) (fun _ => None) | _ => None end
  end.

Fixpoint crun (os : list op) (c : conc) : option conc :=
  match os with
  | [] => Some c
  | o :: os => match cstep o c with Some c => crun os c | None => None end
  end.

(** ** What the pieces do to the table *)

(** The part of a process other processes look at. *)
Definition core (x : proc) : procstate * option channel * Z * option nat := (p_state x, p_chan x, p_pid x, p_parent x).

(** [f] holds of every process of the table and of the empty one. *)
Definition frame (s s' : ksys) : Prop :=
  length (procs s') = length (procs s) /\ initproc s' = initproc s /\ me s' = me s.

(** The cores of all processes but [p] are the same. *)
Definition same_but (p : nat) (s s' : ksys) : Prop := forall q, q <> p -> core (proc_at q s') = core (proc_at q s).

Definition same_core (s s' : ksys) : Prop :=
  frame s s' /\ nextpid s' = nextpid s /\ forall q, core (proc_at q s') = core (proc_at q s).

Lemma frame_refl s : frame s s.
Proof. done. Qed.

Lemma frame_trans s1 s2 s3 : frame s1 s2 -> frame s2 s3 -> frame s1 s3.
Proof. intros (A1 & A2 & A3) (B1 & B2 & B3). unfold frame. by rewrite B1, B2, B3. Qed.

Lemma same_core_refl s : same_core s s.
Proof. done. Qed.

Lemma same_core_trans s1 s2 s3 : same_core s1 s2 -> same_core s2 s3 -> same_core s1 s3.
Proof.
  intros (A1 & A2 & A3) (B1 & B2 & B3). split; [by apply (frame_trans _ s2)|]. split; [congruence|]. intros q. by rewrite B3.
Qed.

Lemma proc_at_alter p f s q :
  proc_at q (set_procs (alter f p (procs s)) s) =
    if decide (q = p /\ (p < length (procs s))%nat) then f (proc_at p s) else proc_at q s.
Proof.
  unfold proc_at. cbn [procs set_procs]. rewrite !list_lookup_total_alt. destruct (decide (q = p)) as [->|Hne].
  - destruct (procs s !! p) as [x|] eqn:E.
    + rewrite decide_True by (split; [done|by apply lookup_lt_Some in E]). by rewrite list_lookup_alter_eq, E.
    + rewrite decide_False by (intros [_ Hl]; apply lookup_ge_None in E; lia). by rewrite list_lookup_alter_eq, E.
  - rewrite decide_False by (by intros [? _]). by rewrite list_lookup_alter_ne.
Qed.

Lemma frame_alter p f s : frame s (set_procs (alter f p (procs s)) s).
Proof. unfold frame. cbn. by rewrite length_alter. Qed.

Lemma bind_set_proc {A} p f (m : P A) s : (set_proc p f;; m) s = m (set_procs (alter f p (procs s)) s).
Proof. reflexivity. Qed.

(** A process that is not unused is in the table. *)
Lemma in_table p s : p_state (proc_at p s) <> UNUSED -> (p < length (procs s))%nat.
Proof.
  intros Hs. destruct (Nat.lt_ge_cases p (length (procs s))) as [|Hge]; [done|]. exfalso. apply Hs.
  unfold proc_at. rewrite list_lookup_total_alt. apply lookup_ge_None in Hge. by rewrite Hge.
Qed.

Definition keeps_core {A} (m : P A) : Prop := forall s a s', m s = Done a s' -> same_core s s'.

Lemma kc_ret {A} (a : A) : keeps_core (mret a).
Proof. by intros s b s' [= <- <-]. Qed.

Lemma kc_gets {A} (f : ksys -> A) : keeps_core (gets f).
Proof. by intros s b s' [= <- <-]. Qed.

Lemma kc_bind {A B} (m : P A) (k : A -> P B) : keeps_core m -> (forall a, keeps_core (k a)) -> keeps_core (m ≫= k).
Proof.
  intros Hm Hk s b s' (a & s1 & E1 & E2)%bind_done_inv. apply (same_core_trans _ s1); [by apply (Hm s a)|by apply (Hk a s1 b)].
Qed.

Lemma kc_mem {A} (m : M kstate A) : keeps_core (pmem_op m).
Proof. intros s a s'. unfold pmem_op, lift. destruct (m _); try done. by intros [= <- <-]. Qed.

Lemma kc_fs {A} (m : M (fstate lstate) A) : keeps_core (pfs_op m).
Proof. intros s a s'. unfold pfs_op, lift. destruct (m _); try done. by intros [= <- <-]. Qed.

Lemma kc_set p f : (forall x, core (f x) = core x) -> keeps_core (set_proc p f).
Proof.
  intros Hf s a s' [= _ <-]. split; [apply frame_alter|]. split; [done|]. intros q. rewrite proc_at_alter.
  case_decide as E; [|done]. destruct E as [-> _]. apply Hf.
Qed.

Lemma kc_kern {A} (m : Kn A) : keeps_core (kern_op m).
Proof.
  intros s a s'. unfold kern_op. destruct (m _) as [b k| |]; try done. intros [= _ <-].
  pose proof (kc_set (me s) (with_files (k_ofile k) ((fun _ => k_cwd k) <$> p_cwd (proc_at (me s) s))) ltac:(done) s tt _ eq_refl) as H.
  exact H.
Qed.

Lemma kc_panic {A} msg : keeps_core (panic msg : P A).
Proof. done. Qed.

Create HintDb kc.
Hint Resolve kc_ret kc_gets kc_mem kc_fs kc_kern kc_panic : kc.
Hint Extern 4 (keeps_core (_ ≫= _)) => (apply kc_bind; [|intros ?]) : kc.
Hint Extern 4 (keeps_core (set_proc _ _)) => (apply kc_set; done) : kc.
Hint Extern 5 (keeps_core (if ?b then _ else _)) => (destruct b) : kc.
Hint Extern 5 (keeps_core (match ?x with _ => _ end)) => (destruct x) : kc.

Lemma kc_fork_files np os i : keeps_core (fork_files np os i).
Proof. revert i. induction os as [|[f|] os IH]; intros i; cbn [fork_files]; auto with kc. Qed.

Lemma kc_exit_files os fd : keeps_core (exit_files os fd).
Proof. revert fd. induction os as [|[f|] os IH]; intros fd; cbn [exit_files]; auto 10 with kc. Qed.

Lemma kc_exit_close : keeps_core exit_close.
Proof. unfold exit_close. auto 20 using kc_exit_files with kc. Qed.

Lemma kc_run {A} (m : P A) s a s' : m s = Done a s' -> keeps_core m -> same_core s s'.
Proof. intros E Hm. by apply (Hm s a). Qed.

Ltac kc_from E H :=
  pose proof (kc_run _ _ _ _ E) as H;
  match type of H with ?K -> _ => let HK := fresh in assert (HK : K) by auto 10 with kc; specialize (H HK); clear HK end.

(** The effect of [freeproc]. *)
Lemma freeproc_effect p s a s' :
  freeproc p s = Done a s' -> frame s s' /\ nextpid s' = nextpid s /\ same_but p s s' /\
    ((p < length (procs s))%nat -> core (proc_at p s') = (UNUSED, None, 0, None)).
Proof.
  unfold freeproc. rewrite bind_gets. intros (u1 & s1 & E1 & E2)%bind_done_inv.
  kc_from E1 H1.
  apply bind_done_inv in E2 as (u2 & s2 & E2 & E3).
  kc_from E2 H2.
  destruct (same_core_trans _ _ _ H1 H2) as (F & N & C). injection E3 as _ <-.
  split; [apply (frame_trans _ s2); [done|apply frame_alter]|]. split; [done|]. split.
  - intros q Hq. rewrite proc_at_alter, decide_False by (by intros [? _]). apply C.
  - intros Hl. rewrite proc_at_alter, decide_True; [done|]. destruct F as [-> _]. done.
Qed.

(** ** The effect of allocating a process *)

Lemma find_unused_spec ps k p : find_unused ps k = Some p -> (k <= p)%nat /\ exists x, ps !! (p - k)%nat = Some x /\ p_state x = UNUSED.
Proof.
  revert k. induction ps as [|x ps IH]; intros k; cbn [find_unused]; [done|]. case_decide as E.
  - intros [= <-]. split; [lia|]. exists x. by rewrite Nat.sub_diag.
  - intros (H1 & y & H2 & H3)%IH. split; [lia|]. exists y. by replace (p - k)%nat with (S (p - S k)) by lia.
Qed.

(** Only the unused entry [np] changed, and a pid was taken. *)
Definition fresh_proc (s s' : ksys) (np : nat) : Prop :=
  frame s s' /\ same_but np s s' /\ nextpid s' = s32 (nextpid s + 1) /\ p_state (proc_at np s) = UNUSED /\ (np < length (procs s))%nat.

Lemma fresh_keep s s1 s2 np : fresh_proc s s1 np -> same_core s1 s2 -> fresh_proc s s2 np /\ core (proc_at np s2) = core (proc_at np s1).
Proof.
  intros (F & B & N & U & L) (F2 & N2 & C2). split; [|apply C2]. split; [by apply (frame_trans _ s1)|].
  split; [intros q Hq; rewrite C2; by apply B|]. split; [congruence|done].
Qed.

Lemma fresh_free s s1 s2 np a :
  fresh_proc s s1 np -> freeproc np s1 = Done a s2 -> fresh_proc s s2 np /\ core (proc_at np s2) = (UNUSED, None, 0, None).
Proof.
  intros (F & B & N & U & L) (F2 & N2 & B2 & C2)%freeproc_effect. split; [|apply C2; by destruct F as [-> _]].
  split; [by apply (frame_trans _ s1)|]. split; [intros q Hq; rewrite B2 by done; by apply B|]. split; [congruence|done].
Qed.

Definition alloc_result (s s' : ksys) (r : option nat) : Prop :=
  match r with
  | Some np => fresh_proc s s' np /\
      core (proc_at np s') = (USED, p_chan (proc_at np s), nextpid s, p_parent (proc_at np s))
  | None => same_core s s' \/ exists np, fresh_proc s s' np /\ core (proc_at np s') = (UNUSED, None, 0, None)
  end.

Lemma allocproc_effect s r s' : allocproc forkret_addr s = Done r s' -> alloc_result s s' r.
Proof.
  unfold allocproc. rewrite bind_gets. destruct (find_unused (procs s) 0) as [np|] eqn:Ef; [|intros [= <- <-]; by left].
  apply find_unused_spec in Ef as (_ & x & Hx & Hu). rewrite Nat.sub_0_r in Hx.
  assert (Ex : proc_at np s = x) by (by apply list_lookup_total_correct). pose proof (lookup_lt_Some _ _ _ Hx) as Hl.
  unfold allocpid. rewrite bind_assoc, bind_gets, bind_assoc, bind_modify, bind_ret, bind_set_proc.
  set (s1 := set_procs _ _). assert (H1 : fresh_proc s s1 np).
  { split; [unfold frame; cbn; by rewrite length_alter|]. split; [|split; [done|split; [by rewrite Ex|done]]].
    intros q Hq. unfold s1. rewrite proc_at_alter, decide_False by (by intros [? _]). done. }
  assert (C1 : core (proc_at np s1) = (USED, p_chan (proc_at np s), nextpid s, p_parent (proc_at np s))).
  { unfold s1. rewrite proc_at_alter, decide_True by done. done. }
  clearbody s1. intros (tf & s2 & E2 & E)%bind_done_inv. kc_from E2 K2.
  apply bind_done_inv in E as (u3 & s3 & E3 & E). kc_from E3 K3.
  pose proof (same_core_trans _ _ _ K2 K3) as K. destruct (fresh_keep s s1 s3 np H1 K) as [H3 C3]. rewrite C1 in C3.
  destruct (tf =? 0).
  - apply bind_done_inv in E as (u4 & s4 & E4 & [= <- <-]). right. exists np. by apply (fresh_free s s3 _ np u4).
  - apply bind_done_inv in E as (pt & s4 & E4 & E). kc_from E4 K4. apply bind_done_inv in E as (u5 & s5 & E5 & E). kc_from E5 K5.
    destruct (fresh_keep s s3 s5 np H3 (same_core_trans _ _ _ K4 K5)) as [H5 C5]. destruct (pt =? 0).
    + apply bind_done_inv in E as (u6 & s6 & E6 & [= <- <-]). right. exists np. by apply (fresh_free s s5 _ np u6).
    + apply bind_done_inv in E as (u6 & s6 & E6 & [= <- <-]). kc_from E6 K6.
      destruct (fresh_keep s s5 s6 np H5 K6) as [H6 C6]. split; [done|congruence].
Qed.

Lemma fork_alloc_effect s r s' : fork_alloc forkret_addr s = Done r s' -> alloc_result s s' r.
Proof.
  unfold fork_alloc. intros (r1 & s1 & E1 & E)%bind_done_inv. apply allocproc_effect in E1.
  destruct r1 as [np|]; [|by injection E as <- <-]. destruct E1 as [H1 C1]. rewrite !bind_gets in E.
  apply bind_done_inv in E as (r2 & s2 & E2 & E). kc_from E2 K2. destruct (fresh_keep s s1 s2 np H1 K2) as [H2 C2].
  destruct (r2 <? 0).
  - apply bind_done_inv in E as (u3 & s3 & E3 & [= <- <-]). right. exists np. by apply (fresh_free s s2 _ np u3).
  - assert (K : exists r', r = r' /\ same_core s2 s' /\ r' = Some np); [|destruct K as (? & -> & K & ->)].
    { revert E. set (m := _ : P (option nat)). intros E. exists r. split; [done|]. split.
      - apply (kc_run m s2 r s' E). subst m. auto 30 using kc_fork_files with kc.
      - subst m. repeat (apply bind_done_inv in E as (? & ? & _ & E)). by injection E. }
    destruct (fresh_keep s s2 s' np H2 K) as [H3 C3]. split; [done|congruence].
Qed.

(** ** Waking and reparenting *)

(** [q] does not sleep in [wait]. *)
Definition awake (q : nat) (s : ksys) : Prop := ~ (p_state (proc_at q s) = SLEEPING /\ p_chan (proc_at q s) = Some (ChProc q)).

(** Some sleepers were woken; parents aside nothing else changed. *)
Definition woke (s s' : ksys) : Prop :=
  frame s s' /\ nextpid s' = nextpid s /\
  forall q, p_chan (proc_at q s') = p_chan (proc_at q s) /\ p_pid (proc_at q s') = p_pid (proc_at q s) /\
    (p_state (proc_at q s') = p_state (proc_at q s) \/ p_state (proc_at q s) = SLEEPING /\ p_state (proc_at q s') = RUNNABLE).

Lemma woke_refl s : woke s s.
Proof. split; [done|]. split; [done|]. intros q. auto. Qed.

Lemma woke_trans s1 s2 s3 : woke s1 s2 -> woke s2 s3 -> woke s1 s3.
Proof.
  intros (F1 & N1 & W1) (F2 & N2 & W2). split; [by apply (frame_trans _ s2)|]. split; [congruence|]. intros q.
  destruct (W1 q) as (A1 & A2 & A3), (W2 q) as (B1 & B2 & B3). split; [congruence|]. split; [congruence|]. intuition congruence.
Qed.

Lemma woke_awake s s' q : woke s s' -> awake q s -> awake q s'.
Proof. intros (_ & _ & W) Ha [H1 H2]. destruct (W q) as (A1 & _ & A3). apply Ha. split; intuition congruence. Qed.

Lemma woke_running s s' q : woke s s' -> p_state (proc_at q s) = RUNNING -> p_state (proc_at q s') = RUNNING.
Proof. intros (_ & _ & W) Hr. destruct (W q) as (_ & _ & [A|[A _]]); congruence. Qed.

Lemma running_awake q s : p_state (proc_at q s) = RUNNING -> awake q s.
Proof. intros Hr [H _]. congruence. Qed.

Lemma woken_default ch : woken ch (inhabitant : proc) = inhabitant.
Proof. done. Qed.

Lemma wakeup_at ch s q :
  proc_at q (set_procs (imap (fun i x => if decide (i = me s) then x else woken ch x) (procs s)) s) =
    if decide (q = me s) then proc_at q s else woken ch (proc_at q s).
Proof.
  unfold proc_at. cbn [procs set_procs]. rewrite !list_lookup_total_alt, list_lookup_imap.
  destruct (procs s !! q) as [x|]; [done|]. cbn. by destruct (decide (q = me s)).
Qed.

Lemma wakeup_effect ch s a s' :
  wakeup ch s = Done a s' -> woke s s' /\ (forall q, p_parent (proc_at q s') = p_parent (proc_at q s)) /\
    (p_state (proc_at (me s) s) = RUNNING -> forall q, ch = ChProc q -> awake q s').
Proof.
  intros [= _ <-]. split; [|split].
  - split; [unfold frame; cbn; by rewrite length_imap|]. split; [done|]. intros q. rewrite wakeup_at. unfold woken.
    destruct (decide (q = me s)); [auto|]. case_decide as E; [|auto]. destruct E as [E1 E2]. cbn. auto.
  - intros q. rewrite wakeup_at. unfold woken. repeat case_decide; done.
  - intros Hr q -> [H1 H2]. rewrite wakeup_at in H1, H2. destruct (decide (q = me s)) as [->|]; [congruence|].
    unfold woken in H1, H2. case_decide as E; [done|]. by destruct E.
Qed.

(** After [reparent] has gone through the processes of [l]. *)
Definition adopted (p : nat) (l : list nat) (s s' : ksys) : Prop :=
  woke s s' /\
  (forall q, p_parent (proc_at q s') = if decide (q ∈ l /\ p_parent (proc_at q s) = Some p) then initproc s else p_parent (proc_at q s)) /\
  ((exists q, q ∈ l /\ p_parent (proc_at q s) = Some p) -> forall i, initproc s = Some i -> awake i s').

Lemma adopt_effect p i s a s' :
  p_state (proc_at (me s) s) = RUNNING -> (i < length (procs s))%nat -> adopt p i s = Done a s' -> adopted p [i] s s'.
Proof.
  intros Hr Hl. unfold adopt. rewrite bind_gets. case_decide as Ep; cycle 1.
  { intros [= _ <-]. split; [apply woke_refl|]. split.
    - intros q. rewrite decide_False; [done|]. intros [->%list_elem_of_singleton ?]. done.
    - intros (q & ->%list_elem_of_singleton & ?). done. }
  rewrite bind_gets, bind_set_proc. set (s1 := set_procs _ s).
  assert (P1 : forall q, proc_at q s1 = if decide (q = i) then with_parent (initproc s) (proc_at i s) else proc_at q s).
  { intros q. unfold s1. rewrite proc_at_alter. repeat case_decide; try done; naive_solver. }
  assert (W1 : woke s s1).
  { split; [apply frame_alter|]. split; [done|]. intros q. rewrite P1. destruct (decide (q = i)) as [->|]; auto. }
  assert (Pp : forall q, p_parent (proc_at q s1) = if decide (q ∈ [i] /\ p_parent (proc_at q s) = Some p) then initproc s else p_parent (proc_at q s)).
  { intros q. rewrite P1. destruct (decide (q = i)) as [->|Hne].
    - rewrite decide_True; [done|]. split; [by apply list_elem_of_singleton|done].
    - rewrite decide_False; [done|]. by intros [?%list_elem_of_singleton _]. }
  destruct (initproc s) as [ip|] eqn:Ei.
  - intros (W2 & P2 & A2)%wakeup_effect. split; [by apply (woke_trans _ s1)|]. split.
    + intros q. rewrite P2, Pp, Ei. done.
    + rewrite Ei. intros _ j [= <-]. apply A2; [|done]. apply (woke_running s s1); done.
  - intros [= _ <-]. split; [done|]. split; [intros q; rewrite Pp, Ei; done|]. rewrite Ei. done.
Qed.

Lemma adopted_app p l l' s1 s2 s3 :
  (forall q, q ∈ l -> q ∈ l' -> False) -> adopted p l s1 s2 -> adopted p l' s2 s3 -> adopted p (l ++ l') s1 s3.
Proof.
  intros Hd (W1 & P1 & A1) (W2 & P2 & A2). assert (Ei : initproc s2 = initproc s1) by (destruct W1 as ((_ & -> & _) & _); done).
  split; [by apply (woke_trans _ s2)|]. split.
  - intros q. rewrite P2, P1, Ei. destruct (decide (q ∈ l /\ p_parent (proc_at q s1) = Some p)) as [[H1 H2]|H1].
    + rewrite (decide_True (P := q ∈ l ++ l' /\ _)) by (split; [apply elem_of_app; by left|done]).
      case_decide as E; [done|done].
    + destruct (decide (q ∈ l' /\ p_parent (proc_at q s1) = Some p)) as [[H2 H3]|H2].
      * rewrite (decide_True (P := q ∈ l ++ l' /\ _)); [done|]. split; [apply elem_of_app; by right|done].
      * rewrite (decide_False (P := q ∈ l ++ l' /\ _)); [done|]. rewrite elem_of_app. tauto.
  - intros (q & [Hq|Hq]%elem_of_app & Hp) i Hi.
    + apply (woke_awake s2); [done|]. apply A1; [by exists q|done].
    + apply A2; [|congruence]. exists q. split; [done|]. rewrite P1. rewrite decide_False; [done|]. intros [Hq' _]. by apply (Hd q).
Qed.

Lemma adopt_loop p n k s a s' :
  p_state (proc_at (me s) s) = RUNNING -> (k + n <= length (procs s))%nat -> forM_ (seq k n) (adopt p) s = Done a s' ->
  adopted p (seq k n) s s'.
Proof.
  revert k s. induction n as [|n IH]; intros k s Hr Hn; cbn [seq forM_].
  { intros [= _ <-]. split; [apply woke_refl|]. split; [|by intros (q & Hq%elem_of_nil & _)].
    intros q. rewrite decide_False; [done|]. by intros [Hq%elem_of_nil _]. }
  intros (u & s1 & E1 & E2)%bind_done_inv. pose proof (adopt_effect p k s u s1 Hr ltac:(lia) E1) as H1.
  assert (Hm : me s1 = me s) by (destruct H1 as (((_ & _ & ->) & _) & _); done).
  assert (Hlen : length (procs s1) = length (procs s)) by (destruct H1 as (((-> & _) & _) & _); done).
  assert (Hr1 : p_state (proc_at (me s1) s1) = RUNNING) by (rewrite Hm; apply (woke_running s s1); [apply H1|done]).
  apply (adopted_app p [k] (seq (S k) n) s s1 s').
  - intros q ->%list_elem_of_singleton Hq. apply list_elem_of_In, in_seq in Hq. lia.
  - done.
  - apply IH; [done|lia|done].
Qed.

(** Out of the table there is nothing. *)
Lemma out_of_table p s : (length (procs s) <= p)%nat -> proc_at p s = inhabitant.
Proof. intros Hl. unfold proc_at. rewrite list_lookup_total_alt. apply lookup_ge_None in Hl. by rewrite Hl. Qed.

Lemma exit_give_effect s a s' :
  p_state (proc_at (me s) s) = RUNNING -> exit_give s = Done a s' ->
  woke s s' /\
  (forall q, p_parent (proc_at q s') = if decide (p_parent (proc_at q s) = Some (me s)) then initproc s else p_parent (proc_at q s)) /\
  ((exists q, p_parent (proc_at q s) = Some (me s)) -> forall i, initproc s = Some i -> awake i s') /\
  (forall pp, p_parent (proc_at (me s) s') = Some pp -> awake pp s').
Proof.
  intros Hr. unfold exit_give. rewrite bind_gets. intros (u & s1 & E1 & E)%bind_done_inv. unfold reparent in E1. rewrite bind_gets in E1.
  destruct (adopt_loop (me s) (length (procs s)) 0 s u s1 Hr ltac:(lia) E1) as (W1 & P1 & A1).
  assert (Hm : me s1 = me s) by (destruct W1 as ((_ & _ & ->) & _); done).
  assert (P1' : forall q, p_parent (proc_at q s1) = if decide (p_parent (proc_at q s) = Some (me s)) then initproc s else p_parent (proc_at q s)).
  { intros q. rewrite P1. destruct (Nat.lt_ge_cases q (length (procs s))) as [Hl|Hl].
    - assert (q ∈ seq 0 (length (procs s))) by (apply list_elem_of_In, in_seq; lia). repeat case_decide; naive_solver.
    - rewrite (out_of_table q s Hl). repeat case_decide; naive_solver. }
  assert (Hr1 : p_state (proc_at (me s1) s1) = RUNNING) by (rewrite Hm; by apply (woke_running s s1)).
  assert (A1' : (exists q, p_parent (proc_at q s) = Some (me s)) -> forall i, initproc s = Some i -> awake i s1).
  { intros (q & Hq). apply A1. exists q. split; [|done]. apply list_elem_of_In, in_seq. split; [lia|].
    destruct (Nat.lt_ge_cases q (length (procs s))) as [Hl|Hl]; [lia|]. by rewrite (out_of_table q s Hl) in Hq. }
  rewrite bind_gets in E. destruct (p_parent (proc_at (me s) s1)) as [pp|] eqn:Epp.
  - apply wakeup_effect in E as (W2 & P2 & A2). split; [by apply (woke_trans _ s1)|].
    split; [intros q; by rewrite P2|]. split; [intros Hc i Hi; apply (woke_awake s1); [done|by apply A1']|].
    intros pp'. rewrite P2, Epp. intros [= <-]. by apply A2.
  - injection E as _ <-. split; [done|]. split; [done|]. split; [done|]. congruence.
Qed.

(** ** The scan of [wait] *)

Lemma wait_scan_effect rem addr i kids s r s' :
  wait_scan rem addr i kids s = Done r s' ->
  match r with
  | WNone _ => same_core s s' /\ forall q, (i <= q < i + rem)%nat -> p_parent (proc_at q s) = Some (me s) -> p_state (proc_at q s) <> ZOMBIE
  | WReturn _ => same_core s s' \/ exists q, p_state (proc_at q s) = ZOMBIE /\ frame s s' /\ nextpid s' = nextpid s /\ same_but q s s' /\
      core (proc_at q s') = (UNUSED, None, 0, None)
  end.
Proof.
  revert i kids. induction rem as [|rem IH]; intros i kids; cbn [wait_scan].
  { intros [= <- <-]. split; [done|]. lia. }
  rewrite !bind_gets. case_decide as Ep; [case_decide as Ez|].
  - rewrite bind_gets. intros (x & s1 & E1 & E)%bind_done_inv. kc_from E1 K1. destruct (x <? 0); [injection E as <- <-; by left|].
    apply bind_done_inv in E as (u & s2 & E2 & E). injection E as <- <-. right. exists i. split; [done|].
    apply freeproc_effect in E2 as (F2 & N2 & B2 & C2). destruct K1 as (F1 & N1 & C1).
    split; [by apply (frame_trans _ s1)|]. split; [congruence|]. split; [intros q Hq; by rewrite B2, C1|].
    apply C2. destruct F1 as [-> _]. apply in_table. rewrite Ez. done.
  - intros E%IH. destruct r as [r|k]; [done|]. destruct E as [K Hz]. split; [done|]. intros q Hq Hp.
    destruct (decide (q = i)) as [->|]; [done|]. apply Hz; [lia|done].
  - intros E%IH. destruct r as [r|k]; [done|]. destruct E as [K Hz]. split; [done|]. intros q Hq Hp.
    destruct (decide (q = i)) as [->|]; [done|]. apply Hz; [lia|done].
Qed.

Lemma wait_effect addr s r s' :
  wait addr s = Done r s' ->
  match r with
  | None => same_core s s' /\ forall q, p_parent (proc_at q s) = Some (me s) -> p_state (proc_at q s) <> ZOMBIE
  | Some _ => same_core s s' \/ exists q, p_state (proc_at q s) = ZOMBIE /\ frame s s' /\ nextpid s' = nextpid s /\ same_but q s s' /\
      core (proc_at q s') = (UNUSED, None, 0, None)
  end.
Proof.
  unfold wait. rewrite bind_gets. intros (w & s1 & E1 & E)%bind_done_inv. apply wait_scan_effect in E1. destruct w as [v|k].
  - by injection E as <- <-.
  - destruct E1 as [K Hz]. rewrite bind_gets in E. unfold killed in E. rewrite bind_gets in E.
    destruct (negb k || _); injection E as <- <-; [by left|]. split; [done|]. intros q Hp.
    destruct (Nat.lt_ge_cases q (length (procs s))) as [Hl|Hl]; [apply Hz; [lia|done]|]. by rewrite (out_of_table q s Hl).
Qed.

Lemma userinit_effect s a s' :
  userinit forkret_addr s = Done a s' -> exists np,
    (forall q, q <> np -> core (proc_at q s') = core (proc_at q s)) /\ p_state (proc_at np s) = UNUSED /\
      p_state (proc_at np s') = RUNNABLE /\ p_pid (proc_at np s') = nextpid s /\ nextpid s' = s32 (nextpid s + 1).
Proof.
  unfold userinit. intros (r & s1 & E1 & E)%bind_done_inv. apply allocproc_effect in E1. rewrite bind_modify in E.
  destruct r as [np|]; [|done]. cbn [alloc_result] in E1. destruct E1 as [F C1]. exists np.
  rewrite bind_gets in E. apply bind_done_inv in E as (u1 & s2 & E2 & E). kc_from E2 K2. clear E2.
  apply bind_done_inv in E as (u2 & s3 & E3 & E). kc_from E3 K3. clear E3.
  apply bind_done_inv in E as (u3 & s4 & E4 & E). kc_from E4 K4. clear E4.
  apply bind_done_inv in E as (u4 & s5 & E5 & E). kc_from E5 K5. clear E5.
  apply bind_done_inv in E as (u5 & s6 & E6 & E). kc_from E6 K6. clear E6.
  apply bind_done_inv in E as (cwd & s7 & E7 & E). kc_from E7 K7. clear E7.
  injection E as _ E.
  assert (K : same_core (set_initproc (Some np) s1) s7) by (eapply same_core_trans; [|exact K7]; eapply same_core_trans; [|exact K6];
    eapply same_core_trans; [|exact K5]; eapply same_core_trans; [|exact K4]; eapply same_core_trans; [exact K2|exact K3]).
  clear K2 K3 K4 K5 K6 K7. destruct F as (Ff & B & Nx & Hu & Hin), K as (Kf & Kn & Kc). rewrite <- E. clear E.
  assert (Hin7 : (np < length (procs s7))%nat).
  { destruct Ff as (L1 & _), Kf as (L2 & _). rewrite L2. change (procs (set_initproc (Some np) s1)) with (procs s1). by rewrite L1. }
  split; [|split; [done|]].
  - intros q Hq. rewrite proc_at_alter, decide_False by tauto. rewrite Kc. apply (B q Hq).
  - rewrite proc_at_alter, decide_True by done. specialize (Kc np). change (proc_at np (set_initproc (Some np) s1)) with (proc_at np s1) in Kc.
    rewrite C1 in Kc. unfold core in Kc. injection Kc as K1 K2 K3 K4. cbn. rewrite Kn. done.
Qed.
End Conc.
