(* ===== verification/ProcProps.v ===== *)
(** * Waiting for children

    The invariant of the process table under every interleaving, and what it gives: no
    parent sleeps in [wait] with a zombie child, and pids are unique. *)

From S2P Require Import Prelude Mem CString Riscv Kalloc Vm RingbufK RingbufMap Demo Pipe Block Sleeplock Bio Log Fs FsBlocks File Proc ProcConc.

(** The process holds [wait_lock]. *)
Definition holds (k : pc) : Prop := match k with PGave | PWaiting _ => True | _ => False end.

(** The process it is making. *)
Definition forking (k : pc) : option nat := match k with PForked np | PParented np => Some np | _ => None end.

Abbreviation state_of q s := (p_state (proc_at q s)).
Abbreviation parent_of q s := (p_parent (proc_at q s)).
Abbreviation pid_of q s := (p_pid (proc_at q s)).

(** Neither making a process nor in [wait] nor holding [wait_lock]. *)
Definition plain (k : pc) : Prop := match k with PRun | PSleep | PClosed | PDead => True | _ => False end.

Lemma plain_inv k : plain k -> ~ holds k /\ forking k = None /\ forall a, k <> PInWait a.
Proof. by destruct k; cbn; intuition. Qed.

(** Running, ready to run, or asleep on its own channel. *)
Definition waitish (q : nat) (s : ksys) : Prop :=
  state_of q s = RUNNING \/ state_of q s = RUNNABLE \/ state_of q s = SLEEPING /\ p_chan (proc_at q s) = Some (ChProc q).

Record conc_ok (c : conc) : Prop := {
  co_sleep : forall p q, ~ awake p (sys c) -> parent_of q (sys c) = Some p -> state_of q (sys c) <> ZOMBIE;
  co_lock : forall p, wlock c = Some p <-> holds (pcs c p);
  co_run : forall p, wlock c = Some p -> state_of p (sys c) = RUNNING;
  co_gave : forall p pp, pcs c p = PGave -> parent_of p (sys c) = Some pp -> awake pp (sys c);
  co_wait : forall p a q, pcs c p = PWaiting a -> parent_of q (sys c) = Some p -> state_of q (sys c) <> ZOMBIE;
  co_new : forall p np, forking (pcs c p) = Some np -> state_of np (sys c) = USED;
  co_inj : forall p q np, forking (pcs c p) = Some np -> forking (pcs c q) = Some np -> p = q;
  co_inwait : forall p a, pcs c p = PInWait a -> waitish p (sys c);
}.

(** Pids below [n] have been given out. *)
Record pids_ok (n : Z) (s : ksys) : Prop := {
  pi_next : 0 < nextpid s <= n;
  pi_range : forall p, state_of p s <> UNUSED -> 0 < pid_of p s < nextpid s;
  pi_uniq : forall p q, state_of p s <> UNUSED -> state_of q s <> UNUSED -> pid_of p s = pid_of q s -> p = q;
}.

(** Steps of process [p] that neither make zombies nor put anybody to sleep in [wait];
    [x] is the process that becomes runnable at the end of a [fork]. *)
Record calm (p x : nat) (s s' : ksys) : Prop := {
  ca_parent : forall q r, parent_of q s' = Some r -> parent_of q s = Some r;
  ca_pid : forall q, state_of q s' <> UNUSED -> pid_of q s' = pid_of q s;
  ca_zombie : forall q, state_of q s' = ZOMBIE -> state_of q s = ZOMBIE;
  ca_unused : forall q, state_of q s = UNUSED -> state_of q s' = UNUSED;
  ca_awake : forall q, awake q s -> awake q s';
  ca_used : forall q, q <> x -> state_of q s = USED -> state_of q s' = USED;
  ca_run : forall q, q <> p -> state_of q s = RUNNING -> state_of q s' = RUNNING;
  ca_wait : forall q, q <> p -> waitish q s -> waitish q s';
}.

Lemma calm_pids n n' p x s s' : calm p x s s' -> nextpid s <= nextpid s' <= n' -> pids_ok n s -> pids_ok n' s'.
Proof.
  intros [] Hn [H1 H2 H3].
  assert (Hu : forall q, state_of q s' <> UNUSED -> state_of q s <> UNUSED) by (intros q Hq E; auto). split; [lia| |].
  - intros q Hq. rewrite ca_pid0 by done. specialize (H2 q (Hu q Hq)). lia.
  - intros q r Hq Hr. rewrite !ca_pid0 by done. apply H3; auto.
Qed.

Lemma calm_ok c s' p x k pcs' :
  conc_ok c -> calm p x (sys c) s' -> ~ holds (pcs c p) -> ~ holds k ->
  (forall q, pcs' q = upd (pcs c) p k q) -> forking k = None \/ k = pcs c p -> (forall a, k = PInWait a -> waitish p s') ->
  (forall q np, forking (pcs' q) = Some np -> np <> x) -> conc_ok (Conc s' pcs' (wlock c)).
Proof.
  intros [I1 I2 I3 I4 I5 I6 I7 I8] [] Hp Hk Hpc Hfk Hkw Hx.
  assert (Hh : forall q, holds (pcs' q) <-> holds (pcs c q)).
  { intros q. rewrite Hpc. unfold upd. case_decide as E; [subst q; tauto|done]. }
  assert (Hs : forall q, holds (pcs' q) -> q <> p /\ pcs c q = pcs' q).
  { intros q Hq. assert (q <> p) by (intros ->; by apply Hp, Hh). split; [done|]. rewrite Hpc. unfold upd. by rewrite decide_False. }
  assert (Hf : forall q np, forking (pcs' q) = Some np -> forking (pcs c q) = Some np).
  { intros q np. rewrite Hpc. unfold upd. case_decide as E; [|done]. subst q. destruct Hfk as [->| ->]; done. }
  split; cbn [sys pcs wlock].
  - intros q r Ha Hr Hz. apply (I1 q r); auto.
  - intros q. by rewrite I2, Hh.
  - intros q Hq. assert (Hq' : holds (pcs' q)) by (by apply Hh, I2). apply ca_run0; [by apply Hs|by apply I3].
  - intros q pp Hq Hpp. destruct (Hs q) as [_ E]; [by rewrite Hq|]. apply ca_awake0, (I4 q); [congruence|auto].
  - intros q a r Hq Hr Hz. destruct (Hs q) as [_ E]; [by rewrite Hq|]. apply (I5 q a r); [congruence|auto|auto].
  - intros q np Hq. apply ca_used0; [by apply (Hx q)|]. apply (I6 q); auto.
  - intros q r np Hq Hr. apply (I7 q r np); auto.
  - intros q a. rewrite Hpc. unfold upd. case_decide as E; [subst; apply Hkw|]. intros Hq. apply ca_wait0; [done|by apply (I8 q a)].
Qed.

(** The process a step [x] concerns is nobody's new process. *)
Lemma not_new c x q np : conc_ok c -> state_of x (sys c) <> USED -> forking (pcs c q) = Some np -> np <> x.
Proof. intros Hok Hx Hq ->. by apply Hx, (co_new _ Hok q). Qed.

Lemma same_core_at s s' q : same_core s s' ->
  state_of q s' = state_of q s /\ p_chan (proc_at q s') = p_chan (proc_at q s) /\ pid_of q s' = pid_of q s /\ parent_of q s' = parent_of q s.
Proof. intros (_ & _ & C). specialize (C q). unfold core in C. by injection C. Qed.

Lemma same_core_calm p x s s' : same_core s s' -> calm p x s s'.
Proof.
  intros K. pose proof (fun q => same_core_at s s' q K) as C.
  split; intros q; destruct (C q) as (E1 & E2 & E3 & E4); unfold awake, waitish; rewrite ?E1, ?E2, ?E4; done.
Qed.

Lemma woke_calm p x s s' : woke s s' -> (forall q, parent_of q s' = parent_of q s) -> calm p x s s'.
Proof.
  intros (_ & _ & W) Hp. split; intros q; destruct (W q) as (E1 & E2 & E3); unfold waitish; rewrite ?Hp; try done; try (intuition congruence).
  intros Ha [H1 H2]. apply Ha. split; intuition congruence.
Qed.

(** Who runs does not matter. *)
Lemma calm_as p x y s s' : calm p x (as_proc y s) s' -> calm p x s s'.
Proof. intros []. by split. Qed.

(** A process that goes, or that was made and is gone again. *)
Lemma gone_calm p x s s' q :
  same_but q s s' -> core (proc_at q s') = (UNUSED, None, 0, None) -> state_of q s = ZOMBIE \/ state_of q s = UNUSED -> calm p x s s'.
Proof.
  intros B E Hq. unfold core in E. injection E as E1 E2 E3 E4.
  split; intros r; (destruct (decide (r = q)) as [->|Hne]; [|specialize (B r Hne); unfold core in B; injection B as B1 B2 B3 B4]); unfold awake, waitish; try congruence; intuition congruence.
Qed.

(** One process changes state; it is on no process channel afterwards. *)
Lemma alter_calm p x y f s :
  (forall z, p_parent (f z) = p_parent z /\ p_pid (f z) = p_pid z) ->
  (y = x \/ state_of y s <> USED) -> (y = p \/ state_of y s <> RUNNING /\ p_state (f (proc_at y s)) = RUNNABLE) ->
  state_of y s <> UNUSED -> p_state (f (proc_at y s)) <> ZOMBIE ->
  ~ (p_state (f (proc_at y s)) = SLEEPING /\ p_chan (f (proc_at y s)) = Some (ChProc y)) ->
  calm p x s (set_procs (alter f y (procs s)) s).
Proof.
  intros Hf Hx Hp Hu Hz Ha. destruct (Hf (proc_at y s)) as [F1 F2].
  split; intros q; unfold awake, waitish; rewrite proc_at_alter; destruct (decide (q = y /\ _)) as [[-> _]|]; try done; try congruence; intuition congruence.
Qed.

(** Who holds [wait_lock] is running. *)
Lemma holds_running c p : conc_ok c -> holds (pcs c p) -> state_of p (sys c) = RUNNING.
Proof. intros Hok Hp. apply (co_run _ Hok), (co_lock _ Hok), Hp. Qed.

Lemma no_holder c p : conc_ok c -> wlock c = None -> ~ holds (pcs c p).
Proof. intros Hok Hl Hp%(co_lock _ Hok). congruence. Qed.

Section Steps.
Context `{KI : KernelImage} `{DV : Devices}.
Variable forkret_addr : Z.

(** [c'] is a good state too, with at most one more pid given out. *)
Definition good (n : Z) (c : conc) : Prop := conc_ok c /\ pids_ok n (sys c).

Lemma pids_mono n s : pids_ok n s -> pids_ok (n + 1) s.
Proof. intros []. split; [lia|done|done]. Qed.

(** A running process takes a calm step. *)
Lemma step_calm n c p x k s' :
  good n c -> state_of p (sys c) = RUNNING -> calm p x (sys c) s' -> nextpid s' = nextpid (sys c) ->
  ~ holds (pcs c p) -> plain k ->
  (state_of x (sys c) <> USED \/ forking (pcs c p) = Some x) -> good n (Conc s' (upd (pcs c) p k) (wlock c)).
Proof.
  intros [Hok Hpi] Hr Hc Hn Hp (Hk & Hf & Hw)%plain_inv Hx. split; [|cbn; apply (calm_pids n n p x (sys c)); [done| |done]; destruct Hpi; lia].
  apply (calm_ok c s' p x k); auto; [intros a ->; by destruct (Hw a)|]. intros q np. unfold upd. case_decide as E; [congruence|]. intros Hq ->.
  destruct Hx as [Hx|Hx]; [by apply Hx, (co_new _ Hok q)|]. apply E, (co_inj _ Hok q p x); done.
Qed.

Lemma go_inv {A} c p (m : P A) k l c' : go c p m k l = Some c' ->
  state_of p (sys c) = RUNNING /\ exists a s', m (as_proc p (sys c)) = Done a s' /\ c' = Conc s' (upd (pcs c) p (k a)) (l a).
Proof.
  unfold go, runs. case_bool_decide as E; [|done]. destruct (m _) as [a s'| |]; try done. intros [= <-]. split; [done|]. by exists a, s'.
Qed.

Lemma set_proc_run p f s a s' : set_proc p f s = Done a s' -> s' = set_procs (alter f p (procs s)) s.
Proof. by intros [= _ <-]. Qed.

(** ** Each kind of step *)

Ltac alter_step p := apply alter_calm; cbn; auto; try congruence; try (intros []; congruence).

Lemma schedule_good n c p s : good n c -> schedule p (sys c) = Done true s -> good n (Conc s (pcs c) (wlock c)).
Proof.
  intros [Hok Hpi]. unfold schedule. rewrite bind_gets. case_decide as Hr; [|done]. rewrite bind_set_proc. intros [= <-].
  set (s' := set_procs _ _). assert (Hc : calm p p (sys c) s') by (alter_step p). split.
  - apply (calm_ok c s' p p (pcs c p)); auto.
    + intros Hh%(holds_running c); [congruence|done].
    + intros Hh%(holds_running c); [congruence|done].
    + intros q. unfold upd. case_decide; by subst.
    + intros a _. left. unfold s'. rewrite proc_at_alter, decide_True; [done|]. split; [done|]. apply in_table. congruence.
    + intros q np. apply not_new; [done|congruence].
  - apply (calm_pids n n p p (sys c)); [done| |done]. destruct Hpi. cbn. lia.
Qed.

(** The steps that change the process's own entry, or wake others. *)
Lemma own_good n c p k s' :
  good n c -> state_of p (sys c) = RUNNING -> calm p p (sys c) s' -> nextpid s' = nextpid (sys c) ->
  ~ holds (pcs c p) -> plain k -> good n (Conc s' (upd (pcs c) p k) (wlock c)).
Proof. intros ? Hr ? ? ? ?. apply (step_calm n c p p); auto. left. congruence. Qed.

Lemma kill_effect p pid s a s' : state_of p s = RUNNING -> kill pid s = Done a s' -> calm p p s s' /\ nextpid s' = nextpid s.
Proof.
  intros Hp. unfold kill. rewrite bind_gets. destruct (find_pid _ _ _) as [y|].
  - rewrite bind_set_proc. intros [= _ <-]. split; [|done]. destruct (decide (state_of y s = SLEEPING)) as [Hs|Hs].
    + set (f := fun x : proc => _). assert (Hf : f (proc_at y s) = with_state RUNNABLE (with_killed true (proc_at y s))).
      { unfold f. by rewrite decide_True. }
      assert (Hz : forall z, p_parent (f z) = p_parent z /\ p_pid (f z) = p_pid z) by (intros z; unfold f; by case_decide).
      apply alter_calm; rewrite ?Hf; cbn; auto; try congruence; try (intros []; congruence); right; first [congruence|split; [congruence|done]].
    + apply same_core_calm. split; [apply frame_alter|]. split; [done|]. intros q. rewrite proc_at_alter.
      case_decide as E; [|done]. destruct E as [-> _]. by rewrite decide_False.
  - intros [= _ <-]. split; [|done]. by apply same_core_calm.
Qed.

Lemma wait_good n c p addr r s' :
  good n c -> state_of p (sys c) = RUNNING -> wlock c = None -> forking (pcs c p) = None ->
  wait addr (as_proc p (sys c)) = Done r s' ->
  good n (Conc s' (upd (pcs c) p (wait_pc addr r)) (wait_lock_after p r)).
Proof.
  intros Hg Hr Hl Hf E. pose proof Hg as [Hok Hpi]. pose proof (no_holder c p Hok Hl) as Hh. apply wait_effect in E. destruct r as [r|].
  - cbn [wait_pc wait_lock_after]. rewrite <- Hl. destruct E as [E|(q & Hq & Hfr & Hn & B & E)].
    + apply own_good; auto; [|apply E|done]. apply (same_core_calm p p) in E. by destruct E; split.
    + apply own_good; auto; [|done]. assert (Hc : calm p p (as_proc p (sys c)) s') by (eapply gone_calm; eauto). by destruct Hc; split.
  - destruct E as [E Hz]. cbn [wait_pc wait_lock_after].
    assert (Hc : calm p p (sys c) s') by (apply (same_core_calm p p) in E; by destruct E; split).
    assert (Hrun : state_of p s' = RUNNING) by (by rewrite (proj1 (same_core_at _ _ p E))).
    assert (Hpids : pids_ok n s').
    { apply (calm_pids n n p p (sys c)); [done| |done]. destruct E as (_ & En & _). rewrite En. destruct Hpi; cbn; lia. }
    split; [|done]. destruct Hok as [I1 I2 I3 I4 I5 I6 I7 I8], Hc. split; cbn [sys pcs wlock].
    + intros q t Ha Ht HZ. apply (I1 q t); auto.
    + intros q. unfold upd. case_decide as Eq; [subst q; done|]. rewrite <- I2, Hl. split; congruence.
    + intros q [= <-]. done.
    + intros q pp. unfold upd. case_decide as Eq; [done|]. intros Hq. exfalso. assert (Hq' : wlock c = Some q) by (apply I2; by rewrite Hq). congruence.
    + intros q a t. unfold upd. case_decide as Eq.
      * intros _ Ht HZ. subst q. apply (Hz t); [by apply ca_parent0|by apply ca_zombie0].
      * intros Hq. exfalso. assert (Hq' : wlock c = Some q) by (apply I2; by rewrite Hq). congruence.
    + intros q np. unfold upd. case_decide as Eq; [done|]. intros Hq. apply ca_used0; [|by apply (I6 q)]. intros ->. specialize (I6 q p Hq). congruence.
    + intros q t np. unfold upd. repeat case_decide; try done. apply I7.
    + intros q a. unfold upd. case_decide as Eq; [done|]. intros Hq. apply ca_wait0; [done|by apply (I8 q a)].
Qed.

(** [fork] takes the slot [np]: the new process is nobody's child yet. *)
Record took (np : nat) (s s' : ksys) : Prop := {
  tk_free : state_of np s = UNUSED;
  tk_used : state_of np s' = USED;
  tk_pid : pid_of np s' = nextpid s;
  tk_next : nextpid s' = s32 (nextpid s + 1);
  tk_parent : forall q, parent_of q s' = parent_of q s;
  tk_same : forall q, q <> np -> state_of q s' = state_of q s /\ p_chan (proc_at q s') = p_chan (proc_at q s) /\ pid_of q s' = pid_of q s;
}.

Lemma fresh_took p np s s' :
  fresh_proc (as_proc p s) s' np -> core (proc_at np s') = (USED, p_chan (proc_at np s), nextpid s, parent_of np s) -> took np s s'.
Proof.
  intros (_ & B & Nx & Hu & _) E. unfold core in E. injection E as E1 E2 E3 E4. split; try done; intros q.
  - destruct (decide (q = np)) as [->|Hq]; [done|]. specialize (B q Hq). unfold core in B. by injection B.
  - intros Hq. specialize (B q Hq). unfold core in B. by injection B.
Qed.

Lemma took_zombie np s s' q : took np s s' -> state_of q s' = ZOMBIE -> state_of q s = ZOMBIE.
Proof. intros []. destruct (decide (q = np)) as [->|Hq]; [congruence|]. by rewrite (proj1 (tk_same0 q Hq)). Qed.

Lemma took_awake np s s' q : took np s s' -> awake q s -> awake q s'.
Proof.
  intros []. unfold awake. destruct (decide (q = np)) as [->|Hq]; [intros _ []; congruence|].
  by destruct (tk_same0 q Hq) as (-> & -> & _).
Qed.

Lemma took_pids n np s s' : took np s s' -> n + 1 < 2 ^ 31 -> pids_ok n s -> pids_ok (n + 1) s'.
Proof.
  intros [] Hn [J1 J2 J3]. assert (En : nextpid s' = nextpid s + 1) by (rewrite tk_next0; apply s32_small; lia).
  assert (Ho : forall q, q <> np -> state_of q s' <> UNUSED -> state_of q s <> UNUSED /\ pid_of q s' = pid_of q s /\ pid_of q s < nextpid s).
  { intros q Hq Hu. destruct (tk_same0 q Hq) as (E & _ & E'). specialize (J2 q ltac:(congruence)). split; [congruence|lia]. }
  split.
  - lia.
  - intros q Hq. destruct (decide (q = np)) as [->|Hne]; [lia|]. destruct (Ho q Hne Hq) as (Hu & -> & _). specialize (J2 q Hu). lia.
  - intros q t Hq Ht. destruct (decide (q = np)) as [->|Hne], (decide (t = np)) as [->|Hne']; [done| | |].
    + destruct (Ho t Hne' Ht) as (_ & -> & ?). lia.
    + destruct (Ho q Hne Hq) as (_ & -> & ?). lia.
    + destruct (Ho q Hne Hq) as (? & -> & _), (Ho t Hne' Ht) as (? & -> & _). by apply J3.
Qed.

Lemma took_ok c p np s' :
  conc_ok c -> took np (sys c) s' -> state_of p (sys c) = RUNNING -> pcs c p = PRun ->
  conc_ok (Conc s' (upd (upd (pcs c) np PRun) p (PForked np)) (wlock c)).
Proof.
  intros Hok Ht Hr Hpc. pose proof (fun q => took_zombie _ _ _ q Ht) as Hz. pose proof (fun q => took_awake _ _ _ q Ht) as Ha.
  destruct Hok as [I1 I2 I3 I4 I5 I6 I7 I8], Ht. assert (Hnp : np <> p) by congruence.
  set (pcs' := upd _ p _).
  assert (Hk : forall q, holds (pcs' q) <-> holds (pcs c q)).
  { intros q. unfold pcs', upd. case_decide; [subst; by rewrite Hpc|]. case_decide; [|done]. subst. split; [done|].
    intros Hh%I2%I3. congruence. }
  assert (Hkeep : forall q, holds (pcs' q) -> pcs c q = pcs' q).
  { intros q. unfold pcs', upd. repeat case_decide; done. }
  assert (Hf : forall q m, forking (pcs' q) = Some m -> q = p /\ m = np \/ q <> p /\ forking (pcs c q) = Some m /\ m <> np).
  { intros q m. unfold pcs', upd. case_decide; [intros [= <-]; by left|]. case_decide; [done|]. intros Hq. right. split; [done|].
    split; [done|]. intros ->. specialize (I6 q np Hq). congruence. }
  split; cbn [sys pcs wlock].
  - intros q t Hq. rewrite tk_parent0. intros Ht HZ. apply (I1 q t); auto.
  - intros q. by rewrite I2, Hk.
  - intros q Hq. assert (q <> np) by (intros ->; specialize (I3 np Hq); congruence). destruct (tk_same0 q) as [-> _]; [done|]. by apply I3.
  - intros q pp Hq. rewrite tk_parent0. intros Hpp. apply Ha, (I4 q); [|done]. rewrite (Hkeep q); [done|by rewrite Hq].
  - intros q a t Hq. rewrite tk_parent0. intros Ht HZ. apply (I5 q a t); [|done|auto]. rewrite (Hkeep q); [done|by rewrite Hq].
  - intros q m [[-> ->]|(Hq & Hm & Hne)]%Hf; [done|]. destruct (tk_same0 m Hne) as [-> _]. by apply (I6 q).
  - intros q t m [[-> ->]|(Hq & Hm & Hne)]%Hf [[-> Hx]|(Ht & Hm' & Hne')]%Hf; try congruence. by apply (I7 q t m).
  - intros q a Hq. destruct (decide (q = np)) as [->|Hne]; [unfold pcs', upd in Hq; repeat case_decide; done|].
    unfold waitish. destruct (tk_same0 q Hne) as (-> & -> & _). apply (I8 q a). revert Hq. unfold pcs', upd. by repeat case_decide.
Qed.

Lemma fork_good n c p r s' :
  good n c -> n + 1 < 2 ^ 31 -> state_of p (sys c) = RUNNING -> pcs c p = PRun ->
  fork_alloc forkret_addr (as_proc p (sys c)) = Done r s' ->
  good (n + 1) (Conc s' (match r with Some np => upd (upd (pcs c) np PRun) p (PForked np) | None => pcs c end) (wlock c)).
Proof.
  intros [Hok Hpi] Hn Hr Hpc E%fork_alloc_effect. destruct r as [np|]; cbn [alloc_result] in E.
  - destruct E as [E1 E2]. pose proof (fresh_took p np _ _ E1 E2) as Ht. split; [by apply took_ok|by apply (took_pids n np (sys c))].
  - assert (Hc : calm p p (sys c) s' /\ nextpid (sys c) <= nextpid s' <= n + 1).
    { destruct Hpi as [J _ _]. destruct E as [E|(np & E1 & E2)].
      - split; [apply (same_core_calm p p) in E; by destruct E; split|]. destruct E as (_ & En & _). rewrite En. cbn. lia.
      - destruct E1 as (_ & B & Nx & Hu & _). split; [|rewrite Nx; cbn; rewrite s32_small; lia].
        assert (Hc : calm p p (as_proc p (sys c)) s') by (eapply gone_calm; eauto). by destruct Hc; split. }
    destruct Hc as [Hc Hx]. split; [|by apply (calm_pids n (n + 1) p p (sys c))].
    apply (calm_ok c s' p p PRun); [done|done|rewrite Hpc; tauto|tauto| |by left|done|].
    + intros q. unfold upd. case_decide; by subst.
    + intros q m. apply not_new; [done|congruence].
Qed.

Lemma pids_alter n f y s :
  (forall z, p_pid (f z) = p_pid z) -> (state_of y s = UNUSED -> p_state (f (proc_at y s)) = UNUSED) ->
  pids_ok n s -> pids_ok n (set_procs (alter f y (procs s)) s).
Proof.
  intros Hf Hu [J1 J2 J3].
  assert (Hp : forall q, pid_of q (set_procs (alter f y (procs s)) s) = pid_of q s).
  { intros q. rewrite proc_at_alter. case_decide as E; [|done]. destruct E as [-> _]. apply Hf. }
  assert (Hs : forall q, state_of q (set_procs (alter f y (procs s)) s) <> UNUSED -> state_of q s <> UNUSED).
  { intros q. rewrite proc_at_alter. case_decide as E; [|done]. destruct E as [-> _]. auto. }
  split; [done| |].
  - intros q Hq. rewrite Hp. auto.
  - intros q r Hq Hr. rewrite !Hp. apply J3; auto.
Qed.

Lemma fork_parent_good n c p np s' :
  good n c -> pcs c p = PForked np -> wlock c = None -> state_of p (sys c) = RUNNING ->
  s' = set_procs (alter (with_parent (Some p)) np (procs (sys c))) (as_proc p (sys c)) ->
  good n (Conc s' (upd (pcs c) p (PParented np)) None).
Proof.
  intros [Hok Hpi] Hpc Hl Hr ->. pose proof (co_new _ Hok p np ltac:(by rewrite Hpc)) as Hnp. set (s' := set_procs _ _).
  split; [|apply (pids_alter n (with_parent (Some p)) np (as_proc p (sys c))); [done|done|by destruct Hpi; split]].
  pose proof (fun q => no_holder c q Hok Hl) as Hh. destruct Hok as [I1 I2 I3 I4 I5 I6 I7 I8].
  assert (Hs : forall q, state_of q s' = state_of q (sys c) /\ p_chan (proc_at q s') = p_chan (proc_at q (sys c)) /\
    (q <> np -> parent_of q s' = parent_of q (sys c))).
  { intros q. unfold s'. rewrite (proc_at_alter np (with_parent (Some p)) (as_proc p (sys c))). case_decide as E; [|done].
    destruct E as [-> _]. split; [done|]. split; [done|]. done. }
  assert (Hf : forall q, forking (upd (pcs c) p (PParented np) q) = forking (pcs c q)).
  { intros q. unfold upd. case_decide; [|done]. subst. by rewrite Hpc. }
  assert (Hk : forall q, ~ holds (upd (pcs c) p (PParented np) q)) by (intros q; unfold upd; case_decide; [tauto|apply Hh]).
  split; cbn [sys pcs wlock].
  - intros q t Ha Ht HZ. destruct (Hs t) as (E & _ & Hp). rewrite E in HZ. apply (I1 q t); [|rewrite <- Hp; [done|congruence]|done].
    intros Haw. apply Ha. unfold awake. by destruct (Hs q) as (-> & -> & _).
  - intros q. split; [done|]. intros Hq. by apply Hk in Hq.
  - done.
  - intros q pp Hq. exfalso. apply (Hk q). by rewrite Hq.
  - intros q a t Hq. exfalso. apply (Hk q). by rewrite Hq.
  - intros q m. rewrite Hf. intros Hq. rewrite (proj1 (Hs m)). by apply (I6 q).
  - intros q t m. rewrite !Hf. apply I7.
  - intros q a. unfold upd. case_decide; [done|]. intros Hq. unfold waitish. destruct (Hs q) as (-> & -> & _). by apply (I8 q a).
Qed.

(** [exit] gives its children to init and wakes its parent. *)
Lemma give_good n c p a s' :
  good n c -> pcs c p = PClosed -> wlock c = None -> state_of p (sys c) = RUNNING -> exit_give (as_proc p (sys c)) = Done a s' ->
  good n (Conc s' (upd (pcs c) p PGave) (Some p)).
Proof.
  intros [Hok Hpi] Hpc Hl Hr E. pose proof (exit_give_effect (as_proc p (sys c)) a s' Hr E) as (W & Hpar & Hinit & Hme). clear E.
  pose proof (fun q => no_holder c q Hok Hl) as Hh. pose proof W as (_ & Hn & Ws0).
  assert (Ws : forall q, pid_of q s' = pid_of q (sys c) /\ (state_of q s' = state_of q (sys c) \/ state_of q (sys c) = SLEEPING /\ state_of q s' = RUNNABLE)).
  { intros q. destruct (Ws0 q) as (_ & H1 & H2). by split. }
  assert (Hz : forall q, state_of q s' = ZOMBIE -> state_of q (sys c) = ZOMBIE) by (intros q; destruct (Ws q) as [_ D]; intuition congruence).
  split.
  - destruct Hok as [I1 I2 I3 I4 I5 I6 I7 I8]. split; cbn [sys pcs wlock].
    + intros q t Ha. rewrite Hpar. case_decide as Et.
      * intros Hi. exfalso. apply Ha, Hinit; [by exists t|done].
      * intros Ht HZ. apply (I1 q t); [|done|auto]. intros Hq. by apply Ha, (woke_awake (as_proc p (sys c))).
    + intros q. unfold upd. case_decide as Eq; [subst; done|]. split; [congruence|]. intros Hq. by apply Hh in Hq.
    + intros q [= <-]. by apply (woke_running (as_proc p (sys c))).
    + intros q pp. unfold upd. case_decide as Eq; [subst q; intros _; apply Hme|]. intros Hq. exfalso. apply (Hh q). by rewrite Hq.
    + intros q b t. unfold upd. case_decide as Eq; [done|]. intros Hq. exfalso. apply (Hh q). by rewrite Hq.
    + intros q np. unfold upd. case_decide as Eq; [done|]. intros Hq%I6. destruct (Ws np) as [_ D]. intuition congruence.
    + intros q t np. unfold upd. repeat case_decide; try done. apply I7.
    + intros q b. unfold upd. case_decide as Eq; [done|]. intros Hq%I8. destruct (Ws0 q) as (Hch & _ & D). unfold waitish in *.
      cbn in Hch, D. change (p_chan (proc_at q s') = p_chan (proc_at q (sys c))) in Hch. destruct (Ws q) as [_ D']. rewrite Hch. intuition congruence.
  - destruct Hpi as [J1 J2 J3].
    assert (Hu : forall q, state_of q s' <> UNUSED -> state_of q (sys c) <> UNUSED) by (intros q; destruct (Ws q) as [_ D]; intuition congruence).
    split; cbn [sys]; rewrite ?Hn; [done| |].
    + intros q Hq. destruct (Ws q) as [-> _]. auto.
    + intros q t Hq Ht. destruct (Ws q) as [-> _], (Ws t) as [-> _]. apply J3; auto.
Qed.

(** The process that holds [wait_lock] changes its own entry and releases the lock: it is
    a zombie now, or asleep on its own channel with no zombie child. *)
Lemma release_good n c p k f s' :
  good n c -> holds (pcs c p) -> ~ holds k -> forking k = None -> s' = set_procs (alter f p (procs (sys c))) (as_proc p (sys c)) ->
  (forall a, k = PInWait a -> p_state (f (proc_at p (sys c))) = SLEEPING /\ p_chan (f (proc_at p (sys c))) = Some (ChProc p)) ->
  (forall z, p_pid (f z) = p_pid z /\ p_parent (f z) = p_parent z) ->
  (p_state (f (proc_at p (sys c))) = ZOMBIE /\ forall pp, parent_of p (sys c) = Some pp -> awake pp (sys c)) \/
  (p_state (f (proc_at p (sys c))) = SLEEPING /\ forall q, parent_of q (sys c) = Some p -> state_of q (sys c) <> ZOMBIE) ->
  good n (Conc s' (upd (pcs c) p k) None).
Proof.
  intros [Hok Hpi] Hp Hk Hf -> Hkw Hpar Hcase. pose proof (holds_running c p Hok Hp) as Hr. set (s' := set_procs _ _).
  split; [|apply (pids_alter n f p (as_proc p (sys c))); [apply Hpar|intros Hu; change (state_of p (sys c) = UNUSED) in Hu; congruence|by destruct Hpi; split]].
  assert (Hl : forall q, q <> p -> ~ holds (pcs c q)).
  { intros q Hq Hh. apply (co_lock _ Hok) in Hh. apply (co_lock _ Hok) in Hp. congruence. }
  assert (Hin : (p < length (procs (as_proc p (sys c))))%nat) by (apply (in_table p (sys c)); congruence).
  assert (Hs : forall q, proc_at q s' = if decide (q = p) then f (proc_at p (sys c)) else proc_at q (sys c)).
  { intros q. unfold s'. rewrite (proc_at_alter p f (as_proc p (sys c))). repeat case_decide; tauto. }
  assert (Hq : forall q, parent_of q s' = parent_of q (sys c)) by (intros q; rewrite Hs; case_decide; [subst; apply Hpar|done]).
  destruct Hok as [I1 I2 I3 I4 I5 I6 I7 I8].
  assert (Hh' : forall q, ~ holds (upd (pcs c) p k q)) by (intros q; unfold upd; case_decide; auto).
  split; cbn [sys pcs wlock].
  - intros q t Ha. rewrite Hq, (Hs t). unfold awake in Ha. rewrite Hs in Ha. intros Ht.
    destruct (decide (q = p)) as [->|Hne], (decide (t = p)) as [->|Hne'].
    + destruct Hcase as [[Hz _]|[Hz _]]; [|congruence]. exfalso. apply Ha. intros []; congruence.
    + destruct Hcase as [[Hz _]|[_ Hn]]; [|by apply Hn]. exfalso. apply Ha. intros []; congruence.
    + destruct Hcase as [[_ Haw]|[Hz _]]; [|congruence]. exfalso. apply Ha, (Haw q Ht).
    + by apply (I1 q t).
  - intros q. split; [done|]. intros H. by apply Hh' in H.
  - done.
  - intros q pp H. exfalso. apply (Hh' q). by rewrite H.
  - intros q a t H. exfalso. apply (Hh' q). by rewrite H.
  - intros q np. unfold upd. case_decide as Eq; [congruence|]. intros Hnp%I6. rewrite Hs. case_decide; [congruence|done].
  - intros q t np. unfold upd. repeat case_decide; try congruence. apply I7.
  - intros q a. unfold waitish. rewrite Hs. unfold upd. case_decide; [subst; intros Ha; right; right; by apply (Hkw a)|apply I8].
Qed.

(** ** Every step *)

(** A step that changes the process's own entry. *)
Lemma own_alter_good n c p k f (a : unit) s' :
  good n c -> state_of p (sys c) = RUNNING -> ~ holds (pcs c p) -> plain k ->
  (p ← gets me; set_proc p f : P unit) (as_proc p (sys c)) = Done a s' ->
  (forall z, p_parent (f z) = p_parent z /\ p_pid (f z) = p_pid z) -> p_state (f (proc_at p (sys c))) <> ZOMBIE ->
  ~ (p_state (f (proc_at p (sys c))) = SLEEPING /\ p_chan (f (proc_at p (sys c))) = Some (ChProc p)) ->
  good n (Conc s' (upd (pcs c) p k) (wlock c)).
Proof.
  intros Hg Hr Hh Hk E%set_proc_run Hfz Hz Hs. subst s'. apply own_good; auto. apply (calm_as _ _ p), alter_calm; auto.
  intros Hu. change (state_of p (sys c) = UNUSED) in Hu. congruence.
Qed.

(** The channel is cleared when [sleep] returns. *)
Lemma tidy_good n c p (a : unit) s' :
  good n c -> state_of p (sys c) = RUNNING -> wlock c = None -> sleep_tidy (as_proc p (sys c)) = Done a s' ->
  good n (Conc s' (pcs c) None) /\ state_of p s' = RUNNING /\ as_proc p s' = s'.
Proof.
  intros [Hok Hpi] Hr Hl E%set_proc_run. pose proof (no_holder c p Hok Hl) as Hh.
  assert (Hc : calm p p (sys c) s').
  { subst s'. apply (calm_as _ _ p), alter_calm; cbn; auto; try (intros []; congruence); intros Hx;
      [change (state_of p (sys c) = UNUSED) in Hx|change (state_of p (sys c) = ZOMBIE) in Hx]; congruence. }
  assert (Hr' : state_of p s' = RUNNING).
  { subst s'. rewrite (proc_at_alter p (with_chan None) (as_proc p (sys c))). by case_decide. }
  split; [split|].
  - rewrite <- Hl. apply (calm_ok c s' p p (pcs c p)); auto.
    + intros q. unfold upd. case_decide; by subst.
    + intros b _. by left.
    + intros q np. apply not_new; [done|congruence].
  - apply (calm_pids n n p p (sys c)); [done| |done]. subst s'. destruct Hpi. cbn. lia.
  - split; [done|]. by subst s'.
Qed.

Ltac at_pc c p E := destruct (pcs c p) eqn:?Hpc; try done; apply go_inv in E as (Hr & ?r & s' & E & ->).
Ltac pc_tauto := try (match goal with H : pcs _ _ = _ |- _ => rewrite H end); tauto.

Lemma cstep_good n o c c' : good n c -> n + 1 < 2 ^ 31 -> cstep forkret_addr o c = Some c' -> good (n + 1) c'.
Proof.
  intros Hg Hn E.
  assert (Hup : forall d, good n d -> good (n + 1) d) by (intros d [H1 H2]; split; [done|by apply pids_mono]).
  pose proof Hg as [Hok _].
  destruct o as [p|p|p a|p|p a|p pid|p|p|p|p|p|p st|p addr|p|p]; cbn [cstep] in E.
  - destruct (schedule p (sys c)) as [[] s| |] eqn:Es; try done. injection E as <-. by apply Hup, (schedule_good n c p).
  - at_pc c p E. by apply Hup, (own_alter_good n c p PRun _ _ _ Hg Hr ltac:(pc_tauto) I E); cbn; intuition congruence.
  - at_pc c p E. by apply Hup, (own_alter_good n c p PSleep _ _ _ Hg Hr ltac:(pc_tauto) I E); cbn; intuition congruence.
  - at_pc c p E. by apply Hup, (own_alter_good n c p PRun _ _ _ Hg Hr ltac:(pc_tauto) I E); cbn; intuition congruence.
  - at_pc c p E. apply wakeup_effect in E as (W & Hpar & _).
    apply Hup, own_good; try done; try pc_tauto; [|apply W]. by apply (calm_as _ _ p), woke_calm.
  - at_pc c p E. apply (kill_effect p) in E as [Hc Hnx]; [|done].
    apply Hup, own_good; try done; try pc_tauto. by apply (calm_as _ _ p).
  - destruct (pcs c p) eqn:Hpc; try done. unfold runs in E. case_bool_decide as Hr; [|done].
    destruct (fork_alloc _ _) as [r s'| |] eqn:Ef; try done. pose proof (fork_good n c p r s' Hg Hn Hr Hpc Ef) as Hf.
    destruct r; by injection E as <-.
  - destruct (wlock c) eqn:Hl; [destruct (pcs c p); done|]. at_pc c p E. apply set_proc_run in E.
    by apply Hup, (fork_parent_good n c p np).
  - at_pc c p E. apply set_proc_run in E. subst s'. pose proof (co_new _ Hok p np ltac:(by rewrite Hpc)) as Hu.
    apply Hup, (step_calm n c p np PRun); [done|done| |done|pc_tauto|done|right; by rewrite Hpc].
    change (state_of np (as_proc p (sys c)) = USED) in Hu.
    apply (calm_as _ _ p), alter_calm; [done|by left|right; split; [|done]|..]; cbn [with_state p_state p_chan]; try (intros [? ?]); congruence.
  - at_pc c p E. pose proof (kc_exit_close _ _ _ E) as K. apply Hup, own_good; try done; try pc_tauto; [|apply K].
    by apply (calm_as _ _ p), same_core_calm.
  - destruct (wlock c) eqn:Hl; [destruct (pcs c p); done|]. at_pc c p E. by apply Hup, (give_good n c p r).
  - at_pc c p E. apply set_proc_run in E. apply Hup, (release_good n c p PDead _ s' Hg ltac:(by rewrite Hpc) ltac:(tauto) eq_refl E); [done|done|].
    left. split; [done|]. intros pp. by apply (co_gave _ Hok).
  - destruct (wlock c) eqn:Hl; [destruct (pcs c p); done|]. at_pc c p E. apply Hup, (wait_good n c p addr); auto. by rewrite Hpc.
  - destruct (wlock c) eqn:Hl; [destruct (pcs c p); done|]. at_pc c p E. apply bind_done_inv in E as (u & s1 & E1 & E2).
    destruct (tidy_good n c p u s1 Hg Hr Hl E1) as (Hg1 & Hr1 & Es1). rewrite <- Es1 in E2.
    apply Hup, (wait_good n (Conc s1 (pcs c) None) p addr r s'); auto. cbn. by rewrite Hpc.
  - at_pc c p E. apply set_proc_run in E. apply Hup, (release_good n c p (PInWait addr) _ s' Hg ltac:(by rewrite Hpc) ltac:(tauto) eq_refl E); [done|done|].
    right. split; [done|]. intros q. by apply (co_wait _ Hok p addr).
Qed.

Lemma crun_good n os c c' :
  good n c -> n + Z.of_nat (length os) < 2 ^ 31 -> crun forkret_addr os c = Some c' -> good (n + Z.of_nat (length os)) c'.
Proof.
  revert n c. induction os as [|o os IH]; intros n c Hg Hn E.
  - injection E as <-. by rewrite Z.add_0_r.
  - cbn [crun] in E. destruct (cstep forkret_addr o c) as [c1|] eqn:Es; [|done]. cbn [length] in *.
    replace (n + Z.of_nat (S (length os))) with (n + 1 + Z.of_nat (length os)) by lia.
    apply (IH (n + 1) c1); [|lia|done]. apply (cstep_good n o c); [done|lia|done].
Qed.

(** ** Boot *)

Definition boot : P unit := procinit;; userinit forkret_addr.

(** All processes at their start, [wait_lock] free. *)
Definition start (s : ksys) : conc := Conc s (fun _ => PRun) None.

Lemma start_ok s : (forall q, state_of q s <> ZOMBIE) -> conc_ok (start s).
Proof. intros Hz. by split. Qed.

Lemma procinit_unused s q : state_of q (set_procs (imap (fun i p => with_kstack (KSTACK (Z.of_nat i)) (with_state UNUSED p)) (procs s)) s) = UNUSED.
Proof. unfold proc_at. cbn [procs set_procs]. rewrite list_lookup_total_alt, list_lookup_imap. by destruct (procs s !! q). Qed.

Lemma boot_good s a s' : nextpid s = 1 -> boot s = Done a s' -> good 2 (start s').
Proof.
  intros Hn. unfold boot, procinit. rewrite bind_modify. set (s1 := set_procs _ s). intros E%userinit_effect.
  assert (Hu : forall q, state_of q s1 = UNUSED) by (intros q; apply procinit_unused). destruct E as (np & B & _ & Es & Ep & Nx).
  change (nextpid s1) with (nextpid s) in Ep, Nx. rewrite Hn in Ep, Nx. change (s32 (1 + 1)) with 2 in Nx.
  assert (Ho : forall q, q <> np -> state_of q s' = UNUSED).
  { intros q Hq. specialize (B q Hq). unfold core in B. injection B as Bs _ _ _. rewrite Bs. apply Hu. }
  assert (Hnp : forall q, state_of q s' <> UNUSED -> q = np) by (intros q Hq; destruct (decide (q = np)); [done|by apply Ho in n]).
  split.
  - apply start_ok. intros q Hz. rewrite (Hnp q) in Hz; congruence.
  - split; cbn [sys start].
    + lia.
    + intros q Hq. rewrite (Hnp q Hq). lia.
    + intros q r Hq Hr _. by rewrite (Hnp q Hq), (Hnp r Hr).
Qed.

(** C8: no wakeup of [wait] is lost.  After boot and any interleaving of the processes'
    [fork], [exit], [wait], [kill], [sleep], [wakeup] and the scheduler, a process that
    waits in [wait] and has a zombie child is not asleep: it is running or ready to run,
    and its next round finds the child. *)
Theorem wait_wakes_up s0 a s1 os c p addr q :
  nextpid s0 = 1 -> boot s0 = Done a s1 -> Z.of_nat (length os) < 2 ^ 31 - 2 ->
  crun forkret_addr os (start s1) = Some c ->
  pcs c p = PInWait addr -> p_parent (proc_at q (sys c)) = Some p -> p_state (proc_at q (sys c)) = ZOMBIE ->
  p_state (proc_at p (sys c)) = RUNNING \/ p_state (proc_at p (sys c)) = RUNNABLE.
Proof.
  intros Hn Hb Hl E Hp Hq Hz. apply boot_good in Hb; [|done]. apply (crun_good 2) in E as [Hok _]; [|done|lia].
  destruct (co_inwait _ Hok p addr Hp) as [?|[?|Hs]]; [by left|by right|]. exfalso. apply (co_sleep _ Hok p q); [|done|done].
  intros Ha. by apply Ha.
Qed.

(** C24: the processes in use have positive and pairwise different pids, after boot and any
    interleaving of at most 2^31 - 3 steps; the counter wraps round only after that. *)
Theorem pids_unique s0 a s1 os c p q :
  nextpid s0 = 1 -> boot s0 = Done a s1 -> Z.of_nat (length os) < 2 ^ 31 - 2 ->
  crun forkret_addr os (start s1) = Some c ->
  p_state (proc_at p (sys c)) <> UNUSED -> p_state (proc_at q (sys c)) <> UNUSED ->
  0 < p_pid (proc_at p (sys c)) < nextpid (sys c) /\ (p_pid (proc_at p (sys c)) = p_pid (proc_at q (sys c)) -> p = q).
Proof.
  intros Hn Hb Hl E Hp Hq. apply boot_good in Hb; [|done]. apply (crun_good 2) in E as [_ Hpi]; [|done|lia].
  split; [by apply (pi_range _ _ Hpi)|by apply (pi_uniq _ _ Hpi)].
Qed.
End Steps.

(** ** A machine that boots *)

#[local] Instance no_devs : Devices := {| dev_read := fun _ => None; dev_write := fun _ => None |}.

Definition bare : ksys :=
  KSys (Kernel (FState (LState (BState [] ∅ [] 1) (Log 0 0 0 false 0 0 [])) (Superblock 0 0 0 0 0 0 0 0) (replicate 5 inhabitant))
      (replicate 10 inhabitant) ∅ (demo 100) [] 0)
    (replicate 64 (Proc RUNNING None false 0 0 None 0 0 0 0 (Context 0 0 []) (replicate 16 None) None (replicate 16 0))) 1 None true 0.

Definition forkret0 : Z := 0x80001000.

(** init forks, the child exits with status 7 while init sleeps in [wait]. *)
Definition fork_wait_exit : list op :=
  [OSchedule 0; OFork 0; OForkParent 0; OForkRun 0; OWait 0 0; OWaitSleep 0; OSchedule 1; OClose 1; OGive 1; OZombie 1 7].

Definition run_from (o : outcome ksys unit) (os : list op) : option conc :=
  match o with Done _ s => crun forkret0 os (start s) | _ => None end.

Abbreviation booted os := (run_from (boot forkret0 bare) os).

Lemma run_from_inv o os c : run_from o os = Some c -> exists a s, o = Done a s /\ crun forkret0 os (start s) = Some c.
Proof. destruct o as [a s| |]; try done. by exists a, s. Qed.

Definition look (c : conc) : pc * list (procstate * option channel * Z * option nat) := (pcs c 0, take 2 (core <$> procs (sys c))).

Lemma fork_wait_exit_runs :
  look <$> booted fork_wait_exit = Some (PInWait 0, [(RUNNABLE, Some (ChProc 0), 1, None); (ZOMBIE, None, 2, Some 0%nat)]).
Proof. vm_compute. reflexivity. Qed.

Lemma look_at c k x y : look c = (k, [x; y]) -> pcs c 0%nat = k /\ core (proc_at 0 (sys c)) = x /\ core (proc_at 1 (sys c)) = y.
Proof.
  unfold look, proc_at. destruct (procs (sys c)) as [|x0 [|y0 ps]]; intros E; try discriminate E. injection E as -> Ex Ey. done.
Qed.

Lemma wait_wakes_up_witness : exists c, booted fork_wait_exit = Some c /\ p_state (proc_at 1 (sys c)) = ZOMBIE /\
  (p_state (proc_at 0 (sys c)) = RUNNING \/ p_state (proc_at 0 (sys c)) = RUNNABLE).
Proof.
  destruct (proj1 (fmap_Some _ _ _) fork_wait_exit_runs) as (c & E & R). symmetry in R. apply look_at in R as (R1 & _ & R2). unfold core in R2. injection R2 as S _ _ Pp.
  exists c. split; [exact E|]. split; [exact S|]. apply run_from_inv in E as (a & s & E1 & E2).
  apply (wait_wakes_up forkret0 bare a s fork_wait_exit c 0 0 1); [reflexivity|exact E1|reflexivity|exact E2|exact R1|exact Pp|exact S].
Defined.

Lemma pids_unique_witness : exists c, booted fork_wait_exit = Some c /\ 0 < p_pid (proc_at 0 (sys c)) < nextpid (sys c) /\
  (p_pid (proc_at 0 (sys c)) = p_pid (proc_at 1 (sys c)) -> 0%nat = 1%nat).
Proof.
  destruct (proj1 (fmap_Some _ _ _) fork_wait_exit_runs) as (c & E & R). symmetry in R. apply look_at in R as (_ & R1 & R2). unfold core in R1, R2. injection R1 as S0 _ _ _. injection R2 as S1 _ _ _.
  exists c. split; [exact E|]. apply run_from_inv in E as (a & s & E1 & E2).
  apply (pids_unique forkret0 bare a s fork_wait_exit c 0 1); [reflexivity|exact E1|reflexivity|exact E2|congruence|congruence].
Defined.

(** ** What goes wrong *)

(** [kill(0)] finds an unused slot, since its pid is 0, and [allocproc] does not clear
    [killed]: the next process is born killed. *)
Theorem kill_zero_kills_newborn :
  (fun c => (p_state (proc_at 1 (sys c)), p_killed (proc_at 1 (sys c)))) <$> booted [OSchedule 0; OKill 0 0; OFork 0] = Some (USED, true).
Proof. vm_compute. reflexivity. Qed.

(** A [kill] that comes after [wait] has looked at [killed] and before it sleeps is not
    seen: the killed process sleeps until a child exits. *)
Theorem kill_lost_in_wait :
  (fun c => (core (proc_at 1 (sys c)), p_killed (proc_at 1 (sys c)))) <$>
    booted [OSchedule 0; OFork 0; OForkParent 0; OForkRun 0; OSchedule 1; OFork 1; OForkParent 1; OForkRun 1; OWait 1 0;
            OKill 0 2; OWaitSleep 1] = Some (SLEEPING, Some (ChProc 1), 2, Some 0%nat, true).
Proof. vm_compute. reflexivity. Qed.

