(* ===== verification/ProcExit.v ===== *)
(** * Exiting with a ring buffer open

    [freewalk] over a page table, and what becomes of a process that exits while pages above
    its memory are mapped: the parent's [wait] panics in the kernel. *)

From S2P Require Import Prelude Mem CString Riscv Kalloc Vm PageTable VmSpec VmCopy RingbufK RingbufFind RingbufMap Demo Pipe Block Sleeplock Bio Log Fs FsBlocks File Proc ProcConc ProcProps.

(** ** The tree that [freewalk] walks *)

Section FreeWalk.
Context `{KernelImage}.

Definition rwx (v : Z) : bool := has_flag v (Z.lor (Z.lor PTE_R PTE_W) PTE_X).
Definition entry (m : memory) (t i : Z) : Z := load64 m (t + 8 * i).

(** The table that [freewalk] visits for entry [i]. *)
Definition child (m : memory) (t i : Z) : option Z :=
  let v := entry m t i in if has_flag v PTE_V && negb (rwx v) then Some (PTE2PA v) else None.

(** The pages of the tables of [d] levels, and of those below the entries [l] of one table. *)
Fixpoint tree_pages (d : nat) (m : memory) (t : Z) : list Z :=
  match d with
  | O => []
  | S d => t :: (seqZ 0 512 ≫= fun i => match child m t i with Some c => tree_pages d m c | None => [] end)
  end.

Definition sub_pages (d : nat) (m : memory) (t : Z) (l : list Z) : list Z :=
  l ≫= fun i => match child m t i with Some c => tree_pages d m c | None => [] end.

(** No table hangs below level [d]. *)
Fixpoint shallow (d : nat) (m : memory) (t : Z) : bool :=
  match d with
  | O => false
  | S d => forallb (fun i => match child m t i with Some c => shallow d m c | None => true end) (seqZ 0 512)
  end.

Definition sub_shallow (d : nat) (m : memory) (t : Z) (i : Z) : bool := match child m t i with Some c => shallow d m c | None => true end.

(** No page is mapped. *)
Fixpoint leafless (d : nat) (m : memory) (t : Z) : bool :=
  match d with
  | O => true
  | S d => forallb (fun i => let v := entry m t i in negb (has_flag v PTE_V) || negb (rwx v) && leafless d m (PTE2PA v)) (seqZ 0 512)
  end.

Definition sub_leafless (d : nat) (m : memory) (t : Z) (i : Z) : bool :=
  let v := entry m t i in negb (has_flag v PTE_V) || negb (rwx v) && leafless d m (PTE2PA v).

Lemma elem_of_sub_pages d m t l p : p ∈ sub_pages d m t l <-> exists i c, i ∈ l /\ child m t i = Some c /\ p ∈ tree_pages d m c.
Proof.
  unfold sub_pages. rewrite list_elem_of_bind. split.
  - intros (i & Hp & Hi). destruct (child m t i) as [c|] eqn:E; [by exists i, c|by apply elem_of_nil in Hp].
  - intros (i & c & Hi & E & Hp). exists i. by rewrite E.
Qed.

Lemma entry_frame m m' t i : index i -> mem_eq_on (in_page t) m m' -> entry m' t i = entry m t i.
Proof. intros Hi Hf. apply load64_ext. apply mem_eq_on_sub with (in_page t); [done|]. intros b. by apply entry_in_page. Qed.

Lemma index_seqZ i : i ∈ seqZ 0 512 -> index i.
Proof. intros Hi%elem_of_seqZ. unfold index. lia. Qed.

Lemma bind_ext_in {A B} (l : list A) (f g : A -> list B) : (forall x, x ∈ l -> f x = g x) -> l ≫= f = l ≫= g.
Proof.
  induction l as [|x l IH]; intros Hfg; [done|]. cbn. f_equal; [apply Hfg; left|apply IH; intros y Hy; apply Hfg; by right].
Qed.

Lemma forallb_ext_in {A} (l : list A) (f g : A -> bool) : (forall x, x ∈ l -> f x = g x) -> forallb f l = forallb g l.
Proof.
  induction l as [|x l IH]; intros Hfg; [done|]. cbn. f_equal; [apply Hfg; left|apply IH; intros y Hy; apply Hfg; by right].
Qed.

(** Memory outside the tables does not matter. *)
Lemma tree_frame d m m' t :
  (forall p, p ∈ tree_pages d m t -> mem_eq_on (in_page p) m m') ->
  tree_pages d m' t = tree_pages d m t /\ shallow d m' t = shallow d m t /\ leafless d m' t = leafless d m t.
Proof.
  revert t. induction d as [|d IH]; intros t Hf; [done|]. cbn [tree_pages shallow leafless].
  assert (He : forall i, i ∈ seqZ 0 512 -> entry m' t i = entry m t i).
  { intros i Hi. apply entry_frame; [by apply index_seqZ|]. apply Hf. left. }
  assert (Hc : forall i, i ∈ seqZ 0 512 -> child m' t i = child m t i) by (intros i Hi; unfold child; by rewrite He).
  assert (Hs : forall i c, i ∈ seqZ 0 512 -> child m t i = Some c ->
    tree_pages d m' c = tree_pages d m c /\ shallow d m' c = shallow d m c /\ leafless d m' c = leafless d m c).
  { intros i c Hi E. apply IH. intros p Hp. apply Hf. right. apply (elem_of_sub_pages d). by exists i, c. }
  split; [|split].
  - f_equal. apply bind_ext_in. intros i Hi. rewrite Hc by done. destruct (child m t i) as [c|] eqn:E; [|done]. by apply (Hs i).
  - apply forallb_ext_in. intros i Hi. rewrite Hc by done. destruct (child m t i) as [c|] eqn:E; [|done]. by apply (Hs i).
  - apply forallb_ext_in. intros i Hi. cbn zeta. rewrite He by done. destruct (has_flag (entry m t i) PTE_V) eqn:EV, (rwx (entry m t i)) eqn:Er; try done. cbn.
    apply (Hs i); [done|]. unfold child. by rewrite EV, Er.
Qed.

Lemma sub_frame d m m' t l :
  Forall index l -> (forall i, i ∈ l -> entry m' t i = entry m t i) -> (forall p, p ∈ sub_pages d m t l -> mem_eq_on (in_page p) m m') ->
  sub_pages d m' t l = sub_pages d m t l /\ forallb (sub_shallow d m' t) l = forallb (sub_shallow d m t) l /\
  forallb (sub_leafless d m' t) l = forallb (sub_leafless d m t) l.
Proof.
  intros Hl He Hf.
  assert (Hc : forall i, i ∈ l -> child m' t i = child m t i) by (intros i Hi; unfold child; by rewrite He).
  assert (Hs : forall i c, i ∈ l -> child m t i = Some c ->
    tree_pages d m' c = tree_pages d m c /\ shallow d m' c = shallow d m c /\ leafless d m' c = leafless d m c).
  { intros i c Hi E. apply tree_frame. intros p Hp. apply Hf. apply elem_of_sub_pages. by exists i, c. }
  split; [|split].
  - apply bind_ext_in. intros i Hi. rewrite Hc by done. destruct (child m t i) as [c|] eqn:E; [|done]. by apply (Hs i).
  - apply forallb_ext_in. intros i Hi. unfold sub_shallow. rewrite Hc by done. destruct (child m t i) as [c|] eqn:E; [|done]. by apply (Hs i).
  - apply forallb_ext_in. intros i Hi. unfold sub_leafless. cbn zeta. rewrite He by done. destruct (has_flag (entry m t i) PTE_V) eqn:EV, (rwx (entry m t i)) eqn:Er; try done. cbn.
    apply (Hs i); [done|]. unfold child. by rewrite EV, Er.
Qed.

(** ** What [freewalk] does *)

(** Pages of their own that [kfree] accepts. *)
Definition pages_ok (ps L : list Z) : Prop := NoDup ps /\ Forall valid_page ps /\ forall p, p ∈ ps -> p ∉ L.

(** It frees the pages [ps], or finds a mapped page. *)
Definition frees (ps : list Z) (touched : list Z) (none : bool) (m : M kstate unit) (s : kstate) (L : list Z) : Prop :=
  if none then exists s' L', m s = Done tt s' /\ kinv s' L' /\ L' ≡ₚ ps ++ L /\
    forall p, p mod PGSIZE = 0 -> p ∉ touched -> mem_eq_on (in_page p) (mem s) (mem s')
  else m s = Panic "freewalk: leaf".

Definition walk_entry (d : nat) (t i : Z) : M kstate unit :=
  pte ← read64 (t + 8 * i);
  if has_flag pte PTE_V && negb (rwx pte) then freewalk d (PTE2PA pte);; write64 (t + 8 * i) 0
  else if has_flag pte PTE_V then panic "freewalk: leaf"
  else mret tt.

Lemma pages_ok_app ps qs L : pages_ok (ps ++ qs) L -> pages_ok ps L /\ pages_ok qs L /\ forall p, p ∈ ps -> p ∉ qs.
Proof.
  intros ((H1 & H2 & H3)%list.NoDup_app & [H4 H5]%Forall_app & H6). split; [|split; [|done]].
  - split; [done|]. split; [done|]. intros p Hp. apply H6, elem_of_app. by left.
  - split; [done|]. split; [done|]. intros p Hp. apply H6, elem_of_app. by right.
Qed.

(** Clearing entry [i] of an allocated page. *)
Lemma clear_entry s L t i : kinv s L -> valid_page t -> t ∉ L -> index i ->
  exists s', write64 (t + 8 * i) 0 s = Done tt s' /\ kinv s' L /\ mem_eq_on (outside t) (mem s) (mem s') /\
    forall j, index j -> j <> i -> entry (mem s') t j = entry (mem s) t j.
Proof.
  intros Hk [Hv ?] Hn Hi. eexists. split; [reflexivity|].
  assert (Ho : mem_eq_on (outside t) (mem s) (store64 (mem s) (t + 8 * i) 0)).
  { apply store64_frame. intros b Hb. unfold outside, in_page, index, PGSIZE in *. lia. }
  split; [by apply (kinv_outside s _ L t)|]. split; [exact Ho|]. intros j Hj Hne. unfold entry. cbn [mem set_mem].
  apply load64_store64_ne. lia.
Qed.

Lemma walk_loop d t l s L :
  (forall c s L, shallow d (mem s) c = true -> pages_ok (tree_pages d (mem s) c) L -> kinv s L ->
     frees (tree_pages d (mem s) c) (tree_pages d (mem s) c) (leafless d (mem s) c) (freewalk d c) s L) ->
  NoDup l -> Forall index l -> valid_page t -> t ∉ L -> t ∉ sub_pages d (mem s) t l -> forallb (sub_shallow d (mem s) t) l = true ->
  pages_ok (sub_pages d (mem s) t l) L -> kinv s L ->
  frees (sub_pages d (mem s) t l) (t :: sub_pages d (mem s) t l) (forallb (sub_leafless d (mem s) t) l) (forM_ l (walk_entry d t)) s L.
Proof.
  intros IHd. revert s L. induction l as [|i l IH]; intros s L Hnd Hix Hv HtL Htn Hsh Hpg Hk.
  { exists s, L. split_and!; [done|done|done|]. intros p _ _ a _. done. }
  apply list.NoDup_cons in Hnd as [Hil Hnd]. apply list.Forall_cons in Hix as [Hi Hix]. cbn [forallb] in Hsh. apply andb_true_iff in Hsh as [Hshi Hsh].
  unfold frees. cbn [forallb forM_]. set (rest := forM_ l (walk_entry d t)) in *. unfold walk_entry. rewrite !bind_assoc, !bind_read64. fold (entry (mem s) t i).
  unfold sub_leafless at 1. cbn zeta. destruct (has_flag (entry (mem s) t i) PTE_V) eqn:EV; cbn [negb orb andb].
  2: { assert (Ec : child (mem s) t i = None) by (unfold child; by rewrite EV).
       assert (Esub : sub_pages d (mem s) t (i :: l) = sub_pages d (mem s) t l) by (unfold sub_pages; cbn [mbind list_bind]; by rewrite Ec).
       rewrite Esub in *. exact (IH s L Hnd Hix Hv HtL Htn Hsh Hpg Hk). }
  destruct (rwx (entry (mem s) t i)) eqn:Er; cbn [negb andb]; [done|].
  set (c := PTE2PA (entry (mem s) t i)) in *. assert (Ec : child (mem s) t i = Some c) by (unfold child; by rewrite EV, Er).
  unfold sub_shallow in Hshi. rewrite Ec in Hshi.
  assert (Esub : sub_pages d (mem s) t (i :: l) = tree_pages d (mem s) c ++ sub_pages d (mem s) t l) by (unfold sub_pages; cbn [mbind list_bind]; by rewrite Ec).
  rewrite Esub in *. apply pages_ok_app in Hpg as (Hpc & Hpl & Hdis). rewrite elem_of_app in Htn.
  specialize (IHd c s L Hshi Hpc Hk). unfold frees in IHd. destruct (leafless d (mem s) c); cbn [andb].
  2: { by rewrite !bind_assoc, (bind_panic _ _ _ _ IHd). }
  destruct IHd as (s1 & L1 & E1 & Hk1 & HL1 & Hf1). rewrite !bind_assoc, (bind_done _ _ _ _ _ E1).
  assert (HtL1 : t ∉ L1) by (rewrite HL1, elem_of_app; tauto).
  destruct (clear_entry s1 L1 t i Hk1 Hv HtL1 Hi) as (s2 & E2 & Hk2 & Ho2 & He2). rewrite (bind_done _ _ _ _ _ E2).
  assert (Hval : forall p, p ∈ sub_pages d (mem s) t l -> p mod PGSIZE = 0).
  { intros p Hp. destruct Hpl as (_ & Hvl & _). rewrite list.Forall_forall in Hvl. by apply Hvl. }
  assert (Hsame : forall p, p mod PGSIZE = 0 -> p <> t -> p ∉ tree_pages d (mem s) c -> mem_eq_on (in_page p) (mem s) (mem s2)).
  { intros p Hp Hne Hnc. apply mem_eq_on_trans with (mem s1); [by apply Hf1|]. apply mem_eq_on_sub with (outside t); [done|].
    intros a Ha Hta. apply Hne. apply (pages_disjoint p t a); [done|apply Hv|done..]. }
  destruct (sub_frame d (mem s) (mem s2) t l Hix) as (Ep & Es & El).
  { intros j Hj. rewrite He2; [|rewrite list.Forall_forall in Hix; by apply Hix|congruence]. apply entry_frame; [rewrite list.Forall_forall in Hix; by apply Hix|].
    apply Hf1; [apply Hv|tauto]. }
  { intros p Hp. apply Hsame; [by apply Hval|intros ->; tauto|]. intros Hpc'. by apply (Hdis p). }
  rewrite <- El. specialize (IH s2 L1 Hnd Hix Hv HtL1). rewrite Ep, Es in IH. unfold frees in IH.
  destruct (forallb (sub_leafless d (mem s2) t) l).
  - destruct IH as (s3 & L3 & E3 & Hk3 & HL3 & Hf3); [tauto|done| |done|].
    { destruct Hpl as (P1 & P2 & P3). split; [done|]. split; [done|]. intros p Hp. rewrite HL1, elem_of_app. intros [Hx|Hx]; [by apply (Hdis p)|by apply (P3 p)]. }
    exists s3, L3. split; [done|]. split; [done|]. split; [rewrite HL3, HL1; solve_Permutation|].
    intros p Hp Hn. rewrite elem_of_cons, elem_of_app in Hn. apply mem_eq_on_trans with (mem s2); [apply Hsame; tauto|]. apply Hf3; [done|]. rewrite elem_of_cons. tauto.
  - apply IH; [tauto|done| |done]. destruct Hpl as (P1 & P2 & P3). split; [done|]. split; [done|]. intros p Hp. rewrite HL1, elem_of_app. intros [Hx|Hx]; [by apply (Hdis p)|by apply (P3 p)].
Qed.

(** [freewalk] frees the tables when nothing is mapped, and panics otherwise. *)
Lemma freewalk_run d t s L :
  shallow d (mem s) t = true -> pages_ok (tree_pages d (mem s) t) L -> kinv s L ->
  frees (tree_pages d (mem s) t) (tree_pages d (mem s) t) (leafless d (mem s) t) (freewalk d t) s L.
Proof.
  revert t s L. induction d as [|d IH]; intros t s L Hsh Hpg Hk; [done|].
  destruct Hpg as (Hnd & Hval & Hn). cbn [tree_pages] in Hnd, Hval, Hn. fold (sub_pages d (mem s) t (seqZ 0 512)) in Hnd, Hval, Hn.
  apply list.NoDup_cons in Hnd as [Ht Hnd]. apply list.Forall_cons in Hval as [Hv Hval]. assert (HtL : t ∉ L) by (apply Hn; left).
  assert (Hloop : frees (sub_pages d (mem s) t (seqZ 0 512)) (t :: sub_pages d (mem s) t (seqZ 0 512)) (forallb (sub_leafless d (mem s) t) (seqZ 0 512)) (forM_ (seqZ 0 512) (walk_entry d t)) s L).
  { apply walk_loop; try done; [apply NoDup_seqZ|apply list.Forall_forall; apply index_seqZ|]. split; [done|]. split; [done|]. intros p Hp. apply Hn. by right. }
  cbn [freewalk tree_pages leafless]. fold (sub_pages d (mem s) t (seqZ 0 512)). change (forallb _ (seqZ 0 512)) with (forallb (sub_leafless d (mem s) t) (seqZ 0 512)).
  change (forM_ (seqZ 0 512) _) with (forM_ (seqZ 0 512) (walk_entry d t)). unfold frees in *. destruct (forallb (sub_leafless d (mem s) t) (seqZ 0 512)).
  - destruct Hloop as (s1 & L1 & E1 & Hk1 & HL1 & Hf1). assert (HtL1 : t ∉ L1) by (rewrite HL1, elem_of_app; tauto).
    destruct (kfree_done s1 L1 t Hk1 Hv HtL1) as (s2 & E2 & Hk2 & Ho2). exists s2, (t :: L1). split; [by rewrite (bind_done _ _ _ _ _ E1)|].
    split; [done|]. split; [by rewrite HL1|]. intros p Hp Hnp. apply mem_eq_on_trans with (mem s1); [by apply Hf1|]. apply mem_eq_on_sub with (outside t); [done|].
    intros a Ha Hta. apply Hnp. apply elem_of_cons. left. apply (pages_disjoint p t a); [done|apply Hv|done..].
  - by apply bind_panic.
Qed.

(** ** Page tables that are well formed *)

(** Pages are mapped with a permission. *)
Definition perms_ok (m : memory) (root : Z) : Prop := forall va, 0 <= va < 2 ^ 39 -> has_flag (leaf m root va) PTE_V = true -> rwx (leaf m root va) = true.

Lemma child_next m t i c : child m t i = Some c -> next_table m t i = Some c.
Proof. unfold child, next_table, entry. cbn zeta. destruct (has_flag _ PTE_V); [|done]. by destruct (negb _). Qed.

(** The pages below a table are reached by the paths that extend the path to it. *)
Lemma tree_path d m root p t q :
  table_at m root p = Some t -> path_ok p -> (length p + d <= 3)%nat -> q ∈ tree_pages d m t ->
  exists r, path_ok (p ++ r) /\ (length r < d)%nat /\ table_at m root (p ++ r) = Some q.
Proof.
  revert p t. induction d as [|d IH]; intros p t Ht Hp Hl Hq; [by apply elem_of_nil in Hq|]. cbn [tree_pages] in Hq. fold (sub_pages d m t (seqZ 0 512)) in Hq.
  apply elem_of_cons in Hq as [->|Hq]; [exists []; rewrite app_nil_r; split_and!; [done|cbn; lia|done]|].
  apply elem_of_sub_pages in Hq as (i & c & Hi & Hc & Hq). destruct d as [|d]; [by apply elem_of_nil in Hq|].
  assert (Hpi : path_ok (p ++ [i])) by (apply path_ok_snoc_2; [lia|done|by apply index_seqZ]).
  destruct (IH (p ++ [i]) c) as (r & Hr & Hlr & Er); [by rewrite table_at_snoc, Ht; apply child_next|done|rewrite length_app; cbn; lia|done|].
  exists (i :: r). rewrite <- app_assoc in Hr, Er. split_and!; [done|cbn; lia|done].
Qed.

Lemma NoDup_bind {A B} (l : list A) (f : A -> list B) :
  NoDup l -> (forall x, x ∈ l -> NoDup (f x)) -> (forall x y b, x ∈ l -> y ∈ l -> b ∈ f x -> b ∈ f y -> x = y) -> NoDup (l ≫= f).
Proof.
  induction l as [|x l IH]; intros Hnd Hf Hd; [constructor|]. apply list.NoDup_cons in Hnd as [Hx Hnd]. cbn. apply list.NoDup_app. split_and!.
  - apply Hf. left.
  - intros b Hb (y & Hby & Hy)%list_elem_of_bind. apply Hx. rewrite (Hd x y b); [done|left|by right|done|done].
  - apply IH; [done|intros y Hy; apply Hf; by right|]. intros y z b Hy Hz. apply Hd; by right.
Qed.

Lemma tree_nodup d m root p t :
  pt_wf m root -> table_at m root p = Some t -> path_ok p -> (length p + d <= 3)%nat -> NoDup (tree_pages d m t).
Proof.
  intros Hwf. revert p t. induction d as [|d IH]; intros p t Ht Hp Hl; [constructor|]. cbn [tree_pages]. fold (sub_pages d m t (seqZ 0 512)).
  assert (Hsub : forall i c, i ∈ seqZ 0 512 -> child m t i = Some c -> (0 < d)%nat -> table_at m root (p ++ [i]) = Some c /\ path_ok (p ++ [i]) /\ (length (p ++ [i]) + d <= 3)%nat).
  { intros i c Hi Hc Hd. split_and!; [by rewrite table_at_snoc, Ht; apply child_next|apply path_ok_snoc_2; [lia|done|by apply index_seqZ]|rewrite length_app; cbn; lia]. }
  assert (Hpath : forall i c q, i ∈ seqZ 0 512 -> child m t i = Some c -> q ∈ tree_pages d m c -> exists r, path_ok (p ++ i :: r) /\ table_at m root (p ++ i :: r) = Some q).
  { intros i c q Hi Hc Hq. destruct d as [|d]; [by apply elem_of_nil in Hq|]. destruct (Hsub i c Hi Hc) as (H1 & H2 & H3); [lia|].
    destruct (tree_path (S d) m root (p ++ [i]) c q H1 H2 H3 Hq) as (r & Hr & _ & Er). exists r. by rewrite <- app_assoc in Hr, Er. }
  apply list.NoDup_cons. split.
  - intros (i & c & Hi & Hc & Hq)%elem_of_sub_pages. destruct (Hpath i c t Hi Hc Hq) as (r & Hr & Er).
    pose proof (wf_inj _ _ Hwf _ _ _ Hr Hp Er Ht) as E. apply (f_equal length) in E. rewrite length_app in E. cbn in E. lia.
  - apply NoDup_bind; [apply NoDup_seqZ| |].
    + intros i Hi. destruct (child m t i) as [c|] eqn:Hc; [|constructor]. destruct d as [|d]; [constructor|]. destruct (Hsub i c Hi Hc) as (H1 & H2 & H3); [lia|]. by apply (IH (p ++ [i])).
    + intros i j q Hi Hj Hqi Hqj. destruct (child m t i) as [c|] eqn:Hc; [|by apply elem_of_nil in Hqi]. destruct (child m t j) as [e|] eqn:He; [|by apply elem_of_nil in Hqj].
      destruct (Hpath i c q Hi Hc Hqi) as (r & Hr & Er), (Hpath j e q Hj He Hqj) as (r' & Hr' & Er').
      pose proof (wf_inj _ _ Hwf _ _ _ Hr Hr' Er Er') as E. apply app_inv_head in E. by injection E.
Qed.

(** The address that three indices translate. *)
Lemma path_va i j k : index i -> index j -> index k ->
  let va := i * 2 ^ 30 + j * 2 ^ 21 + k * 2 ^ 12 in 0 <= va < 2 ^ 39 /\ va_path va = [i; j] /\ PX 0 va = k.
Proof.
  intros Hi Hj Hk va. unfold index in *. split; [subst va; lia|]. unfold va_path. rewrite !PX_spec by lia. unfold PXSHIFT, PGSHIFT.
  change (2 ^ (12 + 9 * 2)) with (2 ^ 30). change (2 ^ (12 + 9 * 1)) with (2 ^ 21). change (2 ^ (12 + 9 * 0)) with (2 ^ 12).
  assert (va / 2 ^ 30 = i /\ va / 2 ^ 21 = i * 512 + j /\ va / 2 ^ 12 = i * 512 * 512 + j * 512 + k) as (-> & -> & ->) by (subst va; lia).
  split; [|lia]. f_equal; [lia|f_equal; lia].
Qed.

Lemma tree_shallow m root : perms_ok m root -> shallow 3 m root = true.
Proof.
  intros Hp. cbn [shallow]. apply forallb_forall. intros i Hi%list_elem_of_In%index_seqZ. destruct (child m root i) as [c|] eqn:Ec; [|done].
  apply forallb_forall. intros j Hj%list_elem_of_In%index_seqZ. destruct (child m c j) as [e|] eqn:Ee; [|done].
  apply forallb_forall. intros k Hk%list_elem_of_In%index_seqZ. destruct (child m e k) as [f|] eqn:Ef; [|done].
  destruct (path_va i j k Hi Hj Hk) as (Hva & Epath & E0). cbn zeta in *. set (va := _ + k * 2 ^ 12) in *.
  assert (El : leaf m root va = entry m e k).
  { unfold leaf. rewrite Epath, E0. cbn [table_at]. by rewrite (child_next _ _ _ _ Ec), (child_next _ _ _ _ Ee). }
  unfold child in Ef. cbn zeta in Ef. destruct (has_flag (entry m e k) PTE_V) eqn:EV; [|done]. rewrite <- El in EV. apply Hp in EV; [|done].
  rewrite El in EV. by rewrite EV in Ef.
Qed.

(** A mapped page. *)
Lemma mapped_not_leafless m root va : has_flag (leaf m root va) PTE_V = true -> rwx (leaf m root va) = true -> leafless 3 m root = false.
Proof.
  intros HV Hr. destruct (leafless 3 m root) eqn:E; [exfalso|done]. destruct (leaf_table m root va _ eq_refl HV) as (t & Ht & El).
  assert (Hin : forall l, 0 <= l -> PX l va ∈ seqZ 0 512) by (intros l Hl; pose proof (PX_range l va Hl); apply elem_of_seqZ; lia).
  assert (Hstep : forall d u i, i ∈ seqZ 0 512 -> leafless (S d) m u = true -> has_flag (entry m u i) PTE_V = true -> rwx (entry m u i) = false /\ leafless d m (PTE2PA (entry m u i)) = true).
  { intros d u i Hi Hd Hf. cbn [leafless] in Hd. rewrite forallb_forall in Hd. specialize (Hd i). rewrite <- list_elem_of_In in Hd. specialize (Hd Hi). cbn zeta in Hd. rewrite Hf in Hd. cbn in Hd.
    apply andb_true_iff in Hd as [Hd1 Hd2]. by apply negb_true_iff in Hd1. }
  unfold va_path in Ht. cbn [table_at] in Ht. unfold next_table in Ht. fold (entry m root (PX 2 va)) in Ht.
  destruct (has_flag (entry m root (PX 2 va)) PTE_V) eqn:E2; [|done]. destruct (Hstep 2%nat root (PX 2 va) (Hin 2 ltac:(lia)) E E2) as [_ L2]. set (u := PTE2PA (entry m root (PX 2 va))) in *.
  fold (entry m u (PX 1 va)) in Ht. destruct (has_flag (entry m u (PX 1 va)) PTE_V) eqn:E1; [|done]. destruct (Hstep 1%nat u (PX 1 va) (Hin 1 ltac:(lia)) L2 E1) as [_ L1].
  injection Ht as Ht. rewrite Ht in L1. fold (entry m t (PX 0 va)) in El. rewrite <- El in HV. destruct (Hstep 0%nat t (PX 0 va) (Hin 0 ltac:(lia)) L1 HV) as [L0 _].
  rewrite El in L0. congruence.
Qed.

(** [freewalk] of a page table that still maps a page. *)
Lemma freewalk_mapped root s L va :
  vm_inv s root L -> perms_ok (mem s) root -> 0 <= va < 2 ^ 39 -> has_flag (leaf (mem s) root va) PTE_V = true -> freewalk 3 root s = Panic "freewalk: leaf".
Proof.
  intros [Hk Hwf Hnf] Hp Hva HV. assert (Hp0 : path_ok []) by (split; [cbn; lia|constructor]).
  pose proof (freewalk_run 3 root s L (tree_shallow _ _ Hp)) as Hr. rewrite (mapped_not_leafless _ _ va HV (Hp va Hva HV)) in Hr. apply Hr; [|done].
  assert (Htab : forall p, p ∈ tree_pages 3 (mem s) root -> is_table (mem s) root p).
  { intros p Hpp. destruct (tree_path 3 (mem s) root [] root p) as (r & Hr' & _ & Er); [done|done|cbn; lia|done|]. by exists r. }
  split; [|split].
  - apply (tree_nodup 3 (mem s) root []); [done|done|done|cbn; lia].
  - apply list.Forall_forall. intros p Hpp. by apply (is_table_valid _ _ _ Hwf), Htab.
  - intros p Hpp. by apply Hnf, Htab.
Qed.
End FreeWalk.

(** ** Collecting a zombie *)

Section Exit.
Context `{KI : KernelImage} `{DV : Devices}.

(** How many pages of memory the process has. *)
Definition user_pages (x : proc) : Z := PGROUNDUP (p_sz x) / PGSIZE.

(** The address space of a process: its memory, the trap frame and the trampoline are mapped. *)
Record image_ok (m : memory) (x : proc) : Prop := {
  im_perms : perms_ok m (p_pagetable x);
  im_sz : 0 <= p_sz x <= TRAPFRAME;
  im_tramp : unmappable (leaf m (p_pagetable x) TRAMPOLINE);
  im_tf : unmappable (leaf m (p_pagetable x) TRAPFRAME);
  im_user : forall j, 0 <= j < user_pages x -> unmappable (leaf m (p_pagetable x) (0 + j * PGSIZE));
  im_nodup : NoDup (leaf_pages m (p_pagetable x) 0 (user_pages x));
  im_frame : p_trapframe x ∉ leaf_pages m (p_pagetable x) 0 (user_pages x);
}.

(** One of the pages above its memory is mapped too. *)
Definition mapped_above (m : memory) (x : proc) (va : Z) : Prop :=
  0 <= va /\ user_pages x <= va / PGSIZE < TRAPFRAME / PGSIZE /\ has_flag (leaf m (p_pagetable x) va) PTE_V = true.

Lemma unmapped_perms m m' root a n : unmapped m m' root a n -> perms_ok m root -> perms_ok m' root.
Proof. intros Hu Hp va Hva. rewrite (Hu va Hva). case_decide; [done|]. by apply Hp. Qed.

Lemma unmapped_other m m' root a n va : unmapped m m' root a n -> 0 <= va < 2 ^ 39 -> ~ (0 <= va / PGSIZE - a / PGSIZE < n) -> leaf m' root va = leaf m root va.
Proof. intros Hu Hva Hn. by rewrite (Hu va Hva), decide_False. Qed.

(** One page taken out of the table. *)
Lemma unmap_one root va s L :
  vm_inv s root L -> va mod PGSIZE = 0 -> 0 <= va -> va + PGSIZE <= MAXVA -> unmappable (leaf (mem s) root va) ->
  exists s', uvmunmap root va 1 false s = Done tt s' /\ vm_evolve root s L s' L /\ unmapped (mem s) (mem s') root va 1.
Proof.
  intros Hi Hal H0 Hm Hu. apply uvmunmap_keep; [done|done|done|lia|lia|]. intros k Hk. replace (va + k * PGSIZE) with va by lia. done.
Qed.

Lemma user_pages_range x : 0 <= p_sz x <= TRAPFRAME -> 0 <= user_pages x <= TRAPFRAME / PGSIZE /\ (p_sz x = 0 -> user_pages x = 0).
Proof.
  change TRAPFRAME with (67108862 * PGSIZE). intros Hs. unfold user_pages. rewrite PGROUNDUP_spec by (unfold PGSIZE in *; lia).
  rewrite Z.div_mul by done. unfold PGSIZE in *. lia.
Qed.

(** [proc_freepagetable] of a process with a page above its memory. *)
Lemma freepagetable_panics s x L va :
  image_ok (mem s) x -> vm_inv s (p_pagetable x) L ->
  (forall p, p ∈ leaf_pages (mem s) (p_pagetable x) 0 (user_pages x) -> owned (p_pagetable x) s L p) -> mapped_above (mem s) x va ->
  proc_freepagetable (p_pagetable x) (p_sz x) s = Panic "freewalk: leaf".
Proof.
  intros [Hp Hsz Htr Htf Hus Hnd _] Hi Hown (Hva0 & Hva & HV). set (root := p_pagetable x) in *.
  destruct (user_pages_range x Hsz) as [Hn Hn0]. change (TRAPFRAME / PGSIZE) with 67108862 in *. set (n := user_pages x) in *.
  assert (Hrange : 0 <= va < 2 ^ 39) by (unfold PGSIZE in *; lia).
  destruct (unmap_one root TRAMPOLINE s L Hi) as (s1 & E1 & Hev1 & Hu1); [done|done|done|done|].
  assert (Ho1 : forall v, 0 <= v < 2 ^ 39 -> v / PGSIZE <> 67108863 -> leaf (mem s1) root v = leaf (mem s) root v).
  { intros v Hv Hne. apply (unmapped_other _ _ _ _ _ _ Hu1 Hv). change (TRAMPOLINE / PGSIZE) with 67108863. lia. }
  destruct (unmap_one root TRAPFRAME s1 L (ve_inv _ _ _ _ _ Hev1)) as (s2 & E2 & Hev2 & Hu2); [done|done|done|by rewrite Ho1|].
  assert (Ho2 : forall v, 0 <= v < 2 ^ 39 -> v / PGSIZE < 67108862 -> leaf (mem s2) root v = leaf (mem s) root v).
  { intros v Hv Hne. rewrite (unmapped_other _ _ _ _ _ _ Hu2 Hv) by (change (TRAPFRAME / PGSIZE) with 67108862; lia). apply Ho1; [done|lia]. }
  assert (Hpages : leaf_pages (mem s2) root 0 n = leaf_pages (mem s) root 0 n).
  { apply list_fmap_ext. intros i k Hk. apply list_elem_of_lookup_2, elem_of_seqZ in Hk. f_equal. apply Ho2; unfold PGSIZE in *; lia. }
  assert (Hp2 : perms_ok (mem s2) root) by (by apply (unmapped_perms _ _ _ _ _ Hu2), (unmapped_perms _ _ _ _ _ Hu1)).
  pose proof (ve_inv _ _ _ _ _ Hev2) as Hi2.
  unfold proc_freepagetable. mstep E1. mstep E2. unfold uvmfree. fold n. destruct (Z.ltb_spec 0 (p_sz x)) as [Hpos|Hz].
  - destruct (uvmunmap_free root 0 n s2 L Hi2) as (s3 & E3 & Hrel & Hu3); [done|lia|lia|change MAXVA with (2 ^ 38); unfold PGSIZE in *; lia| | | |].
    + intros k Hk. rewrite Ho2 by (unfold PGSIZE in *; lia). by apply Hus.
    + by rewrite Hpages.
    + rewrite Hpages. intros p Hpp. destruct (owned_evolve _ _ _ _ _ _ Hev1 (Hown p Hpp)) as [Hq _]. by destruct (owned_evolve _ _ _ _ _ _ Hev2 Hq) as [[? ? ?] _].
    + mstep E3. apply (freewalk_mapped root s3 _ va (rel_inv _ _ _ _ _ Hrel)); [by apply (unmapped_perms _ _ _ _ _ Hu3)|done|].
      rewrite (unmapped_other _ _ _ _ _ _ Hu3 Hrange) by (change (0 / PGSIZE) with 0; lia). by rewrite Ho2 by (done || lia).
  - rewrite bind_ret. apply (freewalk_mapped root s2 L va); [done|done|done|]. by rewrite Ho2 by (done || lia).
Qed.

(** Only the translations matter. *)
Lemma image_ok_ext m m' x : (forall va, leaf m' (p_pagetable x) va = leaf m (p_pagetable x) va) -> image_ok m x ->
  image_ok m' x /\ leaf_pages m' (p_pagetable x) 0 (user_pages x) = leaf_pages m (p_pagetable x) 0 (user_pages x).
Proof.
  intros El [Hp Hsz Htr Htf Hus Hnd Hfr].
  assert (E : leaf_pages m' (p_pagetable x) 0 (user_pages x) = leaf_pages m (p_pagetable x) 0 (user_pages x)).
  { unfold leaf_pages. apply list_fmap_ext. intros i k _. by rewrite El. }
  split; [|done]. split; try done; rewrite ?El, ?E; try done.
  - intros va. rewrite El. apply Hp.
  - intros j Hj. rewrite El. by apply Hus.
Qed.

Lemma mapped_above_ext m m' x va : (forall va, leaf m' (p_pagetable x) va = leaf m (p_pagetable x) va) -> mapped_above m x va -> mapped_above m' x va.
Proof. intros El (H1 & H2 & H3). by rewrite <- El in H3. Qed.

(** The pages of a process: its trap frame and its memory. *)
Definition frames (m : memory) (x : proc) : list Z := p_trapframe x :: leaf_pages m (p_pagetable x) 0 (user_pages x).

Definition owns (k : kstate) (x : proc) (L : list Z) : Prop :=
  vm_inv k (p_pagetable x) L /\ forall p, p ∈ frames (mem k) x -> owned (p_pagetable x) k L p.

Lemma owned_kfree root s L p s' q :
  (forall t, is_table (mem s') root t <-> is_table (mem s) root t) -> q <> p -> owned root s L q -> owned root s' (p :: L) q.
Proof. intros Ht Hne [Hv Hn Hnt]. split; [done|by rewrite not_elem_of_cons|by rewrite Ht]. Qed.

Lemma freeproc_panics s i x L va :
  procs s !! i = Some x -> image_ok (mem (k_mem (kern s))) x -> owns (k_mem (kern s)) x L -> mapped_above (mem (k_mem (kern s))) x va ->
  freeproc i s = Panic "freewalk: leaf".
Proof.
  intros Hx Him [Hi Hown] Hva. set (k := k_mem (kern s)) in *. set (root := p_pagetable x) in *.
  assert (Htf : owned root k L (p_trapframe x)) by (apply Hown; left). pose proof Htf as [Htv Htn Htt].
  destruct (kfree_vm root k L (p_trapframe x) Hi Htv Htn Htt) as (k1 & E1 & Hi1 & _ & Ht1 & _ & El).
  destruct (image_ok_ext (mem k) (mem k1) x El Him) as [Him1 Epg].
  assert (Hnz : p_trapframe x <> 0 /\ root <> 0).
  { pose proof (valid_page_bounds _ Htv). pose proof (valid_page_bounds _ (is_table_valid _ _ _ (vm_wf _ _ _ Hi) (is_table_root _ _))). unfold KERNBASE in *. lia. }
  assert (Ef : proc_freepagetable root (p_sz x) k1 = Panic "freewalk: leaf").
  { apply (freepagetable_panics k1 x (p_trapframe x :: L) va); [done|done| |by apply (mapped_above_ext (mem k))]. fold root. unfold root. rewrite Epg. intros p Hp.
    apply (owned_kfree root k L _ k1); [done| |by apply Hown; right]. intros ->. by apply (im_frame _ _ Him). }
  unfold freeproc. rewrite bind_gets. unfold proc_at. rewrite (list_lookup_total_correct _ _ _ Hx).
  rewrite (proj2 (Z.eqb_neq _ 0) (proj1 Hnz)). fold root. rewrite (proj2 (Z.eqb_neq _ 0) (proj2 Hnz)). cbn [negb].
  assert (Em : pmem_op (kfree (p_trapframe x)) s = Done tt (set_kern (set_kmem k1 (kern s)) s)) by (unfold pmem_op, lift; fold k; by rewrite E1).
  mstep Em. apply bind_panic. unfold pmem_op, lift. cbn [kern set_kern k_mem set_kmem]. by rewrite Ef.
Qed.

(** [wait(0)] of the parent of a zombie, when no child before it in the table is one. *)
Lemma wait_panics s i x L va :
  procs s !! i = Some x -> p_parent x = Some (me s) -> p_state x = ZOMBIE ->
  (forall j, (j < i)%nat -> p_parent (proc_at j s) = Some (me s) -> p_state (proc_at j s) <> ZOMBIE) ->
  image_ok (mem (k_mem (kern s))) x -> owns (k_mem (kern s)) x L -> mapped_above (mem (k_mem (kern s))) x va ->
  wait 0 s = Panic "freewalk: leaf".
Proof.
  intros Hx Hpar Hz Hbefore Him Hown Hva. unfold wait. rewrite bind_gets. apply bind_panic. pose proof (lookup_lt_Some _ _ _ Hx) as Hi.
  assert (Hscan : forall n j h, (j <= i)%nat -> (i < j + n)%nat -> wait_scan n 0 j h s = Panic "freewalk: leaf"); [|apply Hscan; lia].
  induction n as [|n IH]; intros j h Hj Hn; [lia|]. cbn [wait_scan]. rewrite !bind_gets. destruct (decide (j = i)) as [->|Hne].
  - unfold proc_at. rewrite (list_lookup_total_correct _ _ _ Hx), decide_True, decide_True by done. rewrite bind_gets. cbn [Z.eqb negb]. rewrite bind_ret. cbn [Z.ltb Z.compare].
    apply bind_panic. by apply (freeproc_panics s i x L va).
  - case_decide as Hp; [|apply IH; lia]. rewrite decide_False by (apply Hbefore; [lia|done]). apply IH; lia.
Qed.

(** ** exit *)

Section Leaving.
(** The process [i] with page table and memory as in [x], in the memory [m0]; its parent. *)
Variables (i : nat) (x : proc) (m0 : memory) (pp : nat).
Hypothesis not_own : pp <> i.

(** Its address space is untouched, and the pages of pipes are not among its own. *)
Definition untouched (k : kernel) : Prop :=
  exists L, vm_inv (k_mem k) (p_pagetable x) L /\ (forall va, leaf (mem (k_mem k)) (p_pagetable x) va = leaf m0 (p_pagetable x) va) /\
    (forall p, p ∈ frames m0 x -> owned (p_pagetable x) (k_mem k) L p) /\
    forall pi q, k_pipes k !! pi = Some q -> owned (p_pagetable x) (k_mem k) L pi /\ pi ∉ frames m0 x.

Definition keeps_untouched {A} (m : Kn A) : Prop := forall k a k', m k = Done a k' -> untouched k -> untouched k'.

Lemma ku_bind {A B} (m : Kn A) (f : A -> Kn B) : keeps_untouched m -> (forall a, keeps_untouched (f a)) -> keeps_untouched (m ≫= f).
Proof. intros Hm Hf k b k' (a & k1 & E1 & E2)%bind_done_inv Hk. apply (Hf a k1 b k' E2). by apply (Hm k a). Qed.

(** Operations that touch neither memory nor pipes. *)
Lemma ku_same {A} (m : Kn A) : (forall k a k', m k = Done a k' -> k_mem k' = k_mem k /\ k_pipes k' = k_pipes k) -> keeps_untouched m.
Proof. intros Hm k a k' E Hk. destruct (Hm _ _ _ E) as [E1 E2]. unfold untouched in *. by rewrite E1, E2. Qed.

Lemma ku_fs {A} (m : M (fstate lstate) A) : keeps_untouched (fs_op m).
Proof. apply ku_same. intros k a k'. unfold fs_op, lift. destruct (m (k_fs k)); try done. by intros [= <- <-]. Qed.

Lemma ku_set_file f g : keeps_untouched (set_file f g).
Proof. apply ku_same. by intros k a k' [= <- <-]. Qed.

Lemma ku_pipe_close pi w : keeps_untouched (pipe_close pi w).
Proof.
  intros k a k' E (L & Hi & El & Hf & Hp). unfold pipe_close in E. rewrite bind_gets in E. destruct (k_pipes k !! pi) as [q|] eqn:Eq; [|done].
  destruct (pipeclose q w) as [[q' ws] free]. destruct free.
  - rewrite bind_modify in E. destruct (Hp pi q Eq) as [[Hv Hn Ht] HnF]. unfold mem_op, lift in E. cbn [k_mem set_pipes] in E.
    destruct (kfree_vm (p_pagetable x) (k_mem k) L pi Hi Hv Hn Ht) as (s1 & E1 & Hi1 & _ & Ht1 & _ & El1). rewrite E1 in E. injection E as _ <-.
    exists (pi :: L). cbn [k_mem k_pipes set_kmem set_pipes]. split; [done|]. split; [intros va; by rewrite El1|]. split.
    + intros p Hpp. apply (owned_kfree _ (k_mem k) L); [done|by intros ->|by apply Hf].
    + intros pj qj [Hne Hj]%lookup_delete_Some. destruct (Hp pj qj Hj) as [Ho Hn']. split; [|done]. by apply (owned_kfree _ (k_mem k) L).
  - injection E as _ <-. exists L. cbn [k_mem k_pipes set_pipes]. split_and!; try done. intros pj qj [[<- _]|[_ Hj]]%lookup_insert_Some; [by apply (Hp pi q)|by apply (Hp pj qj)].
Qed.

Lemma ku_fileclose f : keeps_untouched (fileclose f).
Proof.
  unfold fileclose. apply ku_bind; [apply ku_same; by intros k a k' [= <- <-]|]. intros y. destruct (f_ref y <? 1); [done|].
  apply ku_bind; [apply ku_set_file|]. intros _. destruct (0 <? f_ref y - 1); [apply ku_same; by intros k a k' [= <- <-]|].
  apply ku_bind; [apply ku_set_file|]. intros _. destruct (f_type y); [apply ku_same; by intros k a k' [= <- <-]|apply ku_pipe_close|..];
    (apply ku_bind; [apply ku_fs|intros _]; apply ku_bind; [apply ku_fs|intros _]; apply ku_fs).
Qed.

(** What [exit] keeps: the address space, and which process is whose child. *)
Definition image (y : proc) : Z * Z * Z * option nat := (p_pagetable y, p_sz y, p_trapframe y, p_parent y).

Record leaving (s : ksys) : Prop := {
  lv_mem : untouched (kern s);
  lv_me : me s = i;
  lv_proc : exists y, procs s !! i = Some y /\ image y = (p_pagetable x, p_sz x, p_trapframe x, Some pp);
}.

Definition keeps_leaving {A} (m : P A) : Prop := forall s a s', m s = Done a s' -> leaving s -> leaving s'.

Lemma kl_bind {A B} (m : P A) (f : A -> P B) : keeps_leaving m -> (forall a, keeps_leaving (f a)) -> keeps_leaving (m ≫= f).
Proof. intros Hm Hf s b s' (a & s1 & E1 & E2)%bind_done_inv Hs. apply (Hf a s1 b s' E2). by apply (Hm s a). Qed.

Lemma kl_ret {A} (a : A) : keeps_leaving (mret a).
Proof. by intros s b s' [= <- <-]. Qed.

(** Reading, and what follows may use that the process is still there. *)
Lemma kl_gets {A B} (g : ksys -> A) (f : A -> P B) : (forall s, leaving s -> forall b s', f (g s) s = Done b s' -> leaving s') -> keeps_leaving (gets g ≫= f).
Proof. intros Hf s b s' E Hs. rewrite bind_gets in E. by apply (Hf s Hs b s'). Qed.

Lemma kl_gets_any {A B} (g : ksys -> A) (f : A -> P B) : (forall a, keeps_leaving (f a)) -> keeps_leaving (gets g ≫= f).
Proof. intros Hf. apply kl_gets. intros s Hs b s' E. by apply (Hf (g s) s b s'). Qed.

Lemma kl_alter p f : (forall y, image (f y) = image y) -> keeps_leaving (set_proc p f).
Proof.
  intros Hf s a s' [= _ <-] [H1 H2 (y & Hy & Ey)]. split; [done|done|]. cbn [procs set_procs]. destruct (decide (p = i)) as [->|Hne].
  - exists (f y). rewrite list_lookup_alter_eq, Hy. cbn. by rewrite Hf.
  - exists y. by rewrite list_lookup_alter_ne.
Qed.

Lemma kl_kern {A} (m : Kn A) : keeps_untouched m -> keeps_leaving (kern_op m).
Proof.
  intros Hm s a s' E [H1 H2 (y & Hy & Ey)]. unfold kern_op in E. destruct (m _) as [b k'| |] eqn:Em; [|done..]. injection E as _ <-.
  split; [apply (Hm _ _ _ Em); exact H1|done|]. cbn [procs set_kern set_procs]. rewrite H2. exists (with_files (k_ofile k') ((fun _ => k_cwd k') <$> p_cwd (proc_at i s)) y).
  rewrite list_lookup_alter_eq, Hy. done.
Qed.

Lemma kl_fs {A} (m : M (fstate lstate) A) : keeps_leaving (pfs_op m).
Proof. intros s a s' E [H1 H2 H3]. unfold pfs_op, lift in E. destruct (m _); [|done..]. injection E as _ <-. by split. Qed.

Lemma kl_wakeup ch : keeps_leaving (wakeup ch).
Proof.
  intros s a s' [= _ <-] [H1 H2 (y & Hy & Ey)]. split; [done|done|]. cbn [procs set_procs]. rewrite list_lookup_imap, Hy. cbn. eexists. split; [reflexivity|].
  case_decide; [done|]. unfold woken. by case_decide.
Qed.

Lemma kl_exit_files os fd : keeps_leaving (exit_files os fd).
Proof.
  revert fd. induction os as [|[f|] os IH]; intros fd; cbn [exit_files]; [apply kl_ret| |apply IH].
  apply kl_bind; [apply kl_kern, ku_fileclose|]. intros _. apply kl_gets_any. intros p. apply kl_bind; [by apply kl_alter|]. intros _. apply IH.
Qed.

Lemma kl_adopt j : keeps_leaving (adopt i j).
Proof.
  unfold adopt. apply kl_gets. intros s Hs b s' E. case_decide as Hp; [|by injection E as _ <-]. rewrite bind_gets in E.
  assert (Hji : j <> i).
  { intros ->. destruct Hs as [_ _ (y & Hy & Ey)]. unfold proc_at in Hp. rewrite (list_lookup_total_correct _ _ _ Hy) in Hp. injection Ey as _ _ _ Ey. congruence. }
  apply bind_done_inv in E as ([] & s1 & E1 & E2). assert (Hs1 : leaving s1).
  { injection E1 as <-. destruct Hs as [H1 H2 (y & Hy & Ey)]. split; [done|done|]. exists y. cbn [procs set_procs]. by rewrite list_lookup_alter_ne. }
  destruct (initproc s); [by apply (kl_wakeup _ _ _ _ E2)|by injection E2 as _ <-].
Qed.

Lemma kl_forM {A} (l : list A) (f : A -> P unit) : (forall a, keeps_leaving (f a)) -> keeps_leaving (forM_ l f).
Proof. intros Hf. induction l as [|a l IH]; cbn [forM_]; [apply kl_ret|]. apply kl_bind; [done|]. by intros _. Qed.

Lemma exit_leaving status s s' : exit status s = Done tt s' -> leaving s -> leaving s' /\ p_state (proc_at i s') = ZOMBIE.
Proof.
  intros E Hs. unfold exit in E. apply bind_done_inv in E as ([] & s1 & E1 & E). apply bind_done_inv in E as ([] & s2 & E2 & E3).
  assert (H1 : leaving s1).
  { refine (_ s tt s1 E1 Hs). unfold exit_close. apply kl_gets_any. intros p. apply kl_gets_any. intros ip. case_decide; [done|]. apply kl_gets_any. intros y.
    apply kl_bind; [apply kl_exit_files|]. intros _. apply kl_bind; [apply kl_kern, ku_fs|]. intros _. apply kl_bind; [destruct (p_cwd y); [apply kl_fs|apply kl_ret]|]. intros _.
    apply kl_bind; [apply kl_kern, ku_fs|]. intros _. by apply kl_alter. }
  assert (H2 : leaving s2).
  { refine (_ s1 tt s2 E2 H1). unfold exit_give. apply kl_gets. intros s3 Hs3 b s4. rewrite (lv_me _ Hs3). intros E4.
    refine (_ s3 b s4 E4 Hs3). apply kl_bind; [unfold reparent; apply kl_gets_any; intros n; apply kl_forM, kl_adopt|]. intros _. apply kl_gets_any. intros y.
    destruct (p_parent y); [apply kl_wakeup|apply kl_ret]. }
  unfold exit_zombie in E3. rewrite bind_gets, (lv_me _ H2) in E3. split; [by apply (kl_alter i (fun x => with_state ZOMBIE (with_xstate status x)) (fun _ => eq_refl) s2 tt)|].
  injection E3 as <-. destruct (lv_proc _ H2) as (y & Hy & _). unfold proc_at. cbn [procs set_procs]. rewrite (list_lookup_total_correct _ i (with_state ZOMBIE (with_xstate status y))); [done|].
  by rewrite list_lookup_alter_eq, Hy.
Qed.
End Leaving.

(** Another record of the same address space. *)
Lemma image_same m y x :
  p_pagetable y = p_pagetable x -> p_sz y = p_sz x -> p_trapframe y = p_trapframe x ->
  (image_ok m x -> image_ok m y) /\ frames m y = frames m x /\ (forall va, mapped_above m x va -> mapped_above m y va).
Proof.
  intros E1 E2 E3. assert (En : user_pages y = user_pages x) by (unfold user_pages; by rewrite E2). unfold frames, mapped_above. rewrite E1, E3, En. split; [|done].
  intros []. split; rewrite ?E1, ?E2, ?E3, ?En; done.
Qed.

(** A process that exits with a page mapped above its memory. *)
Lemma exit_mapped_panics s s' x L pp status va :
  let m := mem (k_mem (kern s)) in
  procs s !! me s = Some x -> p_parent x = Some pp -> pp <> me s -> image_ok m x -> owns (k_mem (kern s)) x L ->
  (forall pi q, k_pipes (kern s) !! pi = Some q -> owned (p_pagetable x) (k_mem (kern s)) L pi /\ pi ∉ frames m x) ->
  mapped_above m x va -> exit status s = Done tt s' ->
  (forall j, (j < me s)%nat -> p_parent (proc_at j s') = Some pp -> p_state (proc_at j s') <> ZOMBIE) ->
  wait 0 (as_proc pp s') = Panic "freewalk: leaf".
Proof.
  intros m Hx Hpar Hne Him [Hi Hown] Hpipes Hva E Hbefore.
  assert (Hl : leaving (me s) x m pp s).
  { split; [|done|]. - exists L. by split_and!. - exists x. split; [done|]. unfold image. by rewrite Hpar. }
  destruct (exit_leaving (me s) x m pp Hne status s s' E Hl) as [[(L' & Hi' & El & Hf & _) Hme (y & Hy & Ey)] Hz]. unfold image in Ey. injection Ey as E1 E2 E3 E4.
  set (m' := mem (k_mem (kern s'))) in *. destruct (image_ok_ext m m' x El Him) as [Him' Epg].
  destruct (image_same m' y x E1 E2 E3) as (Hy1 & Hy2 & Hy3). unfold proc_at in Hz. rewrite (list_lookup_total_correct _ _ _ Hy) in Hz.
  apply (wait_panics (as_proc pp s') (me s) y L' va); [done|done|done|done|by apply Hy1| |].
  - split; [by rewrite E1|]. rewrite E1. cbn [kern as_proc]. fold m'. rewrite Hy2. intros p Hp. apply Hf. unfold frames in *. by rewrite <- Epg.
  - apply Hy3. by apply (mapped_above_ext m).
Qed.

(** C28: a process that exits with a ring buffer open brings the kernel down.  [exit] takes no
    page out of the page table, so when it has returned, the ring buffer is still mapped above
    the memory of the zombie, and when the parent comes to collect it, [wait] frees the memory
    up to the size of the process and [freewalk] panics on the pages of the ring.  This
    is so for every process whose memory, trap frame and trampoline are mapped, whatever else
    it has open. *)
Theorem exit_with_ring_panics s s' x L pp status base rb :
  let m := mem (k_mem (kern s)) in
  procs s !! me s = Some x -> p_parent x = Some pp -> pp <> me s -> image_ok m x -> owns (k_mem (kern s)) x L ->
  (forall pi q, k_pipes (kern s) !! pi = Some q -> owned (p_pagetable x) (k_mem (kern s)) L pi /\ pi ∉ frames m x) ->
  ring_at m (p_pagetable x) base rb -> PGROUNDUP (p_sz x) <= base < TRAPFRAME -> exit status s = Done tt s' ->
  (forall j, (j < me s)%nat -> p_parent (proc_at j s') = Some pp -> p_state (proc_at j s') <> ZOMBIE) ->
  wait 0 (as_proc pp s') = Panic "freewalk: leaf".
Proof.
  intros m Hx Hpar Hne Him Hown Hpipes [Hring _] Hb E Hbefore. apply (exit_mapped_panics s s' x L pp status base); try done.
  specialize (Hring 0 ltac:(lia)). rewrite Z.mul_0_l, Z.sub_0_r in Hring. destruct (user_pages_range x (im_sz _ _ Him)) as [Hn _].
  split; [|split; [|fold m; rewrite Hring; apply map_pte_V]].
  - unfold user_pages, PGSIZE in *. lia.
  - split; [unfold user_pages; apply Z.div_le_mono; [done|lia]|]. change TRAPFRAME with (67108862 * PGSIZE) in *. rewrite Z.div_mul by done. apply Z.div_lt_upper_bound; [done|lia].
Qed.
End Exit.

(** ** Checking a page table by running *)

Section Check.
Context `{KI : KernelImage}.

(** The tables of the two upper levels, with their paths. *)
Definition tables_below (m : memory) (x : list Z * Z) : list (list Z * Z) :=
  omap (fun i => (fun u => (x.1 ++ [i], u)) <$> next_table m x.2 i) (seqZ 0 512).
Definition all_tables (m : memory) (root : Z) : list (list Z * Z) :=
  let l1 := tables_below m ([], root) in ([], root) :: l1 ++ (l1 ≫= tables_below m).

Lemma elem_of_tables_below m p t i u : index i -> next_table m t i = Some u -> (p ++ [i], u) ∈ tables_below m (p, t).
Proof.
  intros Hi E. unfold tables_below. apply list_elem_of_omap. exists i. split; [apply elem_of_seqZ; unfold index in *; lia|]. cbn. by rewrite E.
Qed.

Lemma all_tables_spec m root p t : path_ok p -> table_at m root p = Some t -> (p, t) ∈ all_tables m root.
Proof.
  intros [Hl Hp] E. unfold all_tables. destruct p as [|i [|j [|]]]; [injection E as <-; left|..|cbn in Hl; lia].
  - right. apply elem_of_app. left. cbn in E. destruct (next_table m root i) as [u|] eqn:Eu; [|done]. injection E as <-.
    apply list.Forall_cons in Hp as [Hi _]. by apply (elem_of_tables_below m []).
  - right. apply elem_of_app. right. cbn in E. destruct (next_table m root i) as [u|] eqn:Eu; [|done]. destruct (next_table m u j) as [v|] eqn:Ev; [|done]. injection E as <-.
    rewrite !list.Forall_cons in Hp. destruct Hp as (Hi & Hj & _). apply list_elem_of_bind. exists ([i], u). split; [by apply (elem_of_tables_below m [i])|by apply (elem_of_tables_below m [])].
Qed.

Lemma wf_check m root : NoDup (all_tables m root).*2 -> Forall valid_page (all_tables m root).*2 -> pt_wf m root.
Proof.
  intros Hnd Hv. rewrite list.Forall_forall in Hv. split.
  - intros p t Hp E. apply Hv. by apply (list_elem_of_fmap_2 snd _ (p, t)), all_tables_spec.
  - intros p q t Hp Hq E1 E2. apply all_tables_spec in E1, E2; [|done..].
    apply list_elem_of_lookup in E1 as [a Ha], E2 as [b Hb].
    assert (a = b) as <-; [|rewrite Ha in Hb; by injection Hb].
    apply (NoDup_lookup (all_tables m root).*2 a b t Hnd); rewrite list_lookup_fmap; [by rewrite Ha|by rewrite Hb].
Qed.

Definition perm_ok (v : Z) : bool := negb (has_flag v PTE_V) || rwx v.
Definition perms_check (m : memory) (root : Z) : Prop :=
  Forall (fun x => length x.1 = 2%nat -> Forall (fun i => perm_ok (entry m x.2 i) = true) (seqZ 0 512)) (all_tables m root).

Lemma perms_check_ok m root : perms_check m root -> perms_ok m root.
Proof.
  intros Hc va Hva HV. destruct (leaf_table m root va _ eq_refl HV) as (t & Ht & El).
  pose proof (proj1 (list.Forall_forall _ _) Hc _ (all_tables_spec _ _ _ _ (va_path_ok va) Ht) eq_refl) as H1.
  assert (Hi : PX 0 va ∈ seqZ 0 512) by (apply elem_of_seqZ; pose proof (PX_range 0 va ltac:(lia)); lia).
  pose proof (proj1 (list.Forall_forall _ _) H1 _ Hi) as H2. cbv beta in H2. unfold snd, entry in H2. rewrite El in H2.
  unfold perm_ok in H2. rewrite HV in H2. exact H2.
Qed.
End Check.

(** ** A process with a ring buffer *)

#[local] Instance no_devs_here : Devices := {| dev_read := fun _ => None; dev_write := fun _ => None |}.

(** A page table at page 0 with a page of memory, a ring buffer whose pages are 10 to 25 and
    whose bookkeeping is page 26, the trampoline, and the trap frame in page 6. *)
Definition ring_of_16 : ringbuf_t := Ringbuf 1 (97 :: replicate 15 0) (dpage <$> seqZ 10 16) (dpage 26).
Definition link (p : Z) : Z := Z.lor (PA2PTE (dpage p)) PTE_V.
Definition ring_mem : memory :=
  let m := store64 ∅ (dpage 0) (link 1) in
  let m := store64 m (dpage 0 + 8 * 255) (link 3) in
  let m := store64 m (dpage 1) (link 2) in
  let m := store64 m (dpage 3 + 8 * 511) (link 4) in
  let m := store64 m (dpage 2) (map_pte (dpage 5) PTE_RWXU) in
  let m := store64 m (dpage 4 + 8 * 511) (map_pte trampoline (Z.lor PTE_R PTE_X)) in
  let m := store64 m (dpage 4 + 8 * 510) (map_pte (dpage 6) (Z.lor PTE_R PTE_W)) in
  let m := store64 m (dpage 2 + 8 * 68) (map_pte (dpage 26) PTE_RWXU) in
  foldr (fun k m => store64 m (dpage 2 + 8 * (100 - k)) (map_pte (RingbufK.buf_at ring_of_16 (k mod 16)) PTE_RWXU)) m (seqZ 0 32).
Definition ring_mem_v : memory := Eval vm_compute in ring_mem.

Definition ring_child : proc :=
  Proc RUNNING None false 0 2 (Some 0%nat) 0 PGSIZE (dpage 0) (dpage 6) (Context 0 0 []) (replicate 16 None) None (replicate 16 0).
Definition ring_parent : proc := Proc RUNNABLE None false 0 1 None 0 0 0 0 (Context 0 0 []) (replicate 16 None) None (replicate 16 0).

Definition ring_sys : ksys :=
  KSys (Kernel (FState (LState (BState [] ∅ [] 1) (Log 0 0 0 false 0 0 [])) (Superblock 0 0 0 0 0 0 0 0) []) [] ∅ (KState ring_mem_v 0) [] 0)
    [ring_parent; ring_child] 3 (Some 0%nat) false 1.

Lemma ring_tables : all_tables ring_mem_v (dpage 0) = [([], dpage 0); ([0], dpage 1); ([255], dpage 3); ([0; 0], dpage 2); ([255; 511], dpage 4)].
Proof. vm_compute. reflexivity. Qed.

Lemma ring_image : image_ok ring_mem_v ring_child.
Proof.
  split.
  - apply perms_check_ok. unfold perms_check. change (p_pagetable ring_child) with (dpage 0). rewrite ring_tables.
    repeat (constructor; [intros; try done|]); try constructor; apply (bool_decide_unpack _); vm_compute; exact I.
  - vm_compute. split; discriminate.
  - split; vm_compute; [reflexivity|discriminate].
  - split; vm_compute; [reflexivity|discriminate].
  - change (user_pages ring_child) with 1. intros j Hj. assert (j = 0) as -> by lia. split; vm_compute; [reflexivity|discriminate].
  - apply (bool_decide_unpack _). vm_compute. exact I.
  - apply (bool_decide_unpack _). vm_compute. exact I.
Qed.

Lemma ring_table_page t : is_table ring_mem_v (dpage 0) t -> t ∈ (dpage <$> [0; 1; 3; 2; 4]).
Proof.
  intros (p & Hp & E). apply all_tables_spec in E; [|done]. rewrite ring_tables in E. by apply (list_elem_of_fmap_2 snd) in E.
Qed.

Lemma ring_owns : owns (KState ring_mem_v 0) ring_child [].
Proof.
  split; [split|].
  - split; [done|constructor|constructor].
  - apply wf_check; cbn [mem p_pagetable ring_child]; rewrite ring_tables; cbn [fmap list_fmap snd].
    + apply (bool_decide_unpack _). vm_compute. exact I.
    + repeat constructor; apply dpage_valid; lia.
  - intros t _. by apply not_elem_of_nil.
  - assert (Ef : frames ring_mem_v ring_child = [dpage 6; dpage 5]) by (vm_compute; reflexivity). cbn [mem]. rewrite Ef. intros p Hp.
    assert (Hn : (p ∉ dpage <$> [0; 1; 3; 2; 4]) /\ valid_page p).
    { rewrite !elem_of_cons in Hp. destruct Hp as [->|[->|[]%not_elem_of_nil]]; (split; [apply (bool_decide_unpack _); vm_compute; exact I|apply dpage_valid; lia]). }
    split; [exact (proj2 Hn)|by apply not_elem_of_nil|]. intros Ht%ring_table_page. exact (proj1 Hn Ht).
Qed.

Lemma ring_mapped : ring_at ring_mem_v (dpage 0) (100 * PGSIZE) ring_of_16.
Proof.
  split; [|vm_compute; reflexivity]. intros k Hk.
  assert (Hall : Forall (fun k => leaf ring_mem_v (dpage 0) (100 * PGSIZE - k * PGSIZE) = map_pte (RingbufK.buf_at ring_of_16 (k mod RINGBUF_SIZE)) PTE_RWXU) (seqZ 0 32)).
  { apply (bool_decide_unpack _). vm_compute. exact I. }
  rewrite list.Forall_forall in Hall. apply Hall, elem_of_seqZ. lia.
Qed.

Definition after_exit : ksys := Eval vm_compute in match exit 0 ring_sys with Done _ s => s | _ => ring_sys end.

Lemma exit_with_ring_panics_witness : exit 0 ring_sys = Done tt after_exit /\ wait 0 (as_proc 0 after_exit) = Panic "freewalk: leaf".
Proof.
  assert (E : exit 0 ring_sys = Done tt after_exit) by (vm_compute; reflexivity). split; [exact E|].
  apply (exit_with_ring_panics ring_sys after_exit ring_child [] 0 0 (100 * PGSIZE) ring_of_16).
  - reflexivity.
  - reflexivity.
  - discriminate.
  - exact ring_image.
  - exact ring_owns.
  - intros pi q Hq. discriminate Hq.
  - exact ring_mapped.
  - vm_compute. split; [discriminate|reflexivity].
  - exact E.
  - intros j Hj. assert (j = 0%nat) as -> by (change (me ring_sys) with 1%nat in Hj; lia). intros _. vm_compute. discriminate.
Defined.

(** ** Runs from the first process *)

(** The ring-buffer system call of the running process, on an empty table. *)
Definition open_ring_run : P Z := fun s =>
  let x := proc_at (me s) s in
  match ringbuf empty_ringbuf (p_pagetable x) (arr [97; 0]) true 8 (RState (k_mem (kern s)) no_ringbufs) with
  | Done r t => Done r (set_kern (set_kmem (km t) (kern s)) s)
  | Panic msg => Panic msg
  | Hang => Hang
  end.

(** init forks; the child runs [m] and exits; init waits for it. *)
Definition child_runs (m : P Z) : P (Z * option Z) :=
  boot forkret0;;
  schedule 0;; modify (as_proc 0);;
  fork forkret0;;
  schedule 1;; modify (as_proc 1);;
  r ← m;
  exit 0;;
  modify (as_proc 0);;
  w ← wait 0;
  mret (r, w).

Definition result {S A} (o : outcome S A) : A + string := match o with Done a _ => inl a | Panic msg => inr msg | Hang => inr "hang"%string end.

(** The child that opened a ring buffer brings the kernel down; one that opened nothing is
    collected. *)
Lemma child_with_ring_run :
  result (child_runs open_ring_run bare) = inr "freewalk: leaf"%string /\
  result (child_runs (mret 0) bare) = inl (0, Some 2).
Proof. split; vm_compute; reflexivity. Qed.
