(* ===== verification/Grep.v ===== *)
(** * grep, [user/grep.c]

    The matcher for the operators ^ . * $ and the loop that cuts the input into lines.
    A C string is the list of its characters before the NUL.  The matcher is shown to
    decide a regular-expression language, and the loop to print exactly the matching
    lines, whatever the sizes of the pieces [read] delivers. *)

From S2P Require Import Prelude.

Definition CARET : Z := 94.
Definition DOLLAR : Z := 36.
Definition DOT : Z := 46.
Definition STAR : Z := 42.
Definition NL : Z := 10.

(** ** The matcher *)

(** [matchstar(c, re, text)], where [here] is [matchhere(re, .)]. *)
Fixpoint matchstar (here : list Z -> bool) (c : Z) (text : list Z) : bool :=
  if here text then true
  else
    match text with
    | [] => false
    | t :: text => if (t =? c) || (c =? DOT) then matchstar here c text else false
    end.

Fixpoint matchhere (re text : list Z) : bool :=
  match re with
  | [] => true
  | c :: re1 =>
      match re1 with
      | s :: re2 =>
          if s =? STAR then matchstar (matchhere re2) c text
          else
            match text with
            | t :: text => if (c =? DOT) || (c =? t) then matchhere re1 text else false
            | [] => false
            end
      | [] =>
          if c =? DOLLAR then match text with [] => true | _ => false end
          else
            match text with
            | t :: text => if (c =? DOT) || (c =? t) then matchhere re1 text else false
            | [] => false
            end
      end
  end.

(** The loop of [match] over the suffixes of the text, the empty one included. *)
Fixpoint match_from (re text : list Z) : bool :=
  if matchhere re text then true
  else match text with [] => false | _ :: text => match_from re text end.

Definition match_ (re text : list Z) : bool :=
  match re with
  | c :: re' => if c =? CARET then matchhere re' text else match_from re text
  | [] => match_from re text
  end.

(** ** The loop over the input *)

(** [strchr(s, c)] of the user library: the index of the first [c] before the NUL. *)
Fixpoint strchr (s : list Z) (c : Z) : option nat :=
  match s with
  | [] => None
  | x :: s => if x =? 0 then None else if x =? c then Some O else S <$> strchr s c
  end.

(** The inner loop from [p] on: what it writes and what is left in the buffer. *)
Fixpoint grep_lines (fuel : nat) (pattern p : list Z) : option (list Z * list Z) :=
  match fuel with
  | O => None
  | S fuel =>
      match strchr p NL with
      | None => Some ([], p)
      | Some q =>
          let out := if match_ pattern (take q p) then take (S q) p else [] in
          '(o, r) ← grep_lines fuel pattern (drop (S q) p); Some (out ++ o, r)
      end
  end.

Definition BUFSZ : nat := 1024.

(** [grep(pattern, fd)]: [buf] holds the [m] bytes kept from earlier reads, [inp] is what
    [fd] has left and [ks i] how many bytes the [i]-th [read] finds ready; it delivers as
    many of them as fit. *)
Fixpoint grep (fuel : nat) (pattern : list Z) (ks : nat -> nat) (i : nat) (buf inp : list Z) : option (list Z) :=
  match fuel with
  | O => None
  | S fuel =>
      let n := (ks i `min` (BUFSZ - length buf - 1))%nat in
      match take n inp with
      | [] => Some []
      | got =>
          '(o, rest) ← grep_lines (S (length buf + length got)) pattern (buf ++ got);
          o' ← grep fuel pattern ks (S i) rest (drop n inp); Some (o ++ o')
      end
  end.

(** ** The language of a pattern *)

Inductive atom := Lit (c : Z) | Any.
Inductive item := One (a : atom) | Many (a : atom).

Definition atom_of (c : Z) : atom := if c =? DOT then Any else Lit c.

(** The characters an atom stands for. *)
Definition accepts (a : atom) (t : Z) : Prop := match a with Lit c => t = c | Any => True end.

(** The items of a pattern (without the leading ^), and whether it ends in $. *)
Fixpoint items (re : list Z) : list item * bool :=
  match re with
  | [] => ([], false)
  | c :: re1 =>
      match re1 with
      | s :: re2 =>
          if s =? STAR then let '(is_, e) := items re2 in (Many (atom_of c) :: is_, e)
          else let '(is_, e) := items re1 in (One (atom_of c) :: is_, e)
      | [] => if c =? DOLLAR then ([], true) else ([One (atom_of c)], false)
      end
  end.

Inductive lang : list item -> list Z -> Prop :=
| lang_nil : lang [] []
| lang_one a is_ t w : accepts a t -> lang is_ w -> lang (One a :: is_) (t :: w)
| lang_many_stop a is_ w : lang is_ w -> lang (Many a :: is_) w
| lang_many_more a is_ t w : accepts a t -> lang (Many a :: is_) w -> lang (Many a :: is_) (t :: w).
#[local] Hint Constructors lang : core.

(** The text starts with a word of the pattern, which is all of it after a $. *)
Definition starts (re text : list Z) : Prop :=
  let '(is_, e) := items re in exists w rest, text = w ++ rest /\ lang is_ w /\ (e = true -> rest = []).

(** What the pattern means: a word somewhere in the text, at its start after a ^. *)
Definition occurs (re text : list Z) : Prop :=
  match re with
  | c :: re' => if c =? CARET then starts re' text else exists pre post, text = pre ++ post /\ starts re post
  | [] => exists pre post, text = pre ++ post /\ starts re post
  end.

Lemma accepts_dec c t : accepts (atom_of c) t <-> (t =? c) || (c =? DOT) = true.
Proof. unfold atom_of, accepts. destruct (Z.eqb_spec c DOT); rewrite orb_true_iff, Z.eqb_eq; naive_solver. Qed.

Lemma starts_one c s re text : s <> STAR ->
  starts (c :: s :: re) text <-> exists t text', text = t :: text' /\ accepts (atom_of c) t /\ starts (s :: re) text'.
Proof.
  intros Hs. unfold starts. cbn [items]. destruct (Z.eqb_spec s STAR) as [|_]; [done|].
  change (match re with [] => _ | _ => _ end) with (items (s :: re)).
  destruct (items (s :: re)) as [is_ e]. split.
  - intros (w & rest & -> & Hl & He). inversion Hl; subst. eexists _, _. split; [done|]. split; [done|]. eauto.
  - intros (t & text' & -> & Ha & w & rest & -> & Hl & He). exists (t :: w), rest. auto.
Qed.

Lemma starts_star c re text :
  starts (c :: STAR :: re) text <-> exists w rest, text = w ++ rest /\ Forall (accepts (atom_of c)) w /\ starts re rest.
Proof.
  unfold starts. cbn [items]. rewrite Z.eqb_refl. destruct (items re) as [is_ e]. split.
  - intros (w & rest & -> & Hl & He). remember (Many (atom_of c) :: is_) as l eqn:El. induction Hl as [| |a is' w Hl _|a is' t w Ha Hl IH]; simplify_eq.
    + exists [], (w ++ rest). eauto 10.
    + destruct IH as (w1 & r1 & E & Hw & Hr); [done|]. exists (t :: w1), r1. cbn. rewrite E. eauto.
  - intros (w & rest & -> & Hw & w' & r' & -> & Hl & He). exists (w ++ w'), r'. split; [by rewrite (assoc_L (++))|]. split; [|done].
    induction Hw; cbn; auto.
Qed.

Lemma matchstar_spec (here : list Z -> bool) (P : list Z -> Prop) c text :
  (forall text, here text = true <-> P text) ->
  matchstar here c text = true <-> exists w rest, text = w ++ rest /\ Forall (accepts (atom_of c)) w /\ P rest.
Proof.
  intros Hh. induction text as [|t text IH]; cbn [matchstar].
  - destruct (here []) eqn:E.
    + split; [|done]. intros _. exists [], []. split; [done|]. split; [constructor|by apply Hh].
    + split; [done|]. intros (w & rest & Et & _ & HP). symmetry in Et. apply app_nil in Et as [-> ->]. apply Hh in HP. congruence.
  - destruct (here (t :: text)) eqn:E.
    + split; [|done]. intros _. exists [], (t :: text). split; [done|]. split; [constructor|by apply Hh].
    + pose proof (accepts_dec c t) as Ha. destruct ((t =? c) || (c =? DOT)).
      * rewrite IH. split.
        -- intros (w & rest & -> & Hw & HP). exists (t :: w), rest. split; [done|]. split; [|done]. constructor; [by apply Ha|done].
        -- intros ([|t' w] & rest & Et & Hw & HP); [cbn in Et; subst; apply Hh in HP; congruence|]. injection Et as <- ->.
           apply list.Forall_cons in Hw as [_ Hw]. eauto.
      * split; [done|]. intros ([|t' w] & rest & Et & Hw & HP); [cbn in Et; subst; apply Hh in HP; congruence|].
        injection Et as <- ->. apply list.Forall_cons in Hw as [Hw _]. by apply Ha in Hw.
Qed.

(** The last character of a pattern, and any other that no star follows. *)
Lemma matchone_spec c re text (P : list Z -> Prop) :
  (forall text, matchhere re text = true <-> P text) ->
  (match text with t :: text => if (c =? DOT) || (c =? t) then matchhere re text else false | [] => false end) = true <->
  exists t text', text = t :: text' /\ accepts (atom_of c) t /\ P text'.
Proof.
  intros HP. destruct text as [|t text]; [naive_solver|]. pose proof (accepts_dec c t) as Ha.
  rewrite orb_comm, (Z.eqb_sym t c) in Ha. destruct ((c =? DOT) || (c =? t)); [rewrite HP|]; naive_solver.
Qed.

Lemma starts_nil text : starts [] text.
Proof. exists [], text. done. Qed.

Lemma starts_last c text : c <> DOLLAR -> starts [c] text <-> exists t text', text = t :: text' /\ accepts (atom_of c) t /\ starts [] text'.
Proof.
  intros Hc. unfold starts at 1. cbn [items]. destruct (Z.eqb_spec c DOLLAR); [done|]. split.
  - intros (w & rest & -> & Hl & _). inversion Hl as [|? ? t w' Ha Hl'| |]; subst. eexists _, _. split; [done|]. split; [done|]. apply starts_nil.
  - intros (t & text' & -> & Ha & _). exists [t], text'. split; [done|]. split; [auto|done].
Qed.

Lemma starts_dollar text : starts [DOLLAR] text <-> text = [].
Proof.
  unfold starts. cbn. split.
  - intros (w & rest & -> & Hl & ->); [|done]. by inversion Hl.
  - intros ->. exists [], []. auto.
Qed.

Lemma matchhere_spec re text : matchhere re text = true <-> starts re text.
Proof.
  revert text. induction re as [re IH] using (induction_ltof1 _ length). unfold ltof in IH. intros text.
  destruct re as [|c [|s re]].
  - split; [intros _; apply starts_nil|done].
  - cbn [matchhere]. destruct (Z.eqb_spec c DOLLAR) as [->|Hc].
    + rewrite starts_dollar. by destruct text.
    + rewrite starts_last by done. apply (matchone_spec c []). intros. apply IH. cbn. lia.
  - cbn [matchhere]. destruct (Z.eqb_spec s STAR) as [->|Hs].
    + rewrite starts_star. apply matchstar_spec. intros. apply IH. cbn. lia.
    + rewrite starts_one by done. apply (matchone_spec c (s :: re)). intros. apply IH. cbn. lia.
Qed.

Lemma match_from_spec re text : match_from re text = true <-> exists pre post, text = pre ++ post /\ starts re post.
Proof.
  induction text as [|t text IH]; cbn [match_from]; destruct (matchhere re _) eqn:E.
  - split; [|done]. intros _. exists [], []. split; [done|]. by apply matchhere_spec.
  - split; [done|]. intros (pre & post & Et & Hs). symmetry in Et. apply app_nil in Et as [-> ->]. apply matchhere_spec in Hs. congruence.
  - split; [|done]. intros _. exists [], (t :: text). split; [done|]. by apply matchhere_spec.
  - rewrite IH. split.
    + intros (pre & post & -> & Hs). by exists (t :: pre), post.
    + intros ([|t' pre] & post & Et & Hs); [cbn in Et; subst; apply matchhere_spec in Hs; congruence|]. injection Et as <- ->. eauto.
Qed.

(** C29: the matcher of grep decides the language of its pattern: it returns 1 exactly when a
    word of the pattern occurs in the text, at its start for a pattern with ^, up to its end
    for one with $. *)
Theorem match_decides_pattern re text : match_ re text = true <-> occurs re text.
Proof.
  unfold match_, occurs. destruct re as [|c re]; [apply match_from_spec|]. destruct (c =? CARET); [apply matchhere_spec|apply match_from_spec].
Qed.

(** ** The lines that are printed *)

(** Characters of a line: neither NUL nor newline. *)
Definition inline (c : Z) : Prop := c <> 0 /\ c <> NL.

Definition text (ls : list (list Z)) : list Z := concat ((fun l => l ++ [NL]) <$> ls).

(** The lines the pattern matches. *)
Definition hits (re : list Z) (ls : list (list Z)) : list (list Z) := filter (fun l => match_ re l = true) ls.

Lemma strchr_none s : Forall inline s -> strchr s NL = None.
Proof.
  induction 1 as [|c s [H0 HN] _ IH]; [done|]. cbn [strchr]. apply Z.eqb_neq in H0 as ->, HN as ->. by rewrite IH.
Qed.

Lemma strchr_line l s : Forall inline l -> strchr (l ++ NL :: s) NL = Some (length l).
Proof.
  induction 1 as [|c l [H0 HN] _ IH]; [done|]. cbn [strchr app length]. apply Z.eqb_neq in H0 as ->, HN as ->. by rewrite IH.
Qed.

Lemma text_cons l ls s : text (l :: ls) ++ s = l ++ NL :: text ls ++ s.
Proof. unfold text. cbn [concat fmap list_fmap]. by rewrite <- !(assoc_L (++)). Qed.

Lemma text_app ls1 ls2 : text (ls1 ++ ls2) = text ls1 ++ text ls2.
Proof. unfold text. by rewrite fmap_app, concat_app. Qed.

Lemma grep_lines_spec re ls r fuel :
  Forall (Forall inline) ls -> Forall inline r -> (length (text ls ++ r) < fuel)%nat ->
  grep_lines fuel re (text ls ++ r) = Some (text (hits re ls), r).
Proof.
  intros Hls Hr. revert fuel. induction Hls as [|l ls Hl Hls IH]; intros [|fuel] Hf; try lia; cbn [grep_lines].
  - cbn. by rewrite strchr_none.
  - rewrite text_cons in *. rewrite strchr_line by done. rewrite take_app_length.
    replace (drop (S (length l)) (l ++ NL :: text ls ++ r)) with (text ls ++ r)
      by (rewrite drop_app_ge, Nat.sub_succ_l, Nat.sub_diag by lia; done).
    replace (take (S (length l)) (l ++ NL :: text ls ++ r)) with (l ++ [NL])
      by (rewrite take_app_ge, Nat.sub_succ_l, Nat.sub_diag by lia; cbn; by destruct (text ls ++ r)).
    rewrite length_app in Hf. cbn in Hf. rewrite IH by lia. cbn [mbind option_bind]. unfold hits. rewrite filter_cons.
    case_decide as E; destruct (match_ re l); done.
Qed.

Lemma cut_text ls tl b inp :
  Forall (Forall inline) ls -> Forall inline tl -> b ++ inp = text ls ++ tl ->
  exists ls1 ls2 r, ls = ls1 ++ ls2 /\ b = text ls1 ++ r /\ r ++ inp = text ls2 ++ tl /\ Forall inline r /\
    (r = [] \/ match ls2 with l :: _ => (length r <= length l)%nat | [] => True end).
Proof.
  intros Hls Htl. revert b. induction Hls as [|l ls Hl Hls IH]; intros b E.
  - exists [], [], b. split; [done|]. split; [done|]. split; [done|]. split; [|by right].
    cbn in E. apply (f_equal (take (length b))) in E. rewrite take_app_length in E. rewrite E. by apply Forall_take.
  - rewrite text_cons in E. destruct (decide (length b <= length l)%nat) as [Hb|Hb].
    + exists [], (l :: ls), b. split; [done|]. split; [done|]. split; [by rewrite text_cons|]. split; [|by right].
      apply (f_equal (take (length b))) in E. rewrite take_app_length, take_app_le in E by lia. rewrite E. by apply Forall_take.
    + assert (Eb : b = l ++ NL :: drop (S (length l)) b).
      { rewrite <- (take_drop (S (length l)) b) at 1. apply (f_equal (take (S (length l)))) in E. rewrite take_app_le in E by lia. rewrite E.
        rewrite take_app_ge, Nat.sub_succ_l, Nat.sub_diag by lia. cbn [take]. by rewrite <- (assoc_L (++)). }
      rewrite Eb in E. rewrite <- (assoc_L (++)) in E. cbn [app] in E. apply app_inv_head in E. injection E as E.
      destruct (IH _ E) as (ls1 & ls2 & r & -> & E1 & E2 & Hr & Hlen). exists (l :: ls1), ls2, r. split; [done|].
      split; [by rewrite text_cons, <- E1|]. done.
Qed.

Lemma hits_app re ls1 ls2 : hits re (ls1 ++ ls2) = hits re ls1 ++ hits re ls2.
Proof. apply list.filter_app. Qed.

Lemma grep_spec re ks ls tl : (forall i, (0 < ks i)%nat) -> Forall (Forall inline) ls -> Forall (fun l => length l <= 1022)%nat ls -> Forall inline tl ->
  forall fuel i buf inp, (length inp < fuel)%nat -> buf ++ inp = text ls ++ tl -> Forall inline buf ->
  grep fuel re ks i buf inp = Some (text (hits re ls)).
Proof.
  intros Hks Hls Hlen Htl fuel. revert ls Hls Hlen. induction fuel as [|fuel IH]; intros ls Hls Hlen i buf inp Hf E Hb; [lia|].
  cbn [grep]. set (n := (ks i `min` _)%nat). destruct (take n inp) as [|x got] eqn:Eg.
  - destruct ls as [|l ls]; [done|]. exfalso. rewrite text_cons in E.
    assert (Hbl : (length buf <= length l)%nat).
    { apply Nat.nlt_ge. intros Hlt. apply (f_equal (lookup (length l))) in E. rewrite lookup_app_l, list_lookup_middle in E by done.
      eapply Forall_lookup_1 in E; [|exact Hb]. by destruct E. }
    inversion Hlen; subst. specialize (Hks i). assert (n <> 0)%nat by (unfold n, BUFSZ; lia).
    destruct inp; [|destruct n; done]. apply (f_equal length) in E. rewrite !length_app in E. cbn in E. lia.
  - assert (Ei : inp = (x :: got) ++ drop n inp) by (rewrite <- Eg; symmetry; apply take_drop).
    rewrite Ei, (assoc_L (++)) in E. rewrite <- Eg. destruct (cut_text ls tl (buf ++ x :: got) (drop n inp) Hls Htl E) as (ls1 & ls2 & r & -> & E1 & E2 & Hr & _).
    rewrite Eg, E1. apply Forall_app in Hls as [Hls1 Hls2], Hlen as [Hlen1 Hlen2].
    assert (Hlen : (S (length buf + length (x :: got)) = S (length (text ls1 ++ r)))%nat) by (rewrite <- E1, length_app; done).
    rewrite Hlen, grep_lines_spec by (done || lia). cbn [mbind option_bind].
    rewrite (IH ls2) by (try done; apply (f_equal length) in Ei; rewrite length_app in Ei; cbn in Ei; lia).
    cbn. by rewrite hits_app, text_app.
Qed.

(** C30: grep prints exactly the lines that match, in order, each with its newline, whatever
    the sizes of the pieces [read] delivers, for an input without NUL whose lines have at most
    1022 characters; what follows the last newline is not printed. *)
Theorem grep_prints_matches re ks ls tl :
  (forall i, (0 < ks i)%nat) -> Forall (Forall inline) ls -> Forall (fun l => length l <= 1022)%nat ls -> Forall inline tl ->
  grep (S (length (text ls ++ tl))) re ks 0 [] (text ls ++ tl) = Some (text (hits re ls)).
Proof. intros. apply (grep_spec re ks ls tl); auto. Qed.

(** Pattern "a*b$" on "xab", "abc" and a last "b" without newline, three bytes at a time. *)
Lemma grep_prints_matches_witness :
  grep 11 [97; 42; 98; 36] (fun _ => 3%nat) 0 [] [120; 97; 98; 10; 97; 98; 99; 10; 98; 98] = Some [120; 97; 98; 10].
Proof.
  apply (grep_prints_matches [97; 42; 98; 36] (fun _ => 3%nat) [[120; 97; 98]; [97; 98; 99]] [98; 98]);
    [intros _; lia|repeat constructor; discriminate|repeat constructor; cbn; lia|repeat constructor; discriminate].
Defined.

(** A line of 1023 characters fills the buffer: [read] is asked for no bytes, and the lines
    after it are not looked at. *)
Example grep_stops_at_long_line :
  grep 2000 [98] (fun _ => 512%nat) 0 [] (replicate 1023 97 ++ [NL; 98; NL]) = Some [] /\
  grep 2000 [98] (fun _ => 512%nat) 0 [] (replicate 1022 97 ++ [NL; 98; NL]) = Some [98; NL].
Proof. split; vm_compute; reflexivity. Qed.
