(* ===== verification/Printf.v ===== *)
(** * Formatted output, [user/printf.c] and [kernel/printf.c]

    Output is the list of characters given to [putc] or [consputc], in order.  An argument
    of the variadic functions is the content of its register or a string. *)

From S2P Require Import Prelude CString.

Definition digits_user : list Z := [48; 49; 50; 51; 52; 53; 54; 55; 56; 57; 65; 66; 67; 68; 69; 70].
Definition digits_kernel : list Z := [48; 49; 50; 51; 52; 53; 54; 55; 56; 57; 97; 98; 99; 100; 101; 102].
Definition digit (digits : list Z) (k : Z) : Z := nth (Z.to_nat k) digits 0.

(** ** Numbers *)

(** [do buf[i++] = digits[x % base]; while((x /= base) != 0)]: the digits, lowest first. *)
Fixpoint digit_loop (fuel : nat) (x base : Z) : list Z :=
  match fuel with
  | O => []
  | S fuel => x mod base :: (if x / base =? 0 then [] else digit_loop fuel (x / base) base)
  end.

(** [sgn] asks for a sign; 32 rounds are enough for 32 bits. *)
Definition printint (digits : list Z) (xx base : Z) (sgn : bool) : list Z :=
  let neg := sgn && (xx <? 0) in
  let x := if neg then u32 (- xx) else u32 xx in
  let buf := (digit digits <$> digit_loop 32 x base) ++ (if neg then [45] else []) in
  rev buf.

Fixpoint printptr_loop (digits : list Z) (rem : nat) (x : Z) : list Z :=
  match rem with
  | O => []
  | S rem => digit digits (Z.shiftr x 60) :: printptr_loop digits rem (u64 (Z.shiftl x 4))
  end.

Definition printptr (digits : list Z) (x : Z) : list Z := 48 :: 120 :: printptr_loop digits 16 x.

(** ** Formats *)

Inductive arg := ANum (x : Z) | AStr (s : option (list Z)).

Definition null_str : list Z := [40; 110; 117; 108; 108; 41].

(** The user's [vprintf]; [None] when the arguments do not fit the format.  [percent] is
    the state '%'. *)
Fixpoint vprintf (fmt : list Z) (ap : list arg) (percent : bool) : option (list Z) :=
  match fmt with
  | [] => Some []
  | c :: fmt =>
      if negb percent then
        if c =? 37 then vprintf fmt ap true else (c ::.) <$> vprintf fmt ap false
      else if c =? 100 then
        match ap with ANum x :: ap => (printint digits_user (s32 x) 10 true ++.) <$> vprintf fmt ap false | _ => None end
      else if c =? 108 then
        match ap with ANum x :: ap => (printint digits_user (s32 x) 10 false ++.) <$> vprintf fmt ap false | _ => None end
      else if c =? 120 then
        match ap with ANum x :: ap => (printint digits_user (s32 x) 16 false ++.) <$> vprintf fmt ap false | _ => None end
      else if c =? 112 then
        match ap with ANum x :: ap => (printptr digits_user (u64 x) ++.) <$> vprintf fmt ap false | _ => None end
      else if c =? 115 then
        match ap with AStr s :: ap => (default null_str s ++.) <$> vprintf fmt ap false | _ => None end
      else if c =? 99 then
        match ap with ANum x :: ap => (u8 x ::.) <$> vprintf fmt ap false | _ => None end
      else if c =? 37 then (c ::.) <$> vprintf fmt ap false
      else (fun o => 37 :: c :: o) <$> vprintf fmt ap false
  end.

(** The kernel's [printf]. *)
Fixpoint kprintf (fmt : list Z) (ap : list arg) : option (list Z) :=
  match fmt with
  | [] => Some []
  | c :: fmt =>
      if negb (c =? 37) then (c ::.) <$> kprintf fmt ap
      else
        match fmt with
        | [] => Some []
        | c :: fmt =>
            if c =? 100 then
              match ap with ANum x :: ap => (printint digits_kernel (s32 x) 10 true ++.) <$> kprintf fmt ap | _ => None end
            else if c =? 120 then
              match ap with ANum x :: ap => (printint digits_kernel (s32 x) 16 true ++.) <$> kprintf fmt ap | _ => None end
            else if c =? 112 then
              match ap with ANum x :: ap => (printptr digits_kernel (u64 x) ++.) <$> kprintf fmt ap | _ => None end
            else if c =? 115 then
              match ap with AStr s :: ap => (default null_str s ++.) <$> kprintf fmt ap | _ => None end
            else if c =? 37 then (37 ::.) <$> kprintf fmt ap
            else (fun o => 37 :: c :: o) <$> kprintf fmt ap
        end
  end.

(** ** What the digits mean *)

(** The number a list of digits stands for, lowest first. *)
Fixpoint value (base : Z) (ds : list Z) : Z := match ds with [] => 0 | d :: ds => d + base * value base ds end.

Lemma digit_loop_value fuel x base :
  1 < base -> 0 <= x < base ^ Z.of_nat (S fuel) ->
  value base (digit_loop (S fuel) x base) = x /\ Forall (fun d => 0 <= d < base) (digit_loop (S fuel) x base).
Proof.
  intros Hb. revert x. induction fuel as [|fuel IH]; intros x Hx.
  - replace (base ^ Z.of_nat 1) with base in Hx by (change (Z.of_nat 1) with 1; lia). cbn [digit_loop].
    rewrite Z.div_small, Z.mod_small by lia. cbn. split; [lia|]. constructor; [lia|constructor].
  - change (digit_loop (S (S fuel)) x base) with (x mod base :: (if x / base =? 0 then [] else digit_loop (S fuel) (x / base) base)).
    destruct (Z.eqb_spec (x / base) 0) as [E|E].
    + cbn [value]. pose proof (Z.div_mod x base) as D. pose proof (Z.mod_pos_bound x base). split; [rewrite E in D; lia|]. constructor; [lia|constructor].
    + destruct (IH (x / base)) as [Hv Hf].
      { split; [apply Z.div_pos; lia|]. apply Z.div_lt_upper_bound; [lia|].
        rewrite Nat2Z.inj_succ, Z.pow_succ_r in Hx by lia. lia. }
      pose proof (Z.mod_pos_bound x base). split; [cbn [value]; rewrite Hv; pose proof (Z.div_mod x base); lia|].
      constructor; [lia|exact Hf].
Qed.

Lemma digit_loop_length fuel x base n :
  1 < base -> 0 <= x < base ^ Z.of_nat (S n) -> (length (digit_loop fuel x base) <= S n)%nat.
Proof.
  intros Hb. revert x n. induction fuel as [|fuel IH]; intros x n Hx; cbn [digit_loop length]; [lia|].
  destruct (Z.eqb_spec (x / base) 0) as [E|E]; [cbn; lia|]. destruct n as [|n].
  - exfalso. apply E, Z.div_small. replace (base ^ Z.of_nat 1) with base in Hx by (change (Z.of_nat 1) with 1; lia). lia.
  - apply le_n_S, IH. split; [apply Z.div_pos; lia|]. apply Z.div_lt_upper_bound; [lia|].
    rewrite Nat2Z.inj_succ, Z.pow_succ_r in Hx by lia. lia.
Qed.

(** ** atoi undoes printint *)

Lemma atoi_loop_app s s' n : Forall (fun c => 48 <= c <= 57) s -> atoi_loop (s ++ s') n = atoi_loop s' (atoi_loop s n).
Proof.
  intros Hs. revert n. induction Hs as [|c s Hc Hs IH]; intros n; [done|]. cbn [app atoi_loop].
  rewrite (proj2 (Z.leb_le 48 c)), (proj2 (Z.leb_le c 57)) by lia. apply IH.
Qed.

Lemma digit_char ds : Forall (fun d => 0 <= d < 10) ds -> digit digits_user <$> ds = (fun d => 48 + d) <$> ds.
Proof.
  induction 1 as [|d ds Hd _ IH]; [done|]. cbn [fmap list_fmap]. f_equal; [|exact IH].
  assert (d = 0 \/ d = 1 \/ d = 2 \/ d = 3 \/ d = 4 \/ d = 5 \/ d = 6 \/ d = 7 \/ d = 8 \/ d = 9) as C by lia.
  by repeat destruct C as [->|C]; [..|subst].
Qed.

Lemma atoi_value ds : Forall (fun d => 0 <= d < 10) ds -> value 10 ds < 2 ^ 31 -> atoi (rev ((fun d => 48 + d) <$> ds)) = value 10 ds.
Proof.
  unfold atoi. induction 1 as [|d ds Hd Hds IH]; [done|]. cbn [fmap list_fmap rev value]. intros Hv.
  assert (0 <= value 10 ds) by (clear - Hds; induction Hds; cbn [value]; lia).
  rewrite atoi_loop_app by (apply Forall_rev, list.Forall_fmap; eapply list.Forall_impl; [exact Hds|]; cbn; lia).
  rewrite IH by lia. cbn [atoi_loop]. rewrite (proj2 (Z.leb_le 48 _)), (proj2 (Z.leb_le _ 57)) by lia. cbn [andb].
  rewrite s32_small; lia.
Qed.

Lemma printint_digits x : 0 <= x < 2 ^ 32 -> 
  Forall (fun d => 0 <= d < 10) (digit_loop 32 x 10) /\ value 10 (digit_loop 32 x 10) = x.
Proof. intros Hx. destruct (digit_loop_value 31 x 10) as [? ?]; [lia|cbn; lia|done]. Qed.

(** What the user's printf prints for %d, atoi reads back: the digits of a non-negative
    int give the int, and a negative one is printed as a minus sign and its absolute
    value.  In base 10 and 16 the text fits the 16-byte buffer of printint. *)
Theorem printint_atoi_roundtrip x : - 2 ^ 31 < x < 2 ^ 31 ->
  (0 <= x -> atoi (printint digits_user x 10 true) = x) /\
  (x < 0 -> exists s, printint digits_user x 10 true = 45 :: s /\ atoi s = - x) /\
  (forall digits base sgn, base = 10 \/ base = 16 -> (length (printint digits x base sgn) <= 16)%nat).
Proof.
  intros Hx. split; [|split].
  - intros H0. unfold printint. rewrite (proj2 (Z.ltb_ge x 0)) by lia. cbn [andb]. rewrite u32_small, app_nil_r by lia.
    destruct (printint_digits x) as [Hd Hv]; [lia|]. rewrite digit_char, atoi_value by (done || lia). done.
  - intros H0. unfold printint. rewrite (proj2 (Z.ltb_lt x 0)) by lia. cbn [andb]. rewrite u32_small by lia.
    rewrite rev_app_distr. cbn [rev app]. eexists. split; [done|].
    destruct (printint_digits (- x)) as [Hd Hv]; [lia|]. rewrite digit_char, atoi_value by (done || lia). done.
  - intros digits base sgn Hb. unfold printint. set (y := if sgn && (x <? 0) then _ else _).
    assert (Hy : 0 <= y < 2 ^ 32) by (unfold y; destruct (sgn && (x <? 0)); apply u32_range).
    rewrite length_rev, length_app, length_fmap.
    assert (length (digit_loop 32 y base) <= 10)%nat by (destruct Hb as [-> | ->]; [apply (digit_loop_length 32 y 10 9)|etransitivity; [apply (digit_loop_length 32 y 16 7)|lia]]; cbn; lia).
    destruct (sgn && (x <? 0)); cbn [length]; lia.
Qed.

Lemma printint_atoi_roundtrip_witness :
  (exists s, printint digits_user (-2048) 10 true = 45 :: s /\ atoi s = 2048) /\ atoi (printint digits_user 1999 10 true) = 1999.
Proof.
  split; [apply (printint_atoi_roundtrip (-2048)); lia|apply (printint_atoi_roundtrip 1999); lia].
Defined.
