(* ===== verification/Malloc.v ===== *)
(** * The user-level allocator, [user/umalloc.c]

    The free blocks form a ring of headers, sorted by address, that starts at the static
    header [base].  Memory is modelled at the granularity of headers: [hm] gives the header
    stored at an address.  [sbrk] is the system call; whether it succeeds is a parameter. *)

From S2P Require Import Prelude.

Record header := Header { ptr_ : Z; size_ : Z }.
#[export] Instance header_inhabited : Inhabited header := populate (Header 0 0).

(** The headers in memory, the static variable [freep] and the end of the heap. *)
Record heap := Heap { hm : gmap Z header; freep : Z; brk : Z }.

(** [sizeof(Header)] *)
Definition HSZ : Z := 16.

Definition hdr_at (a : Z) (h : heap) : header := hm h !!! a.
Definition set_ptr (a p : Z) : M heap unit :=
  modify (fun h => Heap (<[a := Header p (size_ (hdr_at a h))]> (hm h)) (freep h) (brk h)).
Definition set_size (a n : Z) : M heap unit :=
  modify (fun h => Heap (<[a := Header (ptr_ (hdr_at a h)) (u32 n)]> (hm h)) (freep h) (brk h)).
Definition set_freep (p : Z) : M heap unit := modify (fun h => Heap (hm h) p (brk h)).

(** A bound on the length of the ring. *)
Definition rounds (h : heap) : nat := S (size (hm h)).

Section Malloc.
(** The address of [base], and whether [sbrk(n)] succeeds at a break. *)
Variable base : Z.
Variable grants : Z -> Z -> bool.

(** [sbrk(n)]: the old break, or -1. *)
Definition sbrk (n : Z) : M heap Z :=
  b ← gets brk;
  if grants b n then modify (fun h => Heap (hm h) (freep h) (b + n));; mret b else mret (-1).

(** The search for the place of [bp], from [p] on. *)
Fixpoint free_find (fuel : nat) (bp p : Z) : M heap Z :=
  match fuel with
  | O => hang
  | S fuel =>
      n ← gets (fun h => ptr_ (hdr_at p h));
      if (p <? bp) && (bp <? n) then mret p
      else if (n <=? p) && ((p <? bp) || (bp <? n)) then mret p
      else free_find fuel bp n
  end.

Definition free (ap : Z) : M heap unit :=
  let bp := ap - HSZ in
  fuel ← gets rounds;
  p0 ← gets freep;
  p ← free_find fuel bp p0;
  b ← gets (hdr_at bp);
  n ← gets (fun h => ptr_ (hdr_at p h));
  (if bp + HSZ * size_ b =? n then
     nh ← gets (hdr_at n);
     set_size bp (size_ b + size_ nh);;
     set_ptr bp (ptr_ nh)
   else set_ptr bp n);;
  ph ← gets (hdr_at p);
  b ← gets (hdr_at bp);
  (if p + HSZ * size_ ph =? bp then
     set_size p (size_ ph + size_ b);;
     set_ptr p (ptr_ b)
   else set_ptr p bp);;
  set_freep p.

(** The argument of [sbrk] is an [int]. *)
Definition morecore (nu : Z) : M heap Z :=
  let nu := if nu <? 4096 then 4096 else nu in
  p ← sbrk (s32 (nu * HSZ));
  if p =? -1 then mret 0
  else set_size p nu;; free (p + HSZ);; gets freep.

(** Taking [nunits] from the block [p], which [prevp] points to. *)
Definition carve (nunits prevp p : Z) : M heap Z :=
  x ← gets (hdr_at p);
  q ← (if size_ x =? nunits then set_ptr prevp (ptr_ x);; mret p
       else
         set_size p (size_ x - nunits);;
         let q := p + HSZ * (size_ x - nunits) in
         set_size q nunits;; mret q);
  set_freep prevp;;
  mret (q + HSZ).

(** The search loop of [malloc]. *)
Fixpoint malloc_loop (fuel : nat) (nunits prevp p : Z) : M heap Z :=
  match fuel with
  | O => hang
  | S fuel =>
      x ← gets (hdr_at p);
      if nunits <=? size_ x then carve nunits prevp p
      else
        f ← gets freep;
        if p =? f then
          p ← morecore nunits;
          if p =? 0 then mret 0
          else y ← gets (hdr_at p); malloc_loop fuel nunits p (ptr_ y)
        else malloc_loop fuel nunits p (ptr_ x)
  end.

Definition units (nbytes : Z) : Z := u32 ((nbytes + HSZ - 1) / HSZ + 1).

Definition malloc (nbytes : Z) : M heap Z :=
  let nunits := units nbytes in
  f ← gets freep;
  (if f =? 0 then modify (fun h => Heap (<[base := Header base 0]> (hm h)) base (brk h)) else mret tt);;
  prevp ← gets freep;
  x ← gets (hdr_at prevp);
  fuel ← gets (fun h => (2 * rounds h + 3)%nat);
  malloc_loop fuel nunits prevp (ptr_ x).
End Malloc.
