(* ===== verification/MallocSpec.v ===== *)
(** * The allocator keeps its blocks apart

    The invariant of the ring of free blocks, that [free] and [malloc] end and preserve it,
    and what this gives to a program: the blocks it holds do not overlap, and when it has
    freed everything the heap is one free block again. *)

From S2P Require Import Prelude Malloc.

Abbreviation blk := (Z * Z)%type.

(** ** Rings in memory *)

Definition addr_next (l : list blk) (e : Z) : Z := match l with [] => e | b :: _ => b.1 end.

(** The headers of the blocks [l] are linked in this order; the last points to [e]. *)
Fixpoint chain (m : gmap Z header) (l : list blk) (e : Z) : Prop :=
  match l with [] => True | b :: l => m !!! b.1 = Header (addr_next l e) b.2 /\ chain m l e end.

(** The blocks follow each other with space in between, the first one after [lo]. *)
Fixpoint spaced (lo : Z) (l : list blk) : Prop :=
  match l with [] => True | b :: l => lo < b.1 /\ spaced (b.1 + HSZ * b.2) l end.

Fixpoint stop (lo : Z) (l : list blk) : Z := match l with [] => lo | b :: l => stop (b.1 + HSZ * b.2) l end.

Definition total (l : list blk) : Z := foldr (fun b s => b.2 + s) 0 l.

Definition apart (b c : blk) : Prop := b.1 + HSZ * b.2 <= c.1 \/ c.1 + HSZ * c.2 <= b.1.

Lemma chain_app m l1 l2 e : chain m (l1 ++ l2) e <-> chain m l1 (addr_next l2 e) /\ chain m l2 e.
Proof.
  induction l1 as [|b l1 IH]; cbn; [tauto|]. rewrite IH. by destruct l1; cbn; tauto.
Qed.

Lemma spaced_app lo l1 l2 : spaced lo (l1 ++ l2) <-> spaced lo l1 /\ spaced (stop lo l1) l2.
Proof. revert lo. induction l1 as [|b l1 IH]; intros lo; cbn; [tauto|]. rewrite IH. tauto. Qed.

Lemma stop_app lo l1 l2 : stop lo (l1 ++ l2) = stop (stop lo l1) l2.
Proof. revert lo. induction l1 as [|b l1 IH]; intros lo; cbn; auto. Qed.

Lemma total_app l1 l2 : total (l1 ++ l2) = total l1 + total l2.
Proof. induction l1 as [|b l1 IH]; cbn; [done|]. unfold total in *. lia. Qed.

Lemma spaced_weaken lo lo' l : lo' <= lo -> spaced lo l -> spaced lo' l.
Proof. destruct l as [|b l]; cbn; [done|]. intros ? [? ?]. split; [lia|done]. Qed.

Lemma chain_insert m a x l e : a ∉ l.*1 -> chain (<[a := x]> m) l e <-> chain m l e.
Proof.
  induction l as [|b l IH]; cbn; [done|]. rewrite not_elem_of_cons. intros [Hb Hl]. rewrite IH by done.
  by rewrite lookup_total_insert_ne by done.
Qed.

(** Blocks with their sizes not negative. *)
Definition sized (l : list blk) : Prop := Forall (fun b => 0 <= b.2) l.

Lemma spaced_lt lo l b : sized l -> spaced lo l -> b ∈ l -> lo < b.1.
Proof.
  intros Hs. revert lo. induction Hs as [|c l Hc Hs IH]; intros lo Hsp Hb; [by apply not_elem_of_nil in Hb|].
  destruct Hsp as [H1 H2]. apply elem_of_cons in Hb as [->|Hb]; [done|]. specialize (IH _ H2 Hb). unfold HSZ in *. lia.
Qed.

Lemma spaced_nodup lo l : sized l -> spaced lo l -> NoDup l.*1.
Proof.
  intros Hs. revert lo. induction Hs as [|c l Hc Hs IH]; intros lo Hsp; [constructor|]. destruct Hsp as [_ Hsp].
  cbn. constructor; [|by apply (IH _ Hsp)]. intros (d & E & Hd)%list_elem_of_fmap.
  pose proof (spaced_lt _ _ _ Hs Hsp Hd). unfold HSZ in *. lia.
Qed.

(** The blocks before another one. *)
Lemma spaced_before lo l1 b l2 c : sized (l1 ++ b :: l2) -> spaced lo (l1 ++ b :: l2) -> c ∈ l1 -> c.1 + HSZ * c.2 < b.1.
Proof.
  intros Hs [H1 [H2 _]]%spaced_app Hc. apply Forall_app in Hs as [Hs _].
  enough (c.1 + HSZ * c.2 <= stop lo l1) by lia. clear H2. revert lo H1. induction Hs as [|d l Hd Hs IH]; intros lo H1; [by apply not_elem_of_nil in Hc|].
  cbn in *. destruct H1 as [_ H1]. apply elem_of_cons in Hc as [->|Hc]; [|by apply IH].
  clear - H1 Hs. revert d H1. induction Hs as [|x l Hx Hs IH]; intros d H1; cbn in *; [lia|]. destruct H1 as [H0 H1]. specialize (IH x H1). unfold HSZ in *. lia.
Qed.

Lemma spaced_after lo l1 b l2 c : sized (l1 ++ b :: l2) -> spaced lo (l1 ++ b :: l2) -> c ∈ l2 -> b.1 + HSZ * b.2 < c.1.
Proof.
  intros Hs [_ [_ H2]]%spaced_app Hc. apply Forall_app in Hs as [_ Hs]. inversion Hs; subst. by apply (spaced_lt _ l2).
Qed.

(** ** The search of [free] *)

(** [p] is the block of the ring below [bp]: [bp] is after it and before the next one. *)
Definition below (bp : Z) (b : blk) (l : list blk) : Prop := b.1 < bp /\ Forall (fun c => bp < c.1) l.

Lemma find_forward base X b l bp fuel h lo :
  chain (hm h) (X ++ b :: l) base -> spaced lo (X ++ b :: l) -> sized (X ++ b :: l) -> base < bp -> base <= b.1 -> below bp b l ->
  (length X < fuel)%nat -> free_find fuel bp (addr_next (X ++ [b]) 0) h = Done b.1 h.
Proof.
  intros Hch Hsp Hs Hbp Hb [Hlt Hl]. revert lo fuel Hch Hsp Hs. induction X as [|x X IH]; intros lo [|fuel] Hch Hsp Hs Hf; cbn in Hf; try lia.
  - cbn [app addr_next free_find] in *. rewrite bind_gets. destruct Hch as [Hch _]. unfold hdr_at. rewrite Hch. cbn [ptr_].
    rewrite (proj2 (Z.ltb_lt b.1 bp)) by done. destruct l as [|c l]; cbn [addr_next andb orb].
    + rewrite (proj2 (Z.ltb_ge bp base)), (proj2 (Z.leb_le base b.1)) by lia. done.
    + inversion Hl; subst. rewrite (proj2 (Z.ltb_lt bp c.1)) by done. done.
  - cbn [app addr_next free_find] in *. rewrite bind_gets. destruct Hch as [Hx Hch], Hsp as [_ Hsp]. inversion Hs as [|? ? Hx0 Hs']; subst.
    unfold hdr_at. rewrite Hx. cbn [ptr_]. set (n := addr_next (X ++ b :: l) base).
    assert (En : n = addr_next (X ++ [b]) 0) by (unfold n; by destruct X).
    assert (Hn : x.1 < n <= b.1).
    { unfold n. destruct X as [|y X]; cbn in *; [unfold HSZ in *; lia|]. destruct Hsp as [Hy Hsp]. split; [unfold HSZ in *; lia|].
      inversion Hs' as [|? ? Hy0 Hs'']; subst. enough (y.1 + HSZ * y.2 < b.1) by (unfold HSZ in *; lia).
      apply (spaced_lt _ _ _ Hs'' Hsp), elem_of_app. right. apply list_elem_of_here. }
    rewrite (proj2 (Z.ltb_ge bp n)), (proj2 (Z.leb_gt n x.1)), andb_false_r by lia. cbn [andb]. rewrite En.
    apply (IH _ fuel Hch Hsp Hs'). lia.
Qed.

Lemma find_wrap base Y bp fuel h lo :
  chain (hm h) Y base -> spaced lo Y -> sized Y -> Forall (fun c => bp < c.1) Y -> base < bp ->
  free_find (length Y + fuel) bp (addr_next Y base) h = free_find fuel bp base h.
Proof.
  intros Hch Hsp Hs Hl Hb. revert lo Hch Hsp Hs Hl. induction Y as [|y Y IH]; intros lo Hch Hsp Hs Hl; [done|].
  cbn [length Nat.add addr_next free_find] in *. rewrite bind_gets. destruct Hch as [Hy Hch], Hsp as [_ Hsp].
  inversion Hs as [|? ? Hy0 Hs']; inversion Hl as [|? ? Hyl Hl']; subst. unfold hdr_at. rewrite Hy. cbn [ptr_].
  rewrite (proj2 (Z.ltb_ge y.1 bp)) by lia. cbn [andb orb].
  assert (En : (addr_next Y base <=? y.1) && (bp <? addr_next Y base) = false).
  { destruct Y as [|c Y]; cbn in *; [rewrite (proj2 (Z.ltb_ge bp base)) by lia; apply andb_false_r|].
    rewrite (proj2 (Z.leb_gt c.1 y.1)); [done|]. unfold HSZ in *; lia. }
  rewrite En. apply (IH _ Hch Hsp Hs' Hl').
Qed.

Lemma chain_dom base R m : 0 < base -> chain m R base -> Forall (fun b => 0 < b.1) R -> Forall (fun b => is_Some (m !! b.1)) R.
Proof.
  intros Hb. induction R as [|b R IH]; intros Hch Hp; [constructor|]. destruct Hch as [Hh Hch]. inversion Hp; subst.
  constructor; [|by apply IH]. rewrite lookup_total_alt in Hh. destruct (m !! b.1); [by eexists|]. cbn in Hh. injection Hh as E _.
  destruct R as [|c R]; cbn in E; [lia|]. inversion H2; subst. lia.
Qed.

Lemma chain_length base R m lo :
  0 < base -> chain m R base -> sized R -> spaced lo R -> 0 <= lo -> (length R <= size m)%nat.
Proof.
  intros Hb Hch Hs Hsp Hlo. assert (Hp : Forall (fun b => 0 < b.1) R).
  { apply list.Forall_forall. intros b Hbl. pose proof (spaced_lt _ _ _ Hs Hsp Hbl). lia. }
  pose proof (chain_dom base R m Hb Hch Hp) as Hd. rewrite <- (length_fmap fst R).
  rewrite <- size_dom, <- (size_list_to_set (C := gset Z) R.*1) by (by apply (spaced_nodup lo)).
  apply subseteq_size. intros a (b & -> & Hbl)%elem_of_list_to_set%list_elem_of_fmap. apply elem_of_dom.
  by apply (proj1 (list.Forall_forall _ _) Hd).
Qed.

Lemma free_find_spec base T b l bp h :
  0 < base -> chain (hm h) (T ++ b :: l) base -> spaced 0 (T ++ b :: l) -> sized (T ++ b :: l) ->
  head (T ++ b :: l) = Some (base, 0) -> base < bp -> below bp b l -> freep h ∈ (T ++ b :: l).*1 ->
  free_find (rounds h) bp (freep h) h = Done b.1 h.
Proof.
  intros Hb0 Hch Hsp Hs Hhd Hbp Hbl Hf. pose proof (chain_length base _ _ 0 Hb0 Hch Hs Hsp ltac:(lia)) as Hlen.
  rewrite length_app in Hlen. cbn in Hlen. unfold rounds.
  assert (Hbb : base <= b.1).
  { destruct T as [|t T]; cbn in Hhd; [injection Hhd as ->; cbn; lia|]. injection Hhd as ->.
    cbn in Hsp. destruct Hsp as [_ Hsp]. enough (base < b.1) by lia. cbn in Hsp. replace (base + HSZ * 0) with base in Hsp by (unfold HSZ; lia).
    inversion Hs; subst. apply (spaced_lt _ _ _ H2 Hsp), elem_of_app. right. apply list_elem_of_here. }
  assert (Hfw : forall fuel, (length T < fuel)%nat -> free_find fuel bp base h = Done b.1 h).
  { intros fuel Hfu. replace base with (addr_next (T ++ [b]) 0) at 1 by (destruct T; cbn in *; by injection Hhd as ->).
    by apply (find_forward base T b l bp fuel h 0). }
  rewrite fmap_app, elem_of_app in Hf. cbn [fmap list_fmap] in Hf. rewrite elem_of_cons in Hf.
  destruct Hf as [Hf|[Hf|Hf]].
  - apply list_elem_of_fmap in Hf as (x & Ef & Hx). apply list_elem_of_split in Hx as (T1 & T2 & ->). rewrite Ef.
    rewrite <- (assoc_L (++)) in Hch, Hsp, Hs. apply chain_app in Hch as [_ Hch]. apply spaced_app in Hsp as [_ Hsp]. apply Forall_app in Hs as [_ Hs].
    rewrite length_app in Hlen. cbn in Hlen. apply (find_forward base (x :: T2) b l bp _ h (stop 0 T1)); auto. cbn. lia.
  - rewrite Hf. apply chain_app in Hch as [_ Hch]. apply spaced_app in Hsp as [_ Hsp]. apply Forall_app in Hs as [_ Hs].
    apply (find_forward base [] b l bp _ h (stop 0 T)); auto. cbn. lia.
  - apply list_elem_of_fmap in Hf as (x & Ef & Hx). apply list_elem_of_split in Hx as (Y1 & Y2 & ->). rewrite Ef.
    rewrite app_comm_cons, (assoc_L (++)) in Hch, Hsp, Hs. apply chain_app in Hch as [_ Hch]. apply spaced_app in Hsp as [_ Hsp]. apply Forall_app in Hs as [_ Hs].
    destruct Hbl as [_ Hl]. apply Forall_app in Hl as [_ Hl]. rewrite length_app in Hlen. cbn in Hlen.
    replace (S (size (hm h))) with (length (x :: Y2) + (S (size (hm h)) - length (x :: Y2)))%nat by (cbn; lia).
    change x.1 with (addr_next (x :: Y2) base). rewrite (find_wrap base (x :: Y2) bp _ h (stop 0 (T ++ b :: Y1))); auto.
    apply Hfw. cbn. lia.
Qed.

(** ** What [free] does to the ring *)

(** The freed block with the free block right after it, and the blocks left. *)
Definition join_up (c : blk) (l : list blk) : blk * list blk :=
  match l with
  | d :: l' => if c.1 + HSZ * c.2 =? d.1 then ((c.1, c.2 + d.2), l') else (c, l)
  | [] => (c, [])
  end.

(** The free block before it, with it when there is no space in between. *)
Definition join_down (b c : blk) : list blk := if b.1 + HSZ * b.2 =? c.1 then [(b.1, b.2 + c.2)] else [b; c].

Definition inserted (T : list blk) (b c : blk) (l : list blk) : list blk :=
  T ++ join_down b (join_up c l).1 ++ (join_up c l).2.

Lemma insert_twice (m : gmap Z header) a x y : <[a := x]> (<[a := y]> m) = <[a := x]> m.
Proof. apply insert_insert_eq. Qed.

(** The state after the first [if] of [free]. *)
Lemma free_up base (k : M heap unit) T b c l h :
  chain (hm h) (T ++ b :: l) base -> size_ (hdr_at c.1 h) = c.2 -> c.1 ∉ (T ++ b :: l).*1 -> base < c.1 -> 0 <= c.2 -> sized l ->
  c.2 + total l < 2 ^ 32 ->
  (n ← gets (fun h => ptr_ (hdr_at b.1 h));
   (if c.1 + HSZ * size_ (hdr_at c.1 h) =? n then
      nh ← gets (hdr_at n);
      set_size c.1 (size_ (hdr_at c.1 h) + size_ nh);; set_ptr c.1 (ptr_ nh)
    else set_ptr c.1 n);; k) h =
  k (Heap (<[c.1 := Header (addr_next (join_up c l).2 base) (join_up c l).1.2]> (hm h)) (freep h) (brk h)).
Proof.
  intros Hch Hsz Hnin Hb Hc Hl Hlt. apply chain_app in Hch as [_ [Hhb Hch]]. rewrite bind_gets. cbn beta.
  change (hm h !!! b.1) with (hdr_at b.1 h) in Hhb. rewrite Hhb, Hsz. cbn [ptr_]. destruct l as [|d l]; cbn [addr_next join_up fst snd].
  - rewrite (proj2 (Z.eqb_neq _ base)) by (unfold HSZ; lia). unfold set_ptr. rewrite bind_modify, Hsz. done.
  - destruct (c.1 + HSZ * c.2 =? d.1); cbn [fst snd addr_next].
    + destruct Hch as [Hhd _]. rewrite bind_assoc, bind_gets. change (hm h !!! d.1) with (hdr_at d.1 h) in Hhd. rewrite Hhd. unfold set_size, set_ptr. cbn [size_ ptr_].
      rewrite bind_assoc, bind_modify, bind_modify. f_equal. cbn [hm freep brk]. rewrite insert_twice. unfold hdr_at. cbn [hm].
      rewrite lookup_total_insert_eq. cbn [size_]. f_equal. f_equal. f_equal. cbn in Hlt. inversion Hl as [|? ? Hd Hl']; subst.
      apply u32_small. assert (0 <= total l) by (clear - Hl'; induction Hl'; cbn; unfold total in *; lia). unfold total in *. lia.
    + unfold set_ptr. rewrite bind_modify, Hsz. done.
Qed.

Lemma sized_total l : sized l -> 0 <= total l.
Proof. induction 1; cbn; unfold total in *; lia. Qed.

Lemma below_not_in T b l a : sized (T ++ b :: l) -> spaced 0 (T ++ b :: l) -> below a b l -> a ∉ (T ++ b :: l).*1.
Proof.
  intros Hs Hsp [Hlt Hl]. rewrite fmap_app, elem_of_app. cbn [fmap list_fmap]. rewrite elem_of_cons.
  intros [(x & E & Hx)%list_elem_of_fmap|[E|(x & E & Hx)%list_elem_of_fmap]]; [|lia|].
  - pose proof (spaced_before 0 T b l x Hs Hsp Hx). apply Forall_app in Hs as [Hs _]. eapply (proj1 (list.Forall_forall _ _) Hs) in Hx. unfold HSZ in *. lia.
  - eapply (proj1 (list.Forall_forall _ _) Hl) in Hx. lia.
Qed.

Lemma join_up_facts c l : 0 <= c.2 -> sized l ->
  (join_up c l).1.1 = c.1 /\ (join_up c l).1.2 + total (join_up c l).2 = c.2 + total l /\ c.2 <= (join_up c l).1.2 /\ sized (join_up c l).2 /\
  (exists k, l = k ++ (join_up c l).2).
Proof.
  intros Hc Hl. destruct l as [|d l]; [cbn; split; [done|]; split; [done|]; split; [lia|]; split; [done|by exists []]|]. cbn [join_up]. inversion Hl; subst.
  destruct (c.1 + HSZ * c.2 =? d.1); cbn [fst snd].
  - split; [done|]. cbn. unfold total. split; [lia|]. split; [lia|]. split; [done|by exists [d]].
  - split; [done|]. split; [done|]. split; [lia|]. split; [done|by exists []].
Qed.

(** The links around the block [b] when the headers of [b] and of [c] change. *)
Lemma chain_around base T b c l k l'' x y m :
  chain m (T ++ b :: l) base -> NoDup (T ++ b :: l).*1 -> c ∉ (T ++ b :: l).*1 -> l = k ++ l'' ->
  chain (<[b.1 := x]> (<[c := y]> m)) T b.1 /\ chain (<[b.1 := x]> (<[c := y]> m)) l'' base.
Proof.
  intros [HT [_ Hl]]%chain_app Hnd Hc ->. rewrite fmap_app in Hnd, Hc. cbn [fmap list_fmap] in Hnd, Hc. rewrite fmap_app in Hnd, Hc.
  apply list.NoDup_app in Hnd as (_ & HbT & [Hbl _]%list.NoDup_cons).
  rewrite !elem_of_app, elem_of_cons, elem_of_app in Hc. rewrite elem_of_app in Hbl. apply chain_app in Hl as [_ Hl]. split.
  - rewrite !chain_insert; [done|tauto|]. intros Hin. apply (HbT _ Hin), list_elem_of_here.
  - rewrite !chain_insert; [done|tauto|tauto].
Qed.

(** [free] of the block [c], given where it goes. *)
Lemma free_run base T b c l h :
  0 < base -> chain (hm h) (T ++ b :: l) base -> spaced 0 (T ++ b :: l) -> sized (T ++ b :: l) ->
  head (T ++ b :: l) = Some (base, 0) -> base < c.1 -> below c.1 b l -> freep h ∈ (T ++ b :: l).*1 ->
  size_ (hdr_at c.1 h) = c.2 -> 0 <= c.2 -> c.2 + total (T ++ b :: l) < 2 ^ 32 ->
  exists m', free (c.1 + HSZ) h = Done tt (Heap m' b.1 (brk h)) /\ chain m' (inserted T b c l) base /\
    (forall a, a <> c.1 -> a <> b.1 -> m' !!! a = hm h !!! a).
Proof.
  intros Hb0 Hch Hsp Hs Hhd Hbc Hbl Hf Hsz Hc Hlt.
  pose proof (free_find_spec base T b l c.1 h Hb0 Hch Hsp Hs Hhd Hbc Hbl Hf) as Hfind.
  pose proof (below_not_in T b l c.1 Hs Hsp Hbl) as Hnin.
  pose proof Hs as [HsT Hsl]%Forall_app. inversion Hsl as [|? ? Hb Hsl']; subst. rewrite total_app in Hlt. cbn in Hlt. change (foldr _ 0 l) with (total l) in Hlt.
  pose proof (sized_total T HsT). pose proof (sized_total l Hsl').
  unfold free. replace (c.1 + HSZ - HSZ) with c.1 by lia. rewrite !bind_gets, (bind_done _ _ _ _ _ Hfind), bind_gets.
  rewrite (free_up base _ T b c l h Hch Hsz Hnin Hbc Hc Hsl' ltac:(lia)).
  destruct (join_up_facts c l Hc Hsl') as (Ec1 & Ec2 & Ec3 & Ec4 & k & Ek). unfold inserted, join_down.
  destruct (join_up c l) as [c' l'']. cbn [fst snd] in *. set (m1 := <[c.1 := _]> (hm h)). pose proof (sized_total l'' Ec4).
  assert (Hb1 : b.1 <> c.1) by (destruct Hbl; lia).
  assert (HmB : m1 !!! b.1 = Header (addr_next l base) b.2).
  { unfold m1. rewrite lookup_total_insert_ne by done. apply chain_app in Hch as [_ [? _]]. done. }
  assert (HmC : m1 !!! c.1 = Header (addr_next l'' base) c'.2) by apply lookup_total_insert_eq.
  pose proof (fun x => chain_around base T b c.1 l k l'' x (Header (addr_next l'' base) c'.2) (hm h) Hch (spaced_nodup 0 _ Hs Hsp) Hnin Ek) as Har. fold m1 in Har.
  rewrite !bind_gets. unfold hdr_at. cbn [hm]. rewrite HmB, HmC, Ec1. cbn [size_ ptr_].
  destruct (b.1 + HSZ * b.2 =? c.1).
  - unfold set_size, set_ptr. rewrite bind_assoc, !bind_modify. cbn [hm freep brk hdr_at]. unfold hdr_at. cbn [hm].
    rewrite insert_twice, lookup_total_insert_eq, HmB. cbn [ptr_ size_]. rewrite u32_small by lia.
    exists (<[b.1 := Header (addr_next l'' base) (b.2 + c'.2)]> m1). split; [reflexivity|]. split.
    + destruct (Har (Header (addr_next l'' base) (b.2 + c'.2))) as [HT Hl]. apply chain_app. split; [done|]. cbn.
      split; [apply lookup_total_insert_eq|done].
    + intros a Ha Ha'. unfold m1. by rewrite !lookup_total_insert_ne by done.
  - unfold set_ptr. rewrite bind_modify. cbn [hm freep brk]. unfold hdr_at. cbn [hm]. rewrite HmB. cbn [size_].
    exists (<[b.1 := Header c.1 b.2]> m1). split; [reflexivity|]. split.
    + destruct (Har (Header c.1 b.2)) as [HT Hl]. apply chain_app. split; [done|]. cbn. rewrite lookup_total_insert_eq, Ec1.
      split; [done|]. rewrite lookup_total_insert_ne by congruence. done.
    + intros a Ha Ha'. unfold m1. by rewrite !lookup_total_insert_ne by done.
Qed.

(** ** The new ring *)

Definition join_closed (P : blk -> Prop) : Prop := forall x y, x.1 + HSZ * x.2 = y.1 -> P x -> P y -> P (x.1, x.2 + y.2).

Lemma inserted_forall P T b c l : join_closed P -> Forall P (T ++ b :: l) -> P c -> Forall P (inserted T b c l).
Proof.
  intros Hj [HT Hbl]%Forall_app Hc. inversion Hbl as [|? ? Hb Hl]; subst. unfold inserted.
  assert (Hup : P (join_up c l).1 /\ Forall P (join_up c l).2).
  { destruct l as [|d l]; [done|]. cbn [join_up]. inversion Hl; subst. destruct (Z.eqb_spec (c.1 + HSZ * c.2) d.1); cbn [fst snd]; [|done].
    split; [by apply Hj|done]. }
  destruct (join_up c l) as [c' l'']. cbn [fst snd] in *. destruct Hup as [Hc' Hl']. unfold join_down.
  apply Forall_app. split; [done|]. apply Forall_app. split; [|done]. destruct (Z.eqb_spec (b.1 + HSZ * b.2) c'.1); repeat constructor; auto.
Qed.

Lemma inserted_total T b c l : 0 <= c.2 -> sized l -> total (inserted T b c l) = total (T ++ b :: l) + c.2.
Proof.
  intros Hc Hl. destruct (join_up_facts c l Hc Hl) as (_ & E & _). unfold inserted. destruct (join_up c l) as [c' l'']. cbn [fst snd] in *.
  unfold join_down. rewrite !total_app. destruct (b.1 + HSZ * b.2 =? c'.1); cbn; fold (total l) (total l''); unfold total in *; cbn; lia.
Qed.

Lemma inserted_big T b c l : 0 <= b.2 -> 0 <= c.2 -> sized l -> Exists (fun y => c.2 <= y.2) (inserted T b c l).
Proof.
  intros Hb Hc Hl. destruct (join_up_facts c l Hc Hl) as (_ & _ & E & _). unfold inserted, join_down.
  apply Exists_app. right. apply Exists_app. left. destruct (_ =? _); [left; cbn; lia|right; by left].
Qed.

Lemma inserted_length T b c l : (length (inserted T b c l) <= S (length (T ++ b :: l)))%nat.
Proof.
  unfold inserted, join_down. rewrite !length_app. assert (length (join_up c l).2 <= length l)%nat by (destruct l; cbn; [lia|]; destruct (_ =? _); cbn; lia).
  destruct (_ =? _); cbn; lia.
Qed.

Lemma inserted_spaced T b c l lo :
  spaced lo (T ++ b :: l) -> b.1 + HSZ * b.2 <= c.1 -> Forall (fun d => c.1 + HSZ * c.2 <= d.1) l -> spaced lo (inserted T b c l).
Proof.
  intros [HT [Hb Hl]]%spaced_app Hbc Hcl. unfold inserted.
  assert (Hup : (join_up c l).1.1 = c.1 /\ spaced (c.1 + HSZ * (join_up c l).1.2) (join_up c l).2).
  { destruct l as [|d l]; [done|]. cbn [join_up]. inversion Hcl; subst. cbn in Hl. destruct Hl as [Hd Hl].
    destruct (Z.eqb_spec (c.1 + HSZ * c.2) d.1) as [E|E]; cbn [fst snd]; (split; [done|]).
    - replace (c.1 + HSZ * (c.2 + d.2)) with (d.1 + HSZ * d.2) by lia. done.
    - cbn. split; [lia|done]. }
  destruct (join_up c l) as [c' l'']. cbn [fst snd] in *. destruct Hup as [Ec Hl']. unfold join_down. rewrite Ec.
  apply spaced_app. split; [done|]. destruct (Z.eqb_spec (b.1 + HSZ * b.2) c.1) as [E|E]; cbn.
  - split; [done|]. replace (b.1 + HSZ * (b.2 + c'.2)) with (c.1 + HSZ * c'.2) by lia. done.
  - split; [done|]. rewrite Ec. split; [lia|done].
Qed.

Lemma inserted_head T b c l base : head (T ++ b :: l) = Some (base, 0) -> base < c.1 -> head (inserted T b c l) = Some (base, 0).
Proof.
  unfold inserted. destruct T as [|t T]; [|done]. cbn. intros [= ->] Hc. unfold join_down. cbn [fst snd].
  assert (E : (join_up c l).1.1 = c.1) by (destruct l as [|d l]; cbn; [done|]; by destruct (_ =? _)).
  rewrite E, (proj2 (Z.eqb_neq (base + HSZ * 0) c.1)) by (unfold HSZ; lia). done.
Qed.

(** Where a block goes that is apart from the free ones. *)
Lemma place_exists R bp base : head R = Some (base, 0) -> sized R -> base < bp -> spaced 0 R -> bp ∉ R.*1 ->
  exists T b l, R = T ++ b :: l /\ below bp b l.
Proof.
  intros Hhd Hs Hbp Hsp Hnin. destruct R as [|r R]; [done|]. injection Hhd as ->. cbn in Hsp. destruct Hsp as [_ Hsp].
  assert (Hgen : forall (R : list blk) (b : blk), sized R -> spaced (b.1 + HSZ * b.2) R -> 0 <= b.2 -> b.1 < bp -> bp ∉ R.*1 -> exists T b' l, b :: R = T ++ b' :: l /\ below bp b' l).
  { clear. induction R as [|r R IH]; intros b Hs Hsp Hb Hlt Hnin; [by exists [], b, []; repeat split; auto|].
    cbn in Hnin. rewrite not_elem_of_cons in Hnin. destruct Hnin as [Hne Hnin]. inversion Hs as [|? ? Hr Hs']; subst. destruct Hsp as [H1 H2].
    destruct (Z.lt_total r.1 bp) as [Hr1|[Hr1|Hr1]]; [|congruence|].
    - destruct (IH r Hs' H2 Hr Hr1 Hnin) as (T & b' & l & E & Hbe). exists (b :: T), b', l. by rewrite E.
    - exists [], b, (r :: R). split; [done|]. split; [done|]. constructor; [done|]. apply list.Forall_forall. intros x Hx.
      pose proof (spaced_lt _ _ _ Hs' H2 Hx). unfold HSZ in *. lia. }
  inversion Hs; subst. cbn in Hnin. rewrite not_elem_of_cons in Hnin. destruct Hnin as [_ Hnin]. by apply (Hgen R (base, 0)).
Qed.

(** ** The invariant *)

Section Heap.
(** Where the static header is and where the heap starts; what the kernel grants stays
    below 2^35. *)
Variables base heap0 : Z.
Variable grants : Z -> Z -> bool.
Hypothesis base_pos : 0 < base.
Hypothesis base_below : base + HSZ <= heap0.
Hypothesis grants_bound : forall b n, grants b n = true -> b + n <= 2 ^ 35.

(** A block of at least one unit inside the heap. *)
Definition inheap (h : heap) (b : blk) : Prop := 1 <= b.2 /\ heap0 <= b.1 /\ b.1 + HSZ * b.2 <= brk h.

Definition units_of (A : gmap Z Z) : Z := map_fold (fun _ n s => n + s) 0 A.

(** [R] is the ring of free blocks and [A] the blocks the program holds, with their sizes. *)
Record heap_ok (h : heap) (R : list blk) (A : gmap Z Z) : Prop := {
  ho_head : head R = Some (base, 0);
  ho_chain : chain (hm h) R base;
  ho_spaced : spaced 0 R;
  ho_freep : freep h ∈ R.*1;
  ho_free : Forall (fun b => b = (base, 0) \/ inheap h b) R;
  ho_live : map_Forall (fun a n => inheap h (a, n) /\ size_ (hdr_at a h) = n) A;
  ho_held : forall a n a' n', A !! a = Some n -> A !! a' = Some n' -> a <> a' -> apart (a, n) (a', n');
  ho_apart : forall b a n, b ∈ R -> A !! a = Some n -> apart b (a, n);
  ho_sum : HSZ * (total R + units_of A) = brk h - heap0;
  ho_brk : heap0 <= brk h <= 2 ^ 35;
}.

Lemma ok_sized h R : Forall (fun b => b = (base, 0) \/ inheap h b) R -> sized R.
Proof. intros H. eapply list.Forall_impl; [exact H|]. intros b [->|Hb]; [done|]. destruct Hb. cbn in *. lia. Qed.

Lemma units_insert A a n : A !! a = None -> units_of (<[a := n]> A) = n + units_of A.
Proof. intros Ha. unfold units_of. rewrite map_fold_insert_L; [done|intros; lia|done]. Qed.

Lemma units_delete A a n : A !! a = Some n -> units_of A = n + units_of (delete a A).
Proof.
  intros Ha. rewrite <- (insert_delete_id A a n Ha) at 1. apply units_insert. apply lookup_delete_eq.
Qed.

Lemma units_nonneg h A : map_Forall (fun a n => inheap h (a, n) /\ size_ (hdr_at a h) = n) A -> 0 <= units_of A.
Proof.
  induction A as [|a n A Ha IH] using map_ind; intros H; [done|]. rewrite units_insert by done.
  apply map_Forall_insert in H as [[[H1 _] _] H]; [|done]. specialize (IH H). cbn in H1. lia.
Qed.

Lemma free_ok h R A a n : heap_ok h R A -> A !! a = Some n ->
  exists h' R', free (a + HSZ) h = Done tt h' /\ heap_ok h' R' (delete a A) /\ brk h' = brk h /\
    Exists (fun y => n <= y.2) R' /\ (length R' <= S (length R))%nat.
Proof.
  intros [Hhd Hch Hsp Hf Hfr Hlv Hheld Hap Hsum Hbrk] Ha. pose proof (ok_sized h R Hfr) as Hs.
  destruct (map_Forall_lookup_1 _ _ _ _ Hlv Ha) as [Hin Hsz]. pose proof Hin as (Hn & Ha0 & Ha1). cbn in Hn, Ha0, Ha1.
  assert (Hba : base < a) by (unfold HSZ in *; lia).
  assert (Hnin : a ∉ R.*1).
  { intros (b & E & Hb)%list_elem_of_fmap. pose proof (Hap b a n Hb Ha) as Hab. eapply (proj1 (list.Forall_forall _ _) Hfr) in Hb as Hb'.
    destruct Hb' as [->|Hb']; [cbn in E; lia|]. destruct Hb' as [Hb1 _]. destruct Hab as [Hab|Hab]; cbn in Hab; unfold HSZ in *; lia. }
  destruct (place_exists R a base Hhd Hs Hba Hsp Hnin) as (T & b & l & -> & Hbe).
  assert (Htot : n + total (T ++ b :: l) < 2 ^ 32).
  { rewrite (units_delete A a n Ha) in Hsum. assert (0 <= units_of (delete a A)); [|unfold HSZ in *; lia].
    apply (units_nonneg h). by apply map_Forall_delete. }
  destruct (free_run base T b (a, n) l h base_pos Hch Hsp Hs Hhd Hba Hbe Hf Hsz ltac:(cbn; lia) Htot) as (m' & Erun & Hch' & Hfr').
  cbn [fst snd] in *. exists (Heap m' b.1 (brk h)), (inserted T b (a, n) l). split; [exact Erun|]. clear Erun.
  assert (Hlow : b.1 + HSZ * b.2 <= a).
  { assert (Hb : b ∈ T ++ b :: l) by (apply elem_of_app; right; apply list_elem_of_here). destruct (Hap b a n Hb Ha) as [H|H]; cbn in H; [done|].
    destruct Hbe. unfold HSZ in *. lia. }
  assert (Hup : Forall (fun d => a + HSZ * n <= d.1) l).
  { apply list.Forall_forall. intros d Hd. assert (Hd' : d ∈ T ++ b :: l) by (apply elem_of_app; right; by apply elem_of_cons; right).
    destruct Hbe as [_ Hbe]. eapply (proj1 (list.Forall_forall _ _) Hbe) in Hd. destruct (Hap d a n Hd' Ha) as [H|H]; cbn in H; [|done].
    eapply (proj1 (list.Forall_forall _ _) Hs) in Hd'. unfold HSZ in *. lia. }
  assert (Hsl : sized l) by (apply Forall_app in Hs as [_ Hs]; by inversion Hs).
  pose proof (inserted_total T b (a, n) l ltac:(cbn; lia) Hsl) as Htot'. cbn [snd] in Htot'.
  split; [|split; [done|split; [|apply inserted_length]]].
  2: { apply (inserted_big T b (a, n) l); [|cbn; lia|done]. apply Forall_app in Hs as [_ Hs]. by inversion Hs. }
  split; cbn [hm freep brk].
  - by apply inserted_head.
  - done.
  - by apply inserted_spaced.
  - unfold inserted. rewrite !fmap_app, !elem_of_app. right. left. unfold join_down. destruct (_ =? _); cbn; apply list_elem_of_here.
  - apply inserted_forall; [|exact Hfr|by right]. intros x y E [->|Hx] [->|Hy]; cbn in E; [left; cbn; done| | |].
    + destruct Hy as (_ & Hy & _). unfold HSZ in *. lia.
    + destruct Hx as (? & Hx & ?). unfold HSZ in *. lia.
    + right. destruct Hx as (? & ? & ?), Hy as (? & ? & ?). repeat split; cbn in *; unfold HSZ in *; lia.
  - intros x k Hx. apply lookup_delete_Some in Hx as [Hne Hx]. destruct (map_Forall_lookup_1 _ _ _ _ Hlv Hx) as [Hxi Hxs]. split; [done|].
    unfold hdr_at. cbn [hm]. rewrite Hfr'; [done|congruence|]. intros ->.
    assert (Hb : b ∈ T ++ b :: l) by (apply elem_of_app; right; apply list_elem_of_here). pose proof (Hap b _ k Hb Hx) as Hbk.
    eapply (proj1 (list.Forall_forall _ _) Hfr) in Hb. destruct Hxi as (? & ? & ?). cbn in *.
    destruct Hb as [->|[Hb1 _]]; [cbn in *; unfold HSZ in *; lia|]. destruct Hbk as [Hbk|Hbk]; cbn in Hbk; unfold HSZ in *; lia.
  - intros x k x' k' Hx Hx'. apply lookup_delete_Some in Hx as [_ Hx], Hx' as [_ Hx']. by apply Hheld.
  - intros d x k Hd Hx. apply lookup_delete_Some in Hx as [Hne Hx]. revert d Hd. apply list.Forall_forall. apply inserted_forall.
    + destruct (map_Forall_lookup_1 _ _ _ _ Hlv Hx) as [(Hk & _) _]. cbn in Hk. intros y z E [Hy|Hy] [Hz|Hz]; cbn in *; unfold apart; cbn; unfold HSZ in *; lia.
    + apply list.Forall_forall. intros d Hd. by apply Hap.
    + apply Hheld; auto.
  - rewrite Htot'. rewrite (units_delete A a n Ha) in Hsum. unfold HSZ in *. lia.
  - done.
Qed.

(** ** [sbrk] and [morecore] *)

Lemma above_ring h R A : heap_ok h R A -> (brk h ∉ R.*1) /\ A !! brk h = None.
Proof.
  intros [Hhd _ _ _ Hfr Hlv _ _ _ Hbrk]. split.
  - intros (b & E & Hb)%list_elem_of_fmap. eapply (proj1 (list.Forall_forall _ _) Hfr) in Hb as [->|(? & ? & ?)]; cbn in *; unfold HSZ in *; lia.
  - destruct (A !! brk h) as [n|] eqn:E; [|done]. destruct (map_Forall_lookup_1 _ _ _ _ Hlv E) as [(? & ? & ?) _]. cbn in *. unfold HSZ in *. lia.
Qed.

Lemma grow_ok h R A nu p :
  heap_ok h R A -> 1 <= nu -> brk h + HSZ * nu <= 2 ^ 35 ->
  heap_ok (Heap (<[brk h := Header p nu]> (hm h)) (freep h) (brk h + HSZ * nu)) R (<[brk h := nu]> A).
Proof.
  intros Hok Hnu Hle. destruct (above_ring h R A Hok) as [HnR HnA]. destruct Hok as [Hhd Hch Hsp Hf Hfr Hlv Hheld Hap Hsum Hbrk].
  assert (Hin : forall b, inheap h b -> inheap (Heap (<[brk h := Header p nu]> (hm h)) (freep h) (brk h + HSZ * nu)) b).
  { intros b (? & ? & ?). repeat split; cbn; unfold HSZ in *; lia. }
  assert (Habove : forall b, inheap h b -> apart b (brk h, nu)) by (intros b (? & ? & ?); left; cbn; done).
  split; cbn [hm freep brk]; try done.
  - by apply chain_insert.
  - eapply list.Forall_impl; [exact Hfr|]. intros b [->|Hb]; [by left|right; auto].
  - apply map_Forall_insert; [done|]. split.
    + split; [repeat split; cbn; unfold HSZ in *; lia|]. unfold hdr_at. cbn [hm]. by rewrite lookup_total_insert_eq.
    + intros a n Ha. destruct (map_Forall_lookup_1 _ _ _ _ Hlv Ha) as [Hi Hz]. split; [auto|]. unfold hdr_at. cbn [hm].
      rewrite lookup_total_insert_ne; [done|congruence].
  - intros a n a' n' Ha Ha' Hne. apply lookup_insert_Some in Ha as [[<- <-]|[_ Ha]], Ha' as [[<- <-]|[_ Ha']]; [done| | |by apply Hheld].
    + apply or_comm, Habove. by apply (map_Forall_lookup_1 _ _ _ _ Hlv Ha').
    + apply Habove. by apply (map_Forall_lookup_1 _ _ _ _ Hlv Ha).
  - intros b a n Hb Ha. apply lookup_insert_Some in Ha as [[<- <-]|[_ Ha]]; [|by apply Hap].
    eapply (proj1 (list.Forall_forall _ _) Hfr) in Hb as [->|Hb]; [left; cbn; unfold HSZ in *; lia|by apply Habove].
  - rewrite units_insert by done. unfold HSZ in *. lia.
  - unfold HSZ in *. lia.
Qed.

Lemma morecore_ok h R A nu :
  heap_ok h R A -> 1 <= nu -> Z.max nu 4096 * HSZ < 2 ^ 31 ->
  (morecore grants nu h = Done 0 h /\ grants (brk h) (HSZ * Z.max nu 4096) = false) \/
  (exists h' R', morecore grants nu h = Done (freep h') h' /\ heap_ok h' R' A /\ freep h' <> 0 /\ Exists (fun y => nu <= y.2) R' /\
     (length R' <= S (length R))%nat /\ grants (brk h) (HSZ * Z.max nu 4096) = true).
Proof.
  intros Hok Hnu Hlt. unfold morecore. replace (if nu <? 4096 then 4096 else nu) with (Z.max nu 4096) by (destruct (Z.ltb_spec nu 4096); lia).
  set (k := Z.max nu 4096) in *. rewrite s32_small by (unfold HSZ in *; lia). unfold sbrk. rewrite bind_assoc, bind_gets.
  replace (k * HSZ) with (HSZ * k) by lia. destruct (grants (brk h) (HSZ * k)) eqn:Eg; [|left; done]. right.
  rewrite bind_assoc, bind_modify, bind_ret. pose proof (ho_brk _ _ _ Hok) as Hbrk. rewrite (proj2 (Z.eqb_neq _ (-1))) by (unfold HSZ in *; lia).
  unfold set_size. rewrite bind_modify. cbn [hm freep brk]. unfold hdr_at at 1. cbn [hm]. rewrite u32_small by (unfold HSZ in *; lia).
  pose proof (grow_ok h R A k (ptr_ (hm h !!! brk h)) Hok ltac:(lia) (grants_bound _ _ Eg)) as Hg.
  destruct (free_ok _ _ _ (brk h) k Hg) as (h' & R' & Ef & Hok' & _ & Hbig & Hlen); [apply lookup_insert_eq|].
  rewrite (bind_done _ _ _ _ _ Ef). exists h', R'. split; [done|].
  rewrite delete_insert_id in Hok' by (apply (above_ring h R A Hok)). split; [done|].
  split; [|split; [|by split]]. 2: { eapply list.Exists_impl; [exact Hbig|]. cbn. lia. }
  destruct Hok' as [Hhd _ Hsp Hf Hfr _ _ _ _ _]. apply list_elem_of_fmap in Hf as (b & -> & Hb).
  eapply (proj1 (list.Forall_forall _ _) Hfr) in Hb as [->|(_ & Hb & _)]; cbn; unfold HSZ in *; lia.
Qed.

(** ** Taking a block *)

(** The block before [x] in the ring. *)
Lemma pred_exists R x : head R = Some (base, 0) -> x ∈ R -> 1 <= x.2 -> exists L pr L', R = L ++ pr :: x :: L'.
Proof.
  intros Hhd (L & L' & ->)%list_elem_of_split Hx. destruct L as [|y L _] using rev_ind; [cbn in Hhd; injection Hhd as ->; cbn in Hx; lia|].
  exists L, y, L'. by rewrite <- (assoc_L (++)).
Qed.

Lemma pred_unique m L pr x L' prev :
  chain m (L ++ pr :: x :: L') base -> NoDup (L ++ pr :: x :: L').*1 -> head (L ++ pr :: x :: L') = Some (base, 0) ->
  prev ∈ L ++ pr :: x :: L' -> ptr_ (m !!! prev.1) = x.1 -> prev = pr.
Proof.
  intros Hch Hnd Hhd Hp Hptr. remember (L ++ pr :: x :: L') as R eqn:ER.
  assert (Hx : R !! S (length L) = Some x) by (rewrite ER, lookup_app_r, Nat.sub_succ_l, Nat.sub_diag by lia; done).
  assert (Hpr : R !! length L = Some pr) by (rewrite ER; by apply list_lookup_middle).
  apply list_elem_of_split in Hp as (L1 & L2 & E2). rewrite E2 in Hch. apply chain_app in Hch as [_ [Hh _]]. rewrite Hh in Hptr. cbn [ptr_] in Hptr.
  assert (Hn : exists y, R !! S (length L1) = Some y /\ y.1 = x.1 \/ x.1 = base).
  { destruct L2 as [|y L2]; cbn in Hptr; [exists x; by right|]. exists y. left. split; [|done].
    rewrite E2, lookup_app_r, Nat.sub_succ_l, Nat.sub_diag by lia. done. }
  assert (H1 : forall i y, R !! i = Some y -> R.*1 !! i = Some y.1) by (intros i y Hy; by rewrite list_lookup_fmap, Hy).
  destruct Hn as (y & [[Hy Ey]|Hb]).
  - apply H1 in Hx, Hy. rewrite Ey in Hy. pose proof (NoDup_lookup _ _ _ _ Hnd Hx Hy) as Ei. injection Ei as Ei.
    assert (Hq : R !! length L1 = Some prev) by (rewrite E2; by apply list_lookup_middle). congruence.
  - exfalso. assert (H0 : R !! 0%nat = Some (base, 0)) by (destruct R; [done|]; by injection Hhd as ->).
    apply H1 in Hx, H0. cbn in H0. rewrite Hb in Hx. pose proof (NoDup_lookup _ _ _ _ Hnd Hx H0). done.
Qed.

(** What a block taken from the ring looks like. *)
Definition taken (nunits : Z) (L : list blk) (pr x : blk) (L' : list blk) : list blk * Z :=
  if x.2 =? nunits then (L ++ pr :: L', x.1) else (L ++ pr :: (x.1, x.2 - nunits) :: L', x.1 + HSZ * (x.2 - nunits)).

Lemma carve_run nunits L pr x L' h :
  chain (hm h) (L ++ pr :: x :: L') base -> spaced 0 (L ++ pr :: x :: L') -> sized (L ++ pr :: x :: L') -> 1 <= nunits <= x.2 -> x.2 < 2 ^ 32 ->
  exists m', carve nunits pr.1 x.1 h = Done ((taken nunits L pr x L').2 + HSZ) (Heap m' pr.1 (brk h)) /\
    chain m' (taken nunits L pr x L').1 base /\ size_ (m' !!! (taken nunits L pr x L').2) = nunits /\
    (forall a, a <> pr.1 -> a <> x.1 -> a <> (taken nunits L pr x L').2 -> m' !!! a = hm h !!! a).
Proof.
  intros Hch Hsp Hs Hn Hx. pose proof (spaced_nodup 0 _ Hs Hsp) as Hnd. rewrite fmap_app in Hnd. cbn [fmap list_fmap] in Hnd.
  apply list.NoDup_app in Hnd as (_ & HL & HprL). pose proof HprL as [HprL' [HxL' _]%list.NoDup_cons]%list.NoDup_cons. rewrite not_elem_of_cons in HprL'. destruct HprL' as [Hprx HprL'].
  assert (HLpr : pr.1 ∉ L.*1) by (intros Hin; apply (HL _ Hin), list_elem_of_here).
  assert (HLx : x.1 ∉ L.*1) by (intros Hin; apply (HL _ Hin), elem_of_cons; right; apply list_elem_of_here).
  pose proof Hch as [HT [Hpr [Hhx Hl]]]%chain_app. cbn [addr_next] in HT, Hpr. unfold carve, taken. rewrite bind_gets.
  replace (hdr_at x.1 h) with (Header (addr_next L' base) x.2) by (symmetry; exact Hhx). cbn [size_ ptr_].
  destruct (Z.eqb_spec x.2 nunits) as [E|E]; cbn [fst snd].
  - unfold set_ptr, set_freep. rewrite bind_assoc, bind_modify, bind_ret, bind_modify. cbn [hm freep brk]. unfold hdr_at. rewrite Hpr. cbn [size_].
    exists (<[pr.1 := Header (addr_next L' base) pr.2]> (hm h)). split; [done|]. split; [|split].
    + apply chain_app. cbn. rewrite !chain_insert by done. split; [done|]. split; [apply lookup_total_insert_eq|done].
    + rewrite lookup_total_insert_ne by done. rewrite Hhx. exact E.
    + intros a Ha _ _. by rewrite lookup_total_insert_ne.
  - set (q := x.1 + HSZ * (x.2 - nunits)). assert (Hq : x.1 < q) by (unfold q, HSZ; lia).
    assert (HqL : forall b, b ∈ L ++ [pr] -> b.1 < q).
    { intros b Hb. assert (Hsp' : spaced 0 ((L ++ [pr]) ++ x :: L')) by (by rewrite <- (assoc_L (++))). assert (Hs' : sized ((L ++ [pr]) ++ x :: L')) by (by rewrite <- (assoc_L (++))).
      pose proof (spaced_before 0 _ x L' b Hs' Hsp' Hb). apply Forall_app in Hs' as [Hs' _]. eapply (proj1 (list.Forall_forall _ _) Hs') in Hb. unfold HSZ in *. lia. }
    assert (HqL' : forall b, b ∈ L' -> q < b.1).
    { intros b Hb. assert (Hsp' : spaced 0 ((L ++ [pr]) ++ x :: L')) by (by rewrite <- (assoc_L (++))). assert (Hs' : sized ((L ++ [pr]) ++ x :: L')) by (by rewrite <- (assoc_L (++))).
      pose proof (spaced_after 0 _ x L' b Hs' Hsp' Hb). unfold q, HSZ in *. lia. }
    unfold set_size, set_freep. rewrite bind_assoc, bind_modify, bind_assoc, bind_modify, bind_ret, bind_modify. cbn [hm freep brk]. unfold hdr_at. cbn [hm]. rewrite Hhx. cbn [ptr_].
    rewrite !u32_small by lia. exists (<[q := Header (ptr_ (<[x.1 := Header (addr_next L' base) (x.2 - nunits)]> (hm h) !!! q)) nunits]> (<[x.1 := Header (addr_next L' base) (x.2 - nunits)]> (hm h))).
    split; [done|]. assert (Hq1 : (q ∉ L.*1) /\ q <> pr.1 /\ (q ∉ L'.*1)).
    { repeat split.
      - intros (b & -> & Hb)%list_elem_of_fmap. specialize (HqL b ltac:(by apply elem_of_app; left)). lia.
      - intros ->. specialize (HqL pr ltac:(apply elem_of_app; right; apply list_elem_of_here)). lia.
      - intros (b & -> & Hb)%list_elem_of_fmap. specialize (HqL' b Hb). lia. }
    destruct Hq1 as (HqLn & Hqpr & HqLn'). split; [|split].
    + apply chain_app. cbn. rewrite !chain_insert by done. split; [done|]. rewrite !lookup_total_insert_ne by congruence || lia.
      split; [done|]. split; [|done]. rewrite lookup_total_insert_eq. done.
    + by rewrite lookup_total_insert_eq.
    + intros a _ Ha Ha'. by rewrite !lookup_total_insert_ne.
Qed.

Lemma sub_apart (x y z : blk) : x.1 <= z.1 -> z.1 + HSZ * z.2 <= x.1 + HSZ * x.2 -> apart x y -> apart z y.
Proof. unfold apart. lia. Qed.

Lemma ring_apart lo L x L' b : sized (L ++ x :: L') -> spaced lo (L ++ x :: L') -> b ∈ L ++ L' -> apart x b.
Proof.
  intros Hs Hsp [Hb|Hb]%elem_of_app; unfold apart.
  - pose proof (spaced_before lo L x L' b Hs Hsp Hb). lia.
  - pose proof (spaced_after lo L x L' b Hs Hsp Hb). lia.
Qed.

Lemma taken_facts n L pr x L' : 1 <= n <= x.2 -> head (L ++ pr :: x :: L') = Some (base, 0) -> spaced 0 (L ++ pr :: x :: L') ->
  let '(R', q) := taken n L pr x L' in
  head R' = Some (base, 0) /\ spaced 0 R' /\ pr.1 ∈ R'.*1 /\ total R' + n = total (L ++ pr :: x :: L') /\ x.1 <= q /\ q + HSZ * n = x.1 + HSZ * x.2 /\
  (forall b, b ∈ R' -> b ∈ (L ++ [pr]) ++ L' \/ b = (x.1, x.2 - n) /\ q = x.1 + HSZ * (x.2 - n) /\ n < x.2).
Proof.
  intros Hn Hhd Hsp. apply spaced_app in Hsp as [HL [Hpr [Hx HL']]]. unfold taken.
  destruct (Z.eqb_spec x.2 n) as [E|E].
  - split; [by destruct L|]. split.
    { apply spaced_app. split; [done|]. split; [done|]. apply (spaced_weaken (x.1 + HSZ * x.2)); [unfold HSZ in *; lia|done]. }
    split; [rewrite fmap_app; apply elem_of_app; right; apply list_elem_of_here|]. rewrite !total_app. cbn. unfold total in *. split; [lia|].
    split; [lia|]. split; [unfold HSZ in *; lia|]. intros b Hb. left. by rewrite <- (assoc_L (++)).
  - split; [by destruct L|]. split.
    { apply spaced_app. split; [done|]. split; [done|]. cbn. split; [done|]. apply (spaced_weaken (x.1 + HSZ * x.2)); [unfold HSZ in *; lia|done]. }
    split; [rewrite fmap_app; apply elem_of_app; right; apply list_elem_of_here|]. rewrite !total_app. cbn. unfold total in *. split; [lia|].
    split; [unfold HSZ in *; lia|]. split; [unfold HSZ in *; lia|]. intros b. rewrite !elem_of_app, !elem_of_cons. intros [Hb|[->|[->|Hb]]].
    + left. left. by left.
    + left. left. right. by left.
    + right. split; [done|]. split; [done|lia].
    + left. by right.
Qed.

Lemma carve_ok h L pr x L' A n :
  heap_ok h (L ++ pr :: x :: L') A -> 1 <= n <= x.2 ->
  exists h', let '(R', q) := taken n L pr x L' in
    carve n pr.1 x.1 h = Done (q + HSZ) h' /\ heap_ok h' R' (<[q := n]> A) /\ A !! q = None /\ brk h' = brk h.
Proof.
  intros [Hhd Hch Hsp Hf Hfr Hlv Hheld Hap Hsum Hbrk] Hn. set (R := L ++ pr :: x :: L') in *. pose proof (ok_sized h R Hfr) as Hs.
  assert (Hx : x ∈ R) by (apply elem_of_app; right; apply elem_of_cons; right; apply list_elem_of_here).
  assert (Hxi : inheap h x) by (eapply (proj1 (list.Forall_forall _ _) Hfr) in Hx as [->|?]; [cbn in Hn; lia|done]). pose proof Hxi as (Hx1 & Hx2 & Hx3).
  assert (Hx32 : x.2 < 2 ^ 32) by (unfold HSZ in *; lia).
  destruct (carve_run n L pr x L' h Hch Hsp Hs Hn Hx32) as (m' & Er & Hch' & Hsz & Hfrm). pose proof (taken_facts n L pr x L' Hn Hhd Hsp) as Ht.
  destruct (taken n L pr x L') as [R' q]. cbn [fst snd] in *. destruct Ht as (Hhd' & Hsp' & Hpr' & Htot & Hq1 & Hq2 & Hmem).
  exists (Heap m' pr.1 (brk h)). split; [exact Er|]. clear Er.
  assert (Hqx : forall e, apart x e -> apart (q, n) e) by (intros e; apply sub_apart; cbn; lia).
  assert (Hqn : A !! q = None).
  { destruct (A !! q) as [k|] eqn:E; [|done]. destruct (map_Forall_lookup_1 _ _ _ _ Hlv E) as [(Hk & _) _]. destruct (Hap x q k Hx E) as [H|H]; cbn in *; unfold HSZ in *; lia. }
  split; [|by split]. assert (EsR : R = (L ++ [pr]) ++ x :: L') by (unfold R; by rewrite <- (assoc_L (++))). split; cbn [hm freep brk]; try done.
  - apply list.Forall_forall. intros b [Hb|(-> & _ & Hlt)]%Hmem.
    + apply (proj1 (list.Forall_forall _ _) Hfr). rewrite EsR. rewrite elem_of_app in Hb |- *. rewrite elem_of_cons. tauto.
    + right. repeat split; cbn; unfold HSZ in *; lia.
  - apply map_Forall_insert; [done|]. split; [split; [repeat split; cbn; unfold HSZ in *; lia|exact Hsz]|].
    intros a k Ha. destruct (map_Forall_lookup_1 _ _ _ _ Hlv Ha) as [Hi Hz]. split; [done|]. unfold hdr_at. cbn [hm]. rewrite Hfrm; [done| | |congruence].
    + intros ->. assert (Hp : pr ∈ R) by (apply elem_of_app; right; apply list_elem_of_here). pose proof (Hap pr _ k Hp Ha) as Hpa.
      eapply (proj1 (list.Forall_forall _ _) Hfr) in Hp. destruct Hi as (? & ? & ?). cbn in *. destruct Hp as [->|(? & _)]; [cbn in *; unfold HSZ in *; lia|].
      destruct Hpa as [H'|H']; cbn in H'; unfold HSZ in *; lia.
    + intros ->. destruct Hi as (? & ? & ?). destruct (Hap x _ k Hx Ha) as [H'|H']; cbn in *; unfold HSZ in *; lia.
  - intros a k a' k' Ha Ha' Hne. apply lookup_insert_Some in Ha as [[<- <-]|[_ Ha]], Ha' as [[<- <-]|[_ Ha']]; [done| | |by apply Hheld].
    + by apply Hqx, Hap.
    + by apply or_comm, Hqx, Hap.
  - intros b a k Hb Ha. apply lookup_insert_Some in Ha as [[<- <-]|[_ Ha]].
    + apply Hmem in Hb as [Hb|(-> & -> & _)]; [|left; cbn; lia]. apply or_comm, Hqx. rewrite EsR in Hs, Hsp. by apply (ring_apart 0 (L ++ [pr]) x L').
    + apply Hmem in Hb as [Hb|(-> & _ & _)].
      * apply Hap; [|done]. rewrite EsR. rewrite elem_of_app in Hb |- *. rewrite elem_of_cons. tauto.
      * apply (sub_apart x); [cbn; lia|cbn; unfold HSZ; lia|by apply Hap].
  - rewrite units_insert by done. fold R in Htot. unfold HSZ in *. lia.
Qed.

(** ** The search of [malloc] *)

Lemma rotate m T f l : chain m (T ++ f :: l) base -> head (T ++ f :: l) = Some (base, 0) -> chain m (f :: l ++ T) f.1.
Proof.
  intros [HT Hl]%chain_app Hhd. apply (chain_app m (f :: l) T). split; [|done].
  replace (addr_next T f.1) with base; [done|]. destruct T; cbn in *; by injection Hhd as ->.
Qed.

(** From the block [prev] on, up to [f], the block [freep] points to. *)
Lemma scan_fit n f Q prev k h :
  chain (hm h) (prev :: Q) f.1 -> freep h = f.1 -> size_ (hdr_at f.1 h) = f.2 -> Forall (fun y => y.1 <> f.1) Q ->
  Exists (fun y => n <= y.2) (Q ++ [f]) ->
  exists pr x, malloc_loop grants (S (length Q) + k) n prev.1 (addr_next Q f.1) h = carve n pr.1 x.1 h /\
    pr ∈ prev :: Q /\ x ∈ Q ++ [f] /\ ptr_ (hdr_at pr.1 h) = x.1 /\ n <= x.2.
Proof.
  intros Hch Hf Hfs Hne. revert prev Hch. induction Hne as [|y Q Hy Hne IH]; intros prev Hch Hex.
  - apply Exists_cons in Hex as [Hex|Hex]; [|by apply Exists_nil in Hex]. exists prev, f. destruct Hch as [Hp _].
    split; [|split; [apply list_elem_of_here|split; [apply list_elem_of_here|split; [unfold hdr_at; by rewrite Hp|done]]]].
    cbn [length Nat.add malloc_loop addr_next]. rewrite bind_gets, Hfs, (proj2 (Z.leb_le n f.2)) by done. done.
  - pose proof Hch as [Hp Hch']. cbn [addr_next] in Hp. pose proof Hch' as [Hhy _]. cbn [length Nat.add addr_next]. change (S (S (length Q) + k))%nat with (S (S (length Q) + k)).
    cbn [malloc_loop]. rewrite bind_gets. change (hm h !!! y.1) with (hdr_at y.1 h) in Hhy. rewrite Hhy. cbn [size_ ptr_].
    destruct (Z.leb_spec n y.2) as [Hn|Hn].
    + exists prev, y. split; [done|]. split; [apply list_elem_of_here|]. split; [apply list_elem_of_here|]. split; [unfold hdr_at; by rewrite Hp|done].
    + rewrite bind_gets, Hf, (proj2 (Z.eqb_neq _ _) Hy). cbn [app] in Hex. apply Exists_cons in Hex as [Hex|Hex]; [lia|].
      destruct (IH y Hch' Hex) as (pr & x & E & Hpr & Hx & Hptr & Hle). exists pr, x. split; [exact E|].
      split; [by apply elem_of_cons; right|]. split; [by apply elem_of_cons; right|done].
Qed.

Lemma scan_none n f Q prev k h :
  chain (hm h) (prev :: Q) f.1 -> freep h = f.1 -> size_ (hdr_at f.1 h) = f.2 -> Forall (fun y => y.1 <> f.1) Q ->
  Forall (fun y => y.2 < n) (Q ++ [f]) ->
  malloc_loop grants (S (length Q) + k) n prev.1 (addr_next Q f.1) h =
    (p ← morecore grants n; if p =? 0 then mret 0 else y ← gets (hdr_at p); malloc_loop grants k n p (ptr_ y)) h.
Proof.
  intros Hch Hf Hfs Hne. revert prev Hch. induction Hne as [|y Q Hy Hne IH]; intros prev Hch Hsm.
  - inversion Hsm; subst. cbn [length Nat.add malloc_loop addr_next]. rewrite bind_gets, Hfs, (proj2 (Z.leb_gt n f.2)) by done.
    by rewrite bind_gets, Hf, Z.eqb_refl.
  - destruct Hch as [_ Hch']. pose proof Hch' as [Hhy _]. cbn [app] in Hsm. inversion Hsm; subst. cbn [length Nat.add addr_next].
    cbn [malloc_loop]. rewrite bind_gets. change (hm h !!! y.1) with (hdr_at y.1 h) in Hhy. rewrite Hhy. cbn [size_ ptr_].
    rewrite (proj2 (Z.leb_gt n y.2)) by done. rewrite bind_gets, Hf, (proj2 (Z.eqb_neq _ _) Hy). by apply IH.
Qed.

(** The ring as [malloc] walks it: from the block [freep] points to, all the way round. *)
Lemma ring_walk h R A : heap_ok h R A -> exists f Q, freep h = f.1 /\ chain (hm h) (f :: Q) f.1 /\
  hdr_at f.1 h = Header (addr_next Q f.1) f.2 /\ Forall (fun y => y.1 <> f.1) Q /\ (forall y, y ∈ Q ++ [f] <-> y ∈ R) /\ length R = S (length Q).
Proof.
  intros [Hhd Hch Hsp Hf Hfr _ _ _ _ _]. pose proof (ok_sized h R Hfr) as Hs. pose proof (spaced_nodup 0 R Hs Hsp) as Hnd.
  apply list_elem_of_fmap in Hf as (f & Ef & (T & l & ER)%list_elem_of_split). exists f, (l ++ T). split; [done|].
  assert (Hrot : chain (hm h) (f :: l ++ T) f.1) by (rewrite ER in Hch, Hhd; by apply rotate). split; [done|]. split; [by destruct Hrot|].
  split; [|split; [intros y; rewrite ER; set_solver|rewrite ER, !length_app; cbn; lia]].
  rewrite ER, fmap_app in Hnd. cbn [fmap list_fmap] in Hnd. apply list.NoDup_app in Hnd as (_ & HT & [Hl _]%list.NoDup_cons).
  apply list.Forall_forall. intros y [Hy|Hy]%elem_of_app E; [apply Hl; rewrite <- E; by apply list_elem_of_fmap_2|].
  apply (HT y.1); [by apply list_elem_of_fmap_2|]. rewrite E. apply list_elem_of_here.
Qed.

(** A round of the search, with a block that is large enough. *)
Lemma round_fit n h R A k :
  heap_ok h R A -> 1 <= n -> Exists (fun y => n <= y.2) R -> (length R <= k)%nat ->
  exists h' R' q, malloc_loop grants k n (freep h) (ptr_ (hdr_at (freep h) h)) h = Done (q + HSZ) h' /\ heap_ok h' R' (<[q := n]> A) /\ A !! q = None /\
    brk h' = brk h.
Proof.
  intros Hok Hn Hex Hk. destruct (ring_walk h R A Hok) as (f & Q & Ef & Hrot & Hfs & Hne & Hperm & Hlen). rewrite Ef, Hfs. cbn [ptr_].
  assert (Hex' : Exists (fun y => n <= y.2) (Q ++ [f])).
  { apply list.Exists_exists in Hex as (y & Hy & Hle). apply list.Exists_exists. exists y. split; [by apply Hperm|done]. }
  replace k with (S (length Q) + (k - S (length Q)))%nat by lia.
  destruct (scan_fit n f Q f (k - S (length Q)) h Hrot Ef ltac:(by rewrite Hfs) Hne Hex') as (pr & x & E & Hpr & Hx & Hptr & Hle).
  rewrite E. clear E. apply Hperm in Hx. assert (HprR : pr ∈ R) by (apply Hperm; clear - Hpr; set_solver).
  pose proof Hok as [Hhd Hch Hsp _ Hfr _ _ _ _ _]. pose proof (spaced_nodup 0 R (ok_sized h R Hfr) Hsp) as Hnd.
  destruct (pred_exists R x Hhd Hx ltac:(lia)) as (L & pr' & L' & ER'). rewrite ER' in *.
  rewrite (pred_unique (hm h) L pr' x L' pr Hch Hnd Hhd HprR Hptr) in *.
  destruct (carve_ok h L pr' x L' A n Hok ltac:(lia)) as (h' & Hc). destruct (taken n L pr' x L') as [R' q]. destruct Hc as (Ec & Hok' & Hq & Hb).
  by exists h', R', q.
Qed.

(** ** [malloc] *)

(** Before the first call there is no ring. *)
Definition heap_inv (h : heap) (A : gmap Z Z) : Prop :=
  (freep h = 0 /\ A = ∅ /\ brk h = heap0 /\ heap0 <= 2 ^ 35) \/ exists R, heap_ok h R A.

Lemma freep_pos h R A : heap_ok h R A -> freep h <> 0.
Proof.
  intros [_ _ _ Hf Hfr _ _ _ _ _]. apply list_elem_of_fmap in Hf as (b & -> & Hb).
  eapply (proj1 (list.Forall_forall _ _) Hfr) in Hb as [->|(_ & Hb & _)]; cbn; unfold HSZ in *; lia.
Qed.

Lemma first_ring h : brk h = heap0 -> heap0 <= 2 ^ 35 -> heap_ok (Heap (<[base := Header base 0]> (hm h)) base (brk h)) [(base, 0)] ∅.
Proof.
  intros Hb Hle. split; cbn [hm freep brk]; try done.
  - split; [apply lookup_total_insert_eq|done].
  - apply list_elem_of_here.
  - constructor; [by left|constructor].
  - cbn. unfold units_of. rewrite map_fold_empty. lia.
  - lia.
Qed.

Lemma units_bound n : 0 <= n <= 2 ^ 31 - 32 -> 1 <= units n /\ Z.max (units n) 4096 * HSZ < 2 ^ 31 /\ n <= HSZ * (units n - 1).
Proof. intros Hn. unfold units, HSZ. rewrite u32_small by lia. lia. Qed.

(** [malloc] gives 0 exactly when no free block fits and the kernel grants no more memory, and
    grows the heap only when no free block fits. *)
Definition no_room (n : Z) (h : heap) (R : list blk) : Prop :=
  Forall (fun y => y.2 < n) R /\ grants (brk h) (HSZ * Z.max n 4096) = false.

Definition answer (n : Z) (h : heap) (R : list blk) (A : gmap Z Z) (r : Z) (h' : heap) (R' : list blk) : Prop :=
  (r = 0 /\ heap_ok h' R' A /\ no_room n h R /\ brk h' = brk h) \/
  (exists q, r = q + HSZ /\ heap_ok h' R' (<[q := n]> A) /\ A !! q = None /\ ~ no_room n h R /\
     (Exists (fun y => n <= y.2) R -> brk h' = brk h)).

Lemma round_ok n h R A k :
  heap_ok h R A -> 1 <= n -> Z.max n 4096 * HSZ < 2 ^ 31 -> (2 * length R + 1 <= k)%nat ->
  exists r h' R', malloc_loop grants k n (freep h) (ptr_ (hdr_at (freep h) h)) h = Done r h' /\ answer n h R A r h' R'.
Proof.
  intros Hok Hn Hmax Hk. destruct (decide (Exists (fun y => n <= y.2) R)) as [Hex|Hex].
  - destruct (round_fit n h R A k Hok Hn Hex ltac:(lia)) as (h' & R' & q & E & Hok' & Hq & Hb). exists (q + HSZ), h', R'. split; [exact E|].
    right. exists q. split_and!; try done. intros [Hall _]. apply list.Exists_exists in Hex as (y & Hy & Hle).
    apply (proj1 (list.Forall_forall _ _) Hall) in Hy. lia.
  - assert (Hall : Forall (fun y => y.2 < n) R).
    { apply not_Exists_Forall in Hex; [|intros; apply _]. apply list.Forall_forall. intros y Hy. apply Z.lt_nge.
      by apply (proj1 (list.Forall_forall _ _) Hex). }
    destruct (ring_walk h R A Hok) as (f & Q & Ef & Hrot & Hfs & Hne & Hperm & Hlen). rewrite Ef, Hfs. cbn [ptr_].
    replace k with (S (length Q) + (k - S (length Q)))%nat by lia. rewrite scan_none; auto; [|by rewrite Hfs|].
    2: { apply list.Forall_forall. intros y Hy. by apply (proj1 (list.Forall_forall _ _) Hall), Hperm. }
    destruct (morecore_ok h R A n Hok Hn Hmax) as [[Em Hg]|(h1 & R1 & Em & Hok1 & Hf0 & Hbig & Hlen1 & Hg)]; rewrite (bind_done _ _ _ _ _ Em).
    + rewrite Z.eqb_refl. exists 0, h, R. split; [done|by left].
    + rewrite (proj2 (Z.eqb_neq _ 0) Hf0), bind_gets.
      destruct (round_fit n h1 R1 A (k - S (length Q)) Hok1 Hn Hbig ltac:(lia)) as (h' & R' & q & E & Hok' & Hq & _).
      exists (q + HSZ), h', R'. split; [exact E|]. right. exists q. split_and!; try done. intros [_ Hg']. congruence.
Qed.

(** The ring of the state, the static header first; before the first call it is what [malloc]
    is about to set up. *)
Definition ring_of (h : heap) (R : list blk) (A : gmap Z Z) : Prop :=
  (freep h = 0 /\ A = ∅ /\ brk h = heap0 /\ heap0 <= 2 ^ 35 /\ R = [(base, 0)]) \/ heap_ok h R A.

Lemma heap_inv_ring h A : heap_inv h A <-> exists R, ring_of h R A.
Proof.
  split.
  - intros [(? & ? & ? & ?)|[R ?]]; [exists [(base, 0)]; by left|exists R; by right].
  - intros (R & [(? & ? & ? & ? & _)|?]); [by left|right; by exists R].
Qed.

Lemma malloc_ok nbytes h R A :
  ring_of h R A -> 0 <= nbytes <= 2 ^ 31 - 32 ->
  exists r h' R', malloc base grants nbytes h = Done r h' /\ answer (units nbytes) h R A r h' R'.
Proof.
  intros Hinv Hn. destruct (units_bound nbytes Hn) as (Hu & Hmax & _). unfold malloc. rewrite bind_gets.
  assert (Hstart : exists h1, heap_ok h1 R A /\ brk h1 = brk h /\
    (if freep h =? 0 then modify (fun h => Heap (<[base := Header base 0]> (hm h)) base (brk h)) else mret tt) h = Done tt h1).
  { destruct Hinv as [(Hf & -> & Hb & Hle & ->)|Hok].
    - rewrite Hf. eexists _. split; [by apply (first_ring h)|done].
    - rewrite (proj2 (Z.eqb_neq _ 0) (freep_pos h R A Hok)). by exists h. }
  destruct Hstart as (h1 & Hok & Hb & E). rewrite (bind_done _ _ _ _ _ E). rewrite !bind_gets. pose proof Hok as [_ Hch Hsp _ Hfr _ _ _ _ _].
  pose proof (chain_length base R (hm h1) 0 base_pos Hch (ok_sized h1 R Hfr) Hsp ltac:(lia)).
  destruct (round_ok (units nbytes) h1 R A (2 * rounds h1 + 3) Hok Hu Hmax) as (r & h' & R' & Er & Hres); [unfold rounds; lia|].
  exists r, h', R'. split; [exact Er|]. unfold answer, no_room in *. by rewrite Hb in Hres.
Qed.

(** ** A program that uses the allocator *)

(** The program allocates, frees what it holds and writes into what it holds; [A] records
    the blocks it holds. *)
Inductive ustep : heap * gmap Z Z -> heap * gmap Z Z -> Prop :=
| us_malloc nbytes h A r h' : 0 <= nbytes <= 2 ^ 31 - 32 -> malloc base grants nbytes h = Done r h' ->
    ustep (h, A) (h', if r =? 0 then A else <[r - HSZ := units nbytes]> A)
| us_free a n h A h' : A !! (a - HSZ) = Some n -> free a h = Done tt h' -> ustep (h, A) (h', delete (a - HSZ) A)
| us_write a n x v h A : A !! a = Some n -> a + HSZ <= x -> x + HSZ <= a + HSZ * n ->
    ustep (h, A) (Heap (<[x := v]> (hm h)) (freep h) (brk h), A).

Lemma write_ok h R A a n x v : heap_ok h R A -> A !! a = Some n -> a + HSZ <= x -> x + HSZ <= a + HSZ * n ->
  heap_ok (Heap (<[x := v]> (hm h)) (freep h) (brk h)) R A.
Proof.
  intros [Hhd Hch Hsp Hf Hfr Hlv Hheld Hap Hsum Hbrk] Ha H1 H2. destruct (map_Forall_lookup_1 _ _ _ _ Hlv Ha) as [(Hn & Ha0 & _) _]. cbn in Hn, Ha0.
  split; cbn [hm freep brk]; try done.
  - apply chain_insert; [|done]. intros (b & -> & Hb)%list_elem_of_fmap. pose proof (Hap b a n Hb Ha) as Hba.
    eapply (proj1 (list.Forall_forall _ _) Hfr) in Hb as [->|(Hb1 & _)]; [cbn in *; unfold HSZ in *; lia|].
    destruct Hba as [Hba|Hba]; cbn in Hba; unfold HSZ in *; lia.
  - intros y k Hy. destruct (map_Forall_lookup_1 _ _ _ _ Hlv Hy) as [Hi Hz]. split; [done|]. unfold hdr_at. cbn [hm]. rewrite lookup_total_insert_ne; [done|].
    intros <-. assert (Hne : a <> x) by (unfold HSZ in *; lia). destruct Hi as (Hk & _). cbn in Hk.
    destruct (Hheld _ _ _ _ Ha Hy Hne) as [H|H]; cbn in H; unfold HSZ in *; lia.
Qed.

Lemma answer_nonzero h R A q n : heap_ok h R (<[q := n]> A) -> q + HSZ <> 0.
Proof.
  intros Hok. destruct (map_Forall_lookup_1 _ _ _ _ (ho_live _ _ _ Hok) (lookup_insert_eq _ _ _)) as [(_ & Hq0 & _) _]. cbn in Hq0. unfold HSZ in *. lia.
Qed.

Lemma ustep_inv s s' : ustep s s' -> heap_inv s.1 s.2 -> heap_inv s'.1 s'.2.
Proof.
  intros [nbytes h A r h' Hn E|a n h A h' Ha E|a n x v h A Ha H1 H2] Hinv; cbn [fst snd] in *.
  - apply heap_inv_ring in Hinv as [R HR]. destruct (malloc_ok nbytes h R A HR Hn) as (r1 & h1 & R1 & E1 & Hres).
    rewrite E in E1. injection E1 as <- <-. right. exists R1.
    destruct Hres as [(-> & Hok & _)|(q & -> & Hok & _)]; [done|]. rewrite (proj2 (Z.eqb_neq _ 0)) by (by apply (answer_nonzero h' R1 A q (units nbytes))).
    by replace (q + HSZ - HSZ) with q by lia.
  - destruct Hinv as [(_ & -> & _)|[R Hok]]; [by rewrite lookup_empty in Ha|].
    destruct (free_ok h R A (a - HSZ) n Hok Ha) as (h1 & R1 & E1 & Hok1 & _). replace (a - HSZ + HSZ) with a in E1 by lia. rewrite E in E1. injection E1 as <-.
    right. by exists R1.
  - destruct Hinv as [(_ & -> & _)|[R Hok]]; [by rewrite lookup_empty in Ha|]. right. exists R. by apply (write_ok h R A a n).
Qed.

(** The state a program starts in. *)
Definition fresh (m : gmap Z header) : heap * gmap Z Z := (Heap m 0 heap0, ∅).

Lemma reach_inv m s : heap0 <= 2 ^ 35 -> rtc ustep (fresh m) s -> heap_inv s.1 s.2.
Proof.
  intros Hle Hr. assert (H0 : heap_inv (fresh m).1 (fresh m).2) by (by left).
  revert H0. induction Hr as [|x y z Hxy _ IH]; [done|]. intros H0. by apply IH, (ustep_inv x).
Qed.

(** [F] are the free blocks: the ring in memory goes from the static header through them, in
    this order, and back, and [freep] points into it.  Before the first call there are none. *)
Definition free_ring (h : heap) (F : list blk) : Prop :=
  if decide (freep h = 0) then F = [] else chain (hm h) ((base, 0) :: F) base /\ freep h ∈ base :: F.*1.

(** The blocks [F] and [A] share the heap out. *)
Record shared_out (h : heap) (F : list blk) (A : gmap Z Z) : Prop := {
  so_free : forall b, b ∈ F -> inheap h b;
  so_held : forall a n, A !! a = Some n -> inheap h (a, n);
  so_free_free : forall i j b c, F !! i = Some b -> F !! j = Some c -> i <> j -> apart b c;
  so_free_held : forall b a n, b ∈ F -> A !! a = Some n -> apart b (a, n);
  so_held_held : forall a n a' n', A !! a = Some n -> A !! a' = Some n' -> a <> a' -> apart (a, n) (a', n');
  so_sum : HSZ * (total F + units_of A) = brk h - heap0;
}.

Lemma spaced_lookup lo l i j b c : sized l -> spaced lo l -> (i < j)%nat -> l !! i = Some b -> l !! j = Some c -> b.1 + HSZ * b.2 < c.1.
Proof.
  intros Hs Hsp Hij Hi Hj. rewrite <- (take_drop_middle l i b Hi) in Hs, Hsp. apply (spaced_after lo _ _ _ _ Hs Hsp).
  apply list_elem_of_lookup. exists (j - S i)%nat. rewrite lookup_drop. rewrite <- Hj. f_equal. lia.
Qed.

Lemma heap_ok_blocks h F A : heap_ok h ((base, 0) :: F) A -> free_ring h F /\ shared_out h F A.
Proof.
  intros Hok. pose proof (freep_pos h _ A Hok) as Hf0. destruct Hok as [_ Hch Hsp Hf Hfr Hlv Hheld Hap Hsum _].
  pose proof (ok_sized h _ Hfr) as Hs. split.
  - unfold free_ring. rewrite decide_False by done. by split.
  - split; try done.
    + intros b Hb. pose proof (proj1 (list.Forall_forall _ _) Hfr b) as H. destruct H as [->|]; [by apply elem_of_cons; right| |done].
      exfalso. destruct Hsp as [_ Hsp]. apply list.Forall_cons in Hs as [_ Hs]. pose proof (spaced_lt _ _ _ Hs Hsp Hb). cbn in *. unfold HSZ in *. lia.
    + intros a n Ha. by apply (map_Forall_lookup_1 _ _ _ _ Hlv Ha).
    + intros i j b c Hi Hj Hne. destruct (decide (i < j)%nat).
      * left. apply Z.lt_le_incl. by apply (spaced_lookup 0 ((base, 0) :: F) (S i) (S j)); [..|lia| |].
      * right. apply Z.lt_le_incl. by apply (spaced_lookup 0 ((base, 0) :: F) (S j) (S i)); [..|lia| |].
    + intros b a n Hb. apply Hap. by apply elem_of_cons; right.
Qed.

Lemma heap_inv_blocks h A : heap_inv h A -> exists F, ring_of h ((base, 0) :: F) A /\ free_ring h F /\ shared_out h F A.
Proof.
  intros [R HR]%heap_inv_ring. destruct HR as [(Hf & -> & Hb & Hle & ->)|Hok].
  - exists []. split; [by left|]. split; [unfold free_ring; by rewrite decide_True|].
    split; try done; try (by intros ? ?%elem_of_nil); try (by intros ? ? ? ?%elem_of_nil). cbn. unfold units_of. rewrite map_fold_empty. lia.
  - destruct R as [|r F]; [by destruct Hok|]. pose proof (ho_head _ _ _ Hok) as E. injection E as ->.
    exists F. split; [by right|by apply heap_ok_blocks].
Qed.

(** What an answer says of the free blocks and of the new block. *)
Lemma answer_blocks nbytes h F A r h' R' :
  0 <= nbytes <= 2 ^ 31 - 32 -> answer (units nbytes) h ((base, 0) :: F) A r h' R' ->
  (r = 0 <-> (forall b, b ∈ F -> b.2 < units nbytes) /\ grants (brk h) (HSZ * Z.max (units nbytes) 4096) = false) /\
  ((exists b, b ∈ F /\ units nbytes <= b.2) -> brk h' = brk h) /\
  (r <> 0 -> nbytes <= HSZ * (units nbytes - 1) /\ inheap h' (r - HSZ, units nbytes) /\
     forall a n, A !! a = Some n -> apart (r - HSZ, units nbytes) (a, n)).
Proof.
  intros Hn Hans. destruct (units_bound nbytes Hn) as (Hu & _ & Hroom).
  assert (Href : no_room (units nbytes) h ((base, 0) :: F) <->
    (forall b, b ∈ F -> b.2 < units nbytes) /\ grants (brk h) (HSZ * Z.max (units nbytes) 4096) = false).
  { unfold no_room. rewrite list.Forall_cons, list.Forall_forall. cbn. intuition lia. }
  rewrite <- Href. destruct Hans as [(-> & _ & Hno & Hb)|(q & -> & Hok & Hq & Hno & Hb)]; [done|].
  pose proof (answer_nonzero _ _ _ _ _ Hok) as H0. split; [done|]. split.
  - intros (b & Hbm & Hbn). apply Hb. apply list.Exists_exists. exists b. split; [by apply elem_of_cons; right|done].
  - intros _. replace (q + HSZ - HSZ) with q by lia. split; [done|]. split.
    + by apply (map_Forall_lookup_1 _ _ _ _ (ho_live _ _ _ Hok)), lookup_insert_eq.
    + intros a n Ha. apply (ho_held _ _ _ Hok); [apply lookup_insert_eq|rewrite lookup_insert_ne; [done|congruence]|congruence].
Qed.

(** C31: memory the allocator hands out is the program's own.  After any sequence of
    allocations, frees of blocks the program holds and writes into such blocks, the free blocks,
    those on the ring, and the blocks the program holds lie in the heap, no two of them
    overlap, and together they are the whole heap.  [malloc] returns: 0 exactly when no free
    block is large enough and the kernel refuses to grow the heap; otherwise a new block in the
    heap that has room for the bytes and overlaps no block held, and the heap grows only when
    no free block was large enough.  [free] of a block the program holds returns. *)
Theorem malloc_blocks_apart m h A :
  heap0 <= 2 ^ 35 -> rtc ustep (fresh m) (h, A) ->
  exists F, free_ring h F /\ shared_out h F A /\
  (forall nbytes, 0 <= nbytes <= 2 ^ 31 - 32 -> exists r h', malloc base grants nbytes h = Done r h' /\
     (r = 0 <-> (forall b, b ∈ F -> b.2 < units nbytes) /\ grants (brk h) (HSZ * Z.max (units nbytes) 4096) = false) /\
     ((exists b, b ∈ F /\ units nbytes <= b.2) -> brk h' = brk h) /\
     (r <> 0 -> nbytes <= HSZ * (units nbytes - 1) /\ inheap h' (r - HSZ, units nbytes) /\
        forall a n, A !! a = Some n -> apart (r - HSZ, units nbytes) (a, n))) /\
  (forall a n, A !! a = Some n -> exists h', free (a + HSZ) h = Done tt h').
Proof.
  intros Hle Hr. pose proof (reach_inv m (h, A) Hle Hr) as Hinv. cbn in Hinv.
  destruct (heap_inv_blocks h A Hinv) as (F & HR & HF & Hso). exists F. split; [done|]. split; [done|]. split.
  - intros nbytes Hn. destruct (malloc_ok nbytes h _ A HR Hn) as (r & h' & R' & E & Hres). exists r, h'. split; [exact E|]. by apply (answer_blocks _ _ _ _ _ _ R').
  - intros a n Ha. destruct Hinv as [(_ & -> & _)|[R Hok]]; [by rewrite lookup_empty in Ha|].
    destruct (free_ok h R A a n Hok Ha) as (h' & _ & E & _). by exists h'.
Qed.

Lemma spaced_sum b l lo hi : spaced lo (b :: l) -> Forall (fun c => c.1 + HSZ * c.2 <= hi) (b :: l) ->
  b.1 + HSZ * total (b :: l) + Z.of_nat (length l) <= hi.
Proof.
  revert b lo. induction l as [|c l IH]; intros b lo Hsp Hf; inversion Hf as [|? ? Hb Hl]; subst; [cbn; unfold HSZ in *; lia|].
  destruct Hsp as [_ Hsp]. pose proof Hsp as [Hbc _]. specialize (IH c _ Hsp Hl). change (total (b :: c :: l)) with (b.2 + total (c :: l)).
  cbn [length]. unfold HSZ in *. lia.
Qed.

(** Freeing everything puts the heap together again: when the program holds no block, the
    ring is the static header and one free block that is the whole heap, whatever the order
    of the allocations and frees. *)
Theorem free_all_coalesces m h :
  heap0 <= 2 ^ 35 -> rtc ustep (fresh m) (h, ∅) -> brk h <> heap0 ->
  hdr_at base h = Header heap0 0 /\ hdr_at heap0 h = Header base ((brk h - heap0) / HSZ).
Proof.
  intros Hle Hr Hne. destruct (reach_inv m (h, ∅) Hle Hr) as [(_ & _ & Hb & _)|[R Hok]]; [done|]. cbn in Hok.
  destruct Hok as [Hhd Hch Hsp _ Hfr _ _ _ Hsum _]. destruct R as [|r F]; [done|]. injection Hhd as ->.
  change (total ((base, 0) :: F)) with (total F) in Hsum. unfold units_of in Hsum. rewrite map_fold_empty in Hsum.
  destruct Hsp as [_ Hsp]. cbn in Hsp. inversion Hfr as [|? ? _ HF]; subst.
  assert (HF' : Forall (inheap h) F).
  { apply list.Forall_forall. intros b Hb. eapply (proj1 (list.Forall_forall _ _) HF) in Hb as Hb'. destruct Hb' as [->|]; [|done].
    exfalso. pose proof (spaced_lt _ _ _ (ok_sized h F HF) Hsp Hb) as Hlt. cbn in Hlt. unfold HSZ in *. lia. }
  destruct F as [|b F]; [cbn in Hsum; unfold HSZ in *; lia|].
  pose proof (spaced_sum b F _ (brk h) Hsp) as Hs. inversion HF' as [|? ? (Hb1 & Hb2 & Hb3) _]; subst.
  destruct F as [|c F].
  - cbn in Hch, Hsum. destruct Hch as [H1 [H2 _]]. assert (E : b.1 = heap0) by (unfold HSZ in *; lia). unfold hdr_at. rewrite H1, <- E, H2, E. split; [done|].
    f_equal. unfold HSZ in *. lia.
  - exfalso. assert (Hs' : b.1 + HSZ * total (b :: c :: F) + Z.of_nat (length (c :: F)) <= brk h).
    { apply Hs. eapply list.Forall_impl; [exact HF'|]. intros x (_ & _ & Hx). exact Hx. }
    cbn [length] in Hs'. unfold HSZ in *. lia.
Qed.
End Heap.

(** ** A small program *)

Definition grant_all (b n : Z) : bool := b + n <=? 2 ^ 35.

Lemma grant_all_bound b n : grant_all b n = true -> b + n <= 2 ^ 35.
Proof. apply Z.leb_le. Qed.

Definition after (o : outcome heap Z) : Z * heap := match o with Done r h => (r, h) | _ => (0, Heap ∅ 0 0) end.
Definition after_free (o : outcome heap unit) : heap := match o with Done _ h => h | _ => Heap ∅ 0 0 end.

(** Two allocations, then both blocks are freed, the first one first. *)
Definition demo1 := Eval vm_compute in after (malloc 4096 grant_all 100 (Heap ∅ 0 8192)).
Definition demo2 := Eval vm_compute in after (malloc 4096 grant_all 200 demo1.2).
Definition demo3 := Eval vm_compute in after_free (free demo1.1 demo2.2).
Definition demo4 := Eval vm_compute in after_free (free demo2.1 demo3).

Definition demo_held : gmap Z Z := <[demo2.1 - HSZ := units 200]> (<[demo1.1 - HSZ := units 100]> ∅).

Lemma demo_held_runs : rtc (ustep 4096 grant_all) (fresh 8192 ∅) (demo2.2, demo_held).
Proof.
  apply (rtc_l _ _ (demo1.2, <[demo1.1 - HSZ := units 100]> ∅)).
  { apply (us_malloc 4096 grant_all 100 _ ∅ demo1.1); [lia|vm_compute; reflexivity]. }
  apply (rtc_l _ _ (demo2.2, demo_held)); [|apply rtc_refl].
  apply (us_malloc 4096 grant_all 200 _ _ demo2.1); [lia|vm_compute; reflexivity].
Qed.

Lemma demo_freed_runs : rtc (ustep 4096 grant_all) (fresh 8192 ∅) (demo4, ∅).
Proof.
  transitivity (demo2.2, demo_held); [exact demo_held_runs|].
  apply (rtc_l _ _ (demo3, <[demo2.1 - HSZ := units 200]> ∅)).
  { replace (<[demo2.1 - HSZ := units 200]> ∅) with (delete (demo1.1 - HSZ) demo_held) by (vm_compute; reflexivity).
    apply (us_free 4096 grant_all demo1.1 (units 100)); vm_compute; reflexivity. }
  apply (rtc_l _ _ (demo4, ∅)); [|apply rtc_refl].
  replace (∅ : gmap Z Z) with (delete (demo2.1 - HSZ) (<[demo2.1 - HSZ := units 200]> ∅ : gmap Z Z)) at 2 by (vm_compute; reflexivity).
  apply (us_free 4096 grant_all demo2.1 (units 200)); vm_compute; reflexivity.
Qed.

Lemma malloc_blocks_apart_witness :
  apart (demo1.1 - HSZ, units 100) (demo2.1 - HSZ, units 200) /\
  exists r h', malloc 4096 grant_all (2 ^ 31 - 32) demo2.2 = Done r h' /\ r <> 0.
Proof.
  destruct (malloc_blocks_apart 4096 8192 grant_all ltac:(lia) ltac:(vm_compute; discriminate) grant_all_bound ∅ demo2.2 demo_held ltac:(lia) demo_held_runs)
    as (F & _ & Hso & H3 & _). split.
  - apply (so_held_held _ _ _ _ Hso); [vm_compute; reflexivity|vm_compute; reflexivity|vm_compute; discriminate].
  - destruct (H3 (2 ^ 31 - 32) ltac:(lia)) as (r & h' & E & H0 & _). exists r, h'. split; [exact E|].
    intros [_ Hg]%H0. revert Hg. vm_compute. discriminate.
Defined.

Lemma free_all_coalesces_witness : hdr_at 4096 demo4 = Header 8192 0 /\ hdr_at 8192 demo4 = Header 4096 4096.
Proof.
  apply (free_all_coalesces 4096 8192 grant_all ltac:(lia) ltac:(vm_compute; discriminate) grant_all_bound ∅ demo4 ltac:(lia) demo_freed_runs).
  vm_compute. discriminate.
Defined.

(** The argument of [sbrk] is an [int]: a request of almost 4 GB asks it for 16 bytes, and
    [malloc] returns a block that goes far beyond the heap. *)
Example malloc_overflows :
  let '(r, h) := after (malloc 4096 grant_all 4294967295 (Heap ∅ 0 8192)) in r = 8208 /\ brk h = 8208 /\ size_ (hdr_at 8192 h) = 268435457.
Proof. vm_compute. repeat split. Qed.
