(* ===== verification/Console.v ===== *)
(** * The console, [kernel/console.c]

    Input characters are edited in a circular buffer of 128 bytes: [r] is where the reader
    is, [w] the end of what it may read and [e] the end of the line being edited.
    [consoleread] is cut at the points where it sleeps.  The process listing of control-p is
    not modelled. *)

From S2P Require Import Prelude.

Definition BACKSPACE : Z := 0x100.
Definition INPUT_BUF_SIZE : Z := 128.
Definition CTRL_P : Z := 16.
Definition CTRL_U : Z := 21.
Definition CTRL_H : Z := 8.
Definition CTRL_D : Z := 4.
Definition DELETE : Z := 127.
Definition NEWLINE : Z := 10.

(** The characters [consputc(c)] gives to [uartputc_sync]. *)
Definition consputc (c : Z) : list Z := if c =? BACKSPACE then [8; 32; 8] else [u8 c].

Record cons := Cons { cbuf : list Z; cr : Z; cw : Z; ce : Z }.

Abbreviation cget := (rget INPUT_BUF_SIZE).
Abbreviation cput := (rput INPUT_BUF_SIZE).

(** ** Input *)

(** The loop of control-u, at most [fuel] rounds. *)
Fixpoint kill_line (fuel : nat) (s : cons) : cons * list Z :=
  match fuel with
  | O => (s, [])
  | S fuel =>
      if negb (ce s =? cw s) && negb (cget (cbuf s) (u32 (ce s - 1)) =? NEWLINE) then
        let '(s, echo) := kill_line fuel (Cons (cbuf s) (cr s) (cw s) (u32 (ce s - 1))) in (s, consputc BACKSPACE ++ echo)
      else (s, [])
  end.

(** [consoleintr(c)]: the new state, the echo and whether the reader is woken up. *)
Definition consoleintr (c : Z) (s : cons) : cons * list Z * bool :=
  if c =? CTRL_P then (s, [], false)
  else if c =? CTRL_U then
    let '(s, echo) := kill_line (Z.to_nat (u32 (ce s - cw s))) s in (s, echo, false)
  else if (c =? CTRL_H) || (c =? DELETE) then
    if negb (ce s =? cw s) then (Cons (cbuf s) (cr s) (cw s) (u32 (ce s - 1)), consputc BACKSPACE, false) else (s, [], false)
  else if negb (c =? 0) && (u32 (ce s - cr s) <? INPUT_BUF_SIZE) then
    let c := if c =? 13 then NEWLINE else c in
    let buf := cput (cbuf s) (ce s) (u8 c) in
    let e := u32 (ce s + 1) in
    if (c =? NEWLINE) || (c =? CTRL_D) || (u32 (e - cr s) =? INPUT_BUF_SIZE) then (Cons buf (cr s) e e, consputc c, true)
    else (Cons buf (cr s) (cw s) e, consputc c, false)
  else (s, [], false).

(** ** Reading *)

Inductive read_end := RSleep (n : nat) | RReturn (v : Z).

(** [consoleread] with [rem] bytes to go, until it sleeps or returns: the bytes copied out
    and the end.  [put i] is whether the copy of byte [i] succeeds. *)
Fixpoint read_burst (rem : nat) (target : Z) (put : Z -> bool) (killed : bool) (s : cons) : cons * list Z * read_end :=
  match rem with
  | O => (s, [], RReturn target)
  | S rem' =>
      let n := Z.of_nat rem in
      if cr s =? cw s then if killed then (s, [], RReturn (-1)) else (s, [], RSleep rem)
      else
        let c := cget (cbuf s) (cr s) in
        let s1 := Cons (cbuf s) (u32 (cr s + 1)) (cw s) (ce s) in
        if c =? CTRL_D then
          (if n <? target then Cons (cbuf s) (u32 (cr s1 - 1)) (cw s) (ce s) else s1, [], RReturn (target - n))
        else if negb (put (target - n)) then (s1, [], RReturn (target - n))
        else if c =? NEWLINE then (s1, [c], RReturn (target - (n - 1)))
        else let '(s2, out, e) := read_burst rem' target put killed s1 in (s2, c :: out, e)
  end.

(** [consoleread(user_dst, dst, n)] from its start. *)
Definition consoleread (n : Z) (put : Z -> bool) (killed : bool) (s : cons) : cons * list Z * read_end :=
  if n <=? 0 then (s, [], RReturn 0) else read_burst (Z.to_nat n) n put killed s.

(** ** A line editor

    What the reader may read, and the line being edited. *)

Record editor := Editor { ready : list Z; line : list Z }.

Definition edit (c : Z) (a : editor) : editor * list Z * bool :=
  if c =? CTRL_P then (a, [], false)
  else if c =? CTRL_U then (Editor (ready a) [], concat (replicate (length (line a)) (consputc BACKSPACE)), false)
  else if (c =? CTRL_H) || (c =? DELETE) then
    match line a with [] => (a, [], false) | _ => (Editor (ready a) (removelast (line a)), consputc BACKSPACE, false) end
  else if negb (c =? 0) && (Z.of_nat (length (ready a) + length (line a)) <? INPUT_BUF_SIZE) then
    let c := if c =? 13 then NEWLINE else c in
    let l := line a ++ [c] in
    if (c =? NEWLINE) || (c =? CTRL_D) || (Z.of_nat (length (ready a) + length l) =? INPUT_BUF_SIZE) then (Editor (ready a ++ l) [], consputc c, true)
    else (Editor (ready a) l, consputc c, false)
  else (a, [], false).

(** Reading takes characters up to a newline or control-d; a control-d that does not come
    first stays for the next read. *)
Fixpoint take_line (rem : nat) (target : Z) (put : Z -> bool) (killed : bool) (q : list Z) : list Z * list Z * read_end :=
  match rem with
  | O => (q, [], RReturn target)
  | S rem' =>
      let n := Z.of_nat rem in
      match q with
      | [] => if killed then (q, [], RReturn (-1)) else (q, [], RSleep rem)
      | c :: q' =>
          if c =? CTRL_D then (if n <? target then q else q', [], RReturn (target - n))
          else if negb (put (target - n)) then (q', [], RReturn (target - n))
          else if c =? NEWLINE then (q', [c], RReturn (target - (n - 1)))
          else let '(q2, out, e) := take_line rem' target put killed q' in (q2, c :: out, e)
      end
  end.

(** ** Runs: characters arrive and readers run in any order *)

Inductive cop :=
| Char (c : Z)                                            (** a character arrives *)
| ReadStart (n : Z) (put : Z -> bool) (killed : bool)     (** [consoleread] is called *)
| ReadOn (rem : nat) (target : Z) (put : Z -> bool) (killed : bool). (** a sleeping reader goes on *)

Inductive cres := Echo (out : list Z) (woken : bool) | Got (out : list Z) (e : read_end).

Definition cons_step (o : cop) (s : cons) : cons * cres :=
  match o with
  | Char c => let '(s, out, w) := consoleintr c s in (s, Echo out w)
  | ReadStart n put killed => let '(s, out, e) := consoleread n put killed s in (s, Got out e)
  | ReadOn rem target put killed => let '(s, out, e) := read_burst rem target put killed s in (s, Got out e)
  end.

Definition edit_step (o : cop) (a : editor) : editor * cres :=
  match o with
  | Char c => let '(a, out, w) := edit c a in (a, Echo out w)
  | ReadStart n put killed =>
      if n <=? 0 then (a, Got [] (RReturn 0))
      else let '(q, out, e) := take_line (Z.to_nat n) n put killed (ready a) in (Editor q (line a), Got out e)
  | ReadOn rem target put killed => let '(q, out, e) := take_line rem target put killed (ready a) in (Editor q (line a), Got out e)
  end.

Fixpoint cons_run (os : list cop) (s : cons) : list cres :=
  match os with [] => [] | o :: os => let '(s, r) := cons_step o s in r :: cons_run os s end.
Fixpoint edit_run (os : list cop) (a : editor) : list cres :=
  match os with [] => [] | o :: os => let '(a, r) := edit_step o a in r :: edit_run os a end.

(** ** The console is a line editor *)

(** [nr] characters to read, [ne] in the line. *)
Record cons_ok (s : cons) (nr ne : Z) : Prop := {
  ck_len : Z.of_nat (length (cbuf s)) = INPUT_BUF_SIZE;
  ck_r : 0 <= cr s < 2 ^ 32;
  ck_w : cw s = u32 (cr s + nr);
  ck_e : ce s = u32 (cr s + nr + ne);
  ck_n : 0 <= nr /\ 0 <= ne /\ nr + ne <= INPUT_BUF_SIZE;
  ck_line : Forall (fun c => c <> NEWLINE) (rqueue INPUT_BUF_SIZE (cbuf s) (cr s + nr) ne);
}.

Definition shows (s : cons) (nr ne : Z) : editor :=
  Editor (rqueue INPUT_BUF_SIZE (cbuf s) (cr s) nr) (rqueue INPUT_BUF_SIZE (cbuf s) (cr s + nr) ne).

Definition sim (s : cons) (a : editor) : Prop := exists nr ne, cons_ok s nr ne /\ a = shows s nr ne.

Lemma u32_diff x y : u32 (u32 x - u32 y) = u32 (x - y).
Proof. unfold u32. symmetry. apply Zminus_mod. Qed.

Lemma u32_sub x y : u32 (u32 x - y) = u32 (x - y).
Proof. unfold u32. apply Zminus_mod_idemp_l. Qed.

Lemma u32_add1 x : u32 (u32 x + 1) = u32 (x + 1).
Proof. unfold u32. by rewrite Zplus_mod_idemp_l. Qed.

Lemma size_divides : (INPUT_BUF_SIZE | 2 ^ 32).
Proof. by exists (2 ^ 25). Qed.

Lemma cget_u32 buf i : cget buf (u32 i) = cget buf i.
Proof. apply rget_wrap; [done|apply size_divides]. Qed.

Lemma cput_u32 buf i c : cput buf (u32 i) c = cput buf i c.
Proof. apply rput_wrap; [done|apply size_divides]. Qed.

Lemma cons_counts s nr ne : cons_ok s nr ne ->
  u32 (ce s - cw s) = ne /\ (ce s =? cw s) = (ne =? 0) /\ u32 (ce s - cr s) = nr + ne /\ (cr s =? cw s) = (nr =? 0).
Proof.
  intros [Hl Hr Hw He Hn _]. unfold INPUT_BUF_SIZE in *. assert (Er : cr s = u32 (cr s)) by (symmetry; by apply u32_small).
  assert (H1 : u32 (ce s - cw s) = ne) by (rewrite He, Hw, u32_diff; replace (cr s + nr + ne - (cr s + nr)) with ne by lia; apply u32_small; lia).
  assert (H2 : u32 (ce s - cr s) = nr + ne) by (rewrite He, u32_sub; replace (cr s + nr + ne - cr s) with (nr + ne) by lia; apply u32_small; lia).
  assert (H3 : u32 (cw s - cr s) = nr) by (rewrite Hw, u32_sub; replace (cr s + nr - cr s) with nr by lia; apply u32_small; lia).
  split; [done|]. split; [|split; [done|]].
  - destruct (Z.eqb_spec ne 0) as [->|Hne].
    + rewrite Z.add_0_r in He. apply Z.eqb_eq. congruence.
    + apply Z.eqb_neq. intros E. rewrite E, Z.sub_diag in H1. by apply Hne.
  - destruct (Z.eqb_spec nr 0) as [->|Hne].
    + rewrite Z.add_0_r, <- Er in Hw. by apply Z.eqb_eq.
    + apply Z.eqb_neq. intros E. rewrite E, Z.sub_diag in H3. by apply Hne.
Qed.

Lemma line_last buf lo ne : 0 < ne -> rqueue INPUT_BUF_SIZE buf lo ne = rqueue INPUT_BUF_SIZE buf lo (ne - 1) ++ [cget buf (lo + ne - 1)].
Proof. intros Hne. replace ne with (ne - 1 + 1) at 1 by lia. rewrite rqueue_snoc by lia. do 3 f_equal. lia. Qed.

(** One character less in the line. *)
Lemma shorten s nr ne : cons_ok s nr ne -> 0 < ne ->
  cons_ok (Cons (cbuf s) (cr s) (cw s) (u32 (ce s - 1))) nr (ne - 1) /\ cget (cbuf s) (u32 (ce s - 1)) <> NEWLINE.
Proof.
  intros [Hl Hr Hw He Hn Hln] Hne. rewrite line_last in Hln by done. apply Forall_app in Hln as [Hln Hc]. inversion Hc; subst.
  assert (E : u32 (ce s - 1) = u32 (cr s + nr + ne - 1)) by (rewrite He; apply u32_sub). rewrite E, cget_u32. split; [|done].
  split; cbn; try done; [|lia]. f_equal. lia.
Qed.

Lemma kill_line_ok ne : forall s nr, cons_ok s nr (Z.of_nat ne) ->
  exists s', kill_line ne s = (s', concat (replicate ne (consputc BACKSPACE))) /\ cons_ok s' nr 0 /\ cbuf s' = cbuf s /\ cr s' = cr s.
Proof.
  induction ne as [|ne IH]; intros s nr Hok; [by exists s|]. destruct (cons_counts _ _ _ Hok) as (_ & He & _ & _).
  destruct (shorten s nr _ Hok ltac:(lia)) as [Hok' Hc]. cbn [kill_line]. rewrite He.
  rewrite (proj2 (Z.eqb_neq (Z.of_nat (S ne)) 0)) by lia. rewrite (proj2 (Z.eqb_neq _ _) Hc). cbn [negb andb].
  replace (Z.of_nat (S ne) - 1) with (Z.of_nat ne) in Hok' by lia. destruct (IH _ _ Hok') as (s' & E & Hs' & Hb & Hr). rewrite E.
  exists s'. split; [done|]. done.
Qed.

(** One character more. *)
Lemma lengthen s nr ne c : cons_ok s nr ne -> nr + ne < INPUT_BUF_SIZE -> c <> NEWLINE ->
  cons_ok (Cons (cput (cbuf s) (ce s) c) (cr s) (cw s) (u32 (ce s + 1))) nr (ne + 1).
Proof.
  intros [Hl Hr Hw He Hn Hln] Hlt Hc. split; cbn; try done.
  - by rewrite length_rput.
  - rewrite He, u32_add1. f_equal. lia.
  - lia.
  - rewrite He, cput_u32. rewrite rqueue_push; [|done|done|unfold INPUT_BUF_SIZE in *; lia]. apply Forall_app. split; [done|]. by constructor.
Qed.

Lemma push_shows s nr ne c : cons_ok s nr ne -> nr + ne < INPUT_BUF_SIZE ->
  rqueue INPUT_BUF_SIZE (cput (cbuf s) (ce s) c) (cr s) nr = rqueue INPUT_BUF_SIZE (cbuf s) (cr s) nr /\
  rqueue INPUT_BUF_SIZE (cput (cbuf s) (ce s) c) (cr s + nr) (ne + 1) = rqueue INPUT_BUF_SIZE (cbuf s) (cr s + nr) ne ++ [c].
Proof.
  intros [Hl Hr Hw He Hn Hln] Hlt. rewrite He, cput_u32. split.
  - apply rqueue_put_before; unfold INPUT_BUF_SIZE in *; lia.
  - apply rqueue_push; [done|done|unfold INPUT_BUF_SIZE in *; lia].
Qed.

(** The whole line becomes readable. *)
Lemma commit_ok buf r nr ne e : Z.of_nat (length buf) = INPUT_BUF_SIZE -> 0 <= r < 2 ^ 32 -> 0 <= nr -> 0 <= ne -> nr + ne <= INPUT_BUF_SIZE ->
  e = u32 (r + nr + ne) -> cons_ok (Cons buf r e e) (nr + ne) 0.
Proof. intros Hl Hr Hn Hne Hle ->. split; cbn; try done; [f_equal; lia|f_equal; lia|lia]. Qed.

Lemma shows_lengths s nr ne : cons_ok s nr ne ->
  Z.of_nat (length (ready (shows s nr ne)) + length (line (shows s nr ne))) = nr + ne /\ length (line (shows s nr ne)) = Z.to_nat ne.
Proof. intros [_ _ _ _ Hn _]. cbn. rewrite !length_rqueue. lia. Qed.

Lemma char_sim c s nr ne : 0 <= c < 256 -> cons_ok s nr ne ->
  exists s' a' out w, consoleintr c s = (s', out, w) /\ edit c (shows s nr ne) = (a', out, w) /\ sim s' a'.
Proof.
  intros Hc Hok. destruct (cons_counts s nr ne Hok) as (Hne & He & Hall & _). destruct (shows_lengths s nr ne Hok) as [Hlen Hlenl].
  unfold consoleintr, edit. destruct (c =? CTRL_P); [by eexists s, _, _, _; repeat split; exists nr, ne|].
  destruct (c =? CTRL_U).
  { pose proof Hok as [_ _ _ _ Hn _]. rewrite Hne, Hlenl. replace ne with (Z.of_nat (Z.to_nat ne)) in Hok by lia.
    destruct (kill_line_ok (Z.to_nat ne) s nr Hok) as (s' & E & Hok' & Hb & Hr). rewrite E. eexists _, _, _, _. split; [done|]. split; [done|].
    exists nr, 0. split; [done|]. unfold shows. by rewrite Hb, Hr. }
  destruct ((c =? CTRL_H) || (c =? DELETE)).
  { rewrite He. destruct (Z.eqb_spec ne 0) as [->|H0]; cbn [negb].
    - eexists s, _, _, _. split; [done|]. split; [done|]. by exists nr, 0.
    - pose proof Hok as [_ _ _ _ Hn _]. destruct (shorten s nr ne Hok ltac:(lia)) as [Hok' _].
      eexists _, (Editor (ready (shows s nr ne)) (removelast (line (shows s nr ne)))), _, _. split; [done|].
      split; [destruct (line (shows s nr ne)) eqn:El; [rewrite ?El in Hlenl; cbn in Hlenl; lia|done]|]. exists nr, (ne - 1). split; [done|]. cbn.
      rewrite (line_last (cbuf s) (cr s + nr) ne) by lia. by rewrite removelast_last. }
  rewrite Hall, Hlen. destruct (negb (c =? 0) && (nr + ne <? INPUT_BUF_SIZE)) eqn:Eg; [|by eexists s, _, _, _; repeat split; exists nr, ne].
  apply andb_true_iff in Eg as [_ Hlt%Z.ltb_lt]. set (c' := if c =? 13 then NEWLINE else c).
  assert (Hc' : 0 <= c' < 2 ^ 8) by (unfold c'; destruct (c =? 13); unfold NEWLINE; lia). rewrite (u8_small c' Hc').
  destruct (push_shows s nr ne c' Hok Hlt) as [Hp1 Hp2]. pose proof Hok as [Hl Hr Hw Hee Hn Hln].
  assert (Hcnt : u32 (u32 (ce s + 1) - cr s) = nr + ne + 1).
  { rewrite Hee, u32_add1, u32_sub. replace (cr s + nr + ne + 1 - cr s) with (nr + ne + 1) by lia. apply u32_small. unfold INPUT_BUF_SIZE in *. lia. }
  rewrite Hcnt, length_app. cbn [length]. replace (Z.of_nat (length (ready (shows s nr ne)) + (length (line (shows s nr ne)) + 1))) with (nr + ne + 1) by lia.
  destruct ((c' =? NEWLINE) || (c' =? CTRL_D) || (nr + ne + 1 =? INPUT_BUF_SIZE)) eqn:Ew.
  - eexists _, _, _, _. split; [done|]. split; [done|]. exists (nr + (ne + 1)), 0. split.
    + apply commit_ok; rewrite ?length_rput; try done; try lia. rewrite Hee, u32_add1. f_equal. lia.
    + unfold shows. cbn [cbuf cr ready line]. rewrite rqueue_app, Hp1, Hp2 by lia. by rewrite rqueue_nil.
  - apply orb_false_iff in Ew as [[En _]%orb_false_iff _]. apply Z.eqb_neq in En. eexists _, _, _, _. split; [done|]. split; [done|]. exists nr, (ne + 1).
    split; [by apply lengthen|]. unfold shows. cbn [cbuf cr ready line]. by rewrite Hp1, Hp2.
Qed.

Lemma read_sim rem target put killed : forall s nr ne, cons_ok s nr ne ->
  exists s' nr' out e, read_burst rem target put killed s = (s', out, e) /\
    take_line rem target put killed (ready (shows s nr ne)) = (ready (shows s' nr' ne), out, e) /\ cons_ok s' nr' ne /\ line (shows s' nr' ne) = line (shows s nr ne).
Proof.
  induction rem as [|rem IH]; intros s nr ne Hok; [by exists s, nr, [], (RReturn target)|].
  destruct (cons_counts s nr ne Hok) as (_ & _ & _ & Hrw). pose proof Hok as [Hl Hr Hw He Hn Hln]. cbn [read_burst take_line]. rewrite Hrw.
  destruct (Z.eqb_spec nr 0) as [->|H0]; [destruct killed; by eexists s, 0, _, _|].
  set (s1 := Cons (cbuf s) (u32 (cr s + 1)) (cw s) (ce s)).
  assert (Hok1 : cons_ok s1 (nr - 1) ne /\ ready (shows s1 (nr - 1) ne) = rqueue INPUT_BUF_SIZE (cbuf s) (cr s + 1) (nr - 1) /\ line (shows s1 (nr - 1) ne) = line (shows s nr ne)).
  { assert (Ew : forall k, u32 (u32 (cr s + 1) + k) = u32 (cr s + 1 + k)) by (intros k; unfold u32; apply Zplus_mod_idemp_l).
    assert (Eq : forall k m, rqueue INPUT_BUF_SIZE (cbuf s) (u32 (cr s + 1) + k) m = rqueue INPUT_BUF_SIZE (cbuf s) (cr s + 1 + k) m).
    { intros k m. rewrite <- (rqueue_wrap INPUT_BUF_SIZE (cbuf s) (u32 (cr s + 1) + k) m (2 ^ 32)), <- (rqueue_wrap INPUT_BUF_SIZE (cbuf s) (cr s + 1 + k) m (2 ^ 32));
        try done; try apply size_divides. f_equal. apply Ew. }
    split; [|split].
    - split; cbn; try done; [apply u32_range|rewrite Hw, Ew; f_equal; lia|rewrite He, <- (Z.add_assoc (u32 _)), Ew; f_equal; lia|lia|].
      rewrite Eq. by replace (cr s + 1 + (nr - 1)) with (cr s + nr) by lia.
    - cbn. specialize (Eq 0 (nr - 1)). rewrite !Z.add_0_r in Eq. exact Eq.
    - cbn. rewrite Eq. by replace (cr s + 1 + (nr - 1)) with (cr s + nr) by lia. }
  destruct Hok1 as (Hok1 & Hready & Hline). cbn [ready shows]. rewrite (rqueue_pop INPUT_BUF_SIZE (cbuf s) (cr s) nr) by lia. rewrite <- Hready.
  set (c := cget (cbuf s) (cr s)). destruct (c =? CTRL_D).
  - destruct (Z.of_nat (S rem) <? target); [|by exists s1, (nr - 1), [], (RReturn (target - Z.of_nat (S rem)))].
    exists s, nr, [], (RReturn (target - Z.of_nat (S rem))). cbn [cr s1]. rewrite u32_sub, Z.add_simpl_r, (u32_small (cr s)) by done.
    split; [by destruct s|]. split; [|done]. rewrite Hready. cbn. by rewrite (rqueue_pop INPUT_BUF_SIZE _ _ nr) by lia.
  - destruct (negb (put (target - Z.of_nat (S rem)))); [by exists s1, (nr - 1), [], (RReturn (target - Z.of_nat (S rem)))|].
    destruct (c =? NEWLINE); [by eexists s1, (nr - 1), _, _|]. destruct (IH s1 (nr - 1) ne Hok1) as (s' & nr' & out & e & E1 & E2 & Hok' & Hl').
    rewrite E1, E2. eexists s', nr', _, _. split; [done|]. split; [done|]. split; [done|]. by rewrite Hl'.
Qed.

Definition chars_ok (o : cop) : Prop := match o with Char c => 0 <= c < 256 | _ => True end.

Lemma step_sim o s a : chars_ok o -> sim s a -> exists s' a' r, cons_step o s = (s', r) /\ edit_step o a = (a', r) /\ sim s' a'.
Proof.
  intros Ho (nr & ne & Hok & ->). destruct o as [c|n put killed|rem target put killed]; cbn [cons_step edit_step].
  - destruct (char_sim c s nr ne Ho Hok) as (s' & a' & out & w & -> & -> & Hs). by eexists _, _, _.
  - unfold consoleread. destruct (n <=? 0); [eexists _, _, _; repeat split; by exists nr, ne|].
    destruct (read_sim (Z.to_nat n) n put killed s nr ne Hok) as (s' & nr' & out & e & -> & -> & Hok' & Hl). eexists _, _, _. split; [done|]. split; [done|].
    exists nr', ne. split; [done|]. rewrite <- Hl. done.
  - destruct (read_sim rem target put killed s nr ne Hok) as (s' & nr' & out & e & -> & -> & Hok' & Hl). eexists _, _, _. split; [done|]. split; [done|].
    exists nr', ne. split; [done|]. rewrite <- Hl. done.
Qed.

(** The console at boot. *)
Definition cons0 : cons := Cons (replicate 128 0) 0 0 0.

Lemma cons0_sim : sim cons0 (Editor [] []).
Proof. exists 0, 0. split; [|done]. split; try done. Qed.

(** C32: the console is a line editor.  For every sequence of characters that arrive and of
    readers that start, sleep and go on, every echo, every wakeup and every result of
    consoleread is that of an editor with one line and a queue of at most 128 characters:
    control-u empties the line, backspace drops its last character, newline, control-d and a
    full buffer make it readable, and a reader gets at most one line. *)
Theorem console_is_line_editor os : Forall chars_ok os -> cons_run os cons0 = edit_run os (Editor [] []).
Proof.
  intros Hos. generalize cons0_sim. generalize cons0 (Editor [] []). induction Hos as [|o os Ho Hos IH]; intros s a Hsim; [done|].
  destruct (step_sim o s a Ho Hsim) as (s' & a' & r & E1 & E2 & Hs). cbn [cons_run edit_run]. rewrite E1, E2. f_equal. by apply IH.
Qed.

(** "ab", backspace, "c", newline; a reader that asks for ten bytes. *)
Lemma console_is_line_editor_witness :
  cons_run [Char 97; Char 98; Char 8; Char 99; Char 13; ReadStart 10 (fun _ => true) false] cons0 =
    [Echo [97] false; Echo [98] false; Echo [8; 32; 8] false; Echo [99] false; Echo [10] true; Got [97; 99; 10] (RReturn 3)].
Proof.
  rewrite (console_is_line_editor [Char 97; Char 98; Char 8; Char 99; Char 13; ReadStart 10 (fun _ => true) false]);
    [vm_compute; reflexivity|repeat constructor; vm_compute; congruence].
Defined.
