(* ===== verification/Uart.v ===== *)
(** * The UART driver, [kernel/uart.c], and [consolewrite] of [kernel/console.c]

    The device is a parameter: [lsr k] and [rhr k] are what it answers when one of its
    registers is read for the [k]-th time.  Writes to its registers are results.  The driver
    is shown to be a queue of at most 32 bytes in front of the device. *)

From S2P Require Import Prelude Console.

(** ** Registers *)

Definition RHR : Z := 0.
Definition THR : Z := 0.
Definition IER : Z := 1.
Definition IER_RX_ENABLE : Z := Z.shiftl 1 0.
Definition IER_TX_ENABLE : Z := Z.shiftl 1 1.
Definition FCR : Z := 2.
Definition FCR_FIFO_ENABLE : Z := Z.shiftl 1 0.
Definition FCR_FIFO_CLEAR : Z := Z.shiftl 3 1.
Definition LCR : Z := 3.
Definition LCR_EIGHT_BITS : Z := Z.shiftl 3 0.
Definition LCR_BAUD_LATCH : Z := Z.shiftl 1 7.
Definition LSR : Z := 5.
Definition LSR_RX_READY : Z := Z.shiftl 1 0.
Definition LSR_TX_IDLE : Z := Z.shiftl 1 5.

Definition UART_TX_BUF_SIZE : Z := 32.

(** [uartinit]: the registers it writes, in order, with their values. *)
Definition uartinit : list (Z * Z) :=
  [(IER, 0); (LCR, LCR_BAUD_LATCH); (0, 3); (1, 0); (LCR, LCR_EIGHT_BITS); (FCR, Z.lor FCR_FIFO_ENABLE FCR_FIFO_CLEAR);
   (IER, Z.lor IER_TX_ENABLE IER_RX_ENABLE)].

(** The transmit buffer and its two counters, and how often a register was read. *)
Record uart := Uart { tx_buf : list Z; tx_w : Z; tx_r : Z; reads : nat }.

Definition read_again (s : uart) : uart := Uart (tx_buf s) (tx_w s) (tx_r s) (S (reads s)).

Inductive put_end := PutDone | PutSleep | PutHang.

Section Uart.
Variable lsr rhr : nat -> Z.

Definition tx_idle (k : nat) : bool := negb (Z.land (lsr k) LSR_TX_IDLE =? 0).

(** ** Output *)

(** The loop of [uartstart], at most one round per byte in the buffer: the bytes written to
    [THR]; [wakeup] is called before each of them. *)
Fixpoint uartstart_loop (fuel : nat) (s : uart) : uart * list Z :=
  match fuel with
  | O => (s, [])
  | S fuel =>
      if tx_w s =? tx_r s then (s, [])
      else if negb (tx_idle (reads s)) then (read_again s, [])
      else
        let c := rget UART_TX_BUF_SIZE (tx_buf s) (tx_r s) in
        let '(s, out) := uartstart_loop fuel (Uart (tx_buf s) (tx_w s) (u64 (tx_r s + 1)) (S (reads s))) in (s, c :: out)
  end.

Definition uartstart (s : uart) : uart * list Z := uartstart_loop (S (Z.to_nat (u64 (tx_w s - tx_r s)))) s.

(** [uartputc(c)], until it sleeps or returns: the bytes written to [THR] and the end. *)
Definition uartputc (panicked : bool) (c : Z) (s : uart) : uart * list Z * put_end :=
  if panicked then (s, [], PutHang)
  else if tx_w s =? u64 (tx_r s + UART_TX_BUF_SIZE) then (s, [], PutSleep)
  else
    let '(s, out) := uartstart (Uart (rput UART_TX_BUF_SIZE (tx_buf s) (tx_w s) (u8 c)) (u64 (tx_w s + 1)) (tx_r s) (reads s)) in
    (s, out, PutDone).

(** [uartputc_sync(c)]: the byte written to [THR], when the device is idle at one of the next
    [fuel] times it is asked and the kernel has not panicked. *)
Fixpoint uartputc_sync (fuel : nat) (panicked : bool) (c : Z) (s : uart) : option (uart * list Z) :=
  match fuel with
  | O => None
  | S fuel =>
      if panicked then None
      else if tx_idle (reads s) then Some (read_again s, [u8 c])
      else uartputc_sync fuel panicked c (read_again s)
  end.

(** [consputc] of every character of [cs]. *)
Fixpoint sync_all (fuel : nat) (panicked : bool) (cs : list Z) (s : uart) : option (uart * list Z) :=
  match cs with
  | [] => Some (s, [])
  | c :: cs =>
      '(s, out) ← uartputc_sync fuel panicked c s;
      '(s, out') ← sync_all fuel panicked cs s;
      mret (s, out ++ out')
  end.

(** [consolewrite]: the bytes from index [i] on, [None] where the copy from the user fails;
    it ends with a result, or asleep in front of byte [i]. *)
Fixpoint consolewrite (panicked : bool) (src : list (option Z)) (i : Z) (s : uart) : uart * list Z * (Z + Z * put_end) :=
  match src with
  | [] => (s, [], inl i)
  | None :: _ => (s, [], inl i)
  | Some c :: src =>
      match uartputc panicked c s with
      | (s, out, PutDone) => let '(s, out', e) := consolewrite panicked src (i + 1) s in (s, out ++ out', e)
      | (s, out, e) => (s, out, inr (i, e))
      end
  end.

(** ** Input *)

Definition uartgetc (s : uart) : uart * Z :=
  if negb (Z.land (lsr (reads s)) 1 =? 0) then (read_again (read_again s), u8 (rhr (S (reads s)))) else (read_again s, -1).

(** The input loop of [uartintr], for at most [fuel] characters: the echo and whether a
    reader of the console is woken up. *)
Fixpoint uartintr_loop (fuel : nat) (panicked : bool) (s : uart) (t : cons) : option (uart * cons * list Z * bool) :=
  match fuel with
  | O => None
  | S fuel' =>
      let '(s, c) := uartgetc s in
      if c =? -1 then Some (s, t, [], false)
      else
        let '(t, echo, w) := consoleintr c t in
        '(s, out) ← sync_all fuel panicked echo s;
        '(s, t, out', w') ← uartintr_loop fuel' panicked s t;
        mret (s, t, out ++ out', w || w')
  end.

Definition uartintr (fuel : nat) (panicked : bool) (s : uart) (t : cons) : option (uart * cons * list Z * bool) :=
  '(s, t, out, w) ← uartintr_loop fuel panicked s t;
  let '(s, out') := uartstart s in
  mret (s, t, out ++ out', w).

(** ** A queue in front of the device *)

(** Send from the queue while the device is idle; [k] counts how often it was asked. *)
Fixpoint drain (q : list Z) (k : nat) : list Z * list Z * nat :=
  match q with
  | [] => ([], [], k)
  | c :: q' => if tx_idle k then let '(q, out, k) := drain q' (S k) in (q, c :: out, k) else (q, [], S k)
  end.

Fixpoint write_queue (panicked : bool) (src : list (option Z)) (i : Z) (q : list Z) (k : nat) : list Z * list Z * nat * (Z + Z * put_end) :=
  match src with
  | Some c :: src =>
      if panicked then (q, [], k, inr (i, PutHang))
      else if (length q =? 32)%nat then (q, [], k, inr (i, PutSleep))
      else
        let '(q, out, k) := drain (q ++ [u8 c]) k in
        let '(q, out', k, e) := write_queue panicked src (i + 1) q k in (q, out ++ out', k, e)
  | _ => (q, [], k, inl i)
  end.

(** ** Runs of writers and of transmit interrupts, in any order *)

Inductive uop := UWrite (panicked : bool) (src : list (option Z)) (i : Z) | UReady.

Fixpoint uart_run (os : list uop) (s : uart) : list (list Z * (Z + Z * put_end)) :=
  match os with
  | [] => []
  | UWrite p src i :: os => let '(s, out, e) := consolewrite p src i s in (out, e) :: uart_run os s
  | UReady :: os => let '(s, out) := uartstart s in (out, inl 0) :: uart_run os s
  end.

Fixpoint queue_run (os : list uop) (q : list Z) (k : nat) : list (list Z * (Z + Z * put_end)) :=
  match os with
  | [] => []
  | UWrite p src i :: os => let '(q, out, k, e) := write_queue p src i q k in (out, e) :: queue_run os q k
  | UReady :: os => let '(q, out, k) := drain q k in (out, inl 0) :: queue_run os q k
  end.

(** [n] bytes are in the buffer. *)
Definition uart_ok (s : uart) (n : Z) : Prop :=
  Z.of_nat (length (tx_buf s)) = UART_TX_BUF_SIZE /\ 0 <= n <= UART_TX_BUF_SIZE /\ 0 <= tx_r s < 2 ^ 64 /\ tx_w s = u64 (tx_r s + n).

Definition pending (s : uart) (n : Z) : list Z := rqueue UART_TX_BUF_SIZE (tx_buf s) (tx_r s) n.

Lemma tx_size_pos : 0 < UART_TX_BUF_SIZE.
Proof. done. Qed.

Lemma tx_size_divides : (UART_TX_BUF_SIZE | 2 ^ 64).
Proof. by exists (2 ^ 59). Qed.

Lemma counters_differ r n : 0 <= r < 2 ^ 64 -> 0 <= n <= UART_TX_BUF_SIZE -> (u64 (r + n) =? r) = (n =? 0).
Proof.
  intros Hr Hn. unfold UART_TX_BUF_SIZE in Hn. unfold u64. apply Bool.eq_iff_eq_true. rewrite !Z.eqb_eq.
  split; [|intros ->; rewrite Z.add_0_r; by apply Z.mod_small].
  intros E. pose proof (Z.div_mod (r + n) (2 ^ 64) ltac:(lia)). lia.
Qed.

Lemma start_loop_drains fuel s n :
  uart_ok s n -> n < Z.of_nat fuel ->
  exists s' n', uartstart_loop fuel s = (s', snd (fst (drain (pending s n) (reads s)))) /\ uart_ok s' n' /\
    pending s' n' = fst (fst (drain (pending s n) (reads s))) /\ reads s' = snd (drain (pending s n) (reads s)).
Proof.
  revert s n. induction fuel as [|fuel IH]; intros s n (Hl & Hn & Hr & Hw) Hf; [lia|]. cbn [uartstart_loop].
  rewrite Hw, counters_differ by done. destruct (Z.eqb_spec n 0) as [->|Hn0].
  { exists s, 0. unfold pending. rewrite rqueue_nil. cbn [drain fst snd]. repeat split; try done; lia. }
  unfold pending. rewrite (rqueue_pop _ (tx_buf s) (tx_r s) n) by lia. cbn [drain]. destruct (tx_idle (reads s)); cbn [negb].
  2: { exists (read_again s), n. cbn [fst snd]. split; [done|]. split; [done|]. split; [|done]. unfold pending. cbn. by rewrite (rqueue_pop _ _ _ n) by lia. }
  destruct (IH (Uart (tx_buf s) (tx_w s) (u64 (tx_r s + 1)) (S (reads s))) (n - 1)) as (s' & n' & E & Hok & Hp & Hk).
  - repeat split; cbn [tx_buf tx_w tx_r reads]; try done; try lia; try apply u64_range. rewrite Hw. unfold u64. rewrite Zplus_mod_idemp_l. f_equal. lia.
  - lia.
  - exists s', n'. rewrite <- Hw, E. revert E Hp Hk. unfold pending. cbn [tx_buf tx_r reads]. unfold u64.
    rewrite !rqueue_wrap by (lia || apply tx_size_divides). destruct (drain _ _) as [[q out] k]. cbn [fst snd]. intros E Hp Hk. by subst.
Qed.

Lemma start_drains s n :
  uart_ok s n -> exists s' n', uartstart s = (s', snd (fst (drain (pending s n) (reads s)))) /\ uart_ok s' n' /\
    pending s' n' = fst (fst (drain (pending s n) (reads s))) /\ reads s' = snd (drain (pending s n) (reads s)).
Proof.
  intros Hok. apply start_loop_drains; [done|]. destruct Hok as (Hl & Hn & Hr & Hw). rewrite Hw. unfold UART_TX_BUF_SIZE in Hn.
  replace (u64 (u64 (tx_r s + n) - tx_r s)) with n; [lia|]. unfold u64. rewrite Zminus_mod_idemp_l. replace (tx_r s + n - tx_r s) with n by lia.
  symmetry. apply Z.mod_small. lia.
Qed.

Lemma write_sim p src i s n :
  uart_ok s n ->
  exists s' n' out e, consolewrite p src i s = (s', out, e) /\ write_queue p src i (pending s n) (reads s) = (pending s' n', out, reads s', e) /\ uart_ok s' n'.
Proof.
  revert i s n. induction src as [|[c|] src IH]; intros i s n Hok; [by eexists _, _, _, _| |by eexists _, _, _, _].
  cbn [consolewrite write_queue]. unfold uartputc. destruct p; [by eexists _, _, _, _|]. pose proof Hok as (Hl & Hn & Hr & Hw).
  unfold pending at 1. rewrite length_rqueue.
  replace (tx_w s =? u64 (tx_r s + UART_TX_BUF_SIZE)) with (Z.to_nat n =? 32)%nat.
  2: { rewrite Hw. apply Bool.eq_iff_eq_true. rewrite Nat.eqb_eq, Z.eqb_eq. unfold UART_TX_BUF_SIZE in *. split; [intros ?; repeat f_equal; lia|].
       unfold u64. intros E. pose proof (Z.div_mod (tx_r s + n) (2 ^ 64) ltac:(lia)). pose proof (Z.div_mod (tx_r s + 32) (2 ^ 64) ltac:(lia)). lia. }
  destruct (Nat.eqb_spec (Z.to_nat n) 32) as [Hf|Hf]; [by eexists _, _, _, _|].
  assert (Hp : pending s n ++ [u8 c] = pending (Uart (rput UART_TX_BUF_SIZE (tx_buf s) (tx_w s) (u8 c)) (u64 (tx_w s + 1)) (tx_r s) (reads s)) (n + 1)).
  { unfold pending. cbn [tx_buf tx_r]. rewrite Hw. unfold u64. rewrite rput_wrap by (lia || apply tx_size_divides).
    rewrite rqueue_push; [done|apply tx_size_pos|done|unfold UART_TX_BUF_SIZE in *; lia]. }
  rewrite Hp. set (s1 := Uart _ _ _ _) in *.
  assert (Hok1 : uart_ok s1 (n + 1)).
  { subst s1. unfold uart_ok, UART_TX_BUF_SIZE in *. split; [cbn [tx_buf]; by rewrite length_rput|]. split; [lia|]. split; [done|]. cbn [tx_w tx_r].
    rewrite Hw. unfold u64. rewrite Zplus_mod_idemp_l. f_equal. lia. }
  destruct (start_drains s1 (n + 1) Hok1) as (s2 & n2 & E & Hok2 & Hp2 & Hk2). rewrite E. change (reads s1) with (reads s) in *.
  destruct (drain _ _) as [[q out] k]. cbn [fst snd] in *. destruct (IH (i + 1) s2 n2 Hok2) as (s3 & n3 & out' & e & E3 & E3' & Hok3).
  rewrite E3. rewrite <- Hp2, <- Hk2, E3'. by eexists _, _, _, _.
Qed.

(** The buffer at boot. *)
Definition uart0 : uart := Uart (replicate 32 0) 0 0 0.

(** C33: the transmit side of the driver is a queue of at most 32 bytes.  For every device and
    every sequence of writes to the console, of writers that go on after a sleep and of
    interrupts, the bytes that reach the device and the results are those of a queue: nothing
    is lost, doubled or reordered, a writer sleeps only in front of a full queue, and the
    queue is sent while the device is idle. *)
Theorem uart_is_queue os : uart_run os uart0 = queue_run os [] 0.
Proof.
  assert (Hs : uart_ok uart0 0) by (repeat split; vm_compute; congruence).
  change (@nil Z) with (pending uart0 0). change (queue_run os (pending uart0 0) 0) with (queue_run os (pending uart0 0) (reads uart0)).
  revert Hs. generalize uart0 0. induction os as [|[p src i|] os IH]; intros s n Hok; [done| |]; cbn [uart_run queue_run].
  - destruct (write_sim p src i s n Hok) as (s' & n' & out & e & -> & -> & Hok'). f_equal. by apply IH.
  - destruct (start_drains s n Hok) as (s' & n' & -> & Hok' & Hp & Hk). destruct (drain _ _) as [[q out] k]. cbn [fst snd] in *. subst. f_equal. by apply IH.
Qed.
End Uart.
