(* ===== verification/Virtio.v ===== *)
(** * The disk driver, [kernel/virtio_disk.c], [kernel/virtio.h]

    The driver's own book-keeping, and the memory it shares with the device: descriptors,
    the avail ring, the used ring, the request headers and the buffers.  [virtio_disk_rw] is
    cut where it sleeps: [virtio_disk_rw] runs from the top of the first loop, [rw_wait] from
    the test of the second one, each up to the next sleep or the end.  The calls of [wakeup] are
    recorded.  Addresses are what they point to. *)

From S2P Require Import Prelude Block.

Definition NUM : Z := 8.
Definition VRING_DESC_F_NEXT : Z := 1.
Definition VRING_DESC_F_WRITE : Z := 2.
Definition VIRTIO_BLK_T_IN : Z := 0.
Definition VIRTIO_BLK_T_OUT : Z := 1.

(** The objects a descriptor may point to. *)
Inductive daddr := ANull | AOps (i : Z) | AData (b : nat) | AStatus (i : Z).

(** [struct virtq_desc] *)
Record vdesc := VDesc { d_addr : daddr; d_len : Z; d_flags : Z; d_next : Z }.
(** [struct virtio_blk_req] *)
Record blk_req := BlkReq { r_type : Z; r_reserved : Z; r_sector : Z }.

#[export] Instance vdesc_inhabited : Inhabited vdesc := populate (VDesc ANull 0 0 0).
#[export] Instance blk_req_inhabited : Inhabited blk_req := populate (BlkReq 0 0 0).

(** The channels processes sleep on: [&disk.free[0]] and a buffer. *)
Inductive wchan := ChFree | ChBuf (b : nat).
#[export] Instance wchan_eq_dec : EqDecision wchan.
Proof. solve_decision. Defined.

(** [struct disk] with the two rings, and of each [struct buf] its block number, its data and
    its [disk] flag.  [seen] and [taken] belong to the device: how far it has read the avail
    ring, and the requests it works on.  [woken] collects the calls of [wakeup] until the lock
    is released. *)
Record vdisk := VDisk {
  desc : list vdesc;
  free : list bool;
  info_b : list (option nat);
  info_status : list Z;
  ops : list blk_req;
  avail_ring : list Z;
  avail_idx : Z;
  used_ring : list Z;
  used_at : Z;               (** [disk.used->idx] *)
  used_idx : Z;
  b_blockno : nat -> Z;
  b_disk : gset nat;         (** the buffers with [b->disk == 1] *)
  b_data : nat -> list Z;
  seen : Z;
  taken : list Z;
  sectors : Z -> list Z;     (** the disk *)
  woken : list wchan;        (** the arguments of [wakeup], the latest first *)
}.

(** ** Fields *)

Definition set_desc (f : list vdesc -> list vdesc) (s : vdisk) : vdisk :=
  VDisk (f (desc s)) (free s) (info_b s) (info_status s) (ops s) (avail_ring s) (avail_idx s) (used_ring s) (used_at s) (used_idx s) (b_blockno s) (b_disk s) (b_data s) (seen s) (taken s) (sectors s) (woken s).
Definition set_free (f : list bool -> list bool) (s : vdisk) : vdisk :=
  VDisk (desc s) (f (free s)) (info_b s) (info_status s) (ops s) (avail_ring s) (avail_idx s) (used_ring s) (used_at s) (used_idx s) (b_blockno s) (b_disk s) (b_data s) (seen s) (taken s) (sectors s) (woken s).
Definition set_info_b (i : Z) (b : option nat) (s : vdisk) : vdisk :=
  VDisk (desc s) (free s) (<[Z.to_nat i := b]> (info_b s)) (info_status s) (ops s) (avail_ring s) (avail_idx s) (used_ring s) (used_at s) (used_idx s) (b_blockno s) (b_disk s) (b_data s) (seen s) (taken s) (sectors s) (woken s).
Definition set_status (i v : Z) (s : vdisk) : vdisk :=
  VDisk (desc s) (free s) (info_b s) (<[Z.to_nat i := v]> (info_status s)) (ops s) (avail_ring s) (avail_idx s) (used_ring s) (used_at s) (used_idx s) (b_blockno s) (b_disk s) (b_data s) (seen s) (taken s) (sectors s) (woken s).
Definition set_op (i : Z) (r : blk_req) (s : vdisk) : vdisk :=
  VDisk (desc s) (free s) (info_b s) (info_status s) (<[Z.to_nat i := r]> (ops s)) (avail_ring s) (avail_idx s) (used_ring s) (used_at s) (used_idx s) (b_blockno s) (b_disk s) (b_data s) (seen s) (taken s) (sectors s) (woken s).
Definition set_avail (r : list Z) (i : Z) (s : vdisk) : vdisk :=
  VDisk (desc s) (free s) (info_b s) (info_status s) (ops s) r i (used_ring s) (used_at s) (used_idx s) (b_blockno s) (b_disk s) (b_data s) (seen s) (taken s) (sectors s) (woken s).
Definition set_used (r : list Z) (i : Z) (s : vdisk) : vdisk :=
  VDisk (desc s) (free s) (info_b s) (info_status s) (ops s) (avail_ring s) (avail_idx s) r i (used_idx s) (b_blockno s) (b_disk s) (b_data s) (seen s) (taken s) (sectors s) (woken s).
Definition set_used_idx (i : Z) (s : vdisk) : vdisk :=
  VDisk (desc s) (free s) (info_b s) (info_status s) (ops s) (avail_ring s) (avail_idx s) (used_ring s) (used_at s) i (b_blockno s) (b_disk s) (b_data s) (seen s) (taken s) (sectors s) (woken s).
Definition set_b_disk (f : gset nat -> gset nat) (s : vdisk) : vdisk :=
  VDisk (desc s) (free s) (info_b s) (info_status s) (ops s) (avail_ring s) (avail_idx s) (used_ring s) (used_at s) (used_idx s) (b_blockno s) (f (b_disk s)) (b_data s) (seen s) (taken s) (sectors s) (woken s).
Definition set_store (d : nat -> list Z) (m : Z -> list Z) (s : vdisk) : vdisk :=
  VDisk (desc s) (free s) (info_b s) (info_status s) (ops s) (avail_ring s) (avail_idx s) (used_ring s) (used_at s) (used_idx s) (b_blockno s) (b_disk s) d (seen s) (taken s) m (woken s).
Definition set_blockno (n : nat -> Z) (s : vdisk) : vdisk :=
  VDisk (desc s) (free s) (info_b s) (info_status s) (ops s) (avail_ring s) (avail_idx s) (used_ring s) (used_at s) (used_idx s) n (b_disk s) (b_data s) (seen s) (taken s) (sectors s) (woken s).
Definition set_dev (n : Z) (t : list Z) (s : vdisk) : vdisk :=
  VDisk (desc s) (free s) (info_b s) (info_status s) (ops s) (avail_ring s) (avail_idx s) (used_ring s) (used_at s) (used_idx s) (b_blockno s) (b_disk s) (b_data s) n t (sectors s) (woken s).
Definition set_woken (f : list wchan -> list wchan) (s : vdisk) : vdisk :=
  VDisk (desc s) (free s) (info_b s) (info_status s) (ops s) (avail_ring s) (avail_idx s) (used_ring s) (used_at s) (used_idx s) (b_blockno s) (b_disk s) (b_data s) (seen s) (taken s) (sectors s) (f (woken s)).

Definition wakeup (c : wchan) : M vdisk unit := modify (set_woken (cons c)).

Definition desc_at (i : Z) (s : vdisk) : vdesc := desc s !!! Z.to_nat i.
Definition put_desc (i : Z) (d : vdesc) : vdisk -> vdisk := set_desc (<[Z.to_nat i := d]>).

(** ** Descriptors *)

(** The scan of [alloc_desc] from index [i] on. *)
Fixpoint first_free (l : list bool) (i : Z) : Z :=
  match l with [] => -1 | b :: l => if (b : bool) then i else first_free l (i + 1) end.

Definition alloc_desc : M vdisk Z :=
  i ← gets (fun s => first_free (free s) 0);
  if i <? 0 then mret (-1) else modify (set_free (<[Z.to_nat i := false]>));; mret i.

Definition free_desc (i : Z) : M vdisk unit :=
  if NUM <=? i then panic "free_desc 1"
  else
    b ← gets (fun s => free s !!! Z.to_nat i);
    if (b : bool) then panic "free_desc 2"
    else modify (put_desc i (VDesc ANull 0 0 0));; modify (set_free (<[Z.to_nat i := true]>));; wakeup ChFree.

(** A chain has at most [NUM] descriptors: [free_desc] panics on one that is free already. *)
Fixpoint free_chain_loop (fuel : nat) (i : Z) : M vdisk unit :=
  match fuel with
  | O => hang
  | S fuel =>
      d ← gets (desc_at i);
      free_desc i;;
      if negb (Z.land (d_flags d) VRING_DESC_F_NEXT =? 0) then free_chain_loop fuel (d_next d) else mret tt
  end.

Definition free_chain (i : Z) : M vdisk unit := free_chain_loop 9 i.

(** [alloc3_desc(idx)]: the three indices, or [None] for [-1]. *)
Definition alloc3_desc : M vdisk (option (Z * Z * Z)) :=
  i0 ← alloc_desc;
  if i0 <? 0 then mret None
  else
    i1 ← alloc_desc;
    if i1 <? 0 then free_desc i0;; mret None
    else
      i2 ← alloc_desc;
      if i2 <? 0 then free_desc i0;; free_desc i1;; mret None
      else mret (Some (i0, i1, i2)).

(** ** Requests *)

(** [disk.ops], [disk.desc], [disk.info] and [b->disk] for a request, lines 238-269. *)
Definition format (b : nat) (write : bool) (i0 i1 i2 : Z) : M vdisk unit :=
  sector ← gets (fun s => u32 (b_blockno s b * (BSIZE / 512)));
  modify (set_op i0 (BlkReq (if write then VIRTIO_BLK_T_OUT else VIRTIO_BLK_T_IN) 0 sector));;
  modify (put_desc i0 (VDesc (AOps i0) 16 VRING_DESC_F_NEXT i1));;
  modify (put_desc i1 (VDesc (AData b) BSIZE (Z.lor (if write then 0 else VRING_DESC_F_WRITE) VRING_DESC_F_NEXT) i2));;
  modify (set_status i0 0xff);;
  modify (put_desc i2 (VDesc (AStatus i0) 1 VRING_DESC_F_WRITE 0));;
  modify (set_b_disk (fun x => {[ b ]} ∪ x));;
  modify (set_info_b i0 (Some b)).

(** Lines 272-277. *)
Definition notify (i0 : Z) : M vdisk unit :=
  modify (fun s => set_avail (rput NUM (avail_ring s) (avail_idx s) i0) (u16 (avail_idx s + 1)) s).

(** [virtio_disk_rw(b, write)] from the top of its loop: the head of the chain, or [None] when
    it sleeps for free descriptors. *)
Definition rw_submit (b : nat) (write : bool) : M vdisk (option Z) :=
  idx ← alloc3_desc;
  match idx with
  | None => mret None
  | Some (i0, i1, i2) => format b write i0 i1 i2;; notify i0;; mret (Some i0)
  end.

(** Its end, once [b->disk] is clear. *)
Definition rw_finish (i0 : Z) : M vdisk unit := modify (set_info_b i0 None);; free_chain i0.

(** Where the process gives up the lock: asleep on [&disk.free[0]], asleep on its buffer with
    the request at [h] under way, or at the end. *)
Inductive rw_end := SleepFree | SleepBuf (h : Z) | Finished.

(** The second loop, from a test of [b->disk] on. *)
Definition rw_wait (b : nat) (i0 : Z) : M vdisk rw_end :=
  busy ← gets (fun s => bool_decide (b ∈ b_disk s));
  if (busy : bool) then mret (SleepBuf i0) else rw_finish i0;; mret Finished.

(** [virtio_disk_rw(b, write)] from a call of [alloc3_desc] on. *)
Definition virtio_disk_rw (b : nat) (write : bool) : M vdisk rw_end :=
  r ← rw_submit b write;
  match r with
  | None => mret SleepFree
  | Some i0 => rw_wait b i0
  end.

(** ** The interrupt handler *)

(** The loop of [virtio_disk_intr]; the counters are 16 bits wide. *)
Fixpoint intr_loop (fuel : nat) : M vdisk unit :=
  match fuel with
  | O => mret tt
  | S fuel =>
      s ← gets id;
      if used_idx s =? used_at s then mret tt
      else
        let i := rget NUM (used_ring s) (used_idx s) in
        if negb (info_status s !!! Z.to_nat i =? 0) then panic "virtio_disk_intr status"
        else
          match info_b s !!! Z.to_nat i with
          | None => panic "null pointer"
          | Some b => modify (set_b_disk (fun x => x ∖ {[ b ]}));; wakeup (ChBuf b);; modify (set_used_idx (u16 (used_idx s + 1)));; intr_loop fuel
          end
  end.

Definition virtio_disk_intr : M vdisk unit :=
  n ← gets (fun s => Z.to_nat (u16 (used_at s - used_idx s)));
  intr_loop n.
