(* ===== verification/VirtioSpec.v ===== *)
(** * The disk driver and its device

    Processes call [virtio_disk_rw], the device works on requests in the order it likes, and
    interrupts arrive at any time.  The driver is shown to be an atomic disk: every call
    takes effect once, between its start and its return, the driver never panics, and no
    wakeup and no completion is lost. *)

From S2P Require Import Prelude Block Virtio.

(** ** The device, as the virtio specification describes it (sections 2.6 and 5.2) *)

(** The chain with head [h]: header, data and status. *)
Definition chain_of (h : Z) (s : vdisk) : option (blk_req * nat * Z) :=
  let d0 := desc_at h s in
  let d1 := desc_at (d_next d0) s in
  let d2 := desc_at (d_next d1) s in
  match d_addr d0, d_addr d1, d_addr d2 with
  | AOps k, AData b, AStatus i =>
      let r := ops s !!! Z.to_nat k in
      let in_ok := d_flags d1 =? Z.lor VRING_DESC_F_NEXT VRING_DESC_F_WRITE in
      let out_ok := d_flags d1 =? VRING_DESC_F_NEXT in
      if (d_flags d0 =? VRING_DESC_F_NEXT) && (d_flags d2 =? VRING_DESC_F_WRITE) && (d_len d0 =? 16) && (d_len d1 =? BSIZE) && (d_len d2 =? 1) &&
         (((r_type r =? VIRTIO_BLK_T_IN) && in_ok) || ((r_type r =? VIRTIO_BLK_T_OUT) && out_ok))
      then Some (r, b, i) else None
  | _, _, _ => None
  end.

Definition upd {K A} `{EqDecision K} (k : K) (a : A) (f : K -> A) : K -> A := fun j => if decide (j = k) then a else f j.

(** Moving a block between two sectors of the disk and a buffer. *)
Definition transfer (write : bool) (sector : Z) (b : nat) (x : (nat -> list Z) * (Z -> list Z)) : (nat -> list Z) * (Z -> list Z) :=
  let '(d, m) := x in
  if write then (d, upd sector (take 512 (d b)) (upd (sector + 1) (drop 512 (d b)) m))
  else (upd b (m sector ++ m (sector + 1)) d, m).

(** The device fetches the next request of the avail ring. *)
Definition dev_fetch (s s' : vdisk) : Prop :=
  seen s <> avail_idx s /\ s' = set_dev (u16 (seen s + 1)) (rget NUM (avail_ring s) (seen s) :: taken s) s.

(** It completes one of the requests it has fetched.  What it does with a chain that is not a
    request is not specified. *)
Definition dev_complete (s s' : vdisk) : Prop :=
  exists h l1 l2, taken s = l1 ++ h :: l2 /\
    match chain_of h s with
    | Some (r, b, i) =>
        let '(d, m) := transfer (r_type r =? VIRTIO_BLK_T_OUT) (r_sector r) b (b_data s, sectors s) in
        s' = set_used (rput NUM (used_ring s) (used_at s) h) (u16 (used_at s + 1)) (set_status i 0 (set_store d m (set_dev (seen s) (l1 ++ l2) s)))
    | None => True
    end.

(** ** Processes *)

(** A call of [virtio_disk_rw] on [b]: about to ask for descriptors, asleep for lack of them,
    asleep on [b] with its request at [h], woken up from there, or back. *)
Inductive call :=
| CStart (b : nat) (write : bool) | CSleep (b : nat) (write : bool)
| CWait (b : nat) (write : bool) (h : Z) | CWoken (b : nat) (write : bool) (h : Z) | CDone (b : nat) (write : bool).

Definition call_of (c : call) : nat * bool :=
  match c with CStart b wr | CSleep b wr | CWait b wr _ | CWoken b wr _ | CDone b wr => (b, wr) end.

Definition is_done (c : call) : bool := match c with CDone _ _ => true | _ => false end.

(** The call's request is under way, with its head at [h]. *)
Definition flown (c : call) : option (nat * bool * Z) :=
  match c with CWait b wr h | CWoken b wr h => Some (b, wr, h) | _ => None end.

(** What [wakeup] on the channels [ws] does to a call, and what [kill] does. *)
Definition wake (ws : list wchan) (c : call) : call :=
  match c with
  | CSleep b wr => if decide (ChFree ∈ ws) then CStart b wr else c
  | CWait b wr h => if decide (ChBuf b ∈ ws) then CWoken b wr h else c
  | _ => c
  end.

Definition killed (c : call) : call :=
  match c with CSleep b wr => CStart b wr | CWait b wr h => CWoken b wr h | _ => c end.

(** What a process that can run does next, and where that leaves it. *)
Definition burst (c : call) : option (M vdisk rw_end) :=
  match c with CStart b wr => Some (virtio_disk_rw b wr) | CWoken b wr h => Some (rw_wait b h) | _ => None end.

Definition stand (x : nat * bool) (e : rw_end) : call :=
  match e with SleepFree => CSleep x.1 x.2 | SleepBuf h => CWait x.1 x.2 h | Finished => CDone x.1 x.2 end.

Record world := World { vd : vdisk; calls : gmap nat call }.

(** Somebody is using the buffer [b]. *)
Definition busy (w : world) (b : nat) : Prop := exists t c, calls w !! t = Some c /\ (call_of c).1 = b /\ is_done c = false.

(** What happened, the latest first: calls and returns, changes of a buffer by the holder of
    its lock, and the blocks moved. *)
Inductive event :=
| Called (t b : nat) (write : bool) | Returned (t b : nat) (write : bool) | Changed (b : nat) (no : Z) (d : list Z)
| Moved (t b : nat) (write : bool).

Definition return_of (t : nat) (x : nat * bool) (e : rw_end) : list event :=
  match e with Finished => [Returned t x.1 x.2] | _ => [] end.

Section System.
Variable dev : vdisk -> vdisk -> Prop.

(** The steps, with what others see of them.  The holder of a buffer's lock is the only one
    that changes the buffer or calls [virtio_disk_rw] on it.  A process runs with the lock of
    the driver, so up to its next sleep, and the wakeups of a step reach who is asleep then. *)
Inductive sys_step : list event -> world -> world -> Prop :=
| s_call t b wr w : calls w !! t = None -> ~ busy w b -> sys_step [Called t b wr] w (World (vd w) (<[t := CStart b wr]> (calls w)))
| s_run t c m e s' w : calls w !! t = Some c -> burst c = Some m -> m (vd w) = Done e s' ->
    sys_step (return_of t (call_of c) e) w
      (World (set_woken (fun _ => []) s') (<[t := stand (call_of c) e]> (wake (woken s') <$> calls w)))
| s_intr s' w : virtio_disk_intr (vd w) = Done tt s' -> sys_step [] w (World (set_woken (fun _ => []) s') (wake (woken s') <$> calls w))
| s_dev s' w : dev (vd w) s' -> sys_step [] w (World s' (calls w))
| s_kill t c w : calls w !! t = Some c -> sys_step [] w (World (vd w) (<[t := killed c]> (calls w)))
| s_change b no d w : ~ busy w b -> 0 <= no < 2 ^ 31 ->
    sys_step [Changed b no d] w
      (World (set_blockno (upd b no (b_blockno (vd w))) (set_store (upd b d (b_data (vd w))) (sectors (vd w)) (vd w))) (calls w)).

(** The states reached from [w0], with all that was seen on the way. *)
Inductive sys_run (w0 : world) : list event -> world -> Prop :=
| r_start : sys_run w0 [] w0
| r_step es w e w' : sys_run w0 es w -> sys_step e w w' -> sys_run w0 (e ++ es) w'.

(** The driver panics, or does not return. *)
Definition sys_stuck (w : world) : Prop :=
  (exists t c m, calls w !! t = Some c /\ burst c = Some m /\ forall e s', m (vd w) <> Done e s') \/
  (forall s', virtio_disk_intr (vd w) <> Done tt s').

(** What [virtio_disk_init] leaves: all descriptors free and empty rings. *)
Definition vdisk0 (no : nat -> Z) (d : nat -> list Z) (m : Z -> list Z) : vdisk :=
  VDisk (replicate 8 inhabitant) (replicate 8 true) (replicate 8 None) (replicate 8 0) (replicate 8 inhabitant) (replicate 8 0) 0 (replicate 8 0) 0 0 no ∅ d 0 [] m [].

(** ** An atomic disk *)

(** The block numbers and the data of the buffers, and the disk. *)
Definition store : Type := (nat -> Z) * ((nat -> list Z) * (Z -> list Z)).

Definition apply_event (e : event) (x : store) : store :=
  let '(no, (d, m)) := x in
  match e with
  | Called _ _ _ | Returned _ _ _ => x
  | Moved _ b wr => (no, transfer wr (2 * no b) b (d, m))
  | Changed b n c => (upd b n no, (upd b c d, m))
  end.

Definition replay (es : list event) (x : store) : store := foldr apply_event x es.

Definition moves (es : list event) : list nat := omap (fun e => match e with Moved t _ _ => Some t | _ => None end) es.

(** What others see of a list of events. *)
Definition visible (es : list event) : list event := omap (fun e => match e with Moved _ _ _ => None | _ => Some e end) es.

(** Every call moves its block at most once, after it began; it returns after that. *)
Fixpoint atomic (es : list event) : Prop :=
  match es with
  | [] => True
  | e :: es =>
      atomic es /\
      match e with
      | Moved t b wr => Called t b wr ∈ es /\ t ∉ moves es
      | Returned t b wr => Moved t b wr ∈ es
      | _ => True
      end
  end.
End System.
