(* ===== verification/VirtioInv.v ===== *)
(** * The disk driver's invariant

    [vinv s fl Q T D A] says that the requests [fl] are in flight: each owns three
    descriptors, and its head is in the avail ring ([Q]), with the device ([T]), in the used
    ring ([D]) or acknowledged by the interrupt handler ([A]). *)

From S2P Require Import Prelude Block Virtio VirtioSpec.

(** A request in flight: the caller, its buffer, and its three descriptors. *)
Record flight := Flight { ft : nat; fb : nat; fw : bool; fh : Z; f1 : Z; f2 : Z }.

Definition ixs (f : flight) : list Z := [fh f; f1 f; f2 f].
Definition owned (fl : list flight) : list Z := fl ≫= ixs.
Definition heads (fl : list flight) : list Z := fh <$> fl.

Definition free_of (U : list Z) : list bool := (fun i => bool_decide (i ∉ U)) <$> seqZ 0 8.

(** A ring of eight entries with 16-bit counters holds [q]. *)
Definition ring16 (ring : list Z) (lo hi : Z) (q : list Z) : Prop :=
  Z.of_nat (length ring) = NUM /\ rqueue NUM ring lo (Z.of_nat (length q)) = q /\ hi = u16 (lo + Z.of_nat (length q)) /\ 0 <= lo < 2 ^ 16.

Record flight_ok (s : vdisk) (f : flight) : Prop := {
  fo_head : desc_at (fh f) s = VDesc (AOps (fh f)) 16 VRING_DESC_F_NEXT (f1 f);
  fo_data : desc_at (f1 f) s = VDesc (AData (fb f)) BSIZE (Z.lor (if fw f then 0 else VRING_DESC_F_WRITE) VRING_DESC_F_NEXT) (f2 f);
  fo_stat : desc_at (f2 f) s = VDesc (AStatus (fh f)) 1 VRING_DESC_F_WRITE 0;
  fo_op : ops s !!! Z.to_nat (fh f) = BlkReq (if fw f then VIRTIO_BLK_T_OUT else VIRTIO_BLK_T_IN) 0 (2 * b_blockno s (fb f));
  fo_buf : info_b s !!! Z.to_nat (fh f) = Some (fb f);
}.

Record vinv (s : vdisk) (fl : list flight) (Q T D A : list Z) : Prop := {
  vi_len : length (desc s) = 8%nat /\ length (info_b s) = 8%nat /\ length (info_status s) = 8%nat /\ length (ops s) = 8%nat;
  vi_free : free s = free_of (owned fl);
  vi_range : Forall (fun i => 0 <= i < 8) (owned fl);
  vi_nodup : NoDup (owned fl);
  vi_bufs : NoDup (fb <$> fl);
  vi_ok : Forall (flight_ok s) fl;
  vi_perm : Q ++ T ++ D ++ A ≡ₚ heads fl;
  vi_avail : ring16 (avail_ring s) (seen s) (avail_idx s) Q;
  vi_taken : taken s = T;
  vi_used : ring16 (used_ring s) (used_idx s) (used_at s) D;
  vi_status : forall h, h ∈ D -> info_status s !!! Z.to_nat h = 0;
  vi_disk : forall b, b ∈ b_disk s <-> exists f, f ∈ fl /\ fb f = b /\ fh f ∉ A;
  vi_no : forall b, 0 <= b_blockno s b < 2 ^ 31;
}.

(** ** Rings *)

Lemma NUM_divides : (NUM | 2 ^ 16).
Proof. by exists (2 ^ 13). Qed.

Lemma ring16_push ring lo hi q x : ring16 ring lo hi q -> Z.of_nat (length q) < NUM -> ring16 (rput NUM ring hi x) lo (u16 (hi + 1)) (q ++ [x]).
Proof.
  intros (Hl & Hq & -> & Hlo) Hn. unfold ring16, u16. rewrite rput_wrap by (lia || apply NUM_divides). rewrite length_app, Nat2Z.inj_add. cbn [length].
  repeat split; [by rewrite length_rput|rewrite rqueue_push; [by f_equal|done|done|lia]|rewrite Zplus_mod_idemp_l; f_equal; lia|lia..].
Qed.

Lemma ring16_pop ring lo hi x q : ring16 ring lo hi (x :: q) -> rget NUM ring lo = x /\ ring16 ring (u16 (lo + 1)) hi q.
Proof.
  intros (Hl & Hq & -> & Hlo). cbn [length] in *. rewrite rqueue_pop in Hq by lia. injection Hq as Hx Hq. split; [done|]. split; [done|].
  unfold u16. rewrite rqueue_wrap by (lia || apply NUM_divides). split; [replace (Z.of_nat (length q)) with (Z.of_nat (S (length q)) - 1) by lia; done|].
  split; [rewrite Zplus_mod_idemp_l; f_equal; lia|]. apply Z.mod_pos_bound. lia.
Qed.

Lemma ring16_empty ring lo hi q : ring16 ring lo hi q -> (length q <= 8)%nat -> lo = hi <-> q = [].
Proof.
  intros (_ & _ & -> & Hlo) Hq. unfold u16. split; [|intros ->; cbn; rewrite Z.add_0_r; symmetry; by apply Z.mod_small].
  intros E. pose proof (Z.div_mod (lo + Z.of_nat (length q)) (2 ^ 16) ltac:(lia)). apply nil_length_inv. lia.
Qed.

(** ** Descriptors *)

Lemma free_of_ext U U' : (forall i, i ∈ U <-> i ∈ U') -> free_of U = free_of U'.
Proof. intros H. unfold free_of. apply list_fmap_ext. intros k i _. apply bool_decide_ext. by rewrite H. Qed.

Lemma free_of_lookup U i : 0 <= i < 8 -> free_of U !! Z.to_nat i = Some (bool_decide (i ∉ U)).
Proof. intros Hi. unfold free_of. rewrite list_lookup_fmap, lookup_seqZ_lt by lia. cbn. by rewrite Z2Nat.id by lia. Qed.

Lemma length_free_of U : length (free_of U) = 8%nat.
Proof. done. Qed.

Lemma free_of_insert U i (v : bool) U' :
  0 <= i < 8 -> (i ∈ U' <-> v = false) -> (forall j, j <> i -> (j ∈ U' <-> j ∈ U)) -> <[Z.to_nat i := v]> (free_of U) = free_of U'.
Proof.
  intros Hi Hv Hj. apply list_eq. intros k. destruct (decide (k < 8)%nat) as [Hk|Hk].
  2: { rewrite !lookup_ge_None_2; [done|rewrite length_free_of; lia|rewrite length_insert, length_free_of; lia]. }
  replace k with (Z.to_nat (Z.of_nat k)) by lia. destruct (decide (Z.of_nat k = i)) as [<-|Hki].
  - rewrite list_lookup_insert_eq by (rewrite length_free_of; lia). rewrite free_of_lookup by lia. f_equal. destruct v; symmetry.
    + apply bool_decide_eq_true. intros H. apply Hv in H. done.
    + apply bool_decide_eq_false. tauto.
  - rewrite list_lookup_insert_ne, !free_of_lookup by lia. f_equal. apply bool_decide_ext. by rewrite Hj.
Qed.

Lemma first_free_spec l k :
  0 <= k -> (first_free l k = -1 /\ Forall (fun b => b = false) l) \/ exists i, first_free l k = k + Z.of_nat i /\ l !! i = Some true.
Proof.
  revert k. induction l as [|[] l IH]; intros k Hk; [by left; split; [|constructor]|right; exists 0%nat; split; [cbn; lia|done]|].
  cbn [first_free]. destruct (IH (k + 1) ltac:(lia)) as [[E Hl]|(i & E & Hi)]; [left; by split; [|constructor]|]. right. exists (S i). split; [lia|done].
Qed.

Lemma none_free U : Forall (fun b => b = false) (free_of U) -> (8 <= length U)%nat.
Proof.
  intros Hall. assert (Hs : seqZ 0 8 ⊆ U).
  { intros i Hi%elem_of_seqZ. pose proof (free_of_lookup U i ltac:(lia)) as Hl. pose proof (Forall_lookup_1 _ _ _ _ Hall Hl) as E.
    apply bool_decide_eq_false in E. by destruct (decide (i ∈ U)). }
  exact (submseteq_length _ _ (NoDup_submseteq _ _ (NoDup_seqZ 0 8) Hs)).
Qed.

Lemma alloc_desc_ok s U :
  free s = free_of U ->
  (alloc_desc s = Done (-1) s /\ (8 <= length U)%nat) \/ exists i, 0 <= i < 8 /\ (i ∉ U) /\ alloc_desc s = Done i (set_free (fun _ => free_of (i :: U)) s).
Proof.
  intros Hf. unfold alloc_desc. rewrite bind_gets. destruct (first_free_spec (free s) 0 ltac:(lia)) as [[E Hall]|(i & E & Hi)]; [left; rewrite E; split; [done|rewrite Hf in Hall; by apply none_free]|].
  right. exists (Z.of_nat i). rewrite E. pose proof (lookup_lt_Some _ _ _ Hi) as Hl. rewrite Hf, length_free_of in Hl.
  assert (HU : Z.of_nat i ∉ U).
  { rewrite Hf in Hi. replace i with (Z.to_nat (Z.of_nat i)) in Hi at 1 by lia. rewrite free_of_lookup in Hi by lia. simplify_eq. by apply bool_decide_eq_true in Hi. }
  split; [lia|]. split; [done|]. rewrite Z.add_0_l. destruct (Z.ltb_spec (Z.of_nat i) 0); [lia|]. rewrite bind_modify. f_equal.
  unfold set_free. f_equal. rewrite Hf. apply free_of_insert; [lia|set_solver|set_solver].
Qed.

Lemma free_desc_ok s i U :
  0 <= i < 8 -> i ∉ U -> free s = free_of (i :: U) -> free_desc i s = Done tt (set_woken (cons ChFree) (set_free (fun _ => free_of U) (put_desc i (VDesc ANull 0 0 0) s))).
Proof.
  intros Hi HU Hf. unfold free_desc, NUM. destruct (Z.leb_spec 8 i); [lia|]. rewrite bind_gets, Hf.
  rewrite (list_lookup_total_correct _ _ _ (free_of_lookup (i :: U) i Hi)), bool_decide_eq_false_2 by set_solver.
  rewrite !bind_modify. unfold wakeup, modify. f_equal. unfold set_woken, set_free, put_desc, set_desc. cbn. f_equal. rewrite Hf. apply free_of_insert; set_solver.
Qed.

(** Descriptors outside [U] may differ. *)
Definition same_on (U : list Z) (ds ds' : list vdesc) : Prop :=
  length ds' = length ds /\ forall i, 0 <= i -> i ∈ U -> ds' !!! Z.to_nat i = ds !!! Z.to_nat i.

Lemma same_on_insert U ds i d : 0 <= i -> i ∉ U -> same_on U ds (<[Z.to_nat i := d]> ds).
Proof. intros Hi HU. split; [apply length_insert|]. intros j Hj Hin. rewrite list_lookup_total_insert_ne; [done|]. intros E. apply HU. replace i with j by lia. done. Qed.

Lemma same_on_trans U a b c : same_on U a b -> same_on U b c -> same_on U a c.
Proof. intros [L1 H1] [L2 H2]. split; [congruence|]. intros i Hi HU. by rewrite H2, H1. Qed.

Lemma set_free_id s : set_free (fun _ => free s) s = s.
Proof. by destruct s. Qed.

(** Too few descriptors: those found are put back, and wake up the others that wait for some. *)
Lemma alloc3_ok s U :
  NoDup U -> free s = free_of U ->
  (exists ds ws, alloc3_desc s = Done None (set_woken (fun _ => ws) (set_desc (fun _ => ds) s)) /\ same_on U (desc s) ds /\ (6 <= length U)%nat) \/
  (exists i0 i1 i2, Forall (fun i => 0 <= i < 8) [i0; i1; i2] /\ NoDup ([i0; i1; i2] ++ U) /\
     alloc3_desc s = Done (Some (i0, i1, i2)) (set_free (fun _ => free_of ([i0; i1; i2] ++ U)) s)).
Proof.
  intros HU Hf. unfold alloc3_desc. destruct (alloc_desc_ok s U Hf) as [[E Hl]|(i0 & R0 & Hi0 & E)]; mstep E.
  { left. exists (desc s), (woken s). split; [by destruct s|]. split; [done|lia]. }
  destruct (Z.ltb_spec i0 0); [lia|]. set (s0 := set_free _ s).
  destruct (alloc_desc_ok s0 (i0 :: U) eq_refl) as [[E1 Hl]|(i1 & R1 & Hi1 & E1)]; mstep E1.
  { left. exists (<[Z.to_nat i0 := VDesc ANull 0 0 0]> (desc s)), (ChFree :: woken s). cbn [Z.ltb Z.compare]. mstep (free_desc_ok s0 i0 U R0 Hi0 eq_refl).
    split; [|split; [by apply same_on_insert|cbn in Hl; lia]]. subst s0. destruct s; cbn in *. by subst. }
  destruct (Z.ltb_spec i1 0); [lia|]. set (s1 := set_free _ s0).
  destruct (alloc_desc_ok s1 (i1 :: i0 :: U) eq_refl) as [[E2 Hl]|(i2 & R2 & Hi2 & E2)]; mstep E2.
  { left. cbn [Z.ltb Z.compare].
    assert (Hf1 : free s1 = free_of (i0 :: i1 :: U)) by (subst s1; apply free_of_ext; set_solver).
    mstep (free_desc_ok s1 i0 (i1 :: U) R0 ltac:(set_solver) Hf1). set (s2 := set_woken _ (set_free _ (put_desc _ _ s1))).
    mstep (free_desc_ok s2 i1 U R1 ltac:(set_solver) eq_refl).
    exists (<[Z.to_nat i1 := VDesc ANull 0 0 0]> (<[Z.to_nat i0 := VDesc ANull 0 0 0]> (desc s))), (ChFree :: ChFree :: woken s). split.
    - subst s2 s1 s0. destruct s; cbn in *. by subst.
    - split; [eapply same_on_trans; apply same_on_insert; (lia || set_solver)|cbn in Hl; lia]. }
  right. destruct (Z.ltb_spec i2 0); [lia|]. exists i0, i1, i2. split; [rewrite !list.Forall_cons; auto using Forall_nil|].
  split; [cbn; rewrite !list.NoDup_cons; set_solver|].
  replace (free_of ([i0; i1; i2] ++ U)) with (free_of (i2 :: i1 :: i0 :: U)) by (apply free_of_ext; set_solver). subst s1 s0. by destruct s.
Qed.

(** ** Frames *)

Lemma flight_ok_frame s s' f :
  (forall i, i ∈ ixs f -> desc_at i s' = desc_at i s) -> ops s' !!! Z.to_nat (fh f) = ops s !!! Z.to_nat (fh f) ->
  b_blockno s' (fb f) = b_blockno s (fb f) -> info_b s' !!! Z.to_nat (fh f) = info_b s !!! Z.to_nat (fh f) -> flight_ok s f -> flight_ok s' f.
Proof. intros Hd Ho Hn Hb []. split; rewrite ?Hd, ?Ho, ?Hn, ?Hb by set_solver; done. Qed.

Lemma elem_of_owned fl i : i ∈ owned fl <-> exists f, f ∈ fl /\ i ∈ ixs f.
Proof.
  unfold owned. rewrite list_elem_of_bind. naive_solver.
Qed.

Lemma head_owned fl f : f ∈ fl -> fh f ∈ owned fl.
Proof. intros Hf. apply elem_of_owned. exists f. split; [done|]. cbn. set_solver. Qed.

Lemma owned_range s fl Q T D A f i : vinv s fl Q T D A -> f ∈ fl -> i ∈ ixs f -> 0 <= i < 8.
Proof. intros Hv Hf Hi. pose proof (vi_range _ _ _ _ _ _ Hv) as Hr. rewrite list.Forall_forall in Hr. apply Hr, elem_of_owned. eauto. Qed.

Lemma length_owned fl : length (owned fl) = (3 * length fl)%nat.
Proof. unfold owned. induction fl as [|f fl IH]; [done|]. rewrite bind_cons, length_app, IH. cbn. lia. Qed.

(** Three descriptors each, of eight. *)
Lemma flights_two s fl Q T D A : vinv s fl Q T D A -> (length fl <= 2)%nat.
Proof.
  intros Hv. pose proof (length_owned fl) as Hl.
  assert (Hs : owned fl ⊆ seqZ 0 8).
  { intros i Hi. pose proof (vi_range _ _ _ _ _ _ Hv) as Hr. rewrite list.Forall_forall in Hr. apply elem_of_seqZ. specialize (Hr i Hi). lia. }
  pose proof (submseteq_length _ _ (NoDup_submseteq _ _ (vi_nodup _ _ _ _ _ _ Hv) Hs)) as Hle. rewrite Hl, length_seqZ in Hle. lia.
Qed.

Lemma queues_two s fl Q T D A : vinv s fl Q T D A -> (length Q + length T + length D + length A <= 2)%nat.
Proof.
  intros Hv. pose proof (flights_two _ _ _ _ _ _ Hv). pose proof (Permutation_length (vi_perm _ _ _ _ _ _ Hv)) as Hp.
  unfold heads in Hp. rewrite !length_app, length_fmap in Hp. lia.
Qed.

(** Wakeups change nothing in the driver. *)
Lemma vinv_woken s fl Q T D A g : vinv s fl Q T D A -> vinv (set_woken g s) fl Q T D A.
Proof.
  intros Hv. pose proof Hv as []. split; try done. eapply list.Forall_impl; [exact vi_ok0|]. intros f. by apply flight_ok_frame.
Qed.

Lemma vinv_sleep s fl Q T D A ds : vinv s fl Q T D A -> same_on (owned fl) (desc s) ds -> vinv (set_desc (fun _ => ds) s) fl Q T D A.
Proof.
  intros Hv [Hl Hs]. pose proof Hv as []. split; try done.
  - cbn. by rewrite Hl.
  - rewrite list.Forall_forall in vi_ok0 |- *. intros f Hf. apply (flight_ok_frame s); try done; [|by apply vi_ok0].
    intros i Hi. pose proof (owned_range _ _ _ _ _ _ _ _ Hv Hf Hi). apply Hs; [lia|]. apply elem_of_owned. eauto.
Qed.

(** ** Submitting *)

(** The state after lines 238-277. *)
Definition submitted (b : nat) (wr : bool) (i0 i1 i2 : Z) (s : vdisk) : vdisk :=
  let s := set_op i0 (BlkReq (if wr then VIRTIO_BLK_T_OUT else VIRTIO_BLK_T_IN) 0 (u32 (b_blockno s b * (BSIZE / 512)))) s in
  let s := put_desc i0 (VDesc (AOps i0) 16 VRING_DESC_F_NEXT i1) s in
  let s := put_desc i1 (VDesc (AData b) BSIZE (Z.lor (if wr then 0 else VRING_DESC_F_WRITE) VRING_DESC_F_NEXT) i2) s in
  let s := put_desc i2 (VDesc (AStatus i0) 1 VRING_DESC_F_WRITE 0) (set_status i0 0xff s) in
  let s := set_info_b i0 (Some b) (set_b_disk (fun x => {[ b ]} ∪ x) s) in
  set_avail (rput NUM (avail_ring s) (avail_idx s) i0) (u16 (avail_idx s + 1)) s.

Lemma submit_done b wr i0 i1 i2 s : (format b wr i0 i1 i2;; notify i0;; mret (Some i0)) s = Done (Some i0) (submitted b wr i0 i1 i2 s).
Proof. reflexivity. Qed.

Lemma desc_at_put i j d s : 0 <= i < Z.of_nat (length (desc s)) -> 0 <= j -> desc_at j (put_desc i d s) = if decide (j = i) then d else desc_at j s.
Proof.
  intros Hi Hj. unfold desc_at, put_desc, set_desc. cbn. case_decide as E; [subst; apply list_lookup_total_insert_eq; lia|].
  apply list_lookup_total_insert_ne. lia.
Qed.

Lemma submitted_desc b wr i0 i1 i2 s j :
  length (desc s) = 8%nat -> Forall (fun i => 0 <= i < 8) [i0; i1; i2] -> 0 <= j ->
  desc_at j (submitted b wr i0 i1 i2 s) =
    if decide (j = i2) then VDesc (AStatus i0) 1 VRING_DESC_F_WRITE 0
    else if decide (j = i1) then VDesc (AData b) BSIZE (Z.lor (if wr then 0 else VRING_DESC_F_WRITE) VRING_DESC_F_NEXT) i2
    else if decide (j = i0) then VDesc (AOps i0) 16 VRING_DESC_F_NEXT i1 else desc_at j s.
Proof.
  intros Hl Hr Hj. rewrite !list.Forall_cons in Hr. destruct Hr as (H0 & H1 & H2 & _).
  change (desc_at j (submitted b wr i0 i1 i2 s)) with
    (desc_at j (put_desc i2 (VDesc (AStatus i0) 1 VRING_DESC_F_WRITE 0)
      (put_desc i1 (VDesc (AData b) BSIZE (Z.lor (if wr then 0 else VRING_DESC_F_WRITE) VRING_DESC_F_NEXT) i2)
        (put_desc i0 (VDesc (AOps i0) 16 VRING_DESC_F_NEXT i1) s)))).
  rewrite !desc_at_put; try done; unfold put_desc, set_desc; cbn; rewrite ?length_insert; lia.
Qed.

Lemma submit_flights s fl t b wr i0 i1 i2 :
  Forall (flight_ok s) fl -> Forall (fun i => 0 <= i < 8) ([i0; i1; i2] ++ owned fl) -> NoDup ([i0; i1; i2] ++ owned fl) ->
  length (desc s) = 8%nat -> length (info_b s) = 8%nat -> length (ops s) = 8%nat -> (forall b, 0 <= b_blockno s b < 2 ^ 31) ->
  Forall (flight_ok (submitted b wr i0 i1 i2 s)) (Flight t b wr i0 i1 i2 :: fl).
Proof.
  intros Hok Hr Hn Hd Hb Ho Hno. pose proof (proj1 (proj1 (Forall_app _ _ _) Hr)) as Hr3.
  pose proof Hr3 as Hr3'. rewrite !list.Forall_cons in Hr3'. destruct Hr3' as (H0 & H1 & H2 & _).
  rewrite list.Forall_forall in Hr. rewrite list.Forall_forall in Hok. cbn in Hn. rewrite !list.NoDup_cons in Hn. destruct Hn as (N0 & N1 & N2 & _).
  assert (Hne : forall i, i ∈ owned fl -> i <> i0 /\ i <> i1 /\ i <> i2) by (clear -N0 N1 N2; set_solver).
  assert (Hro : forall i, i ∈ owned fl -> 0 <= i < 8) by (intros i Hi; apply Hr, elem_of_app; by right).
  apply list.Forall_cons. split.
  - assert (i0 <> i1 /\ i0 <> i2 /\ i1 <> i2) as (? & ? & ?) by (clear -N0 N1; set_solver). split; cbn [ft fb fw fh f1 f2].
    1-3: rewrite submitted_desc by (done || lia); repeat case_decide; congruence.
    + change (<[Z.to_nat i0 := BlkReq (if wr then VIRTIO_BLK_T_OUT else VIRTIO_BLK_T_IN) 0 (u32 (b_blockno s b * (BSIZE / 512)))]> (ops s) !!! Z.to_nat i0 =
        BlkReq (if wr then VIRTIO_BLK_T_OUT else VIRTIO_BLK_T_IN) 0 (2 * b_blockno s b)).
      rewrite list_lookup_total_insert_eq by lia. change (BSIZE / 512) with 2. specialize (Hno b). rewrite u32_small by lia. f_equal. lia.
    + apply list_lookup_total_insert_eq. cbn; lia.
  - apply list.Forall_forall. intros f Hf. assert (Hin : forall i, i ∈ ixs f -> i ∈ owned fl) by (intros; apply elem_of_owned; eauto).
    assert (Hh : fh f ∈ owned fl) by (by apply head_owned). pose proof (Hro _ Hh). pose proof (Hne _ Hh).
    apply (flight_ok_frame s); [|apply list_lookup_total_insert_ne; lia|done|apply list_lookup_total_insert_ne; lia|by apply Hok].
    intros i Hi. specialize (Hin i Hi). pose proof (Hro i Hin). pose proof (Hne i Hin).
    rewrite submitted_desc by (done || lia). by rewrite !decide_False by tauto.
Qed.

Lemma submit_ok s fl Q T D A t b wr :
  vinv s fl Q T D A -> b ∉ fb <$> fl ->
  (exists s', rw_submit b wr s = Done None s' /\ vinv s' fl Q T D A /\ (b_blockno s', (b_data s', sectors s')) = (b_blockno s, (b_data s, sectors s)) /\
     length fl = 2%nat /\ b_disk s' = b_disk s) \/
  (exists i0 i1 i2 s', rw_submit b wr s = Done (Some i0) s' /\ b_disk s' = {[ b ]} ∪ b_disk s /\ vinv s' (Flight t b wr i0 i1 i2 :: fl) (Q ++ [i0]) T D A /\ (i0 ∉ heads fl) /\
     (b_blockno s', (b_data s', sectors s')) = (b_blockno s, (b_data s, sectors s))).
Proof.
  intros Hv Hb. pose proof Hv as [(L1 & L2 & L3 & L4)]. unfold rw_submit.
  destruct (alloc3_ok s (owned fl) vi_nodup0 vi_free0) as [(ds & ws & E & Hs & Hl)|(i0 & i1 & i2 & Hr & Hn & E)]; mstep E.
  { left. eexists. split; [reflexivity|]. split; [by apply vinv_woken, vinv_sleep|]. split; [done|]. pose proof (flights_two _ _ _ _ _ _ Hv).
    rewrite length_owned in Hl. split; [lia|done]. }
  right. exists i0, i1, i2. eexists. rewrite submit_done. split; [reflexivity|]. split; [done|].
  assert (Hh0 : i0 ∉ heads fl).
  { intros (f & -> & Hf)%list_elem_of_fmap. cbn in Hn. rewrite list.NoDup_cons in Hn. apply Hn. rewrite !elem_of_cons. do 2 right. by apply head_owned. }
  split; [|done]. set (s1 := set_free _ s). pose proof (queues_two _ _ _ _ _ _ Hv) as H2.
  assert (Hr' : Forall (fun i => 0 <= i < 8) ([i0; i1; i2] ++ owned fl)) by (by apply Forall_app).
  split.
  - cbn. rewrite !length_insert. done.
  - done.
  - done.
  - done.
  - cbn. by apply list.NoDup_cons.
  - apply submit_flights; try done. eapply list.Forall_impl; [exact vi_ok0|]. intros f. by apply flight_ok_frame.
  - cbn. rewrite <- vi_perm0, <- app_assoc. symmetry. apply (Permutation_middle Q).
  - apply (ring16_push _ _ _ _ i0 vi_avail0). unfold NUM. lia.
  - done.
  - done.
  - intros h Hh. cbn. specialize (vi_status0 h Hh). rewrite list_lookup_total_insert_ne; [done|]. intros E'.
    assert (Hhf : h ∈ heads fl) by (rewrite <- vi_perm0; set_solver). apply Hh0. pose proof Hhf as (f & -> & Hf)%list_elem_of_fmap.
    pose proof (owned_range _ _ _ _ _ _ f (fh f) Hv Hf ltac:(set_solver)). rewrite !list.Forall_cons in Hr. replace i0 with (fh f) by lia. done.
  - intros b'. cbn. rewrite elem_of_union, elem_of_singleton, vi_disk0. setoid_rewrite elem_of_cons.
    assert (HA : i0 ∉ A) by (intros HA; apply Hh0; rewrite <- vi_perm0; set_solver). split.
    + intros [->|(f & Hf & <- & HfA)]; [exists (Flight t b wr i0 i1 i2)|exists f]; auto.
    + intros (f & [->|Hf] & <- & HfA); [by left|right; eauto].
  - done.
Qed.

(** ** The device *)

Definition store_of (s : vdisk) : store := (b_blockno s, (b_data s, sectors s)).

Lemma nodup_fmap_inj {A B} (g : A -> B) l x y : NoDup (g <$> l) -> x ∈ l -> y ∈ l -> g x = g y -> x = y.
Proof.
  intros Hn. induction l as [|z l IH]; [by intros ?%elem_of_nil|]. rewrite fmap_cons, list.NoDup_cons in Hn. destruct Hn as [Hz Hn].
  rewrite !elem_of_cons. intros [->|Hx] [->|Hy] E; [done| | |by apply IH]; exfalso; apply Hz; [rewrite E|rewrite <- E]; by apply list_elem_of_fmap_2.
Qed.

Lemma heads_nodup fl : NoDup (owned fl) -> NoDup (heads fl).
Proof.
  unfold owned, heads. induction fl as [|f fl IH]; [done|]. rewrite bind_cons, fmap_cons. intros (H1 & H2 & H3)%list.NoDup_app. apply list.NoDup_cons. split; [|by apply IH].
  intros (f' & E & Hf')%list_elem_of_fmap. apply (H2 (fh f)); [set_solver|]. rewrite E. by apply head_owned.
Qed.

Lemma head_flight s fl Q T D A h : vinv s fl Q T D A -> h ∈ Q ++ T ++ D ++ A -> exists f, f ∈ fl /\ fh f = h.
Proof. intros Hv Hh. rewrite (vi_perm _ _ _ _ _ _ Hv) in Hh. apply list_elem_of_fmap in Hh as (f & -> & Hf). eauto. Qed.

Lemma fetch_ok s fl Q T D A s' :
  vinv s fl Q T D A -> dev_fetch s s' -> exists h Q', Q = h :: Q' /\ vinv s' fl Q' (h :: T) D A /\ store_of s' = store_of s.
Proof.
  intros Hv [Hne ->]. pose proof (queues_two _ _ _ _ _ _ Hv) as H2. pose proof Hv as []. destruct Q as [|h Q].
  { destruct Hne. apply (ring16_empty _ _ _ _ vi_avail0); [cbn; lia|done]. }
  exists h, Q. split; [done|]. split; [|done]. destruct (ring16_pop _ _ _ _ _ vi_avail0) as [Eh Hr]. split; try done.
  - eapply list.Forall_impl; [exact vi_ok0|]. intros f. by apply flight_ok_frame.
  - rewrite <- vi_perm0. symmetry. cbn. apply (Permutation_middle Q).
  - cbn. by rewrite Eh, vi_taken0.
Qed.

Lemma flight_chain s f :
  flight_ok s f -> chain_of (fh f) s = Some (BlkReq (if fw f then VIRTIO_BLK_T_OUT else VIRTIO_BLK_T_IN) 0 (2 * b_blockno s (fb f)), fb f, fh f).
Proof. intros []. unfold chain_of. rewrite fo_head0. cbn [d_next d_addr d_flags d_len]. rewrite fo_data0. cbn [d_next d_addr d_flags d_len]. rewrite fo_stat0. cbn [d_addr d_flags d_len]. rewrite fo_op0. by destruct (fw f). Qed.

Lemma complete_ok s fl Q T D A s' :
  vinv s fl Q T D A -> dev_complete s s' ->
  exists f T', f ∈ fl /\ T ≡ₚ fh f :: T' /\ vinv s' fl Q T' (D ++ [fh f]) A /\ b_disk s' = b_disk s /\ store_of s' = apply_event (Moved (ft f) (fb f) (fw f)) (store_of s).
Proof.
  intros Hv (h & l1 & l2 & Et & Hm). pose proof (queues_two _ _ _ _ _ _ Hv) as H2. pose proof Hv as [(L1 & L2 & L3 & L4)]. rewrite vi_taken0 in Et.
  destruct (head_flight _ _ _ _ _ _ h Hv) as (f & Hf & <-); [rewrite Et; set_solver|].
  assert (Hfo : flight_ok s f) by (rewrite list.Forall_forall in vi_ok0; by apply vi_ok0). rewrite (flight_chain s f Hfo) in Hm. cbn [r_type r_sector] in Hm.
  assert (Ew : ((if fw f then VIRTIO_BLK_T_OUT else VIRTIO_BLK_T_IN) =? VIRTIO_BLK_T_OUT) = fw f) by (by destruct (fw f)). rewrite Ew in Hm.
  destruct (transfer _ _ _ _) as [d m] eqn:Etr. subst s'. exists f, (l1 ++ l2). split; [done|]. split; [rewrite Et; symmetry; apply Permutation_middle|].
  split; [|split; [done|unfold store_of, apply_event; by rewrite Etr]].
  assert (Hh : 0 <= fh f < 8) by (eapply owned_range; [exact Hv|exact Hf|left]).
  split; try done.
  - cbn. by rewrite length_insert.
  - eapply list.Forall_impl; [exact vi_ok0|]. intros f'. by apply flight_ok_frame.
  - rewrite <- vi_perm0, Et. solve_Permutation.
  - apply ring16_push; [done|unfold NUM; lia].
  - intros h Hh'. cbn. destruct (decide (h = fh f)) as [->|Hne]; [apply list_lookup_total_insert_eq; lia|].
    assert (HhD : h ∈ D) by (rewrite elem_of_app, list_elem_of_singleton in Hh'; tauto).
    destruct (head_flight _ _ _ _ _ _ h Hv) as (f' & Hf' & <-); [set_solver|].
    assert (0 <= fh f' < 8) by (eapply owned_range; [exact Hv|exact Hf'|left]). rewrite list_lookup_total_insert_ne by lia. by apply vi_status0.
Qed.

(** ** The interrupt handler *)

Lemma intr_loop_ok n s fl Q T D A :
  vinv s fl Q T D A -> (length D <= n)%nat -> exists s', intr_loop n s = Done tt s' /\ vinv s' fl Q T [] (rev D ++ A) /\ store_of s' = store_of s /\
    woken s ⊆ woken s' /\ forall b, b ∈ b_disk s -> b ∈ b_disk s' \/ ChBuf b ∈ woken s'.
Proof.
  revert s D A. induction n as [|n IH]; intros s D A Hv Hn.
  { destruct D; [|cbn in Hn; lia]. exists s. split_and!; auto. }
  pose proof (queues_two _ _ _ _ _ _ Hv) as H2. pose proof Hv as [(L1 & L2 & L3 & L4)]. cbn [intr_loop]. rewrite bind_gets. unfold id.
  destruct (Z.eqb_spec (used_idx s) (used_at s)) as [E|E].
  { apply (ring16_empty _ _ _ _ vi_used0) in E; [|lia]. subst D. exists s. split_and!; auto. }
  destruct D as [|h D]. { destruct E. apply (ring16_empty _ _ _ _ vi_used0); [cbn; lia|done]. }
  destruct (ring16_pop _ _ _ _ _ vi_used0) as [-> Hr]. rewrite vi_status0 by left. cbn [negb Z.eqb].
  destruct (head_flight _ _ _ _ _ _ h Hv) as (f & Hf & <-); [set_solver|].
  assert (Hfo : flight_ok s f) by (rewrite list.Forall_forall in vi_ok0; by apply vi_ok0). rewrite (fo_buf _ _ Hfo). unfold wakeup. rewrite !bind_modify.
  set (s1 := set_used_idx _ _).
  assert (Hv1 : vinv s1 fl Q T D (fh f :: A)).
  { subst s1. split; try done.
    - eapply list.Forall_impl; [exact vi_ok0|]. intros f'. by apply flight_ok_frame.
    - rewrite <- vi_perm0. cbn. do 2 apply Permutation_app_head. symmetry. apply Permutation_middle.
    - intros h Hh. apply vi_status0. by right.
    - intros b. cbn. rewrite elem_of_difference, elem_of_singleton, vi_disk0. split.
      + intros [(f' & Hf' & <- & HA) Hne]. exists f'. split; [done|]. split; [done|]. rewrite elem_of_cons. intros [E'|?]; [|done]. apply Hne. f_equal.
        apply (nodup_fmap_inj fh fl); try done. by apply heads_nodup.
      + intros (f' & Hf' & <- & HA). rewrite elem_of_cons in HA. split; [exists f'; tauto|]. intros E'. apply HA. left. f_equal. by apply (nodup_fmap_inj fb fl). }
  destruct (IH s1 D (fh f :: A) Hv1) as (s' & E1 & Hv' & Hst & Hsub & Hwk); [cbn in Hn; lia|]. exists s'. split; [exact E1|]. split; [cbn; by rewrite <- app_assoc|].
  split; [by rewrite Hst|]. split; [intros c Hc; apply Hsub; by right|]. intros b Hb. destruct (decide (b = fb f)) as [->|Hne]; [right; apply Hsub; by left|].
  apply Hwk. subst s1. cbn. set_solver.
Qed.

Lemma intr_ok s fl Q T D A :
  vinv s fl Q T D A -> exists s', virtio_disk_intr s = Done tt s' /\ vinv s' fl Q T [] (rev D ++ A) /\ store_of s' = store_of s /\
    forall b, b ∈ b_disk s -> b ∈ b_disk s' \/ ChBuf b ∈ woken s'.
Proof.
  intros Hv. unfold virtio_disk_intr. rewrite bind_gets.
  destruct (intr_loop_ok (Z.to_nat (u16 (used_at s - used_idx s))) s fl Q T D A Hv) as (s' & E & Hv' & Hst & _ & Hwk); [|by exists s']. pose proof (queues_two _ _ _ _ _ _ Hv) as H2.
  destruct (vi_used _ _ _ _ _ _ Hv) as (_ & _ & -> & Hlo). unfold u16. rewrite Zminus_mod_idemp_l.
  replace (used_idx s + Z.of_nat (length D) - used_idx s) with (Z.of_nat (length D)) by lia. rewrite Z.mod_small by lia. lia.
Qed.

(** ** Finishing *)

Definition no_desc : vdesc := VDesc ANull 0 0 0.

Lemma free_chain_ok s f U :
  (exists s0, flight_ok s0 f /\ desc s = desc s0) -> length (desc s) = 8%nat -> Forall (fun i => 0 <= i < 8) (ixs f) -> NoDup (ixs f ++ U) -> free s = free_of (ixs f ++ U) ->
  exists ds, free_chain (fh f) s = Done tt (set_woken (fun ws => ChFree :: ChFree :: ChFree :: ws) (set_desc (fun _ => ds) (set_free (fun _ => free_of U) s))) /\ same_on U (desc s) ds.
Proof.
  intros (s0 & [Hh Hd Hs _ _] & E0) Hl Hr Hn Hf. unfold desc_at in Hh, Hd, Hs. rewrite <- E0 in Hh, Hd, Hs.
  change (desc s !!! Z.to_nat ?i) with (desc_at i s) in Hh, Hd, Hs. unfold ixs in Hr. rewrite !list.Forall_cons in Hr. destruct Hr as (R0 & R1 & R2 & _).
  cbn in Hn. rewrite !list.NoDup_cons in Hn. destruct Hn as (N0 & N1 & N2 & _).
  assert (Hne : fh f <> f1 f /\ fh f <> f2 f /\ f1 f <> f2 f) by (clear -N0 N1; set_solver). destruct Hne as (E1 & E2 & E3).
  unfold free_chain. cbn [free_chain_loop]. rewrite bind_gets, Hh. mstep (free_desc_ok s (fh f) ([f1 f; f2 f] ++ U) R0 N0 Hf). cbn [d_flags d_next].
  change (negb (Z.land VRING_DESC_F_NEXT VRING_DESC_F_NEXT =? 0)) with true. cbv iota. set (s1 := set_woken _ _).
  assert (Hd1 : desc_at (f1 f) s1 = desc_at (f1 f) s) by (change (desc_at (f1 f) (put_desc (fh f) no_desc s) = desc_at (f1 f) s); rewrite desc_at_put, decide_False by lia; done).
  assert (Hd2 : desc_at (f2 f) s1 = desc_at (f2 f) s) by (change (desc_at (f2 f) (put_desc (fh f) no_desc s) = desc_at (f2 f) s); rewrite desc_at_put, decide_False by lia; done).
  rewrite bind_gets, Hd1, Hd. mstep (free_desc_ok s1 (f1 f) ([f2 f] ++ U) R1 N1 eq_refl). cbn [d_flags d_next].
  replace (negb (Z.land (Z.lor (if fw f then 0 else VRING_DESC_F_WRITE) VRING_DESC_F_NEXT) VRING_DESC_F_NEXT =? 0)) with true by (by destruct (fw f)).
  cbv iota. set (s2 := set_woken _ (set_free _ (put_desc _ _ s1))).
  assert (Hd3 : desc_at (f2 f) s2 = desc_at (f2 f) s1).
  { change (desc_at (f2 f) (put_desc (f1 f) no_desc s1) = desc_at (f2 f) s1). rewrite desc_at_put, decide_False; [done|lia| |lia]. subst s1. cbn. rewrite length_insert. lia. }
  rewrite bind_gets, Hd3, Hd2, Hs. mstep (free_desc_ok s2 (f2 f) U R2 N2 eq_refl). cbn [d_flags].
  change (negb (Z.land VRING_DESC_F_WRITE VRING_DESC_F_NEXT =? 0)) with false. cbv iota.
  exists (<[Z.to_nat (f2 f) := no_desc]> (<[Z.to_nat (f1 f) := no_desc]> (<[Z.to_nat (fh f) := no_desc]> (desc s)))). split.
  - subst s2 s1. by destruct s.
  - cbn in N0, N1. rewrite !not_elem_of_cons in N0. rewrite !not_elem_of_cons in N1. do 3 (eapply same_on_trans; [|apply same_on_insert; (lia || tauto)]). done.
Qed.

Lemma owned_split l1 f l2 : owned (l1 ++ f :: l2) ≡ₚ ixs f ++ owned (l1 ++ l2).
Proof. unfold owned. rewrite !bind_app, bind_cons. solve_Permutation. Qed.

Lemma finish_ok s fl Q T D A f :
  vinv s fl Q T D A -> f ∈ fl -> fb f ∉ b_disk s ->
  exists s' fl' A', rw_finish (fh f) s = Done tt s' /\ fl ≡ₚ f :: fl' /\ A ≡ₚ fh f :: A' /\ vinv s' fl' Q T D A' /\ store_of s' = store_of s /\
    ChFree ∈ woken s' /\ b_disk s' = b_disk s.
Proof.
  intros Hv Hf Hb. pose proof Hv as [(L1 & L2 & L3 & L4)].
  assert (HA : fh f ∈ A) by (destruct (decide (fh f ∈ A)); [done|]; destruct Hb; apply vi_disk0; eauto).
  apply list_elem_of_split in HA as (a1 & a2 & ->). pose proof Hf as (l1 & l2 & ->)%list_elem_of_split.
  pose proof (owned_split l1 f l2) as Ho. set (fl' := l1 ++ l2) in *.
  assert (Hn : NoDup (ixs f ++ owned fl')) by (by rewrite <- Ho). assert (Hr : Forall (fun i => 0 <= i < 8) (ixs f ++ owned fl')) by (by rewrite <- Ho).
  apply Forall_app in Hr as [Hr Hr'].
  assert (Hfo : flight_ok s f) by (rewrite list.Forall_forall in vi_ok0; by apply vi_ok0).
  assert (Hh : 0 <= fh f < 8) by (rewrite list.Forall_forall in Hr; apply Hr; left).
  assert (Hok' : Forall (flight_ok s) fl') by (subst fl'; apply Forall_app in vi_ok0 as [? H']; apply list.Forall_cons in H' as [??]; by apply Forall_app).
  set (s1 := set_info_b (fh f) None s).
  assert (Hout : forall i, i ∈ owned fl' -> i <> fh f) by (intros i Hi ->; cbn in Hn; rewrite list.NoDup_cons in Hn; apply Hn; do 2 right; done).
  destruct (free_chain_ok s1 f (owned fl')) as (ds & E & Hs); try done; [by exists s|change (free s = free_of (ixs f ++ owned fl')); rewrite vi_free0; apply free_of_ext; intros i; by rewrite Ho|].
  eexists _, fl', (a1 ++ a2). split; [unfold rw_finish; rewrite bind_modify; exact E|]. split; [subst fl'; solve_Permutation|]. split; [solve_Permutation|]. split; [|split; [done|split; [left|done]]].
  split; try done.
  - cbn. rewrite length_insert. by rewrite (proj1 Hs).
  - by apply list.NoDup_app in Hn as (_ & _ & ?).
  - clear -vi_bufs0. subst fl'. rewrite fmap_app, fmap_cons in vi_bufs0. rewrite fmap_app.
    rewrite <- (Permutation_middle (fb <$> l1) (fb <$> l2)) in vi_bufs0. by apply list.NoDup_cons in vi_bufs0 as [_ ?].
  - apply list.Forall_forall. intros f' Hf'. apply (flight_ok_frame s); try done.
    + intros i Hi. assert (Hi' : i ∈ owned fl') by (apply elem_of_owned; eauto). apply (proj2 Hs); [|done]. rewrite list.Forall_forall in Hr'. specialize (Hr' i Hi'). lia.
    + cbn. apply list_lookup_total_insert_ne. assert (Hi' : fh f' ∈ owned fl') by (by apply head_owned).
      specialize (Hout _ Hi'). rewrite list.Forall_forall in Hr'. specialize (Hr' _ Hi'). lia.
    + rewrite list.Forall_forall in Hok'. by apply Hok'.
  - apply (Permutation_cons_inv (a := fh f)). transitivity (Q ++ T ++ D ++ a1 ++ fh f :: a2); [solve_Permutation|]. rewrite vi_perm0. unfold heads. subst fl'.
    rewrite !fmap_app, fmap_cons. solve_Permutation.
  - intros b. cbn. rewrite vi_disk0. split; intros (f' & Hf' & <- & Hn'); exists f'.
    + split; [|split; [done|set_solver]]. subst fl'. rewrite elem_of_app, elem_of_cons in Hf'. rewrite elem_of_app. destruct Hf' as [?|[->|?]]; [by left| |by right].
      destruct Hn'. set_solver.
    + subst fl'. split; [set_solver|]. split; [done|]. assert (fh f' <> fh f) by (apply Hout; by apply head_owned). set_solver.
Qed.
