(* ===== verification/VirtioProps.v ===== *)
(** * The disk driver is an atomic disk *)

From S2P Require Import Prelude Block Virtio VirtioSpec VirtioInv.

(** A flight and the call it belongs to. *)
Definition flies (f : flight) (t b : nat) (wr : bool) (h : Z) : Prop := ft f = t /\ fb f = b /\ fw f = wr /\ fh f = h.

(** [H] is what was seen of the run so far, and [es] has the moves of blocks besides. *)
Record winv (x0 : store) (H : list event) (w : world) (es : list event) (fl : list flight) (Q T D A : list Z) : Prop := {
  wi_vinv : vinv (vd w) fl Q T D A;
  wi_wait : forall t b wr h, calls w !! t ≫= flown = Some (b, wr, h) <-> exists f, f ∈ fl /\ flies f t b wr h;
  wi_store : store_of (vd w) = replay es x0;
  wi_visible : visible es = H;
  wi_atomic : atomic es;
  wi_moved : forall t b wr, Moved t b wr ∈ es <-> calls w !! t = Some (CDone b wr) \/ exists f, f ∈ fl /\ flies f t b wr (fh f) /\ fh f ∈ D ++ A;
  wi_called : forall t c, calls w !! t = Some c -> Called t (call_of c).1 (call_of c).2 ∈ es;
  wi_one : forall t t' c c', calls w !! t = Some c -> calls w !! t' = Some c' -> is_done c = false -> is_done c' = false ->
    (call_of c).1 = (call_of c').1 -> t = t';
  wi_asleep : forall t b wr h, calls w !! t = Some (CWait b wr h) -> b ∈ b_disk (vd w);
  wi_starved : forall t b wr, calls w !! t = Some (CSleep b wr) -> length fl = 2%nat;
}.

Lemma elem_of_moves es t : t ∈ moves es <-> exists b wr, Moved t b wr ∈ es.
Proof.
  unfold moves. rewrite list_elem_of_omap. split.
  - intros ([| | |t' b wr] & He & E); simplify_eq. eauto.
  - intros (b & wr & He). by exists (Moved t b wr).
Qed.

(** Calls and returns move nothing. *)
Lemma replay_call t b wr es x : replay (Called t b wr :: es) x = replay es x.
Proof. unfold replay. cbn [foldr]. by destruct (foldr _ x es) as [? [? ?]]. Qed.
Lemma replay_return t b wr es x : replay (Returned t b wr :: es) x = replay es x.
Proof. unfold replay. cbn [foldr]. by destruct (foldr _ x es) as [? [? ?]]. Qed.

Lemma flown_call c b wr h : flown c = Some (b, wr, h) -> call_of c = (b, wr) /\ is_done c = false.
Proof. by destruct c; cbn; intros ?; simplify_eq. Qed.

(** Who is in flight keeps the buffer busy. *)
Lemma flight_busy x0 H w es fl Q T D A f :
  winv x0 H w es fl Q T D A -> f ∈ fl -> exists c, calls w !! ft f = Some c /\ flown c = Some (fb f, fw f, fh f) /\ (call_of c).1 = fb f /\ is_done c = false.
Proof.
  intros Hw Hf. assert (E : calls w !! ft f ≫= flown = Some (fb f, fw f, fh f)) by (apply (wi_wait _ _ _ _ _ _ _ _ _ Hw); by exists f).
  apply bind_Some in E as (c & Ec & Efl). exists c. destruct (flown_call _ _ _ _ Efl) as [-> ?]. done.
Qed.

(** ** Calls that are woken up *)

(** The same call, asleep or not. *)
Definition like (c c' : call) : Prop := call_of c = call_of c' /\ is_done c = is_done c' /\ flown c = flown c'.

Definition alike (cs cs' : gmap nat call) : Prop := forall t, option_Forall2 like (cs !! t) (cs' !! t).

Lemma like_refl c : like c c.
Proof. done. Qed.
Lemma wake_like ws c : like c (wake ws c).
Proof. destruct c; cbn; try done; by case_decide. Qed.
Lemma killed_like c : like c (killed c).
Proof. by destruct c. Qed.

Lemma like_done c c' b wr : like c c' -> c = CDone b wr <-> c' = CDone b wr.
Proof. intros (H1 & H2 & _). by destruct c, c'; cbn in *; simplify_eq. Qed.

Lemma alike_wake ws cs : alike cs (wake ws <$> cs).
Proof. intros t. rewrite lookup_fmap. destruct (cs !! t); cbn; constructor. apply wake_like. Qed.

Lemma alike_refl cs : alike cs cs.
Proof. intros t. destruct (cs !! t); by constructor. Qed.

Lemma alike_insert cs cs' t c c' : alike cs cs' -> cs !! t = Some c -> like c c' -> alike cs (<[t := c']> cs').
Proof.
  intros Ha Ht Hl t'. destruct (decide (t' = t)) as [->|Hne]; [|by rewrite lookup_insert_ne]. rewrite lookup_insert_eq, Ht. by constructor.
Qed.

Lemma alike_lookup cs cs' t c' : alike cs cs' -> cs' !! t = Some c' -> exists c, cs !! t = Some c /\ like c c'.
Proof. intros Ha Ht. specialize (Ha t). rewrite Ht in Ha. inversion Ha; subst. eauto. Qed.

Lemma alike_lookup_l cs cs' t c : alike cs cs' -> cs !! t = Some c -> exists c', cs' !! t = Some c' /\ like c c'.
Proof. intros Ha Ht. specialize (Ha t). rewrite Ht in Ha. inversion Ha; subst. eauto. Qed.

(** Nobody falls asleep: those asleep afterwards were so before, and nothing woke them. *)
Lemma wake_sleep ws c b wr : wake ws c = CSleep b wr -> c = CSleep b wr /\ ChFree ∉ ws.
Proof. destruct c; cbn; try done; case_decide; intros ?; by simplify_eq. Qed.
Lemma wake_wait ws c b wr h : wake ws c = CWait b wr h -> c = CWait b wr h /\ ChBuf b ∉ ws.
Proof. destruct c; cbn; try done; case_decide; intros ?; by simplify_eq. Qed.

Lemma wakes_sleep ws (cs : gmap nat call) t b wr : (wake ws <$> cs) !! t = Some (CSleep b wr) -> cs !! t = Some (CSleep b wr) /\ ChFree ∉ ws.
Proof. rewrite lookup_fmap. intros (c & Hc & E)%fmap_Some. symmetry in E. apply wake_sleep in E as [-> ?]. done. Qed.
Lemma wakes_wait ws (cs : gmap nat call) t b wr h : (wake ws <$> cs) !! t = Some (CWait b wr h) -> cs !! t = Some (CWait b wr h) /\ ChBuf b ∉ ws.
Proof. rewrite lookup_fmap. intros (c & Hc & E)%fmap_Some. symmetry in E. apply wake_wait in E as [-> ?]. done. Qed.

(** A step that changes neither what the calls are about nor the store, and moves heads between
    the queues without touching those that are done. *)
Lemma winv_like x0 H w es fl Q T D A s' Q' T' D' A' cs' :
  winv x0 H w es fl Q T D A -> vinv s' fl Q' T' D' A' -> store_of s' = store_of (vd w) -> (forall h, h ∈ D' ++ A' <-> h ∈ D ++ A) ->
  alike (calls w) cs' -> (forall t b wr h, cs' !! t = Some (CWait b wr h) -> b ∈ b_disk s') ->
  (forall t b wr, cs' !! t = Some (CSleep b wr) -> length fl = 2%nat) ->
  winv x0 H (World s' cs') es fl Q' T' D' A'.
Proof.
  intros [] Hv Hst Hd Ha Has Hsl. split; cbn [vd calls]; try done; [|congruence|..].
  - intros t b wr h. rewrite <- wi_wait0. specialize (Ha t). inversion Ha as [c c' Hl E1 E2|E1 E2]; [|done]. cbn. destruct Hl as (_ & _ & ->). done.
  - intros t b wr. rewrite wi_moved0. setoid_rewrite Hd. specialize (Ha t). inversion Ha as [c c' Hl E1 E2|E1 E2]; [|done].
    pose proof (like_done c c' b wr Hl) as Hdn. split; (intros [E|E]; [left; injection E as E; f_equal; tauto|by right]).
  - intros t c' Hc'. destruct (alike_lookup _ _ _ _ Ha Hc') as (c & Hc & <- & _). by apply wi_called0.
  - intros t t' c1 c2 H1 H2 D1 D2 E. destruct (alike_lookup _ _ _ _ Ha H1) as (c1' & Hc1 & E1 & F1 & _), (alike_lookup _ _ _ _ Ha H2) as (c2' & Hc2 & E2 & F2 & _).
    apply (wi_one0 t t' c1' c2'); congruence.
Qed.

Section Run.
Variable dev : vdisk -> vdisk -> Prop.
(** Each step of the device takes a request from the avail ring or completes one. *)
Hypothesis dev_documented : forall s s', dev s s' -> dev_fetch s s' \/ dev_complete s s'.

Lemma winv_submit x0 H w es fl Q T D A t b wr h i1 i2 s' :
  winv x0 H w es fl Q T D A -> calls w !! t = Some (CStart b wr) -> vinv s' (Flight t b wr h i1 i2 :: fl) (Q ++ [h]) T D A -> h ∉ heads fl ->
  store_of s' = store_of (vd w) -> b_disk s' = {[ b ]} ∪ b_disk (vd w) ->
  winv x0 H (World s' (<[t := CWait b wr h]> (calls w))) es (Flight t b wr h i1 i2 :: fl) (Q ++ [h]) T D A.
Proof.
  intros Hw Ht Hv Hh Hst Hbd. pose proof Hw as []. pose proof (flights_two _ _ _ _ _ _ Hv) as H2. cbn in H2.
  assert (Hnt : forall f, f ∈ fl -> ft f <> t).
  { intros f Hf E. destruct (flight_busy _ _ _ _ _ _ _ _ _ f Hw Hf) as (c & Hc & Hfl & _). rewrite E, Ht in Hc. by simplify_eq. }
  split; cbn [vd calls]; try done; [|congruence|..].
  - intros t' b' wr' h'. setoid_rewrite elem_of_cons. unfold flies. destruct (decide (t' = t)) as [->|Hne].
    + rewrite lookup_insert_eq. cbn. split.
      * intros ?. simplify_eq. exists (Flight t b' wr' h' i1 i2). auto.
      * intros (f & [->|Hf] & E & <- & <- & <-); [done|]. by destruct (Hnt f Hf).
    + rewrite lookup_insert_ne, wi_wait0 by done. split; intros (f & Hf & Hfl); exists f; split; try done; [by right|].
      destruct Hf as [->|?]; [|done]. destruct Hfl as (E & _). cbn in E. congruence.
  - intros t' b' wr'. rewrite wi_moved0. setoid_rewrite elem_of_cons. assert (HhDA : h ∉ D ++ A).
    { intros Hin. apply Hh. rewrite <- (vi_perm _ _ _ _ _ _ wi_vinv0). rewrite !elem_of_app in *. tauto. }
    destruct (decide (t' = t)) as [->|Hne]; [rewrite lookup_insert_eq|rewrite lookup_insert_ne by done]; split.
    + intros [?|(f & Hf & (E & _) & _)]; [congruence|by destruct (Hnt f Hf)].
    + intros [?|(f & [->|Hf] & (E & _) & Hin)]; [congruence|by destruct HhDA|by destruct (Hnt f Hf)].
    + intros [?|(f & Hf & Hr)]; [by left|right; exists f; auto].
    + intros [?|(f & [->|Hf] & Hr & Hin)]; [by left|by destruct HhDA|right; exists f; auto].
  - intros t' c [[<- <-]|[_ Hc]]%lookup_insert_Some; [exact (wi_called0 t _ Ht)|by apply wi_called0].
  - assert (Hcs : forall t' c, <[t := CWait b wr h]> (calls w) !! t' = Some c -> exists c0, calls w !! t' = Some c0 /\ is_done c0 = is_done c /\ call_of c0 = call_of c).
    { intros t' c [[<- <-]|[_ Hc]]%lookup_insert_Some; eauto. }
    intros t1 t2 c1 c2 (c1' & H1 & <- & <-)%Hcs (c2' & H2' & <- & <-)%Hcs. by apply wi_one0.
  - intros t' b' wr' h' [[<- E]|[_ Hc]]%lookup_insert_Some; rewrite Hbd; [simplify_eq; set_solver|]. specialize (wi_asleep0 _ _ _ _ Hc). set_solver.
  - intros t' b' wr' [[<- E]|[_ Hc]]%lookup_insert_Some; [done|]. specialize (wi_starved0 _ _ _ Hc). lia.
Qed.

Lemma winv_finish x0 H w es fl fl' Q T D A A' f s' :
  winv x0 H w es fl Q T D A -> f ∈ fl -> fl ≡ₚ f :: fl' -> A ≡ₚ fh f :: A' -> vinv s' fl' Q T D A' -> store_of s' = store_of (vd w) -> b_disk s' = b_disk (vd w) ->
  (forall t b wr, calls w !! t <> Some (CSleep b wr)) ->
  winv x0 (Returned (ft f) (fb f) (fw f) :: H) (World s' (<[ft f := CDone (fb f) (fw f)]> (calls w))) (Returned (ft f) (fb f) (fw f) :: es) fl' Q T D A'.
Proof.
  intros Hw Hf Hfl HA Hv Hst Hbd Hns. pose proof Hw as [].
  destruct (flight_busy _ _ _ _ _ _ _ _ _ f Hw Hf) as (cf & Hcf & Hff & Ebf & Hdf). destruct (flown_call _ _ _ _ Hff) as [Ecf _].
  assert (Hnt : forall f', f' ∈ fl' -> ft f' <> ft f /\ fh f' <> fh f).
  { intros f' Hf'. assert (Hn : NoDup (heads fl)) by (apply heads_nodup; by destruct wi_vinv0). unfold heads in Hn. rewrite Hfl in Hn. cbn in Hn. rewrite list.NoDup_cons in Hn.
    assert (Hne : fh f' <> fh f) by (intros E; apply Hn; rewrite <- E; by apply list_elem_of_fmap_2). split; [|done]. intros E.
    destruct (flight_busy _ _ _ _ _ _ _ _ _ f' Hw) as (c' & Hc' & Hff' & _); [rewrite Hfl; by right|]. rewrite E in Hc'. congruence. }
  assert (Hmv : Moved (ft f) (fb f) (fw f) ∈ es).
  { apply wi_moved0. right. exists f. split; [done|]. split; [done|]. apply elem_of_app. right. rewrite HA. left. }
  split; cbn [vd calls]; try done; [|by rewrite Hst, replay_return|by rewrite <- wi_visible0|..].
  - intros t b wr h. destruct (decide (t = ft f)) as [->|Hne].
    + rewrite lookup_insert_eq. cbn. split; [done|]. intros (f' & Hf' & E & _). destruct (Hnt f' Hf'). congruence.
    + rewrite lookup_insert_ne, wi_wait0 by done. setoid_rewrite Hfl. setoid_rewrite elem_of_cons. split; intros (f' & Hf' & E); exists f'; split; try done; [|by right].
      destruct Hf' as [->|?]; [|done]. destruct E as (E & _). congruence.
  - intros t b wr. rewrite elem_of_cons, wi_moved0. setoid_rewrite Hfl. setoid_rewrite elem_of_cons.
    assert (HDA : forall h, h ∈ D ++ A <-> h ∈ D ++ A' \/ h = fh f) by (intros h; rewrite !elem_of_app, HA, elem_of_cons; tauto). setoid_rewrite HDA.
    destruct (decide (t = ft f)) as [->|Hne]; [rewrite lookup_insert_eq|rewrite lookup_insert_ne by done]; split.
    + intros [?|[E|(f' & [->|Hf'] & (E & <- & <- & _) & Hin)]]; [done|rewrite Hcf in E; by simplify_eq|by left|]. destruct (Hnt f' Hf'). congruence.
    + intros [E|(f' & Hf' & (E & _) & _)]; [|destruct (Hnt f' Hf'); congruence]. simplify_eq. right. right. exists f. split; [by left|]. split; [done|by right].
    + intros [?|[?|(f' & [->|Hf'] & E & Hin)]]; [done|by left|destruct E as (E & _); congruence|]. right. exists f'. destruct (Hnt f' Hf'). destruct Hin; [auto|congruence].
    + intros [?|(f' & Hf' & E & Hin)]; [by right; left|right; right; exists f'; auto].
  - intros t c [[<- <-]|[_ Hc]]%lookup_insert_Some; right; [|by apply wi_called0]. cbn. specialize (wi_called0 _ _ Hcf). by rewrite Ecf in wi_called0.
  - intros t1 t2 c1 c2 [[<- <-]|[_ H1]]%lookup_insert_Some [[<- <-]|[_ H2]]%lookup_insert_Some; try done. by apply wi_one0.
  - intros t b wr h [[_ E]|[_ Hc]]%lookup_insert_Some; [done|]. rewrite Hbd. by apply (wi_asleep0 _ _ _ _ Hc).
  - intros t b wr [[_ E]|[_ Hc]]%lookup_insert_Some; [done|]. by destruct (Hns _ _ _ Hc).
Qed.

Lemma winv_complete x0 H w es fl Q T D A f T' s' :
  winv x0 H w es fl Q T D A -> f ∈ fl -> T ≡ₚ fh f :: T' -> vinv s' fl Q T' (D ++ [fh f]) A -> b_disk s' = b_disk (vd w) ->
  store_of s' = apply_event (Moved (ft f) (fb f) (fw f)) (store_of (vd w)) ->
  winv x0 H (World s' (calls w)) (Moved (ft f) (fb f) (fw f) :: es) fl Q T' (D ++ [fh f]) A.
Proof.
  intros Hw Hf HT Hv Hbd Hst. pose proof Hw as [].
  destruct (flight_busy _ _ _ _ _ _ _ _ _ f Hw Hf) as (cf & Hcf & Hff & Ebf & Hdf). destruct (flown_call _ _ _ _ Hff) as [Ecf _].
  assert (Hn : NoDup (heads fl)) by (apply heads_nodup; by destruct wi_vinv0).
  assert (HD : fh f ∉ D ++ A).
  { rewrite <- (vi_perm _ _ _ _ _ _ wi_vinv0), HT in Hn. apply list.NoDup_app in Hn as (_ & _ & Hn). cbn in Hn. apply list.NoDup_cons in Hn as [Hn _].
    intros Hin. apply Hn. apply elem_of_app. by right. }
  assert (Hinj : forall f', f' ∈ fl -> (ft f' = ft f \/ fh f' = fh f) -> f' = f).
  { intros f' Hf' [E|E]; apply (nodup_fmap_inj fh fl); try done.
    destruct (flight_busy _ _ _ _ _ _ _ _ _ f' Hw Hf') as (c' & Hc' & Hff' & _). rewrite E in Hc'. congruence. }
  split; cbn [vd calls]; try done.
  - by rewrite Hst, wi_store0.
  - cbn. split; [done|]. split; [specialize (wi_called0 _ _ Hcf); by rewrite Ecf in wi_called0|].
    intros (b & wr & [E|(f' & Hf' & (E & _) & Hin)]%wi_moved0)%elem_of_moves; [rewrite Hcf in E; by simplify_eq|].
    apply HD. by rewrite <- (Hinj f' Hf' (or_introl E)).
  - intros t b wr. rewrite elem_of_cons, wi_moved0. split.
    + intros [E|[E|(f' & Hf' & Hfl & Hin)]]; [simplify_eq; right; exists f; unfold flies; set_solver|by left|right; exists f'; set_solver].
    + intros [E|(f' & Hf' & Hfl & Hin)]; [by right; left|]. destruct (decide (fh f' = fh f)) as [E|E].
      * rewrite (Hinj f' Hf' (or_intror E)) in *. left. by destruct Hfl as (<- & <- & <- & _).
      * right. right. exists f'. split; [done|]. split; [done|]. clear -Hin E. set_solver.
  - intros t c Hc. right. by apply wi_called0.
  - by rewrite Hbd.
Qed.

Lemma winv_change x0 H w es fl Q T D A b no d :
  winv x0 H w es fl Q T D A -> ~ busy w b -> 0 <= no < 2 ^ 31 ->
  winv x0 (Changed b no d :: H) (World (set_blockno (upd b no (b_blockno (vd w))) (set_store (upd b d (b_data (vd w))) (sectors (vd w)) (vd w))) (calls w)) (Changed b no d :: es) fl Q T D A.
Proof.
  intros Hw Hb Hno. pose proof Hw as []. split; cbn [vd calls]; try done.
  - pose proof wi_vinv0 as []. split; try done.
    + rewrite list.Forall_forall in vi_ok |- *. intros f Hf. apply (flight_ok_frame (vd w)); try done; [|by apply vi_ok].
      cbn. unfold upd. rewrite decide_False; [done|]. intros E. apply Hb. destruct (flight_busy _ _ _ _ _ _ _ _ _ f Hw Hf) as (c & Hc & _ & Ec & Hdn). exists (ft f), c. by rewrite Ec.
    + intros b'. cbn. unfold upd. by case_decide.
  - cbn [replay foldr]. change (foldr apply_event x0 es) with (replay es x0). by rewrite <- wi_store0.
  - by rewrite <- wi_visible0.
  - intros t b' wr. rewrite elem_of_cons, <- wi_moved0. naive_solver.
  - intros t c Hc. right. by apply wi_called0.
Qed.

Lemma winv_call x0 H w es fl Q T D A t b wr :
  winv x0 H w es fl Q T D A -> calls w !! t = None -> ~ busy w b ->
  winv x0 (Called t b wr :: H) (World (vd w) (<[t := CStart b wr]> (calls w))) (Called t b wr :: es) fl Q T D A.
Proof.
  intros Hw Ht Hb. pose proof Hw as []. split; cbn [vd calls]; try done.
  - intros t' b' wr' h'. destruct (decide (t' = t)) as [->|]; [|by rewrite lookup_insert_ne]. rewrite <- wi_wait0, lookup_insert_eq, Ht. done.
  - by rewrite replay_call.
  - by rewrite <- wi_visible0.
  - intros t' b' wr'. rewrite elem_of_cons. destruct (decide (t' = t)) as [->|]; [|rewrite lookup_insert_ne, wi_moved0 by done; naive_solver].
    rewrite wi_moved0, lookup_insert_eq, Ht. naive_solver.
  - intros t' c [[<- <-]|[_ Hc]]%lookup_insert_Some; [left|right; by apply wi_called0].
  - intros t1 t2 c1 c2 [[<- <-]|[_ H1]]%lookup_insert_Some [[<- <-]|[_ H2]]%lookup_insert_Some D1 D2 E; [done| | |by apply (wi_one0 t1 t2 c1 c2)].
    + destruct Hb. exists t2, c2. by rewrite <- E.
    + destruct Hb. exists t1, c1. by rewrite E.
  - intros t' b' wr' h' [[_ E]|[_ Hc]]%lookup_insert_Some; [done|]. by apply (wi_asleep0 _ _ _ _ Hc).
  - intros t' b' wr' [[_ E]|[_ Hc]]%lookup_insert_Some; [done|]. by apply (wi_starved0 _ _ _ Hc).
Qed.

Definition winv_some (x0 : store) (H : list event) (w : world) : Prop := exists es fl Q T D A, winv x0 H w es fl Q T D A.

(** A call that asks for descriptors. *)
Lemma winv_start x0 H w t b wr :
  winv_some x0 H w -> calls w !! t = Some (CStart b wr) -> exists e s', virtio_disk_rw b wr (vd w) = Done e s' /\
    winv_some x0 (return_of t (b, wr) e ++ H) (World (set_woken (fun _ => []) s') (<[t := stand (b, wr) e]> (wake (woken s') <$> calls w))).
Proof.
  intros (es & fl & Q & T & D & A & Hw) Ht. pose proof Hw as []. unfold virtio_disk_rw.
  assert (Hb : b ∉ fb <$> fl).
  { intros (f & -> & Hf)%list_elem_of_fmap. destruct (flight_busy _ _ _ _ _ _ _ _ _ f Hw Hf) as (c & Hc & Hfl & Ec & Hd).
    rewrite (wi_one0 t (ft f) (CStart (fb f) wr) c) in Ht; try done. rewrite Hc in Ht. by simplify_eq. }
  destruct (submit_ok _ _ _ _ _ _ t b wr wi_vinv0 Hb) as [(s' & E & Hv & Hst & Hl & Hbd)|(i0 & i1 & i2 & s' & E & Hbd & Hv & Hh & Hst)]; mstep E.
  - exists SleepFree, s'. split; [done|]. exists es, fl, Q, T, D, A.
    apply (winv_like _ _ _ _ _ _ _ _ _ _ _ _ _ _ _ Hw); [by apply vinv_woken|done|done|by apply (alike_insert _ _ _ (CStart b wr)); [apply alike_wake|..]| |done].
    cbn. rewrite Hbd. intros t' b' wr' h' [[_ ?]|[_ [Hc _]%wakes_wait]]%lookup_insert_Some; [done|]. by apply (wi_asleep0 _ _ _ _ Hc).
  - unfold rw_wait. rewrite bind_gets, bool_decide_eq_true_2 by (rewrite Hbd; set_solver). exists (SleepBuf i0), s'. split; [done|].
    pose proof (winv_submit _ _ _ _ _ _ _ _ _ t b wr i0 i1 i2 s' Hw Ht Hv Hh Hst Hbd) as Hw'. exists es. eexists _, (Q ++ [i0]), T, D, A.
    apply (winv_like _ _ _ _ _ _ _ _ _ _ _ _ _ _ _ Hw'); [by apply vinv_woken|done|done| | |]; cbn [vd calls return_of stand fst snd].
    + intros t'. destruct (decide (t' = t)) as [->|Hne]; [rewrite !lookup_insert_eq; by constructor|]. rewrite !lookup_insert_ne by done. apply alike_wake.
    + intros t' b' wr' h' [[-> ?]|[Hne [Hc _]%wakes_wait]]%lookup_insert_Some; (eapply (wi_asleep _ _ _ _ _ _ _ _ _ Hw')); cbn [calls]; [simplify_eq; apply lookup_insert_eq|by rewrite lookup_insert_ne].
    + intros t' b' wr' [[-> ?]|[Hne [Hc _]%wakes_sleep]]%lookup_insert_Some; [done|]. eapply (wi_starved _ _ _ _ _ _ _ _ _ Hw' t'). cbn [calls]. by rewrite lookup_insert_ne.
Qed.

(** A call that was woken up. *)
Lemma winv_resume x0 H w t b wr h :
  winv_some x0 H w -> calls w !! t = Some (CWoken b wr h) -> exists e s', rw_wait b h (vd w) = Done e s' /\
    winv_some x0 (return_of t (b, wr) e ++ H) (World (set_woken (fun _ => []) s') (<[t := stand (b, wr) e]> (wake (woken s') <$> calls w))).
Proof.
  intros (es & fl & Q & T & D & A & Hw) Ht. pose proof Hw as []. unfold rw_wait. rewrite bind_gets. destruct (bool_decide_reflect (b ∈ b_disk (vd w))) as [Hin|Hb].
  - exists (SleepBuf h), (vd w). split; [done|]. exists es, fl, Q, T, D, A.
    apply (winv_like _ _ _ _ _ _ _ _ _ _ _ _ _ _ _ Hw); [by apply vinv_woken|done|done|by apply (alike_insert _ _ _ (CWoken b wr h)); [apply alike_wake|..]| |]; cbn.
    + intros t' b' wr' h' [[_ ?]|[_ [Hc _]%wakes_wait]]%lookup_insert_Some; [by simplify_eq|]. by apply (wi_asleep0 _ _ _ _ Hc).
    + intros t' b' wr' [[_ ?]|[_ [Hc _]%wakes_sleep]]%lookup_insert_Some; [done|]. by apply (wi_starved0 _ _ _ Hc).
  - assert (Hfl : calls w !! t ≫= flown = Some (b, wr, h)) by (by rewrite Ht). apply wi_wait0 in Hfl as (f & Hf & <- & <- & <- & <-).
    destruct (finish_ok _ _ _ _ _ _ f wi_vinv0 Hf Hb) as (s' & fl' & A' & E & Hfl & HA & Hv & Hst & Hwk & Hbd). mstep E.
    exists Finished, s'. split; [done|]. exists (Returned (ft f) (fb f) (fw f) :: es), fl', Q, T, D, A'.
    set (w1 := World (vd w) (wake (woken s') <$> calls w)).
    assert (Hw1 : winv x0 H w1 es fl Q T D A).
    { apply (winv_like _ _ _ _ _ _ _ _ _ _ _ _ _ _ _ Hw); [done|done|done|apply alike_wake| |].
      - intros t' b' wr' h' [Hc _]%wakes_wait. by apply (wi_asleep0 _ _ _ _ Hc).
      - intros t' b' wr' [Hc _]%wakes_sleep. by apply (wi_starved0 _ _ _ Hc). }
    apply (winv_finish x0 H w1 es fl fl' Q T D A A' f); try done; [by apply vinv_woken|]. by intros t' b' wr' [_ ?]%wakes_sleep.
Qed.

Lemma winv_run x0 H w t c m :
  winv_some x0 H w -> calls w !! t = Some c -> burst c = Some m -> exists e s', m (vd w) = Done e s' /\
    winv_some x0 (return_of t (call_of c) e ++ H) (World (set_woken (fun _ => []) s') (<[t := stand (call_of c) e]> (wake (woken s') <$> calls w))).
Proof. intros Hw Ht Hm. destruct c; try discriminate Hm; injection Hm as <-; [by apply winv_start|by apply winv_resume]. Qed.

Lemma winv_dev x0 H w s' : winv_some x0 H w -> dev (vd w) s' -> winv_some x0 H (World s' (calls w)).
Proof.
  intros (es & fl & Q & T & D & A & Hw) E. pose proof Hw as []. destruct (dev_documented _ _ E) as [Hf|Hc].
  - destruct (fetch_ok _ _ _ _ _ _ _ wi_vinv0 Hf) as (h & Q' & -> & Hv2 & Hst). exists es, fl, Q', (h :: T), D, A. destruct Hf as [_ ->].
    by apply (winv_like _ _ _ _ _ _ _ _ _ _ _ _ _ _ _ Hw Hv2 Hst); [|apply alike_refl|..].
  - destruct (complete_ok _ _ _ _ _ _ _ wi_vinv0 Hc) as (f & T' & Hf & HT & Hv2 & Hbd & Hst). exists (Moved (ft f) (fb f) (fw f) :: es), fl, Q, T', (D ++ [fh f]), A. by apply (winv_complete _ _ _ _ _ _ T).
Qed.

Lemma winv_intr x0 H w : winv_some x0 H w -> exists s', virtio_disk_intr (vd w) = Done tt s' /\
  winv_some x0 H (World (set_woken (fun _ => []) s') (wake (woken s') <$> calls w)).
Proof.
  intros (es & fl & Q & T & D & A & Hw). pose proof Hw as []. destruct (intr_ok _ _ _ _ _ _ wi_vinv0) as (s' & E & Hv2 & Hst & Hwk). exists s'. split; [done|].
  exists es, fl, Q, T, [], (rev D ++ A). apply (winv_like _ _ _ _ _ _ _ _ _ _ _ _ _ _ _ Hw); [by apply vinv_woken|done| |apply alike_wake| |].
  - intros h. cbn. rewrite !elem_of_app. by rewrite !list_elem_of_In, <- in_rev.
  - cbn. intros t b wr h [Hc Hn]%wakes_wait. by destruct (Hwk b (wi_asleep0 _ _ _ _ Hc)).
  - intros t b wr [Hc _]%wakes_sleep. by apply (wi_starved0 _ _ _ Hc).
Qed.

Lemma winv_step x0 H e w w' : winv_some x0 H w -> sys_step dev e w w' -> winv_some x0 (e ++ H) w'.
Proof.
  intros Hw Hs. destruct Hs as [t b wr w Ht Hb|t c m e s' w Ht Hm E|s' w E|s' w E|t c w Ht|b no d w Hb Hno].
  - destruct Hw as (es & fl & Q & T & D & A & Hw). exists (Called t b wr :: es), fl, Q, T, D, A. by apply winv_call.
  - destruct (winv_run _ _ _ _ _ _ Hw Ht Hm) as (e2 & s2 & E2 & Hw'). rewrite E in E2. by simplify_eq.
  - destruct (winv_intr _ _ _ Hw) as (s2 & E2 & Hw'). rewrite E in E2. by simplify_eq.
  - by apply winv_dev.
  - destruct Hw as (es & fl & Q & T & D & A & Hw). pose proof Hw as []. exists es, fl, Q, T, D, A.
    apply (winv_like _ _ _ _ _ _ _ _ _ _ _ _ _ _ _ Hw); [done|done|done|by apply (alike_insert _ _ _ c); [apply alike_refl|..|apply killed_like]| |].
    + intros t' b wr h [[_ ?]|[_ Hc]]%lookup_insert_Some; [by destruct c|]. by apply (wi_asleep0 _ _ _ _ Hc).
    + intros t' b wr [[_ ?]|[_ Hc]]%lookup_insert_Some; [by destruct c|]. by apply (wi_starved0 _ _ _ Hc).
  - destruct Hw as (es & fl & Q & T & D & A & Hw). exists (Changed b no d :: es), fl, Q, T, D, A. by apply winv_change.
Qed.

Lemma winv_not_stuck x0 H w : winv_some x0 H w -> ~ sys_stuck w.
Proof.
  intros Hw [(t & c & m & Ht & Hm & Hs)|Hs].
  - destruct (winv_run _ _ _ _ _ _ Hw Ht Hm) as (e & s' & E & _). by apply Hs in E.
  - destruct (winv_intr _ _ _ Hw) as (s' & E & _). by apply Hs in E.
Qed.

Lemma winv_init no d m : (forall b, 0 <= no b < 2 ^ 31) -> winv_some (no, (d, m)) [] (World (vdisk0 no d m) ∅).
Proof.
  intros Hno. assert (Hnil : forall (P : flight -> Prop), (exists f, f ∈ [] /\ P f) -> False) by (intros P (f & []%elem_of_nil & _)).
  exists [], [], [], [], [], []. split; try done.
  - split; try done; try by constructor.
    + intros h []%elem_of_nil.
    + intros b. split; [by intros []%elem_of_empty|by intros []%Hnil].
  - intros t b wr h. split; [done|by intros []%Hnil].
  - intros t b wr. split; [intros []%elem_of_nil|]. intros [?|[]%Hnil]. done.
Qed.

Lemma winv_reachable no d m H w : (forall b, 0 <= no b < 2 ^ 31) -> sys_run dev (World (vdisk0 no d m) ∅) H w -> winv_some (no, (d, m)) H w.
Proof.
  intros Hno Hr. apply (winv_init no d m) in Hno. induction Hr as [|H w e w' _ IH Hs]; [done|]. by apply (winv_step _ _ _ w).
Qed.

(** C12: the driver is an atomic disk.  Whatever the order in which processes call
    virtio_disk_rw, the device completes requests and interrupts arrive, the driver does not
    panic.  To the calls, the returns and the changes of buffers that were made, in their order,
    one can add moves of single blocks such that buffers and disk are what one gets by doing
    the changes and the moves one after the other, and each call moves its block at most once,
    after it began, and before it returns. *)
Theorem virtio_atomic_disk no d m H w :
  (forall b, 0 <= no b < 2 ^ 31) -> sys_run dev (World (vdisk0 no d m) ∅) H w ->
  ~ sys_stuck w /\
  exists es, visible es = H /\ atomic es /\ store_of (vd w) = replay es (no, (d, m)).
Proof.
  intros Hno Hr. apply winv_reachable in Hr; [|done]. split; [by apply (winv_not_stuck (no, (d, m)) H)|].
  destruct Hr as (es & fl & Q & T & D & A & []). by exists es.
Qed.

(** Two flights belong to two calls. *)
Lemma two_flights x0 H w es fl Q T D A :
  winv x0 H w es fl Q T D A -> length fl = 2%nat ->
  exists t1 t2 x1 x2, t1 <> t2 /\ calls w !! t1 ≫= flown = Some x1 /\ calls w !! t2 ≫= flown = Some x2.
Proof.
  intros Hw Hl. destruct fl as [|f1 [|f2 [|]]]; try done. exists (ft f1), (ft f2), (fb f1, fw f1, fh f1), (fb f2, fw f2, fh f2).
  destruct (flight_busy _ _ _ _ _ _ _ _ _ f1 Hw) as (c1 & Hc1 & E1 & _); [left|]. destruct (flight_busy _ _ _ _ _ _ _ _ _ f2 Hw) as (c2 & Hc2 & E2 & _); [right; left|].
  rewrite Hc1, Hc2. split; [|done]. intros E. rewrite E, Hc2 in Hc1. injection Hc1 as <-. rewrite E1 in E2. injection E2 as _ _ E2.
  pose proof (heads_nodup _ (vi_nodup _ _ _ _ _ _ (wi_vinv _ _ _ _ _ _ _ _ _ Hw))) as Hn. cbn in Hn. rewrite E2 in Hn. apply list.NoDup_cons in Hn as [Hn _]. apply Hn. left.
Qed.

(** C34: no wakeup and no completion is lost.  When the device has no request left and the
    handler has read the used ring, no call is asleep on its buffer, whatever the order in which
    calls, completions, interrupts and kills came.  A call sleeps for descriptors only
    while the requests of two other calls are under way, and when no request is under way all
    eight descriptors are free and no call is asleep. *)
Theorem virtio_no_lost_completion no d m H w :
  (forall b, 0 <= no b < 2 ^ 31) -> sys_run dev (World (vdisk0 no d m) ∅) H w ->
  (seen (vd w) = avail_idx (vd w) -> taken (vd w) = [] -> used_idx (vd w) = used_at (vd w) ->
     b_disk (vd w) = ∅ /\ forall t b wr h, calls w !! t <> Some (CWait b wr h)) /\
  (forall t b wr, calls w !! t = Some (CSleep b wr) ->
     exists t1 t2 x1 x2, t1 <> t2 /\ calls w !! t1 ≫= flown = Some x1 /\ calls w !! t2 ≫= flown = Some x2) /\
  ((forall t, calls w !! t ≫= flown = None) -> free (vd w) = replicate 8 true /\ forall t b wr, calls w !! t <> Some (CSleep b wr)).
Proof.
  intros Hno Hr. apply winv_reachable in Hr as (es & fl & Q & T & D & A & Hw); [|done]. pose proof Hw as [].
  pose proof (queues_two _ _ _ _ _ _ wi_vinv0) as H2. pose proof wi_vinv0 as []. split; [|split].
  - intros Eq Et Eu. apply (ring16_empty _ _ _ _ vi_avail) in Eq as ->; [|lia]. apply (ring16_empty _ _ _ _ vi_used) in Eu as ->; [|lia]. rewrite Et in vi_taken. subst T.
    assert (Hd : b_disk (vd w) = ∅).
    { apply leibniz_equiv. intros b. rewrite vi_disk. split; [|set_solver]. intros (f & Hf & _ & HA). destruct HA. cbn in vi_perm. rewrite vi_perm. by apply list_elem_of_fmap_2. }
    split; [done|]. intros t b wr h Hc. specialize (wi_asleep0 _ _ _ _ Hc). rewrite Hd in wi_asleep0. set_solver.
  - intros t b wr Hc. apply (two_flights _ _ _ _ _ _ _ _ _ Hw). by apply (wi_starved0 _ _ _ Hc).
  - intros Hn. assert (fl = []) as ->.
    { destruct fl as [|f fl]; [done|]. destruct (flight_busy _ _ _ _ _ _ _ _ _ f Hw) as (c & Hc & Hfl & _); [left|]. specialize (Hn (ft f)). rewrite Hc in Hn. cbn in Hn. congruence. }
    split; [done|]. intros t b wr Hc. by specialize (wi_starved0 _ _ _ Hc).
Qed.
End Run.

(** ** Running the system *)

(** A device that does the latest request first. *)
Definition lifo_device (s s' : vdisk) : Prop := dev_fetch s s' \/ dev_complete s s'.

Inductive act := ACall (t b : nat) (wr : bool) | ARun (t : nat) | AIntr | AFetch | AComplete.

Definition uses (b : nat) (c : nat * call) : bool := (b =? (call_of (snd c)).1)%nat && negb (is_done (snd c)).

(** One step, with what was seen of it. *)
Definition exec1 (a : act) (w : world) : option (list event * world) :=
  let s := vd w in
  match a with
  | ACall t b wr =>
      match calls w !! t with
      | None => if existsb (uses b) (map_to_list (calls w)) then None else Some ([Called t b wr], World s (<[t := CStart b wr]> (calls w)))
      | _ => None
      end
  | ARun t =>
      c ← calls w !! t;
      m ← burst c;
      match m s with
      | Done e s' => Some (return_of t (call_of c) e, World (set_woken (fun _ => []) s') (<[t := stand (call_of c) e]> (wake (woken s') <$> calls w)))
      | _ => None
      end
  | AIntr => match virtio_disk_intr s with Done _ s' => Some ([], World (set_woken (fun _ => []) s') (wake (woken s') <$> calls w)) | _ => None end
  | AFetch =>
      if seen s =? avail_idx s then None
      else Some ([], World (set_dev (u16 (seen s + 1)) (rget NUM (avail_ring s) (seen s) :: taken s) s) (calls w))
  | AComplete =>
      match taken s with
      | h :: l =>
          match chain_of h s with
          | Some (r, b, i) =>
              let '(d, m) := transfer (r_type r =? VIRTIO_BLK_T_OUT) (r_sector r) b (b_data s, sectors s) in
              Some ([], World (set_used (rput NUM (used_ring s) (used_at s) h) (u16 (used_at s + 1)) (set_status i 0 (set_store d m (set_dev (seen s) l s)))) (calls w))
          | None => None
          end
      | [] => None
      end
  end.

Fixpoint exec (l : list act) (es : list event) (w : world) : option (list event * world) :=
  match l with [] => Some (es, w) | a :: l => x ← exec1 a w; exec l (x.1 ++ es) x.2 end.

Lemma not_used w b : existsb (uses b) (map_to_list (calls w)) = false -> ~ busy w b.
Proof.
  intros E (t & c & Hc & <- & Hd). apply elem_of_map_to_list in Hc. apply not_true_iff_false in E. apply E. apply existsb_exists. exists (t, c).
  split; [by apply list_elem_of_In|]. unfold uses. cbn. by rewrite Nat.eqb_refl, Hd.
Qed.

Lemma exec1_sound a w e w' : exec1 a w = Some (e, w') -> sys_step lifo_device e w w'.
Proof.
  destruct a as [t b wr|t| | |]; cbn [exec1].
  - destruct (calls w !! t) eqn:E; [done|]. destruct (existsb _ _) eqn:Ex; [done|]. apply not_used in Ex. intros ?; simplify_eq. by apply s_call.
  - intros (c & Ec & (m & Em & E)%bind_Some)%bind_Some. destruct (m (vd w)) as [r s'| |] eqn:Es; simplify_eq. by eapply s_run.
  - destruct (virtio_disk_intr (vd w)) as [[] s'| |] eqn:Es; intros ?; simplify_eq. by eapply s_intr.
  - destruct (Z.eqb_spec (seen (vd w)) (avail_idx (vd w))); intros ?; simplify_eq. apply s_dev. by left.
  - destruct (taken (vd w)) as [|h l] eqn:Et; [done|]. destruct (chain_of h (vd w)) as [[[r b] i]|] eqn:Ec; [|done]. destruct (transfer _ _ _ _) as [d m] eqn:Etr.
    intros ?; simplify_eq. apply s_dev. right. exists h, [], l. rewrite Et, Ec, Etr. done.
Qed.

Lemma exec_sound l w0 es w es' w' : sys_run lifo_device w0 es w -> exec l es w = Some (es', w') -> sys_run lifo_device w0 es' w'.
Proof.
  revert es w. induction l as [|a l IH]; intros es w Hr; cbn [exec]; [by intros [= <- <-]|]. intros ([e w1] & E1 & E)%bind_Some.
  apply (IH _ _ (r_step _ _ _ _ _ _ Hr (exec1_sound a _ _ _ E1)) E).
Qed.

(** Three calls on a disk of sevens: two requests are under way at once and the third call
    sleeps for descriptors; the device completes the second request first. *)
Definition demo0 : world := World (vdisk0 (fun b => 5 + Z.of_nat b `mod` 8) (fun b => replicate 1024 (Z.of_nat b)) (fun _ => replicate 512 7)) ∅.
Definition demo_full : list act := [ACall 0 0 true; ACall 1 1 false; ACall 2 2 true; ARun 0; ARun 1; ARun 2].
Definition demo_idle : list act := demo_full ++ [AFetch; AFetch; AComplete; AComplete; AIntr].
Definition demo_end : list act := demo_idle ++ [ARun 1; ARun 0; ARun 2; AFetch; AComplete; AIntr; ARun 2].

#[export] Instance call_eq_dec : EqDecision call.
Proof. solve_decision. Defined.
#[export] Instance event_eq_dec : EqDecision event.
Proof. solve_decision. Defined.

Lemma demo_reaches l (f : list event -> world -> bool) :
  (match exec l [] demo0 with Some (H, w) => f H w | None => false end) = true ->
  exists H w, sys_run lifo_device demo0 H w /\ f H w = true.
Proof.
  destruct (exec l [] demo0) as [[H w]|] eqn:E; [|done]. intros Hf. exists H, w. split; [|done]. exact (exec_sound _ _ _ _ _ _ (r_start _ _) E).
Qed.

Lemma demo_blocks b : 0 <= 5 + Z.of_nat b `mod` 8 < 2 ^ 31.
Proof. pose proof (Z.mod_pos_bound (Z.of_nat b) 8 ltac:(lia)). lia. Qed.

Definition end_facts (H : list event) (w : world) : bool :=
  bool_decide (H = [Returned 2 2 true; Returned 0 0 true; Returned 1 1 false; Called 2 2 true; Called 1 1 false; Called 0 0 true]) &&
  bool_decide (b_data (vd w) 1 = replicate 1024 7) && bool_decide (sectors (vd w) 10 = replicate 512 0).

Lemma demo_end_runs : exists H w, sys_run lifo_device demo0 H w /\ end_facts H w = true.
Proof. apply (demo_reaches demo_end). vm_compute. reflexivity. Qed.

Lemma virtio_atomic_disk_witness :
  exists H w, sys_run lifo_device demo0 H w /\ end_facts H w = true /\ ~ sys_stuck w /\
    exists es, visible es = H /\ atomic es /\ store_of (vd w) = replay es ((fun b => 5 + Z.of_nat b `mod` 8), ((fun b => replicate 1024 (Z.of_nat b)), (fun _ => replicate 512 7))).
Proof.
  destruct demo_end_runs as (H & w & Hr & Hf). exists H, w.
  exact (conj Hr (conj Hf (virtio_atomic_disk lifo_device (fun s s' X => X) _ _ _ H w demo_blocks Hr))).
Defined.

(** The third call is asleep; then the device is idle and two calls are woken up; then all have
    returned. *)
Definition full_facts (H : list event) (w : world) : bool := bool_decide (calls w !! 2%nat = Some (CSleep 2 true)).
Definition idle_facts (H : list event) (w : world) : bool :=
  bool_decide (calls w !! 0%nat = Some (CWoken 0 true 0)) && bool_decide (calls w !! 1%nat = Some (CWoken 1 false 3)) &&
  bool_decide (seen (vd w) = avail_idx (vd w)) && bool_decide (taken (vd w) = []) && bool_decide (used_idx (vd w) = used_at (vd w)).
Definition all_done (H : list event) (w : world) : bool := forallb (fun x => is_done x.2) (map_to_list (calls w)).

Lemma demo_full_runs : exists H w, sys_run lifo_device demo0 H w /\ full_facts H w = true.
Proof. apply (demo_reaches demo_full). vm_compute. reflexivity. Qed.
Lemma demo_idle_runs : exists H w, sys_run lifo_device demo0 H w /\ idle_facts H w = true.
Proof. apply (demo_reaches demo_idle). vm_compute. reflexivity. Qed.
Lemma demo_done_runs : exists H w, sys_run lifo_device demo0 H w /\ all_done H w = true.
Proof. apply (demo_reaches demo_end). vm_compute. reflexivity. Qed.

Lemma all_done_flown H w : all_done H w = true -> forall t, calls w !! t ≫= flown = None.
Proof.
  unfold all_done. rewrite forallb_forall. intros Hd t. destruct (calls w !! t) as [c|] eqn:E; [|done]. cbn.
  specialize (Hd (t, c)). rewrite <- list_elem_of_In, elem_of_map_to_list in Hd. specialize (Hd E). by destruct c.
Qed.

Lemma virtio_no_lost_completion_witness :
  (exists H w, idle_facts H w = true /\ b_disk (vd w) = ∅ /\ forall t b wr h, calls w !! t <> Some (CWait b wr h)) /\
  (exists H w, full_facts H w = true /\ exists t1 t2 x1 x2, t1 <> t2 /\ calls w !! t1 ≫= flown = Some x1 /\ calls w !! t2 ≫= flown = Some x2) /\
  (exists H w, all_done H w = true /\ free (vd w) = replicate 8 true).
Proof.
  split; [|split].
  - destruct demo_idle_runs as (H & w & Hr & Hf). exists H, w. split; [exact Hf|].
    unfold idle_facts in Hf. apply andb_true_iff in Hf as [Hf H3]. apply andb_true_iff in Hf as [Hf H2]. apply andb_true_iff in Hf as [_ H1].
    apply bool_decide_eq_true in H1, H2, H3.
    exact (proj1 (virtio_no_lost_completion lifo_device (fun s s' X => X) _ _ _ H w demo_blocks Hr) H1 H2 H3).
  - destruct demo_full_runs as (H & w & Hr & Hf). exists H, w. split; [exact Hf|]. unfold full_facts in Hf. apply bool_decide_eq_true in Hf.
    exact (proj1 (proj2 (virtio_no_lost_completion lifo_device (fun s s' X => X) _ _ _ H w demo_blocks Hr)) _ _ _ Hf).
  - destruct demo_done_runs as (H & w & Hr & Hf). exists H, w. split; [exact Hf|].
    exact (proj1 (proj2 (proj2 (virtio_no_lost_completion lifo_device (fun s s' X => X) _ _ _ H w demo_blocks Hr)) (all_done_flown H w Hf))).
Defined.
