(* ===== verification/VirtioInit.v ===== *)
(** * Setting up the disk, [virtio_disk_init] of [kernel/virtio_disk.c]

    The device's registers are read through [mmio]; every register is read once.  The result
    is the list of register writes, in order. *)

From S2P Require Import Prelude Mem CString Riscv Kalloc Virtio.

Definition VIRTIO_MMIO_MAGIC_VALUE : Z := 0x000.
Definition VIRTIO_MMIO_VERSION : Z := 0x004.
Definition VIRTIO_MMIO_DEVICE_ID : Z := 0x008.
Definition VIRTIO_MMIO_VENDOR_ID : Z := 0x00c.
Definition VIRTIO_MMIO_DEVICE_FEATURES : Z := 0x010.
Definition VIRTIO_MMIO_DRIVER_FEATURES : Z := 0x020.
Definition VIRTIO_MMIO_QUEUE_SEL : Z := 0x030.
Definition VIRTIO_MMIO_QUEUE_NUM_MAX : Z := 0x034.
Definition VIRTIO_MMIO_QUEUE_NUM : Z := 0x038.
Definition VIRTIO_MMIO_QUEUE_READY : Z := 0x044.
Definition VIRTIO_MMIO_STATUS : Z := 0x070.
Definition VIRTIO_MMIO_QUEUE_DESC_LOW : Z := 0x080.
Definition VIRTIO_MMIO_QUEUE_DESC_HIGH : Z := 0x084.
Definition VIRTIO_MMIO_DRIVER_DESC_LOW : Z := 0x090.
Definition VIRTIO_MMIO_DRIVER_DESC_HIGH : Z := 0x094.
Definition VIRTIO_MMIO_DEVICE_DESC_LOW : Z := 0x0a0.
Definition VIRTIO_MMIO_DEVICE_DESC_HIGH : Z := 0x0a4.

Definition VIRTIO_CONFIG_S_ACKNOWLEDGE : Z := 1.
Definition VIRTIO_CONFIG_S_DRIVER : Z := 2.
Definition VIRTIO_CONFIG_S_DRIVER_OK : Z := 4.
Definition VIRTIO_CONFIG_S_FEATURES_OK : Z := 8.

Definition VIRTIO_BLK_F_RO : Z := 5.
Definition VIRTIO_BLK_F_SCSI : Z := 7.
Definition VIRTIO_BLK_F_CONFIG_WCE : Z := 11.
Definition VIRTIO_BLK_F_MQ : Z := 12.
Definition VIRTIO_F_ANY_LAYOUT : Z := 27.
Definition VIRTIO_RING_F_INDIRECT_DESC : Z := 28.
Definition VIRTIO_RING_F_EVENT_IDX : Z := 29.

(** [features & ~(1 << bit)] for the bits of lines 88-94. *)
Definition refused : list Z :=
  [VIRTIO_BLK_F_RO; VIRTIO_BLK_F_SCSI; VIRTIO_BLK_F_CONFIG_WCE; VIRTIO_BLK_F_MQ; VIRTIO_F_ANY_LAYOUT; VIRTIO_RING_F_EVENT_IDX; VIRTIO_RING_F_INDIRECT_DESC].
Definition negotiate (features : Z) : Z := fold_left (fun f bit => Z.land f (Z.lnot (Z.shiftl 1 bit))) refused features.

(** [(uint32)a] and [(uint32)(a >> 32)] *)
Definition low (a : Z) : Z := u32 a.
Definition high (a : Z) : Z := u32 (Z.shiftr a 32).

Section Init.
Context `{KernelImage}.

Definition virtio_disk_init (mmio : Z -> Z) : M kstate (list (Z * Z)) :=
  if negb (mmio VIRTIO_MMIO_MAGIC_VALUE =? 0x74726976) || negb (mmio VIRTIO_MMIO_VERSION =? 2) || negb (mmio VIRTIO_MMIO_DEVICE_ID =? 2) ||
     negb (mmio VIRTIO_MMIO_VENDOR_ID =? 0x554d4551)
  then panic "could not find virtio disk"
  else
    let status := VIRTIO_CONFIG_S_ACKNOWLEDGE in
    let status2 := Z.lor status VIRTIO_CONFIG_S_DRIVER in
    let status3 := Z.lor status2 VIRTIO_CONFIG_S_FEATURES_OK in
    let w1 := [(VIRTIO_MMIO_STATUS, 0); (VIRTIO_MMIO_STATUS, status); (VIRTIO_MMIO_STATUS, status2);
               (VIRTIO_MMIO_DRIVER_FEATURES, u32 (negotiate (mmio VIRTIO_MMIO_DEVICE_FEATURES))); (VIRTIO_MMIO_STATUS, status3)] in
    let status4 := mmio VIRTIO_MMIO_STATUS in
    if Z.land status4 VIRTIO_CONFIG_S_FEATURES_OK =? 0 then panic "virtio disk FEATURES_OK unset"
    else if negb (mmio VIRTIO_MMIO_QUEUE_READY =? 0) then panic "virtio disk should not be ready"
    else
      let max := mmio VIRTIO_MMIO_QUEUE_NUM_MAX in
      if max =? 0 then panic "virtio disk has no queue 0"
      else if max <? NUM then panic "virtio disk max queue too short"
      else
        desc ← kalloc;
        avail ← kalloc;
        used ← kalloc;
        if (desc =? 0) || (avail =? 0) || (used =? 0) then panic "virtio disk kalloc"
        else
          memset_page desc 0;;
          memset_page avail 0;;
          memset_page used 0;;
          mret (w1 ++ [(VIRTIO_MMIO_QUEUE_SEL, 0); (VIRTIO_MMIO_QUEUE_NUM, NUM);
                       (VIRTIO_MMIO_QUEUE_DESC_LOW, low desc); (VIRTIO_MMIO_QUEUE_DESC_HIGH, high desc);
                       (VIRTIO_MMIO_DRIVER_DESC_LOW, low avail); (VIRTIO_MMIO_DRIVER_DESC_HIGH, high avail);
                       (VIRTIO_MMIO_DEVICE_DESC_LOW, low used); (VIRTIO_MMIO_DEVICE_DESC_HIGH, high used);
                       (VIRTIO_MMIO_QUEUE_READY, 1); (VIRTIO_MMIO_STATUS, Z.lor status4 VIRTIO_CONFIG_S_DRIVER_OK)]).
End Init.

(** A disk that qemu offers: it is a block device of version 2, has accepted the features, and
    has an unused queue of at least eight entries. *)
Record disk_there (mmio : Z -> Z) : Prop := {
  dt_magic : mmio VIRTIO_MMIO_MAGIC_VALUE = 0x74726976;
  dt_version : mmio VIRTIO_MMIO_VERSION = 2;
  dt_device : mmio VIRTIO_MMIO_DEVICE_ID = 2;
  dt_vendor : mmio VIRTIO_MMIO_VENDOR_ID = 0x554d4551;
  dt_features : Z.testbit (mmio VIRTIO_MMIO_STATUS) 3 = true;
  dt_ready : mmio VIRTIO_MMIO_QUEUE_READY = 0;
  dt_queue : NUM <= mmio VIRTIO_MMIO_QUEUE_NUM_MAX;
}.

(** The driver never accepts a feature it does not handle. *)
Lemma negotiate_refuses f bit : bit ∈ refused -> Z.testbit (negotiate f) bit = false.
Proof.
  intros Hb. unfold refused in Hb. unfold negotiate, refused. cbn [fold_left].
  repeat (apply elem_of_cons in Hb as [->|Hb]; [rewrite !Z.land_spec, !Z.lnot_spec by (vm_compute; congruence); rewrite !Z.shiftl_spec by (vm_compute; congruence); cbn; by rewrite ?andb_false_r|]).
  by apply elem_of_nil in Hb.
Qed.
