(* ===== verification/Sh.v ===== *)
(** * The shell, [user/sh.c]

    A pointer into the command line is the text from there to the end, so [es] is the empty
    text and positions are lengths.  The parsers run in the kernel's monad with that pointer
    as state: [Panic] is [panic] of the shell, which ends the process.  [runcmd] and [main]
    are given by the system calls they make.  [malloc] is taken to succeed. *)

From S2P Require Import Prelude Sysfile Grep.

Definition str (s : string) : list Z := (fun a => Z.of_nat (Ascii.nat_of_ascii a)) <$> String.list_ascii_of_string s.

Definition MAXARGS : nat := 10.

(** A counted string: a pointer to its start and one past its end. *)
Definition tok : Type := list Z * list Z.

(** [struct cmd] and the structs it is the head of. *)
Inductive cmd {T : Type} :=
| execcmd (argv : list T)
| redircmd (c : cmd) (file : T) (mode fd : Z)
| pipecmd (left right : cmd)
| listcmd (left right : cmd)
| backcmd (c : cmd).
Arguments cmd : clear implicits.

Fixpoint cmd_map {A B} (f : A -> B) (c : cmd A) : cmd B :=
  match c with
  | execcmd argv => execcmd (f <$> argv)
  | redircmd c file mode fd => redircmd (cmd_map f c) (f file) mode fd
  | pipecmd l r => pipecmd (cmd_map f l) (cmd_map f r)
  | listcmd l r => listcmd (cmd_map f l) (cmd_map f r)
  | backcmd c => backcmd (cmd_map f c)
  end.

(** ** Tokens *)

(** [" \t\r\n\v"] *)
Definition whitespace : list Z := [32; 9; 13; 10; 11].
Definition symbols : list Z := str "<|>&;()".

(** [strchr(s, c)] as a condition. *)
Definition has (s : list Z) (c : Z) : bool := match strchr s c with Some _ => true | None => false end.

Abbreviation BAR := 124.
Abbreviation LPAR := 40.
Abbreviation RPAR := 41.
Abbreviation SEMI := 59.
Abbreviation AMP := 38.
Abbreviation LT := 60.
Abbreviation GT := 62.
Abbreviation PLUS := 43.
Abbreviation WORD := 97.

(** [while(s < es && strchr(whitespace, *s)) s++] *)
Fixpoint skip (s : list Z) : list Z :=
  match s with c :: s' => if has whitespace c then skip s' else s | [] => [] end.

(** [while(s < es && !strchr(whitespace, *s) && !strchr(symbols, *s)) s++] *)
Fixpoint skip_word (s : list Z) : list Z :=
  match s with c :: s' => if has whitespace c || has symbols c then s else skip_word s' | [] => [] end.

Definition head_char (s : list Z) : Z := match s with c :: _ => c | [] => 0 end.

(** The switch of [gettoken]: the token's kind and the pointer after it. *)
Definition token (s : list Z) : Z * list Z :=
  let c := head_char s in
  if c =? 0 then (0, s)
  else if (c =? BAR) || (c =? LPAR) || (c =? RPAR) || (c =? SEMI) || (c =? AMP) || (c =? LT) then (c, tail s)
  else if c =? GT then if head_char (tail s) =? GT then (PLUS, tail (tail s)) else (GT, tail s)
  else (WORD, skip_word s).

(** [gettoken(ps, es, &q, &eq)] *)
Definition gettoken : M (list Z) (Z * tok) := fun ps =>
  let s := skip ps in
  let '(ret, e) := token s in
  Done (ret, (s, e)) (skip e).

(** [peek(ps, es, toks)] *)
Definition peek (toks : list Z) : M (list Z) bool := fun ps =>
  let s := skip ps in
  Done (negb (head_char s =? 0) && has toks (head_char s)) s.

(** ** Parsers *)

Definition O_CREATE_TRUNC : Z := Z.lor (Z.lor O_WRONLY O_CREATE) O_TRUNC.

Definition redir : Type := tok * Z * Z.
Definition apply_redir {T} (c : cmd T) (r : T * Z * Z) : cmd T := redircmd c (fst (fst r)) (snd (fst r)) (snd r).

(** The loop of [parseredirs]: the redirections, in order. *)
Fixpoint redirs_loop (fuel : nat) : M (list Z) (list redir) :=
  match fuel with
  | O => hang
  | S fuel =>
      b ← peek (str "<>");
      if (b : bool) then
        t ← gettoken;
        f ← gettoken;
        if negb (fst f =? WORD) then panic "missing file for redirection"
        else
          rs ← redirs_loop fuel;
          mret (if fst t =? LT then (snd f, O_RDONLY, 0) :: rs
                else if fst t =? GT then (snd f, O_CREATE_TRUNC, 1) :: rs
                else if fst t =? PLUS then (snd f, Z.lor O_WRONLY O_CREATE, 1) :: rs else rs)
      else mret []
  end.

Definition redirs : M (list Z) (list redir) := n ← gets (@length Z); redirs_loop (S n).

(** [parseredirs(cmd, ps, es)] *)
Definition parseredirs (c : cmd tok) : M (list Z) (cmd tok) :=
  rs ← redirs;
  mret (foldl apply_redir c rs).

(** The loop of [parseexec]: the arguments after the first [argc] and the redirections among
    them.  [cmd] and [ret] of the code are the command and what the redirections make of it;
    the command is filled in while [ret] points to it. *)
Fixpoint args_loop (fuel argc : nat) : M (list Z) (list tok * list redir) :=
  match fuel with
  | O => hang
  | S fuel =>
      b ← peek (str "|)&;");
      if (b : bool) then mret ([], [])
      else
        t ← gettoken;
        if fst t =? 0 then mret ([], [])
        else if negb (fst t =? WORD) then panic "syntax"
        else if (MAXARGS <=? S argc)%nat then panic "too many args"
        else
          rs ← redirs;
          l ← args_loop fuel (S argc);
          mret (snd t :: fst l, rs ++ snd l)
  end.

(** The part of [parseexec] after the test for a block. *)
Definition parsewords : M (list Z) (cmd tok) :=
  rs ← redirs;
  n ← gets (@length Z);
  l ← args_loop (S n) 0;
  mret (foldl apply_redir (execcmd (fst l)) (rs ++ snd l)).

(** [while(peek(ps, es, "&")) ...] *)
Fixpoint back_loop (fuel : nat) (c : cmd tok) : M (list Z) (cmd tok) :=
  match fuel with
  | O => hang
  | S fuel =>
      b ← peek (str "&");
      if (b : bool) then gettoken;; back_loop fuel (backcmd c) else mret c
  end.

Section Parsers.
(** [parseline], called by [parseblock] on a shorter text. *)
Variable parseline : M (list Z) (cmd tok).

Definition parseblock : M (list Z) (cmd tok) :=
  b ← peek (str "(");
  if negb b then panic "parseblock"
  else
    gettoken;;
    c ← parseline;
    b ← peek (str ")");
    if negb b then panic "syntax - missing )"
    else gettoken;; parseredirs c.

Definition parseexec : M (list Z) (cmd tok) :=
  b ← peek (str "(");
  if (b : bool) then parseblock else parsewords.

Fixpoint parsepipe (fuel : nat) : M (list Z) (cmd tok) :=
  match fuel with
  | O => hang
  | S fuel =>
      c ← parseexec;
      b ← peek (str "|");
      if (b : bool) then
        gettoken;;
        r ← parsepipe fuel;
        mret (pipecmd c r)
      else mret c
  end.

(** [parseline] up to the test for [";"]. *)
Definition parseback : M (list Z) (cmd tok) :=
  n ← gets (@length Z);
  c ← parsepipe (S n);
  n ← gets (@length Z);
  back_loop (S n) c.
End Parsers.

(** Each call of [parseline] in itself, by [";"] or through [parseblock], is for a shorter
    text. *)
Fixpoint parseline (fuel : nat) : M (list Z) (cmd tok) :=
  match fuel with
  | O => hang
  | S fuel =>
      c ← parseback (parseline fuel);
      b ← peek (str ";");
      if (b : bool) then
        gettoken;;
        r ← parseline fuel;
        mret (listcmd c r)
      else mret c
  end.

(** [parsecmd(s)] up to the test for leftovers. *)
Definition parsecmd_tree : M (list Z) (cmd tok) :=
  n ← gets (@length Z);
  c ← parseline (S n);
  peek [];;
  mret c.

(** ** NUL-termination *)

(** The command line is [n] characters and a NUL. *)
Definition pos (n : nat) (p : list Z) : nat := n - length p.

(** [*p = 0] *)
Definition put_nul (n : nat) (p : list Z) (buf : list Z) : list Z := <[pos n p := 0]> buf.

Fixpoint nulterminate (n : nat) (c : cmd tok) (buf : list Z) : list Z :=
  match c with
  | execcmd argv => foldl (fun buf t => put_nul n (snd t) buf) buf argv
  | redircmd c file _ _ => put_nul n (snd file) (nulterminate n c buf)
  | pipecmd l r => nulterminate n r (nulterminate n l buf)
  | listcmd l r => nulterminate n r (nulterminate n l buf)
  | backcmd c => nulterminate n c buf
  end.

(** The C string at a pointer. *)
Fixpoint cstring (l : list Z) : list Z := match l with c :: l => if c =? 0 then [] else c :: cstring l | [] => [] end.
Definition string_at (n : nat) (buf : list Z) (t : tok) : list Z := cstring (drop (pos n (fst t)) buf).

(** [parsecmd(s)], with the strings its result points to. *)
Definition parsecmd (s : list Z) : outcome (list Z) (cmd (list Z)) :=
  match parsecmd_tree s with
  | Done c [] => Done (cmd_map (string_at (length s) (nulterminate (length s) c (s ++ [0]))) c) []
  | Done _ (_ :: _) => Panic "syntax"
  | Panic msg => Panic msg
  | Hang => Hang
  end.

(** What [parsecmd] prints before it gives up. *)
Definition leftovers (s : list Z) : list Z :=
  match parsecmd_tree s with Done _ (c :: r) => str "leftovers: " ++ (c :: r) ++ [10] | _ => [] end.

(** ** Running commands *)

(** A process, by the system calls it makes and what it does with their results.  [PMore]
    is where a bounded loop is cut. *)
Inductive prog :=
| PExit (status : Z)
| PExec (argv : list (list Z)) (failed : prog)
| PClose (fd : Z) (k : Z -> prog)
| POpen (file : list Z) (mode : Z) (k : Z -> prog)
| PDup (fd : Z) (k : Z -> prog)
| PPipe (k : option (Z * Z) -> prog)
| PFork (k : Z -> prog)
| PWait (k : prog)
| PWrite (fd : Z) (text : list Z) (k : prog)
| PRead (k : option Z -> prog)            (** one byte from descriptor 0 *)
| PChdir (path : list Z) (k : Z -> prog)
| PMore.

(** [panic(s)] *)
Definition sh_panic (s : string) : prog := PWrite 2 (str s ++ [10]) (PExit 1).

(** [fork1()], with what the child and the parent do. *)
Definition fork1 (child parent : prog) : prog :=
  PFork (fun pid => if pid =? -1 then sh_panic "fork" else if pid =? 0 then child else parent).

Fixpoint runcmd (c : cmd (list Z)) : prog :=
  match c with
  | execcmd [] => PExit 1
  | execcmd (a :: argv) => PExec (a :: argv) (PWrite 2 (str "exec " ++ a ++ str " failed" ++ [10]) (PExit 0))
  | redircmd c file mode fd =>
      PClose fd (fun _ => POpen file mode (fun r =>
        if r <? 0 then PWrite 2 (str "open " ++ file ++ str " failed" ++ [10]) (PExit 1) else runcmd c))
  | listcmd l r => fork1 (runcmd l) (PWait (runcmd r))
  | pipecmd l r =>
      PPipe (fun p =>
        match p with
        | None => sh_panic "pipe"
        | Some (p0, p1) =>
            fork1 (PClose 1 (fun _ => PDup p1 (fun _ => PClose p0 (fun _ => PClose p1 (fun _ => runcmd l)))))
              (fork1 (PClose 0 (fun _ => PDup p0 (fun _ => PClose p0 (fun _ => PClose p1 (fun _ => runcmd r)))))
                 (PClose p0 (fun _ => PClose p1 (fun _ => PWait (PWait (PExit 0))))))
        end)
  | backcmd c => fork1 (runcmd c) (PExit 0)
  end.

(** [gets(buf, max)] of [user/ulib.c]: [acc] is what is read so far, in reverse. *)
Fixpoint gets_line (max : nat) (acc : list Z) (k : list Z -> prog) : prog :=
  match max with
  | S (S _ as max') =>
      PRead (fun r =>
        match r with
        | None => k (rev acc)
        | Some c => if (c =? 10) || (c =? 13) then k (rev (c :: acc)) else gets_line max' (c :: acc) k
        end)
  | _ => k (rev acc)
  end.

(** [getcmd(buf, nbuf)]: [None] at the end of the input. *)
Definition getcmd (nbuf : nat) (k : option (list Z) -> prog) : prog :=
  PWrite 2 (str "$ ") (gets_line nbuf [] (fun buf => k (if head_char (cstring buf) =? 0 then None else Some (cstring buf)))).

(** Lines 152-157: descriptors 0 to 2 are open before the first command is read. *)
Fixpoint open_console (fuel : nat) (k : prog) : prog :=
  match fuel with
  | O => PMore
  | S fuel => POpen (str "console") O_RDWR (fun fd => if fd <? 0 then k else if 3 <=? fd then PClose fd (fun _ => k) else open_console fuel k)
  end.

(** A child that parses and runs a line. *)
Definition run_line (buf : list Z) : prog :=
  match parsecmd buf with
  | Done c _ => runcmd c
  | Panic msg => match leftovers buf with [] => sh_panic msg | l => PWrite 2 l (sh_panic msg) end
  | Hang => PMore
  end.

(** The loop of [main], for at most [fuel] lines. *)
Fixpoint main_loop (fuel : nat) : prog :=
  match fuel with
  | O => PMore
  | S fuel =>
      getcmd 100 (fun line =>
        match line with
        | None => PExit 0
        | Some buf =>
            if bool_decide (take 3 buf = str "cd ") then
              let path := drop 3 (removelast buf) in
              PChdir path (fun r => if r <? 0 then PWrite 2 (str "cannot cd " ++ path ++ [10]) (main_loop fuel) else main_loop fuel)
            else fork1 (run_line buf) (PWait (main_loop fuel))
        end)
  end.

Definition main (fuel : nat) : prog := open_console 4 (main_loop fuel).
