(* ===== verification/ShSpec.v ===== *)
(** * The shell's parser: it always ends, and it reads back what is printed *)

From S2P Require Import Prelude Sysfile Grep Sh.

(** ** Termination *)

(** [m] does not run out of fuel from [s], and its result satisfies [P]. *)
Definition safe {A} (m : M (list Z) A) (s : list Z) (P : A -> list Z -> Prop) : Prop :=
  match m s with Done a s' => P a s' | Panic _ => True | Hang => False end.

Lemma safe_bind {A B} (m : M (list Z) A) (f : A -> M (list Z) B) s P : safe m s (fun a s' => safe (f a) s' P) -> safe (m ≫= f) s P.
Proof. unfold safe, mbind, M_bind. by destruct (m s). Qed.

Lemma safe_impl {A} (m : M (list Z) A) s (P Q : A -> list Z -> Prop) : safe m s P -> (forall a s', P a s' -> Q a s') -> safe m s Q.
Proof. unfold safe. destruct (m s); auto. Qed.

Lemma safe_length {B} s (f : nat -> M (list Z) B) P : safe (f (length s)) s P -> safe (gets (@length Z) ≫= f) s P.
Proof. done. Qed.

Lemma skip_length s : (length (skip s) <= length s)%nat.
Proof. induction s as [|c s IH]; [done|]. cbn. case_match; cbn; lia. Qed.

Lemma skip_idem s : skip (skip s) = skip s.
Proof. induction s as [|c s IH]; [done|]. cbn. destruct (has whitespace c) eqn:E; [done|]. cbn. by rewrite E. Qed.

Lemma skip_word_length s : (length (skip_word s) <= length s)%nat.
Proof. induction s as [|c s IH]; [done|]. cbn. case_match; cbn; lia. Qed.

Lemma has_cons x l c : x <> 0 -> has (x :: l) c = (x =? c) || has l c.
Proof. intros Hx. unfold has. cbn [strchr]. apply Z.eqb_neq in Hx as ->. destruct (x =? c); [done|]. by destruct (strchr l c). Qed.

Lemma has_symbols c : has symbols c = (c =? LT) || (c =? BAR) || (c =? GT) || (c =? AMP) || (c =? SEMI) || (c =? LPAR) || (c =? RPAR).
Proof. unfold symbols, str. cbn [String.list_ascii_of_string fmap list_fmap]. rewrite !has_cons by (vm_compute; congruence). cbn. rewrite !(Z.eqb_sym _ c). by rewrite !orb_assoc, orb_false_r. Qed.

(** A token that is not the end of the text is not empty. *)
Lemma token_shorter s : skip s = s -> head_char s <> 0 -> (length (snd (token s)) < length s)%nat.
Proof.
  intros Hs H0. unfold token. apply Z.eqb_neq in H0 as E0. rewrite E0. destruct s as [|c s]; [done|]. cbn [head_char tail] in *. cbn [skip] in Hs.
  destruct (has whitespace c) eqn:Ew. { pose proof (skip_length s) as Hl. rewrite Hs in Hl. cbn in Hl. lia. }
  destruct (_ || _) eqn:Es; [cbn; lia|]. destruct (Z.eqb_spec c GT) as [->|Hg].
  - case_match; cbn; [|lia]. destruct s; cbn; lia.
  - cbn [snd skip_word]. rewrite Ew, has_symbols. apply Z.eqb_neq in Hg. rewrite !orb_false_iff in Es. destruct Es as (((((-> & ->) & ->) & ->) & ->) & ->). rewrite Hg.
    pose proof (skip_word_length s). cbn. lia.
Qed.

Lemma safe_peek toks s : safe (peek toks) s (fun b s' => s' = skip s /\ (b = true -> head_char s' <> 0 /\ has toks (head_char s') = true)).
Proof. unfold safe, peek. split; [done|]. intros [H1 H2]%andb_true_iff. split; [|done]. apply negb_true_iff, Z.eqb_neq in H1. done. Qed.

Lemma safe_gettoken s :
  safe gettoken s (fun t s' => (length s' <= length s)%nat /\ (head_char (skip s) <> 0 -> (length s' < length s)%nat) /\ (fst t <> 0 -> head_char (skip s) <> 0)).
Proof.
  unfold safe, gettoken. destruct (token (skip s)) as [ret e] eqn:Et. pose proof (skip_length s). pose proof (skip_length e).
  destruct (decide (head_char (skip s) = 0)) as [E|E].
  - unfold token in Et. rewrite E in Et. cbn in Et. simplify_eq. split; [lia|]. split; [done|]. intros Hc. cbn in Hc. done.
  - pose proof (token_shorter (skip s) (skip_idem s) E) as Hl. rewrite Et in Hl. cbn in Hl. split; [lia|]. split; [lia|]. done.
Qed.

(** A parser that does not fail to end and does not lengthen the text. *)
Definition shrinks {A} (m : M (list Z) A) (s : list Z) : Prop := safe m s (fun _ s' => (length s' <= length s)%nat).

(** Peek, take the token seen, and go on with a shorter text. *)
Lemma safe_peek_take {A} toks (yes no : M (list Z) A) s P :
  (forall s', (length s' <= length s)%nat -> (head_char (skip s') <> 0) -> safe yes s' P) -> (forall s', (length s' <= length s)%nat -> safe no s' P) ->
  safe (b ← peek toks; if (b : bool) then yes else no) s P.
Proof.
  intros Hy Hn. apply safe_bind. eapply safe_impl; [apply safe_peek|]. intros b s' [-> Hb]. pose proof (skip_length s). destruct b; [|by apply Hn].
  destruct (Hb eq_refl). apply Hy; [done|]. by rewrite skip_idem.
Qed.

Lemma safe_take {A} (f : Z * tok -> M (list Z) A) s P :
  head_char (skip s) <> 0 -> (forall t s', (length s' < length s)%nat -> safe (f t) s' P) -> safe (gettoken ≫= f) s P.
Proof. intros Hh Hf. apply safe_bind. eapply safe_impl; [apply safe_gettoken|]. intros t s' (_ & Hl & _). apply Hf. by apply Hl. Qed.

Lemma redirs_loop_safe fuel s : (length s < fuel)%nat -> shrinks (redirs_loop fuel) s.
Proof.
  revert s. induction fuel as [|fuel IH]; intros s Hs; [lia|]. cbn [redirs_loop]. unfold shrinks. apply safe_peek_take; [|done].
  intros s1 H1 Hh. apply safe_take; [done|]. intros t s2 H2. apply safe_bind. eapply safe_impl; [apply safe_gettoken|]. intros f s3 (H3 & _).
  destruct (negb _); [done|]. apply safe_bind. eapply safe_impl; [apply IH; lia|]. intros rs s4 H4. cbn in H4. unfold safe; cbn. lia.
Qed.

Lemma redirs_safe s : shrinks redirs s.
Proof. unfold redirs, shrinks. apply safe_length. apply redirs_loop_safe. lia. Qed.

Lemma args_loop_safe fuel argc s : (length s < fuel)%nat -> shrinks (args_loop fuel argc) s.
Proof.
  revert argc s. induction fuel as [|fuel IH]; intros argc s Hs; [lia|]. cbn [args_loop]. unfold shrinks. apply safe_peek_take; [done|].
  intros s1 H1. apply safe_bind. eapply safe_impl; [apply safe_gettoken|]. intros t s2 (H2 & H2' & H2''). destruct (Z.eqb_spec (fst t) 0); [unfold safe; cbn; lia|].
  destruct (negb _); [done|]. destruct (_ <=? _)%nat; [done|]. specialize (H2' (H2'' n)). apply safe_bind. eapply safe_impl; [apply redirs_safe|]. intros rs s3 H3. cbn in H3.
  apply safe_bind. eapply safe_impl; [apply IH; lia|]. intros l s4 H4. cbn in H4. unfold safe; cbn. lia.
Qed.

Lemma parsewords_safe s : shrinks parsewords s.
Proof.
  unfold parsewords, shrinks. apply safe_bind. eapply safe_impl; [apply redirs_safe|]. intros rs s1 H1. cbn in H1. apply safe_length. apply safe_bind.
  eapply safe_impl; [apply args_loop_safe; lia|]. intros l s2 H2. cbn in H2. unfold safe; cbn. lia.
Qed.

Lemma back_loop_safe fuel c s : (length s < fuel)%nat -> shrinks (back_loop fuel c) s.
Proof.
  revert c s. induction fuel as [|fuel IH]; intros c s Hs; [lia|]. cbn [back_loop]. unfold shrinks. apply safe_peek_take; [|done].
  intros s1 H1 Hh. apply safe_take; [done|]. intros t s2 H2. eapply safe_impl; [apply IH; lia|]. cbn. lia.
Qed.

Section Below.
(** [parseline] ends on the texts shorter than [k]. *)
Variable pl : M (list Z) (cmd tok).
Variable k : nat.
Hypothesis pl_safe : forall s, (length s < k)%nat -> shrinks pl s.

Lemma parseexec_safe s : (length s <= k)%nat -> shrinks (parseexec pl) s.
Proof.
  intros Hs. unfold parseexec, parseblock, shrinks. apply safe_peek_take.
  2: { intros s1 H1. eapply safe_impl; [apply parsewords_safe|]. cbn. lia. }
  intros s1 H1 Hh. apply safe_bind. eapply safe_impl; [apply safe_peek|]. intros b s2 [-> _]. destruct b; [|done]. cbn [negb].
  apply safe_take; [by rewrite skip_idem|]. intros t s3 H3. pose proof (skip_length s1). apply safe_bind. eapply safe_impl; [apply pl_safe; lia|]. intros c s4 H4. cbn in H4.
  apply safe_bind. eapply safe_impl; [apply safe_peek|]. intros b s5 [-> Hb]. destruct b; [|done]. cbn [negb]. destruct (Hb eq_refl) as [Hh' _]. pose proof (skip_length s4).
  apply safe_take; [by rewrite skip_idem|]. intros t' s6 H6. unfold parseredirs. apply safe_bind. eapply safe_impl; [apply redirs_safe|].
  intros rs s7 H7. cbn in H7. unfold safe; cbn. lia.
Qed.

Lemma parsepipe_safe fuel s : (length s < fuel)%nat -> (length s <= k)%nat -> shrinks (parsepipe pl fuel) s.
Proof.
  revert s. induction fuel as [|fuel IH]; intros s Hf Hs; [lia|]. cbn [parsepipe]. unfold shrinks. apply safe_bind. eapply safe_impl; [by apply parseexec_safe|].
  intros c s1 H1. cbn in H1. apply safe_peek_take; [|intros s2 H2; unfold safe; cbn; lia].
  intros s2 H2 Hh. apply safe_take; [done|]. intros t s3 H3. apply safe_bind. eapply safe_impl; [apply IH; lia|]. intros r s4 H4. cbn in H4. unfold safe; cbn. lia.
Qed.

Lemma parseback_safe s : (length s <= k)%nat -> shrinks (parseback pl) s.
Proof.
  intros Hs. unfold parseback, shrinks. apply safe_length. apply safe_bind. eapply safe_impl; [apply parsepipe_safe; lia|]. intros c s1 H1. cbn in H1.
  apply safe_length. eapply safe_impl; [apply back_loop_safe; lia|]. cbn. lia.
Qed.
End Below.

Lemma parseline_safe fuel s : (length s < fuel)%nat -> shrinks (parseline fuel) s.
Proof.
  revert s. induction fuel as [|fuel IH]; intros s Hf; [lia|]. cbn [parseline]. unfold shrinks. apply safe_bind. eapply safe_impl; [apply (parseback_safe _ fuel); [exact IH|lia]|].
  intros c s1 H1. cbn in H1. apply safe_peek_take; [|intros s2 H2; unfold safe; cbn; lia].
  intros s2 H2 Hh. apply safe_take; [done|]. intros t s3 H3. apply safe_bind. eapply safe_impl; [apply IH; lia|]. intros r s4 H4. cbn in H4. unfold safe; cbn. lia.
Qed.

Lemma parsecmd_tree_safe s : shrinks parsecmd_tree s.
Proof.
  unfold parsecmd_tree, shrinks. apply safe_length. apply safe_bind. eapply safe_impl; [apply parseline_safe; lia|]. intros c s1 H1. cbn in H1.
  apply safe_bind. eapply safe_impl; [apply safe_peek|]. intros b s2 [-> _]. pose proof (skip_length s1). unfold safe; cbn. lia.
Qed.

Lemma parsecmd_ends s : parsecmd s <> Hang.
Proof. pose proof (parsecmd_tree_safe s) as H. unfold parsecmd, shrinks, safe in *. destruct (parsecmd_tree s) as [c []| |]; done. Qed.

(** ** Printing *)

(** A word has no white space, no symbol and no NUL. *)
Definition wordchar (c : Z) : Prop := c <> 0 /\ has whitespace c = false /\ has symbols c = false.
Definition word (w : list Z) : Prop := w <> [] /\ Forall wordchar w.

Definition O_APPENDING : Z := Z.lor O_WRONLY O_CREATE.

Definition redir_ok (r : list Z * Z * Z) : Prop :=
  word (fst (fst r)) /\ (snd (fst r), snd r) ∈ [(O_RDONLY, 0); (O_CREATE_TRUNC, 1); (O_APPENDING, 1)].

(** The commands the syntax can express. *)
Fixpoint wf (c : cmd (list Z)) : Prop :=
  match c with
  | execcmd argv => (length argv < MAXARGS)%nat /\ Forall word argv
  | redircmd c file mode fd => wf c /\ redir_ok (file, mode, fd)
  | pipecmd l r => wf l /\ wf r
  | listcmd l r => wf l /\ wf r
  | backcmd c => wf c
  end.

Definition pr_words (argv : list (list Z)) : list Z := concat (cons 32 <$> argv).

Definition pr_redir (r : list Z * Z * Z) : list Z :=
  let '(file, mode, fd) := r in
  if fd =? 0 then LT :: file else if mode =? O_CREATE_TRUNC then GT :: file else GT :: GT :: file.

Definition pr_redirs (rs : list (list Z * Z * Z)) : list Z := concat (pr_redir <$> rs).

Definition paren (b : bool) (s : list Z) : list Z := if b then LPAR :: s ++ [RPAR] else s.

(** The text of a command where [parseexec] (0), [parsepipe] (1), [parseline] before the
    semicolon (2) or [parseline] (3) reads it. *)
Fixpoint pr (lvl : nat) (c : cmd (list Z)) : list Z :=
  match c with
  | execcmd argv => pr_words argv
  | redircmd c file mode fd => pr 0 c ++ pr_redir (file, mode, fd)
  | pipecmd l r => paren (lvl <? 1)%nat (pr 0 l ++ BAR :: pr 1 r)
  | backcmd c => paren (lvl <? 2)%nat (pr 2 c ++ [AMP])
  | listcmd l r => paren (lvl <? 3)%nat (pr 2 l ++ SEMI :: pr 3 r)
  end.

(** The characters of a counted string. *)
Definition den (t : tok) : list Z := take (length (fst t) - length (snd t)) (fst t).
Definition den_redir (r : redir) : list Z * Z * Z := (den (fst (fst r)), snd (fst r), snd r).

(** ** Tokens of a printed command *)

Lemma has_elem toks c : has toks c = true -> c ∈ toks.
Proof.
  unfold has. induction toks as [|x toks IH]; [done|]. cbn [strchr]. destruct (x =? 0); [done|]. destruct (Z.eqb_spec x c) as [->|]; [left|].
  intros H. right. apply IH. by destruct (strchr toks c).
Qed.

Lemma word_not toks c : Forall (fun x => has symbols x = true) toks -> wordchar c -> has toks c = false.
Proof.
  intros Ht (_ & _ & Hc). apply not_true_iff_false. intros H%has_elem. rewrite list.Forall_forall in Ht. apply Ht in H. congruence.
Qed.

Lemma peek_at toks s t : skip s = t -> peek toks s = Done (negb (head_char t =? 0) && has toks (head_char t)) t.
Proof. by intros <-. Qed.

(** [r] is empty or starts with one of [toks]. *)
Definition fol (toks r : list Z) : Prop := r = [] \/ exists c r', r = c :: r' /\ c ∈ toks.

Definition stops (r : list Z) : Prop := match r with [] => True | c :: _ => has whitespace c || has symbols c = true end.

Lemma skip_symbol c r : has symbols c = true -> skip (c :: r) = c :: r.
Proof.
  intros H. cbn. destruct (has whitespace c) eqn:E; [|done]. apply has_elem in E. unfold whitespace in E. repeat (apply elem_of_cons in E as [->|E]; [by vm_compute in H|]).
  by apply elem_of_nil in E.
Qed.

Lemma skip_word_start w r : word w -> skip (w ++ r) = w ++ r.
Proof. intros [Hne Hw]. destruct w as [|c w]; [done|]. apply list.Forall_cons in Hw as [(_ & Hc & _) _]. cbn. by rewrite Hc. Qed.

Lemma skip_word_all w r : Forall wordchar w -> stops r -> skip_word (w ++ r) = r.
Proof.
  induction 1 as [|c w (H0 & Hw & Hs) _ IH]; intros Hr; cbn [app skip_word].
  - destruct r as [|c r]; [done|]. cbn in *. by rewrite Hr.
  - rewrite Hw, Hs. by apply IH.
Qed.

Lemma gettoken_word w r s : skip s = w ++ r -> word w -> stops r -> gettoken s = Done (WORD, (w ++ r, r)) (skip r).
Proof.
  intros Hs [Hne Hw] Hr. unfold gettoken. rewrite Hs. unfold token. destruct w as [|c w]; [done|]. pose proof Hw as Hw'. apply list.Forall_cons in Hw' as [(H0 & Hc & Hy) _].
  cbn [app head_char]. apply Z.eqb_neq in H0 as ->. rewrite has_symbols, !orb_false_iff in Hy. destruct Hy as ((((((-> & ->) & ->) & ->) & ->) & ->) & ->). cbn [orb].
  change (c :: w ++ r) with ((c :: w) ++ r). by rewrite skip_word_all.
Qed.

Lemma gettoken_symbol c r s : skip s = c :: r -> c ∈ [BAR; LPAR; RPAR; SEMI; AMP; LT] -> gettoken s = Done (c, (c :: r, r)) (skip r).
Proof.
  intros Hs Hc. unfold gettoken. rewrite Hs. repeat (apply elem_of_cons in Hc as [->|Hc]; [done|]). by apply elem_of_nil in Hc.
Qed.

Lemma den_word w r : den (w ++ r, r) = w.
Proof. unfold den. cbn. rewrite length_app. replace (length w + length r - length r)%nat with (length w) by lia. by rewrite take_app_length. Qed.

Lemma gettoken_gt f r s : skip s = GT :: f ++ r -> word f -> gettoken s = Done (GT, (GT :: f ++ r, f ++ r)) (f ++ r).
Proof.
  intros Hs Hf. unfold gettoken. rewrite Hs. unfold token. cbn [head_char tail]. pose proof (skip_word_start f r Hf) as Hk. destruct Hf as [Hne Hw].
  destruct f as [|c f]; [done|]. apply list.Forall_cons in Hw as [(_ & _ & Hy) _]. cbn [app head_char] in *. destruct (Z.eqb_spec c GT) as [->|]; [done|].
  cbn [Z.eqb Pos.eqb orb]. by rewrite Hk.
Qed.

Lemma gettoken_append f r s : skip s = GT :: GT :: f ++ r -> word f -> gettoken s = Done (PLUS, (GT :: GT :: f ++ r, f ++ r)) (f ++ r).
Proof. intros Hs Hf. unfold gettoken. rewrite Hs. unfold token. cbn. by rewrite skip_word_start. Qed.

Lemma stops_redirs rs r : Forall redir_ok rs -> stops r -> stops (pr_redirs rs ++ r).
Proof.
  intros Hrs Hr. destruct rs as [|[[f m] d] rs]; [done|]. unfold pr_redirs. cbn [fmap list_fmap concat pr_redir]. destruct (d =? 0); [done|]. by destruct (m =? O_CREATE_TRUNC).
Qed.

(** One redirection: its symbol, then its file. *)
Lemma redir_token rd t s :
  redir_ok rd -> stops t -> skip s = pr_redir rd ++ t ->
  peek (str "<>") s = Done true (pr_redir rd ++ t) /\
  exists k q, gettoken (pr_redir rd ++ t) = Done (k, q) (fst (fst rd) ++ t) /\
    (forall f : tok, (if k =? LT then (f, O_RDONLY, 0) else if k =? GT then (f, O_CREATE_TRUNC, 1) else (f, O_APPENDING, 1)) = (f, snd (fst rd), snd rd)) /\
    (k =? LT) || (k =? GT) || (k =? PLUS) = true.
Proof.
  destruct rd as [[f m] d]. intros [Hf Hm] Ht Hs. cbn [fst snd] in *. rewrite (peek_at _ _ _ Hs).
  repeat (apply elem_of_cons in Hm as [Hm|Hm]; [injection Hm as -> ->|]); [| | |by apply elem_of_nil in Hm]; cbn [pr_redir Z.eqb app].
  - split; [done|]. exists LT. eexists. rewrite (gettoken_symbol LT (f ++ t) _ (skip_symbol LT (f ++ t) eq_refl)) by (vm_compute; tauto || set_solver). rewrite skip_word_start by done. done.
  - split; [done|]. exists GT. eexists. rewrite (gettoken_gt f t) by done. done.
  - split; [done|]. exists PLUS. eexists. rewrite (gettoken_append f t) by done. done.
Qed.

Lemma redirs_loop_print rs fuel s r :
  Forall redir_ok rs -> (length rs < fuel)%nat -> skip s = skip (pr_redirs rs ++ r) -> stops r -> has (str "<>") (head_char (skip r)) = false ->
  exists rs', redirs_loop fuel s = Done rs' (skip r) /\ den_redir <$> rs' = rs.
Proof.
  intros Hrs. revert fuel s. induction Hrs as [|rd rs Hrd Hrs IH]; intros fuel s Hf Hs Hr Hn; (destruct fuel as [|fuel]; [cbn in Hf; lia|]); cbn [redirs_loop].
  - mstep (peek_at (str "<>") s _ Hs). cbn [pr_redirs fmap list_fmap concat app]. rewrite Hn, andb_false_r. by exists [].
  - set (t := pr_redirs rs ++ r). assert (Ht : stops t) by (by apply stops_redirs).
    assert (Hs' : skip s = pr_redir rd ++ t).
    { rewrite Hs. unfold pr_redirs. cbn [fmap list_fmap concat]. rewrite <- app_assoc. change (concat (pr_redir <$> rs) ++ r) with t. destruct rd as [[f m] d]. cbn.
      destruct (d =? 0); [by apply skip_symbol|]. destruct (m =? O_CREATE_TRUNC); by apply skip_symbol. }
    destruct (redir_token rd t s Hrd Ht Hs') as (Ep & k & q & Eg & Hk & Hk3). mstep Ep. mstep Eg.
    assert (Hw : word (fst (fst rd))) by apply Hrd. mstep (gettoken_word _ t _ (skip_word_start _ t Hw) Hw Ht). cbn [fst snd]. cbn [negb Z.eqb Pos.eqb].
    destruct (IH fuel (skip t)) as (rs' & E & Hd); [cbn in Hf; lia|by rewrite skip_idem|done|done|]. mstep E.
    eexists. split; [reflexivity|]. specialize (Hk (fst (fst rd) ++ t, t)). change (Z.lor O_WRONLY O_CREATE) with O_APPENDING.
    destruct (k =? LT); [|destruct (k =? GT); [|destruct (k =? PLUS); [|done]]]; rewrite Hk; cbn [fmap list_fmap]; rewrite Hd; f_equal; unfold den_redir; cbn [fst snd];
      rewrite den_word; by destruct rd as [[??]?].
Qed.

Lemma length_pr_redirs rs : Forall redir_ok rs -> (length rs <= length (pr_redirs rs))%nat.
Proof.
  induction 1 as [|[[f m] d] rs _ _ IH]; [done|]. unfold pr_redirs in *. cbn [fmap list_fmap concat pr_redir]. rewrite length_app. cbn [length].
  destruct (d =? 0); [cbn; lia|]. destruct (m =? O_CREATE_TRUNC); cbn; lia.
Qed.

Lemma skip_redirs rs r : Forall redir_ok rs -> rs <> [] -> skip (pr_redirs rs ++ r) = pr_redirs rs ++ r.
Proof.
  intros Hrs Hne. destruct rs as [|[[f m] d] rs]; [done|]. unfold pr_redirs. cbn [fmap list_fmap concat pr_redir]. rewrite <- app_assoc.
  destruct (d =? 0); [by apply skip_symbol|]. destruct (m =? O_CREATE_TRUNC); by apply skip_symbol.
Qed.

Lemma redirs_print rs s r :
  Forall redir_ok rs -> skip s = skip (pr_redirs rs ++ r) -> stops r -> has (str "<>") (head_char (skip r)) = false ->
  exists rs', redirs s = Done rs' (skip r) /\ den_redir <$> rs' = rs.
Proof.
  intros Hrs Hs Hr Hn. unfold redirs. rewrite bind_gets. apply redirs_loop_print; try done. pose proof (length_pr_redirs rs Hrs) as Hl.
  destruct rs as [|rd rs]; [cbn; lia|]. pose proof (skip_length s) as Hk. rewrite Hs, skip_redirs, length_app in Hk by done. lia.
Qed.

(** ** Commands *)

(** What follows a simple command or a block. *)
Definition enders : list Z := [BAR; RPAR; AMP; SEMI].

Lemma fol_skip r : fol enders r -> skip r = r /\ stops r /\ has (str "<>") (head_char r) = false /\ has (str "(") (head_char r) = false.
Proof.
  intros [->|(c & r' & -> & Hc)]; [done|]. unfold enders in Hc. repeat (apply elem_of_cons in Hc as [->|Hc]; [done|]). by apply elem_of_nil in Hc.
Qed.

Lemma args_end fuel argc s r : fol enders r -> skip s = r -> args_loop (S fuel) argc s = Done ([], []) r.
Proof.
  intros Hr Hs. cbn [args_loop]. mstep (peek_at (str "|)&;") s r Hs). destruct Hr as [->|(c & r' & -> & Hc)]; [done|].
  unfold enders in Hc. repeat (apply elem_of_cons in Hc as [->|Hc]; [done|]). by apply elem_of_nil in Hc.
Qed.

Lemma pr_words_cons w args r : pr_words (w :: args) ++ r = 32 :: w ++ pr_words args ++ r.
Proof. unfold pr_words. cbn. by rewrite <- app_assoc. Qed.

Lemma word_head w r toks : word w -> Forall (fun x => has symbols x = true) toks -> has toks (head_char (w ++ r)) = false.
Proof. intros [Hne Hw] Ht. destruct w as [|c w]; [done|]. apply list.Forall_cons in Hw as [Hc _]. by apply word_not. Qed.

Lemma stops_words args r : stops r -> stops (pr_words args ++ r).
Proof. destruct args as [|w args]; [done|]. done. Qed.

Lemma args_print args fuel argc s rs r :
  Forall word args -> Forall redir_ok rs -> args <> [] -> (argc + length args < MAXARGS)%nat -> (length args < fuel)%nat -> fol enders r ->
  skip s = skip (pr_words args ++ pr_redirs rs ++ r) ->
  exists ts rs', args_loop fuel argc s = Done (ts, rs') r /\ den <$> ts = args /\ den_redir <$> rs' = rs.
Proof.
  intros Hw Hrs Hne. revert fuel argc s. induction Hw as [|w args Hw Hws IH]; intros fuel argc s Hargc Hf Hr Hs; [done|].
  destruct fuel as [|fuel]; [cbn in Hf; lia|]. destruct (fol_skip r Hr) as (Hk & Hst & Hlt & _). rewrite pr_words_cons in Hs. cbn [skip] in Hs. change (has whitespace 32) with true in Hs. cbv iota in Hs.
  set (t := pr_words args ++ pr_redirs rs ++ r) in *. assert (Ht : stops t) by (apply stops_words; by apply stops_redirs). rewrite skip_word_start in Hs by done.
  cbn [args_loop]. mstep (peek_at (str "|)&;") s _ Hs). rewrite word_head by (done || by repeat constructor). rewrite andb_false_r.
  mstep (gettoken_word w t (w ++ t) (skip_word_start w t Hw) Hw Ht). cbn [fst snd]. cbn [negb Z.eqb Pos.eqb].
  replace (MAXARGS <=? S argc)%nat with false by (symmetry; apply Nat.leb_gt; cbn in Hargc; lia).
  destruct args as [|w' args].
  - destruct (redirs_print rs (skip t) r Hrs (skip_idem t) Hst) as (rs' & E & Hd); [by rewrite Hk|]. mstep E. rewrite Hk.
    destruct fuel as [|fuel]; [cbn in Hf; lia|]. mstep (args_end fuel (S argc) r r Hr Hk). exists [(w ++ t, t)], (rs' ++ []). split; [done|]. rewrite app_nil_r. split; [cbn [fmap list_fmap]; by rewrite den_word|done].
  - destruct (redirs_print [] (skip t) t) as (rs0 & E & Hd); [done|by rewrite skip_idem|done| |].
    { subst t. rewrite pr_words_cons. cbn [skip]. change (has whitespace 32) with true. cbv iota. apply list.Forall_cons in Hws as [Hw' _]. rewrite skip_word_start by done.
      apply word_head; [done|by repeat constructor]. }
    mstep E. apply fmap_nil_inv in Hd as ->. destruct (IH ltac:(done) fuel (S argc) (skip t)) as (ts & rs' & E' & Hd & Hd'); [cbn in *; lia|cbn in *; lia|done|by apply skip_idem|].
    mstep E'. exists ((w ++ t, t) :: ts), ([] ++ rs'). split; [done|]. split; [cbn [fmap list_fmap]; rewrite den_word; by f_equal|done].
Qed.

Lemma map_redirs c (rs : list redir) : cmd_map den (foldl apply_redir c rs) = foldl apply_redir (cmd_map den c) (den_redir <$> rs).
Proof. revert c. induction rs as [|[[f m] d] rs IH]; intros c; [done|]. cbn [foldl fmap list_fmap]. by rewrite IH. Qed.

Lemma length_pr_words args : (length args <= length (pr_words args))%nat.
Proof. induction args as [|w args IH]; [done|]. unfold pr_words in *. cbn. rewrite length_app. lia. Qed.

Lemma parsewords_print args rs s r :
  Forall word args -> (length args < MAXARGS)%nat -> Forall redir_ok rs -> fol enders r -> skip s = skip (pr_words args ++ pr_redirs rs ++ r) ->
  exists t, parsewords s = Done t r /\ cmd_map den t = foldl apply_redir (execcmd args) rs.
Proof.
  intros Hw Hlen Hrs Hr Hs. destruct (fol_skip r Hr) as (Hk & Hst & Hlt & _). unfold parsewords. destruct args as [|w args].
  - destruct (redirs_print rs s r Hrs Hs Hst) as (rs' & E & Hd); [by rewrite Hk|]. mstep E. rewrite Hk, bind_gets. mstep (args_end (length r) 0 r r Hr Hk).
    eexists. split; [reflexivity|]. cbn [fst snd]. by rewrite app_nil_r, map_redirs, Hd.
  - set (t := pr_words (w :: args) ++ pr_redirs rs ++ r) in *.
    destruct (redirs_print [] s t) as (rs0 & E & Hd); [done|done|done| |].
    { subst t. rewrite pr_words_cons. cbn [skip]. change (has whitespace 32) with true. cbv iota. apply list.Forall_cons in Hw as [Hw' _]. rewrite skip_word_start by done.
      apply word_head; [done|by repeat constructor]. }
    mstep E. apply fmap_nil_inv in Hd as ->. rewrite bind_gets.
    destruct (args_print (w :: args) (S (length (skip t))) 0 (skip t) rs r) as (ts & rs' & E' & Hd & Hd'); try done; [|by apply skip_idem|].
    { subst t. rewrite pr_words_cons. cbn [skip]. change (has whitespace 32) with true. cbv iota. pose proof Hw as Hw'. apply list.Forall_cons in Hw' as [[Hne Hwc] Hws].
      rewrite skip_word_start by done. rewrite !length_app. pose proof (length_pr_words args). destruct w; [done|]. cbn. lia. }
    mstep E'. eexists. split; [reflexivity|]. cbn [fst snd app]. rewrite map_redirs, Hd'. cbn [cmd_map]. by rewrite Hd.
Qed.

(** The command below the redirections. *)
Fixpoint peel (c : cmd (list Z)) : cmd (list Z) * list (list Z * Z * Z) :=
  match c with
  | redircmd c file mode fd => let '(b, rs) := peel c in (b, rs ++ [(file, mode, fd)])
  | _ => (c, [])
  end.

Definition is_redir {T} (c : cmd T) : bool := match c with redircmd _ _ _ _ => true | _ => false end.

Lemma peel_spec c : wf c -> let '(b, rs) := peel c in
  c = foldl apply_redir b rs /\ wf b /\ Forall redir_ok rs /\ is_redir b = false /\ pr 0 c = pr 0 b ++ pr_redirs rs.
Proof.
  induction c as [argv|c IH f m d|l _ r _|l _ r _|c _]; intros Hwf; cbn [peel]; 
    try (split; [done|]; split; [done|]; split; [constructor|]; split; [done|]; change (pr_redirs []) with (@nil Z); by rewrite app_nil_r).
  destruct Hwf as [Hc Hr]. specialize (IH Hc). destruct (peel c) as [b rs]. destruct IH as (-> & Hb & Hrs & Hn & Hp).
  split; [by rewrite foldl_app|]. split; [done|]. split; [by apply Forall_app_2; [|constructor]|]. split; [done|].
  cbn [pr]. rewrite Hp. unfold pr_redirs. rewrite fmap_app, concat_app. cbn [fmap list_fmap concat]. by rewrite app_nil_r, <- app_assoc.
Qed.

(** Skipping white space stops at a symbol. *)
Lemma skip_past l c r : has symbols c = true -> (length r < length (skip (l ++ c :: r)))%nat.
Proof.
  intros Hc. induction l as [|x l IH]; cbn [app]; [rewrite skip_symbol by done; cbn; lia|]. cbn [skip]. case_match; [done|]. cbn. rewrite length_app. cbn. lia.
Qed.

Lemma skip_shorter s l c r : has symbols c = true -> skip s = skip (l ++ c :: r) -> (length (skip r) < length s)%nat.
Proof. intros Hc Hs. pose proof (skip_past l c r Hc) as H. rewrite <- Hs in H. pose proof (skip_length s). pose proof (skip_length r). lia. Qed.

Definition is_exec {T} (c : cmd T) : bool := match c with execcmd _ => true | _ => false end.

Lemma pr_block b : is_redir b = false -> is_exec b = false -> pr 0 b = LPAR :: pr 3 b ++ [RPAR].
Proof. by destruct b. Qed.

Lemma pr_low lvl c : match c with pipecmd _ _ => lvl = 0%nat | backcmd _ => (lvl <= 1)%nat | listcmd _ _ => (lvl <= 2)%nat | _ => True end -> pr lvl c = pr 0 c.
Proof. destruct c; cbn; [done|done|by intros ->|by destruct lvl as [|[|[|]]]; [..|lia]|by destruct lvl as [|[|]]; [..|lia]]. Qed.

(** ** The parsers on printed commands *)

Section Levels.
(** [parseline] on the texts shorter than [k]. *)
Variable pl : M (list Z) (cmd tok).
Variable k : nat.
Hypothesis pl_print : forall c r s, wf c -> fol [RPAR] r -> skip s = skip (pr 3 c ++ r) -> (length s < k)%nat -> exists t, pl s = Done t r /\ cmd_map den t = c.

Lemma parseblock_print c rs s r :
  wf c -> Forall redir_ok rs -> fol enders r -> skip s = LPAR :: pr 3 c ++ RPAR :: pr_redirs rs ++ r -> (length s <= k)%nat ->
  exists t, parseblock pl s = Done t r /\ cmd_map den t = foldl apply_redir c rs.
Proof.
  intros Hc Hrs Hr Hs Hl. destruct (fol_skip r Hr) as (Hk & Hst & Hlt & _). set (u := pr_redirs rs ++ r) in *. pose proof (skip_length s) as Hls. rewrite Hs in Hls. cbn [length] in Hls.
  unfold parseblock. mstep (peek_at (str "(") s _ Hs). cbn [head_char]. change (negb (negb (LPAR =? 0) && has (str "(") LPAR)) with false. cbv iota.
  mstep (gettoken_symbol LPAR (pr 3 c ++ RPAR :: u) _ (skip_symbol LPAR (pr 3 c ++ RPAR :: u) eq_refl) ltac:(set_solver)).
  pose proof (skip_length (pr 3 c ++ RPAR :: u)).
  destruct (pl_print c (RPAR :: u) (skip (pr 3 c ++ RPAR :: u))) as (t & E & Hd); [done|right; exists RPAR, u; set_solver|by apply skip_idem|lia|]. mstep E.
  mstep (peek_at (str ")") (RPAR :: u) (RPAR :: u) (skip_symbol RPAR u eq_refl)). cbn [head_char]. change (negb (negb (RPAR =? 0) && has (str ")") RPAR)) with false. cbv iota.
  mstep (gettoken_symbol RPAR u _ (skip_symbol RPAR u eq_refl) ltac:(set_solver)). unfold parseredirs.
  destruct (redirs_print rs (skip u) r Hrs (skip_idem u) Hst) as (rs' & E' & Hd'); [by rewrite Hk|]. mstep E'. rewrite Hk.
  eexists. split; [reflexivity|]. by rewrite map_redirs, Hd, Hd'.
Qed.

Lemma parseexec_print c s r :
  wf c -> fol enders r -> skip s = skip (pr 0 c ++ r) -> (length s <= k)%nat -> exists t, parseexec pl s = Done t r /\ cmd_map den t = c.
Proof.
  intros Hc Hr Hs Hl. destruct (fol_skip r Hr) as (Hk & Hst & Hlt & Hlp). pose proof (peel_spec c Hc) as Hp. destruct (peel c) as [b rs].
  destruct Hp as (-> & Hb & Hrs & Hn & Hp). rewrite Hp, <- app_assoc in Hs. unfold parseexec.
  destruct (is_exec b) eqn:He.
  - destruct b as [args| | | |]; try done. change (pr 0 (execcmd args)) with (pr_words args) in Hs.
    assert (Hh : has (str "(") (head_char (skip (pr_words args ++ pr_redirs rs ++ r))) = false).
    { destruct Hb as [_ Hw]. destruct args as [|w args].
      - cbn [pr_words fmap list_fmap concat app]. destruct rs as [|[[f m] d] rs]; [cbn [pr_redirs fmap list_fmap concat app]; by rewrite Hk|]. rewrite skip_redirs by done.
        unfold pr_redirs. cbn [fmap list_fmap concat pr_redir]. destruct (d =? 0); [done|]. by destruct (m =? O_CREATE_TRUNC).
      - rewrite pr_words_cons. cbn [skip]. change (has whitespace 32) with true. cbv iota. apply list.Forall_cons in Hw as [Hw _]. rewrite skip_word_start by done.
        apply word_head; [done|by repeat constructor]. }
    mstep (peek_at (str "(") s _ Hs). rewrite Hh, andb_false_r. destruct Hb as [Hlen Hw]. apply parsewords_print; try done. apply skip_idem.
  - rewrite pr_block in Hs by done. cbn [app] in Hs. rewrite <- app_assoc in Hs. cbn [app] in Hs. rewrite (skip_symbol LPAR) in Hs by done.
    mstep (peek_at (str "(") s _ Hs). cbn [head_char]. change (negb (LPAR =? 0) && has (str "(") LPAR) with true. cbv iota.
    apply parseblock_print; try done. pose proof (skip_length s) as Hls. rewrite Hs in Hls. lia.
Qed.

Lemma parsepipe_print fuel c s r :
  wf c -> fol [RPAR; AMP; SEMI] r -> skip s = skip (pr 1 c ++ r) -> (length s < fuel)%nat -> (length s <= k)%nat ->
  exists t, parsepipe pl fuel s = Done t r /\ cmd_map den t = c.
Proof.
  revert c s. induction fuel as [|fuel IH]; intros c s Hc Hr Hs Hf Hl; [lia|]. cbn [parsepipe].
  assert (Hr' : fol enders r) by (destruct Hr as [->|(x & r' & -> & Hx)]; [by left|right; exists x, r'; unfold enders; set_solver]). destruct (fol_skip r Hr') as (Hk & _).
  assert (Hsimple : pr 1 c = pr 0 c -> exists t, (c0 ← parseexec pl; b ← peek (str "|"); if (b : bool) then gettoken;; r0 ← parsepipe pl fuel; mret (pipecmd c0 r0) else mret c0) s = Done t r /\ cmd_map den t = c).
  { intros Hp. rewrite Hp in Hs. destruct (parseexec_print c s r Hc Hr' Hs Hl) as (t & E & Hd). mstep E. mstep (peek_at (str "|") r r Hk).
    exists t. split; [|done]. destruct Hr as [->|(x & r' & -> & Hx)]; [done|]. repeat (apply elem_of_cons in Hx as [->|Hx]; [done|]). by apply elem_of_nil in Hx. }
  destruct c as [args|c0 f m d|a b|a b|c0]; [by apply Hsimple|by apply Hsimple| |by apply Hsimple|by apply Hsimple]. clear Hsimple.
  cbn [pr paren Nat.ltb Nat.leb] in Hs. destruct Hc as [Ha Hb]. rewrite <- app_assoc in Hs. cbn [app] in Hs. set (u := pr 1 b ++ r) in *.
  destruct (parseexec_print a s (BAR :: u) Ha) as (ta & Ea & Hda); [right; exists BAR, u; unfold enders; set_solver|done|done|]. mstep Ea.
  mstep (peek_at (str "|") (BAR :: u) (BAR :: u) (skip_symbol BAR u eq_refl)). cbn [head_char]. change (negb (BAR =? 0) && has (str "|") BAR) with true. cbv iota.
  mstep (gettoken_symbol BAR u _ (skip_symbol BAR u eq_refl) ltac:(set_solver)).
  pose proof (skip_shorter s (pr 0 a) BAR u eq_refl Hs).
  destruct (IH b (skip u) Hb Hr (skip_idem u)) as (tb & Eb & Hdb); [lia|lia|]. mstep Eb. exists (pipecmd ta tb). split; [done|]. cbn. by rewrite Hda, Hdb.
Qed.

(** The command below the ampersands. *)
Fixpoint unback (c : cmd (list Z)) : cmd (list Z) * nat :=
  match c with backcmd c => let '(b, n) := unback c in (b, S n) | _ => (c, O) end.

Lemma unback_spec c : let '(b, n) := unback c in c = Nat.iter n backcmd b /\ (wf c -> wf b) /\ pr 2 c = pr 1 b ++ replicate n AMP.
Proof.
  induction c as [argv|c IH f m d|l _ r _|l _ r _|c IH]; cbn [unback]; try (split; [done|]; split; [done|]; cbn; by rewrite app_nil_r).
  destruct (unback c) as [b n]. destruct IH as (-> & Hb & Hp). split; [done|]. split; [done|]. cbn [pr paren Nat.ltb Nat.leb]. rewrite Hp, <- app_assoc. f_equal.
  change [AMP] with (replicate 1 AMP). rewrite <- replicate_add. f_equal. lia.
Qed.

Lemma back_loop_print n fuel t s r :
  fol [RPAR; SEMI] r -> skip s = replicate n AMP ++ r -> (n < fuel)%nat -> back_loop fuel t s = Done (Nat.iter n backcmd t) r.
Proof.
  intros Hr. revert fuel t s. induction n as [|n IH]; intros fuel t s Hs Hf; (destruct fuel as [|fuel]; [lia|]); cbn [back_loop]; mstep (peek_at (str "&") s _ Hs).
  - cbn [replicate app]. destruct Hr as [->|(x & r' & -> & Hx)]; [done|]. repeat (apply elem_of_cons in Hx as [->|Hx]; [done|]). by apply elem_of_nil in Hx.
  - cbn [replicate app head_char]. change (negb (AMP =? 0) && has (str "&") AMP) with true. cbv iota.
    mstep (gettoken_symbol AMP (replicate n AMP ++ r) _ (skip_symbol AMP _ eq_refl) ltac:(set_solver)). rewrite (IH fuel (backcmd t)); [by rewrite <- Nat.iter_succ_r| |lia].
    rewrite skip_idem. destruct n; [|by apply skip_symbol]. destruct Hr as [->|(x & r' & -> & Hx)]; [done|]. repeat (apply elem_of_cons in Hx as [->|Hx]; [done|]). by apply elem_of_nil in Hx.
Qed.

Lemma iter_back_map n (t : cmd tok) : cmd_map den (Nat.iter n backcmd t) = Nat.iter n backcmd (cmd_map den t).
Proof. induction n as [|n IH]; [done|]. rewrite !Nat.iter_succ. cbn [cmd_map]. by rewrite IH. Qed.

Lemma parseback_print c s r :
  wf c -> fol [RPAR; SEMI] r -> skip s = skip (pr 2 c ++ r) -> (length s <= k)%nat -> exists t, parseback pl s = Done t r /\ cmd_map den t = c.
Proof.
  intros Hc Hr Hs Hl. pose proof (unback_spec c) as Hu. destruct (unback c) as [b n]. destruct Hu as (-> & Hb & Hp). rewrite Hp, <- app_assoc in Hs. set (u := replicate n AMP ++ r) in *.
  assert (Hu : fol [RPAR; AMP; SEMI] u).
  { subst u. destruct n; [|right; exists AMP, (replicate n AMP ++ r); set_solver]. destruct Hr as [->|(x & r' & -> & Hx)]; [by left|right; exists x, r'; set_solver]. }
  unfold parseback. rewrite bind_gets. destruct (parsepipe_print (S (length s)) b s u (Hb Hc) Hu Hs) as (t & E & Hd); [lia|done|]. mstep E. rewrite bind_gets.
  rewrite (back_loop_print n _ t u r Hr); [| |subst u; rewrite length_app, length_replicate; lia].
  - eexists. split; [done|]. by rewrite iter_back_map, Hd.
  - subst u. destruct Hu as [->|(x & r' & E' & Hx)]; [done|]. rewrite E'. apply skip_symbol. repeat (apply elem_of_cons in Hx as [->|Hx]; [done|]). by apply elem_of_nil in Hx.
Qed.
End Levels.

Lemma parseline_print fuel c r s :
  wf c -> fol [RPAR] r -> skip s = skip (pr 3 c ++ r) -> (length s < fuel)%nat -> exists t, parseline fuel s = Done t r /\ cmd_map den t = c.
Proof.
  revert c r s. induction fuel as [|fuel IH]; intros c r s Hc Hr Hs Hf; [lia|]. cbn [parseline].
  assert (Hr' : fol [RPAR; SEMI] r) by (destruct Hr as [->|(x & r' & -> & Hx)]; [by left|right; exists x, r'; set_solver]).
  assert (Hk : skip r = r) by (destruct Hr as [->|(x & r' & -> & Hx)]; [done|]; apply list_elem_of_singleton in Hx as ->; done).
  assert (Hsimple : pr 3 c = pr 2 c -> exists t, (c0 ← parseback (parseline fuel); b ← peek (str ";"); if (b : bool) then gettoken;; r0 ← parseline fuel; mret (listcmd c0 r0) else mret c0) s = Done t r /\ cmd_map den t = c).
  { intros Hp. rewrite Hp in Hs. destruct (parseback_print (parseline fuel) fuel IH c s r Hc Hr' Hs) as (t & E & Hd); [lia|]. mstep E. mstep (peek_at (str ";") r r Hk).
    exists t. split; [|done]. destruct Hr as [->|(x & r' & -> & Hx)]; [done|]. apply list_elem_of_singleton in Hx as ->. done. }
  destruct c as [args|c0 f m d|a b|a b|c0]; [by apply Hsimple|by apply Hsimple|by apply Hsimple| |by apply Hsimple]. clear Hsimple.
  cbn [pr paren Nat.ltb Nat.leb] in Hs. destruct Hc as [Ha Hb]. rewrite <- app_assoc in Hs. cbn [app] in Hs. set (u := pr 3 b ++ r) in *.
  destruct (parseback_print (parseline fuel) fuel IH a s (SEMI :: u) Ha) as (ta & Ea & Hda); [right; exists SEMI, u; set_solver|done|lia|]. mstep Ea.
  mstep (peek_at (str ";") (SEMI :: u) (SEMI :: u) (skip_symbol SEMI u eq_refl)). cbn [head_char]. change (negb (SEMI =? 0) && has (str ";") SEMI) with true. cbv iota.
  mstep (gettoken_symbol SEMI u _ (skip_symbol SEMI u eq_refl) ltac:(set_solver)). pose proof (skip_shorter s (pr 2 a) SEMI u eq_refl Hs).
  destruct (IH b r (skip u) Hb Hr (skip_idem u)) as (tb & Eb & Hdb); [lia|]. mstep Eb. exists (listcmd ta tb). split; [done|]. cbn. by rewrite Hda, Hdb.
Qed.

Lemma parsecmd_tree_print c : wf c -> exists t, parsecmd_tree (pr 3 c) = Done t [] /\ cmd_map den t = c.
Proof.
  intros Hc. unfold parsecmd_tree. rewrite bind_gets. destruct (parseline_print (S (length (pr 3 c))) c [] (pr 3 c) Hc) as (t & E & Hd); [by left|by rewrite app_nil_r|lia|].
  mstep E. by exists t.
Qed.
