(* ===== verification/ShNul.v ===== *)
(** * The shell's parser: counted strings and NUL-termination

    The words a command points to lie apart in the command line, so the NULs that
    [nulterminate] stores end every one of them and damage none. *)

From S2P Require Import Prelude Sysfile Grep Sh ShSpec.

(** The words of a command, in the order of [nulterminate]. *)
Fixpoint toks {T} (c : cmd T) : list T :=
  match c with
  | execcmd argv => argv
  | redircmd c file _ _ => toks c ++ [file]
  | pipecmd l r => toks l ++ toks r
  | listcmd l r => toks l ++ toks r
  | backcmd c => toks c
  end.

(** A word between [s] and [s']. *)
Record tok_in (s s' : list Z) (t : tok) : Prop := {
  ti_from : fst t `suffix_of` s;
  ti_end : snd t `suffix_of` fst t;
  ti_to : s' `suffix_of` snd t;
  ti_word : match fst t with c :: _ => has whitespace c || has symbols c = false | [] => False end;
  ti_stop : stops (snd t);
}.

(** The end of [x] is not inside [y]. *)
Definition sep (x y : tok) : Prop := (length (snd x) <= length (snd y))%nat \/ (length (fst y) <= length (snd x))%nat.

Definition seg (l : list tok) (s s' : list Z) : Prop := s' `suffix_of` s /\ (forall x, x ∈ l -> tok_in s s' x) /\ (forall x y, x ∈ l -> y ∈ l -> sep x y).

Lemma suffix_le {A} (a b : list A) : a `suffix_of` b -> (length a <= length b)%nat.
Proof. apply suffix_length. Qed.

Lemma seg_to l s s1 s2 : seg l s s1 -> s2 `suffix_of` s1 -> seg l s s2.
Proof. intros (H1 & H2 & H3) Hs. split; [by transitivity s1|]. split; [|done]. intros x Hx. destruct (H2 x Hx). split; try done. by transitivity s1. Qed.

Lemma seg_sub l l' s s' : seg l s s' -> l' ⊆ l -> seg l' s s'.
Proof. intros (H1 & H2 & H3) Hl. split; [done|]. split; auto. Qed.

Lemma seg_snoc l s s1 s2 t : seg l s s1 -> tok_in s1 s2 t -> seg (l ++ [t]) s s2.
Proof.
  intros (H1 & H2 & H3) Ht. pose proof Ht as [Hf He Hto Hw Hst]. assert (Hs2 : s2 `suffix_of` s1) by (transitivity (snd t); [done|]; by transitivity (fst t)).
  split; [by transitivity s1|]. split.
  - intros x [Hx|<-%list_elem_of_singleton]%elem_of_app; [|split; try done; by transitivity s1]. destruct (H2 x Hx). split; try done. by transitivity s1.
  - assert (Hsep : forall x, x ∈ l -> sep x t /\ sep t x).
    { intros x Hx. destruct (H2 x Hx) as [_ Hxe Hxt _ _]. apply suffix_le in Hf, He, Hxe, Hxt. unfold sep. lia. }
    intros x y [Hx|<-%list_elem_of_singleton]%elem_of_app [Hy|<-%list_elem_of_singleton]%elem_of_app; [by apply H3|by apply Hsep|by apply Hsep|by left].
Qed.

(** [m] turns words [l] up to the current position into the words [f a]. *)
Definition posts {A} (m : M (list Z) A) (l : list tok) (f : A -> list tok) : Prop :=
  forall s0 s, seg l s0 s -> match m s with Done a s' => seg (f a) s0 s' | _ => True end.

Lemma posts_bind {A B} (m : M (list Z) A) (k : A -> M (list Z) B) l f g : posts m l f -> (forall a, posts (k a) (f a) g) -> posts (m ≫= k) l g.
Proof. intros Hm Hk s0 s Hs. specialize (Hm s0 s Hs). unfold mbind, M_bind. destruct (m s) as [a s'| |]; [|done..]. by apply Hk. Qed.

Lemma posts_ret {A} (a : A) l f : f a ⊆ l -> posts (mret a) l f.
Proof. intros Hf s0 s Hs. by apply (seg_sub l). Qed.

Lemma posts_weaken {A} (m : M (list Z) A) l l' f g : posts m l' f -> l' ⊆ l -> (forall a, g a ⊆ f a) -> posts m l g.
Proof. intros Hm Hl Hg s0 s Hs. specialize (Hm s0 s (seg_sub _ _ _ _ Hs Hl)). destruct (m s); [|done..]. by apply (seg_sub _ _ _ _ Hm). Qed.

Lemma posts_gets {A B} (h : list Z -> A) (k : A -> M (list Z) B) l g : (forall a, posts (k a) l g) -> posts (gets h ≫= k) l g.
Proof. intros Hk s0 s Hs. by apply Hk. Qed.

Lemma posts_panic {A} msg l f : posts (panic msg : M (list Z) A) l f.
Proof. done. Qed.

Lemma skip_suffix s : skip s `suffix_of` s.
Proof. induction s as [|c s IH]; [done|]. cbn. case_match; [by apply suffix_cons_r|done]. Qed.

Lemma skip_word_suffix s : skip_word s `suffix_of` s.
Proof. induction s as [|c s IH]; [done|]. cbn. case_match; [done|by apply suffix_cons_r]. Qed.

Lemma skip_word_stops s : stops (skip_word s).
Proof. induction s as [|c s IH]; [done|]. cbn. destruct (_ || _) eqn:E; [done|]. done. Qed.

Lemma skip_not_white s c r : skip s = c :: r -> has whitespace c = false.
Proof. induction s as [|x s IH]; [done|]. cbn. destruct (has whitespace x) eqn:E; [done|]. by intros [= <- _]. Qed.

Lemma posts_peek ts l : posts (peek ts) l (fun _ => l).
Proof. intros s0 s Hs. cbn. apply (seg_to _ _ s); [done|apply skip_suffix]. Qed.

Lemma tail_suffix {A} (s : list A) : tail s `suffix_of` s.
Proof. destruct s; [done|by apply suffix_cons_r]. Qed.

Lemma token_suffix s : snd (token s) `suffix_of` s.
Proof.
  unfold token. repeat case_match; cbn; try apply tail_suffix; try done; [|apply skip_word_suffix]. transitivity (tail s); apply tail_suffix.
Qed.

Lemma posts_gettoken l : posts gettoken l (fun t => if fst t =? WORD then l ++ [snd t] else l).
Proof.
  intros s0 s Hs. unfold gettoken. destruct (token (skip s)) as [ret e] eqn:Et. cbn [fst snd]. pose proof (token_suffix (skip s)) as He. rewrite Et in He. cbn in He.
  pose proof (skip_suffix s). pose proof (skip_suffix e). destruct (Z.eqb_spec ret WORD) as [->|]; [|apply (seg_to _ _ s); [done|transitivity e; [done|by transitivity (skip s)]]].
  apply (seg_snoc _ _ s); [done|]. unfold token in Et. destruct (skip s) as [|c r] eqn:Es; [done|]. pose proof (skip_not_white _ _ _ Es) as Hc. cbn [head_char tail] in Et.
  destruct (c =? 0); [done|]. destruct (_ || _) eqn:Ey; [simplify_eq; done|]. destruct (Z.eqb_spec c GT); [repeat case_match; simplify_eq|]. simplify_eq.
  split; cbn [fst snd]; try done; [|apply skip_word_stops]. rewrite Hc, has_symbols. apply Z.eqb_neq in n. rewrite !orb_false_iff in Ey. destruct Ey as (((((-> & ->) & ->) & ->) & ->) & ->).
  by rewrite n.
Qed.

(** A token that is not kept. *)
Lemma posts_gettoken_drop {B} (k : M (list Z) B) l g : posts k l g -> posts (gettoken;; k) l g.
Proof. intros Hk. eapply posts_bind; [apply posts_gettoken|]. intros t. eapply posts_weaken; [apply Hk| |done]. case_match; set_solver. Qed.

Lemma posts_peek_if {B} ts (yes no : M (list Z) B) l g : posts yes l g -> posts no l g -> posts (b ← peek ts; if (b : bool) then yes else no) l g.
Proof. intros Hy Hn. eapply posts_bind; [apply posts_peek|]. by intros []. Qed.

Definition files (rs : list redir) : list tok := (fst ∘ fst) <$> rs.

Lemma redirs_loop_posts fuel l : posts (redirs_loop fuel) l (fun rs => l ++ files rs).
Proof.
  revert l. induction fuel as [|fuel IH]; intros l; [done|]. cbn [redirs_loop]. apply posts_peek_if; [|apply posts_ret; cbn; by rewrite app_nil_r].
  eapply posts_bind; [apply posts_gettoken|]. intros t. apply (posts_weaken _ _ l (fun rs => l ++ files rs) (fun rs => l ++ files rs)); [|case_match; set_solver|done].
  eapply posts_bind; [apply posts_gettoken|]. intros f. cbv beta. destruct (fst f =? WORD); cbn [negb]; [|apply posts_panic].
  eapply posts_bind; [apply IH|]. intros rs. apply posts_ret. intros x. unfold files.
  repeat case_match; rewrite ?fmap_cons, !elem_of_app, ?elem_of_cons, ?list_elem_of_singleton; tauto.
Qed.

Lemma redirs_posts l : posts redirs l (fun rs => l ++ files rs).
Proof. apply posts_gets. intros n. apply redirs_loop_posts. Qed.

Lemma args_loop_posts fuel argc l : posts (args_loop fuel argc) l (fun p => l ++ fst p ++ files (snd p)).
Proof.
  revert argc l. induction fuel as [|fuel IH]; intros argc l; [done|]. cbn [args_loop]. apply posts_peek_if; [apply posts_ret; cbn; by rewrite app_nil_r|].
  eapply posts_bind; [apply posts_gettoken|]. intros t. cbv beta. destruct (Z.eqb_spec (fst t) 0) as [E|_]; [rewrite E; apply posts_ret; cbn; by rewrite app_nil_r|].
  destruct (fst t =? WORD); cbn [negb]; [|apply posts_panic]. destruct (_ <=? _)%nat; [apply posts_panic|].
  eapply posts_bind; [apply redirs_posts|]. intros rs. eapply posts_bind; [apply IH|]. intros p. apply posts_ret. unfold files. cbn [fst snd]. rewrite fmap_app. set_solver.
Qed.

Lemma toks_redirs (c : cmd tok) rs : toks (foldl apply_redir c rs) ≡ₚ toks c ++ files rs.
Proof. revert c. induction rs as [|[[f m] d] rs IH]; intros c; [cbn; by rewrite app_nil_r|]. cbn [foldl]. rewrite IH. cbn. by rewrite <- app_assoc. Qed.

Lemma toks_redirs_sub (c : cmd tok) rs l : toks c ⊆ l -> files rs ⊆ l -> toks (foldl apply_redir c rs) ⊆ l.
Proof. intros H1 H2 x. rewrite toks_redirs. set_solver. Qed.

Lemma parsewords_posts l : posts parsewords l (fun c => l ++ toks c).
Proof.
  eapply posts_bind; [apply redirs_posts|]. intros rs. apply posts_gets. intros n. eapply posts_bind; [apply args_loop_posts|]. intros p. apply posts_ret.
  apply list_subseteq_app_iff_l. split; [set_solver|]. apply toks_redirs_sub; cbn; [set_solver|]. unfold files. rewrite fmap_app. set_solver.
Qed.

Lemma back_loop_posts fuel c l : toks c ⊆ l -> posts (back_loop fuel c) l (fun c => l ++ toks c).
Proof.
  revert c. induction fuel as [|fuel IH]; intros c Hc; [done|]. cbn [back_loop]. apply posts_peek_if; [|apply posts_ret; set_solver].
  apply posts_gettoken_drop. by apply IH.
Qed.

Section Levels.
Variable pl : M (list Z) (cmd tok).
Hypothesis pl_posts : forall l, posts pl l (fun c => l ++ toks c).

Lemma parseexec_posts l : posts (parseexec pl) l (fun c => l ++ toks c).
Proof.
  apply posts_peek_if; [|apply parsewords_posts]. unfold parseblock. eapply posts_bind; [apply posts_peek|]. intros []; [|apply posts_panic]. cbn [negb].
  apply posts_gettoken_drop. eapply posts_bind; [apply pl_posts|]. intros c. eapply posts_bind; [apply posts_peek|]. intros []; [|apply posts_panic]. cbn [negb].
  apply posts_gettoken_drop. eapply posts_bind; [apply redirs_posts|]. intros rs. apply posts_ret. apply list_subseteq_app_iff_l. split; [set_solver|].
  apply toks_redirs_sub; set_solver.
Qed.

Lemma parsepipe_posts fuel l : posts (parsepipe pl fuel) l (fun c => l ++ toks c).
Proof.
  revert l. induction fuel as [|fuel IH]; intros l; [done|]. cbn [parsepipe]. eapply posts_bind; [apply parseexec_posts|]. intros c.
  apply posts_peek_if; [|apply posts_ret; set_solver]. apply posts_gettoken_drop. eapply posts_bind; [apply IH|]. intros r. apply posts_ret. cbn. set_solver.
Qed.

Lemma parseback_posts l : posts (parseback pl) l (fun c => l ++ toks c).
Proof.
  apply posts_gets. intros n. eapply posts_bind; [apply parsepipe_posts|]. intros c. apply posts_gets. intros n'.
  eapply posts_weaken; [apply (back_loop_posts _ c (l ++ toks c)); set_solver|done|]. set_solver.
Qed.
End Levels.

Lemma parseline_posts fuel l : posts (parseline fuel) l (fun c => l ++ toks c).
Proof.
  revert l. induction fuel as [|fuel IH]; intros l; [done|]. cbn [parseline]. eapply posts_bind; [apply parseback_posts, IH|]. intros c.
  apply posts_peek_if; [|apply posts_ret; set_solver]. apply posts_gettoken_drop. eapply posts_bind; [apply IH|]. intros r. apply posts_ret. cbn. set_solver.
Qed.

Lemma parsecmd_tree_seg s c e : parsecmd_tree s = Done c e -> seg (toks c) s e.
Proof.
  intros E. assert (Hp : posts parsecmd_tree [] toks).
  { apply posts_gets. intros n. eapply posts_bind; [apply parseline_posts|]. intros c'. eapply posts_bind; [apply posts_peek|]. intros b. by apply posts_ret. }
  specialize (Hp s s). rewrite E in Hp. apply Hp. split; [done|]. split; [intros x Hx|intros x y Hx]; by apply elem_of_nil in Hx.
Qed.

(** ** The strings after [nulterminate] *)

Lemma nulterminate_all n c buf : nulterminate n c buf = foldl (fun buf t => put_nul n (snd t) buf) buf (toks c).
Proof.
  revert buf. induction c as [argv|c IH f m d|l IHl r IHr|l IHl r IHr|c IH]; intros buf; cbn [nulterminate toks]; rewrite ?foldl_app; [done|by rewrite IH|by rewrite IHl, IHr..|by rewrite IH].
Qed.

Lemma length_puts n (l : list tok) buf : length (foldl (fun buf t => put_nul n (snd t) buf) buf l) = length buf.
Proof. revert buf. induction l as [|t l IH]; intros buf; [done|]. cbn. rewrite IH. apply length_insert. Qed.

Lemma lookup_puts_ne n (l : list tok) buf i : (forall t, t ∈ l -> pos n (snd t) <> i) -> foldl (fun buf t => put_nul n (snd t) buf) buf l !! i = buf !! i.
Proof.
  revert buf. induction l as [|t l IH]; intros buf Hi; [done|]. cbn. rewrite IH by set_solver. apply list_lookup_insert_ne. apply Hi. left.
Qed.

Lemma lookup_puts_eq n (l : list tok) buf t : t ∈ l -> (pos n (snd t) < length buf)%nat -> foldl (fun buf t => put_nul n (snd t) buf) buf l !! pos n (snd t) = Some 0.
Proof.
  revert buf t. induction l as [|x l IH]; intros buf t Ht Hl; [by apply elem_of_nil in Ht|]. cbn.
  destruct (decide (Exists (fun y => pos n (snd y) = pos n (snd t)) l)) as [(y & Hy & E)%list.Exists_exists|Hn].
  - rewrite <- E. apply IH; [done|]. unfold put_nul. rewrite length_insert. lia.
  - apply elem_of_cons in Ht as [->|Ht]; [|destruct Hn; apply list.Exists_exists; eauto].
    rewrite lookup_puts_ne; [by apply list_lookup_insert_eq|]. intros y Hy E. apply Hn. apply list.Exists_exists. eauto.
Qed.

Lemma cstring_lookup w l : Forall (fun c => c <> 0) w -> (forall i, (i < length w)%nat -> l !! i = w !! i) -> l !! length w = Some 0 -> cstring l = w.
Proof.
  intros Hw. revert l. induction Hw as [|c w Hc _ IH]; intros l Hl H0.
  - destruct l as [|x l]; [done|]. cbn in H0. simplify_eq. done.
  - pose proof (Hl 0%nat ltac:(cbn; lia)) as E. destruct l as [|x l]; [done|]. cbn in E. simplify_eq. cbn. apply Z.eqb_neq in Hc as ->. f_equal. apply IH; [|done].
    intros i Hi. apply (Hl (S i)). cbn. lia.
Qed.

Lemma strings_terminated s c e t :
  Forall (fun c => c <> 0) s -> parsecmd_tree s = Done c e -> t ∈ toks c -> string_at (length s) (nulterminate (length s) c (s ++ [0])) t = den t.
Proof.
  intros Hs E Ht. apply parsecmd_tree_seg in E as (_ & Hin & Hsep). pose proof (Hin t Ht) as [(p & Es) (w & Eq) _ Hw Hst].
  unfold string_at, den. rewrite nulterminate_all. set (buf := foldl _ _ _). destruct t as [q f]. cbn [fst snd] in *. subst s q.
  replace (length (w ++ f) - length f)%nat with (length w) by (rewrite length_app; lia). rewrite take_app_length.
  assert (Hp : pos (length (p ++ w ++ f)) (w ++ f) = length p) by (unfold pos; rewrite !length_app; lia). rewrite Hp.
  rewrite !Forall_app in Hs. destruct Hs as (_ & Hw0 & _). apply cstring_lookup; [done| |].
  - intros i Hi. rewrite lookup_drop. subst buf. rewrite lookup_puts_ne.
    + rewrite <- !app_assoc. rewrite lookup_app_r by lia. replace (length p + i - length p)%nat with i by lia. by apply lookup_app_l.
    + intros [q' f'] Ht' E. unfold pos in E. cbn [fst snd] in E. pose proof (Hin _ Ht') as [Hf' He' _ Hw' Hst']. cbn [fst snd] in *. pose proof (suffix_le _ _ Hf'). pose proof (suffix_le _ _ He').
      rewrite !length_app in *. destruct (Hsep _ _ Ht' Ht) as [Hx|Hx]; cbn [fst snd] in Hx; rewrite ?length_app in Hx; [lia|].
      assert (Hi0 : i = 0%nat /\ length f' = (length w + length f)%nat) by lia. destruct Hi0 as [-> Hlf].
      assert (Ef : f' = w ++ f).
      { assert (Hsf : f' `suffix_of` p ++ w ++ f) by (by transitivity q'). destruct Hsf as (p' & Ep). apply (f_equal (drop (length p))) in Ep as Ed. rewrite drop_app_length in Ed.
        assert (length p' = length p) by (apply (f_equal length) in Ep; rewrite !length_app in Ep; lia). replace (length p) with (length p') in Ed by done. by rewrite drop_app_length in Ed. }
      subst f'. destruct w as [|x w]; [cbn in Hi; lia|]. cbn in Hw, Hst'. congruence.
  - rewrite lookup_drop. subst buf. replace (length p + length w)%nat with (pos (length (p ++ w ++ f)) (snd (w ++ f, f))) by (unfold pos; cbn; rewrite !length_app; lia).
    apply lookup_puts_eq; [done|]. unfold pos. cbn. rewrite !length_app. cbn. lia.
Qed.

Lemma cmd_map_ext {A B} (f g : A -> B) c : (forall t, t ∈ toks c -> f t = g t) -> cmd_map f c = cmd_map g c.
Proof.
  induction c as [argv|c IH file m d|l IHl r IHr|l IHl r IHr|c IH]; cbn [cmd_map toks]; intros H; f_equal; auto; try (apply IHl || apply IHr || apply IH || apply H; set_solver).
  apply list_fmap_ext. intros i x Hx. apply H. by apply list_elem_of_lookup_2 in Hx.
Qed.

Lemma parsecmd_strings s c : Forall (fun c => c <> 0) s -> parsecmd_tree s = Done c [] -> parsecmd s = Done (cmd_map den c) [].
Proof. intros Hs E. unfold parsecmd. rewrite E. f_equal. apply cmd_map_ext. intros t Ht. by apply (strings_terminated s c [] t Hs E). Qed.
