(* ===== verification/ShProps.v ===== *)
(** * The shell: what it parses and what it runs *)

From S2P Require Import Prelude Sysfile Grep Sh ShSpec ShNul.

(** [wf], decided. *)
Definition word_b (w : list Z) : bool := negb (bool_decide (w = [])) && forallb (fun c => negb (c =? 0) && negb (has whitespace c) && negb (has symbols c)) w.

Fixpoint wf_b (c : cmd (list Z)) : bool :=
  match c with
  | execcmd argv => (length argv <? MAXARGS)%nat && forallb word_b argv
  | redircmd c file mode fd => wf_b c && word_b file && bool_decide ((mode, fd) ∈ [(O_RDONLY, 0); (O_CREATE_TRUNC, 1); (O_APPENDING, 1)])
  | pipecmd l r => wf_b l && wf_b r
  | listcmd l r => wf_b l && wf_b r
  | backcmd c => wf_b c
  end.

Lemma word_checked w : word_b w = true -> word w.
Proof.
  intros [H1 H2]%andb_true_iff. apply negb_true_iff, bool_decide_eq_false in H1. split; [done|]. apply list.Forall_forall. intros c Hc. rewrite forallb_forall in H2.
  apply list_elem_of_In, H2 in Hc. apply andb_true_iff in Hc as [[Ha Hb]%andb_true_iff Hc]. apply negb_true_iff in Ha, Hb, Hc. by apply Z.eqb_neq in Ha.
Qed.

Lemma wf_checked c : wf_b c = true -> wf c.
Proof.
  induction c as [argv|c IH f m d|l IHl r IHr|l IHl r IHr|c IH]; cbn [wf wf_b]; rewrite ?andb_true_iff; [| |tauto|tauto|tauto].
  2: { intros [[Hc Hf] Hm]. split; [by apply IH|]. split; [by apply word_checked|]. by apply bool_decide_eq_true in Hm. }
  - intros [Hl Hw]. split; [by apply Nat.ltb_lt|]. apply list.Forall_forall. intros w Hin. rewrite forallb_forall in Hw. apply list_elem_of_In in Hin. apply word_checked. by apply Hw.
Qed.

Lemma word_nonzero w : word w -> Forall (fun c => c <> 0) w.
Proof. intros [_ Hw]. eapply list.Forall_impl; [exact Hw|]. by intros c (? & _). Qed.

Lemma pr_nonzero lvl c : wf c -> Forall (fun c => c <> 0) (pr lvl c).
Proof.
  revert lvl. induction c as [argv|c IH f m d|l IHl r IHr|l IHl r IHr|c IH]; intros lvl Hwf; cbn [pr].
  - destruct Hwf as [_ Hw]. unfold pr_words. induction Hw as [|w argv Hw _ IH]; [constructor|]. cbn. constructor; [done|]. apply Forall_app. split; [by apply word_nonzero|done].
  - destruct Hwf as [Hc [Hf _]]. apply Forall_app. split; [by apply IH|]. apply word_nonzero in Hf. cbn [fst] in Hf. unfold pr_redir. repeat case_match; by repeat constructor.
  - destruct Hwf as [Hl Hr]. assert (H : Forall (fun c => c <> 0) (pr 0 l ++ BAR :: pr 1 r)) by (apply Forall_app; split; [by apply IHl|constructor; [done|by apply IHr]]).
    unfold paren. case_match; [|done]. constructor; [done|]. apply Forall_app. split; [done|by repeat constructor].
  - destruct Hwf as [Hl Hr]. assert (H : Forall (fun c => c <> 0) (pr 2 l ++ SEMI :: pr 3 r)) by (apply Forall_app; split; [by apply IHl|constructor; [done|by apply IHr]]).
    unfold paren. case_match; [|done]. constructor; [done|]. apply Forall_app. split; [done|by repeat constructor].
  - assert (H : Forall (fun c => c <> 0) (pr 2 c ++ [AMP])) by (apply Forall_app; split; [by apply IH|by repeat constructor]).
    unfold paren. case_match; [|done]. constructor; [done|]. apply Forall_app. split; [done|by repeat constructor].
Qed.

Lemma parse_print c : wf c -> parsecmd (pr 3 c) = Done c [].
Proof.
  intros Hc. destruct (parsecmd_tree_print c Hc) as (t & E & Hd). rewrite (parsecmd_strings _ t (pr_nonzero 3 c Hc) E). by rewrite Hd.
Qed.

(** C35: the shell reads back what is printed: for every command the syntax can express, that is
    with at most nine arguments each, of characters that are neither white space nor
    symbols, parsecmd of the command's text, NUL-termination included, gives the command. *)
Theorem shell_parse_roundtrip c : wf c -> parsecmd (pr 3 c) = Done c [].
Proof. apply parse_print. Qed.

(** [(cat < in | grep x >> out ; echo y &)] *)
Definition demo_cmd : cmd (list Z) :=
  listcmd (pipecmd (redircmd (execcmd [str "cat"]) (str "in") O_RDONLY 0) (redircmd (execcmd [str "grep"; str "x"]) (str "out") O_APPENDING 1))
    (backcmd (execcmd [str "echo"; str "y"])).

Lemma shell_parse_roundtrip_witness : pr 3 demo_cmd = str " cat<in| grep x>>out; echo y&" /\ parsecmd (str " cat<in| grep x>>out; echo y&") = Done demo_cmd [].
Proof. split; [reflexivity|]. apply (shell_parse_roundtrip demo_cmd). apply wf_checked. vm_compute. reflexivity. Defined.

(** Parsing ends for every line, with a command or an error, and the NULs that
    nulterminate stores end each word of the command and damage none: read as C strings,
    the words are the counted ones. *)
Theorem shell_parse_total s :
  Forall (fun c => c <> 0) s -> parsecmd s <> Hang /\ forall c, parsecmd_tree s = Done c [] -> parsecmd s = Done (cmd_map den c) [].
Proof. intros Hs. split; [apply parsecmd_ends|]. intros c. by apply parsecmd_strings. Qed.

Lemma shell_parse_total_witness : parsecmd (str "a;(b|c)>d") = Done (listcmd (execcmd [str "a"]) (redircmd (pipecmd (execcmd [str "b"]) (execcmd [str "c"])) (str "d") O_CREATE_TRUNC 1)) [].
Proof.
  destruct (parsecmd_tree (str "a;(b|c)>d")) as [c [|]| |] eqn:E; [|vm_compute in E; discriminate..].
  rewrite (proj2 (shell_parse_total (str "a;(b|c)>d") ltac:(vm_compute; repeat constructor; congruence)) c E). vm_compute in E. injection E as <-. vm_compute. reflexivity.
Defined.

(** ** What a command runs

    Descriptors refer to the terminal, to files or to the ends of pipes.  [execs p σ argv σ']:
    some process that [p], started with the descriptors [σ], makes execs [argv] with [σ'].  System
    calls may fail; a descriptor is the lowest that is free. *)

Inductive obj := Tty | OFile (name : list Z) (mode : Z) | PipeR (i : nat) | PipeW (i : nat).

Definition fdtable : Type := gmap Z obj.

Definition lowest (σ : fdtable) (n : Z) : Prop := 0 <= n /\ σ !! n = None /\ forall m, 0 <= m < n -> is_Some (σ !! m).

Inductive execs : prog -> fdtable -> list (list Z) -> fdtable -> Prop :=
| x_exec argv p σ : execs (PExec argv p) σ argv σ
| x_exec_fails argv p σ a σ' : execs p σ a σ' -> execs (PExec argv p) σ a σ'
| x_close fd k σ a σ' : is_Some (σ !! fd) -> execs (k 0) (delete fd σ) a σ' -> execs (PClose fd k) σ a σ'
| x_close_fails fd k σ a σ' : σ !! fd = None -> execs (k (-1)) σ a σ' -> execs (PClose fd k) σ a σ'
| x_open f m k n σ a σ' : lowest σ n -> execs (k n) (<[n := OFile f m]> σ) a σ' -> execs (POpen f m k) σ a σ'
| x_open_fails f m k σ a σ' : execs (k (-1)) σ a σ' -> execs (POpen f m k) σ a σ'
| x_dup fd k o n σ a σ' : σ !! fd = Some o -> lowest σ n -> execs (k n) (<[n := o]> σ) a σ' -> execs (PDup fd k) σ a σ'
| x_dup_fails fd k σ a σ' : σ !! fd = None -> execs (k (-1)) σ a σ' -> execs (PDup fd k) σ a σ'
| x_pipe i k n m σ a σ' : (forall fd, σ !! fd <> Some (PipeR i) /\ σ !! fd <> Some (PipeW i)) -> lowest σ n -> lowest (<[n := PipeR i]> σ) m ->
    execs (k (Some (n, m))) (<[m := PipeW i]> (<[n := PipeR i]> σ)) a σ' -> execs (PPipe k) σ a σ'
| x_pipe_fails k σ a σ' : execs (k None) σ a σ' -> execs (PPipe k) σ a σ'
| x_child k σ a σ' : execs (k 0) σ a σ' -> execs (PFork k) σ a σ'
| x_parent pid k σ a σ' : 0 < pid -> execs (k pid) σ a σ' -> execs (PFork k) σ a σ'
| x_fork_fails k σ a σ' : execs (k (-1)) σ a σ' -> execs (PFork k) σ a σ'
| x_wait p σ a σ' : execs p σ a σ' -> execs (PWait p) σ a σ'
| x_write fd t p σ a σ' : execs p σ a σ' -> execs (PWrite fd t p) σ a σ'
| x_read r k σ a σ' : execs (k r) σ a σ' -> execs (PRead k) σ a σ'
| x_chdir f r k σ a σ' : execs (k r) σ a σ' -> execs (PChdir f k) σ a σ'.

(** Standard input, output and error, and nothing else. *)
Definition std (i o e : obj) : fdtable := <[0 := i]> (<[1 := o]> (<[2 := e]> ∅)).

Definition new_pipe (n : nat) (i o e : obj) : Prop := Forall (fun x => x <> PipeR n /\ x <> PipeW n) [i; o; e].

(** The simple commands of [c] and their standard descriptors, when [c] has [i], [o] and [e]. *)
Inductive places : cmd (list Z) -> obj -> obj -> obj -> list (list Z) -> fdtable -> Prop :=
| p_exec a argv i o e : places (execcmd (a :: argv)) i o e (a :: argv) (std i o e)
| p_in c f m i o e a σ : places c (OFile f m) o e a σ -> places (redircmd c f m 0) i o e a σ
| p_out c f m i o e a σ : places c i (OFile f m) e a σ -> places (redircmd c f m 1) i o e a σ
| p_left l r n i o e a σ : new_pipe n i o e -> places l i (PipeW n) e a σ -> places (pipecmd l r) i o e a σ
| p_right l r n i o e a σ : new_pipe n i o e -> places r (PipeR n) o e a σ -> places (pipecmd l r) i o e a σ
| p_first l r i o e a σ : places l i o e a σ -> places (listcmd l r) i o e a σ
| p_second l r i o e a σ : places r i o e a σ -> places (listcmd l r) i o e a σ
| p_back c i o e a σ : places c i o e a σ -> places (backcmd c) i o e a σ.

Lemma lowest_unique σ n m : lowest σ n -> lowest σ m -> n = m.
Proof.
  intros (Hn & Hn' & Hn'') (Hm & Hm' & Hm''). destruct (Z.lt_trichotomy n m) as [H|[H|H]]; [|done|].
  - destruct (Hm'' n) as [x Hx]; [lia|]. congruence.
  - destruct (Hn'' m) as [x Hx]; [lia|]. congruence.
Qed.

Lemma lowest_3 i o e : lowest (std i o e) 3.
Proof. split; [lia|]. split; [done|]. intros m Hm. assert (m = 0 \/ m = 1 \/ m = 2) as [->|[->| ->]] by lia; by eexists. Qed.

Lemma lowest_4 i o e x : lowest (<[3 := x]> (std i o e)) 4.
Proof. split; [lia|]. split; [done|]. intros m Hm. assert (m = 0 \/ m = 1 \/ m = 2 \/ m = 3) as [->|[->|[->| ->]]] by lia; by eexists. Qed.

Lemma lowest_0 σ : σ !! 0 = None -> lowest σ 0.
Proof. intros H. split; [lia|]. split; [done|]. lia. Qed.

Lemma lowest_1 σ : σ !! 1 = None -> is_Some (σ !! 0) -> lowest σ 1.
Proof. intros H H0. split; [lia|]. split; [done|]. intros m Hm. by replace m with 0 by lia. Qed.

Lemma fresh_std n i o e : (forall fd, std i o e !! fd <> Some (PipeR n) /\ std i o e !! fd <> Some (PipeW n)) <-> new_pipe n i o e.
Proof.
  unfold new_pipe. rewrite !list.Forall_cons. split.
  - intros H. pose proof (H 0) as [H0 H0']. pose proof (H 1) as [H1 H1']. pose proof (H 2) as [H2 H2']. cbn in *. naive_solver.
  - intros ((H0 & H0') & (H1 & H1') & (H2 & H2') & _) fd. unfold std.
    split; intros E; (apply lookup_insert_Some in E as [[_ ?]|[_ E]]; [congruence|]; apply lookup_insert_Some in E as [[_ ?]|[_ E]]; [congruence|];
      apply lookup_insert_Some in E as [[_ ?]|[_ E]]; [congruence|]; by apply lookup_empty_Some in E).
Qed.

(** ** Forward: what runs is what the command says *)

Ltac step_in H := inversion H; subst; clear H.

(** The hypothesis about what runs next. *)
Tactic Notation "next" "as" ident(N) := match goal with H : execs _ _ _ _ |- _ => rename H into N end.

Lemma panic_runs_nothing s σ a σ' : ~ execs (sh_panic s) σ a σ'.
Proof. intros H. step_in H. match goal with H : execs (PExit _) _ _ _ |- _ => inversion H end. Qed.

Lemma exit_runs_nothing n σ a σ' : ~ execs (PExit n) σ a σ'.
Proof. intros H. inversion H. Qed.

Lemma fork1_inv c p σ a σ' : execs (fork1 c p) σ a σ' -> execs c σ a σ' \/ execs p σ a σ'.
Proof.
  intros H. step_in H; next as Hx; [by left| |by apply panic_runs_nothing in Hx]. right. destruct (Z.eqb_spec pid (-1)); [lia|]. destruct (Z.eqb_spec pid 0); [lia|done].
Qed.

Lemma close_inv fd k σ a σ' : is_Some (σ !! fd) -> execs (PClose fd k) σ a σ' -> execs (k 0) (delete fd σ) a σ'.
Proof. intros [x Hx] H. step_in H; [done|congruence]. Qed.

Lemma dup_inv fd k o n σ a σ' : σ !! fd = Some o -> lowest σ n -> execs (PDup fd k) σ a σ' -> execs (k n) (<[n := o]> σ) a σ'.
Proof. intros Ho Hn H. step_in H; [|congruence]. simplify_eq. match goal with H : lowest σ ?m |- _ => by rewrite (lowest_unique _ _ _ Hn H) end. Qed.

(** The table in the two children of a pipeline. *)
Definition piped (n : nat) (i o e : obj) : fdtable := <[4 := PipeW n]> (<[3 := PipeR n]> (std i o e)).

Lemma left_table n i o e : delete 4 (delete 3 (<[1 := PipeW n]> (delete 1 (piped n i o e)))) = std i (PipeW n) e.
Proof. reflexivity. Qed.

Lemma right_table n i o e : delete 4 (delete 3 (<[0 := PipeR n]> (delete 0 (piped n i o e)))) = std (PipeR n) o e.
Proof. reflexivity. Qed.

Lemma left_child n i o e p a σ' :
  execs (PClose 1 (fun _ => PDup 4 (fun _ => PClose 3 (fun _ => PClose 4 (fun _ => p))))) (piped n i o e) a σ' <-> execs p (std i (PipeW n) e) a σ'.
Proof.
  split.
  - intros H. apply close_inv in H; [|by eexists]. apply (dup_inv _ _ (PipeW n) 1) in H; [|done|apply lowest_1; [done|by eexists]].
    apply close_inv in H; [|by eexists]. apply close_inv in H; [|by eexists]. by rewrite left_table in H.
  - intros H. apply x_close; [by eexists|]. eapply x_dup; [done|apply lowest_1; [done|by eexists]|]. apply x_close; [by eexists|]. apply x_close; [by eexists|]. by rewrite left_table.
Qed.

Lemma right_child n i o e p a σ' :
  execs (PClose 0 (fun _ => PDup 3 (fun _ => PClose 3 (fun _ => PClose 4 (fun _ => p))))) (piped n i o e) a σ' <-> execs p (std (PipeR n) o e) a σ'.
Proof.
  split.
  - intros H. apply close_inv in H; [|by eexists]. apply (dup_inv _ _ (PipeR n) 0) in H; [|done|by apply lowest_0].
    apply close_inv in H; [|by eexists]. apply close_inv in H; [|by eexists]. by rewrite right_table in H.
  - intros H. apply x_close; [by eexists|]. eapply x_dup; [done|by apply lowest_0|]. apply x_close; [by eexists|]. apply x_close; [by eexists|]. by rewrite right_table.
Qed.

Lemma parent_ends n i o e a σ' : ~ execs (PClose 3 (fun _ => PClose 4 (fun _ => PWait (PWait (PExit 0))))) (piped n i o e) a σ'.
Proof. intros H. apply close_inv in H; [|by eexists]. apply close_inv in H; [|by eexists]. step_in H. next as Hx. step_in Hx. next as Hx. by apply exit_runs_nothing in Hx. Qed.

(** Redirecting standard input or output. *)
Lemma redir_runs f m fd p q i o e a σ' :
  fd = 0 \/ fd = 1 ->
  execs (PClose fd (fun _ => POpen f m (fun r => if r <? 0 then PWrite 2 q (PExit 1) else p))) (std i o e) a σ' <->
  execs p (if fd =? 0 then std (OFile f m) o e else std i (OFile f m) e) a σ'.
Proof.
  intros Hfd. set (σ1 := delete fd (std i o e)).
  assert (Hlow : lowest σ1 fd) by (subst σ1; destruct Hfd as [->| ->]; [by apply lowest_0|apply lowest_1; [done|by eexists]]).
  assert (Htab : <[fd := OFile f m]> σ1 = if fd =? 0 then std (OFile f m) o e else std i (OFile f m) e) by (subst σ1; by destruct Hfd as [->| ->]).
  assert (Hneg : (fd <? 0) = false) by (by destruct Hfd as [->| ->]).
  assert (Hopen : is_Some (std i o e !! fd)) by (destruct Hfd as [->| ->]; by eexists). split.
  - intros H. apply close_inv in H; [|done]. fold σ1 in H. step_in H.
    + next as Hx. match goal with H : lowest σ1 ?n |- _ => pose proof (lowest_unique _ _ _ Hlow H) as <- end. by rewrite Hneg, Htab in Hx.
    + next as Hx. cbn in Hx. step_in Hx. next as Hx. by apply exit_runs_nothing in Hx.
  - intros H. apply x_close; [done|]. fold σ1. apply (x_open _ _ _ fd); [done|]. rewrite Hneg, Htab. done.
Qed.

Lemma runcmd_places c i o e a σ' : wf c -> execs (runcmd c) (std i o e) a σ' <-> places c i o e a σ'.
Proof.
  revert i o e. induction c as [argv|c IH f m d|l IHl r IHr|l IHl r IHr|c IH]; intros i o e Hwf; cbn [runcmd].
  - destruct argv as [|x argv]; split; intros H; step_in H; [constructor| |constructor]. next as Hx. step_in Hx. next as Hx. by apply exit_runs_nothing in Hx.
  - destruct Hwf as [Hc [_ Hd]]. cbn [fst snd] in Hd.
    assert (Hfd : d = 0 \/ d = 1) by (repeat (apply elem_of_cons in Hd as [[= _ ->]|Hd]; [tauto|]); by apply elem_of_nil in Hd). rewrite redir_runs by done.
    destruct Hfd as [->| ->]; cbn [Z.eqb]; rewrite IH by done; (split; intros H; [by constructor|by step_in H]).
  - destruct Hwf as [Hl Hr]. split.
    + intros H. step_in H; next as Hx; [|by apply panic_runs_nothing in Hx]. match goal with H : forall fd, _ |- _ => apply fresh_std in H end.
      match goal with H : lowest (std _ _ _) _ |- _ => pose proof (lowest_unique _ _ _ H (lowest_3 i o e)) as -> end.
      match goal with H : lowest (<[3 := _]> _) _ |- _ => pose proof (lowest_unique _ _ _ H (lowest_4 i o e _)) as -> end.
      change (<[4 := PipeW i0]> (<[3 := PipeR i0]> (std i o e))) with (piped i0 i o e) in Hx. apply fork1_inv in Hx as [H|[H|H]%fork1_inv]; [apply left_child, IHl in H; [|done]; by apply (p_left _ _ i0)|apply right_child, IHr in H; [|done]; by apply (p_right _ _ i0)|by apply parent_ends in H].
    + intros H. step_in H; (eapply (x_pipe n); [by apply fresh_std|apply lowest_3|apply lowest_4|]); change (<[4 := PipeW n]> (<[3 := PipeR n]> (std i o e))) with (piped n i o e).
      * apply x_child. cbn. apply left_child. by apply IHl.
      * apply (x_parent 1); [lia|]. cbn. apply x_child. cbn. apply right_child. by apply IHr.
  - destruct Hwf as [Hl Hr]. split.
    + intros [H|H]%fork1_inv; [apply p_first; by apply IHl|]. step_in H. apply p_second. by apply IHr.
    + intros H. step_in H; [apply x_child; cbn; by apply IHl|]. apply (x_parent 1); [lia|]. cbn. apply x_wait. by apply IHr.
  - split.
    + intros [H|H]%fork1_inv; [apply p_back; by apply IH|by apply exit_runs_nothing in H].
    + intros H. step_in H. apply x_child. cbn. by apply IH.
Qed.

Lemma places_std c i o e a σ : places c i o e a σ -> exists i' o', σ = std i' o' e.
Proof. induction 1; eauto. Qed.

(** C36: a line runs what it says.  The programs that the child for a line execs, whatever
    system calls fail, are the simple commands of the line, each with exactly three
    descriptors: those its redirections and pipes name, and the terminal's otherwise.  No
    process keeps another end of a pipe, so readers see the end of their input. *)
Theorem shell_runs_line c i o e argv σ' :
  wf c -> (execs (run_line (pr 3 c)) (std i o e) argv σ' <-> places c i o e argv σ') /\ (places c i o e argv σ' -> exists i' o', σ' = std i' o' e).
Proof. intros Hc. split; [|apply places_std]. unfold run_line. rewrite parse_print by done. by apply runcmd_places. Qed.

(** [echo hi | cat > out] *)
Lemma shell_runs_line_witness : execs (run_line (str " echo hi| cat>out")) (std Tty Tty Tty) [str "cat"] (std (PipeR 7) (OFile (str "out") O_CREATE_TRUNC) Tty).
Proof.
  set (c := pipecmd (execcmd [str "echo"; str "hi"]) (redircmd (execcmd [str "cat"]) (str "out") O_CREATE_TRUNC 1)).
  change (str " echo hi| cat>out") with (pr 3 c). apply (shell_runs_line c).
  - apply wf_checked. vm_compute. reflexivity.
  - apply (p_right _ _ 7); [by repeat constructor|]. apply p_out. apply p_exec.
Defined.
