(* ===== verification/Exec.v ===== *)
(** * Running a program, [kernel/exec.c] and [kernel/elf.h]

    [exec] of the running process.  Files are read through the file system of [Fs], the new
    image is built in physical memory, and the process changes at the end only. *)

From S2P Require Import Prelude Mem CString Riscv Kalloc Vm Pipe Block Sleeplock Bio Log Fs FsBlocks File Proc.

(** ** ELF *)

Definition ELF_MAGIC : Z := 0x464C457F.
Definition ELF_PROG_LOAD : Z := 1.
Definition MAXARG : nat := 32.

(** The little-endian field of [n] bytes at offset [off] of a struct. *)
Definition field (bs : list Z) (off n : Z) : Z := foldr (fun b acc => b + 256 * acc) 0 (slice bs off n).

(** [struct elfhdr]: the fields [exec] uses. *)
Record elfhdr := ElfHdr { e_magic : Z; e_entry : Z; e_phoff : Z; e_phnum : Z }.
Definition sizeof_elfhdr : Z := 64.
Definition elfhdr_of (bs : list Z) : elfhdr := ElfHdr (field bs 0 4) (field bs 24 8) (field bs 32 8) (field bs 56 2).

(** [struct proghdr] *)
Record proghdr := ProgHdr { ph_type : Z; ph_flags : Z; ph_off : Z; ph_vaddr : Z; ph_filesz : Z; ph_memsz : Z }.
Definition sizeof_proghdr : Z := 56.
Definition proghdr_of (bs : list Z) : proghdr :=
  ProgHdr (field bs 0 4) (field bs 4 4) (field bs 8 8) (field bs 16 8) (field bs 32 8) (field bs 40 8).

Definition flags2perm (flags : Z) : Z :=
  let perm := if negb (Z.land flags 1 =? 0) then PTE_X else 0 in
  if negb (Z.land flags 2 =? 0) then Z.lor perm PTE_W else perm.

(** [n] little-endian bytes. *)
Fixpoint le_bytes (n : nat) (v : Z) : list Z := match n with O => [] | S n => v mod 256 :: le_bytes n (v / 256) end.

Definition TF_A1 : Z := 120.

(** The part of a path after the last slash. *)
Fixpoint last_elem (path last : list Z) : list Z :=
  match path with [] => last | c :: path => last_elem path (if c =? 47 then path else last) end.

Section Exec.
Context `{KernelImage} `{Devices}.

(** [readi] to a kernel address. *)
Definition read_kernel (ip : nat) (off n : Z) : P (Z * list Z) := pfs_op (readi ip (fun _ _ => true) (u32 off) (u32 n)).

(** ** Loading *)

(** The loop of [loadseg] from [i] on; [true] is success. *)
Fixpoint loadseg_loop (fuel : nat) (pagetable va : Z) (ip : nat) (offset sz i : Z) : P bool :=
  if i <? sz then
    match fuel with
    | O => hang
    | S fuel =>
        pa ← pmem_op (walkaddr pagetable (u64 (va + i)));
        if pa =? 0 then panic "loadseg: address should exist"
        else
          let n := if sz - i <? PGSIZE then sz - i else PGSIZE in
          r ← read_kernel ip (u32 (offset + i)) n;
          pmem_op (modify (set_mem (fun m => write_bytes m pa (snd r))));;
          if negb (fst r =? n) then mret false else loadseg_loop fuel pagetable va ip offset sz (u32 (i + PGSIZE))
    end
  else mret true.

(** [offset] and [sz] are of type [uint]. *)
Definition loadseg (pagetable va : Z) (ip : nat) (offset sz : Z) : P bool :=
  loadseg_loop (Z.to_nat (u32 sz / PGSIZE + 1)) pagetable va ip (u32 offset) (u32 sz) 0.

(** The loop over the program headers: the size so far, and whether it went well. *)
Fixpoint load_loop (phnum : nat) (pagetable : Z) (ip : nat) (off sz : Z) : P (Z * bool) :=
  match phnum with
  | O => mret (sz, true)
  | S phnum =>
      r ← read_kernel ip off sizeof_proghdr;
      let ph := proghdr_of (snd r) in
      if negb (fst r =? sizeof_proghdr) then mret (sz, false)
      else if negb (ph_type ph =? ELF_PROG_LOAD) then load_loop phnum pagetable ip (s32 (off + sizeof_proghdr)) sz
      else if ph_memsz ph <? ph_filesz ph then mret (sz, false)
      else if u64 (ph_vaddr ph + ph_memsz ph) <? ph_vaddr ph then mret (sz, false)
      else if negb (ph_vaddr ph mod PGSIZE =? 0) then mret (sz, false)
      else
        sz1 ← pmem_op (uvmalloc pagetable sz (u64 (ph_vaddr ph + ph_memsz ph)) (flags2perm (ph_flags ph)));
        if sz1 =? 0 then mret (sz, false)
        else
          ok ← loadseg pagetable (ph_vaddr ph) ip (ph_off ph) (ph_filesz ph);
          if negb ok then mret (sz1, false) else load_loop phnum pagetable ip (s32 (off + sizeof_proghdr)) sz1
  end.

(** ** The stack *)

(** The loop of lines 91-101: the stack pointer and the addresses of the strings. *)
Fixpoint push_args (pagetable stackbase : Z) (argv : list (list Z)) (sp : Z) (ustack : list Z) : M kstate (option (Z * list Z)) :=
  match argv with
  | [] => mret (Some (sp, ustack))
  | s :: argv =>
      if (MAXARG <=? length ustack)%nat then mret None
      else
        let sp := u64 (sp - (Z.of_nat (length s) + 1)) in
        let sp := sp - sp mod 16 in
        if sp <? stackbase then mret None
        else
          r ← copyout pagetable sp (s ++ [0]);
          if r <? 0 then mret None else push_args pagetable stackbase argv sp (ustack ++ [sp])
  end.

(** Lines 102-110: the array of pointers.  [ustack] has [MAXARG] elements, and nothing checks
    that one is left for the null pointer: the store behind its end is undefined, and is the
    outcome [Panic] here. *)
Definition push_ustack (pagetable stackbase sp : Z) (ustack : list Z) : M kstate (option Z) :=
  if (MAXARG <=? length ustack)%nat then panic "exec: store behind ustack"
  else
    let sp := u64 (sp - (Z.of_nat (length ustack) + 1) * 8) in
    let sp := sp - sp mod 16 in
    if sp <? stackbase then mret None
    else
      r ← copyout pagetable sp (concat (le_bytes 8 <$> ustack ++ [0]));
      if r <? 0 then mret None else mret (Some sp).

Definition push_stack (pagetable stackbase : Z) (argv : list (list Z)) (sp : Z) : M kstate (option Z) :=
  r ← push_args pagetable stackbase argv sp [];
  match r with
  | None => mret None
  | Some (sp, ustack) => push_ustack pagetable stackbase sp ustack
  end.

(** ** exec *)

(** [bad:] *)
Definition exec_bad (pagetable sz : Z) (ip : option nat) : P Z :=
  (if negb (pagetable =? 0) then pmem_op (proc_freepagetable pagetable sz) else mret tt);;
  (match ip with
   | Some ip => pfs_op (iunlockput ip);; pfs_op (blk_op end_op)
   | None => mret tt
   end);;
  mret (-1).

(** Lines 112-131: the process gets the new image. *)
Definition exec_commit (path : list Z) (pagetable sz sp entry : Z) (argc : nat) : P Z :=
  p ← gets me;
  x ← gets (proc_at p);
  pmem_op (write64 (p_trapframe x + TF_A1) sp);;
  set_proc p (copy_name (arr (last_elem path path ++ [0])));;
  set_proc p (with_mem sz pagetable (p_trapframe x));;
  pmem_op (write64 (p_trapframe x + TF_EPC) entry);;
  pmem_op (write64 (p_trapframe x + TF_SP) sp);;
  pmem_op (proc_freepagetable (p_pagetable x) (p_sz x));;
  mret (Z.of_nat argc).

(** Lines 71-110: the stack, once the program is loaded. *)
Definition exec_stack (path : list Z) (argv : list (list Z)) (pagetable sz entry : Z) : P Z :=
  let sz := PGROUNDUP sz in
  sz1 ← pmem_op (uvmalloc pagetable sz (u64 (sz + 2 * PGSIZE)) PTE_W);
  if sz1 =? 0 then exec_bad pagetable sz None
  else
    pmem_op (uvmclear pagetable (u64 (sz1 - 2 * PGSIZE)));;
    sp ← pmem_op (push_stack pagetable (sz1 - PGSIZE) argv sz1);
    match sp with
    | None => exec_bad pagetable sz1 None
    | Some sp => exec_commit path pagetable sz1 sp entry (length argv)
    end.

(** [exec(path, argv)]; [junk] is what the name buffer of [namei] holds. *)
Definition exec (path : list Z) (argv : list (list Z)) (junk : list Z) : P Z :=
  p ← gets me;
  x ← gets (proc_at p);
  pfs_op (blk_op begin_op);;
  r ← pfs_op (namei (default O (p_cwd x)) path junk);
  match r with
  | None => pfs_op (blk_op end_op);; mret (-1)
  | Some ip =>
      pfs_op (ilock ip);;
      r ← read_kernel ip 0 sizeof_elfhdr;
      let elf := elfhdr_of (snd r) in
      if negb (fst r =? sizeof_elfhdr) then exec_bad 0 0 (Some ip)
      else if negb (e_magic elf =? ELF_MAGIC) then exec_bad 0 0 (Some ip)
      else
        pagetable ← pmem_op (proc_pagetable (p_trapframe x));
        if pagetable =? 0 then exec_bad 0 0 (Some ip)
        else
          r ← load_loop (Z.to_nat (e_phnum elf)) pagetable ip (s32 (e_phoff elf)) 0;
          if negb (snd r) then exec_bad pagetable (fst r) (Some ip)
          else
            pfs_op (iunlockput ip);;
            pfs_op (blk_op end_op);;
            exec_stack path argv pagetable (fst r) (e_entry elf)
  end.
End Exec.
