(* ===== verification/ExecSpec.v ===== *)
(** * The stack that [exec] prepares, and failed calls *)

From S2P Require Import Prelude Mem CString Riscv Kalloc Vm PageTable VmSpec VmCopy Pipe Block Sleeplock Bio Log Fs FsBlocks File Proc Exec.
From S2P Require Import RingbufK RingbufFind RingbufMap RingbufSpec Demo.

(** Where the strings and then the pointers end up. *)
Definition align16 (x : Z) : Z := x - x mod 16.
Definition args_sp (sp : Z) (argv : list (list Z)) : Z := foldl (fun sp str => align16 (sp - (Z.of_nat (length str) + 1))) sp argv.
Definition stack_sp (sp : Z) (argv : list (list Z)) : Z := align16 (args_sp sp argv - (Z.of_nat (length argv) + 1) * 8).

Lemma align16_spec x : align16 x <= x /\ align16 x mod 16 = 0.
Proof.
  pose proof (Z.mod_pos_bound x 16 ltac:(lia)). unfold align16. split; [lia|]. apply Z.mod_divide; [lia|]. exists (x / 16). pose proof (Z.div_mod x 16 ltac:(lia)). lia.
Qed.

Lemma args_sp_le sp argv : args_sp sp argv <= sp.
Proof.
  unfold args_sp. revert sp. induction argv as [|str argv IH]; intros sp; [cbn; lia|]. cbn [foldl]. etransitivity; [apply IH|].
  pose proof (align16_spec (sp - (Z.of_nat (length str) + 1))). lia.
Qed.

(** The addresses of the strings. *)
Fixpoint addrs (sp : Z) (argv : list (list Z)) : list Z :=
  match argv with
  | [] => []
  | str :: argv => let sp := align16 (sp - (Z.of_nat (length str) + 1)) in sp :: addrs sp argv
  end.

Lemma addrs_aligned sp argv : Forall (fun a => a mod 16 = 0) (addrs sp argv).
Proof. revert sp. induction argv as [|str argv IH]; intros sp; [constructor|]. cbn. constructor; [apply align16_spec|apply IH]. Qed.

Lemma addrs_between sp argv : Forall2 (fun a str => args_sp sp argv <= a /\ a + Z.of_nat (length str) + 1 <= sp) (addrs sp argv) argv.
Proof.
  revert sp. induction argv as [|str argv IH]; intros sp; [constructor|]. cbn [addrs]. set (x := sp - (Z.of_nat (length str) + 1)).
  pose proof (align16_spec x) as [Hx _]. constructor.
  - split; [apply (args_sp_le (align16 x) argv)|lia].
  - eapply Forall2_impl; [|exact (IH (align16 x))]. intros a t [H1 H2]. split; [exact H1|lia].
Qed.

Lemma addrs_apart sp argv i j a b u v :
  (i < j)%nat -> addrs sp argv !! i = Some a -> addrs sp argv !! j = Some b -> argv !! i = Some u -> argv !! j = Some v ->
  b + Z.of_nat (length v) + 1 <= a.
Proof.
  revert sp i j. induction argv as [|str argv IH]; intros sp i j Hij Ha Hb Hu Hv; [done|]. destruct j as [|j]; [lia|]. cbn in Hb, Hv.
  destruct i as [|i]; cbn in Ha, Hu.
  - injection Ha as <-. by apply (Forall2_lookup_lr _ _ _ _ _ _ (addrs_between _ argv) Hb Hv).
  - eapply (IH _ i j); [lia|exact Ha|exact Hb|done|done].
Qed.

Section Stack.
Context `{KernelImage}.
(** The page table, the free pages, the stack page at user address [base] and its frame. *)
Variables (pt : Z) (L : list Z) (base pa : Z).
Hypothesis base_aligned : base mod PGSIZE = 0.
Hypothesis base_range : PGSIZE <= base /\ base + PGSIZE <= MAXVA.

Record stack_ok (s : kstate) : Prop := {
  so_inv : vm_inv s pt L;
  so_owned : owned pt s L pa;
  so_map : forall a, base <= a < base + PGSIZE -> translate (mem s) pt a = pa;
}.

Lemma stack_data_only s s' : stack_ok s -> data_only pt s L s' -> stack_ok s'.
Proof.
  intros [Hi Ho Hm] Hd. split; [by apply (data_only_inv pt s)|by apply (data_only_owned pt s)|]. intros a Ha. rewrite (data_only_translate pt s L s') by done. by apply Hm.
Qed.

Lemma pa_nonzero s : stack_ok s -> pa <> 0.
Proof. intros [_ [Hv _ _] _]. pose proof (valid_page_bounds pa Hv). unfold KERNBASE in *. lia. Qed.

Lemma stack_uaddr s a : stack_ok s -> base <= a < base + PGSIZE -> uaddr (mem s) pt a = pa + (a - base).
Proof. intros Hs Ha. unfold uaddr. rewrite (so_map s Hs a Ha). unfold PGSIZE in *. lia. Qed.

(** Copying into the stack page. *)
Lemma copyout_stack s va bs :
  stack_ok s -> base <= va -> va + Z.of_nat (length bs) <= base + PGSIZE ->
  exists s', copyout pt va bs s = Done 0 s' /\ mem s' = write_bytes (mem s) (pa + (va - base)) bs /\ stack_ok s' /\ data_only pt s L s'.
Proof.
  intros Hs Hva Hl. pose proof (pa_nonzero s Hs) as Hpa.
  assert (Ha : user_area pt s L va (Z.of_nat (length bs))).
  { split; [lia|]. split; [lia|]. split; [unfold PGSIZE in *; lia|]. intros a Ha _. rewrite (so_map s Hs) by lia. apply Hs. }
  destruct (copyout_spec pt va bs s L (so_inv s Hs) Ha) as (r & s' & j & E & Hj & Hm & Hd & [Hc1 Hc2]).
  assert (Hr : r = 0 /\ j = Z.of_nat (length bs)).
  { destruct Hc2 as [?|(-> & Hjl & Ht)]; [done|]. rewrite (so_map s Hs) in Ht by lia. done. }
  destruct Hr as [-> ->]. rewrite Nat2Z.id, firstn_all in Hm. exists s'. split; [done|]. split; [|split; [by apply (stack_data_only s)|done]].
  rewrite Hm. apply user_write_contig. intros i Hi. rewrite stack_uaddr by (done || lia). lia.
Qed.

(** The string [str] with its NUL is at user address [a]. *)
Definition string_in (s : kstate) (a : Z) (str : list Z) : Prop :=
  base <= a /\ a + Z.of_nat (length str) + 1 <= base + PGSIZE /\ read_bytes (mem s) (pa + (a - base)) (S (length str)) = str ++ [0].

Definition is_bytes (l : list Z) : Prop := Forall (fun c => 0 <= c < 256) l.

Lemma read_write_below m a bs b n : a + Z.of_nat (length bs) <= b -> read_bytes (write_bytes m a bs) b n = read_bytes m b n.
Proof.
  revert b. induction n as [|n IH]; intros b Hb; [done|]. cbn [read_bytes]. rewrite IH by lia. by rewrite mget_write_bytes_out by lia.
Qed.

Lemma string_in_below s s' a str va bs :
  string_in s a str -> mem s' = write_bytes (mem s) (pa + (va - base)) bs -> va + Z.of_nat (length bs) <= a -> string_in s' a str.
Proof. intros (H1 & H2 & H3) Hm Hl. split; [done|]. split; [done|]. rewrite Hm, read_write_below by lia. done. Qed.

Lemma strings_kept s s' us ds sp va bs :
  Forall2 (string_in s) us ds -> Forall (Z.le sp) us -> mem s' = write_bytes (mem s) (pa + (va - base)) bs -> va + Z.of_nat (length bs) <= sp -> Forall2 (string_in s') us ds.
Proof.
  intros H2 Hle Hm Hl. induction H2 as [|a str us ds Ha _ IH]; [constructor|]. apply list.Forall_cons in Hle as [H1 Hle]. constructor; [|by apply IH].
  apply (string_in_below s s' a str va bs Ha Hm). lia.
Qed.

Lemma push_args_ok argv sp us ds s :
  stack_ok s -> base <= sp <= base + PGSIZE -> Forall is_bytes argv -> Forall (fun str => Z.of_nat (length str) < PGSIZE) argv ->
  Forall2 (string_in s) us ds -> Forall (Z.le sp) us -> (length us <= MAXARG)%nat ->
  exists r s', push_args pt base argv sp us s = Done r s' /\ stack_ok s' /\ data_only pt s L s' /\
    match r with
    | None => ~ ((length us + length argv <= MAXARG)%nat /\ base <= args_sp sp argv)
    | Some (sp', us') => sp' = args_sp sp argv /\ us' = us ++ addrs sp argv /\ base <= sp' /\ Forall2 (string_in s') us' (ds ++ argv) /\ Forall (Z.le sp') us' /\ (length us' <= MAXARG)%nat
    end.
Proof.
  intros Hs Hsp Hb Hlen. revert sp us ds s Hs Hsp. induction argv as [|str argv IH]; intros sp us ds s Hs Hsp Hus Hle Hmx.
  { exists (Some (sp, us)), s. split; [done|]. split; [done|]. split; [apply data_only_refl|]. cbn [addrs]. rewrite !app_nil_r. split; [done|]. split; [done|]. split; [lia|done]. }
  apply list.Forall_cons in Hb as [Hb1 Hb]. apply list.Forall_cons in Hlen as [Hlen1 Hlen]. cbn [push_args].
  destruct (Nat.leb_spec MAXARG (length us)); [exists None, s; split; [done|]; split; [done|]; split; [apply data_only_refl|]; cbn [length]; lia|].
  assert (Hmax : MAXVA <= 2 ^ 64) by (vm_compute; congruence). rewrite u64_small by (unfold PGSIZE in *; lia).
  set (x := sp - (Z.of_nat (length str) + 1)). change (x - x mod 16) with (align16 x). pose proof (align16_spec x) as [Hx _]. set (sp1 := align16 x) in *.
  assert (Ha : args_sp sp (str :: argv) = args_sp sp1 argv) by done. rewrite Ha. pose proof (args_sp_le sp1 argv).
  destruct (Z.ltb_spec sp1 base); [exists None, s; split; [done|]; split; [done|]; split; [apply data_only_refl|]; lia|].
  assert (Hl1 : Z.of_nat (length (str ++ [0])) = Z.of_nat (length str) + 1) by (rewrite length_app; cbn; lia).
  destruct (copyout_stack s sp1 (str ++ [0]) Hs) as (s1 & E & Hm & Hs1 & Hd); [lia|lia|]. mstep E. cbn [Z.ltb Z.compare].
  assert (Hin : string_in s1 sp1 str).
  { split; [lia|]. split; [lia|]. rewrite Hm. replace (S (length str)) with (length (str ++ [0])) by (rewrite length_app; cbn; lia). apply read_write_bytes.
    apply Forall_app. split; [done|]. by repeat constructor. }
  destruct (IH Hb Hlen sp1 (us ++ [sp1]) (ds ++ [str]) s1) as (r & s' & E' & Hs' & Hd' & Hr); try done; [lia| | |rewrite length_app; cbn; lia|].
  - apply Forall2_app; [|by apply Forall2_cons]. apply (strings_kept s s1 us ds sp sp1 (str ++ [0])); try done. lia.
  - apply Forall_app. split; [|by apply list.Forall_cons; split; [lia|constructor]]. eapply list.Forall_impl; [exact Hle|]. intros a Ha'. lia.
  - exists r, s'. split; [done|]. split; [done|]. split; [by apply (data_only_trans pt s L s1); [apply Hs|..]|]. rewrite length_app, <- !app_assoc in Hr. cbn [app length] in Hr |- *.
    destruct r as [[sp' us']|]; [done|]. intros [? ?]. apply Hr. split; [lia|done].
Qed.

(** The strings are at multiples of sixteen, above the array of pointers, and do not overlap. *)
Definition laid_out (sp : Z) (us : list Z) (argv : list (list Z)) : Prop :=
  sp mod 16 = 0 /\ Forall (fun a => a mod 16 = 0 /\ sp + 8 * (Z.of_nat (length argv) + 1) <= a) us /\
  forall i j a b u v, i <> j -> us !! i = Some a -> us !! j = Some b -> argv !! i = Some u -> argv !! j = Some v ->
    a + Z.of_nat (length u) + 1 <= b \/ b + Z.of_nat (length v) + 1 <= a.

Lemma addrs_laid_out sp top argv : sp mod 16 = 0 -> sp + 8 * (Z.of_nat (length argv) + 1) <= args_sp top argv -> laid_out sp (addrs top argv) argv.
Proof.
  intros H1 H2. split; [done|]. split.
  - apply list.Forall_forall. intros a Ha. split; [by apply (proj1 (list.Forall_forall _ _) (addrs_aligned top argv))|].
    apply list_elem_of_lookup in Ha as [i Hi]. destruct (Forall2_lookup_l _ _ _ _ _ (addrs_between top argv) Hi) as (u & _ & Hu & _). lia.
  - intros i j a b u v Hij Ha Hb Hu Hv. destruct (decide (i < j)%nat).
    + right. by apply (addrs_apart top argv i j a b u v).
    + left. apply (addrs_apart top argv j i b a v u); [lia|done..].
Qed.

(** What the program finds: [argv] at user address [sp], an array of pointers to its
    strings that ends with a null pointer. *)
Definition argv_in (s : kstate) (sp : Z) (argv : list (list Z)) : Prop :=
  exists us, length us = length argv /\ Forall2 (string_in s) us argv /\ laid_out sp us argv /\
    read_bytes (mem s) (pa + (sp - base)) (8 * S (length argv)) = concat (le_bytes 8 <$> us ++ [0]).

Lemma length_le_bytes n v : length (le_bytes n v) = n.
Proof. revert v. induction n as [|n IH]; intros v; [done|]. cbn. by rewrite IH. Qed.

Lemma le_bytes_bytes n v : is_bytes (le_bytes n v).
Proof. revert v. induction n as [|n IH]; intros v; [constructor|]. cbn. constructor; [|apply IH]. by apply Z.mod_pos_bound. Qed.

Lemma length_pointers us : length (concat (le_bytes 8 <$> us)) = (8 * length us)%nat.
Proof. induction us as [|a us IH]; [done|]. cbn [fmap list_fmap concat length]. rewrite length_app, length_le_bytes, IH. lia. Qed.

Lemma pointers_bytes us : is_bytes (concat (le_bytes 8 <$> us)).
Proof. induction us as [|a us IH]; [constructor|]. cbn [fmap list_fmap concat]. apply Forall_app. split; [apply le_bytes_bytes|done]. Qed.

(** Whether the call works: the strings and the array fit into the page, and [ustack] has room
    for the null pointer; [wild] is the case where it has not. *)
Definition fits (argv : list (list Z)) : Prop := (length argv < MAXARG)%nat /\ base <= stack_sp (base + PGSIZE) argv.
Definition wild (argv : list (list Z)) : Prop := length argv = MAXARG /\ base <= args_sp (base + PGSIZE) argv.

#[local] Instance fits_dec argv : Decision (fits argv). Proof. unfold fits. apply _. Defined.
#[local] Instance wild_dec argv : Decision (wild argv). Proof. unfold wild. apply _. Defined.

Lemma push_ustack_ok argv s :
  let sp := args_sp (base + PGSIZE) argv in
  let us := addrs (base + PGSIZE) argv in
  stack_ok s -> base <= sp -> (length argv < MAXARG)%nat -> Forall2 (string_in s) us argv -> Forall (Z.le sp) us ->
  exists s', stack_ok s' /\ data_only pt s L s' /\
    if decide (fits argv)
    then push_ustack pt base sp us s = Done (Some (stack_sp (base + PGSIZE) argv)) s' /\ argv_in s' (stack_sp (base + PGSIZE) argv) argv
    else push_ustack pt base sp us s = Done None s'.
Proof.
  intros sp us Hs Hsp Hmx Hus Hle. pose proof (Forall2_length Hus) as Hlu. pose proof (args_sp_le (base + PGSIZE) argv) as Htop. fold sp in Htop.
  unfold push_ustack. rewrite Hlu. destruct (Nat.leb_spec MAXARG (length argv)); [lia|].
  assert (Hmax : MAXVA <= 2 ^ 64) by (vm_compute; congruence). unfold MAXARG in *. rewrite u64_small by (unfold PGSIZE in *; lia).
  unfold fits, stack_sp. fold sp. set (x := sp - (Z.of_nat (length argv) + 1) * 8). pose proof (align16_spec x) as [Hx Hx16]. change (x - x mod 16) with (align16 x).
  destruct (Z.ltb_spec (align16 x) base) as [Hlt|Hge]; [exists s; split; [done|]; split; [apply data_only_refl|]; by rewrite decide_False by lia|].
  set (bs := concat (le_bytes 8 <$> us ++ [0])).
  assert (Hl : length bs = (8 * S (length argv))%nat) by (subst bs; rewrite length_pointers, length_app, Hlu; cbn; lia).
  destruct (copyout_stack s (align16 x) bs Hs) as (s2 & E2 & Hm & Hs2 & Hd2); [lia|lia|]. mstep E2. cbn [Z.ltb Z.compare].
  exists s2. split; [done|]. split; [done|]. rewrite decide_True by (split; [unfold MAXARG; lia|done]). split; [done|].
  exists us. split; [done|]. split; [apply (strings_kept s s2 us argv sp (align16 x) bs); try done; lia|].
  split; [apply addrs_laid_out; [done|fold sp; lia]|]. rewrite Hm, <- Hl. apply read_write_bytes, pointers_bytes.
Qed.

Lemma push_stack_ok argv s :
  stack_ok s -> Forall is_bytes argv -> Forall (fun str => Z.of_nat (length str) < PGSIZE) argv ->
  if decide (wild argv) then push_stack pt base argv (base + PGSIZE) s = Panic "exec: store behind ustack"
  else exists s', stack_ok s' /\ data_only pt s L s' /\
    if decide (fits argv)
    then push_stack pt base argv (base + PGSIZE) s = Done (Some (stack_sp (base + PGSIZE) argv)) s' /\ argv_in s' (stack_sp (base + PGSIZE) argv) argv
    else push_stack pt base argv (base + PGSIZE) s = Done None s'.
Proof.
  intros Hs Hb Hlen. unfold push_stack.
  destruct (push_args_ok argv (base + PGSIZE) [] [] s Hs) as (r & s1 & E & Hs1 & Hd1 & Hr); try done; [unfold PGSIZE; lia|cbn; lia|]. mstep E.
  assert (Hlow : stack_sp (base + PGSIZE) argv <= args_sp (base + PGSIZE) argv).
  { unfold stack_sp. set (x := _ - _ * 8). pose proof (align16_spec x) as [Hx _]. lia. }
  destruct r as [[sp us]|].
  2: { cbn [length Nat.add] in Hr. rewrite decide_False by (intros [H1 H2]; apply Hr; split; [lia|done]). exists s1. split; [done|]. split; [done|].
       rewrite decide_False; [done|]. intros [H1 H2]. apply Hr. split; [lia|lia]. }
  cbn [app] in Hr. destruct Hr as (-> & -> & Hsp & Hus & Hle & Hmx). pose proof (Forall2_length Hus) as Hlu.
  case_decide as Hw.
  - destruct Hw as [Hw _]. unfold push_ustack. rewrite Hlu, Hw. done.
  - assert (Hlt : (length argv < MAXARG)%nat) by (assert (length argv <> MAXARG) by (intros ?; by apply Hw); lia).
    destruct (push_ustack_ok argv s1 Hs1 Hsp Hlt Hus Hle) as (s2 & Hs2 & Hd2 & Hr). exists s2. split; [done|].
    split; [by apply (data_only_trans pt s L s1); [apply Hs|..]|done].
Qed.

(** C37: the stack of a new program.  exec puts the argument strings, each with its NUL, and
    then the array of pointers to them with a null pointer at its end, into the stack page,
    at multiples of sixteen and without overlap; the program's argv is the array.  It does so
    exactly when there are fewer than 32 arguments and all this fits into the page.  Otherwise
    it gives up, but for exactly 32 arguments whose strings fit: then it stores the null
    pointer behind the end of its local array.  It changes no page table and no free page. *)
Theorem exec_stack_holds_argv argv s :
  stack_ok s -> Forall is_bytes argv -> Forall (fun str => Z.of_nat (length str) < PGSIZE) argv ->
  if decide (wild argv) then push_stack pt base argv (base + PGSIZE) s = Panic "exec: store behind ustack"
  else exists s', stack_ok s' /\ data_only pt s L s' /\
    if decide (fits argv)
    then push_stack pt base argv (base + PGSIZE) s = Done (Some (stack_sp (base + PGSIZE) argv)) s' /\ argv_in s' (stack_sp (base + PGSIZE) argv) argv
    else push_stack pt base argv (base + PGSIZE) s = Done None s'.
Proof. apply push_stack_ok. Qed.
End Stack.

(** "ls" "-l" on the second page of a process. *)
Lemma exec_stack_holds_argv_witness :
  exists s', push_stack root1 PGSIZE [[108; 115]; [45; 108]] (PGSIZE + PGSIZE) (demo 4) = Done (Some (2 * PGSIZE - 64)) s' /\
    argv_in PGSIZE (dpage 3) s' (2 * PGSIZE - 64) [[108; 115]; [45; 108]].
Proof.
  pose proof (exec_stack_holds_argv root1 (chain_pages 8 4) PGSIZE (dpage 3) ltac:(reflexivity) ltac:(vm_compute; split; congruence) [[108; 115]; [45; 108]] (demo 4)) as Hr.
  rewrite decide_False in Hr by (intros [Hw _]; discriminate Hw). destruct Hr as (s' & _ & _ & Hr).
  - split; [apply demo_inv_1; lia| |].
    + pose proof (demo_user 4 0 ltac:(lia) (demo_process_1 4) ltac:(by left)) as (_ & _ & Hu). specialize (Hu PGSIZE ltac:(unfold PGSIZE; lia)).
      cbn [demo mem] in Hu. rewrite (demo_translate 4 0 PGSIZE (demo_process_1 4)) in Hu by (vm_compute; split; congruence). exact Hu.
    + intros a Ha. cbn [demo mem]. change root1 with (dpage 0). rewrite (demo_translate 4 0 a (demo_process_1 4)) by (change MAXVA with (2 ^ 38); unfold PGSIZE in *; lia).
      rewrite decide_True by (unfold PGSIZE in *; lia). done.
  - repeat constructor; vm_compute; congruence.
  - repeat constructor.
  - exists s'. rewrite decide_True in Hr by (vm_compute; split; [lia|congruence]). exact Hr.
Defined.

(** ** Failed calls *)

Section Failed.
Context `{KernelImage} `{Devices}.

(** [m] changes the kernel's memory and file system only. *)
Definition keeps {A} (m : P A) : Prop := forall s a s', m s = Done a s' -> procs s' = procs s /\ me s' = me s.

Lemma xkeeps_bind {A B} (m : P A) (f : A -> P B) : keeps m -> (forall a, keeps (f a)) -> keeps (m ≫= f).
Proof.
  intros Hm Hf s b s' (a & s1 & E1 & E2)%bind_done_inv. destruct (Hm _ _ _ E1) as [-> ->] || (destruct (Hm _ _ _ E1) as [Hp1 He1]; destruct (Hf _ _ _ _ E2) as [Hp2 He2]; split; congruence).
Qed.

Lemma xkeeps_ret {A} (a : A) : keeps (mret a).
Proof. intros s b s' [= <- <-]. done. Qed.

Lemma xkeeps_panic {A} msg : keeps (panic msg : P A).
Proof. done. Qed.

Lemma xkeeps_hang {A} : keeps (hang : P A).
Proof. done. Qed.

Lemma xkeeps_gets {A} (f : ksys -> A) : keeps (gets f).
Proof. intros s b s' [= <- <-]. done. Qed.

Lemma xkeeps_mem {A} (m : M kstate A) : keeps (pmem_op m).
Proof. intros s a s' E. unfold pmem_op, lift in E. destruct (m _); simplify_eq. done. Qed.

Lemma xkeeps_fs {A} (m : M (fstate lstate) A) : keeps (pfs_op m).
Proof. intros s a s' E. unfold pfs_op, lift in E. destruct (m _); simplify_eq. done. Qed.

Create HintDb keeps.
Hint Resolve xkeeps_ret xkeeps_panic xkeeps_hang xkeeps_gets xkeeps_mem xkeeps_fs : keeps.

Ltac keeps := repeat (apply xkeeps_bind; [|intros]); eauto with keeps.

Lemma keeps_loadseg_loop fuel pt va ip off sz i : keeps (loadseg_loop fuel pt va ip off sz i).
Proof.
  revert i. induction fuel as [|fuel IH]; intros i; cbn [loadseg_loop]; (destruct (_ <? _); [|apply xkeeps_ret]); [apply xkeeps_hang|].
  apply xkeeps_bind; [apply xkeeps_mem|]. intros pa. destruct (pa =? 0); [apply xkeeps_panic|]. unfold read_kernel. keeps. destruct (negb _); [apply xkeeps_ret|apply IH].
Qed.

Lemma keeps_load_loop n pt ip off sz : keeps (load_loop n pt ip off sz).
Proof.
  revert off sz. induction n as [|n IH]; intros off sz; [apply xkeeps_ret|]. cbn [load_loop]. unfold read_kernel. apply xkeeps_bind; [apply xkeeps_fs|]. intros r.
  repeat (match goal with |- keeps (if ?b then _ else _) => destruct b end); eauto with keeps. apply xkeeps_bind; [apply xkeeps_mem|]. intros sz1.
  destruct (_ =? _); [apply xkeeps_ret|]. apply xkeeps_bind; [apply keeps_loadseg_loop|]. intros []; [apply IH|apply xkeeps_ret].
Qed.

(** Returns [-1] without having changed a process. *)
Definition gives_up (m : P Z) : Prop := forall s v s', m s = Done v s' -> v = -1 /\ procs s' = procs s.

Lemma gives_up_bind {A} (m : P A) (f : A -> P Z) : keeps m -> (forall a, gives_up (f a)) -> gives_up (m ≫= f).
Proof. intros Hm Hf s b s' (a & s1 & E1 & E2)%bind_done_inv. destruct (Hm _ _ _ E1). destruct (Hf _ _ _ _ E2) as [-> ->]. done. Qed.

Lemma gives_up_ret : gives_up (mret (-1)).
Proof. intros s v s' [= <- <-]. done. Qed.

Lemma exec_bad_gives_up pt sz ip : gives_up (exec_bad pt sz ip).
Proof.
  unfold exec_bad. apply gives_up_bind; [destruct (negb _); eauto with keeps|]. intros _. apply gives_up_bind; [destruct ip; keeps|]. intros _. apply gives_up_ret.
Qed.

(** What a call that returns leaves of the process table: all of it, or all but the memory
    and the name of the running process. *)
Definition outcome_ok (argc : nat) (v : Z) (s s' : ksys) : Prop :=
  (v = -1 /\ procs s' = procs s) \/
  (v = Z.of_nat argc /\ exists sz pt name, procs s' = alter (fun x => with_mem sz pt (p_trapframe (proc_at (me s) s)) (with_name name x)) (me s) (procs s)).

Definition exec_like (argc : nat) (m : P Z) : Prop := forall s v s', m s = Done v s' -> outcome_ok argc v s s'.

Lemma exec_like_bind {A} argc (m : P A) (f : A -> P Z) : keeps m -> (forall a, exec_like argc (f a)) -> exec_like argc (m ≫= f).
Proof.
  intros Hm Hf s v s' (a & s1 & E1 & E2)%bind_done_inv. destruct (Hm _ _ _ E1) as [Hp Hme]. specialize (Hf _ _ _ _ E2). unfold outcome_ok, proc_at in *. by rewrite Hp, Hme in Hf.
Qed.

Lemma exec_like_bad argc m : gives_up m -> exec_like argc m.
Proof. intros Hm s v s' E. left. by apply (Hm s). Qed.

Lemma alter_twice (f g h : proc -> proc) (i : nat) (l : list proc) : (forall x, l !! i = Some x -> g (f x) = h x) -> alter g i (alter f i l) = alter h i l.
Proof.
  intros Hx. apply list_eq. intros j. destruct (decide (i = j)) as [<-|Hne]; [|by rewrite !list_lookup_alter_ne].
  rewrite !list_lookup_alter_eq. destruct (l !! i) as [x|]; [|done]. cbn. by rewrite Hx.
Qed.

Lemma exec_commit_like path pt sz sp entry argc : exec_like argc (exec_commit path pt sz sp entry argc).
Proof.
  intros s v s' E. unfold exec_commit in E. rewrite !bind_gets in E. apply bind_done_inv in E as ([] & s1 & E1 & E). destruct (xkeeps_mem _ _ _ _ E1) as [Hp1 Hm1].
  unfold set_proc in E. rewrite !bind_modify in E. apply bind_done_inv in E as ([] & s2 & E2 & E). destruct (xkeeps_mem _ _ _ _ E2) as [Hp2 _].
  apply bind_done_inv in E as ([] & s3 & E3 & E). destruct (xkeeps_mem _ _ _ _ E3) as [Hp3 _]. apply bind_done_inv in E as ([] & s4 & E4 & E). destruct (xkeeps_mem _ _ _ _ E4) as [Hp4 _].
  injection E as <- <-. right. split; [done|]. cbn [procs set_procs] in Hp2. rewrite Hp4, Hp3, Hp2, Hp1.
  exists sz, pt, (splice (p_name (proc_at (me s) s)) 0 (safestrcpy (arr (last_elem path path ++ [0])) 16)). apply alter_twice.
  intros x Hx. unfold proc_at. by rewrite (list_lookup_total_correct _ _ _ Hx).
Qed.

Lemma exec_stack_like path argv pt sz entry : exec_like (length argv) (exec_stack path argv pt sz entry).
Proof.
  unfold exec_stack. apply exec_like_bind; [apply xkeeps_mem|]. intros sz1. destruct (_ =? _); [apply exec_like_bad, exec_bad_gives_up|].
  apply exec_like_bind; [apply xkeeps_mem|]. intros _. apply exec_like_bind; [apply xkeeps_mem|]. intros [sp|]; [apply exec_commit_like|apply exec_like_bad, exec_bad_gives_up].
Qed.

Lemma exec_is_like path argv junk : exec_like (length argv) (exec path argv junk).
Proof.
  unfold exec, read_kernel. do 4 (apply exec_like_bind; [eauto with keeps|]; intros ?).
  destruct a2 as [ip|]; [|apply exec_like_bad, gives_up_bind; [apply xkeeps_fs|intros; apply gives_up_ret]].
  do 2 (apply exec_like_bind; [eauto with keeps|]; intros ?).
  do 2 (destruct (negb _); [apply exec_like_bad, exec_bad_gives_up|]). apply exec_like_bind; [apply xkeeps_mem|]. intros pt. destruct (_ =? _); [apply exec_like_bad, exec_bad_gives_up|].
  apply exec_like_bind; [apply keeps_load_loop|]. intros r. destruct (negb _); [apply exec_like_bad, exec_bad_gives_up|].
  do 2 (apply exec_like_bind; [eauto with keeps|]; intros ?). apply exec_stack_like.
Qed.
End Failed.
