(* ===== verification/Mkfs.v ===== *)
(** * Making a file system, [mkfs/mkfs.c]

    The image is a map from block numbers to blocks; [die] and a failed assertion are
    [Panic].  The host is little-endian or not: multi-byte fields are stored least
    significant byte first, which is what [xint] and [xshort] are for. *)

From S2P Require Import Prelude Mem CString Block Sleeplock Bio Log Fs.

Definition FSSIZE : Z := 2000.
Definition NINODES : Z := 200.

Definition nbitmap : Z := FSSIZE / (BSIZE * 8) + 1.
Definition ninodeblocks : Z := NINODES / IPB + 1.
Definition nlog : Z := LOGSIZE.
Definition nmeta : Z := 2 + nlog + ninodeblocks + nbitmap.
Definition nblocks : Z := FSSIZE - nmeta.

(** The value whose bytes in memory are those of [x], least significant first, on a
    little-endian host. *)
Definition xshort (x : Z) : Z := u8 x + 256 * u8 (Z.shiftr x 8).
Definition xint (x : Z) : Z := u8 x + 256 * (u8 (Z.shiftr x 8) + 256 * (u8 (Z.shiftr x 16) + 256 * u8 (Z.shiftr x 24))).

(** [sb], as [main] fills it in. *)
Definition mk_sb : superblock :=
  Superblock FSMAGIC (xint FSSIZE) (xint nblocks) (xint NINODES) (xint nlog) (xint 2) (xint (2 + nlog)) (xint (2 + nlog + ninodeblocks)).

(** [memmove(buf, &sb, sizeof(sb))] *)
Definition sb_block : block :=
  let d := st32 (st32 (st32 (st32 zero_block 0 (sb_magic mk_sb)) 4 (sb_size mk_sb)) 8 (sb_nblocks mk_sb)) 12 (sb_ninodes mk_sb) in
  st32 (st32 (st32 (st32 d 16 (sb_nlog mk_sb)) 20 (sb_logstart mk_sb)) 24 (sb_inodestart mk_sb)) 28 (sb_bmapstart mk_sb).

Record mkstate := MkState { img : gmap Z block; freeinode : Z; freeblock : Z }.

Abbreviation Mk := (M mkstate).

Fixpoint forM_ {A} (l : list A) (f : A -> Mk unit) : Mk unit :=
  match l with [] => mret tt | a :: l => f a;; forM_ l f end.

(** ** Sectors and inodes *)

Definition wsect (sec : Z) (buf : block) : Mk unit := modify (fun s => MkState (<[sec := buf]> (img s)) (freeinode s) (freeblock s)).

(** Reading past the end of the image fails. *)
Definition rsect (sec : Z) : Mk block :=
  b ← gets (fun s => img s !! sec);
  match b with Some d => mret d | None => panic "read" end.

(** [struct dinode] is the part of an inode that is on the disk. *)
Definition no_inode (inum : Z) : inode := Inode ROOTDEV inum 0 (initsleeplock "inode") false 0 0 0 0 0 (replicate 13 0).

Definition winode (inum : Z) (ip : inode) : Mk unit :=
  let bn := IBLOCK inum mk_sb in
  buf ← rsect bn;
  wsect bn (dinode_put buf (dinode_off inum) ip).

Definition rinode (inum : Z) : Mk inode :=
  buf ← rsect (IBLOCK inum mk_sb);
  mret (dinode_get buf (dinode_off inum) (no_inode inum)).

Definition ialloc (type : Z) : Mk Z :=
  inum ← gets freeinode;
  modify (fun s => MkState (img s) (u32 (freeinode s + 1)) (freeblock s));;
  winode inum (with_nlink (xshort 1) (with_type (xshort type) (no_inode inum)));;
  mret inum.

(** [freeblock++] *)
Definition next_block : Mk Z :=
  x ← gets freeblock;
  modify (fun s => MkState (img s) (freeinode s) (u32 (freeblock s + 1)));;
  mret x.

(** The bitmap block: its first [used] bits are set. *)
Definition balloc (used : Z) : Mk unit :=
  if BSIZE * 8 <=? used then panic "assert"
  else wsect (sb_bmapstart mk_sb) (foldl mark zero_block (seqZ 0 used)).

(** ** iappend *)

(** The block of the file for its block number [fbn], lines 268-283; [din] is the copy of
    the inode. *)
Definition iappend_block (din : inode) (fbn : Z) : Mk (inode * Z) :=
  if fbn <? NDIRECT then
    din ← (if addr_at din fbn =? 0 then x ← next_block; mret (with_addrs (<[Z.to_nat fbn := xint x]> (i_addrs din)) din) else mret din);
    mret (din, addr_at din fbn)
  else
    din ← (if addr_at din NDIRECT =? 0 then x ← next_block; mret (with_addrs (<[Z.to_nat NDIRECT := xint x]> (i_addrs din)) din) else mret din);
    indirect ← rsect (addr_at din NDIRECT);
    if ld32 indirect (4 * (fbn - NDIRECT)) =? 0 then
      x ← next_block;
      let indirect := st32 indirect (4 * (fbn - NDIRECT)) (xint x) in
      wsect (addr_at din NDIRECT) indirect;;
      mret (din, ld32 indirect (4 * (fbn - NDIRECT)))
    else mret (din, ld32 indirect (4 * (fbn - NDIRECT))).

(** The loop of [iappend], at most one round per byte. *)
Fixpoint iappend_loop (fuel : nat) (din : inode) (off : Z) (p : list Z) : Mk (inode * Z) :=
  match p with
  | [] => mret (din, off)
  | _ =>
      match fuel with
      | O => hang
      | S fuel =>
          let fbn := off / BSIZE in
          if MAXFILE <=? fbn then panic "assert"
          else
            r ← iappend_block din fbn;
            let n1 := Z.min (Z.of_nat (length p)) ((fbn + 1) * BSIZE - off) in
            buf ← rsect (snd r);
            wsect (snd r) (splice buf (off - fbn * BSIZE) (take (Z.to_nat n1) p));;
            iappend_loop fuel (fst r) (off + n1) (drop (Z.to_nat n1) p)
      end
  end.

Definition iappend (inum : Z) (p : list Z) : Mk unit :=
  din ← rinode inum;
  r ← iappend_loop (length p) din (xint (i_size din)) p;
  winode inum (with_size (xint (snd r)) (fst r)).

(** ** main *)

(** The name of a file in the image, lines 131-148. *)
Definition drop_user (arg : list Z) : list Z := if bool_decide (take 5 arg = [117; 115; 101; 114; 47]) then drop 5 arg else arg.
Definition drop_underscore (name : list Z) : list Z := match name with 95 :: name => name | _ => name end.

(** One file of the command line: its name and the pieces that [read] returns. *)
Definition add_file (rootino : Z) (arg : list Z * list (list Z)) : Mk unit :=
  let shortname := drop_user (fst arg) in
  if existsb (Z.eqb 47) shortname then panic "assert"
  else
    let shortname := drop_underscore shortname in
    inum ← ialloc T_FILE;
    iappend rootino (dirent_bytes (xshort inum) shortname);;
    forM_ (snd arg) (iappend inum).

(** Lines 163-168. *)
Definition fix_root (rootino : Z) : Mk unit :=
  din ← rinode rootino;
  let off := xint (i_size din) in
  let off := (off / BSIZE + 1) * BSIZE in
  winode rootino (with_size (xint off) din).

Definition mkfs_main (args : list (list Z * list (list Z))) : Mk unit :=
  modify (fun s => MkState (img s) (freeinode s) nmeta);;
  forM_ (seqZ 0 FSSIZE) (fun i => wsect i zero_block);;
  wsect 1 sb_block;;
  rootino ← ialloc T_DIR;
  if negb (rootino =? ROOTINO) then panic "assert"
  else
    iappend rootino (dirent_bytes (xshort rootino) [46]);;
    iappend rootino (dirent_bytes (xshort rootino) [46; 46]);;
    forM_ args (add_file rootino);;
    fix_root rootino;;
    used ← gets freeblock;
    balloc used.

(** The statics when [main] starts. *)
Definition mkstate0 : mkstate := MkState ∅ 1 0.

Definition mkfs (args : list (list Z * list (list Z))) : outcome mkstate unit := mkfs_main args mkstate0.
