(* ===== verification/MkfsSpec.v ===== *)
(** * The image [mkfs] makes: growing one file

    [holds c f i U b]: with the blocks [c], inode [i] holds the bytes [b]; [U] says which of
    its slots have a block (slot [-1] is the indirect block), and every block of it is one
    of those handed out so far, the data blocks below [f]. *)

From S2P Require Import Prelude Mem CString Block Sleeplock Bio LogSpec Fs FsBlocks FsAlloc FsInode FsRw FsDisk FsWrite Mkfs.

(** ** Constants and byte order *)

Lemma xint_u32 x : xint x = u32 x.
Proof.
  unfold xint, u8, u32. rewrite !Z.shiftr_div_pow2 by lia.
  change (2 ^ 8) with 256. change (2 ^ 16) with 65536. change (2 ^ 24) with 16777216. change (2 ^ 32) with 4294967296. lia.
Qed.

Lemma xshort_u16 x : xshort x = u16 x.
Proof. unfold xshort, u8, u16. rewrite !Z.shiftr_div_pow2 by lia. change (2 ^ 8) with 256. change (2 ^ 16) with 65536. lia. Qed.

Lemma xint_small x : 0 <= x < 2 ^ 32 -> xint x = x.
Proof. intros. rewrite xint_u32. by apply u32_small. Qed.

Lemma nmeta_val : nmeta = 46.
Proof. reflexivity. Qed.

Lemma MAXFILE_val : MAXFILE = 268.
Proof. reflexivity. Qed.

(** Linear arithmetic with the constants of the file system. *)
Ltac fslia := rewrite ?nmeta_val, ?MAXFILE_val in *; unfold NDIRECT, FSSIZE, NINODES, BSIZE in *; lia.

Lemma nth_past (l : list Z) n : (length l <= n)%nat -> nth n l 0 = 0.
Proof. intros. by apply nth_overflow. Qed.

Lemma nth_zero_block n : nth n zero_block 0 = 0.
Proof. unfold zero_block. rewrite nth_lookup. destruct (_ !! n) eqn:E; [|done]. by apply lookup_replicate in E as [-> _]. Qed.

(** ** A file and its slots *)

(** The slots a file of [len] bytes uses. *)
Definition uses (len k : Z) : bool := if k =? -1 then NDIRECT * BSIZE <? len else k * BSIZE <? len.

(** The number of blocks of a file of [len] bytes, the indirect block included. *)
Definition nblk (len : Z) : Z := (len + BSIZE - 1) / BSIZE + (if NDIRECT * BSIZE <? len then 1 else 0).

Record holds (c : Z -> block) (f : Z) (i : inode) (U : Z -> bool) (b : list Z) : Prop := {
  h_len : length (i_addrs i) = 13%nat;
  h_used : forall k, -1 <= k < MAXFILE -> slot c i k <> 0 <-> U k = true;
  h_data : forall k, -1 <= k < MAXFILE -> slot c i k <> 0 -> nmeta <= slot c i k < f;
  h_inj : forall j k, -1 <= j < MAXFILE -> -1 <= k < MAXFILE -> slot c i j <> 0 -> slot c i j = slot c i k -> j = k;
  h_bytes : forall p, 0 <= p -> p / BSIZE < MAXFILE -> U (p / BSIZE) = true -> fbyte c i p = nth (Z.to_nat p) b 0;
}.

(** The blocks of the file are not changed. *)
Lemma holds_frame c c' f f' i U b :
  holds c f i U b -> f <= f' -> (forall k, -1 <= k < MAXFILE -> slot c i k <> 0 -> c' (slot c i k) = c (slot c i k)) ->
  holds c' f' i U b /\ (forall k, slot c' i k = slot c i k).
Proof.
  intros [L Us D I B] Hf E.
  assert (Es : forall k, slot c' i k = slot c i k).
  { intros k. apply slot_ext. intros H0. apply (E (-1)); [fslia|done]. }
  split; [|done]. split; [done|..].
  - intros k Hk. rewrite Es. by apply Us.
  - intros k Hk. rewrite Es. intros H0. specialize (D k Hk H0). lia.
  - intros j k Hj Hk. rewrite !Es. by apply I.
  - intros p Hp Hk HU. rewrite <-B by done. unfold fbyte. rewrite <-!slot_faddr by fslia. rewrite Es.
    f_equal. apply E; [fslia|]. apply Us; [fslia|done].
Qed.

Lemma holds_uses c f i U V b : (forall k, -1 <= k < MAXFILE -> U k = V k) -> holds c f i U b -> holds c f i V b.
Proof.
  intros E [L Us D I B]. split; try done.
  - intros k Hk. rewrite <-E by done. by apply Us.
  - intros p Hp Hk. rewrite <-E by fslia. by apply B.
Qed.

(** Only the addresses matter. *)
Lemma holds_inode c f i i' U b : i_addrs i' = i_addrs i -> holds c f i U b -> holds c f i' U b /\ (forall k, slot c i' k = slot c i k).
Proof.
  intros E [L Us D I B].
  assert (Es : forall k, slot c i' k = slot c i k) by (intros k; unfold slot, faddr, addr_at; by rewrite E).
  split; [|done]. split; [congruence|..].
  - intros k Hk. rewrite Es. by apply Us.
  - intros k Hk. rewrite Es. by apply D.
  - intros j k Hj Hk. rewrite !Es. by apply I.
  - intros p Hp Hk HU. rewrite <-B by done. unfold fbyte. rewrite <-!slot_faddr by fslia. by rewrite Es.
Qed.

(** One more slot, with the next block of the image. *)
Lemma holds_slot c c' f i i' U b k0 :
  holds c f i U b -> nmeta <= f -> -1 <= k0 < MAXFILE -> U k0 = false -> length (i_addrs i') = 13%nat ->
  (forall k, -1 <= k < MAXFILE -> slot c' i' k = if decide (k = k0) then f else slot c i k) ->
  (forall k, 0 <= k < MAXFILE -> slot c i k <> 0 -> c' (slot c i k) = c (slot c i k)) ->
  (0 <= k0 -> c' f = zero_block /\ Z.of_nat (length b) <= k0 * BSIZE) ->
  holds c' (f + 1) i' (fun k => U k || (k =? k0)) b.
Proof.
  intros [L Us D I B] Hf Hk0 HU HL Es Hc Hz.
  assert (Hno : forall k, -1 <= k < MAXFILE -> slot c i k <> f).
  { intros k Hk E. specialize (D k Hk). fslia. }
  split; [done|..].
  - intros k Hk. rewrite Es by done. case_decide as E.
    + subst. rewrite Z.eqb_refl, orb_true_r. split; [done|]. intros _. fslia.
    + apply Z.eqb_neq in E. rewrite E, orb_false_r. by apply Us.
  - intros k Hk. rewrite Es by done. case_decide; [lia|]. intros H0. specialize (D k Hk H0). lia.
  - intros j k Hj Hk. rewrite !Es by done. repeat case_decide; try congruence.
    + intros _ E. exfalso. by apply (Hno k).
    + intros _ E. exfalso. by apply (Hno j).
    + by apply I.
  - intros p Hp Hk HUp. unfold fbyte. rewrite <-slot_faddr by fslia. rewrite Es by fslia. case_decide as E.
    + destruct Hz as [-> Hl]; [fslia|]. rewrite nth_zero_block. symmetry. apply nth_past. fslia.
    + apply Z.eqb_neq in E. rewrite E, orb_false_r in HUp. rewrite Hc; [|fslia|apply Us; [fslia|done]].
      rewrite <-B by done. unfold fbyte. by rewrite slot_faddr by fslia.
Qed.

(** ** The image *)

Abbreviation blocks_of s := (disk_block (img s)).

Record img_ok (s : mkstate) : Prop := {
  im_total : forall x, 0 <= x < FSSIZE -> is_Some (img s !! x);
  im_blocks : forall x, is_block (blocks_of s x);
  im_next : nmeta <= freeblock s <= FSSIZE;
  im_zero : forall x, freeblock s <= x -> blocks_of s x = zero_block;
}.

Lemma rsect_ok s x : img_ok s -> 0 <= x < FSSIZE -> rsect x s = Done (blocks_of s x) s.
Proof.
  intros Hs Hx. unfold rsect. rewrite bind_gets. destruct (im_total _ Hs x Hx) as [d E]. unfold disk_block. by rewrite E.
Qed.

Lemma wsect_blocks s x d y : disk_block (<[x := d]> (img s)) y = put (blocks_of s) x d y.
Proof.
  unfold disk_block, put. case_decide as E; [subst; by rewrite lookup_insert_eq|by rewrite lookup_insert_ne].
Qed.

(** The state after [wsect]. *)
Definition wrote (s : mkstate) (x : Z) (d : block) : mkstate := MkState (<[x := d]> (img s)) (freeinode s) (freeblock s).

Lemma wrote_ok s x d : img_ok s -> x < freeblock s -> is_block d -> img_ok (wrote s x d).
Proof.
  intros [T B N Z0] Hx Hd. split; cbn [img freeblock wrote]; [| |done|].
  - intros y Hy. destruct (decide (x = y)) as [->|]; [rewrite lookup_insert_eq; by eexists|]. rewrite lookup_insert_ne by done. by apply T.
  - intros y. rewrite wsect_blocks. unfold put. by case_decide.
  - intros y Hy. rewrite wsect_blocks. unfold put. rewrite decide_False by lia. by apply Z0.
Qed.

(** The state after [freeblock++]. *)
Definition bumped (s : mkstate) : mkstate := MkState (img s) (freeinode s) (freeblock s + 1).

Lemma next_block_ok s : img_ok s -> freeblock s + 1 <= FSSIZE ->
  next_block s = Done (freeblock s) (bumped s) /\ img_ok (bumped s).
Proof.
  intros [T B N Z0] Hf. split.
  - unfold next_block, bumped. rewrite bind_gets, bind_modify. rewrite u32_small by fslia. done.
  - split; cbn [img freeblock bumped]; [done|done|lia|]. intros x Hx. apply Z0. lia.
Qed.

(** ** A block for the next byte *)

Lemma uses_next len k : 0 <= len -> -1 <= k < MAXFILE ->
  uses (len + 1) k = uses len k || ((len mod BSIZE =? 0) && ((k =? len / BSIZE) || ((k =? -1) && (len / BSIZE =? NDIRECT)))).
Proof.
  intros Hl Hk. unfold uses, NDIRECT, BSIZE in *. destruct (Z.eqb_spec k (-1)) as [->|].
  - destruct (Z.ltb_spec (12 * 1024) (len + 1)), (Z.ltb_spec (12 * 1024) len), (Z.eqb_spec (len mod 1024) 0),
      (Z.eqb_spec (-1) (len / 1024)), (Z.eqb_spec (len / 1024) 12); cbn [andb orb]; try done; lia.
  - destruct (Z.ltb_spec (k * 1024) (len + 1)), (Z.ltb_spec (k * 1024) len), (Z.eqb_spec (len mod 1024) 0),
      (Z.eqb_spec k (len / 1024)); cbn [andb orb]; try done; lia.
Qed.

Lemma nblk_next len : 0 <= len ->
  nblk (len + 1) = nblk len + (if len mod BSIZE =? 0 then (if len / BSIZE =? NDIRECT then 2 else 1) else 0).
Proof.
  intros Hl. unfold nblk, NDIRECT, BSIZE in *.
  destruct (Z.eqb_spec (len mod 1024) 0), (Z.eqb_spec (len / 1024) 12), (Z.ltb_spec (12 * 1024) (len + 1)), (Z.ltb_spec (12 * 1024) len); lia.
Qed.

(** What [iappend_block] does to the file whose inode is [i]. *)
Record grew (s : mkstate) (i : inode) (b : list Z) (s' : mkstate) (i' : inode) : Prop := {
  gw_img : img_ok s';
  gw_free : freeinode s' = freeinode s;
  gw_next : freeblock s' = freeblock s + (nblk (Z.of_nat (length b) + 1) - nblk (Z.of_nat (length b)));
  gw_inode : i' = with_addrs (i_addrs i') i;
  gw_holds : holds (blocks_of s') (freeblock s') i' (uses (Z.of_nat (length b) + 1)) b;
  gw_frame : forall y, y < freeblock s -> y <> slot (blocks_of s) i (-1) -> blocks_of s' y = blocks_of s y;
  gw_slots : forall k, -1 <= k < MAXFILE -> slot (blocks_of s') i' k = slot (blocks_of s) i k \/ freeblock s <= slot (blocks_of s') i' k;
}.

(** An entry of the indirect block. *)
Definition entered (s : mkstate) (i : inode) (k : Z) : mkstate :=
  wrote (bumped s) (addr_at i NDIRECT) (st32 (blocks_of s (addr_at i NDIRECT)) (4 * (k - NDIRECT)) (freeblock s)).

Lemma holds_entry s i U b k :
  img_ok s -> holds (blocks_of s) (freeblock s) i U b -> freeblock s + 1 <= FSSIZE -> addr_at i NDIRECT <> 0 ->
  NDIRECT <= k < MAXFILE -> U k = false -> Z.of_nat (length b) <= k * BSIZE ->
  img_ok (entered s i k) /\ holds (blocks_of (entered s i k)) (freeblock s + 1) i (fun j => U j || (j =? k)) b /\
  (forall j, -1 <= j < MAXFILE -> slot (blocks_of (entered s i k)) i j = if decide (j = k) then freeblock s else slot (blocks_of s) i j).
Proof.
  intros Hs Hh Hf H0 Hk HU Hl. pose proof (h_data _ _ _ _ _ Hh (-1) ltac:(fslia) H0) as Hd. rewrite slot_ind in Hd.
  destruct (next_block_ok s Hs Hf) as [_ Hs1]. pose proof (im_next _ Hs).
  assert (Es : forall j, -1 <= j < MAXFILE -> slot (blocks_of (entered s i k)) i j = if decide (j = k) then freeblock s else slot (blocks_of s) i j).
  { intros j Hj. rewrite <-(slot_put_entry (blocks_of s) i k (freeblock s) j) by (done || apply Hs || fslia).
    apply slot_ext_all. intros x. apply (wsect_blocks (bumped s)). }
  assert (Hc : forall x, x <> addr_at i NDIRECT -> blocks_of (entered s i k) x = blocks_of s x).
  { intros x Hx. unfold entered, wrote. cbn [img]. rewrite wsect_blocks. unfold put. by rewrite decide_False. }
  split; [apply wrote_ok; [done|cbn [freeblock bumped]; lia|apply is_block_st32, Hs]|split; [|done]].
  apply (holds_slot (blocks_of s) _ _ i); try done; [lia|fslia|by apply Hh| |].
  - intros j Hj Hn. apply Hc. intros E. rewrite <-(slot_ind (blocks_of s)) in E.
    apply (h_inj _ _ _ _ _ Hh) in E; [lia|fslia|fslia|done].
  - intros _. split; [|done]. rewrite Hc by lia. apply Hs. lia.
Qed.

Section Grow.
Variables (s : mkstate) (i : inode) (b : list Z).
Abbreviation len := (Z.of_nat (length b)).
Abbreviation c := (blocks_of s).
Abbreviation k := (len / BSIZE).
Hypothesis Hs : img_ok s.
Hypothesis Hh : holds c (freeblock s) i (uses len) b.
Hypothesis Hlen : len < MAXFILE * BSIZE.
Hypothesis Hroom : freeblock s + (nblk (len + 1) - nblk len) <= FSSIZE.

Lemma grow_k : 0 <= k < MAXFILE /\ k * BSIZE <= len.
Proof. fslia. Qed.

Lemma grow_fresh : len mod BSIZE = 0 -> slot c i k = 0.
Proof.
  intros Hm. destruct grow_k as [Hk _]. destruct (decide (slot c i k = 0)) as [|H0]; [done|].
  apply (h_used _ _ _ _ _ Hh) in H0; [|fslia]. unfold uses in H0. destruct (Z.eqb_spec k (-1)); fslia.
Qed.

Lemma grow_there : len mod BSIZE <> 0 -> slot c i k <> 0.
Proof.
  intros Hm. destruct grow_k as [Hk _]. apply (h_used _ _ _ _ _ Hh); [fslia|]. unfold uses. destruct (Z.eqb_spec k (-1)); fslia.
Qed.

Lemma grow_ind : slot c i (-1) <> 0 <-> NDIRECT * BSIZE < len.
Proof. rewrite (h_used _ _ _ _ _ Hh) by fslia. unfold uses. cbn [Z.eqb Pos.eqb]. apply Z.ltb_lt. Qed.

Lemma grow_same : len mod BSIZE <> 0 -> grew s i b s i.
Proof.
  intros Hm. assert (En : nblk (len + 1) = nblk len).
  { rewrite nblk_next by lia. destruct (Z.eqb_spec (len mod BSIZE) 0); [done|lia]. }
  split; try done; [lia|apply with_addrs_same| |by left].
  apply (holds_uses _ _ _ (uses len)); [|done]. intros j Hj. rewrite uses_next by (done || lia).
  destruct (Z.eqb_spec (len mod BSIZE) 0); [done|]. by rewrite orb_false_r.
Qed.

Lemma slots_add s' i' k0 :
  (forall j, -1 <= j < MAXFILE -> slot (blocks_of s') i' j = if decide (j = k0) then freeblock s else slot c i j) ->
  forall j, -1 <= j < MAXFILE -> slot (blocks_of s') i' j = slot c i j \/ freeblock s <= slot (blocks_of s') i' j.
Proof. intros E j Hj. rewrite E by done. case_decide; [right; lia|by left]. Qed.

Lemma grow_direct : len mod BSIZE = 0 -> k < NDIRECT -> grew s i b (bumped s) (put_addr i k (freeblock s)).
Proof.
  intros Hm Hk. destruct grow_k as [Hk0 _]. pose proof (h_len _ _ _ _ _ Hh) as HL.
  assert (En : nblk (len + 1) = nblk len + 1).
  { rewrite nblk_next by lia. rewrite Hm. cbn [Z.eqb]. destruct (Z.eqb_spec k NDIRECT); [lia|done]. }
  assert (Es : forall j, -1 <= j < MAXFILE -> slot c (put_addr i k (freeblock s)) j = if decide (j = k) then freeblock s else slot c i j).
  { intros j Hj. apply slot_put_direct; [done|lia|done]. }
  split; [apply next_block_ok; [done|lia]|done|cbn [freeblock bumped]; lia|done| |done|by apply slots_add with (k0 := k)].
  apply (holds_uses _ _ _ (fun j => uses len j || (j =? k))).
  { intros j Hj. rewrite uses_next by (done || lia). rewrite Hm. cbn [Z.eqb andb]. destruct (Z.eqb_spec k NDIRECT); [lia|].
    by rewrite andb_false_r, orb_false_r. }
  apply (holds_slot c _ (freeblock s) i); try done; [apply Hs|lia| |unfold put_addr; cbn [i_addrs with_addrs]; by rewrite length_insert|].
  - destruct (uses len k) eqn:E; [|done]. apply (h_used _ _ _ _ _ Hh) in E; [|lia]. by rewrite grow_fresh in E.
  - intros _. split; [apply (im_zero _ Hs); cbn; lia|fslia].
Qed.

Lemma grow_entry : len mod BSIZE = 0 -> NDIRECT < k -> grew s i b (entered s i k) i.
Proof.
  intros Hm Hk. destruct grow_k as [Hk0 _]. assert (Hi : addr_at i NDIRECT <> 0) by (apply grow_ind; fslia).
  assert (En : nblk (len + 1) = nblk len + 1).
  { rewrite nblk_next by lia. rewrite Hm. cbn [Z.eqb]. destruct (Z.eqb_spec k NDIRECT); [lia|done]. }
  destruct (holds_entry s i (uses len) b k) as (H1 & H2 & H3); try done; [lia|lia| |fslia|].
  { destruct (uses len k) eqn:E; [|done]. apply (h_used _ _ _ _ _ Hh) in E; [|fslia]. by rewrite grow_fresh in E. }
  split; [done|done|cbn [freeblock entered wrote bumped]; lia|apply with_addrs_same| | |by apply slots_add with (k0 := k)].
  - eapply holds_uses; [|exact H2]. intros j Hj. cbv beta. rewrite uses_next by (done || lia). rewrite Hm. cbn [Z.eqb andb].
    destruct (Z.eqb_spec k NDIRECT); [lia|]. by rewrite andb_false_r, orb_false_r.
  - intros y Hy Hne. unfold entered, wrote. cbn [img]. rewrite wsect_blocks. unfold put. by rewrite decide_False.
Qed.

Lemma grow_first : len mod BSIZE = 0 -> k = NDIRECT ->
  let i1 := put_addr i NDIRECT (freeblock s) in
  addr_at i1 NDIRECT = freeblock s /\ blocks_of s (freeblock s) = zero_block /\ grew s i b (entered (bumped s) i1 k) i1.
Proof.
  intros Hm Hk i1. destruct grow_k as [Hk0 _]. pose proof (h_len _ _ _ _ _ Hh) as HL. pose proof (im_next _ Hs).
  assert (H0 : addr_at i NDIRECT = 0).
  { destruct (decide (addr_at i NDIRECT = 0)) as [|E]; [done|]. apply (proj1 grow_ind) in E. fslia. }
  assert (Hz : blocks_of s (freeblock s) = zero_block) by (apply Hs; lia).
  assert (Ei : addr_at i1 NDIRECT = freeblock s).
  { unfold i1. rewrite addr_at_put by (done || fslia). by rewrite decide_True. }
  assert (En : nblk (len + 1) = nblk len + 2).
  { rewrite nblk_next by lia. rewrite Hm, Hk. done. }
  assert (Es : forall j, -1 <= j < MAXFILE -> slot c i1 j = if decide (j = -1) then freeblock s else slot c i j).
  { intros j Hj. apply slot_put_ind; try done. fslia. }
  assert (Hh1 : holds c (freeblock s + 1) i1 (fun j => uses len j || (j =? -1)) b).
  { apply (holds_slot c _ (freeblock s) i); try done; [lia| |].
    - unfold uses. cbn [Z.eqb Pos.eqb]. apply Z.ltb_ge. fslia.
    - unfold i1, put_addr. cbn [i_addrs with_addrs]. by rewrite length_insert. }
  split; [done|]. split; [done|].
  destruct (next_block_ok s Hs ltac:(lia)) as [_ Hs1].
  destruct (holds_entry (bumped s) i1 (fun j => uses len j || (j =? -1)) b k) as (H1 & H2 & H3); try done;
    [cbn [freeblock bumped]; lia|rewrite Ei; fslia|fslia| |fslia|].
  { destruct (Z.eqb_spec k (-1)); [lia|]. rewrite orb_false_r. destruct (uses len k) eqn:E; [|done].
    apply (h_used _ _ _ _ _ Hh) in E; [|fslia]. by rewrite grow_fresh in E. }
  cbn [freeblock bumped] in H2. split; [done|done|cbn [freeblock entered wrote bumped]; lia|done| | |].
  - cbn [freeblock entered wrote bumped]. eapply holds_uses; [|exact H2]. intros j Hj. cbv beta. rewrite uses_next by (done || lia). rewrite Hm. cbn [Z.eqb andb].
    rewrite Hk, Z.eqb_refl, andb_true_r, <-orb_assoc. f_equal. apply orb_comm.
  - intros y Hy Hne. unfold entered, wrote. cbn [img]. rewrite wsect_blocks. unfold put. rewrite decide_False by lia. done.
  - intros j Hj. rewrite H3 by done. cbn [freeblock bumped img]. case_decide; [right; lia|]. rewrite Es by done.
    case_decide; [right; lia|by left].
Qed.
End Grow.

(** [iappend_block] finds or makes the block of the next byte. *)
Definition finds_block (s : mkstate) (i : inode) (b : list Z) : Prop :=
  exists i' s', iappend_block i (Z.of_nat (length b) / BSIZE) s = Done (i', slot (blocks_of s') i' (Z.of_nat (length b) / BSIZE)) s' /\ grew s i b s' i'.

Section Find.
Variables (s : mkstate) (i : inode) (b : list Z).
Abbreviation len := (Z.of_nat (length b)).
Hypothesis Hs : img_ok s.
Hypothesis Hh : holds (blocks_of s) (freeblock s) i (uses len) b.
Hypothesis Hl : len < MAXFILE * BSIZE.
Hypothesis Hr : freeblock s + (nblk (len + 1) - nblk len) <= FSSIZE.

Lemma find_direct : len / BSIZE < NDIRECT -> finds_block s i b.
Proof.
  intros Hd. destruct (grow_k b Hl) as [Hk _]. pose proof (im_next _ Hs) as Hf. pose proof (nblk_next len ltac:(lia)) as En.
  unfold finds_block, iappend_block. rewrite (proj2 (Z.ltb_lt _ _) Hd). destruct (decide (len mod BSIZE = 0)) as [Hm|Hm].
  - pose proof (grow_fresh s i b Hh Hl Hm) as H0. rewrite slot_direct in H0 by lia. rewrite H0. cbn [Z.eqb].
    rewrite Hm in En. cbn [Z.eqb] in En. destruct (Z.eqb_spec (len / BSIZE) NDIRECT); [lia|].
    destruct (next_block_ok s Hs) as [E _]; [lia|]. rewrite !bind_assoc. mstep E. rewrite !bind_ret, xint_small by fslia.
    eexists _, _. split; [|by apply (grow_direct s i b)]. rewrite slot_direct by lia. done.
  - pose proof (grow_there s i b Hh Hl Hm) as H0. rewrite slot_direct in H0 by lia.
    rewrite (proj2 (Z.eqb_neq _ 0)) by done. rewrite bind_ret. eexists i, s. split; [|by apply (grow_same s i b)].
    rewrite slot_direct by lia. done.
Qed.

Lemma find_first_indirect : len mod BSIZE = 0 -> len / BSIZE = NDIRECT -> finds_block s i b.
Proof.
  intros Hm Ek. destruct (grow_k b Hl) as [Hk _]. pose proof (im_next _ Hs) as Hf. pose proof (nblk_next len ltac:(lia)) as En.
  rewrite Hm, Ek in En. cbn [Z.eqb] in En. rewrite Z.eqb_refl in En.
  destruct (grow_first s i b Hs Hh Hl Hr Hm Ek) as (Ea & Ez & G).
  assert (Hi : addr_at i NDIRECT = 0).
  { destruct (decide (addr_at i NDIRECT = 0)) as [|E]; [done|]. apply (proj1 (grow_ind s i b Hh Hl)) in E. fslia. }
  unfold finds_block, iappend_block. destruct (Z.ltb_spec (len / BSIZE) NDIRECT); [lia|].
  rewrite Hi. cbn [Z.eqb]. destruct (next_block_ok s Hs) as [E Hs1]; [lia|]. rewrite !bind_assoc. mstep E. rewrite !bind_ret, xint_small by fslia.
  fold (put_addr i NDIRECT (freeblock s)). rewrite Ea. mstep (rsect_ok _ (freeblock s) Hs1 ltac:(fslia)).
  change (blocks_of (bumped s)) with (blocks_of s). rewrite Ez, ld32_zero. cbn [Z.eqb].
  destruct (next_block_ok (bumped s) Hs1) as [E' _]; [cbn [freeblock bumped]; lia|]. mstep E'. cbv beta zeta. cbn [freeblock bumped].
  eexists _, _. split; [|exact G]. rewrite xint_small by fslia. unfold wsect. rewrite bind_modify.
  unfold entered. cbn [img freeinode freeblock bumped wrote]. rewrite Ea, Ez. unfold mret, M_ret. do 2 f_equal.
  rewrite slot_indirect by (rewrite ?Ea; fslia). rewrite Ea. cbn [img]. rewrite (wsect_blocks s). unfold put. by rewrite decide_True.
Qed.

Lemma find_indirect : NDIRECT * BSIZE < len -> finds_block s i b.
Proof.
  intros Hi. destruct (grow_k b Hl) as [Hk _]. pose proof (im_next _ Hs) as Hf. pose proof (nblk_next len ltac:(lia)) as En.
  pose proof (proj2 (grow_ind s i b Hh Hl) Hi) as H0. pose proof (h_data _ _ _ _ _ Hh (-1) ltac:(fslia) H0) as Hd. rewrite slot_ind in H0, Hd.
  unfold finds_block, iappend_block. destruct (Z.ltb_spec (len / BSIZE) NDIRECT); [fslia|].
  rewrite (proj2 (Z.eqb_neq _ 0)) by done. rewrite bind_ret. mstep (rsect_ok _ (addr_at i NDIRECT) Hs ltac:(fslia)).
  rewrite <-slot_indirect by done. destruct (decide (len mod BSIZE = 0)) as [Hm|Hm].
  - rewrite (grow_fresh s i b Hh Hl Hm). cbn [Z.eqb]. rewrite Hm in En. cbn [Z.eqb] in En.
    destruct (Z.eqb_spec (len / BSIZE) NDIRECT); [fslia|]. destruct (next_block_ok s Hs) as [E _]; [lia|]. mstep E. cbv beta zeta.
    eexists i, _. split; [|apply (grow_entry s i b); (done || lia)]. rewrite xint_small by fslia. unfold wsect. rewrite bind_modify.
    unfold mret, M_ret. do 2 f_equal. rewrite slot_indirect by (done || lia). cbn [img entered wrote]. rewrite (wsect_blocks s). unfold put. by rewrite decide_True.
  - rewrite (proj2 (Z.eqb_neq _ 0)) by (by apply (grow_there s i b)). eexists i, s. split; [done|]. by apply (grow_same s i b).
Qed.

Lemma iappend_block_ok : finds_block s i b.
Proof.
  destruct (Z.lt_ge_cases (len / BSIZE) NDIRECT); [by apply find_direct|].
  destruct (decide (NDIRECT * BSIZE < len)); [by apply find_indirect|]. apply find_first_indirect; fslia.
Qed.
End Find.

(** ** Appending *)

Record appended (s : mkstate) (i : inode) (b p : list Z) (s' : mkstate) (i' : inode) : Prop := {
  ap_img : img_ok s';
  ap_free : freeinode s' = freeinode s;
  ap_next : freeblock s' = freeblock s + (nblk (Z.of_nat (length (b ++ p))) - nblk (Z.of_nat (length b)));
  ap_inode : i' = with_addrs (i_addrs i') i;
  ap_holds : holds (blocks_of s') (freeblock s') i' (uses (Z.of_nat (length (b ++ p)))) (b ++ p);
  ap_frame : forall y, y < freeblock s -> (forall k, -1 <= k < MAXFILE -> slot (blocks_of s) i k <> y) -> blocks_of s' y = blocks_of s y;
  ap_slots : forall k, -1 <= k < MAXFILE -> slot (blocks_of s') i' k = slot (blocks_of s) i k \/ freeblock s <= slot (blocks_of s') i' k;
}.

Lemma appended_nil s i b : img_ok s -> holds (blocks_of s) (freeblock s) i (uses (Z.of_nat (length b))) b -> appended s i b [] s i.
Proof. intros Hs Hh. split; rewrite ?app_nil_r; try done; [lia|apply with_addrs_same|by left]. Qed.

Lemma appended_app s i b p q s1 i1 s2 i2 :
  appended s i b p s1 i1 -> appended s1 i1 (b ++ p) q s2 i2 -> freeblock s <= freeblock s1 -> appended s i b (p ++ q) s2 i2.
Proof.
  intros [A1 A2 A3 A4 A5 A6 A7] [B1 B2 B3 B4 B5 B6 B7] Hle. rewrite <-app_assoc in *. split; try done.
  - congruence.
  - lia.
  - rewrite B4, A4. done.
  - intros y Hy Hn. rewrite B6; [by apply A6|lia|]. intros k Hk. destruct (A7 k Hk) as [->|]; [by apply Hn|lia].
  - intros k Hk. destruct (B7 k Hk) as [->|]; [by apply A7|right; lia].
Qed.

(** Bytes written into the last block, from the end of the file. *)
Section Fill.
Variables (s : mkstate) (i : inode) (b chunk : list Z).
Abbreviation len := (Z.of_nat (length b)).
Abbreviation k := (len / BSIZE).
Abbreviation x := (slot (blocks_of s) i k).
Abbreviation d := (splice (blocks_of s x) (len - k * BSIZE) chunk).
Hypothesis Hs : img_ok s.
Hypothesis Hh : holds (blocks_of s) (freeblock s) i (uses (len + 1)) b.
Hypothesis Hl : len < MAXFILE * BSIZE.
Hypothesis Hn : 0 < Z.of_nat (length chunk) <= (k + 1) * BSIZE - len.

Lemma fill_slot : x <> 0 /\ nmeta <= x < freeblock s.
Proof.
  assert (H0 : x <> 0).
  { apply (h_used _ _ _ _ _ Hh); [fslia|]. unfold uses. destruct (Z.eqb_spec k (-1)); fslia. }
  split; [done|]. apply (h_data _ _ _ _ _ Hh); [fslia|done].
Qed.

Lemma fill_fits : 0 <= len - k * BSIZE /\ len - k * BSIZE + Z.of_nat (length chunk) <= Z.of_nat (length (blocks_of s x)).
Proof. pose proof (im_blocks _ Hs x) as Hb. unfold is_block in Hb. rewrite Hb. fslia. Qed.

Lemma fill_img : img_ok (wrote s x d).
Proof.
  destruct fill_slot. destruct fill_fits. apply wrote_ok; [done|lia|]. unfold is_block. rewrite length_splice by lia. apply Hs.
Qed.

Lemma fill_slots j : slot (blocks_of (wrote s x d)) i j = slot (blocks_of s) i j.
Proof.
  destruct fill_slot as [H0 _]. apply slot_ext. intros Hi. cbn [img wrote]. rewrite wsect_blocks. unfold put. rewrite decide_False; [done|].
  intros E. rewrite <-(slot_ind (blocks_of s)) in E. apply (h_inj _ _ _ _ _ Hh) in E; fslia.
Qed.

Lemma fill_bytes p :
  0 <= p -> p / BSIZE < MAXFILE -> uses (len + 1) (p / BSIZE) = true ->
  fbyte (blocks_of (wrote s x d)) i p = nth (Z.to_nat p) (b ++ chunk) 0.
Proof.
  intros Hp Hk HU. destruct fill_fits as [F1 F2]. pose proof (h_bytes _ _ _ _ _ Hh p Hp Hk HU) as Hb.
  unfold fbyte in *. rewrite <-!slot_faddr in * by fslia. rewrite fill_slots. cbn [img wrote]. rewrite wsect_blocks. unfold put.
  case_decide as E.
  - apply (h_inj _ _ _ _ _ Hh) in E; [|fslia|fslia|by apply (h_used _ _ _ _ _ Hh); [fslia|]].
    rewrite nth_splice by done. case_decide as Hi.
    + rewrite app_nth2 by fslia. f_equal. fslia.
    + rewrite E in Hb. rewrite Hb. destruct (Z.lt_ge_cases p len); [by rewrite app_nth1 by lia|].
      rewrite !nth_past; [done| |lia]. rewrite length_app. fslia.
  - rewrite Hb. assert (p / BSIZE <> k) by (intros E'; apply E; by rewrite E').
    assert (p < len) by (unfold uses in HU; destruct (Z.eqb_spec (p / BSIZE) (-1)); fslia). by rewrite app_nth1 by lia.
Qed.

Lemma fill_uses j : -1 <= j < MAXFILE -> uses (Z.of_nat (length (b ++ chunk))) j = uses (len + 1) j.
Proof.
  intros Hj. rewrite length_app. unfold uses. destruct (Z.eqb_spec j (-1)).
  - destruct (Z.ltb_spec (NDIRECT * BSIZE) (Z.of_nat (length b + length chunk))), (Z.ltb_spec (NDIRECT * BSIZE) (len + 1)); fslia.
  - destruct (Z.ltb_spec (j * BSIZE) (Z.of_nat (length b + length chunk))), (Z.ltb_spec (j * BSIZE) (len + 1)); fslia.
Qed.

Lemma fill_nblk : nblk (Z.of_nat (length (b ++ chunk))) = nblk (len + 1).
Proof.
  rewrite length_app. unfold nblk.
  destruct (Z.ltb_spec (NDIRECT * BSIZE) (Z.of_nat (length b + length chunk))), (Z.ltb_spec (NDIRECT * BSIZE) (len + 1)); fslia.
Qed.

Lemma fill_holds : holds (blocks_of (wrote s x d)) (freeblock s) i (uses (Z.of_nat (length (b ++ chunk)))) (b ++ chunk).
Proof.
  pose proof Hh as [L Us D I B]. split; [done|..].
  - intros j Hj. rewrite fill_slots, fill_uses by done. by apply Us.
  - intros j Hj. rewrite fill_slots. by apply D.
  - intros j j' Hj Hj'. rewrite !fill_slots. by apply I.
  - intros p Hp Hk. rewrite fill_uses by fslia. by apply fill_bytes.
Qed.
End Fill.

Lemma grew_filled s i b s1 i1 chunk :
  let k := Z.of_nat (length b) / BSIZE in
  let x := slot (blocks_of s1) i1 k in
  grew s i b s1 i1 -> Z.of_nat (length b) < MAXFILE * BSIZE -> 0 < Z.of_nat (length chunk) <= (k + 1) * BSIZE - Z.of_nat (length b) ->
  appended s i b chunk (wrote s1 x (splice (blocks_of s1 x) (Z.of_nat (length b) - k * BSIZE) chunk)) i1.
Proof.
  intros k x [G1 G2 G3 G4 G5 G6 G7] Hl Hn. pose proof (fill_slot s1 i1 b chunk G5 Hl) as [Hx0 Hx].
  split; [by apply (fill_img s1 i1 b chunk)|done| |done|by apply (fill_holds s1 i1 b chunk)| |].
  - cbn [freeblock wrote]. rewrite fill_nblk by done. done.
  - intros y Hy Hne. cbn [img wrote]. rewrite wsect_blocks. unfold put. rewrite decide_False.
    + apply G6; [done|]. intros ->. apply (Hne (-1)); [fslia|done].
    + intros ->. destruct (G7 k ltac:(fslia)) as [E|]; [|lia]. apply (Hne k); [fslia|done].
  - intros j Hj. unfold x, k. rewrite (fill_slots s1 i1 b chunk) by done. by apply G7.
Qed.

Lemma nblk_mono a b : 0 <= a <= b -> nblk a <= nblk b.
Proof. intros. unfold nblk. destruct (Z.ltb_spec (NDIRECT * BSIZE) a), (Z.ltb_spec (NDIRECT * BSIZE) b); fslia. Qed.

Lemma iappend_loop_step fuel din off p s :
  p <> [] -> off / BSIZE < MAXFILE ->
  iappend_loop (S fuel) din off p s =
  (r ← iappend_block din (off / BSIZE);
   let n1 := Z.min (Z.of_nat (length p)) ((off / BSIZE + 1) * BSIZE - off) in
   buf ← rsect (snd r);
   wsect (snd r) (splice buf (off - off / BSIZE * BSIZE) (take (Z.to_nat n1) p));;
   iappend_loop fuel (fst r) (off + n1) (drop (Z.to_nat n1) p)) s.
Proof. intros Hp Hk. destruct p; [done|]. cbn [iappend_loop]. destruct (Z.leb_spec MAXFILE (off / BSIZE)); [lia|done]. Qed.

Lemma iappend_loop_ok fuel s i b p :
  img_ok s -> holds (blocks_of s) (freeblock s) i (uses (Z.of_nat (length b))) b -> Z.of_nat (length (b ++ p)) <= MAXFILE * BSIZE ->
  freeblock s + (nblk (Z.of_nat (length (b ++ p))) - nblk (Z.of_nat (length b))) <= FSSIZE -> (length p <= fuel)%nat ->
  exists i' s', iappend_loop fuel i (Z.of_nat (length b)) p s = Done (i', Z.of_nat (length (b ++ p))) s' /\ appended s i b p s' i'.
Proof.
  revert s i b p. induction fuel as [|fuel IH]; intros s i b p Hs Hh Hl Hr Hf.
  { destruct p; [|cbn in Hf; lia]. exists i, s. rewrite app_nil_r. split; [done|]. by apply appended_nil. }
  destruct (decide (p = [])) as [->|Hp].
  { exists i, s. rewrite app_nil_r. split; [done|]. by apply appended_nil. }
  assert (Hp1 : (0 < length p)%nat) by (destruct p; [done|cbn; lia]). rewrite length_app in Hl, Hr.
  pose proof (nblk_mono (Z.of_nat (length b) + 1) (Z.of_nat (length b + length p)) ltac:(lia)) as Hm.
  destruct (iappend_block_ok s i b Hs Hh ltac:(lia) ltac:(lia)) as (i1 & s1 & E1 & G).
  set (k := Z.of_nat (length b) / BSIZE) in *. set (n1 := Z.min (Z.of_nat (length p)) ((k + 1) * BSIZE - Z.of_nat (length b))).
  assert (Hn1 : 0 < n1 <= (k + 1) * BSIZE - Z.of_nat (length b)) by (unfold n1, k; fslia).
  assert (Hn2 : length (take (Z.to_nat n1) p) = Z.to_nat n1) by (rewrite length_take; lia).
  pose proof (grew_filled s i b s1 i1 (take (Z.to_nat n1) p) G ltac:(lia) ltac:(fold k; lia)) as A. cbv zeta in A. fold k in A.
  destruct (fill_slot s1 i1 b (take (Z.to_nat n1) p) (gw_holds _ _ _ _ _ G) ltac:(lia)) as [_ Hx]. fold k in Hx. pose proof (im_next _ (gw_img _ _ _ _ _ G)) as Hf1.
  set (x := slot (blocks_of s1) i1 k) in *. set (s2 := wrote s1 x _) in A. pose proof (ap_next _ _ _ _ _ _ A) as En.
  rewrite length_app, Hn2 in En. pose proof (nblk_mono (Z.of_nat (length b)) (Z.of_nat (length b + Z.to_nat n1)) ltac:(lia)).
  assert (Epq : (b ++ take (Z.to_nat n1) p) ++ drop (Z.to_nat n1) p = b ++ p) by (rewrite <-app_assoc, take_drop; done).
  destruct (IH s2 i1 (b ++ take (Z.to_nat n1) p) (drop (Z.to_nat n1) p)) as (i' & s' & E' & A').
  - apply A.
  - apply A.
  - rewrite Epq, length_app. lia.
  - rewrite Epq, !length_app, Hn2. lia.
  - rewrite length_drop. lia.
  - exists i', s'. split; [|rewrite <-(take_drop (Z.to_nat n1) p); apply (appended_app s i b _ _ s2 i1); [done|done|lia]].
    rewrite Epq in E'. rewrite length_app, Hn2 in E'. replace (Z.of_nat (length b + Z.to_nat n1)) with (Z.of_nat (length b) + n1) in E' by lia.
    rewrite <-E'. rewrite iappend_loop_step by (done || fslia). fold k. mstep E1. cbv zeta. cbn [snd fst]. fold x n1.
    mstep (rsect_ok s1 x (gw_img _ _ _ _ _ G) ltac:(fslia)). done.
Qed.
