(* ===== verification/MkfsInv.v ===== *)
(** * The image [mkfs] makes: inodes and their files

    [minv s l]: the image holds the files [l], a type and the bytes of each, as the inodes
    1, 2, ...; no two of them share a block. *)

From S2P Require Import Prelude Mem CString Block Sleeplock Bio LogSpec Fs FsBlocks FsAlloc FsInode FsRw FsDisk FsWrite Mkfs MkfsSpec.

(** The inode [inum] of the image. *)
Definition ino (c : Z -> block) (inum : Z) : inode := dinode_get (c (IBLOCK inum mk_sb)) (dinode_off inum) (no_inode inum).

Lemma IBLOCK_range inum : 0 <= inum < NINODES -> 32 <= IBLOCK inum mk_sb < 45.
Proof.
  intros H. unfold IBLOCK. change (sb_inodestart mk_sb) with 32. rewrite u32_small; unfold IPB, NINODES, BSIZE in *; lia.
Qed.

Record has_file (c : Z -> block) (f inum : Z) (t : Z) (b : list Z) : Prop := {
  hf_type : i_type (ino c inum) = t;
  hf_dev : i_major (ino c inum) = 0 /\ i_minor (ino c inum) = 0;
  hf_nlink : i_nlink (ino c inum) = 1;
  hf_size : i_size (ino c inum) = Z.of_nat (length b);
  hf_max : Z.of_nat (length b) <= MAXFILE * BSIZE;
  hf_holds : holds c f (ino c inum) (uses (Z.of_nat (length b))) b;
}.

Fixpoint total (l : list (Z * list Z)) : Z :=
  match l with [] => 0 | x :: l => nblk (Z.of_nat (length (snd x))) + total l end.

Record minv (s : mkstate) (l : list (Z * list Z)) : Prop := {
  mi_img : img_ok s;
  mi_num : freeinode s = Z.of_nat (length l) + 1;
  mi_max : Z.of_nat (length l) < NINODES;
  mi_next : freeblock s = nmeta + total l;
  mi_sb : blocks_of s 1 = sb_block;
  mi_log : forall x, 2 <= x < 32 -> blocks_of s x = zero_block;
  mi_type : forall n t b, l !! n = Some (t, b) -> - 2 ^ 15 <= t < 2 ^ 15;
  mi_files : forall n t b, l !! n = Some (t, b) -> has_file (blocks_of s) (freeblock s) (Z.of_nat n + 1) t b;
  mi_apart : forall n m j k, (n < length l)%nat -> (m < length l)%nat -> -1 <= j < MAXFILE -> -1 <= k < MAXFILE ->
    slot (blocks_of s) (ino (blocks_of s) (Z.of_nat n + 1)) j <> 0 ->
    slot (blocks_of s) (ino (blocks_of s) (Z.of_nat n + 1)) j = slot (blocks_of s) (ino (blocks_of s) (Z.of_nat m + 1)) k -> n = m;
}.

Lemma itotal_app l l' : total (l ++ l') = total l + total l'.
Proof. induction l as [|x l IH]; cbn [total app]; lia. Qed.

Lemma total_insert l n t b t' b' :
  l !! n = Some (t, b) -> total (<[n := (t', b')]> l) = total l + (nblk (Z.of_nat (length b')) - nblk (Z.of_nat (length b))).
Proof.
  revert n. induction l as [|x l IH]; intros [|n] H; [done|done|injection H as ->; cbn [total list_insert insert list_insert snd]; lia|].
  specialize (IH n H). change (nblk (Z.of_nat (length (snd x))) + total (<[n := (t', b')]> l) =
    nblk (Z.of_nat (length (snd x))) + total l + (nblk (Z.of_nat (length b')) - nblk (Z.of_nat (length b)))). lia.
Qed.

(** ** Writing an inode *)

(** Another block leaves an inode as it is. *)
Lemma ino_ext c c' inum : c' (IBLOCK inum mk_sb) = c (IBLOCK inum mk_sb) -> ino c' inum = ino c inum.
Proof. intros E. unfold ino. by rewrite E. Qed.

Definition put_ino (c : Z -> block) (inum : Z) (i : inode) : Z -> block :=
  put c (IBLOCK inum mk_sb) (dinode_put (c (IBLOCK inum mk_sb)) (dinode_off inum) i).

Lemma ino_put_eq c inum i :
  is_block (c (IBLOCK inum mk_sb)) -> dinode_ok i -> ino (put_ino c inum i) inum = with_dinode i (no_inode inum).
Proof. intros Hb Hi. unfold ino, put_ino, put. rewrite decide_True by done. by apply dinode_get_put. Qed.

Lemma ino_put_ne c a b i :
  0 <= a < NINODES -> 0 <= b < NINODES -> a <> b -> length (i_addrs i) = 13%nat -> ino (put_ino c a i) b = ino c b.
Proof.
  intros Ha Hb Hne Hl. unfold ino, put_ino, put. case_decide as E; [|done]. rewrite <-E. apply dinode_get_put_ne; [lia|lia| |done].
  unfold IBLOCK in E. change (sb_inodestart mk_sb) with 32 in E. unfold dinode_off, IPB, NINODES, BSIZE in *.
  rewrite !u32_small in E by lia. lia.
Qed.

Lemma winode_ok s inum i :
  img_ok s -> 0 <= inum < NINODES -> exists s', winode inum i s = Done tt s' /\ img_ok s' /\ freeinode s' = freeinode s /\
    freeblock s' = freeblock s /\ (forall x, blocks_of s' x = put_ino (blocks_of s) inum i x).
Proof.
  intros Hs Hn. pose proof (IBLOCK_range inum Hn). pose proof (im_next _ Hs). unfold winode.
  mstep (rsect_ok s (IBLOCK inum mk_sb) Hs ltac:(fslia)). eexists. split; [reflexivity|].
  split; [apply wrote_ok; [done|fslia|apply is_block_dinode_put, Hs]|]. split; [done|]. split; [done|].
  intros x. apply wsect_blocks.
Qed.

(** The data blocks of a file are untouched by a write below them. *)
Lemma has_file_frame c c' f f' inum t b :
  has_file c f inum t b -> f <= f' -> ino c' inum = ino c inum ->
  (forall k, -1 <= k < MAXFILE -> slot c (ino c inum) k <> 0 -> c' (slot c (ino c inum) k) = c (slot c (ino c inum) k)) ->
  has_file c' f' inum t b /\ (forall k, slot c' (ino c' inum) k = slot c (ino c inum) k).
Proof.
  intros [H1 H2 H3 H4 H5 H6] Hf Ei E. destruct (holds_frame c c' f f' _ _ _ H6 Hf E) as [Hh Es].
  rewrite Ei. split; [|done]. split; rewrite ?Ei; done.
Qed.

Lemma addrs_small c f i U b : holds c f i U b -> f <= FSSIZE -> Forall (fun a => 0 <= a < 2 ^ 32) (i_addrs i).
Proof.
  intros [L Us D I B] Hf. apply Forall_lookup. intros n a Ha. pose proof (lookup_lt_Some _ _ _ Ha) as Hn. rewrite L in Hn.
  assert (Ea : a = addr_at i (Z.of_nat n)) by (unfold addr_at; rewrite Nat2Z.id; symmetry; by apply nth_lookup_Some).
  destruct (decide (a = 0)) as [->|H0]; [done|]. destruct (decide (n = 12%nat)) as [->|Hne].
  - specialize (D (-1) ltac:(fslia)). rewrite slot_ind in D. change (Z.of_nat 12) with NDIRECT in Ea. specialize (D ltac:(congruence)). fslia.
  - specialize (D (Z.of_nat n) ltac:(fslia)). rewrite slot_direct in D by fslia. specialize (D ltac:(congruence)). fslia.
Qed.

(** ** One file changes *)

Section Change.
Variables (s s2 : mkstate) (l l' : list (Z * list Z)) (n : nat) (t : Z) (b : list Z).
Abbreviation islot s m k := (slot (blocks_of s) (ino (blocks_of s) (Z.of_nat m + 1)) k).
Hypothesis Hs : minv s l.
Hypothesis Hi2 : img_ok s2.
Hypothesis Hn2 : freeinode s2 = Z.of_nat (length l') + 1.
Hypothesis Hmax : Z.of_nat (length l') < NINODES.
Hypothesis Ht : - 2 ^ 15 <= t < 2 ^ 15.
Hypothesis Hb2 : freeblock s2 = nmeta + total l'.
Hypothesis Hle : freeblock s <= freeblock s2.
Hypothesis Hl' : l' !! n = Some (t, b).
Hypothesis Hne : forall m, m <> n -> l' !! m = l !! m.
Hypothesis Hfile : has_file (blocks_of s2) (freeblock s2) (Z.of_nat n + 1) t b.
Hypothesis Hino : forall m, m <> n -> (m < length l)%nat -> ino (blocks_of s2) (Z.of_nat m + 1) = ino (blocks_of s) (Z.of_nat m + 1).
Hypothesis Hmeta : forall x, 1 <= x < 32 -> blocks_of s2 x = blocks_of s x.
Hypothesis Hdata : forall x, nmeta <= x < freeblock s ->
  (forall k, -1 <= k < MAXFILE -> (n < length l)%nat -> islot s n k <> x) -> blocks_of s2 x = blocks_of s x.
Hypothesis Hslots : forall k, -1 <= k < MAXFILE -> islot s2 n k <> 0 ->
  (n < length l)%nat /\ islot s2 n k = islot s n k \/ freeblock s <= islot s2 n k.

Lemma change_lt m : m <> n -> (m < length l')%nat -> (m < length l)%nat.
Proof. intros Hm Hl. apply lookup_lt_is_Some. rewrite <-Hne by done. by apply lookup_lt_is_Some. Qed.

Lemma change_other m t' b' : m <> n -> l !! m = Some (t', b') ->
  has_file (blocks_of s2) (freeblock s2) (Z.of_nat m + 1) t' b' /\ (forall k, islot s2 m k = islot s m k).
Proof.
  intros Hm El. pose proof (lookup_lt_Some _ _ _ El).
  apply (has_file_frame (blocks_of s) _ (freeblock s)); [by apply (mi_files _ _ Hs)|done|by apply Hino|].
  intros k Hk H0. apply Hdata; [by apply (h_data _ _ _ _ _ (hf_holds _ _ _ _ _ (mi_files _ _ Hs _ _ _ El)))|].
  intros j Hj Hnl E. symmetry in E. by apply (mi_apart _ _ Hs) in E.
Qed.

Lemma change_new m j k : m <> n -> (m < length l')%nat -> -1 <= j < MAXFILE -> -1 <= k < MAXFILE ->
  islot s2 n j <> 0 -> islot s2 n j <> islot s2 m k.
Proof.
  intros Hm Hml Hj Hk H0 E. pose proof (change_lt m Hm Hml) as Hlt. destruct (lookup_lt_is_Some_2 _ _ Hlt) as [[t' b'] El].
  destruct (change_other m t' b' Hm El) as [Hf Es]. rewrite Es in E.
  pose proof (h_data _ _ _ _ _ (hf_holds _ _ _ _ _ (mi_files _ _ Hs _ _ _ El)) k Hk) as Hd.
  rewrite <-E in Hd. specialize (Hd H0). destruct (Hslots j Hj H0) as [[Hnl E2]|]; [|lia].
  rewrite E2 in E, H0. by apply (mi_apart _ _ Hs) in E.
Qed.

Lemma minv_change : minv s2 l'.
Proof.
  split; try done.
  - rewrite Hmeta by lia. apply (mi_sb _ _ Hs).
  - intros x Hx. rewrite Hmeta by lia. by apply (mi_log _ _ Hs).
  - intros m t' b' El. destruct (decide (m = n)) as [->|Hm]; [rewrite Hl' in El; by injection El as <- <-|]. rewrite Hne in El by done. by apply (mi_type _ _ Hs _ _ _ El).
  - intros m t' b' El. destruct (decide (m = n)) as [->|Hm]; [rewrite Hl' in El; by injection El as <- <-|]. rewrite Hne in El by done. by apply (change_other m).
  - intros m m' j k Hm Hm' Hj Hk H0 E. destruct (decide (m = n)) as [->|Hmn], (decide (m' = n)) as [->|Hmn']; [done|..].
    + by apply change_new in E.
    + rewrite E in H0. symmetry in E. by apply change_new in E.
    + destruct (lookup_lt_is_Some_2 _ _ (change_lt m Hmn Hm)) as [[t1 b1] El1].
      destruct (lookup_lt_is_Some_2 _ _ (change_lt m' Hmn' Hm')) as [[t2 b2] El2].
      destruct (change_other m t1 b1 Hmn El1) as [_ E1]. destruct (change_other m' t2 b2 Hmn' El2) as [_ E2]. rewrite ?E1, ?E2 in *.
      apply (mi_apart _ _ Hs m m' j k); try done; by apply change_lt.
Qed.
End Change.

(** ** ialloc and iappend *)

Lemma put_ino_data c inum i x : 0 <= inum < NINODES -> nmeta <= x \/ x < 32 -> put_ino c inum i x = c x.
Proof. intros Hn Hx. pose proof (IBLOCK_range inum Hn). unfold put_ino, put. rewrite decide_False; [done|]. fslia. Qed.

Lemma put_ino_slot c f inum i j U b k :
  0 <= inum < NINODES -> holds c f j U b -> slot (put_ino c inum i) j k = slot c j k.
Proof.
  intros Hn Hh. apply slot_ext. intros H0. apply put_ino_data; [done|left]. rewrite <-(slot_ind c) in *.
  pose proof (h_data _ _ _ _ _ Hh (-1) ltac:(fslia) H0). lia.
Qed.

Lemma holds_empty c f i : 0 <= f -> i_addrs i = replicate 13 0 -> holds c f i (uses 0) [] /\ (forall k, -1 <= k -> slot c i k = 0).
Proof.
  intros Hf Ei. assert (Ea : forall k, addr_at i k = 0).
  { intros k. unfold addr_at. rewrite Ei, nth_lookup. destruct (_ !! _) eqn:E; [|done]. by apply lookup_replicate in E as [-> _]. }
  assert (Es : forall k, -1 <= k -> slot c i k = 0).
  { intros k Hk. unfold slot, faddr. rewrite !Ea. repeat case_match; done. }
  assert (Hu : forall k, -1 <= k -> uses 0 k = false).
  { intros k Hk. unfold uses. destruct (Z.eqb_spec k (-1)); [done|]. apply Z.ltb_ge. fslia. }
  split; [|done]. split; [by rewrite Ei|..].
  - intros k Hk. rewrite Es, Hu by lia. done.
  - intros k Hk. by rewrite Es by lia.
  - intros j k Hj Hk. by rewrite Es by lia.
  - intros p Hp Hk. by rewrite Hu by fslia.
Qed.

Lemma ialloc_ok s l t :
  minv s l -> Z.of_nat (length l) + 1 < NINODES -> 0 <= t < 2 ^ 15 ->
  exists s', ialloc t s = Done (Z.of_nat (length l) + 1) s' /\ minv s' (l ++ [(t, [])]).
Proof.
  intros Hs Hl Ht. pose proof (mi_img _ _ Hs) as Hi. pose proof (im_next _ Hi).
  set (i := with_nlink 1 (with_type t (no_inode (Z.of_nat (length l) + 1)))).
  assert (Hd : dinode_ok i).
  { split; cbn; try lia. by repeat constructor. }
  set (s1 := MkState (img s) (Z.of_nat (length l) + 2) (freeblock s)).
  assert (Hi1 : img_ok s1) by (destruct Hi; by split).
  destruct (winode_ok s1 (Z.of_nat (length l) + 1) i Hi1 ltac:(lia)) as (s2 & E & Hi2 & Hn2 & Hb2 & Hc). cbn [s1 img freeblock freeinode] in Hc, Hn2, Hb2.
  exists s2. split.
  - unfold ialloc. rewrite bind_gets, bind_modify. rewrite (mi_num _ _ Hs). rewrite u32_small by fslia.
    replace (Z.of_nat (length l) + 1 + 1) with (Z.of_nat (length l) + 2) by lia. fold s1.
    rewrite !xshort_u16, !u16_small by lia. fold i. by mstep E.
  - assert (Ei : ino (blocks_of s2) (Z.of_nat (length l) + 1) = with_dinode i (no_inode (Z.of_nat (length l) + 1))).
    { rewrite <-(ino_put_eq (blocks_of s)) by (done || apply Hi). apply ino_ext. apply Hc. }
    destruct (holds_empty (blocks_of s2) (freeblock s2) (ino (blocks_of s2) (Z.of_nat (length l) + 1))) as [Hh Es]; [fslia|by rewrite Ei|].
    apply (minv_change s s2 l _ (length l) t []); try done.
    + rewrite length_app. cbn [length]. lia.
    + rewrite length_app. cbn [length]. lia.
    + lia.
    + rewrite itotal_app, Hb2, (mi_next _ _ Hs). change (total [(t, [])]) with 0. lia.
    + lia.
    + by rewrite lookup_app_r, Nat.sub_diag by lia.
    + intros m Hm. destruct (decide (m < length l)%nat); [by rewrite lookup_app_l|]. rewrite lookup_ge_None_2 by (rewrite length_app; cbn [length]; lia).
      symmetry. apply lookup_ge_None. lia.
    + split; [rewrite Ei; done..|done|exact Hh].
    + intros m Hm Hlt. rewrite (ino_ext _ (blocks_of s2) _ (Hc _)). apply ino_put_ne; [lia|lia|lia|done].
    + intros x Hx. rewrite Hc. apply put_ino_data; lia.
    + intros x Hx _. rewrite Hc. apply put_ino_data; lia.
    + intros k Hk. rewrite Es by lia. done.
Qed.

Lemma append_num s l n t b : minv s l -> l !! n = Some (t, b) -> 0 <= Z.of_nat n + 1 < NINODES.
Proof. intros Hs Hl. pose proof (lookup_lt_Some _ _ _ Hl). pose proof (mi_max _ _ Hs). lia. Qed.

(** The state after the loop of [iappend], with the inode written back. *)
Section Append.
Variables (s s1 s2 : mkstate) (l : list (Z * list Z)) (n : nat) (t : Z) (b p : list Z) (i' : inode).
Abbreviation inum := (Z.of_nat n + 1).
Abbreviation c := (blocks_of s).
Abbreviation i2 := (with_size (Z.of_nat (length (b ++ p))) i').
Hypothesis Hs : minv s l.
Hypothesis Hl : l !! n = Some (t, b).
Hypothesis Hmax : Z.of_nat (length (b ++ p)) <= MAXFILE * BSIZE.
Hypothesis A : appended s (ino c inum) b p s1 i'.
Hypothesis Hi2 : img_ok s2.
Hypothesis Hf2 : freeinode s2 = freeinode s1.
Hypothesis Hb2 : freeblock s2 = freeblock s1.
Hypothesis Hc : forall x, blocks_of s2 x = put_ino (blocks_of s1) inum i2 x.

Lemma append_below x : 1 <= x < nmeta -> blocks_of s1 x = c x.
Proof.
  intros Hx. pose proof (im_next _ (mi_img _ _ Hs)). apply (ap_frame _ _ _ _ _ _ A); [lia|]. intros k Hk E.
  pose proof (h_data _ _ _ _ _ (hf_holds _ _ _ _ _ (mi_files _ _ Hs _ _ _ Hl)) k Hk) as Hd. lia.
Qed.

Lemma append_fields : has_file c (freeblock s) inum t b /\ i' = with_addrs (i_addrs i') (ino c inum) /\ dinode_ok i2.
Proof.
  pose proof (mi_files _ _ Hs _ _ _ Hl) as Hf. pose proof (ap_inode _ _ _ _ _ _ A) as Ei. pose proof (ap_holds _ _ _ _ _ _ A) as Hh.
  pose proof (im_next _ (ap_img _ _ _ _ _ _ A)) as Hn. pose proof (mi_type _ _ Hs _ _ _ Hl). pose proof Hf as [F1 [F2 F2'] F3 F4 F5 F6].
  split; [done|]. split; [done|].
  split; cbn [i_type i_major i_minor i_nlink i_size i_addrs with_size]; [rewrite Ei..| | |].
  - cbn [i_type with_addrs]. by rewrite F1.
  - cbn [i_major with_addrs]. by rewrite F2.
  - cbn [i_minor with_addrs]. by rewrite F2'.
  - cbn [i_nlink with_addrs]. by rewrite F3.
  - fslia.
  - by apply Hh.
  - apply (addrs_small _ _ _ _ _ Hh). lia.
Qed.

Lemma append_ino : ino (blocks_of s2) inum = with_dinode i2 (no_inode inum).
Proof.
  destruct append_fields as (_ & _ & Hd). rewrite <-(ino_put_eq (blocks_of s1)) by (done || apply (ap_img _ _ _ _ _ _ A)).
  apply ino_ext. apply Hc.
Qed.

Lemma append_data x : nmeta <= x -> blocks_of s2 x = blocks_of s1 x.
Proof. intros Hx. rewrite Hc. apply put_ino_data; [by apply (append_num s l n t b)|lia]. Qed.

Lemma append_holds :
  holds (blocks_of s2) (freeblock s2) (ino (blocks_of s2) inum) (uses (Z.of_nat (length (b ++ p)))) (b ++ p) /\
  (forall k, slot (blocks_of s2) (ino (blocks_of s2) inum) k = slot (blocks_of s1) i' k).
Proof.
  pose proof (ap_holds _ _ _ _ _ _ A) as Hh. rewrite append_ino.
  destruct (holds_inode _ _ i' (with_dinode i2 (no_inode inum)) _ _ eq_refl Hh) as [Hh2 Es].
  destruct (holds_frame _ (blocks_of s2) _ (freeblock s2) _ _ _ Hh2) as [Hh3 Es2]; [lia| |].
  - intros k Hk H0. apply append_data. by apply (h_data _ _ _ _ _ Hh2).
  - split; [done|]. intros k. by rewrite Es2, Es.
Qed.

Lemma append_file : has_file (blocks_of s2) (freeblock s2) inum t (b ++ p).
Proof.
  destruct append_fields as ([F1 [F2 F2'] F3 F4 F5 F6] & Ei & _). pose proof append_ino as E2. pose proof append_holds as [Hh _].
  split; [rewrite E2..|done|done]; cbn [with_dinode i_type i_major i_minor i_nlink i_size with_size]; try rewrite Ei; done.
Qed.

Lemma append_minv : minv s2 (<[n := (t, b ++ p)]> l).
Proof.
  pose proof (append_num s l n t b Hs Hl) as Hn. destruct append_fields as (_ & _ & Hd). pose proof append_holds as [_ Es].
  pose proof (lookup_lt_Some _ _ _ Hl) as Hlt. pose proof (ap_next _ _ _ _ _ _ A) as En.
  assert (Hm : nblk (Z.of_nat (length b)) <= nblk (Z.of_nat (length (b ++ p)))) by (apply nblk_mono; rewrite length_app; lia).
  apply (minv_change s s2 l _ n t (b ++ p)); try done; rewrite ?length_insert.
  - rewrite Hf2, (ap_free _ _ _ _ _ _ A). apply (mi_num _ _ Hs).
  - apply (mi_max _ _ Hs).
  - by apply (mi_type _ _ Hs _ _ _ Hl).
  - rewrite (total_insert _ _ _ _ _ _ Hl), Hb2, En, (mi_next _ _ Hs). lia.
  - lia.
  - by apply list_lookup_insert_eq.
  - intros m Hne. by apply list_lookup_insert_ne.
  - apply append_file.
  - intros m Hne Hml. pose proof (mi_max _ _ Hs). rewrite (ino_ext _ (blocks_of s2) _ (Hc _)). rewrite ino_put_ne by (done || lia || apply Hd).
    apply ino_ext, append_below. pose proof (IBLOCK_range (Z.of_nat m + 1) ltac:(lia)). fslia.
  - intros x Hx. rewrite Hc, put_ino_data by (done || lia). apply append_below. fslia.
  - intros x Hx Hne. rewrite append_data by lia. apply (ap_frame _ _ _ _ _ _ A); [lia|]. intros k Hk. by apply Hne.
  - intros k Hk _. rewrite Es. destruct (ap_slots _ _ _ _ _ _ A k Hk); [by left|by right].
Qed.
End Append.

Lemma iappend_ok s l n t b p :
  minv s l -> l !! n = Some (t, b) -> Z.of_nat (length (b ++ p)) <= MAXFILE * BSIZE ->
  freeblock s + (nblk (Z.of_nat (length (b ++ p))) - nblk (Z.of_nat (length b))) <= FSSIZE ->
  exists s', iappend (Z.of_nat n + 1) p s = Done tt s' /\ minv s' (<[n := (t, b ++ p)]> l).
Proof.
  intros Hs Hl Hmax Hr. pose proof (mi_img _ _ Hs) as Hi. pose proof (append_num s l n t b Hs Hl) as Hn.
  pose proof (IBLOCK_range _ Hn). pose proof (mi_files _ _ Hs _ _ _ Hl) as [F1 F2 F3 F4 F5 F6].
  destruct (iappend_loop_ok (length p) s (ino (blocks_of s) (Z.of_nat n + 1)) b p) as (i' & s1 & E & A); try done.
  destruct (winode_ok s1 (Z.of_nat n + 1) (with_size (Z.of_nat (length (b ++ p))) i') (ap_img _ _ _ _ _ _ A) Hn) as (s2 & E2 & Hi2 & Hf2 & Hb2 & Hc).
  exists s2. split; [|by apply (append_minv s s1 s2 l n t b p i')].
  unfold iappend, rinode. rewrite bind_assoc. mstep (rsect_ok s (IBLOCK (Z.of_nat n + 1) mk_sb) Hi ltac:(fslia)). rewrite bind_ret.
  fold (ino (blocks_of s) (Z.of_nat n + 1)). rewrite F4, xint_small by fslia. mstep E. cbn [snd fst]. rewrite xint_small by fslia. exact E2.
Qed.
