(* ===== verification/MkfsProps.v ===== *)
(** * The image [mkfs] makes is the file system it was given

    [mkfs] returns, if the files fit, and the image it leaves is one the kernel's file system
    theorems apply to: the superblock, an empty log, a free map that marks the blocks handed
    out, and one inode per file with the bytes of the file, named in the root directory. *)

From S2P Require Import Prelude Mem CString Block Sleeplock Bio Log LogSpec Fs FsBlocks FsAlloc FsInode FsRw FsDisk FsWrite FsDir Mkfs MkfsSpec MkfsInv.

(** The name of a file in the image. *)
Definition shortname (a : list Z * list (list Z)) : list Z := drop_underscore (drop_user (fst a)).

(** The entries of the root directory. *)
Definition root_bytes (names : list (list Z)) : list Z :=
  dirent_bytes 1 [46] ++ dirent_bytes 1 [46; 46] ++ concat (imap (fun k name => dirent_bytes (Z.of_nat k + 2) name) names).

(** The files of the image, from inode 1. *)
Definition image_of (args : list (list Z * list (list Z))) : list (Z * list Z) :=
  (T_DIR, root_bytes (shortname <$> args)) :: ((fun a => (T_FILE, concat (snd a))) <$> args).

(** ** The pieces of a file *)

Lemma total_nonneg l : 0 <= total l.
Proof. induction l as [|x l IH]; cbn [total]; [lia|]. assert (0 <= nblk (Z.of_nat (length (snd x)))); [|lia]. unfold nblk. case_match; fslia. Qed.

Lemma append_pieces ps : forall s l n t b,
  minv s l -> l !! n = Some (t, b) -> Z.of_nat (length (b ++ concat ps)) <= MAXFILE * BSIZE ->
  freeblock s + (nblk (Z.of_nat (length (b ++ concat ps))) - nblk (Z.of_nat (length b))) <= FSSIZE ->
  exists s', forM_ ps (iappend (Z.of_nat n + 1)) s = Done tt s' /\ minv s' (<[n := (t, b ++ concat ps)]> l).
Proof.
  induction ps as [|p ps IH]; intros s l n t b Hs Hl Hmax Hr.
  - exists s. split; [done|]. cbn [concat]. rewrite app_nil_r. by rewrite list_insert_id.
  - cbn [concat] in *. rewrite app_assoc in *.
    assert (Hle : nblk (Z.of_nat (length b)) <= nblk (Z.of_nat (length (b ++ p))) <= nblk (Z.of_nat (length ((b ++ p) ++ concat ps)))).
    { split; apply nblk_mono; rewrite !length_app; lia. }
    destruct (iappend_ok s l n t b p Hs Hl) as (s1 & E1 & H1); [rewrite !length_app in *; lia|lia|].
    pose proof (lookup_lt_Some _ _ _ Hl) as Hn.
    destruct (IH s1 (<[n := (t, b ++ p)]> l) n t (b ++ p)) as (s2 & E2 & H2); [done|by apply list_lookup_insert_eq|done| |].
    { rewrite (mi_next _ _ H1), (total_insert _ _ _ _ _ _ Hl). rewrite (mi_next _ _ Hs) in Hr. lia. }
    exists s2. split; [cbn [forM_]; by mstep E1|]. by rewrite list_insert_insert_eq in H2.
Qed.

(** ** The files of the command line *)

Lemma length_root_bytes names : length (root_bytes names) = (32 + 16 * length names)%nat.
Proof.
  unfold root_bytes. rewrite !length_app, !length_dirent_bytes. cut (forall k, length (concat (imap (fun j name => dirent_bytes (Z.of_nat (k + j) + 2) name) names)) = (16 * length names)%nat).
  { intros H. specialize (H 0%nat). cbn [Nat.add] in H. rewrite H. lia. }
  induction names as [|x names IH]; intros k; [done|]. cbn [imap concat length]. rewrite length_app, length_dirent_bytes.
  unfold compose. specialize (IH (S k)). erewrite imap_ext; [rewrite IH; lia|]. intros j y _. cbn. by rewrite Nat.add_succ_r.
Qed.

Lemma root_bytes_snoc names x : root_bytes (names ++ [x]) = root_bytes names ++ dirent_bytes (Z.of_nat (length names) + 2) x.
Proof.
  unfold root_bytes. rewrite imap_app, concat_app. cbn [imap concat]. rewrite app_nil_r, <-!app_assoc. do 3 f_equal. unfold compose. by rewrite Nat.add_0_r.
Qed.

Lemma image_of_snoc pre a :
  image_of (pre ++ [a]) =
    (T_DIR, root_bytes (shortname <$> pre) ++ dirent_bytes (Z.of_nat (length pre) + 2) (shortname a)) ::
      ((fun a => (T_FILE, concat (snd a))) <$> pre) ++ [(T_FILE, concat (snd a))].
Proof. unfold image_of. rewrite !fmap_app. cbn [fmap list_fmap]. rewrite root_bytes_snoc, length_fmap. done. Qed.

Lemma length_image_of args : length (image_of args) = S (length args).
Proof. unfold image_of. cbn [length]. by rewrite length_fmap. Qed.

Lemma total_image_app pre post : total (image_of pre) <= total (image_of (pre ++ post)).
Proof.
  unfold image_of. cbn [total snd]. rewrite !fmap_app, itotal_app, !length_root_bytes, length_app, !length_fmap.
  pose proof (total_nonneg ((fun a => (T_FILE, concat (snd a))) <$> post)).
  pose proof (nblk_mono (Z.of_nat (32 + 16 * length pre)) (Z.of_nat (32 + 16 * (length pre + length post))) ltac:(lia)). lia.
Qed.

Definition arg_ok (a : list Z * list (list Z)) : Prop :=
  existsb (Z.eqb 47) (drop_user (fst a)) = false /\ Z.of_nat (length (concat (snd a))) <= MAXFILE * BSIZE.

Lemma add_file_ok s pre a :
  minv s (image_of pre) -> arg_ok a -> Z.of_nat (length pre) + 2 < NINODES -> nmeta + total (image_of (pre ++ [a])) <= FSSIZE ->
  exists s', add_file 1 a s = Done tt s' /\ minv s' (image_of (pre ++ [a])).
Proof.
  intros Hs [Hsl Hmax] Hn Hr. unfold add_file. rewrite Hsl. fold (shortname a).
  set (fs := (fun a => (T_FILE, concat (snd a))) <$> pre). assert (Hfs : length fs = length pre) by apply length_fmap.
  set (d := root_bytes (shortname <$> pre)). assert (Hd : length d = (32 + 16 * length pre)%nat) by (unfold d; by rewrite length_root_bytes, length_fmap).
  set (e := dirent_bytes (Z.of_nat (length pre) + 2) (shortname a)). assert (He : length e = 16%nat) by apply length_dirent_bytes.
  rewrite image_of_snoc in *. fold fs d e in Hr |- *. cbn [total snd app] in Hr. rewrite itotal_app in Hr. cbn [total snd] in Hr.
  change (image_of pre) with ((T_DIR, d) :: fs) in Hs. pose proof (total_nonneg fs) as Hfs0.
  assert (H0 : 0 <= nblk (Z.of_nat (length (concat (snd a))))) by (pose proof (nblk_mono 0 (Z.of_nat (length (concat (snd a)))) ltac:(lia)); done).
  destruct (ialloc_ok s _ T_FILE Hs) as (s1 & E1 & H1); [cbn [length]; lia|done|]. mstep E1. cbn [length] in *.
  replace (Z.of_nat (S (length fs)) + 1) with (Z.of_nat (length pre) + 2) in * by lia.
  rewrite xshort_u16, u16_small by fslia. fold e.
  assert (Et : total (((T_DIR, d) :: fs) ++ [(T_FILE, [])]) = nblk (Z.of_nat (length d)) + total fs).
  { rewrite itotal_app. cbn [total snd]. change (nblk (Z.of_nat (length (@nil Z)))) with 0. lia. }
  destruct (iappend_ok s1 _ 0 T_DIR d e H1 eq_refl) as (s2 & E2 & H2).
  { rewrite length_app. fslia. }
  { rewrite (mi_next _ _ H1), Et. lia. }
  change (Z.of_nat 0 + 1) with 1 in E2. mstep E2. rewrite <-app_comm_cons in H2.
  change (<[0%nat := (T_DIR, d ++ e)]> ((T_DIR, d) :: fs ++ [(T_FILE, [])])) with (((T_DIR, d ++ e) :: fs) ++ [(T_FILE, [])]) in H2.
  assert (Hl2 : (((T_DIR, d ++ e) :: fs) ++ [(T_FILE, [])]) !! (length pre + 1)%nat = Some (T_FILE, [])).
  { rewrite lookup_app_r by (cbn [length]; lia). cbn [length]. replace (length pre + 1 - S (length fs))%nat with 0%nat by lia. done. }
  destruct (append_pieces (snd a) s2 _ _ T_FILE [] H2 Hl2) as (s3 & E3 & H3).
  { done. }
  { rewrite (mi_next _ _ H2), itotal_app. cbn [total snd app]. change (nblk (Z.of_nat (length (@nil Z)))) with 0. lia. }
  exists s3. split; [by replace (Z.of_nat (length pre) + 2) with (Z.of_nat (length pre + 1) + 1) by lia|].
  replace (length pre + 1)%nat with (length ((T_DIR, d ++ e) :: fs) + 0)%nat in H3 by (cbn [length]; lia).
  rewrite insert_app_r in H3. exact H3.
Qed.

Lemma add_files_ok args : forall s pre,
  minv s (image_of pre) -> Forall arg_ok args -> Z.of_nat (length (pre ++ args)) + 1 < NINODES ->
  nmeta + total (image_of (pre ++ args)) <= FSSIZE ->
  exists s', forM_ args (add_file 1) s = Done tt s' /\ minv s' (image_of (pre ++ args)).
Proof.
  induction args as [|a args IH]; intros s pre Hs Ha Hn Hr.
  - rewrite app_nil_r. by exists s.
  - apply list.Forall_cons in Ha as [Ha Has]. pose proof (total_image_app (pre ++ [a]) args) as Hm. rewrite <-app_assoc in Hm. cbn [app] in Hm.
    destruct (add_file_ok s pre a Hs Ha) as (s1 & E1 & H1); [rewrite length_app in Hn; cbn [length] in Hn; lia|lia|].
    destruct (IH s1 (pre ++ [a]) H1 Has) as (s2 & E2 & H2); [by rewrite <-app_assoc..|]. rewrite <-app_assoc in H2.
    exists s2. split; [cbn [forM_]; by mstep E1|done].
Qed.

(** ** The start and the end of [main] *)

Lemma zero_loop l s :
  exists s', forM_ l (fun i => wsect i zero_block) s = Done tt s' /\ freeinode s' = freeinode s /\ freeblock s' = freeblock s /\
    forall x, img s' !! x = if decide (x ∈ l) then Some zero_block else img s !! x.
Proof.
  revert s. induction l as [|y l IH]; intros s.
  - exists s. split; [done|]. split; [done|]. split; [done|]. intros x. rewrite decide_False; [done|]. apply not_elem_of_nil.
  - cbn [forM_]. mstep (eq_refl : wsect y zero_block s = Done tt (wrote s y zero_block)). destruct (IH (wrote s y zero_block)) as (s' & E & H1 & H2 & H3).
    exists s'. split; [exact E|]. split; [done|]. split; [done|]. intros x. rewrite H3. cbn [img wrote].
    destruct (decide (x = y)) as [->|Hne].
    + rewrite (decide_True (P := y ∈ y :: l)) by left. case_decide; [done|]. by rewrite lookup_insert_eq.
    + rewrite lookup_insert_ne by done. repeat case_decide; set_solver.
Qed.

Lemma mkstart_ok : exists s, forM_ (seqZ 0 FSSIZE) (fun i => wsect i zero_block) (MkState ∅ 1 nmeta) = Done tt s /\ minv (wrote s 1 sb_block) [].
Proof.
  destruct (zero_loop (seqZ 0 FSSIZE) (MkState ∅ 1 nmeta)) as (s & E & H1 & H2 & H3).
  cbn [freeinode freeblock img] in *. exists s. split; [done|].
  assert (Hz : forall x, disk_block (img s) x = zero_block).
  { intros x. unfold disk_block. rewrite H3. by case_decide. }
  assert (Hc : forall x, blocks_of (wrote s 1 sb_block) x = if decide (x = 1) then sb_block else zero_block).
  { intros x. cbn [img wrote]. rewrite wsect_blocks. unfold put. case_decide; [done|apply Hz]. }
  split; try (intros n ? ?; by rewrite lookup_nil).
  - split; cbn [freeblock wrote]; rewrite ?H2; [| |fslia|].
    + intros x Hx. cbn [img wrote]. destruct (decide (x = 1)) as [->|]; [rewrite lookup_insert_eq; by eexists|].
      rewrite lookup_insert_ne, H3, decide_True; [by eexists|by apply elem_of_seqZ|done].
    + intros x. rewrite Hc. case_decide; [reflexivity|apply is_block_zero].
    + intros x Hx. rewrite Hc, decide_False; [done|]. fslia.
  - cbn [freeinode wrote]. by rewrite H1.
  - done.
  - cbn [freeblock wrote total]. rewrite H2. lia.
  - by rewrite Hc.
  - intros x Hx. rewrite Hc. by rewrite decide_False by lia.
  - intros n m j k Hn. cbn in Hn. lia.
Qed.

(** Zeros that fill the last block of a file are already there. *)
Lemma appended_zeros s i b n :
  img_ok s -> holds (blocks_of s) (freeblock s) i (uses (Z.of_nat (length b))) b -> 0 < Z.of_nat (length b) mod BSIZE ->
  Z.of_nat n <= BSIZE - Z.of_nat (length b) mod BSIZE -> appended s i b (replicate n 0) s i.
Proof.
  intros Hs [L Us D I B] Hm Hn. set (len := Z.of_nat (length b)) in *.
  assert (Hu : forall k, -1 <= k -> uses (Z.of_nat (length (b ++ replicate n 0))) k = uses len k).
  { intros k Hk. rewrite length_app, length_replicate, Nat2Z.inj_add. fold len. unfold uses. destruct (Z.eqb_spec k (-1)).
    - destruct (Z.ltb_spec (NDIRECT * BSIZE) (len + Z.of_nat n)), (Z.ltb_spec (NDIRECT * BSIZE) len); fslia.
    - destruct (Z.ltb_spec (k * BSIZE) (len + Z.of_nat n)), (Z.ltb_spec (k * BSIZE) len); fslia. }
  split; try done; [|apply with_addrs_same| |by left].
  - rewrite length_app, length_replicate, Nat2Z.inj_add. fold len. unfold nblk.
    destruct (Z.ltb_spec (NDIRECT * BSIZE) (len + Z.of_nat n)), (Z.ltb_spec (NDIRECT * BSIZE) len); fslia.
  - split; try done.
    + intros k Hk. rewrite Hu by lia. by apply Us.
    + intros p Hp Hk. rewrite Hu by fslia. intros HU. rewrite B by done. destruct (Z.lt_ge_cases p len); [by rewrite app_nth1 by lia|].
      rewrite app_nth2, nth_past, nth_lookup by lia. destruct (_ !! _) eqn:E; [|done]. by apply lookup_replicate in E as [-> _].
Qed.

Lemma fix_root_ok s d fs :
  minv s ((T_DIR, d) :: fs) -> 0 < Z.of_nat (length d) mod BSIZE ->
  exists s', fix_root 1 s = Done tt s' /\ minv s' ((T_DIR, d ++ replicate (Z.to_nat (BSIZE - Z.of_nat (length d) mod BSIZE)) 0) :: fs).
Proof.
  intros Hs Hm. pose proof (mi_img _ _ Hs) as Hi. pose proof (mi_files _ _ Hs 0%nat _ _ eq_refl) as Hf. change (Z.of_nat 0 + 1) with 1 in Hf.
  pose proof (hf_max _ _ _ _ _ Hf) as Hmx. set (z := replicate _ 0).
  pose proof (appended_zeros s _ d (Z.to_nat (BSIZE - Z.of_nat (length d) mod BSIZE)) Hi (hf_holds _ _ _ _ _ Hf) Hm ltac:(fslia)) as A. fold z in A.
  assert (Hz : Z.of_nat (length (d ++ z)) = (Z.of_nat (length d) / BSIZE + 1) * BSIZE).
  { rewrite length_app. unfold z. rewrite length_replicate. fslia. }
  destruct (winode_ok s 1 (with_size (Z.of_nat (length (d ++ z))) (ino (blocks_of s) 1)) Hi ltac:(fslia)) as (s2 & E2 & Hi2 & Hf2 & Hb2 & Hc).
  exists s2. split.
  - unfold fix_root, rinode. rewrite bind_assoc. pose proof (IBLOCK_range 1 ltac:(fslia)).
    mstep (rsect_ok s (IBLOCK 1 mk_sb) Hi ltac:(fslia)). rewrite bind_ret. fold (ino (blocks_of s) 1). cbv zeta.
    rewrite (hf_size _ _ _ _ _ Hf), !xint_small by (rewrite ?xint_small; fslia). rewrite <-Hz. exact E2.
  - apply (append_minv s s s2 ((T_DIR, d) :: fs) 0 T_DIR d z (ino (blocks_of s) 1)); try done. rewrite Hz. fslia.
Qed.

(** ** The free map *)

Lemma bitmap_bits n j : Z.of_nat n <= BPB -> 0 <= j < BPB ->
  is_block (foldl mark zero_block (seqZ 0 (Z.of_nat n))) /\ bit_set (foldl mark zero_block (seqZ 0 (Z.of_nat n))) j = (j <? Z.of_nat n).
Proof.
  intros Hn Hj. induction n as [|n IH].
  - split; [apply is_block_zero|]. cbn [foldl]. rewrite bit_set_testbit, nth_zero_block, Z.bits_0. symmetry. apply Z.ltb_ge. lia.
  - destruct IH as [H1 H2]; [lia|]. rewrite Nat2Z.inj_succ, <-Z.add_1_r, seqZ_app, foldl_app by lia. rewrite Z.add_0_l, seqZ_one. cbn [foldl].
    split; [by apply is_block_insert|]. rewrite bit_set_mark, H2 by (done || unfold BPB, BSIZE in *; lia).
    destruct (Z.ltb_spec j (Z.of_nat n)), (Z.ltb_spec j (Z.of_nat n + 1)), (Z.eqb_spec (Z.of_nat n) j); try done; lia.
Qed.

#[local] Instance image_spec : BlocksSpec lstate := log_blocks_spec 2.

Lemma fs_block_image x : 32 <= x < 2 ^ 31 -> fs_block x.
Proof. intros Hx. change (0 <= x < 2 ^ 31 /\ ~ (2 <= x < 2 + LOGSIZE)). change LOGSIZE with 30. lia. Qed.

(** The image after [balloc], with the free map in block 45. *)
Section Final.
Variables (s : mkstate) (l : list (Z * list Z)).
Abbreviation c := (blocks_of s).
Abbreviation used := (freeblock s).
Abbreviation map := (foldl mark zero_block (seqZ 0 used)).
Variable c' : Z -> block.
Hypothesis Hs : minv s l.
Hypothesis Hc : forall x, c' x = put c 45 map x.

Lemma final_used b : 0 <= b < FSSIZE -> in_use c' mk_sb b = (b <? used).
Proof.
  intros Hb. pose proof (im_next _ (mi_img _ _ Hs)). unfold in_use. assert (E : BBLOCK b mk_sb = 45).
  { unfold BBLOCK. change (sb_bmapstart mk_sb) with 45. rewrite u32_small; unfold BPB in *; fslia. }
  rewrite E, Hc. unfold put. rewrite decide_True by done. rewrite Z.mod_small by (unfold BPB; fslia).
  destruct (bitmap_bits (Z.to_nat used) b) as [_ H']; [unfold BPB; fslia|unfold BPB; fslia|]. by rewrite Z2Nat.id in H' by fslia.
Qed.

Lemma final_alloc : alloc_ok c' mk_sb.
Proof.
  pose proof (im_next _ (mi_img _ _ Hs)). split.
  - done.
  - done.
  - intros b. rewrite Hc. unfold put. case_decide; [|apply (mi_img _ _ Hs)].
    destruct (bitmap_bits (Z.to_nat used) 0) as [H' _]; [unfold BPB; fslia|done|]. by rewrite Z2Nat.id in H' by fslia.
  - intros b Hb. change (data_start mk_sb) with 46 in Hb. rewrite final_used by fslia. apply Z.ltb_lt. fslia.
  - intros b Hb. change (sb_size mk_sb) with 2000 in Hb. unfold BBLOCK. change (sb_bmapstart mk_sb) with 45.
    rewrite u32_small by (unfold BPB; fslia). apply fs_block_image. unfold BPB. fslia.
  - intros b Hb. change (sb_size mk_sb) with 2000 in Hb. change (data_start mk_sb) with 46 in Hb.
    apply fs_block_image. lia.
Qed.

Lemma final_below x : x <> 45 -> c' x = c x.
Proof. intros Hx. rewrite Hc. unfold put. by rewrite decide_False. Qed.

Lemma final_file n t b : l !! n = Some (t, b) -> has_file c' used (Z.of_nat n + 1) t b /\
  (forall k, slot c' (ino c' (Z.of_nat n + 1)) k = slot c (ino c (Z.of_nat n + 1)) k).
Proof.
  intros El. pose proof (append_num s l n t b Hs El) as Hn. pose proof (IBLOCK_range _ Hn). pose proof (mi_files _ _ Hs _ _ _ El) as Hf.
  apply (has_file_frame c c' used used); [done|lia|apply ino_ext, final_below; lia|].
  intros k Hk H0. apply final_below. pose proof (h_data _ _ _ _ _ (hf_holds _ _ _ _ _ Hf) k Hk H0). fslia.
Qed.

Lemma final_inode n t b : l !! n = Some (t, b) -> inode_ok c' mk_sb (ino c' (Z.of_nat n + 1)).
Proof.
  intros El. pose proof (append_num s l n t b Hs El) as Hn. pose proof (IBLOCK_range _ Hn) as HI. destruct (final_file n t b El) as [Hf _].
  pose proof (hf_holds _ _ _ _ _ Hf) as [L Us D I B]. pose proof (im_next _ (mi_img _ _ Hs)). split.
  - apply final_alloc.
  - split; [done|done|rewrite (hf_size _ _ _ _ _ Hf); split; [lia|apply Hf]| |done].
    intros k Hk H0. specialize (D k Hk H0). change (data_start mk_sb) with 46. change (sb_size mk_sb) with 2000.
    split; [fslia|]. rewrite final_used by fslia. apply Z.ltb_lt. lia.
  - intros k Hk Hl. rewrite (hf_size _ _ _ _ _ Hf) in Hl. pose proof (hf_max _ _ _ _ _ Hf). rewrite <-slot_faddr by done.
    apply Us; [fslia|]. unfold uses. destruct (Z.eqb_spec k (-1)); [lia|]. by apply Z.ltb_lt.
  - change (i_inum (ino c' (Z.of_nat n + 1))) with (Z.of_nat n + 1). split; [lia|]. change (sb_bmapstart mk_sb) with 45.
    split; [lia|]. apply fs_block_image. lia.
Qed.

Lemma final_bytes n t b off m : l !! n = Some (t, b) -> 0 <= off -> 0 <= m -> off + m <= Z.of_nat (length b) ->
  fbytes c' (ino c' (Z.of_nat n + 1)) off m = take (Z.to_nat m) (drop (Z.to_nat off) b).
Proof.
  intros El Ho Hm Hl. destruct (final_file n t b El) as [Hf _]. pose proof (hf_max _ _ _ _ _ Hf).
  apply list_nth_eq; [rewrite length_fbytes, length_take, length_drop; lia|]. rewrite length_fbytes. intros j Hj.
  rewrite <-(Nat2Z.id j) at 1. rewrite nth_fbytes by lia. change (take (Z.to_nat m) (drop (Z.to_nat off) b)) with (slice b off m).
  rewrite nth_slice by lia. rewrite (h_bytes _ _ _ _ _ (hf_holds _ _ _ _ _ Hf)).
  - f_equal. lia.
  - lia.
  - fslia.
  - unfold uses. destruct (Z.eqb_spec ((off + Z.of_nat j) / BSIZE) (-1)); fslia.
Qed.
End Final.

(** ** mkfs *)

Lemma concat_entry (L : list (list Z)) k e z :
  Forall (fun x => length x = 16%nat) L -> L !! k = Some e -> take 16 (drop (16 * k) (concat L ++ z)) = e.
Proof.
  revert k. induction L as [|x L IH]; intros k HL Hk; [done|]. apply list.Forall_cons in HL as [Hx HL]. cbn [concat]. rewrite <-app_assoc. destruct k as [|k].
  - injection Hk as ->. rewrite Nat.mul_0_r, drop_0, <-Hx. apply take_app_length.
  - rewrite drop_app_ge by lia. rewrite Hx. replace (16 * S k - 16)%nat with (16 * k)%nat by lia. by apply IH.
Qed.

(** The entries of the root directory as a list. *)
Definition root_entries (names : list (list Z)) : list (list Z) :=
  dirent_bytes 1 [46] :: dirent_bytes 1 [46; 46] :: imap (fun k name => dirent_bytes (Z.of_nat k + 2) name) names.

Lemma root_entries_16 names : Forall (fun x => length x = 16%nat) (root_entries names).
Proof.
  unfold root_entries. repeat constructor; [apply length_dirent_bytes..|]. apply Forall_lookup. intros k x Hx.
  rewrite list_lookup_imap in Hx. destruct (names !! k); [|done]. injection Hx as <-. apply length_dirent_bytes.
Qed.

Lemma root_bytes_entries names : root_bytes names = concat (root_entries names).
Proof. done. Qed.

(** What the kernel finds in the image of [args]. *)
Record is_image (c : Z -> block) (args : list (list Z * list (list Z))) : Prop := {
  ii_sb : sb_of (c 1) = mk_sb;
  ii_log : ld32 (c 2) 0 = 0;
  ii_used : forall b, 0 <= b < FSSIZE -> in_use c mk_sb b = (b <? nmeta + total (image_of args));
  ii_root : dir_ok c mk_sb (ino c 1) /\ i_nlink (ino c 1) = 1;
  ii_entries : forall k e, root_entries (shortname <$> args) !! k = Some e -> dirent c (ino c 1) (Z.of_nat k) = e;
  ii_rest : forall k, Z.of_nat (length args) + 2 <= k -> 16 * (k + 1) <= i_size (ino c 1) -> dirent c (ino c 1) k = replicate 16 0;
  ii_files : forall k a, args !! k = Some a ->
    let i := ino c (Z.of_nat k + 2) in
    inode_ok c mk_sb i /\ i_type i = T_FILE /\ i_nlink i = 1 /\ i_size i = Z.of_nat (length (concat (snd a))) /\
    fbytes c i 0 (i_size i) = concat (snd a);
  ii_apart : forall n m j k, 1 <= n <= Z.of_nat (length args) + 1 -> 1 <= m <= Z.of_nat (length args) + 1 ->
    -1 <= j < MAXFILE -> -1 <= k < MAXFILE -> slot c (ino c n) j <> 0 -> slot c (ino c n) j = slot c (ino c m) k -> n = m;
}.

Section Image.
Variables (s : mkstate) (args : list (list Z * list (list Z))) (c' : Z -> block) (z : nat).
Abbreviation fs := ((fun a : list Z * list (list Z) => (T_FILE, concat (snd a))) <$> args).
Abbreviation d := (root_bytes (shortname <$> args)).
Hypothesis Hs : minv s ((T_DIR, d ++ replicate z 0) :: fs).
Hypothesis Hz : Z.of_nat (length (d ++ replicate z 0)) mod BSIZE = 0.
Hypothesis Ht : freeblock s = nmeta + total (image_of args).
Hypothesis Hc : forall x, c' x = put (blocks_of s) 45 (foldl mark zero_block (seqZ 0 (freeblock s))) x.

Lemma image_root : has_file c' (freeblock s) 1 T_DIR (d ++ replicate z 0).
Proof. apply (final_file s _ c' Hs Hc 0%nat T_DIR _ eq_refl). Qed.

Lemma image_entry k : 0 <= k -> 16 * (k + 1) <= i_size (ino c' 1) ->
  dirent c' (ino c' 1) k = take 16 (drop (16 * Z.to_nat k) (d ++ replicate z 0)).
Proof.
  intros Hk Hl. rewrite (hf_size _ _ _ _ _ image_root) in Hl. unfold dirent.
  change (ino c' 1) with (ino c' (Z.of_nat 0 + 1)). rewrite (final_bytes s _ c' Hs Hc 0%nat T_DIR _ (16 * k) 16 eq_refl) by lia.
  by replace (Z.to_nat (16 * k)) with (16 * Z.to_nat k)%nat by lia.
Qed.

Lemma image_slots n t b : ((T_DIR, d ++ replicate z 0) :: fs) !! n = Some (t, b) ->
  forall k, slot c' (ino c' (Z.of_nat n + 1)) k = slot (blocks_of s) (ino (blocks_of s) (Z.of_nat n + 1)) k.
Proof. intros El. apply (final_file s _ c' Hs Hc n t b El). Qed.

Lemma image_apart n m j k : 1 <= n <= Z.of_nat (length args) + 1 -> 1 <= m <= Z.of_nat (length args) + 1 ->
  -1 <= j < MAXFILE -> -1 <= k < MAXFILE -> slot c' (ino c' n) j <> 0 -> slot c' (ino c' n) j = slot c' (ino c' m) k -> n = m.
Proof.
  intros Hn Hm Hj Hk. assert (Hlen : length ((T_DIR, d ++ replicate z 0) :: fs) = S (length args)) by (cbn [length]; by rewrite length_fmap).
  assert (Hx : forall x, 1 <= x <= Z.of_nat (length args) + 1 -> exists y, x = Z.of_nat y + 1 /\ (y < S (length args))%nat).
  { intros x Hx. exists (Z.to_nat (x - 1)). lia. }
  destruct (Hx n Hn) as (n' & -> & Hn'). destruct (Hx m Hm) as (m' & -> & Hm'). rewrite <-Hlen in Hn', Hm'.
  destruct (lookup_lt_is_Some_2 _ _ Hn') as [[t1 b1] E1]. destruct (lookup_lt_is_Some_2 _ _ Hm') as [[t2 b2] E2].
  rewrite (image_slots n' t1 b1 E1), (image_slots m' t2 b2 E2). intros H0 E. apply (mi_apart _ _ Hs) in E; [lia|done..].
Qed.

Lemma image_made : is_image c' args.
Proof.
  pose proof image_root as Hr. assert (Hd : Z.of_nat (length d) = 32 + 16 * Z.of_nat (length args)) by (rewrite length_root_bytes, length_fmap; lia).
  pose proof (hf_size _ _ _ _ _ Hr) as Hsz. rewrite length_app in Hsz. split.
  - rewrite (final_below s c' Hc) by lia. rewrite (mi_sb _ _ Hs). by vm_compute.
  - rewrite (final_below s c' Hc) by lia. rewrite (mi_log _ _ Hs) by lia. apply ld32_zero.
  - intros b Hb. rewrite <-Ht. by apply (final_used s _ c' Hs Hc).
  - split; [|apply Hr]. split; [apply (final_inode s _ c' Hs Hc 0%nat T_DIR _ eq_refl)|apply Hr|].
    rewrite (hf_size _ _ _ _ _ Hr). fslia.
  - intros k e Hk. pose proof (lookup_lt_Some _ _ _ Hk) as Hlt. unfold root_entries in Hlt. cbn [length] in Hlt. rewrite length_imap, length_fmap in Hlt.
    rewrite image_entry by lia. rewrite Nat2Z.id. rewrite root_bytes_entries. apply concat_entry; [apply root_entries_16|done].
  - intros k Hk Hl. rewrite image_entry by lia. rewrite drop_app_ge, drop_replicate, take_replicate by lia. f_equal.
    rewrite length_replicate in Hsz. lia.
  - intros k a Hk i. assert (El : ((T_DIR, d ++ replicate z 0) :: fs) !! S k = Some (T_FILE, concat (snd a))).
    { change (fs !! k = Some (T_FILE, concat (snd a))). by rewrite list_lookup_fmap, Hk. }
    pose proof (final_inode s _ c' Hs Hc (S k) T_FILE _ El) as Hi. destruct (final_file s _ c' Hs Hc (S k) T_FILE _ El) as [Hf _].
    pose proof (final_bytes s _ c' Hs Hc (S k) T_FILE _ 0 (Z.of_nat (length (concat (snd a)))) El) as Hb.
    replace (Z.of_nat (S k) + 1) with (Z.of_nat k + 2) in * by lia. fold i in Hi, Hf, Hb. destruct Hf as [F1 F2 F3 F4 F5 F6].
    split; [done|]. split; [done|]. split; [done|]. split; [done|]. fold i in F4. rewrite F4, Hb by lia. rewrite Nat2Z.id, drop_0. apply take_ge. lia.
  - apply image_apart.
Qed.
End Image.

Lemma dots_ok s1 : minv s1 [(T_DIR, [])] ->
  exists s2 s3, iappend 1 (dirent_bytes 1 [46]) s1 = Done tt s2 /\ iappend 1 (dirent_bytes 1 [46; 46]) s2 = Done tt s3 /\ minv s3 (image_of []).
Proof.
  intros H1. assert (H0 : freeblock s1 = nmeta) by (rewrite (mi_next _ _ H1); done).
  destruct (iappend_ok s1 _ 0 T_DIR [] (dirent_bytes 1 [46]) H1 eq_refl) as (s2 & E2 & H2); [done|by rewrite H0|].
  change (<[0%nat := _]> _) with [(T_DIR, dirent_bytes 1 [46])] in H2. assert (H0' : freeblock s2 = nmeta + 1) by (rewrite (mi_next _ _ H2); done).
  destruct (iappend_ok s2 _ 0 T_DIR (dirent_bytes 1 [46]) (dirent_bytes 1 [46; 46]) H2 eq_refl) as (s3 & E3 & H3); [done|by rewrite H0'|].
  exists s2, s3. split; [exact E2|]. split; [exact E3|]. exact H3.
Qed.

Lemma nblk_fill len : 0 < len mod BSIZE -> nblk ((len / BSIZE + 1) * BSIZE) = nblk len.
Proof. intros Hm. unfold nblk. destruct (Z.ltb_spec (NDIRECT * BSIZE) ((len / BSIZE + 1) * BSIZE)), (Z.ltb_spec (NDIRECT * BSIZE) len); fslia. Qed.

(** C13: [mkfs] returns when the files fit on the disk, and the image it leaves is one the
    kernel's file system runs on: the superblock is the one [mkfs] computed, the log is empty,
    the free map marks exactly the blocks that are taken, the root directory has an entry for
    each file of the command line, in order, under the name it was given without [user/] and a
    leading underscore, the inode each entry names is a file with one link whose bytes are
    those of the file, and no two inodes share a block. *)
Theorem mkfs_makes_file_system (args : list (list Z * list (list Z))) :
  Forall arg_ok args -> Z.of_nat (length args) + 1 < NINODES -> nmeta + total (image_of args) <= FSSIZE ->
  16 * (Z.of_nat (length args) + 2) mod BSIZE <> 0 ->
  exists s, mkfs args = Done tt s /\ is_image (disk_block (img s)) args.
Proof.
  intros Ha Hn Hr Hd. unfold mkfs, mkfs_main. destruct mkstart_ok as (s0 & E0 & H0). rewrite bind_modify. cbn [mkstate0 img freeinode]. mstep E0.
  mstep (eq_refl : wsect 1 sb_block s0 = Done tt (wrote s0 1 sb_block)).
  destruct (ialloc_ok _ [] T_DIR H0) as (s1 & E1 & H1); [done|done|]. mstep E1. cbn [length app] in *.
  change (Z.of_nat 0 + 1) with 1. change (negb (1 =? ROOTINO)) with false. cbv iota. change (xshort 1) with 1.
  pose proof (total_image_app [] args) as Hle. cbn [app] in Hle.
  destruct (dots_ok s1 H1) as (s2 & s3 & E2 & E3 & H3). mstep E2. mstep E3.
  destruct (add_files_ok args s3 [] H3 Ha Hn Hr) as (s4 & E4 & H4). cbn [app] in H4. mstep E4.
  set (d := root_bytes (shortname <$> args)) in *. assert (Hdl : Z.of_nat (length d) = 16 * (Z.of_nat (length args) + 2)).
  { unfold d. rewrite length_root_bytes, length_fmap. lia. }
  unfold image_of in H4. fold d in H4. destruct (fix_root_ok s4 d _ H4) as (s5 & E5 & H5); [fslia|]. mstep E5. rewrite bind_gets.
  set (z := Z.to_nat (BSIZE - Z.of_nat (length d) mod BSIZE)) in H5.
  assert (Hz : Z.of_nat (length (d ++ replicate z 0)) = (Z.of_nat (length d) / BSIZE + 1) * BSIZE).
  { rewrite length_app, length_replicate. unfold z. fslia. }
  assert (Hf : freeblock s5 = nmeta + total (image_of args)).
  { rewrite (mi_next _ _ H5). cbn [total snd]. rewrite Hz, nblk_fill by fslia. done. }
  pose proof (im_next _ (mi_img _ _ H5)). unfold balloc. destruct (Z.leb_spec (BSIZE * 8) (freeblock s5)); [fslia|].
  eexists. split; [reflexivity|]. apply (image_made s5 args _ z); [exact H5|fold d; rewrite Hz; fslia|done|]. intros x. apply (wsect_blocks s5).
Qed.

(** Two files of the build, one under a name with the prefix that is dropped. *)
Lemma mkfs_makes_file_system_witness :
  let args := [([82; 69; 65; 68; 77; 69], [[104; 105; 10]]); ([117; 115; 101; 114; 47; 95; 99; 97; 116], [replicate 1024 7; replicate 100 8])] in
  shortname <$> args = [[82; 69; 65; 68; 77; 69]; [99; 97; 116]] /\
  exists s, mkfs args = Done tt s /\ is_image (disk_block (img s)) args.
Proof.
  split; [reflexivity|]. apply (mkfs_makes_file_system).
  - repeat constructor; (reflexivity || (vm_compute; discriminate)).
  - vm_compute. reflexivity.
  - vm_compute. discriminate.
  - vm_compute. discriminate.
Defined.

(** When the entries fill their blocks exactly, the size of the root directory is rounded up
    to a block that was never allocated: with 62 files the directory has a hole. *)
Lemma root_hole :
  match mkfs (replicate 62 ([97], [])) with
  | Done _ s => let c := disk_block (img s) in i_size (ino c 1) = 2 * BSIZE /\ faddr c (ino c 1) 1 = 0
  | _ => False
  end.
Proof. vm_compute. split; reflexivity. Qed.
