(* ===== verification/Rb.v ===== *)
(** * The transfer program, [user/rb.c]

    A child writes 10 MB through a ring and its parent reads them.  Each process is a state
    machine that does one access to shared memory at a time (a load or a store of a counter,
    or one byte of a [memcpy]); [play] runs the two under a schedule, one choice per step. *)

From S2P Require Import Prelude Riscv RingbufU.

Definition SIZE : Z := 10 * 1024 * 1024.

(** ['m'] and ['g'] *)
Definition chr_m : Z := 109.
Definition chr_g : Z := 103.

(** An array of [SIZE] bytes after the loop of lines 36 to 40. *)
Definition filled (v : Z) (junk : Z -> Z) : Z -> Z := fun i => if (0 <=? i) && (i <? SIZE) then v else junk i.

(** The byte that [memmove] of [n] bytes copies in its round [k]: forward when the source
    is above the destination, else backward. *)
Definition copy_index (dst src n k : Z) : Z := if dst <? src then k else n - 1 - k.

(** A load at address [a] of a ring mapped twice from [lo] on. *)
Definition ring_load (f : Z -> Z) (lo a : Z) : Z := f ((a - lo) mod RING_BYTES).

(** ** The loop of the child, lines 53 to 63 *)

Inductive child : Type :=
| CWhile (total : Z)
| CStart (p : prog (Z * Z)) (total : Z)
| CGot (addr bytes total : Z)
| CCopy (addr bytes k total : Z)
| CFinish (p : prog unit) (total : Z)
| CDone (total : Z)
| CExited.

(** ** The loop of the parent, lines 83 to 95, and its [read_buf] *)

Inductive parent : Type :=
| PWhile (total : Z)
| PStart (p : prog (Z * Z)) (total : Z)
| PGot (addr bytes total : Z)
| PCopy (addr bytes k total : Z)
| PFinish (p : prog unit) (total : Z)
| PDone (total : Z)
| PExited.

Record rb := Rb { rb_ring : Z -> Z; rb_book : book_t; rb_child : child; rb_parent : parent; read_buf : Z -> Z }.

Section Rb.
(** The table of descriptors of each process and its descriptor of the ring, the addresses
    of the two arrays, and the bytes of [write_buf]. *)
Variables (wtab rtab : list user_ring_buf) (wpast rpast : user_ring_buf) (wrd rrd : Z).
Variables (write_buf_addr read_buf_addr : Z) (write_buf : Z -> Z).

Definition child_step (s : rb) : rb :=
  let to c := Rb (rb_ring s) (rb_book s) c (rb_parent s) (read_buf s) in
  match rb_child s with
  | CWhile total =>
      to (if total <? SIZE then CStart (ringbuf_start_write wtab wpast wrd) total else CDone total)
  | CStart (Ret (addr, bytes)) total => to (CGot addr bytes total)
  | CStart p total =>
      match access p (rb_book s) with
      | Some (p, b) => Rb (rb_ring s) b (CStart p total) (rb_parent s) (read_buf s)
      | None => to CExited
      end
  | CGot addr bytes total => to (if bytes <=? 0 then CWhile total else CCopy addr bytes 0 total)
  | CCopy addr bytes k total =>
      if k <? bytes then
        let i := copy_index addr write_buf_addr bytes k in
        Rb (ring_store (rb_ring s) (ubuf (entry wtab wpast wrd)) (addr + i) (write_buf i)) (rb_book s)
          (CCopy addr bytes (k + 1) total) (rb_parent s) (read_buf s)
      else to (CFinish (ringbuf_finish_write wtab wpast wrd bytes) (s32 (total + bytes)))
  | CFinish (Ret _) total => to (CWhile total)
  | CFinish p total =>
      match access p (rb_book s) with
      | Some (p, b) => Rb (rb_ring s) b (CFinish p total) (rb_parent s) (read_buf s)
      | None => to CExited
      end
  | CDone _ | CExited => s
  end.

Definition parent_step (s : rb) : rb :=
  let to c := Rb (rb_ring s) (rb_book s) (rb_child s) c (read_buf s) in
  match rb_parent s with
  | PWhile total =>
      to (if total <? SIZE then PStart (ringbuf_start_read rtab rpast rrd) total else PDone total)
  | PStart (Ret (addr, bytes)) total => to (PGot addr bytes total)
  | PStart p total =>
      match access p (rb_book s) with
      | Some (p, b) => Rb (rb_ring s) b (rb_child s) (PStart p total) (read_buf s)
      | None => to PExited
      end
  | PGot addr bytes total => to (if bytes <=? 0 then PWhile total else PCopy addr bytes 0 total)
  | PCopy addr bytes k total =>
      if k <? bytes then
        let i := copy_index (read_buf_addr + total) addr bytes k in
        Rb (rb_ring s) (rb_book s) (rb_child s) (PCopy addr bytes (k + 1) total)
          (fun j => if decide (j = total + i) then ring_load (rb_ring s) (ubuf (entry rtab rpast rrd)) (addr + i) else read_buf s j)
      else to (PFinish (ringbuf_finish_read rtab rpast rrd bytes) (s32 (total + bytes)))
  | PFinish (Ret _) total => to (PWhile total)
  | PFinish p total =>
      match access p (rb_book s) with
      | Some (p, b) => Rb (rb_ring s) b (rb_child s) (PFinish p total) (read_buf s)
      | None => to PExited
      end
  | PDone _ | PExited => s
  end.

(** [true] is a step of the child. *)
Fixpoint play (sched : list bool) (s : rb) : rb :=
  match sched with
  | [] => s
  | true :: sched => play sched (child_step s)
  | false :: sched => play sched (parent_step s)
  end.

(** Both have opened the ring, which is empty. *)
Definition rb_start (ring rbuf : Z -> Z) : rb := Rb ring (Book 0 0) (CWhile 0) (PWhile 0) rbuf.
End Rb.

(** ** The end of [main], lines 97 to 129: the value [main] returns or the status it exits with *)

Fixpoint validate (n : nat) (i : Z) (write_buf read_buf : Z -> Z) : Z :=
  match n with
  | O => 0
  | S n => if negb (write_buf i =? chr_m) || negb (read_buf i =? chr_m) then -1 else validate n (i + 1) write_buf read_buf
  end.

Definition parent_end (child_rc close_rc : Z) (write_buf read_buf : Z -> Z) : Z :=
  if negb (child_rc =? 0) then 1
  else if negb (close_rc =? 0) then 1
  else validate (Z.to_nat SIZE) 0 write_buf read_buf.

(** The status of the child after its loop. *)
Definition child_end (close_rc : Z) : Z := if negb (close_rc =? 0) then 1 else 0.

(** ** The transfer is complete and correct *)

Lemma RING_BYTES_val : RING_BYTES = 65536.
Proof. reflexivity. Qed.

Lemma SIZE_val : SIZE = 160 * 65536.
Proof. reflexivity. Qed.

Ltac rblia := rewrite ?RING_BYTES_val, ?SIZE_val in *; lia.

Section Proof.
Variables (wtab rtab : list user_ring_buf) (wpast rpast : user_ring_buf) (wrd rrd : Z).
Variables (write_buf_addr read_buf_addr : Z) (write_buf : Z -> Z).
Abbreviation wlo := (ubuf (entry wtab wpast wrd)).
Abbreviation rlo := (ubuf (entry rtab rpast rrd)).
Abbreviation step_child := (child_step wtab wpast wrd write_buf_addr write_buf).
Abbreviation step_parent := (parent_step rtab rpast rrd read_buf_addr).
Abbreviation B := RING_BYTES.

(** Both descriptors are valid, each ring lies below [2 ^ 64], and [write_buf] is filled. *)
Record rb_ok : Prop := {
  ro_wvalid : is_rd_valid wtab wpast wrd = 0;
  ro_rvalid : is_rd_valid rtab rpast rrd = 0;
  ro_wlo : 0 <= wlo /\ wlo + 2 * B <= 2 ^ 64;
  ro_rlo : 0 <= rlo /\ rlo + 2 * B <= 2 ^ 64;
  ro_buf : forall i, 0 <= i < SIZE -> write_buf i = chr_m;
}.
Hypothesis Hok : rb_ok.

(** ** The library calls, one access at a time *)

Definition sw1 (read : Z) : prog (Z * Z) :=
  LoadWrite (fun write => Ret (u64 (wlo + write_offset write), s32 (u64 (USR_RINGBUF_SIZE * PGSIZE - u64 (write - read))))).
Definition fw1 (bytes read : Z) : prog unit :=
  LoadWrite (fun write => if u64 (USR_RINGBUF_SIZE * PGSIZE - u64 (write - read)) <? u64 bytes then Exit else StoreWrite (u64 (write + u64 bytes)) (Ret tt)).
Definition sr1 (read : Z) : prog (Z * Z) :=
  LoadWrite (fun write => Ret (u64 (rlo + read_offset read), s32 (u64 (write - read)))).
Definition fr1 (bytes read : Z) : prog unit :=
  LoadWrite (fun write => if u64 (write - read) <? u64 bytes then Ret tt else if u64 bytes <=? write then StoreRead (u64 (read + u64 bytes)) (Ret tt) else Ret tt).

Lemma start_write_eq : ringbuf_start_write wtab wpast wrd = LoadRead sw1.
Proof. unfold ringbuf_start_write. by rewrite (ro_wvalid Hok). Qed.
Lemma finish_write_eq n : ringbuf_finish_write wtab wpast wrd n = LoadRead (fw1 n).
Proof. unfold ringbuf_finish_write. by rewrite (ro_wvalid Hok). Qed.
Lemma start_read_eq : ringbuf_start_read rtab rpast rrd = LoadRead sr1.
Proof. unfold ringbuf_start_read. by rewrite (ro_rvalid Hok). Qed.
Lemma finish_read_eq n : ringbuf_finish_read rtab rpast rrd n = LoadRead (fr1 n).
Proof. unfold ringbuf_finish_read. by rewrite (ro_rvalid Hok). Qed.

(** ** The invariant

    [n] rings have been read; [full] says that the ring holds bytes to read. *)

Definition W (n : Z) (full : bool) : Z := n * B + (if full then B else 0).

(** The first [k] bytes that [memmove] copies, as the indices of [f]. *)
Definition copied (f : Z -> Z) (dst src base k : Z) : Prop :=
  forall j, 0 <= j < k -> f (base + copy_index dst src B j) = chr_m.
Definition ring_m (f : Z -> Z) : Prop := forall o, 0 <= o < B -> f o = chr_m.
Definition got (f : Z -> Z) (n : Z) : Prop := forall j, 0 <= j < n -> f j = chr_m.

Definition child_inv (n : Z) (full : bool) (f : Z -> Z) (c : child) : Prop :=
  match c with
  | CWhile t => t = W n full
  | CStart p t => t = W n full /\ t < SIZE /\
      (p = LoadRead sw1 \/ (p = sw1 t /\ full = false) \/ (p = sw1 (t - B) /\ B <= t) \/ (p = Ret (wlo, B) /\ full = false) \/ exists a, p = Ret (a, 0))
  | CGot a bytes t => t = W n full /\ t < SIZE /\ (bytes = 0 \/ (bytes = B /\ a = wlo /\ full = false))
  | CCopy a bytes k t => t = W n full /\ t < SIZE /\ full = false /\ bytes = B /\ a = wlo /\ 0 <= k <= B /\ copied f wlo write_buf_addr 0 k
  | CFinish p t =>
      (full = false /\ t = W n full + B /\ t <= SIZE /\ ring_m f /\ (p = LoadRead (fw1 B) \/ p = fw1 B (n * B) \/ p = StoreWrite t (Ret tt))) \/
      (p = Ret tt /\ t = W n full)
  | CDone t => t = W n full /\ t = SIZE
  | CExited => False
  end.

Definition parent_inv (n : Z) (full : bool) (g : Z -> Z) (p : parent) : Prop :=
  let R := n * B in
  match p with
  | PWhile t => t = R /\ got g R
  | PStart p t => t = R /\ got g R /\ t < SIZE /\
      (p = LoadRead sr1 \/ p = sr1 t \/ (p = Ret (rlo, B) /\ full = true) \/ exists a, p = Ret (a, 0))
  | PGot a bytes t => t = R /\ got g R /\ t < SIZE /\ (bytes = 0 \/ (bytes = B /\ a = rlo /\ full = true))
  | PCopy a bytes k t => t = R /\ got g R /\ t < SIZE /\ full = true /\ bytes = B /\ a = rlo /\ 0 <= k <= B /\ copied g (read_buf_addr + t) rlo t k
  | PFinish p t =>
      (full = true /\ t = R + B /\ t <= SIZE /\ got g t /\ (p = LoadRead (fr1 B) \/ p = fr1 B R \/ p = StoreRead t (Ret tt))) \/
      (p = Ret tt /\ t = R /\ got g R)
  | PDone t => t = R /\ got g R /\ t = SIZE
  | PExited => False
  end.

Record inv (rbuf : Z -> Z) (n : Z) (full : bool) (s : rb) : Prop := {
  iv_n : 0 <= n;
  iv_size : W n full <= SIZE;
  iv_book : rb_book s = Book (n * B) (W n full);
  iv_ring : full = true -> ring_m (rb_ring s);
  iv_child : child_inv n full (rb_ring s) (rb_child s);
  iv_parent : parent_inv n full (read_buf s) (rb_parent s);
  iv_out : forall j, ~ (0 <= j < SIZE) -> read_buf s j = rbuf j;
}.

Lemma copy_index_range dst src k : 0 <= k < B -> 0 <= copy_index dst src B k < B.
Proof. intros. unfold copy_index. destruct (dst <? src); rblia. Qed.

(** All the bytes of a ring, whatever the direction. *)
Lemma copied_all f dst src base : copied f dst src base B -> forall j, 0 <= j < B -> f (base + j) = chr_m.
Proof.
  intros H j Hj. unfold copied, copy_index in H. destruct (dst <? src).
  - by apply (H j).
  - specialize (H (B - 1 - j)). replace (B - 1 - (B - 1 - j)) with j in H by rblia. apply H. rblia.
Qed.

(** ** Progress

    The child is the one to move when the ring is empty, the parent when it is full; at the
    end both have to leave their loops.  The rank of a process bounds the steps it has left
    until it stores its counter. *)

Definition empty_window {A} (p : prog (A * Z)) : bool := match p with Ret (_, bytes) => bytes <=? 0 | _ => false end.

Definition crank (w : Z) (c : child) : Z :=
  match c with
  | CWhile _ => B + 9
  | CStart (LoadRead _) _ => B + 8
  | CStart (LoadWrite k) _ => if empty_window (k w) then B + 12 else B + 7
  | CStart (Ret (_, bytes)) _ => if bytes <=? 0 then B + 11 else B + 6
  | CGot _ bytes _ => if bytes <=? 0 then B + 10 else B + 5
  | CCopy _ _ k _ => B - k + 4
  | CFinish (LoadRead _) _ => 3
  | CFinish (LoadWrite _) _ => 2
  | CFinish (StoreWrite _ _) _ => 1
  | CFinish _ _ => B + 10
  | _ => 0
  end.

Definition prank (p : parent) : Z :=
  match p with
  | PWhile _ => B + 9
  | PStart (LoadRead _) _ => B + 8
  | PStart (LoadWrite k) _ => B + 7
  | PStart (Ret (_, bytes)) _ => if bytes <=? 0 then B + 11 else B + 6
  | PGot _ bytes _ => if bytes <=? 0 then B + 10 else B + 5
  | PCopy _ _ k _ => B - k + 4
  | PFinish (LoadRead _) _ => 3
  | PFinish (LoadWrite _) _ => 2
  | PFinish (StoreRead _ _) _ => 1
  | PFinish _ _ => B + 10
  | _ => 0
  end.

Definition cend (c : child) : Z := match c with CDone _ => 0 | CWhile _ => 1 | _ => 2 end.
Definition pend (p : parent) : Z := match p with PDone _ => 0 | PWhile _ => 1 | _ => 2 end.

Definition measure (n : Z) (full : bool) (s : rb) : Z :=
  (2 * (160 - n) - (if full then 1 else 0)) * (B + 20) +
  (if full then prank (rb_parent s) else if n <? 160 then crank (n * B) (rb_child s) else cend (rb_child s) + pend (rb_parent s)).

Definition child_done (c : child) : bool := match c with CDone _ => true | _ => false end.
Definition parent_done (p : parent) : bool := match p with PDone _ => true | _ => false end.

(** A step of the child and a step of the parent. *)
Definition good_child (rbuf : Z -> Z) (n : Z) (full : bool) (s s' : rb) : Prop :=
  exists n' full', inv rbuf n' full' s' /\ (full = true -> n' = n /\ full' = true) /\ measure n' full' s' <= measure n full s /\
    (full = false -> child_done (rb_child s) = false -> measure n' full' s' < measure n full s).

Definition good_parent (rbuf : Z -> Z) (n : Z) (full : bool) (s s' : rb) : Prop :=
  exists n' full', inv rbuf n' full' s' /\ (full = false -> n' = n /\ full' = false) /\ measure n' full' s' <= measure n full s /\
    (full = true \/ (n = 160 /\ parent_done (rb_parent s) = false) -> measure n' full' s' < measure n full s).

Lemma sizes n full : 0 <= n -> W n full <= SIZE -> n <= 160 /\ (full = true -> n < 160) /\ (n < 160 -> full = false -> W n full < SIZE).
Proof. intros Hn Hs. unfold W in *. destruct full; repeat split; intros; rblia. Qed.

(** A step of the child that changes neither the shared memory nor the phase. *)
Lemma child_local rbuf n full s c :
  inv rbuf n full s -> child_inv n full (rb_ring s) c ->
  (full = false -> n < 160 -> crank (n * B) c < crank (n * B) (rb_child s)) -> (full = false -> n = 160 -> cend c < cend (rb_child s)) ->
  good_child rbuf n full s (Rb (rb_ring s) (rb_book s) c (rb_parent s) (read_buf s)).
Proof.
  intros [I1 I2 I3 I4 I5 I6 I7] Hc H1 H2. exists n, full. split; [by split|]. split; [done|]. unfold measure. cbn [rb_child rb_parent].
  pose proof (sizes n full I1 I2) as (Hn & Hn1 & _). destruct full; [split; [lia|done]|].
  destruct (Z.ltb_spec n 160); split; try lia.
Qed.

Lemma book_vals rbuf n full s : inv rbuf n full s -> read_done (rb_book s) = n * B /\ write_done (rb_book s) = W n full.
Proof. intros Hi. by rewrite (iv_book _ _ _ _ Hi). Qed.

Lemma start_bytes t r : t mod B = 0 -> 0 <= t <= SIZE -> 0 <= r <= t -> t - B <= r ->
  sw1 r = LoadWrite (fun write => Ret (u64 (wlo + write_offset write), s32 (u64 (USR_RINGBUF_SIZE * PGSIZE - u64 (write - r))))) /\
  u64 (wlo + write_offset t) = wlo /\ s32 (u64 (USR_RINGBUF_SIZE * PGSIZE - u64 (t - r))) = B - (t - r).
Proof.
  intros Hm Ht Hr Hr2. split; [done|]. pose proof (ro_wlo Hok). unfold write_offset. change (USR_RINGBUF_SIZE * PGSIZE) with B. rewrite Hm, Z.add_0_r.
  rewrite (u64_small (t - r)), (u64_small (B - (t - r))), (u64_small wlo), s32_small by rblia. done.
Qed.

Lemma child_start rbuf n full s p t :
  inv rbuf n full s -> rb_child s = CStart p t -> good_child rbuf n full s (step_child s).
Proof.
  intros Hi Ec. pose proof Hi as [I1 I2 I3 I4 I5 I6 I7]. rewrite Ec in I5. destruct I5 as (Et & Hlt & Hp).
  unfold child_step. rewrite Ec. pose proof (sizes n full I1 I2) as (Hn & Hn1 & _).
  assert (Hm : t mod B = 0 /\ 0 <= t <= SIZE /\ n * B <= t <= n * B + B) by (rewrite Et; unfold W in *; destruct full; rblia).
  destruct Hm as (Hm & Ht & Hnt). destruct (book_vals rbuf n full s Hi) as [Er Ew].
  assert (Hend : full = false -> n = 160 -> False) by (intros -> ->; unfold W in Et; rblia).
  destruct Hp as [->|[[-> Hf]|[[-> Hb]|[[-> Hf]|[a ->]]]]].
  - cbn [access]. rewrite Er. apply child_local; [done| |rewrite Ec|intros; exfalso; auto].
    + split; [done|]. split; [done|]. unfold W in Et. destruct full; [right; right; left|right; left]; (split; [f_equal; rblia|done || rblia]).
    + intros Hf Hlt'. cbn [crank sw1 empty_window]. destruct (start_bytes t (n * B)) as (_ & _ & Eb); [done|done|rblia|rblia|].
      assert (E : n * B = t) by (subst full; unfold W in Et; lia). rewrite E in *. rewrite Eb. destruct (Z.leb_spec (B - (t - t)) 0); rblia.
  - cbn [access sw1]. rewrite Ew, <-Et. destruct (start_bytes t t) as (_ & Ea & Eb); [done|done|lia|rblia|].
    rewrite Ea, Eb. replace (B - (t - t)) with B by lia. apply child_local; [done| |rewrite Ec|intros; exfalso; auto].
    + split; [done|]. split; [done|]. right; right; right; left. done.
    + intros _ Hlt'. assert (E : n * B = t) by (subst full; unfold W in Et; lia). cbn [crank sw1 empty_window]. rewrite E, Eb.
      destruct (Z.leb_spec B 0), (Z.leb_spec (B - (t - t)) 0); rblia.
  - cbn [access sw1]. rewrite Ew, <-Et.
    destruct (start_bytes t (t - B)) as (_ & Ea & Eb); [done|done|rblia|lia|]. rewrite Ea, Eb. replace (B - (t - (t - B))) with 0 by lia.
    apply child_local; [done| |rewrite Ec|intros; exfalso; auto].
    + split; [done|]. split; [done|]. right; right; right; right. by eexists.
    + intros -> Hlt'. assert (E : n * B = t) by (unfold W in Et; lia). cbn [crank sw1 empty_window]. rewrite E, Eb.
      destruct (Z.leb_spec 0 0), (Z.leb_spec (B - (t - (t - B))) 0); rblia.
  - apply child_local; [done| |rewrite Ec|intros; exfalso; auto].
    + split; [done|]. split; [done|]. right. done.
    + intros _ _. cbn [crank]. destruct (Z.leb_spec B 0); rblia.
  - apply child_local; [done| |rewrite Ec|intros; exfalso; auto].
    + split; [done|]. split; [done|]. by left.
    + intros _ _. cbn [crank]. destruct (Z.leb_spec 0 0); rblia.
Qed.

Lemma child_while rbuf n full s t :
  inv rbuf n full s -> rb_child s = CWhile t -> good_child rbuf n full s (step_child s).
Proof.
  intros Hi Ec. pose proof (iv_child _ _ _ _ Hi) as I5. rewrite Ec in I5. cbn in I5. pose proof (iv_size _ _ _ _ Hi) as I2.
  pose proof (sizes n full (iv_n _ _ _ _ Hi) I2) as (Hn & Hn1 & Hn2). unfold child_step. rewrite Ec.
  destruct (Z.ltb_spec t SIZE).
  - apply child_local; [done| |rewrite Ec|rewrite Ec].
    + split; [done|]. split; [done|]. left. apply start_write_eq.
    + intros _ _. rewrite start_write_eq. cbn [crank]. lia.
    + intros -> ->. unfold W in I5. rblia.
  - apply child_local; [done| |rewrite Ec|rewrite Ec].
    + split; [done|lia].
    + intros -> Hlt. specialize (Hn2 Hlt eq_refl). lia.
    + intros _ _. done.
Qed.

Lemma child_got rbuf n full s a bytes t :
  inv rbuf n full s -> rb_child s = CGot a bytes t -> good_child rbuf n full s (step_child s).
Proof.
  intros Hi Ec. pose proof (iv_child _ _ _ _ Hi) as I5. rewrite Ec in I5. destruct I5 as (Et & Hlt & Hb).
  unfold child_step. rewrite Ec. assert (Hend : full = false -> n = 160 -> False) by (intros -> ->; unfold W in Et; rblia).
  destruct Hb as [->|(-> & -> & Hf)].
  - cbn [Z.leb Z.compare]. apply child_local; [done|done|rewrite Ec|intros; exfalso; auto]. intros _ _. cbn [crank]. destruct (Z.leb_spec 0 0); lia.
  - destruct (Z.leb_spec B 0) as [Hc|]; [rblia|]. apply child_local; [done| |rewrite Ec|intros; exfalso; auto].
    + cbn. repeat (split; [done || rblia|]). intros j Hj. lia.
    + intros _ _. cbn [crank]. destruct (Z.leb_spec B 0); rblia.
Qed.

Lemma store_index f i v o : 0 <= i < B -> 0 <= o < B -> ring_store f wlo (wlo + i) v o = if decide (o = i) then v else f o.
Proof.
  intros Hi Ho. unfold ring_store. replace ((wlo + i - wlo) mod B) with i; [done|].
  replace (wlo + i - wlo) with i by lia. symmetry. apply Z.mod_small. lia.
Qed.

Lemma child_copy rbuf n full s a bytes k t :
  inv rbuf n full s -> rb_child s = CCopy a bytes k t -> good_child rbuf n full s (step_child s).
Proof.
  intros Hi Ec. pose proof Hi as [I1 I2 I3 I4 I5 I6 I7]. rewrite Ec in I5. destruct I5 as (Et & Hlt & Hf & -> & -> & Hk & Hc).
  subst full. assert (Hn : n < 160 /\ 0 <= t) by (unfold W in Et; rblia). destruct Hn as [Hn H0]. unfold child_step. rewrite Ec. destruct (Z.ltb_spec k B) as [Hkb|Hkb].
  - pose proof (copy_index_range wlo write_buf_addr k ltac:(lia)) as Hr. set (i := copy_index wlo write_buf_addr B k) in *.
    exists n, false. split.
    + split; cbn [rb_book rb_ring rb_child rb_parent read_buf]; try done. repeat (split; [done || lia|]).
      intros j Hj. pose proof (copy_index_range wlo write_buf_addr j ltac:(lia)). rewrite Z.add_0_l, store_index by lia. case_decide as E.
      * apply (ro_buf Hok). rblia.
      * rewrite <-(Z.add_0_l (copy_index _ _ _ _)). apply Hc. destruct (decide (j = k)) as [->|]; [done|lia].
    + split; [done|]. unfold measure. cbn [rb_child rb_parent]. rewrite Ec. destruct (Z.ltb_spec n 160); [|lia]. cbn [crank]. split; [lia|intros; lia].
  - assert (k = B) as -> by lia. apply child_local; [done| |rewrite Ec|lia].
    + left. split; [done|]. assert (Ht : s32 (t + B) = t + B) by (apply s32_small; rblia). rewrite Ht. split; [lia|]. split.
      { unfold W in *. rblia. }
      split; [|left; apply finish_write_eq]. intros o Ho. by apply (copied_all _ _ _ 0 Hc o).
    + intros _ _. rewrite finish_write_eq. cbn [crank]. lia.
Qed.

Lemma child_finish rbuf n full s p t :
  inv rbuf n full s -> rb_child s = CFinish p t -> good_child rbuf n full s (step_child s).
Proof.
  intros Hi Ec. pose proof Hi as [I1 I2 I3 I4 I5 I6 I7]. rewrite Ec in I5. destruct (book_vals rbuf n full s Hi) as [Er Ew].
  unfold child_step. rewrite Ec. destruct I5 as [(Hf & Et & Ht & Hm & Hp)|[-> Et]].
  - subst full. unfold W in *. rewrite Z.add_0_r in *. assert (Hn : n < 160) by rblia. destruct Hp as [->|[->| ->]].
    + cbn [access]. rewrite Er. apply child_local; [done| |rewrite Ec; cbn [crank fw1]; lia|lia].
      left. unfold W. rewrite Z.add_0_r. split; [done|]. split; [done|]. split; [done|]. split; [done|]. right. by left.
    + cbn [access fw1]. rewrite Ew. change (USR_RINGBUF_SIZE * PGSIZE) with B.
      rewrite (u64_small (n * B - n * B)), (u64_small (B - _)), (u64_small B), (u64_small (n * B + B)) by rblia.
      destruct (Z.ltb_spec (B - (n * B - n * B)) B); [lia|]. rewrite <-Et. apply child_local; [done| |rewrite Ec; cbn [crank fw1]; lia|lia].
      left. unfold W. rewrite Z.add_0_r. split; [done|]. split; [done|]. split; [done|]. split; [done|]. right. by right.
    + cbn [access]. rewrite Er. exists n, true. split.
      * split; cbn [rb_book rb_ring rb_child rb_parent read_buf]; try done; unfold W; [lia|by rewrite Et|right; split; [done|unfold W; lia]|].
        destruct (rb_parent s); cbn in I6 |- *; try done; intuition discriminate.
      * split; [done|]. unfold measure. cbn [rb_child rb_parent]. rewrite Ec. destruct (Z.ltb_spec n 160); [|lia]. cbn [crank].
        assert (prank (rb_parent s) < B + 20).
        { destruct (rb_parent s) as [| [[? ?]| | | | |] | | | [] | |]; cbn [prank]; repeat case_match; cbn in I6; rblia || (intuition rblia). }
        split; [|intros]; rblia.
  - cbn. apply child_local; [done|done|rewrite Ec; cbn [crank]; lia|rewrite Ec; cbn [cend]; lia].
Qed.

Lemma child_ok rbuf n full s : inv rbuf n full s -> good_child rbuf n full s (step_child s).
Proof.
  intros Hi. destruct (rb_child s) eqn:Ec.
  - by apply (child_while rbuf n full s total).
  - by apply (child_start rbuf n full s p total).
  - by apply (child_got rbuf n full s addr bytes total).
  - by apply (child_copy rbuf n full s addr bytes k total).
  - by apply (child_finish rbuf n full s p total).
  - unfold child_step. rewrite Ec. exists n, full. rewrite Ec. done.
  - pose proof (iv_child _ _ _ _ Hi) as I5. by rewrite Ec in I5.
Qed.

(** ** The parent *)

Lemma parent_local rbuf n full s p :
  inv rbuf n full s -> parent_inv n full (read_buf s) p ->
  (full = true -> prank p < prank (rb_parent s)) -> (full = false -> n = 160 -> pend p < pend (rb_parent s)) ->
  good_parent rbuf n full s (Rb (rb_ring s) (rb_book s) (rb_child s) p (read_buf s)).
Proof.
  intros [I1 I2 I3 I4 I5 I6 I7] Hc H1 H2. exists n, full. split; [by split|]. split; [done|]. unfold measure. cbn [rb_child rb_parent].
  pose proof (sizes n full I1 I2) as (Hn & Hn1 & _). destruct full; [specialize (H1 eq_refl); split; [lia|intros; lia]|].
  destruct (Z.ltb_spec n 160); [split; [lia|intros [|[]]; [done|lia]]|]. specialize (H2 eq_refl ltac:(lia)). split; [lia|intros; lia].
Qed.

Lemma read_bytes_at t w : t mod B = 0 -> 0 <= t <= SIZE -> (w = t \/ w = t + B) ->
  u64 (rlo + read_offset t) = rlo /\ s32 (u64 (w - t)) = w - t.
Proof.
  intros Hm Ht Hw. pose proof (ro_rlo Hok). unfold read_offset. assert (E : t mod USR_RINGBUF_SIZE = 0).
  { unfold USR_RINGBUF_SIZE. rewrite RING_BYTES_val in Hm. lia. }
  rewrite E, Z.mul_0_l, (u64_small 0), Z.add_0_r by lia. rewrite (u64_small rlo), (u64_small (w - t)), s32_small by rblia. done.
Qed.

Lemma parent_start rbuf n full s p t :
  inv rbuf n full s -> rb_parent s = PStart p t -> good_parent rbuf n full s (step_parent s).
Proof.
  intros Hi Ec. pose proof Hi as [I1 I2 I3 I4 I5 I6 I7]. rewrite Ec in I6. destruct I6 as (Et & Hg & Hlt & Hp).
  unfold parent_step. rewrite Ec. destruct (book_vals rbuf n full s Hi) as [Er Ew].
  assert (Hm : t mod B = 0 /\ 0 <= t <= SIZE) by (rewrite Et; rblia). destruct Hm as (Hm & Ht).
  assert (Hend : full = false -> n = 160 -> False) by (intros _ ->; rblia).
  destruct Hp as [->|[->|[[-> Hf]|[a ->]]]].
  - cbn [access]. rewrite Er, <-Et. apply parent_local; [done| |rewrite Ec; cbn [prank sr1]; lia|intros; exfalso; auto].
    split; [done|]. split; [done|]. split; [done|]. right. by left.
  - cbn [access sr1]. rewrite Ew. destruct (read_bytes_at t (W n full)) as [Ea Eb]; [done|done|unfold W; destruct full; lia|].
    rewrite Ea, Eb. apply parent_local; [done| |rewrite Ec; cbn [prank sr1]|intros; exfalso; auto].
    + split; [done|]. split; [done|]. split; [done|]. right. right. unfold W. destruct full; [left|right; exists rlo].
      * split; [|done]. do 2 f_equal. lia.
      * do 2 f_equal. lia.
    + intros ->. unfold W. destruct (Z.leb_spec (n * B + B - t) 0); rblia.
  - apply parent_local; [done| |rewrite Ec; cbn [prank]|intros; exfalso; auto].
    + split; [done|]. split; [done|]. split; [done|]. by right.
    + intros _. destruct (Z.leb_spec B 0); rblia.
  - apply parent_local; [done| |rewrite Ec; cbn [prank]|intros; exfalso; auto].
    + split; [done|]. split; [done|]. split; [done|]. by left.
    + intros _. destruct (Z.leb_spec 0 0); rblia.
Qed.

Lemma parent_while rbuf n full s t :
  inv rbuf n full s -> rb_parent s = PWhile t -> good_parent rbuf n full s (step_parent s).
Proof.
  intros Hi Ec. pose proof (iv_parent _ _ _ _ Hi) as I6. rewrite Ec in I6. destruct I6 as [Et Hg]. pose proof (iv_size _ _ _ _ Hi) as I2.
  pose proof (sizes n full (iv_n _ _ _ _ Hi) I2) as (Hn & Hn1 & Hn2). unfold parent_step. rewrite Ec.
  destruct (Z.ltb_spec t SIZE).
  - apply parent_local; [done| |rewrite Ec, start_read_eq; cbn [prank]; lia|rewrite Ec; intros; rblia].
    split; [done|]. split; [done|]. split; [done|]. left. apply start_read_eq.
  - apply parent_local; [done| |rewrite Ec; intros Hf; specialize (Hn1 Hf); rblia|rewrite Ec; cbn [pend]; lia].
    split; [done|]. split; [done|]. unfold W in I2. rblia.
Qed.

Lemma parent_got rbuf n full s a bytes t :
  inv rbuf n full s -> rb_parent s = PGot a bytes t -> good_parent rbuf n full s (step_parent s).
Proof.
  intros Hi Ec. pose proof (iv_parent _ _ _ _ Hi) as I6. rewrite Ec in I6. destruct I6 as (Et & Hg & Hlt & Hb).
  unfold parent_step. rewrite Ec. assert (Hend : full = false -> n = 160 -> False) by (intros _ ->; rblia).
  destruct Hb as [->|(-> & -> & Hf)].
  - cbn [Z.leb Z.compare]. apply parent_local; [done|done|rewrite Ec; cbn [prank]|intros; exfalso; auto]. intros _. destruct (Z.leb_spec 0 0); lia.
  - destruct (Z.leb_spec B 0) as [Hc|]; [rblia|]. apply parent_local; [done| |rewrite Ec; cbn [prank]|intros; exfalso; auto].
    + cbn. repeat (split; [done || rblia|]). intros j Hj. lia.
    + intros _. destruct (Z.leb_spec B 0); rblia.
Qed.

Lemma load_index f i : 0 <= i < B -> ring_load f rlo (rlo + i) = f i.
Proof. intros Hi. unfold ring_load. replace (rlo + i - rlo) with i by lia. by rewrite Z.mod_small. Qed.

Lemma parent_copy rbuf n full s a bytes k t :
  inv rbuf n full s -> rb_parent s = PCopy a bytes k t -> good_parent rbuf n full s (step_parent s).
Proof.
  intros Hi Ec. pose proof Hi as [I1 I2 I3 I4 I5 I6 I7]. rewrite Ec in I6. destruct I6 as (Et & Hg & Hlt & Hf & -> & -> & Hk & Hc).
  subst full. unfold parent_step. rewrite Ec. destruct (Z.ltb_spec k B) as [Hkb|Hkb].
  - pose proof (copy_index_range (read_buf_addr + t) rlo k ltac:(lia)) as Hr. set (i := copy_index (read_buf_addr + t) rlo B k) in *.
    pose proof (I4 eq_refl i Hr) as Hm. exists n, true. split.
    + split; cbn [rb_book rb_ring rb_child rb_parent read_buf]; try done.
      * split; [done|]. split; [intros j Hj; case_decide; [lia|by apply Hg]|]. repeat (split; [done || lia|]).
        intros j Hj. case_decide as E; [by rewrite load_index|]. apply Hc. destruct (decide (j = k)) as [->|]; [done|lia].
      * intros j Hj. rewrite decide_False by rblia. by apply I7.
    + split; [done|]. unfold measure. cbn [rb_child rb_parent]. rewrite Ec. cbn [prank]. split; [lia|intros; lia].
  - assert (k = B) as -> by lia. assert (H0 : 0 <= t) by rblia. apply parent_local; [done| |rewrite Ec, finish_read_eq; cbn [prank]; lia|done].
    left. split; [done|]. assert (Ht : s32 (t + B) = t + B) by (apply s32_small; rblia). rewrite Ht. split; [lia|]. split; [rblia|].
    split; [|left; apply finish_read_eq]. intros j Hj. destruct (Z.lt_ge_cases j t); [apply Hg; lia|].
    replace j with (t + (j - t)) by lia. apply (copied_all _ _ _ _ Hc). lia.
Qed.

Lemma parent_finish rbuf n full s p t :
  inv rbuf n full s -> rb_parent s = PFinish p t -> good_parent rbuf n full s (step_parent s).
Proof.
  intros Hi Ec. pose proof Hi as [I1 I2 I3 I4 I5 I6 I7]. rewrite Ec in I6. destruct (book_vals rbuf n full s Hi) as [Er Ew].
  unfold parent_step. rewrite Ec. destruct I6 as [(Hf & Et & Ht & Hm & Hp)|(-> & Et & Hm)].
  - subst full. unfold W in Ew, I2. assert (Hn : n < 160) by rblia. destruct Hp as [->|[->| ->]].
    + cbn [access]. rewrite Er. apply parent_local; [done| |rewrite Ec; cbn [prank fr1]; lia|done].
      left. split; [done|]. split; [done|]. split; [done|]. split; [done|]. right. by left.
    + cbn [access fr1]. rewrite Ew. rewrite (u64_small (n * B + B - n * B)), (u64_small B), (u64_small (n * B + B)) by rblia.
      destruct (Z.ltb_spec (n * B + B - n * B) B); [lia|]. destruct (Z.leb_spec B (n * B + B)); [|rblia]. rewrite <-Et.
      apply parent_local; [done| |rewrite Ec; cbn [prank fr1]; lia|done].
      left. split; [done|]. split; [done|]. split; [done|]. split; [done|]. right. by right.
    + cbn [access]. rewrite Ew. exists (n + 1), false. assert (EW : W (n + 1) false = W n true) by (unfold W; lia). split.
      * split; cbn [rb_book rb_ring rb_child rb_parent read_buf]; try done; [lia|rewrite EW; unfold W; lia| | |].
        { f_equal; unfold W; lia. }
        { destruct (rb_child s); cbn in I5 |- *; rewrite ?EW; try done; intuition discriminate. }
        { right. split; [done|]. replace ((n + 1) * B) with t by lia. done. }
      * split; [done|]. unfold measure. cbn [rb_child rb_parent]. rewrite Ec. cbn [prank].
        assert (Hc : (if n + 1 <? 160 then crank ((n + 1) * B) (rb_child s) else cend (rb_child s) + pend (PFinish (Ret tt) t)) < B + 20).
        { destruct (n + 1 <? 160); [|destruct (rb_child s); cbn; rblia].
          destruct (rb_child s) as [| [[? ?]| | | | |] | | | [] | |]; cbn [crank]; repeat case_match; cbn in I5; rblia || (intuition rblia). }
        split; [|intros]; rblia.
  - cbn. apply parent_local; [done|done|rewrite Ec; cbn [prank]; lia|rewrite Ec; cbn [pend]; lia].
Qed.

Lemma parent_ok rbuf n full s : inv rbuf n full s -> good_parent rbuf n full s (step_parent s).
Proof.
  intros Hi. destruct (rb_parent s) eqn:Ec.
  - by apply (parent_while rbuf n full s total).
  - by apply (parent_start rbuf n full s p total).
  - by apply (parent_got rbuf n full s addr bytes total).
  - by apply (parent_copy rbuf n full s addr bytes k total).
  - by apply (parent_finish rbuf n full s p total).
  - unfold parent_step. rewrite Ec. exists n, full. rewrite Ec. split; [done|]. split; [done|]. split; [lia|]. intros [->|[_ H]]; [|done].
    pose proof (iv_parent _ _ _ _ Hi) as I6. rewrite Ec in I6. destruct I6 as (E1 & _ & E2). pose proof (iv_size _ _ _ _ Hi) as I2. unfold W in I2. rblia.
  - pose proof (iv_parent _ _ _ _ Hi) as I6. by rewrite Ec in I6.
Qed.

(** ** Schedules *)

Abbreviation run_rb := (play wtab rtab wpast rpast wrd rrd write_buf_addr read_buf_addr write_buf).

Lemma play_ok rbuf sched : forall n full s, inv rbuf n full s ->
  exists n' full', inv rbuf n' full' (run_rb sched s) /\ measure n' full' (run_rb sched s) <= measure n full s.
Proof.
  induction sched as [|[] sched IH]; intros n full s Hi; cbn [play]; [exists n, full; split; [done|lia]|..].
  - destruct (child_ok rbuf n full s Hi) as (n1 & f1 & H1 & _ & H2 & _). destruct (IH n1 f1 _ H1) as (n2 & f2 & H3 & H4).
    exists n2, f2. split; [done|lia].
  - destruct (parent_ok rbuf n full s Hi) as (n1 & f1 & H1 & _ & H2 & _). destruct (IH n1 f1 _ H1) as (n2 & f2 & H3 & H4).
    exists n2, f2. split; [done|lia].
Qed.

Lemma child_step_parent s : rb_parent (step_child s) = rb_parent s.
Proof. unfold child_step. repeat case_match; done. Qed.
Lemma parent_step_child s : rb_child (step_parent s) = rb_child s.
Proof. unfold parent_step. repeat case_match; done. Qed.

(** The process that has to move is in the schedule. *)
Lemma play_child rbuf sched : forall n s, inv rbuf n false s -> child_done (rb_child s) = false -> true ∈ sched ->
  exists n' full', inv rbuf n' full' (run_rb sched s) /\ measure n' full' (run_rb sched s) < measure n false s.
Proof.
  induction sched as [|[] sched IH]; intros n s Hi Hc Hin; [by apply elem_of_nil in Hin|..]; cbn [play].
  - destruct (child_ok rbuf n false s Hi) as (n1 & f1 & H1 & _ & _ & H2). specialize (H2 eq_refl Hc).
    destruct (play_ok rbuf sched n1 f1 _ H1) as (n2 & f2 & H3 & H4). exists n2, f2. split; [done|lia].
  - destruct (parent_ok rbuf n false s Hi) as (n1 & f1 & H1 & H2 & H3 & _). destruct (H2 eq_refl) as [-> ->].
    destruct (IH n _ H1) as (n2 & f2 & H4 & H5); [by rewrite parent_step_child|set_solver|]. exists n2, f2. split; [done|lia].
Qed.

Lemma play_parent rbuf sched : forall n full s, inv rbuf n full s ->
  full = true \/ (n = 160 /\ child_done (rb_child s) = true /\ parent_done (rb_parent s) = false) -> false ∈ sched ->
  exists n' full', inv rbuf n' full' (run_rb sched s) /\ measure n' full' (run_rb sched s) < measure n full s.
Proof.
  induction sched as [|[] sched IH]; intros n full s Hi Hc Hin; [by apply elem_of_nil in Hin|..]; cbn [play].
  - destruct (child_ok rbuf n full s Hi) as (n1 & f1 & H1 & H2 & H3 & _). destruct Hc as [->|(-> & Hd & Hp)].
    + destruct (H2 eq_refl) as [-> ->]. destruct (IH n true _ H1) as (n2 & f2 & H4 & H5); [by left|set_solver|]. exists n2, f2. split; [done|lia].
    + assert (E : step_child s = s) by (unfold child_step; destruct (rb_child s); done). rewrite E in *.
      destruct (IH 160 full s Hi) as (n2 & f2 & H4 & H5); [by right|set_solver|]. exists n2, f2. done.
  - destruct (parent_ok rbuf n full s Hi) as (n1 & f1 & H1 & _ & _ & H2).
    destruct (play_ok rbuf sched n1 f1 _ H1) as (n2 & f2 & H3 & H4). exists n2, f2. split; [done|].
    assert (measure n1 f1 (step_parent s) < measure n full s) by (apply H2; tauto). lia.
Qed.

Definition both_done (s : rb) : bool := child_done (rb_child s) && parent_done (rb_parent s).

Lemma play_done sched s : both_done s = true -> run_rb sched s = s.
Proof.
  intros Hd. assert (E : step_child s = s /\ step_parent s = s).
  { unfold both_done, child_step, parent_step in *. destruct (rb_child s), (rb_parent s); done. }
  induction sched as [|[] sched IH]; cbn [play]; rewrite ?(proj1 E), ?(proj2 E); done.
Qed.

Lemma play_round rbuf sched n full s : inv rbuf n full s -> both_done s = false -> true ∈ sched -> false ∈ sched ->
  exists n' full', inv rbuf n' full' (run_rb sched s) /\ measure n' full' (run_rb sched s) < measure n full s.
Proof.
  intros Hi Hd Ht Hf. destruct full; [apply play_parent; auto|]. destruct (child_done (rb_child s)) eqn:Ec; [|by apply play_child].
  apply play_parent; [done|right|done]. unfold both_done in Hd. rewrite Ec in Hd. pose proof (iv_child _ _ _ _ Hi) as I5.
  destruct (rb_child s); try done. destruct I5 as [E1 E2]. unfold W in E1. split; [rblia|done].
Qed.

Lemma measure_nonneg rbuf n full s : inv rbuf n full s -> 0 <= measure n full s.
Proof.
  intros [I1 I2 I3 I4 I5 I6 I7]. pose proof (sizes n full I1 I2) as (Hn & Hn1 & _). unfold measure.
  assert (0 <= prank (rb_parent s) /\ 0 <= crank (n * B) (rb_child s) /\ 0 <= cend (rb_child s) /\ 0 <= pend (rb_parent s)) as (? & ? & ? & ?).
  { repeat split.
    - destruct (rb_parent s) as [| [[? ?]| | | | |] | | | [] | |]; cbn [prank]; repeat case_match; cbn in I6; rblia || (intuition rblia).
    - destruct (rb_child s) as [| [[? ?]| | | | |] | | | [] | |]; cbn [crank]; repeat case_match; cbn in I5; rblia || (intuition rblia).
    - destruct (rb_child s); cbn; lia.
    - destruct (rb_parent s); cbn; lia. }
  destruct full; [specialize (Hn1 eq_refl); rblia|]. destruct (n <? 160); rblia.
Qed.

Lemma play_app l1 l2 s : run_rb (l1 ++ l2) s = run_rb l2 (run_rb l1 s).
Proof. revert s. induction l1 as [|[] l1 IH]; intros s; cbn [play app]; auto. Qed.

Lemma rounds_finish rbuf rounds : forall n full s, inv rbuf n full s -> measure n full s < Z.of_nat (length rounds) ->
  Forall (fun r => true ∈ r /\ false ∈ r) rounds -> both_done (run_rb (concat rounds) s) = true.
Proof.
  induction rounds as [|r rounds IH]; intros n full s Hi Hm Hr; [pose proof (measure_nonneg rbuf n full s Hi); cbn in Hm; lia|].
  apply list.Forall_cons in Hr as [[Ht Hf] Hr]. cbn [concat]. rewrite play_app. destruct (both_done s) eqn:Hd.
  - rewrite !play_done by (rewrite ?play_done; done). done.
  - destruct (play_round rbuf r n full s Hi Hd Ht Hf) as (n1 & f1 & H1 & H2). apply (IH n1 f1); [done| |done]. cbn [length] in Hm. lia.
Qed.

Lemma start_inv ring rbuf : inv rbuf 0 false (rb_start ring rbuf).
Proof. split; cbn; try done. split; [done|]. intros j Hj. rblia. Qed.
End Proof.

Lemma validate_ok n : forall i f g, (forall j, i <= j < i + Z.of_nat n -> f j = chr_m /\ g j = chr_m) -> validate n i f g = 0.
Proof.
  induction n as [|n IH]; intros i f g H; [done|]. cbn [validate]. destruct (H i) as [-> ->]; [lia|]. cbn [negb orb Z.eqb Pos.eqb chr_m].
  apply IH. intros j Hj. apply H. lia.
Qed.

Lemma filled_in v f i : 0 <= i < SIZE -> filled v f i = v.
Proof. intros Hi. unfold filled. by rewrite (proj2 (Z.leb_le 0 i)), (proj2 (Z.ltb_lt i SIZE)) by lia. Qed.

Lemma filled_out v f i : ~ (0 <= i < SIZE) -> filled v f i = f i.
Proof. intros Hi. unfold filled. destruct (Z.leb_spec 0 i), (Z.ltb_spec i SIZE); cbn; try done; lia. Qed.

(** A schedule in rounds, each with a step of both processes. *)
Definition fair_rounds (rounds : list (list bool)) : Prop := Forall (fun r => true ∈ r /\ false ∈ r) rounds.

(** C9: [rb] transfers its 10 MB correctly under every schedule of its two processes: the
    library never exits, the parent stores nothing outside [read_buf], a child that leaves its
    loop has written [SIZE] bytes, and when the parent leaves its loop [read_buf] equals
    [write_buf] and the validation at the end of [main] passes.  Under every fair schedule
    both loops end: after 321 * (65536 + 20) rounds in which both processes move. *)
Theorem rb_transfers wtab rtab wpast rpast wrd rrd write_buf_addr read_buf_addr (ring wjunk rjunk : Z -> Z) :
  is_rd_valid wtab wpast wrd = 0 -> is_rd_valid rtab rpast rrd = 0 ->
  0 <= ubuf (entry wtab wpast wrd) -> ubuf (entry wtab wpast wrd) + 2 * RING_BYTES <= 2 ^ 64 ->
  0 <= ubuf (entry rtab rpast rrd) -> ubuf (entry rtab rpast rrd) + 2 * RING_BYTES <= 2 ^ 64 ->
  let write_buf := filled chr_m wjunk in
  let after sched := play wtab rtab wpast rpast wrd rrd write_buf_addr read_buf_addr write_buf sched (rb_start ring (filled chr_g rjunk)) in
  (forall sched, let s := after sched in
    rb_child s <> CExited /\ rb_parent s <> PExited /\ (forall j, ~ (0 <= j < SIZE) -> read_buf s j = rjunk j) /\
    (forall t, rb_child s = CDone t -> t = SIZE) /\
    (forall t, rb_parent s = PDone t -> t = SIZE /\ (forall j, 0 <= j < SIZE -> read_buf s j = write_buf j) /\
      parent_end (child_end 0) 0 write_buf (read_buf s) = 0)) /\
  (forall rounds, fair_rounds rounds -> 321 * (RING_BYTES + 20) <= Z.of_nat (length rounds) -> both_done (after (concat rounds)) = true).
Proof.
  intros H1 H2 H3 H4 H5 H6 write_buf after.
  assert (Hok : rb_ok wtab rtab wpast rpast wrd rrd write_buf) by (split; try done; apply filled_in).
  pose proof (start_inv wtab rtab wpast rpast wrd rrd write_buf_addr read_buf_addr ring (filled chr_g rjunk)) as Hs. split.
  - intros sched s. destruct (play_ok wtab rtab wpast rpast wrd rrd write_buf_addr read_buf_addr write_buf Hok _ sched _ _ _ Hs) as (n & full & Hi & _).
    fold (after sched) in Hi. fold s in Hi. pose proof Hi as [I1 I2 I3 I4 I5 I6 I7].
    split; [intros E; by rewrite E in I5|]. split; [intros E; by rewrite E in I6|].
    split; [intros j Hj; rewrite I7 by done; by apply filled_out|]. split; [intros t E; rewrite E in I5; apply I5|].
    intros t E. rewrite E in I6. destruct I6 as (E1 & Hg & E2). rewrite <-E1, E2 in Hg. split; [done|].
    split; [intros j Hj; unfold write_buf; rewrite Hg, filled_in by done; done|].
    unfold parent_end. cbn [child_end negb Z.eqb]. apply validate_ok. intros j Hj. rewrite Z.add_0_l, Z2Nat.id in Hj by rblia.
    split; [by apply filled_in|by apply Hg].
  - intros rounds Hr Hl. unfold after. eapply rounds_finish; [exact Hok|exact Hs| |exact Hr]. unfold measure, rb_start. cbn [rb_child rb_parent]. change (0 <? 160) with true. cbv iota. cbn [crank]. rblia.
Qed.

(** A fresh descriptor of each process for rings below the trap frame. *)
Lemma rb_transfers_witness :
  let tab := UserRingBuf 0x3fffeed000 0x3fffeec000 1 :: replicate 9 (UserRingBuf 0 0 0) in
  let after sched := play tab tab (UserRingBuf 0 0 0) (UserRingBuf 0 0 0) 0 0 0xa01000 0x1000 (filled chr_m (fun _ => 0)) sched
    (rb_start (fun _ => 0) (filled chr_g (fun _ => 0))) in
  is_rd_valid tab (UserRingBuf 0 0 0) 0 = 0 /\ forall sched, rb_child (after sched) <> CExited.
Proof.
  split; [reflexivity|]. intros sched.
  apply (rb_transfers _ _ (UserRingBuf 0 0 0) (UserRingBuf 0 0 0) 0 0 0xa01000 0x1000 (fun _ => 0) (fun _ => 0) (fun _ => 0)); reflexivity || discriminate.
Defined.
