(* ===== verification/Hart.v ===== *)
(** * A hart and the assembly code

    The registers of a hart and the instructions that [kernel/trampoline.S],
    [kernel/swtch.S], [kernel/kernelvec.S] and [kernel/entry.S] use, with the Sv39
    translation of the addresses they load and store, and those programs, instruction by
    instruction.  An access through an invalid PTE or at a misaligned address is [None]. *)

From S2P Require Import Prelude Mem CString Riscv Kalloc Vm PageTable.

(** ** Registers *)

Inductive reg :=
| ra | sp | gp | tp | t0 | t1 | t2 | t3 | t4 | t5 | t6
| s0 | s1 | s2 | s3 | s4 | s5 | s6 | s7 | s8 | s9 | s10 | s11
| a0 | a1 | a2 | a3 | a4 | a5 | a6 | a7.
#[export] Instance reg_eq : EqDecision reg.
Proof. solve_decision. Defined.

Inductive csr :=
| sstatus | sip | sie | sepc | scause | stval | stvec | sscratch | satp
| mstatus | mie | mepc | mtvec | mscratch | medeleg | mideleg | pmpaddr0 | pmpcfg0 | mhartid | mcounteren | time.
#[export] Instance csr_eq : EqDecision csr.
Proof. solve_decision. Defined.

Inductive mode := UMode | SMode | MMode.

Record hart := Hart { gpr : reg -> Z; csrs : csr -> Z; priv : mode }.

Definition set_reg (r : reg) (v : Z) (h : hart) : hart := Hart (fun x => if decide (x = r) then v else gpr h x) (csrs h) (priv h).
Definition set_csr (c : csr) (v : Z) (h : hart) : hart := Hart (gpr h) (fun x => if decide (x = c) then v else csrs h x) (priv h).
Definition set_priv (p : mode) (h : hart) : hart := Hart (gpr h) (csrs h) p.

(** ** Bits of the status registers *)

Definition MSTATUS_MPP_MASK : Z := Z.shiftl 3 11.
Definition MSTATUS_MPP_M : Z := Z.shiftl 3 11.
Definition MSTATUS_MPP_S : Z := Z.shiftl 1 11.
Definition MSTATUS_MPP_U : Z := Z.shiftl 0 11.
Definition MSTATUS_MIE : Z := Z.shiftl 1 3.
Definition SSTATUS_SPP : Z := Z.shiftl 1 8.
Definition SSTATUS_SPIE : Z := Z.shiftl 1 5.
Definition SSTATUS_SIE : Z := Z.shiftl 1 1.
Definition SIE_SEIE : Z := Z.shiftl 1 9.
Definition SIE_STIE : Z := Z.shiftl 1 5.
Definition SIE_SSIE : Z := Z.shiftl 1 1.
Definition MIE_MTIE : Z := Z.shiftl 1 7.
Definition SATP_SV39 : Z := Z.shiftl 8 60.
Definition MAKE_SATP (pagetable : Z) : Z := Z.lor SATP_SV39 (Z.shiftr pagetable 12).

Definition clear (x bits : Z) : Z := Z.land x (u64 (Z.lnot bits)).

(** ** The trap frame *)

(** The fields of [struct trapframe] of [kernel/proc.h] that hold the user's registers. *)
Definition tf_off (r : reg) : Z :=
  match r with
  | ra => 40 | sp => 48 | gp => 56 | tp => 64 | t0 => 72 | t1 => 80 | t2 => 88 | s0 => 96 | s1 => 104
  | a0 => 112 | a1 => 120 | a2 => 128 | a3 => 136 | a4 => 144 | a5 => 152 | a6 => 160 | a7 => 168
  | s2 => 176 | s3 => 184 | s4 => 192 | s5 => 200 | s6 => 208 | s7 => 216 | s8 => 224 | s9 => 232 | s10 => 240 | s11 => 248
  | t3 => 256 | t4 => 264 | t5 => 272 | t6 => 280
  end.
Definition TF_KERNEL_SATP : Z := 0.
Definition TF_KERNEL_SP : Z := 8.
Definition TF_KERNEL_TRAP : Z := 16.
Definition TF_KERNEL_HARTID : Z := 32.

(** ** Addresses *)

Section Hart.
Context `{KernelImage}.

Definition satp_root (v : Z) : Z := v mod 2 ^ 44 * PGSIZE.

Definition phys (h : hart) (m : memory) (va : Z) : option Z :=
  if negb (va mod 8 =? 0) then None
  else
    match priv h with
    | MMode => Some va
    | _ =>
        if Z.shiftr (csrs h satp) 60 =? 0 then Some va
        else
          let pte := leaf m (satp_root (csrs h satp)) va in
          if has_flag pte PTE_V then Some (PTE2PA pte + va mod PGSIZE) else None
    end.

(** ** Instructions *)

Inductive instr :=
| sd (rs : reg) (off : Z) (base : reg)
| ld (rd : reg) (off : Z) (base : reg)
| li (rd : reg) (v : Z)
| addi (rd rs : reg) (v : Z)
| add (rd rs1 rs2 : reg)
| mul (rd rs1 rs2 : reg)
| csrw (c : csr) (rs : reg)
| csrr (rd : reg) (c : csr)
| csrrw (rd : reg) (c : csr) (rs : reg)
| sfence_vma
| call (f : hart -> memory -> option (hart * memory)).

Definition exec1 (i : instr) (h : hart) (m : memory) : option (hart * memory) :=
  match i with
  | sd rs off base =>
      match phys h m (u64 (gpr h base + off)) with
      | Some pa => Some (h, store64 m pa (gpr h rs))
      | None => None
      end
  | ld rd off base =>
      match phys h m (u64 (gpr h base + off)) with
      | Some pa => Some (set_reg rd (load64 m pa) h, m)
      | None => None
      end
  | li rd v => Some (set_reg rd v h, m)
  | addi rd rs v => Some (set_reg rd (u64 (gpr h rs + v)) h, m)
  | add rd x y => Some (set_reg rd (u64 (gpr h x + gpr h y)) h, m)
  | mul rd x y => Some (set_reg rd (u64 (gpr h x * gpr h y)) h, m)
  | csrw c rs => Some (set_csr c (gpr h rs) h, m)
  | csrr rd c => Some (set_reg rd (csrs h c) h, m)
  | csrrw rd c rs => Some (set_csr c (gpr h rs) (set_reg rd (csrs h c) h), m)
  | sfence_vma => Some (h, m)
  | call f => f h m
  end.

Fixpoint execs (l : list instr) (h : hart) (m : memory) : option (hart * memory) :=
  match l with
  | [] => Some (h, m)
  | i :: l =>
      match exec1 i h m with
      | Some (h, m) => execs l h m
      | None => None
      end
  end.

(** The instruction that ends a program, and where it goes. *)
Inductive jump := Jr (rs : reg) | Ret | Sret | Mret.

Definition do_sret (h : hart) : hart :=
  let x := csrs h sstatus in
  let y := if Z.land x SSTATUS_SPIE =? 0 then clear x SSTATUS_SIE else Z.lor x SSTATUS_SIE in
  set_csr sstatus (clear (Z.lor y SSTATUS_SPIE) SSTATUS_SPP)
    (set_priv (if Z.land x SSTATUS_SPP =? 0 then UMode else SMode) h).

(** Bit 7 of [mstatus] is MPIE. *)
Definition do_mret (h : hart) : hart :=
  let x := csrs h mstatus in
  let y := if Z.land x (Z.shiftl 1 7) =? 0 then clear x MSTATUS_MIE else Z.lor x MSTATUS_MIE in
  let mpp := Z.land x MSTATUS_MPP_MASK in
  set_csr mstatus (clear (Z.lor y (Z.shiftl 1 7)) MSTATUS_MPP_MASK)
    (set_priv (if mpp =? MSTATUS_MPP_M then MMode else if mpp =? MSTATUS_MPP_S then SMode else UMode) h).

Definition exec_jump (j : jump) (h : hart) : hart * Z :=
  match j with
  | Jr rs => (h, gpr h rs)
  | Ret => (h, gpr h ra)
  | Sret => (do_sret h, csrs h sepc)
  | Mret => (do_mret h, csrs h mepc)
  end.

Definition exec_prog (p : list instr * jump) (h : hart) (m : memory) : option (hart * memory * Z) :=
  match execs (fst p) h m with
  | Some (h, m) => let '(h, pc) := exec_jump (snd p) h in Some (h, m, pc)
  | None => None
  end.

(** ** The programs *)

Definition uservec : list instr * jump :=
  ([csrw sscratch a0; li a0 TRAPFRAME; sd ra 40 a0; sd sp 48 a0; sd gp 56 a0; sd tp 64 a0; sd t0 72 a0;
    sd t1 80 a0; sd t2 88 a0; sd s0 96 a0; sd s1 104 a0; sd a1 120 a0; sd a2 128 a0; sd a3 136 a0;
    sd a4 144 a0; sd a5 152 a0; sd a6 160 a0; sd a7 168 a0; sd s2 176 a0; sd s3 184 a0; sd s4 192 a0;
    sd s5 200 a0; sd s6 208 a0; sd s7 216 a0; sd s8 224 a0; sd s9 232 a0; sd s10 240 a0; sd s11 248 a0;
    sd t3 256 a0; sd t4 264 a0; sd t5 272 a0; sd t6 280 a0; csrr t0 sscratch; sd t0 112 a0; ld sp 8 a0;
    ld tp 32 a0; ld t0 16 a0; ld t1 0 a0; sfence_vma; csrw satp t1; sfence_vma], Jr t0).

Definition userret : list instr * jump :=
  ([sfence_vma; csrw satp a0; sfence_vma; li a0 TRAPFRAME; ld ra 40 a0; ld sp 48 a0; ld gp 56 a0;
    ld tp 64 a0; ld t0 72 a0; ld t1 80 a0; ld t2 88 a0; ld s0 96 a0; ld s1 104 a0; ld a1 120 a0;
    ld a2 128 a0; ld a3 136 a0; ld a4 144 a0; ld a5 152 a0; ld a6 160 a0; ld a7 168 a0; ld s2 176 a0;
    ld s3 184 a0; ld s4 192 a0; ld s5 200 a0; ld s6 208 a0; ld s7 216 a0; ld s8 224 a0; ld s9 232 a0;
    ld s10 240 a0; ld s11 248 a0; ld t3 256 a0; ld t4 264 a0; ld t5 272 a0; ld t6 280 a0; ld a0 112 a0], Sret).

Definition swtch : list instr * jump :=
  ([sd ra 0 a0; sd sp 8 a0; sd s0 16 a0; sd s1 24 a0; sd s2 32 a0; sd s3 40 a0; sd s4 48 a0;
    sd s5 56 a0; sd s6 64 a0; sd s7 72 a0; sd s8 80 a0; sd s9 88 a0; sd s10 96 a0; sd s11 104 a0;
    ld ra 0 a1; ld sp 8 a1; ld s0 16 a1; ld s1 24 a1; ld s2 32 a1; ld s3 40 a1; ld s4 48 a1;
    ld s5 56 a1; ld s6 64 a1; ld s7 72 a1; ld s8 80 a1; ld s9 88 a1; ld s10 96 a1; ld s11 104 a1], Ret).

(** [kerneltrap] is the function of [kernel/trap.c]. *)
Definition kernelvec (kerneltrap : hart -> memory -> option (hart * memory)) : list instr * jump :=
  ([addi sp sp (-256); sd ra 0 sp; sd sp 8 sp; sd gp 16 sp; sd tp 24 sp; sd t0 32 sp; sd t1 40 sp;
    sd t2 48 sp; sd s0 56 sp; sd s1 64 sp; sd a0 72 sp; sd a1 80 sp; sd a2 88 sp; sd a3 96 sp;
    sd a4 104 sp; sd a5 112 sp; sd a6 120 sp; sd a7 128 sp; sd s2 136 sp; sd s3 144 sp; sd s4 152 sp;
    sd s5 160 sp; sd s6 168 sp; sd s7 176 sp; sd s8 184 sp; sd s9 192 sp; sd s10 200 sp; sd s11 208 sp;
    sd t3 216 sp; sd t4 224 sp; sd t5 232 sp; sd t6 240 sp; call kerneltrap; ld ra 0 sp; ld sp 8 sp;
    ld gp 16 sp; ld t0 32 sp; ld t1 40 sp; ld t2 48 sp; ld s0 56 sp; ld s1 64 sp; ld a0 72 sp;
    ld a1 80 sp; ld a2 88 sp; ld a3 96 sp; ld a4 104 sp; ld a5 112 sp; ld a6 120 sp; ld a7 128 sp;
    ld s2 136 sp; ld s3 144 sp; ld s4 152 sp; ld s5 160 sp; ld s6 168 sp; ld s7 176 sp; ld s8 184 sp;
    ld s9 192 sp; ld s10 200 sp; ld s11 208 sp; ld t3 216 sp; ld t4 224 sp; ld t5 232 sp; ld t6 240 sp;
    addi sp sp 256], Sret).

Definition timervec : list instr * jump :=
  ([csrrw a0 mscratch a0; sd a1 0 a0; sd a2 8 a0; sd a3 16 a0; ld a1 24 a0; ld a2 32 a0; ld a3 0 a1;
    add a3 a3 a2; sd a3 0 a1; li a1 2; csrw sip a1; ld a3 16 a0; ld a2 8 a0; ld a1 0 a0;
    csrrw a0 mscratch a0], Mret).

(** Up to the call of [start]. *)
Definition entry_code (stack0 : Z) : list instr :=
  [li sp stack0; li a0 (1024 * 4); csrr a1 mhartid; addi a1 a1 1; mul a0 a0 a1; add sp sp a0].
End Hart.

(** ** The register access functions of [kernel/riscv.h]

    Each is one instruction on the registers of the hart; [HasHart] says where a state keeps
    its hart, so that the kernel in supervisor mode and the boot code in machine mode use the
    same definitions. *)

Class HasHart (S : Type) := { get_hart : S -> hart; put_hart : hart -> S -> S }.

Section Csr.
Context {S : Type} `{HasHart S}.

Definition r_csr (c : csr) : M S Z := gets (fun s => csrs (get_hart s) c).
Definition w_csr (c : csr) (v : Z) : M S unit := modify (fun s => put_hart (set_csr c v (get_hart s)) s).
Definition r_reg (r : reg) : M S Z := gets (fun s => gpr (get_hart s) r).

Definition r_mhartid : M S Z := r_csr mhartid.
Definition r_mstatus : M S Z := r_csr mstatus.
Definition w_mstatus (x : Z) : M S unit := w_csr mstatus x.
Definition w_mepc (x : Z) : M S unit := w_csr mepc x.
Definition r_sstatus : M S Z := r_csr sstatus.
Definition w_sstatus (x : Z) : M S unit := w_csr sstatus x.
Definition r_sip : M S Z := r_csr sip.
Definition w_sip (x : Z) : M S unit := w_csr sip x.
Definition r_sie : M S Z := r_csr sie.
Definition w_sie (x : Z) : M S unit := w_csr sie x.
Definition r_mie : M S Z := r_csr mie.
Definition w_mie (x : Z) : M S unit := w_csr mie x.
Definition r_sepc : M S Z := r_csr sepc.
Definition w_sepc (x : Z) : M S unit := w_csr sepc x.
Definition r_medeleg : M S Z := r_csr medeleg.
Definition w_medeleg (x : Z) : M S unit := w_csr medeleg x.
Definition r_mideleg : M S Z := r_csr mideleg.
Definition w_mideleg (x : Z) : M S unit := w_csr mideleg x.
Definition r_stvec : M S Z := r_csr stvec.
Definition w_stvec (x : Z) : M S unit := w_csr stvec x.
Definition w_mtvec (x : Z) : M S unit := w_csr mtvec x.
Definition w_pmpcfg0 (x : Z) : M S unit := w_csr pmpcfg0 x.
Definition w_pmpaddr0 (x : Z) : M S unit := w_csr pmpaddr0 x.
Definition r_satp : M S Z := r_csr satp.
Definition w_satp (x : Z) : M S unit := w_csr satp x.
Definition w_mscratch (x : Z) : M S unit := w_csr mscratch x.
Definition r_scause : M S Z := r_csr scause.
Definition r_stval : M S Z := r_csr stval.
Definition w_mcounteren (x : Z) : M S unit := w_csr mcounteren x.
Definition r_mcounteren : M S Z := r_csr mcounteren.
Definition r_time : M S Z := r_csr time.
Definition r_sp : M S Z := r_reg sp.
Definition r_tp : M S Z := r_reg tp.
Definition w_tp (x : Z) : M S unit := modify (fun s => put_hart (set_reg tp x (get_hart s)) s).
Definition r_ra : M S Z := r_reg ra.

Definition intr_on_hart : M S unit := x ← r_sstatus; w_sstatus (Z.lor x SSTATUS_SIE).
Definition intr_off_hart : M S unit := x ← r_sstatus; w_sstatus (clear x SSTATUS_SIE).
Definition intr_get_hart : M S bool := x ← r_sstatus; mret (negb (Z.land x SSTATUS_SIE =? 0)).
End Csr.
