(* ===== verification/HartProps.v ===== *)
(** * The assembly code saves and restores what it should *)

From S2P Require Import Prelude Mem CString Riscv Kalloc Vm PageTable VmSpec VmCopy RingbufK RingbufFind RingbufMap Demo Hart.

Section HartProps.
Context `{KernelImage}.

(** ** Saving and restoring a list of registers *)

Definition saves (l : list (reg * Z)) (base : reg) : list instr := (fun x => sd (fst x) (snd x) base) <$> l.
Definition loads (l : list (reg * Z)) (base : reg) : list instr := (fun x => ld (fst x) (snd x) base) <$> l.

(** Every register is a 64-bit number. *)
Definition regs64 (h : hart) : Prop := forall r, 0 <= gpr h r < 2 ^ 64.

(** The [len] bytes at virtual address [va] are the physical bytes at [pb], whatever they
    hold. *)
Definition maps (h : hart) (m : memory) (va len pb : Z) : Prop :=
  forall m' o, (forall b, ~ in_range pb len b -> mget m' b = mget m b) -> 0 <= o -> o + 8 <= len -> o mod 8 = 0 ->
    phys h m' (u64 (va + o)) = Some (pb + o).

(** The offsets of a save area of [len] bytes. *)
Definition area_ok (l : list (reg * Z)) (len : Z) : bool :=
  forallb (fun x => (0 <=? snd x) && (snd x + 8 <=? len) && (snd x mod 8 =? 0)) l.

Lemma area_ok_in l len r o : area_ok l len = true -> (r, o) ∈ l -> 0 <= o /\ o + 8 <= len /\ o mod 8 = 0.
Proof.
  intros Hl Hin. apply list_elem_of_In in Hin. unfold area_ok in Hl. rewrite forallb_forall in Hl. specialize (Hl _ Hin). cbn [snd] in Hl. lia.
Qed.

Lemma execs_app l1 l2 h m : execs (l1 ++ l2) h m = match execs l1 h m with Some (h, m) => execs l2 h m | None => None end.
Proof. revert h m. induction l1 as [|i l1 IH]; intros h m; [done|]. cbn [app execs]. destruct (exec1 i h m) as [[h' m']|]; [apply IH|done]. Qed.

Lemma maps_mem h m m' va len pb : maps h m va len pb -> (forall b, ~ in_range pb len b -> mget m' b = mget m b) -> maps h m' va len pb.
Proof. intros Hm E m2 o E2. apply Hm. intros b Hb. rewrite E2 by done. by apply E. Qed.

Lemma maps_hart h h' m va len pb : maps h m va len pb -> csrs h' satp = csrs h satp -> priv h' = priv h -> maps h' m va len pb.
Proof. intros Hm E1 E2 m' o E H1 H2 H3. rewrite <-(Hm m' o E H1 H2 H3). unfold phys. by rewrite E1, E2. Qed.

Lemma execs_saves l base h m len pb :
  maps h m (gpr h base) len pb -> area_ok l len = true -> NoDup (snd <$> l) -> regs64 h ->
  exists m', execs (saves l base) h m = Some (h, m') /\
    (forall r o, (r, o) ∈ l -> load64 m' (pb + o) = gpr h r) /\
    (forall b, (forall r o, (r, o) ∈ l -> ~ in_range (pb + o) 8 b) -> mget m' b = mget m b).
Proof.
  revert m. induction l as [|[r o] l IH]; intros m Hm Ha Hd Hr.
  - exists m. split; [done|]. split; [|done]. intros r o Hin. by apply elem_of_nil in Hin.
  - assert (Ha' : area_ok l len = true) by (cbn in Ha; by apply andb_true_iff in Ha as [_ Ha]).
    destruct (area_ok_in _ _ r o Ha) as (H1 & H2 & H3); [by left|]. rewrite fmap_cons in Hd. apply list.NoDup_cons in Hd as [Hn Hd].
    set (m1 := store64 m (pb + o) (gpr h r)).
    assert (E1 : forall b, ~ in_range (pb + o) 8 b -> mget m1 b = mget m b).
    { intros b Hb. apply (mget_store_le_out _ _ 8). unfold in_range in Hb. lia. }
    destruct (IH m1) as (m' & E & Hl & Hf); [|done|done|done|].
    { apply (maps_mem h m); [done|]. intros b Hb. apply E1. unfold in_range in *. lia. }
    exists m'. split; [|split].
    + cbn [saves fmap list_fmap execs exec1 fst snd]. rewrite (Hm m o) by done. exact E.
    + intros r' o' Hin. apply elem_of_cons in Hin as [Heq|Hin]; [|by apply Hl]. injection Heq as -> ->.
      rewrite (load64_ext m1 m'); [apply load64_store64, Hr|]. intros b Hb. apply Hf. intros r2 o2 Hin2 Hb2.
      destruct (area_ok_in _ _ r2 o2 Ha' Hin2) as (_ & _ & H4). assert (o2 = o).
      { unfold in_range in *. lia. }
      subst o2. apply Hn. apply list_elem_of_fmap. by exists (r2, o).
    + intros b Hb. rewrite Hf by (intros; apply (Hb r0); by right). apply E1. apply (Hb r). by left.
Qed.

Lemma execs_loads l base h m len pb :
  maps h m (gpr h base) len pb -> area_ok l len = true -> NoDup (fst <$> l) ->
  (forall o, (base, o) ∈ l -> load64 m (pb + o) = gpr h base) ->
  exists h', execs (loads l base) h m = Some (h', m) /\ csrs h' = csrs h /\ priv h' = priv h /\
    (forall r o, (r, o) ∈ l -> gpr h' r = load64 m (pb + o)) /\ (forall r, r ∉ fst <$> l -> gpr h' r = gpr h r).
Proof.
  revert h. induction l as [|[r o] l IH]; intros h Hm Ha Hd Hb.
  - exists h. do 3 (split; [done|]). split; [|done]. intros r o Hin. by apply elem_of_nil in Hin.
  - assert (Ha' : area_ok l len = true) by (cbn in Ha; by apply andb_true_iff in Ha as [_ Ha]).
    destruct (area_ok_in _ _ r o Ha) as (H1 & H2 & H3); [by left|]. rewrite fmap_cons in Hd. apply list.NoDup_cons in Hd as [Hn Hd]. cbn [fst] in Hn.
    set (h1 := set_reg r (load64 m (pb + o)) h).
    assert (Eb : gpr h1 base = gpr h base).
    { unfold h1, set_reg. cbn [gpr]. case_decide as E; [|done]. subst r. apply Hb. by left. }
    destruct (IH h1) as (h' & E & Ec & Ep & Hl & Hf).
    { rewrite Eb. apply (maps_hart h); done. }
    { done. }
    { done. }
    { intros o' Hin. rewrite Eb. apply Hb. by right. }
    exists h'. split; [cbn [loads fmap list_fmap execs exec1 fst snd]; rewrite (Hm m o) by done; exact E|].
    split; [done|]. split; [done|]. split.
    + intros r' o' Hin. apply elem_of_cons in Hin as [Heq|Hin]; [|by apply Hl]. injection Heq as -> ->.
      rewrite Hf by done. unfold h1, set_reg. cbn [gpr]. by rewrite decide_True.
    + intros r' Hr'. rewrite fmap_cons in Hr'. apply not_elem_of_cons in Hr' as [Hne Hr']. rewrite Hf by done.
      unfold h1, set_reg. cbn [gpr]. by rewrite decide_False.
Qed.

(** ** The trap frame *)

Definition user_regs : list reg :=
  [ra; sp; gp; tp; t0; t1; t2; s0; s1; a1; a2; a3; a4; a5; a6; a7; s2; s3; s4; s5; s6; s7; s8; s9; s10; s11; t3; t4; t5; t6].
Definition tf_slots : list (reg * Z) := (fun r => (r, tf_off r)) <$> user_regs.

Lemma uservec_parts :
  fst uservec = [csrw sscratch a0; li a0 TRAPFRAME] ++ saves tf_slots a0 ++ [csrr t0 sscratch] ++ saves [(t0, tf_off a0)] a0 ++
    loads [(sp, TF_KERNEL_SP); (tp, TF_KERNEL_HARTID); (t0, TF_KERNEL_TRAP); (t1, TF_KERNEL_SATP)] a0 ++ [sfence_vma; csrw satp t1; sfence_vma].
Proof. reflexivity. Qed.

Lemma userret_parts :
  fst userret = [sfence_vma; csrw satp a0; sfence_vma; li a0 TRAPFRAME] ++ loads tf_slots a0 ++ [ld a0 (tf_off a0) a0].
Proof. reflexivity. Qed.

Lemma MAKE_SATP_val pt : 0 <= pt < 2 ^ 56 -> MAKE_SATP pt = 8 * 2 ^ 60 + pt / PGSIZE.
Proof.
  intros Hp. unfold MAKE_SATP, SATP_SV39. rewrite Z.shiftl_mul_pow2, Z.shiftr_div_pow2 by lia. change (2 ^ 12) with PGSIZE.
  apply lor_disjoint_mul; [lia|]. unfold PGSIZE. lia.
Qed.

Lemma satp_root_make pt : valid_page pt -> satp_root (MAKE_SATP pt) = pt /\ Z.shiftr (MAKE_SATP pt) 60 = 8.
Proof.
  intros Hv. pose proof (valid_page_bounds pt Hv). destruct Hv as [Hal _]. unfold PHYSTOP, KERNBASE, PGSIZE in *.
  rewrite MAKE_SATP_val by lia. unfold satp_root, PGSIZE in *. rewrite Z.shiftr_div_pow2 by lia. lia.
Qed.

Lemma PTE2PA_aligned pte : PTE2PA pte mod PGSIZE = 0.
Proof. unfold PTE2PA, PGSIZE, u64. rewrite Z.shiftl_mul_pow2 by lia. change (2 ^ 12) with 4096. change (2 ^ 64) with (4096 * 2 ^ 52). lia. Qed.

(** The user page table [upt] maps [TRAPFRAME] to the page [tf], which is not one of its own
    pages. *)
Record has_trapframe (m : memory) (upt tf : Z) : Prop := {
  ht_wf : pt_wf m upt;
  ht_valid : has_flag (leaf m upt TRAPFRAME) PTE_V = true;
  ht_pa : PTE2PA (leaf m upt TRAPFRAME) = tf;
  ht_apart : forall t, is_table m upt t -> t <> tf;
}.

Lemma trapframe_maps h m upt tf :
  has_trapframe m upt tf -> csrs h satp = MAKE_SATP upt -> priv h <> MMode -> maps h m TRAPFRAME PGSIZE tf.
Proof.
  intros [Hwf Hv Hpa Ha] Es Hp m' o E H0 H1 H2.
  assert (Hroot : valid_page upt) by (apply (is_table_valid m upt); [done|apply is_table_root]).
  destruct (satp_root_make upt Hroot) as [Er Esh]. pose proof (PTE2PA_aligned (leaf m upt TRAPFRAME)) as Hal. rewrite Hpa in Hal.
  assert (Hva : u64 (TRAPFRAME + o) = TRAPFRAME + o /\ (TRAPFRAME + o) mod 8 = 0 /\ (TRAPFRAME + o) / PGSIZE = TRAPFRAME / PGSIZE /\ (TRAPFRAME + o) mod PGSIZE = o).
  { change TRAPFRAME with 0x3fffffe000. unfold PGSIZE in *. rewrite u64_small by lia. lia. }
  destruct Hva as (-> & Hm8 & Hpg & Hoff). unfold phys. rewrite Hm8, Es, Er, Esh. cbn [negb Z.eqb].
  rewrite (leaf_page m' upt _ TRAPFRAME Hpg). rewrite (leaf_frame m m').
  - rewrite Hv, Hpa, Hoff. destruct (priv h); done.
  - intros t Ht b Hb. apply E. intros Hb2. pose proof (is_table_valid m upt t Hwf Ht) as [Hta _].
    apply (Ha t Ht). by apply (pages_disjoint t tf b).
Qed.

Lemma tf_slots_ok : area_ok tf_slots PGSIZE = true /\ NoDup (snd <$> tf_slots) /\ NoDup (fst <$> tf_slots) /\ (forall r, r <> a0 -> (r, tf_off r) ∈ tf_slots).
Proof.
  split; [reflexivity|]. split; [apply (bool_decide_eq_true_1 _); reflexivity|]. split; [apply (bool_decide_eq_true_1 _); reflexivity|].
  intros r Hr. apply list_elem_of_fmap. exists r. split; [done|]. apply (bool_decide_eq_true_1 _). by destruct r.
Qed.

Lemma tf_off_range r : 40 <= tf_off r /\ tf_off r + 8 <= 288 /\ tf_off r mod 8 = 0.
Proof. by destruct r. Qed.

Lemma tf_off_inj r r' : tf_off r = tf_off r' -> r = r'.
Proof. by destruct r, r'. Qed.

(** What [uservec] leaves: the registers in the trap frame, and the kernel's stack, hart id
    and page table in their registers. *)
Record in_kernel (h : hart) (m : memory) (tf : Z) (h1 : hart) (m1 : memory) (pc : Z) : Prop := {
  ik_saved : forall r, load64 m1 (tf + tf_off r) = gpr h r;
  ik_frame : forall b, ~ in_range (tf + 40) 248 b -> mget m1 b = mget m b;
  ik_pc : pc = load64 m (tf + TF_KERNEL_TRAP);
  ik_sp : gpr h1 sp = load64 m (tf + TF_KERNEL_SP);
  ik_tp : gpr h1 tp = load64 m (tf + TF_KERNEL_HARTID);
  ik_satp : csrs h1 satp = load64 m (tf + TF_KERNEL_SATP);
  ik_csrs : forall c, c <> satp -> c <> sscratch -> csrs h1 c = csrs h c;
  ik_priv : priv h1 = priv h;
}.

Lemma uservec_ok h m upt tf :
  has_trapframe m upt tf -> csrs h satp = MAKE_SATP upt -> priv h = SMode -> regs64 h ->
  exists h1 m1 pc, exec_prog uservec h m = Some (h1, m1, pc) /\ in_kernel h m tf h1 m1 pc.
Proof.
  intros Ht Es Ep Hr. destruct tf_slots_ok as (A1 & A2 & A3 & A4).
  set (ha := set_reg a0 TRAPFRAME (set_csr sscratch (gpr h a0) h)).
  assert (Hra : regs64 ha) by (intros r; unfold ha, set_reg; cbn [gpr set_csr]; case_decide; [done|apply Hr]).
  assert (Hm0 : forall h' m', csrs h' satp = csrs ha satp -> priv h' = SMode -> (forall b, ~ in_range tf PGSIZE b -> mget m' b = mget m b) -> maps h' m' TRAPFRAME PGSIZE tf).
  { intros h' m' E1 E2 E3. apply (maps_mem h' m); [|done]. apply (trapframe_maps h' m upt tf); [done|by rewrite E1|by rewrite E2]. }
  destruct (execs_saves tf_slots a0 ha m PGSIZE tf) as (m1 & E1 & L1 & F1); [by apply Hm0|done|done|done|].
  set (hb := set_reg t0 (csrs ha sscratch) ha).
  assert (Hrb : regs64 hb) by (intros r; unfold hb, set_reg; cbn [gpr]; case_decide; [apply Hr|apply Hra]).
  assert (Hf1 : forall b, ~ in_range tf PGSIZE b -> mget m1 b = mget m b).
  { intros b Hb. apply F1. intros r o Hin Hb2. destruct (area_ok_in _ _ r o A1 Hin) as (? & ? & _). unfold in_range in *. lia. }
  destruct (execs_saves [(t0, tf_off a0)] a0 hb m1 PGSIZE tf) as (m2 & E2 & L2 & F2); [by apply Hm0|done|apply NoDup_singleton|done|].
  assert (Hf2 : forall b, ~ in_range (tf + tf_off a0) 8 b -> mget m2 b = mget m1 b).
  { intros b Hb. apply F2. intros r o Hin. apply list_elem_of_singleton in Hin. by injection Hin as -> ->. }
  assert (Hlow : forall b, ~ in_range (tf + 40) 248 b -> mget m2 b = mget m b).
  { intros b Hb. rewrite Hf2 by (cbn [tf_off]; unfold in_range in *; lia). apply F1. intros r o Hin Hb2. apply list_elem_of_fmap in Hin as (r' & Heq & _).
    injection Heq as -> ->. pose proof (tf_off_range r'). unfold in_range in *. lia. }
  destruct (execs_loads [(sp, TF_KERNEL_SP); (tp, TF_KERNEL_HARTID); (t0, TF_KERNEL_TRAP); (t1, TF_KERNEL_SATP)] a0 hb m2 PGSIZE tf)
    as (h3 & E3 & C3 & P3 & L3 & F3).
  { apply Hm0; [done|done|]. intros b Hb. apply Hlow. unfold in_range, PGSIZE in *. lia. }
  { done. }
  { apply (bool_decide_eq_true_1 _). reflexivity. }
  { intros o Hin. repeat (apply elem_of_cons in Hin as [Hin|Hin]; [discriminate|]). by apply elem_of_nil in Hin. }
  set (h4 := set_csr satp (gpr h3 t1) h3).
  assert (Hx : exec_prog uservec h m = Some (h4, m2, gpr h4 t0)).
  { unfold exec_prog. rewrite uservec_parts, execs_app. change (execs [csrw sscratch a0; li a0 TRAPFRAME] h m) with (Some (ha, m)). cbv iota beta.
    rewrite execs_app, E1, execs_app. change (execs [csrr t0 sscratch] ha m1) with (Some (hb, m1)). cbv iota beta.
    rewrite execs_app, E2, execs_app, E3. done. }
  exists h4, m2, (gpr h4 t0). split; [exact Hx|].
  assert (Hk : forall o, 0 <= o -> o + 8 <= 40 -> load64 m2 (tf + o) = load64 m (tf + o)).
  { intros o H1 H2. apply load64_ext. intros b Hb. apply Hlow. unfold in_range in *. lia. }
  split.
  - intros r. destruct (decide (r = a0)) as [->|Hne].
    + rewrite (L2 t0 (tf_off a0)) by (by left). done.
    + rewrite (load64_ext m1 m2).
      * rewrite (L1 r (tf_off r)) by (by apply A4). unfold ha, set_reg. cbn [gpr set_csr]. by rewrite decide_False.
      * intros b Hb. apply Hf2. intros Hb2. pose proof (tf_off_range r). pose proof (tf_off_range a0). apply Hne, tf_off_inj. unfold in_range in *. lia.
  - done.
  - change (gpr h4 t0) with (gpr h3 t0). rewrite (L3 t0 TF_KERNEL_TRAP) by (apply (bool_decide_eq_true_1 _); reflexivity). by apply Hk.
  - change (gpr h4 sp) with (gpr h3 sp). rewrite (L3 sp TF_KERNEL_SP) by (apply (bool_decide_eq_true_1 _); reflexivity). by apply Hk.
  - change (gpr h4 tp) with (gpr h3 tp). rewrite (L3 tp TF_KERNEL_HARTID) by (apply (bool_decide_eq_true_1 _); reflexivity). by apply Hk.
  - unfold h4, set_csr. cbn [csrs]. rewrite decide_True by done. rewrite (L3 t1 TF_KERNEL_SATP) by (apply (bool_decide_eq_true_1 _); reflexivity). by apply Hk.
  - intros c' H1 H2. unfold h4, set_csr. cbn [csrs]. rewrite decide_False, C3 by done. unfold hb, ha, set_reg, set_csr. cbn [csrs]. by rewrite decide_False.
  - unfold h4, set_csr. cbn [priv]. by rewrite P3.
Qed.

(** [userret], called with the user page table in [a0]. *)
Lemma userret_ok h m upt tf :
  has_trapframe m upt tf -> gpr h a0 = MAKE_SATP upt -> priv h = SMode -> Z.land (csrs h sstatus) SSTATUS_SPP = 0 ->
  exists h', exec_prog userret h m = Some (h', m, csrs h sepc) /\ (forall r, gpr h' r = load64 m (tf + tf_off r)) /\
    priv h' = UMode /\ csrs h' satp = MAKE_SATP upt /\ (forall c, c <> satp -> c <> sstatus -> csrs h' c = csrs h c).
Proof.
  intros Ht Ea Ep Hspp. destruct tf_slots_ok as (A1 & A2 & A3 & A4).
  set (ha := set_reg a0 TRAPFRAME (set_csr satp (gpr h a0) h)).
  assert (Hm0 : forall h', csrs h' = csrs ha -> priv h' = priv ha -> maps h' m TRAPFRAME PGSIZE tf).
  { intros h' E1 E2. apply (trapframe_maps h' m upt tf); [done|by rewrite E1|rewrite E2; unfold ha; cbn [priv set_reg set_csr]; by rewrite Ep]. }
  destruct (execs_loads tf_slots a0 ha m PGSIZE tf) as (h1 & E1 & C1 & P1 & L1 & F1); [by apply Hm0|done|done| |].
  { intros o Hin. apply list_elem_of_fmap in Hin as (r & Heq & Hin). injection Heq as <- ->.
    exfalso. revert Hin. apply (bool_decide_eq_true_1 (a0 ∉ user_regs)). reflexivity. }
  assert (Ha0 : gpr h1 a0 = TRAPFRAME) by (rewrite F1; [done|apply (bool_decide_eq_true_1 _); reflexivity]).
  set (h2 := set_reg a0 (load64 m (tf + tf_off a0)) h1).
  assert (E2 : execs [ld a0 (tf_off a0) a0] h1 m = Some (h2, m)).
  { cbn [execs exec1]. rewrite Ha0. rewrite (Hm0 h1 C1 P1 m (tf_off a0)) by done. done. }
  assert (Hx : exec_prog userret h m = Some (do_sret h2, m, csrs h2 sepc)).
  { unfold exec_prog. rewrite userret_parts, execs_app.
    change (execs [sfence_vma; csrw satp a0; sfence_vma; li a0 TRAPFRAME] h m) with (Some (ha, m)). cbv iota beta. rewrite execs_app, E1, E2. done. }
  assert (Hs : csrs h2 sstatus = csrs h sstatus /\ csrs h2 sepc = csrs h sepc /\ csrs h2 satp = MAKE_SATP upt).
  { unfold h2, set_reg. cbn [csrs]. rewrite C1. done. }
  destruct Hs as (Hs1 & Hs2 & Hs3). exists (do_sret h2). rewrite <-Hs2. split; [exact Hx|]. split; [|split].
  - intros r. change (gpr (do_sret h2) r) with (gpr h2 r). unfold h2, set_reg. cbn [gpr]. case_decide as E; [by subst|]. apply L1. by apply A4.
  - unfold do_sret. rewrite Hs1, Hspp. done.
  - split; [exact Hs3|]. intros c' H1 H2. unfold do_sret, h2, set_csr, set_reg, set_priv. cbn [csrs]. rewrite decide_False, C1 by done.
    unfold ha, set_csr, set_reg. cbn [csrs]. by rewrite decide_False.
Qed.

(** What [proc_pagetable] does for the trap frame. *)
Lemma map_trapframe root tf s L :
  vm_inv s root L -> has_flag (leaf (mem s) root TRAPFRAME) PTE_V = false -> (2 <= length L)%nat ->
  tf mod PGSIZE = 0 -> 0 <= tf < 2 ^ 55 -> ~ is_table (mem s) root tf -> tf ∉ L ->
  exists s', mappages root TRAPFRAME PGSIZE tf (Z.lor PTE_R PTE_W) s = Done 0 s' /\ has_trapframe (mem s') root tf.
Proof.
  intros Hi Hf HL Hal Hr Ht HnL.
  destruct (mappages_page root TRAPFRAME tf (Z.lor PTE_R PTE_W) s L) as (r & s' & L' & E & Hev & Hl & [[-> Hm]|(_ & Hlt & _)]); [done|done|done|done|done|done| |lia].
  exists s'. split; [done|].
  assert (Hleaf : leaf (mem s') root TRAPFRAME = map_pte tf (Z.lor PTE_R PTE_W)).
  { rewrite (Hm TRAPFRAME) by done. rewrite Z.sub_diag. cbn [decide]. rewrite decide_True by lia. by rewrite Z.mul_0_l, Z.add_0_r. }
  split.
  - apply (vm_wf _ _ _ (ve_inv _ _ _ _ _ Hev)).
  - rewrite Hleaf. apply map_pte_V.
  - rewrite Hleaf. apply map_pte_pa; [lia|done|done].
  - intros t Htt ->. destruct (ve_tables _ _ _ _ _ Hev _ Htt); done.
Qed.
End HartProps.

(** A page table that maps page 3 of the demo memory as the trap frame. *)
Lemma demo_trapframe :
  exists s, mappages root1 TRAPFRAME PGSIZE (dpage 3) (Z.lor PTE_R PTE_W) (demo 10) = Done 0 s /\ has_trapframe (mem s) root1 (dpage 3).
Proof.
  apply (map_trapframe root1 (dpage 3) (demo 10) (chain_pages 8 10)).
  - apply demo_inv_1. lia.
  - change (mem (demo 10)) with (mem (km (demo_r 10))). rewrite demo_leaf_1 by done. reflexivity.
  - rewrite length_chain_pages. lia.
  - reflexivity.
  - split; [discriminate|reflexivity].
  - intros H1. apply (dp_table _ _ (demo_process_1 10)) in H1. unfold dpage, PGSIZE in H1. lia.
  - intros H1. apply elem_chain_pages in H1 as (j & Hj & E1). apply dpage_inj in E1. lia.
Qed.

(** A trap from user space and the return to it lose nothing: [uservec] stores every user
    register in its field of the trap frame, changes no other memory, and enters [usertrap]
    on the kernel's stack, page table and hart id; and whatever the kernel does after it, when
    [userret] runs for the same page table each register whose field is unchanged comes back
    with the value it had, in user mode, at the address in [sepc]. *)
Theorem trampoline_roundtrip `{KernelImage} h m upt tf :
  has_trapframe m upt tf -> csrs h satp = MAKE_SATP upt -> priv h = SMode -> regs64 h ->
  exists h1 m1 pc, exec_prog uservec h m = Some (h1, m1, pc) /\ in_kernel h m tf h1 m1 pc /\
    forall h2 m2, has_trapframe m2 upt tf -> gpr h2 a0 = MAKE_SATP upt -> priv h2 = SMode -> Z.land (csrs h2 sstatus) SSTATUS_SPP = 0 ->
      exists h3, exec_prog userret h2 m2 = Some (h3, m2, csrs h2 sepc) /\ priv h3 = UMode /\ csrs h3 satp = MAKE_SATP upt /\
        forall r, load64 m2 (tf + tf_off r) = load64 m1 (tf + tf_off r) -> gpr h3 r = gpr h r.
Proof.
  intros Ht Es Ep Hr. destruct (uservec_ok h m upt tf Ht Es Ep Hr) as (h1 & m1 & pc & E & Hk). exists h1, m1, pc. split; [done|]. split; [done|].
  intros h2 m2 Ht2 Ea Ep2 Hspp. destruct (userret_ok h2 m2 upt tf Ht2 Ea Ep2 Hspp) as (h3 & E3 & Hg & Hp & Hsatp & _).
  exists h3. split; [done|]. split; [done|]. split; [done|]. intros r Hu. rewrite Hg, Hu. apply (ik_saved _ _ _ _ _ _ Hk).
Qed.

Lemma trampoline_roundtrip_witness :
  exists s, mappages root1 TRAPFRAME PGSIZE (dpage 3) (Z.lor PTE_R PTE_W) (demo 10) = Done 0 s /\
    let h := Hart (fun _ => 7) (fun c => if decide (c = satp) then MAKE_SATP root1 else 0) SMode in
    exists h1 m1 pc, exec_prog uservec h (mem s) = Some (h1, m1, pc) /\ load64 m1 (dpage 3 + tf_off a0) = 7.
Proof.
  destruct demo_trapframe as (s & E & Ht). exists s. split; [exact E|].
  destruct (trampoline_roundtrip (Hart (fun _ => 7) (fun c => if decide (c = satp) then MAKE_SATP root1 else 0) SMode) (mem s) root1 (dpage 3)) as (h1 & m1 & pc & E1 & Hk & _).
  - exact Ht.
  - reflexivity.
  - reflexivity.
  - intros r. cbn. lia.
  - exists h1, m1, pc. split; [exact E1|]. apply (ik_saved _ _ _ _ _ _ Hk a0).
Defined.

(** ** Context switches and traps from the kernel *)

Section Switch.
Context `{KernelImage}.

(** ** swtch *)

(** The fields of [struct context] of [kernel/proc.h]. *)
Definition ctx_slots : list (reg * Z) :=
  [(ra, 0); (sp, 8); (s0, 16); (s1, 24); (s2, 32); (s3, 40); (s4, 48); (s5, 56); (s6, 64); (s7, 72); (s8, 80); (s9, 88); (s10, 96); (s11, 104)].
Definition ctx_size : Z := 112.

Lemma swtch_parts : fst swtch = saves ctx_slots a0 ++ loads ctx_slots a1.
Proof. reflexivity. Qed.

Lemma ctx_slots_ok : area_ok ctx_slots ctx_size = true /\ NoDup (snd <$> ctx_slots) /\ NoDup (fst <$> ctx_slots) /\
  (a0 ∉ (fst <$> ctx_slots)) /\ (a1 ∉ (fst <$> ctx_slots)) /\ (ra, 0) ∈ ctx_slots.
Proof. repeat split; first [reflexivity | apply (bool_decide_eq_true_1 _); reflexivity]. Qed.

(** The context at virtual address [va] is the memory at [pb], however the memory in the
    [n] bytes at [q] changes. *)
Definition ctx_at (h : hart) (m : memory) (va pb q : Z) : Prop :=
  forall m', (forall b, ~ in_range q ctx_size b -> mget m' b = mget m b) -> maps h m' va ctx_size pb.

Lemma swtch_ok h m po pn :
  regs64 h -> maps h m (gpr h a0) ctx_size po -> ctx_at h m (gpr h a1) pn po -> (pn + ctx_size <= po \/ po + ctx_size <= pn) ->
  exists h' m', exec_prog swtch h m = Some (h', m', load64 m pn) /\
    (forall r o, (r, o) ∈ ctx_slots -> gpr h' r = load64 m (pn + o) /\ load64 m' (po + o) = gpr h r) /\
    (forall r, r ∉ (fst <$> ctx_slots) -> gpr h' r = gpr h r) /\
    (forall b, ~ in_range po ctx_size b -> mget m' b = mget m b) /\ csrs h' = csrs h /\ priv h' = priv h.
Proof.
  intros Hr Ho Hn Hd. destruct ctx_slots_ok as (A1 & A2 & A3 & A4 & A5 & A6).
  destruct (execs_saves ctx_slots a0 h m ctx_size po Ho A1 A2 Hr) as (m1 & E1 & L1 & F1).
  assert (Hf : forall b, ~ in_range po ctx_size b -> mget m1 b = mget m b).
  { intros b Hb. apply F1. intros r o Hin Hb2. destruct (area_ok_in _ _ r o A1 Hin) as (? & ? & _). unfold in_range in *. lia. }
  destruct (execs_loads ctx_slots a1 h m1 ctx_size pn (Hn m1 Hf) A1 A3) as (h1 & E2 & C1 & P1 & L2 & F2).
  { intros o Hin. exfalso. apply A5. apply list_elem_of_fmap. by exists (a1, o). }
  assert (Hnew : forall r o, (r, o) ∈ ctx_slots -> load64 m1 (pn + o) = load64 m (pn + o)).
  { intros r o Hin. destruct (area_ok_in _ _ r o A1 Hin) as (? & ? & _). apply load64_ext. intros b Hb. apply Hf. unfold in_range in *. lia. }
  exists h1, m1. split.
  - unfold exec_prog. rewrite swtch_parts, execs_app, E1, E2. cbn [snd swtch exec_jump]. rewrite (L2 ra 0 A6), (Hnew ra 0 A6), Z.add_0_r. done.
  - split; [intros r o Hin; split; [rewrite (L2 r o Hin); by apply (Hnew r)|by apply L1]|]. done.
Qed.

(** ** kernelvec *)

Definition kv_slots : list (reg * Z) :=
  [(ra, 0); (sp, 8); (gp, 16); (tp, 24); (t0, 32); (t1, 40); (t2, 48); (s0, 56); (s1, 64); (a0, 72); (a1, 80); (a2, 88); (a3, 96);
   (a4, 104); (a5, 112); (a6, 120); (a7, 128); (s2, 136); (s3, 144); (s4, 152); (s5, 160); (s6, 168); (s7, 176); (s8, 184); (s9, 192);
   (s10, 200); (s11, 208); (t3, 216); (t4, 224); (t5, 232); (t6, 240)].
Definition kv_restored : list (reg * Z) := List.filter (fun x => negb (bool_decide (fst x = tp))) kv_slots.

Lemma kernelvec_parts f : fst (kernelvec f) = [addi sp sp (-256)] ++ saves kv_slots sp ++ [call f] ++ loads kv_restored sp ++ [addi sp sp 256].
Proof. reflexivity. Qed.

Definition kv_off (r : reg) : Z := match r with sp => 8 | ra => 0 | gp => 16 | tp => 24 | t0 => 32 | t1 => 40 | t2 => 48 | s0 => 56 | s1 => 64
  | a0 => 72 | a1 => 80 | a2 => 88 | a3 => 96 | a4 => 104 | a5 => 112 | a6 => 120 | a7 => 128 | s2 => 136 | s3 => 144 | s4 => 152 | s5 => 160
  | s6 => 168 | s7 => 176 | s8 => 184 | s9 => 192 | s10 => 200 | s11 => 208 | t3 => 216 | t4 => 224 | t5 => 232 | t6 => 240 end.

Lemma kv_slots_ok : area_ok kv_slots 256 = true /\ NoDup (snd <$> kv_slots) /\ area_ok kv_restored 256 = true /\ NoDup (fst <$> kv_restored).
Proof.
  split; [reflexivity|]. split; [apply (bool_decide_eq_true_1 _); reflexivity|]. split; [reflexivity|]. apply (bool_decide_eq_true_1 _). reflexivity.
Qed.

Lemma kv_in r : (r, kv_off r) ∈ kv_slots /\ (r <> tp -> (r, kv_off r) ∈ kv_restored).
Proof. split; [|intros Hr]; apply (bool_decide_eq_true_1 _); by destruct r. Qed.

Lemma kv_restored_off r o : (r, o) ∈ kv_restored -> o = kv_off r.
Proof.
  intros Hin. assert (H1 : Forall (fun x => snd x = kv_off (fst x)) kv_restored) by (apply (bool_decide_eq_true_1 _); reflexivity).
  rewrite list.Forall_forall in H1. by apply (H1 (r, o)).
Qed.

Lemma kv_tp : tp ∉ (fst <$> kv_restored).
Proof. apply (bool_decide_eq_true_1 _). reflexivity. Qed.

(** What [kernelvec] relies on of the C function it calls, by the calling convention: the
    stack pointer is restored and the caller's frame, the 256 bytes at [pb], left alone; the
    frame stays mapped. *)
Definition c_function (h : hart) (m : memory) (pb : Z) (f : hart -> memory -> option (hart * memory)) : Prop :=
  forall h1 m1, gpr h1 = gpr (set_reg sp (u64 (gpr h sp - 256)) h) -> csrs h1 = csrs h -> priv h1 = priv h ->
    (forall b, ~ in_range pb 256 b -> mget m1 b = mget m b) ->
    exists h2 m2, f h1 m1 = Some (h2, m2) /\ gpr h2 sp = gpr h1 sp /\ (forall b, in_range pb 256 b -> mget m2 b = mget m1 b) /\ maps h2 m2 (gpr h2 sp) 256 pb.

(** An interrupt in the kernel is invisible to the code it interrupts: when [kerneltrap]
    keeps to the calling convention, [kernelvec] returns to the interrupted address with
    every register as it was, [tp] excepted, which holds the hart the code now runs on. *)
Theorem kernelvec_transparent h m pb f :
  regs64 h -> maps (set_reg sp (u64 (gpr h sp - 256)) h) m (u64 (gpr h sp - 256)) 256 pb -> c_function h m pb f ->
  exists h1 m1 h2 m2 h', f h1 m1 = Some (h2, m2) /\ gpr h1 = gpr (set_reg sp (u64 (gpr h sp - 256)) h) /\ csrs h1 = csrs h /\
    (forall b, ~ in_range pb 256 b -> mget m1 b = mget m b) /\
    exec_prog (kernelvec f) h m = Some (do_sret h', m2, csrs h2 sepc) /\ csrs h' = csrs h2 /\
    (forall r, r <> tp -> gpr h' r = gpr h r) /\ gpr h' tp = gpr h2 tp.
Proof.
  intros Hr Hm Hf. destruct kv_slots_ok as (A1 & A2 & A3 & A4). set (base := u64 (gpr h sp - 256)) in *. set (h1 := set_reg sp base h) in *.
  assert (Hb : gpr h1 sp = base) by reflexivity. assert (Hb64 : 0 <= base < 2 ^ 64) by apply u64_range.
  assert (Hr1 : regs64 h1) by (intros r; unfold h1, set_reg; cbn [gpr]; case_decide; [done|apply Hr]).
  destruct (execs_saves kv_slots sp h1 m 256 pb) as (m1 & E1 & L1 & F1); [by rewrite Hb|done|done|done|].
  assert (Hf1 : forall b, ~ in_range pb 256 b -> mget m1 b = mget m b).
  { intros b Hb'. apply F1. intros r o Hin Hb2. destruct (area_ok_in _ _ r o A1 Hin) as (? & ? & _). unfold in_range in *. lia. }
  destruct (Hf h1 m1 eq_refl eq_refl eq_refl Hf1) as (h2 & m2 & E2 & Esp & Hfr & Hm2).
  assert (Hw : forall r, load64 m2 (pb + kv_off r) = gpr h1 r).
  { intros r. destruct (kv_in r) as [Hin _]. rewrite <-(L1 r _ Hin). apply load64_ext. intros b Hb'. apply Hfr.
    destruct (area_ok_in _ _ r _ A1 Hin) as (? & ? & _). unfold in_range in *. lia. }
  destruct (execs_loads kv_restored sp h2 m2 256 pb Hm2 A3 A4) as (h3 & E3 & C3 & P3 & L3 & F3).
  { intros o Hin. rewrite (kv_restored_off _ _ Hin), Hw. congruence. }
  set (h' := set_reg sp (u64 (gpr h3 sp + 256)) h3).
  exists h1, m1, h2, m2, h'. split; [done|]. split; [done|]. split; [done|]. split; [done|]. split; [|split; [done|split]].
  - unfold exec_prog. rewrite kernelvec_parts, execs_app. change (execs [addi sp sp (-256)] h m) with (Some (h1, m)). cbv iota beta.
    rewrite execs_app, E1, execs_app. cbn [execs exec1]. rewrite E2, execs_app, E3. cbn [execs exec1 snd kernelvec exec_jump].
    fold h'. change (csrs h' sepc) with (csrs h3 sepc). by rewrite C3.
  - intros r Hne. unfold h', set_reg. cbn [gpr]. destruct (kv_in r) as [_ Hin]. specialize (Hin Hne). case_decide as E.
    + subst r. rewrite (L3 sp _ Hin), Hw, Hb. unfold base. pose proof (Hr sp). unfold u64. rewrite Zplus_mod_idemp_l. replace (gpr h sp - 256 + 256) with (gpr h sp) by lia. by rewrite Z.mod_small.
    + rewrite (L3 r _ Hin), Hw. unfold h1, set_reg. cbn [gpr]. by rewrite decide_False.
  - unfold h', set_reg. cbn [gpr]. rewrite decide_False by done. apply F3, kv_tp.
Qed.

(** ** timervec *)

(** The scratch area at [sc] that [timerinit] sets up: the address [cmp] of the compare
    register of this hart, apart from the area, and the interval. *)
Record timer_scratch (h : hart) (m : memory) (sc cmp interval : Z) : Prop := {
  ts_area : 0 <= sc /\ sc + 40 <= 2 ^ 64 /\ sc mod 8 = 0;
  ts_reg : csrs h mscratch = sc;
  ts_cmp : load64 m (sc + 24) = cmp;
  ts_interval : load64 m (sc + 32) = interval;
  ts_cmp_ok : 0 <= cmp /\ cmp + 8 <= 2 ^ 64 /\ cmp mod 8 = 0;
  ts_apart : cmp + 8 <= sc \/ sc + 40 <= cmp;
}.

Lemma phys_machine h m va : priv h = MMode -> 0 <= va < 2 ^ 64 -> va mod 8 = 0 -> phys h m (u64 va) = Some va.
Proof. intros Hp Hv Hm. rewrite u64_small by done. unfold phys. by rewrite Hm, Hp. Qed.

Lemma execs_cons i l h m h1 m1 r : exec1 i h m = Some (h1, m1) -> execs l h1 m1 = r -> execs (i :: l) h m = r.
Proof. intros E <-. cbn [execs]. by rewrite E. Qed.

(** A load and a store in machine mode. *)
Lemma exec_ld h m rd off base a : priv h = MMode -> gpr h base + off = a -> 0 <= a < 2 ^ 64 -> a mod 8 = 0 ->
  exec1 (ld rd off base) h m = Some (set_reg rd (load64 m a) h, m).
Proof. intros Hp E Ha Hm. cbn [exec1]. by rewrite E, phys_machine. Qed.

Lemma exec_sd h m rs off base a : priv h = MMode -> gpr h base + off = a -> 0 <= a < 2 ^ 64 -> a mod 8 = 0 ->
  exec1 (sd rs off base) h m = Some (h, store64 m a (gpr h rs)).
Proof. intros Hp E Ha Hm. cbn [exec1]. by rewrite E, phys_machine. Qed.

Definition timer_slots : list (reg * Z) := [(a1, 0); (a2, 8); (a3, 16)].

Lemma timervec_ok h m sc cmp interval :
  priv h = MMode -> regs64 h -> timer_scratch h m sc cmp interval ->
  exists h' m', exec_prog timervec h m = Some (do_mret h', m', csrs h mepc) /\
    (forall r, gpr h' r = gpr h r) /\ csrs h' sip = 2 /\ (forall c, c <> sip -> csrs h' c = csrs h c) /\
    load64 m' cmp = u64 (load64 m cmp + interval) /\
    (forall b, ~ in_range sc 24 b -> ~ in_range cmp 8 b -> mget m' b = mget m b).
Proof.
  intros Hp Hr [Ta Treg Tc Ti Tco Tap].
  set (ha := set_csr mscratch (gpr h a0) (set_reg a0 sc h)).
  assert (Ha : gpr ha a0 = sc) by reflexivity.
  assert (Hra : regs64 ha) by (intros r; unfold ha, set_reg, set_csr; cbn [gpr]; case_decide; [lia|apply Hr]).
  destruct (execs_saves timer_slots a0 ha m 40 sc) as (m1 & E1 & L1 & F1); [|done|apply (bool_decide_eq_true_1 _); reflexivity|done|].
  { intros m' o _ H1 H2 H3. rewrite Ha. apply phys_machine; [done|lia|lia]. }
  assert (Hf1 : forall b, ~ in_range sc 24 b -> mget m1 b = mget m b).
  { intros b Hb. apply F1. intros r o Hin Hb2. apply (area_ok_in timer_slots 24) in Hin; [|done]. unfold in_range in *. lia. }
  assert (Hk : forall a, (a + 8 <= sc \/ sc + 24 <= a) -> load64 m1 a = load64 m a).
  { intros a Hapart. apply load64_ext. intros b Hb. apply Hf1. unfold in_range in *. lia. }
  set (m2 := store64 m1 cmp (u64 (load64 m cmp + interval))).
  set (hb := set_csr sip 2 (set_reg a1 2 (set_reg a3 (u64 (load64 m cmp + interval)) (set_reg a3 (load64 m cmp) (set_reg a2 interval (set_reg a1 cmp ha)))))).
  assert (E2 : execs [ld a1 24 a0; ld a2 32 a0; ld a3 0 a1; add a3 a3 a2; sd a3 0 a1; li a1 2; csrw sip a1] ha m1 = Some (hb, m2)).
  { eapply execs_cons; [apply exec_ld with (a := sc + 24); [done|done|lia|lia]|]. rewrite (Hk (sc + 24)), Tc by lia.
    eapply execs_cons; [apply exec_ld with (a := sc + 32); [done|done|lia|lia]|]. rewrite (Hk (sc + 32)), Ti by lia.
    eapply execs_cons; [apply exec_ld with (a := cmp); [done|apply Z.add_0_r|lia|lia]|]. rewrite (Hk cmp) by lia.
    eapply execs_cons; [reflexivity|]. eapply execs_cons; [apply exec_sd with (a := cmp); [done|apply Z.add_0_r|lia|lia]|]. reflexivity. }
  assert (Hf2 : forall a, (a + 8 <= cmp \/ cmp + 8 <= a) -> load64 m2 a = load64 m1 a).
  { intros a Hapart. apply load64_store64_ne. lia. }
  destruct (execs_loads [(a3, 16); (a2, 8); (a1, 0)] a0 hb m2 40 sc) as (hc & E3 & C3 & P3 & L3 & F3); [|done|apply (bool_decide_eq_true_1 _); reflexivity| |].
  { intros m' o _ H1 H2 H3. change (gpr hb a0) with sc. apply phys_machine; [done|lia|lia]. }
  { intros o Hin. repeat (apply elem_of_cons in Hin as [Hin|Hin]; [discriminate|]). by apply elem_of_nil in Hin. }
  set (hd := set_csr mscratch (gpr hc a0) (set_reg a0 (csrs hc mscratch) hc)).
  exists hd, m2. split; [|split; [|split; [|split; [|split]]]].
  - unfold exec_prog. change (fst timervec) with ([csrrw a0 mscratch a0] ++ saves timer_slots a0 ++
      [ld a1 24 a0; ld a2 32 a0; ld a3 0 a1; add a3 a3 a2; sd a3 0 a1; li a1 2; csrw sip a1] ++ loads [(a3, 16); (a2, 8); (a1, 0)] a0 ++ [csrrw a0 mscratch a0]).
    rewrite execs_app. cbn [execs exec1]. rewrite Treg. fold ha. rewrite execs_app, E1, execs_app, E2, execs_app, E3. cbn [execs exec1 snd timervec exec_jump].
    fold hd. change (csrs hd mepc) with (csrs hc mepc). by rewrite C3.
  - intros r. unfold hd, set_reg, set_csr. cbn [gpr]. case_decide as E; [subst r; by rewrite C3|].
    assert (Hs : forall r' o, (r', o) ∈ timer_slots -> r' <> a0 -> load64 m2 (sc + o) = gpr h r').
    { intros r' o Hin Hne. destruct (area_ok_in timer_slots 24 r' o eq_refl Hin) as (? & ? & _). rewrite Hf2, (L1 r' o Hin) by lia.
      unfold ha, set_reg, set_csr. cbn [gpr]. by rewrite decide_False. }
    destruct (decide (r = a1)) as [->|N1]; [rewrite (L3 a1 0) by (apply (bool_decide_eq_true_1 _); reflexivity); apply Hs; [apply (bool_decide_eq_true_1 _); reflexivity|done]|].
    destruct (decide (r = a2)) as [->|N2]; [rewrite (L3 a2 8) by (apply (bool_decide_eq_true_1 _); reflexivity); apply Hs; [apply (bool_decide_eq_true_1 _); reflexivity|done]|].
    destruct (decide (r = a3)) as [->|N3]; [rewrite (L3 a3 16) by (apply (bool_decide_eq_true_1 _); reflexivity); apply Hs; [apply (bool_decide_eq_true_1 _); reflexivity|done]|].
    rewrite F3 by (cbn; rewrite !not_elem_of_cons; split; [done|split; [done|split; [done|apply not_elem_of_nil]]]). unfold hb, ha, set_reg, set_csr. cbn [gpr].
    by rewrite !decide_False.
  - unfold hd, set_reg, set_csr. cbn [csrs]. by rewrite C3.
  - intros c Hc. unfold hd, set_reg, set_csr. cbn [csrs]. case_decide as E.
    + subst c. rewrite F3 by (apply (bool_decide_eq_true_1 _); reflexivity). rewrite Treg. done.
    + rewrite C3. unfold hb, ha, set_reg, set_csr. cbn [csrs]. by rewrite !decide_False.
  - apply load64_store64, u64_range.
  - intros b H1 H2. unfold m2, store64. rewrite (mget_store_le_out _ _ 8) by (unfold in_range in H2; lia). by apply Hf1.
Qed.
End Switch.

(** A process that calls [swtch] goes on as if the call had returned: [swtch] leaves the
    callee-saved registers, the stack pointer and the return address in the old context and
    loads those of the new one, changing nothing else; and when a later [swtch] of any
    hart switches to the saved context, with those words unchanged, it returns where the
    first call would have, with the callee-saved registers and the stack as they were. *)
Theorem swtch_resumes `{KernelImage} h m po pn :
  regs64 h -> maps h m (gpr h a0) ctx_size po -> ctx_at h m (gpr h a1) pn po -> (pn + ctx_size <= po \/ po + ctx_size <= pn) ->
  exists h' m', exec_prog swtch h m = Some (h', m', load64 m pn) /\
    (forall r o, (r, o) ∈ ctx_slots -> gpr h' r = load64 m (pn + o)) /\ (forall r, r ∉ (fst <$> ctx_slots) -> gpr h' r = gpr h r) /\
    (forall b, ~ in_range po ctx_size b -> mget m' b = mget m b) /\ csrs h' = csrs h /\ priv h' = priv h /\
    forall h2 m2 q, regs64 h2 -> maps h2 m2 (gpr h2 a0) ctx_size q -> ctx_at h2 m2 (gpr h2 a1) po q -> (po + ctx_size <= q \/ q + ctx_size <= po) ->
      (forall b, in_range po ctx_size b -> mget m2 b = mget m' b) ->
      exists h3 m3, exec_prog swtch h2 m2 = Some (h3, m3, gpr h ra) /\ (forall r o, (r, o) ∈ ctx_slots -> gpr h3 r = gpr h r).
Proof.
  intros Hr Ho Hn Hd. destruct (swtch_ok h m po pn Hr Ho Hn Hd) as (h' & m' & E & Hc & Hg & Hf & Ec & Ep).
  exists h', m'. split; [done|]. split; [intros r o Hin; by apply Hc|]. do 4 (split; [done|]).
  intros h2 m2 q Hr2 Ho2 Hn2 Hd2 Hk. destruct (swtch_ok h2 m2 q po Hr2 Ho2 Hn2 Hd2) as (h3 & m3 & E3 & Hc3 & _).
  assert (Hw : forall r o, (r, o) ∈ ctx_slots -> load64 m2 (po + o) = gpr h r).
  { intros r o Hin. rewrite <-(proj2 (Hc r o Hin)). destruct (area_ok_in ctx_slots ctx_size r o eq_refl Hin) as (? & ? & _).
    apply load64_ext. intros b Hb. apply Hk. unfold in_range in *. lia. }
  exists h3, m3. split; [|intros r o Hin; rewrite (proj1 (Hc3 r o Hin)); by apply Hw].
  rewrite E3. do 2 f_equal. rewrite <-(Z.add_0_r po). apply Hw. left.
Qed.


(** ** Witnesses, with paging off *)

Lemma maps_bare `{KernelImage} h m va len : priv h = SMode -> csrs h satp = 0 -> 0 <= va -> va + len <= 2 ^ 64 -> va mod 8 = 0 -> maps h m va len va.
Proof. intros Hp Hs H1 H2 H3 m' o _ H4 H5 H6. rewrite u64_small by lia. unfold phys. rewrite Hp, Hs. replace ((va + o) mod 8) with 0 by lia. done. Qed.

Definition bare_hart (a : Z) (b : Z) (stack : Z) : hart :=
  Hart (fun r => if decide (r = a0) then a else if decide (r = a1) then b else if decide (r = sp) then stack else 5) (fun _ => 0) SMode.

Lemma bare_regs a b stack : 0 <= a < 2 ^ 64 -> 0 <= b < 2 ^ 64 -> 0 <= stack < 2 ^ 64 -> regs64 (bare_hart a b stack).
Proof. intros Ha Hb Hs r. unfold bare_hart. cbn [gpr]. repeat case_decide; lia. Qed.

Lemma swtch_resumes_witness :
  exists h' m', exec_prog swtch (bare_hart 4096 8192 512) ∅ = Some (h', m', 0) /\ gpr h' s3 = 0 /\
    exists h3 m3, exec_prog swtch (bare_hart 8192 4096 1024) m' = Some (h3, m3, 5) /\ gpr h3 sp = 512.
Proof.
  destruct (swtch_resumes (bare_hart 4096 8192 512) ∅ 4096 8192) as (h' & m' & E & Hc & _ & Hf & _ & _ & Hback).
  - apply bare_regs; lia.
  - apply maps_bare; (reflexivity || discriminate).
  - intros m _. apply maps_bare; (reflexivity || discriminate).
  - right. unfold ctx_size. lia.
  - exists h', m'. split; [exact E|]. split; [apply (Hc s3 40), (bool_decide_eq_true_1 _); reflexivity|].
    destruct (Hback (bare_hart 8192 4096 1024) m' 8192) as (h3 & m3 & E3 & Hg).
    + apply bare_regs; lia.
    + apply maps_bare; (reflexivity || discriminate).
    + intros m _. apply maps_bare; (reflexivity || discriminate).
    + left. unfold ctx_size. lia.
    + intros b _. reflexivity.
    + exists h3, m3. split; [exact E3|]. apply (Hg sp 8), (bool_decide_eq_true_1 _). reflexivity.
Defined.

(** A trap handler that uses registers and counts in memory. *)
Definition count_trap (h : hart) (m : memory) : option (hart * memory) := Some (set_reg t0 1 h, store64 m 64 (load64 m 64 + 1)).

Lemma kernelvec_transparent_witness :
  exists h' m', exec_prog (kernelvec count_trap) (bare_hart 1 2 8192) ∅ = Some (do_sret h', m', 0) /\ gpr h' t0 = 5 /\ gpr h' sp = 8192.
Proof.
  destruct (kernelvec_transparent (bare_hart 1 2 8192) ∅ 7936 count_trap) as (h1 & m1 & h2 & m2 & h' & E1 & _ & Ec & _ & E & _ & Hg & _).
  - apply bare_regs; lia.
  - apply maps_bare; (reflexivity || discriminate).
  - intros h1 m1 E1 E2 E3 _. eexists _, _. split; [reflexivity|]. split; [reflexivity|]. split.
    + intros b Hb. apply (mget_store_le_out _ _ 8). unfold in_range in Hb. lia.
    + change (gpr (set_reg t0 1 h1) sp) with (gpr h1 sp). rewrite E1. apply maps_bare; [exact E3|exact (f_equal (fun f => f satp) E2)|discriminate|discriminate|reflexivity].
  - exists h', m2. injection E1 as <- <-. split; [rewrite E; do 2 f_equal; exact (f_equal (fun f => f sepc) Ec)|]. split; rewrite Hg; (reflexivity || discriminate).
Defined.
