(* ===== verification/Syscall.v ===== *)
(** * System calls, [kernel/syscall.c], [kernel/sysproc.c] and [sys_exec] of [kernel/sysfile.c]

    The arguments come from the trap frame of the running process and from its memory; the
    result goes back to the trap frame.  A call that has to wait is cut where it sleeps.

    The file calls of Sysfile ask their caller which user addresses can be read and written;
    here the answers are those of [copyin] and [copyout] on the page table of the process, and
    the bytes a call hands out are then copied out.  Of a copy that fails on its second page
    the bytes of the first are left out. *)

From S2P Require Import Prelude Mem CString Riscv Kalloc Vm RingbufK Pipe Block Sleeplock Bio Log Fs FsPath File Sysfile Proc Exec.

Definition MAXPATH : Z := 128.
Definition TF_A7 : Z := 168.

(** The kernel, the table of rings and the clock. *)
Record tsys := TSys { base : ksys; rings : list ringbuf_t; ticks : Z }.
Definition set_base (x : ksys) (s : tsys) : tsys := TSys x (rings s) (ticks s).
Definition set_ticks (x : Z) (s : tsys) : tsys := TSys (base s) (rings s) x.

Abbreviation T := (M tsys).

Definition proc_op {A} (m : P A) : T A := lift base set_base m.
Definition page_op {A} (m : M kstate A) : T A := proc_op (pmem_op m).

(** The system call for rings works on the memory and the table. *)
Definition get_rings (s : tsys) : rstate := RState (k_mem (kern (base s))) (rings s).
Definition put_rings (r : rstate) (s : tsys) : tsys :=
  TSys (set_kern (set_kmem (km r) (kern (base s))) (base s)) (ringbufs r) (ticks s).

(** How a handler ends: with a value, asleep on a channel, or, for [exit], not at all. *)
Inductive sysres := SysRet (v : Z) | SysSleep (ch : channel) | SysGone.

(** The channel [&ticks]. *)
Definition ticks_chan : channel := ChOther 0.

Section Syscall.
Context `{KernelImage} `{Devices}.
(** The address of [forkret]. *)
Variable forkret_addr : Z.

(** ** Arguments *)

Definition myproc : T proc := proc_op (p ← gets me; gets (proc_at p)).

(** [None] is -1. *)
Definition fetchaddr (addr : Z) : T (option Z) :=
  p ← myproc;
  if (p_sz p <=? addr) || (p_sz p <? u64 (addr + 8)) then mret None
  else
    r ← page_op (copyin (p_pagetable p) addr 8);
    mret (if negb (fst r =? 0) then None else Some (field (snd r) 0 8)).

(** The bytes that [copyinstr] stored in [buf], and the length of the string, or [None]. *)
Definition fetchstr (addr max : Z) : T (list Z * option Z) :=
  p ← myproc;
  r ← page_op (copyinstr (p_pagetable p) addr max);
  mret (snd r, if fst r <? 0 then None else strlen (arr (snd r)) (length (snd r))).

Definition argraw (n : Z) : T Z :=
  p ← myproc;
  if (0 <=? n) && (n <=? 5) then page_op (read64 (p_trapframe p + TF_A0 + 8 * n)) else panic "argraw".

Definition argint (n : Z) : T Z := v ← argraw n; mret (s32 v).
Definition arguint64 (n : Z) : T Z := argraw n.
Definition argaddr (n : Z) : T Z := argraw n.
Definition argstr (n max : Z) : T (list Z * option Z) := addr ← argaddr n; fetchstr addr max.

(** A path argument, as the file calls take it: the characters before the NUL. *)
Definition argpath (n : Z) : T (option (list Z)) :=
  r ← argstr n MAXPATH;
  mret (match snd r with None => None | Some len => Some (take (Z.to_nat len) (fst r)) end).

(** ** Processes *)

Definition sys_exit : T sysres := n ← argint 0; proc_op (exit n);; mret SysGone.
Definition sys_getpid : T sysres := p ← myproc; mret (SysRet (p_pid p)).
Definition sys_fork : T sysres := r ← proc_op (fork forkret_addr); mret (SysRet r).

Definition sys_wait : T sysres :=
  p ← argaddr 0;
  r ← proc_op (wait p);
  match r with
  | Some r => mret (SysRet r)
  | None =>
      i ← proc_op (gets me);
      proc_op (sleep (ChProc i));;
      mret (SysSleep (ChProc i))
  end.

Definition sys_sbrk : T sysres :=
  n ← argint 0;
  p ← myproc;
  let addr := p_sz p in
  r ← proc_op (growproc n);
  mret (SysRet (if r <? 0 then -1 else addr)).

(** The loop of [sys_sleep], entered with the [ticks0] it started from: [ticks - ticks0] is
    unsigned, and so is the comparison. *)
Definition sleep_loop (n ticks0 : Z) : T sysres :=
  t ← gets ticks;
  if u32 (t - ticks0) <? u32 n then
    p ← myproc;
    if p_killed p then mret (SysRet (-1))
    else proc_op (sleep ticks_chan);; mret (SysSleep ticks_chan)
  else mret (SysRet 0).

Definition sys_sleep : T sysres := n ← argint 0; ticks0 ← gets ticks; sleep_loop n ticks0.
Definition sys_kill : T sysres := pid ← argint 0; r ← proc_op (kill pid); mret (SysRet r).
Definition sys_uptime : T sysres := t ← gets ticks; mret (SysRet t).

(** ** Rings; [junk] and [stack] are what uninitialised kernel memory holds *)

Definition sys_ringbuf_call (junk : ringbuf_t) (stack : reader) : T sysres :=
  p ← myproc;
  x ← argraw 0; open ← argraw 1; uaddr ← argraw 2;
  r ← lift get_rings put_rings (sys_ringbuf junk stack (p_pagetable p) x open uaddr);
  mret (SysRet r).

(** ** exec *)

(** The loop of [sys_exec] from argument [i] on, with the pages allocated so far and the
    strings in them: whether it ended at a null pointer. *)
Fixpoint exec_args (rem : nat) (uargv i : Z) (pages : list Z) (argv : list (list Z)) : T (bool * list Z * list (list Z)) :=
  match rem with
  | O => mret (false, pages, argv)
  | S rem =>
      a ← fetchaddr (u64 (uargv + 8 * i));
      match a with
      | None => mret (false, pages, argv)
      | Some uarg =>
          if uarg =? 0 then mret (true, pages, argv)
          else
            page ← page_op kalloc;
            if page =? 0 then mret (false, pages, argv)
            else
              r ← fetchstr uarg PGSIZE;
              page_op (modify (set_mem (fun m => write_bytes m page (fst r))));;
              match snd r with
              | None => mret (false, pages ++ [page], argv)
              | Some len => exec_args rem uargv (i + 1) (pages ++ [page]) (argv ++ [take (Z.to_nat len) (fst r)])
              end
      end
  end.

(** The loops that free [argv]. *)
Fixpoint free_args (pages : list Z) : T unit :=
  match pages with
  | [] => mret tt
  | page :: pages => page_op (kfree page);; free_args pages
  end.

Definition sys_exec (junk : list Z) : T sysres :=
  uargv ← argaddr 1;
  path ← argpath 0;
  match path with
  | None => mret (SysRet (-1))
  | Some path =>
      r ← exec_args MAXARG uargv 0 [] [];
      let '(ok, pages, argv) := r in
      if (ok : bool) then
        ret ← proc_op (exec path argv junk);
        free_args pages;;
        mret (SysRet ret)
      else free_args pages;; mret (SysRet (-1))
  end.

(** ** Files *)

(** What the process lets the kernel read and write at [p]. *)
Definition user_at (x : proc) (p : Z) (k : kstate) : user :=
  let out o bs := match copyout (p_pagetable x) (u64 (p + o)) bs k with Done r _ => r =? 0 | _ => false end in
  let inn o n := match copyin (p_pagetable x) (u64 (p + o)) n k with Done r _ => (snd r, fst r =? 0) | _ => ([], false) end in
  User (fun o n => out o (replicate (Z.to_nat n) 0)) inn (fun o => out o [0])
    (fun o => let r := inn o 1 in if snd r then head (fst r) else None) (fun _ => p_killed x).

Definition kmem_now : T kstate := gets (fun s => k_mem (kern (base s))).

Definition sys_read_call : T sysres :=
  fd ← argint 0; n ← argint 2; p ← argaddr 1;
  x ← myproc; k ← kmem_now;
  r ← proc_op (kern_op (sys_read fd (user_at x p k) n));
  page_op (copyout (p_pagetable x) p (snd r));;
  mret (SysRet (fst r)).

Definition sys_write_call : T sysres :=
  fd ← argint 0; n ← argint 2; p ← argaddr 1;
  x ← myproc; k ← kmem_now;
  r ← proc_op (kern_op (sys_write fd (user_at x p k) n));
  mret (SysRet r).

Definition sys_dup_call : T sysres := fd ← argint 0; r ← proc_op (kern_op (sys_dup fd)); mret (SysRet r).
Definition sys_close_call : T sysres := fd ← argint 0; r ← proc_op (kern_op (sys_close fd)); mret (SysRet r).

(** [struct stat]: the four bytes before the size are padding. *)
Definition stat_bytes (st : stat) (pad : list Z) : list Z :=
  le_bytes 4 (u32 (st_dev st)) ++ le_bytes 4 (st_ino st) ++ le_bytes 2 (u16 (st_type st)) ++ le_bytes 2 (u16 (st_nlink st)) ++ pad ++ le_bytes 8 (st_size st).

Definition sys_fstat_call (pad : list Z) : T sysres :=
  fd ← argint 0; st ← argaddr 1;
  x ← myproc; k ← kmem_now;
  let ok := u_out (user_at x st k) 0 24 in
  r ← proc_op (kern_op (sys_fstat fd ok));
  (match snd r with Some v => page_op (copyout (p_pagetable x) st (stat_bytes v pad));; mret tt | None => mret tt end);;
  mret (SysRet (fst r)).

Definition sys_pipe_call : T sysres :=
  fdarray ← argaddr 0;
  x ← myproc; k ← kmem_now;
  let ok o := u_out (user_at x fdarray k) o 4 in
  r ← proc_op (kern_op (sys_pipe (ok 0) (ok 4)));
  (match snd r with
   | Some (fd0, fd1) => page_op (copyout (p_pagetable x) fdarray (int_bytes fd0 ++ int_bytes fd1));; mret tt
   | None => mret tt
   end);;
  mret (SysRet (fst r)).

(** [junk] is what the name buffer holds. *)
Definition sys_open_call (junk : list Z) : T sysres :=
  omode ← argint 1; path ← argpath 0; r ← proc_op (kern_op (sys_open path omode junk)); mret (SysRet r).
Definition sys_link_call (junk : list Z) : T sysres :=
  old ← argpath 0; new ← argpath 1; r ← proc_op (kern_op (sys_link old new junk)); mret (SysRet r).
Definition sys_unlink_call (junk : list Z) : T sysres := path ← argpath 0; r ← proc_op (kern_op (sys_unlink path junk)); mret (SysRet r).
Definition sys_mkdir_call (junk : list Z) : T sysres := path ← argpath 0; r ← proc_op (kern_op (sys_mkdir path junk)); mret (SysRet r).
Definition sys_mknod_call (junk : list Z) : T sysres :=
  major ← argint 1; minor ← argint 2; path ← argpath 0; r ← proc_op (kern_op (sys_mknod path major minor junk)); mret (SysRet r).
Definition sys_chdir_call (junk : list Z) : T sysres := path ← argpath 0; r ← proc_op (kern_op (sys_chdir path junk)); mret (SysRet r).

(** ** The table and the dispatcher *)

(** What uninitialised kernel memory holds during a call. *)
Record garbage := Garbage { g_name : list Z; g_pad : list Z; g_ring : ringbuf_t; g_stack : reader }.

Definition syscalls (g : garbage) : list (option (T sysres)) :=
  [None; Some sys_fork; Some sys_exit; Some sys_wait; Some sys_pipe_call; Some sys_read_call; Some sys_kill; Some (sys_exec (g_name g));
   Some (sys_fstat_call (g_pad g)); Some (sys_chdir_call (g_name g)); Some sys_dup_call; Some sys_getpid; Some sys_sbrk; Some sys_sleep;
   Some sys_uptime; Some (sys_open_call (g_name g)); Some sys_write_call; Some (sys_mknod_call (g_name g)); Some (sys_unlink_call (g_name g));
   Some (sys_link_call (g_name g)); Some (sys_mkdir_call (g_name g)); Some sys_close_call; Some (sys_ringbuf_call (g_ring g) (g_stack g))].

(** [p->trapframe->a0 = v] *)
Definition set_a0 (v : Z) : T unit := p ← myproc; page_op (write64 (p_trapframe p + TF_A0) (u64 v)).

Definition syscall (g : garbage) : T sysres :=
  p ← myproc;
  a7 ← page_op (read64 (p_trapframe p + TF_A7));
  let num := s32 a7 in
  if (0 <? num) && (num <? 23) then
    match nth (Z.to_nat num) (syscalls g) None with
    | Some f =>
        r ← f;
        (match r with SysRet v => set_a0 v | _ => mret tt end);;
        mret r
    | None => set_a0 (-1);; mret (SysRet (-1))
    end
  else set_a0 (-1);; mret (SysRet (-1)).
End Syscall.
