(* ===== verification/Trap.v ===== *)
(** * Traps, [kernel/trap.c]

    A machine is a hart and the kernel it runs.  Where the C code gives up the processor or
    leaves for user space its result says so; the interrupt handlers of the drivers, which
    work on their own state, are results as well. *)

From S2P Require Import Hart Prelude Mem CString Riscv Kalloc Vm RingbufK Pipe Block Sleeplock Bio Log Fs File Proc Exec Syscall.

Record machine := Mach { m_hart : hart; m_sys : tsys }.

Abbreviation X := (M machine).

Definition sys_op {A} (m : M tsys A) : X A := lift m_sys (fun x s => Mach (m_hart s) x) m.
Definition xproc_op {A} (m : P A) : X A := sys_op (proc_op m).
#[export] Instance machine_hart : HasHart machine := {| get_hart := m_hart; put_hart h s := Mach h (m_sys s) |}.

Definition UART0_IRQ : Z := 10.
Definition VIRTIO0_IRQ : Z := 1.

(** The handlers of the drivers and the end of an interrupt at the PLIC. *)
Inductive event := UartIntr | DiskIntr | PlicComplete (irq : Z).

(** How a trap from user space ends: at [userret] with this [satp], asleep in a system call,
    having given up the processor, or with the process gone. *)
Inductive trap_end := ToUser (satp_value : Z) | Asleep (ch : channel) | Yielded | Gone.

(** What the hart does when a user program traps: it turns interrupts off and goes to
    [stvec], with the cause and the address of the instruction in its registers. *)
Definition take_trap (cause pc : Z) (h : hart) : hart :=
  let x := csrs h sstatus in
  let y := clear (if Z.land x SSTATUS_SIE =? 0 then clear x SSTATUS_SPIE else Z.lor x SSTATUS_SPIE) SSTATUS_SIE in
  set_priv SMode (set_csr sstatus (clear y SSTATUS_SPP) (set_csr scause cause (set_csr sepc pc h))).

Section Trap.
Context `{KernelImage} `{Devices}.
(** Addresses in the kernel image: [forkret], [kernelvec], [usertrap], and where [uservec]
    lies in the trampoline page. *)
Variables (forkret_addr kernelvec_addr usertrap_addr uservec_off : Z).

Definition trapinithart : X unit := w_stvec kernelvec_addr.

(** ** Interrupts *)

Definition clockintr : X unit :=
  sys_op (modify (fun s => set_ticks (u32 (ticks s + 1)) s);; proc_op (wakeup ticks_chan)).

(** [irq] is what the PLIC answers to the claim. *)
Definition devintr (irq : Z) : X (Z * list event) :=
  c ← r_scause;
  if negb (Z.land c 0x8000000000000000 =? 0) && (Z.land c 0xff =? 9) then
    let handler := if irq =? UART0_IRQ then [UartIntr] else if irq =? VIRTIO0_IRQ then [DiskIntr] else [] in
    mret (1, handler ++ (if negb (irq =? 0) then [PlicComplete irq] else []))
  else if c =? 0x8000000000000001 then
    id ← r_tp;
    (if s32 id =? 0 then clockintr else mret tt);;
    x ← r_sip;
    w_sip (clear x 2);;
    mret (2, [])
  else mret (0, []).

(** ** Traps from user space *)

Definition tf_write (off v : Z) : X unit := p ← sys_op myproc; sys_op (page_op (write64 (p_trapframe p + off) v)).
Definition tf_read (off : Z) : X Z := p ← sys_op myproc; sys_op (page_op (read64 (p_trapframe p + off))).

(** Up to the call of [userret], with its argument. *)
Definition usertrapret : X trap_end :=
  p ← sys_op myproc;
  intr_off_hart;;
  w_stvec (TRAMPOLINE + uservec_off);;
  v ← r_satp; tf_write TF_KERNEL_SATP v;;
  tf_write TF_KERNEL_SP (p_kstack p + PGSIZE);;
  tf_write TF_KERNEL_TRAP usertrap_addr;;
  id ← r_tp; tf_write TF_KERNEL_HARTID id;;
  x ← r_sstatus;
  w_sstatus (Z.lor (clear x SSTATUS_SPP) SSTATUS_SPIE);;
  epc ← tf_read TF_EPC;
  w_sepc epc;;
  mret (ToUser (MAKE_SATP (p_pagetable p))).

(** [if(killed(p)) exit(-1)], and what follows it. *)
Definition unless_killed (k : X trap_end) : X trap_end :=
  p ← sys_op myproc;
  if p_killed p then xproc_op (exit (-1));; mret Gone else k.

(** The part of [usertrap] after the system call or the interrupt. *)
Definition usertrap_end (which_dev : Z) : X trap_end :=
  unless_killed (if which_dev =? 2 then xproc_op yield;; mret Yielded else usertrapret).

Definition usertrap (g : garbage) (irq : Z) : X (trap_end * list event) :=
  x ← r_sstatus;
  if negb (Z.land x SSTATUS_SPP =? 0) then panic "usertrap: not from user mode"
  else
    w_stvec kernelvec_addr;;
    pc ← r_sepc;
    tf_write TF_EPC pc;;
    c ← r_scause;
    if c =? 8 then
      r ← unless_killed (
        epc ← tf_read TF_EPC;
        tf_write TF_EPC (u64 (epc + 4));;
        intr_on_hart;;
        r ← sys_op (syscall forkret_addr g);
        match r with
        | SysSleep ch => mret (Asleep ch)
        | SysGone => mret Gone
        | SysRet _ => usertrap_end 0
        end);
      mret (r, [])
    else
      d ← devintr irq;
      if fst d =? 0 then
        i ← xproc_op (gets me);
        xproc_op (setkilled i);;
        r ← usertrap_end 0;
        mret (r, [])
      else r ← usertrap_end (fst d); mret (r, snd d).

(** ** Traps from the kernel; [running] says whether a process runs on the hart *)

Definition kerneltrap (running : bool) (irq : Z) : X (list event) :=
  pc ← r_sepc;
  st ← r_sstatus;
  if Z.land st SSTATUS_SPP =? 0 then panic "kerneltrap: not from supervisor mode"
  else
    on ← intr_get_hart;
    if (on : bool) then panic "kerneltrap: interrupts enabled"
    else
      d ← devintr irq;
      if fst d =? 0 then panic "kerneltrap"
      else
        p ← sys_op myproc;
        (if (fst d =? 2) && running && bool_decide (p_state p = RUNNING) then xproc_op yield else mret tt);;
        w_sepc pc;;
        w_sstatus st;;
        mret (snd d).

(** ** A trap of a user program, with the assembly code around [usertrap] *)

Definition mm (s : tsys) : memory := mem (k_mem (kern (base s))).
Definition put_mm (m : memory) (s : tsys) : tsys :=
  set_base (set_kern (set_kmem (KState m (freelist (k_mem (kern (base s))))) (kern (base s))) (base s)) s.

Definition run_asm (p : list instr * jump) (s : machine) : option (machine * Z) :=
  match exec_prog p (m_hart s) (mm (m_sys s)) with
  | Some (h, m, pc) => Some (Mach h (put_mm m (m_sys s)), pc)
  | None => None
  end.

(** From the trap at [pc] to the return to user space: the machine and the address at which
    the program goes on, if the kernel gets there. *)
Definition user_trap (g : garbage) (irq cause pc : Z) (s : machine) : option (machine * Z) :=
  match run_asm uservec (Mach (take_trap cause pc (m_hart s)) (m_sys s)) with
  | Some (x, entry) =>
      if negb (entry =? usertrap_addr) then None
      else
        match usertrap g irq x with
        | Done (ToUser v, _) y => run_asm userret (Mach (set_reg a0 v (m_hart y)) (m_sys y))
        | _ => None
        end
  | None => None
  end.
End Trap.

