(* ===== verification/TrapProps.v ===== *)
(** * System calls, from the [ecall] to the instruction after it *)

From S2P Require Import Hart HartProps Prelude Mem CString Riscv Kalloc Vm PageTable VmSpec VmCopy RingbufK RingbufFind RingbufMap Demo Pipe Block Sleeplock Bio Log Fs File Proc ProcConc Exec Syscall Trap.

(** ** Steps *)

Section TrapProps.
Context `{KernelImage} `{Devices}.
Variables (forkret_addr kernelvec_addr usertrap_addr uservec_off : Z).

(** The running process. *)
Definition cur (s : tsys) : proc := proc_at (me (base s)) (base s).
Definition tstore (a v : Z) (s : tsys) : tsys := put_mm (store64 (mm s) a v) s.

Lemma cur_tstore a v s : cur (tstore a v s) = cur s.
Proof. done. Qed.
Lemma mm_tstore a v s : mm (tstore a v s) = store64 (mm s) a v.
Proof. done. Qed.
Lemma load_tstore a v s : 0 <= v < 2 ^ 64 -> load64 (mm (tstore a v s)) a = v.
Proof. apply load64_store64. Qed.
Lemma load_tstore_ne a v b s : b + 8 <= a \/ a + 8 <= b -> load64 (mm (tstore a v s)) b = load64 (mm s) b.
Proof. apply load64_store64_ne. Qed.

Lemma myproc_run s : myproc s = Done (cur s) s.
Proof. destruct s. done. Qed.

Lemma sys_op_run {A} (m : M tsys A) (s : machine) a x : m (m_sys s) = Done a x -> sys_op m s = Done a (Mach (m_hart s) x).
Proof. intros E. unfold sys_op, lift. by rewrite E. Qed.

Lemma read_run a s : page_op (read64 a) s = Done (load64 (mm s) a) s.
Proof. destruct s as [[[] ] ? ?]. done. Qed.

Lemma write_run a v s : page_op (write64 a v) s = Done tt (tstore a v s).
Proof. done. Qed.

Lemma xmyproc_run s : sys_op myproc s = Done (cur (m_sys s)) s.
Proof. rewrite (sys_op_run _ _ _ _ (myproc_run _)). by destruct s. Qed.

Lemma tf_write_run off v s :
  tf_write off v s = Done tt (Mach (m_hart s) (tstore (p_trapframe (cur (m_sys s)) + off) v (m_sys s))).
Proof. unfold tf_write. mstep (xmyproc_run s). apply sys_op_run, write_run. Qed.

Lemma tf_read_run off s : tf_read off s = Done (load64 (mm (m_sys s)) (p_trapframe (cur (m_sys s)) + off)) s.
Proof. unfold tf_read. mstep (xmyproc_run s). rewrite (sys_op_run _ _ _ _ (read_run _ _)). by destruct s. Qed.

Lemma bind_tf_write {A} off v (f : unit -> M machine A) s :
  (tf_write off v ≫= f) s = f tt (Mach (m_hart s) (tstore (p_trapframe (cur (m_sys s)) + off) v (m_sys s))).
Proof. apply bind_done, tf_write_run. Qed.

Lemma bind_tf_read {A} off (f : Z -> M machine A) s : (tf_read off ≫= f) s = f (load64 (mm (m_sys s)) (p_trapframe (cur (m_sys s)) + off)) s.
Proof. apply bind_done, tf_read_run. Qed.

(** ** The return to user space *)

(** The trap frame as [usertrapret] leaves it. *)
Definition ret_sys (h : hart) (x : tsys) : tsys :=
  let tf := p_trapframe (cur x) in
  tstore (tf + TF_KERNEL_HARTID) (gpr h tp) (tstore (tf + TF_KERNEL_TRAP) usertrap_addr
    (tstore (tf + TF_KERNEL_SP) (p_kstack (cur x) + PGSIZE) (tstore (tf + TF_KERNEL_SATP) (csrs h satp) x))).

Definition ret_hart (h : hart) (epc : Z) : hart :=
  let st := clear (csrs h sstatus) SSTATUS_SIE in
  set_csr sepc epc (set_csr sstatus (Z.lor (clear st SSTATUS_SPP) SSTATUS_SPIE) (set_csr stvec (TRAMPOLINE + uservec_off) (set_csr sstatus st h))).

Lemma usertrapret_run s :
  let x := ret_sys (m_hart s) (m_sys s) in
  usertrapret usertrap_addr uservec_off s =
    Done (ToUser (MAKE_SATP (p_pagetable (cur (m_sys s))))) (Mach (ret_hart (m_hart s) (load64 (mm x) (p_trapframe (cur (m_sys s)) + TF_EPC))) x).
Proof.
  cbv zeta. unfold usertrapret, intr_off_hart. mstep (xmyproc_run s). rewrite bind_assoc. unfold r_sstatus, w_sstatus, w_stvec, r_satp, w_sepc, r_tp, r_reg, r_csr, w_csr.
  cbn [get_hart put_hart machine_hart].
  repeat first [rewrite bind_gets | rewrite bind_modify]. rewrite bind_tf_write.
  rewrite bind_tf_write. rewrite bind_tf_write. rewrite bind_gets. rewrite bind_tf_write.
  rewrite bind_gets, bind_modify. rewrite bind_tf_read. rewrite bind_modify. reflexivity.
Qed.

(** ** System calls *)

Lemma unless_killed_alive k s : p_killed (cur (m_sys s)) = false -> unless_killed k s = k s.
Proof. intros E. unfold unless_killed. mstep (xmyproc_run s). by rewrite E. Qed.

(** The handler for the number in [a7]. *)
Definition handler (g : garbage) (n : Z) : M tsys sysres :=
  if (0 <? s32 n) && (s32 n <? 23) then default (mret (SysRet (-1))) (nth (Z.to_nat (s32 n)) (syscalls forkret_addr g) None) else mret (SysRet (-1)).

Lemma syscall_run g e v e2 :
  handler g (load64 (mm e) (p_trapframe (cur e) + TF_A7)) e = Done (SysRet v) e2 ->
  syscall forkret_addr g e = Done (SysRet v) (tstore (p_trapframe (cur e2) + TF_A0) (u64 v) e2).
Proof.
  assert (Ea : forall v e, set_a0 v e = Done tt (tstore (p_trapframe (cur e) + TF_A0) (u64 v) e)).
  { intros w x. unfold set_a0. mstep (myproc_run x). apply write_run. }
  intros Er. unfold syscall. mstep (myproc_run e). mstep (read_run (p_trapframe (cur e) + TF_A7) e). cbv zeta. unfold handler in Er.
  destruct (_ && _).
  - destruct (nth _ _ _) as [f|]; cbn [default] in Er.
    + mstep Er. mstep (Ea v e2). reflexivity.
    + injection Er as <- <-. mstep (Ea (-1) e). reflexivity.
  - injection Er as <- <-. mstep (Ea (-1) e). reflexivity.
Qed.

(** The system when [syscall] starts: the address after the [ecall] is in the trap frame. *)
Definition entry_sys (pc : Z) (x : tsys) : tsys :=
  let tf := p_trapframe (cur x) in tstore (tf + TF_EPC) (u64 (pc + 4)) (tstore (tf + TF_EPC) pc x).

Definition entry_hart (h : hart) : hart :=
  set_csr sstatus (Z.lor (csrs h sstatus) SSTATUS_SIE) (set_csr stvec kernelvec_addr h).

Lemma usertrap_syscall g irq s v e2 e3 :
  let e := entry_sys (csrs (m_hart s) sepc) (m_sys s) in
  Z.land (csrs (m_hart s) sstatus) SSTATUS_SPP = 0 -> csrs (m_hart s) scause = 8 -> p_killed (cur (m_sys s)) = false ->
  0 <= csrs (m_hart s) sepc < 2 ^ 64 ->
  syscall forkret_addr g e = Done (SysRet v) e2 -> p_killed (cur e2) = false ->
  usertrapret usertrap_addr uservec_off (Mach (entry_hart (m_hart s)) e2) = Done (fst e3) (snd e3) ->
  usertrap forkret_addr kernelvec_addr usertrap_addr uservec_off g irq s = Done (fst e3, []) (snd e3).
Proof.
  cbv zeta. intros Hspp Hc Hk Hpc Es Hk2 Er. unfold usertrap, r_sstatus, r_sepc, r_scause, w_stvec, r_csr, w_csr. cbn [get_hart put_hart machine_hart]. rewrite bind_gets, Hspp. cbn [Z.eqb negb].
  rewrite bind_modify, bind_gets, bind_tf_write, bind_gets.
  assert (Ec : forall t, csrs (set_csr stvec t (m_hart s)) scause = 8) by (intros; exact Hc). cbn [m_hart m_sys]. rewrite Ec. change (8 =? 8) with true. cbv iota.
  refine (bind_done _ (fun r => mret (r, [])) _ (fst e3) (snd e3) _). rewrite unless_killed_alive by exact Hk. rewrite bind_tf_read, bind_tf_write. cbn [m_hart m_sys].
  change (csrs (set_csr stvec kernelvec_addr (m_hart s)) sepc) with (csrs (m_hart s) sepc). rewrite !cur_tstore, load_tstore by done.
  unfold intr_on_hart, r_sstatus, w_sstatus, r_csr, w_csr. cbn [get_hart put_hart machine_hart]. rewrite bind_assoc, bind_gets, bind_modify. cbn [m_hart m_sys].
  refine (eq_trans (bind_done _ _ _ _ _ (sys_op_run _ (Mach _ _) _ _ Es)) _). cbv iota. unfold usertrap_end. rewrite unless_killed_alive by exact Hk2. exact Er.
Qed.

(** ** Programs that are ready to trap *)

(** The hart runs the current process in user mode, and its next trap finds what it needs. *)
Record user_ready (s : machine) : Prop := {
  ur_priv : priv (m_hart s) = UMode;
  ur_satp : csrs (m_hart s) satp = MAKE_SATP (p_pagetable (cur (m_sys s)));
  ur_tf : has_trapframe (mm (m_sys s)) (p_pagetable (cur (m_sys s))) (p_trapframe (cur (m_sys s)));
  ur_regs : regs64 (m_hart s);
  ur_trap : load64 (mm (m_sys s)) (p_trapframe (cur (m_sys s)) + TF_KERNEL_TRAP) = usertrap_addr;
  ur_stvec : csrs (m_hart s) stvec = TRAMPOLINE + uservec_off;
  ur_alive : p_killed (cur (m_sys s)) = false;
}.

(** What a handler that returns to the program leaves alone. *)
Record kept (e e2 : tsys) : Prop := {
  kp_tf : p_trapframe (cur e2) = p_trapframe (cur e);
  kp_alive : p_killed (cur e2) = false;
  kp_map : has_trapframe (mm e2) (p_pagetable (cur e2)) (p_trapframe (cur e2));
  kp_regs : forall r, load64 (mm e2) (p_trapframe (cur e) + tf_off r) = load64 (mm e) (p_trapframe (cur e) + tf_off r);
  kp_epc : load64 (mm e2) (p_trapframe (cur e) + TF_EPC) = load64 (mm e) (p_trapframe (cur e) + TF_EPC);
}.

Lemma has_trapframe_frame m m' upt tf :
  has_trapframe m upt tf -> (forall b, ~ in_range tf PGSIZE b -> mget m' b = mget m b) -> has_trapframe m' upt tf.
Proof.
  intros [Hwf Hv Hpa Ha] E.
  assert (Hal : tf mod PGSIZE = 0) by (rewrite <-Hpa; apply PTE2PA_aligned).
  assert (Hf : forall t, is_table m upt t -> mem_eq_on (in_page t) m m').
  { intros t Ht b Hb. apply E. intros Hb2. pose proof (is_table_valid m upt t Hwf Ht) as [Hta _]. apply (Ha t Ht). by apply (pages_disjoint t tf b). }
  split.
  - by apply (pt_wf_frame m m').
  - by rewrite (leaf_frame m m').
  - by rewrite (leaf_frame m m').
  - intros t Ht. apply Ha. by apply (is_table_frame m m').
Qed.

Lemma mm_tstore_out a v s b : ~ in_range a 8 b -> mget (mm (tstore a v s)) b = mget (mm s) b.
Proof. intros Hb. rewrite mm_tstore. apply (mget_store_le_out _ _ 8). unfold in_range in Hb. lia. Qed.

Lemma clear_SPP x : Z.land (clear x SSTATUS_SPP) SSTATUS_SPP = 0.
Proof. unfold clear. rewrite <-Z.land_assoc. change (Z.land (u64 (Z.lnot SSTATUS_SPP)) SSTATUS_SPP) with 0. apply Z.land_0_r. Qed.

(** What [usertrapret] and [userret] do. *)
Lemma leave_kernel h e :
  has_trapframe (mm e) (p_pagetable (cur e)) (p_trapframe (cur e)) -> priv h = SMode -> 0 <= usertrap_addr < 2 ^ 64 ->
  let tf := p_trapframe (cur e) in
  exists s y, usertrapret usertrap_addr uservec_off (Mach h e) = Done (ToUser (MAKE_SATP (p_pagetable (cur e)))) s /\
    run_asm userret (Mach (set_reg a0 (MAKE_SATP (p_pagetable (cur e))) (m_hart s)) (m_sys s)) = Some (y, load64 (mm e) (tf + TF_EPC)) /\
    priv (m_hart y) = UMode /\ csrs (m_hart y) satp = MAKE_SATP (p_pagetable (cur e)) /\ csrs (m_hart y) stvec = TRAMPOLINE + uservec_off /\
    (forall r, gpr (m_hart y) r = load64 (mm e) (tf + tf_off r)) /\
    cur (m_sys y) = cur e /\ load64 (mm (m_sys y)) (tf + TF_KERNEL_TRAP) = usertrap_addr /\
    m_sys y = put_mm (mm (m_sys y)) e /\ (forall b, ~ in_range tf 288 b -> mget (mm (m_sys y)) b = mget (mm e) b).
Proof.
  intros Hk Hp Hu tf. pose proof (usertrapret_run (Mach h e)) as Er. cbv zeta in Er. cbn [m_hart m_sys] in Er.
  set (x := ret_sys h e) in *. unfold TF_KERNEL_TRAP in *.
  assert (Hx : forall o, 24 <= o -> o <> 32 -> o mod 8 = 0 -> load64 (mm x) (tf + o) = load64 (mm e) (tf + o)).
  { intros o H1 H2 H3. unfold x, ret_sys. rewrite !load_tstore_ne; [done|..]; fold tf; unfold TF_KERNEL_HARTID, TF_KERNEL_SP, TF_KERNEL_SATP, TF_KERNEL_TRAP; lia. }
  assert (Hf : forall b, ~ in_range tf 288 b -> mget (mm x) b = mget (mm e) b).
  { intros b Hb. unfold x, ret_sys. rewrite !mm_tstore_out; [done|..]; fold tf;
      unfold TF_KERNEL_HARTID, TF_KERNEL_SP, TF_KERNEL_SATP, TF_KERNEL_TRAP, in_range in *; lia. }
  rewrite Hx in Er by done. set (h2 := ret_hart h (load64 (mm e) (tf + TF_EPC))) in *.
  assert (Ht : has_trapframe (mm x) (p_pagetable (cur e)) tf).
  { apply (has_trapframe_frame (mm e)); [exact Hk|]. intros b Hb. apply Hf. unfold in_range, PGSIZE in *. lia. }
  destruct (userret_ok (set_reg a0 (MAKE_SATP (p_pagetable (cur e))) h2) (mm x) (p_pagetable (cur e)) tf) as (h3 & E3 & Hg & Hp3 & Hs3 & Hc3).
  { done. }
  { reflexivity. }
  { exact Hp. }
  { change (csrs (set_reg a0 (MAKE_SATP (p_pagetable (cur e))) h2) sstatus) with (Z.lor (clear (clear (csrs h sstatus) SSTATUS_SIE) SSTATUS_SPP) SSTATUS_SPIE).
    rewrite Z.land_lor_distr_l, clear_SPP. reflexivity. }
  exists (Mach h2 x), (Mach h3 (put_mm (mm x) x)). split; [exact Er|]. split; [unfold run_asm; cbn [m_hart m_sys]; by rewrite E3|]. cbn [m_hart m_sys].
  split; [done|]. split; [done|]. split; [by rewrite Hc3|].
  split; [intros r; rewrite Hg; pose proof (tf_off_range r); apply Hx; lia|]. split; [done|]. split; [|by split; [|done]].
  change (mm (put_mm (mm x) x)) with (mm x). unfold x, ret_sys. fold tf. unfold TF_KERNEL_TRAP. rewrite load_tstore_ne by (unfold TF_KERNEL_HARTID; lia). apply load_tstore. exact Hu.
Qed.

(** The same after a handler that returns [v]. *)
Lemma leave_syscall h e v :
  has_trapframe (mm e) (p_pagetable (cur e)) (p_trapframe (cur e)) -> priv h = SMode -> 0 <= usertrap_addr < 2 ^ 64 ->
  let e2 := tstore (p_trapframe (cur e) + TF_A0) (u64 v) e in
  let tf := p_trapframe (cur e) in
  exists s y, usertrapret usertrap_addr uservec_off (Mach h e2) = Done (ToUser (MAKE_SATP (p_pagetable (cur e)))) s /\
    run_asm userret (Mach (set_reg a0 (MAKE_SATP (p_pagetable (cur e))) (m_hart s)) (m_sys s)) = Some (y, load64 (mm e) (tf + TF_EPC)) /\
    priv (m_hart y) = UMode /\ csrs (m_hart y) satp = MAKE_SATP (p_pagetable (cur e)) /\ csrs (m_hart y) stvec = TRAMPOLINE + uservec_off /\
    gpr (m_hart y) a0 = u64 v /\ (forall r, r <> a0 -> gpr (m_hart y) r = load64 (mm e) (tf + tf_off r)) /\
    cur (m_sys y) = cur e /\ load64 (mm (m_sys y)) (tf + TF_KERNEL_TRAP) = usertrap_addr /\
    m_sys y = put_mm (mm (m_sys y)) e /\ (forall b, ~ in_range tf 288 b -> mget (mm (m_sys y)) b = mget (mm e) b).
Proof.
  intros Hk Hp Hu e2 tf.
  assert (Hout : forall b, ~ in_range (tf + TF_A0) 8 b -> mget (mm e2) b = mget (mm e) b) by (intros b Hb; by apply mm_tstore_out).
  destruct (leave_kernel h e2) as (s & y & E1 & E2 & Y1 & Y2 & Y3 & Y4 & Y5 & Y6 & Y7 & Y8); [|done|done|].
  { apply (has_trapframe_frame (mm e)); [exact Hk|]. intros b Hb. apply Hout. change (p_trapframe (cur e2)) with tf in Hb. unfold in_range, PGSIZE, TF_A0 in *. lia. }
  change (cur e2) with (cur e) in E1, E2, Y1, Y2, Y4, Y5, Y6, Y8. fold tf in E2, Y4, Y6, Y8.
  assert (Hl : forall o, o + 8 <= TF_A0 \/ TF_A0 + 8 <= o -> load64 (mm e2) (tf + o) = load64 (mm e) (tf + o)) by (intros o Ho; apply load_tstore_ne; fold tf; lia).
  exists s, y. split; [exact E1|]. split; [rewrite E2; unfold TF_EPC, TF_A0 in *; by rewrite Hl by lia|]. do 3 (split; [done|]).
  split; [rewrite Y4; apply load_tstore; unfold u64; lia|]. split.
  { intros r Hr. rewrite Y4. apply Hl. pose proof (tf_off_range r). assert (tf_off r <> tf_off a0) by (intros E; apply Hr, tf_off_inj, E).
    change (tf_off a0) with 112 in *. unfold TF_A0. lia. }
  split; [exact Y5|]. split; [exact Y6|]. split; [exact Y7|].
  intros b Hb. rewrite Y8 by done. apply Hout. unfold in_range, TF_A0 in *. lia.
Qed.

(** The handler starts in [e]: the registers and the address to return to are in the trap
    frame, and nothing else has changed. *)
Record entered (s : machine) (pc : Z) (e : tsys) : Prop := {
  en_regs : forall r, load64 (mm e) (p_trapframe (cur (m_sys s)) + tf_off r) = gpr (m_hart s) r;
  en_epc : load64 (mm e) (p_trapframe (cur (m_sys s)) + TF_EPC) = pc + 4;
  en_frame : forall b, ~ in_range (p_trapframe (cur (m_sys s))) 288 b -> mget (mm e) b = mget (mm (m_sys s)) b;
  en_rest : e = put_mm (mm e) (m_sys s);
}.

(** [uservec] after an [ecall]. *)
Lemma enter_kernel s pc :
  user_ready s -> 0 <= pc -> pc + 4 < 2 ^ 64 ->
  exists x, run_asm uservec (Mach (take_trap 8 pc (m_hart s)) (m_sys s)) = Some (x, usertrap_addr) /\
    priv (m_hart x) = SMode /\ csrs (m_hart x) sepc = pc /\ csrs (m_hart x) scause = 8 /\ Z.land (csrs (m_hart x) sstatus) SSTATUS_SPP = 0 /\
    cur (m_sys x) = cur (m_sys s) /\ entered s pc (entry_sys pc (m_sys x)).
Proof.
  intros [Hp Hs Ht Hr Hu _ _] Hpc H4. set (tf := p_trapframe (cur (m_sys s))) in *.
  destruct (uservec_ok (take_trap 8 pc (m_hart s)) (mm (m_sys s)) (p_pagetable (cur (m_sys s))) tf) as (h1 & m1 & pc1 & E & [K1 K2 K3 K4 K5 K6 K7 K8]); [done|exact Hs|reflexivity|exact Hr|].
  exists (Mach h1 (put_mm m1 (m_sys s))). split; [unfold run_asm; cbn [m_hart m_sys]; rewrite E; congruence|]. cbn [m_hart m_sys]. split; [done|].
  split; [rewrite K7 by done; reflexivity|]. split; [rewrite K7 by done; reflexivity|].
  split; [rewrite K7 by done; apply clear_SPP|]. split; [done|].
  unfold entry_sys. change (p_trapframe (cur (put_mm m1 (m_sys s)))) with tf. split; fold tf.
  - intros r. pose proof (tf_off_range r). rewrite !load_tstore_ne by (unfold TF_EPC; lia). apply K1.
  - rewrite u64_small by lia. apply load_tstore. lia.
  - intros b Hb. rewrite !mm_tstore_out by (unfold in_range, TF_EPC in *; lia). apply K2. unfold in_range in *. lia.
  - done.
Qed.
End TrapProps.

(** C11: A system call goes from the [ecall] to the instruction after it.  In whatever user
    program [ecall] is executed, [uservec], [usertrap] and [syscall] reach the handler whose
    number is in [a7] with every user register in the trap frame and nothing else changed but
    the saved [epc]; and when the handler returns [v], leaving the trap frame alone,
    [usertrapret], [userret] and [sret] take the hart back to user mode at [pc + 4] with [v]
    in [a0], every other register as it was, no memory outside the trap frame touched since
    the handler returned, and everything in place for the next trap. *)
Theorem syscall_roundtrip `{KernelImage} `{Devices} forkret_addr kernelvec_addr usertrap_addr uservec_off g irq s pc :
  user_ready usertrap_addr uservec_off s -> 0 <= usertrap_addr < 2 ^ 64 -> 0 <= pc -> pc + 4 < 2 ^ 64 ->
  exists e, entered s pc e /\
    forall v e2, handler forkret_addr g (gpr (m_hart s) a7) e = Done (SysRet v) e2 -> kept e e2 ->
      exists y, user_trap forkret_addr kernelvec_addr usertrap_addr uservec_off g irq 8 pc s = Some (y, pc + 4) /\
        user_ready usertrap_addr uservec_off y /\ gpr (m_hart y) a0 = u64 v /\ (forall r, r <> a0 -> gpr (m_hart y) r = gpr (m_hart s) r) /\
        m_sys y = put_mm (mm (m_sys y)) e2 /\ (forall b, ~ in_range (p_trapframe (cur e2)) 288 b -> mget (mm (m_sys y)) b = mget (mm e2) b).
Proof.
  intros Hr Hu Hpc H4. destruct (enter_kernel usertrap_addr uservec_off s pc Hr Hpc H4) as (x & Ex & Xp & Xe & Xc & Xs & Xcur & He).
  set (e := entry_sys pc (m_sys x)) in *. exists e. split; [done|]. intros v e2 Ef Hk.
  assert (Ecur : cur e = cur (m_sys s)) by exact Xcur. pose proof (kp_tf _ _ Hk) as Etf.
  destruct (leave_syscall usertrap_addr uservec_off (entry_hart kernelvec_addr (m_hart x)) e2 v (kp_map _ _ Hk)) as (z & y & Ez & Ey & Y1 & Y2 & Y3 & Y4 & Y5 & Y6 & Y7 & Y8 & Y9); [exact Xp|exact Hu|].
  assert (Eh : gpr (m_hart s) a7 = load64 (mm e) (p_trapframe (cur e) + TF_A7)) by (rewrite Ecur; symmetry; apply (en_regs _ _ _ He a7)).
  rewrite Eh in Ef. pose proof (syscall_run forkret_addr g e v e2 Ef) as Es.
  pose proof (usertrap_syscall forkret_addr kernelvec_addr usertrap_addr uservec_off g irq x v
    (tstore (p_trapframe (cur e2) + TF_A0) (u64 v) e2) (ToUser (MAKE_SATP (p_pagetable (cur e2))), z)
    Xs Xc (eq_trans (f_equal p_killed Xcur) (ur_alive _ _ _ Hr))) as Eu.
  rewrite Xe in Eu. specialize (Eu ltac:(lia) Es (kp_alive _ _ Hk) Ez). cbn [fst snd] in Eu.
  rewrite Etf in Ey, Y5. rewrite (kp_epc _ _ Hk), Ecur, (en_epc _ _ _ He) in Ey.
  assert (Hg : forall r, r <> a0 -> gpr (m_hart y) r = gpr (m_hart s) r) by (intros r Hne; rewrite Y5, (kp_regs _ _ Hk), Ecur by done; apply (en_regs _ _ _ He)).
  exists y. split; [unfold user_trap; rewrite Ex, Z.eqb_refl; cbn [negb]; rewrite Eu; exact Ey|]. split; [|by repeat (split; [done|])].
  split; rewrite ?Y6.
  - done.
  - done.
  - apply (has_trapframe_frame (mm e2)); [apply (kp_map _ _ Hk)|]. intros b Hb. apply Y9. unfold in_range, PGSIZE in *. lia.
  - intros r. destruct (decide (r = a0)) as [->|Hne]; [rewrite Y4; unfold u64; lia|]. rewrite Hg by done. apply (ur_regs _ _ _ Hr).
  - done.
  - done.
  - apply (kp_alive _ _ Hk).
Qed.


#[local] Instance no_drivers : Devices := {| dev_read := fun _ => None; dev_write := fun _ => None |}.

(** Process 7, whose page table is [root1] and whose trap frame is page 3, in memory [m]. *)
Definition one_proc (m : kstate) : tsys :=
  TSys (KSys (Kernel (FState (LState (BState [] ∅ [] 1) (Log 0 0 0 false 0 0 [])) (Superblock 0 0 0 0 0 0 0 0) []) [] ∅ m [] 0)
      [Proc RUNNING None false 0 7 None 0 0 root1 (dpage 3) (Context 0 0 []) [] None []] 8 (Some 0%nat) false 0) [] 0.

(** Its hart, with the number of [getpid] in [a7]. *)
Definition user_hart : hart :=
  Hart (fun r => if decide (r = a7) then 11 else 5) (fun c => if decide (c = satp) then MAKE_SATP root1 else if decide (c = stvec) then TRAMPOLINE else 0) UMode.

Definition no_garbage : garbage := Garbage [] [] (Ringbuf 0 [] [] 0) (fun _ => 0).

Lemma syscall_roundtrip_witness :
  exists s y, user_ready 0x80002000 0 s /\ user_trap 0 0 0x80002000 0 no_garbage 0 8 0x100 s = Some (y, 0x104) /\
    gpr (m_hart y) a0 = 7 /\ gpr (m_hart y) a7 = 11 /\ priv (m_hart y) = UMode.
Proof.
  destruct demo_trapframe as (k & _ & Ht). set (m := store64 (mem k) (dpage 3 + TF_KERNEL_TRAP) 0x80002000).
  set (s := Mach user_hart (one_proc (KState m 0))).
  assert (Hr : user_ready 0x80002000 0 s).
  { split; try reflexivity.
    - apply (has_trapframe_frame (mem k)); [exact Ht|]. intros b Hb. apply (mget_store_le_out _ _ 8). change (p_trapframe (cur (m_sys s))) with (dpage 3) in Hb. unfold in_range, PGSIZE, TF_KERNEL_TRAP in *. lia.
    - intros r. unfold s, user_hart. cbn [m_hart gpr]. case_decide; lia.
    - apply load64_store64. lia. }
  destruct (syscall_roundtrip 0 0 0x80002000 0 no_garbage 0 s 0x100) as (e & He & Hc); [exact Hr|lia|lia|lia|].
  pose proof (en_rest _ _ _ He) as Ee. assert (Hcur : cur e = cur (m_sys s)) by (rewrite Ee; reflexivity).
  destruct (Hc 7 e) as (y & Ey & Hy & Ya & Yr & _).
  - change (sys_getpid e = Done (SysRet 7) e). unfold sys_getpid. mstep (myproc_run e). rewrite Hcur. reflexivity.
  - split; rewrite ?Hcur; try done. apply (has_trapframe_frame (mm (m_sys s))); [apply (ur_tf _ _ _ Hr)|].
    intros b Hb. apply (en_frame _ _ _ He). unfold in_range, PGSIZE in *. lia.
  - exists s, y. split; [exact Hr|]. split; [exact Ey|]. split; [exact Ya|]. split; [by rewrite Yr|]. apply (ur_priv _ _ _ Hy).
Defined.

(** ** What [usertrap] guarantees, and [sleep] *)

Section TrapSleep.
Context `{KernelImage} `{Devices}.

(** ** The way back *)

(** A machine about to run [userret] for page table [v]. *)
Record leaving (usertrap_addr uservec_off v : Z) (s : machine) : Prop := {
  lv_alive : p_killed (cur (m_sys s)) = false;
  lv_satp : v = MAKE_SATP (p_pagetable (cur (m_sys s)));
  lv_stvec : csrs (m_hart s) stvec = TRAMPOLINE + uservec_off;
  lv_user : Z.land (csrs (m_hart s) sstatus) SSTATUS_SPP = 0;
  lv_off : Z.land (csrs (m_hart s) sstatus) SSTATUS_SIE = 0;
  lv_on_later : Z.land (csrs (m_hart s) sstatus) SSTATUS_SPIE = SSTATUS_SPIE;
  lv_sepc : csrs (m_hart s) sepc = load64 (mm (m_sys s)) (p_trapframe (cur (m_sys s)) + TF_EPC);
  lv_trap : load64 (mm (m_sys s)) (p_trapframe (cur (m_sys s)) + TF_KERNEL_TRAP) = usertrap_addr;
}.

Lemma ret_status x :
  let y := Z.lor (clear (clear x SSTATUS_SIE) SSTATUS_SPP) SSTATUS_SPIE in
  Z.land y SSTATUS_SPP = 0 /\ Z.land y SSTATUS_SIE = 0 /\ Z.land y SSTATUS_SPIE = SSTATUS_SPIE.
Proof.
  cbv zeta. unfold clear. rewrite !Z.land_lor_distr_l, <-!Z.land_assoc. split; [|split].
  - change (Z.land (u64 (Z.lnot SSTATUS_SIE)) (Z.land (u64 (Z.lnot SSTATUS_SPP)) SSTATUS_SPP)) with 0. by rewrite Z.land_0_r.
  - change (Z.land (u64 (Z.lnot SSTATUS_SIE)) (Z.land (u64 (Z.lnot SSTATUS_SPP)) SSTATUS_SIE)) with 0. by rewrite Z.land_0_r.
  - rewrite Z.lor_comm.
    change (Z.land (u64 (Z.lnot SSTATUS_SIE)) (Z.land (u64 (Z.lnot SSTATUS_SPP)) SSTATUS_SPIE)) with SSTATUS_SPIE.
    change (Z.land SSTATUS_SPIE SSTATUS_SPIE) with SSTATUS_SPIE. apply Z.bits_inj'. intros i Hi. rewrite Z.lor_spec, Z.land_spec. by destruct (Z.testbit SSTATUS_SPIE i), (Z.testbit x i).
Qed.

Variables (forkret_addr kernelvec_addr usertrap_addr uservec_off : Z).
Hypothesis Hu : 0 <= usertrap_addr < 2 ^ 64.

Lemma usertrapret_leaving s v y :
  p_killed (cur (m_sys s)) = false -> usertrapret usertrap_addr uservec_off s = Done (ToUser v) y -> leaving usertrap_addr uservec_off v y.
Proof.
  intros Hk E. pose proof (usertrapret_run usertrap_addr uservec_off s) as R. cbv zeta in R. rewrite R in E. injection E as <- <-.
  destruct (ret_status (csrs (m_hart s) sstatus)) as (R1 & R2 & R3). split; [exact Hk|reflexivity|reflexivity|exact R1|exact R2|exact R3|reflexivity|]. cbn [m_hart m_sys].
  unfold ret_sys. rewrite !cur_tstore. rewrite load_tstore_ne by (unfold TF_KERNEL_HARTID, TF_KERNEL_TRAP; lia). by apply load_tstore.
Qed.

Lemma unless_killed_inv k s v y :
  unless_killed k s = Done (ToUser v) y -> p_killed (cur (m_sys s)) = false /\ k s = Done (ToUser v) y.
Proof.
  unfold unless_killed. mstep (xmyproc_run s). destruct (p_killed _); [|done]. intros E. by apply bind_done_inv in E as (? & ? & _ & ?).
Qed.

Lemma usertrap_end_leaving d s v y : usertrap_end usertrap_addr uservec_off d s = Done (ToUser v) y -> leaving usertrap_addr uservec_off v y.
Proof.
  unfold usertrap_end. intros (Hk & E)%unless_killed_inv. destruct (d =? 2).
  - by apply bind_done_inv in E as (? & ? & _ & ?).
  - by apply (usertrapret_leaving s).
Qed.

Lemma usertrap_leaving g irq s v evs y :
  usertrap forkret_addr kernelvec_addr usertrap_addr uservec_off g irq s = Done (ToUser v, evs) y -> leaving usertrap_addr uservec_off v y.
Proof.
  unfold usertrap. intros E. apply bind_done_inv in E as (x & z & _ & E). destruct (negb _); [done|].
  do 4 (apply bind_done_inv in E as (? & ? & _ & E)). destruct (_ =? 8).
  - apply bind_done_inv in E as (r & z1 & E & Er). injection Er as -> _ ->. apply unless_killed_inv in E as [_ E].
    do 4 (apply bind_done_inv in E as (? & ? & _ & E)). match type of E with context [match ?r with SysRet _ => _ | _ => _ end] => destruct r end; [|done..].
    by apply usertrap_end_leaving in E.
  - apply bind_done_inv in E as (d & ? & _ & E). destruct (_ =? 0).
    + do 2 (apply bind_done_inv in E as (? & ? & _ & E)). apply bind_done_inv in E as (r & z1 & E & Er). injection Er as -> _ ->. by apply usertrap_end_leaving in E.
    + apply bind_done_inv in E as (r & z1 & E & Er). injection Er as -> _ ->. by apply usertrap_end_leaving in E.
Qed.

End TrapSleep.

(** ** The clock *)

Section Clock.
Context `{KernelImage} `{Devices}.

Definition on_cpu (p : nat) : M machine unit :=
  xproc_op (modify (fun s => KSys (kern s) (procs s) (nextpid s) (initproc s) (first s) p)).

(** Process [p] in the loop of [sys_sleep]: after each round the clock interrupts hart 0, where
    [q] runs, and the scheduler comes back to [p].  The result of the call, and the number of
    interrupts it waited for. *)
Fixpoint sleep_rounds (fuel : nat) (p q : nat) (n ticks0 waited : Z) : M machine (option (Z * Z)) :=
  match fuel with
  | O => mret None
  | S fuel =>
      r ← sys_op (sleep_loop n ticks0);
      match r with
      | SysRet v => mret (Some (v, waited))
      | SysSleep _ =>
          on_cpu q;; clockintr;; on_cpu p;;
          b ← xproc_op (schedule p);
          if (b : bool) then xproc_op sleep_tidy;; sleep_rounds fuel p q n ticks0 (waited + 1) else mret None
      | SysGone => mret None
      end
  end.

(** [p] runs, not killed. *)
Record runs_alive (p : nat) (s : tsys) : Prop := {
  ra_me : me (base s) = p;
  ra_in : (p < length (procs (base s)))%nat;
  ra_state : p_state (cur s) = RUNNING;
  ra_live : p_killed (cur s) = false;
}.

(** The steps between two looks at the clock. *)
Definition sleep_round (p q : nat) : M machine bool :=
  sys_op (proc_op (sleep ticks_chan));; on_cpu q;; clockintr;; on_cpu p;;
  b ← xproc_op (schedule p);
  if (b : bool) then xproc_op sleep_tidy;; mret true else mret false.

Lemma sleep_round_ok p q s :
  runs_alive p (m_sys s) -> q <> p ->
  exists y, sleep_round p q s = Done true y /\ runs_alive p (m_sys y) /\ ticks (m_sys y) = u32 (ticks (m_sys s) + 1).
Proof.
  intros [E1 E2 E3 E4] Hq. destruct s as [h [[k ps np ip fi m] rs t]]. unfold cur, proc_at in *. cbn [m_sys base me procs] in *. subst m.
  destruct (lookup_lt_is_Some_2 _ _ E2) as [x Ex]. rewrite (list_lookup_total_correct _ _ _ Ex) in E3, E4.
  set (x1 := with_state SLEEPING (with_chan (Some ticks_chan) x)).
  set (ps1 := imap (fun i x => if decide (i = q) then x else woken ticks_chan x) (alter (fun x => with_state SLEEPING (with_chan (Some ticks_chan) x)) p ps)).
  assert (L1 : ps1 !! p = Some (with_state RUNNABLE x1)).
  { unfold ps1. rewrite list_lookup_imap, list_lookup_alter_eq, Ex. cbn. rewrite decide_False by done. unfold woken. by rewrite decide_True. }
  set (s1 := TSys (KSys k ps1 np ip fi p) rs (u32 (t + 1))).
  set (ps2 := alter (with_chan None) p (alter (with_state RUNNING) p ps1)).
  assert (L2 : ps2 !! p = Some (with_chan None (with_state RUNNING (with_state RUNNABLE x1)))) by (unfold ps2; by rewrite !list_lookup_alter_eq, L1).
  set (y := Mach h (TSys (KSys k ps2 np ip fi p) rs (u32 (t + 1)))).
  assert (Es : schedule p (base s1) = Done true (KSys k (alter (with_state RUNNING) p ps1) np ip fi p)).
  { unfold schedule. rewrite bind_gets. unfold proc_at, s1. cbn [base procs]. rewrite (list_lookup_total_correct _ _ _ L1). by rewrite decide_True. }
  assert (Er : (b ← xproc_op (schedule p); if (b : bool) then xproc_op sleep_tidy;; mret true else mret false) (Mach h s1) = Done true y).
  { assert (Ex1 : xproc_op (schedule p) (Mach h s1) = Done true (Mach h (TSys (KSys k (alter (with_state RUNNING) p ps1) np ip fi p) rs (u32 (t + 1)))))
      by (unfold xproc_op, sys_op, proc_op, lift; cbn [m_sys m_hart]; by rewrite Es).
    mstep Ex1. reflexivity. }
  exists y. split; [exact Er|]. split; [|done].
  assert (Hc : cur (m_sys y) = with_chan None (with_state RUNNING (with_state RUNNABLE x1))).
  { unfold cur, proc_at, y. cbn [m_sys base procs me]. by apply list_lookup_total_correct. }
  split; rewrite ?Hc; try done. cbn [m_sys y base procs]. apply lookup_lt_Some in L2. exact L2.
Qed.

Lemma sleep_rounds_ok p q n ticks0 j : forall fuel waited s,
  runs_alive p (m_sys s) -> q <> p -> ticks (m_sys s) = u32 (ticks0 + waited) -> 0 <= waited -> u32 n = waited + Z.of_nat j -> (j < fuel)%nat ->
  exists y, sleep_rounds fuel p q n ticks0 waited s = Done (Some (0, u32 n)) y /\ ticks (m_sys y) = u32 (ticks0 + u32 n) /\ runs_alive p (m_sys y).
Proof.
  induction j as [|j IH]; intros [|fuel] waited s Hr Hq Ht Hw Hn Hf; [lia| |lia|].
  - exists s. cbn [sleep_rounds].
    assert (E : sleep_loop n ticks0 (m_sys s) = Done (SysRet 0) (m_sys s)).
    { unfold sleep_loop. rewrite bind_gets, Ht. replace (_ <? _) with false; [done|]. unfold u32 in *. lia. }
    mstep (sys_op_run _ _ _ _ E). split; [|split; [rewrite Ht, Hn; f_equal; lia|done]]. cbn. rewrite Hn. replace (waited + Z.of_nat 0) with waited by lia. by destruct s.
  - destruct (sleep_round_ok p q s Hr Hq) as (y & Ey & Hy & Ty).
    destruct (IH fuel (waited + 1) y) as (z & Ez & Hz); [done|done| |lia|lia|lia|].
    { rewrite Ty, Ht. unfold u32. rewrite Z.add_mod_idemp_l by lia. f_equal. lia. }
    exists z. split; [|exact Hz]. cbn [sleep_rounds].
    assert (E : sleep_loop n ticks0 (m_sys s) = (proc_op (sleep ticks_chan);; mret (SysSleep ticks_chan)) (m_sys s)).
    { unfold sleep_loop. rewrite bind_gets, Ht. replace (_ <? _) with true; [|unfold u32 in *; lia]. mstep (myproc_run (m_sys s)). by rewrite (ra_live _ _ Hr). }
    unfold sleep_round in Ey. apply bind_done_inv in Ey as (? & mx1 & F1 & Ey). apply bind_done_inv in Ey as (? & mx2 & F2 & Ey).
    apply bind_done_inv in Ey as (? & mx3 & F3 & Ey). apply bind_done_inv in Ey as (? & mx4 & F4 & Ey). apply bind_done_inv in Ey as (b & mx5 & F5 & Ey).
    destruct b; [|done]. apply bind_done_inv in Ey as (? & mx6 & F6 & Ey). injection Ey as ->.
    assert (F0 : sys_op (sleep_loop n ticks0) s = Done (SysSleep ticks_chan) mx1).
    { unfold sys_op, lift in *. rewrite E. unfold mbind, M_bind. destruct (proc_op (sleep ticks_chan) (m_sys s)); [|done..]. by injection F1 as _ <-. }
    mstep F0. mstep F2. mstep F3. mstep F4. mstep F5. mstep F6. exact Ez.
Qed.
End Clock.

(** [usertrap] takes a process back to user space only alive and prepared: whatever the
    trap was, a system call, an interrupt or a fault, if it ends with the call of [userret]
    then the process has not been killed, the argument is its page table, [sret] will enter
    user mode with interrupts on at the saved [epc], interrupts are off until then, and the
    next trap goes to [uservec] and from there to [usertrap]. *)
Theorem usertrap_returns_alive `{KernelImage} `{Devices} forkret_addr kernelvec_addr usertrap_addr uservec_off g irq s v evs y :
  0 <= usertrap_addr < 2 ^ 64 ->
  usertrap forkret_addr kernelvec_addr usertrap_addr uservec_off g irq s = Done (ToUser v, evs) y -> leaving usertrap_addr uservec_off v y.
Proof. intros Hu. by apply usertrap_leaving. Qed.

(** C38: [sleep(n)] returns 0 after exactly [n] clock interrupts, [n] read as an unsigned
    number, also when the tick counter wraps around meanwhile: until then every look at the
    clock puts the process back to sleep, and every interrupt wakes it up. *)
Theorem sleep_waits_n_ticks `{KernelImage} `{Devices} p q n s fuel :
  runs_alive p (m_sys s) -> q <> p -> 0 <= ticks (m_sys s) < 2 ^ 32 -> (Z.to_nat (u32 n) < fuel)%nat ->
  exists y, sleep_rounds fuel p q n (ticks (m_sys s)) 0 s = Done (Some (0, u32 n)) y /\
    ticks (m_sys y) = u32 (ticks (m_sys s) + u32 n) /\ runs_alive p (m_sys y).
Proof.
  intros Hr Hq Ht Hf. apply (sleep_rounds_ok p q n (ticks (m_sys s)) (Z.to_nat (u32 n))); try done.
  - rewrite Z.add_0_r. unfold u32. by rewrite Z.mod_small.
  - unfold u32. lia.
Qed.

#[local] Instance no_driver : Devices := {| dev_read := fun _ => None; dev_write := fun _ => None |}.

(** A system call with a number that is not in the table. *)
Definition bad_call : machine :=
  Mach (Hart (fun _ => 0) (fun c => if decide (c = scause) then 8 else 0) SMode) (one_proc (KState ∅ 0)).

Lemma usertrap_returns_alive_witness :
  exists v y, usertrap 0 0 0x80002000 0 no_garbage 0 bad_call = Done (ToUser v, []) y /\ leaving 0x80002000 0 v y.
Proof.
  assert (R : match usertrap 0 0 0x80002000 0 no_garbage 0 bad_call with Done (ToUser v, []) _ => v = MAKE_SATP root1 | _ => False end) by (vm_compute; reflexivity).
  destruct (usertrap 0 0 0x80002000 0 no_garbage 0 bad_call) as [[[v| | |] [|]] y| |] eqn:E; try (exfalso; exact R).
  exists v, y. split; [reflexivity|]. apply (usertrap_returns_alive 0 0 0x80002000 0 no_garbage 0 bad_call v [] y); [lia|exact E].
Defined.

(** Three ticks, over the wrap-around of the counter. *)
Lemma sleep_waits_n_ticks_witness :
  exists y, sleep_rounds 5 0 1 3 (2 ^ 32 - 1) 0 (Mach user_hart (set_ticks (2 ^ 32 - 1) (one_proc (KState ∅ 0)))) = Done (Some (0, 3)) y /\ ticks (m_sys y) = 2.
Proof.
  destruct (sleep_waits_n_ticks 0 1 3 (Mach user_hart (set_ticks (2 ^ 32 - 1) (one_proc (KState ∅ 0)))) 5) as (y & E & Ht & _).
  - split; try reflexivity. cbn. lia.
  - discriminate.
  - cbn. lia.
  - change (Z.to_nat (u32 3)) with 3%nat. lia.
  - exists y. split; [exact E|exact Ht].
Defined.
