(* ===== verification/Kvm.v ===== *)
(** * The kernel's page table, [kvmmake], [kvminit] and [kvminithart] of [kernel/vm.c] *)

From S2P Require Import Hart HartProps Prelude Mem CString Riscv Kalloc Vm PageTable VmSpec VmCopy RingbufK RingbufFind RingbufMap Demo Block Sleeplock Bio Log Fs Pipe File Proc.

Section Kvm.
Context `{KernelImage}.

(** [kalloc] is not checked: without a free page the table is at address 0. *)
Definition kvmmake : M kstate Z :=
  kpgtbl ← kalloc;
  memset_page kpgtbl 0;;
  kvmmap kpgtbl UART0 UART0 PGSIZE (Z.lor PTE_R PTE_W);;
  kvmmap kpgtbl VIRTIO0 VIRTIO0 PGSIZE (Z.lor PTE_R PTE_W);;
  kvmmap kpgtbl PLIC PLIC 0x400000 (Z.lor PTE_R PTE_W);;
  kvmmap kpgtbl KERNBASE KERNBASE (etext - KERNBASE) (Z.lor PTE_R PTE_X);;
  kvmmap kpgtbl etext etext (PHYSTOP - etext) (Z.lor PTE_R PTE_W);;
  kvmmap kpgtbl TRAMPOLINE trampoline PGSIZE (Z.lor PTE_R PTE_X);;
  proc_mapstacks kpgtbl;;
  mret kpgtbl.

(** [kernel_pagetable = kvmmake()]: the result is the new value of the variable. *)
Definition kvminit : M kstate Z := kvmmake.

Definition kvminithart (kernel_pagetable : Z) (h : hart) : hart := set_csr satp (MAKE_SATP kernel_pagetable) h.
End Kvm.

(** ** The kernel's page table maps what it should *)

Section KvmSpec.
Context `{KernelImage}.

(** ** How many pages [mappages] takes for its tables *)

(** The addresses that share a table of leaves. *)
Definition MEGA : Z := 2 ^ 21.

Lemma va_path_mega va va' : va / MEGA = va' / MEGA -> va_path va = va_path va'.
Proof.
  intros E. unfold va_path. rewrite !PX_spec by lia. unfold PXSHIFT, PGSHIFT, MEGA in *.
  change (2 ^ (12 + 9 * 2)) with (2 ^ 21 * 2 ^ 9). change (2 ^ (12 + 9 * 1)) with (2 ^ 21). rewrite <-!Z.div_div by lia. by rewrite E.
Qed.

Lemma walk_present root va t s :
  va < MAXVA -> table_at (mem s) root (va_path va) = Some t -> walk root va true s = Done (t + 8 * PX 0 va) s.
Proof.
  intros Hva. unfold walk. destruct (Z.leb_spec MAXVA va); [lia|].
  cbn [walk_levels]. change (Z.of_nat 2) with 2. change (Z.of_nat 1) with 1.
  unfold va_path, mbind, M_bind, read64, gets. cbn [table_at]. unfold next_table.
  destruct (has_flag (load64 (mem s) (root + 8 * PX 2 va)) PTE_V); [|done].
  destruct (has_flag _ PTE_V); [|done]. by intros [= <-].
Qed.

(** What mapping the page of [a] takes. *)
Definition need (m : memory) (root a : Z) : nat := match table_at m root (va_path a) with Some _ => 0 | None => 2 end.

Lemma map_entry_fits {A} root a pa perm (fail k : M kstate A) s L :
  vm_inv s root L -> 0 <= a < MAXVA -> 0 <= pa < 2 ^ 56 -> flags_ok perm ->
  has_flag (leaf (mem s) root a) PTE_V = false -> (need (mem s) root a <= length L)%nat ->
  exists s' L', vm_evolve root s L s' L' /\ (length L <= length L' + need (mem s) root a)%nat /\
    map_entry root a pa perm fail k s = k s' /\ mapped (mem s) (mem s') root a 1 pa perm /\
    need (mem s') root a = 0%nat.
Proof.
  intros Hinv Ha Hpa Hperm Hnv Hlen.
  assert (Hn : forall m', mapped (mem s) m' root a 1 pa perm -> need m' root a = 0%nat).
  { intros m' Hm. specialize (Hm a Ha). cbn -[map_pte] in Hm. rewrite decide_True in Hm by lia. unfold need. unfold leaf in Hm.
    destruct (table_at m' root (va_path a)); [done|]. exfalso. pose proof (map_pte_V (pa + (a / PGSIZE - a / PGSIZE) * PGSIZE) perm) as Hv. by rewrite <-Hm in Hv. }
  unfold need in Hlen |- * at 1. destruct (table_at (mem s) root (va_path a)) as [t|] eqn:Et.
  - set (s' := set_mem (fun m => store64 m (t + 8 * PX 0 a) (map_pte pa perm)) s).
    pose proof (vm_wf _ _ _ Hinv) as Hwf.
    assert (Hm : mapped (mem s) (mem s') root a 1 pa perm).
    { intros va Hva. cbn -[map_pte]. pose proof (map_pte_range pa perm Hpa Hperm). case_decide as Hd.
      - rewrite (leaf_page _ _ va a) by lia. replace (va / PGSIZE - a / PGSIZE) with 0 by lia. rewrite Z.mul_0_l, Z.add_0_r. by apply leaf_store_leaf_eq.
      - apply leaf_store_leaf_ne; [done..|lia]. }
    exists s', L. split; [by apply store_leaf_evolve|]. split; [lia|]. split; [|split; [done|by apply Hn]].
    unfold map_entry. mstep (walk_present root a t s (proj2 Ha) Et).
    destruct (Z.eqb_spec (t + 8 * PX 0 a) 0) as [Ez|_]; [by apply (table_entry_nonzero (mem s) root) in Ez|].
    assert (Elf : leaf (mem s) root a = load64 (mem s) (t + 8 * PX 0 a)) by (unfold leaf; by rewrite Et).
    by rewrite bind_read64, <-Elf, Hnv, bind_write64.
  - destruct (map_entry_done root a pa perm fail k s L) as (s' & L' & Hev & Hu & [(_ & Hl & _)|[E Hm]]); [done..|lia|].
    exists s', L'. split; [done|]. split; [lia|]. split; [done|]. split; [done|]. by apply Hn.
Qed.

(** The tables for the pages from [a] to [last]. *)
Definition regions (a last : Z) : nat := Z.to_nat (last / MEGA - a / MEGA + 1).

Lemma regions_step a last :
  a mod PGSIZE = 0 -> a + PGSIZE <= last ->
  (regions (a + PGSIZE) last + (if decide ((a + PGSIZE) / MEGA = a / MEGA)%Z then 0 else 1) = regions a last)%nat /\ (1 <= regions (a + PGSIZE) last)%nat.
Proof.
  intros Ha Hl. unfold regions.
  assert (H1 : (a + PGSIZE) / MEGA <= last / MEGA) by (unfold MEGA; apply Z.div_le_mono; lia).
  assert (H2 : (a + PGSIZE) / MEGA = a / MEGA \/ (a + PGSIZE) / MEGA = a / MEGA + 1) by (clear -Ha; unfold MEGA, PGSIZE in *; lia).
  generalize dependent ((a + PGSIZE) / MEGA). intros x H1 H2. generalize dependent (last / MEGA). intros y H1. case_decide; lia.
Qed.

Lemma mappages_loop_fits n root a pa perm s L :
  vm_inv s root L -> a mod PGSIZE = 0 -> 0 <= a -> a + (Z.of_nat n + 1) * PGSIZE <= MAXVA ->
  0 <= pa -> pa + (Z.of_nat n + 1) * PGSIZE <= 2 ^ 56 -> flags_ok perm ->
  (forall k, 0 <= k <= Z.of_nat n -> has_flag (leaf (mem s) root (a + k * PGSIZE)) PTE_V = false) ->
  (need (mem s) root a + 2 * regions a (a + Z.of_nat n * PGSIZE) <= length L + 2)%nat ->
  exists s' L', mappages_loop (S n) root a (a + Z.of_nat n * PGSIZE) pa perm s = Done 0 s' /\
    vm_evolve root s L s' L' /\ (length L + 2 <= length L' + need (mem s) root a + 2 * regions a (a + Z.of_nat n * PGSIZE))%nat /\
    mapped (mem s) (mem s') root a (Z.of_nat n + 1) pa perm.
Proof.
  assert (HM : MAXVA = 2 ^ 38) by done.
  revert a pa s L. induction n as [|n IH]; intros a pa s L Hinv Hal Ha0 Ha Hpa0 Hpa Hperm Hfree Hlen.
  - assert (Hreg : regions a (a + Z.of_nat 0 * PGSIZE) = 1%nat) by (unfold regions; rewrite Z.mul_0_l, Z.add_0_r; lia). rewrite Hreg in *.
    destruct (map_entry_fits root a pa perm (mret (-1))
      (if a =? a + Z.of_nat 0 * PGSIZE then mret 0
       else mappages_loop 0 root (u64 (a + PGSIZE)) (a + Z.of_nat 0 * PGSIZE) (u64 (pa + PGSIZE)) perm) s L) as (s' & L' & Hev & Hu & E & Hm & _);
      [done|unfold PGSIZE in *; lia..|done| |lia|].
    { rewrite <-(Hfree 0) by lia. do 2 f_equal. lia. }
    exists s', L'. split; [|split; [done|split; [lia|done]]].
    etransitivity; [exact E|]. destruct (Z.eqb_spec a (a + Z.of_nat 0 * PGSIZE)); [done|lia].
  - assert (Hreg : (regions (a + PGSIZE) (a + PGSIZE + Z.of_nat n * PGSIZE) + (if decide ((a + PGSIZE) / MEGA = a / MEGA)%Z then 0 else 1) =
      regions a (a + Z.of_nat (S n) * PGSIZE))%nat /\ (1 <= regions (a + PGSIZE) (a + PGSIZE + Z.of_nat n * PGSIZE))%nat).
    { replace (a + Z.of_nat (S n) * PGSIZE) with (a + PGSIZE + Z.of_nat n * PGSIZE) by lia. apply regions_step; [done|unfold PGSIZE; lia]. }
    destruct Hreg as [Hreg Hreg1].
    destruct (map_entry_fits root a pa perm (mret (-1))
      (if a =? a + Z.of_nat (S n) * PGSIZE then mret 0
       else mappages_loop (S n) root (u64 (a + PGSIZE)) (a + Z.of_nat (S n) * PGSIZE) (u64 (pa + PGSIZE)) perm) s L) as (s1 & L1 & Hev & Hu & E & Hm & Hn);
      [done|unfold PGSIZE in *; lia..|done| |lia|].
    { rewrite <-(Hfree 0) by lia. do 2 f_equal. lia. }
    assert (Hn1 : (need (mem s1) root (a + PGSIZE) <= if decide ((a + PGSIZE) / MEGA = a / MEGA)%Z then 0 else 2)%nat).
    { case_decide as Hd; [|unfold need; destruct (table_at _ _ _); lia]. unfold need in *. by rewrite (va_path_mega _ _ Hd), Hn. }
    destruct (IH (a + PGSIZE) (pa + PGSIZE) s1 L1) as (s2 & L2 & E2 & Hev2 & Hu2 & Hm2);
      [apply Hev|unfold PGSIZE in *; lia..|done| |case_decide; lia|].
    { intros k Hk. rewrite (Hm (a + PGSIZE + k * PGSIZE)) by (unfold PGSIZE in *; lia). cbn -[map_pte].
      rewrite decide_False by (unfold PGSIZE in *; lia).
      rewrite <-(Hfree (k + 1)) by lia. do 2 f_equal. lia. }
    exists s2, L2. split; [|split; [by eapply vm_evolve_trans|split; [case_decide; lia|]]].
    + etransitivity; [exact E|]. destruct (Z.eqb_spec a (a + Z.of_nat (S n) * PGSIZE)); [unfold PGSIZE in *; lia|].
      rewrite (u64_small (a + PGSIZE)), (u64_small (pa + PGSIZE)) by (unfold PGSIZE in *; lia).
      replace (a + Z.of_nat (S n) * PGSIZE) with (a + PGSIZE + Z.of_nat n * PGSIZE) by lia. exact E2.
    + replace (Z.of_nat (S n) + 1) with (Z.of_nat n + 1 + 1) by lia. eapply mapped_step; [done|lia|done|done].
Qed.

(** ** An empty table *)

Lemma zero_table m r i : page_zero m r -> index i -> next_table m r i = None.
Proof.
  intros Hz Hi. apply next_table_zero. unfold load64. rewrite (load_le_ext (∅ : memory)); [reflexivity|].
  intros b Hb. rewrite Hz; [reflexivity|]. apply (entry_in_page r i); [done|]. exact Hb.
Qed.

Lemma zero_root m r p t : page_zero m r -> path_ok p -> table_at m r p = Some t -> p = [] /\ t = r.
Proof.
  intros Hz [_ Hp]. destruct p as [|i p]; [intros [= <-]; done|]. apply list.Forall_cons in Hp as [Hi _]. cbn. by rewrite zero_table.
Qed.

(** Pages that are not in [L] keep their bytes. *)
Definition spares (L : list Z) (m m' : memory) : Prop := forall p, p mod PGSIZE = 0 -> p ∉ L -> mem_eq_on (in_page p) m m'.

Lemma fresh_root s r L :
  kinv s (r :: L) ->
  exists s1, kalloc s = Done r s1 /\ let s' := set_mem (fun m => memset m r 0 (Z.to_nat PGSIZE)) s1 in
    vm_inv s' r L /\ (forall va, leaf (mem s') r va = 0) /\ (forall t, is_table (mem s') r t -> t = r) /\ r <> 0 /\ spares (r :: L) (mem s) (mem s').
Proof.
  intros Hk. destruct (kalloc_done _ _ _ Hk) as (s1 & E & Hk1 & H0 & Hr & Hv & Hf1). exists s1. split; [done|]. cbv zeta.
  assert (Hz : page_zero (memset (mem s1) r 0 (Z.to_nat PGSIZE)) r).
  { intros a Ha. rewrite mget_memset, decide_True; [done|]. unfold in_page, PGSIZE in *. lia. }
  assert (Hf2 : mem_eq_on (outside r) (mem s1) (memset (mem s1) r 0 (Z.to_nat PGSIZE))) by (apply memset_frame; unfold outside, in_page, PGSIZE; lia).
  unfold set_mem. generalize dependent (memset (mem s1) r 0 (Z.to_nat PGSIZE)). intros m' Hz Hf2.
  assert (Ht : forall t, is_table m' r t -> t = r) by (intros t (p & Hp & Ht); apply (zero_root _ _ _ _ Hz Hp Ht)).
  split; [split|split; [|split; [exact Ht|split; [exact H0|]]]]; cbn [mem].
  - apply kinv_outside with s1 r; done || apply Hv.
  - split.
    + intros p t Hp E1. destruct (zero_root _ _ _ _ Hz Hp E1) as [_ ->]. done.
    + intros p q t Hp Hq Ep Eq. destruct (zero_root _ _ _ _ Hz Hp Ep) as [-> _]. by destruct (zero_root _ _ _ _ Hz Hq Eq) as [-> _].
  - intros t E1. by rewrite (Ht t E1).
  - intros va. unfold leaf. destruct (table_at _ r (va_path va)) eqn:Et; [|done]. by destruct (zero_root _ _ _ _ Hz (va_path_ok va) Et).
  - intros p Hp Hn a Ha. assert (Ho : outside r a).
    { intros Hra. apply Hn. rewrite (pages_disjoint p r a Hp (proj1 Hv) Ha Hra). apply elem_of_cons. by left. }
    rewrite (Hf2 a Ho). exact (Hf1 a Ho).
Qed.

(** ** Mapping into a known table *)

(** The PTEs of the table at [root]. *)
Definition ptes (s : kstate) (root : Z) (F : Z -> Z) : Prop := forall va, 0 <= va < MAXVA -> leaf (mem s) root va = F va.

Definition overlay (a n pa perm : Z) (F : Z -> Z) (va : Z) : Z :=
  let k := va / PGSIZE - a / PGSIZE in if decide (0 <= k < n) then map_pte (pa + k * PGSIZE) perm else F va.

Lemma kvmmap_fits root va pa n perm s L F :
  vm_inv s root L -> ptes s root F -> va mod PGSIZE = 0 -> 0 <= va -> 0 < n -> va + n * PGSIZE <= MAXVA -> 0 <= pa -> pa + n * PGSIZE <= 2 ^ 56 -> flags_ok perm ->
  (forall va', 0 <= va' < MAXVA -> 0 <= va' / PGSIZE - va / PGSIZE < n -> F va' = 0) ->
  (2 * regions va (va + (n - 1) * PGSIZE) <= length L)%nat ->
  exists s' L', kvmmap root va pa (n * PGSIZE) perm s = Done tt s' /\ vm_evolve root s L s' L' /\
    (length L <= length L' + 2 * regions va (va + (n - 1) * PGSIZE))%nat /\ ptes s' root (overlay va n pa perm F).
Proof.
  intros Hi HF Hal H0 Hn Hmax Hp0 Hp Hperm Hfree Hlen. assert (HM : MAXVA = 2 ^ 38) by done.
  set (j := Z.to_nat (n - 1)). assert (Hj : n = Z.of_nat j + 1) by lia. rewrite Hj in *. clearbody j. clear Hj n.
  replace (Z.of_nat j + 1 - 1) with (Z.of_nat j) in * by lia.
  assert (Hnd : (need (mem s) root va <= 2)%nat) by (unfold need; destruct (table_at _ _ _); lia).
  destruct (mappages_loop_fits j root va pa perm s L) as (s' & L' & E & Hev & Hu & Hm); [done..| |lia|].
  { intros k Hk. rewrite HF by (unfold PGSIZE in *; lia). rewrite Hfree; [done|unfold PGSIZE in *; lia..]. }
  exists s', L'. split; [|split; [done|split; [lia|]]].
  - unfold kvmmap. refine (bind_done _ (fun r => if negb (r =? 0) then panic _ else mret tt) _ 0 s' _). unfold mappages.
    destruct (Z.eqb_spec ((Z.of_nat j + 1) * PGSIZE) 0) as [?|_]; [unfold PGSIZE in *; lia|].
    rewrite (u64_small (va + (Z.of_nat j + 1) * PGSIZE - 1)), !PGROUNDDOWN_spec by (unfold PGSIZE in *; lia).
    replace ((va + (Z.of_nat j + 1) * PGSIZE - 1) / PGSIZE * PGSIZE) with (va + Z.of_nat j * PGSIZE) by (clear -Hal; unfold PGSIZE in *; lia).
    replace (va / PGSIZE * PGSIZE) with va by (clear -Hal; unfold PGSIZE in *; lia).
    destruct (Z.leb_spec va (va + Z.of_nat j * PGSIZE)) as [_|]; [|unfold PGSIZE in *; lia].
    rewrite Z.add_simpl_l, Z.div_mul, Nat2Z.id by done. exact E.
  - intros va' Hva'. rewrite (Hm va' Hva'). cbn -[map_pte]. unfold overlay. case_decide; [done|]. by apply HF.
Qed.
End KvmSpec.

(** ** [kvmmake] builds the kernel's address space *)

Section KvmProps.
Context `{KernelImage}.

(** ** Kernel stacks *)

Lemma kalloc_vm root s r L :
  vm_inv s root (r :: L) ->
  exists s1, kalloc s = Done r s1 /\ r <> 0 /\ vm_inv s1 root L /\ (forall va, leaf (mem s1) root va = leaf (mem s) root va) /\
    (forall t, is_table (mem s1) root t <-> is_table (mem s) root t) /\ ~ is_table (mem s) root r /\ (r ∉ L) /\ valid_page r.
Proof.
  intros [Hk Hwf Hnf]. destruct (kalloc_done _ _ _ Hk) as (s1 & E & Hk1 & H0 & Hr & Hv & Hf). exists s1.
  assert (Hrt : ~ is_table (mem s) root r) by (intros Ht; apply (Hnf r Ht), elem_of_cons; by left).
  assert (Htab : forall t, is_table (mem s) root t -> mem_eq_on (in_page t) (mem s) (mem s1)).
  { intros t Ht. apply mem_eq_on_sub with (outside r); [done|]. intros a Ha Hra. apply Hrt.
    replace r with t; [done|]. apply (pages_disjoint t r a); [apply (is_table_valid _ _ _ Hwf Ht)|apply Hv|done|done]. }
  assert (Hiff : forall t, is_table (mem s1) root t <-> is_table (mem s) root t) by (intros t; by apply is_table_frame).
  split; [done|]. split; [done|]. split; [|split; [intros va; by apply leaf_frame|done]].
  split; [done|by apply pt_wf_frame with (mem s)|]. intros t Ht%Hiff Hin. apply (Hnf t Ht), elem_of_cons. by right.
Qed.

Abbreviation RW := (Z.lor PTE_R PTE_W).
Abbreviation RX := (Z.lor PTE_R PTE_X).

(** The PTEs after mapping the stacks of the processes from [p] on. *)
Fixpoint with_stacks (p : Z) (pas : list Z) (F : Z -> Z) : Z -> Z :=
  match pas with
  | [] => F
  | pa :: pas => with_stacks (p + 1) pas (overlay (KSTACK p) 1 pa RW F)
  end.

Lemma KSTACK_page p : 0 <= p < 64 -> KSTACK p mod PGSIZE = 0 /\ KSTACK p / PGSIZE = 2 ^ 26 - 3 - 2 * p.
Proof. intros Hp. unfold KSTACK, TRAMPOLINE, PGSIZE. change MAXVA with (2 ^ 38). lia. Qed.

Lemma stacks_fit root rem : forall p s L F,
  vm_inv s root L -> ptes s root F -> 0 <= p -> p + Z.of_nat rem <= 64 -> (3 * rem <= length L)%nat ->
  (forall va, 2 ^ 26 - 131 < va / PGSIZE -> va / PGSIZE <= 2 ^ 26 - 3 - 2 * p -> F va = 0) ->
  exists pas s' L', proc_mapstacks_loop rem root p s = Done tt s' /\ vm_inv s' root L' /\ (forall x, x ∈ L' -> x ∈ L) /\ (length L <= length L' + 3 * rem)%nat /\
    length pas = rem /\ NoDup pas /\ (forall x, x ∈ pas -> x ∈ L /\ (x ∉ L') /\ ~ is_table (mem s') root x /\ valid_page x) /\
    (forall t, is_table (mem s') root t -> is_table (mem s) root t \/ t ∈ L) /\ ptes s' root (with_stacks p pas F).
Proof.
  induction rem as [|rem IH]; intros p s L F Hi HF Hp Hr Hlen Hfree.
  - exists [], s, L. do 3 (split; [done|]). split; [lia|]. split; [done|]. split; [constructor|]. split; [intros x Hx; by apply elem_of_nil in Hx|]. split; [by left|done].
  - destruct L as [|r L]; [cbn in Hlen; lia|]. cbn [length] in Hlen.
    destruct (kalloc_vm root s r L Hi) as (s1 & E & H0 & Hi1 & Hl1 & Ht1 & Hnt & HrL & Hv).
    destruct (KSTACK_page p) as [Ka Kp]; [lia|]. pose proof (valid_page_bounds r Hv) as Hb. unfold KERNBASE, PHYSTOP in Hb.
    assert (HM : MAXVA = 2 ^ 38) by done.
    assert (Hreg : regions (KSTACK p) (KSTACK p + (1 - 1) * PGSIZE) = 1%nat) by (unfold regions; rewrite Z.sub_diag, Z.mul_0_l, Z.add_0_r; lia).
    assert (HK : 0 <= KSTACK p /\ KSTACK p + PGSIZE <= MAXVA) by (clear -Ka Kp Hp Hr HM; unfold PGSIZE in *; lia).
    destruct (kvmmap_fits root (KSTACK p) r 1 RW s1 L F) as (s2 & L2 & E2 & Hev & Hu & HF2);
      [done| |done|lia|lia|lia|lia|unfold PGSIZE, KERNBASE, PHYSTOP in *; lia|auto with pte| |rewrite Hreg; lia|].
    { intros va Hva. rewrite Hl1. by apply HF. }
    { intros va' _ Hk. apply Hfree; lia. }
    rewrite Hreg in Hu. destruct (ve_free _ _ _ _ _ Hev) as [used EL].
    destruct (IH (p + 1) s2 L2 (overlay (KSTACK p) 1 r RW F)) as (pas & s' & L' & E3 & Hi3 & Hsub & Hln & Hn & Hnd & Hpas & Htab & HF3); [apply Hev|done|lia|lia|lia| |].
    { intros va Hlo Hhi. unfold overlay. rewrite decide_False by lia. apply Hfree; lia. }
    assert (HrL2 : r ∉ L2) by (intros Hx; apply HrL; rewrite EL; apply elem_of_app; by right).
    exists (r :: pas), s', L'. split; [|split; [done|split; [|split; [cbn [length]; lia|split; [cbn; lia|split; [|split; [|split]]]]]]].
    + cbn [proc_mapstacks_loop]. mstep E. destruct (Z.eqb_spec r 0) as [|_]; [done|]. mstep E2. exact E3.
    + intros x Hx. apply elem_of_cons. right. rewrite EL. apply elem_of_app. right. by apply Hsub.
    + apply list.NoDup_cons. split; [|done]. intros Hx. by apply Hpas in Hx as (Hx & _).
    + intros x Hx. apply elem_of_cons in Hx as [->|Hx].
      * split; [apply elem_of_cons; by left|]. split; [intros Hx; by apply HrL2, Hsub|]. split; [|done]. intros [Ht|Ht]%Htab; [|done].
        apply (ve_tables _ _ _ _ _ Hev) in Ht as [Ht|Ht]; [|done]. by apply Ht1 in Ht.
      * apply Hpas in Hx as (H1 & H2 & H3). split; [|done]. apply elem_of_cons. right. rewrite EL. apply elem_of_app. by right.
    + intros t [Ht|Ht]%Htab.
      * apply (ve_tables _ _ _ _ _ Hev) in Ht as [Ht|Ht]; [left; by apply Ht1|right; apply elem_of_cons; by right].
      * right. apply elem_of_cons. right. rewrite EL. apply elem_of_app. by right.
    + exact HF3.
Qed.

Lemma with_stacks_other pas : forall p F va, (forall i, (i < length pas)%nat -> va / PGSIZE <> KSTACK (p + Z.of_nat i) / PGSIZE) -> with_stacks p pas F va = F va.
Proof.
  induction pas as [|pa pas IH]; intros p F va Hne; [done|]. cbn [with_stacks]. rewrite IH.
  - unfold overlay. rewrite decide_False; [done|]. specialize (Hne 0%nat ltac:(cbn; lia)). rewrite Z.add_0_r in Hne. lia.
  - intros i Hi. specialize (Hne (S i) ltac:(cbn; lia)). by replace (p + 1 + Z.of_nat i) with (p + Z.of_nat (S i)) by lia.
Qed.

Lemma with_stacks_at pas : forall p F va i pa, 0 <= p -> p + Z.of_nat (length pas) <= 64 -> pas !! i = Some pa -> va / PGSIZE = KSTACK (p + Z.of_nat i) / PGSIZE -> with_stacks p pas F va = map_pte pa RW.
Proof.
  induction pas as [|x pas IH]; intros p F va i pa Hp Hl Hi Hva; [done|]. cbn [with_stacks length] in *. destruct i as [|i]; cbn in Hi.
  - injection Hi as ->. rewrite Z.add_0_r in Hva. rewrite with_stacks_other.
    + unfold overlay. rewrite decide_True by lia. replace (va / PGSIZE - KSTACK p / PGSIZE) with 0 by lia. by rewrite Z.mul_0_l, Z.add_0_r.
    + intros j Hj. rewrite Hva. rewrite (proj2 (KSTACK_page p ltac:(lia))), (proj2 (KSTACK_page (p + 1 + Z.of_nat j) ltac:(lia))). lia.
  - apply (IH (p + 1) _ _ i); [lia|lia|done|]. by replace (p + 1 + Z.of_nat i) with (p + Z.of_nat (S i)) by lia.
Qed.

(** ** The address space *)

(** The PTE of [va], for the page at [a]: the devices and the memory at their own addresses,
    the code not writable and the rest not executable, the trampoline at the top, below it the
    stacks with an unmapped page under each. *)
Definition kernel_pte (stacks : list Z) (va : Z) : Z :=
  let a := va / PGSIZE * PGSIZE in
  let k := (TRAMPOLINE - a) / PGSIZE in
  if decide (a = UART0 \/ a = VIRTIO0 \/ PLIC <= a < PLIC + 0x400000) then map_pte a RW
  else if decide (KERNBASE <= a < etext) then map_pte a RX
  else if decide (etext <= a < PHYSTOP) then map_pte a RW
  else if decide (k = 0) then map_pte trampoline RX
  else if decide (2 <= k <= 128 /\ k mod 2 = 0) then map_pte (stacks !!! Z.to_nat (k / 2 - 1)) RW
  else 0.

Definition text_pages : Z := (etext - KERNBASE) / PGSIZE.
Definition data_pages : Z := (PHYSTOP - etext) / PGSIZE.

Definition fixed_ptes : Z -> Z :=
  overlay TRAMPOLINE 1 trampoline RX (overlay etext data_pages etext RW (overlay KERNBASE text_pages KERNBASE RX
    (overlay PLIC 1024 PLIC RW (overlay VIRTIO0 1 VIRTIO0 RW (overlay UART0 1 UART0 RW (fun _ => 0)))))).

Lemma fixed_ptes_eq va : 0 <= va < MAXVA ->
  fixed_ptes va = let a := va / PGSIZE * PGSIZE in
    if decide (a = UART0 \/ a = VIRTIO0 \/ PLIC <= a < PLIC + 0x400000) then map_pte a RW
    else if decide (KERNBASE <= a < etext) then map_pte a RX
    else if decide (etext <= a < PHYSTOP) then map_pte a RW
    else if decide ((TRAMPOLINE - a) / PGSIZE = 0) then map_pte trampoline RX else 0.
Proof.
  intros Hva. cbv zeta. pose proof etext_range as He. pose proof etext_aligned as Ha. pose proof kend_range as Hk. unfold fixed_ptes, overlay, text_pages, data_pages.
  change UART0 with (0x10000 * 4096). change VIRTIO0 with (0x10001 * 4096). change PLIC with (0xc000 * 4096). change TRAMPOLINE with ((2 ^ 26 - 1) * 4096).
  change MAXVA with (2 ^ 26 * 4096) in *. change PHYSTOP with (0x88000 * 4096) in *. change KERNBASE with (0x80000 * 4096) in *. change PGSIZE with 4096 in *.
  set (v := va / 4096) in *. assert (0 <= v < 2 ^ 26) by (unfold v; lia). clearbody v.
  set (e := etext / 4096) in *. assert (Ee : etext = e * 4096) by (unfold e; lia). clearbody e. rewrite Ee in *. rewrite !Z.div_mul by lia.
  rewrite <-!Z.mul_sub_distr_r, !Z.div_mul by lia.
  repeat case_decide; try lia; f_equal; lia.
Qed.

Lemma kernel_pte_eq stacks va : 0 <= va < MAXVA -> length stacks = 64%nat -> with_stacks 0 stacks fixed_ptes va = kernel_pte stacks va.
Proof.
  intros Hva Hl. unfold kernel_pte. set (k := (TRAMPOLINE - va / PGSIZE * PGSIZE) / PGSIZE).
  assert (Ek : k = 2 ^ 26 - 1 - va / PGSIZE).
  { unfold k. change TRAMPOLINE with ((2 ^ 26 - 1) * PGSIZE). rewrite <-Z.mul_sub_distr_r, Z.div_mul; [done|]. unfold PGSIZE. lia. }
  assert (HM : MAXVA = 2 ^ 38) by done. pose proof etext_range as He. pose proof kend_range as Hk.
  unfold PHYSTOP, KERNBASE, UART0, VIRTIO0, PLIC in *. fold k. destruct (decide (2 <= k <= 128 /\ k mod 2 = 0)) as [Hs|Hs].
  - set (i := Z.to_nat (k / 2 - 1)). assert (Hi : (i < length stacks)%nat) by lia. destruct (lookup_lt_is_Some_2 _ _ Hi) as [pa Hpa].
    rewrite (with_stacks_at stacks 0 _ va i pa); [|lia|lia|done|].
    + rewrite !decide_False by (unfold PGSIZE in *; lia). by rewrite (list_lookup_total_correct _ _ _ Hpa).
    + rewrite Z.add_0_l, (proj2 (KSTACK_page (Z.of_nat i) ltac:(lia))). lia.
  - rewrite with_stacks_other.
    + rewrite fixed_ptes_eq by done. cbv zeta. fold k. done.
    + intros i Hi. rewrite Z.add_0_l, (proj2 (KSTACK_page (Z.of_nat i) ltac:(lia))). lia.
Qed.

(** The table at [root] holds [F], and [c] of the pages of [L0] are still free. *)
Definition ready (root : Z) (L0 : list Z) (s : kstate) (F : Z -> Z) (c : nat) : Prop :=
  exists L, vm_inv s root L /\ ptes s root F /\ (c <= length L)%nat /\ (forall x, x ∈ L -> x ∈ L0).

Lemma kvm_next {A} root L0 va pa n perm sz c r F s (k : M kstate A) :
  ready root L0 s F c -> sz = n * PGSIZE -> va mod PGSIZE = 0 -> 0 <= va -> 0 < n -> va + n * PGSIZE <= MAXVA -> 0 <= pa -> pa + n * PGSIZE <= 2 ^ 56 -> flags_ok perm ->
  (forall va', 0 <= va' / PGSIZE - va / PGSIZE < n -> F va' = 0) -> regions va (va + (n - 1) * PGSIZE) = r -> (2 * r <= c)%nat ->
  exists s', (kvmmap root va pa sz perm;; k) s = k s' /\ ready root L0 s' (overlay va n pa perm F) (c - 2 * r).
Proof.
  intros (L & Hi & HF & Hc & Hsub) -> H1 H2 H3 H4 H5 H6 H7 H8 <- H9.
  destruct (kvmmap_fits root va pa n perm s L F) as (s' & L' & E & Hev & Hu & HF'); [done..|intros va' _; apply H8|lia|].
  exists s'. split; [mstep E; reflexivity|]. exists L'. split; [apply Hev|]. split; [done|]. split; [lia|].
  intros x Hx. apply Hsub. destruct (ve_free _ _ _ _ _ Hev) as [used ->]. apply elem_of_app. by right.
Qed.

(** The kernel image in pages. *)
Record image (t d : Z) : Prop := {
  im_text : etext - KERNBASE = t * PGSIZE;
  im_data : PHYSTOP - etext = d * PGSIZE;
  im_page : etext / PGSIZE = 0x80000 + t;
  im_bounds : 0 < t /\ 0 < d /\ t + d = 0x8000;
}.

Lemma image_ok root : valid_page root -> image text_pages data_pages.
Proof.
  intros [_ Hr]. pose proof etext_range as He. pose proof etext_aligned as Ha. unfold text_pages, data_pages. unfold PHYSTOP, KERNBASE, PGSIZE in *. split; unfold PHYSTOP, KERNBASE, PGSIZE; lia.
Qed.

Lemma image_regions t d : image t d ->
  (regions KERNBASE (KERNBASE + (t - 1) * PGSIZE) <= 64)%nat /\
  (regions KERNBASE (KERNBASE + (t - 1) * PGSIZE) + regions etext (etext + (d - 1) * PGSIZE) <= 65)%nat.
Proof.
  intros [E1 E2 E3 E4]. unfold regions. replace (etext + (d - 1) * PGSIZE) with (PHYSTOP - PGSIZE) by lia.
  replace etext with (KERNBASE + t * PGSIZE) by lia. clear -E4. unfold PHYSTOP, KERNBASE, MEGA, PGSIZE in *. lia.
Qed.

Lemma overlay_off a n pa perm F va v w : va / PGSIZE = v -> a / PGSIZE = w -> v < w \/ w + n <= v -> overlay a n pa perm F va = F va.
Proof. intros <- <- Hne. unfold overlay. rewrite decide_False by lia. done. Qed.

Lemma device_pages :
  UART0 / PGSIZE = 0x10000 /\ VIRTIO0 / PGSIZE = 0x10001 /\ PLIC / PGSIZE = 0xc000 /\ KERNBASE / PGSIZE = 0x80000 /\ TRAMPOLINE / PGSIZE = 2 ^ 26 - 1.
Proof. done. Qed.

(** No PTE is set yet in the pages of a range that starts at page [P]; [E] bounds the image. *)
Ltac unset P E :=
  let va := fresh "va" in let Hva := fresh "Hva" in
  intros va Hva; rewrite P in Hva;
  repeat (erewrite overlay_off; [|reflexivity|eassumption|revert Hva; generalize (va / PGSIZE); clear -E; intros; lia]); reflexivity.

Lemma kvmmake_fixed {A} root L0 s (k : M kstate A) t d e :
  image t d -> ready root L0 s (fun _ => 0) (332 + e) ->
  exists s', (kvmmap root UART0 UART0 PGSIZE RW;; kvmmap root VIRTIO0 VIRTIO0 PGSIZE RW;; kvmmap root PLIC PLIC 0x400000 RW;;
      kvmmap root KERNBASE KERNBASE (etext - KERNBASE) RX;; kvmmap root etext etext (PHYSTOP - etext) RW;;
      kvmmap root TRAMPOLINE trampoline PGSIZE RX;; k) s = k s' /\
    ready root L0 s' (overlay TRAMPOLINE 1 trampoline RX (overlay etext d etext RW (overlay KERNBASE t KERNBASE RX
      (overlay PLIC 1024 PLIC RW (overlay VIRTIO0 1 VIRTIO0 RW (overlay UART0 1 UART0 RW (fun _ => 0))))))) (192 + e).
Proof.
  intros Him H0. destruct (image_regions t d Him) as [R1 R2]. destruct Him as [E1 E2 E3 (E4 & E5 & E6)].
  assert (HM : MAXVA = 2 ^ 38) by done. pose proof etext_aligned as Hal. pose proof trampoline_range as Htr. pose proof etext_range as He. pose proof kend_range as Hke.
  destruct device_pages as (P1 & P2 & P3 & P4 & P5).
  assert (Hke' : 0x80000000 < etext <= 0x88000000 /\ 0x80000000 <= trampoline < 0x88000000) by (clear -He Hke Htr; unfold PHYSTOP, KERNBASE in *; lia).
  clear Hke Htr He. pose proof (conj E4 (conj E5 E6)) as E456.
  destruct (kvm_next root L0 UART0 UART0 1 RW PGSIZE _ 1 _ s (kvmmap root VIRTIO0 VIRTIO0 PGSIZE RW;; kvmmap root PLIC PLIC 0x400000 RW;;
      kvmmap root KERNBASE KERNBASE (etext - KERNBASE) RX;; kvmmap root etext etext (PHYSTOP - etext) RW;;
      kvmmap root TRAMPOLINE trampoline PGSIZE RX;; k) H0) as (s1 & -> & H1); [done..|unset P1 E456|done|clear; lia|].
  destruct (kvm_next root L0 VIRTIO0 VIRTIO0 1 RW PGSIZE _ 1 _ s1 (kvmmap root PLIC PLIC 0x400000 RW;;
      kvmmap root KERNBASE KERNBASE (etext - KERNBASE) RX;; kvmmap root etext etext (PHYSTOP - etext) RW;;
      kvmmap root TRAMPOLINE trampoline PGSIZE RX;; k) H1) as (s2 & -> & H2); [done..|unset P2 E456|done|clear; lia|].
  destruct (kvm_next root L0 PLIC PLIC 1024 RW 0x400000 _ 2 _ s2 (kvmmap root KERNBASE KERNBASE (etext - KERNBASE) RX;; kvmmap root etext etext (PHYSTOP - etext) RW;;
      kvmmap root TRAMPOLINE trampoline PGSIZE RX;; k) H2) as (s3 & -> & H3); [done..|unset P3 E456|done|clear; lia|].
  destruct (kvm_next root L0 KERNBASE KERNBASE t RX (etext - KERNBASE) _ (regions KERNBASE (KERNBASE + (t - 1) * PGSIZE)) _ s3 (kvmmap root etext etext (PHYSTOP - etext) RW;;
      kvmmap root TRAMPOLINE trampoline PGSIZE RX;; k) H3) as (s4 & -> & H4);
    [done|done|done|done|clear -E456 HM; unfold KERNBASE, PGSIZE in *; lia|done|clear -E456; unfold KERNBASE, PGSIZE in *; lia|done|unset P4 E456|reflexivity|clear -R1 R2; lia|].
  destruct (kvm_next root L0 etext etext d RW (PHYSTOP - etext) _ (regions etext (etext + (d - 1) * PGSIZE)) _ s4 (kvmmap root TRAMPOLINE trampoline PGSIZE RX;; k) H4) as (s5 & -> & H5);
    [done|done|clear -Hke'; lia|done|rewrite <-E2; clear -HM; unfold PHYSTOP, KERNBASE in *; lia|clear -Hke'; lia|rewrite <-E2; clear; unfold PHYSTOP, KERNBASE in *; lia|done|unset E3 E456|reflexivity|clear -R1 R2; lia|].
  destruct (kvm_next root L0 TRAMPOLINE trampoline 1 RX PGSIZE _ 1 _ s5 k H5) as (s6 & -> & H6);
    [done|done|done|done|done|clear -Hke'; lia|clear -Hke'; unfold PGSIZE in *; lia|done|unset P5 E456|done|clear -R1 R2; lia|].
  exists s6. split; [done|]. destruct H6 as (L & G1 & G2 & G3 & G4). exists L. split; [done|]. split; [done|]. split; [|done]. clear -G3 R2. lia.
Qed.

Lemma kvmmake_done s L e :
  kinv s L -> (333 + e <= length L)%nat ->
  exists root s' L' stacks, kvmmake s = Done root s' /\ vm_inv s' root L' /\ (e <= length L')%nat /\ (forall x, x ∈ L' -> x ∈ L) /\ ptes s' root (kernel_pte stacks) /\
    length stacks = 64%nat /\ NoDup stacks /\ (forall x, x ∈ stacks -> x ∈ L /\ (x ∉ L') /\ ~ is_table (mem s') root x).
Proof.
  intros Hk Hlen. destruct L as [|root L]; [cbn in Hlen; lia|]. cbn [length] in Hlen.
  destruct (fresh_root s root L Hk) as (s0 & E0 & Hi & Hz & _). cbv zeta in *. set (s1 := set_mem _ s0) in *.
  assert (Hroot : valid_page root) by (apply (is_table_valid (mem s1) root); [apply Hi|apply is_table_root]).
  destruct (kvmmake_fixed root L s1 (proc_mapstacks root;; mret root) text_pages data_pages e (image_ok root Hroot)) as (s2 & E2 & L2 & Hi2 & HF2 & Hl2 & Hs2).
  { exists L. split; [done|]. split; [by intros va _|]. split; [lia|done]. }
  destruct (stacks_fit root 64 0 s2 L2 _ Hi2 HF2) as (stacks & s3 & L3 & E3 & Hi3 & Hsub & Hln & Hn & Hnd & Hst & _ & HF3); [lia|lia|lia| |].
  { intros va H1 H2. pose proof (im_bounds _ _ (image_ok root Hroot)) as Hb. pose proof (im_page _ _ (image_ok root Hroot)) as P0.
    destruct device_pages as (P1 & P2 & P3 & P4 & P5).
    repeat (erewrite overlay_off; [|reflexivity|eassumption|revert H1 H2; generalize (va / PGSIZE); clear -Hb; intros; lia]). reflexivity. }
  exists root, s3, L3, stacks. split; [|split; [exact Hi3|split; [lia|split; [|split; [|split; [exact Hn|split; [exact Hnd|]]]]]]].
  - unfold kvmmake. mstep E0. unfold memset_page. rewrite bind_modify. fold s1. rewrite E2. mstep E3. reflexivity.
  - intros x Hx. apply elem_of_cons. right. by apply Hs2, Hsub.
  - intros va Hva. rewrite (HF3 va Hva). by apply kernel_pte_eq.
  - intros x Hx. apply Hst in Hx as (H1 & H2 & H3 & _). split; [|exact (conj H2 H3)]. apply elem_of_cons. right. by apply Hs2.
Qed.

(** Kernel code reaches memory at its own address. *)
Lemma kernel_pte_memory stacks va : KERNBASE <= va < PHYSTOP ->
  has_flag (kernel_pte stacks va) PTE_V = true /\ PTE2PA (kernel_pte stacks va) = va / PGSIZE * PGSIZE.
Proof.
  intros Hva. unfold kernel_pte. set (a := va / PGSIZE * PGSIZE). pose proof etext_range as He.
  assert (Ha : KERNBASE <= a < PHYSTOP /\ a mod PGSIZE = 0) by (clear -Hva; unfold a, PHYSTOP, KERNBASE, PGSIZE in *; lia). clearbody a.
  rewrite decide_False by (clear -Ha; unfold UART0, VIRTIO0, PLIC, KERNBASE in *; lia).
  assert (Hp : forall perm, flags_ok perm -> PTE2PA (map_pte a perm) = a) by (intros perm Hf; apply map_pte_pa; [clear -Ha; unfold PHYSTOP, KERNBASE in *; lia|apply Ha|exact Hf]).
  destruct (decide (KERNBASE <= a < etext)); [split; [apply map_pte_V|apply Hp; auto with pte]|].
  rewrite decide_True by lia. split; [apply map_pte_V|apply Hp; auto with pte].
Qed.

Lemma kernel_phys h m root s' stacks va :
  vm_inv s' root m -> ptes s' root (kernel_pte stacks) -> priv h <> MMode -> KERNBASE <= va < PHYSTOP -> va mod 8 = 0 ->
  phys (kvminithart root h) (mem s') va = Some va.
Proof.
  intros Hi HF Hp Hva Hal. destruct (satp_root_make root) as [Er Es]; [apply (is_table_valid (mem s') root); [apply Hi|apply is_table_root]|].
  destruct (kernel_pte_memory stacks va Hva) as [Hv Ha]. unfold phys, kvminithart. cbn [csrs set_csr priv]. rewrite Hal. cbn [Z.eqb negb].
  rewrite decide_True by done. rewrite Es, Er. cbn [Z.eqb].
  assert (El : leaf (mem s') root va = kernel_pte stacks va) by (apply HF; clear -Hva; change MAXVA with (2 ^ 38); unfold PHYSTOP, KERNBASE in *; lia).
  rewrite El, Hv, Ha.
  replace (va / PGSIZE * PGSIZE + va mod PGSIZE) with va by (clear; unfold PGSIZE; lia). destruct (priv h); done.
Qed.
End KvmProps.

(** C14: [kvminit] builds the kernel's address space: with 333 free pages it does not panic, and
    the table it returns maps the devices and the memory at their own addresses, the code
    readable and executable, all the rest readable and writable, the trampoline at the top of
    the address space, and 64 stacks of one page each, on pages of their own, with an unmapped
    page below each; no other address is mapped.  Once [kvminithart] has loaded it, the kernel
    reaches every word of memory at its own address. *)
Theorem kernel_address_space `{KernelImage} s L :
  kinv s L -> (333 <= length L)%nat ->
  exists root s' L' stacks, kvminit s = Done root s' /\ vm_inv s' root L' /\
    (forall va, 0 <= va < MAXVA -> leaf (mem s') root va = kernel_pte stacks va) /\
    length stacks = 64%nat /\ NoDup stacks /\ (forall x, x ∈ stacks -> x ∈ L /\ (x ∉ L') /\ ~ is_table (mem s') root x) /\
    (forall h va, priv h <> MMode -> KERNBASE <= va < PHYSTOP -> va mod 8 = 0 -> phys (kvminithart root h) (mem s') va = Some va).
Proof.
  intros Hk Hl. destruct (kvmmake_done s L 0 Hk Hl) as (root & s' & L' & stacks & E & Hi & _ & _ & HF & Hn & Hd & Hx). exists root, s', L', stacks.
  split; [exact E|]. split; [exact Hi|]. split; [exact HF|]. split; [exact Hn|]. split; [exact Hd|]. split; [exact Hx|].
  intros h va. by apply (kernel_phys h L' root s' stacks).
Qed.


Lemma kernel_address_space_witness :
  exists root s' stacks, kvminit (demo 400) = Done root s' /\ length stacks = 64%nat /\ leaf (mem s') root KERNBASE = kernel_pte stacks KERNBASE.
Proof.
  destruct (kernel_address_space (demo 400) (chain_pages 8 400)) as (root & s' & L' & stacks & E & _ & HF & Hn & _).
  - apply demo_kinv. lia.
  - rewrite length_chain_pages. lia.
  - exists root, s', stacks. split; [exact E|]. split; [exact Hn|]. apply HF. split; [discriminate|reflexivity].
Defined.
