(* ===== verification/Boot.v ===== *)
(** * Booting, [kernel/entry.S], [kernel/start.c], [kernel/plic.c] and [kernel/main.c] *)

From S2P Require Import Hart HartProps Prelude Mem CString Printf Uart Riscv Kalloc Vm PageTable Pipe Block Sleeplock Bio Log Fs File Proc Exec Syscall Trap Kvm VirtioInit.

Definition NCPU : Z := 8.
Definition CLINT : Z := 0x2000000.
Definition CLINT_MTIMECMP (hartid : Z) : Z := CLINT + 0x4000 + 8 * hartid.
Definition CLINT_MTIME : Z := CLINT + 0xBFF8.

(** ** Machine mode *)

(** A hart and physical memory, in which the registers of the CLINT lie. *)
Record cpu := Cpu { c_hart : hart; c_mem : memory }.

#[export] Instance cpu_hart : HasHart cpu := {| get_hart := c_hart; put_hart h s := Cpu h (c_mem s) |}.

Definition pload (a : Z) : M cpu Z := gets (fun s => load64 (c_mem s) a).
Definition pstore (a v : Z) : M cpu unit := modify (fun s => Cpu (c_hart s) (store64 (c_mem s) a v)).

Section Start.
(** Addresses in the kernel image: [main], [timervec], the arrays [stack0] and
    [timer_scratch]. *)
Variables (main_addr timervec_addr stack0 scratch0 : Z).

Definition timerinit : M cpu unit :=
  x ← r_mhartid;
  let id := s32 x in
  let interval := 1000000 in
  now ← pload CLINT_MTIME;
  pstore (CLINT_MTIMECMP id) (u64 (now + interval));;
  let scratch := scratch0 + 40 * id in
  pstore (scratch + 24) (CLINT_MTIMECMP id);;
  pstore (scratch + 32) interval;;
  w_mscratch scratch;;
  w_mtvec timervec_addr;;
  st ← r_mstatus; w_mstatus (Z.lor st MSTATUS_MIE);;
  ie ← r_mie; w_mie (Z.lor ie MIE_MTIE).

(** The result is the address to which [mret] goes. *)
Definition start_hart : M cpu Z :=
  x ← r_mstatus;
  w_mstatus (Z.lor (clear x MSTATUS_MPP_MASK) MSTATUS_MPP_S);;
  w_mepc main_addr;;
  w_satp 0;;
  w_medeleg 0xffff;;
  w_mideleg 0xffff;;
  ie ← r_sie; w_sie (Z.lor (Z.lor (Z.lor ie SIE_SEIE) SIE_STIE) SIE_SSIE);;
  w_pmpaddr0 0x3fffffffffffff;;
  w_pmpcfg0 0xf;;
  timerinit;;
  id ← r_mhartid;
  w_tp (u64 (s32 id));;
  pc ← r_csr mepc;
  modify (fun s => put_hart (do_mret (get_hart s)) s);;
  mret pc.

(** From the reset address to [main]. *)
Definition reset (s : cpu) : option (Z * cpu) :=
  match execs (entry_code stack0) (c_hart s) (c_mem s) with
  | Some (h, m) => match start_hart (Cpu h m) with Done pc x => Some (pc, x) | _ => None end
  | None => None
  end.
End Start.

(** ** The interrupt controller: the registers that are written, with the values *)

Definition PLIC_SENABLE (hart : Z) : Z := PLIC + 0x2080 + hart * 0x100.
Definition PLIC_SPRIORITY (hart : Z) : Z := PLIC + 0x201000 + hart * 0x2000.
Definition PLIC_SCLAIM (hart : Z) : Z := PLIC + 0x201004 + hart * 0x2000.

Definition plicinit : list (Z * Z) := [(PLIC + UART0_IRQ * 4, 1); (PLIC + VIRTIO0_IRQ * 4, 1)].
Definition plicinithart (hart : Z) : list (Z * Z) :=
  [(PLIC_SENABLE hart, Z.lor (Z.shiftl 1 UART0_IRQ) (Z.shiftl 1 VIRTIO0_IRQ)); (PLIC_SPRIORITY hart, 0)].
(** The register that is read, as an [int]. *)
Definition plic_claim (reg : Z -> Z) (hart : Z) : Z := s32 (reg (PLIC_SCLAIM hart)).
Definition plic_complete (hart irq : Z) : list (Z * Z) := [(PLIC_SCLAIM hart, u32 irq)].

(** ** The console *)

(** The registers of the UART that [consoleinit] writes, and [devsw] after it: [consoleread] and
    [consolewrite], given as [rd] and [wr], are the functions of device [CONSOLE]. *)
Definition consoleinit (rd : Z -> Kn (Z * list Z)) (wr : Z -> Kn Z) (devsw : Devices) : list (Z * Z) * Devices :=
  (uartinit, {| dev_read := fun m => if m =? 1 then Some rd else dev_read m; dev_write := fun m => if m =? 1 then Some wr else dev_write m |}).

(** [states[p->state]] *)
Definition state_name (st : procstate) : list Z :=
  match st with
  | UNUSED => [117; 110; 117; 115; 101; 100]
  | USED => [117; 115; 101; 100]
  | SLEEPING => [115; 108; 101; 101; 112; 32]
  | RUNNABLE => [114; 117; 110; 98; 108; 101]
  | RUNNING => [114; 117; 110; 32; 32; 32]
  | ZOMBIE => [122; 111; 109; 98; 105; 101]
  end.

(** What [procdump] prints. *)
Definition procdump (procs : list proc) : list Z :=
  10 :: concat ((fun p =>
    if decide (p_state p = UNUSED) then []
    else default [] (kprintf [37; 100; 32; 37; 115; 32; 37; 115] [ANum (p_pid p); AStr (Some (state_name (p_state p))); AStr (Some (cstr_take (arr (p_name p)) 16))]) ++ [10]) <$> procs).

(** ** main *)

(** What [main] does outside the state of the machine: the console driver initialises itself
    ([consoleinit] and [printfinit]), and the registers of the PLIC and of the disk are written. *)
Inductive boot_event := ConsoleInit | PlicWrite (a v : Z) | DiskWrite (r v : Z).

Definition plic_events (l : list (Z * Z)) : list boot_event := (fun x => PlicWrite (fst x) (snd x)) <$> l.
Definition disk_events (l : list (Z * Z)) : list boot_event := (fun x => DiskWrite (fst x) (snd x)) <$> l.

Section Main.
Context `{KernelImage} `{Devices}.
Variables (forkret_addr kernelvec_addr : Z).
(** The registers of the disk, as [virtio_disk_init] reads them. *)
Variable mmio : Z -> Z.

Definition cpuid : X Z := x ← r_tp; mret (s32 x).
Definition xfs_op {A} (m : M (fstate lstate) A) : X A := xproc_op (pfs_op m).

(** Up to the call of [scheduler], with the kernel's page table.  [printfinit], [trapinit] and
    [fileinit] only initialise locks, which are free here already.  [kernel_pagetable] and
    [started] are the variables as another hart finds them; [None] is a hart that waits. *)
Definition main (kernel_pagetable : Z) (started : bool) : X (option (Z * list boot_event)) :=
  id ← cpuid;
  if id =? 0 then
    sys_op (page_op kinit);;
    kpt ← sys_op (page_op kvminit);
    modify (fun s => put_hart (kvminithart kpt (get_hart s)) s);;
    xproc_op procinit;;
    trapinithart kernelvec_addr;;
    xfs_op (blk_op (bio binit));;
    xfs_op iinit;;
    ws ← sys_op (page_op (virtio_disk_init mmio));
    xproc_op (userinit forkret_addr);;
    mret (Some (kpt, [ConsoleInit] ++ plic_events plicinit ++ plic_events (plicinithart id) ++ disk_events ws))
  else if negb started then mret None
  else
    modify (fun s => put_hart (kvminithart kernel_pagetable (get_hart s)) s);;
    trapinithart kernelvec_addr;;
    mret (Some (kernel_pagetable, plic_events (plicinithart id))).
End Main.

(** ** From reset to [main] *)

Section BootProps.
Variables (main_addr timervec_addr stack0 scratch0 : Z).

(** What [timerinit] does to the hart and the memory. *)
Definition timer_hart (id : Z) (h : hart) : hart :=
  let h := set_csr mtvec timervec_addr (set_csr mscratch (scratch0 + 40 * id) h) in
  let h := set_csr mstatus (Z.lor (csrs h mstatus) MSTATUS_MIE) h in
  set_csr mie (Z.lor (csrs h mie) MIE_MTIE) h.

Definition timer_mem (id : Z) (m : memory) : memory :=
  store64 (store64 (store64 m (CLINT_MTIMECMP id) (u64 (load64 m CLINT_MTIME + 1000000))) (scratch0 + 40 * id + 24) (CLINT_MTIMECMP id)) (scratch0 + 40 * id + 32) 1000000.

Lemma timerinit_run h m id : csrs h mhartid = id -> 0 <= id < NCPU -> timerinit timervec_addr scratch0 (Cpu h m) = Done tt (Cpu (timer_hart id h) (timer_mem id m)).
Proof.
  intros E Hid. unfold timerinit, r_mhartid, r_csr. rewrite bind_gets. cbn [get_hart cpu_hart c_hart]. rewrite E, s32_small by (unfold NCPU in Hid; lia). reflexivity.
Qed.

(** What [start] does before [timerinit]. *)
Definition super_hart (h : hart) : hart :=
  let h := set_csr mstatus (Z.lor (clear (csrs h mstatus) MSTATUS_MPP_MASK) MSTATUS_MPP_S) h in
  let h := set_csr mideleg 0xffff (set_csr medeleg 0xffff (set_csr satp 0 (set_csr mepc main_addr h))) in
  let h := set_csr sie (Z.lor (Z.lor (Z.lor (csrs h sie) SIE_SEIE) SIE_STIE) SIE_SSIE) h in
  set_csr pmpcfg0 0xf (set_csr pmpaddr0 0x3fffffffffffff h).

Lemma start_run h m id : csrs h mhartid = id -> 0 <= id < NCPU ->
  start_hart main_addr timervec_addr scratch0 (Cpu h m) = Done main_addr (Cpu (do_mret (set_reg tp id (timer_hart id (super_hart h)))) (timer_mem id m)).
Proof.
  intros E Hid.
  transitivity ((timerinit timervec_addr scratch0;; id ← r_mhartid; w_tp (u64 (s32 id));; pc ← r_csr mepc;
    modify (fun s => put_hart (do_mret (get_hart s)) s);; mret pc) (Cpu (super_hart h) m)); [reflexivity|].
  mstep (timerinit_run (super_hart h) m id E Hid). unfold r_mhartid, w_tp, r_csr. rewrite bind_gets, bind_modify, bind_gets, bind_modify.
  change (csrs (get_hart (Cpu (timer_hart id (super_hart h)) (timer_mem id m))) mhartid) with (csrs h mhartid). rewrite E, s32_small, u64_small by (unfold NCPU in Hid; lia).
  reflexivity.
Qed.

(** ** The mode after [mret] *)

Lemma mret_mode x : Z.land (Z.lor (Z.lor (clear x MSTATUS_MPP_MASK) MSTATUS_MPP_S) MSTATUS_MIE) MSTATUS_MPP_MASK = MSTATUS_MPP_S.
Proof.
  rewrite !Z.land_lor_distr_l. unfold clear. rewrite <-Z.land_assoc. change (Z.land (u64 (Z.lnot MSTATUS_MPP_MASK)) MSTATUS_MPP_MASK) with 0.
  rewrite Z.land_0_r. reflexivity.
Qed.

Lemma entry_run h m : execs (entry_code stack0) h m =
  Some (set_reg sp (u64 (stack0 + u64 (1024 * 4 * u64 (csrs h mhartid + 1))))
    (set_reg a0 (u64 (1024 * 4 * u64 (csrs h mhartid + 1))) (set_reg a1 (u64 (csrs h mhartid + 1)) (set_reg a1 (csrs h mhartid) (set_reg a0 (1024 * 4) (set_reg sp stack0 h))))), m).
Proof. reflexivity. Qed.

(** A hart as [main] finds it. *)
Record started (id : Z) (m : memory) (x : cpu) : Prop := {
  sd_priv : priv (c_hart x) = SMode;
  sd_sp : gpr (c_hart x) sp = stack0 + 4096 * (id + 1);
  sd_tp : gpr (c_hart x) tp = id;
  sd_satp : csrs (c_hart x) satp = 0;
  sd_deleg : csrs (c_hart x) medeleg = 0xffff /\ csrs (c_hart x) mideleg = 0xffff;
  sd_sie : Z.land (csrs (c_hart x) sie) 0x222 = 0x222;
  sd_timer : csrs (c_hart x) mtvec = timervec_addr /\ Z.land (csrs (c_hart x) mie) MIE_MTIE = MIE_MTIE;
  sd_cmp : load64 (c_mem x) (CLINT_MTIMECMP id) = u64 (load64 m CLINT_MTIME + 1000000);
  sd_scratch : timer_scratch (c_hart x) (c_mem x) (scratch0 + 40 * id) (CLINT_MTIMECMP id) 1000000;
  sd_frame : forall b, ~ in_range (CLINT_MTIMECMP id) 8 b -> ~ in_range (scratch0 + 40 * id + 24) 16 b -> mget (c_mem x) b = mget m b;
}.

Lemma land_lor_absorb x b : Z.land (Z.lor x b) b = b.
Proof. apply Z.bits_inj'. intros i Hi. rewrite Z.land_spec, Z.lor_spec. by destruct (Z.testbit x i), (Z.testbit b i). Qed.

Lemma timer_mem_ok id m : 0 <= id < NCPU -> KERNBASE <= scratch0 -> scratch0 + 40 * NCPU <= PHYSTOP -> scratch0 mod 8 = 0 ->
  let m' := timer_mem id m in
  load64 m' (CLINT_MTIMECMP id) = u64 (load64 m CLINT_MTIME + 1000000) /\
  load64 m' (scratch0 + 40 * id + 24) = CLINT_MTIMECMP id /\ load64 m' (scratch0 + 40 * id + 32) = 1000000 /\
  (forall b, ~ in_range (CLINT_MTIMECMP id) 8 b -> ~ in_range (scratch0 + 40 * id + 24) 16 b -> mget m' b = mget m b).
Proof.
  intros Hid H1 H2 H3 m'. unfold m', timer_mem, CLINT_MTIMECMP, CLINT, NCPU, PHYSTOP, KERNBASE in *. split; [|split; [|split]].
  - rewrite !load64_store64_ne by lia. apply load64_store64, u64_range.
  - rewrite load64_store64_ne by lia. apply load64_store64. lia.
  - apply load64_store64. lia.
  - intros b Hb1 Hb2. unfold store64, in_range in *. rewrite !(mget_store_le_out _ _ 8) by lia. done.
Qed.

Lemma reset_ok s id :
  priv (c_hart s) = MMode -> csrs (c_hart s) mhartid = id -> 0 <= id < NCPU ->
  KERNBASE <= stack0 -> stack0 + 4096 * NCPU <= PHYSTOP -> KERNBASE <= scratch0 -> scratch0 + 40 * NCPU <= PHYSTOP -> scratch0 mod 8 = 0 ->
  exists x, reset main_addr timervec_addr stack0 scratch0 s = Some (main_addr, x) /\ started id (c_mem s) x.
Proof.
  intros Hp Eid Hid S1 S2 K1 K2 K3. unfold reset. rewrite entry_run. set (h := set_reg sp _ _).
  assert (Eh : csrs h = csrs (c_hart s)) by reflexivity. rewrite (start_run h (c_mem s) id); [|by rewrite Eh|done].
  eexists. split; [reflexivity|]. destruct (timer_mem_ok id (c_mem s) Hid K1 K2 K3) as (M1 & M2 & M3 & M4).
  split; cbn [c_hart c_mem].
  - unfold do_mret. cbn [priv set_priv set_csr set_reg]. change (csrs (set_reg tp id (timer_hart id (super_hart h))) mstatus) with
      (Z.lor (Z.lor (clear (csrs h mstatus) MSTATUS_MPP_MASK) MSTATUS_MPP_S) MSTATUS_MIE). rewrite mret_mode. reflexivity.
  - change (gpr h sp = stack0 + 4096 * (id + 1)). unfold h, set_reg. cbn [gpr]. rewrite decide_True by done. rewrite Eid.
    unfold NCPU, PHYSTOP, KERNBASE in *. rewrite (u64_small (id + 1)), (u64_small (1024 * 4 * (id + 1))), u64_small; lia.
  - reflexivity.
  - reflexivity.
  - done.
  - change (csrs _ sie) with (Z.lor (Z.lor (Z.lor (csrs h sie) SIE_SEIE) SIE_STIE) SIE_SSIE). rewrite <-!Z.lor_assoc. apply land_lor_absorb.
  - split; [reflexivity|]. apply land_lor_absorb.
  - exact M1.
  - split; [|reflexivity|exact M2|exact M3| |]; unfold CLINT_MTIMECMP, CLINT, NCPU, PHYSTOP, KERNBASE in *; lia.
  - exact M4.
Qed.
End BootProps.

(** C39: Every hart gets from the reset address to [main] prepared: [_entry] and [start] put it in
    supervisor mode at [main] with paging off, on its own 4096-byte stack, its number in [tp],
    traps delegated and enabled and the first timer interrupt asked for, and change no memory
    but the hart's own compare register and scratch area.  And every timer interrupt later on,
    in whatever code, goes through [timervec] without a trace: all registers come back, the
    next interrupt is asked for one interval later, and a software interrupt is raised for
    [devintr]. *)
Theorem boot_arms_timer main_addr timervec_addr stack0 scratch0 s id :
  priv (c_hart s) = MMode -> csrs (c_hart s) mhartid = id -> 0 <= id < NCPU ->
  KERNBASE <= stack0 -> stack0 + 4096 * NCPU <= PHYSTOP -> KERNBASE <= scratch0 -> scratch0 + 40 * NCPU <= PHYSTOP -> scratch0 mod 8 = 0 ->
  exists x, reset main_addr timervec_addr stack0 scratch0 s = Some (main_addr, x) /\
    started timervec_addr stack0 scratch0 id (c_mem s) x /\
    forall h m, priv h = MMode -> regs64 h -> csrs h mscratch = csrs (c_hart x) mscratch ->
      (forall b, in_range (scratch0 + 40 * id + 24) 16 b -> mget m b = mget (c_mem x) b) ->
      exists h' m', exec_prog timervec h m = Some (do_mret h', m', csrs h mepc) /\ (forall r, gpr h' r = gpr h r) /\
        csrs h' sip = 2 /\ (forall c, c <> sip -> csrs h' c = csrs h c) /\
        load64 m' (CLINT_MTIMECMP id) = u64 (load64 m (CLINT_MTIMECMP id) + 1000000) /\
        (forall b, ~ in_range (scratch0 + 40 * id) 24 b -> ~ in_range (CLINT_MTIMECMP id) 8 b -> mget m' b = mget m b).
Proof.
  intros Hp Eid Hid S1 S2 K1 K2 K3. destruct (reset_ok main_addr timervec_addr stack0 scratch0 s id) as (x & E & Hx); [done..|].
  exists x. split; [exact E|]. split; [exact Hx|]. intros h m Hp2 Hr Esc Em. destruct (sd_scratch _ _ _ _ _ _ Hx) as [T1 T2 T3 T4 T5 T6].
  apply timervec_ok; [done|done|]. split; [done|by rewrite Esc| | |done|done].
  - rewrite <-T3. apply load64_ext. intros b Hb. apply Em. unfold in_range in *. lia.
  - rewrite <-T4. apply load64_ext. intros b Hb. apply Em. unfold in_range in *. lia.
Qed.

Lemma boot_arms_timer_witness :
  exists x, reset 0x80000100 0x80000200 0x80010000 0x80020000 (Cpu (Hart (fun _ => 0) (fun c => if decide (c = mhartid) then 3 else 0) MMode) ∅) = Some (0x80000100, x) /\
    gpr (c_hart x) sp = 0x80014000 /\ gpr (c_hart x) tp = 3 /\ csrs (c_hart x) mscratch = 0x80020078.
Proof.
  destruct (boot_arms_timer 0x80000100 0x80000200 0x80010000 0x80020000 (Cpu (Hart (fun _ => 0) (fun c => if decide (c = mhartid) then 3 else 0) MMode) ∅) 3) as (x & E & Hx & _);
    [reflexivity|reflexivity|unfold NCPU; lia|unfold KERNBASE; lia|unfold PHYSTOP, KERNBASE, NCPU; lia|unfold KERNBASE; lia|unfold PHYSTOP, KERNBASE, NCPU; lia|reflexivity|].
  exists x. split; [exact E|]. split; [apply (sd_sp _ _ _ _ _ _ Hx)|]. split; [apply (sd_tp _ _ _ _ _ _ Hx)|]. apply (ts_reg _ _ _ _ _ (sd_scratch _ _ _ _ _ _ Hx)).
Defined.
