(* ===== verification/BootInit.v ===== *)
(** * [main] starts the first process *)

From S2P Require Import Hart HartProps Prelude Mem CString Riscv Kalloc Vm PageTable VmSpec VmCopy RingbufK RingbufFind RingbufMap Demo Pipe Block Sleeplock Bio Log Fs FsBlocks File Proc Exec Syscall Trap TrapProps Kvm VirtioInit Boot.

Section BootInit.
Context `{KernelImage} `{Devices}.

(** ** Memory *)

Lemma spares_trans L m1 m2 m3 : spares L m1 m2 -> spares L m2 m3 -> spares L m1 m3.
Proof. intros H1 H2 p Hp Hn. apply mem_eq_on_trans with m2; [by apply H1|by apply H2]. Qed.

(** Every byte of the page is a byte. *)
Definition bytes_ok (p : Z) (m : memory) : Prop := forall a, in_page p a -> 0 <= mget m a < 256.

Lemma store_le_bytes m a n v b : 0 <= mget m b < 256 -> 0 <= mget (store_le m a n v) b < 256.
Proof.
  revert a v. induction n as [|n IH]; intros a v Hb; [exact Hb|]. cbn [store_le]. destruct (decide (b = a)) as [->|Hne].
  - rewrite mget_mset_eq. unfold u8. lia.
  - rewrite mget_mset_ne by done. by apply IH.
Qed.

Lemma load_le_bytes m n : forall a, (forall b, in_range a (Z.of_nat n) b -> 0 <= mget m b < 256) -> 0 <= load_le m a n < 256 ^ Z.of_nat n.
Proof.
  induction n as [|n IH]; intros a Hb; [cbn; lia|]. cbn [load_le]. rewrite Nat2Z.inj_succ, Z.pow_succ_r by lia.
  pose proof (Hb a ltac:(unfold in_range; lia)). specialize (IH (a + 1)). assert (0 <= load_le m (a + 1) n < 256 ^ Z.of_nat n).
  { apply IH. intros b Hx. apply Hb. unfold in_range in *. lia. }
  lia.
Qed.

(** [kalloc] fills the page it returns. *)
Lemma kalloc_fills s p s1 : kalloc s = Done p s1 -> p <> 0 -> bytes_ok p (mem s1).
Proof.
  unfold kalloc. destruct (Z.eqb_spec (freelist s) 0) as [|_]; [intros [= <- _]; done|]. intros [= <- <-] _ a Ha. cbn [mem].
  rewrite mget_memset, decide_True by (unfold in_page, PGSIZE in *; lia). unfold u8. lia.
Qed.

(** ** The page table of a process *)

(** A table all of whose pages were free before, [L0]. *)
Record own_table (L0 : list Z) (s : kstate) (root : Z) (L : list Z) : Prop := {
  ot_inv : vm_inv s root L;
  ot_tables : forall t, is_table (mem s) root t -> t ∈ L0;
  ot_free : forall x, x ∈ L -> x ∈ L0;
}.

Lemma own_map L0 root va pa perm s L :
  own_table L0 s root L -> va mod PGSIZE = 0 -> 0 <= va < MAXVA -> 0 <= pa < 2 ^ 55 -> flags_ok perm -> has_flag (leaf (mem s) root va) PTE_V = false -> (2 <= length L)%nat ->
  exists s' L', mappages root va PGSIZE pa perm s = Done 0 s' /\ own_table L0 s' root L' /\ (length L <= length L' + 2)%nat /\
    mapped (mem s) (mem s') root va 1 pa perm /\ spares L0 (mem s) (mem s') /\ (forall x, x ∈ L' -> x ∈ L) /\ (forall t, is_table (mem s') root t -> is_table (mem s) root t \/ t ∈ L).
Proof.
  intros [Hi Ht Hf] H1 H2 H3 H4 H5 Hl. destruct (mappages_page root va pa perm s L Hi H1 H2 H3 H4 H5) as (r & s' & L' & E & Hev & Hu & [[-> Hm]|(_ & Hlt & _)]); [|lia].
  destruct (ve_free _ _ _ _ _ Hev) as [used EL]. assert (Hsub : forall x, x ∈ L' -> x ∈ L) by (intros x Hx; rewrite EL; apply elem_of_app; by right).
  exists s', L'. split; [exact E|]. split; [split|split; [exact Hu|split; [exact Hm|split; [|split; [exact Hsub|apply (ve_tables _ _ _ _ _ Hev)]]]]].
  - apply (ve_inv _ _ _ _ _ Hev).
  - intros t Htt. apply (ve_tables _ _ _ _ _ Hev) in Htt as [Htt|Htt]; [by apply Ht|by apply Hf].
  - intros x Hx. apply Hf, Hsub, Hx.
  - intros p Hp Hn. apply (ve_frame _ _ _ _ _ Hev); [exact Hp| |].
    + intros Hx. by apply Hn, Ht.
    + intros Hx. by apply Hn, Hf.
Qed.

Lemma mapped_one m m' root va pa perm : 0 <= va < MAXVA -> mapped m m' root va 1 pa perm ->
  leaf m' root va = map_pte pa perm /\ (forall va', 0 <= va' < MAXVA -> va' / PGSIZE <> va / PGSIZE -> leaf m' root va' = leaf m root va').
Proof.
  intros Hva Hm. split.
  - rewrite (Hm va Hva). cbv zeta. rewrite Z.sub_diag, decide_True by lia. by rewrite Z.mul_0_l, Z.add_0_r.
  - intros va' Hva' Hne. rewrite (Hm va' Hva'). cbv zeta. rewrite decide_False by lia. done.
Qed.

Lemma valid_pa p : valid_page p -> 0 <= p < 2 ^ 55 /\ p mod PGSIZE = 0.
Proof. intros Hv. pose proof (valid_page_bounds p Hv). split; [|apply Hv]. unfold PHYSTOP, KERNBASE, PGSIZE in *. lia. Qed.

Lemma zero_unmapped : has_flag 0 PTE_V = false.
Proof. reflexivity. Qed.

(** The page table of a new process: the trampoline and the trap frame, nothing else. *)
Lemma proc_pagetable_fits tf s L :
  kinv s L -> (5 <= length L)%nat -> valid_page tf -> tf ∉ L ->
  exists root s' L', proc_pagetable tf s = Done root s' /\ root <> 0 /\ own_table L s' root L' /\ (length L <= length L' + 5)%nat /\
    has_trapframe (mem s') root tf /\ leaf (mem s') root 0 = 0 /\ spares L (mem s) (mem s').
Proof.
  intros Hk Hl Hv Hn. destruct L as [|root L]; [cbn in Hl; lia|]. cbn [length] in Hl.
  destruct (fresh_root s root L Hk) as (s0 & E0 & Hi & Hz & Ht & Hr0 & Hs0). cbv zeta in *. set (s1 := set_mem _ s0) in *.
  assert (Ec : uvmcreate s = Done root s1).
  { unfold uvmcreate. mstep E0. destruct (Z.eqb_spec root 0) as [|_]; [done|]. unfold memset_page. rewrite bind_modify. reflexivity. }
  clearbody s1. clear E0.
  assert (Ho : own_table (root :: L) s1 root L).
  { split; [exact Hi| |]. - intros t Htt. rewrite (Ht t Htt). apply elem_of_cons. by left. - intros x Hx. apply elem_of_cons. by right. }
  assert (Etr : 0 <= trampoline < 2 ^ 55) by (pose proof trampoline_range; pose proof etext_range; pose proof kend_range; unfold PHYSTOP, KERNBASE in *; lia).
  destruct (own_map (root :: L) root TRAMPOLINE trampoline (Z.lor PTE_R PTE_X) s1 L Ho) as (s2 & L2 & E2 & Ho2 & Hu2 & Hm2 & Hs2 & _);
    [reflexivity|split; [discriminate|reflexivity]|exact Etr|auto with pte|rewrite Hz; apply zero_unmapped|lia|].
  apply mapped_one in Hm2 as [Hm2 Hm2']; [|split; [discriminate|reflexivity]].
  destruct (own_map (root :: L) root TRAPFRAME tf (Z.lor PTE_R PTE_W) s2 L2 Ho2) as (s3 & L3 & E3 & Ho3 & Hu3 & Hm3 & Hs3 & _);
    [reflexivity|split; [discriminate|reflexivity]|apply (valid_pa tf Hv)|auto with pte| |lia|].
  { rewrite Hm2', Hz by (discriminate || (split; [discriminate|reflexivity])). apply zero_unmapped. }
  apply mapped_one in Hm3 as [Hm3 Hm3']; [|split; [discriminate|reflexivity]].
  assert (E : proc_pagetable tf s = Done root s3).
  { unfold proc_pagetable. mstep Ec. destruct (Z.eqb_spec root 0) as [|_]; [done|]. mstep E2. change (0 <? 0) with false. cbv iota. mstep E3. reflexivity. }
  exists root, s3, L3. split; [exact E|]. split; [exact Hr0|]. split; [exact Ho3|]. split; [cbn [length]; lia|]. split; [split|split].
  - apply (vm_wf _ _ _ (ot_inv _ _ _ _ Ho3)).
  - rewrite Hm3. apply map_pte_V.
  - rewrite Hm3. destruct (valid_pa tf Hv). apply map_pte_pa; [lia|done|auto with pte].
  - intros t Htt ->. apply Hn. by apply (ot_tables _ _ _ _ Ho3).
  - rewrite Hm3', Hm2', Hz by (discriminate || (split; [discriminate|reflexivity])). reflexivity.
  - apply (spares_trans _ _ (mem s1)); [exact Hs0|]. by apply (spares_trans _ _ (mem s2)).
Qed.

(** The first page of the first process. *)
Lemma uvmfirst_fits L0 root src s L :
  own_table L0 s root L -> leaf (mem s) root 0 = 0 -> (3 <= length L)%nat -> Z.of_nat (length src) < PGSIZE -> Forall (fun b => 0 <= b < 256) src ->
  exists pa s' L', uvmfirst root src s = Done tt s' /\ own_table L0 s' root L' /\ pa ∈ L0 /\ valid_page pa /\
    leaf (mem s') root 0 = map_pte pa (Z.lor (Z.lor (Z.lor PTE_W PTE_R) PTE_X) PTE_U) /\
    (forall va, 0 <= va < MAXVA -> va / PGSIZE <> 0 -> leaf (mem s') root va = leaf (mem s) root va) /\
    (forall i b, src !! i = Some b -> mget (mem s') (pa + Z.of_nat i) = b) /\ spares L0 (mem s) (mem s').
Proof.
  intros [Hi Ht Hf] Hz Hl Hlen Hb. destruct L as [|pa L]; [cbn in Hl; lia|]. cbn [length] in Hl.
  destruct (alloc_zeroed root s pa L Hi) as (s0 & E0 & Hp0 & Hev & Hown & Hpz & Hlf). cbv zeta in *. set (s1 := set_mem _ s0) in *.
  assert (Ec : forall A (k : M kstate A), (memset_page pa 0;; k) s0 = k s1) by (intros A k; unfold memset_page; rewrite bind_modify; reflexivity).
  clearbody s1.
  assert (Ho1 : own_table L0 s1 root L).
  { split; [apply Hev| |]. - intros t Htt. apply (ve_tables _ _ _ _ _ Hev) in Htt as [Htt|Htt]; [by apply Ht|by apply Hf]. - intros x Hx. apply Hf, elem_of_cons. by right. }
  assert (Hs1 : spares L0 (mem s) (mem s1)).
  { intros p Hp Hn. apply (ve_frame _ _ _ _ _ Hev); [exact Hp| |]. - intros Hx. by apply Hn, Ht. - intros Hx. by apply Hn, Hf. }
  pose proof (owned_pa _ _ _ _ Hown) as [Hpa _].
  destruct (own_map L0 root 0 pa (Z.lor (Z.lor (Z.lor PTE_W PTE_R) PTE_X) PTE_U) s1 L Ho1) as (s2 & L2 & E2 & Ho2 & Hu2 & Hm2 & Hs2 & Hsub & Htab);
    [reflexivity|split; [discriminate|reflexivity]|exact Hpa|auto with pte|rewrite Hlf, Hz; apply zero_unmapped|lia|].
  apply mapped_one in Hm2 as [Hm2 Hm2']; [|split; [discriminate|reflexivity]].
  assert (HpaL : pa ∈ L0) by (apply Hf, elem_of_cons; by left). destruct Hown as [Hv HnL Hnt].
  assert (Hown2 : owned root s2 L2 pa) by (split; [exact Hv|intros Hx; apply HnL, Hsub, Hx|intros Hx; destruct (Htab _ Hx); [by apply Hnt|by apply HnL]]).
  set (s3 := KState (write_bytes (mem s2) pa src) (freelist s2)).
  assert (Hout : mem_eq_on (outside pa) (mem s2) (mem s3)).
  { intros a Ha. apply mget_write_bytes_out. unfold outside, in_page in Ha. lia. }
  pose proof (data_only_page root s2 L2 pa _ Hown2 Hout) as Hd. fold s3 in Hd. destruct Ho2 as [Hi2 Ht2 Hf2].
  exists pa, s3, L2. split; [|split; [split|split; [exact HpaL|split; [exact Hv|split; [|split; [|split]]]]]].
  - unfold uvmfirst. cbv zeta. destruct (Z.leb_spec PGSIZE (Z.of_nat (length src))); [lia|]. mstep E0. destruct (Z.eqb_spec pa 0) as [|_]; [done|]. rewrite Ec. mstep E2. reflexivity.
  - by apply (data_only_inv root s2).
  - intros t Htt. apply Ht2. by apply (data_only_is_table root s2 L2 s3).
  - exact Hf2.
  - by rewrite (data_only_leaf root s2 L2 s3).
  - intros va Hva Hne. rewrite (data_only_leaf root s2 L2 s3), Hm2' by done. apply Hlf.
  - intros i b Hib. unfold s3. cbn [mem]. rewrite (mget_write_bytes_in _ _ _ _ _ Hib). rewrite list.Forall_forall in Hb. apply list_elem_of_lookup_2 in Hib. apply Hb in Hib. unfold u8. by apply Z.mod_small.
  - apply (spares_trans _ _ (mem s1)); [exact Hs1|]. apply (spares_trans _ _ (mem s2)); [exact Hs2|]. intros p Hp Hn. apply mem_eq_on_sub with (outside pa); [exact Hout|].
    intros a Ha Hpa2. apply Hn. rewrite (pages_disjoint p pa a Hp (proj1 Hv) Ha Hpa2). exact HpaL.
Qed.

(** ** The disk *)

Lemma outside_spares L p m m' : p mod PGSIZE = 0 -> p ∈ L -> mem_eq_on (outside p) m m' -> spares L m m'.
Proof.
  intros Hp Hin Ho q Hq Hn. apply mem_eq_on_sub with (outside p); [exact Ho|]. intros a Ha Hpa. apply Hn.
  by rewrite (pages_disjoint q p a Hq Hp Ha Hpa).
Qed.

(** Clearing an allocated page. *)
Lemma clear_page s L p : kinv s L -> valid_page p -> p ∉ L ->
  exists s', memset_page p 0 s = Done tt s' /\ kinv s' L /\ mem_eq_on (outside p) (mem s) (mem s').
Proof.
  intros Hk [Hv ?] Hn. eexists. split; [reflexivity|]. assert (Ho : mem_eq_on (outside p) (mem s) (memset (mem s) p 0 (Z.to_nat PGSIZE))).
  { intros a Ha. rewrite mget_memset, decide_False; [done|]. unfold outside, in_page, PGSIZE in *. lia. }
  split; [|exact Ho]. by apply (kinv_outside s _ L p).
Qed.

(** With such a disk and three free pages [virtio_disk_init] does not panic, and takes the
    three pages for the queue. *)
Lemma virtio_disk_init_fits mmio s d a u L :
  disk_there mmio -> kinv s (d :: a :: u :: L) ->
  exists ws s', virtio_disk_init mmio s = Done ws s' /\ kinv s' L /\ spares (d :: a :: u :: L) (mem s) (mem s').
Proof.
  intros [M1 M2 M3 M4 M5 M6 M7] Hk. unfold virtio_disk_init. rewrite M1, M2, M3, M4, !Z.eqb_refl. cbn [negb orb].
  assert (Hfo : (Z.land (mmio VIRTIO_MMIO_STATUS) VIRTIO_CONFIG_S_FEATURES_OK =? 0) = false).
  { apply Z.eqb_neq. intros E. assert (Hb : Z.testbit (Z.land (mmio VIRTIO_MMIO_STATUS) VIRTIO_CONFIG_S_FEATURES_OK) 3 = true) by (by rewrite Z.land_spec, M5).
    by rewrite E in Hb. }
  rewrite Hfo, M6. cbn [negb Z.eqb]. unfold Virtio.NUM in M7. destruct (Z.eqb_spec (mmio VIRTIO_MMIO_QUEUE_NUM_MAX) 0); [lia|]. unfold Virtio.NUM at 1.
  destruct (Z.ltb_spec (mmio VIRTIO_MMIO_QUEUE_NUM_MAX) 8); [lia|].
  destruct (kalloc_done _ _ _ Hk) as (s1 & E1 & Hk1 & Hd0 & Hd & Hvd & Ho1). mstep E1.
  destruct (kalloc_done _ _ _ Hk1) as (s2 & E2 & Hk2 & Ha0 & Ha & Hva & Ho2). mstep E2.
  destruct (kalloc_done _ _ _ Hk2) as (s3 & E3 & Hk3 & Hu0 & Hu & Hvu & Ho3). mstep E3.
  destruct (Z.eqb_spec d 0), (Z.eqb_spec a 0), (Z.eqb_spec u 0); try done. cbn [orb]. rewrite !not_elem_of_cons in Hd. rewrite !not_elem_of_cons in Ha.
  destruct (clear_page s3 L d Hk3 Hvd) as (s4 & E4 & Hk4 & Ho4); [tauto|]. mstep E4.
  destruct (clear_page s4 L a Hk4 Hva) as (s5 & E5 & Hk5 & Ho5); [tauto|]. mstep E5.
  destruct (clear_page s5 L u Hk5 Hvu) as (s6 & E6 & Hk6 & Ho6); [tauto|]. mstep E6.
  eexists _, s6. split; [reflexivity|]. split; [done|]. set (L0 := d :: a :: u :: L).
  assert (Hin : forall p m m', p ∈ [d; a; u] -> mem_eq_on (outside p) m m' -> spares L0 m m').
  { intros p m m' Hp. apply outside_spares; [|unfold L0; set_solver]. apply elem_of_cons in Hp as [->|Hp]; [apply Hvd|]. apply elem_of_cons in Hp as [->|Hp]; [apply Hva|].
    apply list_elem_of_singleton in Hp as ->. apply Hvu. }
  apply (spares_trans L0 _ (mem s1)); [apply (Hin d); [set_solver|done]| ].
  apply (spares_trans L0 _ (mem s2)); [apply (Hin a); [set_solver|done]| ].
  apply (spares_trans L0 _ (mem s3)); [apply (Hin u); [set_solver|done]| ].
  apply (spares_trans L0 _ (mem s4)); [apply (Hin d); [set_solver|done]| ].
  apply (spares_trans L0 _ (mem s5)); [apply (Hin a); [set_solver|done]|apply (Hin u); [set_solver|done]].
Qed.
(** ** The first process *)

Variable forkret_addr : Z.

Lemma pmem_run {A} (m : M kstate A) s a ks : m (k_mem (kern s)) = Done a ks -> pmem_op m s = Done a (set_kern (set_kmem ks (kern s)) s).
Proof. intros E. unfold pmem_op, lift. by rewrite E. Qed.

Lemma pfs_run {A} (m : M (fstate lstate) A) s a fs : m (k_fs (kern s)) = Done a fs -> pfs_op m s = Done a (set_kern (set_fs fs (kern s)) s).
Proof. intros E. unfold pfs_op, lift. by rewrite E. Qed.

(** Process [x] after [allocproc]. *)
Definition allocated (x : proc) (pid root tf : Z) : proc :=
  Proc USED (p_chan x) (p_killed x) (p_xstate x) pid (p_parent x) (p_kstack x) (p_sz x) root tf
    (Context forkret_addr (p_kstack x + PGSIZE) (replicate 12 0)) (p_ofile x) (p_cwd x) (p_name x).

Lemma allocproc_fits k x ps pid ip fi i L :
  kinv (k_mem k) L -> (6 <= length L)%nat -> p_state x = UNUSED ->
  exists tf root ks L1 L', allocproc forkret_addr (KSys k (x :: ps) pid ip fi i) = Done (Some 0%nat) (KSys (set_kmem ks k) (allocated x pid root tf :: ps) (s32 (pid + 1)) ip fi i) /\
    L = tf :: L1 /\ valid_page tf /\ (tf ∉ L1) /\ own_table L1 ks root L' /\ (length L <= length L' + 6)%nat /\ has_trapframe (mem ks) root tf /\ leaf (mem ks) root 0 = 0 /\
    spares L (mem (k_mem k)) (mem ks) /\ bytes_ok tf (mem ks).
Proof.
  intros Hk Hl Hx. destruct L as [|tf L1]; [cbn in Hl; lia|]. cbn [length] in Hl.
  destruct (kalloc_done _ _ _ Hk) as (s1 & E1 & Hk1 & Hnz & Hn & Hv & Hf).
  destruct (proc_pagetable_fits tf s1 L1 Hk1) as (root & ks & L' & E2 & Hr & Ho & Hu & Ht & Hz & Hs); [lia|done|done|].
  exists tf, root, ks, L1, L'. split; [|split; [done|split; [done|split; [done|split; [done|split; [cbn [length]; lia|split; [done|split; [done|split]]]]]]]].
  - unfold allocproc. rewrite bind_gets. cbn [procs find_unused]. rewrite decide_True by done.
    unfold allocpid. rewrite bind_assoc, bind_gets, bind_assoc, bind_modify, bind_ret. unfold set_proc. rewrite bind_modify.
    mstep (pmem_run kalloc (KSys k (with_state USED (with_pid pid x) :: ps) (s32 (pid + 1)) ip fi i) tf s1 E1). rewrite bind_modify.
    destruct (Z.eqb_spec tf 0) as [|_]; [done|].
    mstep (pmem_run (proc_pagetable tf) (KSys (set_kmem s1 k) (with_mem (p_sz x) (p_pagetable x) tf (with_state USED (with_pid pid x)) :: ps) (s32 (pid + 1)) ip fi i) root ks E2).
    rewrite bind_modify. destruct (Z.eqb_spec root 0) as [|_]; [done|]. rewrite bind_modify. reflexivity.
  - intros p Hp Hnp. apply mem_eq_on_trans with (mem s1); [|apply Hs; [done|intros Hx1; apply Hnp, elem_of_cons; by right]].
    apply mem_eq_on_sub with (outside tf); [exact Hf|]. intros a Ha Hta. apply Hnp. rewrite (pages_disjoint p tf a Hp (proj1 Hv) Ha Hta). apply elem_of_cons. by left.
  - intros a Ha. rewrite (Hs tf (proj1 Hv) Hn a Ha). by apply (kalloc_fills (k_mem k) tf s1).
Qed.

Lemma iget_scan_free its : forall k d n e, Forall (fun i => i_ref i = 0) its -> iget_scan its k d n e = (None, match e with Some j => Some j | None => match its with [] => None | _ => Some k end end).
Proof.
  induction its as [|i its IH]; intros k d n e Hf; [by destruct e|]. apply list.Forall_cons in Hf as [Hi Hf]. cbn [iget_scan]. rewrite Hi. cbn [Z.ltb Z.compare andb].
  rewrite IH by done. by destruct e.
Qed.

Lemma namei_root (fs : fstate lstate) : itable fs <> [] -> Forall (fun i => i_ref i = 0) (itable fs) -> exists fs', namei 0 [47] [] fs = Done (Some 0%nat) fs'.
Proof.
  intros Hn Hf. assert (E : exists fs', iget ROOTDEV ROOTINO fs = Done 0%nat fs').
  { unfold iget. rewrite iget_scan_free by done. destruct (itable fs); [done|]. eexists. reflexivity. }
  destruct E as [fs' E]. exists fs'. unfold namei, namex. rewrite bind_assoc. mstep E. reflexivity.
Qed.

(** The user memory of a process with trap frame [tf] starts with [src]. *)
Definition starts_with (m : memory) (root tf : Z) (src : list Z) : Prop :=
  exists pa, leaf m root 0 = map_pte pa (Z.lor (Z.lor (Z.lor PTE_W PTE_R) PTE_X) PTE_U) /\ valid_page pa /\ pa <> tf /\
    forall i b, src !! i = Some b -> mget m (pa + Z.of_nat i) = b.

(** Process [x] is ready to run [initcode] for the first time. *)
Record first_process (x : proc) (m : memory) : Prop := {
  fp_state : p_state x = RUNNABLE;
  fp_sz : p_sz x = PGSIZE;
  fp_ctx : p_context x = Context forkret_addr (p_kstack x + PGSIZE) (replicate 12 0);
  fp_tf : has_trapframe m (p_pagetable x) (p_trapframe x);
  fp_epc : load64 m (p_trapframe x + TF_EPC) = 0;
  fp_sp : load64 m (p_trapframe x + tf_off sp) = PGSIZE;
  fp_bytes : bytes_ok (p_trapframe x) m;
  fp_code : starts_with m (p_pagetable x) (p_trapframe x) initcode;
}.

Lemma initcode_bytes : Z.of_nat (length initcode) < PGSIZE /\ Forall (fun b => 0 <= b < 256) initcode.
Proof. split; [reflexivity|]. unfold initcode. repeat (apply list.Forall_cons; split; [lia|]). constructor. Qed.

(** Stores into the trap frame change neither. *)
Lemma frame_stores tf root m m' :
  has_trapframe m root tf -> starts_with m root tf initcode -> (forall b, ~ in_range tf 288 b -> mget m' b = mget m b) ->
  has_trapframe m' root tf /\ starts_with m' root tf initcode.
Proof.
  intros Htf (pa & Hl & Hva & Hne & Hb) Hf. assert (Hal : tf mod PGSIZE = 0) by (rewrite <-(ht_pa _ _ _ Htf); apply PTE2PA_aligned). split.
  - apply (has_trapframe_frame m); [exact Htf|]. intros b Hbr. apply Hf. unfold in_range, PGSIZE in *. lia.
  - exists pa. split; [|split; [exact Hva|split; [exact Hne|]]].
    + rewrite (leaf_frame m m'); [exact Hl|]. intros t Htt a Ha. apply Hf. intros Hx. apply (ht_apart _ _ _ Htf t Htt).
      apply (pages_disjoint t tf a); [apply (is_table_valid _ _ _ (ht_wf _ _ _ Htf) Htt)|exact Hal|exact Ha|]. unfold in_page, in_range, PGSIZE in *. lia.
    + intros i b Hi. rewrite Hf; [by apply Hb|]. intros Hx. apply Hne. apply (pages_disjoint pa tf (pa + Z.of_nat i)); [apply Hva|exact Hal| |].
      * apply lookup_lt_Some in Hi. pose proof (proj1 initcode_bytes). unfold in_page, PGSIZE in *. lia.
      * unfold in_page, in_range, PGSIZE in *. lia.
Qed.

Lemma userinit_fits k x ps pid ip fi i L :
  kinv (k_mem k) L -> (10 <= length L)%nat -> p_state x = UNUSED -> itable (k_fs k) <> [] -> Forall (fun i => i_ref i = 0) (itable (k_fs k)) ->
  exists k' x', userinit forkret_addr (KSys k (x :: ps) pid ip fi i) = Done tt (KSys k' (x' :: ps) (s32 (pid + 1)) (Some 0%nat) fi i) /\
    first_process x' (mem (k_mem k')) /\ p_pid x' = pid /\ p_killed x' = p_killed x /\ p_kstack x' = p_kstack x /\ spares L (mem (k_mem k)) (mem (k_mem k')) /\ namei 0 [47] [] (k_fs k) = Done (Some 0%nat) (k_fs k').
Proof.
  intros Hk Hl Hx Hit1 Hit2. destruct (allocproc_fits k x ps pid ip fi i L Hk ltac:(lia) Hx) as (tf & root & ks & L1 & L' & E1 & -> & Hv & Hn & Ho & Hu & Htf & Hz & Hs1 & Hby).
  cbn [length] in *. destruct initcode_bytes as [Hc1 Hc2].
  destruct (uvmfirst_fits L1 root initcode ks L' Ho Hz ltac:(lia) Hc1 Hc2) as (pa & ks2 & L2 & E2 & Ho2 & Hpa & Hvpa & Hlf & Hlf' & Hb & Hs2).
  set (ks3 := KState (store64 (store64 (mem ks2) (tf + TF_EPC) 0) (tf + TF_SP) PGSIZE) (freelist ks2)).
  destruct (namei_root (k_fs k) Hit1 Hit2) as [fs' En].
  assert (Hout : forall b, ~ in_range tf 288 b -> mget (mem ks3) b = mget (mem ks2) b).
  { intros b Hbr. unfold ks3, store64, TF_EPC, TF_SP, in_range in *. cbn [mem]. rewrite !(mget_store_le_out _ _ 8) by lia. done. }
  assert (Htf2 : has_trapframe (mem ks2) root tf).
  { destruct Htf as [_ T2 T3 _]. assert (El : leaf (mem ks2) root TRAPFRAME = leaf (mem ks) root TRAPFRAME) by (apply Hlf'; [split; [discriminate|reflexivity]|discriminate]).
    split; [apply (vm_wf _ _ _ (ot_inv _ _ _ _ Ho2))|by rewrite El|by rewrite El|]. intros t Ht ->. by apply Hn, (ot_tables _ _ _ _ Ho2). }
  destruct (frame_stores tf root (mem ks2) (mem ks3)) as [Htf3 Hcode]; [exact Htf2| |exact Hout|].
  { exists pa. split; [exact Hlf|]. split; [exact Hvpa|]. split; [by intros ->|exact Hb]. }
  set (x1 := allocated x pid root tf) in *.
  set (x2 := copy_name (arr [105; 110; 105; 116; 99; 111; 100; 101; 0]) (with_mem PGSIZE root tf x1)).
  exists (set_fs fs' (set_kmem ks3 k)), (with_state RUNNABLE (with_files (p_ofile x2) (Some 0%nat) x2)). split.
  { unfold userinit. mstep E1. rewrite bind_modify, bind_gets. unfold set_proc.
    mstep (pmem_run (uvmfirst root initcode) (KSys (set_kmem ks k) (x1 :: ps) (s32 (pid + 1)) (Some 0%nat) fi i) tt ks2 E2). rewrite bind_modify.
    set (y1 := with_mem PGSIZE root tf x1). set (ks2a := KState (store64 (mem ks2) (tf + TF_EPC) 0) (freelist ks2)).
    mstep (pmem_run (write64 (tf + TF_EPC) 0) (KSys (set_kmem ks2 k) (y1 :: ps) (s32 (pid + 1)) (Some 0%nat) fi i) tt ks2a eq_refl).
    mstep (pmem_run (write64 (tf + TF_SP) PGSIZE) (KSys (set_kmem ks2a k) (y1 :: ps) (s32 (pid + 1)) (Some 0%nat) fi i) tt ks3 eq_refl). rewrite bind_modify.
    mstep (pfs_run (namei 0 [47] []) (KSys (set_kmem ks3 k) (x2 :: ps) (s32 (pid + 1)) (Some 0%nat) fi i) (Some 0%nat) fs' En). reflexivity. }
  split; [|split; [reflexivity|split; [reflexivity|split; [reflexivity|split; [|exact En]]]]]; change (mem (k_mem (set_fs fs' (set_kmem ks3 k)))) with (mem ks3).
  - split; [reflexivity|reflexivity|reflexivity|exact Htf3| | | |exact Hcode].
    + change (load64 (store64 (store64 (mem ks2) (tf + TF_EPC) 0) (tf + TF_SP) PGSIZE) (tf + TF_EPC) = 0). rewrite load64_store64_ne by (unfold TF_EPC, TF_SP; lia). by apply load64_store64.
    + by apply load64_store64.
    + intros a Ha. unfold ks3, store64. cbn [mem]. apply store_le_bytes, store_le_bytes. rewrite (Hs2 tf (proj1 Hv) Hn a Ha). by apply Hby.
  - apply (spares_trans _ _ (mem ks)); [exact Hs1|]. assert (Hs2' : spares (tf :: L1) (mem ks) (mem ks2)) by (intros p Hp Hnp; apply Hs2; [exact Hp|intros Hx1; apply Hnp, elem_of_cons; by right]).
    apply (spares_trans _ _ (mem ks2)); [exact Hs2'|]. intros p Hp Hnp a Ha. apply Hout. intros Hx1. apply Hnp. rewrite (pages_disjoint p tf a Hp (proj1 Hv) Ha); [apply elem_of_cons; by left|].
    unfold in_page, in_range, PGSIZE in *. lia.
Qed.

(** ** The memory that [kinit] frees *)

Lemma enough_pages n L : (forall p, p ∈ L <-> valid_page p) -> kend + Z.of_nat (S n) * PGSIZE <= PHYSTOP -> (n <= length L)%nat.
Proof.
  intros HL Hk. set (p0 := (kend + PGSIZE - 1) / PGSIZE * PGSIZE). assert (Hp0 : p0 mod PGSIZE = 0 /\ kend <= p0 < kend + PGSIZE) by (unfold p0, PGSIZE; lia).
  set (Q := (fun j => p0 + j * PGSIZE) <$> seqZ 0 (Z.of_nat n)).
  assert (HQ : NoDup Q) by (apply NoDup_fmap_2; [intros a b Hab; unfold PGSIZE in Hab; lia|apply NoDup_seqZ]).
  assert (Hlen : length Q = n) by (unfold Q; rewrite length_fmap, length_seqZ; lia). rewrite <-Hlen. apply submseteq_length, NoDup_submseteq; [exact HQ|].
  intros p Hp. apply HL. apply list_elem_of_fmap in Hp as (j & -> & Hj). apply elem_of_seqZ in Hj. unfold valid_page. clear -Hp0 Hk Hj. unfold PGSIZE in *. lia.
Qed.

(** ** main *)

Lemma xpage_run {A} (m : M kstate A) h k ps np ip fi i rs t a ks :
  m (k_mem k) = Done a ks -> sys_op (page_op m) (Mach h (TSys (KSys k ps np ip fi i) rs t)) = Done a (Mach h (TSys (KSys (set_kmem ks k) ps np ip fi i) rs t)).
Proof. intros E. unfold sys_op, page_op, proc_op, pmem_op, lift. cbn [m_sys base kern]. by rewrite E. Qed.

Lemma xproc_run {A} (m : P A) h b rs t a b' : m b = Done a b' -> xproc_op m (Mach h (TSys b rs t)) = Done a (Mach h (TSys b' rs t)).
Proof. intros E. unfold xproc_op, sys_op, proc_op, lift. cbn [m_sys base]. by rewrite E. Qed.

Lemma xfs_run {A} (m : M (fstate lstate) A) h k ps np ip fi i rs t a fs :
  m (k_fs k) = Done a fs -> xfs_op m (Mach h (TSys (KSys k ps np ip fi i) rs t)) = Done a (Mach h (TSys (KSys (set_fs fs k) ps np ip fi i) rs t)).
Proof. intros E. unfold xfs_op. apply xproc_run. by apply (pfs_run m (KSys k ps np ip fi i)). Qed.

Lemma binit_total b : exists b', binit b = Done tt b'.
Proof.
  assert (Hl : forall n i b, exists b', binit_loop n i b = Done tt b').
  { induction n as [|n IH]; intros i c; [by exists c|]. cbn [binit_loop]. unfold link_front, set_next, set_prev. rewrite !bind_assoc, bind_gets. 
    repeat (rewrite ?bind_assoc, ?bind_modify). apply IH. }
  unfold binit, set_prev, set_next. rewrite !bind_modify. apply Hl.
Qed.

Lemma binit_fs (fs : fstate lstate) : exists l, blk_op (bio binit) fs = Done tt (FState l (sb fs) (itable fs)).
Proof.
  destruct (binit_total (bs (blocks fs))) as [b' E]. exists (LState b' (lg (blocks fs))). unfold blk_op, bio, lift. cbn. by rewrite E.
Qed.

(** The machine as [start] leaves it to [main] on hart 0, the variables of the kernel as the
    loader leaves them. *)
Record loaded (s : machine) : Prop := {
  ld_mode : priv (m_hart s) = SMode;
  ld_id : gpr (m_hart s) tp = 0;
  ld_free : freelist (k_mem (kern (base (m_sys s)))) = 0;
  ld_procs : procs (base (m_sys s)) <> [];
  ld_alive : Forall (fun x => p_killed x = false) (procs (base (m_sys s)));
  ld_itable : itable (k_fs (kern (base (m_sys s)))) <> [];
  ld_inodes : Forall (fun i => i_ref i = 0) (itable (k_fs (kern (base (m_sys s)))));
  ld_pid : nextpid (base (m_sys s)) = 1;
  ld_first : first (base (m_sys s)) = true;
}.

(** The machine when [main] calls [scheduler]. *)
Record ready_to_run (kernelvec_addr kpt : Z) (y : machine) : Prop := {
  rr_hart : priv (m_hart y) = SMode /\ csrs (m_hart y) satp = MAKE_SATP kpt /\ csrs (m_hart y) stvec = kernelvec_addr;
  rr_kernel : exists stacks, forall va, 0 <= va < MAXVA -> leaf (mm (m_sys y)) kpt va = kernel_pte stacks va;
  rr_init : exists x ps, procs (base (m_sys y)) = x :: ps /\ first_process x (mm (m_sys y)) /\ p_pid x = 1 /\ p_killed x = false /\
    p_kstack x = KSTACK 0 /\ Forall (fun x => p_state x = UNUSED) ps;
  rr_first : first (base (m_sys y)) = true;
}.

Lemma procinit_procs ps : ps <> [] -> Forall (fun x => p_killed x = false) ps ->
  exists x qs, imap (fun i p => with_kstack (KSTACK (Z.of_nat i)) (with_state UNUSED p)) ps = x :: qs /\
    p_state x = UNUSED /\ p_killed x = false /\ p_kstack x = KSTACK 0 /\ Forall (fun x => p_state x = UNUSED) qs.
Proof.
  destruct ps as [|x ps]; [done|]. intros _ [Hx _]%list.Forall_cons. eexists _, _. split; [reflexivity|]. do 2 (split; [done|]). split; [done|].
  apply list.Forall_forall. intros y Hy. apply elem_of_lookup_imap in Hy as (i & z & -> & _). done.
Qed.

Variables (kernelvec_addr : Z).

(** What booting does to the file system: no block is read yet. *)
Definition boot_fs (fs : fstate lstate) : option (fstate lstate) :=
  match (blk_op (bio binit);; iinit;; namei 0 [47] []) fs with Done _ fs => Some fs | _ => None end.

Lemma main_boots mmio pt0 st s :
  loaded s -> disk_there mmio -> kend + 348 * PGSIZE <= PHYSTOP ->
  exists kpt evs y, main forkret_addr kernelvec_addr mmio pt0 st s = Done (Some (kpt, evs)) y /\ ready_to_run kernelvec_addr kpt y /\
    boot_fs (k_fs (kern (base (m_sys s)))) = Some (k_fs (kern (base (m_sys y)))).
Proof.
  intros [L1 L2 L3 L4 L5 L6 L7 L8 L9] Hdisk Hm. destruct s as [h [[k ps np ip fi i] rs t]]. cbn [m_hart m_sys base kern procs nextpid first] in *. subst np fi.
  destruct k as [fs files pipes [m fl] of_ cw]. cbn [k_mem k_fs freelist] in *. subst fl.
  destruct (kinit_done m) as (s1 & L & E1 & Hk1 & HL).
  destruct (kvmmake_done s1 L 13 Hk1) as (kpt & s2 & L' & stacks & E2 & Hi2 & Hl2 & _ & HF & _); [apply enough_pages; [done|change (Z.of_nat (S (333 + 13))) with 347; clear -Hm; unfold PGSIZE in *; lia]|].
  destruct (procinit_procs ps L4 L5) as (x & qs & Ep & Hx1 & Hx2 & Hx3 & Hq).
  destruct (binit_fs fs) as [l Eb].
  set (fs1 := FState l (sb fs) (itable fs)). set (fs2 := FState l (sb fs) (with_ilock (initsleeplock "inode") <$> itable fs)).
  destruct L' as [|pd [|pa [|pu L']]]; [cbn in Hl2; lia..|].
  destruct (virtio_disk_init_fits mmio s2 pd pa pu L' Hdisk (vm_kinv _ _ _ Hi2)) as (ws & s3 & Ed & Hk3 & Hsd).
  set (k2 := Kernel fs2 files pipes s3 of_ cw).
  destruct (userinit_fits k2 x qs 1 ip true i L') as (k' & x' & E3 & Hfp & Hpid & Hkl & Hks & Hsp & Enm); [exact Hk3|cbn in Hl2; lia|done| | |].
  { unfold k2, fs2. cbn [k_fs itable]. destruct (itable fs); [done|discriminate]. }
  { unfold k2, fs2. cbn [k_fs itable]. apply list.Forall_fmap. apply (list.Forall_impl _ _ _ L7). done. }
  set (h1 := set_csr stvec kernelvec_addr (kvminithart kpt h)).
  eexists kpt, _, (Mach h1 (TSys (KSys k' (x' :: qs) 2 (Some 0%nat) true i) rs t)). split.
  - unfold main, cpuid. rewrite bind_assoc. unfold r_tp, r_reg. rewrite bind_gets, bind_ret. cbn [get_hart machine_hart m_hart]. rewrite L2. change (s32 0 =? 0) with true. cbv iota.
    mstep (xpage_run kinit h (Kernel fs files pipes (KState m 0) of_ cw) ps 1 ip true i rs t tt s1 E1).
    mstep (xpage_run kvminit h (Kernel fs files pipes s1 of_ cw) ps 1 ip true i rs t kpt s2 E2). rewrite bind_modify. cbn [get_hart put_hart machine_hart m_hart m_sys].
    assert (Ei : procinit (KSys (Kernel fs files pipes s2 of_ cw) ps 1 ip true i) = Done tt (KSys (Kernel fs files pipes s2 of_ cw) (x :: qs) 1 ip true i)).
    { unfold procinit, modify, set_procs. cbn [procs kern nextpid initproc first me]. by rewrite Ep. }
    mstep (xproc_run procinit (kvminithart kpt h) _ rs t tt _ Ei). unfold trapinithart, w_stvec, w_csr. rewrite bind_modify. cbn [get_hart put_hart machine_hart m_hart m_sys]. fold h1.
    mstep (xfs_run (blk_op (bio binit)) h1 (Kernel fs files pipes s2 of_ cw) (x :: qs) 1 ip true i rs t tt fs1 Eb).
    mstep (xfs_run iinit h1 (Kernel fs1 files pipes s2 of_ cw) (x :: qs) 1 ip true i rs t tt fs2 eq_refl).
    mstep (xpage_run (virtio_disk_init mmio) h1 (Kernel fs2 files pipes s2 of_ cw) (x :: qs) 1 ip true i rs t ws s3 Ed).
    mstep (xproc_run (userinit forkret_addr) h1 _ rs t tt _ E3). reflexivity.
  - split; [split; cbn [m_hart m_sys base procs first]|].
    + split; [exact L1|split; reflexivity].
    + exists stacks. intros va Hva. rewrite (leaf_frame (mem s2) (mm (TSys (KSys k' (x' :: qs) 2 (Some 0%nat) true i) rs t))); [by apply HF|].
      intros q Hq'. pose proof (is_table_valid _ _ _ (vm_wf _ _ _ Hi2) Hq') as [Hqv _]. pose proof (vm_notfree _ _ _ Hi2 q Hq') as Hqn.
      apply mem_eq_on_trans with (mem s3); [by apply Hsd|]. apply Hsp; [done|]. intros Hx'. apply Hqn. do 3 right. exact Hx'.
    + exists x', qs. rewrite Hkl, Hks. split; [reflexivity|]. split; [exact Hfp|]. split; [exact Hpid|]. split; [exact Hx2|]. split; [exact Hx3|exact Hq].
    + reflexivity.
    + cbn [m_sys base kern k_fs]. unfold boot_fs. mstep Eb. unfold iinit. rewrite bind_modify. change (FState _ _ _) with (k_fs k2). by rewrite Enm.
Qed.

(** ** The first process runs *)

(** The scheduler switches to process 0, which starts in [forkret]. *)
Definition first_run (usertrap_addr uservec_off : Z) : M machine trap_end :=
  on_cpu 0;; b ← xproc_op (schedule 0);
  if (b : bool) then xproc_op forkret;; usertrapret usertrap_addr uservec_off else mret Gone.

Lemma first_run_ok usertrap_addr uservec_off kpt y fs' :
  ready_to_run kernelvec_addr kpt y -> 0 <= usertrap_addr < 2 ^ 64 -> fsinit ROOTDEV (k_fs (kern (base (m_sys y)))) = Done tt fs' ->
  exists v z w, first_run usertrap_addr uservec_off y = Done (ToUser v) z /\ run_asm userret (Mach (set_reg a0 v (m_hart z)) (m_sys z)) = Some (w, 0) /\
    user_ready usertrap_addr uservec_off w /\ gpr (m_hart w) sp = PGSIZE /\ p_pid (cur (m_sys w)) = 1 /\
    starts_with (mm (m_sys w)) (p_pagetable (cur (m_sys w))) (p_trapframe (cur (m_sys w))) initcode.
Proof.
  intros [(Hp & _ & _) _ (x & ps & Eps & Hfp & Hpid & Hkl & _ & _) Hfi] Hu Ef. destruct y as [h [[k ps' np ip fi i] rs t]].
  cbn [m_hart m_sys base kern procs first] in *. subst ps' fi. destruct Hfp as [F1 F2 F3 F4 F5 F6 F7 F8].
  change (mm (TSys (KSys k (x :: ps) np ip true i) rs t)) with (mem (k_mem k)) in *.
  set (x1 := with_state RUNNING x). set (e := TSys (KSys (set_fs fs' k) (x1 :: ps) np ip false 0) rs t).
  assert (Es : schedule 0 (KSys k (x :: ps) np ip true 0) = Done true (KSys k (x1 :: ps) np ip true 0)).
  { unfold schedule. rewrite bind_gets. change (proc_at 0 (KSys k (x :: ps) np ip true 0)) with x. rewrite F1, decide_True by done. reflexivity. }
  assert (Er : forkret (KSys k (x1 :: ps) np ip true 0) = Done tt (base e)).
  { unfold forkret. rewrite bind_gets. cbn [first]. rewrite bind_modify. apply (pfs_run (fsinit ROOTDEV) (KSys k (x1 :: ps) np ip false 0) tt fs' Ef). }
  destruct (leave_kernel usertrap_addr uservec_off h e) as (z & w & E1 & E2 & W1 & W2 & W3 & W4 & W5 & W6 & W7 & W8); [exact F4|exact Hp|exact Hu|].
  change (p_trapframe (cur e)) with (p_trapframe x) in *. change (p_pagetable (cur e)) with (p_pagetable x) in *. change (mm e) with (mem (k_mem k)) in *. rewrite F5 in E2.
  destruct (frame_stores (p_trapframe x) (p_pagetable x) (mem (k_mem k)) (mm (m_sys w)) F4 F8 W8) as [T1 T2].
  eexists _, z, w. split; [|split; [exact E2|split; [|split; [rewrite W4; exact F6|split; [rewrite W5; exact Hpid|rewrite W5; exact T2]]]]].
  - unfold first_run. transitivity ((b ← xproc_op (schedule 0); if (b : bool) then xproc_op forkret;; usertrapret usertrap_addr uservec_off else mret Gone)
      (Mach h (TSys (KSys k (x :: ps) np ip true 0) rs t))); [reflexivity|].
    mstep (xproc_run (schedule 0) h _ rs t true _ Es). cbv iota. mstep (xproc_run forkret h _ rs t tt _ Er). exact E1.
  - split; rewrite ?W5.
    + exact W1.
    + exact W2.
    + exact T1.
    + intros r. rewrite W4. apply (load_le_bytes (mem (k_mem k)) 8). intros b Hb. apply F7. pose proof (tf_off_range r). unfold in_page, in_range, PGSIZE in *. lia.
    + exact W6.
    + exact W3.
    + exact Hkl.
Qed.
End BootInit.

(** C10: The kernel boots into its first program.  From the state in which [start] hands hart 0
    over, with a virtio disk that has accepted the features and has a queue of eight entries, and
    with 348 pages of memory, [main] runs to the call of [scheduler] without a panic: paging is on
    with the kernel's address space, traps go to [kernelvec], and process 1 is ready to run while
    every other slot is free.  And when the scheduler switches to it and
    [fsinit] accepts the disk, [forkret], [usertrapret] and [userret] take the hart to user mode
    at address 0 of a page that holds [initcode], with the stack pointer at the end of the
    page, ready for its first system call. *)
Theorem boot_reaches_initcode `{KernelImage} `{Devices} forkret_addr kernelvec_addr usertrap_addr uservec_off mmio pt0 st s :
  loaded s -> disk_there mmio -> kend + 348 * PGSIZE <= PHYSTOP -> 0 <= usertrap_addr < 2 ^ 64 ->
  exists kpt evs y, main forkret_addr kernelvec_addr mmio pt0 st s = Done (Some (kpt, evs)) y /\ ready_to_run forkret_addr kernelvec_addr kpt y /\
    boot_fs (k_fs (kern (base (m_sys s)))) = Some (k_fs (kern (base (m_sys y)))) /\
    forall fs', fsinit ROOTDEV (k_fs (kern (base (m_sys y)))) = Done tt fs' ->
      exists v z w, first_run usertrap_addr uservec_off y = Done (ToUser v) z /\ run_asm userret (Mach (set_reg a0 v (m_hart z)) (m_sys z)) = Some (w, 0) /\
        user_ready usertrap_addr uservec_off w /\ gpr (m_hart w) sp = PGSIZE /\ p_pid (cur (m_sys w)) = 1 /\
        starts_with (mm (m_sys w)) (p_pagetable (cur (m_sys w))) (p_trapframe (cur (m_sys w))) initcode.
Proof.
  intros Hl Hd Hm Hu. destruct (main_boots forkret_addr kernelvec_addr mmio pt0 st s Hl Hd Hm) as (kpt & evs & y & E & Hr & Hf). exists kpt, evs, y.
  split; [exact E|]. split; [exact Hr|]. split; [exact Hf|]. intros fs' Ef. by apply (first_run_ok forkret_addr kernelvec_addr usertrap_addr uservec_off kpt y fs').
Qed.

#[local] Instance no_drivers : Devices := {| dev_read := fun _ => None; dev_write := fun _ => None |}.

(** A disk with a superblock and an empty log, and the kernel's memory as the boot loader leaves it. *)
Definition boot_disk : gmap Z block :=
  <[1 := st32 (st32 (st32 zero_block 0 FSMAGIC) 16 30) 20 2]> (<[2 := zero_block]> ∅).

Definition boot_machine : machine :=
  Mach (Hart (fun _ => 0) (fun _ => 0) SMode)
    (TSys (KSys (Kernel (FState (LState (BState (replicate (S NBUF) inhabitant) boot_disk [] 1) (Log 0 0 0 false 0 0 [])) (Superblock 0 0 0 0 0 0 0 0) [inhabitant]) [] ∅ (KState ∅ 0) [] 0)
      [inhabitant] 1 None true 0) [] 0).

(** The registers of qemu's disk, once the features are negotiated. *)
Definition boot_mmio (r : Z) : Z :=
  match r with 0 => 0x74726976 | 4 => 2 | 8 => 2 | 0xc => 0x554d4551 | 0x34 => 1024 | 0x70 => 11 | _ => 0 end.

Lemma boot_reaches_initcode_witness :
  exists kpt evs y v z w, main 0x80001000 0x80005000 boot_mmio 0 true boot_machine = Done (Some (kpt, evs)) y /\
    first_run 0x80002000 0 y = Done (ToUser v) z /\ run_asm userret (Mach (set_reg a0 v (m_hart z)) (m_sys z)) = Some (w, 0) /\
    priv (m_hart w) = UMode /\ p_pid (cur (m_sys w)) = 1.
Proof.
  destruct (boot_reaches_initcode 0x80001000 0x80005000 0x80002000 0 boot_mmio 0 true boot_machine) as (kpt & evs & y & Em & _ & Ef & Hf).
  - split; try reflexivity; try discriminate; repeat constructor.
  - split; try reflexivity. vm_compute. discriminate.
  - vm_compute. discriminate.
  - lia.
  - assert (R : match fsinit ROOTDEV (k_fs (kern (base (m_sys y)))) with Done _ _ => True | _ => False end).
    { match type of Ef with ?a = Some ?b => change (match Some b with Some f => match fsinit ROOTDEV f with Done _ _ => True | _ => False end | None => False end) end.
      rewrite <- Ef. vm_compute. exact I. }
    destruct (fsinit ROOTDEV _) as [[] fs'| |] eqn:E; try (exfalso; exact R).
    destruct (Hf fs' eq_refl) as (v & z & w & E1 & E2 & Hu & _ & Hp & _).
    exists kpt, evs, y, v, z, w. split; [exact Em|]. split; [exact E1|]. split; [exact E2|]. split; [apply (ur_priv _ _ _ Hu)|exact Hp].
Defined.
