(* ===== verification/UserProgs.v ===== *)
(** * The small user programs

    [cat], [wc], [grep]'s main, [echo], [ls], [mkdir], [rm], [ln], [kill], [zombie], [init], the
    pipe benchmark [pb], and the test programs [forktest], [stressfs], [grind], [krbt] and
    [urbt].  A program is the interaction tree of the system calls it makes; a string is its
    characters without the NUL, and [argv] is the list of the arguments.  [runs] is a run to the
    end under a kernel that answers every call, and [safe] speaks of every run under every
    kernel.  What [cat], [wc] and [grep] rely on of the kernel is the class [Files]. *)

From ITree Require Import ITree.
From S2P Require Import Prelude Printf CString Riscv RingbufU Block Fs Sysfile Grep Sh.

(** ** System calls *)

(** The calls with what they return: the value, and what they store through their pointer.
    [buf] of [Ringbuf] is what the variable its pointer leads to holds before the call. *)
Inductive callE : Type -> Type :=
| Open (path : list Z) (omode : Z) : callE Z
| Close (fd : Z) : callE Z
| Read (fd n : Z) : callE (Z * list Z)
| Write (fd : Z) (bytes : list Z) : callE Z
| Fstat (fd : Z) : callE (Z * stat)
| Dup (fd : Z) : callE Z
| Mknod (path : list Z) (major minor : Z) : callE Z
| Mkdir (path : list Z) : callE Z
| Link (old new : list Z) : callE Z
| Unlink (path : list Z) : callE Z
| Pipe : callE (Z * (Z * Z))
| Fork : callE Z
| Exec (path : list Z) (argv : list (list Z)) : callE Z
| Wait : callE (Z * Z)
| Kill (pid : Z) : callE Z
| Sleep (n : Z) : callE Z
| Uptime : callE Z
| Chdir (path : list Z) : callE Z
| Getpid : callE Z
| Sbrk (n : Z) : callE Z
| Ringbuf (name : list Z) (open : bool) (buf : Z) : callE (Z * Z).

Inductive exitE : Type -> Type := Exit (status : Z) : exitE Empty_set.

Abbreviation U := (itree (callE +' exitE)).

#[export] Instance U_ret : MRet U := fun A a => go (RetF a).
#[export] Instance U_bind : MBind U := fun A B k t => ITree.bind t k.

Definition sys {X} (e : callE X) : U X := ITree.trigger (inl1 e).
Definition exit {A} (status : Z) : U A := ITree.bind (ITree.trigger (inr1 (Exit status))) (fun x : Empty_set => match x with end).

(** [_main]: a program that returns exits. *)
Definition umain {A} (main : U A) : U unit := main;; exit 0.

(** What [status] holds after [wait(&status)]; a [wait] that fails stores nothing. *)
Definition wait_status (status : Z) : U Z := r ← sys Wait; mret (if fst r <? 0 then status else snd r).

(** [for(x in l) f(x)] *)
Fixpoint each {A} (l : list A) (f : A -> U unit) : U unit :=
  match l with [] => mret tt | x :: l => f x;; each l f end.

Definition putc (fd c : Z) : U unit := sys (Write fd [c]);; mret tt.
Definition fprintf (fd : Z) (fmt : string) (ap : list arg) : U unit :=
  each (default [] (vprintf (str fmt) ap false)) (putc fd).
Definition printf (fmt : string) (ap : list arg) : U unit := fprintf 1 fmt ap.

(** A newline at the end of a message. *)
Definition nl : string := String (Ascii.ascii_of_nat 10) EmptyString.
Definition line (s : string) : string := String.append s nl.

(** ** cat *)

(** A round of the loop of [cat], and below of [wc]. *)
Definition cat_round (fd : Z) (_ : unit) : U (unit + unit) :=
  r ← sys (Read fd 512);
  if 0 <? fst r then
    w ← sys (Write 1 (snd r));
    if w =? fst r then mret (inl tt) else fprintf 2 (line "cat: write error") [];; exit 1
  else if fst r <? 0 then fprintf 2 (line "cat: read error") [];; exit 1
  else mret (inr tt).

Definition cat (fd : Z) : U unit := ITree.iter (cat_round fd) tt.

Definition cat_main (argv : list (list Z)) : U unit :=
  match tail argv with
  | [] => cat 0;; exit 0
  | args =>
      each args (fun a =>
        fd ← sys (Open a 0);
        if fd <? 0 then fprintf 2 (line "cat: cannot open %s") [AStr (Some a)];; exit 1
        else cat fd;; sys (Close fd);; mret tt);;
      exit 0
  end.

(** ** wc *)

Record counts := Counts { wl : Z; ww : Z; wch : Z; inword : bool }.

(** The characters of [" \r\t\n\v"]. *)
Definition wc_spaces : list Z := [32; 13; 9; 10; 11].

Definition wc_char (k : counts) (b : Z) : counts :=
  let c := s32 (wch k + 1) in
  let l := if b =? 10 then s32 (wl k + 1) else wl k in
  if has wc_spaces b then Counts l (ww k) c false
  else if inword k then Counts l (ww k) c true else Counts l (s32 (ww k + 1)) c true.

Definition wc_round (fd : Z) (k : counts) : U (counts + counts) :=
  r ← sys (Read fd 512);
  if 0 <? fst r then mret (inl (foldl wc_char k (snd r)))
  else if fst r <? 0 then printf (line "wc: read error") [];; exit 1
  else mret (inr k).

Definition wc (fd : Z) (name : list Z) : U unit :=
  k ← ITree.iter (wc_round fd) (Counts 0 0 0 false);
  printf (line "%d %d %d %s") [ANum (wl k); ANum (ww k); ANum (wch k); AStr (Some name)].

Definition wc_main (argv : list (list Z)) : U unit :=
  match tail argv with
  | [] => wc 0 [];; exit 0
  | args =>
      each args (fun a =>
        fd ← sys (Open a 0);
        if fd <? 0 then printf (line "wc: cannot open %s") [AStr (Some a)];; exit 1
        else wc fd a;; sys (Close fd);; mret tt);;
      exit 0
  end.

(** ** grep *)

(** The inner loop of [grep] from [p] on, when [line] is what it passed since the last newline:
    the lines it writes, and what it leaves in the buffer. *)
Fixpoint grep_cut (pattern line p : list Z) : list (list Z) * list Z :=
  match p with
  | [] => ([], line)
  | c :: p' =>
      if c =? 0 then ([], line ++ p)
      else if c =? NL then
        let '(ws, rest) := grep_cut pattern [] p' in
        (if match_ pattern line then (line ++ [NL]) :: ws else ws, rest)
      else grep_cut pattern (line ++ [c]) p'
  end.

Definition grep_size (buf : list Z) : Z := Z.of_nat BUFSZ - Z.of_nat (length buf) - 1.

Definition grep_round (pattern : list Z) (fd : Z) (buf : list Z) : U (list Z + unit) :=
  r ← sys (Read fd (grep_size buf));
  if 0 <? fst r then
    let '(ws, rest) := grep_cut pattern [] (buf ++ snd r) in
    each ws (fun w => sys (Write 1 w);; mret tt);;
    mret (inl rest)
  else mret (inr tt).

Definition grep_fd (pattern : list Z) (fd : Z) : U unit := ITree.iter (grep_round pattern fd) [].

Definition grep_main (argv : list (list Z)) : U unit :=
  match tail argv with
  | [] => fprintf 2 (line "usage: grep pattern [file ...]") [];; exit 1
  | [pattern] => grep_fd pattern 0;; exit 0
  | pattern :: args =>
      each args (fun a =>
        fd ← sys (Open a 0);
        if fd <? 0 then printf (line "grep: cannot open %s") [AStr (Some a)];; exit 1
        else grep_fd pattern fd;; sys (Close fd);; mret tt);;
      exit 0
  end.

(** ** echo, mkdir, rm, ln, kill, zombie *)

Fixpoint echo_args (args : list (list Z)) : U unit :=
  match args with
  | [] => mret tt
  | a :: args =>
      sys (Write 1 a);;
      match args with [] => sys (Write 1 [10]);; mret tt | _ => sys (Write 1 [32]);; mret tt end;;
      echo_args args
  end.

Definition echo_main (argv : list (list Z)) : U unit := echo_args (tail argv);; exit 0.

(** [if(call(argv[i]) < 0){ message; break; }] for every argument. *)
Fixpoint until_failure (args : list (list Z)) (call : list Z -> callE Z) (message : string) : U unit :=
  match args with
  | [] => mret tt
  | a :: args =>
      r ← sys (call a);
      if r <? 0 then fprintf 2 (line message) [AStr (Some a)] else until_failure args call message
  end.

Definition mkdir_main (argv : list (list Z)) : U unit :=
  if Z.of_nat (length argv) <? 2 then fprintf 2 (line "Usage: mkdir files...") [];; exit 1
  else until_failure (tail argv) Mkdir "mkdir: %s failed to create";; exit 0.

Definition rm_main (argv : list (list Z)) : U unit :=
  if Z.of_nat (length argv) <? 2 then fprintf 2 (line "Usage: rm files...") [];; exit 1
  else until_failure (tail argv) Unlink "rm: %s failed to delete";; exit 0.

Definition ln_main (argv : list (list Z)) : U unit :=
  match argv with
  | [_; old; new] =>
      r ← sys (Link old new);
      (if r <? 0 then fprintf 2 (line "link %s %s: failed") [AStr (Some old); AStr (Some new)] else mret tt);;
      exit 0
  | _ => fprintf 2 (line "Usage: ln old new") [];; exit 1
  end.

Definition kill_main (argv : list (list Z)) : U unit :=
  if Z.of_nat (length argv) <? 2 then fprintf 2 (line "usage: kill pid...") [];; exit 1
  else each (tail argv) (fun a => sys (Kill (atoi a));; mret tt);; exit 0.

Definition zombie_main : U unit :=
  pid ← sys Fork;
  (if 0 <? pid then sys (Sleep 5);; mret tt else mret tt);;
  exit 0.

(** ** ls *)

Definition SLASH : Z := 47.
Abbreviation dirsiz := (Z.to_nat DIRSIZ).

(** The index after [p] once the loop of [fmtname] stops, when [p] is at index [i - 1]. *)
Fixpoint after_slash (path : list Z) (i : nat) : nat :=
  match i with O => O | S j => if nth j path 0 =? SLASH then i else after_slash path j end.

Definition fmtname (path : list Z) : list Z :=
  let p := drop (after_slash path (S (length path))) path in
  if (dirsiz <=? length p)%nat then p else p ++ replicate (dirsiz - length p) 32.

(** [stat] of the user library. *)
Definition user_stat (n : list Z) : U (Z * stat) :=
  fd ← sys (Open n O_RDONLY);
  if fd <? 0 then mret (-1, Stat 0 0 0 0 0)
  else r ← sys (Fstat fd); sys (Close fd);; mret r.

(** [struct dirent]: an inode number and a name. *)
Definition de_inum (de : list Z) : Z := nth 0 de 0 + 256 * nth 1 de 0.
Definition de_name (de : list Z) : list Z := cstring (take dirsiz (drop 2 de)).

Definition ls_entry (path de : list Z) : U unit :=
  if de_inum de =? 0 then mret tt
  else
    let buf := path ++ [SLASH] ++ de_name de in
    r ← user_stat buf;
    if fst r <? 0 then printf (line "ls: cannot stat %s") [AStr (Some buf)]
    else
      let st := snd r in
      printf (line "%s %d %d %d") [AStr (Some (fmtname buf)); ANum (st_type st); ANum (st_ino st); ANum (st_size st)].

Definition ls_dir (fd : Z) (path : list Z) : U unit :=
  ITree.iter (fun _ : unit =>
    r ← sys (Read fd 16);
    if fst r =? 16 then ls_entry path (snd r);; mret (inl tt) else mret (inr tt)) tt.

Definition ls (path : list Z) : U unit :=
  fd ← sys (Open path 0);
  if fd <? 0 then fprintf 2 (line "ls: cannot open %s") [AStr (Some path)]
  else
    r ← sys (Fstat fd);
    if fst r <? 0 then
      fprintf 2 (line "ls: cannot stat %s") [AStr (Some path)];;
      sys (Close fd);; mret tt
    else
      let st := snd r in
      (if (st_type st =? T_DEVICE) || (st_type st =? T_FILE) then
         printf (line "%s %d %d %l") [AStr (Some (fmtname path)); ANum (st_type st); ANum (st_ino st); ANum (st_size st)]
       else if st_type st =? T_DIR then
         if 512 <? Z.of_nat (length path + 1 + dirsiz + 1) then printf (line "ls: path too long") []
         else ls_dir fd path
       else mret tt);;
      sys (Close fd);; mret tt.

Definition ls_main (argv : list (list Z)) : U unit :=
  if Z.of_nat (length argv) <? 2 then ls (str ".");; exit 0
  else each (tail argv) ls;; exit 0.

(** ** init *)

Definition CONSOLE : Z := 1.

(** The inner loop: wait until the shell [pid] exits. *)
Definition init_wait (pid : Z) : U unit :=
  ITree.iter (fun _ : unit =>
    r ← sys Wait;
    if fst r =? pid then mret (inr tt)
    else if fst r <? 0 then printf (line "init: wait returned an error") [];; exit 1
    else mret (inl tt)) tt.

Definition init_loop : U unit :=
  ITree.iter (fun _ : unit =>
    printf (line "init: starting sh") [];;
    pid ← sys Fork;
    if pid <? 0 then printf (line "init: fork failed") [];; exit 1
    else if pid =? 0 then
      sys (Exec (str "sh") [str "sh"]);;
      printf (line "init: exec sh failed") [];;
      exit 1
    else init_wait pid;; mret (inl tt)) tt.

Definition init_main : U unit :=
  fd ← sys (Open (str "console") O_RDWR);
  (if fd <? 0 then
     sys (Mknod (str "console") CONSOLE 0);;
     sys (Open (str "console") O_RDWR);; mret tt
   else mret tt);;
  sys (Dup 0);;
  sys (Dup 0);;
  init_loop.

(** ** pb *)

Definition ITR : Z := 10.
Definition MB : Z := 1024 * 1024.

(** The array [buf], by index, after the loop that fills it and after [read] stored [bytes]. *)
Definition pb_filled (buf : Z -> Z) : Z -> Z := fun i => if (0 <=? i) && (i <? ITR * MB) then 109 else buf i.
Definition pb_store (buf : Z -> Z) (bytes : list Z) : Z -> Z :=
  fun i => if (0 <=? i) && (i <? Z.of_nat (length bytes)) then nth (Z.to_nat i) bytes 0 else buf i.

(** The first index from [i] on whose byte is not 'm', [rem] bytes to check. *)
Fixpoint pb_check (rem : nat) (buf : Z -> Z) (i : Z) : option Z :=
  match rem with O => None | S rem => if negb (buf i =? 109) then Some i else pb_check rem buf (i + 1) end.

(** The ten rounds of the child, from round [i] on. *)
Fixpoint pb_writes (rem : nat) (fd : Z) (buf : list Z) (i total : Z) : U Z :=
  match rem with
  | O => mret total
  | S rem =>
      n ← sys (Write fd buf);
      let total := s32 (total + n) in
      if negb (n =? MB) then printf "Failed to write byte: %d" [ANum i];; sys (Close fd);; exit 1
      else pb_writes rem fd buf (i + 1) total
  end.

Definition pb_child (p : Z * Z) (buf : Z -> Z) : U Z :=
  sys (Close (fst p));;
  total ← pb_writes (Z.to_nat ITR) (snd p) (buf <$> seqZ 0 MB) 0 0;
  printf (line "Child completed...%d bytes write") [ANum total];;
  sys (Close (snd p));;
  exit 0.

Definition pb_reads (fd : Z) (buf : Z -> Z) : U ((Z -> Z) * Z) :=
  ITree.iter (fun '(buf, total) =>
    r ← sys (Read fd MB);
    let total := s32 (total + fst r) in
    if fst r <=? 0 then mret (inr (buf, total)) else mret (inl (pb_store buf (snd r), total))) (buf, 0).

Definition pb_validate (buf : Z -> Z) (clocks : Z) : U Z :=
  printf "Buffer validation..." [];;
  match pb_check (Z.to_nat (ITR * MB)) buf 0 with
  | Some i => printf (line "%dth bytes failed!") [ANum i];; exit 1
  | None =>
      printf (line "%d bytes passed!") [ANum (ITR * MB)];;
      now ← sys Uptime;
      printf (line "PB # of clocks: %d") [ANum (s32 (now - clocks))];;
      mret 0
  end.

Definition pb_parent (junk pid : Z) (p : Z * Z) (buf : Z -> Z) : U Z :=
  clocks ← sys Uptime;
  sys (Close (snd p));;
  printf (line "Parent is reading...") [];;
  r ← pb_reads (fst p) buf;
  printf (line "Parent completed...%d bytes read") [ANum (snd r)];;
  printf "Parent waiting for child..." [];;
  child_rc ← wait_status junk;
  if negb (child_rc =? 0) then
    printf (line "Child (%d) failed to write. rc: %d") [ANum pid; ANum child_rc];;
    sys (Close (fst p));;
    exit 1
  else
    printf (line "done") [];;
    sys (Close (fst p));;
    pb_validate (fst r) clocks.

(** [buf0] is the array before [main], and [junk] what [child_rc] holds. *)
Definition pb_main (junk : Z) (buf0 : Z -> Z) : U Z :=
  printf "Filling buffer..." [];;
  let buf := pb_filled buf0 in
  printf (line "%d bytes") [ANum (ITR * MB)];;
  printf (line "Creating pipe...") [];;
  r ← sys Pipe;
  if negb (fst r =? 0) then printf (line "Failed to create pipe.") [];; exit 1
  else
    printf (line "Forking child...") [];;
    pid ← sys Fork;
    if pid =? 0 then pb_child (snd r) buf
    else if 0 <? pid then pb_parent junk pid (snd r) buf
    else printf (line "Failed to fork. PID: %d") [ANum pid];; mret 0.

(** ** forktest *)

Definition print (s : list Z) : U unit := sys (Write 1 s);; mret tt.

(** The fork loop from [n] on, [rem] rounds before [N]; it ends with [n]. *)
Fixpoint fork_loop (rem : nat) (n : Z) : U Z :=
  match rem with
  | O => mret n
  | S rem =>
      pid ← sys Fork;
      if pid <? 0 then mret n
      else if pid =? 0 then exit 0
      else fork_loop rem (n + 1)
  end.

Fixpoint wait_loop (n : nat) : U unit :=
  match n with
  | O => mret tt
  | S n =>
      r ← sys Wait;
      if fst r <? 0 then print (str (line "wait stopped early"));; exit 1 else wait_loop n
  end.

Definition forktest : U unit :=
  print (str (line "fork test"));;
  n ← fork_loop 1000 0;
  if n =? 1000 then print (str (line "fork claimed to work N times!"));; exit 1
  else
    wait_loop (Z.to_nat n);;
    r ← sys Wait;
    if negb (fst r =? -1) then print (str (line "wait got too many"));; exit 1
    else print (str (line "fork test OK")).

Definition forktest_main : U unit := forktest;; exit 0.

(** ** stressfs *)

(** [for(i = 0; i < 4; i++) if(fork() > 0) break;], [rem] rounds from [i] on. *)
Fixpoint stress_forks (rem : nat) (i : Z) : U Z :=
  match rem with
  | O => mret i
  | S rem => pid ← sys Fork; if 0 <? pid then mret i else stress_forks rem (i + 1)
  end.

Fixpoint times (n : nat) (t : U unit) : U unit := match n with O => mret tt | S n => t;; times n t end.

Definition stress_reads (fd : Z) : U unit := times 20 (sys (Read fd 512);; mret tt).

Definition stressfs_main : U unit :=
  printf (line "stressfs starting") [];;
  let data := replicate 512 97 in
  i ← stress_forks 4 0;
  printf (line "write %d") [ANum i];;
  let path := str "stressfs" ++ [48 + i] in
  fd ← sys (Open path (Z.lor O_CREATE O_RDWR));
  times 20 (sys (Write fd data);; mret tt);;
  sys (Close fd);;
  printf (line "read") [];;
  fd ← sys (Open path O_RDONLY);
  stress_reads fd;;
  sys (Close fd);;
  sys Wait;;
  exit 0.

(** ** krbt and urbt *)

Definition muteeb : list Z := str "muteeb".
Definition gaurav : list Z := str "gaurav".

(** [if (ringbuf(name, open, &buf) != 0) return -1;] then [k] on the new content of [buf]. *)
Definition ring_or_fail (name : list Z) (open : bool) (buf : Z) (k : Z -> U Z) : U Z :=
  r ← sys (Ringbuf name open buf);
  if negb (fst r =? 0) then mret (-1) else k (snd r).

Definition show_rings (buf1 buf2 : Z) : U Z :=
  printf (line "ringbuf1: %p") [ANum buf1];;
  printf (line "ringbuf1 book page: %p") [ANum (buf1 - 16 * 4096)];;
  printf (line "ringbuf2: %p") [ANum buf2];;
  printf (line "ringbuf2 book page: %p") [ANum (buf2 - 16 * 4096)];;
  mret 0.

Section Krbt.
(** What the uninitialised variables hold, and the address of [buf1]. *)
Variables (j1 j2 buf1_addr : Z).

Definition create_one_ringbuf : U Z := r ← sys (Ringbuf muteeb true j1); mret (fst r).

Definition create_two_ringbuf_same_name : U Z :=
  ring_or_fail muteeb true j1 (fun buf1 => ring_or_fail muteeb true j2 (fun buf2 => show_rings buf1 buf2)).

Definition create_two_ringbuf_diff_name : U Z :=
  ring_or_fail muteeb true j1 (fun buf1 => ring_or_fail gaurav true j2 (fun buf2 => show_rings buf1 buf2)).

Definition create_delete_ringbuf : U Z :=
  printf (line "my buf: %p") [ANum 0];;
  printf (line "my buf addr: %p") [ANum buf1_addr];;
  ring_or_fail muteeb true 0 (fun buf1 =>
    printf (line "ringbuf1: %p") [ANum buf1];;
    printf (line "ringbuf1 &: %p") [ANum buf1_addr];;
    ring_or_fail muteeb false buf1 (fun _ => mret 0)).

Definition create_two_delete_ringbuf_one : U Z :=
  ring_or_fail muteeb true j1 (fun buf1 => ring_or_fail muteeb true buf1 (fun buf1 =>
    ring_or_fail muteeb false buf1 (fun _ => mret 0))).

Definition create_two_delete_two_ringbuf : U Z :=
  ring_or_fail muteeb true j1 (fun buf1 => ring_or_fail muteeb true j2 (fun buf2 =>
    ring_or_fail muteeb false buf1 (fun _ => ring_or_fail muteeb false buf2 (fun _ => mret 0)))).

Definition create_two_delete_two_diff_ringbuf : U Z :=
  ring_or_fail muteeb true j1 (fun buf1 => ring_or_fail gaurav true j2 (fun buf2 =>
    ring_or_fail muteeb false buf1 (fun _ => ring_or_fail gaurav false buf2 (fun _ => mret 0)))).

Definition only_delete_ringbuf : U Z := ring_or_fail muteeb false j1 (fun _ => mret 0).

(** The 17 names, ["muteeb0"] to ["muteeb16"]. *)
Definition max_names : list (list Z) := (fun i => muteeb ++ printint digits_user i 10 true) <$> seqZ 0 17.

Fixpoint max_ringbuf_loop (names : list (list Z)) (buf1 : Z) : U Z :=
  match names with
  | [] => mret 0
  | name :: names =>
      printf (String.append nl (line "Userspace: Creating ringbuf '%s'")) [AStr (Some name)];;
      ring_or_fail name true buf1 (fun buf1 => max_ringbuf_loop names buf1)
  end.

Definition max_ringbuf : U Z := max_ringbuf_loop max_names j1.

Definition long_ringbuf_name : U Z :=
  ring_or_fail (str "muteeb1muteeb1muteeb1muteeb1muteeb1") true j1 (fun _ => mret 0).

(** The other tests are commented out. *)
Definition krbt_main : U Z :=
  r ← create_delete_ringbuf;
  printf (line (line "TEST: create_delete_ringbuf: %d")) [ANum r];;
  printf (line "goodbye") [];;
  mret 0.
End Krbt.

(** The library's [ringbuf_open] and [ringbuf_close] with their system call; [past] is what
    follows the table in memory. *)
Definition open_ring (name : list Z) (tab : list user_ring_buf) (junk : Z) : U (Z * list user_ring_buf) :=
  r ← sys (Ringbuf name true junk);
  (if negb (fst r =? 0) then printf (line "Failed to open ringbuf") [] else mret tt);;
  mret (ringbuf_open (fst r) (snd r) tab).

Definition close_ring (name : list Z) (tab : list user_ring_buf) (past : user_ring_buf) (rd : Z) : U (Z * list user_ring_buf) :=
  if negb (is_rd_valid tab past rd =? 0) then exit 1
  else
    r ← sys (Ringbuf name false (close_addr (entry tab past rd)));
    (if negb (fst r =? 0) then printf (line "Failed to close ringbuf") [] else mret tt);;
    match ringbuf_close tab past rd (fst r) with Some x => mret x | None => exit 1 end.

Definition serial_read_write (tab : list user_ring_buf) (past : user_ring_buf) (junk : Z) : U Z :=
  o1 ← open_ring muteeb tab junk;
  o2 ← open_ring muteeb (snd o1) junk;
  if fst o1 <? 0 then mret (-1)
  else if fst o2 <? 0 then mret (-1)
  else
    c1 ← close_ring muteeb (snd o2) past (fst o1);
    if negb (fst c1 =? 0) then mret (-1)
    else
      c2 ← close_ring muteeb (snd c1) past (fst o2);
      if negb (fst c2 =? 0) then mret (-1) else mret 0.

Definition urbt_main (tab : list user_ring_buf) (past : user_ring_buf) (junk : Z) : U Z :=
  r ← serial_read_write tab past junk;
  printf (line (line "TEST: serial_read_write: %d")) [ANum r];;
  printf (line "goodbye") [];;
  mret 0.

(** ** grind *)

(** [do_rand(ctx)]: the new [*ctx], which is also what it returns; [long] has 64 bits. *)
Definition do_rand (ctx : Z) : Z :=
  let x := ctx mod 0x7ffffffe + 1 in
  let hi := x / 127773 in
  let lo := x mod 127773 in
  let x := 16807 * lo - 2836 * hi in
  let x := if x <? 0 then x + 0x7fffffff else x in
  x - 1.

Definition O_CRW : Z := Z.lor O_CREATE O_RDWR.

Definition close_open (path : string) : U unit := fd ← sys (Open (str path) O_CRW); sys (Close fd);; mret tt.
Definition unlink (path : string) : U unit := sys (Unlink (str path));; mret tt.
Definition fail {A} (fd : Z) (message : string) (status : Z) : U A := fprintf fd (line message) [];; exit status.

(** [pid = fork(); if(pid == 0) child; else if(pid < 0) fail;]: the pid of the child. *)
Definition fork_child (child : U unit) : U Z :=
  pid ← sys Fork;
  if pid =? 0 then child;; exit 0
  else if pid <? 0 then fail 1 "grind: fork failed" 1
  else mret pid.

Definition wait0 : U unit := sys Wait;; mret tt.

(** The locals of [go] that outlive a round: [fd], [buf] and [iters]; and [rand_next]. *)
Record grind := Grind { g_fd : Z; g_buf : list Z; g_iters : Z; rand_next : Z }.
Definition set_fd (fd : Z) (g : grind) : grind := Grind fd (g_buf g) (g_iters g) (rand_next g).

(** The cases that use the file system. *)
Definition go_files (what : Z) (g : grind) : U grind :=
  if what =? 1 then close_open "grindir/../a";; mret g
  else if what =? 2 then close_open "grindir/../grindir/../b";; mret g
  else if what =? 3 then unlink "grindir/../a";; mret g
  else if what =? 4 then
    r ← sys (Chdir (str "grindir"));
    if negb (r =? 0) then fail 1 "grind: chdir grindir failed" 1
    else unlink "../b";; sys (Chdir (str "/"));; mret g
  else if what =? 5 then
    sys (Close (g_fd g));; fd ← sys (Open (str "/grindir/../a") O_CRW); mret (set_fd fd g)
  else if what =? 6 then
    sys (Close (g_fd g));; fd ← sys (Open (str "/./grindir/./../b") O_CRW); mret (set_fd fd g)
  else if what =? 7 then sys (Write (g_fd g) (g_buf g));; mret g
  else if what =? 8 then
    r ← sys (Read (g_fd g) 999);
    mret (Grind (g_fd g) (snd r ++ drop (length (snd r)) (g_buf g)) (g_iters g) (rand_next g))
  else if what =? 9 then
    sys (Mkdir (str "grindir/../a"));; close_open "a/../a/./a";; unlink "a/a";; mret g
  else if what =? 10 then
    sys (Mkdir (str "/../b"));; close_open "grindir/../b/b";; unlink "b/b";; mret g
  else if what =? 11 then
    unlink "b";; sys (Link (str "../grindir/./../a") (str "../b"));; mret g
  else (* 12 *)
    unlink "../grindir/../a";; sys (Link (str ".././b") (str "/grindir/../a"));; mret g.

Definition go_pipe : U unit :=
  r ← sys Pipe;
  if fst r <? 0 then fail 1 "grind: pipe failed" 1
  else
    let fds := snd r in
    fork_child (
      sys Fork;; sys Fork;;
      w ← sys (Write (snd fds) (str "x"));
      (if negb (w =? 1) then printf (line "grind: pipe write failed") [] else mret tt);;
      c ← sys (Read (fst fds) 1);
      if negb (fst c =? 1) then printf (line "grind: pipe read failed") [] else mret tt);;
    sys (Close (fst fds));;
    sys (Close (snd fds));;
    wait0.

(** The cases that use processes; [break0] is the first [sbrk(0)]. *)
Definition go_procs (what break0 : Z) : U unit :=
  if what =? 13 then fork_child (mret tt);; wait0
  else if what =? 14 then fork_child (sys Fork;; sys Fork;; mret tt);; wait0
  else if what =? 15 then sys (Sbrk 6011);; mret tt
  else if what =? 16 then
    b ← sys (Sbrk 0);
    if break0 <? b then b ← sys (Sbrk 0); sys (Sbrk (s32 (- (b - break0))));; mret tt else mret tt
  else if what =? 17 then
    pid ← fork_child (close_open "a");
    r ← sys (Chdir (str "../grindir/.."));
    if negb (r =? 0) then fail 1 "grind: chdir failed" 1
    else sys (Kill pid);; wait0
  else if what =? 18 then
    fork_child (me ← sys Getpid; sys (Kill me);; mret tt);; wait0
  else if what =? 19 then go_pipe
  else (* 20 *)
    fork_child (
      unlink "a";; sys (Mkdir (str "a"));; sys (Chdir (str "a"));; unlink "../a";;
      sys (Open (str "x") O_CRW);; unlink "x");;
    wait0.

Definition go_stat : U unit :=
  unlink "c";;
  fd1 ← sys (Open (str "c") O_CRW);
  if fd1 <? 0 then fail 1 "grind: create c failed" 1
  else
    w ← sys (Write fd1 (str "x"));
    if negb (w =? 1) then fail 1 "grind: write c failed" 1
    else
      r ← sys (Fstat fd1);
      if negb (fst r =? 0) then fail 1 "grind: fstat failed" 1
      else
        let st := snd r in
        if negb (st_size st =? 1) then
          printf (line "grind: fstat reports wrong size %d") [ANum (s32 (st_size st))];; exit 1
        else if 200 <? st_ino st then
          printf (line "grind: fstat reports crazy i-number %d") [ANum (st_ino st)];; exit 1
        else sys (Close fd1);; unlink "c".

(** [echo hi | cat] *)
Definition go_echo (aa bb : Z * Z) : U unit :=
  each [fst bb; snd bb; fst aa; 1] (fun fd => sys (Close fd);; mret tt);;
  d ← sys (Dup (snd aa));
  if negb (d =? 1) then fail 2 "grind: dup failed" 1
  else
    sys (Close (snd aa));;
    sys (Exec (str "grindir/../echo") [str "echo"; str "hi"]);;
    fail 2 "grind: echo: not found" 2.

Definition go_cat (aa bb : Z * Z) : U unit :=
  each [snd aa; fst bb; 0] (fun fd => sys (Close fd);; mret tt);;
  d ← sys (Dup (fst aa));
  if negb (d =? 0) then fail 2 "grind: dup failed" 4
  else
    sys (Close (fst aa));;
    sys (Close 1);;
    d ← sys (Dup (snd bb));
    if negb (d =? 1) then fail 2 "grind: dup failed" 5
    else
      sys (Close (snd bb));;
      sys (Exec (str "/cat") [str "cat"]);;
      fail 2 "grind: cat: not found" 6.

(** The byte [read] stored, or the 0 that was there. *)
Definition read_char (fd : Z) : U Z := r ← sys (Read fd 1); mret (nth 0 (snd r) 0).

Definition quote : string := String (Ascii.ascii_of_nat 34) EmptyString.

(** The parent; [j1] and [j2] are what [st1] and [st2] hold. *)
Definition go_pipeline_end (j1 j2 : Z) (aa bb : Z * Z) : U unit :=
  each [fst aa; snd aa; snd bb] (fun fd => sys (Close fd);; mret tt);;
  c0 ← read_char (fst bb);
  c1 ← read_char (fst bb);
  c2 ← read_char (fst bb);
  sys (Close (fst bb));;
  st1 ← wait_status j1;
  st2 ← wait_status j2;
  let buf := cstring [c0; c1; c2; 0] in
  if negb (st1 =? 0) || negb (st2 =? 0) || negb (bool_decide (strcmp (arr buf) (arr (str (line "hi"))) 4 = Some 0)) then
    printf (String.append "grind: exec pipeline failed %d %d " (String.append quote (String.append "%s" (line quote)))) [ANum st1; ANum st2; AStr (Some buf)];;
    exit 1
  else mret tt.

Definition go_pipeline (j1 j2 : Z) : U unit :=
  aa ← sys Pipe;
  if fst aa <? 0 then fail 2 "grind: pipe failed" 1
  else
    bb ← sys Pipe;
    if fst bb <? 0 then fail 2 "grind: pipe failed" 1
    else
      pid1 ← sys Fork;
      if pid1 =? 0 then go_echo (snd aa) (snd bb)
      else if pid1 <? 0 then fail 2 "grind: fork failed" 3
      else
        pid2 ← sys Fork;
        if pid2 =? 0 then go_cat (snd aa) (snd bb)
        else if pid2 <? 0 then fail 2 "grind: fork failed" 7
        else go_pipeline_end j1 j2 (snd aa) (snd bb).

(** A round of the loop of [go]. *)
Definition go_round (j1 j2 which_child break0 : Z) (g : grind) : U grind :=
  let iters := u64 (g_iters g + 1) in
  (if iters mod 500 =? 0 then sys (Write 1 (str (if which_child =? 0 then "A" else "B")));; mret tt else mret tt);;
  let next := do_rand (rand_next g) in
  let what := next mod 23 in
  let g := Grind (g_fd g) (g_buf g) iters next in
  if what =? 0 then mret g
  else if what <=? 12 then go_files what g
  else if what <=? 20 then go_procs what break0;; mret g
  else if what =? 21 then go_stat;; mret g
  else go_pipeline j1 j2;; mret g.

Definition go (j1 j2 which_child next : Z) : U unit :=
  break0 ← sys (Sbrk 0);
  sys (Mkdir (str "grindir"));;
  r ← sys (Chdir (str "grindir"));
  if negb (r =? 0) then fail 1 "grind: chdir grindir failed" 1
  else
    sys (Chdir (str "/"));;
    ITree.iter (fun g => g ← go_round j1 j2 which_child break0 g; mret (inl g)) (Grind (-1) (replicate 999 0) 0 next).

(** [iter], with [rand_next]. *)
Definition grind_iter (j1 j2 next : Z) : U unit :=
  unlink "a";;
  unlink "b";;
  pid1 ← sys Fork;
  if pid1 <? 0 then fail 1 "grind: fork failed" 1
  else if pid1 =? 0 then go j1 j2 0 (Z.lxor next 31);; exit 0
  else
    pid2 ← sys Fork;
    if pid2 <? 0 then fail 1 "grind: fork failed" 1
    else if pid2 =? 0 then go j1 j2 1 (Z.lxor next 7177);; exit 0
    else
      st1 ← wait_status (-1);
      (if negb (st1 =? 0) then sys (Kill pid1);; sys (Kill pid2);; mret tt else mret tt);;
      wait_status (-1);;
      exit 0.

Definition grind_main (j1 j2 : Z) : U unit :=
  ITree.iter (fun next =>
    pid ← sys Fork;
    if pid =? 0 then grind_iter j1 j2 next;; exit 0
    else
      (if 0 <? pid then wait0 else mret tt);;
      sys (Sleep 20);;
      mret (inl (u64 (next + 1)))) 1.

(** ** Runs *)

Inductive ending (A : Type) := Val (a : A) | Exited (status : Z).
Arguments Val {A} _.
Arguments Exited {A} _.

(** What is at the root of a sequence. *)
Lemma obs_bind {A B} (t : U A) (k : A -> U B) :
  observe (mbind k t) = match observe t with RetF a => observe (k a) | TauF t => TauF (mbind k t) | VisF e f => VisF e (fun x => mbind k (f x)) end.
Proof.
  change (observe (mbind k t)) with (observe (match observe t with RetF a => k a | TauF t => Tau (mbind k t) | VisF e f => Vis e (fun x => mbind k (f x)) end)).
  by destruct (observe t).
Qed.

Section Run.
(** A kernel: the state of the machine, and what it answers to each call. *)
Context {W : Type} (handle : forall X, callE X -> W -> X * W).

Fixpoint run {A} (fuel : nat) (t : U A) (w : W) : option (ending A * W) :=
  match fuel with
  | O => None
  | S fuel =>
      match observe t with
      | RetF a => Some (Val a, w)
      | TauF t => run fuel t w
      | VisF (inl1 e) k => let x := handle _ e w in run fuel (k (fst x)) (snd x)
      | VisF (inr1 e) _ => match e with Exit n => Some (Exited n, w) end
      end
  end.

Definition runs {A} (t : U A) (w : W) (r : ending A) (w' : W) : Prop := exists fuel, run fuel t w = Some (r, w').

Lemma runs_ret {A} (a : A) w : runs (mret a) w (Val a) w.
Proof. by exists 1%nat. Qed.


Lemma run_S {A} n (t : U A) w x : run n t w = Some x -> run (S n) t w = Some x.
Proof.
  revert t w. induction n as [|n IH]; intros t w E; [discriminate|]. change (run (S n) t w) with
    (match observe t with RetF a => Some (Val a, w) | TauF t => run n t w | VisF (inl1 e) k => let x := handle _ e w in run n (k (fst x)) (snd x)
     | VisF (inr1 e) _ => match e with Exit n => Some (Exited n, w) end end) in E.
  cbn [run] in *. destruct (observe t) as [b|t'|X [e|e] f]; [done|by apply IH|by apply IH|done].
Qed.

Lemma run_le {A} n m (t : U A) w x : (n <= m)%nat -> run n t w = Some x -> run m t w = Some x.
Proof. intros Hl E. induction Hl; [done|by apply run_S]. Qed.

Lemma runs_bind {A B} (t : U A) (k : A -> U B) w a w1 r w2 :
  runs t w (Val a) w1 -> runs (k a) w1 r w2 -> runs (mbind k t) w r w2.
Proof.
  intros [n Ht] [m Hk]. revert t w Ht. induction n as [|n IH]; intros t w Ht; [discriminate|]. 
  cbn [run] in Ht. pose proof (obs_bind t k) as Eb. destruct (observe t) as [b|t'|X [e|e] f] eqn:Eo.
  - injection Ht as -> ->. exists m. destruct m as [|m]; [discriminate|]. cbn [run] in *. by rewrite Eb.
  - destruct (IH _ _ Ht) as [q Hq]. exists (S q). cbn [run]. by rewrite Eb.
  - destruct (IH _ _ Ht) as [q Hq]. exists (S q). cbn [run]. by rewrite Eb.
  - destruct e. discriminate.
Qed.

Lemma runs_sys {X B} (e : callE X) (k : X -> U B) w r w2 :
  runs (k (fst (handle _ e w))) (snd (handle _ e w)) r w2 -> runs (mbind k (sys e)) w r w2.
Proof. apply runs_bind. exists 2%nat. reflexivity. Qed.

Lemma runs_exit {A} n w : runs (exit n : U A) w (Exited n) w.
Proof. by exists 1%nat. Qed.

Lemma runs_iter {A I} (body : I -> U (I + A)) i w x w1 r w2 :
  runs (body i) w (Val x) w1 ->
  runs (match x with inl i => ITree.iter body i | inr a => mret a end) w1 r w2 ->
  runs (ITree.iter body i) w r w2.
Proof.
  intros H1 H2. assert (E : runs (mbind (fun x => match x with inl i => Tau (ITree.iter body i) | inr a => mret a end) (body i)) w r w2).
  { apply (runs_bind _ _ _ _ _ _ _ H1). destruct x; [|done]. destruct H2 as [n Hn]. by exists (S n). }
  destruct E as [n E]. exists n. destruct n as [|n]; [discriminate|]. exact E.
Qed.
End Run.

(** ** cat and wc on files *)

(** What the two programs rely on: [read] delivers some of the bytes that are left, none only
    at the end; [write] writes everything; [open] starts at the beginning of the file. *)
Class Files {W : Type} (handle : forall X, callE X -> W -> X * W) := {
  content : W -> list Z -> option (list Z);
  unread : W -> Z -> list Z;
  output : W -> Z -> list Z;
  read_ok : forall fd n w, 0 < n -> exists b w', handle _ (Read fd n) w = (Z.of_nat (length b), b, w') /\
    unread w fd = b ++ unread w' fd /\ (b = [] -> unread w fd = []) /\ Z.of_nat (length b) <= n /\
    content w' = content w /\ output w' = output w;
  write_ok : forall fd b w, exists w', handle _ (Write fd b) w = (Z.of_nat (length b), w') /\
    output w' = (fun fd' => output w fd' ++ if decide (fd' = fd) then b else []) /\ unread w' = unread w /\ content w' = content w;
  open_ok : forall path d w, content w path = Some d -> exists fd w', handle _ (Open path 0) w = (fd, w') /\
    0 <= fd /\ unread w' fd = d /\ content w' = content w /\ output w' = output w;
  close_ok : forall fd w, content (snd (handle _ (Close fd) w)) = content w /\ output (snd (handle _ (Close fd) w)) = output w;
}.

Section Files.
Context {W : Type} (handle : forall X, callE X -> W -> X * W) `{!Files handle}.

(** The run of [t] adds [o] to the standard output and leaves the files as they are. *)
Definition prints {A} (t : U A) (w : W) (r : ending A) (w' : W) (o : list Z) : Prop :=
  runs handle t w r w' /\ output w' 1 = output w 1 ++ o /\ content w' = content w.

Lemma puts_prints s w : exists w', prints (each s (putc 1)) w (Val tt) w' s /\ unread w' = unread w.
Proof.
  revert w. induction s as [|c s IH]; intros w.
  - exists w. split; [|done]. split; [apply runs_ret|]. by rewrite app_nil_r.
  - destruct (write_ok 1 [c] w) as (w1 & E1 & Ho & Hu & Hc). destruct (IH w1) as (w2 & (Hr & Ho2 & Hc2) & Hu2).
    exists w2. split; [|by rewrite Hu2]. split; [|split; [|by rewrite Hc2]].
    + cbn [each]. apply (runs_bind _ _ _ _ tt w1); [|exact Hr]. apply runs_sys. rewrite E1. apply runs_ret.
    + rewrite Ho2, Ho. rewrite decide_True by done. by rewrite <- app_assoc.
Qed.

(** The bytes read so far decide what a loop that reads to the end does: [I p w] holds when the
    bytes [p] were read. *)
Lemma read_all {S A} fd (size : S -> Z) (body : S -> U (S + A)) (I : list Z -> S -> W -> Prop) (Q : A -> W -> Prop) d :
  (forall p s w, I p s w -> d = p ++ unread w fd -> 0 < size s) ->
  (forall p s w b w1, I p s w -> handle _ (Read fd (size s)) w = (Z.of_nat (length b), b, w1) -> b <> [] -> unread w fd = b ++ unread w1 fd ->
     d = (p ++ b) ++ unread w1 fd -> content w1 = content w -> output w1 = output w ->
     exists s' w', runs handle (body s) w (Val (inl s')) w' /\ I (p ++ b) s' w' /\ unread w' fd = unread w1 fd) ->
  (forall s w w1, I d s w -> handle _ (Read fd (size s)) w = (0, [], w1) -> content w1 = content w -> output w1 = output w ->
     exists a w', runs handle (body s) w (Val (inr a)) w' /\ Q a w') ->
  forall p s w, I p s w -> d = p ++ unread w fd ->
  exists a w', runs handle (ITree.iter body s) w (Val a) w' /\ Q a w'.
Proof.
  intros Hsize Hstep Hend p s w. remember (length (unread w fd)) as n eqn:En. revert p s w En.
  induction n as [n IH] using lt_wf_ind; intros p s w En HI Hd.
  destruct (read_ok fd (size s) w) as (b & w1 & E & Hu & Hb & _ & Hc & Ho); [by apply (Hsize p s w)|].
  destruct b as [|c b].
  - rewrite (Hb eq_refl), app_nil_r in Hd. subst p. destruct (Hend s w w1 HI E Hc Ho) as (a & w' & Hr & HQ).
    exists a, w'. split; [|exact HQ]. apply (runs_iter _ _ _ _ _ _ _ _ Hr), runs_ret.
  - assert (Hd' : d = (p ++ c :: b) ++ unread w1 fd) by (rewrite <- app_assoc, <- Hu; exact Hd).
    destruct (Hstep p s w (c :: b) w1 HI E ltac:(discriminate) Hu Hd' Hc Ho) as (s' & w' & Hr & HI' & Hu').
    destruct (IH (length (unread w' fd))) with (p := p ++ c :: b) (s := s') (w := w') as (a & w2 & Hr2 & HQ); [|done|done|by rewrite Hu'|].
    { subst n. rewrite Hu', Hu. rewrite length_app. cbn [length]. lia. }
    exists a, w2. split; [|exact HQ]. apply (runs_iter _ _ _ _ _ _ _ _ Hr), Hr2.
Qed.

Lemma cat_prints fd w : exists w', prints (cat fd) w (Val tt) w' (unread w fd).
Proof.
  destruct (read_all fd (fun _ => 512) (cat_round fd)
    (fun p _ v => output v 1 = output w 1 ++ p /\ content v = content w)
    (fun _ v => output v 1 = output w 1 ++ unread w fd /\ content v = content w) (unread w fd))
    with (p := @nil Z) (s := tt) (w := w) as ([] & w' & Hr & HQ).
  - done.
  - intros p [] v b v1 [Ho Hc] E Hb Hu Hd Hc1 Ho1. destruct (write_ok 1 b v1) as (v2 & E2 & Ho2 & Hu2 & Hc2).
    exists tt, v2. split; [|split; [split|]].
    + apply runs_sys. rewrite E. cbn [fst snd]. destruct b as [|c b]; [done|]. cbn [length]. destruct (Z.ltb_spec 0 (Z.of_nat (S (length b)))); [|lia].
      apply runs_sys. rewrite E2. cbn [fst snd length]. rewrite Z.eqb_refl. apply runs_ret.
    + rewrite Ho2, Ho1, Ho, decide_True by done. by rewrite <- app_assoc.
    + by rewrite Hc2, Hc1.
    + by rewrite Hu2.
  - intros [] v v1 [Ho Hc] E Hc1 Ho1. exists tt, v1. split; [|by rewrite Ho1, Hc1].
    apply runs_sys. rewrite E. apply runs_ret.
  - by rewrite app_nil_r.
  - done.
  - exists w'. destruct HQ as [Ho Hc]. by split; [exact Hr|].
Qed.

Lemma each_prints (names : list (list Z)) (f : list Z -> U unit) (o : list Z -> list Z -> list Z) w :
  (forall a d v, a ∈ names -> content v = content w -> content v a = Some d -> exists v', prints (f a) v (Val tt) v' (o a d)) ->
  forall ds v, content v = content w -> mapM (content w) names = Some ds ->
  exists v', prints (each names f) v (Val tt) v' (concat (zip_with o names ds)).
Proof.
  induction names as [|a names IH]; intros Hf ds v Hv Hds.
  - injection Hds as <-. exists v. split; [apply runs_ret|]. by rewrite app_nil_r.
  - cbn in Hds. destruct (content w a) as [d|] eqn:Ed; [|discriminate]. destruct (mapM (content w) names) as [ds'|] eqn:Es; [|discriminate].
    injection Hds as <-. destruct (Hf a d v) as (v1 & Hr1 & Ho1 & Hc1); [left|done|by rewrite Hv|].
    destruct (IH (fun b d' u Hb => Hf b d' u (list_elem_of_further _ _ _ Hb)) ds' v1) as (v2 & Hr2 & Ho2 & Hc2); [by rewrite Hc1|done|].
    exists v2. split; [|split; [|by rewrite Hc2]].
    + cbn [each]. by apply (runs_bind _ _ _ _ tt v1).
    + rewrite Ho2, Ho1. cbn. by rewrite <- app_assoc.
Qed.

(** A program that opens every file it is given, prints something for it and closes it. *)
Lemma files_prints names ds (t : Z -> list Z -> U unit) (bad : list Z -> U unit) (o : list Z -> list Z -> list Z) w :
  mapM (content w) names = Some ds ->
  (forall a d fd v, a ∈ names -> content v = content w -> content v a = Some d -> unread v fd = d -> exists v', prints (t fd a) v (Val tt) v' (o a d)) ->
  exists w', prints (each names (fun a => fd ← sys (Open a 0); if fd <? 0 then bad a else t fd a;; sys (Close fd);; mret tt);; exit 0) w (Exited 0) w'
    (concat (zip_with o names ds)) (A := unit).
Proof.
  intros Hds Ht. destruct (each_prints names (fun a => fd ← sys (Open a 0); if fd <? 0 then bad a else t fd a;; sys (Close fd);; mret tt) o w) with (ds := ds) (v := w) as (w' & Hr & Ho & Hc);
    [|done|exact Hds|exists w'; split; [apply (runs_bind _ _ _ _ tt w'); [exact Hr|apply runs_exit]|done]].
  intros a d v Ha Hv Hd. destruct (open_ok a d v Hd) as (fd & v1 & E & Hfd & Hu & Hc1 & Ho1).
  destruct (Ht a d fd v1) as (v2 & Hr2 & Ho2 & Hc2); [done|by rewrite Hc1|by rewrite Hc1|done|]. destruct (close_ok fd v2) as [Hc3 Ho3].
  exists (snd (handle _ (Close fd) v2)). split; [|split; [by rewrite Ho3, Ho2, Ho1|by rewrite Hc3, Hc2]].
  apply runs_sys. rewrite E. cbn [fst snd]. destruct (Z.ltb_spec fd 0); [lia|].
  apply (runs_bind _ _ _ _ tt v2); [exact Hr2|]. apply runs_sys, runs_ret.
Qed.

Lemma zip_with_snd (l : list (list Z)) (ds : list (list Z)) : length l = length ds -> zip_with (fun _ d => d) l ds = ds.
Proof. revert ds. induction l as [|x l IH]; intros [|d ds] Hl; try done. cbn. f_equal. apply IH. by injection Hl. Qed.

(** [cat f1 ... fn] writes the files to the standard output, one after the other. *)
Theorem cat_concatenates cmd names ds w :
  names <> [] -> mapM (content w) names = Some ds -> exists w', prints (cat_main (cmd :: names)) w (Exited 0) w' (concat ds).
Proof.
  intros Hne Hds. destruct names as [|a names]; [done|].
  rewrite <- (zip_with_snd (a :: names) ds) by (by apply (length_mapM (content w))).
  apply (files_prints _ _ (fun fd _ => cat fd)); [exact Hds|].
  intros x d fd v _ _ _ <-. apply cat_prints.
Qed.

(** *** grep *)

Lemma writes_print (ws : list (list Z)) w :
  exists w', prints (each ws (fun x => sys (Write 1 x);; mret tt)) w (Val tt) w' (concat ws) /\ unread w' = unread w.
Proof.
  revert w. induction ws as [|x ws IH]; intros w.
  - exists w. split; [|done]. split; [apply runs_ret|]. by rewrite app_nil_r.
  - destruct (write_ok 1 x w) as (w1 & E1 & Ho & Hu & Hc). destruct (IH w1) as (w2 & (Hr & Ho2 & Hc2) & Hu2).
    exists w2. split; [|by rewrite Hu2]. split; [|split; [|by rewrite Hc2]].
    + cbn [each]. apply (runs_bind _ _ _ _ tt w1); [|exact Hr]. apply runs_sys. rewrite E1. apply runs_ret.
    + rewrite Ho2, Ho. rewrite decide_True by done. by rewrite <- app_assoc.
Qed.

Lemma grep_cut_line re acc l s : Forall inline l ->
  grep_cut re acc (l ++ NL :: s) = (let '(ws, r) := grep_cut re [] s in (if match_ re (acc ++ l) then ((acc ++ l) ++ [NL]) :: ws else ws, r)).
Proof.
  intros Hl. revert acc. induction Hl as [|c l [H0 HN] _ IH]; intros acc; [by rewrite app_nil_r|].
  cbn [grep_cut app]. apply Z.eqb_neq in H0 as ->, HN as ->. rewrite IH, <- app_assoc. done.
Qed.

Lemma grep_cut_rest re acc r : Forall inline r -> grep_cut re acc r = ([], acc ++ r).
Proof.
  intros Hr. revert acc. induction Hr as [|c r [H0 HN] _ IH]; intros acc; [by rewrite app_nil_r|].
  cbn [grep_cut]. apply Z.eqb_neq in H0 as ->, HN as ->. rewrite IH, <- app_assoc. done.
Qed.

Lemma grep_cut_text re ls r : Forall (Forall inline) ls -> Forall inline r ->
  exists ws, grep_cut re [] (text ls ++ r) = (ws, r) /\ concat ws = text (hits re ls).
Proof.
  intros Hls Hr. induction Hls as [|l ls Hl _ (ws & E & Ew)].
  - exists []. split; [by apply grep_cut_rest|done].
  - rewrite text_cons, grep_cut_line by done. rewrite E. cbn [app]. eexists. split; [reflexivity|]. unfold hits. rewrite list.filter_cons.
    destruct (match_ re l); [rewrite decide_True by done|by rewrite decide_False by done]. unfold text. cbn. by rewrite Ew.
Qed.

(** Text of lines of at most 1022 characters, without NUL, with [tl] after the last newline. *)
Record plain (ls : list (list Z)) (tl : list Z) : Prop := {
  pl_lines : Forall (Forall inline) ls;
  pl_tail : Forall inline tl;
  pl_short : Forall (fun l => length l <= 1022)%nat (tl :: ls);
}.

Lemma inline_short ls tl r s : plain ls tl -> Forall inline r -> r ++ s = text ls ++ tl -> (length r <= 1022)%nat.
Proof.
  intros [Hls Htl Hsh] Hr E. apply list.Forall_cons in Hsh as [Ht Hsh]. destruct ls as [|l ls].
  - apply (f_equal length) in E. rewrite !length_app in E. cbn in E. lia.
  - apply list.Forall_cons in Hsh as [Hl _]. rewrite text_cons in E. apply Nat.nlt_ge. intros Hlt.
    apply (f_equal (lookup (length l))) in E. rewrite lookup_app_l, list_lookup_middle in E by (done || lia).
    eapply Forall_lookup_1 in E; [|exact Hr]. by destruct E.
Qed.

Lemma grep_prints re fd ls tl w : plain ls tl -> unread w fd = text ls ++ tl ->
  exists w', prints (grep_fd re fd) w (Val tt) w' (text (hits re ls)).
Proof.
  intros Hp Hd. destruct (read_all fd grep_size (grep_round re fd)
    (fun p s v => exists ls1 ls2, ls = ls1 ++ ls2 /\ p = text ls1 ++ s /\ Forall inline s /\ output v 1 = output w 1 ++ text (hits re ls1) /\ content v = content w)
    (fun _ v => output v 1 = output w 1 ++ text (hits re ls) /\ content v = content w) (text ls ++ tl))
    with (p := @nil Z) (s := @nil Z) (w := w) as ([] & w' & Hr & Ho & Hc).
  - intros p s v (ls1 & ls2 & -> & -> & Hs & _) E. rewrite text_app, <- !app_assoc in E. apply app_inv_head in E.
    assert (Hp2 : plain ls2 tl) by (destruct Hp as [H1 H2 H3]; apply Forall_app in H1 as [_ H1]; apply list.Forall_cons in H3 as [H3 H4]; apply Forall_app in H4 as [_ H4]; split; [done|done|by apply list.Forall_cons]).
    pose proof (inline_short ls2 tl s _ Hp2 Hs (eq_sym E)). unfold grep_size, BUFSZ. lia.
  - intros p s v b v1 (ls1 & ls2 & Els & -> & Hs & Ho & Hc) E Hb Hu Hd1 Hc1 Ho1.
    assert (E2 : (s ++ b) ++ unread v1 fd = text ls2 ++ tl).
    { rewrite Els, text_app, <- !app_assoc in Hd1. apply app_inv_head in Hd1. by rewrite <- app_assoc. }
    pose proof (pl_lines _ _ Hp) as Hls. rewrite Els in Hls. apply Forall_app in Hls as [_ Hls2].
    destruct (cut_text ls2 tl (s ++ b) (unread v1 fd) Hls2 (pl_tail _ _ Hp) E2) as (la & lb & r & E3 & Eb & E4 & Hr & _).
    destruct (grep_cut_text re la r) as (ws & Ec & Ew); [rewrite E3 in Hls2; by apply Forall_app in Hls2 as [? _]|done|].
    destruct (writes_print ws v1) as (v2 & (Hr2 & Ho2 & Hc2) & Hu2). exists r, v2. split; [|split; [|by rewrite Hu2]].
    + apply runs_sys. rewrite E. cbn [fst snd]. destruct (Z.ltb_spec 0 (Z.of_nat (length b))); [|destruct b; [done|cbn in *; lia]].
      rewrite Eb, Ec. apply (runs_bind _ _ _ _ tt v2); [exact Hr2|apply runs_ret].
    + exists (ls1 ++ la), lb. split; [by rewrite Els, E3, app_assoc|]. split; [by rewrite text_app, <- !app_assoc, Eb|]. split; [done|].
      rewrite Ho2, Ho1, Ho, Ew, hits_app, text_app, <- app_assoc. split; [done|]. by rewrite Hc2, Hc1.
  - intros s v v1 (ls1 & ls2 & Els & Ed & Hs & Ho & Hc) E Hc1 Ho1. exists tt, v1. split; [apply runs_sys; rewrite E; apply runs_ret|].
    rewrite Els, text_app, <- app_assoc in Ed. apply app_inv_head in Ed. destruct ls2 as [|l ls2]; [by rewrite Ho1, Hc1, Els, app_nil_r|].
    exfalso. rewrite text_cons in Ed. rewrite <- Ed in Hs. apply Forall_app in Hs as [_ Hs]. inversion Hs as [|? ? [_ Hn] _]. done.
  - exists [], ls. split; [done|]. split; [done|]. split; [constructor|]. by rewrite app_nil_r.
  - by rewrite <- Hd.
  - exists w'. by split; [exact Hr|].
Qed.

(** [grep re f1 ... fn] prints the lines of each file that match, in order, each with its newline. *)
Theorem grep_prints_hits cmd re names (tss : list (list (list Z) * list Z)) w :
  names <> [] -> mapM (content w) names = Some ((fun x => text (fst x) ++ snd x) <$> tss) -> Forall (fun x => plain (fst x) (snd x)) tss ->
  exists w', prints (grep_main (cmd :: re :: names)) w (Exited 0) w' (concat ((fun x => text (hits re (fst x))) <$> tss)).
Proof.
  intros Hne Hds Hp. destruct names as [|a names]; [done|]. set (o := fun (_ d : list Z) => concat (fst (grep_cut re [] d))).
  assert (Ho : forall x, plain (fst x) (snd x) -> o [] (text (fst x) ++ snd x) = text (hits re (fst x))).
  { intros x [H1 H2 _]. destruct (grep_cut_text re (fst x) (snd x) H1 H2) as (ws & Ec & Ew). unfold o. by rewrite Ec. }
  destruct (files_prints (a :: names) _ (fun fd _ => grep_fd re fd) (fun a => printf (line "grep: cannot open %s") [AStr (Some a)];; exit 1) o w Hds) as (w' & Hw).
  - intros x d fd v Hx Hv Hd Hu. apply mapM_Some_1 in Hds. rewrite Hv in Hd. apply list_elem_of_lookup in Hx as [i Hi].
    destruct (Forall2_lookup_l _ _ _ _ _ Hds Hi) as (d' & Hi' & Hd'). rewrite Hd in Hd'. injection Hd' as <-.
    apply list_lookup_fmap_Some in Hi' as (y & -> & Hy). pose proof (Forall_lookup_1 _ _ _ _ Hp Hy) as Hpy.
    change (o x (text (fst y) ++ snd y)) with (o [] (text (fst y) ++ snd y)). rewrite Ho by done. by apply (grep_prints re fd (fst y) (snd y)).
  - exists w'. apply length_mapM in Hds. replace (zip_with o (a :: names) ((fun x => text (fst x) ++ snd x) <$> tss)) with ((fun x => text (hits re (fst x))) <$> tss) in Hw; [exact Hw|].
    clear Hw Hne. revert tss Hds Hp. induction (a :: names) as [|b l IH]; intros [|y tss] Hl Hp; try done. apply list.Forall_cons in Hp as [Hy Hp].
    cbn. f_equal; [by rewrite <- (Ho y Hy)|]. apply IH; [by injection Hl|done].
Qed.

(** *** wc *)

(** The numbers of lines and of words: a word starts at a byte that is not white space, at the
    beginning or after white space. *)
Definition lines (d : list Z) : nat := length (filter (fun c => c = 10) d).
Definition starts_word (d : list Z) (i : nat) : bool :=
  negb (has wc_spaces (nth i d 0)) && match i with O => true | S j => has wc_spaces (nth j d 0) end.
Definition words (d : list Z) : nat := length (filter (fun i => starts_word d i = true) (seq 0 (length d))).

(** What [wc] knows when it has read [p]. *)
Definition counts_of (p : list Z) : counts :=
  Counts (Z.of_nat (lines p)) (Z.of_nat (words p)) (Z.of_nat (length p)) (match list.last p with Some c => negb (has wc_spaces c) | None => false end).

Lemma words_le p : (words p <= length p)%nat.
Proof. unfold words. rewrite length_filter, length_seq. done. Qed.

Lemma filter_same {A} (P Q : A -> Prop) `{!forall x, Decision (P x)} `{!forall x, Decision (Q x)} (l : list A) :
  (forall x, x ∈ l -> P x <-> Q x) -> filter P l = filter Q l.
Proof.
  induction l as [|x l IH]; intros Hl; [done|]. rewrite !list.filter_cons, IH by (intros; apply Hl; by right).
  pose proof (Hl x (list_elem_of_here _ _)). repeat case_decide; tauto.
Qed.

Lemma words_snoc p c :
  words (p ++ [c]) = (words p + if negb (has wc_spaces c) && negb (inword (counts_of p)) then 1 else 0)%nat.
Proof.
  unfold words. rewrite length_app, Nat.add_1_r, seq_S, list.filter_app, length_app. cbn [Nat.add]. f_equal.
  - f_equal. apply filter_same. intros i Hi%elem_of_seq. unfold starts_word. rewrite app_nth1 by lia. destruct i; [done|]. by rewrite app_nth1 by lia.
  - rewrite list.filter_cons, list.filter_nil. unfold starts_word. rewrite nth_middle. cbn [counts_of inword].
    assert (E : match length p with O => true | S j => has wc_spaces (nth j (p ++ [c]) 0) end = negb match list.last p with Some c => negb (has wc_spaces c) | None => false end).
    { destruct p as [|x p _] using rev_ind; [done|]. rewrite last_snoc, negb_involutive, length_app, Nat.add_1_r. rewrite <- app_assoc. cbn [app]. by rewrite nth_middle. }
    rewrite E. by destruct (has wc_spaces c), (negb _); cbn.
Qed.

Lemma lines_snoc p c : lines (p ++ [c]) = (lines p + if decide (c = 10%Z) then 1 else 0)%nat.
Proof. unfold lines. rewrite list.filter_app, length_app, list.filter_cons, list.filter_nil. by case_decide. Qed.

Lemma wc_char_counts p c : Z.of_nat (length p) + 1 < 2 ^ 31 -> wc_char (counts_of p) c = counts_of (p ++ [c]).
Proof.
  intros Hl. pose proof (words_le p) as Hw. assert (Hn : (lines p <= length p)%nat) by apply length_filter.
  unfold wc_char, counts_of. rewrite words_snoc, lines_snoc, last_snoc, length_app. cbn [wl ww wch inword counts_of length].
  replace (s32 (Z.of_nat (length p) + 1)) with (Z.of_nat (length p + 1)) by (unfold s32; lia).
  assert (El : (if c =? 10 then s32 (Z.of_nat (lines p) + 1) else Z.of_nat (lines p)) = Z.of_nat (lines p + if decide (c = 10) then 1 else 0)).
  { case_decide; destruct (Z.eqb_spec c 10); try done; unfold s32; lia. }
  rewrite El. destruct (has wc_spaces c); cbn [negb andb]; [by rewrite Nat.add_0_r|].
  destruct (match list.last p with Some c => _ | None => _ end); cbn [negb]; [by rewrite Nat.add_0_r|]. f_equal. unfold s32; lia.
Qed.

Lemma wc_counts_run b p : Z.of_nat (length (p ++ b)) < 2 ^ 31 -> foldl wc_char (counts_of p) b = counts_of (p ++ b).
Proof.
  revert p. induction b as [|c b IH]; intros p Hl; [by rewrite app_nil_r|]. cbn [foldl]. rewrite length_app in Hl. cbn [length] in Hl.
  rewrite wc_char_counts by lia. rewrite IH; [by rewrite <- app_assoc|]. rewrite !length_app. cbn [length]. lia.
Qed.

(** What [wc] prints for a file. *)
Definition wc_report (name d : list Z) : list Z :=
  printint digits_user (Z.of_nat (lines d)) 10 true ++ [32] ++ printint digits_user (Z.of_nat (words d)) 10 true ++ [32] ++
  printint digits_user (Z.of_nat (length d)) 10 true ++ [32] ++ name ++ [10].

Lemma wc_format l w c name :
  vprintf (str (line "%d %d %d %s")) [ANum l; ANum w; ANum c; AStr (Some name)] false =
    Some (printint digits_user (s32 l) 10 true ++ [32] ++ printint digits_user (s32 w) 10 true ++ [32] ++ printint digits_user (s32 c) 10 true ++ [32] ++ name ++ [10]).
Proof. reflexivity. Qed.

Lemma wc_prints fd name w : Z.of_nat (length (unread w fd)) < 2 ^ 31 -> exists w', prints (wc fd name) w (Val tt) w' (wc_report name (unread w fd)).
Proof.
  intros Hl. destruct (read_all fd (fun _ => 512) (wc_round fd)
    (fun p k v => k = counts_of p /\ output v = output w /\ content v = content w)
    (fun k v => k = counts_of (unread w fd) /\ output v = output w /\ content v = content w) (unread w fd))
    with (p := @nil Z) (s := Counts 0 0 0 false) (w := w) as (k & w1 & Hr & Hk & Ho & Hc).
  - done.
  - intros p k v b v1 (-> & Ho & Hc) E Hb Hu Hd Hc1 Ho1. exists (counts_of (p ++ b)), v1. split; [|by rewrite Ho1, Hc1].
    apply runs_sys. rewrite E. cbn [fst snd]. destruct (Z.ltb_spec 0 (Z.of_nat (length b))); [|destruct b; [done|cbn in *; lia]].
    rewrite wc_counts_run; [apply runs_ret|]. rewrite Hd, length_app in Hl. lia.
  - intros k v v1 (-> & Ho & Hc) E Hc1 Ho1. exists (counts_of (unread w fd)), v1. split; [|by rewrite Ho1, Hc1].
    apply runs_sys. rewrite E. apply runs_ret.
  - done.
  - done.
  - destruct (puts_prints (wc_report name (unread w fd)) w1) as (w2 & (Hr2 & Ho2 & Hc2) & _).
    exists w2. split; [|by rewrite Ho2, Ho, Hc2]. apply (runs_bind _ _ _ _ k w1); [exact Hr|]. subst k.
    pose proof (words_le (unread w fd)). assert (Hn : (lines (unread w fd) <= length (unread w fd))%nat) by apply length_filter.
    unfold printf, fprintf. match goal with |- runs _ (each (default [] ?x) _) _ _ _ => replace x with (Some (wc_report name (unread w fd))); [exact Hr2|] end.
    cbn [counts_of wl ww wch]. rewrite wc_format, !s32_small by lia. done.
Qed.

(** [wc f1 ... fn] ends and prints, for each file in turn, the number of its newlines, the
    number of its words and the number of its bytes, however the file arrives in reads of up
    to 512 bytes; a word is a longest run of bytes that are not white space. *)
Theorem wc_counts cmd names ds w :
  names <> [] -> mapM (content w) names = Some ds -> Forall (fun d => Z.of_nat (length d) < 2 ^ 31) ds ->
  exists w', prints (wc_main (cmd :: names)) w (Exited 0) w' (concat (zip_with wc_report names ds)).
Proof.
  intros Hne Hds Hl. destruct names as [|a names]; [done|]. apply (files_prints _ _ wc); [exact Hds|].
  intros x d fd v Hx Hv Hd <-. apply wc_prints. apply mapM_Some_1 in Hds. rewrite Hv in Hd.
  apply list_elem_of_lookup in Hx as [i Hi]. destruct (Forall2_lookup_l _ _ _ _ _ Hds Hi) as (d' & Hi' & Hd'). rewrite Hd in Hd'. injection Hd' as <-.
  by apply (Forall_lookup_1 _ _ _ _ Hl Hi').
Qed.
End Files.

(** A kernel with files that are read three bytes at a time. *)
Record toy := Toy { toy_files : list Z -> option (list Z); toy_unread : Z -> list Z; toy_output : Z -> list Z }.

Definition toy_handle (X : Type) (e : callE X) (w : toy) : X * toy :=
  match e in callE X return X * toy with
  | Open path _ =>
      match toy_files w path with
      | Some d => (3, Toy (toy_files w) (fun fd => if decide (fd = 3) then d else toy_unread w fd) (toy_output w))
      | None => (-1, w)
      end
  | Close _ => (0, w)
  | Read fd n =>
      let b := take (Z.to_nat (n `min` 3)) (toy_unread w fd) in
      (Z.of_nat (length b), b, Toy (toy_files w) (fun fd' => if decide (fd' = fd) then drop (length b) (toy_unread w fd) else toy_unread w fd') (toy_output w))
  | Write fd b => (Z.of_nat (length b), Toy (toy_files w) (toy_unread w) (fun fd' => toy_output w fd' ++ if decide (fd' = fd) then b else []))
  | Fstat _ => (-1, Stat 0 0 0 0 0, w)
  | Pipe => (-1, (0, 0), w)
  | Wait => (-1, 0, w)
  | Ringbuf _ _ _ => (-1, 0, w)
  | Dup _ | Mknod _ _ _ | Mkdir _ | Link _ _ | Unlink _ | Fork | Exec _ _ | Kill _ | Sleep _ | Uptime | Chdir _ | Getpid | Sbrk _ => (-1, w)
  end.

#[local] Program Instance toy_kernel : Files toy_handle := {| content := toy_files; unread := toy_unread; output := toy_output |}.
Next Obligation.
  intros fd n w Hn. set (b := take (Z.to_nat (n `min` 3)) (toy_unread w fd)).
  exists b, (Toy (toy_files w) (fun fd' => if decide (fd' = fd) then drop (length b) (toy_unread w fd) else toy_unread w fd') (toy_output w)).
  split; [done|]. cbn [toy_unread toy_files toy_output]. rewrite decide_True by done.
  split; [|split; [|split; [|done]]].
  - unfold b. rewrite length_take. destruct (decide (length (toy_unread w fd) <= Z.to_nat (n `min` 3))%nat) as [Hl|Hl].
    + rewrite take_ge, Nat.min_r, drop_all by lia. by rewrite app_nil_r.
    + rewrite Nat.min_l by lia. by rewrite take_drop.
  - unfold b. intros Hb. destruct (toy_unread w fd); [done|]. destruct (Z.to_nat (n `min` 3)) eqn:E; [lia|discriminate].
  - unfold b. rewrite length_take. lia.
Qed.
Next Obligation. intros fd b w. eexists. split; [reflexivity|]. done. Qed.
Next Obligation.
  intros path d w Hd. cbn [toy_handle]. rewrite Hd. eexists 3, _. split; [reflexivity|]. split; [done|]. split; [|done]. cbn. by rewrite decide_True.
Qed.
Next Obligation. done. Qed.

Definition toy_world : toy :=
  Toy (fun path => if decide (path = str "f") then Some (str (String.append "two words" (String.append nl "x"))) else None) (fun _ => []) (fun _ => []).

Lemma wc_counts_witness :
  exists w, runs toy_handle (wc_main [str "wc"; str "f"]) toy_world (Exited 0) w /\ toy_output w 1 = str (line "1 3 11 f").
Proof.
  destruct (wc_counts toy_handle (str "wc") [str "f"] [str (String.append "two words" (String.append nl "x"))] toy_world) as (w & Hr & Ho & _);
    [discriminate|reflexivity|repeat constructor|].
  exists w. split; [exact Hr|]. exact Ho.
Defined.

(** ** Safety of every run *)

Section Safe.
(** An observer: how a call and its answer change its state, [None] for a call it refuses; and
    the states in which the program may exit. *)
Context {O : Type} (watch : forall X, callE X -> X -> O -> option O) (may_exit : O -> bool).

(** No run of [t] of up to [n] steps is refused, and one that returns satisfies [Q]. *)
Fixpoint safe {A} (n : nat) (t : U A) (o : O) (Q : A -> O -> Prop) : Prop :=
  match n with
  | 0%nat => True
  | S n =>
      match observe t with
      | RetF a => Q a o
      | TauF t => safe n t o Q
      | VisF (inl1 e) k => forall x, match watch _ e x o with Some o => safe n (k x) o Q | None => False end
      | VisF (inr1 _) _ => may_exit o = true
      end
  end.

Lemma safe_ret {A} n (a : A) o (Q : A -> O -> Prop) : Q a o -> safe n (mret a) o Q.
Proof. by destruct n. Qed.

Lemma safe_exit {A} n s o (Q : A -> O -> Prop) : may_exit o = true -> safe n (exit s) o Q.
Proof. by destruct n. Qed.

Lemma safe_seq {A B} n (t : U A) (k : A -> U B) o (P : A -> O -> Prop) (Q : B -> O -> Prop) :
  safe n t o P -> (forall a o m, (m <= n)%nat -> P a o -> safe m (k a) o Q) -> safe n (mbind k t) o Q.
Proof.
  revert t o. induction n as [|n IH]; intros t o Ht Hk; [done|]. cbn [safe] in *.
  assert (Hk' : forall a o m, (m <= n)%nat -> P a o -> safe m (k a) o Q) by (intros; apply Hk; [lia|done]).
  rewrite obs_bind. destruct (observe t) as [a|t'|X [e|e] f].
  - apply (Hk a o (S n)); [lia|done].
  - by apply IH.
  - intros x. specialize (Ht x). destruct (watch X e x o); [|done]. by apply IH.
  - done.
Qed.

Lemma safe_sys {X B} n (e : callE X) (k : X -> U B) o (Q : B -> O -> Prop) :
  (forall x m, match watch _ e x o with Some o => safe m (k x) o Q | None => False end) -> safe n (mbind k (sys e)) o Q.
Proof.
  intros Hk. destruct n as [|n]; [done|]. cbn. intros x. specialize (Hk x n). destruct (watch X e x o) as [o'|]; [|done].
  destruct n; [done|]. exact Hk.
Qed.

Lemma safe_iter {A I} (body : I -> U (I + A)) (P : I -> O -> Prop) (Q : A -> O -> Prop) :
  (forall m i o, P i o -> safe m (body i) o (fun r o => match r with inl i => P i o | inr a => Q a o end)) ->
  forall n i o, P i o -> safe n (ITree.iter body i) o Q.
Proof.
  intros Hb n. induction n as [n IH] using lt_wf_ind. intros i o Hi.
  assert (E : safe n (mbind (fun x => match x with inl i => Tau (ITree.iter body i) | inr a => mret a end) (body i)) o Q).
  { apply (safe_seq _ _ _ _ _ _ (Hb n i o Hi)). intros [i'|a] o' m Hm HP; [|by apply safe_ret].
    destruct m as [|m]; [done|]. cbn. apply IH; [lia|done]. }
  destruct n; [done|exact E].
Qed.

Lemma safe_mono {A} n (t : U A) o (P Q : A -> O -> Prop) : safe n t o P -> (forall a o, P a o -> Q a o) -> safe n t o Q.
Proof.
  revert t o. induction n as [|n IH]; intros t o Ht HPQ; [done|]. cbn [safe] in *. destruct (observe t) as [a|t'|X [e|e] f]; [by apply HPQ|by apply IH| |done].
  intros x. specialize (Ht x). destruct (watch X e x o); [|done]. by apply IH.
Qed.
End Safe.

(** ** init keeps one shell *)

(** What [init] has done: it has no shell, it has the shell [pid], it is the child that becomes
    the shell, or a call it depends on failed. *)
Inductive shell := NoShell | Shell (pid : Z) | InChild | Failed.

(** [fork] only without a shell, [wait] only with one, [exec] only in the child. *)
Definition init_watch (X : Type) (e : callE X) : X -> shell -> option shell :=
  match e in callE X return X -> shell -> option shell with
  | Fork => fun pid o =>
      match o with NoShell => Some (if pid <? 0 then Failed else if pid =? 0 then InChild else Shell pid) | _ => None end
  | Wait => fun r o =>
      match o with Shell pid => Some (if fst r =? pid then NoShell else if fst r <? 0 then Failed else Shell pid) | _ => None end
  | Exec _ _ => fun _ o => match o with InChild => Some InChild | _ => None end
  | Kill _ => fun _ _ => None
  | _ => fun _ o => Some o
  end.

Definition init_may_exit (o : shell) : bool := match o with InChild | Failed => true | _ => false end.

Abbreviation init_safe := (safe init_watch init_may_exit).

Lemma puts_safe n fd s o : init_safe n (each s (putc fd)) o (fun _ o' => o' = o).
Proof.
  induction s as [|c s IH] in n |- *; [by apply safe_ret|]. cbn [each].
  apply (safe_seq _ _ _ _ _ _ (fun _ o' => o' = o)); [apply safe_sys; intros; by apply safe_ret|]. intros _ ? m _ ->. apply IH.
Qed.

Lemma say_safe {A} n fd s ap (k : U A) o Q : (forall m, init_safe m k o Q) -> init_safe n (fprintf fd s ap;; k) o Q.
Proof. intros Hk. apply (safe_seq _ _ _ _ _ _ _ _ (puts_safe _ _ _ _)). intros _ ? m _ ->. apply Hk. Qed.

Lemma init_wait_safe n pid : 0 < pid -> init_safe n (init_wait pid) (Shell pid) (fun _ o => o = NoShell).
Proof.
  intros Hp. apply (safe_iter _ _ _ (fun _ o => o = Shell pid)); [|done]. intros m [] o ->. apply safe_sys. intros r m'. cbn.
  destruct (fst r =? pid); [by apply safe_ret|]. destruct (fst r <? 0); [|by apply safe_ret]. apply say_safe. intros. by apply safe_exit.
Qed.

Lemma init_loop_safe n : init_safe n init_loop NoShell (fun _ _ => False).
Proof.
  apply (safe_iter _ _ _ (fun _ o => o = NoShell)); [|done]. intros m [] o ->. apply say_safe. intros m1. apply safe_sys. intros pid m2. cbn.
  destruct (Z.ltb_spec pid 0); [apply say_safe; intros; by apply safe_exit|]. destruct (Z.eqb_spec pid 0).
  - apply safe_sys. intros x m3. cbn. apply say_safe. intros. by apply safe_exit.
  - apply (safe_seq _ _ _ _ _ _ _ _ (init_wait_safe m2 pid ltac:(lia))). intros _ ? m3 _ ->. by apply safe_ret.
Qed.

(** C40: whatever the kernel answers, [init] has at most one shell: it forks only when it has no
    shell, waits only for the shell it has, and forks the next one only after [wait] returned
    the pid of the last; it runs [exec] only in the child.  It never returns, and exits only in
    the child, when [exec] failed, or after [fork] or [wait] failed. *)
Theorem init_keeps_one_shell n : init_safe n init_main NoShell (fun _ _ => False).
Proof.
  apply safe_sys. intros fd m. cbn. apply (safe_seq _ _ _ _ _ _ (fun _ o => o = NoShell)).
  - destruct (fd <? 0); [|by apply safe_ret]. do 2 (apply safe_sys; intros; cbn). by apply safe_ret.
  - intros _ ? m1 _ ->. do 2 (apply safe_sys; intros; cbn). apply init_loop_safe.
Qed.

(** ** The benchmark [pb] *)

Lemma pb_check_filled rem buf i : (forall j, i <= j < i + Z.of_nat rem -> buf j = 109) -> pb_check rem buf i = None.
Proof.
  revert i. induction rem as [|rem IH]; intros i Hb; [done|]. cbn [pb_check]. rewrite (Hb i) by lia. cbn. apply IH. intros. apply Hb. lia.
Qed.

Section Pb.
Context {W : Type} (handle : forall X, callE X -> W -> X * W).

Lemma then_runs {A B} (t : U A) (k : A -> U B) w a w1 r :
  runs handle t w (Val a) w1 -> (exists w', runs handle (k a) w1 r w') -> exists w', runs handle (mbind k t) w r w'.
Proof. intros Ht [w' Hk]. exists w'. by apply (runs_bind _ _ _ _ a w1). Qed.

Lemma sys_runs {X A} (e : callE X) (k : X -> U A) w r :
  (exists w', runs handle (k (fst (handle _ e w))) (snd (handle _ e w)) r w') -> exists w', runs handle (mbind k (sys e)) w r w'.
Proof. intros [w' Hr]. exists w'. by apply runs_sys. Qed.

Lemma say_runs {A} fd s ap (k : U A) w r :
  (forall v, exists v', runs handle k v r v') -> exists w', runs handle (fprintf fd s ap;; k) w r w'.
Proof.
  intros Hk. assert (Hp : forall l v, exists v', runs handle (each l (putc fd)) v (Val tt) v').
  { induction l as [|c l IH]; intros v; [exists v; apply runs_ret|]. cbn [each].
    apply (then_runs _ _ _ tt (snd (handle _ (Write fd [c]) v))); [apply runs_sys, runs_ret|apply IH]. }
  destruct (Hp (default [] (vprintf (str s) ap false)) w) as [v Hv]. apply (then_runs _ _ _ tt v); [exact Hv|apply Hk].
Qed.

Lemma pb_validate_filled buf0 clocks w : exists w', runs handle (pb_validate (pb_filled buf0) clocks) w (Val 0) w'.
Proof.
  unfold pb_validate. apply say_runs. intros v.
  rewrite pb_check_filled; [|intros; unfold pb_filled; destruct (Z.leb_spec 0 j), (Z.ltb_spec j (ITR * MB)); try done; lia].
  apply say_runs. intros. apply sys_runs. apply say_runs. intros u. exists u. apply runs_ret.
Qed.

(** The validation does not depend on what was received: a parent that reads nothing at all
    reports success, since the buffer it checks was filled before the fork. *)
Theorem pb_passes_without_data junk pid p buf0 w :
  (forall v, fst (handle _ (Read (fst p) MB) v) = (0, [])) -> (forall v, fst (handle _ Wait v) = (pid, 0)) -> 0 < pid ->
  exists w', runs handle (pb_parent junk pid p (pb_filled buf0)) w (Val 0) w'.
Proof.
  intros Hread Hwait Hpid. unfold pb_parent. do 2 apply sys_runs. apply say_runs. intros v.
  apply (then_runs _ _ _ (pb_filled buf0, 0) (snd (handle _ (Read (fst p) MB) v))).
  { apply (runs_iter _ _ _ _ (inr (pb_filled buf0, 0)) (snd (handle _ (Read (fst p) MB) v))); [|apply runs_ret]. apply runs_sys. rewrite Hread. apply runs_ret. }
  apply say_runs. intros v1. apply say_runs. intros v2.
  apply (then_runs _ _ _ 0 (snd (handle _ Wait v2))).
  { apply runs_sys. rewrite Hwait. cbn [fst snd]. destruct (Z.ltb_spec pid 0); [lia|]. apply runs_ret. }
  apply say_runs. intros. apply sys_runs, pb_validate_filled.
Qed.

Lemma open_ring_runs name tab junk w :
  (forall name open buf v, fst (fst (handle _ (Ringbuf name open buf) v)) = 0) ->
  exists a w', runs handle (open_ring name tab junk) w (Val (ringbuf_open 0 a tab)) w'.
Proof. intros Hk. eexists _, _. apply runs_sys. rewrite Hk. cbn [Z.eqb negb]. apply runs_bind with tt (snd (handle _ (Ringbuf name true junk) w)); apply runs_ret. Qed.

Lemma close_ring_runs name tab past rd x (k : Z * list user_ring_buf -> U Z) r w :
  (forall name open buf v, fst (fst (handle _ (Ringbuf name open buf) v)) = 0) ->
  is_rd_valid tab past rd = 0 -> ringbuf_close tab past rd 0 = Some x -> (forall v, exists w', runs handle (k x) v r w') ->
  exists w', runs handle (mbind k (close_ring name tab past rd)) w r w'.
Proof.
  intros Hk Hv Hx Hr. apply (then_runs _ _ _ x (snd (handle _ (Ringbuf name false (close_addr (entry tab past rd))) w))); [|apply Hr].
  unfold close_ring. rewrite Hv. cbn [Z.eqb negb]. apply runs_sys. rewrite Hk. cbn [Z.eqb negb]. rewrite Hx.
  apply runs_bind with tt (snd (handle _ (Ringbuf name false (close_addr (entry tab past rd))) w)); apply runs_ret.
Qed.

(** When the kernel grants every call, the library test opens the ring twice and closes both. *)
Theorem urbt_closes_both past junk w :
  (forall name open buf v, fst (fst (handle _ (Ringbuf name open buf) v)) = 0) ->
  exists w', runs handle (serial_read_write (replicate (Z.to_nat MAX_USR_RINGBUF) (UserRingBuf 0 0 0)) past junk) w (Val 0) w'.
Proof.
  intros Hk. set (tab := replicate _ _). unfold serial_read_write.
  destruct (open_ring_runs muteeb tab junk w Hk) as (a1 & w1 & H1). apply (then_runs _ _ _ _ _ _ H1).
  destruct (open_ring_runs muteeb (snd (ringbuf_open 0 a1 tab)) junk w1 Hk) as (a2 & w2 & H2). apply (then_runs _ _ _ _ _ _ H2).
  unfold tab. cbn [ringbuf_open Z.eqb negb open_slot replicate Z.to_nat MAX_USR_RINGBUF Pos.to_nat Pos.iter_op Nat.add fst snd uexists Z.add Z.ltb Z.compare].
  eapply close_ring_runs; [exact Hk|reflexivity|reflexivity|]. intros v. cbn [fst snd Z.eqb negb].
  eapply close_ring_runs; [exact Hk|reflexivity|reflexivity|]. intros v'. eexists. apply runs_ret.
Qed.
End Pb.

(** ** Random numbers *)

(** [do_rand] computes the generator of Park and Miller, [7^5 x mod (2^31 - 1)], shifted to start at
    0, although no intermediate value needs more than 31 bits and a sign. *)
Theorem do_rand_park_miller ctx :
  do_rand ctx = (7 ^ 5 * (ctx mod (2 ^ 31 - 2) + 1)) mod (2 ^ 31 - 1) - 1 /\ 0 <= do_rand ctx <= 2 ^ 31 - 3.
Proof.
  unfold do_rand. set (x := ctx mod 0x7ffffffe + 1). change (ctx mod (2 ^ 31 - 2) + 1) with x.
  assert (Hx : 1 <= x <= 2147483646) by (unfold x; lia). clearbody x.
  pose proof (Z.div_mod x 127773 ltac:(lia)) as Ed. pose proof (Z.mod_pos_bound x 127773 ltac:(lia)) as Hm.
  set (hi := x / 127773) in *. set (lo := x mod 127773) in *. clearbody hi lo. subst x.
  assert (E : (7 ^ 5 * (127773 * hi + lo)) mod (2 ^ 31 - 1) = if 16807 * lo - 2836 * hi <? 0 then 16807 * lo - 2836 * hi + 0x7fffffff else 16807 * lo - 2836 * hi).
  { destruct (Z.ltb_spec (16807 * lo - 2836 * hi) 0).
    - symmetry. apply (Z.mod_unique _ _ (hi - 1)); lia.
    - symmetry. apply (Z.mod_unique _ _ hi); lia. }
  rewrite E. split; [done|]. destruct (Z.ltb_spec (16807 * lo - 2836 * hi) 0); [lia|].
  assert (16807 * lo - 2836 * hi <> 0); [|lia]. intros Hz. assert (Hd : (16807 * lo) mod 2836 = 0) by (apply Z.mod_divide; [lia|]; exists hi; lia).
  assert (exists q, lo = 2836 * q) as [q ->]; [|lia].
  assert (Z.divide 2836 lo) as [q Hq]; [|exists q; lia]. apply (Z.gauss 2836 16807); [exists hi; lia|reflexivity].
Qed.
